(* ===== verification/_CoqProject ===== *)
-Q . S2P
Prelude.v
BerEncoder.v
BerDecoder.v
BerInteger.v
ByteBuf.v
Cotp.v
Session.v
Alloc.v
MmsValue.v
MmsData.v
GoosePublisher.v
GooseSubscriber.v
GooseData.v
GooseReceiver.v
GooseExchange.v
Presentation.v
Acse.v
CotpLink.v
IsoConnection.v
IecCommon.v
StringUtils.v
ObjectReference.v
SvPublisher.v
SvSubscriber.v
SvExchange.v
ServerCommon.v
ReportBuffer.v
Reporting.v
StateMonad.v
TypeSpec.v
Control.v
ControlSafety.v
ControlDefined.v
RcbAccess.v
RcbCreation.v
RcbSafety.v
RcbHistories.v
