(* ===== verification/Prelude.v ===== *)
(** * Verification library for the protocol stack of the multi-tool

    Process-Bus-Multi-Tool carries the C library libiec61850 under
    [src/source_code/deps/libiec61850] and browses devices with its MMS client; file
    names in this development are relative to that directory.  The development models the
    protocol stack of that library from the bottom up: the BER primitives, the MMS
    values and their encoding, the OSI layers below MMS, the GOOSE and sampled values
    protocols on Ethernet, and of the IEC 61850 server the reports and the controls.

    ** Parts

    - [Prelude] (this file): machine integers with their wrap-around, buffers with
      bounds, the predicate [bytes_at], and the automation all files share.
    - [BerEncoder], [BerDecoder] ([src/mms/asn1/ber_encoder.c], [ber_decode.c]): tags,
      lengths and primitive values in a buffer; used by all layers above.
    - [BerInteger] ([ber_integer.c], [asn1_ber_primitive_value.c]): integers of any width.
    - [ByteBuf] ([src/common/byte_buffer.c], [buffer_chain.c]): the buffers the
      connection layers hand to each other.
    - [Cotp] ([src/mms/iso_cotp/cotp.c] and the loop of
      [src/mms/iso_server/iso_connection.c] around it): TPKT packets and fragments on a
      TCP stream that takes and gives any part of what is asked for.
    - [Session] ([src/mms/iso_session/iso_session.c]): session protocol data units.
    - [Presentation] ([src/mms/iso_presentation/iso_presentation.c]): presentation
      connections and contexts; [Acse] ([src/mms/iso_acse/acse.c]): association,
      application names and authentication.
    - [CotpLink]: the transport connection of [Cotp] under any traffic;
      [IsoConnection] ([src/mms/iso_server/iso_connection.c]): the server side of a
      connection, which puts the layers together under the handlers of the MMS server,
      stated as the type class [HandlerOk].
    - [Alloc]: allocations that may fail; [MmsValue]
      ([src/mms/iso_mms/common/mms_value.c]): the values; [MmsData]
      ([src/mms/iso_mms/server/mms_access_result.c]): their encoding.
    - [GoosePublisher] ([src/goose/goose_publisher.c]), [GooseSubscriber]
      ([goose_subscriber.c], [goose_receiver_internal.h]), [GooseData] and
      [GooseReceiver] ([goose_receiver.c]), [GooseExchange]: the composition of publisher
      and receiver.
    - [IecCommon] and [ObjectReference] ([src/iec61850/common/iec61850_common.c]): qualities,
      time stamps, functional constraints; references and the MMS names they stand for.
      [StringUtils] ([src/common/string_utilities.c]): the string functions they use.
    - [SvPublisher], [SvSubscriber] ([src/sampled_values/sv_publisher.c],
      [sv_subscriber.c]), [SvExchange]: sampled values and the composition of both sides.
    - [ReportBuffer] and [Reporting]
      ([src/iec61850/server/mms_mapping/reporting.c]): the ring buffer of a report control
      block as a chain of entries in one block of memory, and how changes, general
      interrogations and integrity periods become reports in it.
    - [StateMonad]: computations over a state that may be undefined, with their laws and the
      two ways to reason about them; [TypeSpec] ([src/mms/iso_mms/common/mms_type_spec.c] and
      the constructors of [mms_value.c] by type): types of variables, their values and the
      components that names select.
    - [Control] ([src/iec61850/server/mms_mapping/control.c]): the state machine of a control
      object, from the write access of a client to the cycle of the server thread, in a state
      monad over the object and the parts of the mapping it touches; the handlers of the
      application and the clocks are its [Environment], the messages and calls that leave it the
      list [sent].  [ControlSafety]: what sequences of requests can do to an object;
      [ControlDefined]: that write accesses have a result.

    - [ServerCommon]: the error codes and helpers that controls and reports share.
      [RcbAccess] (reporting.c and the write handler of [mms_mapping.c]): what clients do to a
      report control block, its reservation and owner, its data set and its settings, and the
      ends of connections; it contains the [ReportControl] of [Reporting] that makes the
      reports.  [RcbCreation]: the blocks the server creates from its model.  [RcbSafety]: which
      parts of a block each operation can change, and what it makes of them; [RcbHistories]: what
      sequences of accesses of several clients can do to a block.

    A file has one Module of its name, in which an operation has the name of the C
    function without the prefix of its component ([BerEncoder_encodeLength] is
    [BerEncoder.encodeLength]); the parts a C function has been cut into (a loop, the
    cases of a switch) are named after what they do, and the function is their
    composition.  The manifest gives the lines of each definition.

    ** How the code is represented

    - A C integer is the integer it denotes; every conversion that can change it is
      written ([u8], [u16], [u32], [s32], ...), and so is arithmetic that can wrap.
      [int] arithmetic is exact where the operands keep it in range.
    - A buffer is a list of octets.  Reading ([b.[i]]) and writing ([b.[i]:= x]) outside
      of it give [None], which stands for undefined behaviour; a theorem that a
      function returns [Some] therefore includes that all its accesses are in bounds.
      Return codes such as -1 and [NULL] are values.
    - Code that changes an object returns the changed object.  Where several holders
      share one (subscribers of a GOOSE receiver), it lives in a store.
    - Loops that are not structural run on fuel and give [None] when it is used up, so
      that the same theorems show that the fuel is enough.  The fuel of a loop is one
      more than the number of octets it can consume (each round consumes at least one);
      [decodeLengthRecursive] has twice the octets left plus two, for its two mutually
      recursive functions.
    - An allocation asks the oracle of [Alloc]; theorems about a function hold for every
      oracle, that is for every combination of failing allocations, unless they name
      the one in which all succeed (the empty list).
    - The environment (the TCP socket, the Ethernet socket, clocks, listeners) is an
      argument or part of the result: a socket of [Cotp] carries the outcome of each
      coming read and write, a GOOSE frame is what a receiver is handed, and the call of
      a listener is a value.

    ** What is shown

    - Round trips of what one side encodes and the other side decodes, for every layer:
      lengths and integers, MMS values of any depth, connection requests and confirms,
      session PDUs, whole GOOSE frames from publisher to subscriber, samples in sampled values
      frames ([written_value_read]), time stamps ([timestamp_time]) and object references
      ([object_reference_roundtrip]); where the
      code does not give the value back, the theorem says for which inputs
      ([decodeUint32_encodeUInt32WithTL], [mms_string_component_rejected],
      [exact_frame_refused]).
    - Safety of every parser on arbitrary input: it ends, stays inside its buffers and
      gives well-formed results ([decodeLength_sound], [parseIncomingMessage_safe],
      [parseMessage_safe], [presentation_parse_safe], [acse_parse_safe],
      [decodeMmsData_safe], [receiver_safe], [sv_receiver_safe],
      [parseAllData_type_safe], [parseUnknown_safe]).
    - Refinement of an abstract contract: a message sent through [Cotp] is a sequence of
      fragments in the byte stream however the socket splits writes and reads, and the
      receiver gets the same message ([sendDataMessage_stream], [readToTpktBuffer_framing],
      [message_transfer]); a published data set is the data set the subscriber holds
      ([published_frame], [published_frame_received]); the commands of a sampled values
      publisher, which write through pointers into a prepared frame, act on an abstract list of
      samples that the listeners of the subscriber read ([sv_frames],
      [sampled_values_received]).
    - Invariants over the life of an object: reachable publishers send exactly the frame
      of their state with increasing numbers ([frames_in_order]); reachable receivers
      keep their subscribers well-formed; reachable server connections keep the
      invariants of all layers on any input ([server_safe]).
    - Reports: the buffer refines a queue of the reports made, whose octets are never changed
      ([report_buffer_fifo]); what one report does to it ([report_enqueued]); which reports are
      made when ([processEvents_reports]), from which values ([change_recorded]), and where
      sending goes on ([resync_after_entry]).  The loops over the buffer have as fuel two more
      than its octets; each entry takes at least one.
    - Controls: over every sequence of requests of clients, the server thread and closing
      connections, the operate handler is called only for a command that was given, accepted and
      not ended since ([control_authorised]), the states stay consistent ([control_consistent]),
      selections end with their time-out ([selection_expires]), and a write access under any name
      is defined for the parameters that the write service lets through, those of the type of
      the command ([control_write_defined]).  The state machine
      of a task runs at most two rounds ([state_machine]): the second is the one of
      [STATE_OPERATE], which is the last; the search for the service in a name has the octets of
      the name plus one.
    - Report control blocks: a created block is consistent ([rcb_created]), and over every sequence
      of accesses of clients, closing connections and reports it stays so ([rcb_consistent]); the block of a
      client is left alone by the others, whose writes are refused ([reservation_respected]), an
      enabled block stays enabled with its settings until its client or the server ends it
      ([reports_stay_enabled]), and the reservation of a client that left ends with its time
      ([reservation_expires]).  The parsers of addresses have the octets of the text plus one as fuel.
    - Types of variables: a value created from a type has it ([variable_keeps_type]), and the
      two ways to the component a name selects, in the type and in the value, agree
      ([component_access]).
    - Opening connections: what a client asks for in the connection, session,
      presentation and association requests is what the server reads, and the server
      associates if and only if its authenticator agrees ([connect_request_accepted],
      [connect_spdu_roundtrip], [presentation_handshake], [associate_request_accepted]).
    - Functional correctness of the operations on values: cloning, updating, bits, times,
      native conversions, sizes.

    The listed findings of the manifest are the places where the proofs had to be stated
    around what the code does.

    ** Configuration

    The code is modelled as the repository builds it: little-endian, [NDEBUG],
    [COTP_MAX_TPDU_SIZE] 8192, layer 2 GOOSE only ([CONFIG_IEC61850_R_GOOSE] is 0), TLS off,
    the debug output off.

    ** Not modelled

    The MMS and IEC 61850 clients and servers above the values ([src/mms/iso_mms/client],
    [server], [src/iec61850/client], [server]), except for the reports, the report control blocks and
    the controls: sending a report to its client ([sendNextReportEntry]) and the content of the service
    tracking objects are left out; generated code
    ([src/mms/iso_mms/asn1c]); the hardware abstraction layer ([hal]), whose socket,
    thread and clock calls are the environment above; logging, SNTP and R-GOOSE
    ([src/logging], [src/sntp], [src/r_session]); the Go program around the library.  Threads are not modelled:
    a connection or a receiver is run by one thread, and the operations of a connection
    exclude each other, as its mutex makes them.  Freeing memory is not modelled. *)

From stdpp Require Export base numbers list option gmap.
#[global] Open Scope Z_scope.

(** ** Machine integers

    A C integer is the mathematical integer it denotes; conversions to a
    narrower or a signed type are written out with these functions. *)

Definition u8 (z : Z) : Z := z mod 256.
Definition u16 (z : Z) : Z := z mod 65536.
Definition u32 (z : Z) : Z := z mod 4294967296.
Definition u64 (z : Z) : Z := z mod 18446744073709551616.
Definition s8 (z : Z) : Z := (z + 128) mod 256 - 128.
Definition s16 (z : Z) : Z := (z + 32768) mod 65536 - 32768.
Definition s32 (z : Z) : Z := (z + 2147483648) mod 4294967296 - 2147483648.
Definition s64 (z : Z) : Z := (z + 9223372036854775808) mod 18446744073709551616 - 9223372036854775808.

Definition is_u8 (z : Z) : Prop := 0 <= z < 256.
Definition is_u16 (z : Z) : Prop := 0 <= z < 65536.
Definition is_u32 (z : Z) : Prop := 0 <= z < 4294967296.
Definition is_s32 (z : Z) : Prop := -2147483648 <= z < 2147483648.
Definition is_s64 (z : Z) : Prop := -9223372036854775808 <= z < 9223372036854775808.

#[export] Instance is_u8_dec z : Decision (is_u8 z).
Proof. unfold is_u8. apply _. Defined.

Abbreviation zlen l := (Z.of_nat (length l)).

#[global] Arguments Z.of_nat : simpl never.
#[global] Arguments Z.pow : simpl never.

Create HintDb cbytes.

Ltac unfold_int :=
  unfold u8, u16, u32, u64, s8, s16, s32, s64, is_u8, is_u16, is_u32, is_s32, is_s64 in *.

(** Linear arithmetic after unfolding the integer types, with divisions and
    remainders by constants turned into equations. *)
Ltac zlia := unfold_int; Z.to_euclidean_division_equations; lia.

Lemma u8_range z : is_u8 (u8 z).
Proof. unfold_int. apply Z.mod_pos_bound. lia. Qed.

Lemma u8_id z : is_u8 z -> u8 z = z.
Proof. unfold_int. apply Z.mod_small. Qed.

Lemma u32_id z : is_u32 z -> u32 z = z.
Proof. unfold_int. apply Z.mod_small. Qed.

Lemma u32_range z : is_u32 (u32 z).
Proof. unfold_int. apply Z.mod_pos_bound. lia. Qed.

Lemma s32_id z : is_s32 z -> s32 z = z.
Proof. unfold_int. intros. rewrite Z.mod_small; lia. Qed.

Lemma s64_id z : is_s64 z -> s64 z = z.
Proof. unfold_int. intros. rewrite Z.mod_small; lia. Qed.

#[export] Hint Resolve u8_range u32_range : cbytes.

(** A decidable statement about a byte holds when it holds for the 256 of them. *)
Lemma byte_cases (P : Z -> bool) :
  forallb P (seqZ 0 256) = true -> forall b, is_u8 b -> P b = true.
Proof.
  intros H b Hb. rewrite forallb_forall in H. apply H.
  apply list_elem_of_In, elem_of_seqZ. unfold_int. lia.
Qed.

(** [0 <= b < 256] is known for [b] and the goal is a decidable fact of [b]. *)
Ltac byte_decide b :=
  match goal with
  | H : is_u8 b |- ?G =>
      let P := eval pattern b in G in
      match P with
      | ?F b =>
          let Q := constr:(fun x : Z => bool_decide (F x)) in
          let HQ := fresh in
          assert (HQ : Q b = true)
            by (apply (byte_cases Q); [vm_compute; reflexivity | exact H]);
          cbv beta in HQ; apply bool_decide_eq_true_1 in HQ; exact HQ
      end
  end.

Lemma byte_land_128 b : is_u8 b -> Z.land b 128 = if decide (128 <= b) then 128 else 0.
Proof. intros H. byte_decide b. Qed.

Lemma byte_land_127 b : is_u8 b -> Z.land b 127 = b mod 128.
Proof. intros H. byte_decide b. Qed.

(** ** Byte buffers

    A C array of bytes is the list of its bytes.  An access outside the array
    has no defined behaviour: it is [None]. *)

Definition rd (b : list Z) (i : Z) : option Z :=
  if decide (0 <= i) then b !! Z.to_nat i else None.

Definition wr (b : list Z) (i x : Z) : option (list Z) :=
  if decide (0 <= i < zlen b) then Some (<[Z.to_nat i := u8 x]> b) else None.

(** [buffer[bufPos++] = x] *)
Definition put (b : list Z) (p x : Z) : option (list Z * Z) :=
  b' ← wr b p x; Some (b', p + 1).

Fixpoint puts (b : list Z) (p : Z) (xs : list Z) : option (list Z * Z) :=
  match xs with
  | [] => Some (b, p)
  | x :: xs => '(b, p) ← put b p x; puts b p xs
  end.

(** [for (i = 0; i < n; i++) dst[dp + i] = src[sp + i]], the effect of
    [memcpy] and of the byte copying loops. *)
Fixpoint copy_bytes (n : nat) (src : list Z) (sp : Z) (dst : list Z) (dp : Z)
    : option (list Z * Z) :=
  match n with
  | O => Some (dst, dp)
  | S n => x ← rd src sp; '(dst, dp) ← put dst dp x; copy_bytes n src (sp + 1) dst dp
  end.

(** The bytes [src[sp .. sp + n)]. *)
Fixpoint rds (n : nat) (src : list Z) (sp : Z) : option (list Z) :=
  match n with
  | O => Some []
  | S n => x ← rd src sp; xs ← rds n src (sp + 1); Some (x :: xs)
  end.

(** [*new++ = *old++], moving bytes towards the front of a buffer. *)
Fixpoint move_bytes (n : nat) (b : list Z) (new old : Z) : option (list Z) :=
  match n with
  | O => Some b
  | S n => x ← rd b old; b ← wr b new x; move_bytes n b (new + 1) (old + 1)
  end.

Declare Scope c_scope.
Delimit Scope c_scope with c.
Notation "b '.[' i ']'" := (rd b i) (at level 1, format "b .[ i ]") : c_scope.
Notation "b '.[' i ']:=' x" := (wr b i x) (at level 1, x at level 20) : c_scope.
#[global] Open Scope c_scope.

(** [xs] is stored in [b] from index [p] on. *)
Fixpoint bytes_at (b : list Z) (p : Z) (xs : list Z) : Prop :=
  match xs with
  | [] => True
  | x :: xs => rd b p = Some x /\ bytes_at b (p + 1) xs
  end.

Definition is_bytes (b : list Z) : Prop := Forall is_u8 b.

Lemma zlen_nonneg {A} (l : list A) : 0 <= zlen l.
Proof. lia. Qed.

Lemma rd_Some b i : 0 <= i < zlen b -> exists x, rd b i = Some x.
Proof.
  intros H. unfold rd. rewrite decide_True by lia. apply lookup_lt_is_Some_2. lia.
Qed.

Lemma rd_inv b i x : rd b i = Some x -> 0 <= i < zlen b.
Proof.
  unfold rd. case_decide; [|done]. intros Hl%lookup_lt_Some. lia.
Qed.

Lemma rd_byte b i x : is_bytes b -> rd b i = Some x -> is_u8 x.
Proof.
  unfold rd. case_decide; [|done]. intros HF Hl. eapply Forall_lookup_1; eauto.
Qed.

Lemma rd_ok b i : is_bytes b -> 0 <= i < zlen b -> exists x, rd b i = Some x /\ is_u8 x.
Proof. intros Hb [x Hx]%rd_Some. eauto using rd_byte. Qed.

Lemma rd_None b i : ~ (0 <= i < zlen b) -> rd b i = None.
Proof.
  intros H. unfold rd. case_decide; [|done]. apply lookup_ge_None_2. lia.
Qed.

Lemma rd_app_l b c i : i < zlen b -> rd (b ++ c) i = rd b i.
Proof.
  intros H. unfold rd. case_decide; [|done]. apply lookup_app_l. lia.
Qed.

Lemma rd_app_r b c i : zlen b <= i -> rd (b ++ c) i = rd c (i - zlen b).
Proof.
  intros H. unfold rd. rewrite !decide_True by lia.
  rewrite lookup_app_r by lia. f_equal. lia.
Qed.

Lemma rd_0 x b : rd (x :: b) 0 = Some x.
Proof. done. Qed.

Lemma rd_S x b i : 0 < i -> rd (x :: b) i = rd b (i - 1).
Proof.
  intros H. unfold rd. rewrite !decide_True by lia.
  replace (Z.to_nat i) with (S (Z.to_nat (i - 1))) by lia. done.
Qed.

Lemma wr_Some b i x : 0 <= i < zlen b -> wr b i x = Some (<[Z.to_nat i := u8 x]> b).
Proof. intros. unfold wr. by rewrite decide_True. Qed.

Lemma wr_inv b i x b' :
  wr b i x = Some b' ->
  0 <= i < zlen b /\ zlen b' = zlen b /\ rd b' i = Some (u8 x) /\
  (forall j, j <> i -> rd b' j = rd b j).
Proof.
  unfold wr. case_decide as Hd; [|done]. intros [= <-].
  rewrite length_insert. split_and!; [lia|lia|done| |].
  - unfold rd. rewrite decide_True by lia. apply list_lookup_insert_eq. lia.
  - intros j Hj. unfold rd. case_decide; [|done].
    apply list_lookup_insert_ne. lia.
Qed.

Lemma wr_bytes b i x b' : is_bytes b -> wr b i x = Some b' -> is_bytes b'.
Proof.
  unfold wr. case_decide as Hd; [|done]. intros Hb [= <-].
  apply Forall_insert; [done | apply u8_range].
Qed.

Lemma put_Some b p x :
  0 <= p < zlen b -> put b p x = Some (<[Z.to_nat p := u8 x]> b, p + 1).
Proof. intros. unfold put. by rewrite wr_Some. Qed.

Lemma puts_app b p xs ys :
  puts b p (xs ++ ys) = '(b, p) ← puts b p xs; puts b p ys.
Proof.
  revert b p. induction xs as [|x xs IH]; intros b p; [done|]. simpl.
  destruct (put b p x) as [[b' p']|]; simpl; [apply IH | done].
Qed.

Lemma puts_snoc_ret b p x : ('(b, p) ← put b p x; Some (b, p)) = puts b p [x].
Proof. simpl. done. Qed.

Lemma puts_one b p x : put b p x = puts b p [x].
Proof. simpl. by destruct (put b p x) as [[??]|]. Qed.

Lemma puts_inv b p xs b' p' :
  puts b p xs = Some (b', p') ->
  p' = p + zlen xs /\ zlen b' = zlen b /\ bytes_at b' p (u8 <$> xs) /\
  (xs = [] \/ 0 <= p /\ p' <= zlen b) /\
  (forall j, j < p \/ p' <= j -> rd b' j = rd b j).
Proof.
  revert b p. induction xs as [|x xs IH]; intros b p; simpl.
  { intros [= <- <-]. split_and!; try lia; auto. }
  unfold put. destruct (wr b p x) as [b1|] eqn:Hw; [|done]. simpl.
  intros H. apply wr_inv in Hw as (Hp & Hl & Hr & Ho).
  apply IH in H as (-> & Hl' & Hat & Hor & Hu).
  split_and!; [lia|lia| |done| |].
  - rewrite Hu by lia. done.
  - right. destruct Hor as [-> | ?]; simpl; lia.
  - intros j Hj. rewrite Hu by lia. apply Ho. lia.
Qed.

Lemma puts_Some b p xs :
  0 <= p -> p + zlen xs <= zlen b -> exists b', puts b p xs = Some (b', p + zlen xs).
Proof.
  revert b p. induction xs as [|x xs IH]; intros b p Hp Hl; simpl in *.
  { exists b. do 2 f_equal. lia. }
  rewrite put_Some by lia. simpl.
  destruct (IH (<[Z.to_nat p:=u8 x]> b) (p + 1)) as [b' Hb']; [lia| |].
  { rewrite length_insert. lia. }
  exists b'. rewrite Hb'. do 2 f_equal. lia.
Qed.

Lemma puts_bytes b p xs b' p' : is_bytes b -> puts b p xs = Some (b', p') -> is_bytes b'.
Proof.
  revert b p. induction xs as [|x xs IH]; intros b p Hb; simpl; [by intros [= <- <-]|].
  unfold put. destruct (wr b p x) as [b1|] eqn:Hw; [|done]. simpl.
  apply IH. eauto using wr_bytes.
Qed.

Lemma u8_bytes xs : is_bytes xs -> u8 <$> xs = xs.
Proof.
  induction 1 as [|x xs Hx _ IH]; csimpl; [done|]. rewrite IH. by rewrite u8_id.
Qed.

Lemma bytes_at_app b p xs ys :
  bytes_at b p (xs ++ ys) <-> bytes_at b p xs /\ bytes_at b (p + zlen xs) ys.
Proof.
  revert p. induction xs as [|x xs IH]; intros p; simpl.
  { replace (p + Z.of_nat 0) with p by lia. tauto. }
  rewrite IH. replace (p + Z.of_nat (S (length xs))) with (p + 1 + zlen xs) by lia.
  tauto.
Qed.

Lemma bytes_at_bound b p xs : bytes_at b p xs -> xs <> [] -> 0 <= p /\ p + zlen xs <= zlen b.
Proof.
  revert p. induction xs as [|x xs IH]; intros p; simpl; [done|].
  intros [Hr H] _. apply rd_inv in Hr.
  destruct xs as [|y ys]; [simpl; lia|]. apply IH in H; [|done]. simpl in *. lia.
Qed.

Lemma bytes_at_lookup b p xs i x :
  bytes_at b p xs -> xs !! i = Some x -> rd b (p + Z.of_nat i) = Some x.
Proof.
  revert p i. induction xs as [|y xs IH]; intros p i; [done|].
  intros [Hr H]. destruct i as [|i]; simpl.
  - intros [= <-]. by rewrite Z.add_0_r.
  - intros Hx. rewrite <- (IH (p + 1) i) by done. f_equal. lia.
Qed.

Lemma bytes_at_frame b b' p xs :
  bytes_at b p xs -> (forall j, p <= j < p + zlen xs -> rd b' j = rd b j) -> bytes_at b' p xs.
Proof.
  revert p. induction xs as [|x xs IH]; intros p; simpl; [done|].
  intros [Hr H] Hf. split; [rewrite Hf by lia; done|].
  apply IH; [done|]. intros j Hj. apply Hf. lia.
Qed.

Lemma bytes_at_self pre xs post : bytes_at (pre ++ xs ++ post) (zlen pre) xs.
Proof.
  revert pre. induction xs as [|x xs IH]; intros pre; simpl; [done|]. split.
  - rewrite rd_app_r by lia. by replace (zlen pre - zlen pre) with 0 by lia.
  - specialize (IH (pre ++ [x])). rewrite length_app in IH. simpl in IH.
    rewrite <- app_assoc in IH. simpl in IH.
    by rewrite Nat2Z.inj_add in IH.
Qed.

Lemma bytes_at_0 xs : bytes_at xs 0 xs.
Proof. generalize (bytes_at_self [] xs []). simpl. by rewrite app_nil_r. Qed.

Lemma bytes_at_take b p xs n : bytes_at b p xs -> bytes_at b p (take n xs).
Proof.
  intros H. rewrite <- (take_drop n xs) in H. by apply bytes_at_app in H as [? _].
Qed.

Lemma rds_at src sp xs : bytes_at src sp xs -> rds (length xs) src sp = Some xs.
Proof.
  revert sp. induction xs as [|x xs IH]; intros sp; simpl; [done|].
  intros [-> H]. simpl. by rewrite IH.
Qed.

Lemma rds_Some n src sp : 0 <= sp -> sp + Z.of_nat n <= zlen src ->
  exists xs, rds n src sp = Some xs /\ length xs = n /\ bytes_at src sp xs.
Proof.
  revert sp. induction n as [|n IH]; intros sp H0 H1; simpl; [by exists []|].
  destruct (rd_Some src sp) as [x Hx]; [lia|]. rewrite Hx. simpl.
  destruct (IH (sp + 1)) as (xs & -> & Hl & Ha); [lia..|]. simpl.
  exists (x :: xs). simpl. auto.
Qed.

Lemma rds_inv n src sp xs : rds n src sp = Some xs -> length xs = n /\ bytes_at src sp xs.
Proof.
  revert sp xs. induction n as [|n IH]; intros sp xs; simpl; [by intros [= <-]|].
  destruct (rd src sp) as [x|] eqn:Hx; [|done]. simpl.
  destruct (rds n src (sp + 1)) as [ys|] eqn:Hy; [|done]. intros [= <-].
  apply IH in Hy as [<- ?]. simpl. auto.
Qed.

Lemma bytes_at_is_bytes b p xs : is_bytes b -> bytes_at b p xs -> is_bytes xs.
Proof.
  revert p. induction xs as [|x xs IH]; intros p Hb; simpl; [constructor|].
  intros [Hr H]. constructor; [eauto using rd_byte | eapply IH; eauto].
Qed.

(** The copying loop writes what it read. *)
Lemma copy_bytes_puts n src sp dst dp xs :
  rds n src sp = Some xs -> copy_bytes n src sp dst dp = puts dst dp xs.
Proof.
  revert sp dst dp xs. induction n as [|n IH]; intros sp dst dp xs; simpl; [by intros [= <-]|].
  destruct (rd src sp) as [x|]; [|done]. simpl.
  destruct (rds n src (sp + 1)) as [ys|] eqn:Hy; [|done]. intros [= <-]. simpl.
  destruct (put dst dp x) as [[d q]|]; simpl; [|done]. by apply IH.
Qed.

Lemma copy_bytes_at src sp xs dst dp :
  bytes_at src sp xs -> copy_bytes (length xs) src sp dst dp = puts dst dp xs.
Proof. intros H. apply copy_bytes_puts. by apply rds_at. Qed.

Lemma copy_at_Z src sp xs dst dp n :
  bytes_at src sp xs -> n = zlen xs -> copy_bytes (Z.to_nat n) src sp dst dp = puts dst dp xs.
Proof. intros H ->. rewrite Nat2Z.id. by apply copy_bytes_at. Qed.

(** ** Big-endian and little-endian values *)

Definition be_acc (a : Z) (bs : list Z) : Z := foldl (fun a b => a * 256 + b) a bs.
Definition be_val (bs : list Z) : Z := be_acc 0 bs.

(** The value of a two's complement big-endian byte string. *)
Definition be_sval (bs : list Z) : Z :=
  be_val bs - (if decide (128 <= default 0 (head bs)) then 256 ^ zlen bs else 0).

Fixpoint le_bytes (n : nat) (z : Z) : list Z :=
  match n with
  | O => []
  | S n => z mod 256 :: le_bytes n (z / 256)
  end.

Definition be_bytes (n : nat) (z : Z) : list Z := reverse (le_bytes n z).

Lemma be_acc_app a xs ys : be_acc a (xs ++ ys) = be_acc (be_acc a xs) ys.
Proof. apply foldl_app. Qed.

Lemma be_acc_val a xs : be_acc a xs = a * 256 ^ zlen xs + be_val xs.
Proof.
  unfold be_val. revert a. induction xs as [|x xs IH] using rev_ind; intros a; [simpl; lia|].
  rewrite !be_acc_app, length_app. simpl.
  replace (Z.of_nat (length xs + 1)) with (zlen xs + 1) by lia.
  rewrite Z.pow_add_r by lia. rewrite (IH a). simpl. lia.
Qed.

Lemma be_val_cons x xs : be_val (x :: xs) = x * 256 ^ zlen xs + be_val xs.
Proof. unfold be_val at 1. simpl. by rewrite be_acc_val. Qed.

Lemma be_val_snoc xs x : be_val (xs ++ [x]) = be_val xs * 256 + x.
Proof. unfold be_val. by rewrite be_acc_app. Qed.

Lemma be_val_bound xs : is_bytes xs -> 0 <= be_val xs < 256 ^ zlen xs.
Proof.
  induction xs as [|x xs IH] using rev_ind; [cbn; lia|].
  intros [H Hx]%Forall_app. rewrite Forall_singleton in Hx. rewrite be_val_snoc, length_app. simpl.
  replace (Z.of_nat (length xs + 1)) with (zlen xs + 1) by lia.
  rewrite Z.pow_add_r, Z.pow_1_r by lia. specialize (IH H). unfold_int. lia.
Qed.

Lemma le_bytes_length n z : length (le_bytes n z) = n.
Proof. revert z. induction n; intros; simpl; auto. Qed.

Lemma be_bytes_length n z : length (be_bytes n z) = n.
Proof. unfold be_bytes. by rewrite length_reverse, le_bytes_length. Qed.

Lemma le_bytes_bytes n z : is_bytes (le_bytes n z).
Proof.
  revert z. induction n; intros; simpl; constructor; [|apply IHn].
  unfold_int. apply Z.mod_pos_bound. lia.
Qed.

Lemma be_bytes_bytes n z : is_bytes (be_bytes n z).
Proof. apply Forall_reverse, le_bytes_bytes. Qed.

Lemma be_bytes_S n z : be_bytes (S n) z = be_bytes n (z / 256) ++ [z mod 256].
Proof. unfold be_bytes. simpl. by rewrite reverse_cons. Qed.

Lemma be_val_be_bytes n z : be_val (be_bytes n z) = z mod 256 ^ Z.of_nat n.
Proof.
  revert z. induction n as [|n IH]; intros z.
  { cbn. by rewrite Z.mod_1_r. }
  rewrite be_bytes_S, be_val_snoc, IH.
  replace (Z.of_nat (S n)) with (Z.of_nat n + 1) by lia.
  rewrite Z.pow_add_r by lia. change (256 ^ 1) with 256.
  rewrite (Z.mul_comm (256 ^ _) 256), Z.rem_mul_r by (try apply Z.pow_pos_nonneg; lia). lia.
Qed.

#[export] Hint Resolve le_bytes_bytes be_bytes_bytes rd_byte wr_bytes puts_bytes : cbytes.
Create Rewrite HintDb clen.
#[export] Hint Rewrite le_bytes_length be_bytes_length : clen.

(** ** Reasoning on buffers through their reads *)

Lemma rd_ext b c :
  zlen b = zlen c -> (forall i, 0 <= i < zlen b -> rd b i = rd c i) -> b = c.
Proof.
  intros Hl H. apply list_eq. intros i.
  destruct (decide (i < length b)%nat) as [Hi|Hi].
  - specialize (H (Z.of_nat i) ltac:(lia)). unfold rd in H.
    rewrite !decide_True, !Nat2Z.id in H by lia. done.
  - rewrite !lookup_ge_None_2 by lia. done.
Qed.

Lemma rd_reverse xs i : 0 <= i < zlen xs -> rd (reverse xs) i = rd xs (zlen xs - 1 - i).
Proof.
  intros H. unfold rd. rewrite !decide_True by lia.
  rewrite reverse_lookup by lia. f_equal. lia.
Qed.

Lemma rd_take xs n i : i < Z.of_nat n -> rd (take n xs) i = rd xs i.
Proof.
  intros H. unfold rd. case_decide; [|done]. apply lookup_take_lt. lia.
Qed.

Lemma bytes_at_of_rd b p xs :
  (forall i, 0 <= i < zlen xs -> rd b (p + i) = rd xs i) -> bytes_at b p xs.
Proof.
  revert p. induction xs as [|x xs IH]; intros p H; simpl in *; [done|]. split.
  - rewrite <- (rd_0 x xs), <- H by lia. f_equal. lia.
  - apply IH. intros i Hi. rewrite <- Z.add_assoc. rewrite H, rd_S by lia. f_equal. lia.
Qed.

Lemma rd_take_ge xs n i : Z.of_nat n <= i -> rd (take n xs) i = None.
Proof.
  intros H. unfold rd. rewrite decide_True by lia. apply lookup_take_ge. lia.
Qed.

(** The buffer after a successful write, spelled out. *)
Lemma puts_splice b p xs :
  is_bytes xs -> 0 <= p -> p + zlen xs <= zlen b ->
  puts b p xs = Some (take (Z.to_nat p) b ++ xs ++ drop (Z.to_nat p + length xs) b, p + zlen xs).
Proof.
  intros Hb Hp Hl. destruct (puts_Some b p xs Hp Hl) as [b' Hb']. rewrite Hb'.
  apply puts_inv in Hb' as (_ & L & Hat & _ & Hu). rewrite u8_bytes in Hat by done.
  do 2 f_equal. apply rd_ext.
  { rewrite !length_app, length_take, length_drop. lia. }
  intros i Hi. destruct (decide (i < p)).
  { rewrite Hu, rd_app_l, rd_take by (rewrite ?length_take; lia). done. }
  rewrite rd_app_r by (rewrite length_take; lia). rewrite length_take.
  replace (i - Z.of_nat (Z.to_nat p `min` length b)) with (i - p) by lia.
  destruct (decide (i < p + zlen xs)).
  - rewrite rd_app_l by lia. unfold rd at 2. rewrite decide_True by lia.
    destruct (lookup_lt_is_Some_2 xs (Z.to_nat (i - p))) as [x Hx]; [lia|].
    rewrite Hx. rewrite <- (bytes_at_lookup _ _ _ _ _ Hat Hx). f_equal. lia.
  - rewrite rd_app_r, Hu by lia. unfold rd. rewrite !decide_True by lia.
    rewrite lookup_drop. f_equal. lia.
Qed.

Lemma puts_snoc_None b p xs x y : puts b p (xs ++ [x]) = None -> puts b p (xs ++ [y]) = None.
Proof.
  rewrite !puts_app. destruct (puts b p xs) as [[b1 p1]|]; [|done]. cbn [mbind option_bind puts].
  unfold put, wr. by case_decide.
Qed.

Lemma wr_puts_last b p xs x y b' p' :
  puts b p (xs ++ [x]) = Some (b', p') ->
  (b'' ← wr b' (p' - 1) y; Some (b'', p')) = puts b p (xs ++ [y]).
Proof.
  rewrite !puts_app. destruct (puts b p xs) as [[b1 p1]|]; [|done]. cbn [mbind option_bind puts].
  unfold put, wr. case_decide as Hd; [|done]. cbn [mbind option_bind]. intros [= <- <-].
  replace (p1 + 1 - 1) with p1 by lia. rewrite decide_True by (rewrite length_insert; lia).
  cbn [mbind option_bind]. by rewrite list_insert_insert_eq.
Qed.

Lemma move_bytes_spec n b new pos :
  is_bytes b -> 0 <= new <= pos -> pos + Z.of_nat n <= zlen b ->
  exists b', move_bytes n b new pos = Some b' /\ zlen b' = zlen b /\
    (forall j, new <= j < new + Z.of_nat n -> rd b' j = rd b (j + (pos - new))) /\
    (forall j, j < new -> rd b' j = rd b j).
Proof.
  revert b new pos. induction n as [|n IH]; intros b new pos Hb Hn Hp; simpl.
  { exists b. split_and!; auto. lia. }
  destruct (rd_ok b pos Hb) as (x & Hx & Hx8); [lia|]. rewrite Hx. simpl.
  destruct (wr b new x) as [b1|] eqn:Hw; [|unfold wr in Hw; case_decide; [done|lia]].
  simpl. pose proof (wr_bytes _ _ _ _ Hb Hw) as Hb1.
  apply wr_inv in Hw as (_ & Hl & Hr & Ho). rewrite u8_id in Hr by done.
  destruct (IH b1 (new + 1) (pos + 1) Hb1) as (b' & -> & Hl' & Hin & Hout); [lia..|].
  exists b'. split_and!; [done|lia| |].
  - intros j Hj. destruct (decide (j = new)) as [->|].
    + rewrite Hout, Hr, <- Hx by lia. f_equal. lia.
    + rewrite Hin, Ho by lia. f_equal. lia.
  - intros j Hj. rewrite Hout, Ho by lia. done.
Qed.

Lemma rds_0_take n b xs : rds n b 0 = Some xs -> take n b = xs.
Proof.
  intros H. apply rds_inv in H as [Hl Hat].
  assert (Hn : (n <= length b)%nat).
  { destruct xs as [|x xs]; [simpl in Hl; lia|].
    destruct (bytes_at_bound _ _ _ Hat ltac:(done)). lia. }
  apply rd_ext; [rewrite length_take; lia|]. intros i Hi. rewrite length_take in Hi.
  rewrite rd_take by lia. destruct (rd_Some xs i) as [x Hx]; [lia|]. rewrite Hx.
  unfold rd in Hx. rewrite decide_True in Hx by lia.
  rewrite <- (bytes_at_lookup _ _ _ _ _ Hat Hx). f_equal. lia.
Qed.

(** A concrete list of bytes is one. *)
Ltac solve_bytes :=
  unfold is_bytes; repeat (apply Forall_cons_2; [unfold is_u8; lia|]); apply Forall_nil_2.

Lemma move_bytes_bytes n b new old b' :
  is_bytes b -> move_bytes n b new old = Some b' -> is_bytes b'.
Proof.
  revert b new old. induction n as [|n IH]; intros b new old Hb; simpl; [by intros [= <-]|].
  destruct (rd b old) as [x|]; [|done]. simpl.
  destruct (wr b new x) as [b1|] eqn:Hw; [|done]. simpl. apply IH. by eapply wr_bytes.
Qed.

Lemma bytes_at_slice b k n :
  0 <= k -> k + Z.of_nat n <= zlen b -> bytes_at b k (take n (drop (Z.to_nat k) b)).
Proof.
  intros Hk Hn. apply bytes_at_of_rd. intros i Hi. rewrite length_take, length_drop in Hi.
  rewrite rd_take by lia. unfold rd. rewrite !decide_True, lookup_drop by lia. f_equal. lia.
Qed.

(** The memory from a position on, for a pointer into a buffer. *)
Definition from (buffer : list Z) (pos : Z) : list Z := drop (Z.to_nat pos) buffer.

Lemma from_bytes b q : is_bytes b -> is_bytes (from b q).
Proof. apply Forall_drop. Qed.

Lemma from_length b q : 0 <= q <= zlen b -> zlen (from b q) = zlen b - q.
Proof. intros. unfold from. rewrite length_drop. lia. Qed.

Lemma bytes_at_from b q xs : 0 <= q -> bytes_at b q xs -> bytes_at (from b q) 0 xs.
Proof.
  intros Hq Hat. apply bytes_at_of_rd. intros i Hi. unfold from, rd. rewrite !decide_True by lia.
  rewrite lookup_drop. destruct (lookup_lt_is_Some_2 xs (Z.to_nat i)) as [x Hx]; [lia|]. rewrite Hx.
  pose proof (bytes_at_lookup _ _ _ _ _ Hat Hx) as E. unfold rd in E. rewrite decide_True in E by lia.
  rewrite <- E. f_equal. lia.
Qed.

(** [memcmp(a, b, n) == 0] *)
Definition memcmp (n : Z) (a b : list Z) : option bool :=
  xs ← rds (Z.to_nat n) a 0; ys ← rds (Z.to_nat n) b 0; Some (bool_decide (xs = ys)).

Lemma rds_take n xs : 0 <= n <= zlen xs -> rds (Z.to_nat n) xs 0 = Some (take (Z.to_nat n) xs).
Proof.
  intros Hn. rewrite <- (rds_at xs 0 (take (Z.to_nat n) xs)) by apply bytes_at_take, bytes_at_0.
  f_equal. rewrite length_take. lia.
Qed.

Lemma memcmp_spec n a b : 0 <= n <= zlen a -> n <= zlen b ->
  memcmp n a b = Some (bool_decide (take (Z.to_nat n) a = take (Z.to_nat n) b)).
Proof. intros. unfold memcmp. by rewrite !rds_take by lia. Qed.

Lemma memcmp_same n a b : 0 <= n <= zlen a -> n <= zlen b ->
  take (Z.to_nat n) a = take (Z.to_nat n) b -> memcmp n a b = Some true.
Proof. intros. rewrite memcmp_spec, bool_decide_true by done. done. Qed.

Lemma memcmp_at b q xs : 0 <= q -> bytes_at b q xs -> memcmp (zlen xs) (from b q) xs = Some true.
Proof.
  intros Hq Hat. unfold memcmp. rewrite Nat2Z.id, (rds_at _ _ _ (bytes_at_from b q xs Hq Hat)).
  rewrite (rds_at _ _ _ (bytes_at_0 xs)). cbn [mbind option_bind]. by rewrite bool_decide_eq_true_2.
Qed.

Lemma memcmp_total n a b : 0 <= n -> n <= zlen a -> n <= zlen b -> exists r, memcmp n a b = Some r.
Proof.
  intros Hn Ha Hb. unfold memcmp.
  destruct (rds_Some (Z.to_nat n) a 0) as (xs & -> & _); [lia..|].
  destruct (rds_Some (Z.to_nat n) b 0) as (ys & -> & _); [lia..|]. by eexists.
Qed.

Lemma take_bytes_at b xs : bytes_at b 0 xs -> take (length xs) b = xs.
Proof.
  intros H. destruct xs as [|x xs]; [done|].
  destruct (bytes_at_bound _ _ _ H) as [_ Hl]; [done|].
  apply rd_ext; [rewrite length_take; lia|]. intros i Hi. rewrite length_take in Hi.
  rewrite rd_take by lia. destruct (lookup_lt_is_Some_2 (x :: xs) (Z.to_nat i)) as [y Hy]; [lia|].
  apply (bytes_at_lookup _ _ _ _ _ H) in Hy as Hy'. unfold rd at 2. rewrite decide_True by lia.
  rewrite Hy, <- Hy'. f_equal. lia.
Qed.

(** A C array of [n] octets. *)
Definition wf_buf (buf : list Z) (n : Z) : Prop := is_bytes buf /\ zlen buf = n.

Lemma bytes_exist b q n :
  is_bytes b -> 0 <= q -> 0 <= n -> q + n <= zlen b ->
  exists xs, bytes_at b q xs /\ zlen xs = n /\ is_bytes xs.
Proof.
  intros Hb Hq Hn Hl. destruct (rds_Some (Z.to_nat n) b q) as (xs & _ & Hx & Hat); [lia|lia|].
  exists xs. split_and!; [done|lia|by eapply bytes_at_is_bytes].
Qed.

Lemma copy_into b q xs dst k :
  is_bytes xs -> bytes_at b q xs -> wf_buf dst k -> zlen xs <= k ->
  copy_bytes (Z.to_nat (zlen xs)) b q dst 0 = Some (xs ++ drop (length xs) dst, zlen xs) /\
  wf_buf (xs ++ drop (length xs) dst) k.
Proof.
  intros Hx Hat [Hb Hl] Hk. rewrite (copy_at_Z _ _ _ _ _ _ Hat) by done.
  rewrite puts_splice by (done || lia). rewrite take_0. split; [done|]. split.
  - apply Forall_app. split; [done|by apply Forall_drop].
  - rewrite length_app, length_drop. lia.
Qed.

Lemma copy_total b q n dst k :
  is_bytes b -> 0 <= q -> 0 <= n -> q + n <= zlen b -> wf_buf dst k -> n <= k ->
  exists dst' p, copy_bytes (Z.to_nat n) b q dst 0 = Some (dst', p) /\ wf_buf dst' k.
Proof.
  intros Hb Hq Hn Hl Hd Hk. destruct (bytes_exist b q n Hb Hq Hn Hl) as (xs & Hat & <- & Hx).
  destruct (copy_into b q xs dst k Hx Hat Hd Hk) as [E W]. eauto.
Qed.

Lemma wr_total b i x k : wf_buf b k -> 0 <= i < k ->
  exists b', wr b i x = Some b' /\ wf_buf b' k.
Proof.
  intros [Hb Hl] Hi. rewrite wr_Some by lia. eexists. split; [done|]. split.
  - apply Forall_insert; [done|apply u8_range].
  - by rewrite length_insert.
Qed.

Lemma wf_buf_replicate n x : 0 <= n -> is_u8 x -> wf_buf (replicate (Z.to_nat n) x) n.
Proof. intros Hn Hx. split; [by apply Forall_replicate|rewrite length_replicate; lia]. Qed.

(** ** Writers

    A function from a buffer and a position to both is a writer of [xs] when all it does
    is to put [xs] there. *)

Definition writes (f : list Z -> Z -> option (list Z * Z)) (xs : list Z) : Prop :=
  forall b p, f b p = puts b p xs.

Lemma writes_ret : writes (fun b p => Some (b, p)) [].
Proof. done. Qed.

Lemma writes_put x : writes (fun b p => put b p x) [x].
Proof. intros b p. apply puts_one. Qed.

Lemma writes_bind f g xs ys : writes f xs -> writes g ys ->
  writes (fun b p => '(b, p) ← f b p; g b p) (xs ++ ys).
Proof.
  intros Hf Hg b p. rewrite Hf, puts_app. destruct (puts b p xs) as [[b1 p1]|]; [|done]. apply Hg.
Qed.

Lemma writes_copy n src sp xs : bytes_at src sp xs -> n = length xs ->
  writes (fun b p => copy_bytes n src sp b p) xs.
Proof. intros Hs -> b p. by apply copy_bytes_at. Qed.

Lemma writes_if (P : Prop) `{Decision P} f g xs ys : writes f xs -> writes g ys ->
  writes (fun b p => if decide P then f b p else g b p) (if decide P then xs else ys).
Proof. intros Hf Hg b p. case_decide; [apply Hf|apply Hg]. Qed.

Lemma writes_eq f xs ys : writes f xs -> xs = ys -> writes f ys.
Proof. by intros ? <-. Qed.

(** The octets of [xs] that a writer puts in front of the [user] data. *)
Definition writes_front (f : list Z -> Z -> option (list Z * Z)) (xs user : list Z) : Prop :=
  exists hdr, writes f hdr /\ hdr ++ user = xs.

Lemma front_bind f g xs ys user : writes f xs -> writes_front g ys user ->
  writes_front (fun b p => '(b, p) ← f b p; g b p) (xs ++ ys) user.
Proof.
  intros Hf (hdr & Hg & <-). exists (xs ++ hdr). split; [by apply writes_bind|]. by rewrite app_assoc.
Qed.

Lemma front_eq f xs ys user : writes_front f xs user -> xs = ys -> writes_front f ys user.
Proof. by intros ? <-. Qed.

(** A list of octets without variables. *)
Ltac const_bytes := refine (bool_decide_eq_true_1 (Forall is_u8 _) _); vm_compute; reflexivity.
