(* ===== verification/BerEncoder.v ===== *)
(** * The BER encoder

    The functions of [src/mms/asn1/ber_encoder.c].  An encoder takes the
    buffer and the position it writes at and returns both, [None] when it would
    write outside the buffer.  The [enc_*] functions give the bytes each encoder
    is to produce; an encoder refines its [enc_*] function when it is [puts] of
    those bytes. *)

From S2P Require Import Prelude.

Module BerEncoder.

(** ** Definitions *)

Definition encodeLength (length : Z) (buffer : list Z) (bufPos : Z) : option (list Z * Z) :=
  if decide (length < 128) then
    put buffer bufPos (u8 length)
  else if decide (length < 256) then
    '(buffer, bufPos) ← put buffer bufPos 0x81;
    put buffer bufPos (u8 length)
  else if decide (length < 65535) then
    '(buffer, bufPos) ← put buffer bufPos 0x82;
    '(buffer, bufPos) ← put buffer bufPos (u8 (length / 256));
    put buffer bufPos (u8 (length mod 256))
  else
    '(buffer, bufPos) ← put buffer bufPos 0x83;
    '(buffer, bufPos) ← put buffer bufPos (u8 (length / 0x10000));
    '(buffer, bufPos) ← put buffer bufPos (u8 (Z.land length 0xffff / 0x100));
    put buffer bufPos (u8 (length mod 256)).

Definition encodeTL (tag length : Z) (buffer : list Z) (bufPos : Z) : option (list Z * Z) :=
  '(buffer, bufPos) ← put buffer bufPos tag;
  encodeLength length buffer bufPos.

Definition encodeBoolean (tag : Z) (value : bool) (buffer : list Z) (bufPos : Z)
    : option (list Z * Z) :=
  '(buffer, bufPos) ← put buffer bufPos tag;
  '(buffer, bufPos) ← put buffer bufPos 1;
  if value then put buffer bufPos 0x01 else put buffer bufPos 0x00.

(** A C string is the list of its characters before the terminating NUL; [NULL]
    is [None]. *)
Definition encodeStringWithTag (tag : Z) (string : option (list Z)) (buffer : list Z)
    (bufPos : Z) : option (list Z * Z) :=
  '(buffer, bufPos) ← put buffer bufPos tag;
  match string with
  | Some string =>
      '(buffer, bufPos) ← encodeLength (u32 (zlen string)) buffer bufPos;
      copy_bytes (length string) string 0 buffer bufPos
  | None => put buffer bufPos 0
  end.

Definition encodeOctetString (tag : Z) (octetString : list Z) (octetStringSize : Z)
    (buffer : list Z) (bufPos : Z) : option (list Z * Z) :=
  '(buffer, bufPos) ← put buffer bufPos tag;
  '(buffer, bufPos) ← encodeLength octetStringSize buffer bufPos;
  copy_bytes (Z.to_nat octetStringSize) octetString 0 buffer bufPos.

Definition bitStringByteSize (bitStringSize : Z) : Z :=
  let byteSize := Z.quot bitStringSize 8 in
  if decide (Z.rem bitStringSize 8 <> 0) then byteSize + 1 else byteSize.

(** [for (i = 0; i < padding; i++) paddingMask += (1 << i)] on a [uint8_t] *)
Fixpoint paddingMask_loop (n : nat) (i paddingMask : Z) : Z :=
  match n with
  | O => paddingMask
  | S n => paddingMask_loop n (i + 1) (u8 (paddingMask + Z.shiftl 1 i))
  end.

Definition encodeBitString (tag bitStringSize : Z) (bitString : list Z) (buffer : list Z)
    (bufPos : Z) : option (list Z * Z) :=
  '(buffer, bufPos) ← put buffer bufPos tag;
  let byteSize := bitStringByteSize bitStringSize in
  let padding := byteSize * 8 - bitStringSize in
  '(buffer, bufPos) ← encodeLength (u32 (byteSize + 1)) buffer bufPos;
  '(buffer, bufPos) ← put buffer bufPos padding;
  '(buffer, bufPos) ← copy_bytes (Z.to_nat byteSize) bitString 0 buffer bufPos;
  let paddingMask := u8 (Z.lnot (paddingMask_loop (Z.to_nat padding) 0 0)) in
  last ← buffer.[bufPos - 1];
  buffer ← buffer.[bufPos - 1]:= (Z.land last paddingMask);
  Some (buffer, bufPos).

Definition determineLengthSize (length : Z) : Z :=
  if decide (length < 128) then 1
  else if decide (length < 256) then 2
  else if decide (length < 65536) then 3
  else 4.

Definition determineEncodedBitStringSize (bitStringSize : Z) : Z :=
  let byteSize := bitStringByteSize bitStringSize in
  2 + determineLengthSize byteSize + byteSize.

Definition determineEncodedStringSize (string : option (list Z)) : Z :=
  match string with
  | Some string => 1 + determineLengthSize (zlen string) + zlen string
  | None => 2
  end.

(** [BerEncoder_revertByteOrder(octets + start, size)] *)
Fixpoint revertByteOrder_loop (n : nat) (octets : list Z) (start size i : Z)
    : option (list Z) :=
  match n with
  | O => Some octets
  | S n =>
      temp ← octets.[start + i];
      other ← octets.[start + (size - 1 - i)];
      octets ← octets.[start + i]:= other;
      octets ← octets.[start + (size - 1 - i)]:= temp;
      revertByteOrder_loop n octets start size (i + 1)
  end.

Definition revertByteOrder (octets : list Z) (start size : Z) : option (list Z) :=
  revertByteOrder_loop (Z.to_nat (Z.quot size 2)) octets start size 0.

(** The scan of [BerEncoder_compressInteger]: the number of leading octets that
    only repeat the sign, [fuel] bounding the distance to [integerEnd]. *)
Fixpoint compressInteger_scan (fuel : nat) (integer : list Z) (bytePosition integerEnd : Z)
    : option Z :=
  match fuel with
  | O => Some bytePosition
  | S fuel =>
      if decide (bytePosition < integerEnd) then
        b0 ← integer.[bytePosition];
        if decide (b0 = 0x00) then
          b1 ← integer.[bytePosition + 1];
          if decide (Z.land b1 0x80 = 0)
          then compressInteger_scan fuel integer (bytePosition + 1) integerEnd
          else Some bytePosition
        else if decide (b0 = 0xff) then
          b1 ← integer.[bytePosition + 1];
          if decide (Z.land b1 0x80 = 0x80)
          then compressInteger_scan fuel integer (bytePosition + 1) integerEnd
          else Some bytePosition
        else Some bytePosition
      else Some bytePosition
  end.

Definition compressInteger (integer : list Z) (originalSize : Z) : option (list Z * Z) :=
  bytesToDelete ← compressInteger_scan (Z.to_nat originalSize) integer 0 (originalSize - 1);
  if decide (bytesToDelete <> 0) then
    let newSize := originalSize - bytesToDelete in
    integer ← move_bytes (Z.to_nat newSize) integer 0 bytesToDelete;
    Some (integer, newSize)
  else Some (integer, originalSize).

(** The octets of a native [uint32_t] and [int32_t] on a little-endian machine. *)
Definition valueArray (n : nat) (value : Z) : list Z := le_bytes n value.

(** The first steps the [uint32_t] encoders share: a zero octet followed by the
    value in network order, compressed. *)
Definition uint32_octets (value : Z) : option (list Z * Z) :=
  let valueBuffer := 0 :: valueArray 4 value in
  valueBuffer ← revertByteOrder valueBuffer 1 4;
  compressInteger valueBuffer 5.

Definition encodeUInt32 (value : Z) (buffer : list Z) (bufPos : Z) : option (list Z * Z) :=
  '(valueBuffer, size) ← uint32_octets value;
  copy_bytes (Z.to_nat size) valueBuffer 0 buffer bufPos.

Definition encodeUInt32WithTL (tag value : Z) (buffer : list Z) (bufPos : Z)
    : option (list Z * Z) :=
  '(valueBuffer, size) ← uint32_octets value;
  '(buffer, bufPos) ← put buffer bufPos tag;
  '(buffer, bufPos) ← put buffer bufPos (u8 size);
  copy_bytes (Z.to_nat size) valueBuffer 0 buffer bufPos.

Definition UInt32determineEncodedSize (value : Z) : option Z :=
  '(_, size) ← uint32_octets value;
  Some size.

Definition encodeInt32 (value : Z) (buffer : list Z) (bufPos : Z) : option (list Z * Z) :=
  let valueBuffer := reverse (valueArray 4 value) in
  '(valueBuffer, size) ← compressInteger valueBuffer 4;
  copy_bytes (Z.to_nat size) valueBuffer 0 buffer bufPos.

Definition Int32determineEncodedSize (value : Z) : option Z :=
  let valueBuffer := 0 :: valueArray 4 value in
  valueBuffer ← revertByteOrder valueBuffer 1 4;
  '(_, size) ← compressInteger valueBuffer 5;
  Some size.

Definition encodeFloat (floatValue : list Z) (formatWidth exponentWidth : Z)
    (buffer : list Z) (bufPos : Z) : option (list Z * Z) :=
  let byteSize := formatWidth / 8 in
  buffer ← buffer.[bufPos]:= exponentWidth;
  '(buffer, _) ← copy_bytes (Z.to_nat byteSize) floatValue 0 buffer (bufPos + 1);
  buffer ← revertByteOrder buffer (bufPos + 1) byteSize;
  Some (buffer, bufPos + 1 + byteSize).

(** ** What the encoders are to write *)

Definition enc_length (len : Z) : list Z :=
  if decide (len < 128) then [len]
  else if decide (len < 256) then [0x81; len]
  else if decide (len < 65535) then [0x82; len / 256; len mod 256]
  else [0x83; u8 (len / 65536); (len / 256) mod 256; len mod 256].

Definition enc_tlv (tag : Z) (content : list Z) : list Z :=
  tag :: enc_length (zlen content) ++ content.

(** Leading octets that only repeat the sign are redundant. *)
Fixpoint minimal (bs : list Z) : list Z :=
  match bs with
  | x :: ((y :: _) as tl) =>
      if decide (x = 0 /\ y < 128 \/ x = 255 /\ 128 <= y) then minimal tl else bs
  | _ => bs
  end.

Definition enc_uint32 (v : Z) : list Z := minimal (0 :: be_bytes 4 v).
Definition enc_int32 (v : Z) : list Z := minimal (be_bytes 4 v).

(** ** Lengths *)

Lemma land_65535 len : 0 <= len -> Z.land len 0xffff = len mod 65536.
Proof. intros. change 0xffff with (Z.ones 16). by rewrite Z.land_ones by lia. Qed.

Lemma put_u8 b p x : put b p (u8 x) = put b p x.
Proof.
  unfold put, wr. case_decide; [|done]. simpl. do 3 f_equal.
  unfold u8. by rewrite Z.mod_mod.
Qed.

Ltac put_step :=
  repeat (rewrite ?put_u8;
          match goal with
          | |- context [put ?b ?p ?x] => destruct (put b p x) as [[? ?]|]; simpl
          end); try done.

Lemma encodeLength_puts len b p :
  is_u32 len -> encodeLength len b p = puts b p (enc_length len).
Proof.
  intros Hl. unfold encodeLength, enc_length. rewrite land_65535 by (unfold_int; lia).
  replace (len mod 65536 / 0x100) with ((len / 256) mod 256) by zlia.
  repeat case_decide; simpl; put_step.
Qed.

Lemma enc_length_bytes len : 0 <= len -> is_bytes (enc_length len).
Proof.
  intros. unfold enc_length. repeat case_decide; repeat constructor; zlia.
Qed.

(** The size predicted for a length field is the size written, except for the
    length 65535. *)
Lemma enc_length_size len :
  is_u32 len -> zlen (enc_length len) = if decide (len = 65535) then 4 else determineLengthSize len.
Proof.
  intros. unfold enc_length, determineLengthSize. repeat case_decide; simpl; lia.
Qed.

(** ** The minimal form of a two's complement number *)

Lemma minimal_cons2 x y tl :
  minimal (x :: y :: tl) =
  if decide (x = 0 /\ y < 128 \/ x = 255 /\ 128 <= y) then minimal (y :: tl) else x :: y :: tl.
Proof. done. Qed.

Lemma minimal_suffix bs : exists pre, bs = pre ++ minimal bs.
Proof.
  induction bs as [|x [|y tl] IH]; [by exists []|by exists []|].
  rewrite minimal_cons2. case_decide; [|by exists []].
  destruct IH as [pre IH]. exists (x :: pre). cbn [app]. f_equal. exact IH.
Qed.

Lemma minimal_bytes bs : is_bytes bs -> is_bytes (minimal bs).
Proof.
  intros H. destruct (minimal_suffix bs) as [pre Hp]. rewrite Hp in H.
  by apply Forall_app in H as [_ ?].
Qed.

Lemma minimal_length bs : zlen (minimal bs) <= zlen bs.
Proof.
  destruct (minimal_suffix bs) as [pre Hp]. rewrite Hp at 2. rewrite length_app. lia.
Qed.

Lemma minimal_nonempty bs : bs <> [] -> 0 < zlen (minimal bs).
Proof.
  induction bs as [|x [|y tl] IH]; [done|simpl; lia|]. intros _.
  rewrite minimal_cons2. case_decide; [|simpl; lia]. by apply IH.
Qed.

Lemma be_sval_cons2 x y tl :
  be_sval (x :: y :: tl) - be_sval (y :: tl) =
  (x - (if decide (128 <= x) then 256 else 0) + (if decide (128 <= y) then 1 else 0))
  * 256 ^ (zlen tl + 1).
Proof.
  unfold be_sval. rewrite !(be_val_cons x). cbn [length head default].
  replace (Z.of_nat (S (S (length tl)))) with (1 + (zlen tl + 1)) by lia.
  replace (Z.of_nat (S (length tl))) with (zlen tl + 1) by lia.
  rewrite (Z.pow_add_r 256 1 (zlen tl + 1)) by lia. rewrite Z.pow_1_r.
  repeat case_decide; simpl in *; lia.
Qed.

Lemma minimal_sval bs : is_bytes bs -> be_sval (minimal bs) = be_sval bs.
Proof.
  induction bs as [|x [|y tl] IH]; [done|done|]. intros H.
  inversion H as [|? ? Hx Htl]; subst. inversion Htl as [|? ? Hy _]; subst.
  rewrite minimal_cons2. case_decide as Hd; [|done]. rewrite IH by done.
  pose proof (be_sval_cons2 x y tl) as E. unfold_int.
  repeat case_decide; nia.
Qed.

Lemma be_sval_range bs :
  is_bytes bs -> bs <> [] ->
  - (128 * 256 ^ (zlen bs - 1)) <= be_sval bs < 128 * 256 ^ (zlen bs - 1).
Proof.
  destruct bs as [|x tl]; [done|]. intros H _. inversion H as [|? ? Hx Ht]; subst.
  pose proof (be_val_bound tl Ht). unfold be_sval. rewrite be_val_cons. cbn [head default length].
  replace (Z.of_nat (S (length tl))) with (zlen tl + 1) by lia.
  replace (zlen tl + 1 - 1) with (zlen tl) by lia.
  rewrite Z.pow_add_r, Z.pow_1_r by lia. unfold_int. simpl. case_decide; nia.
Qed.

Definition reduced (bs : list Z) : Prop :=
  match bs with
  | x :: y :: _ => ~ (x = 0 /\ y < 128 \/ x = 255 /\ 128 <= y)
  | _ => True
  end.

Lemma minimal_reduced bs : reduced (minimal bs).
Proof.
  induction bs as [|x [|y tl] IH]; [done|done|].
  rewrite minimal_cons2. case_decide as Hd; [exact IH | exact Hd].
Qed.

Lemma reduced_large x y tl :
  is_bytes (x :: y :: tl) -> reduced (x :: y :: tl) ->
  128 * 256 ^ zlen tl <= be_sval (x :: y :: tl) \/ be_sval (x :: y :: tl) < - (128 * 256 ^ zlen tl).
Proof.
  intros H Hr. inversion H as [|? ? Hx H']; subst. inversion H' as [|? ? Hy Ht]; subst.
  pose proof (be_val_bound tl Ht). unfold be_sval. rewrite !be_val_cons. cbn [head default length].
  replace (Z.of_nat (S (S (length tl)))) with (1 + (1 + zlen tl)) by lia.
  replace (Z.of_nat (S (length tl))) with (1 + zlen tl) by lia.
  rewrite !(Z.pow_add_r 256 1) by lia. rewrite Z.pow_1_r. cbn [reduced] in Hr.
  unfold_int. simpl. set (P := 256 ^ zlen tl) in *. case_decide; nia.
Qed.

(** No shorter two's complement form has the same value. *)
Lemma minimal_least bs cs :
  is_bytes bs -> is_bytes cs -> cs <> [] -> be_sval cs = be_sval bs ->
  zlen (minimal bs) <= zlen cs.
Proof.
  intros Hb Hc Hne He. rewrite <- (minimal_sval bs) in He by done.
  pose proof (minimal_reduced bs) as Hr. pose proof (minimal_bytes bs Hb) as Hm.
  assert (0 < zlen cs) by (destruct cs; simpl; [done|lia]).
  destruct (minimal bs) as [|x [|y tl]]; [simpl; lia|simpl; lia|].
  pose proof (reduced_large x y tl Hm Hr). pose proof (be_sval_range cs Hc Hne).
  destruct (decide (zlen (x :: y :: tl) <= zlen cs)) as [|Hlt]; [done|exfalso].
  assert (256 ^ (zlen cs - 1) <= 256 ^ zlen tl).
  { apply Z.pow_le_mono_r; simpl in *; lia. }
  lia.
Qed.

(** ** [compressInteger] and [revertByteOrder] compute these *)

Lemma byte_sign b : is_u8 b -> Z.land b 0x80 = 0 <-> b < 128.
Proof. intros. rewrite byte_land_128 by done. case_decide; lia. Qed.

Lemma compressInteger_scan_spec pre rest fuel :
  is_bytes rest -> rest <> [] -> (length rest <= fuel)%nat ->
  compressInteger_scan fuel (pre ++ rest) (zlen pre) (zlen (pre ++ rest) - 1) =
  Some (zlen (pre ++ rest) - zlen (minimal rest)).
Proof.
  revert pre fuel. induction rest as [|x [|y tl] IH]; intros pre fuel Hb Hne Hf; [done| |].
  { destruct fuel; [simpl in Hf; lia|]. cbn [compressInteger_scan].
    rewrite decide_False by (rewrite length_app; simpl; lia).
    f_equal. simpl minimal. rewrite length_app. simpl. lia. }
  destruct fuel as [|fuel]; [simpl in Hf; lia|].
  inversion Hb as [|? ? Hx H']; subst. inversion H' as [|? ? Hy Ht]; subst.
  destruct (bytes_at_self pre (x :: y :: tl) []) as (R0 & R1 & _). rewrite app_nil_r in R0, R1.
  specialize (IH (pre ++ [x]) fuel H' ltac:(done) ltac:(simpl in *; lia)).
  rewrite <- app_assoc, length_app, Nat2Z.inj_add in IH. cbn [app length] in IH.
  change (Z.of_nat 1) with 1 in IH.
  rewrite minimal_cons2. cbn [compressInteger_scan].
  rewrite decide_True by (rewrite length_app; simpl; lia).
  rewrite R0. cbn [mbind option_bind]. rewrite R1. cbn [mbind option_bind].
  rewrite (byte_land_128 y Hy).
  repeat case_decide; try lia; try exact IH; f_equal; rewrite length_app; simpl; lia.
Qed.

Lemma compressInteger_spec bs :
  is_bytes bs -> bs <> [] ->
  exists bs', compressInteger bs (zlen bs) = Some (bs', zlen (minimal bs)) /\
    bytes_at bs' 0 (minimal bs).
Proof.
  intros Hb Hne. unfold compressInteger.
  pose proof (compressInteger_scan_spec [] bs (Z.to_nat (zlen bs)) Hb Hne ltac:(lia)) as E.
  cbn [app length] in E. change (Z.of_nat 0) with 0 in E. rewrite E. cbn [mbind option_bind].
  pose proof (minimal_length bs). destruct (minimal_suffix bs) as [pre Hp].
  assert (Hl : zlen bs = zlen pre + zlen (minimal bs)).
  { rewrite Hp at 1. rewrite length_app. lia. }
  case_decide as Hd.
  - replace (zlen bs - (zlen bs - zlen (minimal bs))) with (zlen (minimal bs)) by lia.
    destruct (move_bytes_spec (Z.to_nat (zlen (minimal bs))) bs 0
                (zlen bs - zlen (minimal bs)) Hb) as (bs' & -> & Hl' & Hin & _); [lia..|].
    exists bs'. split; [done|]. apply bytes_at_of_rd. intros i Hi. rewrite Z.add_0_l, Hin by lia.
    rewrite Hp at 1. rewrite rd_app_r by lia. f_equal. lia.
  - exists bs. split; [do 2 f_equal; lia|].
    assert (pre = []) as -> by (destruct pre; simpl in *; [done|lia]).
    rewrite Hp at 1. apply bytes_at_0.
Qed.

(** Position [j] of the reversed area, when [i] is the next index to swap. *)
Definition swapped (n : nat) (size i j : Z) : Prop :=
  i <= j < i + Z.of_nat n \/ i <= size - 1 - j < i + Z.of_nat n.

Lemma revertByteOrder_loop_spec n b s size i :
  is_bytes b -> 0 <= i -> 0 <= s -> s + size <= zlen b -> 2 * (i + Z.of_nat n) <= size ->
  exists b', revertByteOrder_loop n b s size i = Some b' /\ zlen b' = zlen b /\
    forall j, (swapped n size i j -> rd b' (s + j) = rd b (s + (size - 1 - j))) /\
              (~ swapped n size i j -> rd b' (s + j) = rd b (s + j)).
Proof.
  unfold swapped. revert b i. induction n as [|n IH]; intros b i Hb Hi Hs Hl Hn; simpl.
  { exists b. split_and!; [done|done|]. intros j. split; [lia|done]. }
  destruct (rd_ok b (s + i) Hb) as (t & Ht & Ht8); [lia|]. rewrite Ht. cbn [mbind option_bind].
  destruct (rd_ok b (s + (size - 1 - i)) Hb) as (o & Ho & Ho8); [lia|]. rewrite Ho.
  cbn [mbind option_bind].
  destruct (wr b (s + i) o) as [b1|] eqn:W1; [|unfold wr in W1; case_decide; [done|lia]].
  cbn [mbind option_bind]. pose proof (wr_bytes _ _ _ _ Hb W1) as Hb1.
  apply wr_inv in W1 as (_ & L1 & R1 & O1). rewrite u8_id in R1 by done.
  destruct (wr b1 (s + (size - 1 - i)) t) as [b2|] eqn:W2;
    [|unfold wr in W2; case_decide; [done|lia]].
  cbn [mbind option_bind]. pose proof (wr_bytes _ _ _ _ Hb1 W2) as Hb2.
  apply wr_inv in W2 as (_ & L2 & R2 & O2). rewrite u8_id in R2 by done.
  destruct (IH b2 (i + 1) Hb2) as (b' & -> & L' & H'); [lia..|].
  exists b'. split_and!; [done|lia|]. intros j. destruct (H' j) as [Hin Hout].
  split; intros Hj.
  - destruct (decide (j = i)) as [->|]; [rewrite Hout, O2, R1, <- Ho by lia; f_equal; lia|].
    destruct (decide (j = size - 1 - i)) as [->|].
    { rewrite Hout, R2, <- Ht by lia. f_equal. lia. }
    rewrite Hin, O2, O1 by lia. done.
  - rewrite Hout, O2, O1 by lia. done.
Qed.

(** [revertByteOrder] reverses the octets it is given, in place. *)
Lemma revertByteOrder_spec pre xs post :
  is_bytes (pre ++ xs ++ post) ->
  revertByteOrder (pre ++ xs ++ post) (zlen pre) (zlen xs) = Some (pre ++ reverse xs ++ post).
Proof.
  intros Hb. unfold revertByteOrder.
  destruct (revertByteOrder_loop_spec (Z.to_nat (zlen xs ÷ 2)) (pre ++ xs ++ post) (zlen pre)
              (zlen xs) 0 Hb) as (b' & -> & Hl & H); [lia|lia| | |].
  { rewrite !length_app. lia. }
  { Z.to_euclidean_division_equations. lia. }
  f_equal. apply rd_ext; [rewrite Hl, !length_app, length_reverse; lia|].
  intros i Hi. rewrite Hl, !length_app in Hi.
  destruct (H (i - zlen pre)) as [Hin Hout].
  replace (zlen pre + (i - zlen pre)) with i in Hin, Hout by lia.
  set (j := i - zlen pre) in *. unfold swapped in *.
  destruct (decide (0 <= j < zlen xs)) as [Hj|Hj].
  - rewrite (rd_app_r pre) by lia. rewrite rd_app_l by (rewrite length_reverse; lia).
    fold j. rewrite rd_reverse by lia.
    destruct (decide (2 * j = zlen xs - 1)) as [He|He].
    + rewrite Hout by (Z.to_euclidean_division_equations; lia).
      rewrite rd_app_r, rd_app_l by lia. f_equal. lia.
    + rewrite Hin by (Z.to_euclidean_division_equations; lia).
      rewrite rd_app_r, rd_app_l by lia. f_equal. lia.
  - rewrite Hout by (Z.to_euclidean_division_equations; lia).
    destruct (decide (i < zlen pre)); [rewrite !rd_app_l by lia; done|].
    rewrite !(rd_app_r pre) by lia. rewrite !rd_app_r, length_reverse by (rewrite ?length_reverse; lia).
    done.
Qed.

(** ** The encoders write what they are to write *)

Lemma encodeTL_puts tag len b p :
  is_u32 len -> encodeTL tag len b p = puts b p (tag :: enc_length len).
Proof.
  intros. unfold encodeTL. simpl. destruct (put b p tag) as [[? ?]|]; [|done].
  by apply encodeLength_puts.
Qed.

Lemma encodeBoolean_puts tag v b p :
  encodeBoolean tag v b p = puts b p [tag; 1; if v then 1 else 0].
Proof. unfold encodeBoolean. destruct v; simpl; put_step. Qed.

Lemma encodeOctetString_puts tag xs b p :
  zlen xs < 4294967296 -> encodeOctetString tag xs (zlen xs) b p = puts b p (enc_tlv tag xs).
Proof.
  intros. unfold encodeOctetString, enc_tlv. cbn [puts].
  destruct (put b p tag) as [[b1 p1]|]; [|done]. cbn [mbind option_bind].
  rewrite encodeLength_puts, puts_app by (unfold_int; lia).
  destruct (puts b1 p1 _) as [[b2 p2]|]; [|done]. cbn [mbind option_bind].
  rewrite Nat2Z.id. apply copy_bytes_at, bytes_at_0.
Qed.

Lemma encodeStringWithTag_puts tag str b p :
  match str with Some s => zlen s < 2147483648 | None => True end ->
  encodeStringWithTag tag str b p = puts b p (enc_tlv tag (default [] str)).
Proof.
  unfold encodeStringWithTag, enc_tlv. destruct str as [s|]; intros H; cbn [puts default].
  - destruct (put b p tag) as [[b1 p1]|]; [|done]. cbn [mbind option_bind].
    rewrite u32_id by (unfold_int; lia).
    rewrite encodeLength_puts, puts_app by (unfold_int; lia).
    destruct (puts b1 p1 _) as [[b2 p2]|]; [|done]. cbn [mbind option_bind].
    apply copy_bytes_at, bytes_at_0.
  - change (enc_length (zlen [])) with [0]. cbn [app puts].
    destruct (put b p tag) as [[b1 p1]|]; [|done]. simpl. put_step.
Qed.

Lemma uint32_octets_spec v :
  exists vb, uint32_octets v = Some (vb, zlen (enc_uint32 v)) /\ bytes_at vb 0 (enc_uint32 v).
Proof.
  unfold uint32_octets, enc_uint32, valueArray.
  pose proof (revertByteOrder_spec [0] (le_bytes 4 v) []) as E.
  rewrite !app_nil_r in E. change (zlen [0]) with 1 in E. cbn [app] in E.
  change (zlen (le_bytes 4 v)) with 4 in E.
  rewrite E by (constructor; [done|apply le_bytes_bytes]). cbn [mbind option_bind].
  change (reverse (le_bytes 4 v)) with (be_bytes 4 v).
  pose proof (compressInteger_spec (0 :: be_bytes 4 v)) as C.
  cbn [length] in C. rewrite be_bytes_length in C. apply C; [|done].
  constructor; [done|apply be_bytes_bytes].
Qed.

Lemma enc_uint32_bytes v : is_bytes (enc_uint32 v).
Proof. apply minimal_bytes. constructor; [done | apply be_bytes_bytes]. Qed.

Lemma enc_uint32_size v : 1 <= zlen (enc_uint32 v) <= 5.
Proof.
  unfold enc_uint32. pose proof (minimal_length (0 :: be_bytes 4 v)).
  pose proof (minimal_nonempty (0 :: be_bytes 4 v) ltac:(done)).
  assert (zlen (0 :: be_bytes 4 v) = 5) by (rewrite length_cons, be_bytes_length; lia). lia.
Qed.

Lemma enc_uint32_val v : is_u32 v -> be_sval (enc_uint32 v) = v.
Proof.
  intros Hv. unfold enc_uint32. rewrite minimal_sval by (constructor; [done|apply be_bytes_bytes]).
  unfold be_sval. rewrite be_val_cons, be_val_be_bytes.
  rewrite decide_False by (simpl; lia). change (256 ^ Z.of_nat 4) with 4294967296.
  unfold_int. rewrite Z.mod_small; lia.
Qed.

Lemma encodeUInt32_puts v b p : encodeUInt32 v b p = puts b p (enc_uint32 v).
Proof.
  unfold encodeUInt32. destruct (uint32_octets_spec v) as (vb & -> & Hat).
  cbn [mbind option_bind]. by apply copy_at_Z.
Qed.

Lemma encodeUInt32WithTL_puts tag v b p :
  encodeUInt32WithTL tag v b p = puts b p (tag :: zlen (enc_uint32 v) :: enc_uint32 v).
Proof.
  unfold encodeUInt32WithTL. destruct (uint32_octets_spec v) as (vb & -> & Hat).
  cbn [mbind option_bind puts]. destruct (put b p tag) as [[b1 p1]|]; [|done].
  cbn [mbind option_bind]. rewrite put_u8. destruct (put b1 p1 _) as [[b2 p2]|]; [|done].
  cbn [mbind option_bind]. by apply copy_at_Z.
Qed.

Lemma UInt32determineEncodedSize_spec v :
  UInt32determineEncodedSize v = Some (zlen (enc_uint32 v)).
Proof.
  unfold UInt32determineEncodedSize. by destruct (uint32_octets_spec v) as (vb & -> & _).
Qed.

Lemma encodeInt32_puts v b p : encodeInt32 v b p = puts b p (enc_int32 v).
Proof.
  unfold encodeInt32, valueArray, enc_int32. change (reverse (le_bytes 4 v)) with (be_bytes 4 v).
  destruct (compressInteger_spec (be_bytes 4 v)) as (vb & E & Hat).
  { apply be_bytes_bytes. } { intros H%(f_equal length). by rewrite be_bytes_length in H. }
  rewrite be_bytes_length in E. change (Z.of_nat 4) with 4 in E. rewrite E.
  cbn [mbind option_bind]. by apply copy_at_Z.
Qed.

(** The bits of the last octet beyond the end of a bit string are cleared. *)
Definition enc_bitstring (tag bitStringSize : Z) (bits : list Z) : list Z :=
  let padding := bitStringByteSize bitStringSize * 8 - bitStringSize in
  let content := padding :: bits in
  tag :: enc_length (zlen content) ++
  match reverse content with
  | last :: init => reverse init ++ [Z.land last (256 - 2 ^ padding)]
  | [] => []
  end.

Lemma bitStringByteSize_spec n :
  0 <= n -> n <= bitStringByteSize n * 8 < n + 8 /\ 0 <= bitStringByteSize n.
Proof.
  intros. unfold bitStringByteSize. case_decide; Z.to_euclidean_division_equations; lia.
Qed.

Lemma paddingMask_spec padding :
  0 <= padding < 8 -> u8 (Z.lnot (paddingMask_loop (Z.to_nat padding) 0 0)) = 256 - 2 ^ padding.
Proof.
  intros H. assert (Hc : forallb (fun n => bool_decide
    (u8 (Z.lnot (paddingMask_loop (Z.to_nat n) 0 0)) = 256 - 2 ^ n)) (seqZ 0 8) = true)
    by reflexivity.
  rewrite forallb_forall in Hc. eapply bool_decide_eq_true_1, Hc.
  apply list_elem_of_In, elem_of_seqZ. lia.
Qed.

Lemma encodeBitString_puts tag size bits b p :
  0 <= size < 2147483640 -> zlen bits = bitStringByteSize size -> is_bytes bits ->
  encodeBitString tag size bits b p = puts b p (enc_bitstring tag size bits).
Proof.
  intros Hs Hl Hb. unfold encodeBitString, enc_bitstring.
  pose proof (bitStringByteSize_spec size ltac:(lia)) as [Hp Hn].
  set (padding := bitStringByteSize size * 8 - size) in *.
  cbn [puts]. destruct (put b p tag) as [[b1 p1]|]; [|done]. cbn [mbind option_bind].
  replace (zlen (padding :: bits)) with (bitStringByteSize size + 1) by (simpl; lia).
  rewrite u32_id by (unfold_int; lia).
  rewrite encodeLength_puts, puts_app by (unfold_int; lia).
  destruct (puts b1 p1 _) as [[b2 p2]|]; [|done]. cbn [mbind option_bind].
  assert (E : puts b2 p2 (padding :: bits) =
              '(b, p) ← put b2 p2 padding; copy_bytes (Z.to_nat (bitStringByteSize size)) bits 0 b p).
  { cbn [puts]. destruct (put b2 p2 padding) as [[b3 p3]|]; [|done]. cbn [mbind option_bind].
    symmetry. apply copy_at_Z; [apply bytes_at_0 | done]. }
  destruct (reverse (padding :: bits)) as [|l init] eqn:Hr.
  { apply (f_equal length) in Hr. by rewrite length_reverse in Hr. }
  assert (Hc : padding :: bits = reverse init ++ [l]).
  { rewrite <- (reverse_involutive (padding :: bits)), Hr. by rewrite reverse_cons. }
  rewrite Hc in E.
  destruct (put b2 p2 padding) as [[b3 p3]|]; cbn [mbind option_bind] in *.
  2: { symmetry. by apply (puts_snoc_None _ _ _ l). }
  destruct (copy_bytes _ bits 0 b3 p3) as [[b4 p4]|]; cbn [mbind option_bind].
  2: { symmetry. by apply (puts_snoc_None _ _ _ l). }
  rewrite <- (wr_puts_last _ _ _ _ (Z.land l (256 - 2 ^ padding)) _ _ E).
  rewrite paddingMask_spec by lia.
  pose proof (puts_inv _ _ _ _ _ E) as (-> & _ & Hat & _).
  rewrite fmap_app in Hat. apply bytes_at_app in Hat as [_ [Hlast _]].
  rewrite length_fmap in Hlast. rewrite length_app.
  replace (p2 + Z.of_nat (length (reverse init) + length [l]) - 1)
    with (p2 + zlen (reverse init)) by (simpl; lia).
  rewrite Hlast. cbn [mbind option_bind]. rewrite u8_id; [done|].
  assert (is_bytes (reverse init ++ [l])) as [_ H]%Forall_app.
  { rewrite <- Hc. constructor; [unfold_int; lia|done]. }
  by inversion H.
Qed.

Lemma encodeFloat_spec fv fw ew b p :
  is_bytes fv -> is_bytes b -> is_u8 ew -> 0 <= fw / 8 <= zlen fv -> 0 <= p ->
  p + 1 + fw / 8 <= zlen b ->
  encodeFloat fv fw ew b p = puts b p (ew :: reverse (take (Z.to_nat (fw / 8)) fv)).
Proof.
  intros Hf Hb He Hn Hp Hl. unfold encodeFloat. set (n := fw / 8) in *.
  set (xs := take (Z.to_nat n) fv).
  assert (Hx : zlen xs = n) by (unfold xs; rewrite length_take; lia).
  assert (Hxb : is_bytes xs) by (by apply Forall_take).
  rewrite puts_splice; [|constructor; [done|by apply Forall_reverse]|done|].
  2: { rewrite length_cons, length_reverse. lia. }
  assert (E : puts b p (ew :: xs) =
          '(b, p) ← put b p ew; copy_bytes (Z.to_nat n) fv 0 b p).
  { cbn [puts]. destruct (put b p ew) as [[b1 p1]|]; [|done]. cbn [mbind option_bind].
    symmetry. apply copy_at_Z; [|done]. apply bytes_at_take, bytes_at_0. }
  rewrite puts_splice in E by (rewrite ?length_cons; try lia; by constructor).
  unfold put in E. destruct (wr b p ew) as [b1|]; [|done]. cbn [mbind option_bind] in *.
  rewrite <- E. cbn [mbind option_bind].
  pose proof (revertByteOrder_spec (take (Z.to_nat p) b ++ [ew]) xs
    (drop (Z.to_nat p + length (ew :: xs)) b)) as R.
  rewrite <- !app_assoc in R. cbn [app] in R.
  replace (zlen (take (Z.to_nat p) b ++ [ew])) with (p + 1) in R
    by (rewrite length_app, length_take; simpl; lia).
  rewrite Hx in R. cbn [app]. rewrite R.
  - cbn [mbind option_bind]. rewrite !length_cons, length_reverse. do 2 f_equal. lia.
  - apply Forall_app; split; [by apply Forall_take|]. constructor; [done|].
    apply Forall_app; split; [done|by apply Forall_drop].
Qed.

(** Compressing a big-endian two's complement number keeps its value, and no
    shorter octet string has that value. *)
Theorem compressInteger_correct bs :
  is_bytes bs -> bs <> [] ->
  exists bs' n, compressInteger bs (zlen bs) = Some (bs', n) /\ 0 < n <= zlen bs /\
    be_sval (take (Z.to_nat n) bs') = be_sval bs /\
    (forall cs, is_bytes cs -> cs <> [] -> be_sval cs = be_sval bs -> n <= zlen cs).
Proof.
  intros Hb Hne. destruct (compressInteger_spec bs Hb Hne) as (bs' & E & Hat).
  pose proof (minimal_length bs). pose proof (minimal_nonempty bs Hne).
  exists bs', (zlen (minimal bs)). split_and!; [done|done|lia| |].
  - rewrite <- (minimal_sval bs) by done. f_equal. apply rds_at in Hat.
    rewrite Nat2Z.id. by apply rds_0_take.
  - intros cs Hc Hcne He. by apply minimal_least.
Qed.

Lemma compressInteger_correct_witness :
  exists bs' n, compressInteger [0xff; 0xff; 0x80; 0] 4 = Some (bs', n) /\ 0 < n <= 4 /\
    be_sval (take (Z.to_nat n) bs') = be_sval [0xff; 0xff; 0x80; 0] /\
    (forall cs, is_bytes cs -> cs <> [] -> be_sval cs = be_sval [0xff; 0xff; 0x80; 0] ->
      n <= zlen cs).
Proof. apply (compressInteger_correct [0xff; 0xff; 0x80; 0]); [solve_bytes | discriminate]. Defined.

(** The sizes the callers reserve are the sizes written: for a [uint32_t]
    always, for a length field except at 65535, where one octet less is
    announced than [BerEncoder_encodeLength] writes. *)
Theorem determined_sizes v b p :
  is_u32 v ->
  UInt32determineEncodedSize v = Some (zlen (enc_uint32 v)) /\
  encodeUInt32 v b p = puts b p (enc_uint32 v) /\
  encodeLength v b p = puts b p (enc_length v) /\
  zlen (enc_length v) =
    (if decide (v = 65535) then determineLengthSize v + 1 else determineLengthSize v).
Proof.
  intros Hv. split_and!; [apply UInt32determineEncodedSize_spec | apply encodeUInt32_puts
    | by apply encodeLength_puts|].
  rewrite enc_length_size by done. by destruct (decide (v = 65535)) as [->|].
Qed.

Lemma determined_sizes_witness :
  UInt32determineEncodedSize 65535 = Some (zlen (enc_uint32 65535)) /\
  encodeUInt32 65535 [0; 0; 0; 0] 0 = puts [0; 0; 0; 0] 0 (enc_uint32 65535) /\
  encodeLength 65535 [0; 0; 0; 0] 0 = puts [0; 0; 0; 0] 0 (enc_length 65535) /\
  zlen (enc_length 65535) =
    (if decide (65535 = 65535) then determineLengthSize 65535 + 1 else determineLengthSize 65535).
Proof. apply determined_sizes. unfold_int. lia. Defined.

Lemma enc_tlv_length tag xs : zlen xs < 65535 ->
  zlen (enc_tlv tag xs) = 1 + determineLengthSize (zlen xs) + zlen xs.
Proof.
  intros H. unfold enc_tlv. rewrite length_cons, length_app.
  pose proof (enc_length_size (zlen xs)) as E.
  rewrite decide_False in E by lia. unfold determineLengthSize in *.
  rewrite Nat2Z.inj_succ, Nat2Z.inj_add, E; [lia|unfold_int; lia].
Qed.

Lemma enc_tlv_ge tag xs : zlen xs + 2 <= zlen (enc_tlv tag xs).
Proof.
  unfold enc_tlv, enc_length. rewrite length_cons, length_app. repeat case_decide; cbn [length]; lia.
Qed.

Lemma enc_tlv_bytes tag xs : is_u8 tag -> is_bytes xs -> is_bytes (enc_tlv tag xs).
Proof.
  intros Ht Hx. constructor; [done|]. apply Forall_app. split; [|done].
  apply enc_length_bytes. lia.
Qed.

(** ** Headers in front of data

    The lengths in a header count the data behind it. *)

Lemma encodeTL_writes tag len : is_u32 len -> writes (encodeTL tag len) (tag :: enc_length len).
Proof. intros H b p. by apply encodeTL_puts. Qed.

(** A complete element with one write for its content. *)
Lemma writes_tlv tag len f xs : len = zlen xs -> is_u32 len -> writes f xs ->
  writes (fun b p => '(b, p) ← encodeTL tag len b p; f b p) (enc_tlv tag xs).
Proof.
  intros -> H Hf. unfold enc_tlv. change (tag :: enc_length (zlen xs) ++ xs)
    with ((tag :: enc_length (zlen xs)) ++ xs). apply writes_bind; [by apply encodeTL_writes|done].
Qed.

Lemma front_tlv tag len f xs user : len = zlen xs -> is_u32 len -> writes_front f xs user ->
  writes_front (fun b p => '(b, p) ← encodeTL tag len b p; f b p) (enc_tlv tag xs) user.
Proof.
  intros -> H (hdr & Hf & <-). exists ((tag :: enc_length (zlen (hdr ++ user))) ++ hdr). split.
  - apply writes_bind; [by apply encodeTL_writes|done].
  - unfold enc_tlv. by rewrite <- app_assoc.
Qed.

Lemma front_user tag len user : len = zlen user -> is_u32 len ->
  writes_front (encodeTL tag len) (enc_tlv tag user) user.
Proof. intros -> H. eexists. split; [by apply encodeTL_writes|done]. Qed.

End BerEncoder.
