(* ===== verification/BerDecoder.v ===== *)
(** * The BER decoder

    The functions of [src/mms/asn1/ber_decode.c].  A read outside the buffer is
    [None]; the C result [-1] is the value [-1].  The two mutually recursive
    functions that measure an element of indefinite length run on fuel;
    [BerDecoder_decodeLength] gives them enough for any input. *)

From S2P Require Import Prelude BerEncoder.

Module BerDecoder.

(** ** Definitions *)

(** The loop over the length octets: [(-1, length)] when it runs out of the
    buffer, [(bufPos, length)] otherwise. *)
Fixpoint decodeLength_octets (n : nat) (buffer : list Z) (length bufPos maxBufPos : Z)
    : option (Z * Z) :=
  match n with
  | O => Some (bufPos, length)
  | S n =>
      if decide (bufPos >= maxBufPos) then Some (-1, length)
      else if decide (bufPos + length > maxBufPos) then Some (-1, length)
      else
        x ← buffer.[bufPos];
        decodeLength_octets n buffer (Z.shiftl length 8 + x) (bufPos + 1) maxBufPos
  end.

(** [getIndefiniteLength] from its loop on, [depth] already incremented and
    checked. *)
Fixpoint getIndefiniteLength_loop (fuel : nat) (buffer : list Z)
    (bufPos maxBufPos depth maxDepth length : Z) {struct fuel} : option Z :=
  match fuel with
  | O => None
  | S fuel =>
      if decide (bufPos < maxBufPos) then
        x ← buffer.[bufPos];
        eoc ← (if decide (x = 0 /\ bufPos + 1 < maxBufPos)
               then y ← buffer.[bufPos + 1]; Some (bool_decide (y = 0))
               else Some false);
        if (eoc : bool) then Some (length + 2)
        else
          let length := length + 1 in
          let bufPos := bufPos + 1 in
          let '(bufPos, length) :=
            if decide (Z.land x 0x1f = 0x1f) then (bufPos + 1, length + 1) else (bufPos, length) in
          '(newBufPos, subLength) ←
            decodeLengthRecursive fuel buffer (-1) bufPos maxBufPos depth maxDepth;
          if decide (newBufPos = -1) then Some (-1)
          else
            getIndefiniteLength_loop fuel buffer (newBufPos + subLength) maxBufPos depth maxDepth
              (length + subLength + newBufPos - bufPos)
      else Some (-1)
  end
with decodeLengthRecursive (fuel : nat) (buffer : list Z)
    (length bufPos maxBufPos depth maxDepth : Z) {struct fuel} : option (Z * Z) :=
  match fuel with
  | O => None
  | S fuel =>
      if decide (bufPos >= maxBufPos) then Some (-1, length)
      else
        len1 ← buffer.[bufPos];
        let bufPos := bufPos + 1 in
        '(bufPos, length) ←
          (if decide (Z.land len1 0x80 <> 0) then
             let lenLength := Z.land len1 0x7f in
             if decide (lenLength = 0) then
               (* indefinite length form *)
               length ←
                 (if decide (depth + 1 > maxDepth) then Some (-1)
                  else getIndefiniteLength_loop fuel buffer bufPos maxBufPos (depth + 1) maxDepth 0);
               Some (bufPos, length)
             else if decide (lenLength < 4) then
               decodeLength_octets (Z.to_nat lenLength) buffer 0 bufPos maxBufPos
             else Some (-1, length)
           else Some (bufPos, len1));
        if decide (bufPos = -1) then Some (-1, length)
        else if decide (length < 0) then Some (-1, length)
        else if decide (bufPos + length > maxBufPos) then Some (-1, length)
        else Some (bufPos, length)
  end.

Definition decodeLength (buffer : list Z) (length bufPos maxBufPos : Z) : option (Z * Z) :=
  decodeLengthRecursive (2 * Z.to_nat (maxBufPos - bufPos) + 2) buffer length bufPos maxBufPos 0 50.

(** [NULL] is the inner [None]; the NUL the code appends is not part of the
    characters of the string. *)
Definition decodeString (buffer : list Z) (strlen bufPos maxBufPos : Z)
    : option (option (list Z)) :=
  if decide (maxBufPos - bufPos < 0) then Some None
  else string ← rds (Z.to_nat strlen) buffer bufPos; Some (Some string).

(** [for (i = 0; i < intLen; i++) ...], leaving after the octet with [i == 3] *)
Fixpoint decodeUint32_loop (n : nat) (buffer : list Z) (bufPos i value : Z) : option Z :=
  match n with
  | O => Some value
  | S n =>
      x ← buffer.[bufPos + i];
      let value := u32 (u32 (Z.shiftl value 8) + x) in
      if decide (i = 3) then Some value
      else decodeUint32_loop n buffer bufPos (i + 1) value
  end.

Definition decodeUint32 (buffer : list Z) (intLen bufPos : Z) : option Z :=
  decodeUint32_loop (Z.to_nat intLen) buffer bufPos 0 0.

Fixpoint decodeInt32_loop (n : nat) (buffer : list Z) (bufPos i value : Z) : option Z :=
  match n with
  | O => Some value
  | S n =>
      x ← buffer.[bufPos + i];
      decodeInt32_loop n buffer bufPos (i + 1) (u32 (u32 (Z.shiftl value 8) + x))
  end.

(** [-0xffffffff] is an unsigned negation: its value is 1. *)
Definition decodeInt32 (buffer : list Z) (intlen bufPos : Z) : option Z :=
  if decide (intlen <= 0 \/ intlen > 4) then Some 0
  else
    x ← buffer.[bufPos];
    let isNegative := bool_decide (Z.land x 0x80 = 0x80) in
    let value := if isNegative then u32 (- 0xffffffff) else 0 in
    value ← decodeInt32_loop (Z.to_nat intlen) buffer bufPos 0 value;
    Some (s32 value).

(** A [float] or [double] is the list of its octets in memory; on a
    little-endian machine the last octet read is the first one. *)
Definition decodeFloat (buffer : list Z) (bufPos : Z) : option (list Z) :=
  valueBuf ← rds 4 buffer (bufPos + 1); Some (reverse valueBuf).

Definition decodeDouble (buffer : list Z) (bufPos : Z) : option (list Z) :=
  valueBuf ← rds 8 buffer (bufPos + 1); Some (reverse valueBuf).

Definition decodeBoolean (buffer : list Z) (length bufPos : Z) : option bool :=
  if decide (length < 1) then Some false
  else x ← buffer.[bufPos]; Some (bool_decide (x <> 0)).

(** [ItuObjectIdentifier]: ten [uint16_t] arcs and how many are used. *)
Record ItuObjectIdentifier := { arc : list Z; arcCount : Z }.

Definition arc_set (arcs : list Z) (i x : Z) : list Z := <[Z.to_nat i := u16 x]> arcs.
Definition arc_get (arcs : list Z) (i : Z) : Z := default 0 (arcs !! Z.to_nat i).

Fixpoint decodeOID_loop (n : nat) (buffer : list Z) (startPos bufPos length currentArc : Z)
    (arcs : list Z) : option ItuObjectIdentifier :=
  match n with
  | O => Some {| arc := arcs; arcCount := currentArc |}
  | S n =>
      if decide (bufPos - startPos < length /\ currentArc < 10) then
        let arcs := arc_set arcs currentArc (Z.shiftl (arc_get arcs currentArc) 7) in
        x ← buffer.[bufPos];
        if decide (x < 0x80) then
          decodeOID_loop n buffer startPos (bufPos + 1) length (currentArc + 1)
            (arc_set arcs currentArc (arc_get arcs currentArc + x))
        else
          decodeOID_loop n buffer startPos (bufPos + 1) length currentArc
            (arc_set arcs currentArc (arc_get arcs currentArc + Z.land x 0x7f))
      else Some {| arc := arcs; arcCount := currentArc |}
  end.

Definition decodeOID (buffer : list Z) (bufPos length : Z) : option ItuObjectIdentifier :=
  let arcs := replicate 10 0 in
  if decide (length > 0) then
    x ← buffer.[bufPos];
    decodeOID_loop (Z.to_nat length) buffer bufPos (bufPos + 1) length 2
      (arc_set (arc_set arcs 0 (x / 40)) 1 (x mod 40))
  else decodeOID_loop (Z.to_nat length) buffer bufPos bufPos length 0 arcs.

(** ** The length field

    What a caller relies on: an accepted length field lies in the buffer and so
    does the content it announces. *)

Definition length_ok (pos max : Z) (res : Z * Z) : Prop :=
  res.1 = -1 \/ pos < res.1 /\ 0 <= res.2 /\ res.1 + res.2 <= max.

Lemma decodeLength_octets_safe n b len pos max :
  is_bytes b -> 0 <= pos -> max <= zlen b ->
  exists r len', decodeLength_octets n b len pos max = Some (r, len') /\ (r = -1 \/ pos <= r).
Proof.
  intros Hb. revert len pos. induction n as [|n IH]; intros len pos Hp Hm; simpl; [eauto with lia|].
  case_decide; [eauto|]. case_decide; [eauto|].
  destruct (rd_ok b pos Hb) as (x & -> & _); [lia|]. cbn [mbind option_bind].
  destruct (IH (Z.shiftl len 8 + x) (pos + 1)) as (r & len' & -> & Hr); [lia..|].
  exists r, len'. split; [done|lia].
Qed.

Definition dist (pos max : Z) : nat := Z.to_nat (max - pos).

Lemma decode_safe fuel b max maxDepth :
  is_bytes b -> max <= zlen b ->
  (forall pos depth len, 0 <= pos -> (2 * dist pos max + 1 <= fuel)%nat ->
    is_Some (getIndefiniteLength_loop fuel b pos max depth maxDepth len)) /\
  (forall pos depth len, 0 <= pos -> (2 * dist pos max + 2 <= fuel)%nat ->
    exists res, decodeLengthRecursive fuel b len pos max depth maxDepth = Some res /\
      length_ok pos max res).
Proof.
  intros Hb Hm. unfold dist. induction fuel as [|fuel [IHl IHd]]; [split; intros; lia|].
  split; intros pos depth len Hp Hf.
  - cbn [getIndefiniteLength_loop]. case_decide; [|eauto].
    destruct (rd_ok b pos Hb) as (x & -> & _); [lia|]. cbn [mbind option_bind].
    assert (exists e, (if decide (x = 0 /\ pos + 1 < max)
      then y ← b.[pos + 1]; Some (bool_decide (y = 0)) else Some false) = Some e) as [e ->].
    { case_decide; [|eauto]. destruct (rd_ok b (pos + 1) Hb) as (y & -> & _); [lia|]. simpl. eauto. }
    cbn [mbind option_bind]. destruct e; [eauto|].
    assert (exists p l, (if decide (Z.land x 0x1f = 0x1f) then (pos + 1 + 1, len + 1 + 1)
      else (pos + 1, len + 1)) = (p, l) /\ pos + 1 <= p) as (p & l & -> & Hpp).
    { case_decide; eauto with lia. }
    destruct (IHd p depth (-1)) as ([r sub] & -> & Hok); [lia..|]. cbn [mbind option_bind].
    unfold length_ok in Hok. simpl in Hok.
    case_decide; [eauto|]. apply IHl; lia.
  - cbn [decodeLengthRecursive]. unfold length_ok.
    case_decide; [eexists; split; [done|by left]|].
    destruct (rd_ok b pos Hb) as (x & -> & Hx); [lia|]. cbn [mbind option_bind].
    match goal with
    | |- exists res, (?m ≫= _) = _ /\ _ =>
        assert (exists p l, m = Some (p, l) /\ (p = -1 \/ pos < p)) as (p & l & -> & Hpl)
    end.
    { repeat case_decide.
      - cbn [mbind option_bind]. eauto with lia.
      - destruct (IHl (pos + 1) (depth + 1) 0) as [l ->]; [lia..|].
        cbn [mbind option_bind]. eauto with lia.
      - destruct (decodeLength_octets_safe (Z.to_nat (Z.land x 0x7f)) b 0 (pos + 1) max Hb)
          as (r & l & -> & Hr); [lia..|]. eauto with lia.
      - eauto.
      - eauto with lia. }
    cbn [mbind option_bind].
    repeat case_decide; eexists; (split; [done|]); simpl; lia.
Qed.

(** On every byte buffer and for every limit inside it,
    [BerDecoder_decodeLength] terminates, reads no byte outside the buffer, and
    either returns [-1] or a position after the length field such that the
    announced content ends before the limit; nested elements of indefinite length
    included. *)
Theorem decodeLength_sound b len pos max :
  is_bytes b -> 0 <= pos -> max <= zlen b ->
  exists r len', decodeLength b len pos max = Some (r, len') /\
    (r = -1 \/ pos < r /\ 0 <= len' /\ r + len' <= max).
Proof.
  intros Hb Hp Hm. unfold decodeLength.
  destruct (decode_safe (2 * Z.to_nat (max - pos) + 2) b max 50 Hb Hm) as [_ H].
  destruct (H pos 0 len Hp ltac:(unfold dist; lia)) as ([r len'] & -> & Hok).
  exists r, len'. by split.
Qed.

(** ** Decoding what the encoder wrote *)

Import BerEncoder.

Lemma decodeLength_step b len pos max x :
  rd b pos = Some x -> pos < max ->
  decodeLength b len pos max =
  decodeLengthRecursive (S (2 * Z.to_nat (max - pos) + 1)) b len pos max 0 50.
Proof. intros. unfold decodeLength. f_equal. lia. Qed.

Ltac run_length :=
  repeat (cbn [mbind option_bind]; rewrite ?Z.shiftl_mul_pow2 by lia; change (2 ^ 8) with 256;
          first [ match goal with H : rd ?b ?q = Some _ |- context [rd ?b ?q] => rewrite H end
                | rewrite decide_False by zlia ]).

Lemma decodeLength_enc b l len pos max :
  is_u32 len -> bytes_at b pos (enc_length len) ->
  pos + zlen (enc_length len) + len mod 16777216 <= max ->
  decodeLength b l pos max = Some (pos + zlen (enc_length len), len mod 16777216).
Proof.
  unfold enc_length. intros Hl Hat Hm.
  repeat case_decide;
    cbn [bytes_at length] in Hat, Hm |- *; destruct_and!;
    (erewrite decodeLength_step; [|eassumption|zlia]);
    cbn [decodeLengthRecursive]; rewrite decide_False by zlia;
    match goal with H : rd b pos = Some _ |- _ =>
      pose proof (rd_inv _ _ _ H); rewrite H end; cbn [mbind option_bind].
  - rewrite byte_land_128 by (unfold_int; lia).
    rewrite (decide_False (P := 128 <= len)) by lia. rewrite decide_False by lia.
    cbn [mbind option_bind]. rewrite !decide_False by zlia. do 2 f_equal; zlia.
  - change (Z.land 0x81 0x80) with 128. change (Z.land 0x81 0x7f) with 1.
    rewrite decide_True, decide_False, decide_True by lia. change (Z.to_nat 1) with 1%nat.
    cbn [decodeLength_octets]. run_length. do 2 f_equal; zlia.
  - change (Z.land 0x82 0x80) with 128. change (Z.land 0x82 0x7f) with 2.
    rewrite decide_True, decide_False, decide_True by lia. change (Z.to_nat 2) with 2%nat.
    cbn [decodeLength_octets]. run_length. do 2 f_equal; zlia.
  - change (Z.land 0x83 0x80) with 128. change (Z.land 0x83 0x7f) with 3.
    rewrite decide_True, decide_False, decide_True by lia. change (Z.to_nat 3) with 3%nat.
    cbn [decodeLength_octets]. run_length. do 2 f_equal; zlia.
Qed.

Lemma u32_add_l a x : u32 (u32 a + x) = u32 (a + x).
Proof. unfold u32. by rewrite Z.add_mod_idemp_l. Qed.

Lemma u32_acc a xs : u32 (be_acc (u32 a) xs) = u32 (be_acc a xs).
Proof.
  rewrite !(be_acc_val _ xs). unfold u32.
  rewrite <- (Z.add_mod_idemp_l _ (be_val xs)), Z.mul_mod_idemp_l by lia.
  by rewrite Z.add_mod_idemp_l.
Qed.

Lemma decodeUint32_loop_spec xs b p i value :
  is_bytes xs -> is_u32 value -> bytes_at b (p + i) xs -> 0 <= i -> i + zlen xs <= 4 ->
  decodeUint32_loop (length xs) b p i value = Some (u32 (be_acc value xs)).
Proof.
  revert i value. induction xs as [|x xs IH]; intros i value Hx Hv Hat Hi Hl.
  { simpl. by rewrite u32_id. }
  inversion Hx as [|? ? Hx0 Hxs]; subst. destruct Hat as [Hr Hat].
  cbn [length decodeUint32_loop] in *. rewrite Hr. cbn [mbind option_bind].
  rewrite Z.shiftl_mul_pow2 by lia. change (2 ^ 8) with 256.
  assert (E : u32 (be_acc (u32 (u32 (value * 256) + x)) xs) = u32 (be_acc value (x :: xs))).
  { change (be_acc value (x :: xs)) with (be_acc (value * 256 + x) xs).
    by rewrite u32_acc, <- (u32_acc (u32 (value * 256) + x)), u32_add_l, u32_acc. }
  case_decide.
  - destruct xs; [|simpl in Hl; lia]. rewrite <- E. f_equal. symmetry.
    apply u32_id, u32_range.
  - rewrite IH; [by f_equal|done|auto with cbytes|by rewrite Z.add_assoc|lia|lia].
Qed.

(** At most four octets of an integer are taken into account. *)
Lemma decodeUint32_spec xs b p :
  is_bytes xs -> bytes_at b p xs -> zlen xs <= 5 ->
  decodeUint32 b (zlen xs) p = Some (u32 (be_val (take 4 xs))).
Proof.
  intros Hx Hat Hl. unfold decodeUint32. rewrite Nat2Z.id.
  destruct (decide (zlen xs <= 4)) as [H4|H4].
  { rewrite take_ge by lia. apply decodeUint32_loop_spec; rewrite ?Z.add_0_r; done || lia. }
  assert (exists a b c d e, xs = [a; b; c; d; e]) as (x0 & x1 & x2 & x3 & x4 & ->).
  { do 5 (destruct xs as [|? xs]; [simpl in *; lia|]). destruct xs; [|simpl in *; lia].
    repeat eexists. }
  rewrite (eq_refl : be_val (take 4 [x0; x1; x2; x3; x4]) = be_acc 0 [x0; x1; x2; x3]).
  rewrite <- (decodeUint32_loop_spec [x0; x1; x2; x3] b p 0 0); try done.
  - by apply (Forall_take _ 4%nat) in Hx.
  - rewrite Z.add_0_r. by apply (bytes_at_take _ _ _ 4%nat) in Hat.
Qed.

Lemma be_bytes_head n z :
  be_bytes (S n) z = (z / 256 ^ Z.of_nat n) mod 256 :: be_bytes n z.
Proof.
  revert z. induction n as [|n IH]; intros z.
  { cbn. by rewrite Z.div_1_r. }
  rewrite be_bytes_S, IH, (be_bytes_S n z). cbn [app]. f_equal.
  rewrite Z.div_div by (try apply Z.pow_pos_nonneg; lia). do 2 f_equal.
  replace (Z.of_nat (S n)) with (1 + Z.of_nat n) by lia.
  by rewrite Z.pow_add_r by lia.
Qed.

Lemma enc_uint32_small v : 0 <= v < 2147483648 -> zlen (enc_uint32 v) <= 4 /\ be_val (enc_uint32 v) = v.
Proof.
  intros Hv. pose proof (enc_uint32_val v ltac:(unfold_int; lia)) as Hs.
  pose proof (be_val_bound _ (enc_uint32_bytes v)) as Hb. split.
  - unfold enc_uint32. rewrite be_bytes_head, minimal_cons2. change (256 ^ Z.of_nat 3) with 16777216.
    rewrite decide_True by zlia. etrans; [apply minimal_length|].
    rewrite length_cons, be_bytes_length. lia.
  - unfold be_sval in Hs. case_decide; lia.
Qed.

Lemma enc_uint32_big v : 2147483648 <= v < 4294967296 -> enc_uint32 v = 0 :: be_bytes 4 v.
Proof.
  intros Hv. unfold enc_uint32. rewrite be_bytes_head, minimal_cons2.
  change (256 ^ Z.of_nat 3) with 16777216. rewrite decide_False by zlia. done.
Qed.

Lemma decodeUint32_enc v b p :
  is_u32 v -> bytes_at b p (enc_uint32 v) ->
  decodeUint32 b (zlen (enc_uint32 v)) p = Some (if decide (v < 2147483648) then v else v / 256).
Proof.
  intros Hv Hat. rewrite decodeUint32_spec;
    [|apply enc_uint32_bytes|done|apply enc_uint32_size]. f_equal.
  case_decide.
  - destruct (enc_uint32_small v) as [Hl E]; [unfold_int; lia|].
    rewrite take_ge, E by lia. by apply u32_id.
  - rewrite enc_uint32_big by (unfold_int; lia). cbn [take].
    rewrite be_bytes_S, take_app_length' by (by rewrite be_bytes_length).
    rewrite be_val_cons, be_val_be_bytes. change (256 ^ Z.of_nat 3) with 16777216.
    apply u32_id || idtac. unfold u32. zlia.
Qed.

(** ** Signed integers *)

Lemma decodeInt32_loop_spec xs b p i value :
  is_u32 value -> bytes_at b (p + i) xs ->
  decodeInt32_loop (length xs) b p i value = Some (u32 (be_acc value xs)).
Proof.
  revert i value. induction xs as [|x xs IH]; intros i value Hv Hat; simpl in *.
  { by rewrite u32_id. }
  destruct Hat as [-> Hat]. simpl. rewrite Z.shiftl_mul_pow2 by lia. change (2 ^ 8) with 256.
  rewrite IH by (by rewrite ?Z.add_assoc || auto with cbytes). f_equal.
  by rewrite u32_acc, <- (u32_acc (u32 (value * 256) + x)), u32_add_l, u32_acc.
Qed.

Lemma enc_int32_bytes v : is_bytes (enc_int32 v).
Proof. apply minimal_bytes, be_bytes_bytes. Qed.

Lemma enc_int32_size v : 1 <= zlen (enc_int32 v) <= 4.
Proof.
  unfold enc_int32. pose proof (minimal_length (be_bytes 4 v)) as H.
  assert (E : zlen (be_bytes 4 v) = 4) by (by rewrite be_bytes_length).
  assert (be_bytes 4 v <> []) by (intros E0; rewrite E0 in E; simpl in E; lia).
  pose proof (minimal_nonempty (be_bytes 4 v) ltac:(done)). lia.
Qed.

Lemma enc_int32_sval v : is_s32 v -> be_sval (enc_int32 v) = v.
Proof.
  intros Hv. unfold enc_int32. rewrite minimal_sval by apply be_bytes_bytes.
  unfold be_sval. rewrite be_val_be_bytes, be_bytes_length, be_bytes_head.
  change (256 ^ Z.of_nat 4) with 4294967296. change (256 ^ Z.of_nat 3) with 16777216.
  simpl. case_decide; zlia.
Qed.

Lemma sval_neg_head bs :
  is_bytes bs -> bs <> [] -> be_sval bs < 0 <-> 128 <= default 0 (head bs).
Proof.
  intros Hb Hne. pose proof (be_val_bound bs Hb). unfold be_sval. case_decide; lia.
Qed.

Lemma int32_accumulate v n val (neg : bool) :
  is_s32 v -> 1 <= n <= 4 -> 0 <= val < 256 ^ n -> (neg = true <-> v < 0) ->
  v = val - (if neg then 256 ^ n else 0) ->
  s32 (u32 ((if neg then 1 else 0) * 256 ^ n + val)) =
  if decide (v < 0 /\ n < 4) then v + 2 * 256 ^ n else v.
Proof.
  intros Hv Hn Hval Hneg He.
  assert (Hc : n = 1 \/ n = 2 \/ n = 3 \/ n = 4) by lia.
  destruct Hc as [-> | [-> | [-> | ->]]];
    [change (256 ^ 1) with 256 in * | change (256 ^ 2) with 65536 in *
    |change (256 ^ 3) with 16777216 in * |change (256 ^ 4) with 4294967296 in *];
    destruct neg; case_decide; zlia.
Qed.

(** Decoding an encoded [int32_t] gives the value back when it is not
    negative or takes four octets; a negative value of [n < 4] octets comes back
    as [v + 2 * 256 ^ n], because the sign extension starts from
    [-0xffffffff], which is 1. *)
Theorem decodeInt32_encodeInt32 v b p b' p' :
  is_s32 v -> encodeInt32 v b p = Some (b', p') ->
  decodeInt32 b' (p' - p) p =
  Some (if decide (v < 0 /\ p' - p < 4) then v + 2 * 256 ^ (p' - p) else v).
Proof.
  intros Hv. rewrite encodeInt32_puts. intros (-> & _ & Hat & _)%puts_inv.
  rewrite u8_bytes in Hat by apply enc_int32_bytes.
  replace (p + zlen (enc_int32 v) - p) with (zlen (enc_int32 v)) by lia.
  pose proof (enc_int32_size v) as Hs. pose proof (enc_int32_sval v Hv) as Hsv.
  pose proof (enc_int32_bytes v) as Hb. set (bs := enc_int32 v) in *.
  assert (Hne : bs <> []) by (intros E; rewrite E in Hs; simpl in Hs; lia).
  pose proof (sval_neg_head bs Hb Hne) as Hneg. pose proof (be_val_bound bs Hb) as Hvb.
  unfold decodeInt32. rewrite decide_False by lia.
  destruct bs as [|x tl] eqn:Eb; [done|]. rewrite <- Eb in *.
  assert (Hx : rd b' p = Some x) by (rewrite Eb in Hat; apply Hat).
  rewrite Hx, Nat2Z.id. cbn [mbind option_bind].
  assert (Hx8 : is_u8 x) by (rewrite Eb in Hb; by inversion Hb).
  rewrite (byte_land_128 x Hx8). rewrite decodeInt32_loop_spec; [|by case_bool_decide|by rewrite Z.add_0_r].
  cbn [mbind option_bind]. f_equal. rewrite be_acc_val.
  assert (Hh : default 0 (head bs) = x) by (by rewrite Eb).
  unfold be_sval in *. rewrite Hh in *.
  replace (if bool_decide ((if decide (128 <= x) then 128 else 0) = 128) then u32 (- 4294967295) else 0)
    with (if bool_decide (128 <= x) then 1 else 0) by (case_decide; [by rewrite !bool_decide_eq_true_2 | by rewrite !bool_decide_eq_false_2]).
  rewrite (int32_accumulate v (zlen bs) (be_val bs) (bool_decide (128 <= x))); try done.
  - rewrite bool_decide_eq_true. by rewrite <- Hneg, Hsv.
  - rewrite <- Hsv.
    case_decide; [by rewrite bool_decide_eq_true_2 | by rewrite bool_decide_eq_false_2].
Qed.

(** ** Properties and witnesses *)

Lemma decodeLength_sound_witness :
  exists r len', decodeLength [0x30; 0x80; 0x04; 0x01; 0x2a; 0; 0] 0 1 7 = Some (r, len') /\
    (r = -1 \/ 1 < r /\ 0 <= len' /\ r + len' <= 7).
Proof. apply decodeLength_sound; [solve_bytes | lia | simpl; lia]. Defined.

(** A length field the encoder wrote is decoded to the position after it
    and the length it was given, for lengths below 2^24; the three octets of the
    long form keep the length modulo 2^24. *)
Theorem decodeLength_encodeLength len l b p b' p' max :
  is_u32 len -> encodeLength len b p = Some (b', p') -> p' + len mod 16777216 <= max ->
  decodeLength b' l p max = Some (p', len mod 16777216).
Proof.
  intros Hl. rewrite encodeLength_puts by done. intros (-> & _ & Hat & _)%puts_inv Hm.
  rewrite u8_bytes in Hat by (apply enc_length_bytes; unfold_int; lia).
  by apply decodeLength_enc.
Qed.

Lemma decodeLength_encodeLength_witness :
  decodeLength [0x82; 0x01; 0x2c] 0 0 303 = Some (3, 300).
Proof.
  apply (decodeLength_encodeLength 300 0 [0; 0; 0] 0 [0x82; 0x01; 0x2c] 3 303);
    [unfold_int; lia | reflexivity | vm_compute; discriminate].
Defined.

(** An element the encoder wrote for a [uint32_t] is decoded to the value
    below 2^31; from 2^31 on the encoding has five octets, of which
    [BerDecoder_decodeUint32] takes four, and the value comes back divided by 256. *)
Theorem decodeUint32_encodeUInt32WithTL tag v b p b' p' :
  is_u32 v -> encodeUInt32WithTL tag v b p = Some (b', p') ->
  exists n, rd b' (p + 1) = Some n /\ p' = p + 2 + n /\
    decodeUint32 b' n (p + 2) = Some (if decide (v < 2147483648) then v else v / 256).
Proof.
  intros Hv. rewrite encodeUInt32WithTL_puts. intros (-> & _ & Hat & _)%puts_inv.
  cbn [fmap list_fmap bytes_at] in Hat. destruct Hat as (_ & Hn & Hat).
  pose proof (enc_uint32_size v). rewrite u8_id in Hn by (unfold_int; lia).
  rewrite u8_bytes in Hat by apply enc_uint32_bytes.
  exists (zlen (enc_uint32 v)). split_and!; [done| |].
  - rewrite !length_cons. lia.
  - apply decodeUint32_enc; [done|]. by replace (p + 2) with (p + 1 + 1) by lia.
Qed.

Lemma decodeUint32_encodeUInt32WithTL_witness :
  exists n, rd [0x85; 5; 0; 0xff; 0; 0; 1] 1 = Some n /\ 7 = 0 + 2 + n /\
    decodeUint32 [0x85; 5; 0; 0xff; 0; 0; 1] n 2 = Some 0xff0000.
Proof.
  apply (decodeUint32_encodeUInt32WithTL 0x85 0xff000001 (replicate 7 0) 0 _ 7);
    [unfold_int; lia | reflexivity].
Defined.

Lemma decodeInt32_encodeInt32_witness :
  decodeInt32 [0xff; 0; 0; 0] 1 0 = Some 511.
Proof.
  apply (decodeInt32_encodeInt32 (-1) [0; 0; 0; 0] 0 _ 1); [unfold_int; lia | reflexivity].
Defined.

(** The head of an encoded value. *)
Lemma tlv_head b p tag xs max l :
  bytes_at b p (enc_tlv tag xs) -> zlen xs < 65535 ->
  p + zlen (enc_tlv tag xs) <= max ->
  exists q, rd b p = Some tag /\ decodeLength b l (p + 1) max = Some (q, zlen xs) /\
    bytes_at b q xs /\ p + 1 < q /\ q + zlen xs = p + zlen (enc_tlv tag xs).
Proof.
  unfold enc_tlv. intros [Htag Hat] Hl Hm. apply bytes_at_app in Hat as [Hlen Hat].
  rewrite length_cons, length_app in *.
  assert (E : zlen xs mod 16777216 = zlen xs) by (apply Z.mod_small; lia).
  pose proof (decodeLength_enc b l (zlen xs) (p + 1) max) as D. rewrite E in D.
  exists (p + 1 + zlen (enc_length (zlen xs))). split_and!; [done| |done| |lia].
  - apply D; [unfold_int; lia|done|lia].
  - assert (0 < zlen (enc_length (zlen xs))); [|lia].
    unfold enc_length. repeat case_decide; simpl; lia.
Qed.

(** [decodeLength_sound] for the parsers of the other layers. *)
Lemma decodeLength_total b p max l :
  is_bytes b -> 0 <= p -> max <= zlen b ->
  exists q len, decodeLength b l p max = Some (q, len) /\
    (q = -1 \/ p < q /\ 0 <= len /\ q + len <= max).
Proof.
  intros Hb Hp Hm. unfold decodeLength.
  destruct (decode_safe (2 * Z.to_nat (max - p) + 2) b max 50 Hb Hm) as [_ D].
  destruct (D p 0 l) as ([r len] & E & Hok); [lia|unfold dist; lia|].
  exists r, len. split; [done|]. exact Hok.
Qed.

Lemma decodeUint32_loop_total n b p i v :
  is_bytes b -> 0 <= p + i -> p + i + Z.of_nat n <= zlen b ->
  exists r, decodeUint32_loop n b p i v = Some r.
Proof.
  intros Hb. revert i v. induction n as [|n IH]; intros i v Hi Hn; [by eexists|].
  cbn [decodeUint32_loop]. destruct (rd_ok b (p + i) Hb) as (x & -> & _); [lia|].
  cbn [mbind option_bind]. case_decide; [eauto|]. apply IH; lia.
Qed.

Lemma decodeUint32_total b n q : is_bytes b -> 0 <= q -> 0 <= n -> q + n <= zlen b ->
  exists v, decodeUint32 b n q = Some v.
Proof. intros. apply decodeUint32_loop_total; (done || lia). Qed.

(** An element of indefinite length has its end-of-contents octets in its content. *)
Lemma indefinite_ge fuel b max maxDepth : is_bytes b -> max <= zlen b ->
  forall pos depth len r, 0 <= pos -> (2 * dist pos max + 1 <= fuel)%nat -> 0 <= len ->
  getIndefiniteLength_loop fuel b pos max depth maxDepth len = Some r -> r = -1 \/ len + 2 <= r.
Proof.
  intros Hb Hm. induction fuel as [|fuel IH]; intros pos depth len r Hp Hf Hlen; [lia|].
  cbn [getIndefiniteLength_loop]. case_decide as Hpm; [|intros [= <-]; by left].
  destruct (rd_ok b pos Hb) as (x & -> & _); [lia|]. cbn [mbind option_bind].
  assert (exists e, (if decide (x = 0 /\ pos + 1 < max)
    then y ← b.[pos + 1]; Some (bool_decide (y = 0)) else Some false) = Some e) as [e ->].
  { case_decide; [|eauto]. destruct (rd_ok b (pos + 1) Hb) as (y & -> & _); [lia|]. simpl. eauto. }
  cbn [mbind option_bind]. destruct e; [intros [= <-]; by right|].
  assert (exists p l, (if decide (Z.land x 0x1f = 0x1f) then (pos + 1 + 1, len + 1 + 1)
    else (pos + 1, len + 1)) = (p, l) /\ pos + 1 <= p /\ len <= l) as (p & l & -> & Hpp & Hll).
  { case_decide; eauto with lia. }
  destruct (proj2 (decode_safe fuel b max maxDepth Hb Hm) p depth (-1)) as ([q sub] & E & Hok);
    [lia|unfold dist in *; lia|].
  rewrite E. cbn [mbind option_bind]. unfold length_ok in Hok. cbn [fst snd] in Hok.
  case_decide; [intros [= <-]; by left|]. intros Hr.
  apply IH in Hr; [|lia|unfold dist in *; lia|lia]. lia.
Qed.

Lemma decodeLength_indefinite b l p max q len :
  is_bytes b -> 0 <= p -> max <= zlen b -> rd b p = Some 0x80 ->
  decodeLength b l p max = Some (q, len) -> q = -1 \/ 2 <= len.
Proof.
  intros Hb Hp Hm E. unfold decodeLength.
  destruct (Nat.eq_dec (Z.to_nat (max - p)) 0%nat) as [Hz|Hz].
  { destruct (2 * Z.to_nat (max - p) + 2)%nat eqn:Ef; [lia|]. cbn [decodeLengthRecursive].
    rewrite decide_True by lia. intros [= <- <-]. by left. }
  destruct (2 * Z.to_nat (max - p) + 2)%nat as [|fuel] eqn:Ef; [lia|]. cbn [decodeLengthRecursive].
  rewrite decide_False by lia. rewrite E. cbn [mbind option_bind].
  rewrite decide_True, decide_True, decide_False by (vm_compute; done).
  destruct (getIndefiniteLength_loop fuel b (p + 1) max (0 + 1) 50 0) as [r|] eqn:Er; [|done].
  cbn [mbind option_bind].
  apply (indefinite_ge _ _ _ _ Hb Hm) in Er; [|lia|unfold dist; lia|lia].
  repeat case_decide; intros [= <- <-]; lia.
Qed.

(** ** Elements in front of others *)

(** What the parsers rely on: an element at [p] in front of [rest], inside [endPos]. *)
Definition element_at (b : list Z) (p endPos tag : Z) (xs rest : list Z) : Prop :=
  bytes_at b p (enc_tlv tag xs ++ rest) /\ zlen xs < 65535 /\ 0 <= p /\
  p + zlen (enc_tlv tag xs ++ rest) = endPos.

(** The element has its content at [q] and the next one behind it. *)
Record opened (b : list Z) (p endPos tag : Z) (xs rest : list Z) (q : Z) : Prop := {
  op_tag : rd b p = Some tag;
  op_length : forall l, decodeLength b l (p + 1) endPos = Some (q, zlen xs);
  op_content : bytes_at b q xs;
  op_pos : p + 1 < q;
  op_rest : bytes_at b (q + zlen xs) rest;
  op_end : q + zlen xs + zlen rest = endPos;
}.

Lemma element_open b p endPos tag xs rest : element_at b p endPos tag xs rest ->
  exists q, opened b p endPos tag xs rest q.
Proof.
  intros (Hat & Hl & Hp & He). apply bytes_at_app in Hat as [Hat Hrest]. rewrite length_app in He.
  destruct (tlv_head b p tag xs endPos 0 Hat Hl) as (q & Ht & Hd & Hq & Hpq & Hend); [lia|].
  exists q. constructor; try done; [|by rewrite Hend|lia].
  intros l. destruct (tlv_head b p tag xs endPos l Hat Hl) as (q' & _ & Hd' & _ & _ & Hend'); [lia|].
  rewrite Hd'. do 2 f_equal. lia.
Qed.

(** One round of a loop on an element. *)
Ltac loop_round H q Ho loop :=
  let Hp := fresh in
  pose proof H as (_ & _ & Hp & _);
  destruct (element_open _ _ _ _ _ _ H) as [q Ho]; exists q; split; [exact Ho|];
  cbn [loop]; pose proof (op_pos _ _ _ _ _ _ _ Ho); pose proof (op_end _ _ _ _ _ _ _ Ho);
  rewrite decide_True by lia; rewrite (op_tag _ _ _ _ _ _ _ Ho); cbn [mbind option_bind];
  rewrite (op_length _ _ _ _ _ _ _ Ho); cbn [mbind option_bind]; rewrite decide_False by lia;
  reflexivity.

(** The elements that are left have more octets than the fuel has rounds. *)
Ltac next_element H := split_and!; [exact H| | |]; try lia.

Lemma decodeUint32_octet b q x : is_u8 x -> rd b q = Some x -> decodeUint32 b 1 q = Some x.
Proof.
  intros Hx E. unfold decodeUint32. change (Z.to_nat 1) with 1%nat.
  cbn [decodeUint32_loop]. rewrite Z.add_0_r, E. cbn [mbind option_bind].
  rewrite decide_False by lia. change (Z.shiftl 0 8) with 0. f_equal. zlia.
Qed.

(** ** Object identifiers and small integers in a message *)

Lemma decodeOID_loop_at n b p xs k cur arcs : bytes_at b p xs -> 0 <= k ->
  decodeOID_loop n b p (p + k) (zlen xs) cur arcs = decodeOID_loop n xs 0 k (zlen xs) cur arcs.
Proof.
  intros Hat. revert k cur arcs. induction n as [|n IH]; intros k cur arcs Hk; [done|].
  cbn [decodeOID_loop]. replace (p + k - p) with (k - 0) by lia. case_decide as Hd; [|done].
  assert (E : rd b (p + k) = rd xs k).
  { destruct (xs !! Z.to_nat k) as [x|] eqn:Ex; [|apply lookup_ge_None in Ex; lia].
    pose proof (bytes_at_lookup _ _ _ _ _ Hat Ex) as E1.
    pose proof (bytes_at_lookup _ _ _ _ _ (bytes_at_0 xs) Ex) as E2.
    rewrite Z2Nat.id in E1, E2 by lia. by rewrite E1, Z.add_0_l in *. }
  rewrite E. destruct (rd xs k) as [x|]; [|done]. cbn [mbind option_bind].
  rewrite <- Z.add_assoc. case_decide; by apply IH; lia.
Qed.

(** The identifier is that of its octets, wherever they are. *)
Lemma decodeOID_at b p xs : bytes_at b p xs -> decodeOID b p (zlen xs) = decodeOID xs 0 (zlen xs).
Proof.
  intros Hat. unfold decodeOID. case_decide as Hl.
  - destruct xs as [|x xs]; [done|]. destruct Hat as [Hx Hat]. rewrite Hx.
    change (rd (x :: xs) 0) with (Some x). cbn [mbind option_bind].
    rewrite (decodeOID_loop_at _ b p (x :: xs)) by (done || lia). done.
  - pose proof (decodeOID_loop_at (Z.to_nat (zlen xs)) b p xs 0 0 (replicate 10 0) Hat ltac:(lia)) as E.
    by rewrite Z.add_0_r in E.
Qed.

Lemma decodeOID_loop_total n b s p len cur arcs : is_bytes b -> 0 <= s <= p -> s + len <= zlen b ->
  exists r, decodeOID_loop n b s p len cur arcs = Some r.
Proof.
  intros Hb. revert p cur arcs. induction n as [|n IH]; intros p cur arcs Hp Hl; [eauto|].
  cbn [decodeOID_loop]. case_decide; [|eauto]. destruct (rd_ok b p Hb) as (x & -> & _); [lia|].
  cbn [mbind option_bind]. case_decide; by apply IH; lia.
Qed.

Lemma decodeOID_total b p len : is_bytes b -> 0 <= p -> p + len <= zlen b ->
  exists r, decodeOID b p len = Some r.
Proof.
  intros Hb Hp Hl. unfold decodeOID. case_decide; [|by apply decodeOID_loop_total].
  destruct (rd_ok b p Hb) as (x & -> & _); [lia|]. apply decodeOID_loop_total; (done || lia).
Qed.

Lemma decodeInt32_loop_total n b p i v : is_bytes b -> 0 <= p + i -> p + i + Z.of_nat n <= zlen b ->
  exists r, decodeInt32_loop n b p i v = Some r.
Proof.
  intros Hb. revert i v. induction n as [|n IH]; intros i v Hi Hn; [by eexists|].
  cbn [decodeInt32_loop]. destruct (rd_ok b (p + i) Hb) as (x & -> & _); [lia|]. apply IH; lia.
Qed.

Lemma decodeInt32_total b n q : is_bytes b -> 0 <= q -> q + n <= zlen b ->
  exists v, decodeInt32 b n q = Some v.
Proof.
  intros Hb Hq Hn. unfold decodeInt32. case_decide; [eauto|].
  destruct (rd_ok b q Hb) as (x & -> & _); [lia|]. cbn [mbind option_bind].
  destruct (decodeInt32_loop_total (Z.to_nat n) b q 0
    (if bool_decide (Z.land x 128 = 128) then u32 (- 4294967295) else 0) Hb) as (v & ->); [lia..|]. by eexists.
Qed.

(** What the decoder of signed integers makes of the unsigned encoding. *)
Lemma decodeInt32_enc_uint32 v b p : is_u32 v -> bytes_at b p (enc_uint32 v) ->
  decodeInt32 b (zlen (enc_uint32 v)) p = Some (if decide (v < 2147483648) then v else 0).
Proof.
  intros Hv Hat. pose proof (enc_uint32_size v) as Hs. pose proof (enc_uint32_bytes v) as Hb.
  unfold decodeInt32. destruct (decide (v < 2147483648)) as [Hsmall|Hbig].
  - destruct (enc_uint32_small v) as [Hl E]; [unfold_int; lia|]. rewrite decide_False by lia.
    assert (Hne : enc_uint32 v <> []) by (intros E0; rewrite E0 in Hs; simpl in Hs; lia).
    pose proof (sval_neg_head (enc_uint32 v) Hb Hne) as Hneg. rewrite enc_uint32_val in Hneg by done.
    destruct (enc_uint32 v) as [|x tl] eqn:Eb; [done|]. rewrite <- Eb in *.
    assert (Hx : rd b p = Some x) by (rewrite Eb in Hat; apply Hat). rewrite Hx, Nat2Z.id. cbn [mbind option_bind].
    assert (Hx8 : is_u8 x) by (rewrite Eb in Hb; by inversion Hb). rewrite (byte_land_128 x Hx8).
    assert (Hh : default 0 (head (enc_uint32 v)) = x) by (by rewrite Eb). rewrite Hh in Hneg.
    rewrite decide_False by (unfold_int; lia). rewrite bool_decide_eq_false_2 by done.
    rewrite decodeInt32_loop_spec by (done || by rewrite Z.add_0_r). cbn [mbind option_bind].
    rewrite be_acc_val, E. f_equal. zlia.
  - rewrite enc_uint32_big by (unfold_int; lia). rewrite decide_True; [done|].
    rewrite length_cons, be_bytes_length. lia.
Qed.

(** A length that announces more than there is is refused. *)
Lemma decodeLength_too_long b l len pos max :
  0 <= len < 65535 -> bytes_at b pos (enc_length len) -> pos + zlen (enc_length len) <= max ->
  pos + zlen (enc_length len) + len > max ->
  exists k, decodeLength b l pos max = Some (-1, k).
Proof.
  unfold enc_length. intros Hl Hat Hm Hbig.
  repeat case_decide; try lia;
    cbn [bytes_at length] in Hat, Hm, Hbig |- *; destruct_and!;
    (erewrite decodeLength_step; [|eassumption|zlia]);
    cbn [decodeLengthRecursive]; rewrite decide_False by zlia;
    match goal with H : rd b pos = Some _ |- _ =>
      pose proof (rd_inv _ _ _ H); rewrite H end; cbn [mbind option_bind].
  - rewrite byte_land_128 by (unfold_int; lia).
    rewrite (decide_False (P := 128 <= len)) by lia. rewrite decide_False by lia.
    cbn [mbind option_bind]. repeat case_decide; first [eexists; reflexivity | lia].
  - change (Z.land 0x81 0x80) with 128. change (Z.land 0x81 0x7f) with 1.
    rewrite decide_True, decide_False, decide_True by lia. change (Z.to_nat 1) with 1%nat.
    cbn [decodeLength_octets]. run_length. rewrite decide_True by zlia. eexists; reflexivity.
  - change (Z.land 0x82 0x80) with 128. change (Z.land 0x82 0x7f) with 2.
    rewrite decide_True, decide_False, decide_True by lia. change (Z.to_nat 2) with 2%nat.
    cbn [decodeLength_octets]. run_length. case_decide; [eexists; reflexivity|].
    run_length. rewrite decide_True by zlia. eexists; reflexivity.
Qed.

End BerDecoder.
