(* ===== verification/BerInteger.v ===== *)
(** * ASN.1 primitive values and BER integers

    [src/mms/asn1/asn1_ber_primitive_value.c] and [src/mms/asn1/ber_integer.c]:
    integers of any width kept as the shortest two's complement octet string.
    The arguments [m1 m2] of the functions that allocate say whether the two
    allocations succeed; [NULL] is the inner [None]. *)

From S2P Require Import Prelude BerEncoder BerDecoder.

Module BerInteger.

(** ** Definitions *)

(** [size] and [maxSize] are [uint8_t]. *)
Record Asn1PrimitiveValue := { size : Z; maxSize : Z; octets : list Z }.

Definition Asn1PrimitiveValue_create (m1 m2 : bool) (size : Z) : option Asn1PrimitiveValue :=
  if m1 && m2 then
    Some {| size := 1; maxSize := u8 size; octets := replicate (Z.to_nat size) 0 |}
  else None.

Definition Asn1PrimitiveValue_clone (m1 m2 : bool) (self : Asn1PrimitiveValue)
    : option (option Asn1PrimitiveValue) :=
  if m1 && m2 then
    copy ← rds (Z.to_nat (maxSize self)) (octets self) 0;
    Some (Some {| size := size self; maxSize := maxSize self; octets := copy |})
  else Some None.

Definition Asn1PrimitivaValue_compare (self otherValue : Asn1PrimitiveValue) : option bool :=
  if decide (size self = size otherValue) then
    xs ← rds (Z.to_nat (size self)) (octets self) 0;
    ys ← rds (Z.to_nat (size self)) (octets otherValue) 0;
    Some (bool_decide (xs = ys))
  else Some false.

Definition setIntegerValue (self : Asn1PrimitiveValue) (valueBuffer : list Z) (bufferSize : Z)
    : option (Asn1PrimitiveValue * bool) :=
  valueBuffer ← BerEncoder.revertByteOrder valueBuffer 0 bufferSize;
  '(valueBuffer, sz) ← BerEncoder.compressInteger valueBuffer bufferSize;
  if decide (sz <= maxSize self) then
    '(oct, _) ← copy_bytes (Z.to_nat sz) valueBuffer 0 (octets self) 0;
    Some ({| size := u8 sz; maxSize := maxSize self; octets := oct |}, true)
  else Some (self, false).

Definition createInt32 (m1 m2 : bool) : option Asn1PrimitiveValue :=
  Asn1PrimitiveValue_create m1 m2 5.

Definition createInt64 (m1 m2 : bool) : option Asn1PrimitiveValue :=
  Asn1PrimitiveValue_create m1 m2 9.

Definition createFromBuffer (m1 m2 : bool) (buf : list Z) (sz : Z)
    : option (option Asn1PrimitiveValue) :=
  let maxSz := if decide (sz > 8) then sz else 8 in
  match Asn1PrimitiveValue_create m1 m2 maxSz with
  | Some self =>
      '(oct, _) ← copy_bytes (Z.to_nat sz) buf 0 (octets self) 0;
      Some (Some {| size := u8 sz; maxSize := maxSize self; octets := oct |})
  | None => Some None
  end.

Definition setFromBerInteger (self value : Asn1PrimitiveValue)
    : option (Asn1PrimitiveValue * bool) :=
  if decide (maxSize self >= size value) then
    '(oct, _) ← copy_bytes (Z.to_nat (size value)) (octets value) 0 (octets self) 0;
    Some ({| size := size value; maxSize := maxSize self; octets := oct |}, true)
  else Some (self, false).

(** The native value is little-endian in memory. *)
Definition setInt32 (self : Asn1PrimitiveValue) (value : Z) : option (Asn1PrimitiveValue * bool) :=
  setIntegerValue self (le_bytes 4 value) 4.

Definition setUint16 (self : Asn1PrimitiveValue) (value : Z) : option (Asn1PrimitiveValue * bool) :=
  setIntegerValue self (le_bytes 2 value ++ [0]) 3.

Definition setUint8 (self : Asn1PrimitiveValue) (value : Z) : option (Asn1PrimitiveValue * bool) :=
  setIntegerValue self (le_bytes 1 value) 1.

Definition setUint32 (self : Asn1PrimitiveValue) (value : Z) : option (Asn1PrimitiveValue * bool) :=
  setIntegerValue self (le_bytes 4 value ++ [0]) 5.

Definition setInt64 (self : Asn1PrimitiveValue) (value : Z) : option (Asn1PrimitiveValue * bool) :=
  setIntegerValue self (le_bytes 8 value) 8.

Definition createFrom (create : option Asn1PrimitiveValue)
    (set : Asn1PrimitiveValue -> Z -> option (Asn1PrimitiveValue * bool)) (value : Z)
    : option (option Asn1PrimitiveValue) :=
  match create with
  | Some asn1Value => '(asn1Value, _) ← set asn1Value value; Some (Some asn1Value)
  | None => Some None
  end.

Definition createFromInt32 (m1 m2 : bool) := createFrom (createInt32 m1 m2) setInt32.
Definition createFromUint32 (m1 m2 : bool) := createFrom (createInt32 m1 m2) setUint32.
Definition createFromInt64 (m1 m2 : bool) := createFrom (createInt64 m1 m2) setInt64.

(** [for (i = 0; i < self->size; i++) *nativeValue = ( *nativeValue << 8) | buf[i]],
    [wrap] being the width and signedness of [nativeValue]. *)
Fixpoint to_native_loop (wrap : Z -> Z) (n : nat) (buf : list Z) (i nativeValue : Z) : option Z :=
  match n with
  | O => Some nativeValue
  | S n =>
      x ← buf.[i];
      to_native_loop wrap n buf (i + 1) (wrap (Z.lor (Z.shiftl nativeValue 8) x))
  end.

Definition toInt32 (self : Asn1PrimitiveValue) : option Z :=
  x ← (octets self).[0];
  let nativeValue := if decide (Z.land x 0x80 <> 0) then s32 0xffffffff else 0 in
  to_native_loop s32 (Z.to_nat (size self)) (octets self) 0 nativeValue.

Definition toUint32 (self : Asn1PrimitiveValue) : option Z :=
  to_native_loop u32 (Z.to_nat (size self)) (octets self) 0 0.

Definition toInt64 (self : Asn1PrimitiveValue) : option Z :=
  x ← (octets self).[0];
  let nativeValue := if decide (Z.land x 0x80 <> 0) then s64 0xffffffffffffffff else 0 in
  to_native_loop s64 (Z.to_nat (size self)) (octets self) 0 nativeValue.

(** [BerEncoder_encodeAsn1PrimitiveValue] *)
Definition encodeAsn1PrimitiveValue (tag : Z) (value : Asn1PrimitiveValue) (buffer : list Z)
    (bufPos : Z) : option (list Z * Z) :=
  '(buffer, bufPos) ← put buffer bufPos tag;
  '(buffer, bufPos) ← BerEncoder.encodeLength (size value) buffer bufPos;
  copy_bytes (Z.to_nat (size value)) (octets value) 0 buffer bufPos.

(** ** Well-formed values *)

(** The octets in use fit the allocated array, and a value has at least one. *)
Definition wf (self : Asn1PrimitiveValue) : Prop :=
  is_bytes (octets self) /\ 1 <= size self <= maxSize self /\ maxSize self <= 255 /\
  zlen (octets self) = maxSize self.

Definition digits (self : Asn1PrimitiveValue) : list Z := take (Z.to_nat (size self)) (octets self).

(** The integer a value stands for. *)
Definition ival (self : Asn1PrimitiveValue) : Z := be_sval (digits self).

Lemma create_wf sz self :
  1 <= sz <= 255 -> Asn1PrimitiveValue_create true true sz = Some self ->
  wf self /\ maxSize self = sz.
Proof.
  intros Hs [= <-]. unfold wf; cbn [size maxSize octets]. rewrite length_replicate.
  assert (u8 sz = sz) as -> by (apply u8_id; unfold_int; lia).
  split_and!; try lia. apply Forall_replicate. done.
Qed.

Lemma wf_digits self : wf self ->
  zlen (digits self) = size self /\ is_bytes (digits self) /\ bytes_at (octets self) 0 (digits self).
Proof.
  intros (Hb & Hs & Hm & Hl). unfold digits. split_and!.
  - rewrite length_take. lia.
  - by apply Forall_take.
  - apply bytes_at_take, bytes_at_0.
Qed.

Lemma encodeAsn1PrimitiveValue_puts tag value b p :
  wf value ->
  encodeAsn1PrimitiveValue tag value b p = puts b p (BerEncoder.enc_tlv tag (digits value)).
Proof.
  intros Hw. pose proof (wf_digits _ Hw) as (Hl & _ & Hat). destruct Hw as (_ & Hs & Hm & _).
  unfold encodeAsn1PrimitiveValue, BerEncoder.enc_tlv. cbn [puts].
  destruct (put b p tag) as [[b1 p1]|]; [|done]. cbn [mbind option_bind].
  rewrite Hl, BerEncoder.encodeLength_puts, puts_app by (unfold_int; lia).
  destruct (puts b1 p1 _) as [[b2 p2]|]; [|done]. cbn [mbind option_bind].
  by apply copy_at_Z.
Qed.

(** ** Storing and loading native integers *)

Lemma setIntegerValue_spec self buf :
  wf self -> is_bytes buf -> buf <> [] -> zlen buf <= maxSize self ->
  exists self', setIntegerValue self buf (zlen buf) = Some (self', true) /\ wf self' /\
    maxSize self' = maxSize self /\ digits self' = BerEncoder.minimal (reverse buf).
Proof.
  intros (Hb & Hs & Hm & Hl) Hbuf Hne Hfit. unfold setIntegerValue.
  pose proof (BerEncoder.revertByteOrder_spec [] buf []) as R.
  rewrite !app_nil_r in R. cbn [app] in R. change (zlen []) with 0 in R. rewrite R by done.
  cbn [mbind option_bind].
  assert (Hr : is_bytes (reverse buf)) by (by apply Forall_reverse).
  assert (Hrne : reverse buf <> []).
  { intros E%(f_equal length). rewrite length_reverse in E. by destruct buf. }
  destruct (BerEncoder.compressInteger_spec (reverse buf) Hr Hrne) as (vb & E & Hat).
  rewrite length_reverse in E. rewrite E. cbn [mbind option_bind].
  pose proof (BerEncoder.minimal_length (reverse buf)) as Hml. rewrite length_reverse in Hml.
  pose proof (BerEncoder.minimal_nonempty _ Hrne). set (mn := BerEncoder.minimal (reverse buf)) in *.
  assert (Hmb : is_bytes mn) by (by apply BerEncoder.minimal_bytes).
  rewrite decide_True by lia. rewrite Nat2Z.id, (copy_bytes_at _ _ _ _ _ Hat).
  rewrite puts_splice by (try done; lia). cbn [mbind option_bind].
  eexists. split; [done|]. unfold wf, digits; cbn [size maxSize octets].
  rewrite u8_id by (unfold_int; lia). rewrite Nat2Z.id.
  change (Z.to_nat 0) with 0%nat. rewrite take_0. cbn [Nat.add app].
  split_and!; try lia; try done.
  - apply Forall_app_2; [done|by apply Forall_drop].
  - rewrite length_app, length_drop. lia.
  - by rewrite take_app_length.
Qed.

Lemma lor_shift_byte a x : is_u8 x -> Z.lor (Z.shiftl a 8) x = a * 256 + x.
Proof.
  intros Hx. rewrite <- Z.add_nocarry_lor; [by rewrite Z.shiftl_mul_pow2 by lia|].
  apply Z.bits_inj'. intros k Hk. rewrite Z.land_spec, Z.bits_0, Z.shiftl_spec by lia.
  destruct (decide (k < 8)).
  - by rewrite Z.testbit_neg_r by lia.
  - rewrite <- (u8_id x Hx). change (u8 x) with (x mod 2 ^ 8).
    by rewrite Z.mod_pow2_bits_high, andb_false_r by lia.
Qed.

Section Native.
Context (wrap : Z -> Z) (wrap_idem : forall a, wrap (wrap a) = wrap a)
  (wrap_acc : forall a x, wrap (wrap a * 256 + x) = wrap (a * 256 + x)).

Lemma wrap_be_acc a xs : wrap (be_acc (wrap a) xs) = wrap (be_acc a xs).
Proof using wrap_acc wrap_idem.
  revert a. induction xs as [|x xs IH]; intros a; [apply wrap_idem|].
  change (be_acc ?c (x :: xs)) with (be_acc (c * 256 + x) xs).
  by rewrite <- (IH (wrap a * 256 + x)), wrap_acc, IH.
Qed.

Lemma to_native_loop_spec xs buf i nv :
  is_bytes xs -> bytes_at buf i xs -> wrap nv = nv ->
  to_native_loop wrap (length xs) buf i nv = Some (wrap (be_acc nv xs)).
Proof using wrap_acc wrap_idem.
  intros Hx. revert i nv. induction Hx as [|x xs Hx0 Hx IH]; intros i nv Hat Hnv.
  { simpl. by rewrite Hnv. }
  destruct Hat as [Hr Hat]. cbn [length to_native_loop]. rewrite Hr. cbn [mbind option_bind].
  rewrite lor_shift_byte, IH by done.
  change (be_acc nv (x :: xs)) with (be_acc (nv * 256 + x) xs). f_equal. apply wrap_be_acc.
Qed.
End Native.

Lemma s32_acc a x : s32 (s32 a * 256 + x) = s32 (a * 256 + x).
Proof. zlia. Qed.

Lemma s64_acc a x : s64 (s64 a * 256 + x) = s64 (a * 256 + x).
Proof. zlia. Qed.

Lemma be_acc_sval x tl :
  is_bytes (x :: tl) ->
  be_acc (if decide (Z.land x 0x80 <> 0) then -1 else 0) (x :: tl) = be_sval (x :: tl).
Proof.
  intros Hb. inversion Hb as [|? ? Hx _]; subst. unfold be_sval. rewrite be_acc_val. simpl default.
  rewrite (byte_land_128 x Hx). repeat case_decide; lia.
Qed.

Lemma wf_head self : wf self -> exists x tl, digits self = x :: tl /\ rd (octets self) 0 = Some x.
Proof.
  intros Hw. pose proof (wf_digits self Hw) as (Hl & _ & Hat). destruct Hw as (_ & Hs & Hm & _).
  destruct (digits self) as [|x tl]; [simpl in Hl; lia|]. exists x, tl. by destruct Hat.
Qed.

Lemma toInt32_spec self : wf self -> toInt32 self = Some (s32 (ival self)).
Proof.
  intros Hw. destruct (wf_head self Hw) as (x & tl & Hd & Hr).
  pose proof (wf_digits self Hw) as (Hl & Hb & Hat). unfold toInt32, ival. rewrite Hr.
  cbn [mbind option_bind]. rewrite <- Hl, Nat2Z.id, Hd in *.
  rewrite (to_native_loop_spec s32); [|intros; zlia|apply s32_acc|done|done|by case_decide].
  f_equal. rewrite <- be_acc_sval by done. by case_decide.
Qed.

Lemma toInt64_spec self : wf self -> toInt64 self = Some (s64 (ival self)).
Proof.
  intros Hw. destruct (wf_head self Hw) as (x & tl & Hd & Hr).
  pose proof (wf_digits self Hw) as (Hl & Hb & Hat). unfold toInt64, ival. rewrite Hr.
  cbn [mbind option_bind]. rewrite <- Hl, Nat2Z.id, Hd in *.
  rewrite (to_native_loop_spec s64); [|intros; zlia|apply s64_acc|done|done|by case_decide].
  f_equal. rewrite <- be_acc_sval by done. by case_decide.
Qed.

Lemma toUint32_spec self : wf self -> toUint32 self = Some (u32 (be_val (digits self))).
Proof.
  intros Hw. pose proof (wf_digits self Hw) as (Hl & Hb & Hat). unfold toUint32.
  rewrite <- Hl, Nat2Z.id.
  apply (to_native_loop_spec u32); [intros; zlia|intros; zlia|done|done|done].
Qed.

Lemma set_ival self buf v :
  wf self -> is_bytes buf -> buf <> [] -> zlen buf <= maxSize self ->
  be_sval (reverse buf) = v ->
  exists self', setIntegerValue self buf (zlen buf) = Some (self', true) /\ wf self' /\
    maxSize self' = maxSize self /\ ival self' = v.
Proof.
  intros Hw Hb Hne Hl Hv. destruct (setIntegerValue_spec self buf Hw Hb Hne Hl)
    as (self' & E & Hw' & Hm & Hd).
  exists self'. split_and!; try done. unfold ival. rewrite Hd, BerEncoder.minimal_sval; [done|].
  by apply Forall_reverse.
Qed.

(** The value of the [n] little-endian octets of [z], without and with a zero
    octet in front of the number. *)
Lemma sval_le_bytes n z :
  let h := 128 * 256 ^ Z.of_nat n in - h <= z < h -> be_sval (reverse (le_bytes (S n) z)) = z.
Proof.
  cbv zeta. intros Hz. change (reverse (le_bytes (S n) z)) with (be_bytes (S n) z).
  unfold be_sval. rewrite be_val_be_bytes, be_bytes_length, BerDecoder.be_bytes_head. simpl default.
  replace (Z.of_nat (S n)) with (1 + Z.of_nat n) by lia. rewrite Z.pow_add_r by lia.
  change (256 ^ 1) with 256. set (P := 256 ^ Z.of_nat n) in *.
  assert (0 < P) by (apply Z.pow_pos_nonneg; lia).
  rewrite (Z.mul_comm 256 P), Z.rem_mul_r by lia.
  pose proof (Z.div_mod z P ltac:(lia)). pose proof (Z.mod_pos_bound z P ltac:(lia)).
  assert (-128 <= z / P < 128) by (split; [apply Z.div_le_lower_bound; lia | apply Z.div_lt_upper_bound; lia]).
  case_decide.
  - assert (E : (z / P) mod 256 = z / P + 256) by zlia. rewrite E. lia.
  - assert (E : (z / P) mod 256 = z / P) by zlia. rewrite E. lia.
Qed.

Lemma sval_le_bytes_0 n z :
  0 <= z < 256 ^ Z.of_nat n -> be_sval (reverse (le_bytes n z ++ [0])) = z.
Proof.
  intros Hz. rewrite reverse_snoc. change (reverse (le_bytes n z)) with (be_bytes n z).
  unfold be_sval. rewrite be_val_cons, be_val_be_bytes. simpl default.
  rewrite decide_False by lia. rewrite Z.mod_small; lia.
Qed.

Lemma ival_nonneg self : wf self -> 0 <= ival self -> be_val (digits self) = ival self.
Proof.
  intros Hw. pose proof (wf_digits self Hw) as (_ & Hb & _).
  pose proof (be_val_bound _ Hb). unfold ival, be_sval. case_decide; lia.
Qed.

Lemma le_bytes_ne n z : le_bytes (S n) z <> [].
Proof. done. Qed.

(** Storing [buf] in [self] leaves the value [v], whatever the width. *)
Ltac store_native v :=
  match goal with
  | Hw : wf ?self |- exists s, setIntegerValue ?self ?buf ?n = _ /\ _ =>
      change n with (zlen buf);
      destruct (set_ival self buf v Hw) as (s & -> & Hs & Hmx & Hv);
      [ try (apply Forall_app_2; [|by solve_bytes]); apply le_bytes_bytes
      | done | simpl; lia
      | first [ apply (sval_le_bytes 0) | apply (sval_le_bytes 3) | apply (sval_le_bytes 7)
              | apply (sval_le_bytes_0 2) | apply (sval_le_bytes_0 4) ]; unfold_int; cbn; lia | ]
  end.

Lemma setInt32_spec self v : wf self -> 4 <= maxSize self -> is_s32 v ->
  exists s, setInt32 self v = Some (s, true) /\ wf s /\ maxSize s = maxSize self /\ ival s = v.
Proof. intros. unfold setInt32. store_native v. eauto. Qed.

Lemma setUint32_spec self v : wf self -> 5 <= maxSize self -> is_u32 v ->
  exists s, setUint32 self v = Some (s, true) /\ wf s /\ maxSize s = maxSize self /\ ival s = v.
Proof. intros. unfold setUint32. store_native v. eauto. Qed.

Lemma setUint16_spec self v : wf self -> 3 <= maxSize self -> is_u16 v ->
  exists s, setUint16 self v = Some (s, true) /\ wf s /\ maxSize s = maxSize self /\ ival s = v.
Proof. intros. unfold setUint16. store_native v. eauto. Qed.

Lemma setInt64_spec self v : wf self -> 8 <= maxSize self -> is_s64 v ->
  exists s, setInt64 self v = Some (s, true) /\ wf s /\ maxSize s = maxSize self /\ ival s = v.
Proof. intros. unfold setInt64. store_native v. eauto. Qed.

Lemma setUint8_spec self v : wf self -> is_u8 v ->
  exists s, setUint8 self v = Some (s, true) /\ wf s /\ ival s = s8 v /\ digits s = [v].
Proof.
  intros Hw Hv. unfold setUint8. change 1 with (zlen (le_bytes 1 v)).
  destruct (setIntegerValue_spec self (le_bytes 1 v) Hw) as (s & -> & Hs & _ & Hd).
  { apply le_bytes_bytes. } { done. } { destruct Hw as (_ & ? & _). simpl. lia. }
  exists s. split_and!; try done; unfold ival; rewrite Hd; cbn; rewrite Z.mod_small by (unfold_int; lia).
  - unfold be_sval, s8. cbn. case_decide; unfold_int; zlia.
  - done.
Qed.

(** ** Properties and witnesses *)

(** A native integer stored in a value with room for it is read back
    unchanged: [int32_t], [uint16_t], [uint32_t] (also when read as [int64_t])
    and [int64_t]; the stored value stays well-formed. *)
Theorem set_get_native self :
  wf self -> 8 <= maxSize self ->
  (forall v, is_s32 v -> exists s, setInt32 self v = Some (s, true) /\ wf s /\
     toInt32 s = Some v /\ toInt64 s = Some v) /\
  (forall v, is_u16 v -> exists s, setUint16 self v = Some (s, true) /\ wf s /\
     toUint32 s = Some v /\ toInt32 s = Some v) /\
  (forall v, is_u32 v -> exists s, setUint32 self v = Some (s, true) /\ wf s /\
     toUint32 s = Some v /\ toInt64 s = Some v) /\
  (forall v, is_s64 v -> exists s, setInt64 self v = Some (s, true) /\ wf s /\ toInt64 s = Some v).
Proof.
  intros Hw Hm. split_and!; intros v Hv.
  - destruct (setInt32_spec self v) as (s & -> & Hs & _ & Hi); [done|lia|done|].
    exists s. rewrite toInt32_spec, toInt64_spec, Hi by done. split_and!; try done; f_equal; zlia.
  - destruct (setUint16_spec self v) as (s & -> & Hs & _ & Hi); [done|lia|done|].
    exists s. rewrite toInt32_spec, toUint32_spec, ival_nonneg, Hi by (done || (rewrite Hi; unfold_int; lia)).
    split_and!; try done; f_equal; zlia.
  - destruct (setUint32_spec self v) as (s & -> & Hs & _ & Hi); [done|lia|done|].
    exists s. rewrite toInt64_spec, toUint32_spec, ival_nonneg, Hi by (done || (rewrite Hi; unfold_int; lia)).
    split_and!; try done; f_equal; zlia.
  - destruct (setInt64_spec self v) as (s & -> & Hs & _ & Hi); [done|lia|done|].
    exists s. rewrite toInt64_spec, Hi by done. split_and!; try done. f_equal. zlia.
Qed.

Definition sample : Asn1PrimitiveValue := {| size := 1; maxSize := 9; octets := replicate 9 0 |}.

Lemma set_get_native_witness :
  exists s, setInt64 sample (-129) = Some (s, true) /\ wf s /\ toInt64 s = Some (-129).
Proof.
  apply (set_get_native sample); [|simpl; lia|unfold_int; lia].
  unfold wf; cbn [size maxSize octets sample]. split_and!; [solve_bytes|lia|lia|lia|done].
Defined.

(** A [uint8_t] is read back as unsigned, but, stored without the leading
    zero octet the wider setters add, as a negative number from 128 on when it is
    read as signed. *)
Theorem setUint8_get self v :
  wf self -> is_u8 v ->
  exists s, setUint8 self v = Some (s, true) /\ wf s /\ toUint32 s = Some v /\
    toInt32 s = Some (if decide (v < 128) then v else v - 256).
Proof.
  intros Hw Hv. destruct (setUint8_spec self v Hw Hv) as (s & -> & Hs & Hi & Hd).
  exists s. rewrite toUint32_spec, toInt32_spec, Hi, Hd by done. split_and!; try done.
  - f_equal. cbn. zlia.
  - f_equal. case_decide; zlia.
Qed.

Lemma setUint8_get_witness :
  exists s, setUint8 sample 200 = Some (s, true) /\ wf s /\ toUint32 s = Some 200 /\
    toInt32 s = Some (-56).
Proof.
  apply (setUint8_get sample 200); [|unfold_int; lia].
  unfold wf; cbn [size maxSize octets sample]. split_and!; [solve_bytes|lia|lia|lia|done].
Defined.

(** Two values are equal exactly when their octets in use are. *)
Lemma compare_spec self other : wf self -> wf other ->
  Asn1PrimitivaValue_compare self other = Some (bool_decide (digits self = digits other)).
Proof.
  intros Hw Ho. pose proof (wf_digits _ Hw) as (Hl & _ & Hat).
  pose proof (wf_digits _ Ho) as (Hl' & _ & Hat').
  unfold Asn1PrimitivaValue_compare. case_decide as Hs.
  - replace (Z.to_nat (size self)) with (length (digits self)) by lia.
    rewrite (rds_at _ _ _ Hat). cbn [mbind option_bind].
    replace (length (digits self)) with (length (digits other)) by lia.
    by rewrite (rds_at _ _ _ Hat').
  - f_equal. symmetry. apply bool_decide_eq_false_2. intros E. rewrite E in Hl. lia.
Qed.

Lemma setFromBerInteger_spec self value :
  wf self -> wf value -> size value <= maxSize self ->
  exists s, setFromBerInteger self value = Some (s, true) /\ wf s /\ digits s = digits value /\
    maxSize s = maxSize self.
Proof.
  intros Hw Hv Hfit. pose proof (wf_digits _ Hv) as (Hl & Hb & Hat).
  destruct Hw as (Hwb & Hws & Hwm & Hwl), (Hv) as (Hvb & Hvs & Hvm & Hvl).
  unfold setFromBerInteger. rewrite decide_True by lia.
  rewrite (copy_at_Z _ _ _ _ _ _ Hat) by done.
  rewrite puts_splice by (done || lia). cbn [mbind option_bind]. eexists. split; [done|].
  rewrite Z2Nat.inj_0, take_0. cbn [app Nat.add]. unfold wf. cbn [size maxSize octets].
  rewrite length_app, length_drop. split_and!; try lia.
  - apply Forall_app_2; [done|by apply Forall_drop].
  - unfold digits at 1. cbn [size octets]. by rewrite take_app_length' by lia.
Qed.

Lemma clone_spec value : wf value ->
  exists c, Asn1PrimitiveValue_clone true true value = Some (Some c) /\ wf c /\
    digits c = digits value.
Proof.
  intros Hv. exists value. unfold Asn1PrimitiveValue_clone. cbn [andb].
  pose proof (rds_at _ _ _ (bytes_at_0 (octets value))) as R.
  destruct (Hv) as (_ & _ & _ & Hvl). rewrite <- Hvl, Nat2Z.id, R. cbn [mbind option_bind].
  rewrite Hvl. by destruct value.
Qed.

Lemma equal_digits a b : wf a -> wf b -> digits a = digits b ->
  Asn1PrimitivaValue_compare a b = Some true.
Proof. intros. rewrite compare_spec by done. by rewrite bool_decide_eq_true_2. Qed.

(** Copying a BER integer gives an equal value: after
    [BerInteger_setFromBerInteger] (when it fits) and after
    [Asn1PrimitiveValue_clone], the comparison with the original succeeds. *)
Theorem copy_compares_equal self value :
  wf self -> wf value -> size value <= maxSize self ->
  (exists s, setFromBerInteger self value = Some (s, true) /\ wf s /\
     Asn1PrimitivaValue_compare s value = Some true) /\
  (exists c, Asn1PrimitiveValue_clone true true value = Some (Some c) /\ wf c /\
     Asn1PrimitivaValue_compare c value = Some true).
Proof.
  intros Hw Hv Hfit. split.
  - destruct (setFromBerInteger_spec self value) as (s & ? & ? & ? & _); [done..|].
    eauto using equal_digits.
  - destruct (clone_spec value Hv) as (c & ? & ? & ?). eauto using equal_digits.
Qed.

Lemma copy_compares_equal_witness :
  (exists s, setFromBerInteger sample sample = Some (s, true) /\ wf s /\
     Asn1PrimitivaValue_compare s sample = Some true) /\
  (exists c, Asn1PrimitiveValue_clone true true sample = Some (Some c) /\ wf c /\
     Asn1PrimitivaValue_compare c sample = Some true).
Proof.
  apply (copy_compares_equal sample sample); [| |simpl; lia];
    unfold wf; cbn [size maxSize octets sample]; (split_and!; [solve_bytes|lia|lia|lia|done]).
Defined.

End BerInteger.
