(* ===== verification/ByteBuf.v ===== *)
(** * Byte buffers and buffer chains

    [src/common/byte_buffer.c] and [src/common/buffer_chain.c]: a buffer with a
    fill level and a capacity, and a message kept as a chain of buffer parts. *)

From S2P Require Import Prelude.

Module ByteBuf.

(** [uint8_t* buffer; int maxSize; int size] *)
Record ByteBuffer := { buffer : list Z; maxSize : Z; size : Z }.

(** [m1 m2]: whether the two allocations succeed; the first one is made only
    when the caller passes [NULL]. *)
Definition ByteBuffer_create (m1 m2 : bool) (self : option ByteBuffer) (maxSize : Z)
    : option ByteBuffer :=
  let allocated := match self with None => m1 | Some _ => true end in
  if allocated && m2 then
    Some {| buffer := replicate (Z.to_nat maxSize) 0; maxSize := maxSize; size := 0 |}
  else None.

(** A wrapped buffer shows the memory from the given address on. *)
Definition ByteBuffer_wrap (buf : list Z) (size maxSize : Z) : ByteBuffer :=
  {| buffer := buf; maxSize := maxSize; size := size |}.

Definition ByteBuffer_append (self : ByteBuffer) (data : list Z) (dataSize : Z)
    : option (ByteBuffer * Z) :=
  if decide (size self + dataSize <= maxSize self) then
    '(buf, _) ← copy_bytes (Z.to_nat dataSize) data 0 (buffer self) (size self);
    Some ({| buffer := buf; maxSize := maxSize self; size := size self + dataSize |}, dataSize)
  else Some (self, -1).

Definition ByteBuffer_appendByte (self : ByteBuffer) (byte : Z) : option (ByteBuffer * Z) :=
  if decide (size self < maxSize self) then
    buf ← (buffer self).[size self]:= byte;
    Some ({| buffer := buf; maxSize := maxSize self; size := size self + 1 |}, 1)
  else Some (self, 0).

Definition ByteBuffer_setSize (self : ByteBuffer) (sz : Z) : ByteBuffer * Z :=
  if decide (sz <= maxSize self)
  then ({| buffer := buffer self; maxSize := maxSize self; size := sz |}, sz)
  else (self, size self).

(** [struct sBufferChain]: the length of the whole chain from this part on, the
    length and the capacity of this part, its bytes and the next part; [NULL] is [ChainNull]. *)
Inductive BufferChain :=
  | ChainNull
  | Chain (length partLength partMaxLength : Z) (buffer : list Z) (nextPart : BufferChain).

Definition BufferChain_init (length partLength : Z) (nextPart : BufferChain) (buffer : list Z)
    : BufferChain :=
  Chain length partLength partLength buffer nextPart.

(** ** Well-formed buffers *)

Definition wf (self : ByteBuffer) : Prop :=
  is_bytes (buffer self) /\ 0 <= size self <= maxSize self /\ zlen (buffer self) = maxSize self.

(** The bytes in use. *)
Definition content (self : ByteBuffer) : list Z := take (Z.to_nat (size self)) (buffer self).

Lemma content_length self : wf self -> zlen (content self) = size self.
Proof. intros (_ & Hs & Hl). unfold content. rewrite length_take. lia. Qed.

Lemma content_bytes self : wf self -> is_bytes (content self).
Proof. intros (Hb & _). by apply Forall_take. Qed.

(** Writing [xs] behind the bytes in use. *)
Lemma puts_content self xs b p :
  wf self -> is_bytes xs -> size self + zlen xs <= maxSize self ->
  puts (buffer self) (size self) xs = Some (b, p) ->
  p = size self + zlen xs /\
  let self' := {| buffer := b; maxSize := maxSize self; size := p |} in
  wf self' /\ content self' = content self ++ xs.
Proof.
  intros (Hb & Hs & Hl) Hx Hfit. rewrite puts_splice by (done || lia). intros [= <- <-].
  split; [done|]. unfold wf, content. cbn [buffer maxSize size].
  rewrite !length_app, length_take, length_drop.
  split_and!; try lia.
  - apply Forall_app_2; [by apply Forall_take|]. apply Forall_app_2; [done|by apply Forall_drop].
  - rewrite app_assoc, take_app_length'; [done|]. rewrite length_app, length_take. lia.
Qed.

(** The functional behaviour of [ByteBuffer_append]: it appends the data when
    they fit and leaves the buffer as it is, returning [-1], otherwise. *)
Lemma append_spec self data n :
  wf self -> is_bytes data -> 0 <= n <= zlen data ->
  exists self' r, ByteBuffer_append self data n = Some (self', r) /\ wf self' /\
    (if decide (size self + n <= maxSize self)
     then r = n /\ content self' = content self ++ take (Z.to_nat n) data
     else r = -1 /\ self' = self).
Proof.
  intros Hw Hd Hn. unfold ByteBuffer_append. case_decide as Hfit; [|by (exists self, (-1))].
  assert (Hx : zlen (take (Z.to_nat n) data) = n) by (rewrite length_take; lia).
  assert (E : copy_bytes (Z.to_nat n) data 0 (buffer self) (size self) =
              puts (buffer self) (size self) (take (Z.to_nat n) data)).
  { apply copy_at_Z; [|lia]. apply bytes_at_take, bytes_at_0. }
  rewrite E. destruct (Hw) as (Hb & Hs & Hl).
  destruct (puts_Some (buffer self) (size self) (take (Z.to_nat n) data)) as [b Hp]; [lia..|].
  rewrite Hp. cbn [mbind option_bind]. do 2 eexists. split; [done|].
  destruct (puts_content self (take (Z.to_nat n) data) _ _ Hw (Forall_take _ _ _ Hd)
    ltac:(lia) Hp) as (_ & Hw' & Hc). rewrite Hx in Hw', Hc. auto.
Qed.

(** The chain as one message. *)
Fixpoint chain_bytes (c : BufferChain) : list Z :=
  match c with
  | ChainNull => []
  | Chain _ partLength _ buffer nextPart => take (Z.to_nat partLength) buffer ++ chain_bytes nextPart
  end.

(** A chain announces its length and has no empty part. *)
Fixpoint chain_wf (c : BufferChain) : Prop :=
  match c with
  | ChainNull => True
  | Chain length partLength _ buffer nextPart =>
      0 < partLength <= zlen buffer /\ is_bytes buffer /\ length = zlen (chain_bytes c) /\
      chain_wf nextPart
  end.

(** [payload->length] *)
Definition chain_length (c : BufferChain) : option Z :=
  match c with ChainNull => None | Chain length _ _ _ _ => Some length end.

(** The end of the create functions: the part and its lengths. *)
Definition finishPart (partMaxLength : Z) (buf : list Z) (offset payloadLength : Z)
    (payload : BufferChain) : BufferChain :=
  Chain (offset + payloadLength) offset partMaxLength buf payload.

Lemma chain_length_Some payload : chain_wf payload -> payload <> ChainNull ->
  chain_length payload = Some (zlen (chain_bytes payload)) /\ 0 < zlen (chain_bytes payload).
Proof.
  destruct payload as [|l pl pm b nx]; [done|]. intros (H1 & _ & -> & _) _. split; [done|].
  cbn [chain_bytes]. rewrite length_app, length_take. lia.
Qed.

Lemma part_bytes buf hdr b p pm payload :
  is_bytes buf -> puts buf 0 hdr = Some (b, p) -> chain_bytes (finishPart pm b p
    (zlen (chain_bytes payload)) payload) = (u8 <$> hdr) ++ chain_bytes payload.
Proof.
  intros Hb Hp. destruct (puts_inv _ _ _ _ _ Hp) as (-> & _ & Hat & _). cbn [finishPart chain_bytes].
  rewrite Z.add_0_l, Nat2Z.id. f_equal. apply take_bytes_at in Hat. by rewrite length_fmap in Hat.
Qed.

(** ** Messages

    What a parser gets: [size] octets it may read, and whether they are [xs]. *)

Definition readable (m : ByteBuffer) : Prop := is_bytes (buffer m) /\ 0 <= size m <= zlen (buffer m).

Definition holds (m : ByteBuffer) (xs : list Z) : Prop :=
  size m = zlen xs /\ bytes_at (buffer m) 0 xs.

Lemma wf_readable m : wf m -> readable m.
Proof. intros (Hb & Hs & Hl). split; [done|lia]. Qed.

Lemma content_holds m : readable m -> holds m (content m).
Proof.
  intros [Hb Hs]. unfold content. split; [rewrite length_take; lia|]. apply bytes_at_take, bytes_at_0.
Qed.

Lemma holds_content m xs : holds m xs -> content m = xs.
Proof. intros [E Hat]. unfold content. rewrite E, Nat2Z.id. by apply take_bytes_at. Qed.

(** ** Payloads

    The payload of the layer above and the memory of a part with [room] in front of it. *)

Record sendable (room : Z) (buf : list Z) (payload : BufferChain) : Prop := {
  send_chain : chain_wf payload;
  send_some : payload <> ChainNull;
  send_size : zlen (chain_bytes payload) < 65000;
  send_memory : is_bytes buf;
  send_room : room <= zlen buf;
}.

Lemma chain_bytes_bytes c : chain_wf c -> is_bytes (chain_bytes c).
Proof.
  induction c as [|l pl pm b next IH]; cbn [chain_bytes chain_wf]; [constructor|].
  intros (_ & Hb & _ & Hn). apply Forall_app_2; [by apply Forall_take|by apply IH].
Qed.

Lemma sendable_length room buf payload : sendable room buf payload -> 0 < zlen (chain_bytes payload) < 65000.
Proof. intros [H1 H2 H3 _ _]. by destruct (chain_length_Some payload H1 H2). Qed.

(** The memory of a part. *)
Definition part_memory (c : BufferChain) : list Z :=
  match c with ChainNull => [] | Chain _ _ _ buffer _ => buffer end.

(** A part that was made in the memory [buf]. *)
Record part_ok (buf : list Z) (c : BufferChain) : Prop := {
  part_wf : chain_wf c;
  part_some : c <> ChainNull;
  part_length : zlen (part_memory c) = zlen buf;
}.

(** The part a writer makes in front of a payload. *)
Lemma finishPart_spec write pm buf payload xs :
  chain_wf payload -> payload <> ChainNull -> is_bytes buf -> is_bytes xs ->
  writes_front write xs (chain_bytes payload) ->
  zlen xs - zlen (chain_bytes payload) <= zlen buf -> zlen (chain_bytes payload) < zlen xs ->
  chain_length payload = Some (zlen (chain_bytes payload)) /\
  exists b p, write buf 0 = Some (b, p) /\
    let c := finishPart pm b p (zlen (chain_bytes payload)) payload in chain_bytes c = xs /\ part_ok buf c.
Proof.
  intros Hc Hnn Hb Hx (hdr & Hw & <-) Hl Hlt. destruct (chain_length_Some payload Hc Hnn) as [El _].
  rewrite length_app in Hl, Hlt. destruct (puts_Some buf 0 hdr) as [b E]; [lia|lia|].
  split; [done|]. exists b, (0 + zlen hdr). rewrite Hw, E. split; [done|]. cbv zeta.
  assert (Eb : chain_bytes (finishPart pm b (0 + zlen hdr) (zlen (chain_bytes payload)) payload) = hdr ++ chain_bytes payload).
  { rewrite (part_bytes _ _ _ _ _ _ Hb E). f_equal. apply u8_bytes. by apply Forall_app in Hx as [? _]. }
  split; [done|]. split; [|done|apply puts_inv in E as (_ & Elb & _); cbn; lia].
  cbn [chain_wf finishPart]. split_and!; try done.
  - lia.
  - apply puts_inv in E as (_ & -> & _). lia.
  - exact (puts_bytes _ _ _ _ _ Hb E).
  - unfold finishPart in Eb. rewrite Eb, length_app. lia.
Qed.

(** Messages and payloads for the witnesses. *)
Definition sample_chain (xs : list Z) : BufferChain := BufferChain_init (zlen xs) (zlen xs) ChainNull xs.
Definition sample_memory : list Z := replicate 200 0.

Lemma sample_sendable room xs : is_bytes xs -> 0 < zlen xs < 65000 -> room <= 200 ->
  sendable room sample_memory (sample_chain xs).
Proof.
  intros Hb Hl Hr. unfold sample_chain, BufferChain_init.
  assert (E : chain_bytes (Chain (zlen xs) (zlen xs) (zlen xs) xs ChainNull) = xs).
  { cbn. rewrite Nat2Z.id, app_nil_r. by apply firstn_all. }
  constructor; try done.
  - cbn [chain_wf]. rewrite E. split_and!; try done; lia.
  - rewrite E. lia.
  - by apply Forall_replicate.
Qed.

Lemma sample_holds xs : is_bytes xs -> readable (ByteBuffer_wrap xs (zlen xs) (zlen xs)) /\
  holds (ByteBuffer_wrap xs (zlen xs) (zlen xs)) xs.
Proof. intros Hb. split; [split; cbn; [done|lia]|split; cbn; [done|apply bytes_at_0]]. Qed.

End ByteBuf.
