(* ===== verification/Cotp.v ===== *)
(** * TPKT and COTP: packets and fragments over a TCP stream

    [src/mms/iso_cotp/cotp.c].  The TCP socket belongs to the environment: a
    [Socket] holds what was sent, what is still to arrive, and the results of
    the coming [Socket_write] and [Socket_read] calls, so that every partial
    write and every splitting of the stream is a value of the model. *)

From S2P Require Import Prelude ByteBuf.

Module Cotp.
Import ByteBuf.

(** ** The environment *)

(** [writeResults] and [readResults] bound what one call transfers; a negative
    entry is an error.  Beyond the end of the list a write is complete and a
    read finds nothing. *)
Record Socket := {
  sent : list Z; writeResults : list Z; incoming : list Z; readResults : list Z }.

Definition socket_write (s : Socket) (buf : list Z) (size : Z) : option (Socket * Z) :=
  let r := default size (head (writeResults s)) in
  let n := if decide (r < 0) then -1 else Z.min r size in
  bytes ← rds (Z.to_nat n) buf 0;
  Some ({| sent := sent s ++ bytes; writeResults := tail (writeResults s);
           incoming := incoming s; readResults := readResults s |}, n).

Definition socket_read (s : Socket) (size : Z) : Socket * Z * list Z :=
  let r := default 0 (head (readResults s)) in
  let n := if decide (r < 0) then -1 else Z.min r (Z.min size (zlen (incoming s))) in
  ({| sent := sent s; writeResults := writeResults s;
      incoming := drop (Z.to_nat n) (incoming s); readResults := tail (readResults s) |},
   n, take (Z.to_nat n) (incoming s)).

(** ** The connection *)

(** [uint8_t size; uint8_t value[4]] *)
Record TSelector := { tselSize : Z; tselValue : list Z }.

Inductive CotpIndication :=
  | COTP_OK | COTP_ERROR | COTP_CONNECT_INDICATION | COTP_DATA_INDICATION
  | COTP_DISCONNECT_INDICATION | COTP_MORE_FRAGMENTS_FOLLOW.

Inductive TpktState := TPKT_PACKET_COMPLETE | TPKT_WAITING | TPKT_ERROR.

#[export] Instance CotpIndication_eq_dec : EqDecision CotpIndication.
Proof. solve_decision. Defined.

#[export] Instance TpktState_eq_dec : EqDecision TpktState.
Proof. solve_decision. Defined.

Record CotpConnection := mkCotp {
  remoteRef : Z;
  localRef : Z;
  protocolClass : Z;
  tSelSrc : TSelector;
  tSelDst : TSelector;
  tpduSize : Z;
  isLastDataUnit : bool;
  payload : ByteBuffer;
  writeBuffer : option ByteBuffer;
  readBuffer : ByteBuffer;
  packetSize : Z;
  socketExtensionBuffer : option (list Z);
  socketExtensionBufferSize : Z;
  socketExtensionBufferFill : Z;
  socket : Socket
}.

(** Assignment to one field. *)

Definition set_remoteRef (x : Z) (c : CotpConnection) : CotpConnection :=
  mkCotp x (localRef c) (protocolClass c) (tSelSrc c) (tSelDst c) (tpduSize c)
    (isLastDataUnit c) (payload c) (writeBuffer c) (readBuffer c) (packetSize c)
    (socketExtensionBuffer c) (socketExtensionBufferSize c) (socketExtensionBufferFill
    c) (socket c).
Definition set_protocolClass (x : Z) (c : CotpConnection) : CotpConnection :=
  mkCotp (remoteRef c) (localRef c) x (tSelSrc c) (tSelDst c) (tpduSize c)
    (isLastDataUnit c) (payload c) (writeBuffer c) (readBuffer c) (packetSize c)
    (socketExtensionBuffer c) (socketExtensionBufferSize c) (socketExtensionBufferFill
    c) (socket c).
Definition set_tSelSrc (x : TSelector) (c : CotpConnection) : CotpConnection :=
  mkCotp (remoteRef c) (localRef c) (protocolClass c) x (tSelDst c) (tpduSize c)
    (isLastDataUnit c) (payload c) (writeBuffer c) (readBuffer c) (packetSize c)
    (socketExtensionBuffer c) (socketExtensionBufferSize c) (socketExtensionBufferFill
    c) (socket c).
Definition set_tSelDst (x : TSelector) (c : CotpConnection) : CotpConnection :=
  mkCotp (remoteRef c) (localRef c) (protocolClass c) (tSelSrc c) x (tpduSize c)
    (isLastDataUnit c) (payload c) (writeBuffer c) (readBuffer c) (packetSize c)
    (socketExtensionBuffer c) (socketExtensionBufferSize c) (socketExtensionBufferFill
    c) (socket c).
Definition set_tpduSize (x : Z) (c : CotpConnection) : CotpConnection :=
  mkCotp (remoteRef c) (localRef c) (protocolClass c) (tSelSrc c) (tSelDst c) x
    (isLastDataUnit c) (payload c) (writeBuffer c) (readBuffer c) (packetSize c)
    (socketExtensionBuffer c) (socketExtensionBufferSize c) (socketExtensionBufferFill
    c) (socket c).
Definition set_isLastDataUnit (x : bool) (c : CotpConnection) : CotpConnection :=
  mkCotp (remoteRef c) (localRef c) (protocolClass c) (tSelSrc c) (tSelDst c) (tpduSize
    c) x (payload c) (writeBuffer c) (readBuffer c) (packetSize c)
    (socketExtensionBuffer c) (socketExtensionBufferSize c) (socketExtensionBufferFill
    c) (socket c).
Definition set_payload (x : ByteBuffer) (c : CotpConnection) : CotpConnection :=
  mkCotp (remoteRef c) (localRef c) (protocolClass c) (tSelSrc c) (tSelDst c) (tpduSize
    c) (isLastDataUnit c) x (writeBuffer c) (readBuffer c) (packetSize c)
    (socketExtensionBuffer c) (socketExtensionBufferSize c) (socketExtensionBufferFill
    c) (socket c).
Definition set_writeBuffer (x : option ByteBuffer) (c : CotpConnection) : CotpConnection :=
  mkCotp (remoteRef c) (localRef c) (protocolClass c) (tSelSrc c) (tSelDst c) (tpduSize
    c) (isLastDataUnit c) (payload c) x (readBuffer c) (packetSize c)
    (socketExtensionBuffer c) (socketExtensionBufferSize c) (socketExtensionBufferFill
    c) (socket c).
Definition set_readBuffer (x : ByteBuffer) (c : CotpConnection) : CotpConnection :=
  mkCotp (remoteRef c) (localRef c) (protocolClass c) (tSelSrc c) (tSelDst c) (tpduSize
    c) (isLastDataUnit c) (payload c) (writeBuffer c) x (packetSize c)
    (socketExtensionBuffer c) (socketExtensionBufferSize c) (socketExtensionBufferFill
    c) (socket c).
Definition set_packetSize (x : Z) (c : CotpConnection) : CotpConnection :=
  mkCotp (remoteRef c) (localRef c) (protocolClass c) (tSelSrc c) (tSelDst c) (tpduSize
    c) (isLastDataUnit c) (payload c) (writeBuffer c) (readBuffer c) x
    (socketExtensionBuffer c) (socketExtensionBufferSize c) (socketExtensionBufferFill
    c) (socket c).
Definition set_socketExtensionBuffer (x : option (list Z)) (c : CotpConnection) : CotpConnection :=
  mkCotp (remoteRef c) (localRef c) (protocolClass c) (tSelSrc c) (tSelDst c) (tpduSize
    c) (isLastDataUnit c) (payload c) (writeBuffer c) (readBuffer c) (packetSize c) x
    (socketExtensionBufferSize c) (socketExtensionBufferFill c) (socket c).
Definition set_socketExtensionBufferFill (x : Z) (c : CotpConnection) : CotpConnection :=
  mkCotp (remoteRef c) (localRef c) (protocolClass c) (tSelSrc c) (tSelDst c) (tpduSize
    c) (isLastDataUnit c) (payload c) (writeBuffer c) (readBuffer c) (packetSize c)
    (socketExtensionBuffer c) (socketExtensionBufferSize c) x (socket c).
Definition set_socket (x : Socket) (c : CotpConnection) : CotpConnection :=
  mkCotp (remoteRef c) (localRef c) (protocolClass c) (tSelSrc c) (tSelDst c) (tpduSize
    c) (isLastDataUnit c) (payload c) (writeBuffer c) (readBuffer c) (packetSize c)
    (socketExtensionBuffer c) (socketExtensionBufferSize c) (socketExtensionBufferFill
    c) x.

Definition COTP_MAX_TPDU_SIZE : Z := 8192.
Definition COTP_DATA_HEADER_SIZE : Z := 3.
Definition TPKT_RFC1006_HEADER_SIZE : Z := 4.

(** ** TPDU size *)

Definition getTpduSize (self : CotpConnection) : Z := Z.shiftl 1 (tpduSize self).

(** [while ((1 << newTpduSize) < tpduSize) newTpduSize++] *)
Fixpoint setTpduSize_loop (fuel : nat) (newTpduSize tpduSize : Z) : option Z :=
  match fuel with
  | O => None
  | S fuel =>
      if decide (Z.shiftl 1 newTpduSize < tpduSize)
      then setTpduSize_loop fuel (newTpduSize + 1) tpduSize
      else Some newTpduSize
  end.

Definition setTpduSize (self : CotpConnection) (size : Z) : option CotpConnection :=
  let size := if decide (size > COTP_MAX_TPDU_SIZE) then COTP_MAX_TPDU_SIZE else size in
  newTpduSize ← setTpduSize_loop 14 1 size;
  let newTpduSize :=
    if decide (Z.shiftl 1 newTpduSize > size) then newTpduSize - 1 else newTpduSize in
  Some (set_tpduSize (u8 newTpduSize) self).

(** ** Writing headers *)

Definition writeTSelector (code : Z) (sel : TSelector) (buffer : list Z) (bufPos : Z)
    : option (list Z * Z) :=
  if decide (tselSize sel <> 0) then
    '(buffer, bufPos) ← puts buffer bufPos [code; tselSize sel];
    copy_bytes (Z.to_nat (tselSize sel)) (tselValue sel) 0 buffer bufPos
  else Some (buffer, bufPos).

Definition with_buffer (wb : ByteBuffer) (b : list Z) (sz : Z) : ByteBuffer :=
  {| buffer := b; maxSize := maxSize wb; size := sz |}.

Definition writeOptions (self : CotpConnection) : option CotpConnection :=
  wb ← writeBuffer self;
  '(b, p) ← (if decide (tpduSize self <> 0)
             then puts (buffer wb) (size wb) [0xc0; 0x01; tpduSize self]
             else Some (buffer wb, size wb));
  '(b, p) ← writeTSelector 0xc2 (tSelDst self) b p;
  '(b, p) ← writeTSelector 0xc1 (tSelSrc self) b p;
  Some (set_writeBuffer (Some (with_buffer wb b p)) self).

Definition getOptionsLength (self : CotpConnection) : Z :=
  (if decide (tpduSize self <> 0) then 3 else 0) +
  (if decide (tselSize (tSelDst self) <> 0) then 2 + tselSize (tSelDst self) else 0) +
  (if decide (tselSize (tSelSrc self) <> 0) then 2 + tselSize (tSelSrc self) else 0).

Definition writeStaticConnectResponseHeader (self : CotpConnection) (optionsLength : Z)
    : option CotpConnection :=
  wb ← writeBuffer self;
  '(b, _) ← puts (buffer wb) 4
    [6 + optionsLength; 0xd0; Z.quot (remoteRef self) 0x100; Z.land (remoteRef self) 0xff;
     Z.quot (localRef self) 0x100; Z.land (localRef self) 0xff; protocolClass self];
  Some (set_writeBuffer (Some (with_buffer wb b 11)) self).

Definition writeRfc1006Header (self : CotpConnection) (len : Z) : option CotpConnection :=
  wb ← writeBuffer self;
  '(b, _) ← puts (buffer wb) 0 [0x03; 0x00; Z.quot len 0x100; Z.land len 0xff];
  Some (set_writeBuffer (Some (with_buffer wb b 4)) self).

Definition writeDataTpduHeader (self : CotpConnection) (isLastUnit : bool)
    : option CotpConnection :=
  wb ← writeBuffer self;
  '(b, _) ← puts (buffer wb) 4 [0x02; 0xf0; if isLastUnit then 0x80 else 0x00];
  Some (set_writeBuffer (Some (with_buffer wb b 7)) self).

(** ** Sending *)

Definition writeToSocket (self : CotpConnection) (buf : list Z) (size : Z)
    : option (CotpConnection * Z) :=
  '(s, n) ← socket_write (socket self) buf size;
  Some (set_socket s self, n).

Definition flushBuffer (self : CotpConnection) : option (CotpConnection * bool) :=
  let fill := socketExtensionBufferFill self in
  if decide (fill > 0) then
    ext ← socketExtensionBuffer self;
    '(self, sentBytes) ← writeToSocket self ext fill;
    if decide (sentBytes > 0) then
      if decide (sentBytes <> fill) then
        ext ← move_bytes (Z.to_nat (fill - sentBytes)) ext 0 sentBytes;
        Some (set_socketExtensionBufferFill (fill - sentBytes)
                (set_socketExtensionBuffer (Some ext) self), true)
      else Some (set_socketExtensionBufferFill 0 self, true)
    else Some (self, bool_decide (sentBytes <> -1))
  else Some (self, true).

(** The end of [sendBuffer]: what the socket did not take goes to the extension
    buffer. *)
Definition keepUnsent (self : CotpConnection) (wb : ByteBuffer) (sentBytes : Z)
    : option (CotpConnection * bool) :=
  let remainingSize := size wb in
  let done (self : CotpConnection) :=
    Some (set_writeBuffer (Some (ByteBuffer_setSize wb 0).1) self, true) in
  if decide (sentBytes <> remainingSize) then
    match socketExtensionBuffer self with
    | Some extBuf =>
        let extCurrentPos := socketExtensionBufferFill self in
        let bytesNotSent := remainingSize - sentBytes in
        '(extBuf, _) ← copy_bytes (Z.to_nat bytesNotSent) (buffer wb) sentBytes extBuf extCurrentPos;
        done (set_socketExtensionBufferFill (extCurrentPos + bytesNotSent)
                (set_socketExtensionBuffer (Some extBuf) self))
    | None => Some (self, false)
    end
  else done self.

Definition sendBuffer (self : CotpConnection) : option (CotpConnection * bool) :=
  wb ← writeBuffer self;
  '(self, flushed) ← flushBuffer self;
  if negb flushed then Some (self, false)
  else
    '(self, sentBytes) ←
      (if decide (socketExtensionBufferFill self = 0)
       then writeToSocket self (buffer wb) (size wb) else Some (self, 0));
    if decide (sentBytes = -1) then Some (self, false)
    else keepUnsent self wb sentBytes.

(** The loop that copies the bytes of one fragment out of the chain; [inl] when
    the chain ends too early. *)
Fixpoint fillFragment_loop (n : nat) (currentChain : BufferChain) (currentChainIndex : Z)
    (buffer : list Z) (bufPos : Z)
    : option (list Z + (BufferChain * Z * list Z * Z)) :=
  match n with
  | O => Some (inr (currentChain, currentChainIndex, buffer, bufPos))
  | S n =>
      let copy (chain : BufferChain) (index : Z) :=
        match chain with
        | ChainNull => Some (inl buffer)
        | Chain _ _ _ chainBuffer _ =>
            x ← chainBuffer.[index];
            '(buffer, bufPos) ← put buffer bufPos x;
            fillFragment_loop n chain (index + 1) buffer bufPos
        end in
      match currentChain with
      | ChainNull => None
      | Chain _ partLength _ _ nextPart =>
          if decide (currentChainIndex >= partLength) then copy nextPart 0
          else copy currentChain currentChainIndex
      end
  end.

Fixpoint sendFragments_loop (fragments : nat) (self : CotpConnection)
    (fragmentPayloadSize payloadLength : Z) (currentChain : BufferChain)
    (currentChainIndex currentBufPos : Z) : option (CotpConnection * CotpIndication) :=
  match fragments with
  | O => Some (self, COTP_OK)
  | S fragments =>
      let lastUnit := bool_decide (fragments = O) in
      let currentLimit := if lastUnit then payloadLength else currentBufPos + fragmentPayloadSize in
      self ← writeRfc1006Header self (7 + (currentLimit - currentBufPos));
      self ← writeDataTpduHeader self lastUnit;
      wb ← writeBuffer self;
      filled ← fillFragment_loop (Z.to_nat (currentLimit - currentBufPos)) currentChain
                 currentChainIndex (buffer wb) 7;
      match filled with
      | inl b => Some (set_writeBuffer (Some (with_buffer wb b (size wb))) self, COTP_OK)
      | inr (currentChain, currentChainIndex, b, bufPos) =>
          let self := set_writeBuffer (Some (with_buffer wb b bufPos)) self in
          '(self, ok) ← sendBuffer self;
          if (ok : bool) then
            sendFragments_loop fragments self fragmentPayloadSize payloadLength currentChain
              currentChainIndex (Z.max currentBufPos currentLimit)
          else Some (self, COTP_ERROR)
      end
  end.

Definition fragmentCount (payloadLength fragmentPayloadSize : Z) : Z :=
  if decide (payloadLength > fragmentPayloadSize) then
    Z.quot payloadLength fragmentPayloadSize +
    (if decide (Z.rem payloadLength fragmentPayloadSize <> 0) then 1 else 0)
  else 1.

Definition sendDataMessage (self : CotpConnection) (payload : BufferChain)
    : option (CotpConnection * CotpIndication) :=
  match payload with
  | ChainNull => None
  | Chain payloadLength _ _ _ _ =>
      let fragmentPayloadSize := getTpduSize self - COTP_DATA_HEADER_SIZE in
      if decide (fragmentPayloadSize = 0 /\ payloadLength > 0) then None
      else
        let fragments := fragmentCount payloadLength fragmentPayloadSize in
        let totalSize := fragments * (COTP_DATA_HEADER_SIZE + 4) + payloadLength in
        '(self, flushed) ← flushBuffer self;
        if negb flushed then Some (self, COTP_ERROR)
        else if decide (is_Some (socketExtensionBuffer self) /\
                        socketExtensionBufferSize self - socketExtensionBufferFill self < totalSize)
        then Some (self, COTP_ERROR)
        else sendFragments_loop (Z.to_nat fragments) self fragmentPayloadSize payloadLength payload 0 0
  end.

Definition allocateWriteBuffer (m1 m2 : bool) (self : CotpConnection) : CotpConnection :=
  match writeBuffer self with
  | Some _ => self
  | None =>
      set_writeBuffer
        (ByteBuffer_create m1 m2 None (getTpduSize self + TPKT_RFC1006_HEADER_SIZE)) self
  end.

Definition sendResult (r : CotpConnection * bool) : CotpConnection * CotpIndication :=
  (r.1, if r.2 then COTP_OK else COTP_ERROR).

Definition sendConnectionRequestMessage (m1 m2 : bool) (self : CotpConnection)
    (remoteTSelector localTSelector : TSelector) : option (CotpConnection * CotpIndication) :=
  let self := allocateWriteBuffer m1 m2 self in
  let self := set_tSelDst remoteTSelector self in
  let self := set_tSelSrc localTSelector self in
  let cotpRequestSize := getOptionsLength self + 6 in
  let conRequestSize := cotpRequestSize + 5 in
  wb ← writeBuffer self;
  if decide (maxSize wb < conRequestSize) then Some (self, COTP_ERROR)
  else
    self ← writeRfc1006Header self conRequestSize;
    wb ← writeBuffer self;
    '(b, _) ← puts (buffer wb) 4
      [cotpRequestSize; 0xe0; 0x00; 0x00; Z.quot (localRef self) 0x100;
       Z.land (localRef self) 0xff; 0x00];
    self ← writeOptions (set_writeBuffer (Some (with_buffer wb b 11)) self);
    sendResult <$> sendBuffer self.

Definition sendConnectionResponseMessage (m1 m2 : bool) (self : CotpConnection)
    : option (CotpConnection * CotpIndication) :=
  let self := allocateWriteBuffer m1 m2 self in
  let optionsLength := getOptionsLength self in
  let messageLength := 11 + optionsLength in
  wb ← writeBuffer self;
  if decide (maxSize wb < messageLength) then Some (self, COTP_ERROR)
  else
    self ← writeRfc1006Header self messageLength;
    self ← writeStaticConnectResponseHeader self optionsLength;
    self ← writeOptions self;
    sendResult <$> sendBuffer self.

(** ** Parsing *)

Definition getUint16 (buffer : list Z) (p : Z) : option Z :=
  hi ← buffer.[p]; lo ← buffer.[p + 1]; Some (u16 (hi * 0x100 + lo)).

Definition getUint8 (buffer : list Z) (p : Z) : option Z := buffer.[p].

(** [buffer] is the array and [base] the address of the options in it. *)
Fixpoint parseOptions_loop (fuel : nat) (self : CotpConnection) (buffer : list Z)
    (base bufPos bufLen : Z) : option (CotpConnection * bool) :=
  match fuel with
  | O => None
  | S fuel =>
      if decide (bufPos < bufLen) then
        if decide (bufPos + 2 > bufLen) then Some (self, false)
        else
          optionType ← buffer.[base + bufPos];
          optionLen ← buffer.[base + (bufPos + 1)];
          let bufPos := bufPos + 2 in
          if decide (optionLen > bufLen - bufPos) then Some (self, false)
          else if decide (optionType = 0xc0) then
            if decide (optionLen = 1) then
              rawRequestedTpduSize ← buffer.[base + bufPos];
              if decide (rawRequestedTpduSize < 7 \/ rawRequestedTpduSize > 13)
              then Some (self, false)
              else
                self ← setTpduSize self (Z.shiftl 1 rawRequestedTpduSize);
                parseOptions_loop fuel self buffer base (bufPos + 1) bufLen
            else Some (self, false)
          else if decide (optionType = 0xc1) then
            if decide (optionLen < 5) then
              '(value, _) ← copy_bytes (Z.to_nat optionLen) buffer (base + bufPos)
                              (tselValue (tSelSrc self)) 0;
              let sel := {| tselSize := optionLen; tselValue := value |} in
              parseOptions_loop fuel (set_tSelSrc sel self) buffer base (bufPos + optionLen) bufLen
            else Some (self, false)
          else if decide (optionType = 0xc2) then
            if decide (optionLen < 5) then
              '(value, _) ← copy_bytes (Z.to_nat optionLen) buffer (base + bufPos)
                              (tselValue (tSelDst self)) 0;
              let sel := {| tselSize := optionLen; tselValue := value |} in
              parseOptions_loop fuel (set_tSelDst sel self) buffer base (bufPos + optionLen) bufLen
            else Some (self, false)
          else if decide (optionType = 0xc6) then
            if decide (optionLen = 1)
            then parseOptions_loop fuel self buffer base (bufPos + 1) bufLen
            else Some (self, false)
          else parseOptions_loop fuel self buffer base (bufPos + optionLen) bufLen
      else Some (self, true)
  end.

Definition parseOptions (self : CotpConnection) (buffer : list Z) (base bufLen : Z)
    : option (CotpConnection * bool) :=
  parseOptions_loop (S (Z.to_nat bufLen)) self buffer base 0 bufLen.

Definition parseConnectRequestTpdu (self : CotpConnection) (buffer : list Z) (base len : Z)
    : option (CotpConnection * bool) :=
  if decide (len < 6) then Some (self, false)
  else
    ref ← getUint16 buffer (base + 2);
    class ← getUint8 buffer (base + 4);
    parseOptions (set_protocolClass class (set_remoteRef ref self)) buffer (base + 5) (len - 6).

Definition parseConnectConfirmTpdu (self : CotpConnection) (buffer : list Z) (base len : Z)
    : option (CotpConnection * bool) :=
  if decide (len < 6) then Some (self, false)
  else
    ref ← getUint16 buffer base;
    class ← getUint8 buffer (base + 4);
    parseOptions (set_protocolClass class (set_remoteRef ref self)) buffer (base + 5) (len - 6).

Definition parseDataTpdu (self : CotpConnection) (buffer : list Z) (base len : Z)
    : option (CotpConnection * bool) :=
  if decide (len <> 2) then Some (self, false)
  else
    flowControl ← getUint8 buffer base;
    Some (set_isLastDataUnit (bool_decide (Z.land flowControl 0x80 <> 0)) self, true).

Definition addPayloadToBuffer (self : CotpConnection) (buffer : list Z) (base payloadLength : Z)
    : option (CotpConnection * bool) :=
  let pl := payload self in
  if decide (payloadLength < 1) then Some (self, false)
  else if decide (size pl + payloadLength > maxSize pl) then Some (self, false)
  else
    '(b, _) ← copy_bytes (Z.to_nat payloadLength) buffer base (ByteBuf.buffer pl) (size pl);
    Some (set_payload (with_buffer pl b (size pl + payloadLength)) self, true).

Definition parseCotpMessage (self : CotpConnection) : option (CotpConnection * CotpIndication) :=
  let buffer := ByteBuf.buffer (readBuffer self) in
  let tpduLength := size (readBuffer self) - 4 in
  len ← buffer.[4];
  if decide (len > tpduLength) then Some (self, COTP_ERROR)
  else
    tpduType ← buffer.[5];
    let connect (r : option (CotpConnection * bool)) :=
      '(self, ok) ← r;
      Some (self, if (ok : bool) then COTP_CONNECT_INDICATION else COTP_ERROR) in
    if decide (tpduType = 0xe0) then connect (parseConnectRequestTpdu self buffer 6 len)
    else if decide (tpduType = 0xd0) then connect (parseConnectConfirmTpdu self buffer 6 len)
    else if decide (tpduType = 0xf0) then
      '(self, ok) ← parseDataTpdu self buffer 6 len;
      if (ok : bool) then
        '(self, added) ← addPayloadToBuffer self buffer 7 (tpduLength - 3);
        if (added : bool) then
          Some (self, if isLastDataUnit self then COTP_DATA_INDICATION
                      else COTP_MORE_FRAGMENTS_FOLLOW)
        else Some (self, COTP_ERROR)
      else Some (self, COTP_ERROR)
    else Some (self, COTP_ERROR).

Definition set_readSize (n : Z) (self : CotpConnection) : CotpConnection :=
  let rb := readBuffer self in set_readBuffer (with_buffer rb (buffer rb) n) self.

Definition parseIncomingMessage (self : CotpConnection)
    : option (CotpConnection * CotpIndication) :=
  '(self, indication) ← parseCotpMessage self;
  Some (set_packetSize 0 (set_readSize 0 self), indication).

Definition resetPayload (self : CotpConnection) : CotpConnection :=
  let pl := payload self in set_payload (with_buffer pl (buffer pl) 0) self.

Definition init (socket : Socket) (payloadBuffer readBuffer : ByteBuffer)
    (writeBuffer : option ByteBuffer) (socketExtensionBuffer : option (list Z))
    (socketExtensionBufferSize : Z) : option CotpConnection :=
  let tsel := {| tselSize := 2; tselValue := [0; 1; 0; 0] |} in
  let self := resetPayload
    (mkCotp (-1) 1 (-1) tsel tsel 0 false payloadBuffer writeBuffer readBuffer 0
      socketExtensionBuffer socketExtensionBufferSize 0 socket) in
  setTpduSize self COTP_MAX_TPDU_SIZE.

(** ** Receiving *)

(** [readFromSocket(self, readBuffer->buffer + bufPos, size)] *)
Definition readFromSocket (self : CotpConnection) (bufPos size : Z) : option (CotpConnection * Z) :=
  let '(s, n, bytes) := socket_read (socket self) size in
  let rb := readBuffer self in
  '(b, _) ← puts (buffer rb) bufPos bytes;
  Some (set_readBuffer (with_buffer rb b (ByteBuf.size rb)) (set_socket s self), n).

Definition CotpConnection_flushBuffer (self : CotpConnection) : option CotpConnection :=
  if decide (socketExtensionBufferFill self > 0)
  then fst <$> flushBuffer self else Some self.

Definition exit_error (self : CotpConnection) : option (CotpConnection * TpktState) :=
  Some (set_readSize 0 self, TPKT_ERROR).

Definition exit_waiting (self : CotpConnection) (bufPos : Z)
    : option (CotpConnection * TpktState) :=
  Some (set_readSize bufPos self, TPKT_WAITING).

(** The second part of [CotpConnection_readToTpktBuffer], when the header is
    complete. *)
Definition readPacketBody (self : CotpConnection) (bufPos : Z)
    : option (CotpConnection * TpktState) :=
  if decide (packetSize self <= bufPos) then exit_error self
  else
    '(self, readBytes) ← readFromSocket self bufPos (packetSize self - bufPos);
    if decide (readBytes < 0) then exit_error self
    else
      let bufPos := bufPos + readBytes in
      if decide (bufPos < packetSize self) then exit_waiting self bufPos
      else Some (set_readSize bufPos self, TPKT_PACKET_COMPLETE).

Definition readToTpktBuffer (self : CotpConnection) : option (CotpConnection * TpktState) :=
  let bufferSize := maxSize (readBuffer self) in
  let bufPos := size (readBuffer self) in
  '(self, flushed) ←
    (if decide (socketExtensionBufferFill self > 0) then flushBuffer self else Some (self, true));
  if negb flushed then exit_error self
  else if decide (socketExtensionBufferFill self > 0) then exit_waiting self bufPos
  else if decide (bufPos < 4) then
    '(self, readBytes) ← readFromSocket self bufPos (4 - bufPos);
    if decide (readBytes < 0) then exit_error self
    else
      let bufPos := bufPos + readBytes in
      if decide (bufPos = 4) then
        let b := buffer (readBuffer self) in
        b0 ← b.[0];
        version ← (if decide (b0 = 3) then b1 ← b.[1]; Some (bool_decide (b1 = 0)) else Some false);
        if (version : bool) then
          b2 ← b.[2];
          b3 ← b.[3];
          let self := set_packetSize (u16 (b2 * 0x100 + b3)) self in
          if decide (packetSize self > bufferSize) then exit_error self
          else readPacketBody self bufPos
        else exit_error self
      else exit_waiting self bufPos
  else readPacketBody self bufPos.

(** ** The byte stream a connection has produced

    What the peer gets to see in the end: the bytes the socket took and the bytes
    waiting in the extension buffer. *)

Definition ext_content (self : CotpConnection) : list Z :=
  take (Z.to_nat (socketExtensionBufferFill self)) (default [] (socketExtensionBuffer self)).

Definition stream (self : CotpConnection) : list Z := sent (socket self) ++ ext_content self.

(** The fill level of the extension buffer fits its size. *)
Definition ext_wf (self : CotpConnection) : Prop :=
  match socketExtensionBuffer self with
  | Some ext =>
      is_bytes ext /\ zlen ext = socketExtensionBufferSize self /\
      0 <= socketExtensionBufferFill self <= socketExtensionBufferSize self
  | None => socketExtensionBufferFill self = 0
  end.

(** [self'] is [self] up to the socket, the extension buffer and the write buffer. *)
Definition io_only (self self' : CotpConnection) : Prop :=
  self' = set_socketExtensionBufferFill (socketExtensionBufferFill self')
            (set_socketExtensionBuffer (socketExtensionBuffer self')
              (set_socket (socket self') (set_writeBuffer (writeBuffer self') self))) /\
  (is_Some (socketExtensionBuffer self') <-> is_Some (socketExtensionBuffer self)).

Lemma io_only_refl self : io_only self self.
Proof. by destruct self. Qed.

Lemma io_only_trans self1 self2 self3 :
  io_only self1 self2 -> io_only self2 self3 -> io_only self1 self3.
Proof.
  intros [E1 H1] [E2 H2]. split; [|by rewrite H2].
  rewrite E2 at 1. rewrite E1 at 1. by destruct self1.
Qed.

Lemma io_only_fields self self' : io_only self self' ->
  tpduSize self' = tpduSize self /\
  socketExtensionBufferSize self' = socketExtensionBufferSize self /\
  (is_Some (socketExtensionBuffer self') <-> is_Some (socketExtensionBuffer self)).
Proof. intros [E H]. split_and!; try apply H; rewrite E; by destruct self. Qed.

Definition writes_ok (self : CotpConnection) : Prop :=
  Forall (fun r => 0 <= r) (writeResults (socket self)).

Lemma socket_write_spec s buf size :
  0 <= size <= zlen buf ->
  exists s' n, socket_write s buf size = Some (s', n) /\ -1 <= n <= size /\
    sent s' = sent s ++ take (Z.to_nat n) buf /\
    (Forall (fun r => 0 <= r) (writeResults s) ->
     0 <= n /\ Forall (fun r => 0 <= r) (writeResults s')) /\
    incoming s' = incoming s /\ readResults s' = readResults s.
Proof.
  intros Hs. unfold socket_write. set (r := default size (head (writeResults s))).
  set (n := if decide (r < 0) then -1 else r `min` size).
  assert (Hn : -1 <= n <= size) by (unfold n; case_decide; lia).
  destruct (rds_Some (Z.to_nat n) buf 0) as (xs & Hx & _ & _); [lia|lia|].
  rewrite Hx. cbn [mbind option_bind]. do 2 eexists. split; [done|].
  cbn [sent writeResults incoming readResults].
  rewrite (rds_0_take _ _ _ Hx). split_and!; try done; try lia.
  intros HF. unfold n, r in *. destruct (writeResults s) as [|r0 rs]; cbn [head default tail] in *.
  - split; [rewrite decide_False; simpl; lia|constructor].
  - inversion HF; subst. split; [rewrite decide_False; simpl; lia|done].
Qed.

Lemma stream_split (ext : list Z) k fill :
  0 <= k <= fill -> fill <= zlen ext ->
  take (Z.to_nat k) ext ++ take (Z.to_nat (fill - k)) (drop (Z.to_nat k) ext) =
  take (Z.to_nat fill) ext.
Proof.
  intros. rewrite take_drop_commute.
  replace (Z.to_nat k + Z.to_nat (fill - k))%nat with (Z.to_nat fill) by lia.
  rewrite <- (take_drop (Z.to_nat k) (take (Z.to_nat fill) ext)) at 2.
  rewrite take_take. by replace (Z.to_nat k `min` Z.to_nat fill)%nat with (Z.to_nat k) by lia.
Qed.

(** Moving the unsent rest to the front keeps exactly these bytes. *)
Lemma move_to_front ext k fill :
  is_bytes ext -> 0 < k <= fill -> fill <= zlen ext ->
  exists ext', move_bytes (Z.to_nat (fill - k)) ext 0 k = Some ext' /\ zlen ext' = zlen ext /\
    is_bytes ext' /\
    take (Z.to_nat (fill - k)) ext' = take (Z.to_nat (fill - k)) (drop (Z.to_nat k) ext).
Proof.
  intros Hb Hk Hf.
  destruct (move_bytes_spec (Z.to_nat (fill - k)) ext 0 k Hb) as (ext' & E & Hl & Hin & _); [lia..|].
  exists ext'. rewrite E. split_and!; try done.
  - by apply move_bytes_bytes in E.
  - apply rd_ext; [rewrite !length_take, length_drop; lia|]. intros i Hi. rewrite length_take in Hi.
    rewrite !rd_take, Hin by lia. unfold rd. rewrite !decide_True, lookup_drop by lia. f_equal. lia.
Qed.

Lemma ext_fill_stream self ext :
  socketExtensionBuffer self = Some ext ->
  stream self = sent (socket self) ++ take (Z.to_nat (socketExtensionBufferFill self)) ext.
Proof. intros He. unfold stream, ext_content. by rewrite He. Qed.

(** Flushing moves bytes from the extension buffer to the socket. *)
Lemma flushBuffer_spec self :
  ext_wf self ->
  exists self' ok, flushBuffer self = Some (self', ok) /\ io_only self self' /\ ext_wf self' /\
    writeBuffer self' = writeBuffer self /\ stream self' = stream self /\
    socketExtensionBufferFill self' <= socketExtensionBufferFill self /\
    (writes_ok self -> ok = true /\ writes_ok self').
Proof.
  intros Hw. unfold flushBuffer. case_decide as Hf.
  2: { exists self, true. split_and!; try done. apply io_only_refl. }
  unfold ext_wf in Hw. destruct (socketExtensionBuffer self) as [ext|] eqn:He; [|lia].
  destruct Hw as (Hb & Hl & Hfill). cbn [mbind option_bind]. unfold writeToSocket.
  pose proof (ext_fill_stream self ext He) as Hst.
  destruct self as [? ? ? ? ? ? ? ? ? ? ? ext0 extSize fill sock]. cbn in *. subst ext0.
  destruct (socket_write_spec sock ext fill) as (s' & n & -> & Hn & Hsent & Hok & _); [lia|].
  cbn [mbind option_bind]. unfold stream, ext_content, ext_wf, io_only, writes_ok in *.
  case_decide as Hpos; [case_decide as Hne|].
  - destruct (move_to_front ext n fill Hb) as (ext' & -> & Hl' & Hb' & Ht); [lia|lia|].
    do 2 eexists. split; [done|]. cbn -[take drop]. split_and!; try done; try lia; try naive_solver.
    rewrite Hsent, Ht, <- app_assoc. by rewrite stream_split by lia.
  - do 2 eexists. split; [done|]. cbn -[take drop]. split_and!; try done; try lia; try naive_solver.
    rewrite Hsent. replace (Z.to_nat n) with (Z.to_nat fill) by lia. by rewrite take_0, app_nil_r.
  - do 2 eexists. split; [done|]. cbn -[take drop]. split_and!; try done; try lia; try naive_solver.
    + rewrite Hsent. assert (Z.to_nat n = 0%nat) as -> by lia. by rewrite take_0, app_nil_r.
    + intros Hr. destruct (Hok Hr). split; [apply bool_decide_eq_true_2; lia|done].
Qed.

(** Buffering the bytes from [k] on behind the bytes already waiting. *)
Lemma append_ext ext fill wb k n :
  is_bytes ext -> is_bytes wb -> 0 <= k <= n -> n <= zlen wb -> 0 <= fill ->
  fill + (n - k) <= zlen ext ->
  exists ext', copy_bytes (Z.to_nat (n - k)) wb k ext fill = Some (ext', fill + (n - k)) /\
    is_bytes ext' /\ zlen ext' = zlen ext /\
    take (Z.to_nat (fill + (n - k))) ext' =
    take (Z.to_nat fill) ext ++ take (Z.to_nat (n - k)) (drop (Z.to_nat k) wb).
Proof.
  intros He Hwb Hk Hn Hf Hfit. set (xs := take (Z.to_nat (n - k)) (drop (Z.to_nat k) wb)).
  assert (Hx : zlen xs = n - k) by (unfold xs; rewrite length_take, length_drop; lia).
  assert (Hxb : is_bytes xs) by (by apply Forall_take, Forall_drop).
  rewrite (copy_at_Z wb k xs) by (done || (apply bytes_at_slice; lia)).
  rewrite puts_splice by (done || lia). rewrite Hx. eexists. split; [done|].
  rewrite !length_app, length_take, length_drop. split_and!; try lia.
  - apply Forall_app_2; [by apply Forall_take|]. apply Forall_app_2; [done|by apply Forall_drop].
  - rewrite app_assoc, take_app_length'; [done|]. rewrite length_app, length_take. lia.
Qed.

(** The outcome of handing the bytes [bs] to the connection: all of them are
    in its stream when this succeeds, a part of them otherwise. *)
Definition handed_over (self self' : CotpConnection) (bs : list Z) (ok : bool) : Prop :=
  io_only self self' /\ ext_wf self' /\
  (exists k, stream self' = stream self ++ take k bs) /\
  (ok = true -> stream self' = stream self ++ bs /\
     socketExtensionBufferFill self' <= socketExtensionBufferFill self + zlen bs).

(** The write buffer keeps its capacity. *)
Definition same_writeBuffer (wb : ByteBuffer) (self' : CotpConnection) : Prop :=
  exists wb', writeBuffer self' = Some wb' /\ wf wb' /\ maxSize wb' = maxSize wb.

Lemma ByteBuffer_clear wb : wf wb ->
  wf (ByteBuffer_setSize wb 0).1 /\ maxSize (ByteBuffer_setSize wb 0).1 = maxSize wb.
Proof.
  intros (Hb & Hs & Hl). unfold ByteBuffer_setSize. rewrite decide_True by lia. unfold wf. cbn.
  split_and!; auto; lia.
Qed.

(** What the socket did not take of the write buffer goes to the extension buffer. *)
Lemma keepUnsent_spec self wb n :
  ext_wf self -> wf wb -> 0 <= n <= size wb -> writeBuffer self = Some wb ->
  (is_Some (socketExtensionBuffer self) ->
   socketExtensionBufferFill self + (size wb - n) <= socketExtensionBufferSize self) ->
  exists self' ok, keepUnsent self wb n = Some (self', ok) /\ same_writeBuffer wb self' /\
    handed_over self self' (drop (Z.to_nat n) (content wb)) ok /\
    (is_Some (socketExtensionBuffer self) -> ok = true) /\ socket self' = socket self.
Proof.
  intros Hw Hwb Hn Hwbs Hroom. unfold keepUnsent.
  destruct (ByteBuffer_clear wb Hwb) as [Hc Hcm].
  destruct self as [? ? ? ? ? ? ? ? wb0 ? ? ext extSize fill sock]. cbn in *. subst wb0.
  assert (Hcl := content_length wb Hwb). assert (Hwb' := Hwb). destruct Hwb as (Hwbb & Hs & Hwl).
  unfold handed_over, same_writeBuffer, io_only, ext_wf, stream, ext_content in *. cbn in *.
  case_decide as Hne.
  - destruct ext as [ext|].
    + destruct Hw as (Heb & Hel & Hfill).
      destruct (append_ext ext fill (buffer wb) n (size wb)) as (ext' & -> & Hb' & Hl' & Ht);
        try done; try lia.
      { specialize (Hroom ltac:(eauto)). lia. }
      cbn [mbind option_bind]. specialize (Hroom ltac:(eauto)).
      assert (HD : take (Z.to_nat (size wb - n)) (drop (Z.to_nat n) (buffer wb)) =
                   drop (Z.to_nat n) (content wb)).
      { unfold content. rewrite take_drop_commute. do 2 f_equal. lia. }
      rewrite HD in Ht. do 2 eexists. split; [done|]. cbn -[take drop].
      assert (Hd : zlen (drop (Z.to_nat n) (content wb)) = size wb - n)
        by (rewrite length_drop; lia).
      rewrite Ht, Hd, app_assoc. split_and!; try done; try naive_solver; try lia; eauto.
      exists (length (drop (Z.to_nat n) (content wb))). by rewrite firstn_all.
    + do 2 eexists. split; [done|]. cbn. split_and!; try done; try naive_solver.
      exists 0%nat. by rewrite take_0, app_nil_r.
  - assert (Hd : drop (Z.to_nat n) (content wb) = []) by (apply drop_ge; lia).
    rewrite Hd. do 2 eexists. split; [done|]. cbn -[take].
    rewrite !app_nil_r. split_and!; try done; try naive_solver; try lia.
    + exists 0%nat. by rewrite take_nil, app_nil_r.
    + intros _. split; [done|lia].
Qed.

(** [self2] is [self] after the socket took [n] bytes of the write buffer. *)
Lemma keepUnsent_handed_over self self2 wb n :
  io_only self self2 -> ext_wf self2 -> wf wb -> 0 <= n <= size wb ->
  writeBuffer self2 = Some wb ->
  socketExtensionBufferFill self2 <= socketExtensionBufferFill self ->
  stream self2 = stream self ++ take (Z.to_nat n) (content wb) ->
  (is_Some (socketExtensionBuffer self) ->
   socketExtensionBufferFill self + size wb <= socketExtensionBufferSize self) ->
  exists self' ok, keepUnsent self2 wb n = Some (self', ok) /\ same_writeBuffer wb self' /\
    handed_over self self' (content wb) ok /\
    (writes_ok self2 -> is_Some (socketExtensionBuffer self) -> ok = true /\ writes_ok self').
Proof.
  intros Hio Hw Hwb Hn Hwbs Hfill Hst Hroom.
  destruct (io_only_fields _ _ Hio) as (_ & Hsz & He).
  destruct (keepUnsent_spec self2 wb n Hw Hwb Hn Hwbs) as (s3 & ok & E & Hsw & Hh & Hok & Hsk).
  { rewrite He, Hsz. intros H. specialize (Hroom H). lia. }
  exists s3, ok. rewrite E. split; [done|]. split; [done|].
  destruct Hh as (Hio3 & Hw3 & [k Hk] & Htrue). split.
  - split; [by eapply io_only_trans|]. split; [done|]. split.
    + exists (Z.to_nat n + k)%nat. rewrite Hk, Hst, <- app_assoc. f_equal.
      apply take_take_drop.
    + intros Ht. destruct (Htrue Ht) as [Hs Hf]. split.
      * by rewrite Hs, Hst, <- app_assoc, take_drop.
      * rewrite length_drop in Hf. pose proof (content_length wb Hwb). lia.
  - intros Hwo Hex. split; [apply Hok; by rewrite He|]. unfold writes_ok. by rewrite Hsk.
Qed.

Lemma writeToSocket_spec self wb :
  ext_wf self -> wf wb -> writeBuffer self = Some wb -> socketExtensionBufferFill self = 0 ->
  exists s n, writeToSocket self (buffer wb) (size wb) = Some (s, n) /\ io_only self s /\
    ext_wf s /\ writeBuffer s = Some wb /\ socketExtensionBufferFill s = 0 /\
    -1 <= n <= size wb /\ stream s = stream self ++ take (Z.to_nat n) (content wb) /\
    (writes_ok self -> 0 <= n /\ writes_ok s).
Proof.
  intros Hw (Hbb & Hs & Hl) Hwbs H0. unfold writeToSocket.
  destruct (socket_write_spec (socket self) (buffer wb) (size wb))
    as (sk & n & -> & Hn & Hsent & Hok & _); [lia|]. cbn [mbind option_bind].
  do 2 eexists. split; [done|].
  destruct self. unfold stream, ext_content, ext_wf, writes_ok, io_only, content in *.
  cbn -[take] in *. split_and!; try done; try lia.
  rewrite H0, Hsent. change (Z.to_nat 0) with 0%nat. rewrite take_take, !take_0, !app_nil_r.
  do 2 f_equal. lia.
Qed.

(** The specification of [sendBuffer]: the write buffer is handed over and
    emptied. *)
Lemma sendBuffer_spec self wb :
  ext_wf self -> wf wb -> writeBuffer self = Some wb ->
  (is_Some (socketExtensionBuffer self) ->
   socketExtensionBufferFill self + size wb <= socketExtensionBufferSize self) ->
  exists self' ok, sendBuffer self = Some (self', ok) /\ same_writeBuffer wb self' /\
    handed_over self self' (content wb) ok /\
    (writes_ok self -> is_Some (socketExtensionBuffer self) -> ok = true /\ writes_ok self').
Proof.
  intros Hw Hwb Hwbs Hroom. unfold sendBuffer. rewrite Hwbs. cbn [mbind option_bind].
  destruct (flushBuffer_spec self Hw) as (s1 & ok1 & -> & Hio1 & Hw1 & Hwb1 & Hst1 & Hf1 & Hok1).
  cbn [mbind option_bind].
  assert (Hcl := content_length wb Hwb). rewrite Hwbs in Hwb1.
  assert (Hnone : forall s, io_only s1 s -> ext_wf s -> stream s = stream s1 ->
    handed_over self s (content wb) false).
  { intros s Hs Hws Hst. split; [by eapply io_only_trans|]. split; [done|]. split; [|done].
    exists 0%nat. by rewrite take_0, app_nil_r, Hst. }
  destruct ok1; cbn [negb].
  2: { exists s1, false. split; [done|]. split; [by exists wb|].
       split; [apply Hnone; auto using io_only_refl|]. intros Hr. by destruct (Hok1 Hr). }
  case_decide as H0.
  - destruct (writeToSocket_spec s1 wb)
      as (s2 & n & -> & Hio2 & Hw2 & Hwb2 & Hf2 & Hn & Hst2 & Hok2); try done.
    cbn [mbind option_bind]. case_decide as Hm1.
    + subst n. exists s2, false. split; [done|]. split; [by exists wb|].
      split; [|intros Hr; destruct (Hok1 Hr) as [_ Hr1]; destruct (Hok2 Hr1); lia].
      apply Hnone; [done..|]. rewrite Hst2. by rewrite app_nil_r.
    + destruct (keepUnsent_handed_over self s2 wb n) as (s' & ok & E & Hsw & Hh & Ho);
        try done; try lia; [by eapply io_only_trans|by rewrite Hst2, Hst1|].
      exists s', ok. split_and!; try done. intros Hr. apply Ho. destruct (Hok1 Hr) as [_ Hr1].
      by apply Hok2.
  - cbn [mbind option_bind]. rewrite decide_False by lia.
    destruct (keepUnsent_handed_over self s1 wb 0) as (s' & ok & E & Hsw & Hh & Ho);
      try done; try lia; [by rewrite Hst1, app_nil_r|].
    exists s', ok. split_and!; try done. intros Hr. apply Ho. by apply Hok1.
Qed.

(** ** Fragments *)

(** What is left of a chain from index [index] of its first part on. *)
Definition chain_rest (c : BufferChain) (index : Z) : list Z :=
  drop (Z.to_nat index) (chain_bytes c).

Definition chain_pos (c : BufferChain) (index : Z) : Prop :=
  match c with
  | ChainNull => False
  | Chain _ partLength _ _ _ => chain_wf c /\ 0 <= index <= partLength
  end.

(** One byte of the chain is copied by one round of the loop. *)
Lemma fillFragment_step n c index x rest b p :
  chain_pos c index -> chain_rest c index = x :: rest ->
  exists c' index', chain_pos c' index' /\ chain_rest c' index' = rest /\
    fillFragment_loop (S n) c index b p =
    ('(b, p) ← put b p x; fillFragment_loop n c' index' b p).
Proof.
  assert (Hin : forall l pl pm buf nx index, 0 <= index < pl -> chain_wf (Chain l pl pm buf nx) ->
    chain_rest (Chain l pl pm buf nx) index = x :: rest ->
    buf.[index] = Some x /\ chain_pos (Chain l pl pm buf nx) (index + 1) /\
    chain_rest (Chain l pl pm buf nx) (index + 1) = rest).
  { intros l pl pm buf nx i Hi Hw Hr. unfold chain_rest in *. split_and!.
    - assert (H : chain_bytes (Chain l pl pm buf nx) !! Z.to_nat i = Some x).
      { rewrite <- (Nat.add_0_r (Z.to_nat i)), <- lookup_drop, Hr. done. }
      cbn [chain_bytes] in H. destruct Hw as (Hpl & _).
      rewrite lookup_app_l in H by (rewrite length_take; lia).
      unfold rd. rewrite decide_True by lia. rewrite lookup_take in H.
      by destruct (decide _) in H.
    - split; [done|lia].
    - replace (Z.to_nat (i + 1)) with (Z.to_nat i + 1)%nat by lia.
      by rewrite <- drop_drop, Hr. }
  destruct c as [|l pl pm buf nx]; [done|]. intros [Hw Hi] Hr. cbn [fillFragment_loop].
  case_decide as Hend.
  - assert (Hr' : chain_rest nx 0 = x :: rest).
    { rewrite <- Hr. unfold chain_rest. cbn [chain_bytes].
      destruct Hw as (Hpl & _). rewrite drop_app_length'; [done|]. rewrite length_take. lia. }
    destruct Hw as (Hpl & Hb & Hl & Hnx). destruct nx as [|l2 pl2 pm2 buf2 nx2]; [done|].
    assert (H2 : 0 <= 0 < pl2) by (destruct Hnx as (? & _); lia).
    destruct (Hin _ _ _ _ _ 0 H2 Hnx Hr') as (-> & Hp & Hrest).
    do 2 eexists. split; [exact Hp|]. split; [exact Hrest|]. done.
  - assert (H2 : 0 <= index < pl) by lia.
    destruct (Hin _ _ _ _ _ index H2 Hw Hr) as (-> & Hp & Hrest).
    do 2 eexists. split; [exact Hp|]. split; [exact Hrest|]. done.
Qed.

(** [n] rounds copy the next [n] bytes. *)
Lemma fillFragment_spec n : forall c index b p b' p',
  chain_pos c index -> (n <= length (chain_rest c index))%nat ->
  puts b p (take n (chain_rest c index)) = Some (b', p') ->
  exists c' index', chain_pos c' index' /\ chain_rest c' index' = drop n (chain_rest c index) /\
    fillFragment_loop n c index b p = Some (inr (c', index', b', p')).
Proof.
  induction n as [|n IH]; intros c index b p b' p' Hp Hn Hput.
  - cbn in Hput. injection Hput as <- <-. exists c, index. done.
  - destruct (chain_rest c index) as [|x rest] eqn:Hr; [cbn in Hn; lia|].
    destruct (fillFragment_step n c index x rest b p Hp Hr) as (c1 & i1 & Hp1 & Hr1 & ->).
    cbn [take puts] in Hput. destruct (put b p x) as [[b1 p1]|]; [|done]. cbn in *.
    destruct (IH c1 i1 b1 p1 b' p' Hp1) as (c2 & i2 & Hp2 & Hr2 & E); rewrite ?Hr1 in *;
      [lia|done|]. exists c2, i2. by rewrite Hr2.
Qed.

(** A data TPDU in its TPKT packet. *)
Definition frame (last : bool) (chunk : list Z) : list Z :=
  [0x03; 0x00; Z.quot (7 + zlen chunk) 0x100; Z.land (7 + zlen chunk) 0xff;
   0x02; 0xf0; if last then 0x80 else 0x00] ++ chunk.

Fixpoint frames (fragments fragmentPayloadSize : nat) (bs : list Z) : list Z :=
  match fragments with
  | O => []
  | S O => frame true bs
  | S fragments =>
      frame false (take fragmentPayloadSize bs) ++
      frames fragments fragmentPayloadSize (drop fragmentPayloadSize bs)
  end.

Lemma frame_length last chunk : zlen (frame last chunk) = 7 + zlen chunk.
Proof. unfold frame. rewrite length_app. cbn [length]. lia. Qed.

Lemma frame_bytes last chunk : is_bytes chunk -> zlen chunk <= 65528 -> is_bytes (frame last chunk).
Proof.
  intros Hb Hl. unfold frame. apply Forall_app_2; [|done].
  assert (Hd : is_u8 (Z.quot (7 + zlen chunk) 0x100))
    by (rewrite Z.quot_div_nonneg by lia; zlia).
  assert (Hm : is_u8 (Z.land (7 + zlen chunk) 0xff))
    by (change 0xff with (Z.ones 8); rewrite Z.land_ones by lia; zlia).
  repeat constructor; try done; try (destruct last; done); try apply Hd; try apply Hm.
Qed.

Lemma frames_length n fps bs :
  zlen (frames n fps bs) = 7 * Z.of_nat n + (if decide (n = 0%nat) then 0 else zlen bs).
Proof.
  revert bs. induction n as [|n IH]; intros bs; [done|]. cbn [frames]. destruct n as [|n].
  - rewrite frame_length. rewrite decide_False by done. lia.
  - rewrite length_app, Nat2Z.inj_add, frame_length, IH, !decide_False by done.
    rewrite length_take, length_drop. lia.
Qed.

(** The headers and the payload of one fragment in the write buffer. *)
Lemma prepareFragment self wb last c index n :
  writeBuffer self = Some wb -> wf wb -> chain_pos c index ->
  (n <= length (chain_rest c index))%nat -> is_bytes (chain_rest c index) ->
  Z.of_nat n <= 8192 -> 7 + Z.of_nat n <= maxSize wb ->
  exists b1 b2 b c' index',
    writeRfc1006Header self (7 + Z.of_nat n) =
      Some (set_writeBuffer (Some (with_buffer wb b1 4)) self) /\
    writeDataTpduHeader (set_writeBuffer (Some (with_buffer wb b1 4)) self) last =
      Some (set_writeBuffer (Some (with_buffer wb b2 7)) self) /\
    fillFragment_loop n c index b2 7 = Some (inr (c', index', b, 7 + Z.of_nat n)) /\
    chain_pos c' index' /\ chain_rest c' index' = drop n (chain_rest c index) /\
    wf (with_buffer wb b (7 + Z.of_nat n)) /\
    content (with_buffer wb b (7 + Z.of_nat n)) = frame last (take n (chain_rest c index)).
Proof.
  intros Hwb Hw Hp Hn Hb Hn8 Hm. set (chunk := take n (chain_rest c index)).
  assert (Hcl : zlen chunk = Z.of_nat n) by (unfold chunk; rewrite length_take; lia).
  assert (Hfl := frame_length last chunk). rewrite Hcl in Hfl.
  destruct (Hw) as (Hbb & Hs & Hl).
  destruct (puts_Some (buffer wb) 0 (frame last chunk)) as [b Hput]; [lia..|].
  assert (Hbyte : is_bytes (frame last chunk)) by (apply frame_bytes; [by apply Forall_take|lia]).
  destruct (puts_content (with_buffer wb (buffer wb) 0) (frame last chunk) b
    (0 + zlen (frame last chunk))) as (_ & Hwf & Hc);
    [split_and!; cbn; auto; lia|done|cbn; lia|done|].
  rewrite Hfl in *. unfold with_buffer in *. cbn [size maxSize buffer] in Hwf, Hc.
  rewrite Z.add_0_l in *. unfold frame in Hput. rewrite Hcl in Hput.
  change [?a; ?b; ?c; ?d; ?e; ?f; ?g] with ([a; b; c; d] ++ [e; f; g]) in Hput.
  rewrite <- app_assoc, puts_app in Hput.
  destruct (puts (buffer wb) 0 _) as [[b1 p1]|] eqn:E1; [|done].
  cbn [mbind option_bind] in Hput. rewrite puts_app in Hput.
  destruct (puts b1 p1 _) as [[b2 p2]|] eqn:E2; [|done]. cbn [mbind option_bind] in Hput.
  destruct (puts_inv _ _ _ _ _ E1) as (-> & _). destruct (puts_inv _ _ _ _ _ E2) as (-> & _).
  cbn [length] in *. change (0 + Z.of_nat 4) with 4 in *. change (4 + Z.of_nat 3) with 7 in *.
  destruct (fillFragment_spec n c index b2 7 b (7 + Z.of_nat n) Hp Hn Hput)
    as (c' & i' & Hp' & Hr' & Hf).
  exists b1, b2, b, c', i'. unfold writeRfc1006Header, writeDataTpduHeader. rewrite Hwb.
  cbn [mbind option_bind set_writeBuffer writeBuffer buffer]. rewrite E1. cbn [mbind option_bind].
  cbn [set_writeBuffer writeBuffer buffer]. rewrite E2. by split_and!.
Qed.

Lemma handed_over_trans self1 self2 self3 bs1 bs2 ok :
  handed_over self1 self2 bs1 true -> handed_over self2 self3 bs2 ok ->
  handed_over self1 self3 (bs1 ++ bs2) ok.
Proof.
  intros (Hio1 & Hw1 & _ & H1) (Hio2 & Hw2 & [k Hk] & H2). destruct (H1 eq_refl) as [Hs1 Hf1].
  split; [by eapply io_only_trans|]. split; [done|]. split.
  - exists (length bs1 + k)%nat. rewrite Hk, Hs1, <- app_assoc. f_equal. symmetry.
    by apply take_app_add'.
  - intros Hok. destruct (H2 Hok) as [Hs2 Hf2]. rewrite Hs2, Hs1, <- app_assoc, length_app.
    split; [done|lia].
Qed.

Lemma handed_over_fail self self' bs bs' :
  handed_over self self' bs false -> handed_over self self' (bs ++ bs') false.
Proof.
  intros (Hio & Hw & [k Hk] & _). split; [done|]. split; [done|]. split; [|done].
  exists (k `min` length bs)%nat. rewrite Hk. f_equal.
  rewrite take_app_le by lia. destruct (decide (k <= length bs)%nat).
  - by rewrite Nat.min_l.
  - rewrite Nat.min_r by lia. by rewrite !take_ge by lia.
Qed.

(** One fragment: its packet is built in the write buffer and sent. *)
Lemma sendFragment_spec self wb last c index n :
  ext_wf self -> writeBuffer self = Some wb -> wf wb -> chain_pos c index ->
  (n <= length (chain_rest c index))%nat -> is_bytes (chain_rest c index) ->
  Z.of_nat n <= 8192 -> 7 + Z.of_nat n <= maxSize wb ->
  (is_Some (socketExtensionBuffer self) ->
   socketExtensionBufferFill self + (7 + Z.of_nat n) <= socketExtensionBufferSize self) ->
  exists self1 self2 wb2 b c' index' self' ok,
    writeRfc1006Header self (7 + Z.of_nat n) = Some self1 /\
    writeDataTpduHeader self1 last = Some self2 /\ writeBuffer self2 = Some wb2 /\
    fillFragment_loop n c index (buffer wb2) 7 = Some (inr (c', index', b, 7 + Z.of_nat n)) /\
    chain_pos c' index' /\ chain_rest c' index' = drop n (chain_rest c index) /\
    sendBuffer (set_writeBuffer (Some (with_buffer wb2 b (7 + Z.of_nat n))) self2) =
      Some (self', ok) /\
    same_writeBuffer wb self' /\
    handed_over self self' (frame last (take n (chain_rest c index))) ok /\
    (writes_ok self -> is_Some (socketExtensionBuffer self) -> ok = true /\ writes_ok self').
Proof.
  intros Hew Hwb Hw Hp Hn Hb Hn8 Hm Hroom.
  destruct (prepareFragment self wb last c index n)
    as (b1 & b2 & b & c' & i' & E1 & E2 & E3 & Hp' & Hr' & Hwf & Hc); [done..|].
  set (wb' := with_buffer wb b (7 + Z.of_nat n)) in *.
  set (s2 := set_writeBuffer (Some wb') self).
  destruct (sendBuffer_spec s2 wb') as (s' & ok & E4 & Hsw & Hh & Hok); try done.
  exists (set_writeBuffer (Some (with_buffer wb b1 4)) self),
    (set_writeBuffer (Some (with_buffer wb b2 7)) self), (with_buffer wb b2 7), b, c', i', s', ok.
  rewrite Hc in Hh.
  by split_and!.
Qed.

(** The loop over the fragments. *)
Lemma sendFragments_spec fps n : forall self wb c index pos payloadLength,
  0 < fps <= 8192 -> ext_wf self -> writeBuffer self = Some wb -> wf wb ->
  7 + fps <= maxSize wb -> chain_pos c index -> is_bytes (chain_rest c index) ->
  zlen (chain_rest c index) = payloadLength - pos -> 0 <= pos -> n <> 0%nat ->
  Z.of_nat (n - 1) * fps <= payloadLength - pos <= Z.of_nat n * fps ->
  (is_Some (socketExtensionBuffer self) ->
   socketExtensionBufferFill self + zlen (frames n (Z.to_nat fps) (chain_rest c index)) <=
   socketExtensionBufferSize self) ->
  exists self' r, sendFragments_loop n self fps payloadLength c index pos = Some (self', r) /\
    (r = COTP_OK \/ r = COTP_ERROR) /\ same_writeBuffer wb self' /\
    handed_over self self' (frames n (Z.to_nat fps) (chain_rest c index))
      (bool_decide (r = COTP_OK)) /\
    (writes_ok self -> is_Some (socketExtensionBuffer self) -> r = COTP_OK /\ writes_ok self').
Proof.
  induction n as [|n IH]; intros self wb c index pos pl Hfps Hew Hwb Hw Hm Hp Hb Hl Hpos Hn Hpl Hroom;
    [done|]. cbn [sendFragments_loop].
  set (limit := if bool_decide (n = 0%nat) then pl else pos + fps).
  set (k := if bool_decide (n = 0%nat) then length (chain_rest c index) else Z.to_nat fps).
  assert (Hk : limit - pos = Z.of_nat k /\ (k <= length (chain_rest c index))%nat /\
    Z.of_nat k <= fps /\
    frames (S n) (Z.to_nat fps) (chain_rest c index) =
    frame (bool_decide (n = 0%nat)) (take k (chain_rest c index)) ++
    frames n (Z.to_nat fps) (drop k (chain_rest c index))).
  { unfold limit, k. case_bool_decide as Hn0.
    - subst n. rewrite firstn_all. cbn. rewrite app_nil_r. split_and!; try done; lia.
    - destruct n as [|n]; [done|]. cbn [frames]. split_and!; try done; nia. }
  destruct Hk as (-> & Hkl & Hkf & Hfr). rewrite Hfr in Hroom |- *. rewrite length_app, Nat2Z.inj_add in Hroom.
  destruct (sendFragment_spec self wb (bool_decide (n = 0%nat)) c index k)
    as (s1 & s2 & wb2 & b & c' & i' & s' & ok & -> & E2 & E3 & E4 & Hp' & Hr' & E5 & Hsw & Hh & Hok);
    try done; try lia.
  { intros He. specialize (Hroom He). rewrite frame_length, length_take in Hroom. lia. }
  cbn [mbind option_bind]. rewrite E2. cbn [mbind option_bind]. rewrite E3. cbn [mbind option_bind].
  rewrite Nat2Z.id, E4. cbn [mbind option_bind]. rewrite E5. cbn [mbind option_bind].
  destruct ok.
  2: { exists s', COTP_ERROR. split; [done|]. split; [by right|]. split; [done|].
       split; [by apply handed_over_fail|]. intros H1 H2. by destruct (Hok H1 H2). }
  destruct (decide (n = 0%nat)) as [->|Hn0].
  - exists s', COTP_OK. split; [done|]. split; [by left|]. split; [done|]. cbn [frames].
    rewrite app_nil_r. split; [exact Hh|]. intros H1 H2. split; [done|by apply Hok].
  - destruct Hsw as (wb' & Hwb' & Hwf' & Hm'). destruct (Hh) as (Hio & Hew' & _ & Htrue).
    destruct (Htrue eq_refl) as [_ Hfill]. destruct (io_only_fields _ _ Hio) as (_ & Hsz & He).
    assert (Hlim : limit = pos + fps) by (unfold limit; by rewrite bool_decide_eq_false_2).
    assert (Hkn : k = Z.to_nat fps) by (unfold k; by rewrite bool_decide_eq_false_2).
    clearbody limit k. subst. rewrite bool_decide_eq_false_2 in * by done.
    destruct (IH s' wb' c' i' (pos `max` (pos + fps)) pl)
      as (s3 & r & E & Hr & Hsw3 & Hh3 & Hok3); try done; rewrite ?Hr'.
    + lia.
    + by apply Forall_drop.
    + rewrite length_drop. lia.
    + lia.
    + nia.
    + rewrite He, Hsz. intros H. specialize (Hroom H). lia.
    + rewrite Hr' in Hh3. exists s3, r. rewrite E. split; [done|]. split; [done|]. split.
      { destruct Hsw3 as (wb3 & ? & ? & ?). exists wb3. split_and!; try done. congruence. }
      split; [by eapply handed_over_trans|]. intros H1 H2. apply Hok3; [by apply Hok|by apply He].
Qed.

Lemma fragmentCount_spec len fps : 0 < fps -> 0 < len ->
  let n := fragmentCount len fps in 1 <= n /\ (n - 1) * fps <= len <= n * fps.
Proof.
  intros Hf Hl. unfold fragmentCount. case_decide as Hbig; cbn zeta; [|lia].
  rewrite Z.quot_div_nonneg, Z.rem_mod_nonneg by lia.
  pose proof (Z.div_mod len fps). pose proof (Z.mod_pos_bound len fps). case_decide; nia.
Qed.

(** The packets of a message. *)
Definition message_frames (self : CotpConnection) (bs : list Z) : list Z :=
  let fps := getTpduSize self - COTP_DATA_HEADER_SIZE in
  frames (Z.to_nat (fragmentCount (zlen bs) fps)) (Z.to_nat fps) bs.

Lemma getTpduSize_bounds self : 7 <= tpduSize self <= 13 -> 128 <= getTpduSize self <= 8192.
Proof.
  intros H. unfold getTpduSize. rewrite Z.shiftl_mul_pow2, Z.mul_1_l by lia.
  change 128 with (2 ^ 7). change 8192 with (2 ^ 13). split; apply Z.pow_le_mono_r; lia.
Qed.

Lemma sendDataMessage_spec self wb payload :
  7 <= tpduSize self <= 13 -> ext_wf self -> writeBuffer self = Some wb -> wf wb ->
  getTpduSize self + TPKT_RFC1006_HEADER_SIZE <= maxSize wb ->
  payload <> ChainNull -> chain_wf payload ->
  exists self' r, sendDataMessage self payload = Some (self', r) /\
    (r = COTP_OK \/ r = COTP_ERROR) /\ same_writeBuffer wb self' /\
    handed_over self self' (message_frames self (chain_bytes payload)) (bool_decide (r = COTP_OK)) /\
    (writes_ok self -> is_Some (socketExtensionBuffer self) ->
     socketExtensionBufferFill self + zlen (message_frames self (chain_bytes payload)) <=
       socketExtensionBufferSize self -> r = COTP_OK).
Proof.
  intros Ht Hew Hwb Hw Hm Hnn Hc. pose proof (getTpduSize_bounds self Ht) as Hsz.
  destruct payload as [|len pl pm buf nx]; [done|]. set (c := Chain len pl pm buf nx) in *.
  assert (Hlen : len = zlen (chain_bytes c) /\ 0 < len).
  { destruct (Hc) as ((H1 & H2) & _ & Hl & _). split; [done|]. fold c in Hl. rewrite Hl.
    cbn [chain_bytes c]. rewrite length_app, length_take. lia. }
  destruct Hlen as [Hlen Hlen0]. cbn [sendDataMessage c]. unfold message_frames. rewrite <- Hlen.
  unfold COTP_DATA_HEADER_SIZE, TPKT_RFC1006_HEADER_SIZE in *. fold c.
  set (fps := getTpduSize self - 3) in *. set (n := fragmentCount len fps).
  destruct (fragmentCount_spec len fps) as [Hn1 Hn]; [lia..|]. fold n in Hn1, Hn.
  assert (Hfl := frames_length (Z.to_nat n) (Z.to_nat fps) (chain_bytes c)).
  rewrite decide_False, <- Hlen, Z2Nat.id in Hfl by lia. rewrite decide_False by lia.
  destruct (flushBuffer_spec self Hew) as (s1 & ok1 & -> & Hio1 & Hw1 & Hwb1 & Hst1 & Hf1 & Hok1).
  cbn [mbind option_bind]. destruct (io_only_fields _ _ Hio1) as (_ & Hsz1 & He1).
  assert (Hsw : same_writeBuffer wb s1) by (exists wb; split_and!; [congruence|done..]).
  assert (Herr : handed_over self s1 (frames (Z.to_nat n) (Z.to_nat fps) (chain_bytes c)) false).
  { split; [done|]. split; [done|]. split; [|done]. exists 0%nat. by rewrite Hst1, app_nil_r. }
  destruct ok1; cbn [negb].
  2: { exists s1, COTP_ERROR. split_and!; auto. intros H. by destruct (Hok1 H). }
  case_decide as Hroom.
  { exists s1, COTP_ERROR. split_and!; auto. intros. lia. }
  destruct (sendFragments_spec fps (Z.to_nat n) s1 wb c 0 0 len)
    as (s' & r & -> & Hr & Hsw2 & Hh & Hok2); try done; unfold chain_rest; rewrite ?drop_0; try lia.
  - congruence.
  - split; [done|destruct Hc as (? & _); lia].
  - by apply chain_bytes_bytes.
  - intros H. destruct (decide (socketExtensionBufferSize s1 - socketExtensionBufferFill s1 <
      n * (3 + 4) + len)); [tauto|lia].
  - exists s', r. split; [done|]. split; [done|]. split; [done|]. unfold chain_rest in Hh. rewrite drop_0 in Hh. split.
    + destruct Hh as (Hio & Hw' & [k Hk] & Htrue). split; [by eapply io_only_trans|].
      split; [done|]. rewrite <- Hst1. split; [by exists k|]. intros H. destruct (Htrue H).
      split; [done|lia].
    + intros H1 H2 _. apply Hok2; [by apply Hok1|by apply He1].
Qed.

(** C23: A message handed to [CotpConnection_sendDataMessage] enters the byte
    stream of the connection (the bytes the socket took, then those kept in the
    extension buffer) as its fragments, complete and in order, whatever part of
    each write the socket takes; on an error the stream grows by a part of them,
    and there is no error when the socket reports none and the extension buffer
    has room for the packets. *)
Theorem sendDataMessage_stream self wb payload :
  7 <= tpduSize self <= 13 -> ext_wf self -> writeBuffer self = Some wb -> wf wb ->
  getTpduSize self + TPKT_RFC1006_HEADER_SIZE <= maxSize wb ->
  payload <> ChainNull -> chain_wf payload ->
  exists self' r, sendDataMessage self payload = Some (self', r) /\
    (r = COTP_OK \/ r = COTP_ERROR) /\
    handed_over self self' (message_frames self (chain_bytes payload)) (bool_decide (r = COTP_OK)) /\
    (writes_ok self -> is_Some (socketExtensionBuffer self) ->
     socketExtensionBufferFill self + zlen (message_frames self (chain_bytes payload)) <=
       socketExtensionBufferSize self -> r = COTP_OK).
Proof.
  intros Ht Hew Hwb Hw Hm Hnn Hc.
  destruct (sendDataMessage_spec self wb payload Ht Hew Hwb Hw Hm Hnn Hc) as (s & r & E & Hr & _ & H).
  by exists s, r.
Qed.

(** A connection with a small TPDU size and an extension buffer, and a message
    of two parts that needs two packets. *)
Definition ex_socket : Socket :=
  {| sent := []; writeResults := [20; 0; 7]; incoming := []; readResults := [] |}.

Definition ex_buffer (n : nat) : ByteBuffer := ByteBuffer_wrap (replicate n 0) 0 (Z.of_nat n).

Definition ex_conn : CotpConnection :=
  let tsel := {| tselSize := 2; tselValue := [0; 1; 0; 0] |} in
  mkCotp (-1) 1 0 tsel tsel 7 false (ex_buffer 300) (Some (ex_buffer 140)) (ex_buffer 300) 0
    (Some (replicate 300 0)) 300 0 ex_socket.

Definition ex_chain : BufferChain :=
  BufferChain_init 130 3 (BufferChain_init 127 127 ChainNull (replicate 127 9)) [1; 2; 3].

Lemma wf_dec (b : ByteBuffer) :
  forallb (fun x => (0 <=? x) && (x <? 256)) (buffer b) = true ->
  (0 <=? size b) && (size b <=? maxSize b) && (zlen (buffer b) =? maxSize b) = true -> wf b.
Proof.
  intros H1 H2. unfold wf. split; [|lia]. apply Forall_forall. intros x Hx.
  rewrite forallb_forall in H1. unfold is_u8.
  specialize (H1 x ltac:(by apply list_elem_of_In)). lia.
Qed.

Lemma is_bytes_dec b : forallb (fun x => (0 <=? x) && (x <? 256)) b = true -> is_bytes b.
Proof.
  rewrite forallb_forall. intros H. apply Forall_forall. intros x Hx.
  specialize (H x ltac:(by apply list_elem_of_In)). unfold is_u8. lia.
Qed.

Lemma sendDataMessage_stream_witness :
  exists self' r, sendDataMessage ex_conn ex_chain = Some (self', r) /\ r = COTP_OK /\
    stream self' = message_frames ex_conn (chain_bytes ex_chain) /\
    zlen (sent (socket self')) = 20 /\ socketExtensionBufferFill self' = 124.
Proof.
  destruct (sendDataMessage_stream ex_conn (ex_buffer 140) ex_chain) as (self' & r & E & _ & Hh & Hok).
  - cbn. lia.
  - cbn. split_and!; try lia. by apply is_bytes_dec.
  - done.
  - by apply wf_dec.
  - vm_compute. done.
  - done.
  - cbn. split_and!; try lia; first [by apply is_bytes_dec | reflexivity].
  - exists self', r. split; [done|]. assert (Hr : r = COTP_OK).
    { apply Hok; [by repeat constructor|by eexists|]. vm_compute. done. }
    split; [done|]. destruct Hh as (_ & _ & _ & Ht). split; [apply Ht; by rewrite Hr|].
    vm_compute in E. injection E as <- _. by split.
Defined.

(** ** TPDU sizes *)

Lemma setTpduSize_loop_spec fuel : forall t size,
  1 <= t -> size <= 8192 -> 14 - t < Z.of_nat fuel -> (t = 1 \/ 2 ^ (t - 1) < size) ->
  exists t', setTpduSize_loop fuel t size = Some t' /\ 1 <= t' /\ size <= 2 ^ t' /\
    (t' = 1 \/ 2 ^ (t' - 1) < size).
Proof.
  induction fuel as [|fuel IH]; intros t size Ht Hs Hf Hinv.
  { destruct Hinv as [->|H]; [lia|]. assert (2 ^ 13 <= 2 ^ (t - 1)) by (apply Z.pow_le_mono_r; lia).
    change (2 ^ 13) with 8192 in *. lia. }
  cbn [setTpduSize_loop]. rewrite Z.shiftl_mul_pow2, Z.mul_1_l by lia. case_decide as Hlt.
  - apply IH; try lia. right. by replace (t + 1 - 1) with t by lia.
  - exists t. split_and!; try done. lia.
Qed.

Lemma tpdu_log2_bounds size : 0 <= Z.log2 (Z.min size COTP_MAX_TPDU_SIZE) <= 13.
Proof.
  split; [apply Z.log2_nonneg|]. change 13 with (Z.log2 COTP_MAX_TPDU_SIZE).
  apply Z.log2_le_mono. lia.
Qed.

Lemma setTpduSize_is self size :
  setTpduSize self size =
  Some (set_tpduSize (Z.log2 (Z.min size COTP_MAX_TPDU_SIZE)) self).
Proof.
  unfold setTpduSize, COTP_MAX_TPDU_SIZE.
  assert (Hm : (if decide (size > 8192) then 8192 else size) = size `min` 8192)
    by (case_decide; lia).
  rewrite Hm. clear Hm. set (n := size `min` 8192).
  destruct (setTpduSize_loop_spec 14 1 n) as (t & -> & Ht & Hn & Hinv);
    [lia|lia|lia|by left|]. cbn [mbind option_bind].
  rewrite Z.shiftl_mul_pow2, Z.mul_1_l by lia. do 2 f_equal.
  assert (Hpt : 2 ^ t = 2 * 2 ^ (t - 1)) by (rewrite <- Z.pow_succ_r by lia; f_equal; lia).
  assert (Hlog : (if decide (2 ^ t > n) then t - 1 else t) = Z.log2 n).
  { case_decide as Hgt.
    - destruct Hinv as [->|Hinv].
      + change (2 ^ 1) with 2 in Hgt. destruct (decide (n = 1)) as [->|]; [done|].
        by rewrite Z.log2_nonpos by lia.
      + symmetry. apply Z.log2_unique; [lia|]. replace (Z.succ (t - 1)) with t by lia. lia.
    - symmetry. replace n with (2 ^ t) by lia. apply Z.log2_pow2. lia. }
  rewrite Hlog. apply u8_id. pose proof (tpdu_log2_bounds size). unfold_int.
  unfold COTP_MAX_TPDU_SIZE, n in *. lia.
Qed.

(** [setTpduSize] terminates and stores the exponent of the largest power of
    two that does not exceed the requested size, bounded by 8192 octets. *)
Theorem setTpduSize_log2 self size :
  setTpduSize self size =
  Some (set_tpduSize (Z.log2 (Z.min size COTP_MAX_TPDU_SIZE)) self).
Proof. apply setTpduSize_is. Qed.

(** ** Parsing a packet *)

Definition sel_wf (sel : TSelector) : Prop :=
  is_bytes (tselValue sel) /\ length (tselValue sel) = 4%nat /\ 0 <= tselSize sel <= 4.

Definition conn_wf (self : CotpConnection) : Prop :=
  wf (payload self) /\ is_bytes (buffer (readBuffer self)) /\
  sel_wf (tSelSrc self) /\ sel_wf (tSelDst self) /\ 0 <= tpduSize self <= 13.

(** [self'] is [self] up to the negotiated parameters. *)
Definition options_only (self self' : CotpConnection) : Prop :=
  conn_wf self' /\ payload self' = payload self /\ readBuffer self' = readBuffer self /\
  packetSize self' = packetSize self /\ isLastDataUnit self' = isLastDataUnit self.

Lemma options_only_trans self1 self2 self3 :
  options_only self1 self2 -> options_only self2 self3 -> options_only self1 self3.
Proof. intros (_ & ? & ? & ? & ?) (? & ? & ? & ? & ?). split_and!; congruence. Qed.

(** Storing a received selector. *)
Lemma copy_selector buf p n sel :
  sel_wf sel -> is_bytes buf -> 0 <= n < 5 -> 0 <= p -> p + n <= zlen buf ->
  exists value q, copy_bytes (Z.to_nat n) buf p (tselValue sel) 0 = Some (value, q) /\
    sel_wf {| tselSize := n; tselValue := value |} /\
    take (Z.to_nat n) value = take (Z.to_nat n) (drop (Z.to_nat p) buf).
Proof.
  intros (Hb & Hl & Hs) Hbuf Hn Hp Hfit.
  set (xs := take (Z.to_nat n) (drop (Z.to_nat p) buf)).
  assert (Hxl : zlen xs = n) by (unfold xs; rewrite length_take, length_drop; lia).
  assert (Hxb : is_bytes xs) by (by apply Forall_take, Forall_drop).
  rewrite (copy_at_Z buf p xs) by (done || (apply bytes_at_slice; lia)).
  rewrite puts_splice by (done || lia). do 2 eexists. split; [done|].
  change (Z.to_nat 0) with 0%nat. rewrite take_0, app_nil_l. unfold sel_wf. cbn [tselValue tselSize].
  rewrite length_app, length_drop. split_and!; try lia.
  - apply Forall_app_2; [done|by apply Forall_drop].
  - apply take_app_length'. lia.
Qed.

Lemma parseOptions_loop_safe fuel : forall self buf base p len,
  conn_wf self -> is_bytes buf -> 0 <= base -> 0 <= p -> base + len <= zlen buf ->
  Z.max 0 (len - p) < Z.of_nat fuel ->
  exists self' ok, parseOptions_loop fuel self buf base p len = Some (self', ok) /\
    options_only self self'.
Proof.
  induction fuel as [|fuel IH]; intros self buf base p len Hw Hbuf Hbase Hp Hlen Hf.
  { exfalso. lia. }
  assert (Hsame : options_only self self) by done.
  cbn [parseOptions_loop]. case_decide as Hlt; [|by do 2 eexists].
  case_decide as Htwo; [by do 2 eexists|].
  destruct (rd_ok buf (base + p) Hbuf) as (ty & -> & _); [lia|].
  destruct (rd_ok buf (base + (p + 1)) Hbuf) as (n & -> & Hn); [lia|]. cbn [mbind option_bind].
  unfold is_u8 in Hn. case_decide as Hfit; [by do 2 eexists|].
  assert (Hnext : forall s q, options_only self s -> p + 2 <= q ->
    exists self' ok, parseOptions_loop fuel s buf base q len = Some (self', ok) /\
      options_only self self').
  { intros s q Hs Hq. destruct (IH s buf base q len) as (s' & ok & -> & Hs'); try done; try lia.
    { apply Hs. } exists s', ok. split; [done|]. by eapply options_only_trans. }
  destruct Hw as (Hw1 & Hw2 & Hw3 & Hw4 & Hw5).
  assert (Hsel : forall sel, sel_wf sel -> n < 5 -> exists value q,
    copy_bytes (Z.to_nat n) buf (base + (p + 2)) (tselValue sel) 0 = Some (value, q) /\
    sel_wf {| tselSize := n; tselValue := value |}).
  { intros sel Hs H5. destruct (copy_selector buf (base + (p + 2)) n sel) as (v & q & ? & ? & _);
      try done; try lia. by exists v, q. }
  repeat case_decide; try (by do 2 eexists); try (apply Hnext; [done|lia]).
  - destruct (rd_ok buf (base + (p + 2)) Hbuf) as (raw & -> & _); [lia|]. cbn [mbind option_bind].
    case_decide; [by do 2 eexists|]. rewrite setTpduSize_is. cbn [mbind option_bind].
    apply Hnext; [|lia]. split_and!; try done. split_and!; try done; apply tpdu_log2_bounds.
  - destruct (Hsel (tSelSrc self)) as (v & q & -> & Hv); [done|done|]. cbn [mbind option_bind].
    apply Hnext; [by split_and!|lia].
  - destruct (Hsel (tSelDst self)) as (v & q & -> & Hv); [done|done|]. cbn [mbind option_bind].
    apply Hnext; [by split_and!|lia].
Qed.

Lemma parseOptions_safe self buf base len :
  conn_wf self -> is_bytes buf -> 0 <= base -> base + len <= zlen buf ->
  exists self' ok, parseOptions self buf base len = Some (self', ok) /\ options_only self self'.
Proof. intros. apply parseOptions_loop_safe; done || lia. Qed.

Lemma getUint16_Some buf p :
  is_bytes buf -> 0 <= p -> p + 1 < zlen buf ->
  exists hi lo, getUint16 buf p = Some (hi * 0x100 + lo) /\ buf.[p] = Some hi /\ buf.[p + 1] = Some lo.
Proof.
  intros Hb Hp Hl. unfold getUint16. destruct (rd_ok buf p Hb) as (hi & -> & H1); [lia|].
  destruct (rd_ok buf (p + 1) Hb) as (lo & -> & H2); [lia|]. exists hi, lo. cbn [mbind option_bind].
  split; [|done]. f_equal. zlia.
Qed.

(** What one packet does to the reassembled payload. *)
Definition parsed (self self' : CotpConnection) (ind : CotpIndication) : Prop :=
  conn_wf self' /\ readBuffer self' = readBuffer self /\
  match ind with
  | COTP_DATA_INDICATION | COTP_MORE_FRAGMENTS_FOLLOW =>
      isLastDataUnit self' = bool_decide (ind = COTP_DATA_INDICATION) /\
      maxSize (payload self') = maxSize (payload self) /\
      content (payload self') =
        content (payload self) ++ drop 7 (content (readBuffer self)) /\
      size (payload self') <= maxSize (payload self)
  | COTP_CONNECT_INDICATION | COTP_ERROR => payload self' = payload self
  | _ => False
  end.

Lemma options_parsed self self' ind :
  options_only self self' -> ind = COTP_CONNECT_INDICATION \/ ind = COTP_ERROR ->
  parsed self self' ind.
Proof. intros (Hw & Hp & Hr & _) [-> | ->]; by split_and!. Qed.

Lemma addPayload_fits self n :
  let rb := readBuffer self in
  conn_wf self -> 7 + n = size rb -> size rb <= zlen (buffer rb) ->
  1 <= n -> size (payload self) + n <= maxSize (payload self) ->
  exists pl, addPayloadToBuffer self (buffer rb) 7 n = Some (set_payload pl self, true) /\
    wf pl /\ maxSize pl = maxSize (payload self) /\
    content pl = content (payload self) ++ drop 7 (content rb).
Proof.
  intros rb (Hw1 & Hw2 & Hw3 & Hw4 & Hw5) Hn Hl H1 H2. unfold addPayloadToBuffer.
  rewrite !decide_False by lia.
  set (xs := take (Z.to_nat n) (drop (Z.to_nat 7) (buffer rb))).
  assert (Hxl : zlen xs = n) by (unfold xs; rewrite length_take, length_drop; lia).
  assert (Hxb : is_bytes xs) by (by apply Forall_take, Forall_drop).
  rewrite (copy_at_Z (buffer rb) 7 xs) by (done || (apply bytes_at_slice; lia)).
  destruct (Hw1) as (Hb & Hs & Hlen).
  destruct (puts_Some (buffer (payload self)) (size (payload self)) xs) as [b Hput]; [lia..|].
  destruct (puts_content (payload self) xs b (size (payload self) + zlen xs)) as (_ & Hwf & Hc);
    [done|done|lia|done|].
  rewrite Hput. cbn [mbind option_bind]. rewrite <- Hxl. eexists. split; [done|].
  split; [done|]. split; [done|].
  assert (Hx : xs = drop 7 (content rb)).
  { unfold xs, content. rewrite take_drop_commute. f_equal. f_equal. lia. }
  by rewrite <- Hx.
Qed.

Lemma addPayloadToBuffer_spec self n :
  let rb := readBuffer self in
  conn_wf self -> 7 + n = size rb -> size rb <= zlen (buffer rb) ->
  exists self' ok, addPayloadToBuffer self (buffer rb) 7 n = Some (self', ok) /\
    isLastDataUnit self' = isLastDataUnit self /\
    if (ok : bool) then parsed self self'
      (if isLastDataUnit self then COTP_DATA_INDICATION else COTP_MORE_FRAGMENTS_FOLLOW)
    else self' = self.
Proof.
  intros rb Hw Hn Hl. destruct (decide (1 <= n /\ size (payload self) + n <= maxSize (payload self)))
    as [[H1 H2]|Hno].
  - destruct (addPayload_fits self n) as (pl & E & Hwf & Hm & Hc); try done.
    exists (set_payload pl self), true. split; [done|]. split; [done|].
    destruct Hw as (Hw1 & Hw2 & Hw3 & Hw4 & Hw5). destruct (Hwf) as (_ & Hsz & _).
    destruct (isLastDataUnit self) eqn:EL; split_and!; try done;
      change (size pl <= maxSize (payload self)); lia.
  - exists self, false. unfold addPayloadToBuffer.
    destruct (decide (n < 1)); [done|]. rewrite decide_True by lia. done.
Qed.

(** The packet in the read buffer, which has room for the largest header. *)
Definition packet_ready (self : CotpConnection) : Prop :=
  261 <= zlen (buffer (readBuffer self)) /\
  5 <= size (readBuffer self) <= zlen (buffer (readBuffer self)).

Lemma parseCotpMessage_spec self :
  conn_wf self -> packet_ready self ->
  exists self' ind, parseCotpMessage self = Some (self', ind) /\ parsed self self' ind.
Proof.
  intros Hw [Hbig Hs]. destruct (Hw) as (Hw1 & Hbuf & Hw3 & Hw4 & Hw5). unfold parseCotpMessage.
  destruct (rd_ok (buffer (readBuffer self)) 4 Hbuf) as (len & -> & Hlen); [lia|].
  cbn [mbind option_bind]. unfold is_u8 in Hlen.
  assert (Hfail : forall s, options_only self s -> parsed self s COTP_ERROR)
    by (intros; apply options_parsed; auto).
  case_decide as Hli; [do 2 eexists; split; [done|by apply Hfail]|].
  destruct (rd_ok (buffer (readBuffer self)) 5 Hbuf) as (ty & -> & Hty); [lia|].
  cbn [mbind option_bind].
  assert (Hopt : forall s r (oks : option (CotpConnection * bool)), oks = Some (s, r) ->
    options_only self s -> exists self' ind,
    ('(self, ok) ← oks; Some (self, if (ok : bool) then COTP_CONNECT_INDICATION else COTP_ERROR)) =
    Some (self', ind) /\ parsed self self' ind).
  { intros s r oks -> Hs1. do 2 eexists. split; [done|]. apply options_parsed; [done|].
    destruct r; auto. }
  assert (Hconn : forall ref class, exists self' ok,
    parseOptions (set_protocolClass class (set_remoteRef ref self)) (buffer (readBuffer self))
      (6 + 5) (len - 6) = Some (self', ok) /\ options_only self self').
  { intros ref class. apply (parseOptions_safe (set_protocolClass class (set_remoteRef ref self)));
      try done; lia. }
  destruct (rd_ok (buffer (readBuffer self)) (6 + 4) Hbuf) as (cl & Ecl & _); [lia|].
  repeat case_decide.
  - unfold parseConnectRequestTpdu. case_decide; [by eapply Hopt|].
    destruct (getUint16_Some (buffer (readBuffer self)) (6 + 2)) as (hi & lo & -> & _); try done; try lia.
    unfold getUint8. rewrite Ecl. cbn [mbind option_bind].
    destruct (Hconn (hi * 0x100 + lo) cl) as (s & ok & E & Ho). by eapply Hopt.
  - unfold parseConnectConfirmTpdu. case_decide; [by eapply Hopt|].
    destruct (getUint16_Some (buffer (readBuffer self)) 6) as (hi & lo & -> & _); try done; try lia.
    unfold getUint8. rewrite Ecl. cbn [mbind option_bind].
    destruct (Hconn (hi * 0x100 + lo) cl) as (s & ok & E & Ho). by eapply Hopt.
  - unfold parseDataTpdu. case_decide; [do 2 eexists; split; [done|by apply Hfail]|].
    unfold getUint8. destruct (rd_ok (buffer (readBuffer self)) 6 Hbuf) as (fc & -> & _); [lia|].
    cbn [mbind option_bind]. set (s1 := set_isLastDataUnit _ self).
    destruct (addPayloadToBuffer_spec s1 (size (readBuffer self) - 4 - 3)) as (s2 & ok & E & Hl2 & Hadd);
      [done|cbn; lia|cbn; lia|]. cbn [s1 set_isLastDataUnit readBuffer] in E. fold s1 in E.
    rewrite E. cbn [mbind option_bind]. destruct ok.
    + do 2 eexists. split; [done|]. rewrite Hl2. exact Hadd.
    + subst s2. do 2 eexists. split; [done|]. by split_and!.
  - do 2 eexists. split; [done|by apply Hfail].
Qed.

(** C28: [CotpConnection_parseIncomingMessage] never reads or writes outside its
    buffers, whatever the bytes of the packet are; it only appends to the payload
    when it reports data, then exactly the bytes behind the header and never
    beyond the capacity, and leaves the payload alone on errors. *)
Theorem parseIncomingMessage_safe self :
  conn_wf self -> packet_ready self ->
  exists self' ind, parseIncomingMessage self = Some (self', ind) /\ conn_wf self' /\
    size (readBuffer self') = 0 /\ packetSize self' = 0 /\
    match ind with
    | COTP_DATA_INDICATION | COTP_MORE_FRAGMENTS_FOLLOW =>
        isLastDataUnit self' = bool_decide (ind = COTP_DATA_INDICATION) /\
        content (payload self') =
          content (payload self) ++ drop 7 (content (readBuffer self)) /\
        size (payload self') <= maxSize (payload self)
    | COTP_CONNECT_INDICATION | COTP_ERROR => payload self' = payload self
    | _ => False
    end.
Proof.
  intros Hw Hr. unfold parseIncomingMessage.
  destruct (parseCotpMessage_spec self Hw Hr) as (s & ind & -> & Hs & _ & Hm).
  cbn [mbind option_bind]. do 2 eexists. split; [done|]. split; [done|]. split; [done|].
  split; [done|]. destruct ind; naive_solver.
Qed.

(** A connection with the packet [packet] in its read buffer. *)
Definition ex_received (packet : list Z) : CotpConnection :=
  set_readBuffer (ByteBuffer_wrap (packet ++ replicate (300 - length packet) 0) (zlen packet) 300)
    ex_conn.

Lemma ex_received_ready packet :
  forallb (fun x => (0 <=? x) && (x <? 256)) packet = true -> 5 <= zlen packet <= 300 ->
  conn_wf (ex_received packet) /\ packet_ready (ex_received packet).
Proof.
  intros Hb Hl. apply is_bytes_dec in Hb.
  assert (Hr : is_bytes (replicate (300 - length packet) 0)) by (by apply Forall_replicate).
  split; [split_and!|split]; try done; try (by apply wf_dec);
    try (cbn [ex_received set_readBuffer readBuffer ByteBuffer_wrap buffer size];
         rewrite ?length_app, ?length_replicate; lia).
  - by apply Forall_app_2.
  - split; [by apply is_bytes_dec|done].
  - split; [by apply is_bytes_dec|done].
Qed.

(** An unfinished message, and a connect request with an over-long selector. *)
Lemma parseIncomingMessage_safe_witness :
  (exists self', parseIncomingMessage (ex_received [3; 0; 0; 10; 2; 0xf0; 0; 7; 8; 9]) =
     Some (self', COTP_MORE_FRAGMENTS_FOLLOW) /\ content (payload self') = [7; 8; 9]) /\
  (exists self', parseIncomingMessage
     (ex_received [3; 0; 0; 18; 13; 0xe0; 0; 0; 0; 1; 0; 0xc1; 5; 0; 1; 2; 3; 4]) =
     Some (self', COTP_ERROR) /\ content (payload self') = []).
Proof.
  split.
  - destruct (ex_received_ready [3; 0; 0; 10; 2; 0xf0; 0; 7; 8; 9]) as [H1 H2]; [done|done|].
    destruct (parseIncomingMessage_safe _ H1 H2) as (s & ind & E & _ & _ & _ & Hi).
    assert (ind = COTP_MORE_FRAGMENTS_FOLLOW) as -> by (vm_compute in E; congruence).
    exists s. split; [done|]. destruct Hi as (_ & -> & _). done.
  - destruct (ex_received_ready [3; 0; 0; 18; 13; 0xe0; 0; 0; 0; 1; 0; 0xc1; 5; 0; 1; 2; 3; 4])
      as [H1 H2]; [done|done|].
    destruct (parseIncomingMessage_safe _ H1 H2) as (s & ind & E & _ & _ & _ & Hi).
    assert (ind = COTP_ERROR) as -> by (vm_compute in E; congruence).
    exists s. split; [done|]. by rewrite Hi.
Defined.

(** ** Receiving packets from the stream *)

Definition rb_bytes (self : CotpConnection) (p : Z) : list Z :=
  take (Z.to_nat p) (buffer (readBuffer self)).

(** [self'] is [self] up to the socket, the contents of the read buffer and the
    expected packet size. *)
Definition read_only (self self' : CotpConnection) : Prop :=
  self' = set_packetSize (packetSize self') (set_readBuffer (readBuffer self')
            (set_socket (socket self') self)) /\
  maxSize (readBuffer self') = maxSize (readBuffer self) /\
  zlen (buffer (readBuffer self')) = zlen (buffer (readBuffer self)) /\
  is_bytes (buffer (readBuffer self')).

Lemma read_only_trans self1 self2 self3 :
  read_only self1 self2 -> read_only self2 self3 -> read_only self1 self3.
Proof.
  intros (E1 & H1 & H1' & _) (E2 & H2 & H2' & Hb). split; [|split_and!; congruence || done].
  rewrite E2 at 1. rewrite E1 at 1. by destruct self1.
Qed.

Lemma read_only_fields self self' : read_only self self' ->
  socketExtensionBufferFill self' = socketExtensionBufferFill self /\
  payload self' = payload self /\ tSelSrc self' = tSelSrc self /\ tSelDst self' = tSelDst self /\
  tpduSize self' = tpduSize self.
Proof. intros (E & _). rewrite E. by destruct self. Qed.

(** Every read hands over at least one byte, for as many reads as there are bytes. *)
Definition reads_progress (s : Socket) : Prop :=
  Forall (fun r => 1 <= r) (readResults s) /\ zlen (incoming s) <= zlen (readResults s).

(** A read appends what it got behind the bytes up to [p]. *)
Lemma readFromSocket_spec self p n :
  is_bytes (buffer (readBuffer self)) -> is_bytes (incoming (socket self)) ->
  0 <= p -> 1 <= n -> p + n <= zlen (buffer (readBuffer self)) ->
  exists self' k, readFromSocket self p n = Some (self', k) /\ read_only self self' /\
    packetSize self' = packetSize self /\ size (readBuffer self') = size (readBuffer self) /\
    -1 <= k <= n /\ incoming (socket self') = drop (Z.to_nat k) (incoming (socket self)) /\
    (0 <= k -> rb_bytes self' (p + k) = rb_bytes self p ++ take (Z.to_nat k) (incoming (socket self)) /\
       k <= zlen (incoming (socket self))) /\
    (reads_progress (socket self) ->
     reads_progress (socket self') /\ (incoming (socket self) <> [] -> 1 <= k) /\ 0 <= k).
Proof.
  intros Hb Hi Hp Hn Hfit. unfold readFromSocket, socket_read.
  set (r := default 0 (head (readResults (socket self)))).
  set (k := if decide (r < 0) then -1 else r `min` (n `min` zlen (incoming (socket self)))).
  assert (Hk : -1 <= k <= n /\ k <= zlen (incoming (socket self)))
    by (unfold k; case_decide; lia).
  set (xs := take (Z.to_nat k) (incoming (socket self))).
  assert (Hxl : zlen xs = Z.max 0 k) by (unfold xs; rewrite length_take; lia).
  assert (Hxb : is_bytes xs) by (by apply Forall_take).
  rewrite puts_splice by (done || lia). cbn [mbind option_bind].
  do 2 eexists. split; [done|]. split; [split_and!|]; try done.
  - cbn -[take drop]. rewrite !length_app, length_take, length_drop. lia.
  - cbn -[take drop]. apply Forall_app_2; [by apply Forall_take|].
    apply Forall_app_2; [done|by apply Forall_drop].
  - do 2 (split; [done|]). split; [lia|]. split; [done|]. split.
    + intros Hk0. split; [|lia]. unfold rb_bytes. cbn -[take drop].
      rewrite app_assoc, take_app_length'; [done|]. rewrite length_app, length_take. lia.
    + intros [HF Hlen]. unfold reads_progress. cbn -[take drop]. rewrite length_drop.
      unfold k, r in *. destruct (readResults (socket self)) as [|r0 rs]; cbn [head default] in *.
      * cbn [length] in Hlen. destruct (incoming (socket self)); [|cbn in Hlen; lia].
        change (default 0 None) with 0 in *. rewrite decide_False in * by lia. cbn.
        split_and!; try done; lia.
      * inversion HF; subst. rewrite decide_False in * by (cbn; lia). cbn [tail length] in *.
        unfold from_option, id in *. split; [split; [done|]|].
        -- lia.
        -- split; [|lia]. intros Hne. destruct (incoming (socket self)); [done|cbn [length]; lia].
Qed.

(** A TPKT packet announces its length. *)
Definition is_packet (F : list Z) : Prop :=
  exists body, F = [0x03; 0x00; zlen F / 256; zlen F mod 256] ++ body /\ 5 <= zlen F < 65536.

(** The first [p] bytes of the packet [F] are in the read buffer, the rest of it
    and then [rest] are to come. *)
Definition reading_at (self : CotpConnection) (p : Z) (F rest : list Z) : Prop :=
  let rb := readBuffer self in
  is_bytes (buffer rb) /\ is_bytes (incoming (socket self)) /\ zlen (buffer rb) = maxSize rb /\
  0 <= p < zlen F /\ zlen F <= maxSize rb /\ rb_bytes self p ++ incoming (socket self) = F ++ rest /\
  (4 <= p -> packetSize self = zlen F).

Definition reading (self : CotpConnection) (F rest : list Z) : Prop :=
  socketExtensionBufferFill self = 0 /\ reading_at self (size (readBuffer self)) F rest.

Definition tpkt_result (self self' : CotpConnection) (st : TpktState) (F rest : list Z) : Prop :=
  read_only self self' /\
  match st with
  | TPKT_PACKET_COMPLETE =>
      size (readBuffer self') = zlen F /\ content (readBuffer self') = F /\
      incoming (socket self') = rest
  | TPKT_WAITING => reading_at self' (size (readBuffer self')) F rest
  | TPKT_ERROR => size (readBuffer self') = 0
  end /\
  (reads_progress (socket self) ->
   st <> TPKT_ERROR /\ reads_progress (socket self') /\
   zlen (incoming (socket self')) < zlen (incoming (socket self))).

Lemma reading_at_bytes self p F rest :
  reading_at self p F rest -> zlen (rb_bytes self p) = p /\ incoming (socket self) <> [].
Proof.
  intros (_ & _ & Hl & Hp & HF & Hs & _).
  assert (Hz : zlen (rb_bytes self p) = p) by (unfold rb_bytes; rewrite length_take; lia).
  split; [done|]. intros He. rewrite He, app_nil_r in Hs.
  assert (H := f_equal length Hs). rewrite length_app in H. lia.
Qed.

(** One read of at most [n] bytes of the packet. *)
Lemma readFromSocket_reading self p n F rest :
  reading_at self p F rest -> 1 <= n -> p + n <= zlen F ->
  exists s k, readFromSocket self p n = Some (s, k) /\ read_only self s /\
    size (readBuffer s) = size (readBuffer self) /\ k <= n /\
    (0 <= k -> rb_bytes s (p + k) ++ incoming (socket s) = F ++ rest /\
       is_bytes (incoming (socket s)) /\ packetSize s = packetSize self) /\
    (reads_progress (socket self) -> reads_progress (socket s) /\ 1 <= k /\
       zlen (incoming (socket s)) < zlen (incoming (socket self))).
Proof.
  intros Hr Hn Hfit. destruct (reading_at_bytes _ _ _ _ Hr) as [_ Hne].
  destruct Hr as (Hb & Hi & Hl & Hp & HF & Hs & _).
  destruct (readFromSocket_spec self p n) as (s & k & E & Hro & Hps & Hsz & Hk & Hin & Happ & Hprog);
    try done; try lia.
  exists s, k. split_and!; try done; try lia.
  - intros Hk0. destruct (Happ Hk0) as [-> _]. rewrite Hin, <- app_assoc, take_drop.
    split_and!; try done. by apply Forall_drop.
  - intros HP. destruct (Hprog HP) as (HP' & Hk1 & _). specialize (Hk1 Hne).
    split_and!; try done. rewrite Hin, length_drop.
    destruct (incoming (socket self)); [done|]. cbn [length]. lia.
Qed.

Lemma read_only_setSize self s n : read_only self s -> read_only self (set_readSize n s).
Proof. intros (E & H). split; [|done]. rewrite E at 1. by destruct self. Qed.

Lemma readPacketBody_spec self p F rest :
  reading_at self p F rest -> 4 <= p ->
  exists self' st, readPacketBody self p = Some (self', st) /\ tpkt_result self self' st F rest.
Proof.
  intros Hr Hp4. unfold readPacketBody.
  destruct (Hr) as (Hb & Hi & Hl & Hp & HF & Hs & Hps). rewrite (Hps Hp4).
  rewrite decide_False by lia.
  destruct (readFromSocket_reading self p (zlen F - p) F rest)
    as (s & k & -> & Hro & Hsz & Hk & Happ & Hprog); try done; try lia.
  cbn [mbind option_bind]. destruct (Hro) as (_ & Hm' & Hl' & Hb'). case_decide as Hneg.
  { do 2 eexists. split; [done|]. split; [by apply read_only_setSize|]. split; [done|].
    intros HP. destruct (Hprog HP). lia. }
  destruct (Happ ltac:(lia)) as (Hst & Hib & Hpk). rewrite Hpk, (Hps Hp4). case_decide as Hw.
  - do 2 eexists. split; [done|]. split; [by apply read_only_setSize|]. split.
    + split_and!; try done; cbn; try lia; congruence.
    + intros HP. destruct (Hprog HP) as (? & ? & ?). by split_and!.
  - assert (Hpk' : p + k = zlen F) by lia. rewrite Hpk' in *.
    assert (Hz : length (rb_bytes s (zlen F)) = length F)
      by (unfold rb_bytes; rewrite length_take; lia).
    apply app_inj_1 in Hst as [HF' Hrest]; [|done].
    do 2 eexists. split; [done|]. split; [by apply read_only_setSize|]. split; [by split_and!|].
    intros HP. destruct (Hprog HP) as (? & ? & ?). by split_and!.
Qed.

Lemma rb_lookup self p F rest i : reading_at self p F rest -> 0 <= i < p ->
  rd (buffer (readBuffer self)) i = rd F i.
Proof.
  intros Hr Hi. destruct (reading_at_bytes _ _ _ _ Hr) as [Hz _].
  destruct Hr as (_ & _ & _ & Hp & _ & Hs & _).
  rewrite <- (rd_take _ (Z.to_nat p)) by lia. fold (rb_bytes self p).
  rewrite <- (rd_app_l (rb_bytes self p) (incoming (socket self))) by lia.
  rewrite Hs. by apply rd_app_l; lia.
Qed.

Lemma tpkt_result_step self s self' st F rest :
  read_only self s -> zlen (incoming (socket s)) <= zlen (incoming (socket self)) ->
  (reads_progress (socket self) -> reads_progress (socket s)) ->
  tpkt_result s self' st F rest -> tpkt_result self self' st F rest.
Proof.
  intros Hro Hin Hp (Hro' & Hst & Hpr). split; [by eapply read_only_trans|]. split; [done|].
  intros H. destruct (Hpr (Hp H)) as (? & ? & ?). split_and!; try done. lia.
Qed.

(** The four octets of the TPKT header when they have been read. *)
Lemma packet_header self F rest :
  is_packet F -> reading_at self 4 F rest ->
  let b := buffer (readBuffer self) in
  rd b 0 = Some 3 /\ rd b 1 = Some 0 /\ rd b 2 = Some (zlen F / 256) /\ rd b 3 = Some (zlen F mod 256).
Proof.
  intros (body & EF & _) Hr. cbn zeta.
  rewrite !(rb_lookup _ _ _ _ _ Hr) by lia. rewrite EF at 1 2 3 5. by split_and!.
Qed.

Lemma readToTpktBuffer_spec self F rest :
  is_packet F -> reading self F rest ->
  exists self' st, readToTpktBuffer self = Some (self', st) /\ tpkt_result self self' st F rest.
Proof.
  intros HF [Hfill Hr]. unfold readToTpktBuffer. rewrite Hfill.
  rewrite decide_False by lia. cbn [mbind option_bind negb]. rewrite Hfill.
  rewrite decide_False by lia. assert (HF' : 5 <= zlen F < 65536) by (by destruct HF as (? & _ & ?)).
  case_decide as H4; [|apply readPacketBody_spec; [done|lia]].
  set (p := size (readBuffer self)) in *.
  destruct (readFromSocket_reading self p (4 - p) F rest)
    as (s & k & -> & Hro & Hsz & Hk & Happ & Hprog); try done; try lia.
  cbn [mbind option_bind]. destruct (Hro) as (_ & Hm & Hl & Hb). case_decide as Hneg.
  { do 2 eexists. split; [done|]. split; [by apply read_only_setSize|]. split; [done|].
    intros HP. destruct (Hprog HP). lia. }
  destruct (Happ ltac:(lia)) as (Hst & Hib & Hpk).
  destruct (Hr) as (_ & _ & Hlen & Hp & HFm & _).
  assert (Hrs : forall n, reading_at (set_packetSize n s) (p + k) F rest \/ n <> zlen F).
  { intros n. destruct (decide (n = zlen F)) as [->|]; [left|by right].
    split_and!; try done; cbn; lia. }
  case_decide as Hfull.
  - destruct (Hrs (zlen F)) as [Hr4|]; [|done]. rewrite Hfull in Hr4 |- *.
    destruct (packet_header _ F rest HF Hr4) as (E0 & E1 & E2 & E3).
    cbn [set_packetSize readBuffer] in E0, E1, E2, E3. rewrite E0. cbn [mbind option_bind].
    rewrite decide_True, E1 by done. cbn [mbind option_bind]. rewrite bool_decide_eq_true_2 by done.
    rewrite E2, E3. cbn [mbind option_bind].
    assert (u16 (zlen F / 256 * 256 + zlen F mod 256) = zlen F) as -> by zlia.
    cbn [set_packetSize packetSize]. rewrite decide_False by lia.
    destruct (readPacketBody_spec (set_packetSize (zlen F) s) 4 F rest) as (s' & st & E & Ht);
      [done|lia|].
    exists s', st. split; [exact E|]. eapply (tpkt_result_step self _ s'); [| | |exact Ht].
    + destruct Hro as (EQ & Hrest). split; [|done]. rewrite EQ at 1. by destruct self.
    + destruct (reading_at_bytes _ _ _ _ Hr4). destruct (reading_at_bytes _ _ _ _ Hr) as [Hz _].
      cbn [set_packetSize socket]. destruct Hr as (_ & _ & _ & _ & _ & Hs & _).
      assert (HL := f_equal length Hs). rewrite <- Hst, !length_app in HL.
      cbn [set_packetSize] in *. unfold rb_bytes in *. rewrite !length_take in *. lia.
    + intros HP. by destruct (Hprog HP).
  - do 2 eexists. split; [done|]. split; [by apply read_only_setSize|]. split.
    + split_and!; try done; cbn; try lia.
    + intros HP. destruct (Hprog HP) as (? & ? & ?). by split_and!.
Qed.

(** A data packet in the read buffer. *)
Lemma parse_frame self last chunk :
  conn_wf self -> packet_ready self -> content (readBuffer self) = frame last chunk ->
  chunk <> [] -> size (payload self) + zlen chunk <= maxSize (payload self) ->
  exists pl, parseIncomingMessage self =
      Some (set_packetSize 0 (set_readSize 0 (set_payload pl (set_isLastDataUnit last self))),
            if last then COTP_DATA_INDICATION else COTP_MORE_FRAGMENTS_FOLLOW) /\
    wf pl /\ maxSize pl = maxSize (payload self) /\ content pl = content (payload self) ++ chunk.
Proof.
  intros Hw [Hbig Hs] Hc Hne Hfit. unfold parseIncomingMessage, parseCotpMessage.
  set (rb := readBuffer self) in *.
  assert (Hsz : size rb = 7 + zlen chunk).
  { rewrite <- (frame_length last chunk), <- Hc. unfold content. rewrite length_take. lia. }
  assert (Hrd : forall i, 0 <= i < 7 -> rd (buffer rb) i = rd (frame last chunk) i).
  { intros i Hi. rewrite <- Hc. unfold content. rewrite rd_take by lia. done. }
  assert (Hch : 1 <= zlen chunk) by (destruct chunk; [done|cbn [length]; lia]).
  assert (E4 : rd (buffer rb) 4 = Some 2) by (by rewrite Hrd by lia).
  assert (E5 : rd (buffer rb) 5 = Some 0xf0) by (by rewrite Hrd by lia).
  assert (E6 : rd (buffer rb) 6 = Some (if last then 0x80 else 0)) by (by rewrite Hrd by lia).
  rewrite E4. cbn [mbind option_bind]. rewrite decide_False by lia.
  rewrite E5. cbn [mbind option_bind]. rewrite decide_False, decide_False, decide_True by lia.
  unfold parseDataTpdu, getUint8. rewrite decide_False by lia. rewrite E6. cbn [mbind option_bind].
  assert (HL : bool_decide (Z.land (if last then 128 else 0) 0x80 <> 0) = last) by (by destruct last).
  rewrite HL. set (s1 := set_isLastDataUnit last self).
  destruct (addPayload_fits s1 (size rb - 4 - 3)) as (pl & E & Hpl & Hm & Hcp);
    [done|cbn; change (readBuffer self) with rb; lia|cbn; change (readBuffer self) with rb; lia|lia|
     cbn; lia|].
  cbn [s1 set_isLastDataUnit readBuffer] in E. fold s1 rb in E. rewrite E. cbn [mbind option_bind].
  exists pl. split; [by destruct last|]. split; [done|]. split; [done|].
  rewrite Hcp. cbn -[content]. change (readBuffer self) with rb. by rewrite Hc.
Qed.

Lemma frame_packet last chunk :
  chunk <> [] -> zlen chunk <= 65000 -> is_packet (frame last chunk).
Proof.
  intros Hne Hl. exists ([0x02; 0xf0; if last then 0x80 else 0x00] ++ chunk).
  rewrite !frame_length. assert (1 <= zlen chunk) by (destruct chunk; [done|cbn [length]; lia]).
  split; [|lia]. unfold frame. rewrite Z.quot_div_nonneg by lia.
  change 0xff with (Z.ones 8). by rewrite Z.land_ones by lia.
Qed.

(** One round of the receiving side, as in [IsoConnection_handleTcpConnection]:
    read from the stream and parse the packet when it is complete. *)
Definition tick (self : CotpConnection) : option (CotpConnection * option CotpIndication) :=
  '(self, tpktState) ← readToTpktBuffer self;
  match tpktState with
  | TPKT_ERROR => Some (self, Some COTP_ERROR)
  | TPKT_WAITING => Some (self, None)
  | TPKT_PACKET_COMPLETE =>
      '(self, ind) ← parseIncomingMessage self;
      match ind with
      | COTP_MORE_FRAGMENTS_FOLLOW => Some (self, None)
      | _ => Some (self, Some ind)
      end
  end.

(** Rounds until there is an indication for the upper layer. *)
Fixpoint receive (fuel : nat) (self : CotpConnection)
    : option (CotpConnection * CotpIndication) :=
  match fuel with
  | O => None
  | S fuel =>
      '(self, ind) ← tick self;
      match ind with None => receive fuel self | Some ind => Some (self, ind) end
  end.

(** Rounds until a packet is complete. *)
Lemma receive_packet F rest fuel : forall self,
  is_packet F -> reading self F rest -> reads_progress (socket self) ->
  zlen (incoming (socket self)) <= Z.of_nat fuel ->
  exists fuel' s, zlen rest <= Z.of_nat fuel' /\ read_only self s /\
    size (readBuffer s) = zlen F /\ content (readBuffer s) = F /\
    incoming (socket s) = rest /\ reads_progress (socket s) /\
    forall s' ind, parseIncomingMessage s = Some (s', ind) ->
      receive fuel self = if decide (ind = COTP_MORE_FRAGMENTS_FOLLOW) then receive fuel' s'
                          else Some (s', ind).
Proof.
  induction fuel as [|fuel IH]; intros self HF Hr Hp Hfuel.
  { destruct (reading_at_bytes _ _ _ _ (proj2 Hr)) as [_ Hne].
    destruct (incoming (socket self)); [done|cbn [length] in Hfuel; lia]. }
  destruct (readToTpktBuffer_spec self F rest HF Hr) as (s & st & E & Hro & Hst & Hprog).
  destruct (Hprog Hp) as (Hnerr & Hp' & Hlt). cbn [receive]. unfold tick. rewrite E.
  cbn [mbind option_bind]. destruct st; [| |done].
  - destruct Hst as (Hsz & Hc & Hin). exists fuel, s. split_and!; try done.
    + rewrite <- Hin. lia.
    + intros s' ind ->. cbn [mbind option_bind]. by destruct ind.
  - destruct (IH s) as (fuel' & s1 & Hf' & Hro1 & Hs1); [done| |done|lia|].
    { split; [|done]. destruct (read_only_fields _ _ Hro) as (-> & _). apply Hr. }
    cbn [mbind option_bind]. exists fuel', s1. split; [done|]. split; [by eapply read_only_trans|done].
Qed.

(** The receiving side between two packets. *)
Definition idle (self : CotpConnection) : Prop :=
  conn_wf self /\ socketExtensionBufferFill self = 0 /\ size (readBuffer self) = 0 /\
  261 <= maxSize (readBuffer self) /\ zlen (buffer (readBuffer self)) = maxSize (readBuffer self) /\
  is_bytes (incoming (socket self)) /\ reads_progress (socket self).

Lemma idle_reading self F rest :
  idle self -> is_packet F -> zlen F <= maxSize (readBuffer self) ->
  incoming (socket self) = F ++ rest -> reading self F rest.
Proof.
  intros (Hw & Hf & Hs & Hm & Hl & Hb & Hp) (body & _ & HF) HFm Hi. split; [done|].
  unfold reading_at, rb_bytes. rewrite Hs, Hi in *. change (Z.to_nat 0) with 0%nat.
  split_and!; try done; try lia. apply Hw.
Qed.

Lemma read_only_conn_wf self s : read_only self s -> conn_wf self -> conn_wf s.
Proof.
  intros Hro (Hw1 & Hw2 & Hw3 & Hw4 & Hw5).
  destruct (read_only_fields _ _ Hro) as (_ & Hpay & Hsrc & Hdst & Ht).
  unfold conn_wf. rewrite Hpay, Hsrc, Hdst, Ht. destruct Hro as (_ & _ & _ & Hb). tauto.
Qed.

(** One data packet. *)
Lemma receive_frame self last chunk rest fuel :
  idle self -> chunk <> [] -> zlen chunk <= 65000 -> 7 + zlen chunk <= maxSize (readBuffer self) ->
  size (payload self) + zlen chunk <= maxSize (payload self) ->
  incoming (socket self) = frame last chunk ++ rest ->
  zlen (incoming (socket self)) <= Z.of_nat fuel ->
  exists s fuel', receive fuel self =
      (if last then Some (s, COTP_DATA_INDICATION) else receive fuel' s) /\
    idle s /\ zlen rest <= Z.of_nat fuel' /\ incoming (socket s) = rest /\
    maxSize (readBuffer s) = maxSize (readBuffer self) /\
    maxSize (payload s) = maxSize (payload self) /\
    content (payload s) = content (payload self) ++ chunk.
Proof.
  intros Hidle Hne Hlc Hm Hfit Hi Hfuel.
  assert (HF := frame_packet last chunk Hne Hlc). assert (Hfl := frame_length last chunk).
  assert (Hr : reading self (frame last chunk) rest) by (apply idle_reading; done || lia).
  destruct Hidle as (Hw & Hf & Hs & Hm1 & Hl & Hb & Hp).
  destruct (receive_packet _ rest fuel self HF Hr Hp Hfuel)
    as (fuel' & s & Hf' & Hro & Hsz & Hc & Hin & Hp' & Hrec).
  destruct (read_only_fields _ _ Hro) as (Hfill & Hpay & Hsrc & Hdst & Ht).
  destruct (Hro) as (_ & Hmm & Hll & Hbb). apply (read_only_conn_wf _ _ Hro) in Hw.
  destruct (parse_frame s last chunk) as (pl & E & Hpl & Hpm & Hpc); try done; rewrite ?Hpay; try done.
  { split; lia. }
  rewrite Hpay in Hpm, Hpc. rewrite (Hrec _ _ E). eexists _, fuel'.
  split; [by destruct last|]. split.
  - destruct Hw as (_ & Hw). split; [by split|]. cbn. split; [congruence|]. split; [done|].
    split; [lia|]. split; [lia|]. split; [|done]. rewrite Hin. rewrite Hi in Hb.
    by apply Forall_app in Hb as [_ Hb].
  - by split_and!.
Qed.

Lemma receive_frames fps n : forall self bs rest fuel,
  0 < Z.of_nat fps <= 8192 -> n <> 0%nat -> Z.of_nat (n - 1) * Z.of_nat fps < zlen bs ->
  zlen bs <= Z.of_nat n * Z.of_nat fps -> idle self ->
  7 + Z.of_nat fps <= maxSize (readBuffer self) ->
  size (payload self) + zlen bs <= maxSize (payload self) ->
  incoming (socket self) = frames n fps bs ++ rest ->
  zlen (incoming (socket self)) <= Z.of_nat fuel ->
  exists s, receive fuel self = Some (s, COTP_DATA_INDICATION) /\ idle s /\
    incoming (socket s) = rest /\ content (payload s) = content (payload self) ++ bs.
Proof.
  induction n as [|n IH]; [done|]. intros self bs rest fuel Hfps _ Hlo Hhi Hid Hm Hfit Hi Hfuel.
  cbn [frames] in Hi. destruct n as [|n].
  - destruct (receive_frame self true bs rest fuel)
      as (s & fuel' & -> & Hs & _ & Hin & _ & _ & Hc); try done; try lia.
    { by destruct bs. }
    by exists s.
  - rewrite <- app_assoc in Hi.
    assert (Hlen : length (take fps bs) = fps) by (rewrite length_take; nia).
    destruct (receive_frame self false (take fps bs) (frames (S n) fps (drop fps bs) ++ rest) fuel)
      as (s & fuel' & -> & Hs & Hf' & Hin & Hmr & Hmp & Hc); try done; try lia.
    { intros H. rewrite H in Hlen. cbn in Hlen. lia. }
    assert (Hsz : size (payload s) = size (payload self) + Z.of_nat fps).
    { rewrite <- !content_length by (apply Hs || apply Hid). rewrite Hc, length_app. lia. }
    destruct (IH s (drop fps bs) rest fuel') as (s' & -> & Hs' & Hin' & Hc'); try done;
      rewrite ?length_drop; try nia;
      [by rewrite Hin|].
    exists s'. split_and!; try done. by rewrite Hc', Hc, <- app_assoc, take_drop.
Qed.

Lemma fragmentCount_last len fps : 0 < fps -> 0 < len -> (fragmentCount len fps - 1) * fps < len.
Proof.
  intros Hf Hl. unfold fragmentCount. case_decide as Hbig; [|lia].
  rewrite Z.quot_div_nonneg, Z.rem_mod_nonneg by lia.
  pose proof (Z.div_mod len fps). pose proof (Z.mod_pos_bound len fps). case_decide; nia.
Qed.

(** C27: Whatever the sizes of the pieces in which the TCP stream delivers a
    packet, [CotpConnection_readToTpktBuffer] reports it complete exactly when all
    of its bytes are in the read buffer, leaves the bytes of the following packets
    in the stream, and otherwise remembers how far it got; it fails only on a read
    error, and every call makes progress when each read delivers something. *)
Theorem readToTpktBuffer_framing self F rest :
  is_packet F -> reading self F rest ->
  exists self' st, readToTpktBuffer self = Some (self', st) /\
    match st with
    | TPKT_PACKET_COMPLETE =>
        content (readBuffer self') = F /\ incoming (socket self') = rest
    | TPKT_WAITING => reading self' F rest
    | TPKT_ERROR => size (readBuffer self') = 0 /\ ~ reads_progress (socket self)
    end /\
    (reads_progress (socket self) ->
     zlen (incoming (socket self')) < zlen (incoming (socket self))).
Proof.
  intros HF Hr. destruct (readToTpktBuffer_spec self F rest HF Hr) as (s & st & E & Hro & Hst & Hp).
  exists s, st. split; [done|]. split; [|intros H; by apply Hp]. destruct st.
  - by destruct Hst as (_ & ? & ?).
  - split; [|done]. destruct (read_only_fields _ _ Hro) as (-> & _). apply Hr.
  - split; [done|]. intros H. by destruct (Hp H).
Qed.


(** A receiver that gets the stream in pieces of three and two bytes. *)
Definition ex_receiver (stream : list Z) : CotpConnection :=
  set_socket {| sent := []; writeResults := []; incoming := stream;
                readResults := concat (replicate (length stream) [3; 2]) |} ex_conn.

Lemma ex_receiver_idle stream :
  forallb (fun x => (0 <=? x) && (x <? 256)) stream = true -> idle (ex_receiver stream).
Proof.
  intros Hb. apply is_bytes_dec in Hb. unfold idle.
  split; [|split_and!; try done]; [split_and!; try (by apply wf_dec); try done|..].
  - split; [by apply is_bytes_dec|done].
  - split; [by apply is_bytes_dec|done].
  - unfold reads_progress. cbn [ex_receiver set_socket socket readResults incoming]. split.
    + apply Forall_concat, Forall_replicate. repeat constructor; lia.
    + clear Hb. induction stream as [|x xs IH]; [done|].
      cbn [length replicate concat app] in *. lia.
Qed.

Lemma readToTpktBuffer_framing_witness :
  exists self', readToTpktBuffer (ex_receiver (frame true [7; 8; 9] ++ [1; 2])) =
      Some (self', TPKT_WAITING) /\ reading self' (frame true [7; 8; 9]) [1; 2].
Proof.
  assert (HF : is_packet (frame true [7; 8; 9])) by (by apply frame_packet).
  destruct (readToTpktBuffer_framing (ex_receiver (frame true [7; 8; 9] ++ [1; 2]))
    (frame true [7; 8; 9]) [1; 2] HF) as (s & st & E & Hst & _).
  { apply idle_reading; [by apply ex_receiver_idle|done|by vm_compute|done]. }
  assert (st = TPKT_WAITING) as -> by (vm_compute in E; congruence). by exists s.
Defined.


(** ** Connection establishment *)

Definition sel_bytes (code : Z) (sel : TSelector) : list Z :=
  if decide (tselSize sel <> 0)
  then [code; tselSize sel] ++ take (Z.to_nat (tselSize sel)) (tselValue sel) else [].

Definition option_bytes (self : CotpConnection) : list Z :=
  (if decide (tpduSize self <> 0) then [0xc0; 0x01; tpduSize self] else []) ++
  sel_bytes 0xc2 (tSelDst self) ++ sel_bytes 0xc1 (tSelSrc self).

Lemma sel_bytes_length code sel : sel_wf sel ->
  zlen (sel_bytes code sel) = (if decide (tselSize sel <> 0) then 2 + tselSize sel else 0).
Proof.
  intros (_ & Hl & Hs). unfold sel_bytes. case_decide; [|done].
  rewrite length_app, length_take. cbn [length]. lia.
Qed.

Lemma option_bytes_length self : sel_wf (tSelDst self) -> sel_wf (tSelSrc self) ->
  zlen (option_bytes self) = getOptionsLength self.
Proof.
  intros Hd Hs. unfold option_bytes, getOptionsLength.
  rewrite !length_app, !Nat2Z.inj_add, !sel_bytes_length by done. repeat case_decide; cbn; lia.
Qed.

Lemma getOptionsLength_bounds self : sel_wf (tSelDst self) -> sel_wf (tSelSrc self) ->
  0 <= getOptionsLength self <= 15.
Proof. intros (_ & _ & Hd) (_ & _ & Hs). unfold getOptionsLength. repeat case_decide; lia. Qed.

Lemma option_bytes_bytes self : sel_wf (tSelDst self) -> sel_wf (tSelSrc self) ->
  0 <= tpduSize self <= 13 -> is_bytes (option_bytes self).
Proof.
  assert (Hsel : forall c sel, is_u8 c -> sel_wf sel -> is_bytes (sel_bytes c sel)).
  { intros c sel Hc (Hb & _ & Hs). unfold sel_bytes. case_decide; [|constructor].
    apply Forall_app_2; [|by apply Forall_take]. repeat constructor; unfold is_u8 in *; lia. }
  intros Hd Hs Ht. unfold option_bytes. apply Forall_app_2; [|apply Forall_app_2; apply Hsel; done].
  case_decide; [|constructor]. repeat constructor; lia.
Qed.

Lemma writeTSelector_puts code sel b p : sel_wf sel ->
  writeTSelector code sel b p = puts b p (sel_bytes code sel).
Proof.
  intros (_ & Hl & Hs). unfold writeTSelector, sel_bytes. case_decide as Hn; [|done].
  rewrite puts_app. destruct (puts b p _) as [[b' p']|]; [|done]. cbn [mbind option_bind].
  apply copy_at_Z; [apply bytes_at_take, bytes_at_0|]. rewrite length_take. lia.
Qed.

Lemma writeOptions_puts self wb : writeBuffer self = Some wb ->
  sel_wf (tSelDst self) -> sel_wf (tSelSrc self) ->
  writeOptions self = '(b, p) ← puts (buffer wb) (size wb) (option_bytes self);
                      Some (set_writeBuffer (Some (with_buffer wb b p)) self).
Proof.
  intros Hwb Hd Hs. unfold writeOptions, option_bytes. rewrite Hwb. cbn [mbind option_bind].
  rewrite puts_app. case_decide; [|cbn [puts]].
  - destruct (puts (buffer wb) (size wb) _) as [[b p]|]; [|done]. cbn [mbind option_bind].
    rewrite puts_app, writeTSelector_puts by done.
    destruct (puts b p _) as [[b1 p1]|]; [|done]. cbn [mbind option_bind].
    by rewrite writeTSelector_puts.
  - cbn [mbind option_bind]. rewrite puts_app, writeTSelector_puts by done.
    destruct (puts _ _ _) as [[b1 p1]|]; [|done]. cbn [mbind option_bind].
    by rewrite writeTSelector_puts.
Qed.

(** A connect request or confirm packet with the given TPDU code, references and
    class, followed by the options. *)
Definition connect_packet (code dst src class : Z) (options : list Z) : list Z :=
  let len := 11 + zlen options in
  [0x03; 0x00; Z.quot len 0x100; Z.land len 0xff] ++
  [6 + zlen options; code; Z.quot dst 0x100; Z.land dst 0xff; Z.quot src 0x100; Z.land src 0xff;
   class] ++ options.

Lemma connect_packet_length code dst src class options :
  zlen (connect_packet code dst src class options) = 11 + zlen options.
Proof. unfold connect_packet. cbn [app length]. lia. Qed.

Lemma u16_bytes z : is_u16 z -> is_u8 (Z.quot z 0x100) /\ is_u8 (Z.land z 0xff) /\
  Z.quot z 0x100 * 0x100 + Z.land z 0xff = z.
Proof.
  intros Hz. change 0xff with (Z.ones 8). rewrite Z.land_ones by lia.
  unfold is_u16 in Hz. rewrite Z.quot_div_nonneg by lia. change (2 ^ 8) with 256.
  split_and!; zlia.
Qed.

Lemma connect_packet_bytes code dst src class options :
  is_u8 code -> is_u16 dst -> is_u16 src -> is_u8 class -> is_bytes options -> zlen options <= 15 ->
  is_bytes (connect_packet code dst src class options).
Proof.
  intros Hc Hd Hs Hcl Ho Hl. unfold connect_packet. cbn zeta.
  destruct (u16_bytes dst Hd) as (? & ? & _). destruct (u16_bytes src Hs) as (? & ? & _).
  destruct (u16_bytes (11 + zlen options)) as (? & ? & _); [unfold is_u16; lia|].
  repeat (apply Forall_cons; split; [first [done | unfold is_u8; lia]|]). done.
Qed.

(** A packet assembled in the write buffer and sent. *)
Lemma send_packet self wb xs b :
  ext_wf self -> wf wb -> is_bytes xs -> zlen xs <= maxSize wb ->
  (is_Some (socketExtensionBuffer self) ->
   socketExtensionBufferFill self + zlen xs <= socketExtensionBufferSize self) ->
  puts (buffer wb) 0 xs = Some (b, zlen xs) ->
  exists self' ok, sendBuffer (set_writeBuffer (Some (with_buffer wb b (zlen xs))) self) =
      Some (self', ok) /\ same_writeBuffer wb self' /\ handed_over self self' xs ok.
Proof.
  intros He Hw Hx Hl Hroom Hp.
  destruct (puts_content (with_buffer wb (buffer wb) 0) xs b (zlen xs)) as (_ & Hwf & Hc).
  { destruct Hw as (? & ? & ?). split_and!; cbn; try done; lia. }
  { done. } { cbn. lia. } { done. }
  set (wb' := with_buffer wb b (zlen xs)). set (s := set_writeBuffer (Some wb') self).
  destruct (sendBuffer_spec s wb') as (s' & ok & E & Hsw & Hh & _); try done.
  exists s', ok. split; [done|]. split; [exact Hsw|]. assert (Hc' : content wb' = xs) by exact Hc.
  rewrite Hc' in Hh. exact Hh.
Qed.

(** The three parts of a connect packet are written one after the other. *)
Lemma connect_packet_parts wb code dst src class options :
  wf wb -> 11 + zlen options <= maxSize wb ->
  exists b1 b2 b,
    puts (buffer wb) 0 [0x03; 0x00; Z.quot (11 + zlen options) 0x100; Z.land (11 + zlen options) 0xff]
      = Some (b1, 4) /\
    puts b1 4 [6 + zlen options; code; Z.quot dst 0x100; Z.land dst 0xff; Z.quot src 0x100;
               Z.land src 0xff; class] = Some (b2, 11) /\
    puts b2 11 options = Some (b, 11 + zlen options) /\
    puts (buffer wb) 0 (connect_packet code dst src class options) = Some (b, 11 + zlen options).
Proof.
  intros (_ & Hs & Hl) Hm. set (xs := connect_packet code dst src class options).
  assert (Hxl : zlen xs = 11 + zlen options) by apply connect_packet_length.
  destruct (puts_Some (buffer wb) 0 xs) as [b Hp]; [lia..|]. rewrite Hxl in Hp.
  assert (Hp' := Hp). unfold xs, connect_packet in Hp. cbn zeta in Hp. rewrite puts_app in Hp.
  destruct (puts (buffer wb) 0 _) as [[b1 p1]|] eqn:E1; [|done].
  cbn [mbind option_bind] in Hp. rewrite puts_app in Hp.
  destruct (puts b1 p1 _) as [[b2 p2]|] eqn:E2; [|done]. cbn [mbind option_bind] in Hp.
  destruct (puts_inv _ _ _ _ _ E1) as (-> & _). destruct (puts_inv _ _ _ _ _ E2) as (-> & _).
  exists b1, b2, b. by split_and!.
Qed.

(** The connect request that [sendConnectionRequestMessage] hands over. *)
Lemma sendConnectionRequest_spec m1 m2 self wb dst src :
  let s1 := set_tSelSrc src (set_tSelDst dst self) in
  sel_wf dst -> sel_wf src -> 0 <= tpduSize self <= 13 -> is_u16 (localRef self) ->
  writeBuffer self = Some wb -> wf wb -> 26 <= maxSize wb -> ext_wf self ->
  (is_Some (socketExtensionBuffer self) ->
   socketExtensionBufferFill self + 26 <= socketExtensionBufferSize self) ->
  exists self' ok, sendConnectionRequestMessage m1 m2 self dst src =
      Some (self', if ok : bool then COTP_OK else COTP_ERROR) /\
    handed_over s1 self' (connect_packet 0xe0 0 (localRef self) 0 (option_bytes s1)) ok.
Proof.
  intros s1 Hd Hs Ht Hr Hwb Hw Hm He Hroom. unfold sendConnectionRequestMessage, allocateWriteBuffer.
  rewrite Hwb. fold s1. assert (Hwb1 : writeBuffer s1 = Some wb) by done. rewrite Hwb1.
  cbn [mbind option_bind]. assert (Hol := option_bytes_length s1 Hd Hs).
  assert (Hob := getOptionsLength_bounds s1 Hd Hs). rewrite <- Hol in Hob |- *.
  rewrite decide_False by lia.
  destruct (connect_packet_parts wb 0xe0 0 (localRef self) 0 (option_bytes s1))
    as (b1 & b2 & b & E1 & E2 & E3 & E); [done|lia|].
  destruct (send_packet s1 wb (connect_packet 0xe0 0 (localRef self) 0 (option_bytes s1)) b)
    as (s' & ok & Es & _ & Hh); rewrite ?connect_packet_length; try done; try lia.
  { apply connect_packet_bytes; try done; [|lia]. by apply option_bytes_bytes. }
  { intros H. specialize (Hroom H). cbn. lia. }
  rewrite connect_packet_length in Es. unfold writeRfc1006Header. rewrite Hwb1.
  replace (zlen (option_bytes s1) + 6 + 5) with (11 + zlen (option_bytes s1)) by lia.
  replace (zlen (option_bytes s1) + 6) with (6 + zlen (option_bytes s1)) by lia.
  cbn [mbind option_bind]. rewrite E1. cbn [mbind option_bind set_writeBuffer writeBuffer].
  cbn [buffer with_buffer localRef s1 set_tSelSrc set_tSelDst].
  change (Z.quot 0 0x100) with 0 in E2. change (Z.land 0 0xff) with 0 in E2. 
  change (localRef (set_writeBuffer _ s1)) with (localRef self). rewrite E2.
  cbn [mbind option_bind].
  erewrite writeOptions_puts; [|reflexivity|exact Hd|exact Hs]. cbn [buffer with_buffer size].
  change (option_bytes _) with (option_bytes s1). rewrite E3. cbn [mbind option_bind].
  exists s', ok. split; [|exact Hh].
  transitivity (sendResult <$> sendBuffer
    (set_writeBuffer (Some (with_buffer wb b (11 + zlen (option_bytes s1)))) s1)); [done|].
  by rewrite Es.
Qed.

(** The same for the connect confirm. *)
Lemma sendConnectionResponse_spec m1 m2 self wb :
  sel_wf (tSelDst self) -> sel_wf (tSelSrc self) -> 0 <= tpduSize self <= 13 ->
  is_u16 (localRef self) -> is_u16 (remoteRef self) -> is_u8 (protocolClass self) ->
  writeBuffer self = Some wb -> wf wb -> 26 <= maxSize wb -> ext_wf self ->
  (is_Some (socketExtensionBuffer self) ->
   socketExtensionBufferFill self + 26 <= socketExtensionBufferSize self) ->
  exists self' ok, sendConnectionResponseMessage m1 m2 self =
      Some (self', if ok : bool then COTP_OK else COTP_ERROR) /\ same_writeBuffer wb self' /\
    handed_over self self' (connect_packet 0xd0 (remoteRef self) (localRef self)
      (protocolClass self) (option_bytes self)) ok.
Proof.
  intros Hd Hs Ht Hr Hrr Hpc Hwb Hw Hm He Hroom.
  unfold sendConnectionResponseMessage, allocateWriteBuffer. rewrite Hwb, Hwb.
  cbn [mbind option_bind]. assert (Hol := option_bytes_length self Hd Hs).
  assert (Hob := getOptionsLength_bounds self Hd Hs). rewrite <- Hol in Hob |- *.
  rewrite decide_False by lia.
  destruct (connect_packet_parts wb 0xd0 (remoteRef self) (localRef self) (protocolClass self)
    (option_bytes self)) as (b1 & b2 & b & E1 & E2 & E3 & E); [done|lia|].
  destruct (send_packet self wb (connect_packet 0xd0 (remoteRef self) (localRef self)
    (protocolClass self) (option_bytes self)) b)
    as (s' & ok & Es & Hsw & Hh); rewrite ?connect_packet_length; try done; try lia.
  { apply connect_packet_bytes; try done; [|lia]. by apply option_bytes_bytes. }
  { intros H. specialize (Hroom H). lia. }
  rewrite connect_packet_length in Es.
  unfold writeRfc1006Header, writeStaticConnectResponseHeader. rewrite Hwb.
  cbn [mbind option_bind]. rewrite E1. cbn [mbind option_bind set_writeBuffer writeBuffer].
  cbn [buffer with_buffer localRef remoteRef protocolClass]. 
  change (localRef (set_writeBuffer _ self)) with (localRef self).
  change (remoteRef (set_writeBuffer _ self)) with (remoteRef self).
  change (protocolClass (set_writeBuffer _ self)) with (protocolClass self).
  rewrite E2. cbn [mbind option_bind].
  erewrite writeOptions_puts; [|reflexivity|exact Hd|exact Hs]. cbn [buffer with_buffer size].
  change (option_bytes _) with (option_bytes self). rewrite E3. cbn [mbind option_bind].
  exists s', ok. split; [|split; [exact Hsw|exact Hh]].
  transitivity (sendResult <$> sendBuffer
    (set_writeBuffer (Some (with_buffer wb b (11 + zlen (option_bytes self)))) self)); [done|].
  by rewrite Es.
Qed.

(** Two selectors denote the same address. *)
Definition sel_eq (a b : TSelector) : Prop :=
  tselSize a = tselSize b /\
  take (Z.to_nat (tselSize b)) (tselValue a) = take (Z.to_nat (tselSize b)) (tselValue b).

(** The parser has taken over the selector [sel] with option code [c]. *)
Definition sel_taken (c : Z) (sel : TSelector) (self self' : CotpConnection) : Prop :=
  (tselSize sel = 0 /\ self' = self) \/
  (exists sel', sel_wf sel' /\ sel_eq sel' sel /\
     self' = (if decide (c = 0xc1) then set_tSelSrc else set_tSelDst) sel' self).

Lemma bytes_at_slice_eq buf p xs : is_bytes buf -> bytes_at buf p xs -> 0 <= p -> xs <> [] ->
  take (length xs) (drop (Z.to_nat p) buf) = xs.
Proof.
  intros Hb Hx Hp Hne. destruct (bytes_at_bound _ _ _ Hx Hne) as [_ Hl].
  apply rd_ext; [rewrite length_take, length_drop; lia|]. intros i Hi.
  rewrite length_take in Hi. rewrite rd_take by lia. unfold rd.
  rewrite !decide_True, lookup_drop by lia.
  destruct (lookup_lt_is_Some_2 xs (Z.to_nat i)) as [x Hxi]; [lia|].
  rewrite Hxi. apply (bytes_at_lookup _ _ _ _ _ Hx) in Hxi. unfold rd in Hxi.
  rewrite decide_True in Hxi by lia. rewrite <- Hxi. f_equal. lia.
Qed.

Lemma parse_selector c sel self buf base p len fuel :
  c = 0xc1 \/ c = 0xc2 -> conn_wf self -> sel_wf sel -> is_bytes buf -> 0 <= base -> 0 <= p ->
  bytes_at buf (base + p) (sel_bytes c sel) -> p + zlen (sel_bytes c sel) <= len ->
  exists self' fuel', sel_taken c sel self self' /\ (fuel <= fuel')%nat /\
    parseOptions_loop (S fuel) self buf base p len =
    parseOptions_loop (if decide (tselSize sel = 0) then S fuel' else fuel') self' buf base
      (p + zlen (sel_bytes c sel)) len.
Proof.
  intros Hc Hw Hsel Hbuf Hbase Hp Hat Hlen. rewrite sel_bytes_length in * by done.
  unfold sel_bytes in Hat. destruct (decide (tselSize sel = 0)) as [H0|H0].
  { exists self, fuel. rewrite H0, decide_False, Z.add_0_r by tauto. split; [by left|done]. }
  rewrite decide_True in Hat by done. rewrite decide_True in Hlen |- * by done.
  destruct (Hsel) as (Hvb & Hvl & Hvs).
  apply bytes_at_app in Hat as [[E1 [E2 _]] Hv]. cbn [length] in Hv.
  set (n := tselSize sel) in *. set (v := take (Z.to_nat n) (tselValue sel)) in *.
  assert (Hvn : length v = Z.to_nat n) by (unfold v; rewrite length_take; lia).
  assert (Hvne : v <> []) by (intros H; rewrite H in Hvn; cbn in Hvn; lia).
  cbn [parseOptions_loop]. rewrite decide_True, decide_False, E1 by lia. cbn [mbind option_bind].
  replace (base + p + 1) with (base + (p + 1)) in E2 by lia. rewrite E2. cbn [mbind option_bind].
  rewrite (decide_False (P := n > _)), (decide_False (P := c = 0xc0)) by lia.
  replace (base + p + Z.of_nat 2) with (base + (p + 2)) in Hv by lia.
  assert (Hcopy : forall old, sel_wf old -> exists value q,
    copy_bytes (Z.to_nat n) buf (base + (p + 2)) (tselValue old) 0 = Some (value, q) /\
    sel_wf {| tselSize := n; tselValue := value |} /\ sel_eq {| tselSize := n; tselValue := value |} sel).
  { intros old Ho. destruct (bytes_at_bound _ _ _ Hv Hvne) as [_ Hbl].
    destruct (copy_selector buf (base + (p + 2)) n old) as (value & q & E & Hsw & Ht);
      try done; try lia.
    exists value, q. split; [done|]. split; [done|]. split; [done|]. cbn [tselValue]. fold n.
    rewrite Ht, <- Hvn, bytes_at_slice_eq by (done || lia). unfold v. by rewrite length_take, Hvl, Nat.min_l by lia. }
  destruct Hw as (_ & _ & Hws & Hwd & _). destruct Hc as [-> | ->].
  - rewrite !decide_True by lia. destruct (Hcopy _ Hws) as (value & q & -> & Hsw & Heq).
    cbn [mbind option_bind]. eexists _, fuel. split; [right; by eexists|]. split; [done|].
    f_equal. lia.
  - rewrite decide_False, !decide_True by lia.
    destruct (Hcopy _ Hwd) as (value & q & -> & Hsw & Heq).
    cbn [mbind option_bind]. eexists _, fuel. split; [right; by eexists|]. split; [done|].
    f_equal. lia.
Qed.

Lemma sel_taken_wf c sel self self' : sel_taken c sel self self' -> conn_wf self -> conn_wf self'.
Proof.
  intros [[_ ->]|(sel' & Hw & _ & ->)] Hc; [done|]. destruct Hc as (H1 & H2 & H3 & H4 & H5).
  case_decide; (split; [done|]); (split; [done|]); (split; [done|]); (split; [done|]); done.
Qed.

(** Everything except the selector is as before. *)
Lemma sel_taken_fields c sel self self' : sel_taken c sel self self' ->
  remoteRef self' = remoteRef self /\ protocolClass self' = protocolClass self /\
  tpduSize self' = tpduSize self /\
  (tselSize sel <> 0 -> sel_eq (if decide (c = 0xc1) then tSelSrc self' else tSelDst self') sel) /\
  (if decide (c = 0xc1) then tSelDst self' = tSelDst self else tSelSrc self' = tSelSrc self).
Proof.
  intros [[H0 ->]|(sel' & _ & He & ->)]; [split_and!; try done; by case_decide|].
  case_decide; by split_and!.
Qed.

Lemma parse_tpduSize fuel self buf base p len t :
  0 <= p -> p + 3 <= len -> 7 <= t <= 13 -> bytes_at buf (base + p) [0xc0; 0x01; t] ->
  parseOptions_loop (S fuel) self buf base p len =
  parseOptions_loop fuel (set_tpduSize t self) buf base (p + 3) len.
Proof.
  intros Hp Hlen Ht (E1 & E2 & E3 & _). cbn [parseOptions_loop].
  rewrite decide_True, decide_False, E1 by lia. cbn [mbind option_bind].
  replace (base + (p + 1)) with (base + p + 1) by lia. rewrite E2. cbn [mbind option_bind].
  rewrite decide_False, !decide_True by lia.
  replace (base + (p + 2)) with (base + p + 1 + 1) by lia. rewrite E3. cbn [mbind option_bind].
  rewrite decide_False by lia. rewrite setTpduSize_is. cbn [mbind option_bind].
  assert (Hlog : Z.log2 (Z.min (Z.shiftl 1 t) COTP_MAX_TPDU_SIZE) = t).
  { rewrite Z.shiftl_mul_pow2, Z.mul_1_l, Z.min_l, Z.log2_pow2; try lia.
    change COTP_MAX_TPDU_SIZE with (2 ^ 13). apply Z.pow_le_mono_r; lia. }
  rewrite Hlog. f_equal. lia.
Qed.

Lemma parseOptions_spec peer self buf base :
  conn_wf self -> is_bytes buf -> 0 <= base -> sel_wf (tSelDst peer) -> sel_wf (tSelSrc peer) ->
  7 <= tpduSize peer <= 13 -> bytes_at buf base (option_bytes peer) ->
  exists s1 s2, sel_taken 0xc2 (tSelDst peer) (set_tpduSize (tpduSize peer) self) s1 /\
    sel_taken 0xc1 (tSelSrc peer) s1 s2 /\
    parseOptions self buf base (zlen (option_bytes peer)) = Some (s2, true).
Proof.
  intros Hw Hbuf Hbase Hd Hs Ht Hat. unfold parseOptions. set (len := zlen (option_bytes peer)).
  unfold option_bytes in Hat. rewrite decide_True in Hat by lia.
  assert (Hlen : len = 3 + zlen (sel_bytes 0xc2 (tSelDst peer)) + zlen (sel_bytes 0xc1 (tSelSrc peer))).
  { unfold len, option_bytes. rewrite decide_True, !length_app by lia. cbn [length]. lia. }
  apply bytes_at_app in Hat as [Htp Hat]. apply bytes_at_app in Hat as [Hdst Hsrc].
  cbn [length] in Hdst, Hsrc. change (Z.of_nat 3) with 3 in *.
  destruct (Z.to_nat len) as [|[|[|n]]] eqn:En; [lia..|].
  rewrite (parse_tpduSize _ _ _ _ _ _ (tpduSize peer)) by (rewrite ?Z.add_0_r; done || lia).
  rewrite Z.add_0_l. set (s0 := set_tpduSize (tpduSize peer) self).
  assert (Hw0 : conn_wf s0).
  { destruct Hw as (H1 & H2 & H3 & H4 & H5). do 4 (split; [done|]). cbn. lia. }
  destruct (parse_selector 0xc2 (tSelDst peer) s0 buf base 3 len (S (S n)))
    as (s1 & f1 & Ht1 & Hf1 & Ep1); try done; try lia.
  rewrite Ep1. assert (Hw1 := sel_taken_wf _ _ _ _ Ht1 Hw0).
  assert (exists f, (if decide (tselSize (tSelDst peer) = 0) then S f1 else f1) = S f /\ (1 <= f)%nat)
    as (f & -> & Hf) by (destruct f1 as [|f1]; [lia|]; case_decide; eexists; split; try done; lia).
  destruct (parse_selector 0xc1 (tSelSrc peer) s1 buf base
    (3 + zlen (sel_bytes 0xc2 (tSelDst peer))) len f) as (s2 & f2 & Ht2 & Hf2 & Ep2);
    try done; try lia.
  { by rewrite Z.add_assoc. }
  rewrite Ep2. exists s1, s2. split; [done|]. split; [done|].
  assert (exists g, (if decide (tselSize (tSelSrc peer) = 0) then S f2 else f2) = S g) as (g & ->)
    by (destruct f2 as [|f2]; [lia|]; case_decide; by eexists).
  cbn [parseOptions_loop]. by rewrite decide_False by lia.
Qed.

(** A connect packet in the read buffer is parsed to the sender's parameters. *)
Lemma parse_connect code dst src class peer self :
  code = 0xe0 \/ code = 0xd0 -> is_u16 dst -> is_u16 src -> is_u8 class ->
  sel_wf (tSelDst peer) -> sel_wf (tSelSrc peer) -> 7 <= tpduSize peer <= 13 ->
  conn_wf self -> packet_ready self ->
  content (readBuffer self) = connect_packet code dst src class (option_bytes peer) ->
  exists self', parseIncomingMessage self = Some (self', COTP_CONNECT_INDICATION) /\
    remoteRef self' = (if decide (code = 0xe0) then src else dst) /\ protocolClass self' = class /\
    tpduSize self' = tpduSize peer /\
    (tselSize (tSelDst peer) <> 0 -> sel_eq (tSelDst self') (tSelDst peer)) /\
    (tselSize (tSelSrc peer) <> 0 -> sel_eq (tSelSrc self') (tSelSrc peer)).
Proof.
  intros Hcode Hd Hs Hcl Hwd Hws Ht Hw [Hbig Hsz] Hc. unfold parseIncomingMessage, parseCotpMessage.
  set (rb := readBuffer self) in *. set (opts := option_bytes peer) in *.
  assert (Hol := option_bytes_length peer Hwd Hws).
  assert (Hob := getOptionsLength_bounds peer Hwd Hws). fold opts in Hol. rewrite <- Hol in Hob.
  assert (Hsize : size rb = 11 + zlen opts).
  { rewrite <- (connect_packet_length code dst src class opts), <- Hc. unfold content.
    rewrite length_take. lia. }
  assert (Hat : bytes_at (buffer rb) 0 (connect_packet code dst src class opts)).
  { rewrite <- Hc. unfold content. apply bytes_at_take, bytes_at_0. }
  unfold connect_packet in Hat. cbn zeta in Hat. apply bytes_at_app in Hat as [_ Hat].
  apply bytes_at_app in Hat as [(E4 & E5 & E6 & E7 & E8 & E9 & E10 & _) Hopt].
  cbn [length] in *. change (0 + Z.of_nat 4) with 4 in *. cbn [Z.add Pos.add] in *.
  change (4 + Z.of_nat 7) with 11 in *. change (4 + 1) with 5 in *. change (5 + 1) with 6 in *.
  change (6 + 1) with 7 in *. change (7 + 1) with 8 in *. change (8 + 1) with 9 in *.
  change (9 + 1) with 10 in *.
  destruct (u16_bytes dst Hd) as (_ & _ & Ed). destruct (u16_bytes src Hs) as (_ & _ & Es).
  assert (H16 : forall hi lo z, is_u16 z -> hi * 0x100 + lo = z -> u16 (hi * 0x100 + lo) = z)
    by (intros hi lo z Hz ->; unfold u16; unfold is_u16 in Hz; apply Z.mod_small; lia).
  assert (Hpar : forall ref, exists s,
    parseOptions (set_protocolClass class (set_remoteRef ref self)) (buffer rb) 11
      (6 + zlen opts - 6) = Some (s, true) /\
    remoteRef s = ref /\ protocolClass s = class /\ tpduSize s = tpduSize peer /\
    (tselSize (tSelDst peer) <> 0 -> sel_eq (tSelDst s) (tSelDst peer)) /\
    (tselSize (tSelSrc peer) <> 0 -> sel_eq (tSelSrc s) (tSelSrc peer))).
  { intros ref. replace (6 + zlen opts - 6) with (zlen opts) by lia.
    destruct (parseOptions_spec peer (set_protocolClass class (set_remoteRef ref self))
      (buffer rb) 11) as (s1 & s2 & T1 & T2 & E); try done; try lia; [apply Hw|].
    destruct (sel_taken_fields _ _ _ _ T1) as (R1 & C1 & P1 & D1 & _).
    destruct (sel_taken_fields _ _ _ _ T2) as (R2 & C2 & P2 & D2 & D2').
    exists s2. split; [done|]. cbn in D1, D2, D2'. rewrite R2, R1, C2, C1, P2, P1, D2'. by split_and!. }
  rewrite E4. cbn [mbind option_bind]. rewrite decide_False by lia. rewrite E5.
  cbn [mbind option_bind]. destruct Hcode as [-> | ->].
  - rewrite decide_True by done. unfold parseConnectRequestTpdu, getUint16, getUint8.
    rewrite decide_False by lia.
    change (6 + 2) with 8. change (8 + 1) with 9. change (6 + 4) with 10. change (6 + 5) with 11.
    rewrite E8, E9. cbn [mbind option_bind].
    rewrite E10. cbn [mbind option_bind]. rewrite (H16 _ _ src) by done.
    destruct (Hpar src) as (s & -> & Hr). cbn [mbind option_bind]. eexists. split; [done|]. exact Hr.
  - rewrite decide_False, decide_True by done. unfold parseConnectConfirmTpdu, getUint16, getUint8.
    rewrite decide_False by lia.
    change (6 + 1) with 7. change (6 + 4) with 10. change (6 + 5) with 11.
    rewrite E6, E7. cbn [mbind option_bind].
    rewrite E10. cbn [mbind option_bind]. rewrite (H16 _ _ dst) by done.
    destruct (Hpar dst) as (s & -> & Hr). cbn [mbind option_bind]. eexists. split; [done|]. exact Hr.
Qed.

(** The connect request of a client puts one packet on its stream, and a
    server that receives this packet accepts it and takes over the client's
    reference, TPDU size and selectors. *)
Theorem connect_request_accepted m1 m2 client wb dst src :
  sel_wf dst -> sel_wf src -> 7 <= tpduSize client <= 13 -> is_u16 (localRef client) ->
  writeBuffer client = Some wb -> wf wb -> 26 <= maxSize wb -> ext_wf client ->
  (is_Some (socketExtensionBuffer client) ->
   socketExtensionBufferFill client + 26 <= socketExtensionBufferSize client) ->
  exists client' ok packet,
    sendConnectionRequestMessage m1 m2 client dst src =
      Some (client', if ok : bool then COTP_OK else COTP_ERROR) /\
    (ok = true -> stream client' = stream client ++ packet) /\
    forall server, conn_wf server -> packet_ready server -> content (readBuffer server) = packet ->
      exists server', parseIncomingMessage server = Some (server', COTP_CONNECT_INDICATION) /\
        remoteRef server' = localRef client /\ protocolClass server' = 0 /\
        tpduSize server' = tpduSize client /\
        (tselSize dst <> 0 -> sel_eq (tSelDst server') dst) /\
        (tselSize src <> 0 -> sel_eq (tSelSrc server') src).
Proof.
  intros Hd Hs Ht Hr Hwb Hw Hm He Hroom. set (s1 := set_tSelSrc src (set_tSelDst dst client)).
  destruct (sendConnectionRequest_spec m1 m2 client wb dst src) as (c' & ok & E & _ & _ & _ & Hst);
    try done; [lia|].
  exists c', ok, (connect_packet 0xe0 0 (localRef client) 0 (option_bytes s1)).
  split; [done|]. split; [intros H; by destruct (Hst H)|]. intros server Hsw Hpr Hc.
  by apply (parse_connect 0xe0 0 (localRef client) 0 s1 server); try left.
Qed.

(** The connect confirm of a server puts one packet on its stream, and the
    client that receives this packet accepts it and takes over the TPDU size; as its
    remote reference it stores the destination reference of the packet, which is the
    reference the server got from the client, not the server's own. *)
Theorem connect_confirm_accepted m1 m2 server wb :
  sel_wf (tSelDst server) -> sel_wf (tSelSrc server) -> 7 <= tpduSize server <= 13 ->
  is_u16 (localRef server) -> is_u16 (remoteRef server) -> is_u8 (protocolClass server) ->
  writeBuffer server = Some wb -> wf wb -> 26 <= maxSize wb -> ext_wf server ->
  (is_Some (socketExtensionBuffer server) ->
   socketExtensionBufferFill server + 26 <= socketExtensionBufferSize server) ->
  exists server' ok packet,
    sendConnectionResponseMessage m1 m2 server =
      Some (server', if ok : bool then COTP_OK else COTP_ERROR) /\
    (ok = true -> stream server' = stream server ++ packet) /\
    forall client, conn_wf client -> packet_ready client -> content (readBuffer client) = packet ->
      exists client', parseIncomingMessage client = Some (client', COTP_CONNECT_INDICATION) /\
        remoteRef client' = remoteRef server /\ protocolClass client' = protocolClass server /\
        tpduSize client' = tpduSize server.
Proof.
  intros Hd Hs Ht Hr Hrr Hpc Hwb Hw Hm He Hroom.
  destruct (sendConnectionResponse_spec m1 m2 server wb) as (c' & ok & E & _ & _ & _ & _ & Hst);
    try done; [lia|].
  exists c', ok, (connect_packet 0xd0 (remoteRef server) (localRef server) (protocolClass server)
    (option_bytes server)).
  split; [done|]. split; [intros H; by destruct (Hst H)|]. intros client Hcw Hpr Hc.
  destruct (parse_connect 0xd0 (remoteRef server) (localRef server) (protocolClass server) server
    client) as (s' & Ep & H1 & H2 & H3 & _); try done; [by right|]. by exists s'.
Qed.

Lemma ex_sel_wf a b : is_u8 a -> is_u8 b -> sel_wf {| tselSize := 2; tselValue := [a; b; 0; 0] |}.
Proof.
  intros Ha Hb. split; [cbn; unfold is_bytes|done].
  repeat (apply Forall_cons; split; [first [assumption|split; lia]|]). constructor.
Qed.

Definition ex_server : CotpConnection :=
  set_remoteRef 5 (set_protocolClass 0 ex_conn).

Lemma connect_request_accepted_witness :
  exists client' server', let sel := {| tselSize := 2; tselValue := [0; 1; 0; 0] |} in
    sendConnectionRequestMessage true true ex_conn sel sel = Some (client', COTP_OK) /\
    parseIncomingMessage (ex_received (stream client')) =
      Some (server', COTP_CONNECT_INDICATION) /\ remoteRef server' = 1.
Proof.
  set (sel := {| tselSize := 2; tselValue := [0; 1; 0; 0] |}).
  destruct (connect_request_accepted true true ex_conn (ex_buffer 140) sel sel)
    as (c' & ok & packet & E & Hst & Hp).
  - by apply ex_sel_wf.
  - by apply ex_sel_wf.
  - vm_compute. by split.
  - vm_compute. by split.
  - reflexivity.
  - by apply wf_dec.
  - vm_compute. congruence.
  - vm_compute. split_and!; try congruence. by apply is_bytes_dec.
  - vm_compute. congruence.
  - assert (ok = true) as -> by (vm_compute in E; destruct ok; [done|congruence]).
    specialize (Hst eq_refl). change (stream ex_conn) with (@nil Z) in Hst. cbn [app] in Hst.
    subst packet.
    assert (Hs : stream c' = connect_packet 0xe0 0 1 0 (option_bytes ex_conn))
      by (vm_compute in E; injection E as <-; vm_compute; reflexivity).
    destruct (ex_received_ready (stream c')) as [H1 H2];
      [rewrite Hs; reflexivity|rewrite Hs; vm_compute; by split|].
    destruct (Hp (ex_received (stream c')) H1 H2) as (s' & Ep & Hr & _); [by rewrite Hs|].
    exists c', s'. split; [exact E|]. split; [exact Ep|exact Hr].
Defined.

Lemma connect_confirm_accepted_witness :
  exists server' client',
    sendConnectionResponseMessage true true ex_server = Some (server', COTP_OK) /\
    parseIncomingMessage (ex_received (stream server')) =
      Some (client', COTP_CONNECT_INDICATION) /\
    remoteRef client' = 5 /\ localRef ex_server = 1.
Proof.
  destruct (connect_confirm_accepted true true ex_server (ex_buffer 140))
    as (c' & ok & packet & E & Hst & Hp).
  - by apply ex_sel_wf.
  - by apply ex_sel_wf.
  - vm_compute. by split.
  - vm_compute. by split.
  - vm_compute. by split.
  - vm_compute. by split.
  - reflexivity.
  - by apply wf_dec.
  - vm_compute. congruence.
  - vm_compute. split_and!; try congruence. by apply is_bytes_dec.
  - vm_compute. congruence.
  - assert (ok = true) as -> by (vm_compute in E; destruct ok; [done|congruence]).
    specialize (Hst eq_refl). change (stream ex_server) with (@nil Z) in Hst. cbn [app] in Hst.
    subst packet.
    assert (Hs : stream c' = connect_packet 0xd0 5 1 0 (option_bytes ex_server))
      by (vm_compute in E; injection E as <-; vm_compute; reflexivity).
    destruct (ex_received_ready (stream c')) as [H1 H2];
      [rewrite Hs; reflexivity|rewrite Hs; vm_compute; by split|].
    destruct (Hp (ex_received (stream c')) H1 H2) as (s' & Ep & Hr & _); [by rewrite Hs|].
    exists c', s'. split; [exact E|]. split; [exact Ep|]. split; [exact Hr|done].
Defined.

End Cotp.
