(* ===== verification/Session.v ===== *)
(** * ISO session: session protocol data units

    [src/mms/iso_session/iso_session.c]: the SPDUs a connection is opened,
    used and closed with, written in front of the data of the upper layer, and
    their parser.  A parsed user data buffer shows the memory of the message;
    the message is not written while it is looked at. *)

From S2P Require Import Prelude ByteBuf.

Module Session.
Import ByteBuf.

(** [uint8_t size; uint8_t value[16]] *)
Record SSelector := { size : Z; value : list Z }.

Record IsoSession := mkSession {
  callingSessionSelector : SSelector;
  calledSessionSelector : SSelector;
  sessionRequirement : Z;
  protocolOptions : Z;
  userData : ByteBuffer
}.

Definition set_callingSessionSelector (x : SSelector) (s : IsoSession) : IsoSession :=
  mkSession x (calledSessionSelector s) (sessionRequirement s) (protocolOptions s) (userData s).
Definition set_calledSessionSelector (x : SSelector) (s : IsoSession) : IsoSession :=
  mkSession (callingSessionSelector s) x (sessionRequirement s) (protocolOptions s) (userData s).
Definition set_sessionRequirement (x : Z) (s : IsoSession) : IsoSession :=
  mkSession (callingSessionSelector s) (calledSessionSelector s) x (protocolOptions s) (userData s).
Definition set_protocolOptions (x : Z) (s : IsoSession) : IsoSession :=
  mkSession (callingSessionSelector s) (calledSessionSelector s) (sessionRequirement s) x (userData s).
Definition set_userData (x : ByteBuffer) (s : IsoSession) : IsoSession :=
  mkSession (callingSessionSelector s) (calledSessionSelector s) (sessionRequirement s)
    (protocolOptions s) x.

Inductive IsoSessionIndication :=
  | SESSION_OK | SESSION_ERROR | SESSION_CONNECT | SESSION_GIVE_TOKEN | SESSION_DATA
  | SESSION_ABORT | SESSION_FINISH | SESSION_DISCONNECT | SESSION_NOT_FINISHED.

#[export] Instance IsoSessionIndication_eq_dec : EqDecision IsoSessionIndication.
Proof. solve_decision. Defined.

(** ** Parsing *)

(** One round of the loop of [parseAcceptParameters], behind the length check:
    the session, the offset behind the item and the two flags; [None] inside is
    the result [-1]. *)
Definition parseAcceptItem (session : IsoSession) (buffer : list Z) (pi param_len offset : Z)
    (hasProtocolOptions hasProtocolVersion : bool)
    : option (IsoSession * option (Z * bool * bool)) :=
  if decide (pi = 19) then
    if decide (param_len <> 1) then Some (session, None)
    else
      x ← buffer.[offset];
      Some (set_protocolOptions x session, Some (offset + 1, true, hasProtocolVersion))
  else if decide (pi = 21) then
    Some (session, Some (offset + 4, hasProtocolOptions, hasProtocolVersion))
  else if decide (pi = 22) then
    param_val ← buffer.[offset];
    Some (session, if decide (param_val <> 2) then None
                   else Some (offset + 1, hasProtocolOptions, true))
  else if decide (pi = 26) then
    if decide (param_len <> 1) then Some (session, None)
    else
      param_val ← buffer.[offset];
      Some (session, Some (offset + 1, hasProtocolOptions, hasProtocolVersion))
  else Some (session, Some (offset + param_len, hasProtocolOptions, hasProtocolVersion)).

Fixpoint parseAcceptParameters_loop (fuel : nat) (session : IsoSession) (buffer : list Z)
    (startOffset offset maxOffset : Z) (hasProtocolOptions hasProtocolVersion : bool)
    : option (IsoSession * Z) :=
  match fuel with
  | O => None
  | S fuel =>
      if decide (offset + 2 < maxOffset) then
        pi ← buffer.[offset];
        param_len ← buffer.[offset + 1];
        if decide (offset + 2 + param_len > maxOffset) then Some (session, -1)
        else
          '(session, r) ← parseAcceptItem session buffer pi param_len (offset + 2)
                            hasProtocolOptions hasProtocolVersion;
          match r with
          | None => Some (session, -1)
          | Some (offset, hasProtocolOptions, hasProtocolVersion) =>
              parseAcceptParameters_loop fuel session buffer startOffset offset maxOffset
                hasProtocolOptions hasProtocolVersion
          end
      else Some (session, if hasProtocolOptions && hasProtocolVersion
                          then offset - startOffset else -1)
  end.

Definition parseAcceptParameters (session : IsoSession) (message : ByteBuffer)
    (startOffset parameterLength : Z) : option (IsoSession * Z) :=
  parseAcceptParameters_loop (S (Z.to_nat parameterLength)) session (buffer message) startOffset
    startOffset (startOffset + parameterLength) false false.

(** A session selector is copied into the 16 octets of the destination. *)
Definition copySelector (sel : SSelector) (buffer : list Z) (offset len : Z) : option SSelector :=
  '(v, _) ← copy_bytes (Z.to_nat len) buffer offset (value sel) 0;
  Some {| size := len; value := v |}.

(** One round of the loop of [parseSessionHeaderParameters], behind the length
    check: [inl] is a return, [inr] the offset of the next item. *)
Definition parseHeaderItem (session : IsoSession) (message : ByteBuffer)
    (pgi parameterLength offset : Z) : option (IsoSession * (IsoSessionIndication + Z)) :=
  if decide (pgi = 5) then
    '(session, connectAcceptLen) ← parseAcceptParameters session message offset parameterLength;
    Some (session, if decide (connectAcceptLen = -1) then inl SESSION_ERROR
                   else inr (offset + connectAcceptLen))
  else if decide (pgi = 20) then
    if decide (parameterLength <> 2) then Some (session, inl SESSION_ERROR)
    else
      hi ← (buffer message).[offset];
      lo ← (buffer message).[offset + 1];
      Some (set_sessionRequirement (u16 (u16 (hi * 0x100) + lo)) session, inr (offset + 2))
  else if decide (pgi = 51) then
    if decide (parameterLength > 16) then Some (session, inl SESSION_ERROR)
    else
      sel ← copySelector (callingSessionSelector session) (buffer message) offset parameterLength;
      Some (set_callingSessionSelector sel session, inr (offset + parameterLength))
  else if decide (pgi = 52) then
    if decide (parameterLength > 16) then Some (session, inl SESSION_ERROR)
    else
      sel ← copySelector (calledSessionSelector session) (buffer message) offset parameterLength;
      Some (set_calledSessionSelector sel session, inr (offset + parameterLength))
  else if decide (pgi = 193) then
    Some (set_userData (ByteBuffer_wrap (drop (Z.to_nat offset) (buffer message))
            (ByteBuf.size message - offset) (maxSize message - offset)) session, inl SESSION_OK)
  else if decide (pgi = 1 \/ pgi = 17 \/ pgi = 25 \/ pgi = 49 \/ pgi = 60) then
    Some (session, inr (offset + parameterLength))
  else Some (session, inr offset).

Fixpoint parseSessionHeader_loop (fuel : nat) (session : IsoSession) (message : ByteBuffer)
    (offset maxOffset : Z) : option (IsoSession * IsoSessionIndication) :=
  match fuel with
  | O => None
  | S fuel =>
      if decide (offset + 2 < maxOffset) then
        pgi ← (buffer message).[offset];
        parameterLength ← (buffer message).[offset + 1];
        if decide (offset + 2 + parameterLength > maxOffset) then Some (session, SESSION_ERROR)
        else
          '(session, r) ← parseHeaderItem session message pgi parameterLength (offset + 2);
          match r with
          | inl ind => Some (session, ind)
          | inr offset => parseSessionHeader_loop fuel session message offset maxOffset
          end
      else Some (session, SESSION_ERROR)
  end.

Definition parseSessionHeaderParameters (session : IsoSession) (message : ByteBuffer)
    (parametersOctets : Z) : option (IsoSession * IsoSessionIndication) :=
  parseSessionHeader_loop (S (Z.to_nat parametersOctets)) session message 2 (2 + parametersOctets).

(** The SPDUs with parameters: [ind] is reported when they are well formed. *)
Definition parseWithParameters (self : IsoSession) (message : ByteBuffer) (length : Z)
    (ind : IsoSessionIndication) : option (IsoSession * IsoSessionIndication) :=
  if decide (length <> ByteBuf.size message - 2) then Some (self, SESSION_ERROR)
  else
    '(self, r) ← parseSessionHeaderParameters self message length;
    Some (self, if decide (r = SESSION_OK) then ind else SESSION_ERROR).

Definition parseMessage (self : IsoSession) (message : ByteBuffer)
    : option (IsoSession * IsoSessionIndication) :=
  if decide (ByteBuf.size message > 1) then
    id ← (buffer message).[0];
    length ← (buffer message).[1];
    if decide (id = 13 \/ id = 14) then parseWithParameters self message length SESSION_CONNECT
    else if decide (id = 1) then
      if decide (ByteBuf.size message < 4) then Some (self, SESSION_ERROR)
      else
        b2 ← (buffer message).[2];
        b3 ← (buffer message).[3];
        if decide (length = 0 /\ b2 = 1 /\ b3 = 0) then
          Some (set_userData (ByteBuffer_wrap (drop 4 (buffer message))
                  (ByteBuf.size message - 4) (maxSize message - 4)) self, SESSION_DATA)
        else Some (self, SESSION_ERROR)
    else if decide (id = 8) then Some (self, SESSION_NOT_FINISHED)
    else if decide (id = 9) then parseWithParameters self message length SESSION_FINISH
    else if decide (id = 10) then parseWithParameters self message length SESSION_DISCONNECT
    else if decide (id = 25) then Some (self, SESSION_ABORT)
    else Some (self, SESSION_ERROR)
  else Some (self, SESSION_ERROR).

(** ** Creating SPDUs *)

Definition dataSpdu : list Z := [0x01; 0x00; 0x01; 0x00].

(** The part of the chain in front of [payload]; [buf] is its memory and
    [partMaxLength] the capacity the caller gave it. *)
Definition createDataSpdu (partMaxLength : Z) (payload : BufferChain) : option BufferChain :=
  payloadLength ← chain_length payload;
  Some (Chain (4 + payloadLength) 4 partMaxLength dataSpdu payload).

Definition encodeConnectAcceptItem (buf : list Z) (offset options : Z) : option (list Z * Z) :=
  puts buf offset [5; 6; 0x13; 1; options; 0x16; 1; 2].

Definition encodeConnectionIdentifier (buf : list Z) (offset reasonCode : Z)
    : option (list Z * Z) :=
  puts buf offset [1; 2; 17; 1; 1; 50; 1; reasonCode].

Definition encodeSessionRequirement (self : IsoSession) (buf : list Z) (offset : Z)
    : option (list Z * Z) :=
  puts buf offset [0x14; 2; Z.quot (sessionRequirement self) 0x100;
                   Z.land (sessionRequirement self) 0x00ff].

Definition encodeSelector (code : Z) (sel : SSelector) (buf : list Z) (offset : Z)
    : option (list Z * Z) :=
  '(buf, offset) ← puts buf offset [code; size sel];
  copy_bytes (Z.to_nat (size sel)) (value sel) 0 buf offset.

Definition encodeCallingSessionSelector (self : IsoSession) (buf : list Z) (offset : Z)
    : option (list Z * Z) := encodeSelector 0x33 (callingSessionSelector self) buf offset.

Definition encodeCalledSessionSelector (self : IsoSession) (buf : list Z) (offset : Z)
    : option (list Z * Z) := encodeSelector 0x34 (calledSessionSelector self) buf offset.

Definition encodeSessionUserData (buf : list Z) (offset payloadLength : Z)
    : option (list Z * Z) := puts buf offset [0xc1; payloadLength].

Definition createConnectSpdu (self : IsoSession) (remoteSSelector localSSelector : SSelector)
    (partMaxLength : Z) (buf : list Z) (payload : BufferChain)
    : option (IsoSession * BufferChain) :=
  payloadLength ← chain_length payload;
  '(buf, lengthOffset) ← put buf 0 13;
  let self := set_callingSessionSelector localSSelector
                (set_calledSessionSelector remoteSSelector self) in
  '(buf, offset) ← encodeConnectAcceptItem buf (lengthOffset + 1) 0;
  '(buf, offset) ← encodeSessionRequirement self buf offset;
  '(buf, offset) ← encodeCallingSessionSelector self buf offset;
  '(buf, offset) ← encodeCalledSessionSelector self buf offset;
  '(buf, offset) ← encodeSessionUserData buf offset payloadLength;
  buf ← buf.[lengthOffset]:= (offset - lengthOffset - 1 + payloadLength);
  Some (self, finishPart partMaxLength buf offset payloadLength payload).

Definition createAbortSpdu (partMaxLength : Z) (buf : list Z) (payload : BufferChain)
    : option BufferChain :=
  payloadLength ← chain_length payload;
  '(buf, offset) ← puts buf 0 [25; 5 + payloadLength; 17; 1; 11; 193; payloadLength];
  Some (finishPart partMaxLength buf offset payloadLength payload).

Definition createFinishSpdu (partMaxLength : Z) (buf : list Z) (payload : BufferChain)
    : option BufferChain :=
  payloadLength ← chain_length payload;
  '(buf, offset) ← puts buf 0 [9; 2 + payloadLength; 193; payloadLength];
  Some (finishPart partMaxLength buf offset payloadLength payload).

Definition createDisconnectSpdu (partMaxLength : Z) (buf : list Z) (payload : BufferChain)
    : option BufferChain :=
  payloadLength ← chain_length payload;
  '(buf, offset) ← puts buf 0 [10; 2 + payloadLength; 193; payloadLength];
  Some (finishPart partMaxLength buf offset payloadLength payload).

Definition createAcceptSpdu (self : IsoSession) (partMaxLength : Z) (buf : list Z)
    (payload : BufferChain) : option BufferChain :=
  payloadLength ← chain_length payload;
  '(buf, lengthOffset) ← put buf 0 14;
  '(buf, offset) ← encodeConnectAcceptItem buf (lengthOffset + 1) (protocolOptions self);
  '(buf, offset) ← encodeSessionRequirement self buf offset;
  '(buf, offset) ← encodeCalledSessionSelector self buf offset;
  '(buf, offset) ← encodeSessionUserData buf offset payloadLength;
  buf ← buf.[lengthOffset]:= (offset - lengthOffset - 1 + payloadLength);
  Some (finishPart partMaxLength buf offset payloadLength payload).

(** Only the memory of the part changes: its lengths are not set. *)
Definition createRefuseSpdu (part : BufferChain) (reasonCode : Z) : option BufferChain :=
  match part with
  | ChainNull => None
  | Chain length partLength partMaxLength buf nextPart =>
      '(buf, offset) ← put buf 0 12;
      '(buf, _) ← encodeConnectionIdentifier buf (offset + 1) reasonCode;
      Some (Chain length partLength partMaxLength buf nextPart)
  end.

Definition init : IsoSession :=
  let sel := {| size := 2; value := [0; 1] ++ replicate 14 0 |} in
  mkSession sel sel 0x0002 0 (ByteBuffer_wrap [] 0 0).

(** ** Safety of the parser *)

Definition sel_wf (sel : SSelector) : Prop :=
  is_bytes (value sel) /\ length (value sel) = 16%nat /\ 0 <= size sel <= 16.

Definition session_wf (s : IsoSession) : Prop :=
  sel_wf (callingSessionSelector s) /\ sel_wf (calledSessionSelector s) /\
  is_u16 (sessionRequirement s) /\ is_u8 (protocolOptions s) /\ wf (userData s).

Lemma parseAcceptItem_safe session buf pi n offset o v :
  session_wf session -> is_bytes buf -> 0 <= n -> 0 <= offset < zlen buf ->
  exists s r, parseAcceptItem session buf pi n offset o v = Some (s, r) /\ session_wf s /\
    (forall q o' v', r = Some (q, o', v') -> offset <= q).
Proof.
  intros Hs Hb Hn Ho. destruct (rd_ok buf offset Hb Ho) as (x & Hx & Hxb).
  unfold parseAcceptItem. rewrite Hx. cbn [mbind option_bind].
  repeat case_decide; do 2 eexists; (split; [done|]); (split; [try done|]);
    try (intros ? ? ? [= <- <- <-]; lia); try done.
  destruct Hs as (? & ? & ? & ? & ?). by split_and!.
Qed.

Lemma parseAcceptParameters_safe fuel : forall session buf start offset max o v,
  session_wf session -> is_bytes buf -> 0 <= start <= offset -> max <= zlen buf ->
  Z.max 0 (max - offset) < Z.of_nat fuel ->
  exists s r, parseAcceptParameters_loop fuel session buf start offset max o v = Some (s, r) /\
    session_wf s /\ (r = -1 \/ 0 <= r).
Proof.
  induction fuel as [|fuel IH]; intros session buf start offset max o v Hs Hb Ho Hm Hf; [lia|].
  cbn [parseAcceptParameters_loop]. case_decide as Hlt.
  2: { do 2 eexists. split; [done|]. split; [done|]. destruct (o && v); [right; lia|by left]. }
  destruct (rd_ok buf offset Hb) as (pi & -> & _); [lia|].
  destruct (rd_ok buf (offset + 1) Hb) as (n & -> & Hn); [lia|]. cbn [mbind option_bind].
  case_decide as Hfit; [do 2 eexists; split; [done|]; by auto|].
  destruct (parseAcceptItem_safe session buf pi n (offset + 2) o v)
    as (s & r & -> & Hs' & Hr); try done; [apply Hn|lia|].
  cbn [mbind option_bind]. destruct r as [[[q o'] v']|]; [|do 2 eexists; split; [done|]; by auto].
  specialize (Hr _ _ _ eq_refl). apply IH; try done; lia.
Qed.

Lemma copySelector_safe sel buf offset n :
  sel_wf sel -> is_bytes buf -> 0 <= n <= 16 -> 0 <= offset -> offset + n <= zlen buf ->
  exists sel', copySelector sel buf offset n = Some sel' /\ sel_wf sel' /\ size sel' = n /\
    take (Z.to_nat n) (value sel') = take (Z.to_nat n) (drop (Z.to_nat offset) buf).
Proof.
  intros (Hb & Hl & Hs) Hbuf Hn Ho Hfit. unfold copySelector.
  set (xs := take (Z.to_nat n) (drop (Z.to_nat offset) buf)).
  assert (Hxl : zlen xs = n) by (unfold xs; rewrite length_take, length_drop; lia).
  assert (Hxb : is_bytes xs) by (by apply Forall_take, Forall_drop).
  rewrite (copy_at_Z buf offset xs) by (done || (apply bytes_at_slice; lia)).
  rewrite puts_splice by (done || lia). cbn [mbind option_bind]. eexists. split; [done|].
  change (Z.to_nat 0) with 0%nat. rewrite take_0, app_nil_l. unfold sel_wf. cbn [value size].
  rewrite length_app, length_drop. split_and!; try lia.
  - apply Forall_app_2; [done|by apply Forall_drop].
  - apply take_app_length'. lia.
Qed.

(** The user data are the end of the message from [offset] on. *)
Definition user_data_from (message : ByteBuffer) (offset : Z) (s : IsoSession) : Prop :=
  0 <= offset <= ByteBuf.size message /\ wf (userData s) /\
  maxSize (userData s) = maxSize message - offset /\
  content (userData s) = drop (Z.to_nat offset) (content message).

Lemma wrap_user_data message offset s :
  wf message -> 0 <= offset <= ByteBuf.size message ->
  let s' := set_userData (ByteBuffer_wrap (drop (Z.to_nat offset) (buffer message))
              (ByteBuf.size message - offset) (maxSize message - offset)) s in
  user_data_from message offset s'.
Proof.
  intros (Hb & Hs & Hl) Ho. split; [done|]. split.
  - split; [by apply Forall_drop|]. cbn. rewrite length_drop. split; [|lia]. lia.
  - split; [done|]. unfold content. cbn -[take drop]. rewrite take_drop_commute. do 2 f_equal. lia.
Qed.

Lemma parseHeaderItem_safe session message pgi n offset :
  session_wf session -> wf message -> 0 <= n -> 0 <= offset < ByteBuf.size message ->
  offset + n <= ByteBuf.size message ->
  exists s r, parseHeaderItem session message pgi n offset = Some (s, r) /\ session_wf s /\
    match r with
    | inl SESSION_OK => user_data_from message offset s
    | inl ind => ind = SESSION_ERROR
    | inr q => offset <= q
    end.
Proof.
  intros Hs Hm Hn Ho Hfit. destruct (Hm) as (Hb & Hsz & Hl).
  destruct (Hs) as (H1 & H2 & H3 & H4 & H5). unfold parseHeaderItem. repeat case_decide;
    try (do 2 eexists; split; [done|]; split; [done|]; done || lia).
  - unfold parseAcceptParameters.
    destruct (parseAcceptParameters_safe (S (Z.to_nat n)) session (buffer message) offset offset
      (offset + n) false false) as (s & r & -> & Hs' & Hr); try done; try lia.
    cbn [mbind option_bind]. do 2 eexists. split; [done|]. split; [done|]. case_decide; [done|lia].
  - destruct (rd_ok (buffer message) offset Hb) as (hi & -> & _); [lia|].
    destruct (rd_ok (buffer message) (offset + 1) Hb) as (lo & -> & _); [lia|].
    cbn [mbind option_bind]. do 2 eexists. split; [done|]. split; [|lia].
    split_and!; try done; cbn; apply Z.mod_pos_bound; lia.
  - destruct (copySelector_safe (callingSessionSelector session) (buffer message) offset n)
      as (sel & -> & Hsel & _); try done; try lia.
    cbn [mbind option_bind]. do 2 eexists. split; [done|]. split; [by split_and!|lia].
  - destruct (copySelector_safe (calledSessionSelector session) (buffer message) offset n)
      as (sel & -> & Hsel & _); try done; try lia.
    cbn [mbind option_bind]. do 2 eexists. split; [done|]. split; [by split_and!|lia].
  - do 2 eexists. split; [done|].
    pose proof (wrap_user_data message offset session Hm ltac:(lia)) as Hu.
    split; [|exact Hu]. destruct Hu as (_ & Hw & _). by split_and!.
Qed.

Lemma parseSessionHeader_safe fuel : forall session message offset max,
  session_wf session -> wf message -> 0 <= offset -> max <= ByteBuf.size message ->
  Z.max 0 (max - offset) < Z.of_nat fuel ->
  exists s ind, parseSessionHeader_loop fuel session message offset max = Some (s, ind) /\
    session_wf s /\
    (ind = SESSION_ERROR \/ ind = SESSION_OK /\ exists off, user_data_from message off s).
Proof.
  induction fuel as [|fuel IH]; intros session message offset max Hs Hm Ho Hmax Hf; [lia|].
  cbn [parseSessionHeader_loop]. destruct (Hm) as (Hb & Hsz & Hl).
  case_decide as Hlt; [|do 2 eexists; split; [done|]; by auto].
  destruct (rd_ok (buffer message) offset Hb) as (pgi & -> & _); [lia|].
  destruct (rd_ok (buffer message) (offset + 1) Hb) as (n & -> & Hn); [lia|].
  cbn [mbind option_bind]. case_decide as Hfit; [do 2 eexists; split; [done|]; by auto|].
  destruct (parseHeaderItem_safe session message pgi n (offset + 2))
    as (s & r & -> & Hs' & Hr); try done; try lia; [apply Hn|].
  cbn [mbind option_bind]. destruct r as [ind|q]; [|apply IH; try done; lia].
  do 2 eexists. split; [done|]. split; [done|].
  destruct ind; try (by left); try done. right. split; [done|]. by eexists.
Qed.

Lemma parseWithParameters_safe self message n ind :
  session_wf self -> wf message -> 0 <= n -> ind <> SESSION_ERROR ->
  exists s r, parseWithParameters self message n ind = Some (s, r) /\ session_wf s /\
    (r = SESSION_ERROR \/ r = ind /\ exists off, user_data_from message off s).
Proof.
  intros Hs Hm Hn Hi. unfold parseWithParameters.
  case_decide as Hne; [do 2 eexists; split; [done|]; by auto|].
  unfold parseSessionHeaderParameters.
  destruct (parseSessionHeader_safe (S (Z.to_nat n)) self message 2 (2 + n))
    as (s & r & -> & Hs' & Hr); try done; try lia.
  cbn [mbind option_bind]. do 2 eexists. split; [done|]. split; [done|].
  destruct Hr as [-> | [-> Hu]]; [by left|by right].
Qed.

Definition has_user_data (ind : IsoSessionIndication) : Prop :=
  ind = SESSION_CONNECT \/ ind = SESSION_DATA \/ ind = SESSION_FINISH \/ ind = SESSION_DISCONNECT.

Lemma parseMessage_total self message :
  session_wf self -> wf message ->
  exists s ind, parseMessage self message = Some (s, ind) /\ session_wf s /\
    (has_user_data ind -> exists off, user_data_from message off s) /\
    (~ has_user_data ind ->
     ind = SESSION_ERROR \/ ind = SESSION_ABORT \/ ind = SESSION_NOT_FINISHED).
Proof.
  intros Hs Hm. destruct (Hm) as (Hb & Hsz & Hl).
  assert (Hend : forall s ind, session_wf s ->
    ind = SESSION_ERROR \/ ind = SESSION_ABORT \/ ind = SESSION_NOT_FINISHED ->
    exists s' ind', Some (s, ind) = Some (s', ind') /\ session_wf s' /\
      (has_user_data ind' -> exists off, user_data_from message off s') /\
      (~ has_user_data ind' ->
       ind' = SESSION_ERROR \/ ind' = SESSION_ABORT \/ ind' = SESSION_NOT_FINISHED)).
  { intros s ind Hs' Hi. exists s, ind. split; [done|]. split; [done|]. split; [|done].
    unfold has_user_data. naive_solver. }
  assert (Hpar : forall n ind, 0 <= n -> has_user_data ind -> exists s' ind',
    parseWithParameters self message n ind = Some (s', ind') /\ session_wf s' /\
      (has_user_data ind' -> exists off, user_data_from message off s') /\
      (~ has_user_data ind' ->
       ind' = SESSION_ERROR \/ ind' = SESSION_ABORT \/ ind' = SESSION_NOT_FINISHED)).
  { intros n ind Hn Hu.
    assert (Hi : ind <> SESSION_ERROR) by (unfold has_user_data in Hu; naive_solver).
    destruct (parseWithParameters_safe self message n ind) as (s & r & E & Hs' & Hr); try done.
    exists s, r. split; [done|]. split; [done|]. unfold has_user_data in *. naive_solver. }
  unfold parseMessage. case_decide as H1; [|by apply Hend; auto].
  destruct (rd_ok (buffer message) 0 Hb) as (id & -> & _); [lia|].
  destruct (rd_ok (buffer message) 1 Hb) as (n & -> & Hn); [lia|]. cbn [mbind option_bind].
  unfold is_u8 in Hn.
  case_decide; [apply Hpar; [lia|by left]|]. case_decide.
  - case_decide; [by apply Hend; auto|].
    destruct (rd_ok (buffer message) 2 Hb) as (b2 & -> & _); [lia|].
    destruct (rd_ok (buffer message) 3 Hb) as (b3 & -> & _); [lia|]. cbn [mbind option_bind].
    case_decide; [|by apply Hend; auto].
    pose proof (wrap_user_data message 4 self Hm ltac:(lia)) as Hu.
    do 2 eexists. split; [done|]. destruct Hs as (? & ? & ? & ? & ?).
    split; [split_and!; try done; apply Hu|]. split; [|unfold has_user_data; naive_solver].
    intros _. by exists 4.
  - repeat case_decide; try (by apply Hend; auto).
    + apply Hpar; [lia|]. unfold has_user_data. tauto.
    + apply Hpar; [lia|]. unfold has_user_data. tauto.
Qed.

(** C33: [IsoSession_parseMessage] terminates and stays inside the message and
    the selectors, whatever the bytes are; when it hands user data to the upper
    layer, they are the end of the message from some offset on. *)
Theorem parseMessage_safe self message :
  session_wf self -> wf message ->
  exists s ind, parseMessage self message = Some (s, ind) /\ session_wf s /\
    (has_user_data ind -> exists off, user_data_from message off s) /\
    (~ has_user_data ind ->
     ind = SESSION_ERROR \/ ind = SESSION_ABORT \/ ind = SESSION_NOT_FINISHED).
Proof. apply parseMessage_total. Qed.

(** ** The layout of the SPDUs *)

Definition selector_item (code : Z) (sel : SSelector) : list Z :=
  [code; size sel] ++ take (Z.to_nat (size sel)) (value sel).

Lemma encodeSelector_puts code sel buf offset : sel_wf sel ->
  encodeSelector code sel buf offset = puts buf offset (selector_item code sel).
Proof.
  intros (_ & Hl & Hs). unfold encodeSelector, selector_item. rewrite puts_app.
  destruct (puts buf offset _) as [[b p]|]; [|done]. cbn [mbind option_bind].
  apply copy_at_Z; [apply bytes_at_take, bytes_at_0|]. rewrite length_take. lia.
Qed.

Lemma selector_item_length code sel : sel_wf sel -> zlen (selector_item code sel) = 2 + size sel.
Proof. intros (_ & Hl & Hs). unfold selector_item. cbn [app length]. rewrite length_take. lia. Qed.

Lemma selector_item_bytes code sel : is_u8 code -> sel_wf sel -> is_bytes (selector_item code sel).
Proof.
  intros Hc (Hb & Hl & Hs). unfold selector_item. apply Forall_app_2; [|by apply Forall_take].
  apply Forall_cons; split; [done|]. apply Forall_cons; split; [unfold is_u8; lia|constructor].
Qed.

Definition accept_item (options : Z) : list Z := [5; 6; 0x13; 1; options; 0x16; 1; 2].

Definition requirement_item (self : IsoSession) : list Z :=
  [0x14; 2; Z.quot (sessionRequirement self) 0x100; Z.land (sessionRequirement self) 0x00ff].

(** The parameters of the connect and of the accept SPDU in front of user data
    of [n] octets. *)
Definition connect_parameters (self : IsoSession) (n : Z) : list Z :=
  accept_item 0 ++ requirement_item self ++ selector_item 0x33 (callingSessionSelector self) ++
  selector_item 0x34 (calledSessionSelector self) ++ [0xc1; n].

Definition accept_parameters (self : IsoSession) (n : Z) : list Z :=
  accept_item (protocolOptions self) ++ requirement_item self ++
  selector_item 0x34 (calledSessionSelector self) ++ [0xc1; n].

(** The code octet is written first, then the parameters behind the length octet,
    and the length octet last. *)
Lemma spdu_layout buf code li rest :
  is_bytes rest -> is_u8 code -> 2 + zlen rest <= zlen buf ->
  exists b1 b2 b3, put buf 0 code = Some (b1, 1) /\ puts b1 2 rest = Some (b2, 2 + zlen rest) /\
    wr b2 1 li = Some b3 /\ take (Z.to_nat (2 + zlen rest)) b3 = code :: u8 li :: rest /\
    zlen b3 = zlen buf /\ (is_bytes buf -> is_bytes b3).
Proof.
  intros Hr Hc Hl. destruct (puts_Some buf 0 [code]) as [b1 E1]; [lia|cbn [length]; lia|].
  destruct (puts_inv _ _ _ _ _ E1) as (_ & Hl1 & Hat1 & _ & _).
  destruct (puts_Some b1 2 rest) as [b2 E2]; [lia|lia|].
  destruct (puts_inv _ _ _ _ _ E2) as (_ & Hl2 & Hat2 & _ & Hfr2).
  exists b1, b2, (<[Z.to_nat 1 := u8 li]> b2).
  pose proof (wr_Some b2 1 li ltac:(lia)) as E3. rewrite E3.
  split; [by rewrite puts_one, E1|]. split; [done|]. split; [done|].
  destruct (wr_inv b2 1 li _ (wr_Some b2 1 li ltac:(lia))) as (_ & Hl3 & Hat3 & Hfr3).
  set (b3 := <[Z.to_nat 1 := u8 li]> b2) in *.
  split; [|split; [lia|intros Hb; eapply wr_bytes, E3; eapply puts_bytes, E2; by eapply puts_bytes, E1]].
  replace (Z.to_nat (2 + zlen rest)) with (length (code :: u8 li :: rest)) by (cbn [length]; lia).
  apply take_bytes_at. rewrite u8_bytes in Hat2 by done. destruct Hat1 as [Hat1 _].
  cbn [fmap list_fmap] in Hat1. rewrite u8_id in Hat1 by done.
  split; [|split; [done|]].
  - rewrite Hfr3, Hfr2 by lia. done.
  - eapply bytes_at_frame; [exact Hat2|]. intros j Hj. apply Hfr3. lia.
Qed.

Lemma connect_parameters_length self n :
  sel_wf (callingSessionSelector self) -> sel_wf (calledSessionSelector self) ->
  zlen (connect_parameters self n) =
  18 + size (callingSessionSelector self) + size (calledSessionSelector self).
Proof.
  intros H1 H2. unfold connect_parameters.
  rewrite !length_app, !Nat2Z.inj_add, !selector_item_length by done. cbn [length accept_item requirement_item]. lia.
Qed.

Lemma accept_parameters_length self n :
  sel_wf (calledSessionSelector self) ->
  zlen (accept_parameters self n) = 16 + size (calledSessionSelector self).
Proof.
  intros H1. unfold accept_parameters.
  rewrite !length_app, !Nat2Z.inj_add, !selector_item_length by done. cbn [length accept_item requirement_item]. lia.
Qed.

Lemma requirement_item_bytes self : is_u16 (sessionRequirement self) -> is_bytes (requirement_item self).
Proof.
  intros H. unfold requirement_item. change 0x00ff with (Z.ones 8). rewrite Z.land_ones by lia.
  unfold is_u16 in H. rewrite Z.quot_div_nonneg by lia. change (2 ^ 8) with 256.
  repeat (apply Forall_cons; split; [unfold is_u8; zlia|]). constructor.
Qed.

Lemma accept_item_bytes options : is_u8 options -> is_bytes (accept_item options).
Proof. intros H. unfold accept_item. by repeat (apply Forall_cons; split; [done|]). Qed.

Lemma parameters_bytes self n :
  session_wf self -> is_u8 n ->
  is_bytes (connect_parameters self n) /\ is_bytes (accept_parameters self n).
Proof.
  intros (H1 & H2 & H3 & H4 & _) Hn. unfold connect_parameters, accept_parameters.
  assert (Hud : is_bytes [0xc1; n]) by (by repeat (apply Forall_cons; split; [done|])).
  split; repeat (apply Forall_app_2; [first [by apply accept_item_bytes |
    by apply requirement_item_bytes | by apply selector_item_bytes]|]); done.
Qed.

(** The user data item is written with the length truncated to an octet. *)
Lemma user_data_u8 buf offset n : encodeSessionUserData buf offset n = puts buf offset [0xc1; u8 n].
Proof.
  unfold encodeSessionUserData. cbn [puts]. unfold put, wr.
  assert (Hu : u8 (u8 n) = u8 n) by apply u8_id, u8_range. by rewrite Hu.
Qed.

(** What [IsoSession_createConnectSpdu] puts in front of the payload. *)
(** The part that ends a create function. *)
Lemma spdu_part pm b p payload hdr : chain_wf payload -> take (Z.to_nat p) b = hdr -> p <= zlen b -> 0 < p ->
  zlen hdr = p ->
  forall buf, zlen b = zlen buf -> (is_bytes buf -> is_bytes b) ->
  let c := finishPart pm b p (zlen (chain_bytes payload)) payload in
  (is_bytes buf -> part_ok buf c) /\ chain_bytes c = hdr ++ chain_bytes payload.
Proof.
  intros Hc <- Hp Hpos Hl buf Hlb Hb c. split; [|done]. intros H%Hb. split; [|done|done]. cbn [c chain_wf finishPart].
  split_and!; try done. cbn [chain_bytes]. rewrite length_app. lia.
Qed.

Lemma createConnectSpdu_spec self remote local pm buf payload :
  let self' := set_callingSessionSelector local (set_calledSessionSelector remote self) in
  let n := zlen (chain_bytes payload) in
  let ps := connect_parameters self' (u8 n) in
  session_wf self' -> chain_wf payload -> payload <> ChainNull -> 2 + zlen ps <= zlen buf ->
  exists c, createConnectSpdu self remote local pm buf payload = Some (self', c) /\ (is_bytes buf -> part_ok buf c) /\
    chain_bytes c = 13 :: u8 (zlen ps + n) :: ps ++ chain_bytes payload.
Proof.
  intros self' n ps Hw Hc Hnn Hfit. destruct (chain_length_Some payload Hc Hnn) as [Hl Hpos].
  destruct (parameters_bytes self' (u8 n) Hw (u8_range n)) as [Hb _].
  destruct (spdu_layout buf 13 (zlen ps + n) ps) as (b1 & b2 & b3 & E1 & E2 & E3 & E4 & El & Eb);
    try done.
  destruct Hw as (Hw1 & Hw2 & _).
  unfold createConnectSpdu. rewrite Hl, E1. cbn [mbind option_bind]. fold self' n.
  change (1 + 1) with 2. unfold ps, connect_parameters in E2.
  rewrite puts_app in E2. change (encodeConnectAcceptItem b1 2 0) with (puts b1 2 (accept_item 0)).
  destruct (puts b1 2 (accept_item 0)) as [[a1 q1]|]; [|done]. cbn [mbind option_bind] in *.
  rewrite puts_app in E2.
  change (encodeSessionRequirement self' a1 q1) with (puts a1 q1 (requirement_item self')).
  destruct (puts a1 q1 (requirement_item self')) as [[a2 q2]|]; [|done]. cbn [mbind option_bind] in *.
  rewrite puts_app in E2. unfold encodeCallingSessionSelector. rewrite encodeSelector_puts by done.
  destruct (puts a2 q2 _) as [[a3 q3]|]; [|done]. cbn [mbind option_bind] in *.
  rewrite puts_app in E2. unfold encodeCalledSessionSelector. rewrite encodeSelector_puts by done.
  destruct (puts a3 q3 _) as [[a4 q4]|]; [|done]. cbn [mbind option_bind] in *.
  rewrite user_data_u8, E2. fold (connect_parameters self' (u8 n)). fold ps. cbn [mbind option_bind].
  replace (2 + zlen ps - 1 - 1 + n) with (zlen ps + n) by lia. rewrite E3. cbn [mbind option_bind].
  eexists. split; [done|]. apply (spdu_part pm b3 (2 + zlen ps) payload _ Hc E4); try done; [lia..|].
  cbn [length]. lia.
Qed.

Lemma createAcceptSpdu_spec self pm buf payload :
  let n := zlen (chain_bytes payload) in
  let ps := accept_parameters self (u8 n) in
  session_wf self -> chain_wf payload -> payload <> ChainNull -> 2 + zlen ps <= zlen buf ->
  exists c, createAcceptSpdu self pm buf payload = Some c /\ (is_bytes buf -> part_ok buf c) /\
    chain_bytes c = 14 :: u8 (zlen ps + n) :: ps ++ chain_bytes payload.
Proof.
  intros n ps Hw Hc Hnn Hfit. destruct (chain_length_Some payload Hc Hnn) as [Hl Hpos].
  destruct (parameters_bytes self (u8 n) Hw (u8_range n)) as [_ Hb].
  destruct (spdu_layout buf 14 (zlen ps + n) ps) as (b1 & b2 & b3 & E1 & E2 & E3 & E4 & El & Eb);
    try done.
  destruct Hw as (Hw1 & Hw2 & _).
  unfold createAcceptSpdu. rewrite Hl, E1. cbn [mbind option_bind]. fold n.
  change (1 + 1) with 2. unfold ps, accept_parameters in E2.
  rewrite puts_app in E2.
  change (encodeConnectAcceptItem b1 2 _) with (puts b1 2 (accept_item (protocolOptions self))).
  destruct (puts b1 2 _) as [[a1 q1]|]; [|done]. cbn [mbind option_bind] in *.
  rewrite puts_app in E2.
  change (encodeSessionRequirement self a1 q1) with (puts a1 q1 (requirement_item self)).
  destruct (puts a1 q1 (requirement_item self)) as [[a2 q2]|]; [|done]. cbn [mbind option_bind] in *.
  rewrite puts_app in E2. unfold encodeCalledSessionSelector. rewrite encodeSelector_puts by done.
  destruct (puts a2 q2 _) as [[a4 q4]|]; [|done]. cbn [mbind option_bind] in *.
  rewrite user_data_u8, E2. fold (accept_parameters self (u8 n)). fold ps. cbn [mbind option_bind].
  replace (2 + zlen ps - 1 - 1 + n) with (zlen ps + n) by lia. rewrite E3. cbn [mbind option_bind].
  eexists. split; [done|]. apply (spdu_part pm b3 (2 + zlen ps) payload _ Hc E4); try done; [lia..|].
  cbn [length]. lia.
Qed.

(** The data SPDU has memory of its own. *)
Lemma createDataSpdu_spec pm payload : chain_wf payload -> payload <> ChainNull ->
  exists c, createDataSpdu pm payload = Some c /\ chain_wf c /\ c <> ChainNull /\
    chain_bytes c = dataSpdu ++ chain_bytes payload.
Proof.
  intros Hc Hnn. destruct (chain_length_Some payload Hc Hnn) as [El _]. unfold createDataSpdu. rewrite El.
  cbn [mbind option_bind]. eexists. split; [done|]. split; [|done]. cbn [chain_wf chain_bytes].
  split_and!; try done; [const_bytes|]. rewrite length_app, Nat2Z.inj_add.
  change (zlen (take (Z.to_nat 4) dataSpdu)) with 4. lia.
Qed.

Lemma createDisconnectSpdu_spec pm buf payload : chain_wf payload -> payload <> ChainNull ->
  is_bytes buf -> 4 <= zlen buf ->
  exists c, createDisconnectSpdu pm buf payload = Some c /\ part_ok buf c /\
    chain_bytes c = [10; u8 (2 + zlen (chain_bytes payload)); 193; u8 (zlen (chain_bytes payload))] ++ chain_bytes payload.
Proof.
  intros Hc Hnn Hb Hl. destruct (chain_length_Some payload Hc Hnn) as [El _]. unfold createDisconnectSpdu. rewrite El.
  cbn [mbind option_bind]. set (n := zlen (chain_bytes payload)).
  destruct (puts_Some buf 0 [10; 2 + n; 193; n]) as [b E]; [lia|cbn [length]; lia|]. rewrite E. cbn [mbind option_bind].
  pose proof (part_bytes buf _ b _ pm payload Hb E) as Eb. fold n in Eb.
  destruct (puts_inv _ _ _ _ _ E) as (Ep & Elb & _). cbn [length] in Ep.
  assert (Hhdr : take (Z.to_nat (0 + zlen [10; 2 + n; 193; n])) b = [10; u8 (2 + n); 193; u8 n]).
  { cbn [finishPart chain_bytes] in Eb. by apply app_inv_tail in Eb. }
  destruct (spdu_part pm b _ payload _ Hc Hhdr) with (buf := buf) as [Hw _]; try done.
  - cbn [length]. lia.
  - intros H. by eapply puts_bytes.
  - eexists. split; [done|]. split; [by apply Hw|exact Eb].
Qed.

(** ** Parsing the items *)

Lemma header_step fuel session message offset max pgi n :
  0 <= offset -> offset + 2 < max -> offset + 2 + n <= max ->
  bytes_at (buffer message) offset [pgi; n] ->
  parseSessionHeader_loop (S fuel) session message offset max =
  '(session, r) ← parseHeaderItem session message pgi n (offset + 2);
  match r with
  | inl ind => Some (session, ind)
  | inr offset => parseSessionHeader_loop fuel session message offset max
  end.
Proof.
  intros Ho H1 H2 (E1 & E2 & _). cbn [parseSessionHeader_loop]. rewrite decide_True by lia.
  rewrite E1, E2. cbn [mbind option_bind]. by rewrite decide_False by lia.
Qed.

Lemma accept_step fuel session buf start offset max o v pi n :
  0 <= offset -> offset + 2 < max -> offset + 2 + n <= max -> bytes_at buf offset [pi; n] ->
  parseAcceptParameters_loop (S fuel) session buf start offset max o v =
  '(session, r) ← parseAcceptItem session buf pi n (offset + 2) o v;
  match r with
  | None => Some (session, -1)
  | Some (offset, o, v) => parseAcceptParameters_loop fuel session buf start offset max o v
  end.
Proof.
  intros Ho H1 H2 (E1 & E2 & _). cbn [parseAcceptParameters_loop]. rewrite decide_True by lia.
  rewrite E1, E2. cbn [mbind option_bind]. by rewrite decide_False by lia.
Qed.

Lemma accept_end fuel session buf start offset max o v :
  max <= offset + 2 ->
  parseAcceptParameters_loop (S fuel) session buf start offset max o v =
  Some (session, if o && v then offset - start else -1).
Proof. intros H. cbn [parseAcceptParameters_loop]. by rewrite decide_False by lia. Qed.

Lemma parseAcceptParameters_item session message offset o :
  0 <= offset -> bytes_at (buffer message) offset [0x13; 1; o; 0x16; 1; 2] ->
  parseAcceptParameters session message offset 6 = Some (set_protocolOptions o session, 6).
Proof.
  intros Ho (E1 & E2 & E3 & E4 & E5 & E6 & _). unfold parseAcceptParameters.
  change (S (Z.to_nat 6)) with 7%nat. rewrite (accept_step _ _ _ _ _ _ _ _ 0x13 1) by (done || lia).
  replace (offset + 1 + 1) with (offset + 2) in * by lia.
  unfold parseAcceptItem. rewrite decide_True, decide_False by lia.
  rewrite E3. cbn [mbind option_bind]. rewrite (accept_step _ _ _ _ _ _ _ _ 0x16 1) by (done || lia).
  unfold parseAcceptItem. rewrite !decide_False, decide_True by lia.
  replace (offset + 2 + 1 + 2) with (offset + 2 + 1 + 1 + 1) by lia. rewrite E6.
  cbn [mbind option_bind]. rewrite decide_False by lia. rewrite accept_end by lia.
  cbn [andb]. do 2 f_equal. lia.
Qed.

Section Items.
Context (message : ByteBuffer) (max : Z).

Definition items_at (offset : Z) (items : list Z) : Prop :=
  0 <= offset /\ bytes_at (buffer message) offset items /\ offset + zlen items < max.

Lemma parse_accept_item fuel session offset o items :
  items_at offset (accept_item o ++ items) ->
  parseSessionHeader_loop (S fuel) session message offset max =
    parseSessionHeader_loop fuel (set_protocolOptions o session) message (offset + 8) max /\
  items_at (offset + 8) items.
Proof using Type.
  intros (Ho & Hat & Hl). rewrite length_app in Hl. cbn [length accept_item] in Hl.
  apply bytes_at_app in Hat as [Hat Hrest]. split; [|split_and!; [lia|exact Hrest|lia]].
  change (accept_item o) with ([5; 6] ++ [0x13; 1; o; 0x16; 1; 2]) in Hat.
  apply bytes_at_app in Hat as [Hh Hp]. cbn [length] in Hp. change (Z.of_nat 2) with 2 in Hp.
  rewrite (header_step _ _ _ _ _ 5 6) by (done || lia). unfold parseHeaderItem.
  rewrite decide_True by done. rewrite (parseAcceptParameters_item _ _ _ o) by (done || lia).
  cbn [mbind option_bind]. rewrite decide_False by lia. f_equal. lia.
Qed.

Lemma parse_requirement_item fuel session self offset items :
  is_u16 (sessionRequirement self) -> items_at offset (requirement_item self ++ items) ->
  parseSessionHeader_loop (S fuel) session message offset max =
    parseSessionHeader_loop fuel (set_sessionRequirement (sessionRequirement self) session)
      message (offset + 4) max /\
  items_at (offset + 4) items.
Proof using Type.
  intros Hr (Ho & Hat & Hl). rewrite length_app in Hl. cbn [length requirement_item] in Hl.
  apply bytes_at_app in Hat as [(E1 & E2 & E3 & E4 & _) Hrest].
  split; [|split_and!; [lia|exact Hrest|lia]].
  rewrite (header_step _ _ _ _ _ 0x14 2) by (done || lia). unfold parseHeaderItem.
  rewrite decide_False, decide_True, decide_False by lia.
  replace (offset + 2) with (offset + 1 + 1) by lia. rewrite E3, E4. cbn [mbind option_bind].
  replace (offset + 1 + 1 + 2) with (offset + 4) by lia.
  change 0x00ff with (Z.ones 8). rewrite Z.land_ones by lia. unfold is_u16 in Hr.
  rewrite Z.quot_div_nonneg by lia. change (2 ^ 8) with 256.
  assert (Hq : u16 (u16 (sessionRequirement self / 256 * 256) + sessionRequirement self mod 256) =
    sessionRequirement self) by zlia.
  by rewrite Hq.
Qed.

Definition sel_eq (a b : SSelector) : Prop :=
  size a = size b /\ take (Z.to_nat (size b)) (value a) = take (Z.to_nat (size b)) (value b).

Lemma parse_selector_item fuel session code sel offset items :
  is_bytes (buffer message) -> session_wf session -> sel_wf sel -> code = 51 \/ code = 52 ->
  items_at offset (selector_item code sel ++ items) ->
  exists sel', sel_wf sel' /\ sel_eq sel' sel /\
    parseSessionHeader_loop (S fuel) session message offset max =
      parseSessionHeader_loop fuel
        ((if decide (code = 51) then set_callingSessionSelector else set_calledSessionSelector)
           sel' session) message (offset + 2 + size sel) max /\
    items_at (offset + 2 + size sel) items.
Proof using Type.
  intros Hb (Hc1 & Hc2 & _) Hsel Hcode (Ho & Hat & Hl).
  assert (Hil := selector_item_length code sel Hsel). rewrite length_app in Hl.
  apply bytes_at_app in Hat as [Hat Hrest]. rewrite Hil in Hrest. destruct (Hsel) as (_ & Hvl & Hs).
  apply bytes_at_app in Hat as [Hh Hv]. cbn [length] in Hv. change (Z.of_nat 2) with 2 in Hv.
  set (v := take (Z.to_nat (size sel)) (value sel)) in *.
  assert (Hvn : zlen v = size sel) by (unfold v; rewrite length_take; lia).
  assert (Hcopy : forall old, sel_wf old -> exists sel',
    copySelector old (buffer message) (offset + 2) (size sel) = Some sel' /\ sel_wf sel' /\
    sel_eq sel' sel).
  { intros old Ho'. destruct (decide (size sel = 0)) as [H0|H0].
    - rewrite H0. unfold copySelector. cbn. eexists. split; [done|].
      destruct Ho' as (? & ? & ?). split; [by split_and!|]. split; [by rewrite H0|].
      rewrite H0. done.
    - assert (Hvne : v <> []) by (intros E; rewrite E in Hvn; cbn in Hvn; lia).
      destruct (bytes_at_bound _ _ _ Hv Hvne) as [_ Hbl].
      destruct (copySelector_safe old (buffer message) (offset + 2) (size sel))
        as (sel' & E & Hw & Hsz & Ht); try done; try lia.
      exists sel'. split; [done|]. split; [done|]. split; [done|]. rewrite Ht.
      fold v. rewrite <- Hvn, Nat2Z.id.
      apply rd_ext; [rewrite length_take, length_drop; lia|]. intros i Hi.
      rewrite length_take, length_drop in Hi. rewrite rd_take by lia.
      destruct (lookup_lt_is_Some_2 v (Z.to_nat i)) as [y Hy]; [lia|].
      apply (bytes_at_lookup _ _ _ _ _ Hv) in Hy as Hy'.
      unfold rd. rewrite !decide_True, lookup_drop by lia. rewrite Hy, <- Hy'. unfold rd.
      rewrite decide_True by lia. f_equal. lia. }
  assert (Hit : items_at (offset + 2 + size sel) items).
  { split_and!; [lia| |lia]. replace (offset + 2 + size sel) with (offset + (2 + size sel)) by lia.
    done. }
  destruct Hcode as [-> | ->].
  - destruct (Hcopy (callingSessionSelector session)) as (sel' & E & Hw & Heq); [done|].
    exists sel'. split; [done|]. split; [done|]. split; [|done].
    rewrite (header_step _ _ _ _ _ 51 (size sel)) by (done || lia). unfold parseHeaderItem.
    rewrite !decide_False, decide_True, decide_False by lia. by rewrite E.
  - destruct (Hcopy (calledSessionSelector session)) as (sel' & E & Hw & Heq); [done|].
    exists sel'. split; [done|]. split; [done|]. split; [|done].
    rewrite (header_step _ _ _ _ _ 52 (size sel)) by (done || lia). unfold parseHeaderItem.
    rewrite !decide_False, decide_True, decide_False by lia. by rewrite E.
Qed.

Lemma parse_user_data fuel session offset n :
  items_at offset [193; n] -> offset + 2 + n = max ->
  parseSessionHeader_loop (S fuel) session message offset max =
  Some (set_userData (ByteBuffer_wrap (drop (Z.to_nat (offset + 2)) (buffer message))
          (ByteBuf.size message - (offset + 2)) (maxSize message - (offset + 2))) session,
        SESSION_OK).
Proof using Type.
  intros (Ho & Hat & Hl) Hn. cbn [length] in Hl.
  rewrite (header_step _ _ _ _ _ 193 n) by (done || lia). unfold parseHeaderItem.
  by rewrite !decide_False, decide_True by lia.
Qed.

End Items.

(** ** Round trips *)

(** A message whose first octets are [code] and the length octet of [len] octets. *)
Lemma parseMessage_parameters self message code len rest ind :
  wf message -> content message = code :: u8 len :: rest -> zlen rest = len ->
  (code, ind) = (13, SESSION_CONNECT) \/ (code, ind) = (14, SESSION_CONNECT) \/
  (code, ind) = (9, SESSION_FINISH) \/ (code, ind) = (10, SESSION_DISCONNECT) ->
  parseMessage self message =
    if decide (len < 256) then
      '(self, r) ← parseSessionHeaderParameters self message len;
      Some (self, if decide (r = SESSION_OK) then ind else SESSION_ERROR)
    else Some (self, SESSION_ERROR).
Proof.
  intros Hm Hc Hl Hcode. assert (Hcl := content_length message Hm). rewrite Hc in Hcl.
  cbn [length] in Hcl. unfold parseMessage. rewrite decide_True by lia.
  assert (Hrd : forall i, 0 <= i < ByteBuf.size message ->
    rd (buffer message) i = rd (content message) i).
  { intros i Hi. unfold content. by rewrite rd_take by lia. }
  rewrite (Hrd 0), (Hrd 1), Hc by lia. rewrite rd_0, rd_S by lia. change (1 - 1) with 0. rewrite rd_0.
  cbn [mbind option_bind].
  assert (Hpar : parseWithParameters self message (u8 len) ind =
    if decide (len < 256) then
      '(self, r) ← parseSessionHeaderParameters self message len;
      Some (self, if decide (r = SESSION_OK) then ind else SESSION_ERROR)
    else Some (self, SESSION_ERROR)).
  { unfold parseWithParameters. destruct (decide (len < 256)) as [H256|H256].
    - rewrite u8_id by (unfold is_u8; lia). by rewrite decide_False by lia.
    - pose proof (u8_range len) as Hu. unfold is_u8 in Hu. by rewrite decide_True by lia. }
  naive_solver.
Qed.

Lemma content_bytes_at message : bytes_at (buffer message) 0 (content message).
Proof. unfold content. apply bytes_at_take, bytes_at_0. Qed.

(** The user data behind [pre] in a message. *)
Lemma user_data_content message pre user s :
  wf message -> content message = pre ++ user ->
  content (userData (set_userData (ByteBuffer_wrap (drop (Z.to_nat (zlen pre)) (buffer message))
    (ByteBuf.size message - zlen pre) (maxSize message - zlen pre)) s)) = user.
Proof.
  intros Hm Hc. assert (Hcl := content_length message Hm). rewrite Hc, length_app in Hcl.
  destruct (wrap_user_data message (zlen pre) s Hm ltac:(lia)) as (_ & _ & _ & E).
  cbv zeta in E. rewrite E, Hc, Nat2Z.id. apply drop_app_length.
Qed.

Lemma session_wf_set self x : session_wf self -> is_u16 x ->
  session_wf (set_sessionRequirement x self).
Proof. intros (? & ? & ? & ? & ?) Hx. by split_and!. Qed.

Lemma session_wf_options self x : session_wf self -> is_u8 x ->
  session_wf (set_protocolOptions x self).
Proof. intros (? & ? & ? & ? & ?) Hx. by split_and!. Qed.

Lemma session_wf_calling self x : session_wf self -> sel_wf x ->
  session_wf (set_callingSessionSelector x self).
Proof. intros (? & ? & ? & ? & ?) Hx. by split_and!. Qed.

(** The parameters of a connect SPDU, as read by the peer. *)
Lemma parse_connect_parameters peer self message n user code :
  session_wf peer -> session_wf self -> wf message ->
  content message = code :: u8 (zlen (connect_parameters self n) + n) ::
    connect_parameters self n ++ user ->
  zlen user = n -> 0 < n -> zlen (connect_parameters self n) + n < 256 ->
  exists s, parseSessionHeaderParameters peer message (zlen (connect_parameters self n) + n) =
      Some (s, SESSION_OK) /\
    sessionRequirement s = sessionRequirement self /\ protocolOptions s = 0 /\
    sel_eq (callingSessionSelector s) (callingSessionSelector self) /\
    sel_eq (calledSessionSelector s) (calledSessionSelector self) /\
    content (userData s) = user.
Proof.
  intros Hp Hs Hm Hc Hn Hpos H256. set (ps := connect_parameters self n) in *.
  assert (Hcl := content_length message Hm). rewrite Hc in Hcl. cbn [length] in Hcl.
  rewrite length_app in Hcl. unfold parseSessionHeaderParameters.
  set (max := 2 + (zlen ps + n)). destruct Hm as (Hb & Hsz & Hbl).
  assert (Hpl := connect_parameters_length self n). destruct (Hs) as (Hs1 & Hs2 & Hs3 & Hs4 & _).
  specialize (Hpl Hs1 Hs2). fold ps in Hpl. destruct (Hs1) as (_ & _ & Hz1). destruct (Hs2) as (_ & _ & Hz2).
  assert (Hit : items_at message max 2 ps).
  { split; [lia|]. split; [|unfold max; lia]. assert (Hat := content_bytes_at message).
    rewrite Hc in Hat. destruct Hat as (_ & _ & Hat). apply bytes_at_app in Hat as [Hat _]. exact Hat. }
  destruct (Z.to_nat (zlen ps + n)) as [|[|[|[|fuel]]]] eqn:Ef; [lia..|].
  unfold ps, connect_parameters in Hit.
  destruct (parse_accept_item message max (S (S (S (S fuel)))) peer 2 0 _ Hit) as [-> Hit1].
  destruct (parse_requirement_item message max (S (S (S fuel))) (set_protocolOptions 0 peer) self _ _
    Hs3 Hit1) as [-> Hit2].
  assert (Hw2 : session_wf (set_sessionRequirement (sessionRequirement self)
    (set_protocolOptions 0 peer))) by (apply session_wf_set; [by apply session_wf_options|done]).
  destruct (parse_selector_item message max (S (S fuel)) _ 0x33 (callingSessionSelector self) _ _
    Hb Hw2 Hs1 (or_introl eq_refl) Hit2) as (sel1 & Hsel1 & Heq1 & -> & Hit3).
  rewrite decide_True in * by done.
  destruct (parse_selector_item message max (S fuel) _ 0x34 (calledSessionSelector self) _ _
    Hb (session_wf_calling _ _ Hw2 Hsel1) Hs2 (or_intror eq_refl) Hit3)
    as (sel2 & Hsel2 & Heq2 & -> & Hit4).
  rewrite decide_False in * by done.
  set (off := 2 + 8 + 4 + 2 + size (callingSessionSelector self) + 2 + size (calledSessionSelector self)) in *.
  rewrite (parse_user_data message max fuel _ off n Hit4) by (unfold off, max; lia).
  eexists. split; [done|]. split_and!; try done.
  set (pre := code :: u8 (zlen ps + n) :: ps).
  assert (Hpre : off + 2 = zlen pre) by (unfold pre, off; cbn [length]; lia). rewrite Hpre.
  by apply user_data_content.
Qed.

(** The parameters of an accept SPDU, as read by the peer. *)
Lemma parse_accept_parameters peer self message n user code :
  session_wf peer -> session_wf self -> wf message ->
  content message = code :: u8 (zlen (accept_parameters self n) + n) ::
    accept_parameters self n ++ user ->
  zlen user = n -> 0 < n -> zlen (accept_parameters self n) + n < 256 ->
  exists s, parseSessionHeaderParameters peer message (zlen (accept_parameters self n) + n) =
      Some (s, SESSION_OK) /\
    sessionRequirement s = sessionRequirement self /\ protocolOptions s = protocolOptions self /\
    callingSessionSelector s = callingSessionSelector peer /\
    sel_eq (calledSessionSelector s) (calledSessionSelector self) /\
    content (userData s) = user.
Proof.
  intros Hp Hs Hm Hc Hn Hpos H256. set (ps := accept_parameters self n) in *.
  assert (Hcl := content_length message Hm). rewrite Hc in Hcl. cbn [length] in Hcl.
  rewrite length_app in Hcl. unfold parseSessionHeaderParameters.
  set (max := 2 + (zlen ps + n)). destruct Hm as (Hb & Hsz & Hbl).
  assert (Hpl := accept_parameters_length self n). destruct (Hs) as (Hs1 & Hs2 & Hs3 & Hs4 & _).
  specialize (Hpl Hs2). fold ps in Hpl. destruct (Hs2) as (_ & _ & Hz2).
  assert (Hit : items_at message max 2 ps).
  { split; [lia|]. split; [|unfold max; lia]. assert (Hat := content_bytes_at message).
    rewrite Hc in Hat. destruct Hat as (_ & _ & Hat). apply bytes_at_app in Hat as [Hat _]. exact Hat. }
  destruct (Z.to_nat (zlen ps + n)) as [|[|[|fuel]]] eqn:Ef; [lia..|].
  unfold ps, accept_parameters in Hit.
  destruct (parse_accept_item message max (S (S (S fuel))) peer 2 _ _ Hit) as [-> Hit1].
  destruct (parse_requirement_item message max (S (S fuel))
    (set_protocolOptions (protocolOptions self) peer) self _ _ Hs3 Hit1) as [-> Hit2].
  assert (Hw2 : session_wf (set_sessionRequirement (sessionRequirement self)
    (set_protocolOptions (protocolOptions self) peer)))
    by (apply session_wf_set; [by apply session_wf_options|done]).
  destruct (parse_selector_item message max (S fuel) _ 0x34 (calledSessionSelector self) _ _
    Hb Hw2 Hs2 (or_intror eq_refl) Hit2) as (sel2 & Hsel2 & Heq2 & -> & Hit4).
  rewrite decide_False in * by done.
  set (off := 2 + 8 + 4 + 2 + size (calledSessionSelector self)) in *.
  rewrite (parse_user_data message max fuel _ off n Hit4) by (unfold off, max; lia).
  eexists. split; [done|]. split_and!; try done.
  set (pre := code :: u8 (zlen ps + n) :: ps).
  assert (Hpre : off + 2 = zlen pre) by (unfold pre, off; cbn [length]; lia). rewrite Hpre.
  by apply user_data_content.
Qed.

Lemma user_octet self n :
  zlen (connect_parameters self n) = zlen (connect_parameters self (u8 n)) /\
  zlen (accept_parameters self n) = zlen (accept_parameters self (u8 n)).
Proof. unfold connect_parameters, accept_parameters. by rewrite !length_app. Qed.

(** A connect SPDU is parsed by the peer as a connect indication with the
    sender's session requirement and selectors and exactly the payload as user
    data, provided its parameters and its payload fit the one length octet; a
    longer one is rejected by the peer. *)
Theorem connect_spdu_roundtrip self remote local pm buf payload peer :
  let self' := set_callingSessionSelector local (set_calledSessionSelector remote self) in
  let len := 18 + size local + size remote + zlen (chain_bytes payload) in
  session_wf self' -> session_wf peer -> chain_wf payload -> payload <> ChainNull ->
  20 + size local + size remote <= zlen buf ->
  exists spdu, createConnectSpdu self remote local pm buf payload = Some (self', spdu) /\
    forall message, wf message -> content message = chain_bytes spdu ->
      if decide (len < 256) then
        exists s, parseMessage peer message = Some (s, SESSION_CONNECT) /\
          sessionRequirement s = sessionRequirement self /\ protocolOptions s = 0 /\
          sel_eq (callingSessionSelector s) local /\ sel_eq (calledSessionSelector s) remote /\
          content (userData s) = chain_bytes payload
      else parseMessage peer message = Some (peer, SESSION_ERROR).
Proof.
  intros self' len Hw Hp Hc Hnn Hbuf. destruct (chain_length_Some payload Hc Hnn) as [_ Hpos].
  set (n := zlen (chain_bytes payload)) in *.
  assert (Hpl : zlen (connect_parameters self' (u8 n)) = 18 + size local + size remote)
    by (apply connect_parameters_length; apply Hw).
  destruct (createConnectSpdu_spec self remote local pm buf payload) as (c & E & _ & Hb);
    try done; [fold self' n; lia|].
  exists c. split; [done|]. intros message Hm Hcm. rewrite Hb in Hcm. fold self' n in Hcm.
  rewrite Hpl in Hcm. replace (18 + size local + size remote + n) with len in Hcm by (unfold len; lia).
  rewrite (parseMessage_parameters peer message 13 len _ SESSION_CONNECT Hm Hcm)
    by (auto; rewrite length_app; unfold len; lia).
  case_decide as H256; [|done]. assert (Hn : u8 n = n) by (apply u8_id; unfold is_u8, len in *;
    destruct Hw as ((_ & _ & ?) & (_ & _ & ?) & _); cbn in *; lia). rewrite Hn in *.
  assert (Hlen : len = zlen (connect_parameters self' n) + n) by (unfold len; lia).
  rewrite Hlen in *.
  destruct (parse_connect_parameters peer self' message n (chain_bytes payload) 13)
    as (s & -> & H1 & H2 & H3 & H4 & H5); try done.
  cbn [mbind option_bind]. exists s. by split_and!.
Qed.

(** The same for the accept SPDU, which answers with the responder's
    protocol options and called selector. *)
Theorem accept_spdu_roundtrip self pm buf payload peer :
  let len := 16 + size (calledSessionSelector self) + zlen (chain_bytes payload) in
  session_wf self -> session_wf peer -> chain_wf payload -> payload <> ChainNull ->
  18 + size (calledSessionSelector self) <= zlen buf ->
  exists spdu, createAcceptSpdu self pm buf payload = Some spdu /\
    forall message, wf message -> content message = chain_bytes spdu ->
      if decide (len < 256) then
        exists s, parseMessage peer message = Some (s, SESSION_CONNECT) /\
          sessionRequirement s = sessionRequirement self /\
          protocolOptions s = protocolOptions self /\
          sel_eq (calledSessionSelector s) (calledSessionSelector self) /\
          content (userData s) = chain_bytes payload
      else parseMessage peer message = Some (peer, SESSION_ERROR).
Proof.
  intros len Hw Hp Hc Hnn Hbuf. destruct (chain_length_Some payload Hc Hnn) as [_ Hpos].
  set (n := zlen (chain_bytes payload)) in *.
  assert (Hpl : zlen (accept_parameters self (u8 n)) = 16 + size (calledSessionSelector self))
    by (apply accept_parameters_length; apply Hw).
  destruct (createAcceptSpdu_spec self pm buf payload) as (c & E & _ & Hb);
    try done; [fold n; lia|].
  exists c. split; [done|]. intros message Hm Hcm. rewrite Hb in Hcm. fold n in Hcm.
  rewrite Hpl in Hcm.
  rewrite (parseMessage_parameters peer message 14 len _ SESSION_CONNECT Hm Hcm)
    by (auto; rewrite length_app; unfold len; lia).
  case_decide as H256; [|done]. assert (Hn : u8 n = n) by (apply u8_id; unfold is_u8, len in *;
    destruct Hw as (_ & (_ & _ & ?) & _); cbn in *; lia). rewrite Hn in *.
  assert (Hlen : 16 + size (calledSessionSelector self) + n = zlen (accept_parameters self n) + n)
    by lia.
  unfold len in *. rewrite Hlen in *.
  destruct (parse_accept_parameters peer self message n (chain_bytes payload) 14)
    as (s & -> & H1 & H2 & H3 & H4 & H5); try done.
  cbn [mbind option_bind]. exists s. by split_and!.
Qed.

(** A header written at the start of the part memory. *)
(** Finish and disconnect: one user data item. *)
Lemma parse_user_data_only peer message n user code :
  wf message -> content message = code :: u8 (2 + n) :: 193 :: u8 n :: user ->
  zlen user = n -> 0 < n -> 2 + n < 256 ->
  exists s, parseSessionHeaderParameters peer message (2 + n) = Some (s, SESSION_OK) /\
    content (userData s) = user.
Proof.
  intros Hm Hc Hn Hpos H256. assert (Hcl := content_length message Hm). rewrite Hc in Hcl.
  cbn [length] in Hcl. unfold parseSessionHeaderParameters.
  rewrite (parse_user_data message (2 + (2 + n)) _ peer 2 n); [| |lia].
  - eexists. split; [done|].
    change (2 + 2) with (zlen [code; u8 (2 + n); 193; u8 n]). by apply user_data_content.
  - split; [lia|]. split; [|cbn [length]; lia]. assert (Hat := content_bytes_at message).
    rewrite Hc in Hat. destruct Hat as (_ & _ & E1 & E2 & _).
    rewrite u8_id in E2 by (unfold is_u8; lia). by split_and!.
Qed.

(** Data, finish and disconnect SPDUs are parsed by the peer as such, with
    exactly the payload as user data; the data SPDU carries a payload of any
    length, the other two one that fits the length octet, and are rejected by the
    peer otherwise. *)
Theorem short_spdu_roundtrip pm buf payload peer :
  let user := chain_bytes payload in
  is_bytes buf -> chain_wf payload -> payload <> ChainNull -> 4 <= zlen buf ->
  exists data finish disconnect,
    createDataSpdu pm payload = Some data /\ createFinishSpdu pm buf payload = Some finish /\
    createDisconnectSpdu pm buf payload = Some disconnect /\
    forall message, wf message ->
      (content message = chain_bytes data ->
       exists s, parseMessage peer message = Some (s, SESSION_DATA) /\ content (userData s) = user) /\
      (content message = chain_bytes finish ->
       if decide (2 + zlen user < 256) then
         exists s, parseMessage peer message = Some (s, SESSION_FINISH) /\ content (userData s) = user
       else parseMessage peer message = Some (peer, SESSION_ERROR)) /\
      (content message = chain_bytes disconnect ->
       if decide (2 + zlen user < 256) then
         exists s, parseMessage peer message = Some (s, SESSION_DISCONNECT) /\
           content (userData s) = user
       else parseMessage peer message = Some (peer, SESSION_ERROR)).
Proof.
  intros user Hb Hc Hnn Hl. destruct (chain_length_Some payload Hc Hnn) as [Hlen Hpos].
  set (n := zlen user) in *. unfold createDataSpdu, createFinishSpdu, createDisconnectSpdu.
  rewrite Hlen. cbn [mbind option_bind]. fold user n.
  destruct (puts_Some buf 0 [9; 2 + n; 193; n]) as [b1 E1]; [lia|cbn [length]; lia|].
  destruct (puts_Some buf 0 [10; 2 + n; 193; n]) as [b2 E2]; [lia|cbn [length]; lia|].
  rewrite E1, E2. cbn [mbind option_bind]. do 3 eexists. do 3 (split; [done|]).
  assert (Hone : forall code ind message, wf message ->
    content message = code :: u8 (2 + n) :: 193 :: u8 n :: user ->
    (code, ind) = (9, SESSION_FINISH) \/ (code, ind) = (10, SESSION_DISCONNECT) ->
    if decide (2 + n < 256) then
      exists s, parseMessage peer message = Some (s, ind) /\ content (userData s) = user
    else parseMessage peer message = Some (peer, SESSION_ERROR)).
  { intros code ind message Hm Hcm Hci.
    rewrite (parseMessage_parameters peer message code (2 + n) _ ind Hm Hcm)
      by (try tauto; cbn [length]; lia).
    case_decide as H256; [|done].
    destruct (parse_user_data_only peer message n user code) as (s & -> & Hu); try done.
    cbn [mbind option_bind]. by exists s. }
  intros message Hm. split; [|split].
  - intros Hcm. cbn [chain_bytes] in Hcm. change (take (Z.to_nat 4) dataSpdu) with [1; 0; 1; 0] in Hcm.
    assert (Hcl := content_length message Hm). rewrite Hcm in Hcl. cbn [app length] in Hcl.
    assert (Hat := content_bytes_at message). rewrite Hcm in Hat. destruct Hat as (F0 & F1 & F2 & F3 & _).
    unfold parseMessage. rewrite decide_True, F0 by lia. cbn [mbind option_bind].
    change (0 + 1) with 1 in *. rewrite F1. cbn [mbind option_bind].
    rewrite decide_False, decide_True, decide_False by lia. change (1 + 1) with 2 in *.
    rewrite F2. cbn [mbind option_bind]. change (2 + 1) with 3 in *. rewrite F3. cbn [mbind option_bind].
    rewrite decide_True by done. eexists. split; [done|].
    exact (user_data_content message [1; 0; 1; 0] user peer Hm Hcm).
  - intros Hcm. rewrite (part_bytes buf _ b1 _ _ payload Hb E1) in Hcm. by apply (Hone 9); [| |left].
  - intros Hcm. rewrite (part_bytes buf _ b2 _ _ payload Hb E2) in Hcm. by apply (Hone 10); [| |right].
Qed.

(** ** Witnesses *)

Definition ex_sel (a b : Z) : SSelector := {| size := 2; value := [a; b] ++ replicate 14 0 |}.

Definition ex_payload (n : nat) : BufferChain :=
  Chain (Z.of_nat n) (Z.of_nat n) (Z.of_nat n) (replicate n 7) ChainNull.

Lemma ex_payload_wf n : 0 < Z.of_nat n -> chain_wf (ex_payload n) /\ ex_payload n <> ChainNull /\
  chain_bytes (ex_payload n) = replicate n 7.
Proof.
  intros Hn. assert (Hb : chain_bytes (ex_payload n) = replicate n 7).
  { cbn [chain_bytes ex_payload]. rewrite app_nil_r, Nat2Z.id. apply take_ge.
    by rewrite length_replicate. }
  split; [|by split]. split; [rewrite length_replicate; lia|]. split; [by apply Forall_replicate|].
  split; [|done]. change (Z.of_nat n = zlen (chain_bytes (ex_payload n))).
  by rewrite Hb, length_replicate.
Qed.

Definition ex_message (bs : list Z) : ByteBuffer := ByteBuffer_wrap bs (zlen bs) (zlen bs).

Lemma ex_message_wf bs : is_bytes bs -> wf (ex_message bs) /\ content (ex_message bs) = bs.
Proof.
  intros Hb. split; [split_and!; cbn; try done; lia|]. unfold content. cbn -[take].
  rewrite Nat2Z.id. by apply take_ge.
Qed.

Lemma init_wf : session_wf init.
Proof. by split_and!; (apply Forall_cons; done) || (repeat constructor). Qed.

Lemma ex_selector_wf a b : is_u8 a -> is_u8 b -> sel_wf (ex_sel a b).
Proof.
  intros Ha Hb. split; [|split; [done|cbn; lia]]. apply Forall_cons; split; [done|].
  apply Forall_cons; split; [done|]. by apply Forall_replicate.
Qed.

Lemma parseMessage_safe_witness :
  exists s off, parseMessage init (ex_message [9; 5; 193; 3; 7; 8; 9]) = Some (s, SESSION_FINISH) /\
    user_data_from (ex_message [9; 5; 193; 3; 7; 8; 9]) off s.
Proof.
  assert (Hb : is_bytes [9; 5; 193; 3; 7; 8; 9]) by solve_bytes.
  destruct (parseMessage_safe init (ex_message [9; 5; 193; 3; 7; 8; 9]))
    as (s & ind & E & _ & Hu & _); [apply init_wf|by apply ex_message_wf|].
  assert (ind = SESSION_FINISH) as -> by (vm_compute in E; congruence).
  destruct Hu as [off Hoff]; [right; right; by left|]. by exists s, off.
Defined.

Lemma connect_spdu_roundtrip_witness :
  exists spdu s, createConnectSpdu init (ex_sel 0 1) (ex_sel 0 2) 100 (replicate 100 0) (ex_payload 9)
      = Some (set_callingSessionSelector (ex_sel 0 2)
               (set_calledSessionSelector (ex_sel 0 1) init), spdu) /\
    parseMessage init (ex_message (chain_bytes spdu)) = Some (s, SESSION_CONNECT) /\
    content (userData s) = replicate 9 7 /\ sel_eq (callingSessionSelector s) (ex_sel 0 2).
Proof.
  destruct (ex_payload_wf 9) as (H1 & H2 & H3); [lia|].
  destruct (connect_spdu_roundtrip init (ex_sel 0 1) (ex_sel 0 2) 100 (replicate 100 0) (ex_payload 9)
    init) as (spdu & E & Hp); try done; [|apply init_wf|].
  { destruct init_wf as (_ & _ & H). do 2 (split; [by apply ex_selector_wf|]). exact H. }
  assert (Hb : is_bytes (chain_bytes spdu)) by (vm_compute in E; injection E as <-; solve_bytes).
  destruct (ex_message_wf _ Hb) as [Hw Hc]. specialize (Hp _ Hw Hc). rewrite H3 in Hp.
  rewrite decide_True in Hp by (cbn; lia). destruct Hp as (s & Ep & _ & _ & Hs & _ & Hu).
  exists spdu, s. by split_and!.
Defined.

Lemma accept_spdu_roundtrip_witness :
  exists spdu, createAcceptSpdu init 300 (replicate 300 0) (ex_payload 238) = Some spdu /\
    parseMessage init (ex_message (chain_bytes spdu)) = Some (init, SESSION_ERROR).
Proof.
  destruct (ex_payload_wf 238) as (H1 & H2 & H3); [lia|].
  destruct (accept_spdu_roundtrip init 300 (replicate 300 0) (ex_payload 238) init)
    as (spdu & E & Hp); try done; [apply init_wf|apply init_wf|].
  assert (Hb : is_bytes (chain_bytes spdu)) by (vm_compute in E; injection E as <-; solve_bytes).
  destruct (ex_message_wf _ Hb) as [Hw Hc]. specialize (Hp _ Hw Hc). rewrite H3 in Hp.
  rewrite decide_False in Hp by (rewrite length_replicate; cbn; lia).
  by exists spdu.
Defined.

Lemma short_spdu_roundtrip_witness :
  exists finish s, createFinishSpdu 10 (replicate 10 0) (ex_payload 3) = Some finish /\
    parseMessage init (ex_message (chain_bytes finish)) = Some (s, SESSION_FINISH) /\
    content (userData s) = [7; 7; 7].
Proof.
  destruct (ex_payload_wf 3) as (H1 & H2 & H3); [lia|].
  assert (H0 : is_bytes (replicate 10 0)) by solve_bytes.
  assert (Hl : 4 <= zlen (replicate 10 0)) by (cbn; lia).
  destruct (short_spdu_roundtrip 10 (replicate 10 0) (ex_payload 3) init H0 H1 H2 Hl)
    as (data & finish & disconnect & _ & E & _ & Hp).
  assert (Hb : is_bytes (chain_bytes finish)) by (vm_compute in E; injection E as <-; solve_bytes).
  destruct (ex_message_wf _ Hb) as [Hw Hc]. destruct (Hp _ Hw) as (_ & Hf & _). specialize (Hf Hc).
  rewrite H3 in Hf. rewrite decide_True in Hf by (cbn; lia). destruct Hf as (s & Ep & Hu).
  exists finish, s. by split_and!.
Defined.

End Session.
