(* ===== verification/Alloc.v ===== *)
(** * Memory allocation

    Functions that allocate run in the [alloc] monad: an oracle decides which
    allocations succeed ([GLOBAL_MALLOC], [GLOBAL_CALLOC] of
    [hal/memory/lib_memory.c]).  [None] is undefined behaviour, as everywhere. *)

From S2P Require Import Prelude.

Module Alloc.

(** The oracle lists which of the coming allocations succeed; beyond its end they
    all do. *)
Definition alloc (A : Type) : Type := list bool -> option (A * list bool).

Definition m_ret {A} (x : A) : alloc A := fun mem => Some (x, mem).
Definition m_bind {A B} (m : alloc A) (k : A -> alloc B) : alloc B :=
  fun mem => '(x, mem) ← m mem; k x mem.
Definition m_lift {A} (o : option A) : alloc A := fun mem => x ← o; Some (x, mem).
Definition malloc : alloc bool :=
  fun mem => match mem with [] => Some (true, []) | b :: mem => Some (b, mem) end.

Declare Scope alloc_scope.
Delimit Scope alloc_scope with alloc.
Notation "x <~ m ; k" := (m_bind m (fun x => k))
  (at level 20, m at level 100, k at level 200, right associativity,
   format "x  <~  m ;  '/' k") : alloc_scope.
#[local] Open Scope alloc_scope.

(** [GLOBAL_CALLOC] of a value whose other parts are [v]. *)
Definition new_value {A} (v : A) : alloc (option A) :=
  ok <~ malloc; m_ret (if (ok : bool) then Some v else None).

(** A request for a negative number of octets is one for nearly the whole address
    space and fails. *)
Definition malloc_size (n : Z) : alloc bool :=
  ok <~ malloc; m_ret ((ok : bool) && bool_decide (0 <= n)).

(** ** Reasoning about allocating code

    [runs m Q]: whatever the oracle, [m] has no undefined behaviour, takes a
    prefix of the oracle, and ends in a result [r] with [Q ok r], where [ok] says
    whether every allocation it made succeeded. *)

Definition runs {A} (m : alloc A) (Q : bool -> A -> Prop) : Prop :=
  forall mem, exists r mem' used,
    m mem = Some (r, mem') /\ mem = used ++ mem' /\ Q (forallb id used) r.

Lemma runs_ret {A} (x : A) (Q : bool -> A -> Prop) : Q true x -> runs (m_ret x) Q.
Proof. intros H mem. by exists x, mem, []. Qed.

Lemma runs_lift {A} (o : option A) x (Q : bool -> A -> Prop) :
  o = Some x -> Q true x -> runs (m_lift o) Q.
Proof. intros -> H mem. by exists x, mem, []. Qed.

Lemma runs_bind {A B} (m : alloc A) (k : A -> alloc B) (Q : bool -> B -> Prop) :
  runs m (fun ok x => runs (k x) (fun ok' r => Q (ok && ok') r)) -> runs (m_bind m k) Q.
Proof.
  intros H mem. destruct (H mem) as (x & mem1 & u1 & E1 & -> & Hk).
  destruct (Hk mem1) as (r & mem2 & u2 & E2 & -> & HQ).
  exists r, mem2, (u1 ++ u2). unfold m_bind. rewrite E1. cbn [mbind option_bind].
  rewrite app_assoc, forallb_app. auto.
Qed.

Lemma runs_malloc (Q : bool -> bool -> Prop) : (forall b, Q b b) -> runs malloc Q.
Proof.
  intros H [|b mem]; [by exists true, [], []|]. exists b, mem, [b]. simpl.
  rewrite andb_true_r. auto.
Qed.

Lemma runs_malloc_size n (Q : bool -> bool -> Prop) :
  0 <= n -> (forall b, Q b b) -> runs (malloc_size n) Q.
Proof.
  intros Hn H. apply runs_bind, runs_malloc. intros b. apply runs_ret.
  rewrite bool_decide_true by done. by rewrite !andb_true_r.
Qed.

Lemma runs_mono {A} (m : alloc A) (P Q : bool -> A -> Prop) :
  runs m P -> (forall ok r, P ok r -> Q ok r) -> runs m Q.
Proof. intros H HPQ mem. destruct (H mem) as (r & mem' & u & E & -> & HP). eauto 10. Qed.

End Alloc.

(** Steps through allocating code; each allocation leaves two cases. *)
Ltac runs_step :=
  first
    [ apply Alloc.runs_malloc_size; [|intros []]
    | apply Alloc.runs_ret
    | apply Alloc.runs_bind
    | apply Alloc.runs_malloc; intros []
    | eapply Alloc.runs_lift; [eassumption|] ].
