(* ===== verification/MmsValue.v ===== *)
(** * MMS values

    [src/mms/iso_mms/common/mms_value.c]: the tagged values that datasets,
    reports and GOOSE messages are made of.  A value owns its buffers and its
    components, so a value of the model is the tree of what it points to; a
    [NULL] component is [None].  Functions that allocate run in the [alloc]
    monad, in which every allocation may fail. *)

From S2P Require Import Prelude Alloc BerEncoder BerInteger.

Module MmsValue.
Import Alloc BerInteger.
#[local] Open Scope alloc_scope.

(** ** Floating point numbers

    A [float] and a [double] are their octets in memory, least significant first;
    conversions round to the nearest value, ties to even (IEEE 754). *)

Definition le_val (bs : list Z) : Z := be_val (reverse bs).

Definition float_to_double (f : list Z) : list Z :=
  let x := le_val f in
  let s := Z.shiftr x 31 in
  let e := Z.land (Z.shiftr x 23) 0xff in
  let m := Z.land x 0x7fffff in
  le_bytes 8 (Z.shiftl s 63 +
    (if decide (e = 255) then
       Z.shiftl 2047 52 + Z.lor (Z.shiftl m 29) (if decide (m = 0) then 0 else Z.shiftl 1 51)
     else if decide (e <> 0) then Z.shiftl (e + 896) 52 + Z.shiftl m 29
     else if decide (m = 0) then 0
     else let k := Z.log2 m in
       Z.shiftl (k + 874) 52 + (Z.shiftl m (52 - k) - Z.shiftl 1 52))).

(** [n / 2^s] rounded to nearest, ties to even. *)
Definition round_shift (n s : Z) : Z :=
  if decide (s <= 0) then Z.shiftl n (- s)
  else
    let q := Z.shiftr n s in
    let r := n - Z.shiftl q s in
    let h := Z.shiftl 1 (s - 1) in
    if decide (r > h \/ (r = h /\ Z.odd q = true)) then q + 1 else q.

Definition double_to_float (d : list Z) : list Z :=
  let x := le_val d in
  let s := Z.shiftr x 63 in
  let e := Z.land (Z.shiftr x 52) 0x7ff in
  let m := Z.land x (Z.ones 52) in
  le_bytes 4 (Z.shiftl s 31 +
    (if decide (e = 2047) then
       Z.shiftl 255 23 + Z.lor (Z.shiftr m 29) (if decide (m = 0) then 0 else Z.shiftl 1 22)
     else if decide (e = 0) then 0
     else
       let q := Z.max (e - 1075 + 29) (-149) in
       let n := round_shift (m + Z.shiftl 1 52) (q - (e - 1075)) in
       Z.min (Z.shiftl (q + 149) 23 + n) (Z.shiftl 255 23))).

(** ** Values *)

#[warnings="-register-all"]
Inductive MmsValue :=
  | MmsArray (components : list (option MmsValue))
  | MmsStructure (components : list (option MmsValue))
  | MmsBoolean (boolean : bool)
  | MmsBitString (size : Z) (buf : list Z)
  | MmsInteger (integer : Asn1PrimitiveValue)
  | MmsUnsigned (integer : Asn1PrimitiveValue)
  | MmsFloat (exponentWidth formatWidth : Z) (buf : list Z)
  | MmsOctetString (size maxSize : Z) (buf : list Z)
  | MmsVisibleString (buf : option (list Z)) (size : Z)
  | MmsString (buf : option (list Z)) (size : Z)
  | MmsBinaryTime (size : Z) (buf : list Z)
  | MmsUtcTime (utcTime : list Z)
  | MmsDataAccessError (dataAccessError : Z).

(** The [type] field. *)
Inductive MmsType :=
  | MMS_ARRAY | MMS_STRUCTURE | MMS_BOOLEAN | MMS_BIT_STRING | MMS_INTEGER | MMS_UNSIGNED
  | MMS_FLOAT | MMS_OCTET_STRING | MMS_VISIBLE_STRING | MMS_STRING | MMS_BINARY_TIME
  | MMS_UTC_TIME | MMS_DATA_ACCESS_ERROR.

#[export] Instance MmsType_eq_dec : EqDecision MmsType.
Proof. solve_decision. Defined.

Definition getType (self : MmsValue) : MmsType :=
  match self with
  | MmsArray _ => MMS_ARRAY
  | MmsStructure _ => MMS_STRUCTURE
  | MmsBoolean _ => MMS_BOOLEAN
  | MmsBitString _ _ => MMS_BIT_STRING
  | MmsInteger _ => MMS_INTEGER
  | MmsUnsigned _ => MMS_UNSIGNED
  | MmsFloat _ _ _ => MMS_FLOAT
  | MmsOctetString _ _ _ => MMS_OCTET_STRING
  | MmsVisibleString _ _ => MMS_VISIBLE_STRING
  | MmsString _ _ => MMS_STRING
  | MmsBinaryTime _ _ => MMS_BINARY_TIME
  | MmsUtcTime _ => MMS_UTC_TIME
  | MmsDataAccessError _ => MMS_DATA_ACCESS_ERROR
  end.

(** Induction with the hypothesis for every component. *)
Section MmsValue_ind.
Context (P : MmsValue -> Prop).
Definition all_components (cs : list (option MmsValue)) : Prop :=
  Forall (fun c => match c with Some v => P v | None => True end) cs.
Context (Harray : forall cs, all_components cs -> P (MmsArray cs))
  (Hstructure : forall cs, all_components cs -> P (MmsStructure cs))
  (Hleaf : forall v, (forall cs, v <> MmsArray cs /\ v <> MmsStructure cs) -> P v).

Lemma MmsValue_ind' : forall v, P v.
Proof using Harray Hstructure Hleaf.
  fix IH 1. intros v. destruct v as [cs|cs| | | | | | | | | | | ];
    try (apply Hleaf; intros; split; discriminate).
  - apply Harray. induction cs as [|[v|] cs IHcs]; constructor; auto.
  - apply Hstructure. induction cs as [|[v|] cs IHcs]; constructor; auto.
Qed.
End MmsValue_ind.

(** ** Construction *)

Definition newDataAccessError (accessError : Z) : alloc (option MmsValue) :=
  new_value (MmsDataAccessError accessError).

Definition newBoolean (boolean : bool) : alloc (option MmsValue) := new_value (MmsBoolean boolean).

(** The integer of a new value is allocated by [create], in two steps. *)
Definition newWithInteger (mk : Asn1PrimitiveValue -> MmsValue)
    (create : bool -> bool -> option (option Asn1PrimitiveValue)) : alloc (option MmsValue) :=
  m0 <~ malloc;
  if (m0 : bool) then
    m1 <~ malloc;
    m2 <~ (if (m1 : bool) then malloc else m_ret false);
    r <~ m_lift (create m1 m2);
    m_ret (mk <$> r)
  else m_ret None.

Definition newIntegerFromInt8 (integer : Z) : alloc (option MmsValue) :=
  newWithInteger MmsInteger (fun m1 m2 => createFromInt32 m1 m2 integer).
Definition newIntegerFromInt16 (integer : Z) : alloc (option MmsValue) :=
  newWithInteger MmsInteger (fun m1 m2 => createFromInt32 m1 m2 integer).
Definition newIntegerFromInt32 (integer : Z) : alloc (option MmsValue) :=
  newWithInteger MmsInteger (fun m1 m2 => createFromInt32 m1 m2 integer).
Definition newUnsignedFromUint32 (integer : Z) : alloc (option MmsValue) :=
  newWithInteger MmsUnsigned (fun m1 m2 => createFromUint32 m1 m2 integer).
Definition newIntegerFromInt64 (integer : Z) : alloc (option MmsValue) :=
  newWithInteger MmsInteger (fun m1 m2 => createFromInt64 m1 m2 integer).

(** [size]: the width in bits *)
Definition newInteger (size : Z) : alloc (option MmsValue) :=
  newWithInteger MmsInteger
    (fun m1 m2 => Some (if decide (size <= 32) then createInt32 m1 m2 else createInt64 m1 m2)).
Definition newUnsigned (size : Z) : alloc (option MmsValue) :=
  newWithInteger MmsUnsigned
    (fun m1 m2 => Some (if decide (size <= 32) then createInt32 m1 m2 else createInt64 m1 m2)).

Definition bitStringByteSize (bitSize : Z) : Z :=
  Z.quot bitSize 8 + (if decide (Z.rem bitSize 8 > 0) then 1 else 0).

Definition newBitString (bitSize : Z) : alloc (option MmsValue) :=
  m0 <~ malloc;
  if (m0 : bool) then
    let size := Z.abs bitSize in
    new_value (MmsBitString size (replicate (Z.to_nat (bitStringByteSize size)) 0))
  else m_ret None.

(** Of the eight octets of the buffer four stay unset. *)
Definition newFloat (value : list Z) : alloc (option MmsValue) :=
  new_value (MmsFloat 8 32 (take 4 value ++ replicate 4 0)).
Definition newDouble (value : list Z) : alloc (option MmsValue) :=
  new_value (MmsFloat 11 64 (take 8 value)).

Definition newOctetString (size maxSize : Z) : alloc (option MmsValue) :=
  m0 <~ malloc;
  if (m0 : bool) then
    m1 <~ malloc;
    m_ret (if decide (maxSize <> 0 /\ m1 = false) then None
           else Some (MmsOctetString (u16 size) maxSize (replicate (Z.to_nat (Z.abs maxSize)) 0)))
  else m_ret None.

Definition newBinaryTime (timeOfDay : bool) : alloc (option MmsValue) :=
  new_value (MmsBinaryTime (if timeOfDay then 4 else 6) (replicate 6 0)).

Definition newUtcTime (timeval : Z) : alloc (option MmsValue) :=
  new_value (MmsUtcTime (be_bytes 4 timeval ++ replicate 4 0)).

Definition createEmptyArray (size : Z) : alloc (option MmsValue) :=
  m0 <~ malloc;
  if (m0 : bool) then new_value (MmsArray (replicate (Z.to_nat size) None)) else m_ret None.

Definition createEmptyStructure (size : Z) : alloc (option MmsValue) :=
  self <~ createEmptyArray size;
  m_ret (match self with Some (MmsArray cs) => Some (MmsStructure cs) | _ => None end).

(** ** Arrays and structures *)

Definition getArraySize (self : MmsValue) : option Z :=
  match self with MmsArray cs | MmsStructure cs => Some (zlen cs) | _ => None end.

Definition getElement (complexValue : MmsValue) (index : Z) : option MmsValue :=
  match complexValue with
  | MmsArray cs | MmsStructure cs =>
      if decide (index < 0 \/ index >= zlen cs) then None
      else default None (cs !! Z.to_nat index)
  | _ => None
  end.

Definition setElement (complexValue : MmsValue) (index : Z) (elementValue : option MmsValue)
    : MmsValue :=
  match complexValue with
  | MmsArray cs =>
      if decide (index < 0 \/ index >= zlen cs) then complexValue
      else MmsArray (<[Z.to_nat index := elementValue]> cs)
  | MmsStructure cs =>
      if decide (index < 0 \/ index >= zlen cs) then complexValue
      else MmsStructure (<[Z.to_nat index := elementValue]> cs)
  | _ => complexValue
  end.

(** ** Bit strings *)

Definition getBitStringByteSize (size : Z) : Z :=
  if decide (Z.rem size 8 <> 0) then Z.quot size 8 + 1 else Z.quot size 8.

(** The functions on bit strings read and write the parts [size] and [buf]. *)
Definition setBitStringBit (size : Z) (buf : list Z) (bitPos : Z) (value : bool)
    : option (list Z) :=
  if decide (bitPos < size) then
    let bytePos := Z.quot bitPos 8 in
    let bitMask := Z.shiftl 1 (7 - Z.rem bitPos 8) in
    x ← buf.[bytePos];
    buf.[bytePos]:= (if value then Z.lor x bitMask else Z.land x (Z.lnot bitMask))
  else Some buf.

Definition getBitStringBit (size : Z) (buf : list Z) (bitPos : Z) : option bool :=
  if decide (bitPos < size) then
    x ← buf.[Z.quot bitPos 8];
    Some (bool_decide (Z.land x (Z.shiftl 1 (7 - Z.rem bitPos 8)) > 0))
  else Some false.

Definition deleteAllBitStringBits (size : Z) (buf : list Z) : option (list Z) :=
  fst <$> puts buf 0 (replicate (Z.to_nat (getBitStringByteSize size)) 0).

(** [1 << bitPos] has no defined value from 32 on. *)
Fixpoint getBitStringAsInteger_loop (n : nat) (size : Z) (buf : list Z) (bitPos value : Z)
    : option Z :=
  match n with
  | O => Some value
  | S n =>
      bit ← getBitStringBit size buf bitPos;
      value ← (if (bit : bool)
               then if decide (bitPos < 32) then Some (u32 (value + Z.shiftl 1 bitPos)) else None
               else Some value);
      getBitStringAsInteger_loop n size buf (bitPos + 1) value
  end.

Definition getBitStringAsInteger (size : Z) (buf : list Z) : option Z :=
  getBitStringAsInteger_loop (Z.to_nat size) size buf 0 0.

Fixpoint setBitStringFromInteger_loop (n : nat) (size : Z) (buf : list Z) (bitPos intValue : Z)
    : option (list Z) :=
  match n with
  | O => Some buf
  | S n =>
      buf ← setBitStringBit size buf bitPos (bool_decide (Z.land intValue 1 = 1));
      setBitStringFromInteger_loop n size buf (bitPos + 1) (Z.shiftr intValue 1)
  end.

Definition setBitStringFromInteger (size : Z) (buf : list Z) (intValue : Z) : option (list Z) :=
  setBitStringFromInteger_loop (Z.to_nat size) size buf 0 intValue.

Fixpoint getBitStringAsIntegerBigEndian_loop (n : nat) (size : Z) (buf : list Z) (i value : Z)
    : option Z :=
  match n with
  | O => Some value
  | S n =>
      bit ← getBitStringBit size buf (Z.of_nat n);
      value ← (if (bit : bool)
               then if decide (i < 32) then Some (u32 (value + Z.shiftl 1 i)) else None
               else Some value);
      getBitStringAsIntegerBigEndian_loop n size buf (i + 1) value
  end.

Definition getBitStringAsIntegerBigEndian (size : Z) (buf : list Z) : option Z :=
  getBitStringAsIntegerBigEndian_loop (Z.to_nat size) size buf 0 0.

Fixpoint setBitStringFromIntegerBigEndian_loop (n : nat) (size : Z) (buf : list Z) (intValue : Z)
    : option (list Z) :=
  match n with
  | O => Some buf
  | S n =>
      buf ← setBitStringBit size buf (Z.of_nat n) (bool_decide (Z.land intValue 1 = 1));
      setBitStringFromIntegerBigEndian_loop n size buf (Z.shiftr intValue 1)
  end.

Definition setBitStringFromIntegerBigEndian (size : Z) (buf : list Z) (intValue : Z)
    : option (list Z) :=
  setBitStringFromIntegerBigEndian_loop (Z.to_nat size) size buf intValue.

(** ** Numbers *)

Definition set_integer (mk : Asn1PrimitiveValue -> MmsValue) (integer : Asn1PrimitiveValue)
    (minSize : Z) (set : option (Asn1PrimitiveValue * bool)) : option MmsValue :=
  if decide (maxSize integer >= minSize) then '(i, _) ← set; Some (mk i)
  else Some (mk integer).

Definition setInt8 (self : MmsValue) (integer : Z) : option MmsValue :=
  match self with
  | MmsInteger i => set_integer MmsInteger i 1 (BerInteger.setInt32 i integer)
  | _ => Some self
  end.
Definition setInt16 (self : MmsValue) (integer : Z) : option MmsValue :=
  match self with
  | MmsInteger i => set_integer MmsInteger i 2 (BerInteger.setInt32 i integer)
  | _ => Some self
  end.
Definition setInt32 (self : MmsValue) (integer : Z) : option MmsValue :=
  match self with
  | MmsInteger i => set_integer MmsInteger i 4 (BerInteger.setInt32 i integer)
  | _ => Some self
  end.
Definition setInt64 (self : MmsValue) (integer : Z) : option MmsValue :=
  match self with
  | MmsInteger i => set_integer MmsInteger i 8 (BerInteger.setInt64 i integer)
  | _ => Some self
  end.
Definition setUint32 (self : MmsValue) (integer : Z) : option MmsValue :=
  match self with
  | MmsUnsigned i => set_integer MmsUnsigned i 4 (BerInteger.setUint32 i integer)
  | _ => Some self
  end.
Definition setUint16 (self : MmsValue) (integer : Z) : option MmsValue :=
  match self with
  | MmsUnsigned i => set_integer MmsUnsigned i 2 (BerInteger.setUint16 i integer)
  | _ => Some self
  end.
Definition setUint8 (self : MmsValue) (integer : Z) : option MmsValue :=
  match self with
  | MmsUnsigned i => set_integer MmsUnsigned i 1 (BerInteger.setUint8 i integer)
  | _ => Some self
  end.

Definition toInt32 (self : MmsValue) : option Z :=
  match self with MmsInteger i | MmsUnsigned i => BerInteger.toInt32 i | _ => Some 0 end.
Definition toUint32 (self : MmsValue) : option Z :=
  match self with MmsInteger i | MmsUnsigned i => BerInteger.toUint32 i | _ => Some 0 end.
Definition toInt64 (self : MmsValue) : option Z :=
  match self with MmsInteger i | MmsUnsigned i => BerInteger.toInt64 i | _ => Some 0 end.

Definition setBoolean (self : MmsValue) (boolValue : bool) : option MmsValue :=
  match self with MmsBoolean _ => Some (MmsBoolean boolValue) | _ => None end.

(** [memcpy] of a native number to the start of the float buffer. *)
Definition set_float_buf (ew fw : Z) (buf value : list Z) : option MmsValue :=
  '(buf, _) ← puts buf 0 value; Some (MmsFloat ew fw buf).

Definition setFloat (self : MmsValue) (newFloatValue : list Z) : option MmsValue :=
  match self with
  | MmsFloat ew fw buf =>
      if decide (fw = 32) then set_float_buf ew fw buf newFloatValue
      else if decide (fw = 64) then set_float_buf ew fw buf (float_to_double newFloatValue)
      else Some self
  | _ => Some self
  end.

Definition setDouble (self : MmsValue) (newDoubleValue : list Z) : option MmsValue :=
  match self with
  | MmsFloat ew fw buf =>
      if decide (fw = 32) then set_float_buf ew fw buf (double_to_float newDoubleValue)
      else if decide (fw = 64) then set_float_buf ew fw buf newDoubleValue
      else Some self
  | _ => Some self
  end.

Definition toFloat (self : MmsValue) : list Z :=
  match self with
  | MmsFloat _ fw buf =>
      if decide (fw = 32) then take 4 buf
      else if decide (fw = 64) then double_to_float (take 8 buf) else replicate 4 0
  | _ => replicate 4 0
  end.

Definition toDouble (self : MmsValue) : list Z :=
  match self with
  | MmsFloat _ fw buf =>
      if decide (fw = 32) then float_to_double (take 4 buf)
      else if decide (fw = 64) then take 8 buf else replicate 8 0
  | _ => replicate 8 0
  end.

(** ** Times *)

(** [dst[dp + i] = src[sp + size - i - 1]] *)
Fixpoint memcpyReverseByteOrder_loop (n : nat) (dst : list Z) (dp : Z) (src : list Z)
    (sp size i : Z) : option (list Z) :=
  match n with
  | O => Some dst
  | S n =>
      x ← src.[sp + (size - i - 1)];
      dst ← dst.[dp + i]:= x;
      memcpyReverseByteOrder_loop n dst dp src sp size (i + 1)
  end.

Definition memcpyReverseByteOrder (dst : list Z) (dp : Z) (src : list Z) (sp size : Z)
    : option (list Z) := memcpyReverseByteOrder_loop (Z.to_nat size) dst dp src sp size 0.

(** The functions on UTC times work on the eight octets. *)
Definition setUtcTime (utcTime : list Z) (timeval : Z) : option (list Z) :=
  memcpyReverseByteOrder utcTime 0 (le_bytes 4 timeval) 0 4.

Definition setUtcTimeMs (utcTime : list Z) (timeval timeQuality : Z) : option (list Z) :=
  let timeval32 := u32 (timeval / 1000) in
  utcTime ← memcpyReverseByteOrder utcTime 0 (le_bytes 4 timeval32) 0 4;
  let remainder := timeval mod 1000 in
  let fractionOfSecond := remainder * 16777 + (remainder * 216) / 1000 in
  '(utcTime, _) ← puts utcTime 4
    [Z.land (Z.shiftr fractionOfSecond 16) 0xff; Z.land (Z.shiftr fractionOfSecond 8) 0xff;
     Z.land fractionOfSecond 0xff; timeQuality];
  Some utcTime.

Definition MmsValue_setUtcTimeMs (utcTime : list Z) (timeval : Z) : option (list Z) :=
  setUtcTimeMs utcTime timeval 0x0a.

Definition setUtcTimeMsEx (utcTime : list Z) (timeval timeQuality : Z) : option (list Z) :=
  setUtcTimeMs utcTime timeval timeQuality.

Definition setUtcTimeQuality (utcTime : list Z) (timeQuality : Z) : option (list Z) :=
  utcTime.[7]:= timeQuality.

Definition getUtcTimeQuality (utcTime : list Z) : option Z := utcTime.[7].

Definition setUtcTimeByBuffer (utcTime : list Z) (buffer : list Z) (p : Z) : option (list Z) :=
  fst <$> copy_bytes 8 buffer p utcTime 0.

Definition fraction_of_second (valueArray : list Z) : option Z :=
  a ← valueArray.[4]; b ← valueArray.[5]; c ← valueArray.[6];
  Some (Z.shiftl a 16 + Z.shiftl b 8 + c).

Definition getUtcTimeInMs (utcTime : list Z) : option Z :=
  t ← memcpyReverseByteOrder (replicate 4 0) 0 utcTime 0 4;
  let timeval32 := le_val t in
  fractionOfSecond ← fraction_of_second utcTime;
  Some (u64 (timeval32 * 1000 + fractionOfSecond / 16777)).

(** Milliseconds, and the microseconds stored through [usec]. *)
Definition getUtcTimeInMsWithUs (utcTime : list Z) : option (Z * Z) :=
  t ← memcpyReverseByteOrder (replicate 4 0) 0 utcTime 0 4;
  let timeval32 := le_val t in
  fractionOfSecond ← fraction_of_second utcTime;
  let remainder := u64 (fractionOfSecond * 1000000) / 0x1000000 in
  Some (u64 (timeval32 * 1000 + remainder / 1000), remainder mod 1000).

Definition toUnixTimestamp (utcTime : list Z) : option Z :=
  b0 ← utcTime.[0]; b1 ← utcTime.[1]; b2 ← utcTime.[2]; b3 ← utcTime.[3];
  Some (le_val [b3; b2; b1; b0]).

Definition newUtcTimeByMsTime (timeval : Z) : alloc (option MmsValue) :=
  m0 <~ malloc;
  if (m0 : bool) then
    t <~ m_lift (MmsValue_setUtcTimeMs (replicate 8 0) timeval); m_ret (Some (MmsUtcTime t))
  else m_ret None.

Definition EPOCH_1984 : Z := 441763200000.

Definition setBinaryTime (size : Z) (buf : list Z) (timestamp : Z) : option (list Z) :=
  let mmsTime := if decide (timestamp > EPOCH_1984) then timestamp - EPOCH_1984 else 0 in
  '(buf, _) ← (if decide (size = 6)
               then puts buf 4 (be_bytes 2 (u16 (mmsTime / 86400000))) else Some (buf, 4));
  '(buf, _) ← puts buf 0 (be_bytes 4 (u32 (mmsTime mod 86400000)));
  Some buf.

Definition getBinaryTimeAsUtcMs (size : Z) (buf : list Z) : option Z :=
  timestamp ←
    (if decide (size = 6) then
       b4 ← buf.[4]; b5 ← buf.[5];
       Some (u16 (u16 (b4 * 256) + b5) * 86400000 + EPOCH_1984)
     else Some 0);
  b0 ← buf.[0]; b1 ← buf.[1]; b2 ← buf.[2]; b3 ← buf.[3];
  Some (u64 (timestamp + u32 (Z.shiftl b0 24 + Z.shiftl b1 16 + Z.shiftl b2 8 + b3))).

(** [for (i = 0; i < padding; i++) mask += (1 << i)] *)
Fixpoint paddingMask (n : nat) (i mask : Z) : Z :=
  match n with
  | O => mask
  | S n => paddingMask n (i + 1) (u8 (mask + Z.shiftl 1 i))
  end.

Definition setAllBitStringBits (size : Z) (buf : list Z) : option (list Z) :=
  let byteSize := getBitStringByteSize size in
  '(buf, _) ← puts buf 0 (replicate (Z.to_nat byteSize) 0xff);
  let mask := u8 (Z.lnot (paddingMask (Z.to_nat (byteSize * 8 - size)) 0 0)) in
  x ← buf.[byteSize - 1];
  buf.[byteSize - 1]:= Z.land x mask.

(** [while (currentByte != 0)]: a byte is exhausted after eight shifts. *)
Fixpoint countBits_loop (fuel : nat) (currentByte setBitsCount : Z) : option Z :=
  match fuel with
  | O => None
  | S fuel =>
      if decide (currentByte <> 0) then
        countBits_loop fuel (Z.shiftr currentByte 1)
          (if decide (Z.land currentByte 1 = 1) then setBitsCount + 1 else setBitsCount)
      else Some setBitsCount
  end.

Fixpoint getNumberOfSetBits_loop (n : nat) (size : Z) (buf : list Z) (i setBitsCount : Z)
    : option (list Z * Z) :=
  match n with
  | O => Some (buf, setBitsCount)
  | S n =>
      let byteSize := getBitStringByteSize size in
      buf ← (if decide (i = byteSize - 1)
             then let mask := u8 (Z.lnot (paddingMask (Z.to_nat (byteSize * 8 - size)) 0 0)) in
                  x ← buf.[i]; buf.[i]:= Z.land x mask
             else Some buf);
      currentByte ← buf.[i];
      setBitsCount ← countBits_loop 9 currentByte setBitsCount;
      getNumberOfSetBits_loop n size buf (i + 1) setBitsCount
  end.

(** The count, and the buffer with its padding cleared. *)
Definition getNumberOfSetBits (size : Z) (buf : list Z) : option (list Z * Z) :=
  getNumberOfSetBits_loop (Z.to_nat (getBitStringByteSize size)) size buf 0 0.

(** ** C strings

    A string is the buffer that holds it; a loop that runs past the end of the
    buffer is [None]. *)

Fixpoint strlen_loop (fuel : nat) (str : list Z) (i : Z) : option Z :=
  match fuel with
  | O => None
  | S fuel => x ← str.[i]; if decide (x = 0) then Some i else strlen_loop fuel str (i + 1)
  end.

Definition strlen (str : list Z) : option Z := strlen_loop (S (length str)) str 0.

(** [strcmp(a, b) == 0] *)
Fixpoint strcmp_loop (fuel : nat) (a b : list Z) (i : Z) : option bool :=
  match fuel with
  | O => None
  | S fuel =>
      x ← a.[i]; y ← b.[i];
      if decide (x <> y) then Some false
      else if decide (x = 0) then Some true
      else strcmp_loop fuel a b (i + 1)
  end.

Definition strcmp (a b : list Z) : option bool := strcmp_loop (S (length a)) a b 0.

(** The destination buffer after the call; it exists at every call from this file. *)
Fixpoint copyStringMax_loop (fuel : nat) (res str1 : list Z) (maxStringSize destPos i : Z)
    : option (list Z) :=
  match fuel with
  | O => None
  | S fuel =>
      x ← str1.[i];
      if decide (x <> 0) then
        if decide (destPos < maxStringSize) then
          res ← res.[destPos]:= x;
          copyStringMax_loop fuel res str1 maxStringSize (destPos + 1) (i + 1)
        else res.[destPos]:= 0
      else res.[destPos]:= 0
  end.

Definition copyStringMax (dest : list Z) (maxBufferSize : Z) (str1 : list Z) : option (list Z) :=
  if decide (maxBufferSize < 1) then Some dest
  else copyStringMax_loop (S (length str1)) dest str1 (maxBufferSize - 1) 0 0.

(** ** Strings

    The size is an [int16_t].  Fresh memory has no defined contents; it is zero
    here, and every function writes an octet before one reads it. *)

Definition fresh (n : Z) : list Z := replicate (Z.to_nat n) 0.

Definition setVisibleStringValue (buf : option (list Z)) (size : Z) (value : option (list Z))
    : alloc (option (list Z) * Z) :=
  match buf with
  | None => m_ret (None, size)
  | Some b =>
      match value with
      | Some value =>
          newStringSize <~ m_lift (strlen value);
          if decide (newStringSize > size) then
            ok <~ malloc_size (newStringSize + 1);
            if (ok : bool) then
              let size := s16 newStringSize in
              b <~ m_lift (copyStringMax (fresh (newStringSize + 1)) (size + 1) value);
              m_ret (Some b, size)
            else m_ret (None, size)
          else
            b <~ m_lift (copyStringMax b (size + 1) value);
            m_ret (Some b, size)
      | None => b <~ m_lift (b.[0]:= 0); m_ret (Some b, size)
      end
  end.

Section Strings.
(** The constructor that belongs to the argument [type]. *)
Context (mk : option (list Z) -> Z -> MmsValue).

Definition newString (string : option (list Z)) : alloc (option MmsValue) :=
  m0 <~ malloc;
  if (m0 : bool) then
    match string with
    | None => m_ret (Some (mk None 0))
    | Some str =>
        stringSize <~ m_lift (strlen str);
        m1 <~ malloc_size (stringSize + 1);
        if (m1 : bool) then
          r <~ setVisibleStringValue (Some (fresh (stringSize + 1))) (s16 stringSize) string;
          m_ret (Some (mk (fst r) (snd r)))
        else m_ret None
    end
  else m_ret None.

Definition newStringWithSize (size : Z) : alloc (option MmsValue) :=
  m0 <~ malloc;
  if (m0 : bool) then
    m1 <~ malloc_size (size + 1);
    if (m1 : bool) then
      b <~ m_lift ((fresh (size + 1)).[0]:= 0);
      m_ret (Some (mk (Some b) (s16 size)))
    else m_ret None
  else m_ret None.

(** [createStringFromBuffer] copies the octets and adds the final zero. *)
Definition createStringFromBuffer (buf : list Z) (p size : Z) : alloc (option (list Z)) :=
  ok <~ malloc_size (size + 1);
  if (ok : bool) then
    r <~ m_lift (copy_bytes (Z.to_nat size) buf p (fresh (size + 1)) 0);
    b <~ m_lift ((fst r).[size]:= 0);
    m_ret (Some b)
  else m_ret None.

Definition newStringFromByteArray (byteArray : list Z) (p size : Z) : alloc (option MmsValue) :=
  m0 <~ malloc;
  if (m0 : bool) then
    b <~ createStringFromBuffer byteArray p size;
    m_ret (match b with Some b => Some (mk (Some b) (s16 size)) | None => None end)
  else m_ret None.
End Strings.

Definition newVisibleString := newString MmsVisibleString.
Definition newMmsString := newString MmsString.
Definition newVisibleStringWithSize := newStringWithSize MmsVisibleString.
Definition newMmsStringWithSize := newStringWithSize MmsString.
Definition newVisibleStringFromByteArray := newStringFromByteArray MmsVisibleString.
Definition newMmsStringFromByteArray := newStringFromByteArray MmsString.

Definition setVisibleString (self : MmsValue) (string : option (list Z)) : alloc MmsValue :=
  match self with
  | MmsVisibleString buf size =>
      r <~ setVisibleStringValue buf size string; m_ret (MmsVisibleString (fst r) (snd r))
  | _ => m_ret self
  end.

Definition setMmsString (self : MmsValue) (string : option (list Z)) : alloc MmsValue :=
  match self with
  | MmsString buf size =>
      r <~ setVisibleStringValue buf size string; m_ret (MmsString (fst r) (snd r))
  | _ => m_ret self
  end.

Definition toString (self : MmsValue) : option (list Z) :=
  match self with MmsVisibleString buf _ | MmsString buf _ => buf | _ => None end.

Definition getStringSize (self : MmsValue) : Z :=
  match self with MmsVisibleString _ size | MmsString _ size => size | _ => 0 end.

(** ** Octet strings

    Parts [size] ([uint16_t]), [maxSize] and [buf]; a [NULL] buffer is the empty one. *)

Definition setOctetString (size maxSize : Z) (buf : list Z) (src : list Z) (p newSize : Z)
    : option (Z * list Z) :=
  if decide (newSize <= Z.abs maxSize) then
    '(buf, _) ← copy_bytes (Z.to_nat newSize) src p buf 0; Some (u16 newSize, buf)
  else Some (size, buf).

Definition setOctetStringOctet (size maxSize : Z) (buf : list Z) (octetPos value : Z)
    : option (Z * list Z) :=
  if decide (0 <= octetPos < Z.abs maxSize) then
    buf ← buf.[octetPos]:= value;
    Some (if decide (octetPos >= size) then u16 (octetPos + 1) else size, buf)
  else Some (size, buf).

Definition getOctetStringOctet (size : Z) (buf : list Z) (octetPos : Z) : option Z :=
  if decide (0 <= octetPos < size) then buf.[octetPos] else Some 0.

(** ** Comparison, update and cloning

    A [NULL] argument is [None]. *)

Section Components.
Context {A : Type}.

(** The comparison loops: every component in order, until one differs. *)
Definition components_equal (f : A -> A -> option bool) : list A -> list A -> option bool :=
  fix components_equal xs ys :=
    match xs, ys with
    | x :: xs, y :: ys => r ← f x y; if (r : bool) then components_equal xs ys else Some false
    | _, _ => Some true
    end.

Definition components_update (f : A -> A -> alloc (A * bool))
    : list A -> list A -> alloc (list A * bool) :=
  fix components_update xs ys :=
    match xs, ys with
    | x :: xs, y :: ys =>
        r <~ f x y;
        if (snd r : bool) then
          rs <~ components_update xs ys; m_ret (fst r :: fst rs, snd rs)
        else m_ret (fst r :: xs, false)
    | _, _ => m_ret (xs, true)
    end.

Definition components_clone (f : A -> alloc (option A)) : list A -> alloc (option (list A)) :=
  fix components_clone xs :=
    match xs with
    | [] => m_ret (Some [])
    | x :: xs =>
        r <~ f x;
        match r with
        | Some y => ys <~ components_clone xs; m_ret (cons y <$> ys)
        | None => m_ret None
        end
    end.
End Components.

Fixpoint equals (self otherValue : MmsValue) {struct self} : option bool :=
  let equal_components cs os :=
    if decide (zlen cs = zlen os) then
      components_equal
        (fun c o => match c, o with Some c, Some o => equals c o | _, _ => Some false end) cs os
    else Some false in
  match self, otherValue with
  | MmsArray cs, MmsArray os => equal_components cs os
  | MmsStructure cs, MmsStructure os => equal_components cs os
  | MmsBoolean b, MmsBoolean o => Some (bool_decide (b = o))
  | MmsFloat _ fw b, MmsFloat _ _ o => memcmp (Z.quot fw 8) b o
  | MmsInteger i, MmsInteger o => Asn1PrimitivaValue_compare i o
  | MmsUnsigned i, MmsUnsigned o => Asn1PrimitivaValue_compare i o
  | MmsUtcTime t, MmsUtcTime o => memcmp 8 t o
  | MmsBitString n b, MmsBitString n' o =>
      if decide (n = n') then memcmp (bitStringByteSize n) b o else Some false
  | MmsBinaryTime n b, MmsBinaryTime n' o => if decide (n = n') then memcmp n b o else Some false
  | MmsOctetString n _ b, MmsOctetString n' _ o =>
      if decide (n = n') then memcmp n b o else Some false
  | MmsVisibleString b _, MmsVisibleString o _ | MmsString b _, MmsString o _ =>
      match b, o with
      | Some b, Some o => strcmp b o
      | None, None => Some true
      | _, _ => Some false
      end
  | MmsDataAccessError e, MmsDataAccessError o => Some (bool_decide (e = o))
  | _, _ => Some false
  end.

Definition MmsValue_equals (self otherValue : option MmsValue) : option bool :=
  match self, otherValue with Some s, Some o => equals s o | _, _ => Some false end.

Fixpoint equalTypes (self otherValue : MmsValue) {struct self} : option bool :=
  let equal_components cs os :=
    if decide (zlen cs = zlen os) then
      components_equal
        (fun c o => match c, o with Some c, Some o => equalTypes c o | _, _ => Some false end) cs os
    else Some false in
  match self, otherValue with
  | MmsArray cs, MmsArray os => equal_components cs os
  | MmsStructure cs, MmsStructure os => equal_components cs os
  | _, _ => Some (bool_decide (getType self = getType otherValue))
  end.

Definition MmsValue_equalTypes (self otherValue : option MmsValue) : option bool :=
  match self, otherValue with Some s, Some o => equalTypes s o | _, _ => Some false end.

(** Copies the bits the two strings share. *)
Fixpoint updateBits_loop (n : nat) (size : Z) (buf : list Z) (usize : Z) (ubuf : list Z) (i : Z)
    : option (list Z) :=
  match n with
  | O => Some buf
  | S n =>
      if decide (i < size) then
        bit ← getBitStringBit usize ubuf i;
        buf ← setBitStringBit size buf i bit;
        updateBits_loop n size buf usize ubuf (i + 1)
      else Some buf
  end.

Definition updateBitString (size : Z) (buf : list Z) (usize : Z) (ubuf : list Z)
    : option (list Z) :=
  if decide (size = usize) then fst <$> copy_bytes (Z.to_nat (bitStringByteSize size)) ubuf 0 buf 0
  else updateBits_loop (Z.to_nat usize) size buf usize ubuf 0.

Definition updateOctetString (size maxSize : Z) (buf : list Z) (usize : Z) (ubuf : list Z)
    : alloc (MmsValue * bool) :=
  let copy maxSize buf :=
    if decide (usize <= Z.abs maxSize) then
      r <~ m_lift (copy_bytes (Z.to_nat usize) ubuf 0 buf 0);
      m_ret (MmsOctetString (u16 usize) maxSize (fst r), true)
    else m_ret (MmsOctetString size maxSize buf, false) in
  if decide (maxSize < 0 /\ usize > Z.abs maxSize) then
    ok <~ malloc;
    if (ok : bool) then copy (- usize) (fresh usize)
    else m_ret (MmsOctetString size maxSize [], false)
  else copy maxSize buf.

Fixpoint update (self upd : MmsValue) {struct self} : alloc (MmsValue * bool) :=
  let updateStructuredComponent mk cs us :=
    if decide (zlen cs <> zlen us) then m_ret (mk cs, false)
    else
      r <~ components_update
        (fun c u => match c, u with
                    | Some c, Some u => r <~ update c u; m_ret (Some (fst r), snd r)
                    | _, _ => m_ret (c, false)
                    end) cs us;
      m_ret (mk (fst r), snd r) in
  match self, upd with
  | MmsStructure cs, MmsStructure us => updateStructuredComponent MmsStructure cs us
  | MmsArray cs, MmsArray us => updateStructuredComponent MmsArray cs us
  | MmsBoolean _, MmsBoolean u => m_ret (MmsBoolean u, true)
  | MmsFloat ew fw b, MmsFloat uew ufw u =>
      if decide (fw = ufw) then
        r <~ m_lift (copy_bytes (Z.to_nat (Z.quot fw 8)) u 0 b 0);
        m_ret (MmsFloat uew fw (fst r), true)
      else m_ret (self, false)
  | MmsInteger i, MmsInteger u =>
      r <~ m_lift (setFromBerInteger i u); m_ret (MmsInteger (fst r), snd r)
  | MmsUnsigned i, MmsUnsigned u =>
      r <~ m_lift (setFromBerInteger i u); m_ret (MmsUnsigned (fst r), snd r)
  | MmsUtcTime t, MmsUtcTime u =>
      r <~ m_lift (copy_bytes 8 u 0 t 0); m_ret (MmsUtcTime (fst r), true)
  | MmsBitString size b, MmsBitString usize u =>
      b <~ m_lift (updateBitString size b usize u); m_ret (MmsBitString size b, true)
  | MmsOctetString size maxSize b, MmsOctetString usize _ u =>
      updateOctetString size maxSize b usize u
  | MmsVisibleString _ _, MmsVisibleString u _ =>
      self <~ setVisibleString self u; m_ret (self, true)
  | MmsString _ _, MmsString u _ => self <~ setMmsString self u; m_ret (self, true)
  | MmsBinaryTime _ b, MmsBinaryTime usize u =>
      r <~ m_lift (copy_bytes (Z.to_nat usize) u 0 b 0); m_ret (MmsBinaryTime usize (fst r), true)
  | _, _ => m_ret (self, false)
  end.

Definition MmsValue_update (self upd : option MmsValue) : alloc (option MmsValue * bool) :=
  match self, upd with
  | Some s, Some u => r <~ update s u; m_ret (Some (fst r), snd r)
  | _, _ => m_ret (self, false)
  end.


Definition clone_string (mk : option (list Z) -> Z -> MmsValue) (buf : option (list Z)) (size : Z)
    : alloc (option MmsValue) :=
  ok <~ malloc_size (size + 1);
  if (ok : bool) then
    str <~ m_lift buf;
    b <~ m_lift (copyStringMax (fresh (size + 1)) (size + 1) str);
    m_ret (Some (mk (Some b) size))
  else m_ret None.

Definition clone_integer (mk : Asn1PrimitiveValue -> MmsValue) (integer : Asn1PrimitiveValue)
    : alloc (option MmsValue) :=
  m1 <~ malloc;
  m2 <~ (if (m1 : bool) then malloc else m_ret false);
  r <~ m_lift (Asn1PrimitiveValue_clone m1 m2 integer);
  m_ret (mk <$> r).

Fixpoint clone (self : MmsValue) : alloc (option MmsValue) :=
  let clone_components mk cs :=
    m1 <~ malloc;
    if (m1 : bool) then
      cs <~ components_clone
        (fun c => match c with
                  | Some c => r <~ clone c; m_ret (Some <$> r)
                  | None => m_ret (Some None)
                  end) cs;
      m_ret (mk <$> cs)
    else m_ret None in
  m0 <~ malloc;
  if (m0 : bool) then
    match self with
    | MmsArray cs => clone_components MmsArray cs
    | MmsStructure cs => clone_components MmsStructure cs
    | MmsInteger i => clone_integer MmsInteger i
    | MmsUnsigned i => clone_integer MmsUnsigned i
    | MmsFloat ew fw b =>
        r <~ m_lift (copy_bytes (Z.to_nat (Z.quot fw 8)) b 0 (fresh 8) 0);
        m_ret (Some (MmsFloat ew fw (fst r)))
    | MmsBitString size b =>
        ok <~ malloc;
        if (ok : bool) then
          let n := bitStringByteSize size in
          r <~ m_lift (copy_bytes (Z.to_nat n) b 0 (fresh n) 0);
          m_ret (Some (MmsBitString size (fst r)))
        else m_ret None
    | MmsBoolean b => m_ret (Some (MmsBoolean b))
    | MmsOctetString size maxSize b =>
        ok <~ malloc;
        if (ok : bool) then
          r <~ m_lift (copy_bytes (Z.to_nat size) b 0 (fresh (Z.abs maxSize)) 0);
          m_ret (Some (MmsOctetString size maxSize (fst r)))
        else m_ret None
    | MmsUtcTime t => r <~ m_lift (copy_bytes 8 t 0 (fresh 8) 0); m_ret (Some (MmsUtcTime (fst r)))
    | MmsBinaryTime size b =>
        r <~ m_lift (copy_bytes 6 b 0 (fresh 6) 0); m_ret (Some (MmsBinaryTime size (fst r)))
    | MmsVisibleString b size => clone_string MmsVisibleString b size
    | MmsString b size => clone_string MmsString b size
    | MmsDataAccessError e => m_ret (Some (MmsDataAccessError e))
    end
  else m_ret None.

Definition MmsValue_clone (self : option MmsValue) : alloc (option MmsValue) :=
  match self with Some s => clone s | None => m_ret None end.

(** ** Buffers and C strings *)

Lemma memcpy_spec n src dst :
  is_bytes src -> 0 <= n <= zlen src -> n <= zlen dst ->
  copy_bytes (Z.to_nat n) src 0 dst 0 =
    Some (take (Z.to_nat n) src ++ drop (Z.to_nat n) dst, n).
Proof.
  intros Hb Hn Hd.
  rewrite (copy_at_Z src 0 (take (Z.to_nat n) src)).
  - rewrite puts_splice; [|by apply Forall_take|lia|rewrite length_take; lia].
    rewrite length_take. f_equal. f_equal; [|lia].
    rewrite take_0. cbn [app]. do 2 f_equal. lia.
  - apply bytes_at_take, bytes_at_0.
  - rewrite length_take. lia.
Qed.

Lemma take_memcpy n (src dst : list Z) : (n <= length src)%nat ->
  take n (take n src ++ drop n dst) = take n src.
Proof. intros. rewrite take_app_length' by (rewrite length_take; lia). done. Qed.

(** The buffer [b] holds the C string [s]. *)
Definition cstr (b s : list Z) : Prop :=
  (exists rest, b = s ++ 0 :: rest) /\ Forall (fun x => x <> 0) s.

Lemma rd_mid pre x post : rd (pre ++ x :: post) (zlen pre) = Some x.
Proof. rewrite rd_app_r by lia. by rewrite Z.sub_diag. Qed.

Lemma strlen_loop_spec s rest pre fuel :
  Forall (fun x => x <> 0) s -> (length s < fuel)%nat ->
  strlen_loop fuel (pre ++ s ++ 0 :: rest) (zlen pre) = Some (zlen pre + zlen s).
Proof.
  revert pre fuel. induction s as [|x s IH]; intros pre [|fuel] Hs Hf; simpl in Hf; try lia.
  { cbn [strlen_loop app]. rewrite rd_mid. simpl. f_equal. lia. }
  inversion Hs; subst. cbn [strlen_loop app]. rewrite rd_mid. cbn [mbind option_bind].
  rewrite decide_False by done.
  replace (pre ++ x :: s ++ 0 :: rest) with ((pre ++ [x]) ++ s ++ 0 :: rest)
    by (by rewrite <- app_assoc).
  replace (zlen pre + 1) with (zlen (pre ++ [x])) by (rewrite length_app; simpl; lia).
  rewrite IH by (done || lia). rewrite length_app. simpl. f_equal. lia.
Qed.

Lemma strlen_spec b s : cstr b s -> strlen b = Some (zlen s).
Proof.
  intros [[rest ->] Hs]. unfold strlen.
  rewrite (strlen_loop_spec s rest []) by (rewrite ?length_app; simpl; done || lia). done.
Qed.

Lemma strcmp_loop_refl s pre pre' rest rest' fuel :
  Forall (fun x => x <> 0) s -> (length s < fuel)%nat -> length pre = length pre' ->
  strcmp_loop fuel (pre ++ s ++ 0 :: rest) (pre' ++ s ++ 0 :: rest') (zlen pre) = Some true.
Proof.
  revert pre pre' fuel. induction s as [|x s IH]; intros pre pre' [|fuel] Hs Hf Hp; simpl in Hf; try lia.
  { cbn [strcmp_loop app]. rewrite rd_mid. rewrite Hp, rd_mid. done. }
  inversion Hs; subst. cbn [strcmp_loop app]. rewrite rd_mid, Hp, rd_mid. cbn [mbind option_bind].
  rewrite decide_False by (intros E; done). rewrite decide_False by done.
  replace (pre ++ x :: s ++ 0 :: rest) with ((pre ++ [x]) ++ s ++ 0 :: rest)
    by (by rewrite <- app_assoc).
  replace (pre' ++ x :: s ++ 0 :: rest') with ((pre' ++ [x]) ++ s ++ 0 :: rest')
    by (by rewrite <- app_assoc).
  replace (zlen pre' + 1) with (zlen (pre ++ [x])) by (rewrite length_app; simpl; lia).
  apply IH; [done|lia|]. rewrite !length_app. simpl. lia.
Qed.

Lemma strcmp_same a b s : cstr a s -> cstr b s -> strcmp a b = Some true.
Proof.
  intros [[rest ->] Hs] [[rest' ->] _]. unfold strcmp.
  apply (strcmp_loop_refl s [] []); rewrite ?length_app; simpl; done || lia.
Qed.

Lemma copyStringMax_loop_spec s rest pre dst max fuel :
  Forall (fun x => x <> 0) s -> is_bytes s -> (length s < fuel)%nat ->
  zlen pre + zlen s <= max -> zlen pre + zlen s < zlen dst ->
  copyStringMax_loop fuel dst (pre ++ s ++ 0 :: rest) max (zlen pre) (zlen pre) =
    fst <$> puts dst (zlen pre) (s ++ [0]).
Proof.
  revert pre dst fuel.
  induction s as [|x s IH]; intros pre dst [|fuel] Hs Hb Hf Hm Hd; simpl in Hf; try lia.
  { cbn [copyStringMax_loop app]. rewrite rd_mid. cbn [mbind option_bind puts].
    rewrite decide_False by (intros E; done). unfold put. by destruct (wr dst (zlen pre) 0). }
  inversion Hs; inversion Hb; subst. simpl length in Hm, Hd.
  cbn [copyStringMax_loop app puts]. rewrite rd_mid. cbn [mbind option_bind].
  rewrite decide_True by done. rewrite decide_True by lia. unfold put.
  destruct (wr dst (zlen pre) x) as [dst'|] eqn:Hw; cbn [mbind option_bind]; [|done].
  apply wr_inv in Hw as (_ & Hl & _).
  replace (pre ++ x :: s ++ 0 :: rest) with ((pre ++ [x]) ++ s ++ 0 :: rest)
    by (by rewrite <- app_assoc).
  replace (zlen pre + 1) with (zlen (pre ++ [x])) by (rewrite length_app; simpl; lia).
  apply IH; try done; try lia; rewrite length_app; simpl; lia.
Qed.

Lemma copyStringMax_spec dst max b s :
  cstr b s -> is_bytes b -> zlen s < max -> zlen s < zlen dst ->
  exists d, copyStringMax dst max b = Some d /\ cstr d s /\ zlen d = zlen dst /\
    (is_bytes dst -> is_bytes d).
Proof.
  intros [[rest ->] Hs] Hb Hm Hd. unfold copyStringMax. rewrite decide_False by lia.
  rewrite (copyStringMax_loop_spec s rest [] dst)
    by (done || (by apply Forall_app in Hb as [??]) || (rewrite ?length_app; simpl; lia)).
  assert (Hs0 : is_bytes (s ++ [0])).
  { apply Forall_app in Hb as [? _]. apply Forall_app. split; [done|]. solve_bytes. }
  change (zlen []) with 0. rewrite puts_splice by (done || lia || (rewrite length_app; simpl; lia)).
  rewrite take_0. cbn [app fmap option_fmap option_map fst]. eexists. split; [done|].
  split_and!.
  - split; [|done]. exists (drop (0 + length (s ++ [0])) dst). by rewrite <- app_assoc.
  - cbn [Nat.add Z.to_nat]. rewrite !length_app, length_drop. simpl. lia.
  - intros Hdst. apply Forall_app. split; [done|]. by apply Forall_drop.
Qed.

Lemma is_bytes_fresh n : is_bytes (fresh n).
Proof. by apply Forall_replicate. Qed.

Lemma fresh_length n : 0 <= n -> zlen (fresh n) = n.
Proof. intros. unfold fresh. rewrite length_replicate. lia. Qed.

(** ** Well-formed values

    Buffers have their announced sizes, strings are terminated, and no component
    is missing. *)

Definition wf_string (buf : option (list Z)) (size : Z) : Prop :=
  exists b s, buf = Some b /\ cstr b s /\ is_bytes b /\ zlen b = size + 1 /\ 0 <= size <= 32767.

Definition all_wf (P : MmsValue -> Prop) : list (option MmsValue) -> Prop :=
  fix all_wf cs :=
    match cs with
    | [] => True
    | c :: cs => match c with Some v => P v | None => False end /\ all_wf cs
    end.

Fixpoint wf (v : MmsValue) : Prop :=
  match v with
  | MmsArray cs | MmsStructure cs => all_wf wf cs
  | MmsBoolean _ | MmsDataAccessError _ => True
  | MmsBitString size b => 0 <= size /\ wf_buf b (bitStringByteSize size)
  | MmsInteger i | MmsUnsigned i => BerInteger.wf i
  | MmsFloat _ fw b => (fw = 32 \/ fw = 64) /\ wf_buf b 8
  | MmsOctetString size maxSize b =>
      wf_buf b (Z.abs maxSize) /\ 0 <= size <= Z.abs maxSize /\ size < 65536
  | MmsVisibleString b size | MmsString b size => wf_string b size
  | MmsBinaryTime size b => (size = 4 \/ size = 6) /\ wf_buf b 6
  | MmsUtcTime t => wf_buf t 8
  end.

Lemma wf_buf_memcpy n src dst m k :
  0 <= n <= m -> n <= k -> wf_buf src m -> wf_buf dst k ->
  copy_bytes (Z.to_nat n) src 0 dst 0 = Some (take (Z.to_nat n) src ++ drop (Z.to_nat n) dst, n) /\
  wf_buf (take (Z.to_nat n) src ++ drop (Z.to_nat n) dst) k /\
  take (Z.to_nat n) (take (Z.to_nat n) src ++ drop (Z.to_nat n) dst) = take (Z.to_nat n) src.
Proof.
  intros Hn Hk [Hb Hl] [Hb' Hl']. split_and!.
  - apply memcpy_spec; [done|lia..].
  - split.
    + apply Forall_app. split; [by apply Forall_take|by apply Forall_drop].
    + rewrite length_app, length_take, length_drop. lia.
  - apply take_memcpy. lia.
Qed.

Lemma wf_buf_fresh n : 0 <= n -> wf_buf (fresh n) n.
Proof. intros. split; [apply is_bytes_fresh | by apply fresh_length]. Qed.

Lemma wf_buf_memcmp n a b m k :
  0 <= n <= m -> n <= k -> wf_buf a m -> wf_buf b k ->
  take (Z.to_nat n) a = take (Z.to_nat n) b -> memcmp n a b = Some true.
Proof. intros ?? [_ ?] [_ ?] E. apply memcmp_same; [lia..|done]. Qed.

Lemma bitStringByteSize_bound n : 0 <= n ->
  0 <= bitStringByteSize n /\ n <= 8 * bitStringByteSize n < n + 8.
Proof. intros Hn. unfold bitStringByteSize. case_decide; zlia. Qed.

(** [w] is equal to [v], both ways. *)
Definition same_value (v w : MmsValue) : Prop :=
  equals v w = Some true /\ equals w v = Some true.

Lemma components_equal_all f (cs os : list (option MmsValue)) :
  Forall2 (fun c o => f c o = Some true) cs os -> components_equal f cs os = Some true.
Proof. induction 1 as [|c o cs os E _ IH]; cbn [components_equal]; [done|]. by rewrite E. Qed.

(** Component lists that correspond, one by one. *)
Definition same_components (cs ds : list (option MmsValue)) : Prop :=
  Forall2 (fun c d => exists v w, c = Some v /\ d = Some w /\ wf w /\ same_value v w) cs ds.

Lemma same_components_equals cs ds :
  same_components cs ds ->
  same_value (MmsArray cs) (MmsArray ds) /\ same_value (MmsStructure cs) (MmsStructure ds) /\
  all_wf wf ds.
Proof.
  intros H. pose proof (Forall2_length _ _ _ H) as Hl.
  unfold same_value; cbn [equals]. rewrite !decide_True by lia. split_and!.
  5: { clear Hl. induction H as [|c d cs ds (v & w & -> & -> & ? & _) _ IH]; cbn; auto. }
  all: apply components_equal_all.
  2, 4: apply Forall2_flip in H.
  all: eapply Forall2_impl; [exact H|]; intros c d (v & w & -> & -> & _ & [? ?]); done.
Qed.

(** ** Cloning *)

(** What a clone of [v] promises: a copy, or [NULL] after a failed allocation. *)
Definition cloned (v : MmsValue) (ok : bool) (r : option MmsValue) : Prop :=
  match r with Some w => wf w /\ same_value v w | None => ok = false end.

Lemma same_strings b b' s : cstr b s -> cstr b' s -> strcmp b b' = Some true /\ strcmp b' b = Some true.
Proof. intros. split; by eapply strcmp_same. Qed.

Lemma clone_string_runs mk buf size :
  wf_string buf size ->
  (forall b b', same_value (mk (Some b) size) (mk (Some b') size) <->
    strcmp b b' = Some true /\ strcmp b' b = Some true) ->
  (forall b, wf (mk b size) = wf_string b size) ->
  runs (clone_string mk buf size) (cloned (mk buf size)).
Proof.
  intros (b & s & -> & Hc & Hb & Hl & Hs) Hsame Hwf. unfold clone_string.
  repeat runs_step; [lia| |done].
  destruct (copyStringMax_spec (fresh (size + 1)) (size + 1) b s) as (d & Ed & Hd & Hdl & Hdb).
  { done. } { done. }
  { destruct Hc as [[rest ->] _]. rewrite length_app in Hl. simpl in Hl. lia. }
  { destruct Hc as [[rest ->] _]. rewrite length_app in Hl. simpl in Hl.
    rewrite fresh_length by lia. lia. }
  eapply Alloc.runs_lift; [done|]. repeat runs_step. unfold cloned. rewrite Hsame, Hwf.
  rewrite fresh_length in Hdl by lia.
  split; [exists d, s; auto using is_bytes_fresh|]. by eapply same_strings.
Qed.

Lemma clone_integer_runs mk i :
  BerInteger.wf i ->
  (forall j, same_value (mk i) (mk j) <->
    Asn1PrimitivaValue_compare i j = Some true /\ Asn1PrimitivaValue_compare j i = Some true) ->
  (forall j, wf (mk j) = BerInteger.wf j) ->
  runs (clone_integer mk i) (cloned (mk i)).
Proof.
  intros Hi Hsame Hwf. unfold clone_integer. repeat runs_step.
  2, 3: done.
  destruct (clone_spec i Hi) as (c & E & Hc & Hd).
  eapply Alloc.runs_lift; [done|]. repeat runs_step. unfold cloned.
  cbn [fmap option_fmap option_map]. rewrite Hsame, Hwf.
  split; [done|]. split; by apply equal_digits.
Qed.

Lemma clone_components_runs cs :
  all_wf wf cs ->
  all_components (fun v => wf v -> runs (clone v) (cloned v)) cs ->
  runs (components_clone
          (fun c => match c with
                    | Some c => m_bind (clone c) (fun r => m_ret (Some <$> r))
                    | None => m_ret (Some None)
                    end) cs)
       (fun ok r => match r with Some ds => same_components cs ds | None => ok = false end).
Proof.
  induction cs as [|c cs IH]; intros Hwf Hall; cbn [components_clone].
  { apply Alloc.runs_ret. constructor. }
  destruct c as [c|]; cbn in Hwf; [|tauto]. destruct Hwf as [Hc Hcs].
  inversion Hall as [|? ? Hv Hvs]; subst.
  apply Alloc.runs_bind, Alloc.runs_bind.
  eapply Alloc.runs_mono; [by apply Hv|]. intros ok [w|] Hw; apply Alloc.runs_ret;
    cbn [fmap option_fmap option_map] in *.
  - apply Alloc.runs_bind. eapply Alloc.runs_mono; [by apply IH|].
    intros ok' [ds|] Hds; apply Alloc.runs_ret; cbn [fmap option_fmap option_map].
    + constructor; [|done]. destruct Hw. eauto 10.
    + subst. by rewrite !andb_false_r.
  - cbn in Hw. subst. apply Alloc.runs_ret. done.
Qed.

Lemma clone_components_done mk cs (Hmk : mk = MmsArray \/ mk = MmsStructure) :
  all_wf wf cs ->
  all_components (fun v => wf v -> runs (clone v) (cloned v)) cs ->
  runs (clone (mk cs)) (cloned (mk cs)).
Proof.
  intros Hwf Hall. destruct Hmk as [-> | ->]; cbn [clone]; repeat runs_step; try done.
  all: eapply Alloc.runs_mono; [by apply clone_components_runs|].
  all: intros ok [ds|] H; apply Alloc.runs_ret; cbn; [|subst; done].
  all: apply same_components_equals in H; tauto.
Qed.

(** The values without an allocation of their own. *)
Lemma clone_buffer_runs v mk src n m k :
  0 <= n <= m -> n <= k -> wf_buf src m ->
  (forall d, wf_buf d k -> take (Z.to_nat n) d = take (Z.to_nat n) src -> cloned v true (Some (mk d))) ->
  runs (r <~ m_lift (copy_bytes (Z.to_nat n) src 0 (fresh k) 0); m_ret (Some (mk (fst r))))
       (cloned v).
Proof.
  intros Hn Hk Hsrc Hd.
  destruct (wf_buf_memcpy n src (fresh k) m k) as (E & Hw & Ht); [done..|by apply wf_buf_fresh; lia|].
  apply Alloc.runs_bind. eapply Alloc.runs_lift; [done|]. apply Alloc.runs_ret, Hd; done.
Qed.

Lemma cloned_buffer v w (n : Z) a b m k :
  0 <= n <= m -> n <= k -> wf_buf a m -> wf_buf b k -> wf w ->
  equals v w = memcmp n a b -> equals w v = memcmp n b a ->
  take (Z.to_nat n) b = take (Z.to_nat n) a -> cloned v true (Some w).
Proof.
  intros. split; [done|]. split.
  - etrans; [done|]. by eapply (wf_buf_memcmp n a b m k).
  - etrans; [done|]. eapply (wf_buf_memcmp n b a k m); (done || lia).
Qed.

Lemma clone_runs v : wf v -> runs (clone v) (cloned v).
Proof.
  induction v as [cs Hcs|cs Hcs|v Hleaf] using MmsValue_ind'; intros Hwf.
  { apply clone_components_done; auto. }
  { apply clone_components_done; auto. }
  destruct v as [cs|cs|x|n b|i|i|ew fw b|n mx b|b n|b n|n b|t|e];
    try (exfalso; by edestruct (Hleaf cs)); cbn [wf] in Hwf; cbn [clone];
    (apply Alloc.runs_bind, Alloc.runs_malloc; intros []; [|by apply Alloc.runs_ret]).
  - apply Alloc.runs_ret. split; [done|]. unfold same_value; cbn. by rewrite bool_decide_true.
  - apply Alloc.runs_bind, Alloc.runs_malloc. intros []; [|by apply Alloc.runs_ret].
    destruct Hwf as [Hn Hb]. pose proof (bitStringByteSize_bound n Hn).
    eapply clone_buffer_runs; [|done|done|]; [lia|]. intros d Hd Ht.
    eapply cloned_buffer; [| |exact Hb|exact Hd|done| | |exact Ht]; [lia|lia|..];
      cbn [equals]; by rewrite decide_True.
  - by apply clone_integer_runs.
  - by apply clone_integer_runs.
  - destruct Hwf as [Hfw Hb].
    assert (0 <= Z.quot fw 8 <= 8) by (by destruct Hfw; subst; vm_compute).
    eapply (clone_buffer_runs _ (MmsFloat ew fw)); [| |exact Hb|]; [lia|lia|]. intros d Hd Ht.
    eapply cloned_buffer; [| |exact Hb|exact Hd|done| | |exact Ht]; [lia|lia|done..].
  - apply Alloc.runs_bind, Alloc.runs_malloc. intros []; [|by apply Alloc.runs_ret].
    destruct Hwf as (Hb & Hn & Hs).
    eapply clone_buffer_runs; [| |done|]; [lia|lia|]. intros d Hd Ht.
    eapply cloned_buffer; [| |exact Hb|exact Hd|done| | |exact Ht]; [lia|lia|..];
      cbn [equals]; by rewrite decide_True.
  - by apply clone_string_runs.
  - by apply clone_string_runs.
  - destruct Hwf as [Hn Hb].
    change (copy_bytes 6) with (copy_bytes (Z.to_nat 6)).
    eapply (clone_buffer_runs _ (MmsBinaryTime n)); [| |exact Hb|]; [lia|lia|]. intros d Hd Ht.
    assert (d = b) as ->.
    { destruct Hd as [_ Hd], Hb as [_ Hb]. rewrite !take_ge in Ht by lia. done. }
    eapply (cloned_buffer _ _ n); [| |exact Hb|exact Hb|done| | |done]; [lia|lia|..];
      cbn [equals]; by rewrite decide_True.
  - change (copy_bytes 8) with (copy_bytes (Z.to_nat 8)).
    eapply (clone_buffer_runs _ MmsUtcTime); [| |exact Hwf|]; [lia|lia|]. intros d Hd Ht.
    eapply cloned_buffer; [| |exact Hwf|exact Hd|done| | |exact Ht]; [lia|lia|done..].
  - apply Alloc.runs_ret. split; [done|]. unfold same_value; cbn. by rewrite bool_decide_true.
Qed.

(** ** Single bits *)

Lemma bit_byte_bound size pos : 0 <= pos < size -> 0 <= Z.quot pos 8 < bitStringByteSize size.
Proof. intros H. unfold bitStringByteSize. case_decide; zlia. Qed.

Lemma getBitStringBit_total size buf pos :
  0 <= pos -> wf_buf buf (bitStringByteSize size) -> exists b, getBitStringBit size buf pos = Some b.
Proof.
  intros Hp [_ Hl]. unfold getBitStringBit. case_decide; [|eauto].
  destruct (rd_Some buf (Z.quot pos 8)) as [x ->]; [|eauto].
  pose proof (bit_byte_bound size pos). lia.
Qed.

Lemma setBitStringBit_total size buf pos v :
  0 <= pos -> wf_buf buf (bitStringByteSize size) ->
  exists b, setBitStringBit size buf pos v = Some b /\ wf_buf b (bitStringByteSize size).
Proof.
  intros Hp [Hb Hl]. unfold setBitStringBit. case_decide; [|by exists buf].
  pose proof (bit_byte_bound size pos).
  destruct (rd_Some buf (Z.quot pos 8)) as [x ->]; [lia|]. cbn [mbind option_bind].
  rewrite wr_Some by lia. eexists. split; [done|]. split.
  - apply Forall_insert; [done|apply u8_range].
  - by rewrite length_insert.
Qed.

Lemma updateBits_total n size buf usize ubuf i :
  0 <= i -> wf_buf buf (bitStringByteSize size) -> wf_buf ubuf (bitStringByteSize usize) ->
  exists b, updateBits_loop n size buf usize ubuf i = Some b /\ wf_buf b (bitStringByteSize size).
Proof.
  revert buf i. induction n as [|n IH]; intros buf i Hi Hb Hu; cbn [updateBits_loop]; [eauto|].
  case_decide; [|eauto].
  destruct (getBitStringBit_total usize ubuf i) as [x ->]; [done..|]. cbn [mbind option_bind].
  destruct (setBitStringBit_total size buf i x) as (b & -> & Hb'); [done..|].
  cbn [mbind option_bind]. apply IH; [lia|done..].
Qed.

(** ** Updating *)

Definition components_agree (f : option MmsValue -> option MmsValue -> bool) :
    list (option MmsValue) -> list (option MmsValue) -> bool :=
  fix components_agree cs us :=
    match cs, us with c :: cs, u :: us => f c u && components_agree cs us | _, _ => true end.

(** Bit strings at the same place have the same size. *)
Fixpoint bits_agree (self upd : MmsValue) {struct self} : bool :=
  let all := components_agree
    (fun c u => match c, u with Some c, Some u => bits_agree c u | _, _ => true end) in
  match self, upd with
  | MmsArray cs, MmsArray us => all cs us
  | MmsStructure cs, MmsStructure us => all cs us
  | MmsBitString n _, MmsBitString n' _ => bool_decide (n = n')
  | _, _ => true
  end.

(** What an update of [self] with [u] promises when no allocation fails. *)
Definition updated (self u : MmsValue) (ok : bool) (r : MmsValue * bool) : Prop :=
  ok = true -> wf (fst r) /\ (snd r = true -> bits_agree self u = true -> same_value u (fst r)).

Lemma cloned_updated v u w : cloned u true (Some w) -> updated v u true (w, true).
Proof. intros [? ?] _. done. Qed.

Lemma not_updated self u : wf self -> runs (m_ret (self, false)) (updated self u).
Proof. intros. apply Alloc.runs_ret. intros _. done. Qed.

Lemma update_string_runs buf size ubuf usize :
  wf_string buf size -> wf_string ubuf usize ->
  runs (setVisibleStringValue buf size ubuf)
    (fun ok r => ok = true -> wf_string (fst r) (snd r) /\
       exists b u s, fst r = Some b /\ ubuf = Some u /\ cstr b s /\ cstr u s).
Proof.
  intros (b & s & -> & Hc & Hb & Hl & Hs) (u & t & -> & Hc' & Hb' & Hl' & Hs').
  unfold setVisibleStringValue.
  assert (zlen t < zlen u) by (destruct Hc' as [[? ->] _]; rewrite length_app; simpl; lia).
  apply Alloc.runs_bind. eapply Alloc.runs_lift; [by apply strlen_spec|].
  case_decide as Hlen.
  - apply Alloc.runs_bind, Alloc.runs_malloc_size; [lia|]. intros []; [|by apply Alloc.runs_ret].
    assert (s16 (zlen t) = zlen t) as -> by zlia.
    destruct (copyStringMax_spec (fresh (zlen t + 1)) (zlen t + 1) u t) as (d & E & Hd & Hdl & Hdb);
      [done|done|lia|rewrite fresh_length by lia; lia|].
    apply Alloc.runs_bind. eapply Alloc.runs_lift; [done|]. apply Alloc.runs_ret. intros _.
    rewrite fresh_length in Hdl by lia. split.
    + exists d, t. cbn [fst snd]. split_and!; auto using is_bytes_fresh; lia.
    + by exists d, u, t.
  - destruct (copyStringMax_spec b (size + 1) u t) as (d & E & Hd & Hdl & Hdb); [done|done|lia..|].
    apply Alloc.runs_bind. eapply Alloc.runs_lift; [done|]. apply Alloc.runs_ret. intros _. split.
    + exists d, t. cbn [fst snd]. split_and!; auto; lia.
    + by exists d, u, t.
Qed.

Lemma update_octets_runs size maxSize b usize umax u :
  wf (MmsOctetString size maxSize b) -> wf (MmsOctetString usize umax u) ->
  runs (updateOctetString size maxSize b usize u)
    (updated (MmsOctetString size maxSize b) (MmsOctetString usize umax u)).
Proof.
  intros (Hb & Hs & Hs') (Hu & Hus & Hus'). unfold updateOctetString.
  assert (Hcopy : forall mx b', wf_buf b' (Z.abs mx) -> usize <= Z.abs mx ->
    runs (r <~ m_lift (copy_bytes (Z.to_nat usize) u 0 b' 0);
          m_ret (MmsOctetString (u16 usize) mx (fst r), true))
      (updated (MmsOctetString size maxSize b) (MmsOctetString usize umax u))).
  { intros mx b' Hb' Hmx.
    destruct (wf_buf_memcpy usize u b' (Z.abs umax) (Z.abs mx)) as (E & Hw & Ht); [lia|lia|done..|].
    apply Alloc.runs_bind. eapply Alloc.runs_lift; [done|]. apply Alloc.runs_ret.
    assert (u16 usize = usize) as -> by zlia.
    eapply cloned_updated, (cloned_buffer _ _ usize); [| |exact Hu|exact Hw| | | |exact Ht];
      [lia|lia|..]; cbn [wf equals fst]; [by auto with lia|by rewrite decide_True..]. }
  case_decide as Hre.
  - apply Alloc.runs_bind, Alloc.runs_malloc. intros []; [|by apply Alloc.runs_ret].
    rewrite decide_True by lia. apply Hcopy; [|lia].
    replace (Z.abs (- usize)) with usize by lia. apply wf_buf_fresh. lia.
  - case_decide; [by apply Hcopy|]. by apply not_updated.
Qed.

Lemma components_update_runs cs us :
  length cs = length us -> all_wf wf cs -> all_wf wf us ->
  all_components (fun v => forall u, wf v -> wf u -> runs (update v u) (updated v u)) cs ->
  runs (components_update
          (fun c u => match c, u with
                      | Some c, Some u => m_bind (update c u) (fun r => m_ret (Some (fst r), snd r))
                      | _, _ => m_ret (c, false)
                      end) cs us)
    (fun ok r => ok = true -> all_wf wf (fst r) /\
       (snd r = true ->
        components_agree (fun c u => match c, u with Some c, Some u => bits_agree c u | _, _ => true end)
          cs us = true -> same_components us (fst r))).
Proof.
  revert us. induction cs as [|c cs IH]; intros [|u us] Hl Hc Hu Hall; simpl in Hl; try lia;
    cbn [components_update].
  { apply Alloc.runs_ret. intros _. split; [done|]. constructor. }
  destruct c as [c|], u as [u|]; cbn in Hc, Hu; try tauto.
  destruct Hc as [Hc Hcs], Hu as [Hu Hus]. inversion Hall as [|? ? Hv Hvs]; subst.
  apply Alloc.runs_bind, Alloc.runs_bind. eapply Alloc.runs_mono; [by apply Hv|].
  intros ok [w fl] Hw. apply Alloc.runs_ret. cbn [fst snd]. destruct fl; cbn [fst snd].
  - apply Alloc.runs_bind. eapply Alloc.runs_mono; [apply IH; (done || lia)|].
    intros ok' [ds fl'] Hds. apply Alloc.runs_ret. cbn [fst snd] in *. rewrite !andb_true_r.
    intros [Hok Hok']%andb_prop. destruct (Hw Hok) as [Hww Hs]. destruct (Hds Hok') as [Hwd Hd].
    split; [done|]. intros Hfl'. cbn [components_agree]. intros [Ha Ha']%andb_prop.
    constructor; [|by apply Hd]. cbn [fst snd] in *. exists u, w. auto.
  - apply Alloc.runs_ret. cbn [fst snd]. rewrite !andb_true_r. intros Hok.
    destruct (Hw Hok) as [Hww _]. done.
Qed.

Lemma update_components_done mk cs us (Hmk : mk = MmsArray \/ mk = MmsStructure) :
  all_wf wf cs -> all_wf wf us ->
  all_components (fun v => forall u, wf v -> wf u -> runs (update v u) (updated v u)) cs ->
  runs (update (mk cs) (mk us)) (updated (mk cs) (mk us)).
Proof.
  intros Hc Hu Hall. destruct Hmk as [-> | ->]; cbn [update]; case_decide;
    try (by apply not_updated).
  all: apply Alloc.runs_bind; eapply Alloc.runs_mono;
    [apply components_update_runs; (done || lia)|].
  all: intros ok [ds fl] H'; apply Alloc.runs_ret; rewrite andb_true_r; intros Hok.
  all: destruct (H' Hok) as [Hw Hs]; split; [done|]; cbn [fst snd bits_agree] in *.
  all: intros Hfl Hb; apply (same_components_equals us ds); auto.
Qed.

Lemma update_integer_runs mk i j :
  BerInteger.wf i -> BerInteger.wf j ->
  (forall k, same_value (mk j) (mk k) <->
    Asn1PrimitivaValue_compare j k = Some true /\ Asn1PrimitivaValue_compare k j = Some true) ->
  (forall k, wf (mk k) = BerInteger.wf k) ->
  runs (r <~ m_lift (setFromBerInteger i j); m_ret (mk (fst r), snd r)) (updated (mk i) (mk j)).
Proof.
  intros Hi Hj Hsame Hwf. apply Alloc.runs_bind.
  destruct (decide (size j <= maxSize i)) as [Hfit|Hfit].
  - destruct (setFromBerInteger_spec i j) as (s & E & Hs & Hd & _); [done..|].
    eapply Alloc.runs_lift; [done|]. apply Alloc.runs_ret. intros _. cbn [fst snd].
    rewrite Hwf, Hsame. split; [done|]. split; by apply equal_digits.
  - unfold setFromBerInteger. rewrite decide_False by lia.
    eapply Alloc.runs_lift; [done|]. apply Alloc.runs_ret. intros _. cbn [fst snd].
    by rewrite Hwf.
Qed.

(** Updating replaces the first octets of a buffer of fixed size. *)
Lemma update_buffer_runs v u mk src dst n m :
  0 <= n <= m -> wf_buf src m -> wf_buf dst m ->
  (forall d, wf_buf d m -> take (Z.to_nat n) d = take (Z.to_nat n) src -> cloned u true (Some (mk d))) ->
  runs (r <~ m_lift (copy_bytes (Z.to_nat n) src 0 dst 0); m_ret (mk (fst r), true)) (updated v u).
Proof.
  intros Hn Hs Hd H. destruct (wf_buf_memcpy n src dst m m) as (E & Hw & Ht); [lia|lia|done..|].
  apply Alloc.runs_bind. eapply Alloc.runs_lift; [done|]. apply Alloc.runs_ret, cloned_updated, H; done.
Qed.

Lemma update_runs v u : wf v -> wf u -> runs (update v u) (updated v u).
Proof.
  revert u. induction v as [cs Hcs|cs Hcs|v Hleaf] using MmsValue_ind'; intros u Hv Hu.
  { destruct u; try (by apply not_updated). apply update_components_done; auto. }
  { destruct u; try (by apply not_updated). apply update_components_done; auto. }
  destruct v as [cs|cs|x|n b|i|i|ew fw b|n mx b|b n|b n|n b|t|e];
    try (exfalso; by edestruct (Hleaf cs)); destruct u as [us|us|y|un ub|j|j|uew ufw ub|un umx ub|ub un|ub un|un ub|ut|ue];
    try (by apply not_updated); try (by apply update_octets_runs); cbn [wf] in Hv, Hu; cbn [update].
  - apply Alloc.runs_ret, cloned_updated. split; [done|]. unfold same_value; cbn.
    by rewrite bool_decide_true.
  - destruct Hv as [Hn Hb], Hu as [Hn' Hub]. pose proof (bitStringByteSize_bound n Hn).
    apply Alloc.runs_bind. unfold updateBitString. case_decide as Hnn.
    + subst un. destruct (wf_buf_memcpy (bitStringByteSize n) ub b
        (bitStringByteSize n) (bitStringByteSize n)) as (E & Hw & Ht); [lia|lia|done|done|].
      rewrite E. eapply Alloc.runs_lift; [done|]. apply Alloc.runs_ret, cloned_updated.
      eapply cloned_buffer; [| |exact Hub|exact Hw|done| | |exact Ht]; [lia|lia|..];
        cbn [equals]; by rewrite decide_True.
    + destruct (updateBits_total (Z.to_nat un) n b un ub 0) as (b' & -> & Hb'); [done..|].
      eapply Alloc.runs_lift; [done|]. apply Alloc.runs_ret. intros _. split; [done|].
      cbn [bits_agree]. by rewrite bool_decide_false.
  - by apply update_integer_runs.
  - by apply update_integer_runs.
  - case_decide; [subst ufw|by apply not_updated]. destruct Hv as [Hfw Hb], Hu as [_ Hub].
    assert (0 <= Z.quot fw 8 <= 8) by (by destruct Hfw; subst; vm_compute).
    eapply (update_buffer_runs _ _ (MmsFloat uew fw)); [|exact Hub|exact Hb|]; [lia|].
    intros d Hd Ht.
    eapply cloned_buffer; [| |exact Hub|exact Hd|done| | |exact Ht]; [lia|lia|done..].
  - apply Alloc.runs_bind, Alloc.runs_bind.
    eapply Alloc.runs_mono; [by apply (update_string_runs b n ub un)|]. intros ok [b' n'] H.
    apply Alloc.runs_ret, Alloc.runs_ret. rewrite !andb_true_r. intros Hok.
    destruct (H Hok) as (Hw & b1 & u1 & s & E1 & -> & Hc1 & Hc2). cbn [fst snd] in *. subst b'.
    split; [done|]. intros _ _. by eapply same_strings.
  - apply Alloc.runs_bind, Alloc.runs_bind.
    eapply Alloc.runs_mono; [by apply (update_string_runs b n ub un)|]. intros ok [b' n'] H.
    apply Alloc.runs_ret, Alloc.runs_ret. rewrite !andb_true_r. intros Hok.
    destruct (H Hok) as (Hw & b1 & u1 & s & E1 & -> & Hc1 & Hc2). cbn [fst snd] in *. subst b'.
    split; [done|]. intros _ _. by eapply same_strings.
  - destruct Hv as [_ Hb], Hu as [Hn Hub].
    eapply (update_buffer_runs _ _ (MmsBinaryTime un)); [|exact Hub|exact Hb|]; [lia|].
    intros d Hd Ht.
    eapply cloned_buffer; [| |exact Hub|exact Hd|done| | |exact Ht]; [lia|lia|..];
      cbn [equals]; by rewrite decide_True.
  - change (copy_bytes 8) with (copy_bytes (Z.to_nat 8)).
    eapply (update_buffer_runs _ _ MmsUtcTime); [|exact Hu|exact Hv|]; [lia|]. intros d Hd Ht.
    eapply cloned_buffer; [| |exact Hu|exact Hd|done| | |exact Ht]; [lia|lia|done..].
Qed.

(** ** Bits and integers *)

Lemma land_pow2_pos x k : 0 <= x -> 0 <= k ->
  bool_decide (Z.land x (Z.shiftl 1 k) > 0) = Z.testbit x k.
Proof.
  intros Hx Hk. rewrite Z.shiftl_1_l.
  assert (E : Z.land x (2 ^ k) = if Z.testbit x k then 2 ^ k else 0).
  { apply Z.bits_inj'. intros n Hn. rewrite Z.land_spec.
    destruct (decide (n = k)) as [->|Hne].
    - rewrite Z.pow2_bits_true by lia. destruct (Z.testbit x k);
        rewrite ?Z.pow2_bits_true, ?Z.bits_0 by lia; done.
    - rewrite Z.pow2_bits_false, andb_false_r by lia.
      destruct (Z.testbit x k); rewrite ?Z.pow2_bits_false, ?Z.bits_0 by lia; done. }
  rewrite E. pose proof (Z.pow_pos_nonneg 2 k).
  destruct (Z.testbit x k); [apply bool_decide_eq_true_2|apply bool_decide_eq_false_2]; lia.
Qed.

Lemma testbit_set x k n (v : bool) : 0 <= k < 8 -> 0 <= n < 8 ->
  Z.testbit (u8 (if v then Z.lor x (Z.shiftl 1 k) else Z.land x (Z.lnot (Z.shiftl 1 k)))) n =
    if decide (n = k) then v else Z.testbit x n.
Proof.
  intros Hk Hn. change (u8 ?z) with (z mod 2 ^ 8). rewrite Z.mod_pow2_bits_low by lia.
  rewrite Z.shiftl_1_l. destruct v; rewrite ?Z.lor_spec, ?Z.land_spec, ?Z.lnot_spec by lia.
  - case_decide; [subst; rewrite Z.pow2_bits_true by lia; apply orb_true_r|].
    by rewrite Z.pow2_bits_false, orb_false_r by lia.
  - case_decide; [subst; rewrite Z.pow2_bits_true by lia; apply andb_false_r|].
    by rewrite Z.pow2_bits_false, andb_true_r by lia.
Qed.

Lemma getBitStringBit_testbit size buf j x :
  0 <= j < size -> is_bytes buf -> rd buf (Z.quot j 8) = Some x ->
  getBitStringBit size buf j = Some (Z.testbit x (7 - Z.rem j 8)).
Proof.
  intros Hj Hb Hx. pose proof (rd_byte _ _ _ Hb Hx). unfold getBitStringBit.
  rewrite decide_True, Hx by lia. cbn [mbind option_bind]. rewrite land_pow2_pos; [done|zlia..].
Qed.

Lemma set_get_bit size buf i v :
  0 <= i < size -> wf_buf buf (bitStringByteSize size) ->
  exists b, setBitStringBit size buf i v = Some b /\ wf_buf b (bitStringByteSize size) /\
    forall j, 0 <= j < size ->
      getBitStringBit size b j = if decide (j = i) then Some v else getBitStringBit size buf j.
Proof.
  intros Hi [Hb Hl]. pose proof (bit_byte_bound size i Hi).
  destruct (rd_ok buf (Z.quot i 8)) as (x & Hx & Hxb); [done|lia|].
  unfold setBitStringBit. rewrite decide_True, Hx by lia. cbn [mbind option_bind].
  set (y := if v then Z.lor x (Z.shiftl 1 (7 - Z.rem i 8))
            else Z.land x (Z.lnot (Z.shiftl 1 (7 - Z.rem i 8)))).
  destruct (wr buf (Z.quot i 8) y) as [b|] eqn:Hw; [|by rewrite wr_Some in Hw by lia].
  exists b. split; [done|]. pose proof (wr_bytes _ _ _ _ Hb Hw) as Hbb.
  apply wr_inv in Hw as (_ & Hbl & Hr & Ho). split; [split; [done|lia]|].
  intros j Hj. destruct (decide (Z.quot j 8 = Z.quot i 8)) as [Hq|Hq].
  - rewrite <- Hq in Hr. rewrite (getBitStringBit_testbit _ _ _ _ Hj Hbb Hr).
    unfold y. rewrite testbit_set by zlia. case_decide as Hd.
    + rewrite decide_True by zlia. done.
    + rewrite decide_False by zlia. symmetry.
      apply getBitStringBit_testbit; [done|done|]. by rewrite Hq.
  - rewrite decide_False by (intros ->; done).
    destruct (rd_ok buf (Z.quot j 8)) as (z & Hz & _); [done|pose proof (bit_byte_bound size j Hj); lia|].
    rewrite (getBitStringBit_testbit _ _ _ z Hj Hb Hz).
    apply getBitStringBit_testbit; [done|done|]. by rewrite Ho.
Qed.

Lemma odd_bit v : bool_decide (Z.land v 1 = 1) = Z.testbit v 0.
Proof.
  change (Z.land v 1) with (Z.land v (Z.ones 1)). rewrite Z.land_ones by lia.
  change (2 ^ 1) with 2. rewrite Z.bit0_odd, Zmod_odd. by destruct (Z.odd v).
Qed.

Lemma mod_pow2_step v k : 0 <= k ->
  v mod 2 ^ (k + 1) = v mod 2 ^ k + (if Z.testbit v k then 2 ^ k else 0).
Proof.
  intros Hk. rewrite Z.pow_add_r by lia. change (2 ^ 1) with 2.
  rewrite Z.rem_mul_r by (try apply Z.pow_nonzero; lia).
  rewrite <- Z.testbit_spec' by lia. destruct (Z.testbit v k); cbn [Z.b2z]; lia.
Qed.

(** The first [k] bits hold the low bits of [v], from bit [j] on. *)
Lemma setBits_loop_spec n size buf pos v :
  0 <= pos -> pos + Z.of_nat n <= size -> wf_buf buf (bitStringByteSize size) ->
  exists b, setBitStringFromInteger_loop n size buf pos v = Some b /\
    wf_buf b (bitStringByteSize size) /\
    forall j, 0 <= j < size -> getBitStringBit size b j =
      if decide (pos <= j < pos + Z.of_nat n) then Some (Z.testbit v (j - pos))
      else getBitStringBit size buf j.
Proof.
  revert buf pos v. induction n as [|n IH]; intros buf pos v Hp Hn Hb.
  { exists buf. split; [done|]; split; [done|]. intros j Hj. rewrite decide_False by lia. done. }
  cbn [setBitStringFromInteger_loop]. rewrite odd_bit.
  destruct (set_get_bit size buf pos (Z.testbit v 0)) as (b & -> & Hbw & Hg); [lia|done|].
  cbn [mbind option_bind].
  destruct (IH b (pos + 1) (Z.shiftr v 1)) as (b' & -> & Hbw' & Hg'); [lia|lia|done|].
  exists b'. split; [done|]; split; [done|]. intros j Hj. rewrite Hg' by done.
  destruct (decide (j = pos)) as [->|Hne].
  - rewrite decide_False, Hg, decide_True by lia. rewrite decide_True by lia. by rewrite Z.sub_diag.
  - destruct (decide (pos <= j < pos + Z.of_nat (S n))).
    + rewrite decide_True by lia. rewrite Z.shiftr_spec by lia. do 2 f_equal. lia.
    + rewrite decide_False, Hg, decide_False by lia. done.
Qed.

Lemma add_bit_u32 v k : 0 <= k < 32 ->
  u32 (v mod 2 ^ k + Z.shiftl 1 k) = v mod 2 ^ k + 2 ^ k.
Proof.
  intros Hk. rewrite Z.shiftl_1_l. apply u32_id. unfold is_u32.
  pose proof (Z.mod_pos_bound v (2 ^ k)). pose proof (Z.pow_pos_nonneg 2 k).
  assert (2 ^ (k + 1) <= 2 ^ 32) as Hle by (apply Z.pow_le_mono_r; lia).
  rewrite Z.pow_add_r in Hle by lia. change (2 ^ 32) with 4294967296 in Hle. lia.
Qed.

Lemma getBits_loop_spec n size buf pos v :
  0 <= pos -> pos + Z.of_nat n <= 32 ->
  (forall j, pos <= j < pos + Z.of_nat n -> getBitStringBit size buf j = Some (Z.testbit v j)) ->
  getBitStringAsInteger_loop n size buf pos (v mod 2 ^ pos) = Some (v mod 2 ^ (pos + Z.of_nat n)).
Proof.
  revert pos. induction n as [|n IH]; intros pos Hp Hn Hg; cbn [getBitStringAsInteger_loop].
  { by rewrite Z.add_0_r. }
  rewrite Hg by lia. cbn [mbind option_bind].
  assert (E : (if Z.testbit v pos then
      if decide (pos < 32) then Some (u32 (v mod 2 ^ pos + Z.shiftl 1 pos)) else None
      else Some (v mod 2 ^ pos)) = Some (v mod 2 ^ (pos + 1))).
  { rewrite mod_pow2_step by done. destruct (Z.testbit v pos); [|by rewrite Z.add_0_r].
    rewrite decide_True by lia. by rewrite add_bit_u32 by lia. }
  rewrite E. cbn [mbind option_bind]. rewrite IH; [f_equal; do 2 f_equal; lia|lia|lia|].
  intros j Hj. apply Hg. lia.
Qed.

Lemma setBitsBE_loop_spec n size buf v :
  Z.of_nat n <= size -> wf_buf buf (bitStringByteSize size) ->
  exists b, setBitStringFromIntegerBigEndian_loop n size buf v = Some b /\
    wf_buf b (bitStringByteSize size) /\
    forall j, 0 <= j < size -> getBitStringBit size b j =
      if decide (j < Z.of_nat n) then Some (Z.testbit v (Z.of_nat n - 1 - j))
      else getBitStringBit size buf j.
Proof.
  revert buf v. induction n as [|n IH]; intros buf v Hn Hb.
  { exists buf. split; [done|]; split; [done|]. intros j Hj. rewrite decide_False by lia. done. }
  cbn [setBitStringFromIntegerBigEndian_loop]. rewrite odd_bit.
  destruct (set_get_bit size buf (Z.of_nat n) (Z.testbit v 0)) as (b & -> & Hbw & Hg); [lia|done|].
  cbn [mbind option_bind].
  destruct (IH b (Z.shiftr v 1)) as (b' & -> & Hbw' & Hg'); [lia|done|].
  exists b'. split; [done|]; split; [done|]. intros j Hj. rewrite Hg' by done.
  destruct (decide (j = Z.of_nat n)) as [->|Hne].
  - rewrite decide_False, Hg, decide_True by lia. rewrite decide_True by lia. do 2 f_equal. lia.
  - destruct (decide (j < Z.of_nat (S n))).
    + rewrite decide_True by lia. rewrite Z.shiftr_spec by lia. do 2 f_equal. lia.
    + rewrite decide_False, Hg, decide_False by lia. done.
Qed.

Lemma getBitsBE_loop_spec n size buf i v :
  0 <= i -> i + Z.of_nat n <= 32 ->
  (forall j, 0 <= j < Z.of_nat n ->
     getBitStringBit size buf j = Some (Z.testbit v (i + Z.of_nat n - 1 - j))) ->
  getBitStringAsIntegerBigEndian_loop n size buf i (v mod 2 ^ i) = Some (v mod 2 ^ (i + Z.of_nat n)).
Proof.
  revert i. induction n as [|n IH]; intros i Hp Hn Hg; cbn [getBitStringAsIntegerBigEndian_loop].
  { by rewrite Z.add_0_r. }
  rewrite Hg by lia. replace (i + Z.of_nat (S n) - 1 - Z.of_nat n) with i by lia.
  cbn [mbind option_bind].
  assert (E : (if Z.testbit v i then
      if decide (i < 32) then Some (u32 (v mod 2 ^ i + Z.shiftl 1 i)) else None
      else Some (v mod 2 ^ i)) = Some (v mod 2 ^ (i + 1))).
  { rewrite mod_pow2_step by done. destruct (Z.testbit v i); [|by rewrite Z.add_0_r].
    rewrite decide_True by lia. by rewrite add_bit_u32 by lia. }
  rewrite E. cbn [mbind option_bind]. rewrite IH; [f_equal; do 2 f_equal; lia|lia|lia|].
  intros j Hj. rewrite Hg by lia. do 2 f_equal. lia.
Qed.

(** ** Times *)

Lemma fraction_ms r : 0 <= r < 1000 ->
  let f := r * 16777 + (r * 216) / 1000 in
  0 <= f < 16777216 /\ f / 16777 = r /\
  (f * 1000000) / 0x1000000 = if decide (r mod 125 = 0) then r * 1000 else r * 1000 - 1.
Proof.
  intros Hr.
  assert (H : forallb (fun r => let f := r * 16777 + (r * 216) / 1000 in
    bool_decide (0 <= f < 16777216 /\ f / 16777 = r /\
    (f * 1000000) / 0x1000000 = if decide (r mod 125 = 0) then r * 1000 else r * 1000 - 1))
    (seqZ 0 1000) = true) by (vm_compute; reflexivity).
  rewrite forallb_forall in H. specialize (H r).
  apply bool_decide_eq_true_1 in H; [exact H|].
  apply list_elem_of_In, elem_of_seqZ. lia.
Qed.

Lemma le_val_4 a b c d : le_val [a; b; c; d] = ((d * 256 + c) * 256 + b) * 256 + a.
Proof. unfold le_val, be_val, be_acc. cbn. lia. Qed.

Lemma u8_mod z : u8 (z mod 256) = z mod 256.
Proof. apply u8_id. zlia. Qed.

Lemma be3_octets f : 0 <= f < 16777216 ->
  Z.shiftl (Z.land (Z.shiftr f 16) 0xff) 16 + Z.shiftl (Z.land (Z.shiftr f 8) 0xff) 8
    + Z.land f 0xff = f.
Proof.
  intros Hf. change 0xff with (Z.ones 8). rewrite !Z.land_ones, !Z.shiftl_mul_pow2, !Z.shiftr_div_pow2 by lia.
  change (2 ^ 8) with 256. change (2 ^ 16) with 65536. zlia.
Qed.

(** What [setUtcTimeMs] stores. *)
Lemma setUtcTimeMs_spec utc timeval q :
  wf_buf utc 8 -> 0 <= timeval -> is_u8 q ->
  let t := u32 (timeval / 1000) in
  let r := timeval mod 1000 in
  let f := r * 16777 + (r * 216) / 1000 in
  setUtcTimeMs utc timeval q =
    Some (be_bytes 4 t ++ [Z.land (Z.shiftr f 16) 0xff; Z.land (Z.shiftr f 8) 0xff; Z.land f 0xff; q]).
Proof.
  intros [Hb Hl] Ht Hq t r f.
  do 9 (destruct utc as [|? utc]; [simpl in Hl; lia || idtac|]).
  2: simpl in Hl; lia.
  unfold setUtcTimeMs. fold t r f.
  assert (Hu : forall z, u8 (Z.land z 0xff) = Z.land z 0xff).
  { intros k. apply u8_id. change 0xff with (Z.ones 8). rewrite Z.land_ones by lia. zlia. }
  clearbody f t. cbv -[u8 Z.modulo Z.div Z.land Z.shiftr].
  change 255 with 0xff. rewrite !u8_mod, !Hu, (u8_id q) by done. reflexivity.
Qed.

Lemma le_val_be_bytes t : is_u32 t -> le_val (reverse (be_bytes 4 t)) = t.
Proof.
  intros Ht. unfold le_val. rewrite reverse_involutive, be_val_be_bytes. 
  change (256 ^ Z.of_nat 4) with 4294967296. by apply u32_id.
Qed.

(** Reading the seconds of eight octets. *)
Lemma reverse_seconds a b c d tl :
  is_bytes [a; b; c; d] ->
  memcpyReverseByteOrder (replicate 4 0) 0 (a :: b :: c :: d :: tl) 0 4 = Some [d; c; b; a].
Proof.
  intros H. cbv -[u8 is_bytes].
  repeat match goal with
  | H : is_bytes (_ :: _) |- _ => apply Forall_cons in H as [??]
  | H : Forall is_u8 (_ :: _) |- _ => apply Forall_cons in H as [??]
  end.
  by rewrite !u8_id by done.
Qed.

Lemma land_255_byte z : is_u8 (Z.land z 255).
Proof. change 255 with (Z.ones 8). rewrite Z.land_ones by lia. unfold is_u8. zlia. Qed.

(** The readers on the eight octets of a UTC time. *)
Lemma utc_time_read a b c d o1 o2 o3 q :
  is_bytes [a; b; c; d] ->
  let t := [a; b; c; d; o1; o2; o3; q] in
  let s := be_val [a; b; c; d] in
  let f := Z.shiftl o1 16 + Z.shiftl o2 8 + o3 in
  getUtcTimeInMs t = Some (u64 (s * 1000 + f / 16777)) /\
  getUtcTimeQuality t = Some q /\ toUnixTimestamp t = Some s /\
  getUtcTimeInMsWithUs t =
    let r := u64 (f * 1000000) / 0x1000000 in Some (u64 (s * 1000 + r / 1000), r mod 1000).
Proof.
  intros Hb t s f. pose proof (reverse_seconds a b c d [o1; o2; o3; q] Hb) as Hsec.
  assert (Hval : le_val [d; c; b; a] = s) by done.
  assert (Hfr : fraction_of_second t = Some f) by done.
  split_and!; [|done|done|].
  - unfold getUtcTimeInMs, t. rewrite Hsec. cbn [mbind option_bind]. fold t. by rewrite Hfr, Hval.
  - unfold getUtcTimeInMsWithUs, t. rewrite Hsec. cbn [mbind option_bind]. fold t.
    by rewrite Hfr, Hval.
Qed.

Lemma usec_of_ms timeval f :
  0 <= timeval -> timeval / 1000 < 4294967296 -> 0 <= f < 16777216 ->
  f * 1000000 / 0x1000000 = (if decide ((timeval mod 1000) mod 125 = 0)
    then timeval mod 1000 * 1000 else timeval mod 1000 * 1000 - 1) ->
  (let r := u64 (f * 1000000) / 0x1000000 in (u64 (timeval / 1000 * 1000 + r / 1000), r mod 1000)) =
    if decide (timeval mod 125 = 0) then (timeval, 0) else (timeval - 1, 999).
Proof.
  intros H0 H32 Hf Hfus. cbv zeta.
  assert (u64 (f * 1000000) = f * 1000000) as -> by (apply Z.mod_small; lia).
  rewrite Hfus. clear Hfus.
  assert (Hd : timeval mod 125 = 0 <-> (timeval mod 1000) mod 125 = 0) by (clear; zlia).
  pose proof (Z.div_mod timeval 1000). pose proof (Z.mod_pos_bound timeval 1000).
  unfold u64. case_decide as Hm.
  - rewrite Z.div_mul, Z.mod_mul by lia. rewrite decide_True by tauto.
    f_equal. rewrite Z.mod_small; lia.
  - rewrite decide_False by tauto. set (r := timeval mod 1000) in *.
    assert (r <> 0) by (intros E; rewrite E in Hm; done).
    assert ((r * 1000 - 1) / 1000 = r - 1) as -> by (symmetry; apply (Z.div_unique _ _ _ 999); lia).
    assert ((r * 1000 - 1) mod 1000 = 999) as -> by (symmetry; apply (Z.mod_unique _ _ (r - 1)); lia).
    f_equal. rewrite Z.mod_small; lia.
Qed.

Lemma u64_ms timeval :
  0 <= timeval -> timeval / 1000 < 4294967296 ->
  u64 (timeval / 1000 * 1000 + timeval mod 1000) = timeval.
Proof.
  intros H0 H32. unfold u64. pose proof (Z.div_mod timeval 1000).
  pose proof (Z.mod_pos_bound timeval 1000). rewrite Z.mod_small; lia.
Qed.

(** ** Properties *)

(** Cloning a well-formed value never fails but for lack of memory, and gives
    a well-formed value that [MmsValue_equals] the original (both ways). *)
Theorem clone_equals_original v mem :
  wf v ->
  exists r mem', MmsValue_clone (Some v) mem = Some (r, mem') /\
    match r with
    | Some w => wf w /\ MmsValue_equals (Some v) (Some w) = Some true /\
                MmsValue_equals (Some w) (Some v) = Some true
    | None => In false mem
    end.
Proof.
  intros Hw. destruct (clone_runs v Hw mem) as (r & mem' & used & E & -> & H).
  exists r, mem'. split; [done|]. destruct r as [w|]; [done|].
  cbn in H. rewrite <- not_true_iff_false, forallb_forall in H.
  destruct (in_dec Bool.bool_dec false used) as [|Hn]; [apply in_app_iff; auto|].
  exfalso. apply H. intros [] Hx; [done|contradiction].
Qed.

Definition sample_value : MmsValue :=
  MmsStructure
    [Some (MmsInteger {| size := 1; maxSize := 5; octets := [200; 0; 0; 0; 0] |});
     Some (MmsArray [Some (MmsBoolean true); Some (MmsBitString 13 [0xab; 0xc8])]);
     Some (MmsVisibleString (Some [72; 105; 0; 0]) 3);
     Some (MmsOctetString 2 4 [1; 2; 3; 4]);
     Some (MmsFloat 8 32 [0; 0; 128; 63; 0; 0; 0; 0])].

Definition sample_update : MmsValue :=
  MmsStructure
    [Some (MmsInteger {| size := 2; maxSize := 9; octets := [1; 200; 0; 0; 0; 0; 0; 0; 0] |});
     Some (MmsArray [Some (MmsBoolean false); Some (MmsBitString 13 [0x12; 0x30])]);
     Some (MmsVisibleString (Some [76; 111; 110; 103; 0]) 4);
     Some (MmsOctetString 3 3 [7; 8; 9]);
     Some (MmsFloat 8 32 [0; 0; 0; 64; 0; 0; 0; 0])].

Ltac solve_wf :=
  cbn [wf all_wf sample_value sample_update]; unfold wf_buf, BerInteger.wf;
  cbn [size maxSize octets];
  repeat split; try lia; try solve_bytes; try (left; reflexivity).

Lemma cstr_intro b s rest : b = s ++ 0 :: rest -> forallb (fun x => negb (x =? 0)) s = true -> cstr b s.
Proof.
  intros -> H. split; [by eexists|]. rewrite forallb_forall in H. apply Forall_forall.
  intros x Hx%list_elem_of_In. specialize (H x Hx). apply negb_true_iff, Z.eqb_neq in H. done.
Qed.

Lemma sample_value_wf : wf sample_value.
Proof.
  solve_wf. exists [72; 105; 0; 0], [72; 105]. split_and!; try lia; [done| |solve_bytes|done].
  by apply (cstr_intro _ _ [0]).
Qed.

Lemma sample_update_wf : wf sample_update.
Proof.
  solve_wf. exists [76; 111; 110; 103; 0], [76; 111; 110; 103].
  split_and!; try lia; [done| |solve_bytes|done]. by apply (cstr_intro _ _ []).
Qed.

Lemma clone_equals_original_witness :
  exists r mem', MmsValue_clone (Some sample_value) [true; true; true] = Some (r, mem') /\
    match r with
    | Some w => wf w /\ MmsValue_equals (Some sample_value) (Some w) = Some true /\
                MmsValue_equals (Some w) (Some sample_value) = Some true
    | None => In false [true; true; true]
    end.
Proof. apply (clone_equals_original sample_value [true; true; true]), sample_value_wf. Defined.

(** Updating a well-formed value with another leaves it well-formed when no
    allocation fails; and when [MmsValue_update] returns true and no two bit strings
    at the same place differ in size, the value then equals the update. *)
Theorem update_equals v u :
  wf v -> wf u ->
  exists w r, MmsValue_update (Some v) (Some u) [] = Some ((Some w, r), []) /\ wf w /\
    (r = true -> bits_agree v u = true ->
     MmsValue_equals (Some w) (Some u) = Some true /\
     MmsValue_equals (Some u) (Some w) = Some true).
Proof.
  intros Hv Hu. destruct (update_runs v u Hv Hu []) as ([w r] & mem' & used & E & Hnil & H).
  symmetry in Hnil. apply app_nil in Hnil as [-> ->]. destruct (H eq_refl) as [Hw Hs].
  exists w, r. split_and!; [|done|].
  - unfold MmsValue_update, m_bind. rewrite E. done.
  - intros Hr Hb. destruct (Hs Hr Hb). done.
Qed.

Lemma update_equals_witness :
  exists w r, MmsValue_update (Some sample_value) (Some sample_update) [] = Some ((Some w, r), []) /\
    wf w /\
    (r = true -> bits_agree sample_value sample_update = true ->
     MmsValue_equals (Some w) (Some sample_update) = Some true /\
     MmsValue_equals (Some sample_update) (Some w) = Some true).
Proof. apply (update_equals sample_value sample_update); [apply sample_value_wf|apply sample_update_wf]. Defined.

(** The update of the witness succeeds. *)
Example sample_update_succeeds :
  (fun r => snd (fst r)) <$> MmsValue_update (Some sample_value) (Some sample_update) [] = Some true.
Proof. vm_compute. reflexivity. Qed.

(** Setting one bit of a bit string makes exactly that bit the value given. *)
Theorem set_bit_get_bit size buf i v :
  0 <= i < size -> wf_buf buf (bitStringByteSize size) ->
  exists b, setBitStringBit size buf i v = Some b /\ wf_buf b (bitStringByteSize size) /\
    forall j, 0 <= j < size ->
      getBitStringBit size b j = if decide (j = i) then Some v else getBitStringBit size buf j.
Proof. apply set_get_bit. Qed.

Lemma set_bit_get_bit_witness :
  exists b, setBitStringBit 13 [0xab; 0xc8] 9 false = Some b /\ wf_buf b (bitStringByteSize 13) /\
    forall j, 0 <= j < 13 ->
      getBitStringBit 13 b j = if decide (j = 9) then Some false else getBitStringBit 13 [0xab; 0xc8] j.
Proof. apply (set_bit_get_bit 13 [0xab; 0xc8] 9 false); [lia|]. split; [solve_bytes|done]. Defined.

(** An integer stored in a bit string of at most 32 bits, in either bit order,
    is read back modulo the size of the string. *)
Theorem bit_string_integer size buf v :
  0 <= size <= 32 -> wf_buf buf (bitStringByteSize size) ->
  (exists b, setBitStringFromInteger size buf v = Some b /\ wf_buf b (bitStringByteSize size) /\
     getBitStringAsInteger size b = Some (v mod 2 ^ size)) /\
  (exists b, setBitStringFromIntegerBigEndian size buf v = Some b /\
     wf_buf b (bitStringByteSize size) /\
     getBitStringAsIntegerBigEndian size b = Some (v mod 2 ^ size)).
Proof.
  intros Hs Hb. split.
  - destruct (setBits_loop_spec (Z.to_nat size) size buf 0 v) as (b & E & Hbw & Hg); [lia|lia|done|].
    exists b. split; [done|]. split; [done|]. unfold getBitStringAsInteger.
    pose proof (getBits_loop_spec (Z.to_nat size) size b 0 v) as G.
    rewrite Z.mod_1_r in G. rewrite G; [f_equal; do 2 f_equal; lia|lia|lia|].
    intros j Hj. rewrite Hg, decide_True, Z.sub_0_r by lia. done.
  - destruct (setBitsBE_loop_spec (Z.to_nat size) size buf v) as (b & E & Hbw & Hg); [lia|done|].
    exists b. split; [done|]. split; [done|]. unfold getBitStringAsIntegerBigEndian.
    pose proof (getBitsBE_loop_spec (Z.to_nat size) size b 0 v) as G.
    rewrite Z.mod_1_r in G. rewrite G; [f_equal; do 2 f_equal; lia|lia|lia|].
    intros j Hj. rewrite Hg, decide_True by lia. done.
Qed.

Lemma bit_string_integer_witness :
  (exists b, setBitStringFromInteger 13 [0; 0xff] 5000 = Some b /\ wf_buf b (bitStringByteSize 13) /\
     getBitStringAsInteger 13 b = Some (5000 mod 2 ^ 13)) /\
  (exists b, setBitStringFromIntegerBigEndian 13 [0; 0xff] 5000 = Some b /\
     wf_buf b (bitStringByteSize 13) /\
     getBitStringAsIntegerBigEndian 13 b = Some (5000 mod 2 ^ 13)).
Proof. apply (bit_string_integer 13 [0; 0xff] 5000); [lia|]. split; [solve_bytes|done]. Defined.

(** A UTC time set in milliseconds is read back by [MmsValue_getUtcTimeInMs]
    with its quality and its seconds, as long as the seconds fit 32 bits.
    [MmsValue_getUtcTimeInMsWithUs] gives one millisecond less and 999 microseconds
    unless the milliseconds are a multiple of 125. *)
Theorem utc_time_ms utc timeval q :
  wf_buf utc 8 -> 0 <= timeval -> timeval / 1000 < 4294967296 -> is_u8 q ->
  exists t, setUtcTimeMsEx utc timeval q = Some t /\ wf_buf t 8 /\
    getUtcTimeInMs t = Some timeval /\ getUtcTimeQuality t = Some q /\
    toUnixTimestamp t = Some (timeval / 1000) /\
    getUtcTimeInMsWithUs t =
      Some (if decide (timeval mod 125 = 0) then (timeval, 0) else (timeval - 1, 999)).
Proof.
  intros Hu H0 H32 Hq. unfold setUtcTimeMsEx. rewrite setUtcTimeMs_spec by done.
  pose proof (fraction_ms (timeval mod 1000)) as F. cbv zeta in F |- *.
  set (f := timeval mod 1000 * 16777 + timeval mod 1000 * 216 / 1000) in *.
  destruct F as (Hf & Hfms & Hfus); [apply Z.mod_pos_bound; lia|].
  set (s := timeval / 1000) in *.
  assert (Hs : u32 s = s) by (apply u32_id; unfold is_u32, s; split; [apply Z.div_pos; lia|done]).
  rewrite Hs. pose proof (be_bytes_bytes 4 s) as Hsb. pose proof (be_val_be_bytes 4 s) as Hsv.
  change (s mod 256 ^ Z.of_nat 4) with (u32 s) in Hsv. rewrite Hs in Hsv.
  pose proof (be_bytes_length 4 s) as Hsl.
  destruct (be_bytes 4 s) as [|a [|b [|c [|d [|? ?]]]]]; try discriminate Hsl.
  eexists. split; [done|]. cbn [app].
  destruct (utc_time_read a b c d (Z.land (Z.shiftr f 16) 255) (Z.land (Z.shiftr f 8) 255)
    (Z.land f 255) q Hsb) as (-> & -> & -> & ->).
  rewrite Hsv, be3_octets, Hfms by done.
  split; [|split; [|split; [done|split; [done|]]]].
  - split; [|done]. apply (Forall_app_2 _ [a; b; c; d]); [done|].
    repeat (apply Forall_cons; split; [by try apply land_255_byte|]). done.
  - f_equal. subst s. clear -H0 H32. apply u64_ms; done.
  - f_equal. rewrite <- (usec_of_ms timeval f) by done. done.
Qed.

Lemma utc_time_ms_witness :
  exists t, setUtcTimeMsEx (replicate 8 0) 1700000000123 10 = Some t /\ wf_buf t 8 /\
    getUtcTimeInMs t = Some 1700000000123 /\ getUtcTimeQuality t = Some 10 /\
    toUnixTimestamp t = Some (1700000000123 / 1000) /\
    getUtcTimeInMsWithUs t =
      Some (if decide (1700000000123 mod 125 = 0) then (1700000000123, 0)
            else (1700000000123 - 1, 999)).
Proof.
  apply (utc_time_ms (replicate 8 0) 1700000000123 10); [split; [solve_bytes|done]|lia|done|by split].
Defined.

Lemma read_milliseconds b xs (k : Z -> option Z) :
  bytes_at b 0 xs -> is_bytes xs -> length xs = 4%nat ->
  (b0 ← b.[0]; b1 ← b.[1]; b2 ← b.[2]; b3 ← b.[3];
   k (u32 (Z.shiftl b0 24 + Z.shiftl b1 16 + Z.shiftl b2 8 + b3))) = k (u32 (be_val xs)).
Proof.
  intros Hat _ Hl. destruct xs as [|a [|c [|d [|e [|? ?]]]]]; try discriminate Hl.
  cbn [bytes_at] in Hat. change (0 + 1) with 1 in Hat. change (1 + 1) with 2 in Hat.
  change (2 + 1) with 3 in Hat. destruct Hat as (-> & -> & -> & -> & _). cbn [mbind option_bind].
  rewrite !Z.shiftl_mul_pow2 by lia. do 2 f_equal. unfold be_val, be_acc. cbn [foldl].
  change (2 ^ 24) with 16777216. change (2 ^ 16) with 65536. change (2 ^ 8) with 256. lia.
Qed.

Lemma read_days b xs (k : Z -> option Z) :
  bytes_at b 4 xs -> is_bytes xs -> length xs = 2%nat ->
  (b4 ← b.[4]; b5 ← b.[5]; k (u16 (u16 (b4 * 256) + b5))) = k (u16 (be_val xs)).
Proof.
  intros Hat _ Hl. destruct xs as [|a [|c [|? ?]]]; try discriminate Hl.
  cbn [bytes_at] in Hat. change (4 + 1) with 5 in Hat. destruct Hat as (-> & -> & _). cbn [mbind option_bind]. f_equal.
  unfold be_val, be_acc. cbn [foldl]. unfold u16. by rewrite Zplus_mod_idemp_l.
Qed.

(** The days and the milliseconds of the day in a binary time. *)
Lemma setBinaryTime_spec (dated : bool) buf timestamp :
  wf_buf buf 6 ->
  let ms := if decide (timestamp > EPOCH_1984) then timestamp - EPOCH_1984 else 0 in
  0 <= ms < 65536 * 86400000 ->
  exists b, setBinaryTime (if dated then 6 else 4) buf timestamp = Some b /\ wf_buf b 6 /\
    getBinaryTimeAsUtcMs (if dated then 6 else 4) b =
      Some (u64 ((if dated then ms / 86400000 * 86400000 + EPOCH_1984 else 0) + ms mod 86400000)).
Proof.
  intros [Hb Hl] ms Hms. set (day := ms / 86400000). set (tod := ms mod 86400000).
  assert (Hday : u16 day = day) by (apply Z.mod_small; unfold day; clear -Hms; zlia).
  assert (Htod : u32 tod = tod).
  { apply Z.mod_small. pose proof (Z.mod_pos_bound ms 86400000). unfold tod. lia. }
  pose proof (be_val_be_bytes 4 tod) as Hv. change (be_val (be_bytes 4 tod) = u32 tod) in Hv.
  pose proof (be_val_be_bytes 2 day) as Hd. change (be_val (be_bytes 2 day) = u16 day) in Hd.
  pose proof (be_bytes_bytes 4 tod) as Hb4. pose proof (be_bytes_bytes 2 day) as Hb2.
  pose proof (be_bytes_length 4 tod) as Hl4. pose proof (be_bytes_length 2 day) as Hl2.
  unfold setBinaryTime. fold ms. fold day tod. rewrite Htod, Hday.
  destruct (puts_Some buf 4 (be_bytes 2 day)) as [b1 E1]; [lia|lia|].
  assert (Hb1 : is_bytes b1 /\ zlen b1 = 6 /\ bytes_at b1 4 (be_bytes 2 day)).
  { pose proof (puts_bytes _ _ _ _ _ Hb E1). apply puts_inv in E1 as (_ & L & Hat & _).
    rewrite u8_bytes in Hat by done. split_and!; [done|lia|done]. }
  set (b2 := if dated then b1 else buf).
  assert (E2 : (if decide ((if dated then 6 else 4) = 6) then puts buf 4 (be_bytes 2 day)
                else Some (buf, 4)) = Some (b2, if dated then 4 + zlen (be_bytes 2 day) else 4)).
  { destruct dated; [rewrite decide_True by done|rewrite decide_False by done]; done. }
  rewrite E2. cbn [mbind option_bind].
  assert (Hb2' : is_bytes b2 /\ zlen b2 = 6) by (unfold b2; destruct dated; tauto).
  destruct Hb2' as [Hb2b Hb2l].
  destruct (puts_Some b2 0 (be_bytes 4 tod)) as [b3 E3]; [lia|lia|]. rewrite E3.
  cbn [mbind option_bind]. exists b3. split; [done|].
  pose proof (puts_bytes _ _ _ _ _ Hb2b E3) as Hb3.
  apply puts_inv in E3 as (_ & L3 & Hat3 & _ & Hu3). rewrite u8_bytes in Hat3 by done.
  split; [split; [done|lia]|].
  assert (Hdate : dated = true -> bytes_at b3 4 (be_bytes 2 day)).
  { intros ->. eapply bytes_at_frame; [apply Hb1|]. intros j Hj. apply Hu3. lia. }
  pose proof (fun k => read_milliseconds b3 (be_bytes 4 tod) k Hat3 Hb4 Hl4) as R.
  rewrite Hv, !Htod in R. unfold getBinaryTimeAsUtcMs. destruct dated.
  - pose proof (read_days b3 (be_bytes 2 day)
      (fun d => Some (d * 86400000 + EPOCH_1984)) (Hdate eq_refl) Hb2 Hl2) as D.
    rewrite Hd, !Hday in D. rewrite decide_True, D by done. cbn [mbind option_bind].
    apply (R (fun t => Some (u64 (day * 86400000 + EPOCH_1984 + t)))).
  - rewrite decide_False by done. apply (R (fun t => Some (u64 (0 + t)))).
Qed.

(** A binary time with a date holds every time from 1984 on for 65536 days to
    the millisecond (earlier times become the start of 1984); a time of day is the
    millisecond of the day. *)
Theorem binary_time_ms buf timestamp :
  wf_buf buf 6 -> 0 <= timestamp < EPOCH_1984 + 65536 * 86400000 ->
  (exists b, setBinaryTime 6 buf timestamp = Some b /\ wf_buf b 6 /\
     getBinaryTimeAsUtcMs 6 b = Some (Z.max timestamp EPOCH_1984)) /\
  (exists b, setBinaryTime 4 buf timestamp = Some b /\ wf_buf b 6 /\
     getBinaryTimeAsUtcMs 4 b = Some (Z.max timestamp EPOCH_1984 mod 86400000)).
Proof.
  intros Hb Ht.
  set (ms := if decide (timestamp > EPOCH_1984) then timestamp - EPOCH_1984 else 0).
  assert (Hms : 0 <= ms < 65536 * 86400000 /\ Z.max timestamp EPOCH_1984 = ms + EPOCH_1984).
  { unfold ms. case_decide; unfold EPOCH_1984 in *; lia. }
  destruct Hms as [Hms ->]. pose proof (Z.div_mod ms 86400000). pose proof (Z.mod_pos_bound ms 86400000).
  destruct (setBinaryTime_spec true buf timestamp) as (b & ? & ? & E); [done|done|]. fold ms in E.
  destruct (setBinaryTime_spec false buf timestamp) as (b' & ? & ? & E'); [done|done|]. fold ms in E'.
  split; [exists b | exists b']; (split; [done|]; split; [done|]).
  - rewrite E. f_equal. unfold u64, EPOCH_1984. rewrite Z.mod_small; lia.
  - rewrite E'. f_equal. unfold u64. rewrite Z.mod_small by lia.
    replace (ms + EPOCH_1984) with (ms + 5113 * 86400000) by (unfold EPOCH_1984; lia).
    by rewrite Z.mod_add.
Qed.

Lemma binary_time_ms_witness :
  (exists b, setBinaryTime 6 (replicate 6 0) 1700000000123 = Some b /\ wf_buf b 6 /\
     getBinaryTimeAsUtcMs 6 b = Some (Z.max 1700000000123 EPOCH_1984)) /\
  (exists b, setBinaryTime 4 (replicate 6 0) 1700000000123 = Some b /\ wf_buf b 6 /\
     getBinaryTimeAsUtcMs 4 b = Some (Z.max 1700000000123 EPOCH_1984 mod 86400000)).
Proof.
  apply (binary_time_ms (replicate 6 0) 1700000000123); [split; [solve_bytes|done]|].
  unfold EPOCH_1984. lia.
Defined.

End MmsValue.
