(* ===== verification/MmsData.v ===== *)
(** * Encoding and decoding of MMS data

    [src/mms/iso_mms/server/mms_access_result.c]: values to BER and back.  The
    encoder runs twice, once to add up sizes ([encode] false) and once to write;
    the decoder allocates and recurses at most [maxDepth] levels. *)

From S2P Require Import Prelude Alloc BerEncoder BerDecoder BerInteger MmsValue.

Module MmsData.
Import Alloc BerInteger MmsValue.
#[local] Open Scope alloc_scope.

(** ** The encoder *)

(** The characters of a C string, as the string encoders of [BerEncoder] take it. *)
Definition c_string (buf : option (list Z)) : option (option (list Z)) :=
  match buf with
  | None => Some None
  | Some str => n ← strlen str; Some (Some (take (Z.to_nat n) str))
  end.

Section Components.
(** [MmsValue_encodeMmsData] on a component. *)
Context (encode_component : option MmsValue -> list Z -> Z -> bool -> option (list Z * Z)).

(** [elementsSize += MmsValue_encodeMmsData(element, NULL, 0, false)] *)
Definition componentsSize : list (option MmsValue) -> option Z :=
  fix componentsSize cs :=
    match cs with
    | [] => Some 0
    | c :: cs => '(_, n) ← encode_component c [] 0 false; m ← componentsSize cs; Some (n + m)
    end.

Definition encodeComponents : list (option MmsValue) -> list Z -> Z -> option (list Z * Z) :=
  fix encodeComponents cs buffer bufPos :=
    match cs with
    | [] => Some (buffer, bufPos)
    | c :: cs =>
        '(buffer, bufPos) ← encode_component c buffer bufPos true;
        encodeComponents cs buffer bufPos
    end.

(** [encodeArrayAccessResult] and [encodeStructuredAccessResult], which differ in
    the tag. *)
Definition encodeConstructed (tag : Z) (cs : list (option MmsValue)) (buffer : list Z)
    (bufPos : Z) (encode : bool) : option (list Z * Z) :=
  elementsSize ← componentsSize cs;
  if encode then
    '(buffer, bufPos) ← put buffer bufPos tag;
    '(buffer, bufPos) ← BerEncoder.encodeLength (u32 elementsSize) buffer bufPos;
    encodeComponents cs buffer bufPos
  else Some (buffer, 1 + elementsSize + BerEncoder.determineLengthSize (u32 elementsSize)).
End Components.

(** The position after the value, or its size when [encode] is false. *)
Fixpoint encodeMmsData (self : MmsValue) (buffer : list Z) (bufPos : Z) (encode : bool)
    {struct self} : option (list Z * Z) :=
  let component c buffer bufPos encode :=
    match c with Some c => encodeMmsData c buffer bufPos encode | None => None end in
  match self with
  | MmsBoolean boolean =>
      if encode then BerEncoder.encodeBoolean 0x83 boolean buffer bufPos else Some (buffer, 3)
  | MmsStructure cs => encodeConstructed component 0xa2 cs buffer bufPos encode
  | MmsArray cs => encodeConstructed component 0xa1 cs buffer bufPos encode
  | MmsDataAccessError dataAccessError =>
      length ← BerEncoder.UInt32determineEncodedSize (u32 dataAccessError);
      if encode then
        '(buffer, bufPos) ← BerEncoder.encodeTL 0x80 length buffer bufPos;
        BerEncoder.encodeUInt32 (u32 dataAccessError) buffer bufPos
      else Some (buffer, 2 + length)
  | MmsVisibleString buf _ =>
      str ← c_string buf;
      if encode then BerEncoder.encodeStringWithTag 0x8a str buffer bufPos
      else Some (buffer, BerEncoder.determineEncodedStringSize str)
  | MmsUnsigned integer =>
      if encode then encodeAsn1PrimitiveValue 0x86 integer buffer bufPos
      else Some (buffer, 2 + size integer)
  | MmsInteger integer =>
      if encode then encodeAsn1PrimitiveValue 0x85 integer buffer bufPos
      else Some (buffer, 2 + size integer)
  | MmsUtcTime utcTime =>
      if encode then BerEncoder.encodeOctetString 0x91 utcTime 8 buffer bufPos
      else Some (buffer, 10)
  | MmsBitString size buf =>
      if encode then BerEncoder.encodeBitString 0x84 size buf buffer bufPos
      else Some (buffer, BerEncoder.determineEncodedBitStringSize size)
  | MmsBinaryTime size buf =>
      if encode then BerEncoder.encodeOctetString 0x8c buf size buffer bufPos
      else Some (buffer, 2 + size)
  | MmsOctetString size _ buf =>
      if encode then BerEncoder.encodeOctetString 0x89 buf size buffer bufPos
      else Some (buffer, 1 + BerEncoder.determineLengthSize size + size)
  | MmsFloat exponentWidth formatWidth buf =>
      let floatSize := formatWidth / 8 + 1 in
      if encode then
        '(buffer, bufPos) ← BerEncoder.encodeTL 0x87 floatSize buffer bufPos;
        BerEncoder.encodeFloat buf formatWidth exponentWidth buffer bufPos
      else Some (buffer, floatSize + 2)
  | MmsString buf _ =>
      str ← c_string buf;
      if encode then BerEncoder.encodeStringWithTag 0x90 str buffer bufPos
      else Some (buffer, BerEncoder.determineEncodedStringSize str)
  end.

Definition sumSizes (f : option MmsValue -> option Z) : list (option MmsValue) -> option Z :=
  fix sumSizes cs :=
    match cs with
    | [] => Some 0
    | c :: cs => n ← f c; m ← sumSizes cs; Some (n + m)
    end.

(** [MmsValue_getMaxEncodedSize] with its helper [MmsValue_getMaxStructSize]. *)
Fixpoint getMaxEncodedSize (self : MmsValue) : option Z :=
  let getMaxStructSize cs :=
    componentsSize ←
      sumSizes (fun c => match c with Some c => getMaxEncodedSize c | None => None end) cs;
    Some (1 + componentsSize + BerEncoder.determineLengthSize (u32 componentsSize)) in
  match self with
  | MmsStructure cs => getMaxStructSize cs
  | MmsArray cs => getMaxStructSize cs
  | MmsBoolean _ => Some 3
  | MmsDataAccessError _ => Some 7
  | MmsVisibleString _ size | MmsString _ size =>
      let elementSize := Z.abs size in
      Some (1 + elementSize + BerEncoder.determineLengthSize elementSize)
  | MmsUnsigned integer | MmsInteger integer => Some (2 + maxSize integer)
  | MmsUtcTime _ => Some 10
  | MmsBitString size _ => Some (BerEncoder.determineEncodedBitStringSize (Z.abs size))
  | MmsBinaryTime size _ => Some (2 + size)
  | MmsOctetString _ maxSize _ =>
      let elementSize := Z.abs maxSize in
      Some (1 + BerEncoder.determineLengthSize elementSize + elementSize)
  | MmsFloat _ formatWidth _ => Some (formatWidth / 8 + 1 + 2)
  end.

(** ** The decoder *)

(** The tags [getNumberOfElements] knows: every value but MMS strings (0x90), and
    the end of contents. *)
Definition element_tags : list Z :=
  [0x80; 0xa1; 0xa2; 0x83; 0x84; 0x85; 0x86; 0x87; 0x89; 0x8a; 0x8c; 0x91; 0x00].

Fixpoint getNumberOfElements_loop (fuel : nat) (buffer : list Z)
    (bufPos elementEndBufPos elementIndex : Z) : option Z :=
  match fuel with
  | O => None
  | S fuel =>
      if decide (bufPos < elementEndBufPos) then
        tag ← buffer.[bufPos];
        '(bufPos, elementLength) ← BerDecoder.decodeLength buffer 0 (bufPos + 1) elementEndBufPos;
        if decide (bufPos < 0) then Some (-1)
        else if decide (tag ∈ element_tags) then
          getNumberOfElements_loop fuel buffer (bufPos + elementLength) elementEndBufPos
            (elementIndex + 1)
        else Some (-1)
      else Some elementIndex
  end.

(** An element takes at least two octets. *)
Definition getNumberOfElements (buffer : list Z) (bufPos elementLength : Z) : option Z :=
  getNumberOfElements_loop (S (Z.to_nat elementLength)) buffer bufPos (bufPos + elementLength) 0.

(** The result of the decoder: the value or [NULL], and what is stored through
    [endBufPos], if anything. *)
Definition decoded : Type := option MmsValue * option Z.
Definition decoded_error : alloc decoded := m_ret (None, None).

(** [memcpy] of the octets of a new integer, which must exist. *)
Definition fill_integer (buffer : list Z) (bufPos dataLength : Z) (i : Asn1PrimitiveValue)
    : option Asn1PrimitiveValue :=
  '(oct, _) ← copy_bytes (Z.to_nat dataLength) buffer bufPos (octets i) 0;
  Some {| size := u8 dataLength; maxSize := maxSize i; octets := oct |}.

Definition decodeInteger (new : Z -> alloc (option MmsValue)) (buffer : list Z)
    (bufPos dataLength : Z) : alloc decoded :=
  if decide (dataLength > 8) then decoded_error
  else
    value <~ new (dataLength * 8);
    v <~ m_lift (match value with
                 | Some (MmsInteger i) => MmsInteger <$> fill_integer buffer bufPos dataLength i
                 | Some (MmsUnsigned i) => MmsUnsigned <$> fill_integer buffer bufPos dataLength i
                 | _ => None
                 end);
    m_ret (Some v, Some (bufPos + dataLength)).

Definition decodeBitString (buffer : list Z) (bufPos dataLength : Z) : alloc decoded :=
  padding <~ m_lift (buffer.[bufPos]);
  if decide (padding > 7) then decoded_error
  else
    let bitStringLength := 8 * (dataLength - 1) - padding in
    value <~ newBitString bitStringLength;
    v <~ m_lift (match value with
                 | Some (MmsBitString size buf) =>
                     '(buf, _) ← copy_bytes (Z.to_nat (dataLength - 1)) buffer (bufPos + 1) buf 0;
                     Some (MmsBitString size buf)
                 | _ => None
                 end);
    m_ret (Some v, Some (bufPos + dataLength)).

Definition decodeFloatValue (buffer : list Z) (bufPos dataLength : Z) : alloc decoded :=
  value <~ (if decide (dataLength = 9) then
              d <~ m_lift (BerDecoder.decodeDouble buffer bufPos); newDouble d
            else if decide (dataLength = 5) then
              f <~ m_lift (BerDecoder.decodeFloat buffer bufPos); newFloat f
            else m_ret None);
  m_ret (value, Some (bufPos + dataLength)).

Definition decodeOctetString (buffer : list Z) (bufPos dataLength : Z) : alloc decoded :=
  value <~ newOctetString dataLength dataLength;
  v <~ m_lift (match value with
               | Some (MmsOctetString size maxSize buf) =>
                   '(buf, _) ← copy_bytes (Z.to_nat dataLength) buffer bufPos buf 0;
                   Some (MmsOctetString size maxSize buf)
               | _ => None
               end);
  m_ret (Some v, Some (bufPos + dataLength)).

Definition decodeBinaryTime (buffer : list Z) (bufPos dataLength : Z) : alloc decoded :=
  value <~ (if decide (dataLength = 4) then newBinaryTime true
            else if decide (dataLength = 6) then newBinaryTime false else m_ret None);
  v <~ (if decide (dataLength = 4 \/ dataLength = 6) then
          m_lift (match value with
                  | Some (MmsBinaryTime size buf) =>
                      '(buf, _) ← copy_bytes (Z.to_nat dataLength) buffer bufPos buf 0;
                      Some (Some (MmsBinaryTime size buf))
                  | _ => None
                  end)
        else m_ret value);
  m_ret (v, Some (bufPos + dataLength)).

(** [value->type = MMS_STRING] *)
Definition decodeMmsString (buffer : list Z) (bufPos dataLength : Z) : alloc decoded :=
  value <~ newVisibleStringFromByteArray buffer bufPos dataLength;
  v <~ m_lift (match value with
               | Some (MmsVisibleString buf size) => Some (MmsString buf size)
               | _ => None
               end);
  m_ret (Some v, Some (bufPos + dataLength)).

Definition decodeUtcTime (buffer : list Z) (bufPos dataLength : Z) : alloc decoded :=
  if decide (dataLength = 8) then
    value <~ newUtcTime 0;
    v <~ m_lift (match value with
                 | Some (MmsUtcTime t) => MmsUtcTime <$> setUtcTimeByBuffer t buffer bufPos
                 | _ => None
                 end);
    m_ret (Some v, Some (bufPos + dataLength))
  else decoded_error.

(** The loop over the elements of an array or structure; [None] is the way out
    through [exit_with_error].  [decode] is the recursive call. *)
Section Elements.
Context (buffer : list Z) (decode : Z -> Z -> alloc decoded).

Fixpoint decodeElements (n : nat) (i bufPos dataEndBufPos : Z) (value : option MmsValue)
    : alloc (option (option MmsValue * Z)) :=
  match n with
  | O => m_ret (Some (value, bufPos))
  | S n =>
      r <~ m_lift (BerDecoder.decodeLength buffer 0 (bufPos + 1) dataEndBufPos);
      let '(newBufPos, elementLength) := r in
      if decide (newBufPos < 0) then m_ret None
      else
        let elementBufLength := newBufPos - bufPos + elementLength in
        elementValue <~ decode bufPos (bufPos + elementBufLength);
        match fst elementValue with
        | None => m_ret None
        | Some e =>
            v <~ m_lift value;
            decodeElements n (i + 1) (newBufPos + elementLength) dataEndBufPos
              (Some (setElement v i (Some e)))
        end
  end.
End Elements.

Definition decodeConstructed (decode : Z -> Z -> alloc decoded)
    (create : Z -> alloc (option MmsValue)) (buffer : list Z)
    (bufPos dataLength dataEndBufPos : Z) : alloc decoded :=
  elementCount <~ m_lift (getNumberOfElements buffer bufPos dataLength);
  if decide (elementCount < 0) then decoded_error
  else
    value <~ create elementCount;
    r <~ decodeElements buffer decode (Z.to_nat elementCount) 0 bufPos dataEndBufPos value;
    match r with
    | Some (Some v, bufPos) => m_ret (Some v, Some bufPos)
    | _ => decoded_error
    end.

(** The switch over the tag. *)
Definition decodeContent (decode : Z -> Z -> alloc decoded) (tag : Z) (buffer : list Z)
    (bufPos dataLength dataEndBufPos : Z) : alloc decoded :=
  if decide (tag = 0xa1) then
    decodeConstructed decode createEmptyArray buffer bufPos dataLength dataEndBufPos
  else if decide (tag = 0xa2) then
    decodeConstructed decode createEmptyStructure buffer bufPos dataLength dataEndBufPos
  else if decide (tag = 0x80) then
    e <~ m_lift (BerDecoder.decodeUint32 buffer dataLength bufPos);
    value <~ newDataAccessError e; m_ret (value, Some (bufPos + dataLength))
  else if decide (tag = 0x83) then
    b <~ m_lift (BerDecoder.decodeBoolean buffer dataLength bufPos);
    value <~ newBoolean b; m_ret (value, Some (bufPos + dataLength))
  else if decide (tag = 0x84) then decodeBitString buffer bufPos dataLength
  else if decide (tag = 0x85) then decodeInteger newInteger buffer bufPos dataLength
  else if decide (tag = 0x86) then decodeInteger newUnsigned buffer bufPos dataLength
  else if decide (tag = 0x87) then decodeFloatValue buffer bufPos dataLength
  else if decide (tag = 0x89) then decodeOctetString buffer bufPos dataLength
  else if decide (tag = 0x8a) then
    value <~ newVisibleStringFromByteArray buffer bufPos dataLength;
    m_ret (value, Some (bufPos + dataLength))
  else if decide (tag = 0x8c) then decodeBinaryTime buffer bufPos dataLength
  else if decide (tag = 0x90) then decodeMmsString buffer bufPos dataLength
  else if decide (tag = 0x91) then decodeUtcTime buffer bufPos dataLength
  else if decide (tag = 0x00) then m_ret (None, Some bufPos)
  else decoded_error.

Definition empty_allowed (tag : Z) : Prop := tag = 0 \/ tag = 0x8a \/ tag = 0x90 \/ tag = 0x89.
#[export] Instance empty_allowed_dec tag : Decision (empty_allowed tag).
Proof. unfold empty_allowed. apply _. Defined.

(** The depth grows with every call, so the fuel of [decodeMmsDataMaxRecursion] is
    never used up. *)
Fixpoint decodeMmsDataRecursive (fuel : nat) (buffer : list Z) (bufPos bufferLength : Z)
    (depth maxDepth : Z) : alloc decoded :=
  match fuel with
  | O => m_lift None
  | S fuel =>
      let depth := depth + 1 in
      if decide (depth > maxDepth) then decoded_error
      else if decide (bufferLength < 1) then decoded_error
      else
        tag <~ m_lift (buffer.[bufPos]);
        r <~ m_lift (BerDecoder.decodeLength buffer 0 (bufPos + 1) bufferLength);
        let '(bufPos, dataLength) := r in
        if decide (bufPos < 0) then decoded_error
        else if decide (~ empty_allowed tag /\ dataLength = 0) then decoded_error
        else
          decodeContent
            (fun pos len => decodeMmsDataRecursive fuel buffer pos len depth maxDepth)
            tag buffer bufPos dataLength bufferLength
  end.

Definition decodeMmsDataMaxRecursion (buffer : list Z) (bufPos bufferLength maxDepth : Z)
    : alloc decoded :=
  decodeMmsDataRecursive (S (Z.to_nat maxDepth)) buffer bufPos bufferLength 0 maxDepth.

Definition decodeMmsData (buffer : list Z) (bufPos bufferLength : Z) : alloc decoded :=
  decodeMmsDataMaxRecursion buffer bufPos bufferLength 25.

(** ** What is to be written *)

(** The characters of a string buffer. *)
Definition chars (buf : option (list Z)) : list Z :=
  match buf with
  | Some b => match strlen b with Some n => take (Z.to_nat n) b | None => [] end
  | None => []
  end.

Definition enc_components (f : MmsValue -> list Z) : list (option MmsValue) -> list Z :=
  fix enc_components cs :=
    match cs with
    | [] => []
    | c :: cs => match c with Some v => f v | None => [] end ++ enc_components cs
    end.

Fixpoint enc_data (v : MmsValue) : list Z :=
  match v with
  | MmsArray cs => BerEncoder.enc_tlv 0xa1 (enc_components enc_data cs)
  | MmsStructure cs => BerEncoder.enc_tlv 0xa2 (enc_components enc_data cs)
  | MmsBoolean b => [0x83; 1; if b then 1 else 0]
  | MmsBitString size buf => BerEncoder.enc_bitstring 0x84 size buf
  | MmsInteger i => BerEncoder.enc_tlv 0x85 (digits i)
  | MmsUnsigned i => BerEncoder.enc_tlv 0x86 (digits i)
  | MmsFloat ew fw buf => BerEncoder.enc_tlv 0x87 (ew :: reverse (take (Z.to_nat (fw / 8)) buf))
  | MmsOctetString size _ buf => BerEncoder.enc_tlv 0x89 (take (Z.to_nat size) buf)
  | MmsVisibleString buf _ => BerEncoder.enc_tlv 0x8a (chars buf)
  | MmsString buf _ => BerEncoder.enc_tlv 0x90 (chars buf)
  | MmsBinaryTime size buf => BerEncoder.enc_tlv 0x8c (take (Z.to_nat size) buf)
  | MmsUtcTime t => BerEncoder.enc_tlv 0x91 t
  | MmsDataAccessError e => BerEncoder.enc_tlv 0x80 (BerEncoder.enc_uint32 (u32 e))
  end.

(** Every content is short enough for its length to take the octets that
    [BerEncoder_determineLengthSize] and [BerEncoder_determineEncodedBitStringSize]
    announce. *)
Fixpoint regular (v : MmsValue) : Prop :=
  match v with
  | MmsArray cs | MmsStructure cs => all_wf regular cs /\ zlen (enc_components enc_data cs) < 65535
  | MmsBitString size _ =>
      let n := MmsValue.bitStringByteSize size in n < 65534 /\ n <> 127 /\ n <> 255
  | MmsInteger i | MmsUnsigned i => size i < 128
  | MmsOctetString size _ _ => size < 65535
  | MmsFloat ew _ _ => is_u8 ew
  | _ => True
  end.

Lemma bit_byte_sizes n : 0 <= n -> BerEncoder.bitStringByteSize n = MmsValue.bitStringByteSize n.
Proof.
  intros. unfold BerEncoder.bitStringByteSize, MmsValue.bitStringByteSize.
  repeat case_decide; zlia.
Qed.

Lemma wf_string_chars buf size : wf_string buf size ->
  exists s, c_string buf = Some (Some s) /\ chars buf = s /\ zlen s <= size /\ size <= 32767 /\
    is_bytes s /\ (forall b, buf = Some b -> cstr b s).
Proof.
  intros (b & s & -> & Hc & Hb & Hl & Hs). exists s. unfold c_string, chars.
  rewrite (strlen_spec b s Hc). cbn [mbind option_bind]. rewrite Nat2Z.id.
  assert (E : take (length s) b = s) by (destruct Hc as [[r ->] _]; by rewrite take_app_length).
  rewrite E. split_and!; try done.
  - destruct Hc as [[r ->] _]. rewrite length_app in Hl. simpl in Hl. lia.
  - lia.
  - rewrite <- E. by apply Forall_take.
  - by intros ? [= <-].
Qed.

Lemma enc_bitstring_length tag n bits : 0 <= n -> zlen bits = MmsValue.bitStringByteSize n ->
  MmsValue.bitStringByteSize n < 65534 ->
  zlen (BerEncoder.enc_bitstring tag n bits) =
    1 + BerEncoder.determineLengthSize (zlen bits + 1) + 1 + zlen bits.
Proof.
  intros Hn Hl Hb. unfold BerEncoder.enc_bitstring.
  set (c := _ :: bits). assert (Hc : zlen c = zlen bits + 1) by (unfold c; simpl; lia).
  pose proof (BerEncoder.enc_length_size (zlen c)) as E. rewrite decide_False in E by lia.
  rewrite length_cons, length_app, Nat2Z.inj_succ, Nat2Z.inj_add, E by (unfold_int; lia).
  assert (L : zlen (match reverse c with
    | [] => [] | last :: init =>
        reverse init ++ [Z.land last (256 - 2 ^ (BerEncoder.bitStringByteSize n * 8 - n))] end) = zlen c).
  { destruct (reverse c) as [|l i] eqn:R; apply (f_equal length) in R; rewrite length_reverse in R.
    - simpl in *. lia.
    - rewrite length_app, length_reverse. simpl in *. lia. }
  rewrite L, Hc. lia.
Qed.

(** ** The encoder writes [enc_data] and announces its length *)

(** What both runs of the encoder on [v] do. *)
Definition encodes (v : MmsValue) : Prop := forall b p,
  encodeMmsData v b p false = Some (b, zlen (enc_data v)) /\
  (is_bytes b -> 0 <= p -> p + zlen (enc_data v) <= zlen b ->
   encodeMmsData v b p true = puts b p (enc_data v)).

Definition encode_component (c : option MmsValue) (b : list Z) (p : Z) (encode : bool) :=
  match c with Some c => encodeMmsData c b p encode | None => None end.

Lemma determineLengthSize_pos n : 1 <= BerEncoder.determineLengthSize n.
Proof. unfold BerEncoder.determineLengthSize. repeat case_decide; lia. Qed.

Lemma componentsSize_spec cs :
  all_wf encodes cs -> componentsSize encode_component cs = Some (zlen (enc_components enc_data cs)).
Proof.
  induction cs as [|[c|] cs IH]; intros H; cbn in H; [done| |tauto]. destruct H as [Hc Hcs].
  cbn [componentsSize encode_component enc_components]. destruct (Hc [] 0) as [-> _].
  cbn [mbind option_bind]. rewrite IH by done. cbn [mbind option_bind].
  rewrite length_app. f_equal. lia.
Qed.

Lemma encodeComponents_spec cs b p :
  all_wf encodes cs -> is_bytes b -> 0 <= p -> p + zlen (enc_components enc_data cs) <= zlen b ->
  encodeComponents encode_component cs b p = puts b p (enc_components enc_data cs).
Proof.
  revert b p. induction cs as [|[c|] cs IH]; intros b p H Hb Hp Hl; cbn in H; [done| |tauto].
  destruct H as [Hc Hcs]. cbn [encodeComponents encode_component enc_components] in *.
  rewrite length_app in Hl. destruct (Hc b p) as [_ ->]; [|done|done|lia].
  rewrite puts_app. destruct (puts b p (enc_data c)) as [[b' p']|] eqn:E; cbn [mbind option_bind]; [|done].
  pose proof (puts_bytes _ _ _ _ _ Hb E). apply puts_inv in E as (-> & L & _).
  apply IH; try done; lia.
Qed.

Lemma encodeConstructed_spec tag cs b p :
  all_wf encodes cs -> zlen (enc_components enc_data cs) < 65535 ->
  let xs := BerEncoder.enc_tlv tag (enc_components enc_data cs) in
  encodeConstructed encode_component tag cs b p false = Some (b, zlen xs) /\
  (is_bytes b -> 0 <= p -> p + zlen xs <= zlen b ->
   encodeConstructed encode_component tag cs b p true = puts b p xs).
Proof.
  intros H Hn xs. unfold encodeConstructed. rewrite componentsSize_spec by done.
  cbn [mbind option_bind]. rewrite u32_id by (unfold_int; lia). split.
  { unfold xs. rewrite BerEncoder.enc_tlv_length by done. do 2 f_equal. lia. }
  intros Hb Hp Hl. unfold xs, BerEncoder.enc_tlv in *. cbn [puts].
  pose proof (determineLengthSize_pos (zlen (enc_components enc_data cs))).
  rewrite length_cons, length_app in Hl.
  destruct (put b p tag) as [[b1 p1]|] eqn:E1; [|done]. cbn [mbind option_bind].
  rewrite BerEncoder.encodeLength_puts, puts_app by (unfold_int; lia).
  rewrite puts_one in E1. pose proof (puts_bytes _ _ _ _ _ Hb E1) as Hb1.
  apply puts_inv in E1 as (-> & L1 & _).
  destruct (puts b1 _ _) as [[b2 p2]|] eqn:E2; [|done]. cbn [mbind option_bind].
  pose proof (puts_bytes _ _ _ _ _ Hb1 E2) as Hb2. apply puts_inv in E2 as (-> & L2 & _).
  apply encodeComponents_spec; try done; simpl; lia.
Qed.

Lemma all_wf_encodes cs :
  all_components (fun v => wf v -> regular v -> encodes v) cs ->
  all_wf wf cs -> all_wf regular cs -> all_wf encodes cs.
Proof.
  induction 1 as [|[c|] cs Hc _ IH]; cbn; [done| |tauto]. intros [??] [??]. auto.
Qed.

Lemma encodeOctets_take tag xs n b p :
  0 <= n <= zlen xs -> n < 4294967296 ->
  BerEncoder.encodeOctetString tag xs n b p = puts b p (BerEncoder.enc_tlv tag (take (Z.to_nat n) xs)).
Proof.
  intros Hn H32. unfold BerEncoder.encodeOctetString, BerEncoder.enc_tlv. cbn [puts].
  destruct (put b p tag) as [[b1 p1]|]; [|done]. cbn [mbind option_bind].
  assert (Hl : zlen (take (Z.to_nat n) xs) = n) by (rewrite length_take; lia).
  rewrite Hl, BerEncoder.encodeLength_puts, puts_app by (unfold_int; lia).
  destruct (puts b1 p1 _) as [[b2 p2]|]; [|done]. cbn [mbind option_bind].
  apply copy_at_Z; [apply bytes_at_take, bytes_at_0|done].
Qed.

(** Encoders of leaves: the size and the octets. *)
Lemma encode_leaf (v : MmsValue) n (enc : list Z -> Z -> option (list Z * Z)) :
  (forall b p e, encodeMmsData v b p e = if (e : bool) then enc b p else Some (b, n)) ->
  zlen (enc_data v) = n ->
  (forall b p, is_bytes b -> 0 <= p -> p + zlen (enc_data v) <= zlen b -> enc b p = puts b p (enc_data v)) ->
  encodes v.
Proof. intros He Hn Hw b p. rewrite !He, Hn. split; [done|]. rewrite <- Hn. apply Hw. Qed.

Lemma encode_string v tag buf size :
  wf_string buf size ->
  (forall b p e, encodeMmsData v b p e =
     str ← c_string buf;
     if (e : bool) then BerEncoder.encodeStringWithTag tag str b p
     else Some (b, BerEncoder.determineEncodedStringSize str)) ->
  enc_data v = BerEncoder.enc_tlv tag (chars buf) ->
  encodes v.
Proof.
  intros Hw He Hd. destruct (wf_string_chars buf size Hw) as (s & Hs & Hc & Hl & Hm & _).
  eapply (encode_leaf v _ (BerEncoder.encodeStringWithTag tag (Some s))).
  - intros b p e. rewrite He, Hs. cbn [mbind option_bind]. reflexivity.
  - rewrite Hd, Hc, BerEncoder.enc_tlv_length by lia. done.
  - intros b p _ _ _. rewrite Hd, Hc. apply (BerEncoder.encodeStringWithTag_puts tag (Some s)). lia.
Qed.

Lemma encode_octets v tag xs n :
  0 <= n <= zlen xs -> n < 65535 ->
  (forall b p e, encodeMmsData v b p e =
     if (e : bool) then BerEncoder.encodeOctetString tag xs n b p
     else Some (b, 1 + BerEncoder.determineLengthSize n + n)) ->
  enc_data v = BerEncoder.enc_tlv tag (take (Z.to_nat n) xs) ->
  encodes v.
Proof.
  intros Hn H16 He Hd. assert (Hl : zlen (take (Z.to_nat n) xs) = n) by (rewrite length_take; lia).
  eapply (encode_leaf v _ _ He); rewrite Hd.
  - rewrite BerEncoder.enc_tlv_length, Hl by lia. done.
  - intros b p _ _ _. apply encodeOctets_take; lia.
Qed.

Lemma encode_integer v tag i :
  BerInteger.wf i -> size i < 128 ->
  (forall b p e, encodeMmsData v b p e =
     if (e : bool) then encodeAsn1PrimitiveValue tag i b p else Some (b, 2 + size i)) ->
  enc_data v = BerEncoder.enc_tlv tag (digits i) ->
  encodes v.
Proof.
  intros Hw Hs He Hd. pose proof (wf_digits _ Hw) as (Hl & _).
  eapply (encode_leaf v _ _ He); rewrite Hd.
  - rewrite BerEncoder.enc_tlv_length, Hl by lia. unfold BerEncoder.determineLengthSize.
    rewrite decide_True by lia. lia.
  - intros b p _ _ _. by apply encodeAsn1PrimitiveValue_puts.
Qed.

Lemma encode_float ew fw buf :
  wf (MmsFloat ew fw buf) -> is_u8 ew -> encodes (MmsFloat ew fw buf).
Proof.
  intros [Hfw [Hb Hl]] Hew.
  assert (Hn : 0 <= fw / 8 <= 8) by (by destruct Hfw; subst).
  assert (Hx : zlen (ew :: reverse (take (Z.to_nat (fw / 8)) buf)) = fw / 8 + 1).
  { rewrite length_cons, length_reverse, length_take. lia. }
  eapply (encode_leaf (MmsFloat ew fw buf) _ _ (fun _ _ _ => eq_refl)); cbn [enc_data].
  { rewrite BerEncoder.enc_tlv_length, Hx by lia. unfold BerEncoder.determineLengthSize.
    rewrite decide_True by lia. lia. }
  intros b p Hbb Hp Hroom. rewrite BerEncoder.enc_tlv_length, Hx in Hroom by lia.
  unfold BerEncoder.determineLengthSize in Hroom. rewrite decide_True in Hroom by lia.
  unfold BerEncoder.encodeTL, BerEncoder.enc_tlv. rewrite Hx. cbn [puts].
  destruct (put b p 0x87) as [[b1 p1]|] eqn:E1; [|done]. cbn [mbind option_bind].
  rewrite BerEncoder.encodeLength_puts, puts_app by (unfold_int; lia).
  rewrite puts_one in E1. pose proof (puts_bytes _ _ _ _ _ Hbb E1) as Hb1.
  apply puts_inv in E1 as (-> & L1 & _).
  assert (Hel : zlen (BerEncoder.enc_length (fw / 8 + 1)) = 1).
  { unfold BerEncoder.enc_length. by rewrite decide_True by lia. }
  destruct (puts b1 _ _) as [[b2 p2]|] eqn:E2; [|done]. cbn [mbind option_bind].
  pose proof (puts_bytes _ _ _ _ _ Hb1 E2) as Hb2. apply puts_inv in E2 as (-> & L2 & _).
  rewrite Hel in *. apply BerEncoder.encodeFloat_spec; try done; simpl in *; lia.
Qed.

Lemma encode_spec v : wf v -> regular v -> encodes v.
Proof.
  induction v as [cs Hcs|cs Hcs|v Hleaf] using MmsValue_ind'; intros Hw Hr.
  { destruct Hr as [Hr Hl]. intros b p. apply (encodeConstructed_spec 0xa1); [|done].
    by apply all_wf_encodes. }
  { destruct Hr as [Hr Hl]. intros b p. apply (encodeConstructed_spec 0xa2); [|done].
    by apply all_wf_encodes. }
  destruct v as [cs|cs|x|n buf|i|i|ew fw buf|n mx buf|buf n|buf n|n buf|t|e];
    try (exfalso; by edestruct (Hleaf cs)); cbn [wf regular] in Hw, Hr.
  - intros b p. split; [done|]. intros _ _ _. apply BerEncoder.encodeBoolean_puts.
  - destruct Hw as [Hn [Hb Hl]]. pose proof (bitStringByteSize_bound n Hn).
    eapply (encode_leaf (MmsBitString n buf) _ _ (fun _ _ _ => eq_refl)); cbn [enc_data].
    + rewrite enc_bitstring_length by (done || lia). rewrite Hl.
      unfold BerEncoder.determineEncodedBitStringSize, BerEncoder.determineLengthSize.
      rewrite bit_byte_sizes by done. repeat case_decide; lia.
    + intros b p _ _ _. apply BerEncoder.encodeBitString_puts; [lia| |done].
      by rewrite bit_byte_sizes.
  - by eapply encode_integer.
  - by eapply encode_integer.
  - by apply encode_float.
  - destruct Hw as ([Hb Hl] & Hn & H16). eapply encode_octets; [|exact Hr|done|done]. lia.
  - by eapply encode_string.
  - by eapply encode_string.
  - destruct Hw as (Hn & [Hb Hl]). eapply (encode_octets _ 0x8c buf n); [lia|lia| |done].
    intros b p []; cbn [encodeMmsData]; [done|]. do 2 f_equal.
    unfold BerEncoder.determineLengthSize. rewrite decide_True by lia. lia.
  - destruct Hw as [Hb Hl]. eapply (encode_octets _ 0x91 t 8); [lia|lia|done|].
    cbn [enc_data]. by rewrite take_ge by (cbn; lia).
  - pose proof (BerEncoder.enc_uint32_size (u32 e)) as Hs.
    eapply (encode_leaf _ (2 + zlen (BerEncoder.enc_uint32 (u32 e)))
      (fun b p => '(b, p) ← BerEncoder.encodeTL 0x80 (zlen (BerEncoder.enc_uint32 (u32 e))) b p;
                  BerEncoder.encodeUInt32 (u32 e) b p)); cbn [enc_data].
    + intros b p en. cbn [encodeMmsData]. by rewrite BerEncoder.UInt32determineEncodedSize_spec.
    + rewrite BerEncoder.enc_tlv_length by lia. unfold BerEncoder.determineLengthSize.
      rewrite decide_True by lia. lia.
    + intros b p _ _ _. unfold BerEncoder.encodeTL, BerEncoder.enc_tlv. cbn [puts].
      destruct (put b p 0x80) as [[b1 p1]|]; [|done]. cbn [mbind option_bind].
      rewrite BerEncoder.encodeLength_puts, puts_app by (unfold_int; lia).
      destruct (puts b1 p1 _) as [[b2 p2]|]; [|done]. cbn [mbind option_bind].
      apply BerEncoder.encodeUInt32_puts.
Qed.

(** ** The largest size a value can take *)

Definition bounded (v : MmsValue) : Prop :=
  exists m, getMaxEncodedSize v = Some m /\ 0 <= m /\
    (m < 4294967296 -> zlen (enc_data v) <= m).

Lemma determineLengthSize_mono a b : a <= b ->
  BerEncoder.determineLengthSize a <= BerEncoder.determineLengthSize b.
Proof. intros. unfold BerEncoder.determineLengthSize. repeat case_decide; lia. Qed.

Lemma sumSizes_bounded cs :
  all_wf bounded cs ->
  exists m, sumSizes (fun c => match c with Some c => getMaxEncodedSize c | None => None end) cs = Some m /\
    0 <= m /\ (m < 4294967296 -> zlen (enc_components enc_data cs) <= m).
Proof.
  induction cs as [|[c|] cs IH]; intros H; cbn in H; [|destruct H as [Hc Hcs]|tauto].
  { exists 0. simpl. split_and!; [done|lia|lia]. }
  destruct Hc as (n & En & Hn & Hn'), (IH Hcs) as (m & Em & Hm & Hm').
  exists (n + m). cbn [sumSizes enc_components]. rewrite En, Em. cbn [mbind option_bind].
  rewrite length_app. split_and!; [done|lia|]. intros. lia.
Qed.

Lemma constructed_bounded tag mk cs :
  (forall cs, getMaxEncodedSize (mk cs) =
     componentsSize ← sumSizes (fun c => match c with Some c => getMaxEncodedSize c | None => None end) cs;
     Some (1 + componentsSize + BerEncoder.determineLengthSize (u32 componentsSize))) ->
  (forall cs, enc_data (mk cs) = BerEncoder.enc_tlv tag (enc_components enc_data cs)) ->
  all_wf bounded cs -> zlen (enc_components enc_data cs) < 65535 -> bounded (mk cs).
Proof.
  intros Hm Hd Hcs Hl. destruct (sumSizes_bounded cs Hcs) as (m & Em & Hm0 & Hm').
  unfold bounded. rewrite Hm, Hd, Em. cbn [mbind option_bind].
  pose proof (determineLengthSize_pos (u32 m)). eexists. split_and!; [done|lia|]. intros Hsmall.
  rewrite BerEncoder.enc_tlv_length by done. assert (Hmm : m < 4294967296) by lia. specialize (Hm' Hmm).
  rewrite u32_id in * by (unfold_int; lia).
  pose proof (determineLengthSize_mono _ _ Hm'). lia.
Qed.

Lemma string_bounded tag mk buf size :
  (forall b n, getMaxEncodedSize (mk b n) =
     Some (1 + Z.abs n + BerEncoder.determineLengthSize (Z.abs n))) ->
  (forall b n, enc_data (mk b n) = BerEncoder.enc_tlv tag (chars b)) ->
  wf_string buf size -> bounded (mk buf size).
Proof.
  intros Hm Hd Hw. destruct (wf_string_chars buf size Hw) as (s & _ & Hc & Hl & Hmx & _).
  unfold bounded. rewrite Hm, Hd, Hc, BerEncoder.enc_tlv_length by lia. rewrite Z.abs_eq by lia.
  pose proof (determineLengthSize_pos size). eexists. split_and!; [done|lia|]. intros _.
  pose proof (determineLengthSize_mono _ _ Hl). lia.
Qed.

Lemma all_wf_bounded cs :
  all_components (fun v => wf v -> regular v -> bounded v) cs ->
  all_wf wf cs -> all_wf regular cs -> all_wf bounded cs.
Proof.
  induction 1 as [|[c|] cs Hc _ IH]; cbn; [done| |tauto]. intros [??] [??]. auto.
Qed.

Lemma tlv_short tag xs : zlen xs < 128 -> zlen (BerEncoder.enc_tlv tag xs) = 2 + zlen xs.
Proof.
  intros. rewrite BerEncoder.enc_tlv_length by lia. unfold BerEncoder.determineLengthSize.
  rewrite decide_True by lia. lia.
Qed.

Lemma max_spec v : wf v -> regular v -> bounded v.
Proof.
  induction v as [cs Hcs|cs Hcs|v Hleaf] using MmsValue_ind'; intros Hw Hr.
  { destruct Hr as [Hr Hl]. apply (constructed_bounded 0xa1 MmsArray); try done.
    by apply all_wf_bounded. }
  { destruct Hr as [Hr Hl]. apply (constructed_bounded 0xa2 MmsStructure); try done.
    by apply all_wf_bounded. }
  destruct v as [cs|cs|x|n buf|i|i|ew fw buf|n mx buf|buf n|buf n|n buf|t|e];
    try (exfalso; by edestruct (Hleaf cs)); cbn [wf regular] in Hw, Hr.
  - exists 3. by split_and!.
  - destruct Hw as [Hn [Hb Hl]]. pose proof (bitStringByteSize_bound n Hn).
    exists (BerEncoder.determineEncodedBitStringSize (Z.abs n)). split_and!; [done| |].
    + rewrite Z.abs_eq by done. unfold BerEncoder.determineEncodedBitStringSize.
      rewrite bit_byte_sizes by done. 
      pose proof (determineLengthSize_pos (MmsValue.bitStringByteSize n)). lia.
    + intros _. cbn [enc_data]. rewrite enc_bitstring_length by (done || lia).
      rewrite Hl, Z.abs_eq by done. unfold BerEncoder.determineEncodedBitStringSize, BerEncoder.determineLengthSize.
      rewrite bit_byte_sizes by done. repeat case_decide; lia.
  - pose proof (wf_digits _ Hw) as (Hl & _). destruct Hw as (_ & Hs & _).
    exists (2 + maxSize i). split_and!; [done|lia|]. intros _. cbn [enc_data]. rewrite tlv_short; lia.
  - pose proof (wf_digits _ Hw) as (Hl & _). destruct Hw as (_ & Hs & _).
    exists (2 + maxSize i). split_and!; [done|lia|]. intros _. cbn [enc_data]. rewrite tlv_short; lia.
  - destruct Hw as [Hfw [Hb Hl]]. exists (fw / 8 + 1 + 2).
    assert (Hn : 0 <= fw / 8 <= 8) by (by destruct Hfw; subst). split_and!; [done|lia|]. intros _.
    assert (Hx : zlen (ew :: reverse (take (Z.to_nat (fw / 8)) buf)) = fw / 8 + 1).
    { rewrite length_cons, length_reverse, length_take. lia. }
    cbn [enc_data]. rewrite tlv_short; lia.
  - destruct Hw as ([Hb Hl] & Hn & H16). pose proof (determineLengthSize_pos (Z.abs mx)).
    eexists. split_and!; [done|lia|]. intros _. cbn [enc_data].
    assert (Hx : zlen (take (Z.to_nat n) buf) = n) by (rewrite length_take; lia).
    rewrite BerEncoder.enc_tlv_length, Hx by lia.
    pose proof (determineLengthSize_mono n (Z.abs mx)). lia.
  - by apply (string_bounded 0x8a MmsVisibleString).
  - by apply (string_bounded 0x90 MmsString).
  - destruct Hw as (Hn & [Hb Hl]). exists (2 + n). split_and!; [done|lia|]. intros _.
    cbn [enc_data]. rewrite tlv_short; rewrite length_take; lia.
  - destruct Hw as [Hb Hl]. exists 10. split_and!; [done|lia|]. intros _. cbn [enc_data].
    rewrite tlv_short; lia.
  - pose proof (BerEncoder.enc_uint32_size (u32 e)). exists 7. split_and!; [done|lia|]. intros _.
    cbn [enc_data]. rewrite tlv_short; lia.
Qed.

(** ** Decoding what was encoded *)

(** The bits behind the end of a bit string are zero. *)
Definition padded (n : Z) (bits : list Z) : Prop :=
  match reverse bits with
  | last :: _ => Z.land last (256 - 2 ^ (MmsValue.bitStringByteSize n * 8 - n)) = last
  | [] => True
  end.

Definition is_mms_string (v : MmsValue) : bool := match v with MmsString _ _ => true | _ => false end.

(** The values the decoder accepts back: no empty array or structure, no MMS string
    in one, no integer of more than eight octets. *)
Fixpoint decodable (v : MmsValue) : Prop :=
  match v with
  | MmsArray cs | MmsStructure cs =>
      cs <> [] /\ all_wf (fun c => decodable c /\ is_mms_string c = false) cs
  | MmsBitString n bits => padded n bits
  | MmsInteger i | MmsUnsigned i => size i <= 8
  | MmsDataAccessError e => 0 <= e < 2147483648
  | _ => True
  end.

(** Levels of nesting. *)
Definition max_height (f : MmsValue -> Z) : list (option MmsValue) -> Z :=
  fix max_height cs :=
    match cs with
    | [] => 0
    | c :: cs => Z.max (match c with Some v => f v | None => 0 end) (max_height cs)
    end.

Fixpoint height (v : MmsValue) : Z :=
  match v with
  | MmsArray cs | MmsStructure cs => 1 + max_height height cs
  | _ => 1
  end.

Definition tag_of (v : MmsValue) : Z :=
  match v with
  | MmsArray _ => 0xa1 | MmsStructure _ => 0xa2 | MmsBoolean _ => 0x83 | MmsBitString _ _ => 0x84
  | MmsInteger _ => 0x85 | MmsUnsigned _ => 0x86 | MmsFloat _ _ _ => 0x87
  | MmsOctetString _ _ _ => 0x89 | MmsVisibleString _ _ => 0x8a | MmsString _ _ => 0x90
  | MmsBinaryTime _ _ => 0x8c | MmsUtcTime _ => 0x91 | MmsDataAccessError _ => 0x80
  end.

Definition content_of (v : MmsValue) : list Z :=
  match v with
  | MmsArray cs | MmsStructure cs => enc_components enc_data cs
  | MmsBoolean b => [if b then 1 else 0]
  | MmsBitString n bits => MmsValue.bitStringByteSize n * 8 - n :: bits
  | MmsInteger i | MmsUnsigned i => digits i
  | MmsFloat ew fw buf => ew :: reverse (take (Z.to_nat (fw / 8)) buf)
  | MmsOctetString n _ buf | MmsBinaryTime n buf => take (Z.to_nat n) buf
  | MmsVisibleString buf _ | MmsString buf _ => chars buf
  | MmsUtcTime t => t
  | MmsDataAccessError e => BerEncoder.enc_uint32 (u32 e)
  end.

Lemma tag_of_element v : is_mms_string v = false -> tag_of v ∈ element_tags.
Proof.
  intros H. apply list_elem_of_In. destruct v; try discriminate H; vm_compute; tauto.
Qed.

Lemma enc_bitstring_padded tag n bits :
  0 <= n -> zlen bits = MmsValue.bitStringByteSize n -> padded n bits ->
  BerEncoder.enc_bitstring tag n bits =
    BerEncoder.enc_tlv tag (MmsValue.bitStringByteSize n * 8 - n :: bits).
Proof.
  intros Hn Hl Hp. unfold BerEncoder.enc_bitstring, BerEncoder.enc_tlv, padded in *.
  rewrite bit_byte_sizes by done. do 2 f_equal.
  destruct bits as [|x bits] using rev_ind.
  { simpl in Hl. pose proof (bitStringByteSize_bound n Hn). assert (n = 0) as -> by lia. done. }
  clear IHbits. rewrite reverse_snoc in Hp.
  change (?a :: bits ++ [x]) with ((a :: bits) ++ [x]).
  by rewrite reverse_snoc, reverse_involutive, Hp.
Qed.

Lemma enc_components_nonempty cs :
  all_wf (fun v => 2 <= zlen (enc_data v)) cs -> 2 * zlen cs <= zlen (enc_components enc_data cs).
Proof.
  induction cs as [|[c|] cs IH]; cbn [all_wf enc_components]; [simpl; lia| |tauto].
  intros [Hc Hcs]. specialize (IH Hcs). rewrite length_app. simpl length in *. lia.
Qed.

Lemma enc_data_size v : wf v -> regular v -> 2 <= zlen (enc_data v).
Proof.
  intros Hw Hr.
  assert (Htlv : forall tag xs, 2 <= zlen (BerEncoder.enc_tlv tag xs)).
  { intros tag xs. unfold BerEncoder.enc_tlv. rewrite length_cons, length_app.
    unfold BerEncoder.enc_length. repeat case_decide; simpl; lia. }
  destruct v; cbn [enc_data]; auto; [simpl; lia|].
  unfold BerEncoder.enc_bitstring. rewrite length_cons, length_app.
  unfold BerEncoder.enc_length. repeat case_decide; simpl; lia.
Qed.

Lemma enc_data_tlv v :
  wf v -> regular v -> decodable v ->
  enc_data v = BerEncoder.enc_tlv (tag_of v) (content_of v) /\ zlen (content_of v) < 65535 /\
  (~ empty_allowed (tag_of v) -> zlen (content_of v) <> 0).
Proof.
  intros Hw Hr Hd.
  destruct v as [cs|cs|x|n buf|i|i|ew fw buf|n mx buf|buf n|buf n|n buf|t|e];
    cbn [enc_data tag_of content_of wf regular decodable] in *.
  1, 2: split; [done|]; split; [tauto|]; intros _;
    (assert (Ha : all_wf (fun v => 2 <= zlen (enc_data v)) cs);
     [ destruct Hr as [Hr _], Hd as [_ Hd]; clear -Hw Hr;
       induction cs as [|[c|] cs IH]; cbn in *; [done| |tauto];
       destruct Hw, Hr; split; [by apply enc_data_size|by apply IH]
     | pose proof (enc_components_nonempty _ Ha); destruct Hd as [Hd _];
       destruct cs; [done|simpl length in *; lia] ]).
  - split; [done|]. split; [simpl; lia|]. intros _. simpl. lia.
  - destruct Hw as [Hn [Hb Hl]]. split; [by apply enc_bitstring_padded|]. rewrite length_cons.
    split; [lia|]. intros _. lia.
  - pose proof (wf_digits _ Hw) as (Hl & _). destruct Hw as (_ & Hs & _). rewrite Hl.
    split; [done|]. split; [lia|]. intros _. lia.
  - pose proof (wf_digits _ Hw) as (Hl & _). destruct Hw as (_ & Hs & _). rewrite Hl.
    split; [done|]. split; [lia|]. intros _. lia.
  - split; [done|]. destruct Hw as [Hfw [Hb Hl]]. rewrite length_cons, length_reverse, length_take.
    split; [lia|]. intros _. lia.
  - split; [done|]. rewrite length_take. split; [lia|]. intros H. exfalso. apply H. by vm_compute; tauto.
  - split; [done|]. destruct (wf_string_chars buf n Hw) as (s & _ & -> & Hl & Hm & _).
    split; [lia|]. intros H. exfalso. apply H. unfold empty_allowed. tauto.
  - split; [done|]. destruct (wf_string_chars buf n Hw) as (s & _ & -> & Hl & Hm & _).
    split; [lia|]. intros H. exfalso. apply H. unfold empty_allowed. tauto.
  - split; [done|]. destruct Hw as (Hn & [Hb Hl]). rewrite length_take. split; [lia|]. intros _. lia.
  - split; [done|]. destruct Hw as [Hb Hl]. split; [lia|]. intros _. lia.
  - split; [done|]. pose proof (BerEncoder.enc_uint32_size (u32 e)). split; [lia|]. intros _. lia.
Qed.

Lemma bind_nil {A B} (m : alloc A) (k : A -> alloc B) x :
  m [] = Some (x, []) -> m_bind m k [] = k x [].
Proof. intros H. unfold m_bind. by rewrite H. Qed.

Lemma lift_nil {A B} (o : option A) (k : A -> alloc B) x :
  o = Some x -> m_bind (m_lift o) k [] = k x [].
Proof. by intros ->. Qed.

(** The content decoder gives back a value equal to [v]. *)
Definition decodes_content (v : MmsValue) (res : option (decoded * list bool)) (q : Z) : Prop :=
  exists w, res = Some ((Some w, Some q), []) /\ wf w /\ same_value v w.

Lemma decodes_buffer v res q w (n : Z) a b m k :
  res = Some ((Some w, Some q), []) ->
  0 <= n <= m -> n <= k -> wf_buf a m -> wf_buf b k -> wf w ->
  equals v w = memcmp n a b -> equals w v = memcmp n b a ->
  take (Z.to_nat n) b = take (Z.to_nat n) a -> decodes_content v res q.
Proof.
  intros E H1 H2 H3 H4 H5 H6 H7 H8. exists w. split; [done|].
  exact (cloned_buffer v w n a b m k H1 H2 H3 H4 H5 H6 H7 H8).
Qed.

Lemma copy_to_zero b q xs n :
  is_bytes xs -> bytes_at b q xs -> zlen xs <= n ->
  copy_bytes (Z.to_nat (zlen xs)) b q (fresh n) 0 =
    Some (xs ++ drop (length xs) (fresh n), zlen xs) /\
  wf_buf (xs ++ drop (length xs) (fresh n)) n.
Proof.
  intros Hx Hat Hn.
  rewrite (copy_at_Z _ _ _ _ _ _ Hat) by done.
  rewrite puts_splice by (done || rewrite ?fresh_length; lia).
  rewrite take_0. split; [done|]. split.
  - apply Forall_app. split; [done|]. by apply Forall_drop, is_bytes_fresh.
  - rewrite length_app, length_drop. pose proof (fresh_length n). lia.
Qed.

Lemma fill_integer_spec b q ds i :
  is_bytes ds -> bytes_at b q ds -> 1 <= zlen ds <= maxSize i -> maxSize i <= 255 ->
  octets i = fresh (maxSize i) ->
  exists j, fill_integer b q (zlen ds) i = Some j /\ BerInteger.wf j /\ digits j = ds.
Proof.
  intros Hd Hat Hs Hm Ho. unfold fill_integer. rewrite Ho.
  destruct (copy_to_zero b q ds (maxSize i) Hd Hat ltac:(lia)) as [-> [Hb Hl]].
  cbn [mbind option_bind]. eexists. split; [done|]. unfold BerInteger.wf, digits; cbn [size maxSize octets].
  rewrite u8_id by (unfold_int; lia). split; [done|]. rewrite Nat2Z.id. by rewrite take_app_length.
Qed.

Lemma decode_integer_content mk v i b q new :
  BerInteger.wf i -> size i <= 8 -> v = mk i -> (mk = MmsInteger \/ mk = MmsUnsigned) ->
  (forall n, new n [] = Some (Some (mk {| size := 1; maxSize := if decide (n <= 32) then 5 else 9;
                                octets := fresh (if decide (n <= 32) then 5 else 9) |}), [])) ->
  bytes_at b q (digits i) ->
  decodes_content v (decodeInteger new b q (zlen (digits i)) []) (q + zlen (digits i)).
Proof.
  intros Hw H8 -> Hmk Hnew Hat. pose proof (wf_digits _ Hw) as (Hl & Hb & _).
  assert (Hs : 1 <= size i) by (destruct Hw; lia).
  unfold decodeInteger. rewrite decide_False by lia.
  set (n := zlen (digits i) * 8).
  destruct (fill_integer_spec b q (digits i) {| size := 1; maxSize := if decide (n <= 32) then 5 else 9;
                                octets := fresh (if decide (n <= 32) then 5 else 9) |})
    as (j & Ej & Hj & Hdj); try done; cbn [maxSize]; try (case_decide; lia).
  exists (mk j). split.
  - erewrite bind_nil by apply Hnew. destruct Hmk as [-> | ->];
      by rewrite (lift_nil _ _ _ (f_equal (fmap _) Ej)).
  - destruct Hmk as [-> | ->]; (split; [done|]; split; by apply equal_digits).
Qed.

Lemma decode_bitstring_content n bits b q :
  wf (MmsBitString n bits) ->
  bytes_at b q (MmsValue.bitStringByteSize n * 8 - n :: bits) ->
  decodes_content (MmsBitString n bits) (decodeBitString b q (zlen bits + 1) []) (q + (zlen bits + 1)).
Proof.
  intros [Hn [Hb Hl]] [Hpad Hat]. pose proof (bitStringByteSize_bound n Hn).
  unfold decodeBitString. rewrite (lift_nil _ _ _ Hpad). rewrite decide_False by lia.
  replace (8 * (zlen bits + 1 - 1) - (MmsValue.bitStringByteSize n * 8 - n)) with n by lia.
  assert (En : newBitString n [] = Some (Some (MmsBitString n (fresh (zlen bits))), [])).
  { unfold newBitString. cbn. rewrite Z.abs_eq by done. by rewrite <- Hl. }
  rewrite (bind_nil _ _ _ En). replace (zlen bits + 1 - 1) with (zlen bits) by lia.
  destruct (copy_to_zero b (q + 1) bits (zlen bits) Hb Hat ltac:(lia)) as [E _].
  rewrite E. cbn [mbind option_bind].
  assert (Hd : bits ++ drop (length bits) (fresh (zlen bits)) = bits).
  { rewrite drop_ge; [apply app_nil_r|]. unfold fresh. rewrite length_replicate. lia. }
  rewrite Hd. apply (decodes_buffer _ _ _ (MmsBitString n bits) (zlen bits) bits bits
    (zlen bits) (zlen bits)); [done|lia|lia|by split|by split|by split| | |done];
    cbn [equals]; rewrite decide_True by done; by rewrite Hl.
Qed.

Lemma decode_float_content ew fw buf b q :
  wf (MmsFloat ew fw buf) ->
  let xs := ew :: reverse (take (Z.to_nat (fw / 8)) buf) in
  bytes_at b q xs ->
  decodes_content (MmsFloat ew fw buf) (decodeFloatValue b q (zlen xs) []) (q + zlen xs).
Proof.
  intros Hw xs [_ Hat]. destruct (Hw) as [Hfw [Hb Hl]].
  set (ys := take (Z.to_nat (fw / 8)) buf) in *. apply rds_at in Hat.
  assert (Hy : zlen ys = fw / 8).
  { assert (0 <= fw / 8 <= 8) by (by destruct Hfw; subst). unfold ys. rewrite length_take. lia. }
  assert (Hyb : is_bytes ys) by (by apply Forall_take).
  assert (Hx : zlen xs = fw / 8 + 1) by (unfold xs; rewrite length_cons, length_reverse; lia).
  rewrite length_reverse in Hat. unfold decodeFloatValue. rewrite Hx.
  destruct Hfw as [-> | ->]; cbn [Z.div Z.div_eucl] in *.
  - change (32 / 8 + 1) with 5 in *. change (32 / 8) with 4 in *.
    rewrite decide_False, decide_True by done.
    replace (length ys) with 4%nat in Hat by lia.
    assert (Ef : BerDecoder.decodeFloat b q = Some ys).
    { unfold BerDecoder.decodeFloat. rewrite Hat. cbn. by rewrite reverse_involutive. }
    erewrite bind_nil by (rewrite (lift_nil _ _ _ Ef); reflexivity).
    rewrite (take_ge ys 4) by lia.
    eapply (decodes_buffer _ _ _ _ 4 buf (ys ++ replicate 4 0) 8 8); [done|lia|lia|done| | |done|done|].
    + split; [|rewrite length_app, length_replicate; lia]. apply Forall_app. split; [done|by apply Forall_replicate].
    + split; [by left|]. split; [|rewrite length_app, length_replicate; lia].
      apply Forall_app. split; [done|by apply Forall_replicate].
    + change (Z.to_nat 4) with 4%nat. rewrite take_app_length' by lia. done.
  - change (64 / 8 + 1) with 9 in *. change (64 / 8) with 8 in *. rewrite decide_True by done.
    replace (length ys) with 8%nat in Hat by lia.
    assert (Ef : BerDecoder.decodeDouble b q = Some ys).
    { unfold BerDecoder.decodeDouble. rewrite Hat. cbn. by rewrite reverse_involutive. }
    erewrite bind_nil by (rewrite (lift_nil _ _ _ Ef); reflexivity).
    rewrite (take_ge ys 8) by lia.
    eapply (decodes_buffer _ _ _ _ 8 buf ys 8 8); [done|lia|lia|done| | |done|done|].
    + split; [done|lia].
    + split; [by right|]. split; [done|lia].
    + change (Z.to_nat 8) with 8%nat. rewrite (take_ge ys) by lia. done.
Qed.

Lemma decode_octets_content n mx buf b q :
  wf (MmsOctetString n mx buf) ->
  let xs := take (Z.to_nat n) buf in
  bytes_at b q xs ->
  decodes_content (MmsOctetString n mx buf) (decodeOctetString b q (zlen xs) []) (q + zlen xs).
Proof.
  intros Hw xs Hat. destruct Hw as ([Hb Hl] & Hn & H16).
  assert (Hx : zlen xs = n) by (unfold xs; rewrite length_take; lia).
  assert (Hxb : is_bytes xs) by (by apply Forall_take).
  assert (En : newOctetString n n [] = Some (Some (MmsOctetString n n (fresh n)), [])).
  { unfold newOctetString. cbn. rewrite decide_False by (intros [_ ?]; done).
    assert (u16 n = n) as -> by zlia. by rewrite Z.abs_eq by lia. }
  unfold decodeOctetString. rewrite Hx, (bind_nil _ _ _ En).
  destruct (copy_to_zero b q xs n Hxb Hat ltac:(lia)) as [E Hwb]. rewrite Hx in E. rewrite E.
  cbn [mbind option_bind].
  eapply (decodes_buffer _ _ _ _ n buf _ (Z.abs mx) n); [done|lia|lia|by split|exact Hwb| | | |].
  - split; [|lia]. by rewrite Z.abs_eq by lia.
  - cbn [equals]. by rewrite decide_True.
  - cbn [equals]. by rewrite decide_True.
  - rewrite take_app_length' by lia. done.
Qed.

Lemma newStringFromByteArray_nil mk s b q :
  is_bytes s -> bytes_at b q s -> 
  newStringFromByteArray mk b q (zlen s) [] = Some (Some (mk (Some (s ++ [0])) (s16 (zlen s))), []).
Proof.
  intros Hs Hat. unfold newStringFromByteArray. rewrite (bind_nil malloc _ true) by done.
  cbn match. assert (E : createStringFromBuffer b q (zlen s) [] = Some (Some (s ++ [0]), [])).
  { unfold createStringFromBuffer.
    assert (Em : malloc_size (zlen s + 1) [] = Some (true, [])).
    { unfold malloc_size. cbn. rewrite bool_decide_eq_true_2 by lia. done. }
    rewrite (bind_nil _ _ _ Em). cbn match.
    destruct (copy_to_zero b q s (zlen s + 1) Hs Hat ltac:(lia)) as [Ec _].
    rewrite (lift_nil _ _ _ Ec). cbn [fst].
    assert (Hd : drop (length s) (fresh (zlen s + 1)) = [0]).
    { unfold fresh. rewrite drop_replicate.
      replace (Z.to_nat (zlen s + 1) - length s)%nat with 1%nat by lia. done. }
    rewrite Hd, wr_Some by (rewrite length_app; simpl; lia).
    rewrite Nat2Z.id, insert_app_r_alt, Nat.sub_diag by done. done. }
  by rewrite (bind_nil _ _ _ E).
Qed.

Lemma decoded_string_wf s : is_bytes s -> zlen s <= 32767 -> Forall (fun x => x <> 0) s ->
  wf_string (Some (s ++ [0])) (s16 (zlen s)) /\ cstr (s ++ [0]) s.
Proof.
  intros Hs Hl Hnz. assert (Hc : cstr (s ++ [0]) s) by (split; [by exists []|done]).
  split; [|done]. assert (s16 (zlen s) = zlen s) as -> by zlia.
  exists (s ++ [0]), s. split_and!; [done|done| | |lia|lia].
  - apply Forall_app. split; [done|solve_bytes].
  - rewrite length_app. simpl. lia.
Qed.

Lemma decode_string_content mk buf n b q :
  (mk = MmsVisibleString \/ mk = MmsString) -> wf_string buf n ->
  bytes_at b q (chars buf) ->
  exists str, newStringFromByteArray mk b q (zlen (chars buf)) [] =
      Some (Some (mk (Some str) (s16 (zlen (chars buf)))), []) /\
    wf (mk (Some str) (s16 (zlen (chars buf)))) /\
    same_value (mk buf n) (mk (Some str) (s16 (zlen (chars buf)))).
Proof.
  intros Hmk Hw Hat. destruct (wf_string_chars buf n Hw) as (s & _ & Hc & Hl & Hm & Hb & Hcs).
  destruct Hw as (bb & s' & -> & Hcs' & _). rewrite Hc in *. specialize (Hcs bb eq_refl).
  assert (Hnz : Forall (fun x => x <> 0) s) by apply Hcs.
  destruct (decoded_string_wf s Hb ltac:(lia) Hnz) as [Hw' Hcw].
  exists (s ++ [0]). split; [by apply newStringFromByteArray_nil|].
  destruct Hmk as [-> | ->]; (split; [exact Hw'|]); by eapply same_strings.
Qed.

Lemma decode_binary_time_content n buf b q :
  wf (MmsBinaryTime n buf) ->
  let xs := take (Z.to_nat n) buf in
  bytes_at b q xs ->
  decodes_content (MmsBinaryTime n buf) (decodeBinaryTime b q (zlen xs) []) (q + zlen xs).
Proof.
  intros Hw xs Hat. destruct Hw as (Hn & [Hb Hl]).
  assert (Hx : zlen xs = n) by (unfold xs; rewrite length_take; lia).
  assert (Hxb : is_bytes xs) by (by apply Forall_take).
  assert (En : (if decide (n = 4) then newBinaryTime true
     else if decide (n = 6) then newBinaryTime false else m_ret None) [] =
     Some (Some (MmsBinaryTime n (fresh 6)), [])) by (destruct Hn; subst n; done).
  unfold decodeBinaryTime. rewrite Hx, (bind_nil _ _ _ En).
  destruct (copy_to_zero b q xs 6 Hxb Hat ltac:(lia)) as [E Hwb]. rewrite Hx in E.
  rewrite decide_True by done. rewrite E. cbn [mbind option_bind].
  apply (decodes_buffer _ _ _ (MmsBinaryTime n (xs ++ drop (length xs) (fresh 6))) n buf
    (xs ++ drop (length xs) (fresh 6)) 6 6); [done|lia|lia|by split|exact Hwb|by split| | |].
  - cbn [equals]. by rewrite decide_True.
  - cbn [equals]. by rewrite decide_True.
  - rewrite take_app_length' by lia. done.
Qed.

Lemma decode_utc_content t b q :
  wf_buf t 8 -> bytes_at b q t ->
  decodes_content (MmsUtcTime t) (decodeUtcTime b q (zlen t) []) (q + zlen t).
Proof.
  intros [Hb Hl] Hat. unfold decodeUtcTime. rewrite Hl, decide_True by done.
  rewrite (bind_nil (newUtcTime 0) _ (Some (MmsUtcTime (fresh 8)))) by done.
  destruct (copy_to_zero b q t 8 Hb Hat ltac:(lia)) as [E Hwb].
  assert (Eset : setUtcTimeByBuffer (fresh 8) b q = Some t).
  { unfold setUtcTimeByBuffer. change 8%nat with (Z.to_nat 8). rewrite <- Hl at 1. rewrite E.
    cbn. f_equal. rewrite drop_ge by (unfold fresh; rewrite length_replicate; lia). apply app_nil_r. }
  rewrite Eset. cbn [fmap option_fmap option_map].
  apply (decodes_buffer _ _ _ (MmsUtcTime t) 8 t t 8 8); by (lia || done).
Qed.

(** ** Counting and decoding the elements *)

Definition well_encoded (v : MmsValue) : Prop :=
  enc_data v = BerEncoder.enc_tlv (tag_of v) (content_of v) /\ zlen (content_of v) < 65535 /\
  is_mms_string v = false.

Lemma getNumberOfElements_loop_spec cs b p k fuel :
  all_wf well_encoded cs -> bytes_at b p (enc_components enc_data cs) ->
  (length (enc_components enc_data cs) < fuel)%nat -> 0 <= p ->
  getNumberOfElements_loop fuel b p (p + zlen (enc_components enc_data cs)) k =
    Some (k + zlen cs).
Proof.
  revert p k fuel. induction cs as [|[c|] cs IH]; intros p k [|fuel] H Hat Hf Hp; cbn in H; try lia; try tauto.
  { cbn [getNumberOfElements_loop enc_components]. rewrite decide_False by (simpl; lia).
    f_equal. simpl. lia. }
  destruct H as [(He & Hl & Hs) Hcs]. cbn [enc_components] in *. rewrite length_app in *.
  apply bytes_at_app in Hat as [Hat1 Hat2]. rewrite He in Hat1.
  assert (Hlen : zlen (enc_data c) = zlen (BerEncoder.enc_tlv (tag_of c) (content_of c))) by (by rewrite He).
  destruct (BerDecoder.tlv_head b p _ _ (p + (zlen (enc_data c) + zlen (enc_components enc_data cs))) 0 Hat1 Hl)
    as (q & Htag & Hdec & Hq & Hpq & Hend); [lia|].
  cbn [getNumberOfElements_loop]. rewrite Nat2Z.inj_add. rewrite decide_True by lia.
  rewrite Htag, Hdec. cbn [mbind option_bind]. rewrite decide_False by lia.
  rewrite decide_True by (by apply tag_of_element). rewrite Hend, <- Hlen.
  rewrite Z.add_assoc. rewrite IH; [f_equal; simpl length; lia|done|done| |lia].
  destruct (enc_data c) eqn:Ec; [discriminate He|]. simpl in Hf. lia.
Qed.

Lemma getNumberOfElements_spec cs b p :
  all_wf well_encoded cs -> bytes_at b p (enc_components enc_data cs) -> 0 <= p ->
  getNumberOfElements b p (zlen (enc_components enc_data cs)) = Some (zlen cs).
Proof.
  intros H Hat Hp. unfold getNumberOfElements. rewrite Nat2Z.id.
  rewrite getNumberOfElements_loop_spec by (done || lia). done.
Qed.

(** The recursive call gives back values equal to the components. *)
Definition decodes_at (dec : Z -> Z -> alloc decoded) (b : list Z) (v : MmsValue) : Prop :=
  forall p max, bytes_at b p (enc_data v) -> 0 <= p -> p + zlen (enc_data v) <= max -> max <= zlen b ->
  decodes_content v (dec p max []) (p + zlen (enc_data v)).

Lemma insert_middle {A} (xs : list A) x y ys :
  <[length xs := y]> (xs ++ x :: ys) = xs ++ y :: ys.
Proof. rewrite insert_app_r_alt by done. by rewrite Nat.sub_diag. Qed.

Lemma setElement_middle mk xs e ys :
  mk = MmsArray \/ mk = MmsStructure ->
  setElement (mk (xs ++ None :: ys)) (zlen xs) e = mk (xs ++ e :: ys).
Proof.
  intros [-> | ->]; cbn [setElement]; rewrite decide_False by (rewrite length_app; simpl; lia);
    by rewrite Nat2Z.id, insert_middle.
Qed.

Lemma decodeElements_spec mk dec b cs ds p max :
  (mk = MmsArray \/ mk = MmsStructure) ->
  all_wf (fun v => well_encoded v /\ decodes_at dec b v) cs ->
  bytes_at b p (enc_components enc_data cs) -> 0 <= p ->
  p + zlen (enc_components enc_data cs) <= max -> max <= zlen b ->
  exists ws, decodeElements b dec (length cs) (zlen ds) p max
      (Some (mk (ds ++ replicate (length cs) None))) [] =
      Some (Some (Some (mk (ds ++ ws)), p + zlen (enc_components enc_data cs)), []) /\
    same_components cs ws.
Proof.
  intros Hmk. revert p ds. induction cs as [|[c|] cs IH]; intros p ds H Hat Hp Hm Hb; cbn in H; [| |tauto].
  { exists []. split; [|constructor]. cbn. by rewrite Z.add_0_r. }
  destruct H as [[(He & Hl & Hs) Hdec] Hcs]. cbn [enc_components] in *. rewrite length_app in *.
  apply bytes_at_app in Hat as [Hat1 Hat2].
  assert (Hlen : zlen (enc_data c) = zlen (BerEncoder.enc_tlv (tag_of c) (content_of c))) by (by rewrite He).
  pose proof Hat1 as Hat1'. rewrite He in Hat1'.
  destruct (BerDecoder.tlv_head b p _ _ max 0 Hat1' Hl) as (q & Htag & Hlength & Hq & Hpq & Hend); [lia|].
  cbn [decodeElements length replicate]. rewrite (lift_nil _ _ _ Hlength). cbn match.
  rewrite decide_False by lia.
  replace (p + (q - p + zlen (content_of c))) with (p + zlen (enc_data c)) by lia.
  destruct (Hdec p (p + zlen (enc_data c)) Hat1) as (w & E & Hw & Hsame); [lia|lia|lia|].
  rewrite (bind_nil _ _ _ E). cbn [fst]. rewrite (lift_nil _ _ _ eq_refl).
  rewrite setElement_middle by done. rewrite Hend, <- Hlen.
  destruct (IH (p + zlen (enc_data c)) (ds ++ [Some w])) as (ws & Ews & Hws); [done|done|lia|lia|done|].
  rewrite length_app in Ews. rewrite <- !app_assoc in Ews. cbn [app length] in Ews.
  exists (Some w :: ws). split; [|constructor; eauto 10].
  replace (zlen ds + 1) with (Z.of_nat (length ds + 1)) by lia. rewrite Ews. 
  do 4 f_equal. lia.
Qed.

(** ** The whole decoder *)

Lemma height_pos v : 1 <= height v.
Proof.
  assert (H : forall cs, 0 <= max_height height cs) by (induction cs; cbn; lia).
  destruct v; cbn [height]; try lia; specialize (H components); lia.
Qed.

Ltac decode_case := unfold decodeContent; repeat rewrite decide_False by done; rewrite decide_True by done.

Lemma decode_leaf dec v b q max :
  wf v -> regular v -> decodable v -> (forall cs, v <> MmsArray cs /\ v <> MmsStructure cs) ->
  bytes_at b q (content_of v) ->
  decodes_content v (decodeContent dec (tag_of v) b q (zlen (content_of v)) max [])
    (q + zlen (content_of v)).
Proof.
  intros Hw Hr Hd Hleaf Hat.
  destruct v as [cs|cs|x|n buf|i|i|ew fw buf|n mx buf|buf n|buf n|n buf|t|e];
    try (exfalso; by edestruct (Hleaf cs)); cbn [wf regular decodable tag_of content_of] in *.
  - decode_case. exists (MmsBoolean x). split; [|split; [done|]].
    + assert (E : BerDecoder.decodeBoolean b (zlen [if x then 1 else 0]) q = Some x).
      { destruct Hat as [Hx _]. unfold BerDecoder.decodeBoolean. rewrite decide_False by (simpl; lia).
        rewrite Hx. by destruct x. }
      by rewrite (lift_nil _ _ _ E).
    + unfold same_value; cbn. by rewrite bool_decide_true.
  - decode_case. rewrite length_cons, Nat2Z.inj_succ. by apply decode_bitstring_content.
  - decode_case. apply (decode_integer_content MmsInteger); auto.
    intros k. unfold newInteger, newWithInteger. cbn. by case_decide.
  - decode_case. apply (decode_integer_content MmsUnsigned); auto.
    intros k. unfold newUnsigned, newWithInteger. cbn. by case_decide.
  - decode_case. by apply decode_float_content.
  - decode_case. by apply decode_octets_content.
  - decode_case. destruct (decode_string_content MmsVisibleString buf n b q) as (str & E & ?); auto.
    eexists. split; [|done]. by rewrite (bind_nil _ _ _ E).
  - decode_case. destruct (decode_string_content MmsVisibleString buf n b q) as (str & E & ?); auto.
    eexists (MmsString (Some str) _). split; [|done]. unfold decodeMmsString.
    by rewrite (bind_nil _ _ _ E).
  - decode_case. by apply decode_binary_time_content.
  - decode_case. by apply decode_utc_content.
  - decode_case. exists (MmsDataAccessError e). split; [|split; [done|]].
    + assert (He : u32 e = e) by (apply u32_id; unfold_int; lia). rewrite He in *.
      pose proof (BerDecoder.decodeUint32_enc e b q ltac:(unfold_int; lia) Hat) as E.
      rewrite decide_True in E by lia. by rewrite (lift_nil _ _ _ E).
    + unfold same_value; cbn. by rewrite bool_decide_true.
Qed.

Lemma decode_constructed mk create dec b cs q max :
  (mk = MmsArray \/ mk = MmsStructure) ->
  (forall n, create (Z.of_nat n) [] = Some (Some (mk (replicate n None)), [])) ->
  all_wf (fun v => well_encoded v /\ decodes_at dec b v) cs ->
  bytes_at b q (enc_components enc_data cs) -> 0 <= q ->
  q + zlen (enc_components enc_data cs) <= max -> max <= zlen b ->
  decodes_content (mk cs) (decodeConstructed dec create b q (zlen (enc_components enc_data cs)) max [])
    (q + zlen (enc_components enc_data cs)).
Proof.
  intros Hmk Hcreate H Hat Hq Hm Hb. unfold decodeConstructed.
  assert (Hwe : all_wf well_encoded cs).
  { clear -H. induction cs as [|[c|] cs IH]; cbn in *; tauto. }
  rewrite (lift_nil _ _ _ (getNumberOfElements_spec cs b q Hwe Hat Hq)).
  rewrite decide_False by lia. rewrite (bind_nil _ _ _ (Hcreate (length cs))). rewrite Nat2Z.id.
  destruct (decodeElements_spec mk dec b cs [] q max Hmk H Hat Hq Hm Hb) as (ws & E & Hws).
  cbn [app] in E. change (zlen []) with 0 in E. rewrite (bind_nil _ _ _ E).
  exists (mk ws). split; [done|]. apply same_components_equals in Hws.
  destruct Hmk as [-> | ->]; cbn [wf]; tauto.
Qed.

(** What is known of a value when its decoding is proved. *)
Definition decodes (v : MmsValue) : Prop :=
  wf v -> regular v -> decodable v ->
  forall fuel depth maxDepth b, height v <= Z.of_nat fuel -> depth + height v <= maxDepth ->
  decodes_at (fun pos len => decodeMmsDataRecursive fuel b pos len depth maxDepth) b v.

Lemma decode_head v fuel depth maxDepth b p max :
  wf v -> regular v -> decodable v ->
  depth + 1 <= maxDepth ->
  bytes_at b p (enc_data v) -> 0 <= p -> p + zlen (enc_data v) <= max -> max <= zlen b ->
  exists q, q + zlen (content_of v) = p + zlen (enc_data v) /\ 0 <= q /\
    bytes_at b q (content_of v) /\
    decodeMmsDataRecursive (S fuel) b p max depth maxDepth [] =
    decodeContent (fun pos len => decodeMmsDataRecursive fuel b pos len (depth + 1) maxDepth)
      (tag_of v) b q (zlen (content_of v)) max [].
Proof.
  intros Hw Hr Hd Hdep Hat Hp Hm Hb. destruct (enc_data_tlv v Hw Hr Hd) as (He & Hl & Hne).
  pose proof (enc_data_size v Hw Hr) as Hsz. rewrite He in Hat, Hm, Hsz.
  destruct (BerDecoder.tlv_head b p _ _ max 0 Hat Hl Hm) as (q & Htag & Hdec & Hq & Hpq & Hend).
  exists q. rewrite He. split_and!; [done|lia|done|].
  cbn [decodeMmsDataRecursive]. rewrite decide_False by lia. rewrite decide_False by lia.
  rewrite (lift_nil _ _ _ Htag), (lift_nil _ _ _ Hdec). cbn match.
  rewrite decide_False by lia. rewrite decide_False by (intros [Hna Hz]; by apply Hne in Hna). done.
Qed.

Lemma decode_components fuel depth maxDepth b cs :
  all_components decodes cs -> all_wf wf cs -> all_wf regular cs ->
  all_wf (fun c => decodable c /\ is_mms_string c = false) cs ->
  max_height height cs <= Z.of_nat fuel -> depth + max_height height cs <= maxDepth ->
  all_wf (fun v => well_encoded v /\
    decodes_at (fun pos len => decodeMmsDataRecursive fuel b pos len depth maxDepth) b v) cs.
Proof.
  induction 1 as [|[c|] cs Hc _ IH]; cbn; [done| |tauto]. intros [Hw Hws] [Hr Hrs] [[Hd Hs] Hds] Hh Hh'.
  split; [|apply IH; (done || lia)]. split.
  - destruct (enc_data_tlv c Hw Hr Hd) as (? & ? & _). done.
  - apply Hc; (done || lia).
Qed.

Lemma decode_constructed_data mk create tag cs :
  (mk = MmsArray /\ create = createEmptyArray /\ tag = 0xa1 \/
   mk = MmsStructure /\ create = createEmptyStructure /\ tag = 0xa2) ->
  all_components decodes cs -> decodes (mk cs).
Proof.
  intros Hmk Hcs Hw Hr Hd fuel depth maxDepth b Hf Hh p max Hat Hp Hm Hb.
  assert (Hcr : forall n, create (Z.of_nat n) [] = Some (Some (mk (replicate n None)), [])).
  { intros n. destruct Hmk as [(-> & -> & _) | (-> & -> & _)]; cbn; by rewrite Nat2Z.id. }
  assert (Hk : mk = MmsArray \/ mk = MmsStructure) by tauto.
  assert (Hht : height (mk cs) = 1 + max_height height cs) by (destruct Hk as [-> | ->]; done).
  assert (Hc : content_of (mk cs) = enc_components enc_data cs) by (destruct Hk as [-> | ->]; done).
  assert (0 <= max_height height cs) by (clear; induction cs; cbn; lia).
  destruct fuel as [|fuel]; [lia|].
  destruct (decode_head (mk cs) fuel depth maxDepth b p max) as (q & Hq & Hq0 & Hat' & ->); try done; try lia.
  rewrite <- Hq, Hc in *.
  assert (Ht : forall dec, decodeContent dec (tag_of (mk cs)) b q (zlen (enc_components enc_data cs)) max =
    decodeConstructed dec create b q (zlen (enc_components enc_data cs)) max).
  { intros dec. destruct Hmk as [(-> & -> & _) | (-> & -> & _)]; done. }
  rewrite Ht. apply decode_constructed; try done; try lia.
  destruct Hk as [-> | ->]; destruct Hr as [Hr _], Hd as [_ Hd]; apply decode_components; (done || lia).
Qed.

Lemma decode_spec v : decodes v.
Proof.
  induction v as [cs Hcs|cs Hcs|v Hleaf] using MmsValue_ind'.
  - apply (decode_constructed_data MmsArray createEmptyArray 0xa1); tauto.
  - apply (decode_constructed_data MmsStructure createEmptyStructure 0xa2); tauto.
  - intros Hw Hr Hd fuel depth maxDepth b Hf Hh p max Hat Hp Hm Hb.
    pose proof (height_pos v). destruct fuel as [|fuel]; [lia|].
    destruct (decode_head v fuel depth maxDepth b p max) as (q & Hq & Hq0 & Hat' & ->); try done; try lia.
    rewrite <- Hq. by apply decode_leaf.
Qed.

(** ** Decoding arbitrary octets *)

(** What the decoder of the octets [[p, max)] guarantees when no allocation fails. *)
Definition safe (p max : Z) (res : option (decoded * list bool)) : Prop :=
  exists r e, res = Some ((r, e), []) /\
    match r with
    | Some v => exists q, e = Some q /\ p < q <= max /\ (max - p <= 32767 -> wf v)
    | None => True
    end.

Definition decode_safe_at (dec : Z -> Z -> alloc decoded) (b : list Z) : Prop :=
  forall p max, 0 <= p < max -> max <= zlen b -> safe p max (dec p max []).

Lemma safe_error p max : safe p max (decoded_error []).
Proof. by exists None, None. Qed.

Lemma safe_value p max v q :
  p < q <= max -> (max - p <= 32767 -> wf v) -> safe p max (Some ((Some v, Some q), [])).
Proof. intros. exists (Some v), (Some q). eauto. Qed.

Lemma safe_null p max e : safe p max (Some ((None, e), [])).
Proof. by exists None, e. Qed.

Lemma getNumberOfElements_loop_total fuel b p stop k :
  is_bytes b -> 0 <= p -> stop <= zlen b -> (Z.to_nat (stop - p) < fuel)%nat ->
  exists n, getNumberOfElements_loop fuel b p stop k = Some n.
Proof.
  intros Hb. revert p k. induction fuel as [|fuel IH]; intros p k Hp Hs Hf; [lia|].
  cbn [getNumberOfElements_loop]. case_decide; [|eauto].
  destruct (rd_ok b p Hb) as (x & -> & _); [lia|]. cbn [mbind option_bind].
  destruct (BerDecoder.decode_safe (2 * Z.to_nat (stop - (p + 1)) + 2) b stop 50 Hb Hs) as [_ D].
  destruct (D (p + 1) 0 0) as ([r len] & E & Hok); [lia|unfold BerDecoder.dist; lia|].
  unfold BerDecoder.decodeLength. rewrite E. cbn [mbind option_bind].
  unfold BerDecoder.length_ok in Hok. cbn [fst snd] in Hok.
  case_decide; [eauto|]. case_decide; [|eauto]. apply IH; lia.
Qed.

(** A failed decoding of elements leaves the loop; otherwise all of them are there.
    [small] says that the octets are few enough for the sizes in a value. *)
Definition elements_safe (mk : list (option MmsValue) -> MmsValue) (small : Prop) (p max : Z)
    (res : option (option (option MmsValue * Z) * list bool)) : Prop :=
  res = Some (None, []) \/
  exists ws q, res = Some (Some (Some (mk ws), q), []) /\ p <= q <= Z.max p max /\
    (small -> all_wf wf ws).

Lemma all_wf_snoc ws w : all_wf wf ws -> wf w -> all_wf wf (ws ++ [Some w]).
Proof. induction ws as [|[c|] ws IH]; cbn; tauto. Qed.

Lemma decodeElements_safe mk dec b n ds p max p0 :
  (mk = MmsArray \/ mk = MmsStructure) -> is_bytes b -> decode_safe_at dec b ->
  0 <= p -> max <= zlen b -> p0 <= p -> (max - p0 <= 32767 -> all_wf wf ds) ->
  elements_safe mk (max - p0 <= 32767) p max
    (decodeElements b dec n (zlen ds) p max (Some (mk (ds ++ replicate n None))) []).
Proof.
  intros Hmk Hb Hdec. revert ds p. induction n as [|n IH]; intros ds p Hp Hm Hp0 Hds.
  { right. exists ds, p. cbn. rewrite app_nil_r. split; [done|]. split; [lia|done]. }
  cbn [decodeElements replicate].
  destruct (BerDecoder.decodeLength_total b (p + 1) max 0 Hb) as (q & len & E & Hok); [lia|lia|].
  rewrite (lift_nil _ _ _ E). cbn match. case_decide; [by left|].
  destruct Hok as [->|(Hq & Hlen & Hend)]; [lia|].
  replace (p + (q - p + len)) with (q + len) by lia.
  destruct (Hdec p (q + len)) as (r & e & Er & Hr); [lia|lia|]. rewrite (bind_nil _ _ _ Er).
  cbn [fst]. destruct r as [w|]; [|by left]. destruct Hr as (qe & -> & Hqe & Hw).
  rewrite (lift_nil _ _ _ eq_refl), setElement_middle by done.
  pose proof (IH (ds ++ [Some w]) (q + len)) as R.
  rewrite length_app, <- app_assoc in R. cbn [app length] in R.
  replace (Z.of_nat (length ds + 1)) with (zlen ds + 1) in R by lia.
  destruct R as [R1 | (ws & q' & R1 & Hq' & Hws)]; [lia|done|lia| | |].
  - intros Hsm. apply all_wf_snoc; [apply Hds|apply Hw]; lia.
  - left. exact R1.
  - right. exists ws, q'. split; [done|]. split; [lia|done].
Qed.

Lemma decodeConstructed_safe mk create dec b p q len max :
  (mk = MmsArray \/ mk = MmsStructure) ->
  (forall n, 0 <= n -> create n [] = Some (Some (mk (replicate (Z.to_nat n) None)), [])) ->
  is_bytes b -> decode_safe_at dec b -> 0 <= p < q -> 0 <= len -> q + len <= max -> max <= zlen b ->
  safe p max (decodeConstructed dec create b q len max []).
Proof.
  intros Hmk Hcr Hb Hdec Hp Hlen Hq Hm. unfold decodeConstructed, getNumberOfElements.
  destruct (getNumberOfElements_loop_total (S (Z.to_nat len)) b q (q + len) 0 Hb) as [n En]; [lia..|].
  rewrite (lift_nil _ _ _ En). case_decide; [apply safe_error|].
  rewrite (bind_nil _ _ _ (Hcr n ltac:(lia))).
  destruct (decodeElements_safe mk dec b (Z.to_nat n) [] q max p Hmk Hb Hdec)
    as [R | (ws & q' & R & Hq' & Hws)]; [lia|done|lia|done| |];
    cbn [app] in R; change (zlen []) with 0 in R; rewrite (bind_nil _ _ _ R).
  - apply safe_error.
  - apply safe_value; [lia|]. intros Hsm. destruct Hmk as [-> | ->]; by apply Hws.
Qed.

Lemma cstr_exists xs : exists s, cstr (xs ++ [0]) s.
Proof.
  induction xs as [|x xs (s & [[rest E] Hs])].
  - exists []. split; [by exists []|constructor].
  - destruct (decide (x = 0)) as [->|Hx].
    + exists []. split; [by exists (xs ++ [0])|constructor].
    + exists (x :: s). split; [exists rest; cbn; by rewrite E|by constructor].
Qed.

Lemma octets_wf_string s : is_bytes s -> zlen s <= 32767 -> wf_string (Some (s ++ [0])) (s16 (zlen s)).
Proof.
  intros Hb Hl. destruct (cstr_exists s) as [t Ht]. assert (s16 (zlen s) = zlen s) as -> by zlia.
  exists (s ++ [0]), t. split_and!; [done|done| | |lia|lia].
  - apply Forall_app. split; [done|solve_bytes].
  - rewrite length_app. simpl. lia.
Qed.

Section Leaves.
(** The content [[q, q + len)] of a value that starts at [p]. *)
Context (b : list Z) (p q len max : Z).
Context (Hb : is_bytes b) (Hp : 0 <= p < q) (Hlen : 0 <= len) (Hq : q + len <= max)
  (Hm : max <= zlen b).

Lemma decodeBitString_safe : len <> 0 -> safe p max (decodeBitString b q len []).
Proof using Hb Hp Hlen Hq Hm.
  intros Hne. unfold decodeBitString. destruct (rd_ok b q Hb) as (x & Ex & Hx); [lia|].
  rewrite (lift_nil _ _ _ Ex). case_decide; [apply safe_error|].
  set (n := Z.abs (8 * (len - 1) - x)).
  assert (En : newBitString (8 * (len - 1) - x) [] =
    Some (Some (MmsBitString n (fresh (MmsValue.bitStringByteSize n))), [])) by done.
  rewrite (bind_nil _ _ _ En).
  assert (Hn : len - 1 <= MmsValue.bitStringByteSize n).
  { pose proof (bitStringByteSize_bound n ltac:(lia)). unfold_int. lia. }
  destruct (bytes_exist b (q + 1) (len - 1) Hb) as (xs & Hat & Hl & Hxs); [lia..|].
  destruct (copy_to_zero b (q + 1) xs (MmsValue.bitStringByteSize n) Hxs Hat ltac:(lia)) as [E Hw].
  rewrite <- Hl at 1. rewrite E. cbn [mbind option_bind].
  apply safe_value; [lia|]. intros _. cbn [wf]. split; [lia|done].
Qed.

Lemma decodeInteger_safe mk new :
  (mk = MmsInteger \/ mk = MmsUnsigned) ->
  (forall n, new n [] = Some (Some (mk {| size := 1; maxSize := if decide (n <= 32) then 5 else 9;
                                octets := fresh (if decide (n <= 32) then 5 else 9) |}), [])) ->
  len <> 0 -> safe p max (decodeInteger new b q len []).
Proof using Hb Hp Hlen Hq Hm.
  intros Hmk Hnew Hne. unfold decodeInteger. case_decide; [apply safe_error|].
  erewrite bind_nil by apply Hnew.
  destruct (bytes_exist b q len Hb) as (xs & Hat & Hl & Hxs); [lia..|].
  destruct (fill_integer_spec b q xs {| size := 1; maxSize := if decide (len * 8 <= 32) then 5 else 9;
                                octets := fresh (if decide (len * 8 <= 32) then 5 else 9) |})
    as (j & Ej & Hj & _); try done; cbn [maxSize]; try (case_decide; lia).
  rewrite Hl in Ej.
  destruct Hmk as [-> | ->]; rewrite (lift_nil _ _ _ (f_equal (fmap _) Ej));
    (apply safe_value; [lia|done]).
Qed.

Lemma decodeFloatValue_safe : safe p max (decodeFloatValue b q len []).
Proof using Hb Hp Hlen Hq Hm.
  unfold decodeFloatValue, BerDecoder.decodeDouble, BerDecoder.decodeFloat.
  destruct (decide (len = 9)); [|destruct (decide (len = 5)); [|apply safe_null]].
  - destruct (bytes_exist b (q + 1) 8 Hb) as (xs & Hat & Hl & Hxs); [lia..|].
    apply rds_at in Hat. replace (length xs) with 8%nat in Hat by lia. rewrite Hat.
    apply safe_value; [lia|]. intros _. split; [by right|].
    split; [by apply Forall_take, Forall_reverse|]. rewrite length_take, length_reverse. lia.
  - destruct (bytes_exist b (q + 1) 4 Hb) as (xs & Hat & Hl & Hxs); [lia..|].
    apply rds_at in Hat. replace (length xs) with 4%nat in Hat by lia. rewrite Hat.
    apply safe_value; [lia|]. intros _. split; [by left|]. split.
    + apply Forall_app. split; [by apply Forall_take, Forall_reverse|by apply Forall_replicate].
    + rewrite length_app, length_take, length_reverse, length_replicate. lia.
Qed.

Lemma decodeOctetString_safe : safe p max (decodeOctetString b q len []).
Proof using Hb Hp Hlen Hq Hm.
  unfold decodeOctetString.
  assert (En : newOctetString len len [] = Some (Some (MmsOctetString (u16 len) len (fresh (Z.abs len))), [])).
  { unfold newOctetString. cbn. by rewrite decide_False by (intros [_ ?]; done). }
  rewrite (bind_nil _ _ _ En).
  destruct (bytes_exist b q len Hb) as (xs & Hat & Hl & Hxs); [lia..|].
  destruct (copy_to_zero b q xs (Z.abs len) Hxs Hat ltac:(lia)) as [E Hw].
  rewrite Hl in E. rewrite E. cbn [mbind option_bind].
  apply safe_value; [lia|]. intros Hsm. cbn [wf].
  assert (u16 len = len) as -> by zlia. split; [done|lia].
Qed.

Lemma decodeString_safe mk :
  (mk = MmsVisibleString \/ mk = MmsString) ->
  exists str, newStringFromByteArray MmsVisibleString b q len [] =
      Some (Some (MmsVisibleString (Some str) (s16 len)), []) /\
    (max - p <= 32767 -> wf (mk (Some str) (s16 len))).
Proof using Hb Hp Hlen Hq Hm.
  intros Hmk. destruct (bytes_exist b q len Hb) as (xs & Hat & Hl & Hxs); [lia..|].
  exists (xs ++ [0]). rewrite <- Hl. split; [by apply newStringFromByteArray_nil|].
  intros Hsm. destruct Hmk as [-> | ->]; apply octets_wf_string; (done || lia).
Qed.

Lemma decodeBinaryTime_safe : safe p max (decodeBinaryTime b q len []).
Proof using Hb Hp Hlen Hq Hm.
  unfold decodeBinaryTime. destruct (decide (len = 4 \/ len = 6)) as [Hn|Hn].
  - assert (En : (if decide (len = 4) then newBinaryTime true
       else if decide (len = 6) then newBinaryTime false else m_ret None) [] =
       Some (Some (MmsBinaryTime len (fresh 6)), [])) by (clear -Hn; destruct Hn; subst len; done).
    rewrite (bind_nil _ _ _ En).
    destruct (bytes_exist b q len Hb) as (xs & Hat & Hl & Hxs); [lia..|].
    destruct (copy_to_zero b q xs 6 Hxs Hat ltac:(lia)) as [E Hw]. rewrite Hl in E. rewrite E.
    cbn [mbind option_bind]. apply safe_value; [lia|]. intros _. split; [exact Hn|exact Hw].
  - rewrite decide_False by tauto. rewrite decide_False by tauto. apply safe_null.
Qed.

Lemma decodeUtcTime_safe : safe p max (decodeUtcTime b q len []).
Proof using Hb Hp Hlen Hq Hm.
  unfold decodeUtcTime. case_decide as H8; [|apply safe_error].
  destruct (bytes_exist b q len Hb) as (xs & Hat & Hl & Hxs); [lia..|].
  rewrite (bind_nil (newUtcTime 0) _ (Some (MmsUtcTime (fresh 8)))) by done.
  destruct (copy_to_zero b q xs 8 Hxs Hat ltac:(lia)) as [E Hw]. unfold setUtcTimeByBuffer.
  change 8%nat with (Z.to_nat 8). rewrite <- H8, <- Hl at 1. rewrite E.
  apply safe_value; [lia|done].
Qed.
End Leaves.

Lemma decodeContent_safe dec tag b p q len max :
  is_bytes b -> decode_safe_at dec b -> 0 <= p < q -> 0 <= len -> q + len <= max -> max <= zlen b ->
  (~ empty_allowed tag -> len <> 0) ->
  safe p max (decodeContent dec tag b q len max []).
Proof.
  intros Hb Hdec Hp Hlen Hq Hm Hne. unfold empty_allowed in Hne. unfold decodeContent.
  destruct (decide (tag = 0xa1)).
  { apply (decodeConstructed_safe MmsArray); auto. }
  destruct (decide (tag = 0xa2)).
  { apply (decodeConstructed_safe MmsStructure); auto. }
  destruct (decide (tag = 0x80)).
  { destruct (BerDecoder.decodeUint32_loop_total (Z.to_nat len) b q 0 0 Hb) as [err E]; [lia|lia|].
    unfold BerDecoder.decodeUint32. rewrite (lift_nil _ _ _ E). apply safe_value; [|done].
    assert (len <> 0) by (apply Hne; lia). lia. }
  destruct (decide (tag = 0x83)).
  { assert (len <> 0) by (apply Hne; lia). unfold BerDecoder.decodeBoolean.
    rewrite decide_False by lia. destruct (rd_ok b q Hb) as (x & -> & _); [lia|].
    cbn [mbind option_bind]. rewrite (lift_nil _ _ _ eq_refl). apply safe_value; [lia|done]. }
  destruct (decide (tag = 0x84)).
  { apply decodeBitString_safe; try done. apply Hne. lia. }
  destruct (decide (tag = 0x85)).
  { apply (decodeInteger_safe b p q len max Hb Hp Hlen Hq Hm MmsInteger); [auto| |apply Hne; lia].
    intros k. unfold newInteger, newWithInteger. cbn. by case_decide. }
  destruct (decide (tag = 0x86)).
  { apply (decodeInteger_safe b p q len max Hb Hp Hlen Hq Hm MmsUnsigned); [auto| |apply Hne; lia].
    intros k. unfold newUnsigned, newWithInteger. cbn. by case_decide. }
  destruct (decide (tag = 0x87)). { by apply decodeFloatValue_safe. }
  destruct (decide (tag = 0x89)). { by apply decodeOctetString_safe. }
  destruct (decide (tag = 0x8a)).
  { destruct (decodeString_safe b p q len max Hb Hp Hlen Hq Hm MmsVisibleString) as (str & E & Hw); [auto|].
    rewrite (bind_nil _ _ _ E). apply safe_value; [lia|done]. }
  destruct (decide (tag = 0x8c)). { by apply decodeBinaryTime_safe. }
  destruct (decide (tag = 0x90)).
  { destruct (decodeString_safe b p q len max Hb Hp Hlen Hq Hm MmsString) as (str & E & Hw); [auto|].
    unfold decodeMmsString. rewrite (bind_nil _ _ _ E), (lift_nil _ _ _ eq_refl).
    apply safe_value; [lia|done]. }
  destruct (decide (tag = 0x91)). { by apply decodeUtcTime_safe. }
  destruct (decide (tag = 0x00)); [apply safe_null|apply safe_error].
Qed.

Lemma decodeMmsDataRecursive_safe fuel depth maxDepth b :
  is_bytes b -> 0 <= maxDepth - depth < Z.of_nat fuel ->
  decode_safe_at (fun pos len => decodeMmsDataRecursive fuel b pos len depth maxDepth) b.
Proof.
  intros Hb. revert depth. induction fuel as [|fuel IH]; intros depth Hf p max Hp Hm.
  { lia. }
  cbn [decodeMmsDataRecursive]. case_decide; [apply safe_error|]. rewrite decide_False by lia.
  destruct (rd_ok b p Hb) as (tag & Et & _); [lia|]. rewrite (lift_nil _ _ _ Et).
  destruct (BerDecoder.decodeLength_total b (p + 1) max 0 Hb) as (q & len & E & Hok); [lia|lia|].
  rewrite (lift_nil _ _ _ E). cbn match. case_decide; [apply safe_error|].
  destruct Hok as [->|(Hq & Hlen & Hend)]; [lia|].
  case_decide as Hempty; [apply safe_error|].
  apply decodeContent_safe; try done; [|lia|].
  - apply IH. lia.
  - intros Hna Hz. by apply Hempty.
Qed.

(** ** Values the decoder does not take back *)

Lemma getNumberOfElements_loop_string cs b p k fuel :
  all_wf (fun v => enc_data v = BerEncoder.enc_tlv (tag_of v) (content_of v) /\
                   zlen (content_of v) < 65535) cs ->
  (exists s n, In (Some (MmsString s n)) cs) ->
  bytes_at b p (enc_components enc_data cs) ->
  (length (enc_components enc_data cs) < fuel)%nat -> 0 <= p ->
  getNumberOfElements_loop fuel b p (p + zlen (enc_components enc_data cs)) k = Some (-1).
Proof.
  revert p k fuel. induction cs as [|[c|] cs IH]; intros p k [|fuel] H (s & n & Hin) Hat Hf Hp;
    cbn in H; try lia; try tauto; try (by destruct Hin).
  destruct H as [(He & Hl) Hcs]. cbn [enc_components] in *. rewrite length_app in *.
  apply bytes_at_app in Hat as [Hat1 Hat2]. rewrite He in Hat1.
  assert (Hlen : zlen (enc_data c) = zlen (BerEncoder.enc_tlv (tag_of c) (content_of c))) by (by rewrite He).
  destruct (BerDecoder.tlv_head b p _ _ (p + (zlen (enc_data c) + zlen (enc_components enc_data cs))) 0 Hat1 Hl)
    as (q & Htag & Hdec & Hq & Hpq & Hend); [lia|].
  cbn [getNumberOfElements_loop]. rewrite Nat2Z.inj_add. rewrite decide_True by lia.
  rewrite Htag, Hdec. cbn [mbind option_bind]. rewrite decide_False by lia.
  destruct (decide (tag_of c ∈ element_tags)) as [Ht|Ht]; [|done].
  rewrite Hend, <- Hlen, Z.add_assoc. apply IH; try done; [|destruct (enc_data c) eqn:Ec; [discriminate He|simpl in Hf; lia]|lia].
  exists s, n. destruct Hin as [[= ->]|Hin]; [|done]. exfalso. revert Ht. cbn [tag_of].
  rewrite list_elem_of_In. vm_compute. intuition discriminate.
Qed.

Lemma all_wf_tlv cs :
  all_wf wf cs -> all_wf regular cs -> all_wf decodable cs ->
  all_wf (fun v => enc_data v = BerEncoder.enc_tlv (tag_of v) (content_of v) /\
                   zlen (content_of v) < 65535) cs.
Proof.
  induction cs as [|[c|] cs IH]; cbn; [done| |tauto]. intros [??] [??] [??].
  split; [|by apply IH]. by destruct (enc_data_tlv c) as (? & ? & _).
Qed.

Lemma enc_components_bytes cs :
  all_wf (fun v => is_bytes (enc_data v)) cs -> is_bytes (enc_components enc_data cs).
Proof.
  induction cs as [|[c|] cs IH]; cbn; [constructor| |tauto]. intros [??]. apply Forall_app. split; [done|by apply IH].
Qed.

Lemma land_byte x y : is_u8 x -> 0 <= y -> is_u8 (Z.land x y).
Proof.
  unfold is_u8. intros Hx Hy. assert (0 <= Z.land x y) by (apply Z.land_nonneg; lia).
  split; [done|]. assert (Z.land x y <= x); [|lia].
  pose proof (Z.lor_ldiff_and x y) as L. assert (0 <= Z.ldiff x y) by (apply Z.ldiff_nonneg; lia).
  rewrite <- Z.add_nocarry_lor in L; [lia|].
  apply Z.bits_inj'; intros k Hk; rewrite !Z.land_spec, Z.ldiff_spec, Z.bits_0.
  by destruct (Z.testbit x k), (Z.testbit y k).
Qed.

Lemma enc_bitstring_bytes tag n bits :
  is_u8 tag -> 0 <= n -> is_bytes bits -> is_bytes (BerEncoder.enc_bitstring tag n bits).
Proof.
  intros Ht Hn Hb. unfold BerEncoder.enc_bitstring. constructor; [done|]. apply Forall_app.
  split; [apply BerEncoder.enc_length_bytes; lia|].
  pose proof (BerEncoder.bitStringByteSize_spec n Hn) as [Hp _].
  set (padding := BerEncoder.bitStringByteSize n * 8 - n) in *.
  assert (Hc : is_bytes (reverse (padding :: bits))).
  { apply Forall_reverse. constructor; [unfold is_u8; lia|done]. }
  destruct (reverse (padding :: bits)) as [|l init]; [constructor|].
  apply Forall_cons in Hc as [Hl Hi]. apply Forall_app. split; [by apply Forall_reverse|].
  constructor; [|constructor]. apply land_byte; [done|].
  assert (2 ^ padding <= 2 ^ 7) by (apply Z.pow_le_mono_r; lia). change (2 ^ 7) with 128 in *. lia.
Qed.

Lemma enc_data_bytes v : wf v -> regular v -> is_bytes (enc_data v).
Proof.
  assert (Hcs : forall cs, all_components (fun v => wf v -> regular v -> is_bytes (enc_data v)) cs ->
    all_wf wf cs -> all_wf regular cs -> is_bytes (enc_components enc_data cs)).
  { intros cs H Hw Hr. apply enc_components_bytes. induction H as [|[c|] cs Hc _ IH]; cbn in *; tauto. }
  induction v as [cs IH|cs IH|v Hleaf] using MmsValue_ind'; intros Hw Hr.
  { destruct Hr. by apply BerEncoder.enc_tlv_bytes; auto. }
  { destruct Hr. by apply BerEncoder.enc_tlv_bytes; auto. }
  destruct v as [cs|cs|x|n buf|i|i|ew fw buf|n mx buf|buf n|buf n|n buf|t|e];
    try (exfalso; by edestruct (Hleaf cs)); cbn [wf regular enc_data] in *.
  - destruct x; solve_bytes.
  - destruct Hw as [Hn [Hb _]]. by apply enc_bitstring_bytes.
  - apply BerEncoder.enc_tlv_bytes; [done|]. by pose proof (wf_digits _ Hw) as (_ & Hb & _).
  - apply BerEncoder.enc_tlv_bytes; [done|]. by pose proof (wf_digits _ Hw) as (_ & Hb & _).
  - destruct Hw as [_ [Hb _]]. apply BerEncoder.enc_tlv_bytes; [done|]. constructor; [done|].
    by apply Forall_reverse, Forall_take.
  - destruct Hw as [[Hb _] _]. apply BerEncoder.enc_tlv_bytes; [done|]. by apply Forall_take.
  - apply BerEncoder.enc_tlv_bytes; [done|]. by destruct (wf_string_chars buf n Hw) as (s & _ & -> & _ & _ & ? & _).
  - apply BerEncoder.enc_tlv_bytes; [done|]. by destruct (wf_string_chars buf n Hw) as (s & _ & -> & _ & _ & ? & _).
  - destruct Hw as [_ [Hb _]]. apply BerEncoder.enc_tlv_bytes; [done|]. by apply Forall_take.
  - destruct Hw as [Hb _]. by apply BerEncoder.enc_tlv_bytes.
  - apply BerEncoder.enc_tlv_bytes; [done|]. apply BerEncoder.enc_uint32_bytes.
Qed.


(** ** Properties *)

(** For a well-formed value with regular sizes, the first run of
    [MmsValue_encodeMmsData] announces exactly the octets the second one writes, and
    [MmsValue_getMaxEncodedSize] is at least that. *)
Theorem encode_writes_announced v b p :
  wf v -> regular v -> is_bytes b -> 0 <= p -> p + zlen (enc_data v) <= zlen b ->
  encodeMmsData v b p false = Some (b, zlen (enc_data v)) /\
  (exists b', encodeMmsData v b p true = Some (b', p + zlen (enc_data v)) /\
     bytes_at b' p (enc_data v) /\ zlen b' = zlen b) /\
  (exists m, getMaxEncodedSize v = Some m /\ (m < 4294967296 -> zlen (enc_data v) <= m)).
Proof.
  intros Hw Hr Hb Hp Hl. destruct (encode_spec v Hw Hr b p) as [E1 E2].
  destruct (max_spec v Hw Hr) as (m & Em & _ & Hm). split; [done|]. split; [|eauto].
  destruct (puts_Some b p (enc_data v) Hp Hl) as [b' E]. exists b'. rewrite E2 by done.
  split; [done|]. pose proof (puts_bytes _ _ _ _ _ Hb E).
  apply puts_inv in E as (_ & L & Hat & _ & _). split; [|done].
  assert (Henc : is_bytes (enc_data v)) by (by apply enc_data_bytes).
  by rewrite u8_bytes in Hat.
Qed.

Ltac solve_computed := vm_compute; repeat split; intros; try discriminate; try reflexivity.

Lemma sample_regular : regular sample_value.
Proof. solve_computed. Qed.

Lemma sample_decodable : decodable sample_value /\ height sample_value <= 25.
Proof. solve_computed. Qed.

Lemma encode_writes_announced_witness :
  encodeMmsData sample_value (replicate 40 0) 5 false =
    Some (replicate 40 0, zlen (enc_data sample_value)) /\
  (exists b', encodeMmsData sample_value (replicate 40 0) 5 true =
       Some (b', 5 + zlen (enc_data sample_value)) /\
     bytes_at b' 5 (enc_data sample_value) /\ zlen b' = zlen (replicate 40 0)) /\
  (exists m, getMaxEncodedSize sample_value = Some m /\
     (m < 4294967296 -> zlen (enc_data sample_value) <= m)).
Proof.
  apply encode_writes_announced;
    [apply sample_value_wf|apply sample_regular|by apply Forall_replicate|lia|solve_computed].
Defined.





(** An encoded structure that has an MMS string among its components is not
    decoded: the count of the elements does not know the tag 0x90. *)
Theorem mms_string_component_rejected cs b p b' e :
  wf (MmsStructure cs) -> regular (MmsStructure cs) -> all_wf decodable cs ->
  (exists s n, In (Some (MmsString s n)) cs) ->
  is_bytes b -> 0 <= p -> p + zlen (enc_data (MmsStructure cs)) <= zlen b ->
  encodeMmsData (MmsStructure cs) b p true = Some (b', e) ->
  decodeMmsData b' p e [] = Some ((None, None), []).
Proof.
  intros Hw Hr Hd Hs Hb Hp Hl E. destruct (encode_spec _ Hw Hr b p) as [_ E2].
  rewrite E2 in E by done. apply puts_inv in E as (-> & L & Hat & _).
  rewrite u8_bytes in Hat by (by apply enc_data_bytes). destruct (Hr) as [Hrs Hlen].
  cbn [enc_data] in *.
  destruct (BerDecoder.tlv_head b' p 0xa2 _ _ 0 Hat Hlen (Z.le_refl _)) as (q & Htag & Hdec & Hq & Hpq & Hend).
  unfold decodeMmsData, decodeMmsDataMaxRecursion. change (Z.to_nat 25) with 25%nat.
  set (fuel := 25%nat). clearbody fuel. cbn [decodeMmsDataRecursive].
  rewrite decide_False by lia. rewrite decide_False by lia.
  rewrite (lift_nil _ _ _ Htag), (lift_nil _ _ _ Hdec). cbn match. rewrite decide_False by lia.
  assert (Hne : zlen (enc_components enc_data cs) <> 0).
  { pose proof (enc_components_nonempty cs) as N. destruct Hs as (s & n & Hin).
    destruct cs; [done|]. intros Z0. simpl length in N.
    assert (2 * Z.of_nat (S (length cs)) <= 0); [|lia]. rewrite <- Z0. apply N.
    clear -Hw Hrs. revert Hw Hrs. generalize (o :: cs). intros l. cbn [wf].
    induction l as [|[c|] l IH]; cbn; [done| |tauto]. intros [??] [??]. auto using enc_data_size. }
  rewrite decide_False by (intros [_ ?]; done). unfold decodeContent.
  rewrite decide_False, decide_True by done. unfold decodeConstructed, getNumberOfElements.
  erewrite lift_nil; [|apply getNumberOfElements_loop_string; try done; [by apply all_wf_tlv|lia|lia]].
  rewrite decide_True by lia. done.
Qed.

Definition sample_with_string : list (option MmsValue) :=
  [Some (MmsBoolean true); Some (MmsString (Some [104; 105; 0]) 2)].

Lemma mms_string_component_rejected_witness :
  decodeMmsData (enc_data (MmsStructure sample_with_string)) 0 9 [] = Some ((None, None), []).
Proof.
  apply (mms_string_component_rejected sample_with_string (replicate 9 0) 0).
  - cbn. split; [done|]. split; [|done]. exists [104; 105; 0], [104; 105].
    split_and!; [done| |solve_bytes|done|lia|lia]. by apply (cstr_intro _ _ []).
  - solve_computed.
  - solve_computed.
  - exists (Some [104; 105; 0]), 2. cbn. tauto.
  - by apply Forall_replicate.
  - lia.
  - solve_computed.
  - by vm_compute.
Defined.

(** The first run announces one octet less than the second one writes for a bit
    string of 1016 bits. *)
Example bit_string_size_short :
  (snd <$> encodeMmsData (MmsBitString 1016 (replicate 127 0)) [] 0 false) = Some 130 /\
  (snd <$> encodeMmsData (MmsBitString 1016 (replicate 127 0)) (replicate 140 0) 0 true) = Some 131.
Proof. by vm_compute. Qed.

(** An empty structure is encoded and rejected; so is one of indefinite length. *)
Example structures_rejected :
  (snd <$> encodeMmsData (MmsStructure []) [0; 0] 0 true) = Some 2 /\
  decodeMmsData [0xa2; 0x00] 0 2 [] = Some ((None, None), []) /\
  decodeMmsData [0xa2; 0x80; 0x83; 0x01; 0x01; 0x00; 0x00] 0 7 [] = Some ((None, None), []).
Proof. by vm_compute. Qed.

End MmsData.
