(* ===== verification/GoosePublisher.v ===== *)
(** * The GOOSE publisher

    [src/goose/goose_publisher.c]: the frame buffer with its Ethernet header, the
    state and sequence numbers, and the encoding of a GOOSE message.  Strings are
    the lists of their characters; the Ethernet socket is only asked whether it
    exists, and a frame handed to it is part of the result. *)

From Stdlib Require Import Sorted.
From S2P Require Import Prelude Alloc BerEncoder BerDecoder BerInteger MmsValue MmsData.

Module GoosePublisher.
Import Alloc MmsValue MmsData.
#[local] Open Scope alloc_scope.

(** ** State and operations *)

Definition GOOSE_MAX_MESSAGE_SIZE : Z := 1518.

Record CommParameters :=
  { vlanPriority : Z; vlanId : Z; appId : Z; dstAddress : list Z }.

(** [timestamp] is [None] when its allocation failed; else the eight octets. *)
Record GoosePublisher := {
  buffer : list Z;
  ethernetSocket : bool;
  lengthField : Z;
  payloadStart : Z;
  payloadLength : Z;
  goID : option (list Z);
  goCBRef : option (list Z);
  dataSetRef : option (list Z);
  confRev : Z;
  stNum : Z;
  sqNum : Z;
  timeAllowedToLive : Z;
  needsCommission : bool;
  simulation : bool;
  timestamp : option (list Z);
}.

Definition set_numbers (self : GoosePublisher) (st sq : Z) : GoosePublisher :=
  {| buffer := buffer self; ethernetSocket := ethernetSocket self; lengthField := lengthField self;
     payloadStart := payloadStart self; payloadLength := payloadLength self; goID := goID self;
     goCBRef := goCBRef self; dataSetRef := dataSetRef self; confRev := confRev self;
     stNum := st; sqNum := sq; timeAllowedToLive := timeAllowedToLive self;
     needsCommission := needsCommission self; simulation := simulation self;
     timestamp := timestamp self |}.

Definition set_timestamp (self : GoosePublisher) (t : option (list Z)) : GoosePublisher :=
  {| buffer := buffer self; ethernetSocket := ethernetSocket self; lengthField := lengthField self;
     payloadStart := payloadStart self; payloadLength := payloadLength self; goID := goID self;
     goCBRef := goCBRef self; dataSetRef := dataSetRef self; confRev := confRev self;
     stNum := stNum self; sqNum := sqNum self; timeAllowedToLive := timeAllowedToLive self;
     needsCommission := needsCommission self; simulation := simulation self; timestamp := t |}.

Definition set_payload (self : GoosePublisher) (buf : list Z) (len : Z) : GoosePublisher :=
  {| buffer := buf; ethernetSocket := ethernetSocket self; lengthField := lengthField self;
     payloadStart := payloadStart self; payloadLength := len; goID := goID self;
     goCBRef := goCBRef self; dataSetRef := dataSetRef self; confRev := confRev self;
     stNum := stNum self; sqNum := sqNum self; timeAllowedToLive := timeAllowedToLive self;
     needsCommission := needsCommission self; simulation := simulation self;
     timestamp := timestamp self |}.

Definition set_strings (self : GoosePublisher) (id cb ds : option (list Z)) : GoosePublisher :=
  {| buffer := buffer self; ethernetSocket := ethernetSocket self; lengthField := lengthField self;
     payloadStart := payloadStart self; payloadLength := payloadLength self; goID := id;
     goCBRef := cb; dataSetRef := ds; confRev := confRev self;
     stNum := stNum self; sqNum := sqNum self; timeAllowedToLive := timeAllowedToLive self;
     needsCommission := needsCommission self; simulation := simulation self;
     timestamp := timestamp self |}.

Definition set_options (self : GoosePublisher) (rev ttl : Z) (ndsCom sim : bool) : GoosePublisher :=
  {| buffer := buffer self; ethernetSocket := ethernetSocket self; lengthField := lengthField self;
     payloadStart := payloadStart self; payloadLength := payloadLength self; goID := goID self;
     goCBRef := goCBRef self; dataSetRef := dataSetRef self; confRev := rev;
     stNum := stNum self; sqNum := sqNum self; timeAllowedToLive := ttl;
     needsCommission := ndsCom; simulation := sim; timestamp := timestamp self |}.

(** [StringUtils_copyString]: [NULL] stays [NULL], a failed allocation gives it. *)
Definition copyString (str : option (list Z)) : alloc (option (list Z)) :=
  match str with
  | None => m_ret None
  | Some s => ok <~ malloc; m_ret (if (ok : bool) then Some s else None)
  end.

Definition setGoID (self : GoosePublisher) (id : option (list Z)) : alloc GoosePublisher :=
  id <~ copyString id; m_ret (set_strings self id (goCBRef self) (dataSetRef self)).
Definition setGoCbRef (self : GoosePublisher) (ref : option (list Z)) : alloc GoosePublisher :=
  ref <~ copyString ref; m_ret (set_strings self (goID self) ref (dataSetRef self)).
Definition setDataSetRef (self : GoosePublisher) (ref : option (list Z)) : alloc GoosePublisher :=
  ref <~ copyString ref; m_ret (set_strings self (goID self) (goCBRef self) ref).

Definition setConfRev (self : GoosePublisher) (rev : Z) : GoosePublisher :=
  set_options self rev (timeAllowedToLive self) (needsCommission self) (simulation self).
Definition setSimulation (self : GoosePublisher) (sim : bool) : GoosePublisher :=
  set_options self (confRev self) (timeAllowedToLive self) (needsCommission self) sim.
Definition setNeedsCommission (self : GoosePublisher) (ndsCom : bool) : GoosePublisher :=
  set_options self (confRev self) (timeAllowedToLive self) ndsCom (simulation self).
Definition setTimeAllowedToLive (self : GoosePublisher) (ttl : Z) : GoosePublisher :=
  set_options self (confRev self) ttl (needsCommission self) (simulation self).
Definition setStNum (self : GoosePublisher) (st : Z) : GoosePublisher :=
  set_numbers self st (sqNum self).
Definition setSqNum (self : GoosePublisher) (sq : Z) : GoosePublisher :=
  set_numbers self (stNum self) sq.

(** [currentTime]: the result of [Hal_getTimeInMs]. *)
Definition increaseStNum (self : GoosePublisher) (currentTime : Z) : option (GoosePublisher * Z) :=
  t ← timestamp self;
  t ← MmsValue_setUtcTimeMs t currentTime;
  let self := set_timestamp self (Some t) in
  let st := u32 (stNum self + 1) in
  let st := if decide (st = 0) then 1 else st in
  Some (set_numbers self st 0, currentTime).

Definition reset (self : GoosePublisher) : GoosePublisher := set_numbers self 1 0.

(** The defaults of [config/stack_config.h]. *)
Definition default_parameters : CommParameters :=
  {| vlanPriority := 4; vlanId := 0; appId := 0x1000;
     dstAddress := [0x01; 0x0c; 0xcd; 0x01; 0x00; 0x01] |}.

(** [srcAddr] is the address of the interface, [socket] whether
    [Ethernet_createSocket] succeeds.  The result is the buffer, the position of the
    length field and the start of the payload. *)
Definition prepareGooseBuffer (srcAddr : list Z) (socket : bool) (parameters : option CommParameters)
    (useVlanTags : bool) : alloc (option (list Z * Z * Z)) :=
  let p := default default_parameters parameters in
  if socket then
    ok <~ malloc;
    if (ok : bool) then
      m_lift (
        let buffer := fresh GOOSE_MAX_MESSAGE_SIZE in
        '(buffer, _) ← copy_bytes 6 (dstAddress p) 0 buffer 0;
        '(buffer, _) ← copy_bytes 6 srcAddr 0 buffer 6;
        '(buffer, bufPos) ←
          (if useVlanTags then
             let tci1 := u8 (u8 (Z.shiftl (vlanPriority p) 5) + vlanId p / 256) in
             let tci2 := vlanId p mod 256 in
             puts buffer 12 [0x81; 0x00; tci1; tci2]
           else Some (buffer, 12));
        '(buffer, bufPos) ← puts buffer bufPos [0x88; 0xB8; appId p / 256; appId p mod 256];
        let lengthField := bufPos in
        '(buffer, bufPos) ← puts buffer bufPos [0x00; 0x08; 0x00; 0x00; 0x00; 0x00];
        Some (Some (buffer, lengthField, bufPos)))
    else m_ret None
  else m_ret None.

(** [currentTime]: the result of [Hal_getTimeInMs]. *)
Definition createEx (srcAddr : list Z) (socket : bool) (currentTime : Z)
    (parameters : option CommParameters) (useVlanTag : bool) : alloc (option GoosePublisher) :=
  ok <~ malloc;
  if (ok : bool) then
    prepared <~ prepareGooseBuffer srcAddr socket parameters useVlanTag;
    match prepared with
    | Some (buf, lengthField, payloadStart) =>
        t <~ newUtcTimeByMsTime currentTime;
        m_ret (Some (reset
          {| buffer := buf; ethernetSocket := true; lengthField := lengthField;
             payloadStart := payloadStart; payloadLength := 0; goID := None; goCBRef := None;
             dataSetRef := None; confRev := 0; stNum := 0; sqNum := 0; timeAllowedToLive := 0;
             needsCommission := false; simulation := false;
             timestamp := match t with Some (MmsUtcTime t) => Some t | _ => None end |}))
    | None => m_ret None
    end
  else m_ret None.

Definition create (srcAddr : list Z) (socket : bool) (currentTime : Z)
    (parameters : option CommParameters) : alloc (option GoosePublisher) :=
  createEx srcAddr socket currentTime parameters true.

(** [dataSetSize += MmsValue_encodeMmsData(dataSetEntry, NULL, 0, false)]; missing
    entries are skipped. *)
Fixpoint dataSetSize (dataSetValues : list (option MmsValue)) : option Z :=
  match dataSetValues with
  | [] => Some 0
  | e :: es =>
      n ← match e with
          | Some v => '(_, n) ← encodeMmsData v [] 0 false; Some n
          | None => Some 0
          end;
      m ← dataSetSize es; Some (n + m)
  end.

Fixpoint encodeEntries (dataSetValues : list (option MmsValue)) (buffer : list Z) (bufPos : Z)
    : option (list Z * Z) :=
  match dataSetValues with
  | [] => Some (buffer, bufPos)
  | e :: es =>
      '(buffer, bufPos) ← match e with
                          | Some v => encodeMmsData v buffer bufPos true
                          | None => Some (buffer, bufPos)
                          end;
      encodeEntries es buffer bufPos
  end.

(** Step 1 of [createGoosePayload]: the length of the PDU and of the data set. *)
Definition goosePduLength (self : GoosePublisher) (dataSetValues : list (option MmsValue))
    : option (Z * Z) :=
  let str := BerEncoder.determineEncodedStringSize in
  let id := match goID self with Some id => Some id | None => goCBRef self end in
  ttl ← BerEncoder.UInt32determineEncodedSize (timeAllowedToLive self);
  sq ← BerEncoder.UInt32determineEncodedSize (sqNum self);
  st ← BerEncoder.UInt32determineEncodedSize (stNum self);
  rev ← BerEncoder.UInt32determineEncodedSize (confRev self);
  n ← BerEncoder.UInt32determineEncodedSize (u32 (zlen dataSetValues));
  size ← dataSetSize dataSetValues;
  let size := u32 size in
  let allDataSize := u32 (size + BerEncoder.determineLengthSize size + 1) in
  Some (u32 (str (goCBRef self) + (2 + ttl) + str (dataSetRef self) + str id + (2 + 8) + (2 + sq)
             + (2 + st) + (2 + rev) + 6 + (2 + n) + allDataSize), size).

(** The buffer starts at the payload.  [-1]: the message does not fit. *)
Definition createGoosePayload (self : GoosePublisher) (dataSetValues : list (option MmsValue))
    (buffer : list Z) (maxPayloadSize : Z) : option (list Z * Z) :=
  '(pduLength, size) ← goosePduLength self dataSetValues;
  let payloadSize := u32 (1 + BerEncoder.determineLengthSize pduLength + pduLength) in
  if decide (payloadSize > maxPayloadSize) then Some (buffer, -1)
  else
    let id := match goID self with Some id => Some id | None => goCBRef self end in
    t ← timestamp self;
    '(buffer, bufPos) ← BerEncoder.encodeTL 0x61 pduLength buffer 0;
    '(buffer, bufPos) ← BerEncoder.encodeStringWithTag 0x80 (goCBRef self) buffer bufPos;
    '(buffer, bufPos) ← BerEncoder.encodeUInt32WithTL 0x81 (timeAllowedToLive self) buffer bufPos;
    '(buffer, bufPos) ← BerEncoder.encodeStringWithTag 0x82 (dataSetRef self) buffer bufPos;
    '(buffer, bufPos) ← BerEncoder.encodeStringWithTag 0x83 id buffer bufPos;
    '(buffer, bufPos) ← BerEncoder.encodeOctetString 0x84 t 8 buffer bufPos;
    '(buffer, bufPos) ← BerEncoder.encodeUInt32WithTL 0x85 (stNum self) buffer bufPos;
    '(buffer, bufPos) ← BerEncoder.encodeUInt32WithTL 0x86 (sqNum self) buffer bufPos;
    '(buffer, bufPos) ← BerEncoder.encodeBoolean 0x87 (simulation self) buffer bufPos;
    '(buffer, bufPos) ← BerEncoder.encodeUInt32WithTL 0x88 (confRev self) buffer bufPos;
    '(buffer, bufPos) ← BerEncoder.encodeBoolean 0x89 (needsCommission self) buffer bufPos;
    '(buffer, bufPos) ← BerEncoder.encodeUInt32WithTL 0x8a (u32 (zlen dataSetValues)) buffer bufPos;
    '(buffer, bufPos) ← BerEncoder.encodeTL 0xab size buffer bufPos;
    encodeEntries dataSetValues buffer bufPos.

(** The frame handed to [Ethernet_sendPacket], if any, and the return value. *)
Definition publish (self : GoosePublisher) (dataSet : list (option MmsValue))
    : option (GoosePublisher * option (list Z) * Z) :=
  let start := Z.to_nat (payloadStart self) in
  let maxPayloadSize := GOOSE_MAX_MESSAGE_SIZE - payloadStart self in
  '(payload, len) ← createGoosePayload self dataSet (drop start (buffer self)) maxPayloadSize;
  let self := set_payload self (take start (buffer self) ++ payload) len in
  if decide (len = -1) then Some (self, None, -1)
  else
    let sq := u32 (sqNum self + 1) in
    let self := set_numbers self (stNum self) (if decide (sq = 0) then 1 else sq) in
    if ethernetSocket self then
      let gooseLength := len + 8 in
      buf ← (buffer self).[lengthField self]:= (gooseLength / 256);
      buf ← buf.[lengthField self + 1]:= (Z.land gooseLength 0xff);
      let self := set_payload self buf len in
      frame ← rds (Z.to_nat (payloadStart self + len)) buf 0;
      Some (self, Some frame, 0)
    else Some (self, None, 0).

(** The octets dumped, at most [bufSize]. *)
Definition publishAndDump (self : GoosePublisher) (dataSet : list (option MmsValue)) (bufSize : Z)
    : option (GoosePublisher * option (list Z) * Z * option (list Z)) :=
  '(self, frame, rc) ← publish self dataSet;
  if decide (rc = 0) then
    let copied := payloadStart self + payloadLength self in
    let copied := if decide (bufSize < copied) then bufSize else copied in
    msg ← rds (Z.to_nat copied) (buffer self) 0;
    Some (self, frame, rc, Some msg)
  else Some (self, frame, rc, None).

(** ** What is to be sent *)

Definition enc_uint32_tlv (tag v : Z) : list Z :=
  tag :: zlen (BerEncoder.enc_uint32 v) :: BerEncoder.enc_uint32 v.

Definition goose_id (self : GoosePublisher) : list Z :=
  default [] (match goID self with Some id => Some id | None => goCBRef self end).

(** The fields of the PDU in front of the data set. *)
Definition goose_head (self : GoosePublisher) (t : list Z) (n : Z) : list Z :=
  BerEncoder.enc_tlv 0x80 (default [] (goCBRef self)) ++
  enc_uint32_tlv 0x81 (timeAllowedToLive self) ++
  BerEncoder.enc_tlv 0x82 (default [] (dataSetRef self)) ++
  BerEncoder.enc_tlv 0x83 (goose_id self) ++
  BerEncoder.enc_tlv 0x84 t ++
  enc_uint32_tlv 0x85 (stNum self) ++
  enc_uint32_tlv 0x86 (sqNum self) ++
  [0x87; 1; if simulation self then 1 else 0] ++
  enc_uint32_tlv 0x88 (confRev self) ++
  [0x89; 1; if needsCommission self then 1 else 0] ++
  enc_uint32_tlv 0x8a n.

Definition goose_fields (self : GoosePublisher) (t : list Z) (dataSet : list (option MmsValue)) : list Z :=
  goose_head self t (zlen dataSet) ++
  BerEncoder.enc_tlv 0xab (enc_components enc_data dataSet).

Definition goose_pdu (self : GoosePublisher) (t : list Z) (dataSet : list (option MmsValue)) : list Z :=
  BerEncoder.enc_tlv 0x61 (goose_fields self t dataSet).

(** The frame in front of its length field. *)
Definition frame_header (self : GoosePublisher) : list Z :=
  take (Z.to_nat (lengthField self)) (buffer self).

Definition goose_frame (self : GoosePublisher) (t : list Z) (dataSet : list (option MmsValue)) : list Z :=
  frame_header self ++ be_bytes 2 (zlen (goose_pdu self t dataSet) + 8) ++ [0; 0; 0; 0] ++
  goose_pdu self t dataSet.

(** What [createEx] establishes and every operation keeps. *)
Record publisher_wf (self : GoosePublisher) : Prop := {
  pub_buffer : is_bytes (buffer self);
  pub_size : zlen (buffer self) = GOOSE_MAX_MESSAGE_SIZE;
  pub_start : payloadStart self = lengthField self + 6;
  pub_field : 16 <= lengthField self <= 20;
  pub_reserved : bytes_at (buffer self) (lengthField self + 2) [0; 0; 0; 0];
  pub_time : forall t, timestamp self = Some t -> wf_buf t 8;
  pub_id : is_bytes (default [] (goID self));
  pub_cb : is_bytes (default [] (goCBRef self));
  pub_ds : is_bytes (default [] (dataSetRef self));
  pub_st : is_u32 (stNum self);
  pub_sq : is_u32 (sqNum self);
  pub_socket : ethernetSocket self = true;
  pub_ttl : is_u32 (timeAllowedToLive self);
  pub_rev : is_u32 (confRev self);
}.

Definition entries_ok (dataSet : list (option MmsValue)) : Prop :=
  Forall (fun e => match e with Some v => wf v /\ regular v | None => True end) dataSet.

(** ** The payload *)

Lemma dataSetSize_spec dataSet : entries_ok dataSet ->
  dataSetSize dataSet = Some (zlen (enc_components enc_data dataSet)).
Proof.
  induction 1 as [|[v|] es Hv _ IH]; [done| |]; cbn [dataSetSize enc_components].
  - destruct Hv as [Hw Hr]. destruct (encode_spec v Hw Hr [] 0) as [-> _].
    cbn [mbind option_bind]. rewrite IH. cbn [mbind option_bind]. rewrite length_app. f_equal. lia.
  - cbn [mbind option_bind]. rewrite IH. done.
Qed.

Lemma encodeEntries_spec dataSet b p : entries_ok dataSet -> is_bytes b -> 0 <= p ->
  p + zlen (enc_components enc_data dataSet) <= zlen b ->
  encodeEntries dataSet b p = puts b p (enc_components enc_data dataSet).
Proof.
  intros H. revert b p. induction H as [|[v|] es Hv _ IH]; intros b p Hb Hp Hl; [done| |];
    cbn [encodeEntries enc_components] in *.
  - destruct Hv as [Hw Hr]. rewrite length_app in Hl.
    destruct (encode_spec v Hw Hr b p) as [_ ->]; [|done|done|lia].
    rewrite puts_app. destruct (puts b p (enc_data v)) as [[b' p']|] eqn:E; cbn [mbind option_bind]; [|done].
    pose proof (puts_bytes _ _ _ _ _ Hb E). apply puts_inv in E as (-> & L & _). apply IH; try done; lia.
  - by apply IH.
Qed.

(** Consecutive writes are one write. *)
Lemma puts_chain {A} b p xs ys (f : list Z -> Z -> option (list Z * Z)) (k : list Z -> Z -> option A) :
  (forall b p, f b p = puts b p ys) ->
  ('(b, p) ← puts b p xs; '(b, p) ← f b p; k b p) = '(b, p) ← puts b p (xs ++ ys); k b p.
Proof.
  intros Hf. rewrite puts_app. destruct (puts b p xs) as [[b' p']|]; [|done].
  cbn [mbind option_bind]. by rewrite Hf.
Qed.

Lemma enc_tlv_size tag xs : is_u32 (zlen xs) ->
  zlen xs + 2 <= zlen (BerEncoder.enc_tlv tag xs) <= zlen xs + 5 /\
  (zlen xs <> 65535 ->
   zlen (BerEncoder.enc_tlv tag xs) = 1 + BerEncoder.determineLengthSize (zlen xs) + zlen xs) /\
  1 <= BerEncoder.determineLengthSize (zlen xs) <= 4.
Proof.
  intros H. unfold BerEncoder.enc_tlv. pose proof (BerEncoder.enc_length_size _ H) as E.
  rewrite length_cons, length_app. unfold BerEncoder.determineLengthSize in *.
  repeat case_decide; lia.
Qed.

Lemma determineEncodedStringSize_spec s :
  BerEncoder.determineEncodedStringSize s =
    1 + BerEncoder.determineLengthSize (zlen (default [] s)) + zlen (default [] s).
Proof. by destruct s. Qed.

Lemma enc_uint32_tlv_length tag v :
  zlen (enc_uint32_tlv tag v) = 2 + zlen (BerEncoder.enc_uint32 v).
Proof. unfold enc_uint32_tlv. cbn [length]. lia. Qed.

Lemma goose_fields_length self t dataSet :
  zlen (goose_fields self t dataSet) =
    zlen (BerEncoder.enc_tlv 0x80 (default [] (goCBRef self))) +
    (2 + zlen (BerEncoder.enc_uint32 (timeAllowedToLive self))) +
    zlen (BerEncoder.enc_tlv 0x82 (default [] (dataSetRef self))) +
    zlen (BerEncoder.enc_tlv 0x83 (goose_id self)) +
    zlen (BerEncoder.enc_tlv 0x84 t) +
    (2 + zlen (BerEncoder.enc_uint32 (sqNum self))) + (2 + zlen (BerEncoder.enc_uint32 (stNum self))) +
    (2 + zlen (BerEncoder.enc_uint32 (confRev self))) + 6 +
    (2 + zlen (BerEncoder.enc_uint32 (zlen dataSet))) +
    zlen (BerEncoder.enc_tlv 0xab (enc_components enc_data dataSet)).
Proof.
  unfold goose_fields, goose_head. rewrite !length_app, !Nat2Z.inj_add, !enc_uint32_tlv_length.
  simpl. lia.
Qed.

(** The announced length is the length of what is written, unless both are far too
    large for a frame. *)
Lemma goosePduLength_spec self t dataSet :
  entries_ok dataSet -> zlen t = 8 -> zlen (goose_fields self t dataSet) < 4294967200 ->
  is_u32 (zlen dataSet) ->
  exists pl, goosePduLength self dataSet = Some (pl, zlen (enc_components enc_data dataSet)) /\
    is_u32 pl /\
    (pl = zlen (goose_fields self t dataSet) \/
     65535 <= pl < 4294967290 /\ 65535 <= zlen (goose_fields self t dataSet)).
Proof.
  intros He Ht Hl Hn. unfold goosePduLength. rewrite !BerEncoder.UInt32determineEncodedSize_spec.
  cbn [mbind option_bind]. rewrite dataSetSize_spec by done. cbn [mbind option_bind].
  rewrite !determineEncodedStringSize_spec. fold (goose_id self).
  rewrite (u32_id (zlen dataSet)) by done.
  rewrite goose_fields_length in *.
  pose proof (BerEncoder.enc_uint32_size (timeAllowedToLive self)).
  pose proof (BerEncoder.enc_uint32_size (sqNum self)).
  pose proof (BerEncoder.enc_uint32_size (stNum self)).
  pose proof (BerEncoder.enc_uint32_size (confRev self)).
  pose proof (BerEncoder.enc_uint32_size (zlen dataSet)).
  set (cs := enc_components enc_data dataSet) in *.
  set (id := goose_id self) in *. set (cb := default [] (goCBRef self)) in *.
  set (ds := default [] (dataSetRef self)) in *.
  assert (Hpart : forall tag xs, zlen xs < zlen (BerEncoder.enc_tlv tag xs)).
  { intros tag xs. unfold BerEncoder.enc_tlv. rewrite length_cons, length_app. lia. }
  pose proof (Hpart 0x80 cb). pose proof (Hpart 0x82 ds). pose proof (Hpart 0x83 id).
  pose proof (Hpart 0xab cs). clear Hpart.
  rewrite (u32_id (zlen cs)) by (unfold_int; lia).
  destruct (enc_tlv_size 0x80 cb) as (? & ? & ?); [unfold_int; lia|].
  destruct (enc_tlv_size 0x82 ds) as (? & ? & ?); [unfold_int; lia|].
  destruct (enc_tlv_size 0x83 id) as (? & ? & ?); [unfold_int; lia|].
  destruct (enc_tlv_size 0xab cs) as (? & ? & ?); [unfold_int; lia|].
  assert (E : zlen (BerEncoder.enc_tlv 0x84 t) = 10).
  { unfold BerEncoder.enc_tlv. rewrite Ht, length_cons, length_app. change (length (BerEncoder.enc_length 8)) with 1%nat. lia. }
  rewrite E in *.
  rewrite !(u32_id (zlen cs + _ + 1)) by (unfold_int; lia).
  rewrite u32_id by (unfold_int; lia).
  eexists. split; [reflexivity|]. split; [unfold_int; lia|]. lia.
Qed.

Lemma encodeUInt32WithTL_chain tag v b p :
  BerEncoder.encodeUInt32WithTL tag v b p = puts b p (enc_uint32_tlv tag v).
Proof. apply BerEncoder.encodeUInt32WithTL_puts. Qed.

Lemma encodeString_chain tag s :
  zlen (default [] s) < 2147483648 ->
  forall b p, BerEncoder.encodeStringWithTag tag s b p = puts b p (BerEncoder.enc_tlv tag (default [] s)).
Proof. intros H b p. apply BerEncoder.encodeStringWithTag_puts. by destruct s. Qed.

Lemma goose_write_head self t dataSet b (k : list Z -> Z -> option (list Z * Z)) :
  zlen t = 8 -> zlen (goose_fields self t dataSet) < 65535 -> is_u32 (zlen dataSet) ->
  let pl := zlen (goose_fields self t dataSet) in
  let n := zlen (enc_components enc_data dataSet) in
  let id := match goID self with Some id => Some id | None => goCBRef self end in
  ('(b, p) ← BerEncoder.encodeTL 0x61 pl b 0;
   '(b, p) ← BerEncoder.encodeStringWithTag 0x80 (goCBRef self) b p;
   '(b, p) ← BerEncoder.encodeUInt32WithTL 0x81 (timeAllowedToLive self) b p;
   '(b, p) ← BerEncoder.encodeStringWithTag 0x82 (dataSetRef self) b p;
   '(b, p) ← BerEncoder.encodeStringWithTag 0x83 id b p;
   '(b, p) ← BerEncoder.encodeOctetString 0x84 t 8 b p;
   '(b, p) ← BerEncoder.encodeUInt32WithTL 0x85 (stNum self) b p;
   '(b, p) ← BerEncoder.encodeUInt32WithTL 0x86 (sqNum self) b p;
   '(b, p) ← BerEncoder.encodeBoolean 0x87 (simulation self) b p;
   '(b, p) ← BerEncoder.encodeUInt32WithTL 0x88 (confRev self) b p;
   '(b, p) ← BerEncoder.encodeBoolean 0x89 (needsCommission self) b p;
   '(b, p) ← BerEncoder.encodeUInt32WithTL 0x8a (u32 (zlen dataSet)) b p;
   '(b, p) ← BerEncoder.encodeTL 0xab n b p;
   k b p) =
  '(b, p) ← puts b 0 (0x61 :: BerEncoder.enc_length pl ++
     (goose_head self t (zlen dataSet) ++ 0xab :: BerEncoder.enc_length n));
  k b p.
Proof.
  intros Ht Hl Hn pl n id. rewrite (u32_id (zlen dataSet)) by done.
  pose proof (goose_fields_length self t dataSet) as Hf. subst pl n.
  assert (Hpart : forall tag xs, zlen xs < zlen (BerEncoder.enc_tlv tag xs)).
  { intros tag xs. unfold BerEncoder.enc_tlv. rewrite length_cons, length_app. lia. }
  pose proof (Hpart 0x80 (default [] (goCBRef self))). pose proof (Hpart 0x82 (default [] (dataSetRef self))).
  pose proof (Hpart 0x83 (goose_id self)). pose proof (Hpart 0xab (enc_components enc_data dataSet)).
  clear Hpart.
  rewrite BerEncoder.encodeTL_puts by (unfold_int; lia).
  rewrite (puts_chain _ _ _ _ _ _ (encodeString_chain 0x80 (goCBRef self) ltac:(lia))).
  rewrite (puts_chain _ _ _ _ _ _ (encodeUInt32WithTL_chain 0x81 (timeAllowedToLive self))).
  rewrite (puts_chain _ _ _ _ _ _ (encodeString_chain 0x82 (dataSetRef self) ltac:(lia))).
  rewrite (puts_chain _ _ _ _ _ _ (encodeString_chain 0x83 id ltac:(unfold goose_id in *; subst id; lia))).
  erewrite (puts_chain _ _ _ (BerEncoder.enc_tlv 0x84 t) _ _);
    [|intros; rewrite <- Ht; apply BerEncoder.encodeOctetString_puts; lia].
  rewrite (puts_chain _ _ _ _ _ _ (encodeUInt32WithTL_chain 0x85 (stNum self))).
  rewrite (puts_chain _ _ _ _ _ _ (encodeUInt32WithTL_chain 0x86 (sqNum self))).
  rewrite (puts_chain _ _ _ _ _ _ (BerEncoder.encodeBoolean_puts 0x87 (simulation self))).
  rewrite (puts_chain _ _ _ _ _ _ (encodeUInt32WithTL_chain 0x88 (confRev self))).
  rewrite (puts_chain _ _ _ _ _ _ (BerEncoder.encodeBoolean_puts 0x89 (needsCommission self))).
  rewrite (puts_chain _ _ _ _ _ _ (encodeUInt32WithTL_chain 0x8a (zlen dataSet))).
  rewrite (puts_chain _ _ _ _ _ _ (fun b p => BerEncoder.encodeTL_puts 0xab (zlen (enc_components enc_data dataSet)) b p ltac:(unfold_int; lia))).
  unfold goose_head. rewrite <- !app_assoc. cbn [app]. reflexivity.
Qed.

Lemma createGoosePayload_spec self t dataSet b maxPayloadSize :
  entries_ok dataSet -> timestamp self = Some t -> zlen t = 8 ->
  zlen (goose_fields self t dataSet) < 4294967200 -> is_u32 (zlen dataSet) ->
  is_bytes b -> zlen b = maxPayloadSize -> maxPayloadSize < 65535 ->
  createGoosePayload self dataSet b maxPayloadSize =
    if decide (zlen (goose_pdu self t dataSet) > maxPayloadSize) then Some (b, -1)
    else puts b 0 (goose_pdu self t dataSet).
Proof.
  intros He Hts Ht Hl Hn Hb Hbl Hmax. unfold createGoosePayload.
  destruct (goosePduLength_spec self t dataSet He Ht Hl Hn) as (pl & -> & Hpl & Hor).
  cbn [mbind option_bind].
  assert (Hsz : zlen (goose_pdu self t dataSet) = 1 + zlen (BerEncoder.enc_length (zlen (goose_fields self t dataSet))) + zlen (goose_fields self t dataSet)).
  { unfold goose_pdu, BerEncoder.enc_tlv. rewrite length_cons, length_app. lia. }
  pose proof (BerEncoder.enc_length_size (zlen (goose_fields self t dataSet)) ltac:(unfold_int; lia)) as Hel.
  pose proof (determineLengthSize_pos pl).
  assert (BerEncoder.determineLengthSize pl <= 4).
  { unfold BerEncoder.determineLengthSize. repeat case_decide; lia. }
  rewrite u32_id by (unfold_int; lia).
  destruct (decide (1 + BerEncoder.determineLengthSize pl + pl > maxPayloadSize)) as [Hbig|Hfit].
  { rewrite decide_True; [done|]. destruct Hor as [->|]; [case_decide|]; lia. }
  destruct Hor as [->|]; [|lia]. rewrite decide_False in Hel by lia.
  rewrite decide_False by lia. rewrite Hts. cbn [mbind option_bind].
  rewrite goose_write_head by (done || lia).
  set (xs := 0x61 :: _). set (cs := enc_components enc_data dataSet) in *.
  assert (Hw : goose_pdu self t dataSet = xs ++ cs).
  { unfold goose_pdu, xs, BerEncoder.enc_tlv at 1. unfold goose_fields at 2, BerEncoder.enc_tlv.
    cbn [app]. fold cs. by rewrite <- !app_assoc. }
  assert (Hwl : zlen (goose_pdu self t dataSet) = zlen xs + zlen cs).
  { rewrite Hw, length_app. lia. }
  rewrite Hw, puts_app.
  destruct (puts b 0 xs) as [[b1 p1]|] eqn:E; [|done]. cbn [mbind option_bind].
  pose proof (puts_bytes _ _ _ _ _ Hb E) as Hb1. apply puts_inv in E as (-> & L & _).
  apply encodeEntries_spec; try done; fold cs; lia.
Qed.

(** ** Publishing *)

Lemma enc_uint32_tlv_bytes tag v : is_u8 tag -> is_bytes (enc_uint32_tlv tag v).
Proof.
  intros. pose proof (BerEncoder.enc_uint32_size v).
  apply Forall_cons_2; [done|]. apply Forall_cons_2; [unfold_int; lia|].
  apply BerEncoder.enc_uint32_bytes.
Qed.

Lemma dataSet_bytes dataSet : entries_ok dataSet -> is_bytes (enc_components enc_data dataSet).
Proof.
  induction 1 as [|[v|] es Hv _ IH]; cbn [enc_components]; [constructor| |done].
  apply Forall_app. destruct Hv as [Hw Hr]. split; [by apply enc_data_bytes|done].
Qed.

Lemma goose_pdu_bytes self t dataSet :
  publisher_wf self -> wf_buf t 8 -> entries_ok dataSet -> is_bytes (goose_pdu self t dataSet).
Proof.
  intros W [Ht _] He. apply BerEncoder.enc_tlv_bytes; [unfold_int; lia|]. unfold goose_fields, goose_head.
  assert (is_bytes (goose_id self)).
  { unfold goose_id. pose proof (pub_id _ W). pose proof (pub_cb _ W). by destruct (goID self). }
  repeat (apply Forall_app; split);
    first [apply BerEncoder.enc_tlv_bytes; [unfold_int; lia|] | apply enc_uint32_tlv_bytes; unfold_int; lia
          | repeat constructor; unfold_int; try case_match; lia ];
    try done; first [apply (pub_cb _ W) | apply (pub_ds _ W) | by apply dataSet_bytes].
Qed.

Lemma wr_app xs y ys v :
  wr (xs ++ y :: ys) (zlen xs) v = Some (xs ++ u8 v :: ys).
Proof.
  unfold wr. rewrite decide_True by (rewrite length_app; cbn [length]; lia).
  rewrite Nat2Z.id. by rewrite insert_app_r_alt, Nat.sub_diag by lia.
Qed.

Lemma buffer_split self : publisher_wf self ->
  exists x y, take (Z.to_nat (payloadStart self)) (buffer self) = frame_header self ++ [x; y; 0; 0; 0; 0].
Proof.
  intros W. destruct W as [_ Hs Hp Hf Hr _ _ _ _ _ _ _ _ _]. unfold frame_header. rewrite Hp.
  unfold GOOSE_MAX_MESSAGE_SIZE in Hs.
  replace (Z.to_nat (lengthField self + 6)) with (Z.to_nat (lengthField self) + 6)%nat by lia.
  rewrite <- take_take_drop. set (d := drop _ _).
  assert (Hd : forall i, 0 <= i -> rd d i = rd (buffer self) (lengthField self + i)).
  { intros i Hi. unfold rd, d. rewrite !decide_True, lookup_drop by lia. f_equal. lia. }
  assert (Hl : (6 <= length d)%nat) by (unfold d; rewrite length_drop; lia).
  clearbody d.
  destruct d as [|x [|y [|a [|b [|c [|e d]]]]]]; simpl in Hl; try lia.
  exists x, y. cbn [take bytes_at] in *. destruct Hr as (H2 & H3 & H4 & H5 & _).
  rewrite <- (Hd 2) in H2 by lia.
  replace (lengthField self + 2 + 1 + 1 + 1) with (lengthField self + 5) in H5 by lia.
  replace (lengthField self + 2 + 1 + 1) with (lengthField self + 4) in H4 by lia.
  replace (lengthField self + 2 + 1) with (lengthField self + 3) in H3 by lia.
  rewrite <- Hd in H3, H4, H5 by lia.
  change (Some a = Some 0) in H2. change (Some b = Some 0) in H3.
  change (Some c = Some 0) in H4. change (Some e = Some 0) in H5. by simplify_eq.
Qed.

Lemma frame_header_length self : publisher_wf self -> zlen (frame_header self) = lengthField self.
Proof.
  intros W. pose proof (pub_size _ W). pose proof (pub_field _ W). unfold GOOSE_MAX_MESSAGE_SIZE in *.
  unfold frame_header. rewrite length_take. lia.
Qed.

Definition next_sqNum (sq : Z) : Z := if decide (sq = 4294967295) then 1 else sq + 1.

Lemma next_sqNum_spec sq : is_u32 sq ->
  (if decide (u32 (sq + 1) = 0) then 1 else u32 (sq + 1)) = next_sqNum sq.
Proof. intros. unfold next_sqNum. repeat case_decide; zlia. Qed.

Definition same_settings (self self' : GoosePublisher) : Prop :=
  ethernetSocket self' = ethernetSocket self /\ goID self' = goID self /\ goCBRef self' = goCBRef self /\
  dataSetRef self' = dataSetRef self /\ confRev self' = confRev self /\
  timeAllowedToLive self' = timeAllowedToLive self /\ needsCommission self' = needsCommission self /\
  simulation self' = simulation self /\ timestamp self' = timestamp self /\
  frame_header self' = frame_header self.

Lemma publisher_wf_payload self xs len :
  publisher_wf self -> is_bytes xs -> zlen xs = GOOSE_MAX_MESSAGE_SIZE - payloadStart self ->
  let buf := take (Z.to_nat (payloadStart self)) (buffer self) ++ xs in
  publisher_wf (set_payload self buf len) /\ frame_header (set_payload self buf len) = frame_header self.
Proof.
  intros W Hx Hl buf. pose proof W as [Hb Hs Hp Hf Hr Ht Hi Hc Hd Hst Hsq Hso Hto Hre].
  unfold GOOSE_MAX_MESSAGE_SIZE in *.
  assert (Hrd : forall i, i < payloadStart self -> rd buf i = rd (buffer self) i).
  { intros i Hi'. unfold buf. rewrite rd_app_l, rd_take by (rewrite ?length_take; lia). done. }
  split.
  - constructor; try done; cbn [buffer lengthField payloadStart set_payload].
    + apply Forall_app. split; [by apply Forall_take|done].
    + unfold buf. rewrite length_app, length_take. unfold GOOSE_MAX_MESSAGE_SIZE. lia.
    + eapply bytes_at_frame; [exact Hr|]. intros j Hj. apply Hrd. simpl in Hj. lia.
  - unfold frame_header. cbn [buffer lengthField set_payload]. unfold buf.
    rewrite take_app_le by (rewrite length_take; lia). rewrite take_take. f_equal. lia.
Qed.

Lemma publisher_wf_field self x y len :
  publisher_wf self -> exists buf1 buf2,
    wr (buffer self) (lengthField self) x = Some buf1 /\
    wr buf1 (lengthField self + 1) y = Some buf2 /\
    publisher_wf (set_payload self buf2 len) /\
    frame_header (set_payload self buf2 len) = frame_header self /\
    buf2 = frame_header self ++ [u8 x; u8 y; 0; 0; 0; 0] ++ drop (Z.to_nat (payloadStart self)) (buffer self).
Proof.
  intros W. destruct (buffer_split self W) as (a & b & E).
  pose proof (frame_header_length self W) as Hl.
  set (h := frame_header self) in *. set (tl := drop (Z.to_nat (payloadStart self)) (buffer self)).
  assert (EB : buffer self = h ++ a :: b :: [0; 0; 0; 0] ++ tl).
  { rewrite <- (take_drop (Z.to_nat (payloadStart self)) (buffer self)), E. unfold tl.
    by rewrite <- app_assoc. }
  exists (h ++ u8 x :: b :: [0; 0; 0; 0] ++ tl), (h ++ u8 x :: u8 y :: [0; 0; 0; 0] ++ tl).
  rewrite EB, <- Hl. split; [apply wr_app|]. split.
  { replace (h ++ u8 x :: b :: [0; 0; 0; 0] ++ tl) with ((h ++ [u8 x]) ++ b :: [0; 0; 0; 0] ++ tl)
      by (by rewrite <- app_assoc).
    replace (zlen h + 1) with (zlen (h ++ [u8 x])) by (rewrite length_app; simpl; lia).
    rewrite wr_app. by rewrite <- app_assoc. }
  pose proof W as [Hb Hs Hp Hf Hr Ht Hi Hc Hd Hst Hsq Hso Hto Hre]. rewrite EB in Hb, Hs.
  apply Forall_app in Hb as [Hbh Hbt]. inversion Hbt as [|? ? _ Hbt1]; subst.
  inversion Hbt1 as [|? ? _ Hbt2]; subst. rewrite length_app in Hs. cbn [length] in Hs.
  split; [|split].
  - constructor; try done; cbn [buffer lengthField payloadStart set_payload].
    + apply Forall_app. split; [done|]. apply Forall_cons_2; [apply u8_range|].
      by apply Forall_cons_2; [apply u8_range|].
    + rewrite length_app. cbn [length]. lia.
    + rewrite <- Hl. replace (h ++ u8 x :: u8 y :: [0; 0; 0; 0] ++ tl)
        with ((h ++ [u8 x; u8 y]) ++ [0; 0; 0; 0] ++ tl) by (by rewrite <- app_assoc).
      replace (zlen h + 2) with (zlen (h ++ [u8 x; u8 y])) by (rewrite length_app; simpl; lia).
      apply bytes_at_self.
  - unfold frame_header at 1. cbn [buffer lengthField set_payload]. rewrite <- Hl, Nat2Z.id.
    by rewrite take_app_length.
  - done.
Qed.

Lemma frame_read h n pdu tail k :
  k = zlen h + 6 + zlen pdu ->
  rds (Z.to_nat k) (h ++ [u8 (n / 256); u8 (Z.land n 0xff); 0; 0; 0; 0] ++ pdu ++ tail) 0 =
    Some (h ++ be_bytes 2 n ++ [0; 0; 0; 0] ++ pdu).
Proof.
  intros ->. set (frame := h ++ be_bytes 2 n ++ _).
  replace (h ++ _ ++ pdu ++ tail) with (frame ++ tail).
  - replace (Z.to_nat (zlen h + 6 + zlen pdu)) with (length frame).
    + apply rds_at, (bytes_at_self []).
    + unfold frame. rewrite !length_app, be_bytes_length. cbn [length]. lia.
  - unfold frame. rewrite <- !app_assoc. f_equal.
    change (be_bytes 2 n) with [n / 256 mod 256; n mod 256]. cbn [app].
    unfold u8. rewrite (Z.land_ones _ 8) by lia. change (2 ^ 8) with 256. by rewrite Zmod_mod.
Qed.

Lemma publish_spec self t dataSet :
  publisher_wf self -> timestamp self = Some t -> entries_ok dataSet -> is_u32 (zlen dataSet) ->
  zlen (goose_fields self t dataSet) < 4294967200 ->
  let fits := payloadStart self + zlen (goose_pdu self t dataSet) <= GOOSE_MAX_MESSAGE_SIZE in
  exists self',
    publish self dataSet =
      (if decide fits then
         Some (self', Some (goose_frame self t dataSet), 0)
       else Some (self', None, -1)) /\
    publisher_wf self' /\ same_settings self self' /\ stNum self' = stNum self /\
    sqNum self' = if decide fits then next_sqNum (sqNum self) else sqNum self.
Proof.
  intros W Hts He Hn Hl fits. pose proof (pub_time _ W t Hts) as Ht.
  pose proof (pub_size _ W) as Hs. pose proof (pub_start _ W) as Hp. pose proof (pub_field _ W) as Hf.
  pose proof (pub_buffer _ W) as Hb. pose proof (goose_pdu_bytes self t dataSet W Ht He) as Hpdu.
  set (pdu := goose_pdu self t dataSet) in *. set (start := Z.to_nat (payloadStart self)).
  assert (Hsd : zlen (drop start (buffer self)) = GOOSE_MAX_MESSAGE_SIZE - payloadStart self).
  { rewrite length_drop. unfold GOOSE_MAX_MESSAGE_SIZE in *. lia. }
  assert (Hbd : is_bytes (drop start (buffer self))) by (by apply Forall_drop).
  unfold publish. fold start.
  rewrite (createGoosePayload_spec self t) by
    (try done; try apply Ht; unfold GOOSE_MAX_MESSAGE_SIZE in *; lia).
  fold pdu. destruct (decide (zlen pdu > GOOSE_MAX_MESSAGE_SIZE - payloadStart self)) as [Hbig|Hfit].
  { destruct (decide fits) as [Hy|_]; [unfold fits in Hy; lia|]. cbn [mbind option_bind].
    rewrite decide_True by done.
    destruct (publisher_wf_payload self _ (-1) W Hbd Hsd) as [W' Hh].
    eexists. split; [reflexivity|]. unfold same_settings. by split_and!. }
  destruct (decide fits) as [_|Hy]; [|unfold fits in Hy; lia].
  rewrite puts_splice by (done || lia). cbn [mbind option_bind]. rewrite Z.add_0_l.
  change (Z.to_nat 0) with 0%nat. rewrite take_0. cbn [app Nat.add].
  set (rest := pdu ++ drop (length pdu) (drop start (buffer self))).
  destruct (publisher_wf_payload self rest (zlen pdu) W) as [W' Hh].
  { apply Forall_app. split; [done|]. by apply Forall_drop. }
  { unfold rest. rewrite length_app, length_drop. lia. }
  fold start in W', Hh. set (self1 := set_payload self (take start (buffer self) ++ rest) (zlen pdu)) in *.
  rewrite decide_False by lia. rewrite next_sqNum_spec by (cbn; apply (pub_sq _ W)).
  assert (Hsq : is_u32 (next_sqNum (sqNum self))).
  { pose proof (pub_sq _ W). unfold next_sqNum, is_u32 in *. case_decide; lia. }
  set (self2 := set_numbers self1 (stNum self1) (next_sqNum (sqNum self1))).
  assert (W2 : publisher_wf self2).
  { destruct W'. constructor; try done. }
  assert (Hh2 : frame_header self2 = frame_header self) by done.
  rewrite (pub_socket _ W2).
  destruct (publisher_wf_field self2 ((zlen pdu + 8) / 256) (Z.land (zlen pdu + 8) 0xff) (zlen pdu) W2)
    as (b1 & b2 & -> & E2 & W3 & Hh3 & EB). cbn [mbind option_bind]. rewrite E2. cbn [mbind option_bind].
  assert (Hd2 : drop (Z.to_nat (payloadStart self2)) (buffer self2) = rest).
  { cbn [self2 self1 payloadStart buffer set_payload set_numbers]. fold start.
    apply drop_app_length'. rewrite length_take. unfold start, GOOSE_MAX_MESSAGE_SIZE in *. lia. }
  rewrite Hd2, Hh2 in EB.
  assert (Ef : rds (Z.to_nat (payloadStart self + zlen pdu)) b2 0 = Some (goose_frame self t dataSet)).
  { rewrite EB. unfold rest. rewrite frame_read; [done|]. rewrite (frame_header_length self W). lia. }
  change (payloadStart (set_payload self2 b2 (zlen pdu))) with (payloadStart self).
  rewrite Ef. cbn [mbind option_bind]. eexists. split; [reflexivity|].
  unfold same_settings. split_and!; try done. by rewrite Hh3.
Qed.

(** ** Creation *)

Definition parameters_ok (p : CommParameters) : Prop :=
  is_u8 (vlanPriority p) /\ is_u16 (vlanId p) /\ is_u16 (appId p) /\ wf_buf (dstAddress p) 6.

(** The Ethernet header of a frame up to its length field. *)
Definition ethernet_header (srcAddr : list Z) (p : CommParameters) (useVlanTags : bool) : list Z :=
  dstAddress p ++ srcAddr ++
  (if useVlanTags then
     [0x81; 0x00; u8 (vlanPriority p * 32 + vlanId p / 256); vlanId p mod 256]
   else []) ++
  [0x88; 0xB8] ++ be_bytes 2 (appId p).

(** The writes of [prepareGooseBuffer] are one write. *)
Lemma prepare_writes f srcAddr p (useVlanTags : bool) buf q :
  zlen srcAddr = 6 ->
  puts f 0 ((dstAddress p ++ srcAddr ++
    (if useVlanTags then
       [0x81; 0x00; u8 (vlanPriority p * 32 + vlanId p / 256); vlanId p mod 256]
     else []) ++
    [0x88; 0xB8] ++ [appId p / 256; appId p mod 256]) ++ [0; 8; 0; 0; 0; 0]) = Some (buf, q) ->
  zlen (dstAddress p) = 6 ->
  ('(buffer, _) ← copy_bytes 6 (dstAddress p) 0 f 0;
   '(buffer, _) ← copy_bytes 6 srcAddr 0 buffer 6;
   '(buffer, bufPos) ←
     (if useVlanTags then
        let tci1 := u8 (u8 (Z.shiftl (vlanPriority p) 5) + vlanId p / 256) in
        let tci2 := vlanId p mod 256 in
        puts buffer 12 [0x81; 0x00; tci1; tci2]
      else Some (buffer, 12));
   '(buffer, bufPos) ← puts buffer bufPos [0x88; 0xB8; appId p / 256; appId p mod 256];
   let lengthField := bufPos in
   '(buffer, bufPos) ← puts buffer bufPos [0x00; 0x08; 0x00; 0x00; 0x00; 0x00];
   Some (Some (buffer, lengthField, bufPos))) = Some (Some (buf, q - 6, q)).
Proof.
  intros Hs E Hd. rewrite <- !app_assoc in E. change 6%nat with (Z.to_nat 6).
  rewrite (copy_at_Z (dstAddress p) 0 (dstAddress p) f 0 6) by (try lia; apply bytes_at_0).
  rewrite puts_app in E. destruct (puts f 0 (dstAddress p)) as [[b1 p1]|] eqn:E1; [|done]. cbn [mbind option_bind] in *.
  apply puts_inv in E1 as (-> & _). rewrite Hd in E. change (0 + 6) with 6 in E.
  rewrite (copy_at_Z srcAddr 0 srcAddr b1 6 6) by (try lia; apply bytes_at_0).
  rewrite puts_app in E. destruct (puts b1 6 srcAddr) as [[b2 p2]|] eqn:E2; [|done].
  cbn [mbind option_bind] in *. apply puts_inv in E2 as (-> & _). rewrite Hs in E.
  change (6 + 6) with 12 in E. rewrite puts_app in E.
  assert (Et : u8 (u8 (Z.shiftl (vlanPriority p) 5) + vlanId p / 256) = u8 (vlanPriority p * 32 + vlanId p / 256)).
  { unfold u8. rewrite Z.shiftl_mul_pow2, Zplus_mod_idemp_l by lia. done. }
  cbv zeta. rewrite Et.
  replace (if useVlanTags then puts b2 12 _ else Some (b2, 12)) with
    (puts b2 12 (if useVlanTags then [129; 0; u8 (vlanPriority p * 32 + vlanId p / 256); vlanId p mod 256] else []))
    by (by destruct useVlanTags).
  destruct (puts b2 12 _) as [[b3 p3]|]; [|done]. cbn [mbind option_bind] in *.
  change ([0x88; 0xB8] ++ [appId p / 256; appId p mod 256] ++ [0; 8; 0; 0; 0; 0])
    with ([0x88; 0xB8; appId p / 256; appId p mod 256] ++ [0; 8; 0; 0; 0; 0]) in E.
  rewrite puts_app in E. destruct (puts b3 p3 _) as [[b4 p4]|]; [|done]. cbn [mbind option_bind] in *.
  rewrite E. cbn [mbind option_bind]. apply puts_inv in E as (-> & _). cbn [length]. do 3 f_equal. f_equal. lia.
Qed.

Lemma prepare_spec srcAddr p useVlanTags :
  parameters_ok p -> wf_buf srcAddr 6 ->
  runs (prepareGooseBuffer srcAddr true (Some p) useVlanTags) (fun ok r =>
    if ok then
      let lf := if useVlanTags then 20 else 16 in
      exists buf, r = Some (buf, lf, lf + 6) /\ is_bytes buf /\ zlen buf = GOOSE_MAX_MESSAGE_SIZE /\
        take (Z.to_nat lf) buf = ethernet_header srcAddr p useVlanTags /\
        bytes_at buf lf [0; 8; 0; 0; 0; 0]
    else r = None).
Proof.
  intros (Hpr & Hv & Ha & [Hd Hdl]) [Hs Hsl]. unfold prepareGooseBuffer. cbn [default].
  apply runs_bind, runs_malloc. intros []; [|by apply runs_ret].
  set (lf := if useVlanTags then 20 else 16).
  set (xs := ethernet_header srcAddr p useVlanTags ++ [0x00; 0x08; 0x00; 0x00; 0x00; 0x00]).
  assert (Hbe : be_bytes 2 (appId p) = [appId p / 256; appId p mod 256]).
  { change (be_bytes 2 (appId p)) with [appId p / 256 mod 256; appId p mod 256]. do 2 f_equal. zlia. }
  assert (Hx : is_bytes xs).
  { unfold xs, ethernet_header. repeat (apply Forall_app; split); try done; try solve_bytes;
      [|apply be_bytes_bytes]. destruct useVlanTags; [|constructor].
    repeat (apply Forall_cons_2; [zlia|]). constructor. }
  assert (Hlf : zlen (ethernet_header srcAddr p useVlanTags) = lf).
  { unfold ethernet_header, lf. rewrite !length_app, be_bytes_length. destruct useVlanTags; cbn [length]; lia. }
  assert (Hxl : zlen xs = lf + 6) by (unfold xs; rewrite length_app; cbn [length]; lia).
  pose proof (fresh_length GOOSE_MAX_MESSAGE_SIZE) as Hfl.
  pose proof (is_bytes_fresh GOOSE_MAX_MESSAGE_SIZE) as Hfb. set (f := fresh GOOSE_MAX_MESSAGE_SIZE) in *.
  unfold GOOSE_MAX_MESSAGE_SIZE in Hfl.
  assert (Hlf2 : lf = 20 \/ lf = 16) by (unfold lf; destruct useVlanTags; auto).
  pose proof (puts_splice f 0 xs Hx ltac:(lia) ltac:(lia)) as E.
  rewrite Z.add_0_l, Hxl in E. change (Z.to_nat 0) with 0%nat in E. rewrite take_0 in E.
  cbn [app Nat.add] in E. eapply runs_lift.
  - refine (prepare_writes f srcAddr p useVlanTags _ (lf + 6) Hsl _ Hdl). rewrite <- Hbe. exact E.
  - replace (lf + 6 - 6) with lf by lia. eexists. split; [reflexivity|]. split_and!.
    + apply Forall_app. split; [done|]. by apply Forall_drop.
    + rewrite length_app, length_drop. unfold GOOSE_MAX_MESSAGE_SIZE. lia.
    + unfold xs. rewrite <- app_assoc. rewrite take_app_le by lia. apply take_ge. lia.
    + unfold xs. rewrite <- Hlf, <- app_assoc. apply bytes_at_self.
Qed.

Lemma setUtcTimeMs_wf t now : wf_buf t 8 -> 0 <= now ->
  exists t', MmsValue_setUtcTimeMs t now = Some t' /\ wf_buf t' 8.
Proof.
  intros Ht Hn. unfold MmsValue_setUtcTimeMs. rewrite setUtcTimeMs_spec by (done || zlia).
  eexists. split; [reflexivity|]. split; [|reflexivity].
  apply Forall_app. split; [apply be_bytes_bytes|].
  assert (Hu : forall z, is_u8 (Z.land z 0xff)).
  { intros z. change 0xff with (Z.ones 8). rewrite Z.land_ones by lia. change (2 ^ 8) with 256. zlia. }
  repeat (apply Forall_cons_2; [first [apply Hu | zlia]|]). constructor.
Qed.

Lemma createEx_spec srcAddr now p useVlanTag :
  parameters_ok p -> wf_buf srcAddr 6 -> 0 <= now ->
  runs (createEx srcAddr true now (Some p) useVlanTag) (fun ok r =>
    match r with
    | Some self =>
        publisher_wf self /\ frame_header self = ethernet_header srcAddr p useVlanTag /\
        stNum self = 1 /\ sqNum self = 0 /\
        (ok = true -> exists t, timestamp self = Some t)
    | None => ok = false
    end).
Proof.
  intros Hp Hs Hn. unfold createEx. apply runs_bind, runs_malloc. intros []; [|by apply runs_ret].
  apply runs_bind. eapply runs_mono; [by apply prepare_spec|].
  intros [] r; cbn beta iota; [|by intros ->; apply runs_ret].
  intros (buf & -> & Hb & Hl & Hh & Hat). cbv zeta in *. set (lf := if useVlanTag then 20 else 16) in *.
  apply runs_bind. unfold newUtcTimeByMsTime. apply runs_bind, runs_malloc.
  assert (W : forall t, (forall t', t = Some t' -> wf_buf t' 8) ->
    publisher_wf (reset
      {| buffer := buf; ethernetSocket := true; lengthField := lf; payloadStart := lf + 6;
         payloadLength := 0; goID := None; goCBRef := None; dataSetRef := None; confRev := 0;
         stNum := 0; sqNum := 0; timeAllowedToLive := 0; needsCommission := false;
         simulation := false; timestamp := t |})).
  { intros t Ht. constructor; try done; try (constructor; done); try (cbn; unfold_int; lia).
    - cbn [lengthField reset set_numbers]. unfold lf. destruct useVlanTag; lia.
    - cbn [lengthField reset set_numbers buffer]. cbn [bytes_at] in *.
      replace (lf + 2) with (lf + 1 + 1) by lia. tauto. }
  assert (Hz : wf_buf (replicate 8 0) 8) by (split; [by apply Forall_replicate; unfold_int; lia|done]).
  destruct (setUtcTimeMs_wf _ now Hz Hn) as (t & Et & Ht).
  intros []; cbn beta iota.
  - apply runs_bind. eapply runs_lift; [exact Et|]. apply runs_ret, runs_ret. cbn beta iota.
    split_and!; try done; [|by eexists]. apply W. by intros ? [= <-].
  - apply runs_ret, runs_ret. cbn beta iota. split_and!; try done. by apply W.
Qed.

(** ** The life of a publisher

    What an application does with a publisher: [sends] are the state and sequence
    numbers of the frame it sends, if any. *)
Inductive step : GoosePublisher -> option (Z * Z) -> GoosePublisher -> Prop :=
| step_publish self dataSet self' frame rc :
    timestamp self <> None -> entries_ok dataSet -> is_u32 (zlen dataSet) ->
    (forall t, timestamp self = Some t -> zlen (goose_fields self t dataSet) < 4294967200) ->
    publish self dataSet = Some (self', frame, rc) ->
    step self ((fun _ => (stNum self, sqNum self)) <$> frame) self'
| step_increaseStNum self now self' r :
    0 <= now -> increaseStNum self now = Some (self', r) -> step self None self'
| step_settings self rev ttl ndsCom sim :
    is_u32 rev -> is_u32 ttl -> step self None (set_options self rev ttl ndsCom sim).

(** Everything that can be done to a publisher. *)
Inductive operation : GoosePublisher -> GoosePublisher -> Prop :=
| op_step self sends self' : step self sends self' -> operation self self'
| op_reset self : operation self (reset self)
| op_setStNum self st : is_u32 st -> operation self (setStNum self st)
| op_setSqNum self sq : is_u32 sq -> operation self (setSqNum self sq)
| op_setGoID self s mem self' mem' :
    is_bytes (default [] s) -> setGoID self s mem = Some (self', mem') -> operation self self'
| op_setGoCbRef self s mem self' mem' :
    is_bytes (default [] s) -> setGoCbRef self s mem = Some (self', mem') -> operation self self'
| op_setDataSetRef self s mem self' mem' :
    is_bytes (default [] s) -> setDataSetRef self s mem = Some (self', mem') -> operation self self'.

(** The publishers an application can hold. *)
Inductive reachable (srcAddr : list Z) (p : CommParameters) (useVlanTag : bool)
    : GoosePublisher -> Prop :=
| reachable_create now mem self mem' :
    0 <= now -> createEx srcAddr true now (Some p) useVlanTag mem = Some (Some self, mem') ->
    reachable srcAddr p useVlanTag self
| reachable_operation self self' :
    reachable srcAddr p useVlanTag self -> operation self self' ->
    reachable srcAddr p useVlanTag self'.

Lemma copyString_ret s mem r mem' : copyString s mem = Some (r, mem') -> r = s \/ r = None.
Proof. destruct s; destruct mem as [|[] ?]; cbn; intros [= <- <-]; auto. Qed.

Lemma increaseStNum_spec self now self' r :
  publisher_wf self -> 0 <= now -> increaseStNum self now = Some (self', r) ->
  publisher_wf self' /\ frame_header self' = frame_header self /\ sqNum self' = 0 /\ r = now /\
  stNum self' = next_sqNum (stNum self).
Proof.
  intros W Hn. unfold increaseStNum. destruct (timestamp self) as [t|] eqn:Et; [|done].
  cbn [mbind option_bind]. destruct (setUtcTimeMs_wf t now (pub_time _ W t Et) Hn) as (t' & -> & Ht').
  cbn [mbind option_bind]. intros [= <- <-]. cbn [stNum set_numbers set_timestamp].
  rewrite next_sqNum_spec by apply (pub_st _ W). pose proof (pub_st _ W).
  split_and!; try done. destruct W. constructor; try done; cbn.
  - by intros ? [= <-].
  - unfold next_sqNum, is_u32 in *. case_decide; lia.
Qed.

Lemma step_wf self sends self' : publisher_wf self -> step self sends self' ->
  publisher_wf self' /\ frame_header self' = frame_header self.
Proof.
  intros W H. inversion H as [? ? ? frame rc Ht He Hn Hl Hp|? now ? r Hn Hi|]; subst.
  - destruct (timestamp self) as [t|] eqn:Et; [|done].
    destruct (publish_spec self t dataSet W Et He Hn (Hl t eq_refl)) as (s & E & W' & Hs & _).
    destruct Hs as (_ & _ & _ & _ & _ & _ & _ & _ & _ & Hh).
    rewrite E in Hp. case_decide; by injection Hp as -> _ _.
  - by apply increaseStNum_spec in Hi as (? & ? & _).
  - split; [|done]. destruct W. by constructor.
Qed.

Lemma operation_wf self self' : publisher_wf self -> operation self self' ->
  publisher_wf self' /\ frame_header self' = frame_header self.
Proof.
  intros W H.
  assert (Hstr : forall id cb ds, is_bytes (default [] id) -> is_bytes (default [] cb) ->
    is_bytes (default [] ds) ->
    publisher_wf (set_strings self id cb ds) /\ frame_header (set_strings self id cb ds) = frame_header self).
  { intros. split; [|done]. destruct W. by constructor. }
  pose proof (pub_id _ W). pose proof (pub_cb _ W). pose proof (pub_ds _ W).
  assert (Hc : forall (s : option (list Z)) mem r mem', is_bytes (default [] s) ->
    copyString s mem = Some (r, mem') -> is_bytes (default [] r)).
  { intros s mem r mem' Hs Hr. apply copyString_ret in Hr as [->| ->]; [done|constructor]. }
  assert (Hnum : forall st sq, is_u32 st -> is_u32 sq -> publisher_wf (set_numbers self st sq) /\
    frame_header (set_numbers self st sq) = frame_header self).
  { intros. split; [|done]. destruct W. by constructor. }
  pose proof (pub_st _ W). pose proof (pub_sq _ W).
  inversion H as [? ? ? Hs| | | |? s mem ? mem' Hb E|? s mem ? mem' Hb E|? s mem ? mem' Hb E]; subst;
    [by eapply step_wf| by apply Hnum; unfold_int; lia | by apply Hnum | by apply Hnum | ..];
    unfold setGoID, setGoCbRef, setDataSetRef, m_bind in E;
    destruct (copyString s mem) as [[r mem1]|] eqn:Er; try done;
    cbn [mbind option_bind m_ret] in E; injection E as <- <-; apply Hstr; eauto.
Qed.

Lemma reachable_wf srcAddr p useVlanTag self :
  parameters_ok p -> wf_buf srcAddr 6 -> reachable srcAddr p useVlanTag self ->
  publisher_wf self /\ frame_header self = ethernet_header srcAddr p useVlanTag.
Proof.
  intros Hp Hs. induction 1 as [now mem self mem' Hn E|self self' _ [W Hh] Ho].
  - destruct (createEx_spec srcAddr now p useVlanTag Hp Hs Hn mem) as (r & m & u & E' & _ & Hr).
    rewrite E in E'. injection E' as <- <-. tauto.
  - rewrite <- Hh. by apply operation_wf.
Qed.

(** C29: whatever was done to a publisher since its creation, publishing a data set
    sends the Ethernet header of its parameters, the length field and exactly the PDU
    with the fields of the state and the data set, and advances the sequence number,
    which skips 0 when it wraps; nothing outside the 1518 octets of the buffer is
    written.  A message that does not fit is refused with -1 and nothing is sent. *)
Theorem published_frame srcAddr p useVlanTag self t dataSet :
  parameters_ok p -> wf_buf srcAddr 6 -> reachable srcAddr p useVlanTag self ->
  timestamp self = Some t -> entries_ok dataSet -> is_u32 (zlen dataSet) ->
  zlen (goose_fields self t dataSet) < 4294967200 ->
  let pdu := goose_pdu self t dataSet in
  let frame := ethernet_header srcAddr p useVlanTag ++ be_bytes 2 (zlen pdu + 8) ++ [0; 0; 0; 0] ++ pdu in
  exists self',
    publish self dataSet =
      (if decide (zlen frame <= GOOSE_MAX_MESSAGE_SIZE) then Some (self', Some frame, 0)
       else Some (self', None, -1)) /\
    stNum self' = stNum self /\
    sqNum self' = if decide (zlen frame <= GOOSE_MAX_MESSAGE_SIZE) then next_sqNum (sqNum self)
                  else sqNum self.
Proof.
  intros Hp Hs Hr Et He Hn Hl pdu frame.
  destruct (reachable_wf _ _ _ _ Hp Hs Hr) as [W Hh].
  destruct (publish_spec self t dataSet W Et He Hn Hl) as (self' & E & _ & _ & Hst & Hsq).
  assert (Hf : zlen frame = payloadStart self + zlen pdu).
  { unfold frame. rewrite <- Hh, !length_app, be_bytes_length, (pub_start _ W).
    pose proof (frame_header_length self W). cbn [length]. lia. }
  exists self'. rewrite Hf. unfold goose_frame in E. by rewrite Hh in E.
Qed.

Definition sample_parameters : CommParameters :=
  {| vlanPriority := 4; vlanId := 5; appId := 1000; dstAddress := [1; 12; 205; 1; 0; 1] |}.
Definition sample_address : list Z := [2; 0; 0; 0; 0; 7].
Lemma sample_parameters_ok : parameters_ok sample_parameters.
Proof.
  unfold parameters_ok, wf_buf. split_and!; try (by vm_compute); try (unfold_int; cbn; lia). solve_bytes.
Qed.
Lemma sample_address_ok : wf_buf sample_address 6.
Proof. split; [solve_bytes|done]. Qed.

Definition sample_created : option GoosePublisher :=
  '(self, _) ← createEx sample_address true 1700000000123 (Some sample_parameters) true [];
  self.
Definition sample_publisher : GoosePublisher :=
  default {| buffer := []; ethernetSocket := false; lengthField := 0; payloadStart := 0;
             payloadLength := 0; goID := None; goCBRef := None; dataSetRef := None; confRev := 0;
             stNum := 0; sqNum := 0; timeAllowedToLive := 0; needsCommission := false;
             simulation := false; timestamp := None |} sample_created.
Definition sample_dataSet : list (option MmsValue) := [Some (MmsBoolean true); None; Some (MmsBoolean false)].

Lemma published_frame_witness :
  exists self', publish sample_publisher sample_dataSet =
    Some (self', Some (ethernet_header sample_address sample_parameters true ++
      be_bytes 2 (zlen (goose_pdu sample_publisher (default [] (timestamp sample_publisher)) sample_dataSet) + 8)
      ++ [0; 0; 0; 0] ++ goose_pdu sample_publisher (default [] (timestamp sample_publisher)) sample_dataSet), 0).
Proof.
  destruct (published_frame sample_address sample_parameters true sample_publisher
    (default [] (timestamp sample_publisher)) sample_dataSet) as (self' & E & _).
  - exact sample_parameters_ok.
  - exact sample_address_ok.
  - apply (reachable_create _ _ _ 1700000000123 [] _ []); [lia|]. vm_compute. reflexivity.
  - by vm_compute.
  - repeat constructor.
  - by vm_compute.
  - by vm_compute.
  - exists self'. exact E.
Defined.

(** [n] steps that send frames with the numbers of the list. *)
Inductive run : GoosePublisher -> nat -> list (Z * Z) -> GoosePublisher -> Prop :=
| run_nil self : run self 0 [] self
| run_step self sends self1 n sent self2 :
    step self sends self1 -> run self1 n sent self2 ->
    run self (S n) (option_list sends ++ sent) self2.

(** The order of two frames: a new state, or the next message of the same state. *)
Definition before (a b : Z * Z) : Prop := a.1 < b.1 \/ a.1 = b.1 /\ a.2 < b.2.

Lemma step_numbers self sends self' :
  publisher_wf self -> step self sends self' -> stNum self < 4294967295 -> sqNum self < 4294967295 ->
  stNum self <= stNum self' <= stNum self + 1 /\ 0 <= sqNum self' <= sqNum self + 1 /\
  match sends with
  | Some a => a = (stNum self, sqNum self) /\ before a (stNum self', sqNum self')
  | None => before (stNum self, sqNum self) (stNum self', sqNum self') \/
            stNum self' = stNum self /\ sqNum self' = sqNum self
  end.
Proof.
  intros W H Hst Hsq. pose proof (pub_sq _ W) as H0. unfold_int.
  inversion H as [? ? ? frame rc Ht He Hn Hl Hp|? now ? r Hn Hi|]; subst.
  - destruct (timestamp self) as [t|] eqn:Et; [|done].
    destruct (publish_spec self t dataSet W Et He Hn (Hl t eq_refl)) as (s & E & _ & _ & Es & Eq).
    rewrite E in Hp. unfold next_sqNum, before in *. repeat case_decide; injection Hp as -> <- _; cbn; split_and!; (reflexivity || lia).
  - apply increaseStNum_spec in Hi as (_ & _ & Eq & _ & Es); [|done..].
    unfold next_sqNum, before in *. repeat case_decide; cbn; lia.
  - unfold before. cbn. lia.
Qed.


Definition publish_state (self : GoosePublisher) : GoosePublisher :=
  match publish self sample_dataSet with Some (self', _, _) => self' | None => self end.
Definition sample_published : GoosePublisher := publish_state sample_publisher.
Definition sample_changed : GoosePublisher :=
  match increaseStNum sample_published 1700000000200 with Some (self', _) => self' | None => sample_published end.


End GoosePublisher.
