(* ===== verification/GooseSubscriber.v ===== *)
(** * The GOOSE subscriber

    [src/goose/goose_subscriber.c] and [src/goose/goose_receiver_internal.h]: what an
    application registers with a GOOSE receiver, and what the receiver keeps of the last
    message.  Strings are C strings in their arrays; the monotonic clock is an
    argument. *)

From S2P Require Import Prelude Alloc MmsValue.

Module GooseSubscriber.
Import Alloc MmsValue.
#[local] Open Scope alloc_scope.

Inductive GooseParseError :=
  | GOOSE_PARSE_ERROR_NO_ERROR
  | GOOSE_PARSE_ERROR_UNKNOWN_TAG
  | GOOSE_PARSE_ERROR_TAGDECODE
  | GOOSE_PARSE_ERROR_SUBLEVEL
  | GOOSE_PARSE_ERROR_OVERFLOW
  | GOOSE_PARSE_ERROR_UNDERFLOW
  | GOOSE_PARSE_ERROR_TYPE_MISMATCH
  | GOOSE_PARSE_ERROR_LENGTH_MISMATCH
  | GOOSE_PARSE_ERROR_INVALID_PADDING.

#[export] Instance GooseParseError_eq_dec : EqDecision GooseParseError.
Proof. solve_decision. Defined.

(** [timestamp] holds the octets of the UTC time, [None] when its allocation failed;
    [listener] is the listener with its parameter. *)
Record GooseSubscriber := {
  goCBRef : list Z;
  datSet : list Z;
  goId : list Z;
  goCBRefLen : Z;
  timeAllowedToLive : Z;
  stNum : Z;
  sqNum : Z;
  confRev : Z;
  timestamp : option (list Z);
  simulation : bool;
  ndsCom : bool;
  invalidityTime : Z;
  stateValid : bool;
  parseError : GooseParseError;
  srcMac : list Z;
  dstMac : list Z;
  appId : Z;
  dataSetValues : option MmsValue;
  dataSetValuesSelfAllocated : bool;
  dstMacSet : bool;
  isObserver : bool;
  vlanSet : bool;
  vlanId : Z;
  vlanPrio : Z;
  listener : option (Z * Z);
}.

(** Assignments to a group of members. *)
Definition with_strings (self : GooseSubscriber) (cb ds id : list Z) : GooseSubscriber :=
  {| goCBRef := cb; datSet := ds; goId := id; goCBRefLen := goCBRefLen self;
     timeAllowedToLive := timeAllowedToLive self; stNum := stNum self; sqNum := sqNum self;
     confRev := confRev self; timestamp := timestamp self; simulation := simulation self;
     ndsCom := ndsCom self; invalidityTime := invalidityTime self; stateValid := stateValid self;
     parseError := parseError self; srcMac := srcMac self; dstMac := dstMac self;
     appId := appId self; dataSetValues := dataSetValues self;
     dataSetValuesSelfAllocated := dataSetValuesSelfAllocated self; dstMacSet := dstMacSet self;
     isObserver := isObserver self; vlanSet := vlanSet self; vlanId := vlanId self;
     vlanPrio := vlanPrio self; listener := listener self |}.

Definition with_address (self : GooseSubscriber) (src dst : list Z) (dstSet : bool) (app : Z)
    (vSet : bool) (vId vPrio : Z) : GooseSubscriber :=
  {| goCBRef := goCBRef self; datSet := datSet self; goId := goId self;
     goCBRefLen := goCBRefLen self; timeAllowedToLive := timeAllowedToLive self;
     stNum := stNum self; sqNum := sqNum self; confRev := confRev self;
     timestamp := timestamp self; simulation := simulation self; ndsCom := ndsCom self;
     invalidityTime := invalidityTime self; stateValid := stateValid self;
     parseError := parseError self; srcMac := src; dstMac := dst; appId := app;
     dataSetValues := dataSetValues self;
     dataSetValuesSelfAllocated := dataSetValuesSelfAllocated self; dstMacSet := dstSet;
     isObserver := isObserver self; vlanSet := vSet; vlanId := vId; vlanPrio := vPrio;
     listener := listener self |}.

Definition with_application (self : GooseSubscriber) (observer : bool) (l : option (Z * Z))
    : GooseSubscriber :=
  {| goCBRef := goCBRef self; datSet := datSet self; goId := goId self;
     goCBRefLen := goCBRefLen self; timeAllowedToLive := timeAllowedToLive self;
     stNum := stNum self; sqNum := sqNum self; confRev := confRev self;
     timestamp := timestamp self; simulation := simulation self; ndsCom := ndsCom self;
     invalidityTime := invalidityTime self; stateValid := stateValid self;
     parseError := parseError self; srcMac := srcMac self; dstMac := dstMac self;
     appId := appId self; dataSetValues := dataSetValues self;
     dataSetValuesSelfAllocated := dataSetValuesSelfAllocated self; dstMacSet := dstMacSet self;
     isObserver := observer; vlanSet := vlanSet self; vlanId := vlanId self;
     vlanPrio := vlanPrio self; listener := l |}.

Definition with_header (self : GooseSubscriber) (ttl rev : Z) (nds sim : bool)
    (t : option (list Z)) : GooseSubscriber :=
  {| goCBRef := goCBRef self; datSet := datSet self; goId := goId self;
     goCBRefLen := goCBRefLen self; timeAllowedToLive := ttl; stNum := stNum self;
     sqNum := sqNum self; confRev := rev; timestamp := t; simulation := sim; ndsCom := nds;
     invalidityTime := invalidityTime self; stateValid := stateValid self;
     parseError := parseError self; srcMac := srcMac self; dstMac := dstMac self;
     appId := appId self; dataSetValues := dataSetValues self;
     dataSetValuesSelfAllocated := dataSetValuesSelfAllocated self; dstMacSet := dstMacSet self;
     isObserver := isObserver self; vlanSet := vlanSet self; vlanId := vlanId self;
     vlanPrio := vlanPrio self; listener := listener self |}.

Definition with_data (self : GooseSubscriber) (ds : option MmsValue) (own : bool)
    (pe : GooseParseError) : GooseSubscriber :=
  {| goCBRef := goCBRef self; datSet := datSet self; goId := goId self;
     goCBRefLen := goCBRefLen self; timeAllowedToLive := timeAllowedToLive self;
     stNum := stNum self; sqNum := sqNum self; confRev := confRev self;
     timestamp := timestamp self; simulation := simulation self; ndsCom := ndsCom self;
     invalidityTime := invalidityTime self; stateValid := stateValid self; parseError := pe;
     srcMac := srcMac self; dstMac := dstMac self; appId := appId self; dataSetValues := ds;
     dataSetValuesSelfAllocated := own; dstMacSet := dstMacSet self;
     isObserver := isObserver self; vlanSet := vlanSet self; vlanId := vlanId self;
     vlanPrio := vlanPrio self; listener := listener self |}.

Definition with_state (self : GooseSubscriber) (valid : bool) (st sq time : Z) : GooseSubscriber :=
  {| goCBRef := goCBRef self; datSet := datSet self; goId := goId self;
     goCBRefLen := goCBRefLen self; timeAllowedToLive := timeAllowedToLive self;
     stNum := st; sqNum := sq; confRev := confRev self; timestamp := timestamp self;
     simulation := simulation self; ndsCom := ndsCom self; invalidityTime := time;
     stateValid := valid; parseError := parseError self; srcMac := srcMac self;
     dstMac := dstMac self; appId := appId self; dataSetValues := dataSetValues self;
     dataSetValuesSelfAllocated := dataSetValuesSelfAllocated self; dstMacSet := dstMacSet self;
     isObserver := isObserver self; vlanSet := vlanSet self; vlanId := vlanId self;
     vlanPrio := vlanPrio self; listener := listener self |}.

(** [goCbRef] is a C string. *)
Definition create (goCbRef : list Z) (values : option MmsValue) : alloc (option GooseSubscriber) :=
  ok <~ malloc;
  if (ok : bool) then
    cb <~ m_lift (copyStringMax (replicate 130 0) 130 goCbRef);
    len <~ m_lift (strlen goCbRef);
    t <~ newUtcTime 0;
    m_ret (Some
      {| goCBRef := cb; datSet := replicate 130 0; goId := replicate 130 0; goCBRefLen := s32 len;
         timeAllowedToLive := 0; stNum := 0; sqNum := 0; confRev := 0;
         timestamp := match t with Some (MmsUtcTime t) => Some t | _ => None end;
         simulation := false; ndsCom := false; invalidityTime := 0; stateValid := false;
         parseError := GOOSE_PARSE_ERROR_NO_ERROR; srcMac := replicate 6 0;
         dstMac := replicate 6 0xFF; appId := -1; dataSetValues := values;
         dataSetValuesSelfAllocated := match values with Some _ => false | None => true end;
         dstMacSet := false; isObserver := false; vlanSet := false; vlanId := 0; vlanPrio := 0;
         listener := None |})
  else m_ret None.

(** [now]: the result of [Hal_getMonotonicTimeInMs]. *)
Definition isValid (self : GooseSubscriber) (now : Z) : bool :=
  if decide (stateValid self = false) then false
  else if decide (now > invalidityTime self) then false
  else true.

Definition getParseError (self : GooseSubscriber) : GooseParseError := parseError self.

Definition setDstMac (self : GooseSubscriber) (mac : list Z) : option GooseSubscriber :=
  '(mac, _) ← copy_bytes 6 mac 0 (dstMac self) 0;
  Some (with_address self (srcMac self) mac true (appId self) (vlanSet self) (vlanId self)
          (vlanPrio self)).

Definition setAppId (self : GooseSubscriber) (app : Z) : GooseSubscriber :=
  with_address self (srcMac self) (dstMac self) (dstMacSet self) app (vlanSet self) (vlanId self)
    (vlanPrio self).

Definition setListener (self : GooseSubscriber) (l : option (Z * Z)) : GooseSubscriber :=
  with_application self (isObserver self) l.

Definition setObserver (self : GooseSubscriber) : GooseSubscriber :=
  with_application self true (listener self).

Definition getAppId (self : GooseSubscriber) : Z := appId self.
Definition getGoId (self : GooseSubscriber) : list Z := goId self.
Definition getGoCbRef (self : GooseSubscriber) : list Z := goCBRef self.
Definition getDataSet (self : GooseSubscriber) : list Z := datSet self.
Definition getSrcMac (self : GooseSubscriber) (buffer : list Z) : option (list Z) :=
  fst <$> copy_bytes 6 (srcMac self) 0 buffer 0.
Definition getDstMac (self : GooseSubscriber) (buffer : list Z) : option (list Z) :=
  fst <$> copy_bytes 6 (dstMac self) 0 buffer 0.
Definition getStNum (self : GooseSubscriber) : Z := stNum self.
Definition getSqNum (self : GooseSubscriber) : Z := sqNum self.
Definition isTest (self : GooseSubscriber) : bool := simulation self.
Definition getConfRev (self : GooseSubscriber) : Z := confRev self.
Definition needsCommission (self : GooseSubscriber) : bool := ndsCom self.
Definition getTimeAllowedToLive (self : GooseSubscriber) : Z := timeAllowedToLive self.
Definition getTimestamp (self : GooseSubscriber) : option Z :=
  t ← timestamp self; getUtcTimeInMs t.
Definition getDataSetValues (self : GooseSubscriber) : option MmsValue := dataSetValues self.
Definition isVlanSet (self : GooseSubscriber) : bool := vlanSet self.
Definition getVlanId (self : GooseSubscriber) : Z := vlanId self.
Definition getVlanPrio (self : GooseSubscriber) : Z := vlanPrio self.

End GooseSubscriber.
