(* ===== verification/GooseData.v ===== *)
(** * The data of a GOOSE message

    The two parsers of [src/goose/goose_receiver.c] for the field [allData]:
    [parseAllData] stores the values in the data set of a subscriber, and
    [parseAllDataUnknownValue] makes a new one.  [buffer + n] is the buffer without its
    first [n] octets. *)

From S2P Require Import Prelude Alloc BerDecoder BerInteger MmsValue MmsData GooseSubscriber.

Module GooseData.
Import Alloc BerInteger MmsValue GooseSubscriber.
#[local] Open Scope alloc_scope.

(** ** Values of a known data set *)

(** Characters and size of the new string. *)
Definition createNewStringFromBufferElement (buffer : list Z) (bufPos elementLength : Z)
    : alloc (option (list Z) * Z) :=
  ok <~ malloc_size (elementLength + 1);
  if (ok : bool) then
    r <~ m_lift (copy_bytes (Z.to_nat elementLength) buffer bufPos (fresh (elementLength + 1)) 0);
    b <~ m_lift ((fst r).[elementLength]:= 0);
    m_ret (Some b, s16 elementLength)
  else m_ret (None, 0).

Definition parsed : Type := GooseParseError * MmsValue.

(** The value with new contents: no error. *)
Definition stored (v : option MmsValue) : alloc parsed :=
  v <~ m_lift v; m_ret (GOOSE_PARSE_ERROR_NO_ERROR, v).

Definition parseBitString (buffer : list Z) (bufPos elementLength : Z) (value : MmsValue)
    : alloc parsed :=
  match value with
  | MmsBitString size buf =>
      if decide (elementLength < 1) then m_ret (GOOSE_PARSE_ERROR_LENGTH_MISMATCH, value)
      else
        padding <~ m_lift (buffer.[bufPos]);
        if decide (padding > 7) then m_ret (GOOSE_PARSE_ERROR_INVALID_PADDING, value)
        else
          let bitStringLength := 8 * (elementLength - 1) - padding in
          if decide (bitStringLength = size) then
            stored ('(buf, _) ← copy_bytes (Z.to_nat (elementLength - 1)) buffer (bufPos + 1) buf 0;
                    Some (MmsBitString size buf))
          else m_ret (GOOSE_PARSE_ERROR_LENGTH_MISMATCH, value)
  | _ => m_ret (GOOSE_PARSE_ERROR_TYPE_MISMATCH, value)
  end.

Definition parseInteger (mk : Asn1PrimitiveValue -> MmsValue) (buffer : list Z)
    (bufPos elementLength : Z) (integer : Asn1PrimitiveValue) : alloc parsed :=
  if decide (elementLength <= maxSize integer) then
    stored ('(oct, _) ← copy_bytes (Z.to_nat elementLength) buffer bufPos (octets integer) 0;
            Some (mk {| size := u8 elementLength; maxSize := maxSize integer; octets := oct |}))
  else m_ret (GOOSE_PARSE_ERROR_LENGTH_MISMATCH, mk integer).

Definition parseFloat (buffer : list Z) (bufPos elementLength : Z) (value : MmsValue)
    : alloc parsed :=
  if decide (elementLength = 9) then
    stored (d ← BerDecoder.decodeDouble buffer bufPos; setDouble value d)
  else if decide (elementLength = 5) then
    stored (f ← BerDecoder.decodeFloat buffer bufPos; setFloat value f)
  else m_ret (GOOSE_PARSE_ERROR_LENGTH_MISMATCH, value).

Definition parseOctetString (buffer : list Z) (bufPos elementLength size maxSize : Z)
    (buf : list Z) : alloc parsed :=
  if decide (elementLength <= Z.abs maxSize) then
    stored ('(buf, _) ← copy_bytes (Z.to_nat elementLength) buffer bufPos buf 0;
            Some (MmsOctetString (u16 elementLength) maxSize buf))
  else
    ok <~ malloc_size elementLength;
    if (ok : bool) then
      stored ('(newBuf, _) ← copy_bytes (Z.to_nat elementLength) buffer bufPos (fresh elementLength) 0;
              Some (MmsOctetString (u16 elementLength) (- elementLength) newBuf))
    else m_ret (GOOSE_PARSE_ERROR_NO_ERROR, MmsOctetString size maxSize buf).

Definition parseVisibleString (buffer : list Z) (bufPos elementLength : Z)
    (buf : option (list Z)) (size : Z) : alloc parsed :=
  match buf with
  | Some b =>
      if decide (size >= elementLength) then
        stored ('(b, _) ← copy_bytes (Z.to_nat elementLength) buffer bufPos b 0;
                b ← b.[elementLength]:= 0;
                Some (MmsVisibleString (Some b) size))
      else
        r <~ createNewStringFromBufferElement buffer bufPos elementLength;
        m_ret (GOOSE_PARSE_ERROR_NO_ERROR, MmsVisibleString (fst r) (snd r))
  | None =>
      r <~ createNewStringFromBufferElement buffer bufPos elementLength;
      m_ret (GOOSE_PARSE_ERROR_NO_ERROR, MmsVisibleString (fst r) (snd r))
  end.

Definition parseUtcTime (buffer : list Z) (bufPos elementLength : Z) (value : MmsValue)
    : alloc parsed :=
  if decide (elementLength = 8) then
    match value with
    | MmsUtcTime t => stored (MmsUtcTime <$> setUtcTimeByBuffer t buffer bufPos)
    | _ => m_ret (GOOSE_PARSE_ERROR_TYPE_MISMATCH, value)
    end
  else m_ret (GOOSE_PARSE_ERROR_LENGTH_MISMATCH, value).

(** The switch over the tag; [parse] is the recursive call. *)
Definition parseElement (parse : list Z -> Z -> MmsValue -> alloc parsed) (tag : Z)
    (buffer : list Z) (bufPos elementLength : Z) (value : MmsValue) : alloc parsed :=
  let mismatch := m_ret (GOOSE_PARSE_ERROR_TYPE_MISMATCH, value) in
  let parseConstructed :=
    r <~ parse (from buffer bufPos) elementLength value;
    m_ret (if decide (fst r <> GOOSE_PARSE_ERROR_NO_ERROR) then GOOSE_PARSE_ERROR_SUBLEVEL
           else GOOSE_PARSE_ERROR_NO_ERROR, snd r) in
  if decide (tag = 0x80) then m_ret (GOOSE_PARSE_ERROR_NO_ERROR, value)
  else if decide (tag = 0xa1) then
    match value with MmsArray _ => parseConstructed | _ => mismatch end
  else if decide (tag = 0xa2) then
    match value with MmsStructure _ => parseConstructed | _ => mismatch end
  else if decide (tag = 0x83) then
    if decide (elementLength < 1) then m_ret (GOOSE_PARSE_ERROR_LENGTH_MISMATCH, value)
    else match value with
         | MmsBoolean _ =>
             stored (b ← BerDecoder.decodeBoolean buffer elementLength bufPos; setBoolean value b)
         | _ => mismatch
         end
  else if decide (tag = 0x84) then parseBitString buffer bufPos elementLength value
  else if decide (tag = 0x85) then
    match value with
    | MmsInteger i => parseInteger MmsInteger buffer bufPos elementLength i
    | _ => mismatch
    end
  else if decide (tag = 0x86) then
    match value with
    | MmsUnsigned i => parseInteger MmsUnsigned buffer bufPos elementLength i
    | _ => mismatch
    end
  else if decide (tag = 0x87) then
    match value with
    | MmsFloat _ _ _ => parseFloat buffer bufPos elementLength value
    | _ => mismatch
    end
  else if decide (tag = 0x89) then
    match value with
    | MmsOctetString size maxSize buf =>
        parseOctetString buffer bufPos elementLength size maxSize buf
    | _ => mismatch
    end
  else if decide (tag = 0x8a) then
    match value with
    | MmsVisibleString buf size => parseVisibleString buffer bufPos elementLength buf size
    | _ => mismatch
    end
  else if decide (tag = 0x8c) then
    match value with
    | MmsBinaryTime size buf =>
        if decide (elementLength = 4 \/ elementLength = 6) then
          stored ('(buf, _) ← copy_bytes (Z.to_nat elementLength) buffer bufPos buf 0;
                  Some (MmsBinaryTime size buf))
        else m_ret (GOOSE_PARSE_ERROR_NO_ERROR, value)
    | _ => mismatch
    end
  else if decide (tag = 0x91) then parseUtcTime buffer bufPos elementLength value
  else m_ret (GOOSE_PARSE_ERROR_UNKNOWN_TAG, value).

(** What follows the loop: missing elements. *)
Definition underflow (elementIndex maxIndex : Z) (pe : GooseParseError) : GooseParseError :=
  if decide (elementIndex <= maxIndex /\ pe = GOOSE_PARSE_ERROR_NO_ERROR)
  then GOOSE_PARSE_ERROR_UNDERFLOW else pe.

(** A call of [parseAllData] is its [loop] from the first element on. *)
Definition parseAllData_with (loop : list Z -> Z -> Z -> Z -> Z -> MmsValue -> alloc parsed)
    (buffer : list Z) (allDataLength : Z) (dataSetValues : MmsValue) : alloc parsed :=
  count <~ m_lift (getArraySize dataSetValues);
  loop buffer allDataLength 0 0 (count - 1) dataSetValues.

(** Every round of the loop takes at least two octets, and a nested call gets fewer
    octets than are left. *)
Fixpoint parseAllData_loop (fuel : nat) (buffer : list Z) (allDataLength bufPos elementIndex maxIndex : Z)
    (dataSetValues : MmsValue) : alloc parsed :=
  match fuel with
  | O => m_lift None
  | S fuel =>
      if decide (bufPos < allDataLength) then
        tag <~ m_lift (buffer.[bufPos]);
        if decide (elementIndex > maxIndex) then m_ret (GOOSE_PARSE_ERROR_OVERFLOW, dataSetValues)
        else
          match getElement dataSetValues elementIndex with
          | None => m_ret (GOOSE_PARSE_ERROR_TYPE_MISMATCH, dataSetValues)
          | Some value =>
              r <~ m_lift (BerDecoder.decodeLength buffer 0 (bufPos + 1) allDataLength);
              let '(bufPos, elementLength) := r in
              if decide (bufPos < 0) then m_ret (GOOSE_PARSE_ERROR_TAGDECODE, dataSetValues)
              else
                p <~ parseElement (parseAllData_with (parseAllData_loop fuel)) tag buffer bufPos
                       elementLength value;
                let dataSetValues := setElement dataSetValues elementIndex (Some (snd p)) in
                if decide (fst p <> GOOSE_PARSE_ERROR_NO_ERROR) then m_ret (fst p, dataSetValues)
                else
                  parseAllData_loop fuel buffer allDataLength (bufPos + elementLength)
                    (elementIndex + 1) maxIndex dataSetValues
          end
      else m_ret (underflow elementIndex maxIndex GOOSE_PARSE_ERROR_NO_ERROR, dataSetValues)
  end.

Definition parseAllData (buffer : list Z) (allDataLength : Z) (dataSetValues : MmsValue)
    : alloc parsed :=
  parseAllData_with (parseAllData_loop (S (Z.to_nat allDataLength))) buffer allDataLength
    dataSetValues.

(** ** Values of an unknown data set *)

Definition GOOSE_PARSE_MAX_DEPTH : Z := 10.

Definition value_tags : list Z :=
  [0x80; 0xa1; 0xa2; 0x83; 0x84; 0x85; 0x86; 0x87; 0x89; 0x8a; 0x8c; 0x91].

(** The first pass: the number of elements, [None] for [exit_with_error]. *)
Fixpoint countElements (fuel : nat) (buffer : list Z) (allDataLength bufPos elementIndex : Z)
    : option (option Z) :=
  match fuel with
  | O => None
  | S fuel =>
      if decide (bufPos < allDataLength) then
        tag ← buffer.[bufPos];
        '(bufPos, elementLength) ← BerDecoder.decodeLength buffer 0 (bufPos + 1) allDataLength;
        if decide (bufPos < 0) then Some None
        else if decide (tag ∈ value_tags) then
          countElements fuel buffer allDataLength (bufPos + elementLength) (elementIndex + 1)
        else Some None
      else Some (Some elementIndex)
  end.

(** One element of the second pass: [None] for [exit_with_error], else the value, which
    is [NULL] when it could not be allocated. *)
Definition exit_with_error : alloc (option (option MmsValue)) := m_ret None.

(** [memcpy] to a new value, which must exist. *)
Definition fill (value : option MmsValue) (f : MmsValue -> option MmsValue)
    : alloc (option (option MmsValue)) :=
  match value with
  | Some v => w <~ m_lift (f v); m_ret (Some (Some w))
  | None => exit_with_error
  end.

Definition newBitStringElement (buffer : list Z) (bufPos elementLength : Z)
    : alloc (option (option MmsValue)) :=
  if decide (elementLength > 1) then
    padding <~ m_lift (buffer.[bufPos]);
    let rawBitLength := (elementLength - 1) * 8 in
    if decide (padding > 7) then exit_with_error
    else
      value <~ newBitString (rawBitLength - padding);
      fill value (fun v => match v with
        | MmsBitString size buf =>
            '(buf, _) ← copy_bytes (Z.to_nat (elementLength - 1)) buffer (bufPos + 1) buf 0;
            Some (MmsBitString size buf)
        | _ => None
        end)
  else exit_with_error.

Definition newIntegerElement (new : Z -> alloc (option MmsValue)) (buffer : list Z)
    (bufPos elementLength : Z) : alloc (option (option MmsValue)) :=
  if decide (elementLength = 0 \/ elementLength > 8) then exit_with_error
  else
    value <~ new (elementLength * 8);
    fill value (fun v => match v with
      | MmsInteger i =>
          '(oct, _) ← copy_bytes (Z.to_nat elementLength) buffer bufPos (octets i) 0;
          Some (MmsInteger {| size := u8 elementLength; maxSize := maxSize i; octets := oct |})
      | MmsUnsigned i =>
          '(oct, _) ← copy_bytes (Z.to_nat elementLength) buffer bufPos (octets i) 0;
          Some (MmsUnsigned {| size := u8 elementLength; maxSize := maxSize i; octets := oct |})
      | _ => None
      end).

Definition newFloatElement (buffer : list Z) (bufPos elementLength : Z)
    : alloc (option (option MmsValue)) :=
  if decide (elementLength = 9) then
    d <~ m_lift (BerDecoder.decodeDouble buffer bufPos); value <~ newDouble d; m_ret (Some value)
  else if decide (elementLength = 5) then
    f <~ m_lift (BerDecoder.decodeFloat buffer bufPos); value <~ newFloat f; m_ret (Some value)
  else exit_with_error.

Definition newOctetStringElement (buffer : list Z) (bufPos elementLength : Z)
    : alloc (option (option MmsValue)) :=
  value <~ newOctetString elementLength elementLength;
  fill value (fun v => match v with
    | MmsOctetString size maxSize buf =>
        '(buf, _) ← copy_bytes (Z.to_nat elementLength) buffer bufPos buf 0;
        Some (MmsOctetString size maxSize buf)
    | _ => None
    end).

Definition newBinaryTimeElement (buffer : list Z) (bufPos elementLength : Z)
    : alloc (option (option MmsValue)) :=
  if decide (elementLength = 4 \/ elementLength = 6) then
    value <~ newBinaryTime (bool_decide (elementLength = 4));
    fill value (fun v => match v with
      | MmsBinaryTime size buf =>
          '(buf, _) ← copy_bytes (Z.to_nat elementLength) buffer bufPos buf 0;
          Some (MmsBinaryTime size buf)
      | _ => None
      end)
  else exit_with_error.

Definition newUtcTimeElement (buffer : list Z) (bufPos elementLength : Z)
    : alloc (option (option MmsValue)) :=
  if decide (elementLength = 8) then
    value <~ newUtcTime 0;
    fill value (fun v => match v with
      | MmsUtcTime t => MmsUtcTime <$> setUtcTimeByBuffer t buffer bufPos
      | _ => None
      end)
  else exit_with_error.

(** The switch of the second pass.  [parse buffer length isStructure] is the recursive
    call, which may set [dataSetValuesSelfAllocated]. *)
Definition newElement (parse : list Z -> Z -> bool -> bool -> alloc (option MmsValue * bool))
    (tag : Z) (buffer : list Z) (bufPos elementLength : Z) (selfAllocated : bool)
    : alloc (option (option MmsValue) * bool) :=
  let constructed isStructure :=
    r <~ parse (from buffer bufPos) elementLength isStructure selfAllocated;
    m_ret (match fst r with Some v => Some (Some v) | None => None end, snd r) in
  let leaf m := r <~ m; m_ret (r, selfAllocated) in
  if decide (tag = 0xa1) then constructed false
  else if decide (tag = 0xa2) then constructed true
  else if decide (tag = 0x83) then
    leaf (if decide (elementLength > 0) then
            b <~ m_lift (BerDecoder.decodeBoolean buffer elementLength bufPos);
            value <~ newBoolean b; m_ret (Some value)
          else exit_with_error)
  else if decide (tag = 0x84) then leaf (newBitStringElement buffer bufPos elementLength)
  else if decide (tag = 0x85) then leaf (newIntegerElement newInteger buffer bufPos elementLength)
  else if decide (tag = 0x86) then leaf (newIntegerElement newUnsigned buffer bufPos elementLength)
  else if decide (tag = 0x87) then leaf (newFloatElement buffer bufPos elementLength)
  else if decide (tag = 0x89) then leaf (newOctetStringElement buffer bufPos elementLength)
  else if decide (tag = 0x8a) then
    leaf (value <~ newVisibleStringFromByteArray buffer bufPos elementLength; m_ret (Some value))
  else if decide (tag = 0x8c) then leaf (newBinaryTimeElement buffer bufPos elementLength)
  else if decide (tag = 0x91) then leaf (newUtcTimeElement buffer bufPos elementLength)
  else m_ret (None, selfAllocated).

(** A call of [parseAllDataUnknownValue]; [loop] is its second pass. *)
Definition parseUnknown_with
    (loop : list Z -> Z -> Z -> Z -> Z -> MmsValue -> bool -> alloc (option MmsValue * bool))
    (depth : Z) (buffer : list Z) (allDataLength : Z) (isStructure selfAllocated : bool)
    : alloc (option MmsValue * bool) :=
  if decide (depth > GOOSE_PARSE_MAX_DEPTH) then m_ret (None, selfAllocated)
  else
    count <~ m_lift (countElements (S (Z.to_nat allDataLength)) buffer allDataLength 0 0);
    match count with
    | None => m_ret (None, selfAllocated)
    | Some count =>
        values <~ (if isStructure then createEmptyStructure count else createEmptyArray count);
        match values with
        | None => m_ret (None, selfAllocated)
        | Some values => loop buffer allDataLength 0 0 depth values selfAllocated
        end
    end.

(** The second pass of a call at [depth]. *)
Fixpoint parseUnknown_loop (fuel : nat) (buffer : list Z) (allDataLength bufPos elementIndex depth : Z)
    (dataSetValues : MmsValue) (selfAllocated : bool) : alloc (option MmsValue * bool) :=
  match fuel with
  | O => m_lift None
  | S fuel =>
      if decide (bufPos < allDataLength) then
        tag <~ m_lift (buffer.[bufPos]);
        r <~ m_lift (BerDecoder.decodeLength buffer 0 (bufPos + 1) allDataLength);
        let '(bufPos, elementLength) := r in
        if decide (bufPos < 0) then m_ret (None, selfAllocated)
        else
          e <~ newElement (parseUnknown_with (parseUnknown_loop fuel) (depth + 1)) tag buffer bufPos
                 elementLength selfAllocated;
          match fst e with
          | None => m_ret (None, snd e)
          | Some (Some value) =>
              parseUnknown_loop fuel buffer allDataLength (bufPos + elementLength)
                (elementIndex + 1) depth (setElement dataSetValues elementIndex (Some value)) (snd e)
          | Some None =>
              parseUnknown_loop fuel buffer allDataLength (bufPos + elementLength) elementIndex
                depth dataSetValues (snd e)
          end
      else m_ret (Some dataSetValues, true)
  end.

(** The value, [NULL] being [None], and [dataSetValuesSelfAllocated]. *)
Definition parseAllDataUnknownValue (buffer : list Z) (allDataLength : Z)
    (isStructure : bool) (depth : Z) (selfAllocated : bool) : alloc (option MmsValue * bool) :=
  parseUnknown_with (parseUnknown_loop (S (Z.to_nat allDataLength))) depth buffer allDataLength
    isStructure selfAllocated.

(** ** Types of values

    The tree of types of a value, with what the receiver must not change: the number
    of bits of a bit string, the width of a float and the room for an integer. *)

#[warnings="-register-all"]
Inductive shape := Shape (type : MmsType) (width : Z) (components : list (option shape)).

Definition width (v : MmsValue) : Z :=
  match v with
  | MmsBitString size _ => size
  | MmsFloat _ formatWidth _ => formatWidth
  | MmsInteger i | MmsUnsigned i => maxSize i
  | MmsBinaryTime size _ => size
  | _ => 0
  end.

Fixpoint shape_of (v : MmsValue) : shape :=
  Shape (getType v) (width v)
    match v with
    | MmsArray cs | MmsStructure cs =>
        (fix shapes cs :=
           match cs with
           | [] => []
           | c :: cs => match c with Some c => Some (shape_of c) | None => None end :: shapes cs
           end) cs
    | _ => []
    end.

Lemma shape_of_constructed (mk : list (option MmsValue) -> MmsValue) cs :
  mk = MmsArray \/ mk = MmsStructure ->
  shape_of (mk cs) = Shape (getType (mk [])) 0 (fmap (M := option) shape_of <$> cs).
Proof.
  intros Hmk.
  assert (E : (fix shapes cs := match cs with
       | [] => []
       | c :: cs => match c with Some c => Some (shape_of c) | None => None end :: shapes cs
       end) cs = fmap (M := option) shape_of <$> cs).
  { induction cs as [|[c|] cs IH]; [done| |]; csimpl; by rewrite IH. }
  destruct Hmk as [-> | ->]; cbn [shape_of]; by rewrite E.
Qed.

(** Values the parser can store into: every buffer has the size the members announce,
    as far as the parser relies on it.  Unlike [wf], components may be missing, an
    integer may have no octets, and the size of a string may have overflowed. *)
Fixpoint storable (v : MmsValue) : Prop :=
  match v with
  | MmsArray cs | MmsStructure cs =>
      (fix all cs := match cs with
                     | [] => True
                     | c :: cs => match c with Some c => storable c | None => True end /\ all cs
                     end) cs
  | MmsBitString size b => 0 <= size /\ wf_buf b (bitStringByteSize size)
  | MmsInteger i | MmsUnsigned i => wf_buf (octets i) (maxSize i) /\ 0 <= size i <= maxSize i /\ maxSize i <= 255
  | MmsFloat _ fw b => (fw = 32 \/ fw = 64) /\ wf_buf b 8
  | MmsOctetString _ maxSize b => wf_buf b (Z.abs maxSize)
  | MmsVisibleString (Some b) size => is_bytes b /\ size < zlen b
  | MmsBinaryTime _ b => wf_buf b 6
  | MmsUtcTime t => wf_buf t 8
  | _ => True
  end.

Definition storable_components (cs : list (option MmsValue)) : Prop :=
  Forall (fun c => match c with Some v => storable v | None => True end) cs.

Lemma storable_constructed mk cs : mk = MmsArray \/ mk = MmsStructure ->
  storable (mk cs) <-> storable_components cs.
Proof.
  intros Hmk. assert (E : (fix all cs := match cs with
       | [] => True
       | c :: cs => match c with Some c => storable c | None => True end /\ all cs
       end) cs <-> storable_components cs).
  { induction cs as [|c cs IH]; [split; [constructor|done]|]. unfold storable_components in *.
    rewrite Forall_cons, IH. done. }
  by destruct Hmk as [-> | ->].
Qed.

Lemma wf_storable v : wf v -> storable v.
Proof.
  induction v as [cs Hcs|cs Hcs|v Hleaf] using MmsValue_ind'; intros Hw.
  1,2: cbn [wf storable] in *; induction cs as [|[c|] cs IH]; cbn in *; [done| |tauto];
    inversion Hcs; subst; cbn in *; tauto.
  destruct v as [cs|cs| |n b|i|i|ew fw b|n mx b|[b|] n|b n|n b|t|e];
    try (exfalso; by edestruct (Hleaf cs)); cbn [wf storable] in *; try done; try tauto.
  1,2: destruct Hw as (Hb & ? & ? & ?); (split; [split; [done|lia]|lia]).
  - destruct Hw as (b' & s & [= <-] & _ & Hb & Hl & _). split; [done|lia].
Qed.

(** What parsing may do to a value. *)
Definition kept (v w : MmsValue) : Prop := storable w /\ shape_of w = shape_of v.

Lemma kept_refl v : storable v -> kept v v.
Proof. done. Qed.

Lemma kept_trans u v w : kept u v -> kept v w -> kept u w.
Proof. intros [_ E1] [? E2]. split; [done|congruence]. Qed.

Lemma getElement_inv ds i v : getElement ds i = Some v ->
  exists mk cs, (mk = MmsArray \/ mk = MmsStructure) /\ ds = mk cs /\ 0 <= i < zlen cs /\
    cs !! Z.to_nat i = Some (Some v).
Proof.
  intros H.
  assert (G : forall mk cs, mk = MmsArray \/ mk = MmsStructure -> ds = mk cs ->
    (if decide (i < 0 \/ i >= zlen cs) then None else default None (cs !! Z.to_nat i)) = Some v ->
    exists mk cs, (mk = MmsArray \/ mk = MmsStructure) /\ ds = mk cs /\ 0 <= i < zlen cs /\
      cs !! Z.to_nat i = Some (Some v)).
  { intros mk cs Hmk -> E. case_decide; [done|]. exists mk, cs. split_and!; try done; try lia.
    by destruct (cs !! Z.to_nat i) as [[c|]|]; simpl in E; simplify_eq. }
  destruct ds as [cs|cs| | | | | | | | | | | ]; try done; [apply (G MmsArray cs)|apply (G MmsStructure cs)]; auto.
Qed.

Lemma setElement_constructed mk cs i e : (mk = MmsArray \/ mk = MmsStructure) -> 0 <= i < zlen cs ->
  setElement (mk cs) i e = mk (<[Z.to_nat i := e]> cs).
Proof. intros [-> | ->] Hi; cbn [setElement]; rewrite decide_False by lia; done. Qed.

Lemma getElement_storable ds i v : storable ds -> getElement ds i = Some v -> storable v.
Proof.
  intros Hs (mk & cs & Hmk & -> & _ & Hl)%getElement_inv. apply storable_constructed in Hs; [|done].
  by apply (Forall_lookup_1 _ _ _ _ Hs Hl).
Qed.

Lemma setElement_kept ds i v w : storable ds -> getElement ds i = Some v -> kept v w ->
  kept ds (setElement ds i (Some w)).
Proof.
  intros Hs (mk & cs & Hmk & -> & Hi & Hl)%getElement_inv [Hw E].
  rewrite setElement_constructed by done. split.
  - apply storable_constructed; [done|]. apply storable_constructed in Hs; [|done].
    by apply Forall_insert.
  - rewrite !shape_of_constructed by done. f_equal. rewrite list_fmap_insert. cbn [fmap option_fmap option_map].
    rewrite E. apply list_insert_id. by rewrite list_lookup_fmap, Hl.
Qed.

Lemma getElement_count ds i v : getElement ds i = Some v ->
  exists n, getArraySize ds = Some n /\ 0 <= i < n.
Proof. intros (mk & cs & [-> | ->] & -> & Hi & _)%getElement_inv; by exists (zlen cs). Qed.

(** ** Storing into a known data set *)

(** [memcpy] from the message to the start of a buffer. *)
(** [m] ends and keeps the type of [v]. *)
Definition keeps (v : MmsValue) (m : alloc parsed) : Prop := runs m (fun _ r => kept v (snd r)).

Lemma keeps_error v pe : storable v -> keeps v (m_ret (pe, v)).
Proof. intros. by apply runs_ret. Qed.

Lemma keeps_ret v pe w : kept v w -> keeps v (m_ret (pe, w)).
Proof. intros. by apply runs_ret. Qed.

Lemma keeps_stored v o w : o = Some w -> kept v w -> keeps v (stored o).
Proof. intros -> H. apply runs_bind. eapply runs_lift; [done|]. by apply runs_ret. Qed.

Section Leaves.
(** An element with the content [[q, q + len)]. *)
Context (b : list Z) (q len : Z) (Hb : is_bytes b) (Hq : 0 <= q) (Hlen : 0 <= len)
  (Hin : q + len <= zlen b).

Lemma parseBitString_keeps v : storable v -> keeps v (parseBitString b q len v).
Proof using Hb Hq Hlen Hin.
  intros Hs. unfold parseBitString. destruct v as [| | |n buf| | | | | | | | |]; try by apply keeps_error.
  case_decide; [by apply keeps_error|].
  destruct (rd_ok b q Hb) as (x & Ex & Hx); [lia|].
  apply runs_bind. eapply runs_lift; [exact Ex|].
  case_decide; [by apply keeps_error|]. case_decide as Hn; [|by apply keeps_error].
  destruct Hs as [Hn0 Hbuf]. pose proof (bitStringByteSize_bound n Hn0). unfold_int.
  destruct (copy_total b (q + 1) (len - 1) buf (MmsValue.bitStringByteSize n) Hb) as (buf' & p & E & W);
    try done; try lia.
  rewrite E. eapply keeps_stored; [reflexivity|]. by split.
Qed.

Lemma parseInteger_keeps mk i : (mk = MmsInteger \/ mk = MmsUnsigned) -> storable (mk i) ->
  keeps (mk i) (parseInteger mk b q len i).
Proof using Hb Hq Hlen Hin.
  intros Hmk Hs. unfold parseInteger. case_decide as Hle; [|by apply keeps_error].
  assert (Hi : wf_buf (octets i) (maxSize i) /\ maxSize i <= 255) by (destruct Hmk as [-> | ->]; cbn in Hs; tauto).
  destruct Hi as [Hi Hm]. destruct (copy_total b q len (octets i) (maxSize i) Hb) as (o & p & E & W); try done.
  rewrite E. eapply keeps_stored; [reflexivity|]. rewrite u8_id by (unfold_int; lia).
  destruct Hmk as [-> | ->]; by repeat split; cbn; try lia; try apply W.
Qed.

Lemma set_float_keeps ew fw buf xs : wf_buf buf 8 -> (fw = 32 \/ fw = 64) -> is_bytes xs -> zlen xs <= 8 ->
  exists w, set_float_buf ew fw buf xs = Some w /\ kept (MmsFloat ew fw buf) w.
Proof.
  intros [H H8] Hfw Hx Hl. unfold set_float_buf. rewrite puts_splice by (done || lia).
  change (Z.to_nat 0) with 0%nat. rewrite take_0. cbn [app Nat.add].
  eexists. split; [reflexivity|]. split; [|done]. split; [done|]. split.
  - apply Forall_app. split; [done|]. by apply Forall_drop.
  - rewrite length_app, length_drop. lia.
Qed.

Lemma parseFloat_keeps ew fw buf : storable (MmsFloat ew fw buf) ->
  keeps (MmsFloat ew fw buf) (parseFloat b q len (MmsFloat ew fw buf)).
Proof using Hb Hq Hlen Hin.
  intros Hs. unfold parseFloat, BerDecoder.decodeDouble, BerDecoder.decodeFloat.
  destruct Hs as [Hfw Hbuf]. case_decide; [|case_decide; [|by apply keeps_error]].
  - destruct (bytes_exist b (q + 1) 8 Hb) as (xs & Hat & Hl & Hx); [lia..|].
    apply rds_at in Hat. replace (length xs) with 8%nat in Hat by lia. rewrite Hat. cbn [mbind option_bind].
    apply Forall_reverse in Hx. pose proof (length_reverse xs).
    assert (Hd : is_bytes (double_to_float (reverse xs)) /\ zlen (double_to_float (reverse xs)) = 4).
    { unfold double_to_float. split; [apply le_bytes_bytes|by rewrite le_bytes_length]. }
    destruct Hfw as [-> | ->]; cbn [setDouble];
      [destruct (set_float_keeps ew 32 buf (double_to_float (reverse xs)) Hbuf) as (w & E & K)
      |destruct (set_float_keeps ew 64 buf (reverse xs) Hbuf) as (w & E & K)];
      try tauto; try lia; eapply keeps_stored; [exact E|exact K|exact E|exact K].
  - destruct (bytes_exist b (q + 1) 4 Hb) as (xs & Hat & Hl & Hx); [lia..|].
    apply rds_at in Hat. replace (length xs) with 4%nat in Hat by lia. rewrite Hat. cbn [mbind option_bind].
    apply Forall_reverse in Hx. pose proof (length_reverse xs).
    assert (Hd : is_bytes (float_to_double (reverse xs)) /\ zlen (float_to_double (reverse xs)) = 8).
    { unfold float_to_double. split; [apply le_bytes_bytes|by rewrite le_bytes_length]. }
    destruct Hfw as [-> | ->]; cbn [setFloat];
      [destruct (set_float_keeps ew 32 buf (reverse xs) Hbuf) as (w & E & K)
      |destruct (set_float_keeps ew 64 buf (float_to_double (reverse xs)) Hbuf) as (w & E & K)];
      try tauto; try lia; eapply keeps_stored; [exact E|exact K|exact E|exact K].
Qed.

Lemma parseOctetString_keeps size mx buf : storable (MmsOctetString size mx buf) ->
  keeps (MmsOctetString size mx buf) (parseOctetString b q len size mx buf).
Proof using Hb Hq Hlen Hin.
  intros Hs. unfold parseOctetString. case_decide.
  - destruct (copy_total b q len buf (Z.abs mx) Hb) as (o & p & E & W); try done.
    rewrite E. eapply keeps_stored; [reflexivity|]. by split.
  - apply runs_bind, runs_malloc_size; [done|]. intros []; [|by apply keeps_error].
    destruct (copy_total b q len (fresh len) len Hb) as (o & p & E & W); try done; [by apply wf_buf_fresh|].
    rewrite E. eapply keeps_stored; [reflexivity|]. split; [|done]. cbn. by rewrite Z.abs_opp, Z.abs_eq.
Qed.

Lemma createNewString_runs (Q : bool -> option (list Z) * Z -> Prop) :
  (forall ok b' n, storable (MmsVisibleString b' n) -> Q ok (b', n)) ->
  runs (createNewStringFromBufferElement b q len) Q.
Proof using Hb Hq Hlen Hin.
  intros HQ. unfold createNewStringFromBufferElement.
  apply runs_bind, runs_malloc_size; [lia|]. intros []; [|by apply runs_ret, HQ].
  destruct (copy_total b q len (fresh (len + 1)) (len + 1) Hb) as (o & p & E & W);
    [lia..|apply wf_buf_fresh; lia|lia|].
  apply runs_bind. eapply runs_lift; [exact E|]. cbn [fst].
  destruct (wr_total o len 0 (len + 1) W) as (o' & E' & [W1 W2]); [lia|].
  apply runs_bind. eapply runs_lift; [exact E'|]. apply runs_ret, HQ. split; [done|].
  rewrite W2. zlia.
Qed.

Lemma parseVisibleString_keeps buf n : storable (MmsVisibleString buf n) ->
  keeps (MmsVisibleString buf n) (parseVisibleString b q len buf n).
Proof using Hb Hq Hlen Hin.
  intros Hs. unfold parseVisibleString.
  assert (Hnew : keeps (MmsVisibleString buf n)
    (r <~ createNewStringFromBufferElement b q len;
     m_ret (GOOSE_PARSE_ERROR_NO_ERROR, MmsVisibleString (fst r) (snd r)))).
  { apply runs_bind, createNewString_runs. intros ok b' m Hb'. apply runs_ret. by split. }
  destruct buf as [c|]; [|done]. case_decide; [|done]. destruct Hs as [Hc Hn].
  destruct (copy_total b q len c (zlen c) Hb) as (o & p & E & W); try done; [lia|].
  rewrite E. cbn [mbind option_bind].
  destruct (wr_total o len 0 (zlen c) W) as (o' & E' & [W1 W2]); [lia|]. rewrite E'.
  eapply keeps_stored; [reflexivity|]. split; [|done]. split; [done|lia].
Qed.

Lemma parseUtcTime_keeps v : storable v -> keeps v (parseUtcTime b q len v).
Proof using Hb Hq Hlen Hin.
  intros Hs. unfold parseUtcTime. case_decide; [|by apply keeps_error].
  destruct v as [| | | | | | | | | | |t|]; try by apply keeps_error.
  unfold setUtcTimeByBuffer. destruct (copy_total b q 8 t 8 Hb) as (o & p & E & W); try done; try lia.
  change (Z.to_nat 8) with 8%nat in E. rewrite E. eapply keeps_stored; [reflexivity|]. by split.
Qed.

Lemma parseElement_keeps parse tag v :
  (forall v, storable v -> (exists n, getArraySize v = Some n) -> keeps v (parse (from b q) len v)) ->
  storable v -> keeps v (parseElement parse tag b q len v).
Proof using Hb Hq Hlen Hin.
  intros Hp Hs. unfold parseElement.
  assert (Hc : forall n, getArraySize v = Some n -> keeps v
    (r <~ parse (from b q) len v;
     m_ret (if decide (fst r <> GOOSE_PARSE_ERROR_NO_ERROR) then GOOSE_PARSE_ERROR_SUBLEVEL
            else GOOSE_PARSE_ERROR_NO_ERROR, snd r))).
  { intros n Hn. apply runs_bind. eapply runs_mono; [by apply Hp; eauto|].
    intros ok r Hr. by apply runs_ret. }
  repeat case_decide; try by apply keeps_error.
  all: try (by apply parseBitString_keeps); try (by apply parseUtcTime_keeps).
  all: destruct v; try by apply keeps_error.
  all: try (by eapply Hc); try (apply parseInteger_keeps; auto); try (by apply parseFloat_keeps);
    try (by apply parseOctetString_keeps); try (by apply parseVisibleString_keeps).
  - unfold BerDecoder.decodeBoolean. rewrite decide_False by lia.
    destruct (rd_ok b q Hb) as (x & -> & _); [lia|]. by eapply keeps_stored.
  - destruct (copy_total b q len buf 6 Hb) as (o & p & E & W); try done; [lia|].
    rewrite E. eapply keeps_stored; [reflexivity|]. by split.
Qed.
End Leaves.

Lemma parseAllData_loop_keeps fuel b len p i max ds :
  is_bytes b -> 0 <= p -> 0 <= i -> len <= zlen b -> (Z.to_nat (len - p) < fuel)%nat -> storable ds ->
  keeps ds (parseAllData_loop fuel b len p i max ds).
Proof.
  revert b len p i max ds.
  induction fuel as [|fuel IH]; intros b len p i max ds Hb Hp Hi Hl Hf Hs; [lia|].
  cbn [parseAllData_loop]. case_decide; [|by apply keeps_error].
  destruct (rd_ok b p Hb) as (x & Ex & _); [lia|]. apply runs_bind. eapply runs_lift; [exact Ex|].
  case_decide; [by apply keeps_error|].
  destruct (getElement ds i) as [v|] eqn:Ev; [|by apply keeps_error].
  pose proof (getElement_storable ds i v Hs Ev) as Hv.
  destruct (BerDecoder.decodeLength_total b (p + 1) len 0 Hb) as (q & n & E & Hq); [lia..|].
  apply runs_bind. eapply runs_lift; [exact E|]. cbn beta iota. case_decide; [by apply keeps_error|].
  destruct Hq as [->|(Hq & Hn & Hqn)]; [lia|]. apply runs_bind.
  eapply runs_mono.
  { apply (parseElement_keeps b q n Hb ltac:(lia) Hn ltac:(lia)); [|exact Hv].
    intros w Hw [m Em]. apply runs_bind. eapply runs_lift; [exact Em|].
    apply IH; [by apply from_bytes|lia|lia|rewrite from_length; lia|lia|done]. }
  intros ok [pe w] Hw. cbn [fst snd] in *.
  pose proof (setElement_kept ds i v w Hs Ev Hw) as Hk.
  case_decide; [by apply keeps_ret|].
  eapply runs_mono; [apply IH; try done; try lia; apply Hk|]. cbn beta. intros. by eapply kept_trans.
Qed.

Lemma parseAllData_keeps b len ds n :
  is_bytes b -> len <= zlen b -> getArraySize ds = Some n -> storable ds ->
  keeps ds (parseAllData b len ds).
Proof.
  intros Hb Hl Hn Hs. unfold parseAllData. apply runs_bind. eapply runs_lift; [exact Hn|].
  apply parseAllData_loop_keeps; (done || lia).
Qed.

(** ** Making a new data set *)

(** A new element: none after an error, or storable if it exists. *)
Definition made (r : option (option MmsValue)) : Prop :=
  match r with Some (Some v) => storable v | _ => True end.

Definition makes (m : alloc (option (option MmsValue))) : Prop := runs m (fun _ r => made r).

Lemma makes_fill v f : storable v -> (exists w, f v = Some w /\ storable w) -> makes (fill (Some v) f).
Proof.
  intros Hv (w & E & Hw). apply runs_bind. eapply runs_lift; [exact E|]. by apply runs_ret.
Qed.

Lemma makes_none f : makes (fill None f).
Proof. by apply runs_ret. Qed.

Lemma makes_value (m : alloc (option MmsValue)) :
  runs m (fun _ r => match r with Some v => storable v | None => True end) ->
  makes (v <~ m; m_ret (Some v)).
Proof. intros H. apply runs_bind. eapply runs_mono; [exact H|]. intros ok r Hr. by apply runs_ret. Qed.

Lemma runs_new_value {A} (v : A) (Q : bool -> option A -> Prop) :
  Q true (Some v) -> Q false None -> runs (new_value v) Q.
Proof. intros. apply runs_bind, runs_malloc. by intros []; apply runs_ret. Qed.

Section NewLeaves.
Context (b : list Z) (q len : Z) (Hb : is_bytes b) (Hq : 0 <= q) (Hlen : 0 <= len)
  (Hin : q + len <= zlen b).

Lemma newBitStringElement_makes : makes (newBitStringElement b q len).
Proof using Hb Hq Hlen Hin.
  unfold newBitStringElement. case_decide; [|by apply runs_ret].
  destruct (rd_ok b q Hb) as (x & Ex & Hx); [lia|]. apply runs_bind. eapply runs_lift; [exact Ex|].
  case_decide; [by apply runs_ret|]. unfold_int. unfold newBitString.
  set (n := Z.abs ((len - 1) * 8 - x)). pose proof (bitStringByteSize_bound n ltac:(lia)).
  apply runs_bind, runs_bind, runs_malloc. intros []; [|apply runs_ret, makes_none].
  apply runs_new_value; [|apply makes_none].
  assert (W : wf_buf (fresh (bitStringByteSize n)) (bitStringByteSize n)) by (apply wf_buf_fresh; lia).
  apply makes_fill; [cbn; split; [lia|exact W]|].
  destruct (copy_total b (q + 1) (len - 1) _ _ Hb ltac:(lia) ltac:(lia) ltac:(lia) W) as (o & p & E & W');
    [lia|]. unfold fresh in E. rewrite E. eexists. split; [reflexivity|]. cbn. split; [lia|done].
Qed.

Lemma newIntegerElement_makes mk new :
  (mk = MmsInteger \/ mk = MmsUnsigned) ->
  (forall n, new n = newWithInteger mk
    (fun m1 m2 => Some (if decide (n <= 32) then createInt32 m1 m2 else createInt64 m1 m2))) ->
  makes (newIntegerElement new b q len).
Proof using Hb Hq Hlen Hin.
  intros Hmk Hnew. unfold newIntegerElement. case_decide as H8; [by apply runs_ret|].
  rewrite Hnew. unfold newWithInteger.
  apply runs_bind, runs_bind, runs_malloc. intros []; [|apply runs_ret, makes_none].
  apply runs_bind, runs_malloc. intros m1. apply runs_bind.
  apply (runs_mono _ (fun _ _ => True)); [destruct m1; [by apply runs_malloc|by apply runs_ret]|].
  intros ok m2 _. apply runs_bind. eapply runs_lift; [reflexivity|]. apply runs_ret.
  assert (Hc : forall i, (if decide (len * 8 <= 32) then createInt32 m1 m2 else createInt64 m1 m2) = Some i ->
    wf_buf (octets i) (maxSize i) /\ len <= maxSize i <= 255 /\ size i = 1).
  { intros i. unfold createInt32, createInt64, Asn1PrimitiveValue_create.
    destruct m1; [destruct m2|]; case_decide; try done; intros [= <-]; cbn;
      change (u8 5) with 5; change (u8 9) with 9;
      (split; [split; [solve_bytes|done]|split; [lia|done]]). }
  destruct (if decide (len * 8 <= 32) then createInt32 m1 m2 else createInt64 m1 m2) as [i|]; [|apply makes_none].
  destruct (Hc i eq_refl) as (W & Hm & Hz). cbn [fmap option_fmap option_map].
  destruct (copy_total b q len _ _ Hb Hq Hlen Hin W) as (o & p & E & W'); [lia|].
  apply makes_fill.
  - destruct Hmk as [-> | ->]; cbn; rewrite Hz; (split; [done|lia]).
  - destruct Hmk as [-> | ->]; rewrite E; (eexists; split; [reflexivity|]);
      cbn; rewrite u8_id by (unfold_int; lia); (split; [done|lia]).
Qed.

Lemma newFloatElement_makes : makes (newFloatElement b q len).
Proof using Hb Hq Hlen Hin.
  unfold newFloatElement, BerDecoder.decodeDouble, BerDecoder.decodeFloat.
  case_decide; [|case_decide; [|by apply runs_ret]].
  - destruct (bytes_exist b (q + 1) 8 Hb) as (xs & Hat & Hl & Hx); [lia..|].
    apply rds_at in Hat. replace (length xs) with 8%nat in Hat by lia. rewrite Hat.
    apply runs_bind. eapply runs_lift; [reflexivity|]. apply makes_value, runs_new_value; [|done].
    cbn. split; [by right|]. split; [by apply Forall_take, Forall_reverse|].
    rewrite length_take, length_reverse. lia.
  - destruct (bytes_exist b (q + 1) 4 Hb) as (xs & Hat & Hl & Hx); [lia..|].
    apply rds_at in Hat. replace (length xs) with 4%nat in Hat by lia. rewrite Hat.
    apply runs_bind. eapply runs_lift; [reflexivity|]. apply makes_value, runs_new_value; [|done].
    split; [by left|]. split.
    + apply Forall_app. split; [by apply Forall_take, Forall_reverse|by apply Forall_replicate].
    + rewrite length_app, length_take, length_reverse, length_replicate. lia.
Qed.

Lemma newOctetStringElement_makes : makes (newOctetStringElement b q len).
Proof using Hb Hq Hlen Hin.
  unfold newOctetStringElement, newOctetString.
  apply runs_bind, runs_bind, runs_malloc. intros []; [|apply runs_ret, makes_none].
  apply runs_bind, runs_malloc. intros m1. apply runs_ret.
  case_decide; [apply makes_none|].
  assert (W : wf_buf (fresh (Z.abs len)) (Z.abs len)) by (apply wf_buf_fresh; lia).
  destruct (copy_total b q len _ _ Hb Hq Hlen Hin W) as (o & p & E & W'); [lia|].
  unfold fresh in E. apply makes_fill; [exact W|]. rewrite E. eexists. by split.
Qed.

Lemma newVisibleString_makes :
  makes (v <~ newVisibleStringFromByteArray b q len; m_ret (Some v)).
Proof using Hb Hq Hlen Hin.
  apply makes_value. unfold newVisibleStringFromByteArray, newStringFromByteArray, createStringFromBuffer.
  apply runs_bind, runs_malloc. intros []; [|by apply runs_ret].
  apply runs_bind, runs_bind, runs_malloc_size; [lia|]. intros []; [|by apply runs_ret, runs_ret].
  destruct (copy_total b q len (fresh (len + 1)) (len + 1) Hb) as (o & p & E & W);
    [lia..|apply wf_buf_fresh; lia|lia|].
  apply runs_bind. eapply runs_lift; [exact E|]. cbn [fst].
  destruct (wr_total o len 0 (len + 1) W) as (o' & E' & [W1 W2]); [lia|].
  apply runs_bind. eapply runs_lift; [exact E'|]. apply runs_ret, runs_ret.
  split; [done|]. rewrite W2. zlia.
Qed.

Lemma newBinaryTimeElement_makes : makes (newBinaryTimeElement b q len).
Proof using Hb Hq Hlen Hin.
  unfold newBinaryTimeElement, newBinaryTime. case_decide as Hn; [|by apply runs_ret].
  apply runs_bind, runs_new_value; [|apply makes_none].
  assert (W : wf_buf (fresh 6) 6) by (by apply wf_buf_fresh).
  destruct (copy_total b q len _ _ Hb Hq Hlen Hin W) as (o & p & E & W'); [lia|].
  apply makes_fill; [exact W|]. change (replicate 6 0) with (fresh 6). rewrite E.
  eexists. split; [reflexivity|]. exact W'.
Qed.

Lemma newUtcTimeElement_makes : makes (newUtcTimeElement b q len).
Proof using Hb Hq Hlen Hin.
  unfold newUtcTimeElement, newUtcTime, setUtcTimeByBuffer. case_decide; [|by apply runs_ret].
  apply runs_bind, runs_new_value; [|apply makes_none].
  assert (W : wf_buf (be_bytes 4 0 ++ replicate 4 0) 8).
  { split; [|done]. apply Forall_app. split; [apply be_bytes_bytes|by apply Forall_replicate]. }
  destruct (copy_total b q 8 _ _ Hb Hq ltac:(lia) ltac:(lia) W) as (o & p & E & W'); [lia|].
  change (Z.to_nat 8) with 8%nat in E.
  apply makes_fill; [exact W|]. rewrite E. eexists. split; [reflexivity|]. exact W'.
Qed.

(** [m] ends with no data set or a storable one of the kind asked for. *)
Definition makes_data (m : alloc (option MmsValue * bool)) : Prop :=
  runs m (fun _ r => match fst r with
                     | Some v => storable v /\ exists n, getArraySize v = Some n
                     | None => True
                     end).

Lemma newElement_makes parse tag flag :
  (forall isStructure flag, makes_data (parse (from b q) len isStructure flag)) ->
  runs (newElement parse tag b q len flag) (fun _ r => made (fst r)).
Proof using Hb Hq Hlen Hin.
  intros Hp. unfold newElement.
  assert (Hleaf : forall m, makes m -> runs (r <~ m; m_ret (r, flag)) (fun _ r => made (fst r))).
  { intros m H. apply runs_bind. eapply runs_mono; [exact H|]. intros. by apply runs_ret. }
  assert (Hcon : forall isStructure, runs
    (r <~ parse (from b q) len isStructure flag;
     m_ret (match fst r with Some v => Some (Some v) | None => None end, snd r))
    (fun _ r => made (fst r))).
  { intros s. apply runs_bind. eapply runs_mono; [apply Hp|].
    intros ok [[v|] f] Hv; apply runs_ret; [apply Hv|done]. }
  repeat case_decide; try apply Hcon; try apply Hleaf; try by apply runs_ret.
  - unfold BerDecoder.decodeBoolean. rewrite decide_False by lia.
    destruct (rd_ok b q Hb) as (x & -> & _); [lia|].
    apply runs_bind. eapply runs_lift; [reflexivity|]. by apply makes_value, runs_new_value.
  - apply newBitStringElement_makes.
  - by apply (newIntegerElement_makes MmsInteger); [left|].
  - by apply (newIntegerElement_makes MmsUnsigned); [right|].
  - apply newFloatElement_makes.
  - apply newOctetStringElement_makes.
  - apply newVisibleString_makes.
  - apply newBinaryTimeElement_makes.
  - apply newUtcTimeElement_makes.
Qed.
End NewLeaves.

Lemma setElement_storable ds i v : storable ds -> storable v ->
  storable (setElement ds i (Some v)) /\ getArraySize (setElement ds i (Some v)) = getArraySize ds.
Proof.
  intros Hs Hv.
  assert (G : forall mk cs, mk = MmsArray \/ mk = MmsStructure -> storable (mk cs) ->
    storable (mk (<[Z.to_nat i := Some v]> cs)) /\
    getArraySize (mk (<[Z.to_nat i := Some v]> cs)) = getArraySize (mk cs)).
  { intros mk cs Hmk H. rewrite storable_constructed in H |- * by done. split; [by apply Forall_insert|].
    destruct Hmk as [-> | ->]; cbn; by rewrite length_insert. }
  destruct ds as [cs|cs| | | | | | | | | | | ]; try done; cbn [setElement]; case_decide; try done;
    [apply (G MmsArray)|apply (G MmsStructure)]; auto.
Qed.

Lemma countElements_total fuel b len p k :
  is_bytes b -> 0 <= p -> len <= zlen b -> (Z.to_nat (len - p) < fuel)%nat -> 0 <= k ->
  exists r, countElements fuel b len p k = Some r /\ match r with Some n => 0 <= n | None => True end.
Proof.
  revert p k. induction fuel as [|fuel IH]; intros p k Hb Hp Hl Hf Hk; [lia|].
  cbn [countElements]. case_decide; [|by eexists].
  destruct (rd_ok b p Hb) as (x & -> & _); [lia|]. cbn [mbind option_bind].
  destruct (BerDecoder.decodeLength_total b (p + 1) len 0 Hb) as (q & n & -> & Hq); [lia..|].
  cbn [mbind option_bind]. case_decide; [by eexists|]. case_decide; [|by eexists]. apply IH; (done || lia).
Qed.

Lemma makes_ret v f : match v with
    | Some v => storable v /\ exists n, getArraySize v = Some n | None => True end ->
  makes_data (m_ret (v, f)).
Proof. intros. by apply runs_ret. Qed.

Lemma createEmpty_runs (isStructure : bool) n (Q : bool -> option MmsValue -> Prop) :
  0 <= n -> (forall ok, Q ok None) ->
  Q true (Some ((if isStructure then MmsStructure else MmsArray) (replicate (Z.to_nat n) None))) ->
  runs (if isStructure then createEmptyStructure n else createEmptyArray n) Q.
Proof.
  intros Hn HN HQ. assert (Ha : forall Q : bool -> option MmsValue -> Prop, (forall ok, Q ok None) ->
    Q true (Some (MmsArray (replicate (Z.to_nat n) None))) -> runs (createEmptyArray n) Q).
  { intros R HR1 HR2. apply runs_bind, runs_malloc. intros []; [|by apply runs_ret].
    by apply runs_new_value. }
  destruct isStructure; [|by apply Ha]. unfold createEmptyStructure.
  apply runs_bind, Ha; [intros ok|]; apply runs_ret; [apply HN|done].
Qed.

Lemma parseUnknown_with_makes loop depth b len isStructure flag :
  is_bytes b -> 0 <= len <= zlen b ->
  (forall ds, storable ds -> (exists n, getArraySize ds = Some n) ->
   makes_data (loop b len 0 0 depth ds flag)) ->
  makes_data (parseUnknown_with loop depth b len isStructure flag).
Proof.
  intros Hb Hl Hloop. unfold parseUnknown_with. case_decide; [by apply makes_ret|].
  destruct (countElements_total (S (Z.to_nat len)) b len 0 0) as (r & E & Hr); [done|lia..|].
  apply runs_bind. eapply runs_lift; [exact E|]. destruct r as [n|]; [|by apply makes_ret].
  apply runs_bind, createEmpty_runs; [done|intros ok; by apply makes_ret|].
  assert (Hs : storable_components (replicate (Z.to_nat n) None)) by (by apply Forall_replicate).
  apply Hloop; destruct isStructure; try (by eexists); by apply storable_constructed; auto.
Qed.

Lemma parseUnknown_loop_makes fuel b len p i depth ds flag :
  is_bytes b -> 0 <= p -> len <= zlen b -> (Z.to_nat (len - p) < fuel)%nat -> storable ds ->
  (exists n, getArraySize ds = Some n) ->
  makes_data (parseUnknown_loop fuel b len p i depth ds flag).
Proof.
  revert b len p i depth ds flag.
  induction fuel as [|fuel IH]; intros b len p i depth ds flag Hb Hp Hl Hf Hs Hn; [lia|].
  cbn [parseUnknown_loop]. case_decide; [|by apply makes_ret].
  destruct (rd_ok b p Hb) as (x & Ex & _); [lia|]. apply runs_bind. eapply runs_lift; [exact Ex|].
  destruct (BerDecoder.decodeLength_total b (p + 1) len 0 Hb) as (q & n & E & Hq); [lia..|].
  apply runs_bind. eapply runs_lift; [exact E|]. cbn beta iota. case_decide; [by apply makes_ret|].
  destruct Hq as [->|(Hq & Hn0 & Hqn)]; [lia|]. apply runs_bind. eapply runs_mono.
  { apply (newElement_makes b q n Hb ltac:(lia) Hn0 ltac:(lia)). intros s f.
    apply parseUnknown_with_makes; [by apply from_bytes|rewrite from_length; lia|].
    intros ds' Hs' Hn'. apply IH; try done; try (by apply from_bytes); try lia. rewrite from_length; lia. }
  intros ok [[[v|]|] f] Hv; cbn [fst snd made] in *; [| |by apply makes_ret].
  - destruct (setElement_storable ds i v Hs Hv) as [Hs' E']. apply IH; try done; try lia. by rewrite E'.
  - apply IH; (done || lia).
Qed.

Lemma parseAllDataUnknownValue_makes b len isStructure depth flag :
  is_bytes b -> 0 <= len <= zlen b ->
  makes_data (parseAllDataUnknownValue b len isStructure depth flag).
Proof.
  intros Hb Hl. apply parseUnknown_with_makes; [done|done|]. intros ds Hs Hn.
  apply parseUnknown_loop_makes; (done || lia).
Qed.

(** C30: whatever a message holds and whatever allocations fail, [parseAllData] ends
    without an access outside the message or the buffers of the data set, and leaves a
    data set of the same type: the same tree of types, bit string sizes, float widths
    and integer sizes, every buffer as large as its value needs. *)
Theorem parseAllData_type_safe b len ds n mem :
  is_bytes b -> len <= zlen b -> getArraySize ds = Some n -> storable ds ->
  exists pe ds' mem', parseAllData b len ds mem = Some ((pe, ds'), mem') /\
    storable ds' /\ shape_of ds' = shape_of ds.
Proof.
  intros Hb Hl Hn Hs. destruct (parseAllData_keeps b len ds n Hb Hl Hn Hs mem) as ([pe ds'] & mem' & u & E & _ & H).
  exists pe, ds', mem'. by split.
Qed.

Definition sample_data : MmsValue :=
  MmsStructure [Some (MmsBoolean false); Some (MmsBitString 13 [0; 0]); Some (MmsVisibleString (Some [0; 0; 0]) 2)].

(** A message whose last element does not fit leaves a partly new data set. *)
Example parse_partly :
  parseAllData [0x83; 1; 1; 0x84; 3; 3; 1; 8; 0x8a; 2; 65] 11 sample_data [] =
    Some ((GOOSE_PARSE_ERROR_TAGDECODE,
      MmsStructure [Some (MmsBoolean true); Some (MmsBitString 13 [1; 8]);
                    Some (MmsVisibleString (Some [0; 0; 0]) 2)]), []).
Proof. vm_compute. reflexivity. Qed.

Lemma parseAllData_type_safe_witness : exists pe ds' mem',
  parseAllData [0x83; 1; 1; 0x84; 3; 3; 1; 8; 0x8a; 4; 65; 66; 67; 68] 14 sample_data [false] =
    Some ((pe, ds'), mem') /\ storable ds' /\ shape_of ds' = shape_of sample_data.
Proof.
  apply (parseAllData_type_safe _ 14 sample_data 3); [solve_bytes|done|done|].
  cbn. repeat split; try lia; solve_bytes.
Defined.

(** Whatever a message holds and whatever allocations fail,
    [parseAllDataUnknownValue] ends without an access outside the message or the values
    it makes, and returns either nothing or an array or structure in which every value
    is well-formed; values nested deeper than its limit are refused. *)
Theorem parseUnknown_safe b len isStructure depth flag mem :
  is_bytes b -> 0 <= len <= zlen b ->
  exists r flag' mem', parseAllDataUnknownValue b len isStructure depth flag mem = Some ((r, flag'), mem') /\
    match r with
    | Some v => storable v /\ (exists n, getArraySize v = Some n) /\ depth <= GOOSE_PARSE_MAX_DEPTH
    | None => True
    end.
Proof.
  intros Hb Hl.
  destruct (parseAllDataUnknownValue_makes b len isStructure depth flag Hb Hl mem)
    as ([r f] & mem' & u & E & _ & H).
  exists r, f, mem'. split; [done|]. destruct r as [v|]; [|done]. split_and!; try apply H.
  destruct (decide (depth > GOOSE_PARSE_MAX_DEPTH)) as [Hd|]; [|lia].
  unfold parseAllDataUnknownValue, parseUnknown_with in E. by rewrite decide_True in E by done.
Qed.

Lemma parseUnknown_safe_witness : exists r flag' mem',
  parseAllDataUnknownValue [0x83; 1; 1; 0xa2; 3; 0x84; 1; 0] 8 false 0 false [true; true; false] =
    Some ((r, flag'), mem') /\
  match r with
  | Some v => storable v /\ (exists n, getArraySize v = Some n) /\ 0 <= GOOSE_PARSE_MAX_DEPTH
  | None => True
  end.
Proof. apply parseUnknown_safe; [solve_bytes|cbn; lia]. Defined.

(** ** Received values are the values that were sent

    [fits v w]: the data set element [w] of the subscriber is made for the published
    value [v]: the same type, and for bit strings, integers, floats and binary times
    room for the same size. *)

Definition all_fit (P : MmsValue -> MmsValue -> Prop)
    : list (option MmsValue) -> list (option MmsValue) -> Prop :=
  fix all_fit cs ds :=
    match cs, ds with
    | [], [] => True
    | Some c :: cs, Some d :: ds => P c d /\ all_fit cs ds
    | _, _ => False
    end.

Fixpoint fits (v w : MmsValue) : Prop :=
  match v, w with
  | MmsArray cs, MmsArray ds | MmsStructure cs, MmsStructure ds => all_fit fits cs ds
  | MmsBoolean _, MmsBoolean _ | MmsUtcTime _, MmsUtcTime _ => True
  | MmsOctetString _ _ _, MmsOctetString _ _ _ | MmsVisibleString _ _, MmsVisibleString _ _ => True
  | MmsBitString n _, MmsBitString m _ | MmsBinaryTime n _, MmsBinaryTime m _ => n = m
  | MmsInteger i, MmsInteger j | MmsUnsigned i, MmsUnsigned j => size i <= maxSize j
  | MmsFloat _ fw _, MmsFloat _ fw' _ => fw = fw'
  | _, _ => False
  end.

(** The parser ended without an error and left the value [v]. *)
Definition received (v : MmsValue) (res : option (parsed * list bool)) : Prop :=
  exists w, res = Some ((GOOSE_PARSE_ERROR_NO_ERROR, w), []) /\ wf w /\ same_value v w.

Lemma received_stored v o w : o = Some w -> wf w -> same_value v w -> received v (stored o []).
Proof. intros -> ??. by exists w. Qed.

(** The octets [xs] of [v] are in front of the buffer of [w]. *)
Lemma received_buffer v w (n : Z) a xs rest m k o :
  o = Some w -> 0 <= n <= m -> n <= k -> wf_buf a m -> wf_buf (xs ++ rest) k -> wf w ->
  zlen xs = n -> take (Z.to_nat n) a = xs ->
  equals v w = memcmp n a (xs ++ rest) -> equals w v = memcmp n (xs ++ rest) a ->
  received v (stored o []).
Proof.
  intros E Hm Hk Ha Hb Hw Hx Ht E1 E2. eapply received_stored; [exact E|done|].
  eapply (cloned_buffer v w n a (xs ++ rest) m k); try done.
  rewrite Ht, take_app_length' by lia. done.
Qed.

Lemma createNewString_nil s b q :
  is_bytes s -> bytes_at b q s ->
  createNewStringFromBufferElement b q (zlen s) [] = Some ((Some (s ++ [0]), s16 (zlen s)), []).
Proof.
  intros Hs Hat. unfold createNewStringFromBufferElement.
  assert (Em : malloc_size (zlen s + 1) [] = Some (true, [])).
  { unfold malloc_size. cbn. rewrite bool_decide_eq_true_2 by lia. done. }
  rewrite (MmsData.bind_nil _ _ _ Em). cbn match.
  destruct (MmsData.copy_to_zero b q s (zlen s + 1) Hs Hat ltac:(lia)) as [Ec _].
  rewrite (MmsData.lift_nil _ _ _ Ec). cbn [fst].
  assert (Hd : drop (length s) (fresh (zlen s + 1)) = [0]).
  { unfold fresh. rewrite drop_replicate.
    replace (Z.to_nat (zlen s + 1) - length s)%nat with 1%nat by lia. done. }
  rewrite Hd, wr_Some by (rewrite length_app; simpl; lia).
  rewrite Nat2Z.id, insert_app_r_alt, Nat.sub_diag by done. done.
Qed.

Lemma string_overwritten s c : zlen s < zlen c -> is_bytes c ->
  wr (s ++ drop (length s) c) (zlen s) 0 = Some (s ++ 0 :: drop (S (length s)) c).
Proof.
  intros Hl Hc. destruct (drop (length s) c) as [|x rest] eqn:E.
  { apply (f_equal length) in E. rewrite length_drop in E. simpl in E. lia. }
  rewrite wr_Some by (rewrite length_app; simpl; lia).
  rewrite Nat2Z.id, insert_app_r_alt, Nat.sub_diag by done.
  replace (drop (S (length s)) c) with (drop 1 (drop (length s) c)) by (rewrite drop_drop; f_equal; lia).
  by rewrite E.
Qed.

Lemma receive_visible_string buf n buf' m b q :
  wf_string buf n -> wf_string buf' m -> bytes_at b q (MmsData.chars buf) ->
  received (MmsVisibleString buf n)
    (parseVisibleString b q (zlen (MmsData.chars buf)) buf' m []).
Proof.
  intros Hw Hw' Hat.
  destruct (MmsData.wf_string_chars buf n Hw) as (s & _ & Hc & Hl & Hm & Hb & Hcs).
  rewrite Hc in *. destruct Hw as (bb & s0 & -> & _). specialize (Hcs bb eq_refl).
  assert (Hnz : Forall (fun x => x <> 0) s) by apply Hcs.
  destruct Hw' as (c & s' & -> & _ & Hcb & Hcl & Hm'). unfold parseVisibleString.
  case_decide.
  - destruct (copy_into b q s c (zlen c) Hb Hat) as [E W]; [done|lia|]. rewrite E. cbn [mbind option_bind].
    rewrite string_overwritten by (done || lia). cbn [mbind option_bind].
    eapply received_stored; [reflexivity| |].
    + exists (s ++ 0 :: drop (S (length s)) c), s. split_and!; try done; try lia.
      * split; [by eexists|done].
      * apply Forall_app. split; [done|]. constructor; [unfold_int; lia|by apply Forall_drop].
      * rewrite length_app. cbn [length]. rewrite length_drop. lia.
    + eapply (same_strings _ _ s); [done|]. split; [by eexists|done].
  - rewrite (MmsData.bind_nil _ _ _ (createNewString_nil s b q Hb Hat)).
    destruct (MmsData.decoded_string_wf s Hb ltac:(lia) Hnz) as [Hw' Hcw].
    exists (MmsVisibleString (Some (s ++ [0])) (s16 (zlen s))). split; [done|].
    split; [exact Hw'|]. by eapply same_strings.
Qed.

Lemma receive_integer mk i j b q :
  (mk = MmsInteger \/ mk = MmsUnsigned) -> BerInteger.wf i -> BerInteger.wf j -> size i <= maxSize j ->
  bytes_at b q (digits i) ->
  received (mk i) (parseInteger mk b q (zlen (digits i)) j []).
Proof.
  intros Hmk Hi Hj Hs Hat. pose proof (wf_digits _ Hi) as (Hl & Hb & _).
  destruct Hi as (Hib & Hi1 & Hi2 & Hi3) eqn:Ei. destruct Hj as (Hjb & Hj1 & Hj2 & Hj3).
  unfold parseInteger. rewrite decide_True by lia.
  destruct (copy_into b q (digits i) (octets j) (maxSize j) Hb Hat) as [E [W1 W2]]; [done|lia|].
  rewrite E. cbn [mbind option_bind]. rewrite Hl, u8_id by (unfold_int; lia).
  set (k := {| size := size i; maxSize := maxSize j; octets := _ |}).
  assert (Hk : BerInteger.wf k) by (split_and!; cbn; try done; lia).
  assert (Hd : digits k = digits i).
  { unfold digits at 1. cbn. rewrite take_app_length' by lia. done. }
  assert (Hi' : BerInteger.wf i) by done.
  eapply received_stored; [reflexivity|by destruct Hmk as [-> | ->]|].
  destruct Hmk as [-> | ->]; split; by apply equal_digits.
Qed.

Lemma receive_float ew fw buf ew' buf' b q :
  wf (MmsFloat ew fw buf) -> wf (MmsFloat ew' fw buf') ->
  let xs := ew :: reverse (take (Z.to_nat (fw / 8)) buf) in
  bytes_at b q xs ->
  received (MmsFloat ew fw buf) (parseFloat b q (zlen xs) (MmsFloat ew' fw buf') []).
Proof.
  intros [Hfw [Hb Hl]] [_ [Hb' Hl']] xs [_ Hat].
  set (ys := take (Z.to_nat (fw / 8)) buf) in *. apply rds_at in Hat.
  assert (Hy : zlen ys = fw / 8).
  { assert (0 <= fw / 8 <= 8) by (by destruct Hfw; subst). unfold ys. rewrite length_take. lia. }
  assert (Hyb : is_bytes ys) by (by apply Forall_take).
  assert (Hx : zlen xs = fw / 8 + 1) by (unfold xs; rewrite length_cons, length_reverse; lia).
  rewrite length_reverse in Hat. unfold parseFloat. rewrite Hx.
  unfold BerDecoder.decodeDouble, BerDecoder.decodeFloat.
  assert (Hset : set_float_buf ew' fw buf' ys = Some (MmsFloat ew' fw (ys ++ drop (length ys) buf'))).
  { assert (0 <= fw / 8 <= 8) by (by destruct Hfw; subst).
    unfold set_float_buf. rewrite puts_splice by (done || lia).
    change (Z.to_nat 0) with 0%nat. by rewrite take_0. }
  assert (W : wf_buf (ys ++ drop (length ys) buf') 8).
  { split; [apply Forall_app; split; [done|by apply Forall_drop]|].
    assert (0 <= fw / 8 <= 8) by (by destruct Hfw; subst). rewrite length_app, length_drop. lia. }
  assert (Hr : forall o, o = Some (MmsFloat ew' fw (ys ++ drop (length ys) buf')) ->
    received (MmsFloat ew fw buf) (stored o [])).
  { intros o Ho. assert (0 <= fw / 8 <= 8 /\ Z.quot fw 8 = fw / 8) as [? Eq] by (by destruct Hfw; subst).
    apply (received_buffer _ _ (fw / 8) buf ys (drop (length ys) buf') 8 8 _ Ho); try done; try lia.
    - cbn [equals]. by rewrite Eq.
    - cbn [equals]. by rewrite Eq. }
  destruct Hfw as [-> | ->]; cbn [Z.div Z.div_eucl] in *.
  - change (32 / 8 + 1) with 5 in *. change (32 / 8) with 4 in *. rewrite decide_False, decide_True by done.
    replace (length ys) with 4%nat in Hat by lia. rewrite Hat. cbn [mbind option_bind].
    rewrite reverse_involutive. apply Hr. exact Hset.
  - change (64 / 8 + 1) with 9 in *. change (64 / 8) with 8 in *. rewrite decide_True by done.
    replace (length ys) with 8%nat in Hat by lia. rewrite Hat. cbn [mbind option_bind].
    rewrite reverse_involutive. apply Hr. exact Hset.
Qed.

Ltac element_case := unfold parseElement; repeat rewrite decide_False by done; rewrite decide_True by done.

Lemma receive_leaf parse v w b q :
  wf v -> MmsData.regular v -> MmsData.decodable v ->
  (forall cs, v <> MmsArray cs /\ v <> MmsStructure cs) ->
  fits v w -> wf w -> bytes_at b q (MmsData.content_of v) ->
  received v (parseElement parse (MmsData.tag_of v) b q (zlen (MmsData.content_of v)) w []).
Proof.
  intros Hv Hr Hd Hleaf Hf Hw Hat.
  destruct v as [cs|cs|x|n buf|i|i|ew fw buf|n mx buf|buf n|buf n|n buf|t|e];
    try (exfalso; by edestruct (Hleaf cs)); cbn [fits] in Hf; destruct w; try done;
    cbn [wf MmsData.regular MmsData.decodable MmsData.tag_of MmsData.content_of] in *.
  - element_case. rewrite decide_False by (simpl; lia).
    assert (E : BerDecoder.decodeBoolean b (zlen [if x then 1 else 0]) q = Some x).
    { destruct Hat as [Hx _]. unfold BerDecoder.decodeBoolean. rewrite decide_False by (simpl; lia).
      rewrite Hx. by destruct x. }
    rewrite E. eapply received_stored; [reflexivity|done|].
    unfold same_value; cbn. by rewrite bool_decide_true.
  - element_case. subst. destruct Hv as [Hn [Hb Hl]], Hw as [_ Hbuf], Hat as [Hpad Hat].
    pose proof (bitStringByteSize_bound size0 Hn).
    unfold parseBitString. rewrite length_cons, Nat2Z.inj_succ. rewrite decide_False by lia.
    rewrite (MmsData.lift_nil _ _ _ Hpad). rewrite decide_False by lia. rewrite decide_True by lia.
    replace (Z.succ (zlen buf) - 1) with (zlen buf) by lia.
    destruct (copy_into b (q + 1) buf buf0 _ Hb Hat Hbuf) as [E W]; [lia|]. rewrite E. cbn [mbind option_bind].
    eapply (received_buffer _ _ (zlen buf) buf buf _ (zlen buf) (MmsValue.bitStringByteSize size0));
      try done; try lia; [by rewrite Nat2Z.id, take_ge by lia| |];
      cbn [equals]; rewrite decide_True by done; by rewrite Hl.
  - element_case. by apply receive_integer; [left|..].
  - element_case. by apply receive_integer; [right|..].
  - element_case. subst. by apply receive_float.
  - element_case. destruct Hv as ([Hb Hl] & Hn & H16). destruct Hw as (Hbuf & _ & _).
    assert (Hx : zlen (take (Z.to_nat n) buf) = n) by (rewrite length_take; lia).
    assert (Hxb : is_bytes (take (Z.to_nat n) buf)) by (by apply Forall_take).
    unfold parseOctetString. rewrite Hx. assert (u16 n = n) as -> by zlia. case_decide.
    + destruct (copy_into b q _ _ _ Hxb Hat Hbuf) as [E W]; [lia|]. rewrite Hx in E. rewrite E.
      eapply (received_buffer _ _ n buf _ _ (Z.abs mx) (Z.abs maxSize0)); try done; try lia;
        [split_and!; done || lia| |]; cbn [equals]; by rewrite decide_True.
    + assert (Em : malloc_size n [] = Some (true, [])).
      { unfold malloc_size. cbn. rewrite bool_decide_eq_true_2 by lia. done. }
      rewrite (MmsData.bind_nil _ _ _ Em). cbn match.
      destruct (MmsData.copy_to_zero b q _ n Hxb Hat) as [E W]; [lia|]. rewrite Hx in E. rewrite E.
      eapply (received_buffer _ _ n buf _ _ (Z.abs mx) n); try done; try lia;
        [split_and!; try lia; by rewrite Z.abs_opp, Z.abs_eq by lia| |]; cbn [equals]; by rewrite decide_True.
  - element_case. by apply receive_visible_string.
  - element_case. subst. destruct Hv as (Hn & [Hb Hl]), Hw as (_ & Hbuf).
    assert (Hx : zlen (take (Z.to_nat size0) buf) = size0) by (rewrite length_take; lia).
    assert (Hxb : is_bytes (take (Z.to_nat size0) buf)) by (by apply Forall_take).
    rewrite Hx. rewrite decide_True by lia.
    destruct (copy_into b q _ _ _ Hxb Hat Hbuf) as [E W]; [lia|]. rewrite Hx in E. rewrite E.
    eapply (received_buffer _ _ size0 buf _ _ 6 6); try done; try lia;
      cbn [equals]; by rewrite decide_True.
  - element_case. destruct Hv as [Hb Hl]. unfold parseUtcTime. rewrite decide_True by done.
    unfold setUtcTimeByBuffer. change 8%nat with (Z.to_nat 8).
    destruct (copy_into b q t utcTime 8 Hb Hat Hw) as [E W]; [lia|]. rewrite Hl in E. rewrite E.
    eapply (received_buffer _ _ 8 t t _ 8 8); try done; try lia.
    by rewrite take_ge by lia.
Qed.

Definition receives (v : MmsValue) : Prop :=
  wf v -> MmsData.regular v -> MmsData.decodable v ->
  forall fuel b q w, fits v w -> wf w -> bytes_at b q (MmsData.content_of v) -> 0 <= q ->
  (Z.to_nat (zlen (MmsData.content_of v)) < fuel)%nat ->
  received v (parseElement (parseAllData_with (parseAllData_loop fuel)) (MmsData.tag_of v) b q
                (zlen (MmsData.content_of v)) w []).

Lemma setElement_next mk ws d ds w : mk = MmsArray \/ mk = MmsStructure ->
  setElement (mk (ws ++ d :: ds)) (zlen ws) (Some w) = mk ((ws ++ [Some w]) ++ ds).
Proof.
  intros Hmk. rewrite setElement_constructed by (try done; rewrite length_app; cbn [length]; lia).
  rewrite Nat2Z.id, insert_app_r_alt, Nat.sub_diag by done. by rewrite <- app_assoc.
Qed.

Lemma receive_components mk cs : (mk = MmsArray \/ mk = MmsStructure) ->
  all_components receives cs -> all_wf wf cs -> all_wf MmsData.regular cs ->
  all_wf (fun c => MmsData.decodable c /\ MmsData.is_mms_string c = false) cs ->
  forall ds ws fuel b p, all_fit fits cs ds -> all_wf wf ds ->
  bytes_at b p (MmsData.enc_components MmsData.enc_data cs) -> 0 <= p ->
  (Z.to_nat (zlen (MmsData.enc_components MmsData.enc_data cs)) < fuel)%nat ->
  exists es,
    parseAllData_loop fuel b (p + zlen (MmsData.enc_components MmsData.enc_data cs)) p (zlen ws)
      (zlen ws + zlen ds - 1) (mk (ws ++ ds)) [] =
      Some ((GOOSE_PARSE_ERROR_NO_ERROR, mk (ws ++ es)), []) /\
    same_components cs es.
Proof.
  intros Hmk. induction 1 as [|[c|] cs Hc _ IH]; intros Hw Hr Hd ds ws fuel b p Hf Hds Hat Hp Hfuel;
    cbn [all_wf] in Hw, Hr, Hd; [| |tauto].
  { destruct ds as [|d ds]; [|done]. destruct fuel as [|fuel]; [lia|]. exists [].
    cbn [parseAllData_loop MmsData.enc_components]. rewrite decide_False by (simpl; lia).
    unfold underflow. rewrite decide_False by (simpl; lia). split; [done|constructor]. }
  destruct ds as [|[d|] ds]; try done. destruct Hf as [Hf Hfs], Hds as [Hwd Hwds].
  destruct Hw as [Hw Hws], Hr as [Hr Hrs], Hd as [[Hd Hs] Hds].
  cbn [MmsData.enc_components] in *. set (rest := MmsData.enc_components MmsData.enc_data cs) in *.
  rewrite length_app in *. apply bytes_at_app in Hat as [Hat1 Hat2].
  destruct (MmsData.enc_data_tlv c Hw Hr Hd) as (He & Hl & _).
  pose proof (MmsData.enc_data_size c Hw Hr) as Hsz. rewrite He in Hat1, Hat2, Hsz, Hfuel |- *.
  set (max := p + Z.of_nat _).
  destruct (BerDecoder.tlv_head b p _ _ max 0 Hat1 Hl) as (q & Htag & Hdec & Hq & Hpq & Hend); [lia|].
  destruct fuel as [|fuel]; [lia|]. cbn [parseAllData_loop].
  rewrite decide_True by lia. rewrite (MmsData.lift_nil _ _ _ Htag).
  rewrite decide_False by (cbn [length]; lia).
  assert (Eg : getElement (mk (ws ++ Some d :: ds)) (zlen ws) = Some d).
  { destruct Hmk as [-> | ->]; cbn [getElement]; rewrite decide_False
      by (rewrite length_app; cbn [length]; lia);
      rewrite Nat2Z.id, lookup_app_r, Nat.sub_diag by done; done. }
  rewrite Eg. rewrite (MmsData.lift_nil _ _ _ Hdec). cbn match. rewrite decide_False by lia.
  destruct (Hc Hw Hr Hd fuel b q d Hf Hwd Hq) as (w & E & Hww & Hsame); [lia|lia|].
  rewrite (MmsData.bind_nil _ _ _ E). cbn [fst snd]. rewrite decide_False by tauto.
  rewrite setElement_next by done.
  destruct (IH Hws Hrs Hds ds (ws ++ [Some w]) fuel b (q + zlen (MmsData.content_of c)) Hfs Hwds)
    as (es & E' & Hes); [by rewrite Hend|lia|lia|].
  fold rest in E'. exists (Some w :: es). split.
  - replace (ws ++ Some w :: es) with ((ws ++ [Some w]) ++ es) by (by rewrite <- app_assoc).
    rewrite <- E'. rewrite length_app. cbn [length]. unfold max. f_equal; lia.
  - constructor; [|done]. by exists c, w.
Qed.

Lemma receive_constructed mk tag cs :
  (mk = MmsArray /\ tag = 0xa1 \/ mk = MmsStructure /\ tag = 0xa2) ->
  all_components receives cs -> receives (mk cs).
Proof.
  intros Hmk Hcs Hw Hr Hd fuel b q w Hf Hww Hat Hq Hfuel.
  assert (Hk : mk = MmsArray \/ mk = MmsStructure) by tauto.
  assert (Hc : MmsData.content_of (mk cs) = MmsData.enc_components MmsData.enc_data cs).
  { by destruct Hk as [-> | ->]. }
  assert (Hds : exists ds, w = mk ds /\ all_fit fits cs ds /\ all_wf wf ds).
  { destruct Hk as [-> | ->]; destruct w as [ds|ds| | | | | | | | | | | ]; try done; by exists ds. }
  destruct Hds as (ds & -> & Hfit & Hwds). rewrite Hc in *. set (xs := MmsData.enc_components _ cs) in *.
  assert (Hl : length cs = length ds).
  { clear -Hfit. revert ds Hfit. induction cs as [|[c|] cs IH]; intros [|[d|] ds]; cbn; try done.
    intros [_ H]. f_equal. by apply IH. }
  destruct (receive_components mk cs Hk Hcs) with (ds := ds) (ws := @nil (option MmsValue)) (fuel := fuel)
    (b := from b q) (p := 0) as (es & E & Hes); try done; try lia.
  { by destruct Hk as [-> | ->]. }
  { destruct Hk as [-> | ->]; apply Hr. }
  { destruct Hk as [-> | ->]; apply Hd. }
  { by apply bytes_at_from. }
  fold xs in E. cbn [app] in E. change (zlen []) with 0 in E. rewrite !Z.add_0_l in E.
  assert (Ep : parseAllData_with (parseAllData_loop fuel) (from b q) (zlen xs) (mk ds) [] =
    Some ((GOOSE_PARSE_ERROR_NO_ERROR, mk es), [])).
  { unfold parseAllData_with.
    rewrite (MmsData.lift_nil (getArraySize (mk ds)) _ (zlen ds)) by (by destruct Hk as [-> | ->]).
    exact E. }
  apply same_components_equals in Hes. exists (mk es).
  destruct Hmk as [[-> ->]|[-> ->]]; cbn [MmsData.tag_of]; element_case;
    rewrite (MmsData.bind_nil _ _ _ Ep); cbn [fst snd]; rewrite decide_False by tauto;
    (split; [done|]); cbn [wf]; tauto.
Qed.

Lemma receive_spec v : receives v.
Proof.
  induction v as [cs Hcs|cs Hcs|v Hleaf] using MmsValue_ind'.
  - apply (receive_constructed MmsArray 0xa1); tauto.
  - apply (receive_constructed MmsStructure 0xa2); tauto.
  - intros Hw Hr Hd fuel b q w Hf Hww Hat Hq _. by apply receive_leaf.
Qed.

(** The data set entries a publisher can send and every receiver can parse. *)
Definition sendable (v : MmsValue) : Prop :=
  wf v /\ MmsData.regular v /\ MmsData.decodable v /\ MmsData.is_mms_string v = false.

Lemma sendable_components cs : all_wf sendable cs ->
  all_wf wf cs /\ all_wf MmsData.regular cs /\
  all_wf (fun c => MmsData.decodable c /\ MmsData.is_mms_string c = false) cs.
Proof. unfold sendable. induction cs as [|[c|] cs IH]; cbn; tauto. Qed.

Lemma receive_dataSet mk cs ds b :
  (mk = MmsArray \/ mk = MmsStructure) -> all_wf sendable cs -> all_fit fits cs ds -> all_wf wf ds ->
  bytes_at b 0 (MmsData.enc_components MmsData.enc_data cs) ->
  exists es, parseAllData b (zlen (MmsData.enc_components MmsData.enc_data cs)) (mk ds) [] =
    Some ((GOOSE_PARSE_ERROR_NO_ERROR, mk es), []) /\ same_components cs es.
Proof.
  intros Hk Hcs Hfit Hds Hat. apply sendable_components in Hcs as (Hw & Hr & Hd).
  destruct (receive_components mk cs Hk) with (ds := ds) (ws := @nil (option MmsValue))
    (fuel := S (Z.to_nat (zlen (MmsData.enc_components MmsData.enc_data cs))))
    (b := b) (p := 0) as (es & E & Hes); try done; try lia.
  { apply Forall_forall. intros [c|] _; [apply receive_spec|done]. }
  exists es. split; [|done]. unfold parseAllData, parseAllData_with.
  rewrite (MmsData.lift_nil (getArraySize (mk ds)) _ (zlen ds)) by (by destruct Hk as [-> | ->]).
  exact E.
Qed.

End GooseData.
