(* ===== verification/GooseReceiver.v ===== *)
(** * The GOOSE receiver

    [src/goose/goose_receiver.c]: from the Ethernet frame to the values and the state
    of the subscribers.  Pointers to subscribers are keys of a store, which the
    receiver shares with the application.  The frames of the Ethernet layer and the clock are arguments,
    the calls of listeners are part of the result. *)

From S2P Require Import Prelude Alloc BerEncoder BerDecoder BerInteger MmsValue MmsData.
From S2P Require Import GooseSubscriber GooseData.

Module GooseReceiver.
Import Alloc MmsValue GooseSubscriber GooseData.
#[local] Open Scope alloc_scope.

Definition ETH_BUFFER_LENGTH : Z := 1518.

(** ** The PDU *)

(** The subscribers the application and the receiver point to. *)
Abbreviation subscribers := (gmap Z GooseSubscriber).

(** The local variables of [parseGoosePayload].  [timestampBufPos] and [dataSet] are
    the buffer from the position they point to on. *)
Record payload := {
  p_timeAllowedToLive : Z;
  p_stNum : Z;
  p_sqNum : Z;
  p_confRev : Z;
  p_simulation : bool;
  p_ndsCom : bool;
  matchingSubscriber : option Z;
  timestampBufPos : option (list Z);
  dataSetBufferAddress : list Z;
  dataSetBufferLength : Z;
  numberOfDatSetEntries : Z;
}.

Definition no_payload : payload :=
  {| p_timeAllowedToLive := 0; p_stNum := 0; p_sqNum := 0; p_confRev := 0; p_simulation := false;
     p_ndsCom := false; matchingSubscriber := None; timestampBufPos := None;
     dataSetBufferAddress := []; dataSetBufferLength := 0; numberOfDatSetEntries := 0 |}.

Definition set_matching (p : payload) (m : option Z) : payload :=
  {| p_timeAllowedToLive := p_timeAllowedToLive p; p_stNum := p_stNum p; p_sqNum := p_sqNum p;
     p_confRev := p_confRev p; p_simulation := p_simulation p; p_ndsCom := p_ndsCom p;
     matchingSubscriber := m; timestampBufPos := timestampBufPos p;
     dataSetBufferAddress := dataSetBufferAddress p; dataSetBufferLength := dataSetBufferLength p;
     numberOfDatSetEntries := numberOfDatSetEntries p |}.

Definition set_buffers (p : payload) (t : option (list Z)) (ds : list Z) (len : Z) : payload :=
  {| p_timeAllowedToLive := p_timeAllowedToLive p; p_stNum := p_stNum p; p_sqNum := p_sqNum p;
     p_confRev := p_confRev p; p_simulation := p_simulation p; p_ndsCom := p_ndsCom p;
     matchingSubscriber := matchingSubscriber p; timestampBufPos := t;
     dataSetBufferAddress := ds; dataSetBufferLength := len;
     numberOfDatSetEntries := numberOfDatSetEntries p |}.

Definition set_numbers (p : payload) (ttl st sq rev entries : Z) (sim nds : bool) : payload :=
  {| p_timeAllowedToLive := ttl; p_stNum := st; p_sqNum := sq; p_confRev := rev;
     p_simulation := sim; p_ndsCom := nds; matchingSubscriber := matchingSubscriber p;
     timestampBufPos := timestampBufPos p; dataSetBufferAddress := dataSetBufferAddress p;
     dataSetBufferLength := dataSetBufferLength p; numberOfDatSetEntries := entries |}.

(** [memcpy(string, buffer + bufPos, elementLength); string[elementLength] = 0] *)
Definition storeString (string buffer : list Z) (bufPos elementLength : Z) : option (list Z) :=
  '(string, _) ← copy_bytes (Z.to_nat elementLength) buffer bufPos string 0;
  string.[elementLength]:= 0.

(** The search for the subscriber of a [gocbRef]. *)
Fixpoint findMatching (list : list Z) (subs : subscribers) (buffer : Datatypes.list Z)
    (bufPos elementLength : Z) : option (subscribers * option Z) :=
  match list with
  | [] => Some (subs, None)
  | id :: rest =>
      subscriber ← subs !! id;
      if isObserver subscriber then
        if decide (elementLength > 129) then Some (subs, Some id)
        else
          cb ← storeString (goCBRef subscriber) buffer bufPos elementLength;
          Some (<[id := with_strings subscriber cb (datSet subscriber) (goId subscriber)]> subs,
                Some id)
      else if decide (goCBRefLen subscriber = elementLength) then
        equal ← memcmp elementLength (goCBRef subscriber) (from buffer bufPos);
        if (equal : bool) then Some (subs, Some id)
        else findMatching rest subs buffer bufPos elementLength
      else findMatching rest subs buffer bufPos elementLength
  end.

(** Stores a string of the PDU in the matching subscriber, if it fits. *)
Definition storeInMatching (f : GooseSubscriber -> option GooseSubscriber) (subs : subscribers)
    (p : payload) (elementLength : Z) : option subscribers :=
  match matchingSubscriber p with
  | Some id =>
      if decide (elementLength > 129) then Some subs
      else subscriber ← subs !! id; s ← f subscriber; Some (<[id := s]> subs)
  | None => Some subs
  end.

(** The switch over the tag; [None] for the [return] when no subscriber matches. *)
Definition parseField (list : list Z) (tag : Z) (buffer : Datatypes.list Z)
    (bufPos elementLength : Z) (subs : subscribers) (p : payload)
    : option (subscribers * option payload) :=
  let num := BerDecoder.decodeUint32 buffer elementLength bufPos in
  let flag := BerDecoder.decodeBoolean buffer elementLength bufPos in
  let '(ttl, st, sq, rev, entries, sim, nds) :=
    (p_timeAllowedToLive p, p_stNum p, p_sqNum p, p_confRev p, numberOfDatSetEntries p,
     p_simulation p, p_ndsCom p) in
  if decide (tag = 0x80) then
    '(subs, m) ← findMatching list subs buffer bufPos elementLength;
    let m := match m with Some id => Some id | None => matchingSubscriber p end in
    Some (subs, match m with Some _ => Some (set_matching p m) | None => None end)
  else if decide (tag = 0x81) then v ← num; Some (subs, Some (set_numbers p v st sq rev entries sim nds))
  else if decide (tag = 0x82) then
    subs ← storeInMatching
      (fun s => ds ← storeString (datSet s) buffer bufPos elementLength;
                Some (with_strings s (goCBRef s) ds (goId s))) subs p elementLength;
    Some (subs, Some p)
  else if decide (tag = 0x83) then
    subs ← storeInMatching
      (fun s => id ← storeString (goId s) buffer bufPos elementLength;
                Some (with_strings s (goCBRef s) (datSet s) id)) subs p elementLength;
    Some (subs, Some p)
  else if decide (tag = 0x84) then
    Some (subs, Some (if decide (elementLength < 8) then p
                      else set_buffers p (Some (from buffer bufPos)) (dataSetBufferAddress p)
                             (dataSetBufferLength p)))
  else if decide (tag = 0x85) then v ← num; Some (subs, Some (set_numbers p ttl v sq rev entries sim nds))
  else if decide (tag = 0x86) then v ← num; Some (subs, Some (set_numbers p ttl st v rev entries sim nds))
  else if decide (tag = 0x87) then b ← flag; Some (subs, Some (set_numbers p ttl st sq rev entries b nds))
  else if decide (tag = 0x88) then v ← num; Some (subs, Some (set_numbers p ttl st sq v entries sim nds))
  else if decide (tag = 0x89) then b ← flag; Some (subs, Some (set_numbers p ttl st sq rev entries sim b))
  else if decide (tag = 0x8a) then v ← num; Some (subs, Some (set_numbers p ttl st sq rev v sim nds))
  else if decide (tag = 0xab) then
    Some (subs, Some (set_buffers p (timestampBufPos p) (from buffer bufPos) elementLength))
  else Some (subs, Some p).

(** The loop over the fields, each of which takes at least two octets. *)
Fixpoint parseFields (fuel : nat) (list : list Z) (buffer : Datatypes.list Z)
    (gooseEnd bufPos : Z) (subs : subscribers) (p : payload)
    : option (subscribers * option payload) :=
  match fuel with
  | O => None
  | S fuel =>
      if decide (bufPos < gooseEnd) then
        tag ← buffer.[bufPos];
        '(bufPos, elementLength) ← BerDecoder.decodeLength buffer 0 (bufPos + 1) gooseEnd;
        if decide (bufPos < 0) then Some (subs, None)
        else
          '(subs, p) ← parseField list tag buffer bufPos elementLength subs p;
          match p with
          | Some p => parseFields fuel list buffer gooseEnd (bufPos + elementLength) subs p
          | None => Some (subs, None)
          end
      else Some (subs, Some p)
  end.

(** What is done to the matching subscriber at the end of the PDU.  [now]: the result
    of [Hal_getMonotonicTimeInMs]. *)
Definition updateSubscriber (s : GooseSubscriber) (p : payload) (now : Z)
    : alloc GooseSubscriber :=
  let values :=
    if decide (dataSetValuesSelfAllocated s = true /\ confRev s <> p_confRev p)
    then None else dataSetValues s in
  t <~ m_lift (t ← timestamp s;
               match timestampBufPos p with
               | Some buf => setUtcTimeByBuffer t buf 0
               | None => setUtcTime t 0
               end);
  let s := with_header s (p_timeAllowedToLive p) (p_confRev p) (p_ndsCom p) (p_simulation p) (Some t) in
  let values := if isObserver s then None else values in
  r <~ match values with
       | None =>
           r <~ parseAllDataUnknownValue (dataSetBufferAddress p) (dataSetBufferLength p) false 0
                  (dataSetValuesSelfAllocated s);
           m_ret (with_data s (fst r) (snd r) (parseError s), true)
       | Some values =>
           r <~ parseAllData (dataSetBufferAddress p) (dataSetBufferLength p) values;
           m_ret (with_data s (Some (snd r)) (dataSetValuesSelfAllocated s) (fst r),
                  bool_decide (fst r = GOOSE_PARSE_ERROR_NO_ERROR))
       end;
  let '(s, isValid) := r in
  let isValid := if decide (stNum s = p_stNum p /\ sqNum s >= p_sqNum p) then false else isValid in
  m_ret (with_state s isValid (p_stNum p) (p_sqNum p) (u64 (now + p_timeAllowedToLive p))).

(** The subscribers, the return value, and the call of a listener with a subscriber. *)
Definition parseGoosePayload (list : list Z) (subs : subscribers) (buffer : Datatypes.list Z)
    (apduLength now : Z) : alloc (subscribers * Z * option (Z * Z * Z)) :=
  tag <~ m_lift (buffer.[0]);
  if decide (tag = 0x61) then
    r <~ m_lift (BerDecoder.decodeLength buffer 0 1 apduLength);
    let '(bufPos, gooseLength) := r in
    if decide (bufPos < 0) then m_ret (subs, 0, None)
    else
      let gooseEnd := bufPos + gooseLength in
      r <~ m_lift (parseFields (S (Z.to_nat gooseLength)) list buffer gooseEnd bufPos subs no_payload);
      let '(subs, p) := r in
      match p with
      | None => m_ret (subs, 0, None)
      | Some p =>
          match matchingSubscriber p with
          | Some id =>
              subscriber <~ m_lift (subs !! id);
              s <~ updateSubscriber subscriber p now;
              m_ret (<[id := s]> subs, 1,
                     match listener s with Some (l, par) => Some (l, par, id) | None => None end)
          | None => m_ret (subs, 0, None)
          end
      end
  else m_ret (subs, -1, None).

(** ** The frame *)

(** The search for a subscriber that is interested in the message. *)
Fixpoint findInterested (list : list Z) (subs : subscribers) (msgAppId : Z)
    (srcMacMsg dstMacMsg : Datatypes.list Z) (vlan : bool) (vlanIdMsg priority : Z)
    : option (subscribers * bool) :=
  match list with
  | [] => Some (subs, false)
  | id :: rest =>
      s ← subs !! id;
      if isObserver s then
        '(src, _) ← copy_bytes 6 srcMacMsg 0 (srcMac s) 0;
        '(dst, _) ← copy_bytes 6 dstMacMsg 0 (dstMac s) 0;
        Some (<[id := with_address s src dst (dstMacSet s) msgAppId vlan vlanIdMsg priority]> subs, true)
      else if decide (appId s = -1 \/ appId s = msgAppId) then
        equal ← (if dstMacSet s then memcmp 6 (dstMac s) dstMacMsg else Some true);
        if (equal : bool) then Some (subs, true)
        else findInterested rest subs msgAppId srcMacMsg dstMacMsg vlan vlanIdMsg priority
      else findInterested rest subs msgAppId srcMacMsg dstMacMsg vlan vlanIdMsg priority
  end.

(** The fields of the frame in front of the PDU, after the tests of
    [parseGooseMessage]; [None] for its early returns. *)
Record frame_info := {
  f_srcMac : list Z; f_dstMac : list Z; f_appId : Z; f_vlanSet : bool; f_vlanId : Z;
  f_priority : Z; f_payloadPos : Z; f_apduLength : Z }.

Definition parseHeader (buffer : list Z) (numbytes : Z) : option (option frame_info) :=
  if decide (numbytes < 22) then Some None
  else
    b12 ← buffer.[12]; b13 ← buffer.[13];
    b14 ← buffer.[14]; b15 ← buffer.[15];
    let vlan := bool_decide (b12 = 0x81 /\ b13 = 0x00) in
    let priority := if vlan then Z.land b14 (Z.shiftr 0xF8 5) else 0 in
    let vlanId := if vlan then Z.shiftl (Z.land b14 0x07) 8 + b15 else 0 in
    let bufPos := if vlan then 16 else 12 in
    let headerLength := if vlan then 18 else 14 in
    if decide (vlan = true /\ numbytes < 22 + 4) then Some None
    else
      e1 ← buffer.[bufPos]; e2 ← buffer.[bufPos + 1];
      if decide (e1 <> 0x88) then Some None
      else if decide (e2 <> 0xb8) then Some None
      else
        srcMac ← rds 6 buffer 6;
        dstMac ← rds 6 buffer 0;
        a1 ← buffer.[bufPos + 2]; a2 ← buffer.[bufPos + 3];
        let appId := u16 (u16 (a1 * 0x100) + a2) in
        l1 ← buffer.[bufPos + 4]; l2 ← buffer.[bufPos + 5];
        let length := u16 (u16 (l1 * 0x100) + l2) in
        let apduLength := length - 8 in
        if decide (apduLength < 0) then Some None
        else if decide (numbytes <= length + headerLength) then Some None
        else Some (Some
          {| f_srcMac := srcMac; f_dstMac := dstMac; f_appId := appId; f_vlanSet := vlan;
             f_vlanId := vlanId; f_priority := priority; f_payloadPos := bufPos + 10;
             f_apduLength := apduLength |}).

(** The subscribers and the call of a listener. *)
Definition parseGooseMessage (list : list Z) (subs : subscribers) (buffer : Datatypes.list Z)
    (numbytes now : Z) : alloc (subscribers * option (Z * Z * Z)) :=
  header <~ m_lift (parseHeader buffer numbytes);
  match header with
  | None => m_ret (subs, None)
  | Some h =>
      r <~ m_lift (findInterested list subs (f_appId h) (f_srcMac h) (f_dstMac h) (f_vlanSet h)
                     (f_vlanId h) (f_priority h));
      let '(subs, subscriberFound) := r in
      if (subscriberFound : bool) then
        r <~ parseGoosePayload list subs (from buffer (f_payloadPos h)) (f_apduLength h) now;
        let '(subs, _, call) := r in m_ret (subs, call)
      else m_ret (subs, None)
  end.

(** ** The receiver *)

(** [interfaceId] is the list of its characters; [ethSocket] is whether there is a
    socket; [buffer] and [subscriberList] are [None] when they were not allocated. *)
Record GooseReceiver := {
  running : bool; stop : bool; interfaceId : option (list Z); buffer : option (list Z);
  ethSocket : bool; subscriberList : option (list Z) }.

Definition createEx (buffer : option (list Z)) : alloc (option GooseReceiver) :=
  ok <~ malloc;
  if (ok : bool) then
    list <~ malloc;
    m_ret (Some {| running := false; stop := false; interfaceId := None; buffer := buffer;
                   ethSocket := false; subscriberList := if (list : bool) then Some [] else None |})
  else m_ret None.

Definition set_buffer (self : GooseReceiver) (b : option (list Z)) : GooseReceiver :=
  {| running := running self; stop := stop self; interfaceId := interfaceId self; buffer := b;
     ethSocket := ethSocket self; subscriberList := subscriberList self |}.
Definition set_list (self : GooseReceiver) (l : option (list Z)) : GooseReceiver :=
  {| running := running self; stop := stop self; interfaceId := interfaceId self;
     buffer := buffer self; ethSocket := ethSocket self; subscriberList := l |}.
Definition set_interface (self : GooseReceiver) (id : option (list Z)) : GooseReceiver :=
  {| running := running self; stop := stop self; interfaceId := id; buffer := buffer self;
     ethSocket := ethSocket self; subscriberList := subscriberList self |}.
Definition set_running (self : GooseReceiver) (run socket : bool) : GooseReceiver :=
  {| running := run; stop := stop self; interfaceId := interfaceId self; buffer := buffer self;
     ethSocket := socket; subscriberList := subscriberList self |}.

Definition create : alloc (option GooseReceiver) :=
  self <~ createEx None;
  match self with
  | Some self =>
      ok <~ malloc;
      m_ret (if (ok : bool) then Some (set_buffer self (Some (fresh ETH_BUFFER_LENGTH))) else None)
  | None => m_ret None
  end.

(** [LinkedList_add] appends; nothing is added when its node cannot be allocated.
    [LinkedList_remove] removes the first node that holds the pointer. *)
Definition addSubscriber (self : GooseReceiver) (subscriber : Z) : alloc GooseReceiver :=
  ok <~ malloc;
  if (ok : bool) then
    l <~ m_lift (subscriberList self); m_ret (set_list self (Some (l ++ [subscriber])))
  else m_ret self.

Fixpoint remove_first (l : list Z) (x : Z) : list Z :=
  match l with
  | [] => []
  | y :: l => if decide (y = x) then l else y :: remove_first l x
  end.

Definition removeSubscriber (self : GooseReceiver) (subscriber : Z) : option GooseReceiver :=
  l ← subscriberList self; Some (set_list self (Some (remove_first l subscriber))).

Definition setInterfaceId (self : GooseReceiver) (id : list Z) : alloc GooseReceiver :=
  ok <~ malloc; m_ret (set_interface self (if (ok : bool) then Some id else None)).

(** [default_id]: [CONFIG_ETHERNET_INTERFACE_ID] *)
Definition getInterfaceId (default_id : list Z) (self : GooseReceiver) : list Z :=
  match interfaceId self with Some id => id | None => default_id end.

Definition isRunning (self : GooseReceiver) : bool := running self.

(** The calls made to a new socket. *)
Inductive socket_call :=
  | Ethernet_setProtocolFilter (etherType : Z)
  | Ethernet_setMode_MULTICAST
  | Ethernet_setMode_ALL_MULTICAST
  | Ethernet_addMulticastAddress (mac : list Z).

Fixpoint multicast_calls (list : list Z) (subs : subscribers) : option (Datatypes.list socket_call) :=
  match list with
  | [] => Some []
  | id :: rest =>
      s ← subs !! id;
      calls ← multicast_calls rest subs;
      Some ((if dstMacSet s then Ethernet_addMulticastAddress (dstMac s)
             else Ethernet_setMode_ALL_MULTICAST) :: calls)
  end.

(** [socket]: whether [Ethernet_createSocket] gives one. *)
Definition startThreadless (self : GooseReceiver) (subs : subscribers) (socket : bool)
    : option (GooseReceiver * list socket_call) :=
  if socket then
    l ← subscriberList self;
    calls ← multicast_calls l subs;
    Some (set_running self true true,
          Ethernet_setProtocolFilter 0x88b8 :: Ethernet_setMode_MULTICAST :: calls)
  else Some (set_running self false false, []).

Definition stopThreadless (self : GooseReceiver) : GooseReceiver :=
  set_running self false (ethSocket self).

(** [packet]: what [Ethernet_receivePacket] stores in the buffer. *)
Definition tick (self : GooseReceiver) (subs : subscribers) (packet : list Z) (now : Z)
    : alloc (GooseReceiver * subscribers * bool * option (Z * Z * Z)) :=
  if decide (zlen packet > 0) then
    b <~ m_lift (b ← buffer self; '(b, _) ← copy_bytes (length packet) packet 0 b 0; Some b);
    l <~ m_lift (subscriberList self);
    r <~ parseGooseMessage l subs b (zlen packet) now;
    m_ret (set_buffer self (Some b), fst r, true, snd r)
  else m_ret (self, subs, false, None).

Definition handleMessage (self : GooseReceiver) (subs : subscribers) (buffer : list Z)
    (size now : Z) : alloc (subscribers * option (Z * Z * Z)) :=
  l <~ m_lift (subscriberList self); parseGooseMessage l subs buffer size now.

(** ** Safety

    What [GooseSubscriber.create] and the setters establish: the arrays have their sizes,
    the reference fits its array, there is a time stamp, and the data set can be stored
    into. *)

Record subscriber_ok (s : GooseSubscriber) : Prop := {
  sub_cb : wf_buf (goCBRef s) 130;
  sub_ds : wf_buf (datSet s) 130;
  sub_id : wf_buf (goId s) 130;
  sub_len : 0 <= goCBRefLen s <= 130;
  sub_time : exists t, timestamp s = Some t /\ wf_buf t 8;
  sub_src : wf_buf (srcMac s) 6;
  sub_dst : wf_buf (dstMac s) 6;
  sub_values : forall v, dataSetValues s = Some v -> storable v /\ exists n, getArraySize v = Some n;
}.

(** The store holds every subscriber of the list, and all are well-formed. *)
Definition store_ok (list : list Z) (subs : subscribers) : Prop :=
  Forall (fun id => is_Some (subs !! id)) list /\ map_Forall (fun _ => subscriber_ok) subs.

Lemma store_ok_lookup list subs id : store_ok list subs -> id ∈ list ->
  exists s, subs !! id = Some s /\ subscriber_ok s.
Proof.
  intros [Hl Hs] Hin. rewrite Forall_forall in Hl. destruct (Hl id Hin) as [s E].
  exists s. split; [done|]. exact (Hs id s E).
Qed.

Lemma store_ok_insert list subs id s : store_ok list subs -> subscriber_ok s ->
  store_ok list (<[id := s]> subs).
Proof.
  intros [Hl Hs] Ho. split; [|by apply map_Forall_insert_2].
  eapply Forall_impl; [exact Hl|]. intros i Hi. cbn in *. apply lookup_insert_is_Some'. by right.
Qed.

Lemma storeString_total string b q n : wf_buf string 130 -> is_bytes b -> 0 <= q -> 0 <= n <= 129 ->
  q + n <= zlen b -> exists s, storeString string b q n = Some s /\ wf_buf s 130.
Proof.
  intros Hs Hb Hq Hn Hl. unfold storeString.
  destruct (copy_total b q n string 130 Hb) as (o & p & -> & W); try done; try lia. cbn [mbind option_bind].
  apply wr_total; [done|lia].
Qed.

Lemma subscriber_ok_strings s cb ds id : subscriber_ok s ->
  wf_buf cb 130 -> wf_buf ds 130 -> wf_buf id 130 -> subscriber_ok (with_strings s cb ds id).
Proof. intros [? ? ? ? ? ? ? ?]. by constructor. Qed.

Lemma findMatching_total list all subs b q n :
  store_ok all subs -> list ⊆ all -> is_bytes b -> 0 <= q -> 0 <= n -> q + n <= zlen b ->
  exists subs' m, findMatching list subs b q n = Some (subs', m) /\ store_ok all subs' /\
    match m with Some id => id ∈ all | None => True end.
Proof.
  intros Hs Hsub Hb Hq Hn Hl. induction list as [|id rest IH]; cbn [findMatching]; [eauto|].
  assert (Hid : id ∈ all) by (apply Hsub; constructor).
  assert (Hrest : rest ⊆ all) by (intros x Hx; apply Hsub; by constructor).
  destruct (store_ok_lookup all subs id Hs Hid) as (s & -> & Hok). cbn [mbind option_bind].
  destruct (isObserver s).
  - case_decide; [by eexists _, _|].
    destruct (storeString_total (goCBRef s) b q n (sub_cb _ Hok) Hb) as (cb & -> & W); [lia..|].
    cbn [mbind option_bind]. eexists _, _. split; [done|]. split; [|done].
    apply store_ok_insert; [done|]. apply subscriber_ok_strings; (done || apply Hok).
  - case_decide as He; [|by apply IH].
    destruct (memcmp_total n (goCBRef s) (from b q)) as (r & ->); [lia| | |].
    { destruct (sub_cb _ Hok) as [_ ->]. pose proof (sub_len _ Hok). lia. }
    { rewrite from_length; lia. }
    cbn [mbind option_bind]. destruct r; [by eexists _, _|by apply IH].
Qed.

(** What the fields read so far promise. *)
Record payload_ok (list : list Z) (p : payload) : Prop := {
  pay_matching : forall id, matchingSubscriber p = Some id -> id ∈ list;
  pay_time : forall t, timestampBufPos p = Some t -> is_bytes t /\ 8 <= zlen t;
  pay_data : is_bytes (dataSetBufferAddress p) /\ 0 <= dataSetBufferLength p <= zlen (dataSetBufferAddress p);
}.

Lemma decodeBoolean_total b n q : is_bytes b -> 0 <= q -> 0 <= n -> q + n <= zlen b ->
  exists v, BerDecoder.decodeBoolean b n q = Some v.
Proof.
  intros Hb Hq Hn Hl. unfold BerDecoder.decodeBoolean. case_decide; [by eexists|].
  destruct (rd_ok b q Hb) as (x & -> & _); [lia|]. by eexists.
Qed.

Lemma storeInMatching_total list subs p n f :
  store_ok list subs -> payload_ok list p ->
  (n <= 129 -> forall s, subscriber_ok s -> exists s', f s = Some s' /\ subscriber_ok s') ->
  exists subs', storeInMatching f subs p n = Some subs' /\ store_ok list subs'.
Proof.
  intros Hs Hp Hf. unfold storeInMatching. destruct (matchingSubscriber p) as [id|] eqn:Em; [|eauto].
  case_decide; [eauto|].
  destruct (store_ok_lookup list subs id Hs (pay_matching _ _ Hp id Em)) as (s & -> & Hok).
  cbn [mbind option_bind]. destruct (Hf ltac:(lia) s Hok) as (s' & -> & Hok').
  eexists. split; [done|]. by apply store_ok_insert.
Qed.

Lemma parseField_total list tag b q n subs p :
  store_ok list subs -> payload_ok list p -> is_bytes b -> 0 <= q -> 0 <= n -> q + n <= zlen b ->
  exists subs' p', parseField list tag b q n subs p = Some (subs', p') /\ store_ok list subs' /\
    match p' with Some p' => payload_ok list p' | None => True end.
Proof.
  intros Hs Hp Hb Hq Hn Hl. unfold parseField.
  destruct (BerDecoder.decodeUint32_total b n q Hb Hq Hn Hl) as (v & ->).
  destruct (decodeBoolean_total b n q Hb Hq Hn Hl) as (x & ->). cbn [mbind option_bind].
  assert (Hnum : forall ttl st sq rev entries sim nds,
    payload_ok list (set_numbers p ttl st sq rev entries sim nds)).
  { intros. destruct Hp. by constructor. }
  assert (Hret : forall p', payload_ok list p' -> exists subs' q', Some (subs, Some p') = Some (subs', q') /\
    store_ok list subs' /\ match q' with Some q' => payload_ok list q' | None => True end).
  { intros p' Hp'. by eexists _, _. }
  repeat case_decide; try (by apply Hret, Hnum); try (by apply Hret).
  - destruct (findMatching_total list list subs b q n Hs) as (subs' & m & -> & Hs' & Hm); try done.
    cbn [mbind option_bind]. eexists _, _. split; [done|]. split; [done|].
    assert (Hset : forall id, id ∈ list -> payload_ok list (set_matching p (Some id))).
    { intros id Hid. destruct Hp. constructor; try done. by intros ? [= <-]. }
    destruct m as [id|]; [by apply Hset|].
    destruct (matchingSubscriber p) as [id|] eqn:Em; [|done]. apply Hset. by apply (pay_matching _ _ Hp).
  - edestruct (storeInMatching_total list subs p n) as (subs' & -> & Hs'); [done|done| |by eexists _, _].
    cbn beta. intros Hfit s Hok. destruct (storeString_total (datSet s) b q n (sub_ds _ Hok) Hb) as (ds & -> & W);
      [lia..|]. eexists. split; [done|]. apply subscriber_ok_strings; (done || apply Hok).
  - edestruct (storeInMatching_total list subs p n) as (subs' & -> & Hs'); [done|done| |by eexists _, _].
    cbn beta. intros Hfit s Hok. destruct (storeString_total (goId s) b q n (sub_id _ Hok) Hb) as (ds & -> & W);
      [lia..|]. eexists. split; [done|]. apply subscriber_ok_strings; (done || apply Hok).
  - apply Hret. destruct Hp. constructor; try done. intros t [= <-].
    split; [by apply from_bytes|]. rewrite from_length; lia.
  - apply Hret. destruct Hp. constructor; try done. cbn.
    split; [by apply from_bytes|]. rewrite from_length; lia.
Qed.

Lemma parseFields_total fuel list b stop pos subs p :
  store_ok list subs -> payload_ok list p -> is_bytes b -> 0 <= pos -> stop <= zlen b ->
  (Z.to_nat (stop - pos) < fuel)%nat ->
  exists subs' p', parseFields fuel list b stop pos subs p = Some (subs', p') /\ store_ok list subs' /\
    match p' with Some p' => payload_ok list p' | None => True end.
Proof.
  revert pos subs p. induction fuel as [|fuel IH]; intros pos subs p Hs Hp Hb Hpos Hstop Hf; [lia|].
  cbn [parseFields]. case_decide; [|by eexists _, _].
  destruct (rd_ok b pos Hb) as (x & -> & _); [lia|]. cbn [mbind option_bind].
  destruct (BerDecoder.decodeLength_total b (pos + 1) stop 0 Hb) as (q & n & -> & Hq); [lia..|].
  cbn [mbind option_bind]. case_decide; [by eexists _, _|].
  destruct Hq as [->|(Hq & Hn & Hqn)]; [lia|].
  destruct (parseField_total list x b q n subs p Hs Hp Hb) as (subs' & p' & -> & Hs' & Hp'); [lia..|].
  cbn [mbind option_bind]. destruct p' as [p'|]; [|by eexists _, _]. apply IH; (done || lia).
Qed.

Lemma setUtcTime_zero t : wf_buf t 8 -> exists t', setUtcTime t 0 = Some t' /\ wf_buf t' 8.
Proof.
  intros [Hb Hl]. do 8 (destruct t as [|? t]; [simpl in Hl; lia|]). destruct t; [|simpl in Hl; lia].
  exists (0 :: 0 :: 0 :: 0 :: [z3; z4; z5; z6]). split; [reflexivity|]. split; [|done].
  repeat (apply Forall_cons in Hb as [? Hb]). repeat (apply Forall_cons_2; [done|]). constructor.
Qed.

Lemma updateSubscriber_runs list s p now :
  subscriber_ok s -> payload_ok list p -> runs (updateSubscriber s p now) (fun _ r => subscriber_ok r).
Proof.
  intros Hs Hp. unfold updateSubscriber. destruct (sub_time _ Hs) as (t & Et & Wt).
  assert (Ht : exists t', (t ← timestamp s; match timestampBufPos p with
      | Some buf => setUtcTimeByBuffer t buf 0 | None => setUtcTime t 0 end) = Some t' /\ wf_buf t' 8).
  { rewrite Et. cbn [mbind option_bind]. destruct (timestampBufPos p) as [buf|] eqn:Eb; [|by apply setUtcTime_zero].
    destruct (pay_time _ _ Hp buf Eb) as [Hb Hl]. unfold setUtcTimeByBuffer.
    destruct (copy_total buf 0 8 t 8 Hb) as (o & q & E & W); try done; try lia.
    change (Z.to_nat 8) with 8%nat in E. rewrite E. by exists o. }
  destruct Ht as (t' & Et' & Wt'). apply runs_bind. eapply runs_lift; [exact Et'|].
  set (s1 := with_header s _ _ _ _ _).
  assert (Hs1 : subscriber_ok s1) by (destruct Hs; constructor; try done; by exists t').
  assert (Hst : forall s2 v a b c, subscriber_ok s2 -> subscriber_ok (with_state s2 v a b c)).
  { intros s2 v a b c []. by constructor. }
  assert (Hda : forall v o pe, (forall w, v = Some w -> storable w /\ exists n, getArraySize w = Some n) ->
    subscriber_ok (with_data s1 v o pe)).
  { intros v o pe Hv. destruct Hs1. by constructor. }
  destruct (pay_data _ _ Hp) as [Hdb Hdl].
  set (values := if isObserver s1 then _ else _).
  assert (Hvalues : forall v, values = Some v -> storable v /\ exists n, getArraySize v = Some n).
  { intros v. unfold values. destruct (isObserver s1); [done|]. case_decide; [done|]. apply (sub_values _ Hs). }
  apply runs_bind. destruct values as [v|].
  - destruct (Hvalues v eq_refl) as [Hv [n En]]. apply runs_bind.
    eapply runs_mono; [apply (parseAllData_keeps _ _ v n Hdb (proj2 Hdl) En Hv)|].
    intros ok [pe w] [Hw Esh]. apply runs_ret. apply runs_ret, Hst, Hda. cbn. intros ? [= <-]. split; [done|].
    destruct v, w; try done; eexists; done.
  - apply runs_bind. eapply runs_mono; [apply (parseAllDataUnknownValue_makes _ _ false 0 _ Hdb Hdl)|].
    intros ok [v f] Hv. apply runs_ret, runs_ret, Hst, Hda. cbn in *. intros w ->. done.
Qed.

Lemma payload_ok_none list : payload_ok list no_payload.
Proof. constructor; try done. cbn. split; [constructor|lia]. Qed.

Lemma parseGoosePayload_runs list subs b len now :
  store_ok list subs -> is_bytes b -> 0 <= len <= zlen b -> 0 < zlen b ->
  runs (parseGoosePayload list subs b len now) (fun _ r => store_ok list (fst (fst r))).
Proof.
  intros Hs Hb Hl H0. unfold parseGoosePayload.
  destruct (rd_ok b 0 Hb) as (x & Ex & _); [lia|]. apply runs_bind. eapply runs_lift; [exact Ex|].
  case_decide; [|by apply runs_ret].
  destruct (BerDecoder.decodeLength_total b 1 len 0 Hb) as (q & n & E & Hq); [lia..|].
  apply runs_bind. eapply runs_lift; [exact E|]. cbn beta iota. case_decide; [by apply runs_ret|].
  destruct Hq as [->|(Hq & Hn & Hqn)]; [lia|].
  destruct (parseFields_total (S (Z.to_nat n)) list b (q + n) q subs no_payload Hs) as (subs' & p & E' & Hs' & Hp);
    [apply payload_ok_none|done|lia..|].
  apply runs_bind. eapply runs_lift; [exact E'|]. cbn beta iota.
  destruct p as [p|]; [|by apply runs_ret].
  destruct (matchingSubscriber p) as [id|] eqn:Em; [|by apply runs_ret].
  destruct (store_ok_lookup list subs' id Hs' (pay_matching _ _ Hp id Em)) as (s & Es & Hok).
  apply runs_bind. eapply runs_lift; [exact Es|]. apply runs_bind.
  eapply runs_mono; [by apply (updateSubscriber_runs list)|]. intros ok s' Hs''.
  apply runs_ret. by apply store_ok_insert.
Qed.

Definition header_ok (numbytes : Z) (h : frame_info) : Prop :=
  wf_buf (f_srcMac h) 6 /\ wf_buf (f_dstMac h) 6 /\ 0 <= f_payloadPos h /\ 0 <= f_apduLength h /\
  f_payloadPos h + f_apduLength h < numbytes.

Lemma rds_bytes b q n : is_bytes b -> 0 <= q -> q + Z.of_nat n <= zlen b ->
  exists xs, rds n b q = Some xs /\ wf_buf xs (Z.of_nat n).
Proof.
  intros Hb Hq Hl. destruct (rds_Some n b q Hq Hl) as (xs & E & Hx & Hat). exists xs. split; [done|].
  split; [by eapply bytes_at_is_bytes|lia].
Qed.

Ltac read_byte Hb i :=
  let x := fresh "x" in let E := fresh "E" in let H := fresh "Hx" in
  destruct (rd_ok _ i Hb) as (x & E & H); [lia|]; rewrite E; clear E; cbn [mbind option_bind].

Lemma parseHeader_total b numbytes : is_bytes b -> numbytes <= zlen b ->
  exists h, parseHeader b numbytes = Some h /\
    match h with Some h => header_ok numbytes h | None => True end.
Proof.
  intros Hb Hl. unfold parseHeader. case_decide; [by eexists|].
  read_byte Hb 12. read_byte Hb 13. read_byte Hb 14. read_byte Hb 15.
  set (vlan := bool_decide _). set (pos := if vlan then 16 else 12). set (hl := if vlan then 18 else 14).
  assert (Hpos : hl = pos + 2 /\ 12 <= pos) by (unfold pos, hl; destruct vlan; lia).
  case_decide as Hv; [by eexists|].
  assert (Hroom : pos + 10 <= numbytes).
  { unfold pos. destruct vlan; [|lia]. destruct (decide (numbytes < 22 + 4)); [tauto|lia]. }
  read_byte Hb pos. read_byte Hb (pos + 1). case_decide; [by eexists|]. case_decide; [by eexists|].
  destruct (rds_bytes b 6 6 Hb) as (src & -> & Wsrc); [lia..|]. cbn [mbind option_bind].
  destruct (rds_bytes b 0 6 Hb) as (dst & -> & Wdst); [lia..|]. cbn [mbind option_bind].
  read_byte Hb (pos + 2). read_byte Hb (pos + 3). read_byte Hb (pos + 4). read_byte Hb (pos + 5).
  case_decide; [by eexists|]. case_decide; [by eexists|]. eexists. split; [done|].
  unfold header_ok. cbn. split_and!; try done; lia.
Qed.

Lemma findInterested_total list all subs app src dst vlan vid prio :
  store_ok all subs -> list ⊆ all -> wf_buf src 6 -> wf_buf dst 6 ->
  exists subs' r, findInterested list subs app src dst vlan vid prio = Some (subs', r) /\ store_ok all subs'.
Proof.
  intros Hs Hsub [Hsrc Hsl] [Hdst Hdl]. induction list as [|id rest IH]; cbn [findInterested]; [eauto|].
  assert (Hid : id ∈ all) by (apply Hsub; constructor).
  assert (Hrest : rest ⊆ all) by (intros x Hx; apply Hsub; by constructor).
  destruct (store_ok_lookup all subs id Hs Hid) as (s & -> & Hok). cbn [mbind option_bind].
  destruct (isObserver s).
  - destruct (copy_total src 0 6 (srcMac s) 6 Hsrc) as (o & q & E & W); try lia; [apply (sub_src _ Hok)|].
    change (Z.to_nat 6) with 6%nat in E. rewrite E. cbn [mbind option_bind].
    destruct (copy_total dst 0 6 (dstMac s) 6 Hdst) as (o' & q' & E' & W'); try lia; [apply (sub_dst _ Hok)|].
    change (Z.to_nat 6) with 6%nat in E'. rewrite E'. cbn [mbind option_bind].
    eexists _, _. split; [done|]. apply store_ok_insert; [done|]. destruct Hok. by constructor.
  - case_decide; [|by apply IH].
    assert (Hm : exists r, (if dstMacSet s then memcmp 6 (dstMac s) dst else Some true) = Some r).
    { destruct (dstMacSet s); [|by eexists]. destruct (sub_dst _ Hok). apply memcmp_total; lia. }
    destruct Hm as [r ->]. cbn [mbind option_bind]. destruct r; [by eexists _, _|by apply IH].
Qed.

Lemma parseGooseMessage_runs list subs b numbytes now :
  store_ok list subs -> is_bytes b -> numbytes <= zlen b ->
  runs (parseGooseMessage list subs b numbytes now) (fun _ r => store_ok list (fst r)).
Proof.
  intros Hs Hb Hl. unfold parseGooseMessage.
  destruct (parseHeader_total b numbytes Hb Hl) as (h & E & Hh). apply runs_bind. eapply runs_lift; [exact E|].
  destruct h as [h|]; [|by apply runs_ret]. destruct Hh as (Hsrc & Hdst & Hpos & Hap & Hroom).
  destruct (findInterested_total list list subs (f_appId h) (f_srcMac h) (f_dstMac h) (f_vlanSet h)
    (f_vlanId h) (f_priority h) Hs) as (subs' & r & E' & Hs'); try done.
  apply runs_bind. eapply runs_lift; [exact E'|]. cbn beta iota. destruct r; [|by apply runs_ret].
  apply runs_bind. eapply runs_mono.
  { apply (parseGoosePayload_runs list); [done|by apply from_bytes|rewrite from_length; lia|rewrite from_length; lia]. }
  intros ok [[subs2 rc] call] H2. by apply runs_ret.
Qed.

(** ** The life of a receiver

    A receiver and the subscribers an application has made for it. *)

Record receiver_ok (self : GooseReceiver) (subs : subscribers) : Prop := {
  rec_list : exists list, subscriberList self = Some list /\ store_ok list subs;
  rec_buffer : exists b, buffer self = Some b /\ wf_buf b ETH_BUFFER_LENGTH;
}.

Lemma newUtcTime_0 mem r mem' : newUtcTime 0 mem = Some (r, mem') ->
  r = None \/ r = Some (MmsUtcTime (replicate 8 0)).
Proof. destruct mem as [|[] ?]; intros [= <- <-]; auto. Qed.

(** A subscriber for a reference of at most 129 characters. *)
Lemma create_ok b cb values mem s mem' :
  cstr b cb -> is_bytes b -> zlen cb <= 129 ->
  (forall v, values = Some v -> storable v /\ exists n, getArraySize v = Some n) ->
  GooseSubscriber.create b values mem = Some (Some s, mem') -> timestamp s <> None -> subscriber_ok s.
Proof.
  intros Hc Hb Hl Hv. unfold GooseSubscriber.create.
  destruct (copyStringMax_spec (replicate 130 0) 130 b cb Hc Hb) as (d & Ed & Hd & Hdl & Hdb);
    [lia|rewrite length_replicate; lia|].
  pose proof (wf_buf_replicate 130 0 ltac:(lia) ltac:(done)) as Hz130.
  pose proof (wf_buf_replicate 6 0 ltac:(lia) ltac:(done)) as Hz6.
  pose proof (wf_buf_replicate 6 255 ltac:(lia) ltac:(done)) as Hf6.
  unfold malloc, m_bind, m_ret, m_lift.
  rewrite Ed, (strlen_spec b cb Hc).
  assert (Hmk : forall mem0, (' (t, u) ← newUtcTime 0 mem0; Some (t, u)) = newUtcTime 0 mem0).
  { intros. by destruct (newUtcTime 0 mem0) as [[]|]. }
  destruct mem as [|[] mem]; cbn [mbind option_bind fst snd]; [..|done];
    (destruct (newUtcTime 0 _) as [[r mem1]|] eqn:Et; [|done]); cbn [mbind option_bind];
    intros [= <- <-]; apply newUtcTime_0 in Et as [-> | ->]; intros Ht; try done;
    (constructor; try done; cbn;
     [split; [by apply Hdb, Hz130|by rewrite Hdl]|rewrite s32_id by (unfold_int; lia); lia|eexists; split; [done|by apply (wf_buf_replicate 8 0)]]).
Qed.

(** What an application does with its receiver.  References have at most 129
    characters, a subscriber in the list stays allocated, and the allocations of [create] succeed. *)
Inductive receiver_step : GooseReceiver * subscribers -> GooseReceiver * subscribers -> Prop :=
| rs_subscriber self subs id b cb values mem s mem' :
    subs !! id = None -> cstr b cb -> is_bytes b -> zlen cb <= 129 ->
    (forall v, values = Some v -> storable v /\ exists n, getArraySize v = Some n) ->
    GooseSubscriber.create b values mem = Some (Some s, mem') -> timestamp s <> None ->
    receiver_step (self, subs) (self, <[id := s]> subs)
| rs_setDstMac self subs id s mac s' :
    subs !! id = Some s -> wf_buf mac 6 -> setDstMac s mac = Some s' ->
    receiver_step (self, subs) (self, <[id := s']> subs)
| rs_setAppId self subs id s app : subs !! id = Some s ->
    receiver_step (self, subs) (self, <[id := setAppId s app]> subs)
| rs_setListener self subs id s l : subs !! id = Some s ->
    receiver_step (self, subs) (self, <[id := setListener s l]> subs)
| rs_setObserver self subs id s : subs !! id = Some s ->
    receiver_step (self, subs) (self, <[id := setObserver s]> subs)
| rs_addSubscriber self subs id mem self' mem' :
    is_Some (subs !! id) -> addSubscriber self id mem = Some (self', mem') ->
    receiver_step (self, subs) (self', subs)
| rs_removeSubscriber self subs id self' :
    removeSubscriber self id = Some self' -> receiver_step (self, subs) (self', subs)
| rs_setInterfaceId self subs i mem self' mem' :
    setInterfaceId self i mem = Some (self', mem') -> receiver_step (self, subs) (self', subs)
| rs_startThreadless self subs socket self' calls :
    startThreadless self subs socket = Some (self', calls) -> receiver_step (self, subs) (self', subs)
| rs_stopThreadless self subs : receiver_step (self, subs) (stopThreadless self, subs)
| rs_handleMessage self subs b size now mem subs' call mem' :
    is_bytes b -> size <= zlen b -> handleMessage self subs b size now mem = Some ((subs', call), mem') ->
    receiver_step (self, subs) (self, subs')
| rs_tick self subs packet now mem self' subs' r call mem' :
    is_bytes packet -> zlen packet <= ETH_BUFFER_LENGTH ->
    tick self subs packet now mem = Some ((self', subs', r, call), mem') ->
    receiver_step (self, subs) (self', subs').

Inductive receiver_reachable : GooseReceiver * subscribers -> Prop :=
| rr_create mem self list mem' :
    create mem = Some (Some self, mem') -> subscriberList self = Some list ->
    receiver_reachable (self, ∅)
| rr_step st st' : receiver_reachable st -> receiver_step st st' -> receiver_reachable st'.

Lemma remove_first_subset l x : remove_first l x ⊆ l.
Proof.
  induction l as [|y l IH]; [done|]. cbn. case_decide; intros z Hz; [by right|].
  apply elem_of_cons in Hz as [->|Hz]; [left|right; by apply IH].
Qed.

Lemma store_ok_list list list' subs : store_ok list subs ->
  (forall id, id ∈ list' -> id ∈ list \/ is_Some (subs !! id)) -> store_ok list' subs.
Proof.
  intros [Hl Hs] Hi. split; [|done]. rewrite Forall_forall in *. intros id Hid.
  destruct (Hi id Hid); [by apply Hl|done].
Qed.

Lemma receiver_ok_store self subs id s : receiver_ok self subs -> subscriber_ok s ->
  receiver_ok self (<[id := s]> subs).
Proof.
  intros [(l & El & Hl) Hb] Hs. constructor; [|done]. exists l. split; [done|]. by apply store_ok_insert.
Qed.

Lemma receiver_ok_lookup self subs id s : receiver_ok self subs -> subs !! id = Some s -> subscriber_ok s.
Proof. intros [(l & _ & _ & Hs) _] E. exact (Hs id s E). Qed.

Lemma handleMessage_runs self subs list b size now :
  subscriberList self = Some list -> store_ok list subs -> is_bytes b -> size <= zlen b ->
  runs (handleMessage self subs b size now) (fun _ r => store_ok list (fst r)).
Proof.
  intros El Hs Hb Hl. unfold handleMessage. apply runs_bind. eapply runs_lift; [exact El|].
  by apply parseGooseMessage_runs.
Qed.

Lemma tick_runs self subs packet now :
  receiver_ok self subs -> is_bytes packet -> zlen packet <= ETH_BUFFER_LENGTH ->
  runs (tick self subs packet now) (fun _ r =>
    receiver_ok (fst (fst (fst r))) (snd (fst (fst r))) /\ snd (fst r) = bool_decide (packet <> [])).
Proof.
  intros Hok Hp Hl. pose proof Hok as [(l & El & Hs) (b & Eb & Hb)]. unfold tick.
  case_decide as Hz; [rewrite bool_decide_eq_true_2 by (by destruct packet)|
    rewrite bool_decide_eq_false_2 by (destruct packet; [tauto|cbn in Hz; lia]); by apply runs_ret].
  destruct (copy_total packet 0 (zlen packet) b ETH_BUFFER_LENGTH Hp) as (o & q & E & W); try done; try lia.
  rewrite Nat2Z.id in E. apply runs_bind. eapply runs_lift; [by rewrite Eb; cbn [mbind option_bind]; rewrite E|].
  apply runs_bind. eapply runs_lift; [exact El|]. apply runs_bind.
  eapply runs_mono; [apply (parseGooseMessage_runs l); [done|apply W|destruct W; lia]|].
  intros ok [subs' call] Hs'. apply runs_ret. cbn. split; [|done]. constructor; [by exists l|by exists o].
Qed.

Lemma receiver_step_ok st st' : receiver_step st st' ->
  receiver_ok (fst st) (snd st) -> receiver_ok (fst st') (snd st').
Proof.
  intros H. inversion H as [? ? id b cb values mem s mem' _ Hc Hb Hl Hv E Ht|? ? id s mac s' E Hm Hd| | | |
    ? ? id mem self' mem' Hi Ea|? ? id self' Er|? ? i mem self' mem' Ei|? ? [] ? ? Es| |
    ? ? b size now mem subs' call mem' Hb Hl E|? ? packet now mem self' subs' r call mem' Hp Hl E];
    subst; cbn [fst snd]; intros Hok; pose proof Hok as [(l0 & El & Hs) Hbuf].
  - apply receiver_ok_store; [done|]. by apply (create_ok b cb values mem s mem').
  - apply receiver_ok_store; [done|]. pose proof (receiver_ok_lookup _ _ _ _ Hok E) as Hs'.
    unfold setDstMac in Hd. destruct Hm as [Hmb Hml].
    destruct (copy_total mac 0 6 (dstMac s) 6 Hmb) as (o & q & Ec & W); try lia; [apply (sub_dst _ Hs')|].
    change (Z.to_nat 6) with 6%nat in Ec. rewrite Ec in Hd. injection Hd as <-. destruct Hs'. by constructor.
  - apply receiver_ok_store; [done|]. destruct (receiver_ok_lookup _ _ _ _ Hok H0). by constructor.
  - apply receiver_ok_store; [done|]. destruct (receiver_ok_lookup _ _ _ _ Hok H0). by constructor.
  - apply receiver_ok_store; [done|]. destruct (receiver_ok_lookup _ _ _ _ Hok H0). by constructor.
  - unfold addSubscriber, m_bind, m_lift, m_ret, malloc in Ea. rewrite El in Ea.
    destruct mem as [|[] mem]; cbn in Ea; injection Ea as <- <-; try done; (constructor; [|done]);
      (eexists; split; [done|]); (apply (store_ok_list l0); [done|]); intros j Hj;
      apply elem_of_app in Hj as [Hj|Hj]; auto; apply list_elem_of_singleton in Hj as ->; auto.
  - unfold removeSubscriber in Er. rewrite El in Er. injection Er as <-. constructor; [|done].
    eexists; split; [done|]. apply (store_ok_list l0); [done|]. intros j Hj. left. by apply remove_first_subset in Hj.
  - unfold setInterfaceId, m_bind, m_ret, malloc in Ei. destruct mem as [|[] mem]; injection Ei as <- <-;
      (constructor; [by exists l0|done]).
  - unfold startThreadless in Es. rewrite El in Es. cbn [mbind option_bind] in Es.
    destruct (multicast_calls l0 _); [|done]. injection Es as <- <-. constructor; [by exists l0|done].
  - unfold startThreadless in Es. injection Es as <- <-. constructor; [by exists l0|done].
  - constructor; [by exists l0|done].
  - destruct (handleMessage_runs _ _ _ b size now El Hs Hb Hl mem) as (r & m & u & E' & _ & Hr).
    rewrite E in E'. injection E' as <- <-. constructor; [by exists l0|done].
  - destruct (tick_runs _ _ packet now Hok Hp Hl mem) as (r' & m & u & E' & _ & Hr & _).
    rewrite E in E'. injection E' as <- <-. done.
Qed.

Lemma create_receiver_ok mem self list mem' :
  create mem = Some (Some self, mem') -> subscriberList self = Some list -> receiver_ok self ∅.
Proof.
  unfold create, createEx, malloc, m_bind, m_ret.
  assert (Hl : store_ok [] (∅ : subscribers)) by (split; [constructor|apply map_Forall_empty]).
  pose proof (wf_buf_replicate ETH_BUFFER_LENGTH 0 ltac:(done) ltac:(done)) as Hb.
  destruct mem as [|[] [|[] [|[] ?]]]; cbn; intros [= <- <-]; intros [= <-];
    (constructor; [by exists []|by eexists]).
Qed.

Lemma receiver_reachable_ok st : receiver_reachable st -> receiver_ok (fst st) (snd st).
Proof.
  induction 1 as [mem self list mem' E El|st st' _ IH H]; [by eapply create_receiver_ok|].
  by eapply receiver_step_ok.
Qed.

Lemma multicast_calls_total list subs : Forall (fun id => is_Some (subs !! id)) list ->
  exists calls, multicast_calls list subs = Some calls.
Proof.
  induction 1 as [|id list [s E] _ [calls IH]]; [by eexists|]. cbn. rewrite E. cbn [mbind option_bind].
  rewrite IH. by eexists.
Qed.


(** A receiver with one subscriber, for the reference "g1". *)
Definition sample_values : MmsValue := MmsArray [Some (MmsBoolean false); Some (MmsBoolean false)].
Definition sample_subscriber : option GooseSubscriber :=
  '(s, _) ← GooseSubscriber.create [103; 49; 0] (Some sample_values) [];
  s.
Definition sample_subscribers : subscribers :=
  match sample_subscriber with Some s => <[7 := s]> ∅ | None => ∅ end.
Definition sample_receiver : GooseReceiver :=
  {| running := false; stop := false; interfaceId := None;
     buffer := Some (fresh ETH_BUFFER_LENGTH); ethSocket := false; subscriberList := Some [7] |}.

Lemma sample_reachable : receiver_reachable (sample_receiver, sample_subscribers).
Proof.
  set (self0 := {| running := false; stop := false; interfaceId := None;
    buffer := Some (fresh ETH_BUFFER_LENGTH); ethSocket := false; subscriberList := Some [] |}).
  assert (H0 : receiver_reachable (self0, ∅)) by (by apply (rr_create [] _ [] [])).
  assert (H1 : receiver_reachable (self0, sample_subscribers)).
  { eapply rr_step; [exact H0|]. unfold sample_subscribers.
    destruct sample_subscriber as [s|] eqn:Es; [|by vm_compute in Es].
    apply (rs_subscriber self0 ∅ 7 [103; 49; 0] [103; 49] (Some sample_values) [] s []); try done.
    - split; [by exists []|]. repeat constructor; lia.
    - solve_bytes.
    - intros v [= <-]. split; [by cbn; tauto|by eexists].
    - rewrite <- Es. by vm_compute.
    - vm_compute in Es. by injection Es as <-. }
  eapply rr_step; [exact H1|]. apply (rs_addSubscriber _ _ 7 [] _ []); [|done]. eexists. vm_compute. reflexivity.
Qed.


End GooseReceiver.
