(* ===== verification/GooseExchange.v ===== *)
(** * From the GOOSE publisher to the subscriber

    The composition of [goose_publisher.c] and [goose_receiver.c]: what a subscriber
    makes of the frames of a publisher. *)

From S2P Require Import Prelude Alloc BerEncoder BerDecoder BerInteger MmsValue MmsData GoosePublisher.
From S2P Require Import GooseSubscriber GooseData GooseReceiver.

Module GooseExchange.
Import Alloc MmsValue GooseSubscriber GooseData GooseReceiver.
#[local] Open Scope alloc_scope.

(** ** The frame *)

Definition sent_frame (srcAddr : list Z) (p : GoosePublisher.CommParameters) (useVlanTag : bool)
    (pdu : list Z) : list Z :=
  GoosePublisher.ethernet_header srcAddr p useVlanTag ++ be_bytes 2 (zlen pdu + 8) ++ [0; 0; 0; 0] ++ pdu.

Definition header_length (useVlanTag : bool) : Z := if useVlanTag then 26 else 22.

Lemma sent_frame_length srcAddr p useVlanTag pdu :
  GoosePublisher.parameters_ok p -> wf_buf srcAddr 6 ->
  zlen (sent_frame srcAddr p useVlanTag pdu) = header_length useVlanTag + zlen pdu.
Proof.
  intros (_ & _ & _ & _ & Hdl) [_ Hsl].
  unfold sent_frame, GoosePublisher.ethernet_header, header_length.
  rewrite !length_app, !be_bytes_length. destruct useVlanTag; cbn [length]; lia.
Qed.

Lemma be_bytes_2 n : be_bytes 2 n = [n / 256 mod 256; n mod 256].
Proof. done. Qed.

Lemma u16_two_bytes n : is_u16 n -> u16 (u16 (n / 256 mod 256 * 256) + n mod 256) = n.
Proof. intros. zlia. Qed.

(** Reads the octets of a list at known places. *)
Ltac read_known :=
  repeat match goal with
         | |- context [rd (?x :: ?l) ?i] =>
             change (rd (x :: l) i) with (nth_error (x :: l) (Z.to_nat i)); simpl nth_error
         end;
  cbn [mbind option_bind].

(** The receiver reads the header of a frame of the publisher that is followed by the
    octets [pad]; it refuses the frame unless there are some. *)
Lemma parseHeader_frame srcAddr p useVlanTag pdu pad n :
  GoosePublisher.parameters_ok p -> wf_buf srcAddr 6 -> zlen pdu + 8 < 65536 ->
  n = header_length useVlanTag + zlen pdu + zlen pad ->
  exists h, parseHeader (sent_frame srcAddr p useVlanTag pdu ++ pad) n =
      Some (if decide (pad = []) then None else Some h) /\
    f_srcMac h = srcAddr /\ f_dstMac h = GoosePublisher.dstAddress p /\
    f_appId h = GoosePublisher.appId p /\ f_apduLength h = zlen pdu /\
    f_payloadPos h = header_length useVlanTag.
Proof.
  intros (Hpr & Hv & Ha & Hd & Hdl) [Hs Hsl] Hpdu Hn.
  pose proof (u16_two_bytes (GoosePublisher.appId p) Ha) as Ea.
  pose proof (u16_two_bytes (zlen pdu + 8) ltac:(unfold_int; lia)) as El.
  destruct p as [prio vid aid dst]. unfold sent_frame, GoosePublisher.ethernet_header.
  cbn [GoosePublisher.dstAddress GoosePublisher.appId GoosePublisher.vlanPriority GoosePublisher.vlanId] in *.
  rewrite !be_bytes_2. set (a1 := aid / 256 mod 256) in *. set (a2 := aid mod 256) in *.
  set (l1 := (zlen pdu + 8) / 256 mod 256) in *. set (l2 := (zlen pdu + 8) mod 256) in *.
  clearbody a1 a2 l1 l2.
  do 6 (destruct dst as [|? dst]; [simpl in Hdl; lia|]). destruct dst; [|simpl in Hdl; lia].
  do 6 (destruct srcAddr as [|? srcAddr]; [simpl in Hsl; lia|]). destruct srcAddr; [|simpl in Hsl; lia].
  unfold header_length in Hn. unfold parseHeader.
  assert (Hpad : zlen pad = 0 <-> pad = []) by (destruct pad; simpl; split; (done || lia)).
  assert (Hread : forall pos hl (r : frame_info), hl = pos + 2 -> (pos = 12 \/ pos = 16) ->
    n = hl + 8 + zlen pdu + zlen pad ->
    (if decide (u16 (u16 (l1 * 256) + l2) - 8 < 0) then Some None
     else if decide (n <= u16 (u16 (l1 * 256) + l2) + hl) then Some None else Some (Some r)) =
    Some (if decide (pad = []) then None else Some r)).
  { intros pos hl r Hhl Hpos Hnn. rewrite El. rewrite decide_False by lia.
    destruct (decide (pad = [])) as [->|Hne]; [by rewrite decide_True by (simpl in Hnn; lia)|].
    rewrite decide_False; [done|]. destruct pad; [done|]. cbn [length] in Hnn. lia. }
  rewrite decide_False by (destruct useVlanTag; lia).
  destruct useVlanTag; cbn [app]; read_known.
  - rewrite bool_decide_eq_true_2 by done. rewrite decide_False by lia. cbn [rds]. read_known.
    do 2 rewrite decide_False by tauto. read_known. rewrite Ea.
    eexists. split; [apply (Hread 16 18); lia|]. cbn; split_and!; (done || lia).
  - rewrite bool_decide_eq_false_2 by lia. rewrite decide_False by lia. cbn [rds]. read_known.
    do 2 rewrite decide_False by tauto. read_known. rewrite Ea.
    eexists. split; [apply (Hread 12 14); lia|]. cbn; split_and!; (done || lia).
Qed.
(** ** The fields *)

Lemma enc_uint32_tlv_eq tag v :
  GoosePublisher.enc_uint32_tlv tag v = BerEncoder.enc_tlv tag (BerEncoder.enc_uint32 v).
Proof.
  pose proof (BerEncoder.enc_uint32_size v). unfold GoosePublisher.enc_uint32_tlv, BerEncoder.enc_tlv.
  unfold BerEncoder.enc_length. by rewrite decide_True by lia.
Qed.

Lemma enc_flag_eq tag (x : Z) : [tag; 1; x] = BerEncoder.enc_tlv tag [x].
Proof. done. Qed.

(** What [BerDecoder_decodeUint32] makes of an encoded number. *)
Definition received_number (v : Z) : Z := if decide (v < 2147483648) then v else v / 256.

Section Fields.
Context (list : list Z) (b : Datatypes.list Z) (stop : Z).

(** The loop over the rest of the fields ends in a state with [Q]. *)
Definition fields_run (fuel : nat) (pos : Z) (subs : subscribers) (p : payload)
    (Q : subscribers -> payload -> Prop) : Prop :=
  exists subs' p', parseFields fuel list b stop pos subs p = Some (subs', Some p') /\ Q subs' p'.

Lemma fields_done fuel pos subs p (Q : subscribers -> payload -> Prop) :
  pos = stop -> (0 < fuel)%nat -> Q subs p -> fields_run fuel pos subs p Q.
Proof.
  intros -> Hf HQ. destruct fuel; [lia|]. exists subs, p. cbn [parseFields].
  by rewrite decide_False by lia.
Qed.

Lemma fields_step fuel pos tag xs rest subs p (Q : subscribers -> payload -> Prop) :
  bytes_at b pos (BerEncoder.enc_tlv tag xs ++ rest) -> zlen xs < 65535 -> 0 <= pos ->
  pos + zlen (BerEncoder.enc_tlv tag xs ++ rest) = stop ->
  (forall q, bytes_at b q xs -> 0 <= q -> exists subs1 p1,
     parseField list tag b q (zlen xs) subs p = Some (subs1, Some p1) /\
     forall pos', bytes_at b pos' rest -> 0 <= pos' -> pos' + zlen rest = stop ->
       fields_run fuel pos' subs1 p1 Q) ->
  fields_run (S fuel) pos subs p Q.
Proof.
  intros Hat Hl Hpos Hstop Hstep. apply bytes_at_app in Hat as [Hat Hrest].
  rewrite length_app in Hstop.
  destruct (BerDecoder.tlv_head b pos tag xs stop 0 Hat Hl) as (q & Htag & Hdec & Hq & Hpq & Hend); [lia|].
  assert (Hsz : 2 <= zlen (BerEncoder.enc_tlv tag xs)).
  { unfold BerEncoder.enc_tlv, BerEncoder.enc_length. rewrite length_cons, length_app.
    repeat case_decide; cbn [length]; lia. }
  destruct (Hstep q Hq ltac:(lia)) as (subs1 & p1 & E & Hnext).
  destruct (Hnext (q + zlen xs)) as (subs' & p' & E' & HQ); [by rewrite Hend|lia|lia|].
  exists subs', p'. split; [|done]. cbn [parseFields]. rewrite decide_True by lia.
  rewrite Htag. cbn [mbind option_bind]. rewrite Hdec. cbn [mbind option_bind].
  rewrite decide_False by lia. rewrite E. cbn [mbind option_bind]. exact E'.
Qed.

Lemma parse_number v q : is_u32 v -> bytes_at b q (BerEncoder.enc_uint32 v) ->
  BerDecoder.decodeUint32 b (zlen (BerEncoder.enc_uint32 v)) q = Some (received_number v).
Proof. intros. by apply BerDecoder.decodeUint32_enc. Qed.

Lemma parse_flag (x : bool) q : bytes_at b q [if x then 1 else 0] ->
  BerDecoder.decodeBoolean b (zlen [if x then 1 else 0]) q = Some x.
Proof.
  intros [Hx _]. unfold BerDecoder.decodeBoolean. rewrite decide_False by (simpl; lia).
  rewrite Hx. by destruct x.
Qed.
End Fields.

(** A string of the PDU in its array of 130 characters; longer ones are ignored. *)
Definition stored_string (old xs : list Z) : list Z :=
  if decide (zlen xs > 129) then old else xs ++ 0 :: drop (S (length xs)) old.

Lemma storeString_at old b q xs : wf_buf old 130 -> is_bytes xs -> bytes_at b q xs -> zlen xs <= 129 ->
  storeString old b q (zlen xs) = Some (stored_string old xs).
Proof.
  intros W Hx Hat Hl. unfold storeString, stored_string. rewrite decide_False by lia.
  destruct (copy_into b q xs old 130 Hx Hat W) as [E _]; [lia|]. rewrite E. cbn [mbind option_bind].
  destruct W as [W1 W2]. by apply string_overwritten; [lia|].
Qed.

Lemma stored_string_wf old xs : wf_buf old 130 -> is_bytes xs -> wf_buf (stored_string old xs) 130.
Proof.
  intros [W1 W2] Hx. unfold stored_string. case_decide; [done|]. split.
  - apply Forall_app. split; [done|]. constructor; [unfold_int; lia|by apply Forall_drop].
  - rewrite length_app. cbn [length]. rewrite length_drop. lia.
Qed.

(** What the receiver knows after the fields of a PDU of [pub]. *)
Definition payload_of (pub : GoosePublisher.GoosePublisher) (t : list Z)
    (dataSet : list (option MmsValue)) (id : Z) (p : payload) : Prop :=
  p_timeAllowedToLive p = received_number (GoosePublisher.timeAllowedToLive pub) /\
  p_stNum p = received_number (GoosePublisher.stNum pub) /\
  p_sqNum p = received_number (GoosePublisher.sqNum pub) /\
  p_confRev p = received_number (GoosePublisher.confRev pub) /\
  p_simulation p = GoosePublisher.simulation pub /\
  p_ndsCom p = GoosePublisher.needsCommission pub /\
  matchingSubscriber p = Some id /\
  (exists tb, timestampBufPos p = Some tb /\ bytes_at tb 0 t) /\
  bytes_at (dataSetBufferAddress p) 0 (MmsData.enc_components MmsData.enc_data dataSet) /\
  dataSetBufferLength p = zlen (MmsData.enc_components MmsData.enc_data dataSet).

(** Selects the case of a tag. *)
Ltac field_case := unfold parseField; repeat rewrite decide_False by done; rewrite decide_True by done.

Lemma with_strings_id s : with_strings s (goCBRef s) (datSet s) (goId s) = s.
Proof. by destruct s. Qed.

Lemma store_dataSet subs p b id s q xs :
  matchingSubscriber p = Some id -> subs !! id = Some s -> subscriber_ok s -> is_bytes xs -> bytes_at b q xs ->
  storeInMatching (fun s => ds ← storeString (datSet s) b q (zlen xs);
                            Some (with_strings s (goCBRef s) ds (goId s))) subs p (zlen xs) =
    Some (<[id := with_strings s (goCBRef s) (stored_string (datSet s) xs) (goId s)]> subs).
Proof.
  intros Hm Hs Hok Hx Hat. unfold storeInMatching. rewrite Hm. destruct (decide (zlen xs > 129)) as [Hl|Hl].
  - unfold stored_string. rewrite decide_True by done. by rewrite with_strings_id, insert_id.
  - rewrite Hs. cbn [mbind option_bind]. rewrite storeString_at by (done || lia || apply (sub_ds _ Hok)). done.
Qed.

Lemma store_goId subs p b id s q xs :
  matchingSubscriber p = Some id -> subs !! id = Some s -> subscriber_ok s -> is_bytes xs -> bytes_at b q xs ->
  storeInMatching (fun s => i ← storeString (goId s) b q (zlen xs);
                            Some (with_strings s (goCBRef s) (datSet s) i)) subs p (zlen xs) =
    Some (<[id := with_strings s (goCBRef s) (datSet s) (stored_string (goId s) xs)]> subs).
Proof.
  intros Hm Hs Hok Hx Hat. unfold storeInMatching. rewrite Hm. destruct (decide (zlen xs > 129)) as [Hl|Hl].
  - unfold stored_string. rewrite decide_True by done. by rewrite with_strings_id, insert_id.
  - rewrite Hs. cbn [mbind option_bind]. rewrite storeString_at by (done || lia || apply (sub_id _ Hok)). done.
Qed.

Lemma goose_id_bytes pub : GoosePublisher.publisher_wf pub -> is_bytes (GoosePublisher.goose_id pub).
Proof.
  intros W. unfold GoosePublisher.goose_id. pose proof (GoosePublisher.pub_id _ W).
  pose proof (GoosePublisher.pub_cb _ W). by destruct (GoosePublisher.goID pub).
Qed.

(** Computes the payload after a field. *)
Ltac field_done :=
  cbn [mbind option_bind];
  cbv beta iota zeta delta [set_numbers set_matching set_buffers no_payload p_timeAllowedToLive p_stNum
    p_sqNum p_confRev p_simulation p_ndsCom matchingSubscriber timestampBufPos dataSetBufferAddress
    dataSetBufferLength numberOfDatSetEntries];
  reflexivity.

(** Parses the next field; what is left is what [parseField] does. *)
Tactic Notation "next_field" ident(q) ident(Hq) ident(Hq0) :=
  match goal with
  | Hat : bytes_at ?b ?pos (BerEncoder.enc_tlv _ _ ++ _), Hp : 0 <= ?pos, He : ?pos + _ = ?stop
    |- fields_run _ ?b ?stop _ ?pos _ _ _ =>
      refine (fields_step _ _ _ _ _ _ _ _ _ _ _ Hat _ Hp He _); [first [done | simpl; lia]|];
      clear Hat Hp He pos; intros q Hq Hq0; eexists _, _; split; [|intros pos Hat Hp He]
  end.

Lemma parse_goose_fields pub t dataSet list b stop pos subs id s fuel :
  GoosePublisher.publisher_wf pub -> wf_buf t 8 -> is_u32 (zlen dataSet) ->
  zlen (GoosePublisher.goose_fields pub t dataSet) < 65535 ->
  bytes_at b pos (GoosePublisher.goose_fields pub t dataSet) -> 0 <= pos ->
  pos + zlen (GoosePublisher.goose_fields pub t dataSet) = stop ->
  (forall q, bytes_at b q (default [] (GoosePublisher.goCBRef pub)) -> 0 <= q ->
     findMatching list subs b q (zlen (default [] (GoosePublisher.goCBRef pub))) = Some (subs, Some id)) ->
  subs !! id = Some s -> subscriber_ok s ->
  fields_run list b stop (13 + fuel) pos subs no_payload (fun subs' p =>
    subs' = <[id := with_strings s (goCBRef s)
                (stored_string (datSet s) (default [] (GoosePublisher.dataSetRef pub)))
                (stored_string (goId s) (GoosePublisher.goose_id pub))]> subs /\
    payload_of pub t dataSet id p).
Proof.
  intros W Ht Hn Hl Hat Hpos Hstop Hfind Hs Hok.
  pose proof (GoosePublisher.goose_fields_length pub t dataSet) as Hlen.
  assert (Hpart : forall tag xs, zlen xs < zlen (BerEncoder.enc_tlv tag xs)).
  { intros tag xs. unfold BerEncoder.enc_tlv. rewrite length_cons, length_app. lia. }
  pose proof (Hpart 0x80 (default [] (GoosePublisher.goCBRef pub))) as H80.
  pose proof (Hpart 0x82 (default [] (GoosePublisher.dataSetRef pub))) as H82.
  pose proof (Hpart 0x83 (GoosePublisher.goose_id pub)) as H83.
  pose proof (Hpart 0xab (MmsData.enc_components MmsData.enc_data dataSet)) as Hab. clear Hpart.
  assert (Hu : forall v, zlen (BerEncoder.enc_uint32 v) < 65535).
  { intros v. pose proof (BerEncoder.enc_uint32_size v). lia. }
  unfold GoosePublisher.goose_fields, GoosePublisher.goose_head in Hat, Hstop.
  rewrite !enc_uint32_tlv_eq, !enc_flag_eq, <- !app_assoc in Hat, Hstop.
  rewrite <- (app_nil_r (BerEncoder.enc_tlv 0xab _)) in Hat, Hstop.
  assert (Hds : is_bytes (default [] (GoosePublisher.dataSetRef pub))) by apply (GoosePublisher.pub_ds _ W).
  assert (Hid : is_bytes (GoosePublisher.goose_id pub)) by (by apply goose_id_bytes).
  pose proof (proj2 Ht) as Ht8. pose proof (GoosePublisher.pub_st _ W) as Hst.
  pose proof (GoosePublisher.pub_sq _ W) as Hsq. pose proof (GoosePublisher.pub_ttl _ W) as Httl.
  pose proof (GoosePublisher.pub_rev _ W) as Hrev.
  cbn [Nat.add].
  next_field q1 Hq1 Hz1. { field_case. rewrite Hfind by done. field_done. }
  next_field q2 Hq2 Hz2. { field_case. rewrite (parse_number b _ q2 Httl Hq2). field_done. }
  next_field q3 Hq3 Hz3. { field_case. rewrite (store_dataSet _ _ _ id s) by done. field_done. }
  next_field q4 Hq4 Hz4.
  { field_case. rewrite (store_goId _ _ _ id (with_strings s (goCBRef s)
      (stored_string (datSet s) (default [] (GoosePublisher.dataSetRef pub))) (goId s)));
      [field_done|done|apply lookup_insert_eq| |done|done].
    apply subscriber_ok_strings; try done; try apply (sub_cb _ Hok); try apply (sub_id _ Hok).
    apply stored_string_wf; [apply (sub_ds _ Hok)|done]. }
  next_field q5 Hq5 Hz5. { field_case. rewrite decide_False by lia. field_done. }
  next_field q6 Hq6 Hz6. { field_case. rewrite (parse_number b _ q6 Hst Hq6). field_done. }
  next_field q7 Hq7 Hz7. { field_case. rewrite (parse_number b _ q7 Hsq Hq7). field_done. }
  next_field q8 Hq8 Hz8. { field_case. rewrite (parse_flag b _ q8 Hq8). field_done. }
  next_field q9 Hq9 Hz9. { field_case. rewrite (parse_number b _ q9 Hrev Hq9). field_done. }
  next_field q10 Hq10 Hz10. { field_case. rewrite (parse_flag b _ q10 Hq10). field_done. }
  next_field q11 Hq11 Hz11. { field_case. rewrite (parse_number b _ q11 Hn Hq11). field_done. }
  next_field q12 Hq12 Hz12. { field_case. field_done. }
  apply fields_done; [simpl in Hstop; lia|lia|]. split.
  - cbn. by rewrite insert_insert_eq.
  - unfold payload_of. cbn. split_and!; try done; [|by apply bytes_at_from].
    eexists. split; [done|]. by apply bytes_at_from.
Qed.

(** ** The subscriber after a message *)

(** A subscriber with a data set [mk ds] of its own for the entries [dataSet]. *)
Definition prepared (mk : list (option MmsValue) -> MmsValue) (dataSet ds : list (option MmsValue))
    (s : GooseSubscriber) : Prop :=
  (mk = MmsArray \/ mk = MmsStructure) /\ subscriber_ok s /\ isObserver s = false /\
  dataSetValuesSelfAllocated s = false /\ dataSetValues s = Some (mk ds) /\
  all_wf sendable dataSet /\ all_fit fits dataSet ds /\ all_wf wf ds.

(** What the subscriber [s] has become by a message of [pub] at [now]. *)
Definition updated_by (pub : GoosePublisher.GoosePublisher) (t : list Z) (now : Z)
    (mk : list (option MmsValue) -> MmsValue) (dataSet : list (option MmsValue))
    (s s' : GooseSubscriber) : Prop :=
  (exists es, dataSetValues s' = Some (mk es) /\ same_components dataSet es) /\
  parseError s' = GOOSE_PARSE_ERROR_NO_ERROR /\
  timestamp s' = Some t /\
  stNum s' = received_number (GoosePublisher.stNum pub) /\
  sqNum s' = received_number (GoosePublisher.sqNum pub) /\
  confRev s' = received_number (GoosePublisher.confRev pub) /\
  timeAllowedToLive s' = received_number (GoosePublisher.timeAllowedToLive pub) /\
  simulation s' = GoosePublisher.simulation pub /\
  ndsCom s' = GoosePublisher.needsCommission pub /\
  datSet s' = stored_string (datSet s) (default [] (GoosePublisher.dataSetRef pub)) /\
  goId s' = stored_string (goId s) (GoosePublisher.goose_id pub) /\
  stateValid s' = negb (bool_decide (stNum s = stNum s' /\ sqNum s' <= sqNum s)) /\
  invalidityTime s' = u64 (now + timeAllowedToLive s') /\
  listener s' = listener s.

Lemma update_received pub t now mk dataSet ds s id p :
  prepared mk dataSet ds s -> wf_buf t 8 -> payload_of pub t dataSet id p ->
  let s1 := with_strings s (goCBRef s)
              (stored_string (datSet s) (default [] (GoosePublisher.dataSetRef pub)))
              (stored_string (goId s) (GoosePublisher.goose_id pub)) in
  exists s', updateSubscriber s1 p now [] = Some (s', []) /\ updated_by pub t now mk dataSet s s'.
Proof.
  intros (Hk & Hok & Hobs & Hself & Hv & Hsend & Hfit & Hwf) Ht Hp s1.
  destruct Hp as (Ettl & Est & Esq & Erev & Esim & Ends & _ & (tb & Etb & Htb) & Hdata & Hdl).
  destruct (sub_time _ Hok) as (t0 & Et0 & W0).
  destruct (receive_dataSet mk dataSet ds (dataSetBufferAddress p) Hk Hsend Hfit Hwf Hdata)
    as (es & E & Hes). rewrite <- Hdl in E.
  assert (Etime : (t ← timestamp s1; match timestampBufPos p with
      | Some buf => setUtcTimeByBuffer t buf 0 | None => setUtcTime t 0 end) = Some t).
  { change (timestamp s1) with (timestamp s). rewrite Et0. cbn [mbind option_bind]. rewrite Etb.
    unfold setUtcTimeByBuffer. change 8%nat with (Z.to_nat 8). destruct Ht as [Hb Hl].
    destruct (copy_into tb 0 t t0 8 Hb Htb W0) as [Ec _]; [lia|]. rewrite Hl in Ec. rewrite Ec.
    cbn. f_equal. rewrite drop_ge by (destruct W0; lia). apply app_nil_r. }
  eexists. split.
  - unfold updateSubscriber. rewrite (MmsData.lift_nil _ _ _ Etime).
    change (dataSetValuesSelfAllocated s1) with (dataSetValuesSelfAllocated s). rewrite Hself.
    rewrite decide_False by (intros [? _]; done).
    change (dataSetValues s1) with (dataSetValues s). rewrite Hv.
    change (isObserver (with_header s1 _ _ _ _ _)) with (isObserver s). rewrite Hobs.
    rewrite (MmsData.bind_nil _ _ (with_data (with_header s1 (p_timeAllowedToLive p) (p_confRev p)
      (p_ndsCom p) (p_simulation p) (Some t)) (Some (mk es)) false GOOSE_PARSE_ERROR_NO_ERROR, true)).
    + reflexivity.
    + rewrite (MmsData.bind_nil _ _ _ E). cbn [fst snd]. rewrite bool_decide_eq_true_2 by done.
      cbn. by rewrite Hself.
  - unfold updated_by. cbn -[u64]. split_and!; try done; [by exists es|].
    case_decide; [rewrite bool_decide_eq_true_2|rewrite bool_decide_eq_false_2]; (done || lia).
Qed.

(** ** The message *)

Lemma goose_fields_large pub t dataSet : 24 <= zlen (GoosePublisher.goose_fields pub t dataSet).
Proof.
  rewrite GoosePublisher.goose_fields_length.
  assert (Hsz : forall tag xs, 2 <= zlen (BerEncoder.enc_tlv tag xs)).
  { intros tag xs. unfold BerEncoder.enc_tlv, BerEncoder.enc_length. rewrite length_cons, length_app.
    repeat case_decide; cbn [length]; lia. }
  pose proof (Hsz 0x80 (default [] (GoosePublisher.goCBRef pub))).
  pose proof (Hsz 0x82 (default [] (GoosePublisher.dataSetRef pub))).
  pose proof (Hsz 0x83 (GoosePublisher.goose_id pub)).
  pose proof (Hsz 0x84 t). pose proof (Hsz 0xab (MmsData.enc_components MmsData.enc_data dataSet)). lia.
Qed.

Lemma payload_received pub t dataSet list b subs id s mk ds now :
  GoosePublisher.publisher_wf pub -> wf_buf t 8 -> is_u32 (zlen dataSet) ->
  zlen (GoosePublisher.goose_fields pub t dataSet) < 65535 ->
  bytes_at b 0 (GoosePublisher.goose_pdu pub t dataSet) ->
  (forall b q, bytes_at b q (default [] (GoosePublisher.goCBRef pub)) -> 0 <= q ->
     findMatching list subs b q (zlen (default [] (GoosePublisher.goCBRef pub))) = Some (subs, Some id)) ->
  subs !! id = Some s -> prepared mk dataSet ds s ->
  exists s' call,
    parseGoosePayload list subs b (zlen (GoosePublisher.goose_pdu pub t dataSet)) now [] =
      Some ((<[id := s']> subs, 1, call), []) /\
    updated_by pub t now mk dataSet s s' /\
    call = ((fun '(l, par) => (l, par, id)) <$> listener s).
Proof.
  intros W Ht Hn Hl Hat Hfind Hs Hprep. unfold GoosePublisher.goose_pdu in *.
  set (fields := GoosePublisher.goose_fields pub t dataSet) in *.
  destruct (BerDecoder.tlv_head b 0 0x61 fields (zlen (BerEncoder.enc_tlv 0x61 fields)) 0 Hat Hl)
    as (q & Htag & Hdec & Hq & Hpq & Hend); [lia|].
  pose proof (goose_fields_large pub t dataSet) as Hlarge. fold fields in Hlarge.
  assert (Hok : subscriber_ok s) by apply Hprep.
  destruct (parse_goose_fields pub t dataSet list b (q + zlen fields) q subs id s
    (Z.to_nat (zlen fields - 12)) W Ht Hn Hl Hq ltac:(lia) eq_refl (Hfind b) Hs Hok)
    as (subs1 & p & E & -> & Hp).
  replace (13 + Z.to_nat (zlen fields - 12))%nat with (S (Z.to_nat (zlen fields))) in E by lia.
  destruct (update_received pub t now mk dataSet ds s id p Hprep Ht Hp)
    as (s' & Eu & Hu).
  exists s', ((fun '(l, par) => (l, par, id)) <$> listener s). split; [|done].
  unfold parseGoosePayload. rewrite (MmsData.lift_nil _ _ _ Htag). rewrite decide_True by done.
  change (0 + 1) with 1 in Hdec. rewrite (MmsData.lift_nil _ _ _ Hdec). cbn beta iota.
  rewrite decide_False by lia. rewrite (MmsData.lift_nil _ _ _ E). cbn beta iota.
  assert (Em : matchingSubscriber p = Some id) by apply Hp. rewrite Em.
  rewrite (MmsData.lift_nil _ _ _ (lookup_insert_eq _ _ _)).
  rewrite (MmsData.bind_nil _ _ _ Eu). unfold m_ret. rewrite insert_insert_eq.
  assert (El : listener s' = listener s) by apply Hu. rewrite El.
  by destruct (listener s) as [[l par]|].
Qed.

(** [s] wants the messages with this application identifier and address. *)
Definition interested (s : GooseSubscriber) (msgAppId : Z) (dst : list Z) : Prop :=
  isObserver s = false /\ (appId s = -1 \/ appId s = msgAppId) /\ (dstMacSet s = false \/ dstMac s = dst).

(** Other subscribers, which wait for references of other lengths. *)
Definition others (subs : subscribers) (n : Z) (pre : list Z) : Prop :=
  Forall (fun j => exists s, subs !! j = Some s /\ subscriber_ok s /\ isObserver s = false /\
                             goCBRefLen s <> n) pre.

Lemma findInterested_received pre post subs n id s msgAppId src dst vlan vid prio :
  others subs n pre -> subs !! id = Some s -> subscriber_ok s -> interested s msgAppId dst -> wf_buf dst 6 ->
  findInterested (pre ++ id :: post) subs msgAppId src dst vlan vid prio = Some (subs, true).
Proof.
  intros Hpre Hs Hok (Hobs & Happ & Hdst) [Hdb Hdl].
  induction Hpre as [|j pre (sj & Ej & Hokj & Hoj & _) _ IH]; cbn [app findInterested].
  - rewrite Hs. cbn [mbind option_bind]. rewrite Hobs, decide_True by done.
    assert (E : (if dstMacSet s then memcmp 6 (dstMac s) dst else Some true) = Some true).
    { destruct (dstMacSet s) eqn:Ed; [|done]. destruct Hdst as [?| ->]; [done|]. apply memcmp_same; (lia || done). }
    by rewrite E.
  - rewrite Ej. cbn [mbind option_bind]. rewrite Hoj. case_decide; [|exact IH].
    assert (Hm : exists r, (if dstMacSet sj then memcmp 6 (dstMac sj) dst else Some true) = Some r).
    { destruct (dstMacSet sj); [|by eexists]. destruct (sub_dst _ Hokj). apply memcmp_total; lia. }
    destruct Hm as [[] ->]; cbn [mbind option_bind]; [done|exact IH].
Qed.

Lemma findMatching_received pre post subs id s b q xs :
  others subs (zlen xs) pre -> subs !! id = Some s -> isObserver s = false ->
  goCBRefLen s = zlen xs -> bytes_at (goCBRef s) 0 xs -> bytes_at b q xs -> 0 <= q ->
  findMatching (pre ++ id :: post) subs b q (zlen xs) = Some (subs, Some id).
Proof.
  intros Hpre Hs Hobs Hlen Hcb Hat Hq.
  induction Hpre as [|j pre (sj & Ej & _ & Hoj & Hne) _ IH]; cbn [app findMatching].
  - rewrite Hs. cbn [mbind option_bind]. rewrite Hobs, decide_True by done.
    assert (E : memcmp (zlen xs) (goCBRef s) (from b q) = Some true).
    { unfold memcmp. rewrite Nat2Z.id. rewrite (rds_at _ _ _ Hcb), (rds_at _ _ _ (bytes_at_from b q xs Hq Hat)).
      cbn [mbind option_bind]. by rewrite bool_decide_eq_true_2. }
    by rewrite E.
  - rewrite Ej. cbn [mbind option_bind]. rewrite Hoj, decide_False by done. exact IH.
Qed.

Lemma sendable_entries dataSet : all_wf sendable dataSet -> GoosePublisher.entries_ok dataSet.
Proof.
  induction dataSet as [|[v|] dataSet IH]; cbn; [constructor| |tauto].
  intros [(W & R & _) H]. constructor; [done|by apply IH].
Qed.

(** What [publish] has put on the wire, when it has. *)
Lemma publish_sent srcAddr p useVlanTag pub t dataSet pub' F rc :
  GoosePublisher.parameters_ok p -> wf_buf srcAddr 6 ->
  GoosePublisher.reachable srcAddr p useVlanTag pub -> GoosePublisher.timestamp pub = Some t ->
  GoosePublisher.entries_ok dataSet -> is_u32 (zlen dataSet) ->
  zlen (GoosePublisher.goose_fields pub t dataSet) < 4294967200 ->
  GoosePublisher.publish pub dataSet = Some (pub', Some F, rc) ->
  GoosePublisher.publisher_wf pub /\ wf_buf t 8 /\
  F = sent_frame srcAddr p useVlanTag (GoosePublisher.goose_pdu pub t dataSet) /\
  zlen (GoosePublisher.goose_pdu pub t dataSet) <= 1500.
Proof.
  intros Hp Hs Hr Et He Hn Hl E. destruct (GoosePublisher.reachable_wf _ _ _ _ Hp Hs Hr) as [W Hh].
  destruct (GoosePublisher.publish_spec pub t dataSet W Et He Hn Hl) as (pub2 & E2 & _).
  rewrite E in E2. split_and!; [done|by apply (GoosePublisher.pub_time _ W)|..]; case_decide as Hf; try done.
  - injection E2 as _ -> _. unfold GoosePublisher.goose_frame, sent_frame. by rewrite Hh.
  - unfold GoosePublisher.GOOSE_MAX_MESSAGE_SIZE in Hf. pose proof (GoosePublisher.pub_start _ W).
    pose proof (GoosePublisher.pub_field _ W). lia.
Qed.

Section Transfer.
Context (srcAddr : list Z) (p : GoosePublisher.CommParameters) (useVlanTag : bool)
  (pub pub' : GoosePublisher.GoosePublisher) (t : list Z) (dataSet : list (option MmsValue))
  (F : list Z) (rc : Z) (self : GooseReceiver) (pre post : list Z) (id : Z) (subs : subscribers)
  (s : GooseSubscriber) (mk : list (option MmsValue) -> MmsValue) (ds : list (option MmsValue)).
Let cb : list Z := default [] (GoosePublisher.goCBRef pub).

(** The publisher has sent the frame [F]. *)
Record transfer : Prop := {
  tr_parameters : GoosePublisher.parameters_ok p;
  tr_address : wf_buf srcAddr 6;
  tr_publisher : GoosePublisher.reachable srcAddr p useVlanTag pub;
  tr_time : GoosePublisher.timestamp pub = Some t;
  tr_entries : is_u32 (zlen dataSet);
  tr_length : zlen (GoosePublisher.goose_fields pub t dataSet) < 4294967200;
  tr_publish : GoosePublisher.publish pub dataSet = Some (pub', Some F, rc);
}.

(** [s] is the first subscriber of the receiver for the reference of the publisher. *)
Record subscribed : Prop := {
  su_list : subscriberList self = Some (pre ++ id :: post);
  su_others : others subs (zlen cb) pre;
  su_store : subs !! id = Some s;
  su_prepared : prepared mk dataSet ds s;
  su_interested : interested s (GoosePublisher.appId p) (GoosePublisher.dstAddress p);
  su_reflen : goCBRefLen s = zlen cb;
  su_ref : bytes_at (goCBRef s) 0 cb;
}.
End Transfer.


(** The very frame a publisher sends, without a trailing octet, is ignored by every
    receiver: no subscriber changes and no listener is called. *)
Theorem exact_frame_refused srcAddr p useVlanTag pub pub' t dataSet F rc self list subs now mem :
  transfer srcAddr p useVlanTag pub pub' t dataSet F rc -> GoosePublisher.entries_ok dataSet ->
  subscriberList self = Some list ->
  handleMessage self subs F (zlen F) now mem = Some ((subs, None), mem).
Proof.
  intros [Hp Hsrc Hreach Ht Hn Hgl Hpub] He El.
  destruct (publish_sent _ _ _ _ _ _ _ _ _ Hp Hsrc Hreach Ht He Hn Hgl Hpub) as (_ & _ & -> & Hl).
  set (pdu := GoosePublisher.goose_pdu pub t dataSet) in *.
  destruct (parseHeader_frame srcAddr p useVlanTag pdu [] (zlen (sent_frame srcAddr p useVlanTag pdu))
    Hp Hsrc) as (h & Eh & _); [lia| |].
  { pose proof (sent_frame_length srcAddr p useVlanTag pdu Hp Hsrc). cbn [length]. lia. }
  rewrite app_nil_r, decide_True in Eh by done.
  unfold handleMessage, parseGooseMessage, m_bind, m_lift. rewrite El. cbn [mbind option_bind].
  rewrite Eh. done.
Qed.

(** ** A publisher and a receiver *)

Definition sample_source : GoosePublisher.GoosePublisher :=
  match GoosePublisher.setGoCbRef GoosePublisher.sample_publisher (Some [103; 49]) [] with
  | Some (pub, _) => pub
  | None => GoosePublisher.sample_publisher
  end.
Definition sample_entries : list (option MmsValue) := [Some (MmsBoolean true); Some (MmsBoolean false)].
Definition sample_frame : list Z :=
  match GoosePublisher.publish sample_source sample_entries with
  | Some (_, Some F, _) => F
  | _ => []
  end.
Definition sample_target : GooseSubscriber :=
  match sample_subscriber with Some s => s | None => default (Build_GooseSubscriber [] [] [] 0 0 0 0 0 None
    false false 0 false GOOSE_PARSE_ERROR_NO_ERROR [] [] 0 None false false false false 0 0 None) None end.

Definition sample_sent : GoosePublisher.GoosePublisher :=
  match GoosePublisher.publish sample_source sample_entries with
  | Some (pub, _, _) => pub
  | None => sample_source
  end.

Lemma sample_transfer : transfer GoosePublisher.sample_address GoosePublisher.sample_parameters true sample_source sample_sent
    (default [] (GoosePublisher.timestamp sample_source)) sample_entries sample_frame 0.
Proof.
  constructor.
  - exact GoosePublisher.sample_parameters_ok.
  - exact GoosePublisher.sample_address_ok.
  - eapply GoosePublisher.reachable_operation.
    + apply (GoosePublisher.reachable_create _ _ _ 1700000000123 [] GoosePublisher.sample_publisher []);
        [lia|]. vm_compute. reflexivity.
    + apply (GoosePublisher.op_setGoCbRef _ (Some [103; 49]) [] _ []); [solve_bytes|]. vm_compute. reflexivity.
  - by vm_compute.
  - by vm_compute.
  - by vm_compute.
  - vm_compute. reflexivity.
Qed.


Lemma exact_frame_refused_witness :
  handleMessage sample_receiver sample_subscribers sample_frame (zlen sample_frame) 5 [false] =
    Some ((sample_subscribers, None), [false]).
Proof.
  apply (exact_frame_refused _ _ _ _ _ _ _ _ _ sample_receiver [7] _ _ _ sample_transfer); [|done]. repeat constructor.
Defined.

End GooseExchange.
