(* ===== verification/Presentation.v ===== *)
(** * ISO presentation

    [src/mms/iso_presentation/iso_presentation.c]: the PDUs that open a presentation
    connection and carry the data of the upper layers, and their parsers.  The user data
    a parser finds ([nextPayload]) are the memory of the message from their first octet
    on. *)

From S2P Require Import Prelude BerEncoder BerDecoder ByteBuf.

Module Presentation.
Import ByteBuf.

(** [uint8_t size; uint8_t value[16]] *)
Record PSelector := { size : Z; value : list Z }.

Record IsoPresentation := mkPresentation {
  callingPresentationSelector : PSelector;
  calledPresentationSelector : PSelector;
  nextContextId : Z;
  acseContextId : Z;
  mmsContextId : Z;
  nextPayload : ByteBuffer
}.

Definition set_selectors (calling called : PSelector) (self : IsoPresentation) : IsoPresentation :=
  mkPresentation calling called (nextContextId self) (acseContextId self) (mmsContextId self)
    (nextPayload self).
Definition set_contexts (acse mms : Z) (self : IsoPresentation) : IsoPresentation :=
  mkPresentation (callingPresentationSelector self) (calledPresentationSelector self)
    (nextContextId self) acse mms (nextPayload self).
Definition set_next (context : Z) (user : ByteBuffer) (self : IsoPresentation) : IsoPresentation :=
  mkPresentation (callingPresentationSelector self) (calledPresentationSelector self)
    context (acseContextId self) (mmsContextId self) user.

(** The static [calledPresentationSelector] of the file. *)
Definition respondingSelector : list Z := [0x00; 0x00; 0x00; 0x01].
Definition asn_id_as_acse : list Z := [0x52; 0x01; 0x00; 0x01].
Definition asn_id_mms : list Z := [0x28; 0xca; 0x22; 0x02; 0x01].
Definition ber_id : list Z := [0x51; 0x01].

(** ** Creating PDUs *)

Definition encodeAcceptBer (buffer : list Z) (bufPos : Z) : option (list Z * Z) :=
  '(buffer, bufPos) ← BerEncoder.encodeTL 0x30 7 buffer bufPos;
  '(buffer, bufPos) ← BerEncoder.encodeTL 0x80 1 buffer bufPos;
  '(buffer, bufPos) ← put buffer bufPos 0;
  '(buffer, bufPos) ← BerEncoder.encodeTL 0x81 2 buffer bufPos;
  '(buffer, bufPos) ← put buffer bufPos 0x51;
  put buffer bufPos 0x01.

(** The lengths of the data set and of the fully encoded data. *)
Definition userDataLengths (payloadLength : Z) : Z * Z :=
  let encodedDataSetLength := 3 + (payloadLength + 1) + BerEncoder.determineLengthSize payloadLength in
  (encodedDataSetLength,
   encodedDataSetLength + (BerEncoder.determineLengthSize encodedDataSetLength + 1)).

(** [encodeUserData] with [encode] false: the length. *)
Definition userDataSize (payloadLength : Z) : Z :=
  let '(_, fullyEncodedDataLength) := userDataLengths payloadLength in
  fullyEncodedDataLength + 1 + BerEncoder.determineLengthSize fullyEncodedDataLength.

Definition encodeUserData (payloadLength contextId : Z) (buffer : list Z) (bufPos : Z)
    : option (list Z * Z) :=
  let '(encodedDataSetLength, fullyEncodedDataLength) := userDataLengths payloadLength in
  '(buffer, bufPos) ← BerEncoder.encodeTL 0x61 fullyEncodedDataLength buffer bufPos;
  '(buffer, bufPos) ← BerEncoder.encodeTL 0x30 encodedDataSetLength buffer bufPos;
  '(buffer, bufPos) ← BerEncoder.encodeTL 0x02 1 buffer bufPos;
  '(buffer, bufPos) ← put buffer bufPos contextId;
  BerEncoder.encodeTL 0xa0 payloadLength buffer bufPos.

Definition encodeSelector (tag : Z) (sel : PSelector) (buffer : list Z) (bufPos : Z)
    : option (list Z * Z) :=
  '(buffer, bufPos) ← BerEncoder.encodeTL tag (size sel) buffer bufPos;
  copy_bytes (Z.to_nat (size sel)) (value sel) 0 buffer bufPos.

(** An item of the presentation context list. *)
Definition encodeContext (length id : Z) (oid : list Z) (buffer : list Z) (bufPos : Z)
    : option (list Z * Z) :=
  '(buffer, bufPos) ← BerEncoder.encodeTL 0x30 length buffer bufPos;
  '(buffer, bufPos) ← BerEncoder.encodeTL 0x02 1 buffer bufPos;
  '(buffer, bufPos) ← put buffer bufPos id;
  '(buffer, bufPos) ← BerEncoder.encodeTL 0x06 (zlen oid) buffer bufPos;
  '(buffer, bufPos) ← copy_bytes (Datatypes.length oid) oid 0 buffer bufPos;
  '(buffer, bufPos) ← BerEncoder.encodeTL 0x30 4 buffer bufPos;
  '(buffer, bufPos) ← BerEncoder.encodeTL 0x06 2 buffer bufPos;
  copy_bytes 2 ber_id 0 buffer bufPos.

Definition encodeMode (buffer : list Z) (bufPos : Z) : option (list Z * Z) :=
  '(buffer, bufPos) ← BerEncoder.encodeTL 0xa0 3 buffer bufPos;
  '(buffer, bufPos) ← BerEncoder.encodeTL 0x80 1 buffer bufPos;
  put buffer bufPos 1.

Definition connectLengths (self : IsoPresentation) (payloadLength : Z) : Z * Z :=
  let pclLength := 27 + size (callingPresentationSelector self) + size (calledPresentationSelector self) in
  let normalModeLength := 12 + pclLength + userDataSize payloadLength + 2 in
  (5 + normalModeLength + (1 + BerEncoder.determineLengthSize normalModeLength), normalModeLength).

(** The static function, with the fields of [self] set by its caller. *)
Definition connectPdu (self : IsoPresentation) (payloadLength : Z) (buffer : list Z) (bufPos : Z)
    : option (list Z * Z) :=
  let '(contentLength, normalModeLength) := connectLengths self payloadLength in
  '(buffer, bufPos) ← BerEncoder.encodeTL 0x31 contentLength buffer bufPos;
  '(buffer, bufPos) ← encodeMode buffer bufPos;
  '(buffer, bufPos) ← BerEncoder.encodeTL 0xa2 normalModeLength buffer bufPos;
  '(buffer, bufPos) ← encodeSelector 0x81 (callingPresentationSelector self) buffer bufPos;
  '(buffer, bufPos) ← encodeSelector 0x82 (calledPresentationSelector self) buffer bufPos;
  '(buffer, bufPos) ← BerEncoder.encodeTL 0xa4 35 buffer bufPos;
  '(buffer, bufPos) ← encodeContext 15 1 asn_id_as_acse buffer bufPos;
  '(buffer, bufPos) ← encodeContext 16 3 asn_id_mms buffer bufPos;
  encodeUserData payloadLength (acseContextId self) buffer bufPos.

(** The part a writer fills in front of [payload]. *)
Definition createPart (partMaxLength : Z) (buffer : list Z) (payload : BufferChain)
    (write : Z -> list Z -> Z -> option (list Z * Z)) : option BufferChain :=
  payloadLength ← chain_length payload;
  '(buffer, bufPos) ← write payloadLength buffer 0;
  Some (finishPart partMaxLength buffer bufPos payloadLength payload).

Definition createConnectPdu (self : IsoPresentation) (localPSelector remotePSelector : PSelector)
    (partMaxLength : Z) (buffer : list Z) (payload : BufferChain)
    : option (IsoPresentation * BufferChain) :=
  let self := set_selectors localPSelector remotePSelector (set_contexts 1 3 self) in
  part ← createPart partMaxLength buffer payload (connectPdu self);
  Some (self, part).

Definition cpaLengths (payloadLength : Z) : Z * Z :=
  let normalModeLength := 6 + 20 + userDataSize payloadLength in
  (5 + normalModeLength + (BerEncoder.determineLengthSize normalModeLength + 1), normalModeLength).

Definition cpaMessage (self : IsoPresentation) (payloadLength : Z) (buffer : list Z) (bufPos : Z)
    : option (list Z * Z) :=
  let '(contentLength, normalModeLength) := cpaLengths payloadLength in
  '(buffer, bufPos) ← BerEncoder.encodeTL 0x31 contentLength buffer bufPos;
  '(buffer, bufPos) ← encodeMode buffer bufPos;
  '(buffer, bufPos) ← BerEncoder.encodeTL 0xa2 normalModeLength buffer bufPos;
  '(buffer, bufPos) ← BerEncoder.encodeTL 0x83 4 buffer bufPos;
  '(buffer, bufPos) ← copy_bytes 4 respondingSelector 0 buffer bufPos;
  '(buffer, bufPos) ← BerEncoder.encodeTL 0xa5 18 buffer bufPos;
  '(buffer, bufPos) ← encodeAcceptBer buffer bufPos;
  '(buffer, bufPos) ← encodeAcceptBer buffer bufPos;
  encodeUserData payloadLength (acseContextId self) buffer bufPos.

Definition createCpaMessage (self : IsoPresentation) (partMaxLength : Z) (buffer : list Z)
    (payload : BufferChain) : option BufferChain :=
  createPart partMaxLength buffer payload (cpaMessage self).

(** [IsoPresentation_createUserData] and [IsoPresentation_createUserDataACSE] differ in
    the context. *)
Definition userDataPdu (contextId payloadLength : Z) (buffer : list Z) (bufPos : Z)
    : option (list Z * Z) :=
  let userDataLengthFieldSize := BerEncoder.determineLengthSize payloadLength in
  let pdvListLength := payloadLength + (userDataLengthFieldSize + 4) in
  let pdvListLengthFieldSize := BerEncoder.determineLengthSize pdvListLength in
  let presentationLength := pdvListLength + (pdvListLengthFieldSize + 1) in
  '(buffer, bufPos) ← BerEncoder.encodeTL 0x61 presentationLength buffer bufPos;
  '(buffer, bufPos) ← BerEncoder.encodeTL 0x30 pdvListLength buffer bufPos;
  '(buffer, bufPos) ← puts buffer bufPos [0x02; 0x01; contextId];
  BerEncoder.encodeTL 0xa0 payloadLength buffer bufPos.

Definition createUserData (self : IsoPresentation) (partMaxLength : Z) (buffer : list Z)
    (payload : BufferChain) : option BufferChain :=
  createPart partMaxLength buffer payload (userDataPdu (mmsContextId self)).

Definition createUserDataACSE (self : IsoPresentation) (partMaxLength : Z) (buffer : list Z)
    (payload : BufferChain) : option BufferChain :=
  createPart partMaxLength buffer payload (userDataPdu (acseContextId self)).

Definition createAbortUserMessage (self : IsoPresentation) (partMaxLength : Z) (buffer : list Z)
    (payload : BufferChain) : option BufferChain :=
  createPart partMaxLength buffer payload (fun payloadLength buffer bufPos =>
    '(buffer, bufPos) ← BerEncoder.encodeTL 0xa0 (userDataSize payloadLength) buffer bufPos;
    encodeUserData payloadLength (acseContextId self) buffer bufPos).

(** ** Parsing

    Each loop reads a tag and a length per round, so that its fuel is the number of its
    octets and one.  The result [-1] of a position is the failure. *)

(** The switch of [parseFullyEncodedData]. *)
Definition userDataItem (self : IsoPresentation) (buffer : list Z) (tag length bufPos : Z)
    (userDataPresent : bool) : option (IsoPresentation * Z * bool) :=
  if decide (tag = 0x02) then
    presentationSelector ← BerDecoder.decodeUint32 buffer length bufPos;
    Some (set_next (u8 presentationSelector) (nextPayload self) self, bufPos + length, userDataPresent)
  else if decide (tag = 0xa0) then
    let user := {| ByteBuf.buffer := from buffer bufPos; maxSize := maxSize (nextPayload self);
                   ByteBuf.size := length |} in
    Some (set_next (nextContextId self) user self, bufPos + length, true)
  else if decide (tag = 0x00) then Some (self, bufPos, userDataPresent)
  else Some (self, bufPos + length, userDataPresent).

Fixpoint parseFullyEncodedData_loop (fuel : nat) (self : IsoPresentation) (buffer : list Z)
    (endPos bufPos : Z) (userDataPresent : bool) : option (IsoPresentation * Z) :=
  match fuel with
  | O => None
  | S fuel =>
      if decide (bufPos < endPos) then
        tag ← buffer.[bufPos];
        '(bufPos, length) ← BerDecoder.decodeLength buffer 0 (bufPos + 1) endPos;
        if decide (bufPos < 0) then Some (self, -1)
        else
          '(self, bufPos, userDataPresent) ← userDataItem self buffer tag length bufPos userDataPresent;
          parseFullyEncodedData_loop fuel self buffer endPos bufPos userDataPresent
      else Some (self, if (userDataPresent : bool) then bufPos else -1)
  end.

Definition parseFullyEncodedData (self : IsoPresentation) (buffer : list Z) (len bufPos : Z)
    : option (IsoPresentation * Z) :=
  let endPos := bufPos + len in
  if decide (len < 1) then Some (self, -1)
  else
    tag ← buffer.[bufPos];
    if decide (tag <> 0x30) then Some (self, -1)
    else
      '(bufPos, len) ← BerDecoder.decodeLength buffer len (bufPos + 1) endPos;
      if decide (bufPos < 0) then Some (self, -1)
      else parseFullyEncodedData_loop (S (Z.to_nat len)) self buffer (bufPos + len) bufPos false.

(** The switch of [parsePCDLEntry]: the context and whether it is for ACSE and for MMS. *)
Definition pcdlItem (buffer : list Z) (tag len bufPos : Z) (entry : Z * bool * bool)
    : option (Z * (Z * bool * bool)) :=
  let '(contextId, isAcse, isMms) := entry in
  if decide (tag = 0x02) then
    id ← BerDecoder.decodeUint32 buffer len bufPos;
    Some (bufPos + len, (s32 id, isAcse, isMms))
  else if decide (tag = 0x06) then
    if decide (len = 5) then
      equal ← memcmp 5 (from buffer bufPos) asn_id_mms;
      Some (bufPos + len, (contextId, isAcse, equal || isMms))
    else if decide (len = 4) then
      equal ← memcmp 4 (from buffer bufPos) asn_id_as_acse;
      Some (bufPos + len, (contextId, equal || isAcse, isMms))
    else Some (bufPos + len, entry)
  else if decide (tag = 0x00) then Some (bufPos, entry)
  else Some (bufPos + len, entry).

Fixpoint parsePCDLEntry_loop (fuel : nat) (self : IsoPresentation) (buffer : list Z)
    (endPos bufPos : Z) (entry : Z * bool * bool) : option (IsoPresentation * Z) :=
  match fuel with
  | O => None
  | S fuel =>
      if decide (bufPos < endPos) then
        tag ← buffer.[bufPos];
        '(bufPos, len) ← BerDecoder.decodeLength buffer 0 (bufPos + 1) endPos;
        if decide (bufPos < 0) then Some (self, -1)
        else
          '(bufPos, entry) ← pcdlItem buffer tag len bufPos entry;
          parsePCDLEntry_loop fuel self buffer endPos bufPos entry
      else
        let '(contextId, isAcse, isMms) := entry in
        if decide (contextId < 0) then Some (self, -1)
        else if (isMms : bool) then
          Some (set_contexts (acseContextId self) (u8 contextId) self, bufPos)
        else if (isAcse : bool) then
          Some (set_contexts (u8 contextId) (mmsContextId self) self, bufPos)
        else Some (self, -1)
  end.

Definition parsePCDLEntry (self : IsoPresentation) (buffer : list Z) (totalLength bufPos : Z)
    : option (IsoPresentation * Z) :=
  parsePCDLEntry_loop (S (Z.to_nat totalLength)) self buffer (bufPos + totalLength) bufPos
    (-1, false, false).

Fixpoint parsePresentationContextDefinitionList_loop (fuel : nat) (self : IsoPresentation)
    (buffer : list Z) (endPos bufPos : Z) : option (IsoPresentation * Z) :=
  match fuel with
  | O => None
  | S fuel =>
      if decide (bufPos < endPos) then
        tag ← buffer.[bufPos];
        '(bufPos, len) ← BerDecoder.decodeLength buffer 0 (bufPos + 1) endPos;
        if decide (bufPos < 0) then Some (self, -1)
        else
          '(self, bufPos) ←
            (if decide (tag = 0x30) then parsePCDLEntry self buffer len bufPos
             else if decide (tag = 0x00) then Some (self, bufPos)
             else Some (self, bufPos + len));
          if decide (bufPos < 0) then Some (self, -1)
          else parsePresentationContextDefinitionList_loop fuel self buffer endPos bufPos
      else Some (self, bufPos)
  end.

Definition parsePresentationContextDefinitionList (self : IsoPresentation) (buffer : list Z)
    (totalLength bufPos : Z) : option (IsoPresentation * Z) :=
  parsePresentationContextDefinitionList_loop (S (Z.to_nat totalLength)) self buffer
    (bufPos + totalLength) bufPos.

(** A selector of at most 16 octets is copied, a longer one is skipped. *)
Definition copySelector (sel : PSelector) (buffer : list Z) (len bufPos : Z) : option PSelector :=
  if decide (len > 16) then Some sel
  else
    '(v, _) ← copy_bytes (Z.to_nat len) buffer bufPos (value sel) 0;
    Some {| size := len; value := v |}.

(** The switch of [parseNormalModeParameters]; the position is [-1] for its returns. *)
Definition normalModeItem (self : IsoPresentation) (buffer : list Z) (tag len bufPos : Z)
    (hasUserData : bool) : option (IsoPresentation * Z * bool) :=
  if decide (tag = 0x81) then
    sel ← copySelector (callingPresentationSelector self) buffer len bufPos;
    Some (set_selectors sel (calledPresentationSelector self) self, bufPos + len, hasUserData)
  else if decide (tag = 0x82) then
    sel ← copySelector (calledPresentationSelector self) buffer len bufPos;
    Some (set_selectors (callingPresentationSelector self) sel self, bufPos + len, hasUserData)
  else if decide (tag = 0xa4) then
    '(self, bufPos) ← parsePresentationContextDefinitionList self buffer len bufPos;
    Some (self, bufPos, hasUserData)
  else if decide (tag = 0x61) then
    '(self, bufPos) ← parseFullyEncodedData self buffer len bufPos;
    Some (self, bufPos, bool_decide (0 <= bufPos /\ ByteBuf.size (nextPayload self) > 0) || hasUserData)
  else if decide (tag = 0x00) then Some (self, bufPos, hasUserData)
  else Some (self, bufPos + len, hasUserData).

Fixpoint parseNormalModeParameters_loop (fuel : nat) (self : IsoPresentation) (buffer : list Z)
    (endPos bufPos : Z) (hasUserData : bool) : option (IsoPresentation * Z) :=
  match fuel with
  | O => None
  | S fuel =>
      if decide (bufPos < endPos) then
        tag ← buffer.[bufPos];
        '(bufPos, len) ← BerDecoder.decodeLength buffer 0 (bufPos + 1) endPos;
        if decide (bufPos < 0) then Some (self, -1)
        else
          '(self, bufPos, hasUserData) ← normalModeItem self buffer tag len bufPos hasUserData;
          if decide (bufPos < 0) then Some (self, -1)
          else parseNormalModeParameters_loop fuel self buffer endPos bufPos hasUserData
      else Some (self, if (hasUserData : bool) then bufPos else -1)
  end.

Definition parseNormalModeParameters (self : IsoPresentation) (buffer : list Z)
    (totalLength bufPos : Z) : option (IsoPresentation * Z) :=
  let calling := callingPresentationSelector self in
  let called := calledPresentationSelector self in
  let self := set_selectors {| size := 0; value := value calling |}
                            {| size := 0; value := value called |} self in
  parseNormalModeParameters_loop (S (Z.to_nat totalLength)) self buffer (bufPos + totalLength) bufPos
    false.

(** The mode selector of a connect PDU. *)
Definition parseMode (buffer : list Z) (len bufPos maxBufPos : Z) : option Z :=
  if decide (len < 1) then Some (-1)
  else
    tag ← buffer.[bufPos];
    if decide (tag <> 0x80) then Some (-1)
    else
      '(bufPos, len) ← BerDecoder.decodeLength buffer len (bufPos + 1) maxBufPos;
      if decide (bufPos < 0) then Some (-1)
      else
        _ ← BerDecoder.decodeUint32 buffer len bufPos;
        Some (bufPos + len).

(** The loops of [parseConnect], with [connect] true, and of [parseAcceptMessage]. *)
Fixpoint parseCp_loop (connect : bool) (fuel : nat) (self : IsoPresentation) (buffer : list Z)
    (maxBufPos bufPos : Z) (hasNormalModeParameters : bool) : option (IsoPresentation * Z) :=
  match fuel with
  | O => None
  | S fuel =>
      if decide (bufPos < maxBufPos) then
        tag ← buffer.[bufPos];
        '(bufPos, len) ← BerDecoder.decodeLength buffer 0 (bufPos + 1) maxBufPos;
        if decide (bufPos < 0) then Some (self, 0)
        else if decide (tag = 0xa0) then
          bufPos ← (if connect then parseMode buffer len bufPos maxBufPos else Some (bufPos + len));
          if decide (bufPos < 0) then Some (self, 0)
          else parseCp_loop connect fuel self buffer maxBufPos bufPos hasNormalModeParameters
        else if decide (tag = 0xa2) then
          '(self, bufPos) ← parseNormalModeParameters self buffer len bufPos;
          if decide (bufPos < 0) then Some (self, 0)
          else parseCp_loop connect fuel self buffer maxBufPos bufPos true
        else if decide (tag = 0x00) then
          parseCp_loop connect fuel self buffer maxBufPos bufPos hasNormalModeParameters
        else parseCp_loop connect fuel self buffer maxBufPos (bufPos + len) hasNormalModeParameters
      else Some (self, if connect && negb hasNormalModeParameters then 0 else 1)
  end.

Definition parseCp (connect : bool) (self : IsoPresentation) (byteBuffer : ByteBuffer)
    : option (IsoPresentation * Z) :=
  let buffer := ByteBuf.buffer byteBuffer in
  let maxBufPos := ByteBuf.size byteBuffer in
  if decide (maxBufPos < 1) then Some (self, 0)
  else
    cpTag ← buffer.[0];
    if decide (cpTag <> 0x31) then Some (self, 0)
    else
      '(bufPos, _) ← BerDecoder.decodeLength buffer 0 1 maxBufPos;
      if decide (bufPos < 0) then Some (self, 0)
      else parseCp_loop connect (S (Z.to_nat maxBufPos)) self buffer maxBufPos bufPos false.

Definition parseConnect : IsoPresentation -> ByteBuffer -> option (IsoPresentation * Z) := parseCp true.
Definition parseAcceptMessage : IsoPresentation -> ByteBuffer -> option (IsoPresentation * Z) :=
  parseCp false.

(** The loop of [parseUserData]; an unknown tag is skipped without its content. *)
Fixpoint parseUserData_loop (fuel : nat) (self : IsoPresentation) (buffer : list Z)
    (maxBufPos bufPos : Z) (hasAbstractSyntaxName : bool) : option (IsoPresentation * Z) :=
  match fuel with
  | O => None
  | S fuel =>
      if decide (bufPos + 1 < maxBufPos) then
        tag ← buffer.[bufPos];
        lenField ← buffer.[bufPos + 1];
        '(bufPos, len) ← BerDecoder.decodeLength buffer 0 (bufPos + 1) maxBufPos;
        if decide (bufPos < 0) then Some (self, 0)
        else if decide (tag = 0x02) then
          x ← buffer.[bufPos];
          parseUserData_loop fuel (set_next x (nextPayload self) self) buffer maxBufPos (bufPos + len) true
        else if decide (tag = 0x06) then
          known ← (if decide (len < 2) then Some false
                   else
                     x ← buffer.[bufPos];
                     if decide (x <> 0x51) then Some false
                     else y ← buffer.[bufPos + 1]; Some (bool_decide (y = 0x01)));
          if (known : bool) then
            parseUserData_loop fuel self buffer maxBufPos (bufPos + len) hasAbstractSyntaxName
          else Some (self, 0)
        else if decide (tag = 0xa0) then
          if hasAbstractSyntaxName then
            let userDataLength := if decide (lenField = 0x80) then len - 2 else len in
            Some (set_next (nextContextId self)
                    (ByteBuffer_wrap (from buffer bufPos) userDataLength userDataLength) self, 1)
          else Some (self, 0)
        else parseUserData_loop fuel self buffer maxBufPos bufPos hasAbstractSyntaxName
      else Some (self, 0)
  end.

Definition parseUserData (self : IsoPresentation) (readBuffer : ByteBuffer)
    : option (IsoPresentation * Z) :=
  let buffer := ByteBuf.buffer readBuffer in
  let maxBufPos := ByteBuf.size readBuffer in
  if decide (maxBufPos < 9) then Some (self, 0)
  else
    tag ← buffer.[0];
    if decide (tag <> 0x61) then Some (self, 0)
    else
      '(bufPos, _) ← BerDecoder.decodeLength buffer 0 1 maxBufPos;
      if decide (bufPos < 0) then Some (self, 0)
      else
        tag ← buffer.[bufPos];
        if decide (tag <> 0x30) then Some (self, 0)
        else
          '(bufPos, _) ← BerDecoder.decodeLength buffer 0 (bufPos + 1) maxBufPos;
          if decide (bufPos < 0) then Some (self, 0)
          else parseUserData_loop (S (Z.to_nat maxBufPos)) self buffer maxBufPos bufPos false.

(** ** The layout of the PDUs *)

Import BerEncoder.

Definition sel_wf (sel : PSelector) : Prop := wf_buf (value sel) 16 /\ 0 <= size sel <= 16.

(** The selector that is sent. *)
Definition sel_bytes (sel : PSelector) : list Z := take (Z.to_nat (size sel)) (value sel).

Definition user_data (contextId : Z) (user : list Z) : list Z :=
  enc_tlv 0x61 (enc_tlv 0x30 (enc_tlv 0x02 [contextId] ++ enc_tlv 0xa0 user)).

Definition context_item (id : Z) (oid : list Z) : list Z :=
  enc_tlv 0x30 (enc_tlv 0x02 [id] ++ enc_tlv 0x06 oid ++ enc_tlv 0x30 (enc_tlv 0x06 ber_id)).

Definition context_list : list Z := context_item 1 asn_id_as_acse ++ context_item 3 asn_id_mms.

Definition connect_parameters (self : IsoPresentation) (user : list Z) : list Z :=
  enc_tlv 0x81 (sel_bytes (callingPresentationSelector self)) ++
  enc_tlv 0x82 (sel_bytes (calledPresentationSelector self)) ++
  enc_tlv 0xa4 context_list ++ user_data (acseContextId self) user.

Definition accept_parameters (self : IsoPresentation) (user : list Z) : list Z :=
  enc_tlv 0x83 respondingSelector ++
  enc_tlv 0xa5 (enc_tlv 0x30 (enc_tlv 0x80 [0] ++ enc_tlv 0x81 ber_id) ++
                enc_tlv 0x30 (enc_tlv 0x80 [0] ++ enc_tlv 0x81 ber_id)) ++
  user_data (acseContextId self) user.

(** The CP and CPA PDUs. *)
Definition cp_pdu (parameters : list Z) : list Z :=
  enc_tlv 0x31 (enc_tlv 0xa0 (enc_tlv 0x80 [1]) ++ enc_tlv 0xa2 parameters).

Lemma presentation_sel_bytes_length sel : sel_wf sel -> zlen (sel_bytes sel) = size sel.
Proof. intros [[_ Hl] Hs]. unfold sel_bytes. rewrite length_take. lia. Qed.

Lemma sel_bytes_bytes sel : sel_wf sel -> is_bytes (sel_bytes sel).
Proof. intros [[Hb _] _]. by apply Forall_take. Qed.

Lemma determineLengthSize_bounds n : 1 <= determineLengthSize n <= 4.
Proof. unfold determineLengthSize. repeat case_decide; lia. Qed.

(** Replaces the lengths of elements by what the code computes. *)
Ltac tlv_lengths :=
  repeat match goal with
         | |- context [zlen (?xs ++ ?ys)] => rewrite (length_app xs ys), Nat2Z.inj_add
         | |- context [zlen (enc_tlv ?t ?xs)] => rewrite (enc_tlv_length t xs)
         end.

Lemma user_data_length ctx user : zlen user < 65000 ->
  zlen (enc_tlv 0x30 (enc_tlv 0x02 [ctx] ++ enc_tlv 0xa0 user)) = snd (userDataLengths (zlen user)) /\
  zlen (enc_tlv 0x02 [ctx] ++ enc_tlv 0xa0 user) = fst (userDataLengths (zlen user)) /\
  zlen (user_data ctx user) = userDataSize (zlen user) /\ userDataSize (zlen user) <= zlen user + 18.
Proof.
  intros Hl. pose proof (determineLengthSize_bounds (zlen user)) as H1.
  assert (E0 : zlen (enc_tlv 0x02 [ctx] ++ enc_tlv 0xa0 user) = fst (userDataLengths (zlen user))).
  { tlv_lengths; [|lia|cbn; lia]. change (zlen [ctx]) with 1. change (determineLengthSize 1) with 1.
    cbn [fst userDataLengths]. lia. }
  set (n := fst (userDataLengths (zlen user))) in *. pose proof (determineLengthSize_bounds n) as H2.
  assert (Hn : n = zlen user + 4 + determineLengthSize (zlen user)) by (unfold n; cbn; lia).
  assert (E1 : zlen (enc_tlv 0x30 (enc_tlv 0x02 [ctx] ++ enc_tlv 0xa0 user)) = snd (userDataLengths (zlen user))).
  { rewrite enc_tlv_length by lia. rewrite E0.
    assert (Hs : snd (userDataLengths (zlen user)) = n + (determineLengthSize n + 1)) by done. lia. }
  set (m := snd (userDataLengths (zlen user))) in *. pose proof (determineLengthSize_bounds m) as H3.
  assert (Hm : m = n + (determineLengthSize n + 1)) by done.
  assert (E2 : userDataSize (zlen user) = m + 1 + determineLengthSize m) by done.
  split_and!; [done|done| |lia]. unfold user_data. rewrite enc_tlv_length by lia. rewrite E1, E2. lia.
Qed.

Lemma encodeUserData_front ctx user : zlen user < 65000 ->
  writes_front (encodeUserData (zlen user) ctx) (user_data ctx user) user.
Proof.
  intros Hl. destruct (user_data_length ctx user Hl) as (E1 & E2 & E3 & E4).
  unfold encodeUserData, user_data. destruct (userDataLengths (zlen user)) as [n m] eqn:E.
  cbn [fst snd] in E1, E2. unfold userDataSize in E4. rewrite E in E4.
  pose proof (determineLengthSize_bounds m). pose proof (determineLengthSize_bounds n).
  assert (Hm : m = n + (determineLengthSize n + 1)) by (by injection E as <- <-).
  apply front_tlv; [done|unfold_int; lia|]. apply front_tlv; [done|unfold_int; lia|].
  change (enc_tlv 2 [ctx]) with ([2; 1] ++ [ctx]). rewrite <- app_assoc.
  apply (front_bind _ _ [2; 1]); [by apply (encodeTL_writes 2 1)|].
  apply front_bind; [apply writes_put|]. apply front_user; [done|unfold_int; lia].
Qed.

Lemma encodeSelector_writes tag sel : sel_wf sel ->
  writes (encodeSelector tag sel) (enc_tlv tag (sel_bytes sel)).
Proof.
  intros W. pose proof (presentation_sel_bytes_length sel W) as E. destruct W as [_ Hs].
  unfold encodeSelector. apply writes_tlv; [done|unfold_int; lia|].
  apply writes_copy; [apply bytes_at_take, bytes_at_0|lia].
Qed.

(** Breaks a writer up into its calls. *)
Ltac split_writes :=
  repeat first
    [ apply writes_put
    | apply encodeTL_writes; unfold_int; lia
    | apply writes_copy; [apply bytes_at_0|reflexivity]
    | apply writes_bind ].

(** The context list is a constant. *)
Lemma contexts_write :
  writes (encodeContext 15 1 asn_id_as_acse) (context_item 1 asn_id_as_acse) /\
  writes (encodeContext 16 3 asn_id_mms) (context_item 3 asn_id_mms).
Proof.
  split; (eapply writes_eq; [unfold encodeContext; split_writes|reflexivity]).
Qed.

Lemma encodeMode_writes : writes encodeMode (enc_tlv 0xa0 (enc_tlv 0x80 [1])).
Proof. eapply writes_eq; [unfold encodeMode; split_writes|reflexivity]. Qed.

Lemma encodeAcceptBer_writes :
  writes encodeAcceptBer (enc_tlv 0x30 (enc_tlv 0x80 [0] ++ enc_tlv 0x81 ber_id)).
Proof. eapply writes_eq; [unfold encodeAcceptBer; split_writes|reflexivity]. Qed.

Lemma connect_lengths self user :
  sel_wf (callingPresentationSelector self) -> sel_wf (calledPresentationSelector self) ->
  zlen user < 65000 ->
  let '(n, m) := connectLengths self (zlen user) in
  m = zlen (connect_parameters self user) /\
  n = zlen (enc_tlv 0xa0 (enc_tlv 0x80 [1]) ++ enc_tlv 0xa2 (connect_parameters self user)) /\
  zlen (cp_pdu (connect_parameters self user)) <= zlen user + 130.
Proof.
  intros H1 H2 Hl. destruct (user_data_length (acseContextId self) user Hl) as (_ & _ & E & Hu).
  pose proof (presentation_sel_bytes_length _ H1) as L1. pose proof (presentation_sel_bytes_length _ H2) as L2.
  destruct H1 as [_ H1], H2 as [_ H2]. unfold connectLengths.
  set (m := 12 + _ + _ + 2).
  assert (Em : m = zlen (connect_parameters self user)).
  { unfold connect_parameters. tlv_lengths; try (cbn; lia); [|done]. rewrite L1, L2, E.
    assert (Hs : forall k, 0 <= k <= 16 -> determineLengthSize k = 1).
    { intros k Hk. unfold determineLengthSize. by rewrite decide_True by lia. }
    rewrite !Hs by done. change (determineLengthSize (zlen context_list)) with 1.
    change (zlen context_list) with 35. unfold m. lia. }
  assert (Hm : m <= zlen user + 100) by (unfold m; lia). clearbody m.
  pose proof (determineLengthSize_bounds m).
  assert (En : zlen (enc_tlv 0xa0 (enc_tlv 0x80 [1]) ++ enc_tlv 0xa2 (connect_parameters self user)) =
    5 + m + (1 + determineLengthSize m)).
  { tlv_lengths; rewrite <- ?Em; try lia; [|by vm_compute..].
    change (determineLengthSize (1 + determineLengthSize (zlen [1]) + zlen [1])) with 1.
    change (determineLengthSize (zlen [1])) with 1. change (zlen [1]) with 1. lia. }
  split_and!; [done|rewrite En; lia|]. unfold cp_pdu. rewrite enc_tlv_length, En by lia.
  pose proof (determineLengthSize_bounds (5 + m + (1 + determineLengthSize m))). lia.
Qed.

Lemma accept_lengths self user : zlen user < 65000 ->
  let '(n, m) := cpaLengths (zlen user) in
  m = zlen (accept_parameters self user) /\
  n = zlen (enc_tlv 0xa0 (enc_tlv 0x80 [1]) ++ enc_tlv 0xa2 (accept_parameters self user)) /\
  zlen (cp_pdu (accept_parameters self user)) <= zlen user + 130.
Proof.
  intros Hl. destruct (user_data_length (acseContextId self) user Hl) as (_ & _ & E & Hu).
  unfold cpaLengths. set (m := 6 + 20 + _).
  assert (Em : m = zlen (accept_parameters self user)).
  { unfold accept_parameters. rewrite !length_app, !Nat2Z.inj_add, E. unfold m.
    change (zlen (enc_tlv 0x83 respondingSelector)) with 6.
    change (zlen (enc_tlv 0xa5 _)) with 20. lia. }
  assert (Hm : m <= zlen user + 100) by (unfold m; lia). clearbody m.
  pose proof (determineLengthSize_bounds m).
  assert (En : zlen (enc_tlv 0xa0 (enc_tlv 0x80 [1]) ++ enc_tlv 0xa2 (accept_parameters self user)) =
    5 + m + (determineLengthSize m + 1)).
  { rewrite length_app, Nat2Z.inj_add, (enc_tlv_length 0xa2) by lia. rewrite <- Em.
    change (zlen (enc_tlv 160 (enc_tlv 128 [1]))) with 5. lia. }
  split_and!; [done|rewrite En; lia|]. unfold cp_pdu. rewrite enc_tlv_length, En by lia.
  pose proof (determineLengthSize_bounds (5 + m + (determineLengthSize m + 1))). lia.
Qed.

Lemma connectPdu_front self user :
  sel_wf (callingPresentationSelector self) -> sel_wf (calledPresentationSelector self) ->
  zlen user < 65000 ->
  writes_front (connectPdu self (zlen user)) (cp_pdu (connect_parameters self user)) user.
Proof.
  intros H1 H2 Hl. pose proof (connect_lengths self user H1 H2 Hl) as HL. unfold connectPdu.
  destruct (connectLengths self (zlen user)) as [n m]. destruct HL as (Em & En & Hb).
  unfold cp_pdu in *.
  assert (Hn : m <= n <= zlen user + 130).
  { pose proof (enc_tlv_ge 0x31 (enc_tlv 0xa0 (enc_tlv 0x80 [1]) ++ enc_tlv 0xa2 (connect_parameters self user))).
    pose proof (enc_tlv_ge 0xa2 (connect_parameters self user)). rewrite length_app in *. lia. }
  apply front_tlv; [done|unfold_int; lia|]. apply front_bind; [apply encodeMode_writes|].
  apply front_tlv; [done|unfold_int; lia|]. unfold connect_parameters.
  apply front_bind; [by apply encodeSelector_writes|]. apply front_bind; [by apply encodeSelector_writes|].
  change (enc_tlv 0xa4 context_list) with ((0xa4 :: enc_length 35) ++ context_list). rewrite <- app_assoc.
  apply front_bind; [by apply encodeTL_writes|]. unfold context_list. rewrite <- app_assoc.
  apply front_bind; [apply contexts_write|]. apply front_bind; [apply contexts_write|].
  by apply encodeUserData_front.
Qed.

Lemma cpaMessage_front self user : zlen user < 65000 ->
  writes_front (cpaMessage self (zlen user)) (cp_pdu (accept_parameters self user)) user.
Proof.
  intros Hl. pose proof (accept_lengths self user Hl) as HL. unfold cpaMessage.
  destruct (cpaLengths (zlen user)) as [n m]. destruct HL as (Em & En & Hb).
  unfold cp_pdu in *.
  assert (Hn : m <= n <= zlen user + 130).
  { pose proof (enc_tlv_ge 0x31 (enc_tlv 0xa0 (enc_tlv 0x80 [1]) ++ enc_tlv 0xa2 (accept_parameters self user))).
    pose proof (enc_tlv_ge 0xa2 (accept_parameters self user)). rewrite length_app in *. lia. }
  apply front_tlv; [done|unfold_int; lia|]. apply front_bind; [apply encodeMode_writes|].
  apply front_tlv; [done|unfold_int; lia|]. unfold accept_parameters.
  change (enc_tlv 0x83 respondingSelector) with ((0x83 :: enc_length 4) ++ respondingSelector).
  rewrite <- app_assoc. apply front_bind; [by apply encodeTL_writes|].
  apply front_bind; [apply writes_copy; [apply bytes_at_0|done]|].
  change (enc_tlv 0xa5 ?xs) with ((0xa5 :: enc_length 18) ++ xs). rewrite <- !app_assoc.
  apply front_bind; [by apply encodeTL_writes|]. do 2 (apply front_bind; [apply encodeAcceptBer_writes|]).
  by apply encodeUserData_front.
Qed.

Lemma userDataPdu_front ctx user : zlen user < 65000 ->
  writes_front (userDataPdu ctx (zlen user)) (user_data ctx user) user.
Proof.
  intros Hl. destruct (user_data_length ctx user Hl) as (E1 & E2 & _ & Hb).
  unfold userDataPdu, user_data. revert E1 E2. unfold userDataLengths. cbn [fst snd].
  set (n := 3 + _ + _). intros E1 E2. replace (zlen user + (determineLengthSize (zlen user) + 4)) with n by lia.
  pose proof (determineLengthSize_bounds (zlen user)). pose proof (determineLengthSize_bounds n).
  assert (Hn : n <= zlen user + 8) by lia. clearbody n.
  apply front_tlv; [lia|unfold_int; lia|]. apply front_tlv; [done|unfold_int; lia|].
  apply front_bind; [done|]. apply front_user; [done|unfold_int; lia].
Qed.

(** The part a writer makes in front of a payload. *)
Lemma createPart_spec write pm buf payload xs :
  chain_wf payload -> payload <> ChainNull -> is_bytes buf -> is_bytes xs ->
  writes_front (write (zlen (chain_bytes payload))) xs (chain_bytes payload) ->
  zlen xs - zlen (chain_bytes payload) <= zlen buf -> zlen (chain_bytes payload) < zlen xs ->
  exists c, createPart pm buf payload write = Some c /\ chain_bytes c = xs /\ part_ok buf c.
Proof.
  intros Hc Hnn Hb Hx Hw Hl Hlt.
  destruct (finishPart_spec _ pm buf payload xs Hc Hnn Hb Hx Hw Hl Hlt) as (El & b & p & E & H).
  eexists. split; [|exact H]. unfold createPart. rewrite El. cbn [mbind option_bind]. by rewrite E.
Qed.

(** ** Parsing what was created *)

Lemma fed_round fuel self b endPos p tag xs rest present : BerDecoder.element_at b p endPos tag xs rest ->
  exists q, BerDecoder.opened b p endPos tag xs rest q /\
    parseFullyEncodedData_loop (S fuel) self b endPos p present =
      ('(self, bufPos, present) ← userDataItem self b tag (zlen xs) q present;
       parseFullyEncodedData_loop fuel self b endPos bufPos present).
Proof. intros H. BerDecoder.loop_round H q Ho parseFullyEncodedData_loop. Qed.

Lemma pcdl_round fuel self b endPos p tag xs rest entry : BerDecoder.element_at b p endPos tag xs rest ->
  exists q, BerDecoder.opened b p endPos tag xs rest q /\
    parsePCDLEntry_loop (S fuel) self b endPos p entry =
      ('(bufPos, entry) ← pcdlItem b tag (zlen xs) q entry;
       parsePCDLEntry_loop fuel self b endPos bufPos entry).
Proof. intros H. BerDecoder.loop_round H q Ho parsePCDLEntry_loop. Qed.

Lemma list_round fuel self b endPos p xs rest : BerDecoder.element_at b p endPos 0x30 xs rest ->
  exists q, BerDecoder.opened b p endPos 0x30 xs rest q /\
    parsePresentationContextDefinitionList_loop (S fuel) self b endPos p =
      ('(self, bufPos) ← parsePCDLEntry self b (zlen xs) q;
       if decide (bufPos < 0) then Some (self, -1)
       else parsePresentationContextDefinitionList_loop fuel self b endPos bufPos).
Proof. intros H. BerDecoder.loop_round H q Ho parsePresentationContextDefinitionList_loop. Qed.

Lemma mode_round fuel self b endPos p tag xs rest present : BerDecoder.element_at b p endPos tag xs rest ->
  exists q, BerDecoder.opened b p endPos tag xs rest q /\
    parseNormalModeParameters_loop (S fuel) self b endPos p present =
      ('(self, bufPos, present) ← normalModeItem self b tag (zlen xs) q present;
       if decide (bufPos < 0) then Some (self, -1)
       else parseNormalModeParameters_loop fuel self b endPos bufPos present).
Proof. intros H. BerDecoder.loop_round H q Ho parseNormalModeParameters_loop. Qed.

(** [self'] is [self] after the user data [user] of the context [ctx]. *)
Definition got_user (self self' : IsoPresentation) (ctx : Z) (user : list Z) : Prop :=
  exists p, holds p user /\ readable p /\ self' = set_next ctx p self.

Lemma presentation_parse_user_data b p self ctx user n :
  is_bytes b -> is_u8 ctx -> zlen user < 65000 -> 0 <= p ->
  let xs := enc_tlv 0x30 (enc_tlv 0x02 [ctx] ++ enc_tlv 0xa0 user) in
  bytes_at b p xs -> n = zlen xs ->
  exists self', parseFullyEncodedData self b n p = Some (self', p + n) /\ got_user self self' ctx user.
Proof.
  intros Hb Hc Hl Hp xs Hat ->. destruct (user_data_length ctx user Hl) as (L1 & L2 & L3 & L4).
  fold xs in L1. pose proof (enc_tlv_ge 0x30 (enc_tlv 0x02 [ctx] ++ enc_tlv 0xa0 user)) as G. fold xs in G.
  pose proof (enc_tlv_ge 0xa0 user) as G2. pose proof (enc_tlv_ge 0x02 [ctx]) as G3. cbn [length] in G3.
  pose proof (enc_tlv_ge 0x61 xs) as G4. fold xs in L3. change (enc_tlv 0x61 xs) with (user_data ctx user) in G4.
  set (items := enc_tlv 0x02 [ctx] ++ enc_tlv 0xa0 user) in *.
  assert (E0 : BerDecoder.element_at b p (p + zlen xs) 0x30 items []).
  { split_and!; [by rewrite app_nil_r|lia|lia|by rewrite app_nil_r]. }
  destruct (BerDecoder.element_open _ _ _ _ _ _ E0) as (q & Ho). destruct Ho as [Ht Hd Hq Hpq _ Hend].
  cbn [length] in Hend. unfold parseFullyEncodedData. rewrite decide_False by lia.
  rewrite Ht. cbn [mbind option_bind]. rewrite decide_False by tauto. rewrite Hd. cbn [mbind option_bind].
  rewrite decide_False by lia. assert (Hi : zlen items = zlen (enc_tlv 0x02 [ctx]) + zlen (enc_tlv 0xa0 user)).
  { unfold items. rewrite length_app. lia. }
  assert (Hf : exists k, S (Z.to_nat (zlen items)) = S (S (S k))).
  { exists (Z.to_nat (zlen items - 2)). lia. }
  destruct Hf as [k ->].
  destruct (fed_round (S (S k)) self b (q + zlen items) q 0x02 [ctx] (enc_tlv 0xa0 user) false)
    as (q1 & O1 & ->); [split_and!; first [done | fold items; cbn [length]; lia]|]. destruct O1 as [_ _ Hx Hp1 Hr1 He1]. cbn [length] in Hr1, He1.
  unfold userDataItem at 1. rewrite decide_True by done.
  rewrite (BerDecoder.decodeUint32_octet _ _ ctx) by (done || apply Hx). cbn [mbind option_bind]. rewrite u8_id by done.
  destruct (fed_round (S k) (set_next ctx (nextPayload self) self) b (q + zlen items) (q1 + 1) 0xa0 user [] false)
    as (q2 & O2 & E2).
  { split_and!; [by rewrite app_nil_r|lia|lia|rewrite app_nil_r; lia]. }
  change (zlen [ctx]) with 1. rewrite E2. destruct O2 as [_ _ Hu Hp2 _ He2]. cbn [length] in He2.
  unfold userDataItem. rewrite decide_False by done. rewrite decide_True by done. cbn [mbind option_bind].
  cbn [parseFullyEncodedData_loop]. rewrite decide_False by lia. eexists. split; [do 2 f_equal; lia|].
  eexists. split; [|split].
  3: { unfold set_next. cbn. reflexivity. }
  - split; [done|]. by apply bytes_at_from; [lia|].
  - split; [by apply from_bytes|]. cbn.
    destruct (bytes_at_bound _ _ _ Hat) as [_ Hbd]; [done|]. rewrite from_length; lia.
Qed.

(** An item of the context list sets one of the contexts. *)
Definition known_context (self : IsoPresentation) (id : Z) (oid : list Z) (self' : IsoPresentation) : Prop :=
  (oid = asn_id_as_acse /\ self' = set_contexts id (mmsContextId self) self) \/
  (oid = asn_id_mms /\ self' = set_contexts (acseContextId self) id self).

Lemma parse_context b p self id oid self' :
  known_context self id oid self' -> 0 <= id < 128 -> 0 <= p ->
  let xs := enc_tlv 0x02 [id] ++ enc_tlv 0x06 oid ++ enc_tlv 0x30 (enc_tlv 0x06 ber_id) in
  bytes_at b p xs -> parsePCDLEntry self b (zlen xs) p = Some (self', p + zlen xs).
Proof.
  intros Hk Hid Hp xs Hat. assert (Ho : zlen oid < 128) by (destruct Hk as [[-> _]|[-> _]]; done).
  pose proof (enc_tlv_ge 0x02 [id]) as G1. pose proof (enc_tlv_ge 0x06 oid) as G2.
  assert (Hxs : zlen xs = zlen (enc_tlv 0x02 [id]) + zlen (enc_tlv 0x06 oid ++ enc_tlv 0x30 (enc_tlv 0x06 ber_id))).
  { unfold xs. rewrite length_app. lia. }
  assert (Hf : exists k, S (Z.to_nat (zlen xs)) = S (S (S (S k)))).
  { exists (Z.to_nat (zlen xs - 3)). rewrite length_app in Hxs. change (zlen (enc_tlv 0x30 _)) with 6 in Hxs. lia. }
  destruct Hf as [k Hk']. unfold parsePCDLEntry. rewrite Hk'. clear Hk'.
  destruct (pcdl_round (S (S (S k))) self b (p + zlen xs) p 0x02 [id] _ (-1, false, false)
    ltac:(split_and!; first [exact Hat|done|lia])) as (q1 & [_ _ [Hx _] Hp1 Hr1 He1] & ->).
  unfold pcdlItem at 1. rewrite decide_True by done. change (zlen [id]) with 1 in *.
  rewrite (BerDecoder.decodeUint32_octet _ _ id) by (done || (unfold_int; lia)). cbn [mbind option_bind].
  rewrite s32_id by (unfold_int; lia).
  destruct (pcdl_round (S (S k)) self b (p + zlen xs) (q1 + 1) 0x06 oid _ (id, false, false)
    ltac:(split_and!; first [exact Hr1|lia])) as (q2 & [_ _ Hx2 Hp2 Hr2 He2] & ->).
  assert (E2 : pcdlItem b 0x06 (zlen oid) q2 (id, false, false) =
    Some (q2 + zlen oid, (id, bool_decide (oid = asn_id_as_acse), bool_decide (oid = asn_id_mms)))).
  { unfold pcdlItem. rewrite decide_False, decide_True by done.
    destruct Hk as [[-> _]|[-> _]].
    - change (zlen asn_id_as_acse) with 4. rewrite decide_False, decide_True by done.
      pose proof (memcmp_at b q2 asn_id_as_acse ltac:(lia) Hx2) as M. change (zlen asn_id_as_acse) with 4 in M. by rewrite M.
    - change (zlen asn_id_mms) with 5. rewrite decide_True by done.
      pose proof (memcmp_at b q2 asn_id_mms ltac:(lia) Hx2) as M. change (zlen asn_id_mms) with 5 in M. by rewrite M. }
  rewrite E2. cbn [mbind option_bind].
  destruct (pcdl_round (S k) self b (p + zlen xs) (q2 + zlen oid) 0x30 (enc_tlv 0x06 ber_id) []
    (id, bool_decide (oid = asn_id_as_acse), bool_decide (oid = asn_id_mms)))
    as (q3 & [_ _ _ Hp3 _ He3] & ->).
  { split_and!; [by rewrite app_nil_r|done|lia|rewrite app_nil_r; lia]. }
  unfold pcdlItem. do 2 rewrite decide_False by done. rewrite decide_False by done. cbn [mbind option_bind].
  cbn [length] in He3. cbn [parsePCDLEntry_loop]. rewrite decide_False by lia. rewrite decide_False by lia.
  destruct Hk as [[-> ->]|[-> ->]].
  - rewrite bool_decide_eq_false_2, bool_decide_eq_true_2 by done. rewrite u8_id by (unfold_int; lia).
    do 2 f_equal. lia.
  - rewrite (bool_decide_eq_true_2 (asn_id_mms = _)) by done. rewrite u8_id by (unfold_int; lia).
    do 2 f_equal. lia.
Qed.

Lemma parse_context_list b p self : 0 <= p -> bytes_at b p context_list ->
  parsePresentationContextDefinitionList self b (zlen context_list) p =
    Some (set_contexts 1 3 self, p + zlen context_list).
Proof.
  intros Hp Hat. unfold parsePresentationContextDefinitionList.
  change (zlen context_list) with 35. change (S (Z.to_nat 35)) with (S (S (S 33))).
  destruct (list_round (S (S 33)) self b (p + 35) p
    (enc_tlv 0x02 [1] ++ enc_tlv 0x06 asn_id_as_acse ++ enc_tlv 0x30 (enc_tlv 0x06 ber_id)) (context_item 3 asn_id_mms))
    as (q1 & [_ _ Hx1 Hp1 Hr1 He1] & ->); [split_and!; first [exact Hat|done|lia]|].
  rewrite (parse_context b q1 self 1 asn_id_as_acse (set_contexts 1 (mmsContextId self) self))
    by first [done|lia|by left]. cbn [mbind option_bind]. rewrite decide_False by lia.
  change (zlen (context_item 3 asn_id_mms)) with 18 in *.
  match goal with |- context [parsePresentationContextDefinitionList_loop _ _ _ _ ?r] => set (r0 := r) in * end.
  destruct (list_round (S 33) (set_contexts 1 (mmsContextId self) self) b (p + 35) r0
    (enc_tlv 0x02 [3] ++ enc_tlv 0x06 asn_id_mms ++ enc_tlv 0x30 (enc_tlv 0x06 ber_id)) [])
    as (q2 & [_ _ Hx2 Hp2 _ He2] & ->).
  { split_and!; [rewrite app_nil_r; exact Hr1|done|unfold r0; lia|rewrite app_nil_r].
    change (zlen (enc_tlv 48 _)) with 18. unfold r0. lia. }
  rewrite (parse_context b q2 _ 3 asn_id_mms (set_contexts 1 3 self))
    by first [done|lia|by right]. cbn [mbind option_bind]. rewrite decide_False by lia.
  cbn [length] in He2. cbn [parsePresentationContextDefinitionList_loop]. rewrite decide_False by lia.
  do 2 f_equal. lia.
Qed.

Lemma copySelector_spec sel b q s : sel_wf sel -> sel_wf s -> bytes_at b q (sel_bytes s) ->
  exists sel', copySelector sel b (zlen (sel_bytes s)) q = Some sel' /\ sel_wf sel' /\
    size sel' = size s /\ sel_bytes sel' = sel_bytes s.
Proof.
  intros [W1 _] Hs Hat. pose proof (presentation_sel_bytes_length s Hs) as L. pose proof (sel_bytes_bytes s Hs) as B.
  destruct Hs as [_ Hs]. unfold copySelector. rewrite decide_False by lia.
  destruct (copy_into b q (sel_bytes s) (value sel) 16 B Hat W1) as [-> W]; [lia|].
  cbn [mbind option_bind]. eexists. split; [done|]. split; [split; [done|cbn; lia]|].
  split; [done|]. unfold sel_bytes at 1. cbn [size value]. rewrite Nat2Z.id. by rewrite take_app_length.
Qed.

(** The presentation layer [peer'] of the receiver of user data [user] for [ctx]. *)
Record got_data (peer' : IsoPresentation) (ctx : Z) (user : list Z) : Prop := {
  got_context : nextContextId peer' = ctx;
  got_holds : holds (nextPayload peer') user;
  got_readable : readable (nextPayload peer');
}.

Definition same_selector (s s' : PSelector) : Prop := size s' = size s /\ sel_bytes s' = sel_bytes s.

Lemma got_user_data self self' ctx user : got_user self self' ctx user -> got_data self' ctx user.
Proof. intros (m & Hh & Hr & ->). by constructor. Qed.

(** The last element of the parameters. *)
Lemma parse_last_user_data fuel b p endPos self ctx user flag :
  is_bytes b -> is_u8 ctx -> 0 < zlen user < 65000 -> 0 <= p ->
  bytes_at b p (user_data ctx user) -> p + zlen (user_data ctx user) = endPos ->
  exists self', parseNormalModeParameters_loop (S (S fuel)) self b endPos p flag = Some (self', endPos) /\
    got_user self self' ctx user.
Proof.
  intros Hb Hc Hl Hp Hat He. destruct (user_data_length ctx user ltac:(lia)) as (L1 & _ & L3 & L4).
  set (xs := enc_tlv 0x30 (enc_tlv 0x02 [ctx] ++ enc_tlv 0xa0 user)) in *.
  pose proof (enc_tlv_ge 0x61 xs) as G. change (enc_tlv 0x61 xs) with (user_data ctx user) in G.
  destruct (mode_round (S fuel) self b endPos p 0x61 xs [] flag) as (q & [_ _ Hx Hpq _ Hq] & ->).
  { split_and!; [by rewrite app_nil_r|lia|lia|by rewrite app_nil_r]. }
  cbn [length] in Hq.
  destruct (presentation_parse_user_data b q self ctx user (zlen xs) Hb Hc ltac:(lia) ltac:(lia) Hx eq_refl)
    as (self' & E & Hg). exists self'. split; [|done].
  unfold normalModeItem. do 3 rewrite decide_False by done. rewrite decide_True by done. rewrite E.
  cbn [mbind option_bind]. rewrite decide_False by lia. destruct Hg as (m & [Hs _] & _ & ->).
  assert (Hz : bool_decide (0 <= q + zlen xs /\ ByteBuf.size (nextPayload (set_next ctx m self)) > 0) = true).
  { apply bool_decide_eq_true_2. cbn. rewrite Hs. lia. }
  rewrite Hz. cbn [parseNormalModeParameters_loop orb]. rewrite decide_False by lia. do 2 f_equal. lia.
Qed.

Definition presentation_ok (self : IsoPresentation) : Prop :=
  sel_wf (callingPresentationSelector self) /\ sel_wf (calledPresentationSelector self) /\
  is_u8 (acseContextId self).

Lemma presentation_parse_connect_parameters b p self peer user :
  is_bytes b -> presentation_ok self -> presentation_ok peer -> 0 < zlen user < 65000 -> 0 <= p ->
  bytes_at b p (connect_parameters self user) ->
  exists peer', parseNormalModeParameters peer b (zlen (connect_parameters self user)) p =
      Some (peer', p + zlen (connect_parameters self user)) /\
    got_data peer' (acseContextId self) user /\
    same_selector (callingPresentationSelector self) (callingPresentationSelector peer') /\
    same_selector (calledPresentationSelector self) (calledPresentationSelector peer') /\
    acseContextId peer' = 1 /\ mmsContextId peer' = 3.
Proof.
  intros Hb (S1 & S2 & Hc) (P1 & P2 & _) Hl Hp Hat. set (n := zlen (connect_parameters self user)).
  unfold parseNormalModeParameters. set (peer0 := set_selectors _ _ peer).
  assert (Q1 : sel_wf (callingPresentationSelector peer0)) by (destruct P1; split; cbn; [done|lia]).
  assert (Q2 : sel_wf (calledPresentationSelector peer0)) by (destruct P2; split; cbn; [done|lia]).
  pose proof (presentation_sel_bytes_length _ S1) as L1. pose proof (presentation_sel_bytes_length _ S2) as L2.
  assert (Hn : n = zlen (connect_parameters self user)) by done. clearbody n.
  pose proof (enc_tlv_ge 0x81 (sel_bytes (callingPresentationSelector self))) as G1.
  pose proof (enc_tlv_ge 0x82 (sel_bytes (calledPresentationSelector self))) as G2.
  unfold connect_parameters in Hat, Hn.
  assert (Hlen : n = zlen (enc_tlv 0x81 (sel_bytes (callingPresentationSelector self))) +
    zlen (enc_tlv 0x82 (sel_bytes (calledPresentationSelector self))) + 37 +
    zlen (user_data (acseContextId self) user)).
  { rewrite Hn, !length_app. change (zlen (enc_tlv 0xa4 context_list)) with 37. 
    pose proof (eq_refl : zlen (enc_tlv 0xa4 context_list) = 37). lia. }
  assert (Hf : exists k, S (Z.to_nat n) = S (S (S (S (S k))))) by (exists (Z.to_nat (n - 4)); lia).
  destruct Hf as [k ->].
  destruct (mode_round (S (S (S (S k)))) peer0 b (p + n) p 0x81 (sel_bytes (callingPresentationSelector self)) _ false
    ltac:(split_and!; first [exact Hat|destruct S1; lia|rewrite Hn; lia])) as (q1 & [_ _ Hx1 Hp1 Hr1 He1] & ->).
  unfold normalModeItem at 1. rewrite decide_True by done.
  destruct (copySelector_spec (callingPresentationSelector peer0) b q1 _ Q1 S1 Hx1) as (c1 & -> & W1 & Z1 & B1).
  cbn [mbind option_bind]. rewrite decide_False by lia.
  destruct (mode_round (S (S (S k))) (set_selectors c1 (calledPresentationSelector peer0) peer0) b (p + n) _ 0x82
    (sel_bytes (calledPresentationSelector self)) _ false
    ltac:(split_and!; first [exact Hr1|destruct S2; lia|lia])) as (q2 & [_ _ Hx2 Hp2 Hr2 He2] & ->).
  unfold normalModeItem at 1. rewrite decide_False, decide_True by done.
  destruct (copySelector_spec (calledPresentationSelector peer0) b q2 _ Q2 S2 Hx2) as (c2 & E2 & W2 & Z2 & B2).
  cbn [calledPresentationSelector set_selectors] in E2 |- *. rewrite E2.
  cbn [mbind option_bind]. rewrite decide_False by lia.
  match goal with |- context [parseNormalModeParameters_loop _ ?x _ _ _ _] => set (peer2 := x) end.
  destruct (mode_round (S (S k)) peer2 b (p + n) _ 0xa4 context_list _ false
    ltac:(split_and!; first [exact Hr2|done|lia])) as (q3 & [_ _ Hx3 Hp3 Hr3 He3] & ->).
  unfold normalModeItem at 1. do 2 rewrite decide_False by done. rewrite decide_True by done.
  rewrite parse_context_list by (done || lia). cbn [mbind option_bind]. rewrite decide_False by lia.
  destruct (parse_last_user_data k b (q3 + zlen context_list) (p + n) (set_contexts 1 3 peer2)
    (acseContextId self) user false Hb Hc Hl ltac:(lia) Hr3 He3) as (peer' & -> & Hg).
  exists peer'. split; [done|]. split; [by eapply got_user_data|].
  destruct Hg as (m & _ & _ & ->). done.
Qed.

Lemma presentation_parse_accept_parameters b p self peer user :
  is_bytes b -> is_u8 (acseContextId self) -> 0 < zlen user < 65000 -> 0 <= p ->
  bytes_at b p (accept_parameters self user) ->
  exists peer', parseNormalModeParameters peer b (zlen (accept_parameters self user)) p =
      Some (peer', p + zlen (accept_parameters self user)) /\
    got_data peer' (acseContextId self) user /\
    acseContextId peer' = acseContextId peer /\ mmsContextId peer' = mmsContextId peer.
Proof.
  intros Hb Hc Hl Hp Hat. set (n := zlen (accept_parameters self user)).
  unfold parseNormalModeParameters. set (peer0 := set_selectors _ _ peer).
  assert (Hn : n = zlen (accept_parameters self user)) by done. clearbody n.
  unfold accept_parameters in Hat, Hn. set (results := enc_tlv 0x30 _ ++ enc_tlv 0x30 _) in *.
  assert (Hlen : n = 26 + zlen (user_data (acseContextId self) user)).
  { rewrite Hn, !length_app. pose proof (eq_refl : zlen (enc_tlv 0x83 respondingSelector) = 6).
    pose proof (eq_refl : zlen (enc_tlv 0xa5 results) = 20). lia. }
  assert (Hf : exists k, S (Z.to_nat n) = S (S (S (S k)))) by (exists (Z.to_nat (n - 3)); lia).
  destruct Hf as [k ->].
  destruct (mode_round (S (S (S k))) peer0 b (p + n) p 0x83 respondingSelector _ false
    ltac:(split_and!; first [exact Hat|done|rewrite Hn; lia])) as (q1 & [_ _ _ Hp1 Hr1 He1] & ->).
  unfold normalModeItem at 1. do 5 rewrite decide_False by done. cbn [mbind option_bind].
  rewrite decide_False by lia.
  destruct (mode_round (S (S k)) peer0 b (p + n) _ 0xa5 results _ false
    ltac:(split_and!; first [exact Hr1|done|lia])) as (q2 & [_ _ _ Hp2 Hr2 He2] & ->).
  unfold normalModeItem at 1. do 5 rewrite decide_False by done. cbn [mbind option_bind].
  rewrite decide_False by lia.
  destruct (parse_last_user_data k b (q2 + zlen results) (p + n) peer0
    (acseContextId self) user false Hb Hc Hl ltac:(lia) Hr2 He2) as (peer' & -> & Hg).
  exists peer'. split; [done|]. split; [by eapply got_user_data|].
  destruct Hg as (m & _ & _ & ->). done.
Qed.

(** A CP or CPA PDU is its mode and its parameters. *)
Lemma parse_cp connect peer m parameters (Q : IsoPresentation -> Prop) :
  readable m -> holds m (cp_pdu parameters) -> zlen parameters < 65500 ->
  (forall q, bytes_at (buffer m) q parameters -> 0 <= q -> exists peer',
     parseNormalModeParameters peer (buffer m) (zlen parameters) q = Some (peer', q + zlen parameters) /\ Q peer') ->
  exists peer', parseCp connect peer m = Some (peer', 1) /\ Q peer'.
Proof.
  intros [Hb Hsz] [Hs Hat] Hl Hpar. unfold cp_pdu in *.
  set (mode := enc_tlv 0xa0 (enc_tlv 0x80 [1])) in *. set (body := mode ++ enc_tlv 0xa2 parameters) in *.
  assert (Hlm : zlen mode = 5) by done.
  assert (Hlb : zlen body < 65535).
  { unfold body. rewrite length_app. pose proof (enc_tlv_length 0xa2 parameters ltac:(lia)).
    pose proof (determineLengthSize_bounds (zlen parameters)). lia. }
  pose proof (enc_tlv_ge 0x31 body) as G. pose proof (enc_tlv_ge 0xa2 parameters) as G2.
  assert (E0 : BerDecoder.element_at (buffer m) 0 (ByteBuf.size m) 0x31 body []).
  { split_and!; [by rewrite app_nil_r|lia|lia|rewrite app_nil_r; lia]. }
  destruct (BerDecoder.element_open _ _ _ _ _ _ E0) as (q & [Ht Hd Hq Hpq _ Hend]). cbn [length] in Hend.
  unfold parseCp. rewrite decide_False by lia. rewrite Ht. cbn [mbind option_bind].
  rewrite decide_False by tauto. change (0 + 1) with 1 in Hd. rewrite Hd. cbn [mbind option_bind].
  rewrite decide_False by lia.
  assert (Hf : exists k, S (Z.to_nat (ByteBuf.size m)) = S (S (S k))) by (exists (Z.to_nat (ByteBuf.size m - 2)); lia).
  destruct Hf as [k ->].
  assert (E1 : BerDecoder.element_at (buffer m) q (ByteBuf.size m) 0xa0 (enc_tlv 0x80 [1]) (enc_tlv 0xa2 parameters)).
  { split_and!; [exact Hq|done|lia|fold mode; fold body; lia]. }
  destruct (BerDecoder.element_open _ _ _ _ _ _ E1) as (q1 & [Ht1 Hd1 Hx1 Hp1 Hr1 He1]).
  change (zlen (enc_tlv 0x80 [1])) with 3 in *.
  assert (Hmode : (if connect then parseMode (buffer m) 3 q1 (ByteBuf.size m) else Some (q1 + 3)) = Some (q1 + 3)).
  { destruct connect; [|done]. unfold parseMode. rewrite decide_False by lia.
    destruct (BerDecoder.tlv_head (buffer m) q1 0x80 [1] (ByteBuf.size m) 3 Hx1 ltac:(done))
      as (q2 & -> & Hd2 & [Hv _] & Hp2 & He2); [change (zlen (enc_tlv 128 [1])) with 3; lia|].
    cbn [mbind option_bind]. rewrite decide_False by tauto. rewrite Hd2. cbn [mbind option_bind].
    rewrite decide_False by lia. change (zlen [1]) with 1 in *. change (zlen (enc_tlv 128 [1])) with 3 in He2.
    rewrite (BerDecoder.decodeUint32_octet _ _ 1) by done. cbn [mbind option_bind]. f_equal. lia. }
  cbn [parseCp_loop]. rewrite decide_True by lia. rewrite Ht1. cbn [mbind option_bind]. rewrite Hd1.
  cbn [mbind option_bind]. rewrite decide_False by lia. rewrite decide_True by done. rewrite Hmode.
  cbn [mbind option_bind]. rewrite decide_False by lia. rewrite decide_True by lia.
  assert (E2 : BerDecoder.element_at (buffer m) (q1 + 3) (ByteBuf.size m) 0xa2 parameters []).
  { split_and!; [by rewrite app_nil_r|lia|lia|rewrite app_nil_r; lia]. }
  destruct (BerDecoder.element_open _ _ _ _ _ _ E2) as (q2 & [Ht2 Hd2 Hx2 Hp2 _ He2]). cbn [length] in He2.
  rewrite Ht2. cbn [mbind option_bind]. rewrite Hd2. cbn [mbind option_bind]. rewrite decide_False by lia.
  rewrite decide_False by done. rewrite decide_True by done.
  destruct (Hpar q2 Hx2 ltac:(lia)) as (peer' & -> & HQ).
  cbn [mbind option_bind]. rewrite decide_False by lia.
  rewrite decide_False by lia. exists peer'. by destruct connect.
Qed.

(** The user data PDU of the data phase. *)
Lemma parse_user_pdu m peer ctx user :
  readable m -> holds m (user_data ctx user) -> is_u8 ctx -> 0 < zlen user < 65000 ->
  exists peer', parseUserData peer m = Some (peer', 1) /\ got_data peer' ctx user /\
    acseContextId peer' = acseContextId peer /\ mmsContextId peer' = mmsContextId peer.
Proof.
  intros [Hb Hsz] [Hs Hat] Hc Hl. destruct (user_data_length ctx user ltac:(lia)) as (L1 & _ & L3 & L4).
  unfold user_data in *. set (items := enc_tlv 0x02 [ctx] ++ enc_tlv 0xa0 user) in *.
  pose proof (enc_tlv_ge 0x61 (enc_tlv 0x30 items)) as G1. pose proof (enc_tlv_ge 0x30 items) as G2.
  pose proof (enc_tlv_ge 0xa0 user) as G3.
  assert (Hli : zlen items = 3 + zlen (enc_tlv 0xa0 user)).
  { unfold items. rewrite length_app. change (zlen (enc_tlv 0x02 [ctx])) with 3. 
    pose proof (eq_refl : zlen (enc_tlv 0x02 [ctx]) = 3). lia. }
  unfold parseUserData. rewrite decide_False by lia.
  destruct (BerDecoder.tlv_head (buffer m) 0 0x61 (enc_tlv 0x30 items) (ByteBuf.size m) 0 Hat)
    as (q & -> & Hd & Hx & Hp & He); [lia|lia|].
  cbn [mbind option_bind]. rewrite decide_False by tauto. change (0 + 1) with 1 in Hd. rewrite Hd.
  cbn [mbind option_bind]. rewrite decide_False by lia.
  destruct (BerDecoder.tlv_head (buffer m) q 0x30 items (ByteBuf.size m) 0 Hx)
    as (q1 & -> & Hd1 & Hx1 & Hp1 & He1); [lia|lia|].
  cbn [mbind option_bind]. rewrite decide_False by tauto. rewrite Hd1.
  cbn [mbind option_bind]. rewrite decide_False by lia.
  assert (Hf : exists k, S (Z.to_nat (ByteBuf.size m)) = S (S (S k))) by (exists (Z.to_nat (ByteBuf.size m - 2)); lia).
  destruct Hf as [k ->]. unfold items in Hx1. apply bytes_at_app in Hx1 as [Hx2 Hx3].
  change (zlen (enc_tlv 0x02 [ctx])) with 3 in Hx3.
  destruct (BerDecoder.tlv_head (buffer m) q1 0x02 [ctx] (ByteBuf.size m) 0 Hx2 ltac:(done))
    as (q2 & Ht2 & Hd2 & [Hv _] & Hp2 & He2); [change (zlen (enc_tlv 0x02 [ctx])) with 3; lia|].
  change (zlen (enc_tlv 0x02 [ctx])) with 3 in He2. change (zlen [ctx]) with 1 in *.
  cbn [parseUserData_loop]. rewrite decide_True by lia. rewrite Ht2. cbn [mbind option_bind].
  destruct (rd_ok (buffer m) (q1 + 1) Hb) as (lf & -> & _); [lia|]. cbn [mbind option_bind]. rewrite Hd2.
  cbn [mbind option_bind]. rewrite decide_False by lia. rewrite decide_True by done. rewrite Hv.
  cbn [mbind option_bind]. rewrite decide_True by lia.
  replace (q2 + 1) with (q1 + 3) by lia.
  destruct (BerDecoder.tlv_head (buffer m) (q1 + 3) 0xa0 user (ByteBuf.size m) 0 Hx3)
    as (q3 & Ht3 & Hd3 & Hx4 & Hp3 & He3); [lia|lia|].
  rewrite Ht3. cbn [mbind option_bind].
  assert (Hlf : exists lf, rd (buffer m) (q1 + 3 + 1) = Some lf /\ lf <> 0x80).
  { unfold enc_tlv in Hx3. destruct Hx3 as [_ Hx3]. apply bytes_at_app in Hx3 as [Hx3 _].
    unfold enc_length in Hx3. repeat case_decide; destruct Hx3 as [E _]; eexists; (split; [exact E|lia]). }
  destruct Hlf as (lf2 & -> & Hlf). cbn [mbind option_bind]. rewrite Hd3. cbn [mbind option_bind].
  rewrite decide_False by lia. do 2 rewrite decide_False by done. rewrite decide_True by done.
  rewrite decide_False by done.
  eexists. split; [done|]. split; [|done]. constructor; cbn; [done| |].
  - split; [done|]. by apply bytes_at_from; [lia|].
  - split; [by apply from_bytes|]. cbn. rewrite from_length; lia.
Qed.

(** ** Safety of the parsers *)

Definition safe_state (self : IsoPresentation) : Prop :=
  sel_wf (callingPresentationSelector self) /\ sel_wf (calledPresentationSelector self) /\
  readable (nextPayload self) /\ is_u8 (acseContextId self) /\ is_u8 (mmsContextId self).

(** The parser ends in a safe state, at [-1] or in [[low, high]]. *)
Definition parses (low high : Z) (res : option (IsoPresentation * Z)) : Prop :=
  exists self' r, res = Some (self', r) /\ safe_state self' /\ (r = -1 \/ low <= r <= high).

Lemma parses_ret self low high r : safe_state self -> r = -1 \/ low <= r <= high ->
  parses low high (Some (self, r)).
Proof. intros. by exists self, r. Qed.

Lemma parses_mono low low' high res : parses low high res -> low' <= low -> parses low' high res.
Proof. intros (s & r & -> & Hs & Hr) Hl. exists s, r. split_and!; [done|done|lia]. Qed.

(** The head of a round of a loop. *)
Ltac head_of_round Hb :=
  match goal with
  | |- context [rd ?b ?p] =>
      let x := fresh "tag" in destruct (rd_ok b p Hb) as (x & -> & _); [lia|]; cbn [mbind option_bind]
  end;
  match goal with
  | |- context [BerDecoder.decodeLength ?b ?l ?p ?max] =>
      let q := fresh "q" in let n := fresh "n" in let H := fresh "Hq" in
      destruct (BerDecoder.decodeLength_total b p max l Hb) as (q & n & -> & H); [lia|lia|];
      cbn [mbind option_bind]; case_decide; [by apply parses_ret; auto|];
      destruct H as [->|H]; [lia|]
  end.

Lemma next_user_safe b q n self : is_bytes b -> 0 <= q -> 0 <= n -> q + n <= zlen b -> safe_state self ->
  safe_state (set_next (nextContextId self)
    {| ByteBuf.buffer := from b q; maxSize := maxSize (nextPayload self); ByteBuf.size := n |} self).
Proof.
  intros Hb Hq Hn Hl (S1 & S2 & _ & S4). split; [done|]. split; [done|]. split; [|done].
  split; [by apply from_bytes|]. cbn. rewrite from_length; lia.
Qed.

Lemma parseFullyEncodedData_loop_safe fuel b endPos : is_bytes b -> endPos <= zlen b ->
  forall self p flag, safe_state self -> 0 <= p <= endPos -> (Z.to_nat (endPos - p) < fuel)%nat ->
  parses p endPos (parseFullyEncodedData_loop fuel self b endPos p flag).
Proof.
  intros Hb He. induction fuel as [|fuel IH]; intros self p flag Hs Hp Hf; [lia|].
  cbn [parseFullyEncodedData_loop]. case_decide; [|apply parses_ret; [done|destruct flag; lia]].
  head_of_round Hb. unfold userDataItem.
  destruct (BerDecoder.decodeUint32_total b n q Hb) as (v & ->); [lia..|]. cbn [mbind option_bind].
  repeat case_decide; cbn [mbind option_bind]; (eapply parses_mono; [apply IH|]); try lia; try done.
  by apply next_user_safe; (done || lia).
Qed.

Lemma parseFullyEncodedData_safe b p n self : is_bytes b -> 0 <= p -> 0 <= n -> p + n <= zlen b ->
  safe_state self -> parses p (p + n) (parseFullyEncodedData self b n p).
Proof.
  intros Hb Hp Hn Hl Hs. unfold parseFullyEncodedData. case_decide; [apply parses_ret; auto|].
  destruct (rd_ok b p Hb) as (x & -> & _); [lia|]. cbn [mbind option_bind].
  case_decide; [apply parses_ret; auto|].
  destruct (BerDecoder.decodeLength_total b (p + 1) (p + n) n Hb) as (q & k & -> & Hq); [lia..|].
  cbn [mbind option_bind]. case_decide; [apply parses_ret; auto|]. destruct Hq as [->|Hq]; [lia|].
  destruct (parseFullyEncodedData_loop_safe (S (Z.to_nat k)) b (q + k) Hb ltac:(lia) self q false Hs)
    as (s & r & -> & Hs' & Hr); [lia..|]. apply parses_ret; [done|lia].
Qed.

Lemma pcdlItem_total b tag n q entry : is_bytes b -> 0 <= q -> 0 <= n -> q + n <= zlen b ->
  exists q' entry', pcdlItem b tag n q entry = Some (q', entry') /\ q <= q' <= q + n.
Proof.
  intros Hb Hq Hn Hl. unfold pcdlItem. destruct entry as [[c a] m].
  destruct (BerDecoder.decodeUint32_total b n q Hb) as (v & ->); [lia..|]. cbn [mbind option_bind].
  repeat case_decide; try (eexists _, _; split; [done|lia]).
  - destruct (memcmp_total 5 (from b q) asn_id_mms) as (r & ->); [lia|rewrite from_length; lia|done|].
    eexists _, _. split; [done|lia].
  - destruct (memcmp_total 4 (from b q) asn_id_as_acse) as (r & ->); [lia|rewrite from_length; lia|done|].
    eexists _, _. split; [done|lia].
Qed.

Lemma parsePCDLEntry_safe b p n self : is_bytes b -> 0 <= p -> 0 <= n -> p + n <= zlen b ->
  safe_state self -> parses p (p + n) (parsePCDLEntry self b n p).
Proof.
  intros Hb Hp Hn Hl Hs. unfold parsePCDLEntry. generalize (-1, false, false).
  assert (Hf : (Z.to_nat (p + n - p) < S (Z.to_nat n))%nat) by lia. revert Hf.
  generalize (S (Z.to_nat n)). intros fuel. remember (p + n) as e eqn:Ee.
  assert (He : 0 <= p <= e /\ e <= zlen b) by lia. clear Ee n Hn Hl. revert p Hp He.
  induction fuel as [|fuel IH]; intros p Hp He Hf entry; [lia|].
  cbn [parsePCDLEntry_loop]. case_decide.
  - head_of_round Hb. destruct (pcdlItem_total b tag n q entry Hb) as (q' & entry' & -> & Hq'); [lia..|].
    cbn [mbind option_bind]. eapply parses_mono; [apply IH|]; lia.
  - destruct entry as [[c a] m]. destruct (Hs) as (S1 & S2 & S3 & S4 & S5).
    assert (Hset : forall x y, is_u8 x -> is_u8 y -> safe_state (set_contexts x y self)) by done.
    case_decide; [apply parses_ret; auto|].
    destruct m; [apply parses_ret; [apply Hset; [done|apply u8_range]|lia]|].
    destruct a; [apply parses_ret; [apply Hset; [apply u8_range|done]|lia]|apply parses_ret; auto].
Qed.

Lemma parseList_safe b p n self : is_bytes b -> 0 <= p -> 0 <= n -> p + n <= zlen b ->
  safe_state self -> parses p (p + n) (parsePresentationContextDefinitionList self b n p).
Proof.
  intros Hb Hp Hn Hl Hs. unfold parsePresentationContextDefinitionList.
  assert (Hf : (Z.to_nat (p + n - p) < S (Z.to_nat n))%nat) by lia. revert Hf.
  generalize (S (Z.to_nat n)). intros fuel. remember (p + n) as e eqn:Ee.
  assert (He : 0 <= p <= e /\ e <= zlen b) by lia. clear Ee n Hn Hl. revert self Hs p Hp He.
  induction fuel as [|fuel IH]; intros self Hs p Hp He Hf; [lia|].
  cbn [parsePresentationContextDefinitionList_loop]. case_decide; [|apply parses_ret; [done|lia]].
  head_of_round Hb.
  destruct (parsePCDLEntry_safe b q n self Hb ltac:(lia) ltac:(lia) ltac:(lia) Hs) as (s & r & E & Hs' & Hr).
  repeat case_decide; rewrite ?E; cbn [mbind option_bind]; (case_decide; [by apply parses_ret; auto|]);
    (eapply parses_mono; [apply IH|]); try done; lia.
Qed.

Lemma presentation_copySelector_safe sel b n q : is_bytes b -> 0 <= q -> 0 <= n -> q + n <= zlen b -> sel_wf sel ->
  exists sel', copySelector sel b n q = Some sel' /\ sel_wf sel'.
Proof.
  intros Hb Hq Hn Hl [W Hs]. unfold copySelector. case_decide; [by exists sel|].
  destruct (copy_total b q n (value sel) 16 Hb) as (v & p & -> & Wv); try done; try lia.
  eexists. split; [done|]. split; [done|]. cbn. lia.
Qed.

Lemma normalModeItem_safe b tag n q self flag : is_bytes b -> 0 <= q -> 0 <= n -> q + n <= zlen b ->
  safe_state self ->
  exists self' r flag', normalModeItem self b tag n q flag = Some (self', r, flag') /\ safe_state self' /\
    (r = -1 \/ q <= r <= q + n).
Proof.
  intros Hb Hq Hn Hl Hs. pose proof Hs as (S1 & S2 & S3). unfold normalModeItem.
  destruct (presentation_copySelector_safe _ b n q Hb Hq Hn Hl S1) as (c1 & -> & W1).
  destruct (presentation_copySelector_safe _ b n q Hb Hq Hn Hl S2) as (c2 & -> & W2). cbn [mbind option_bind].
  destruct (parseList_safe b q n self Hb Hq Hn Hl Hs) as (s3 & r3 & -> & Hs3 & Hr3).
  destruct (parseFullyEncodedData_safe b q n self Hb Hq Hn Hl Hs) as (s4 & r4 & -> & Hs4 & Hr4).
  cbn [mbind option_bind].
  repeat case_decide; (eexists _, _, _; split; [done|]; split; [done|lia]).
Qed.

Lemma parseNormalModeParameters_safe b p n self : is_bytes b -> 0 <= p -> 0 <= n -> p + n <= zlen b ->
  safe_state self -> parses p (p + n) (parseNormalModeParameters self b n p).
Proof.
  intros Hb Hp Hn Hl Hs. unfold parseNormalModeParameters. set (self0 := set_selectors _ _ self).
  assert (Hs0 : safe_state self0).
  { destruct Hs as ([W1 _] & [W2 _] & H3). split; [split; [done|cbn; lia]|].
    split; [split; [done|cbn; lia]|exact H3]. }
  clearbody self0. clear self Hs. generalize false.
  assert (Hf : (Z.to_nat (p + n - p) < S (Z.to_nat n))%nat) by lia. revert Hf.
  generalize (S (Z.to_nat n)). intros fuel. remember (p + n) as e eqn:Ee.
  assert (He : 0 <= p <= e /\ e <= zlen b) by lia. clear Ee n Hn Hl. revert self0 Hs0 p Hp He.
  induction fuel as [|fuel IH]; intros self Hs p Hp He Hf flag; [lia|].
  cbn [parseNormalModeParameters_loop]. case_decide; [|apply parses_ret; [done|destruct flag; lia]].
  head_of_round Hb.
  destruct (normalModeItem_safe b tag n q self flag Hb) as (s & r & f & -> & Hs' & Hr); [lia..|done|].
  cbn [mbind option_bind]. case_decide; [by apply parses_ret; auto|].
  eapply parses_mono; [apply IH|]; (done || lia).
Qed.

Lemma parseMode_total b n q max : is_bytes b -> 0 <= q -> 0 <= n -> q + n <= max -> max <= zlen b ->
  exists r, parseMode b n q max = Some r /\ (r = -1 \/ q < r <= max).
Proof.
  intros Hb Hq Hn Hl Hm. unfold parseMode. case_decide; [eauto|].
  destruct (rd_ok b q Hb) as (x & -> & _); [lia|]. cbn [mbind option_bind]. case_decide; [eauto|].
  destruct (BerDecoder.decodeLength_total b (q + 1) max n Hb) as (r & k & -> & Hr); [lia..|].
  cbn [mbind option_bind]. case_decide; [eauto|]. destruct Hr as [->|Hr]; [lia|].
  destruct (BerDecoder.decodeUint32_total b k r Hb) as (v & ->); [lia..|]. cbn [mbind option_bind].
  eexists. split; [done|lia].
Qed.

Lemma parseCp_safe connect self m : safe_state self -> readable m ->
  exists self' r, parseCp connect self m = Some (self', r) /\ safe_state self' /\ (r = 0 \/ r = 1).
Proof.
  intros Hs [Hb Hm]. unfold parseCp.
  assert (Hret : forall s r, safe_state s -> r = 0 \/ r = 1 -> exists self' r',
    Some (s, r) = Some (self', r') /\ safe_state self' /\ (r' = 0 \/ r' = 1)) by eauto.
  case_decide; [apply Hret; auto|]. destruct (rd_ok (buffer m) 0 Hb) as (x & -> & _); [lia|].
  cbn [mbind option_bind]. case_decide; [apply Hret; auto|].
  destruct (BerDecoder.decodeLength_total (buffer m) 1 (ByteBuf.size m) 0 Hb) as (p & k & -> & Hp); [lia..|].
  cbn [mbind option_bind]. case_decide; [apply Hret; auto|]. destruct Hp as [->|Hp]; [lia|].
  generalize false. assert (Hf : (Z.to_nat (ByteBuf.size m - p) < S (Z.to_nat (ByteBuf.size m)))%nat) by lia.
  assert (He : 0 <= p <= ByteBuf.size m) by lia. clear Hp H H0 H1. revert self Hs p He Hf.
  generalize (S (Z.to_nat (ByteBuf.size m))). intros fuel.
  induction fuel as [|fuel IH]; intros self Hs p He Hf flag; [lia|].
  cbn [parseCp_loop]. case_decide; [|apply Hret; [done|destruct connect, flag; auto]].
  destruct (rd_ok (buffer m) p Hb) as (tag & -> & _); [lia|]. cbn [mbind option_bind].
  destruct (BerDecoder.decodeLength_total (buffer m) (p + 1) (ByteBuf.size m) 0 Hb) as (q & n & -> & Hq); [lia..|].
  cbn [mbind option_bind]. case_decide; [apply Hret; auto|]. destruct Hq as [->|Hq]; [lia|].
  case_decide.
  { assert (Hmode : exists r, (if connect then parseMode (buffer m) n q (ByteBuf.size m) else Some (q + n)) = Some r /\
      (r = -1 \/ q <= r <= ByteBuf.size m)).
    { destruct connect; [|eexists; split; [done|lia]].
      destruct (parseMode_total (buffer m) n q (ByteBuf.size m) Hb) as (r & -> & Hr); [lia..|]. eexists. split; [done|lia]. }
    destruct Hmode as (r & -> & Hr). cbn [mbind option_bind]. case_decide; [apply Hret; auto|].
    apply IH; (done || lia). }
  case_decide.
  { destruct (parseNormalModeParameters_safe (buffer m) q n self Hb) as (s & r & -> & Hs' & Hr); [lia..|done|].
    cbn [mbind option_bind]. case_decide; [apply Hret; auto|]. apply IH; (done || lia). }
  case_decide; apply IH; (done || lia).
Qed.

(** The data of the data phase.  The parser looks at the octet behind a context
    identifier of length 0, which may be the one behind the message. *)
Lemma parseUserData_safe self m : safe_state self -> readable m -> ByteBuf.size m < zlen (buffer m) ->
  exists self' r, parseUserData self m = Some (self', r) /\ safe_state self' /\ (r = 0 \/ r = 1).
Proof.
  intros Hs [Hb Hm] Hx. unfold parseUserData.
  assert (Hret : forall s r, safe_state s -> r = 0 \/ r = 1 -> exists self' r',
    Some (s, r) = Some (self', r') /\ safe_state self' /\ (r' = 0 \/ r' = 1)) by eauto.
  case_decide; [apply Hret; auto|]. destruct (rd_ok (buffer m) 0 Hb) as (x & -> & _); [lia|].
  cbn [mbind option_bind]. case_decide; [apply Hret; auto|].
  destruct (BerDecoder.decodeLength_total (buffer m) 1 (ByteBuf.size m) 0 Hb) as (p & k & -> & Hp); [lia..|].
  cbn [mbind option_bind]. case_decide; [apply Hret; auto|]. destruct Hp as [->|Hp]; [lia|].
  destruct (rd_ok (buffer m) p Hb) as (y & -> & _); [lia|]. cbn [mbind option_bind].
  case_decide; [apply Hret; auto|].
  destruct (BerDecoder.decodeLength_total (buffer m) (p + 1) (ByteBuf.size m) 0 Hb) as (p1 & k1 & -> & Hp1); [lia..|].
  cbn [mbind option_bind]. case_decide; [apply Hret; auto|]. destruct Hp1 as [->|Hp1]; [lia|].
  generalize false. assert (Hf : (Z.to_nat (ByteBuf.size m - p1) < S (Z.to_nat (ByteBuf.size m)))%nat) by lia.
  assert (He : 0 <= p1 <= ByteBuf.size m) by lia. clear - Hret Hb Hm Hx He Hf Hs. revert self Hs p1 He Hf.
  generalize (S (Z.to_nat (ByteBuf.size m))). intros fuel.
  induction fuel as [|fuel IH]; intros self Hs p1 He Hf flag; [lia|].
  cbn [parseUserData_loop]. case_decide; [|apply Hret; auto].
  destruct (rd_ok (buffer m) p1 Hb) as (tag & -> & _); [lia|]. cbn [mbind option_bind].
  destruct (rd (buffer m) (p1 + 1)) as [lf|] eqn:Elf; [|destruct (rd_ok (buffer m) (p1 + 1) Hb) as (? & ? & _); [lia|congruence]].
  cbn [mbind option_bind].
  destruct (BerDecoder.decodeLength_total (buffer m) (p1 + 1) (ByteBuf.size m) 0 Hb) as (q & n & Ed & Hq); [lia..|].
  rewrite Ed. cbn [mbind option_bind]. case_decide; [apply Hret; auto|]. destruct Hq as [->|Hq]; [lia|].
  case_decide.
  { destruct (rd_ok (buffer m) q Hb) as (c & -> & _); [lia|]. cbn [mbind option_bind].
    apply IH; (done || lia). }
  case_decide.
  { assert (Hk : exists known, (if decide (n < 2) then Some false
                   else x ← rd (buffer m) q; if decide (x <> 0x51) then Some false
                        else y ← rd (buffer m) (q + 1); Some (bool_decide (y = 0x01))) = Some known).
    { case_decide; [eauto|]. destruct (rd_ok (buffer m) q Hb) as (c & -> & _); [lia|]. cbn [mbind option_bind].
      case_decide; [eauto|]. destruct (rd_ok (buffer m) (q + 1) Hb) as (d & -> & _); [lia|]. cbn. eauto. }
    destruct Hk as [known ->]. cbn [mbind option_bind]. destruct known; [|apply Hret; auto].
    apply IH; (done || lia). }
  case_decide; [|apply IH; (done || lia)]. destruct flag; [|apply Hret; auto].
  apply Hret; [|auto]. destruct Hs as (S1 & S2 & _ & S4). split; [done|]. split; [done|]. split; [|done].
  assert (Hn : 0 <= (if decide (lf = 0x80) then n - 2 else n) <= n).
  { case_decide as Hlf; [|lia]. subst lf.
    apply (BerDecoder.decodeLength_indefinite _ _ _ _ _ _ Hb) in Ed; [|lia|lia|exact Elf]. lia. }
  split; [by apply from_bytes|]. cbn. rewrite from_length; lia.
Qed.


(** A presentation layer before the first message. *)
Definition sample_state : IsoPresentation :=
  let sel := {| size := 0; value := replicate 16 0 |} in
  mkPresentation sel sel 0 1 3 (ByteBuffer_wrap [] 0 0).

Lemma sample_state_safe : safe_state sample_state.
Proof.
  assert (H : sel_wf {| size := 0; value := replicate 16 0 |}).
  { split; [by apply (wf_buf_replicate 16 0)|cbn; lia]. }
  split; [done|]. split; [done|]. split; [|done]. split; [constructor|done].
Qed.

(** The octet behind the message is read: without one the access is out of bounds. *)
Example data_pdu_read_behind :
  parseUserData sample_state (ByteBuffer_wrap ([0x61; 0x82; 0; 5; 0x30; 0x82; 0; 2; 0x02; 0x00]) 10 10) = None.
Proof. vm_compute. reflexivity. Qed.

(** ** Connections *)

Lemma user_data_ge ctx user : zlen user < zlen (user_data ctx user).
Proof.
  unfold user_data. set (items := enc_tlv 0x02 [ctx] ++ enc_tlv 0xa0 user).
  assert (zlen (enc_tlv 0xa0 user) <= zlen items) by (unfold items; rewrite length_app; lia).
  pose proof (enc_tlv_ge 0x61 (enc_tlv 0x30 items)). pose proof (enc_tlv_ge 0x30 items).
  pose proof (enc_tlv_ge 0xa0 user). lia.
Qed.

Lemma user_data_bytes ctx user : is_u8 ctx -> is_bytes user -> is_bytes (user_data ctx user).
Proof.
  intros Hc Hu. repeat first [apply enc_tlv_bytes; [done|] | apply Forall_app_2]; try done.
  by constructor.
Qed.

Lemma connect_parameters_bytes self user : presentation_ok self -> is_bytes user ->
  is_bytes (connect_parameters self user).
Proof.
  intros (S1 & S2 & Hc) Hu. unfold connect_parameters.
  apply Forall_app_2; [apply enc_tlv_bytes; [done|by apply sel_bytes_bytes]|].
  apply Forall_app_2; [apply enc_tlv_bytes; [done|by apply sel_bytes_bytes]|].
  apply Forall_app_2; [const_bytes|by apply user_data_bytes].
Qed.

Lemma accept_parameters_bytes self user : is_u8 (acseContextId self) -> is_bytes user ->
  is_bytes (accept_parameters self user).
Proof.
  intros Hc Hu. unfold accept_parameters.
  apply Forall_app_2; [const_bytes|]. apply Forall_app_2; [const_bytes|by apply user_data_bytes].
Qed.

Lemma cp_pdu_bytes xs : is_bytes xs -> is_bytes (cp_pdu xs).
Proof.
  intros Hx. apply enc_tlv_bytes; [done|]. apply Forall_app_2; [const_bytes|by apply enc_tlv_bytes].
Qed.

Lemma cp_pdu_ge n xs : n <= zlen xs -> n <= zlen (cp_pdu xs).
Proof.
  intros Hn. unfold cp_pdu. set (body := enc_tlv 0xa0 (enc_tlv 0x80 [1]) ++ enc_tlv 0xa2 xs).
  assert (zlen (enc_tlv 0xa2 xs) <= zlen body) by (unfold body; rewrite length_app; lia).
  pose proof (enc_tlv_ge 0x31 body). pose proof (enc_tlv_ge 0xa2 xs). lia.
Qed.

Lemma createConnectPdu_spec self local remote pm buf payload :
  sel_wf local -> sel_wf remote -> sendable 130 buf payload ->
  let self' := set_selectors local remote (set_contexts 1 3 self) in
  exists c, createConnectPdu self local remote pm buf payload = Some (self', c) /\ part_ok buf c /\
    chain_bytes c = cp_pdu (connect_parameters self' (chain_bytes payload)).
Proof.
  intros Hl Hr Hs self'. pose proof (sendable_length _ _ _ Hs) as Hn. destruct Hs as [H1 H2 H3 H4 H5].
  set (user := chain_bytes payload) in *.
  assert (Hok : presentation_ok self') by done.
  pose proof (connect_lengths self' user Hl Hr H3) as HL.
  destruct (connectLengths self' (zlen user)) as [n m]. destruct HL as (_ & _ & Hb).
  assert (Hge : zlen user < zlen (cp_pdu (connect_parameters self' user))).
  { pose proof (user_data_ge (acseContextId self') user) as G. apply (Z.lt_le_trans _ _ _ G).
    apply cp_pdu_ge. unfold connect_parameters. rewrite !length_app. lia. }
  destruct (createPart_spec (connectPdu self') pm buf payload (cp_pdu (connect_parameters self' user)))
    as (c & E & Ec & Wc); try done.
  - apply cp_pdu_bytes, connect_parameters_bytes; [done|by apply chain_bytes_bytes].
  - by apply connectPdu_front.
  - fold user. lia.
  - exists c. split; [|done]. unfold createConnectPdu. fold self'. by rewrite E.
Qed.

Lemma accept_length_ge self user : zlen user < zlen (cp_pdu (accept_parameters self user)).
Proof.
  pose proof (user_data_ge (acseContextId self) user) as G. apply (Z.lt_le_trans _ _ _ G).
  apply cp_pdu_ge. unfold accept_parameters. rewrite !length_app. lia.
Qed.

Lemma createCpaMessage_spec self pm buf payload :
  is_u8 (acseContextId self) -> sendable 130 buf payload ->
  exists c, createCpaMessage self pm buf payload = Some c /\ part_ok buf c /\
    chain_bytes c = cp_pdu (accept_parameters self (chain_bytes payload)).
Proof.
  intros Hc Hs. destruct Hs as [H1 H2 H3 H4 H5]. set (user := chain_bytes payload) in *.
  pose proof (accept_lengths self user H3) as HL.
  destruct (cpaLengths (zlen user)) as [n m]. destruct HL as (_ & _ & Hb).
  pose proof (accept_length_ge self user).
  destruct (createPart_spec (cpaMessage self) pm buf payload (cp_pdu (accept_parameters self user)))
    as (c & E & Ec & Wc); try done.
  - apply cp_pdu_bytes, accept_parameters_bytes; [done|by apply chain_bytes_bytes].
  - by apply cpaMessage_front.
  - fold user. lia.
  - by exists c.
Qed.

Lemma createData_spec ctx pm buf payload :
  is_u8 ctx -> sendable 130 buf payload ->
  exists c, createPart pm buf payload (userDataPdu ctx) = Some c /\ part_ok buf c /\
    chain_bytes c = user_data ctx (chain_bytes payload).
Proof.
  intros Hc Hs. destruct Hs as [H1 H2 H3 H4 H5]. set (user := chain_bytes payload) in *.
  destruct (user_data_length ctx user H3) as (_ & _ & E & Hb). pose proof (user_data_ge ctx user).
  destruct (createPart_spec (userDataPdu ctx) pm buf payload (user_data ctx user))
    as (c & Ec & Eb & Wc); try done.
  - apply user_data_bytes; [done|by apply chain_bytes_bytes].
  - by apply userDataPdu_front.
  - fold user. lia.
  - by exists c.
Qed.

Lemma parse_cp_connect self peer m user :
  readable m -> holds m (cp_pdu (connect_parameters self user)) -> presentation_ok self -> presentation_ok peer ->
  0 < zlen user < 65000 ->
  exists peer', parseConnect peer m = Some (peer', 1) /\ got_data peer' (acseContextId self) user /\
    same_selector (callingPresentationSelector self) (callingPresentationSelector peer') /\
    same_selector (calledPresentationSelector self) (calledPresentationSelector peer') /\
    acseContextId peer' = 1 /\ mmsContextId peer' = 3.
Proof.
  intros Hm Hh Hok Hp Hl. pose proof (connect_lengths self user (proj1 Hok) (proj1 (proj2 Hok)) ltac:(lia)) as HL.
  destruct (connectLengths _ _) as [a b]. destruct HL as (_ & _ & Hb).
  pose proof (cp_pdu_ge _ (connect_parameters self user) (Z.le_refl _)) as G.
  apply (parse_cp true peer m (connect_parameters self user)); try done; [lia|].
  intros q Hat Hq. destruct (presentation_parse_connect_parameters (buffer m) q self peer user) as (peer' & E & H);
    try done; [apply Hm|]. by exists peer'.
Qed.

Lemma parse_cp_accept self peer m user :
  readable m -> holds m (cp_pdu (accept_parameters self user)) -> is_u8 (acseContextId self) ->
  0 < zlen user < 65000 ->
  exists peer', parseAcceptMessage peer m = Some (peer', 1) /\ got_data peer' (acseContextId self) user /\
    acseContextId peer' = acseContextId peer /\ mmsContextId peer' = mmsContextId peer.
Proof.
  intros Hm Hh Hok Hl. pose proof (accept_lengths self user ltac:(lia)) as HL.
  destruct (cpaLengths _) as [a b]. destruct HL as (_ & _ & Hb).
  pose proof (cp_pdu_ge _ (accept_parameters self user) (Z.le_refl _)) as G.
  apply (parse_cp false peer m (accept_parameters self user)); try done; [lia|].
  intros q Hat Hq. destruct (presentation_parse_accept_parameters (buffer m) q self peer user) as (peer' & E & H);
    try done; [apply Hm|]. by exists peer'.
Qed.

(** C18: a client and a server open a presentation connection: the server reads the CP PDU
    of the client as the selectors, the two contexts and exactly the user data given,
    and the client reads the CPA PDU of the server; both then use the same contexts. *)
Theorem presentation_handshake client server local remote pm buf request pm2 buf2 response :
  sel_wf local -> sel_wf remote -> presentation_ok server -> sendable 130 buf request -> sendable 130 buf2 response ->
  exists client' cp, createConnectPdu client local remote pm buf request = Some (client', cp) /\
  forall m, readable m -> holds m (chain_bytes cp) ->
  exists server', parseConnect server m = Some (server', 1) /\
    got_data server' 1 (chain_bytes request) /\
    same_selector local (callingPresentationSelector server') /\
    same_selector remote (calledPresentationSelector server') /\
  exists cpa, createCpaMessage server' pm2 buf2 response = Some cpa /\
  forall m2, readable m2 -> holds m2 (chain_bytes cpa) ->
  exists client'', parseAcceptMessage client' m2 = Some (client'', 1) /\
    got_data client'' 1 (chain_bytes response) /\
    (acseContextId client'', mmsContextId client'') = (acseContextId server', mmsContextId server').
Proof.
  intros Hl Hr Hok Hs Hs2. pose proof (sendable_length _ _ _ Hs) as Hn. pose proof (sendable_length _ _ _ Hs2) as Hn2.
  destruct (createConnectPdu_spec client local remote pm buf request Hl Hr Hs) as (cp & E & _ & Eb).
  set (client' := set_selectors local remote (set_contexts 1 3 client)) in *.
  exists client', cp. split; [done|]. intros m Hm Hh. rewrite Eb in Hh.
  assert (Hcl : presentation_ok client') by done.
  pose proof (connect_lengths client' (chain_bytes request) Hl Hr ltac:(lia)) as HL.
  destruct (connectLengths _ _) as [a b]. destruct HL as (_ & _ & Hb).
  destruct (parse_cp_connect client' server m (chain_bytes request) Hm Hh) as (server' & Ep & Hg & Q1 & Q2 & A1 & A2);
    try done.
  exists server'. split; [done|]. split; [done|]. split; [done|]. split; [done|].
  destruct (createCpaMessage_spec server' pm2 buf2 response) as (cpa & E2 & _ & Eb2);
    [by rewrite A1|done|].
  exists cpa. split; [done|]. intros m2 Hm2 Hh2. rewrite Eb2 in Hh2.
  destruct (parse_cp_accept server' client' m2 (chain_bytes response) Hm2 Hh2) as (client'' & Ep2 & Hg2 & B1 & B2);
    [by rewrite A1|done|].
  exists client''. split; [done|]. rewrite A1 in Hg2. split; [done|]. by rewrite B1, B2, A1, A2.
Qed.

(** In the data phase every message goes through the presentation layer unchanged,
    with the context of its layer. *)
Theorem data_roundtrip sender receiver acse pm buf payload m c :
  is_u8 (acseContextId sender) -> is_u8 (mmsContextId sender) -> sendable 130 buf payload ->
  (if (acse : bool) then createUserDataACSE sender pm buf payload else createUserData sender pm buf payload) = Some c ->
  readable m -> holds m (chain_bytes c) ->
  exists receiver', parseUserData receiver m = Some (receiver', 1) /\
    got_data receiver' (if acse then acseContextId sender else mmsContextId sender) (chain_bytes payload).
Proof.
  intros Ha Hmm Hs E Hm Hh. pose proof (sendable_length _ _ _ Hs) as Hn.
  set (ctx := if acse then _ else _).
  destruct (createData_spec ctx pm buf payload) as (c' & E' & _ & Eb); [by unfold ctx; destruct acse|done|].
  assert (c' = c) as -> by (unfold ctx in E'; destruct acse; unfold createUserDataACSE, createUserData in E; congruence).
  rewrite Eb in Hh. destruct (parse_user_pdu m receiver ctx (chain_bytes payload) Hm Hh) as (r & Er & Hg & _);
    [by unfold ctx; destruct acse|done|]. by exists r.
Qed.

(** ** Samples *)

Definition sample_selector (x : Z) : PSelector := {| size := 4; value := [0; 0; 0; x] ++ replicate 12 0 |}.

Lemma sample_selector_wf x : is_u8 x -> sel_wf (sample_selector x).
Proof.
  intros Hx. split; [|cbn; lia]. split; [|done]. apply Forall_app_2; [|const_bytes].
  apply Forall_app_2 with (l1 := [0; 0; 0]); [const_bytes|]. by constructor.
Qed.

Lemma presentation_handshake_witness :
  exists client' cp,
    createConnectPdu sample_state (sample_selector 1) (sample_selector 2) 200 sample_memory
      (sample_chain [1; 2; 3]) = Some (client', cp) /\
  forall m, readable m -> holds m (chain_bytes cp) ->
  exists server', parseConnect sample_state m = Some (server', 1) /\
    got_data server' 1 (chain_bytes (sample_chain [1; 2; 3])) /\
    same_selector (sample_selector 1) (callingPresentationSelector server') /\
    same_selector (sample_selector 2) (calledPresentationSelector server') /\
  exists cpa, createCpaMessage server' 200 sample_memory (sample_chain [4; 5]) = Some cpa /\
  forall m2, readable m2 -> holds m2 (chain_bytes cpa) ->
  exists client'', parseAcceptMessage client' m2 = Some (client'', 1) /\
    got_data client'' 1 (chain_bytes (sample_chain [4; 5])) /\
    (acseContextId client'', mmsContextId client'') = (acseContextId server', mmsContextId server').
Proof.
  apply presentation_handshake; [by apply sample_selector_wf..| | |].
  - split_and!; [apply sample_state_safe..|done].
  - apply sample_sendable; [const_bytes|cbn; lia|done].
  - apply sample_sendable; [const_bytes|cbn; lia|done].
Defined.

Definition sample_data_pdu : list Z := user_data 3 [1; 2; 3].

Lemma data_roundtrip_witness : exists receiver',
  parseUserData sample_state (ByteBuffer_wrap sample_data_pdu (zlen sample_data_pdu) (zlen sample_data_pdu)) =
    Some (receiver', 1) /\ got_data receiver' 3 (chain_bytes (sample_chain [1; 2; 3])).
Proof.
  assert (Hb : is_bytes sample_data_pdu) by const_bytes.
  refine (data_roundtrip sample_state sample_state false 200 sample_memory (sample_chain [1; 2; 3]) _
    _ _ _ _ eq_refl (proj1 (sample_holds _ Hb)) _); [done|done| |apply (sample_holds _ Hb)].
  apply sample_sendable; [const_bytes|cbn; lia|done].
Defined.


End Presentation.
