(* ===== verification/Acse.v ===== *)
(** * ACSE: association control

    [src/mms/iso_acse/acse.c]: the messages that open and close an association, with
    the names of the applications and the authentication value of the client, and
    their parser.  The authenticator of the application is a function of what the code
    gives it; pairs of a pointer into the message and a length are the octets they
    denote. *)

From S2P Require Import Prelude BerEncoder BerDecoder ByteBuf.

Module Acse.
Import ByteBuf.

Inductive AcseAuthenticationMechanism :=
  | ACSE_AUTH_NONE | ACSE_AUTH_PASSWORD | ACSE_AUTH_CERTIFICATE | ACSE_AUTH_TLS.

#[export] Instance AcseAuthenticationMechanism_eq_dec : EqDecision AcseAuthenticationMechanism.
Proof. solve_decision. Defined.

Inductive AcseIndication :=
  | ACSE_ERROR | ACSE_ASSOCIATE | ACSE_ASSOCIATE_FAILED | ACSE_OK | ACSE_ABORT
  | ACSE_RELEASE_REQUEST | ACSE_RELEASE_RESPONSE.

#[export] Instance AcseIndication_eq_dec : EqDecision AcseIndication.
Proof. solve_decision. Defined.

Record IsoApplicationReference := {
  apTitle : BerDecoder.ItuObjectIdentifier;
  aeQualifier : Z
}.

(** The parameter of the authenticator; the value is that of a password. *)
Record AcseAuthenticationParameter := {
  mechanism : AcseAuthenticationMechanism;
  octetString : list Z
}.

(** Whether the client is accepted, the security token and the application reference,
    which the authenticator may change. *)
Abbreviation AcseAuthenticator :=
  (AcseAuthenticationParameter -> IsoApplicationReference -> bool * option Z * IsoApplicationReference).

(** [userDataBuffer] is the memory of the message from the user data on. *)
Record AcseConnection := mkAcse {
  nextReference : Z;
  userDataBuffer : option (list Z);
  userDataBufferSize : Z;
  authenticator : option AcseAuthenticator;
  applicationReference : IsoApplicationReference;
  securityToken : option Z
}.

Definition set_nextReference (r : Z) (self : AcseConnection) : AcseConnection :=
  mkAcse r (userDataBuffer self) (userDataBufferSize self) (authenticator self)
    (applicationReference self) (securityToken self).
Definition set_userData (b : list Z) (n : Z) (self : AcseConnection) : AcseConnection :=
  mkAcse (nextReference self) (Some b) n (authenticator self) (applicationReference self)
    (securityToken self).
Definition set_application (r : IsoApplicationReference) (t : option Z) (self : AcseConnection)
    : AcseConnection :=
  mkAcse (nextReference self) (userDataBuffer self) (userDataBufferSize self) (authenticator self) r t.

Definition appContextNameMms : list Z := [0x28; 0xca; 0x22; 0x02; 0x03].
Definition auth_mech_password_oid : list Z := [0x52; 0x03; 0x01].
Definition requirements_authentication : list Z := [0x80].

Definition init (authenticator : option AcseAuthenticator) (token : option Z) : AcseConnection :=
  mkAcse 0 None 0 authenticator
    {| apTitle := {| BerDecoder.arc := replicate 10 0; BerDecoder.arcCount := 0 |}; aeQualifier := 0 |}
    token.

(** ** Authentication *)

Definition checkAuthMechanismName (authMechanism : option (list Z)) : AcseAuthenticationMechanism :=
  match authMechanism with
  | Some m => if decide (m = auth_mech_password_oid) then ACSE_AUTH_PASSWORD else ACSE_AUTH_NONE
  | None => ACSE_AUTH_NONE
  end.

(** The code leaves the value unset when the mechanism is not the password. *)
Definition authenticateClient (self : AcseConnection) (authenticate : AcseAuthenticator)
    (mechanism : AcseAuthenticationMechanism) (authValue : list Z) : bool * option Z * IsoApplicationReference :=
  authenticate {| mechanism := mechanism;
                  octetString := if decide (mechanism = ACSE_AUTH_PASSWORD) then authValue else [] |}
    (applicationReference self).

(** Without a TLS socket, which the configuration leaves out. *)
Definition checkAuthentication (self : AcseConnection) (authMechanism : option (list Z))
    (authValue : list Z) : AcseConnection * bool :=
  let self := set_application (applicationReference self) None self in
  match authenticator self with
  | Some authenticate =>
      let '(ok, token, reference) :=
        authenticateClient self authenticate (checkAuthMechanismName authMechanism) authValue in
      (set_application reference token self, ok)
  | None => (self, true)
  end.

(** ** Parsing *)

(** [inr] is the return of [-1]. *)
Fixpoint parseUserInformation_loop (fuel : nat) (self : AcseConnection) (buffer : list Z)
    (bufPos maxBufPos : Z) (hasindirectReference isDataValid : bool)
    : option (AcseConnection * Z * bool) :=
  match fuel with
  | O => None
  | S fuel =>
      if decide (bufPos < maxBufPos) then
        tag ← buffer.[bufPos];
        '(bufPos, len) ← BerDecoder.decodeLength buffer 0 (bufPos + 1) maxBufPos;
        if decide (bufPos < 0 \/ bufPos + len > maxBufPos) then Some (self, -1, false)
        else if decide (len = 0) then
          parseUserInformation_loop fuel self buffer bufPos maxBufPos hasindirectReference isDataValid
        else if decide (tag = 0x02) then
          r ← BerDecoder.decodeUint32 buffer len bufPos;
          parseUserInformation_loop fuel (set_nextReference r self) buffer (bufPos + len) maxBufPos
            true isDataValid
        else if decide (tag = 0xa0) then
          parseUserInformation_loop fuel (set_userData (from buffer bufPos) len self) buffer
            (bufPos + len) maxBufPos hasindirectReference true
        else
          parseUserInformation_loop fuel self buffer (bufPos + len) maxBufPos hasindirectReference
            isDataValid
      else Some (self, bufPos, hasindirectReference && isDataValid)
  end.

Definition parseUserInformation (self : AcseConnection) (buffer : list Z) (bufPos maxBufPos : Z)
    : option (AcseConnection * Z * bool) :=
  parseUserInformation_loop (S (Z.to_nat (maxBufPos - bufPos))) self buffer bufPos maxBufPos false false.

(** The case of the user information, the same in both PDUs: the position, [-1] for the
    returns, and [userInfoValid]. *)
Definition userInformationItem (self : AcseConnection) (buffer : list Z) (len bufPos maxBufPos : Z)
    (userInfoValid : bool) : option (AcseConnection * Z * bool) :=
  x ← buffer.[bufPos];
  if decide (x <> 0x28) then Some (self, bufPos + len, userInfoValid)
  else
    '(bufPos, len) ← BerDecoder.decodeLength buffer len (bufPos + 1) maxBufPos;
    if decide (bufPos < 0) then Some (self, -1, userInfoValid)
    else parseUserInformation self buffer bufPos (bufPos + len).

(** The [switch] over the tag, the position [-1] for the returns of [ACSE_ERROR]; [result]
    is the local variable. *)
Definition aareItem (self : AcseConnection) (buffer : list Z) (tag len bufPos maxBufPos : Z)
    (userInfoValid : bool) (result : Z) : option (AcseConnection * Z * bool * Z) :=
  if decide (tag = 0xa2) then
    '(bufPos, len) ← BerDecoder.decodeLength buffer len (bufPos + 1) maxBufPos;
    if decide (bufPos < 0) then Some (self, -1, userInfoValid, result)
    else
      result ← BerDecoder.decodeUint32 buffer len bufPos;
      Some (self, bufPos + len, userInfoValid, result)
  else if decide (tag = 0xbe) then
    '(self, bufPos, userInfoValid) ← userInformationItem self buffer len bufPos maxBufPos userInfoValid;
    Some (self, bufPos, userInfoValid, result)
  else if decide (tag = 0x00) then Some (self, bufPos, userInfoValid, result)
  else Some (self, bufPos + len, userInfoValid, result).

Fixpoint parseAarePdu_loop (fuel : nat) (self : AcseConnection) (buffer : list Z)
    (bufPos maxBufPos : Z) (userInfoValid : bool) (result : Z) : option (AcseConnection * AcseIndication) :=
  match fuel with
  | O => None
  | S fuel =>
      if decide (bufPos < maxBufPos) then
        tag ← buffer.[bufPos];
        '(bufPos, len) ← BerDecoder.decodeLength buffer 0 (bufPos + 1) maxBufPos;
        if decide (bufPos < 0) then Some (self, ACSE_ERROR)
        else if decide (len = 0) then
          parseAarePdu_loop fuel self buffer bufPos maxBufPos userInfoValid result
        else if decide (bufPos + len > maxBufPos) then Some (self, ACSE_ERROR)
        else
          '(self, bufPos, userInfoValid, result) ←
            aareItem self buffer tag len bufPos maxBufPos userInfoValid result;
          if decide (bufPos < 0) then Some (self, ACSE_ERROR)
          else parseAarePdu_loop fuel self buffer bufPos maxBufPos userInfoValid result
      else
        Some (self, if negb userInfoValid then ACSE_ERROR
                    else if decide (result <> 0) then ACSE_ASSOCIATE_FAILED else ACSE_ASSOCIATE)
  end.

Definition parseAarePdu (self : AcseConnection) (buffer : list Z) (bufPos maxBufPos : Z)
    : option (AcseConnection * AcseIndication) :=
  parseAarePdu_loop (S (Z.to_nat (maxBufPos - bufPos))) self buffer bufPos maxBufPos false 99.

(** A name in its second form: an object identifier or an integer that fills the
    element. *)
Definition innerForm (buffer : list Z) (tag len bufPos : Z) : option (option Z) :=
  if decide (len >= 2) then
    x ← buffer.[bufPos];
    if decide (x = tag) then
      innerLength ← buffer.[bufPos + 1];
      Some (if decide (innerLength >= 0 /\ innerLength = len - 2) then Some innerLength else None)
    else Some None
  else Some None.

Definition callingApTitle (self : AcseConnection) (buffer : list Z) (len bufPos : Z) : option AcseConnection :=
  inner ← innerForm buffer 0x06 len bufPos;
  match inner with
  | Some innerLength =>
      title ← BerDecoder.decodeOID buffer (bufPos + 2) innerLength;
      Some (set_application {| apTitle := title; aeQualifier := aeQualifier (applicationReference self) |}
              (securityToken self) self)
  | None => Some self
  end.

Definition callingAeQualifier (self : AcseConnection) (buffer : list Z) (len bufPos : Z)
    : option AcseConnection :=
  inner ← innerForm buffer 0x02 len bufPos;
  match inner with
  | Some innerLength =>
      q ← BerDecoder.decodeInt32 buffer innerLength (bufPos + 2);
      Some (set_application {| apTitle := apTitle (applicationReference self); aeQualifier := q |}
              (securityToken self) self)
  | None => Some self
  end.

(** The [switch] over the tag, the position [-1] for the returns of
    [ACSE_ASSOCIATE_FAILED]; the local variables are the mechanism, the authentication
    value and [userInfoValid]. *)
Definition aarqItem (self : AcseConnection) (buffer : list Z) (tag len bufPos maxBufPos : Z)
    (authMechanism : option (list Z)) (authValue : list Z) (userInfoValid : bool)
    : option (AcseConnection * Z * option (list Z) * list Z * bool) :=
  if decide (tag = 0xa6) then
    self ← callingApTitle self buffer len bufPos;
    Some (self, bufPos + len, authMechanism, authValue, userInfoValid)
  else if decide (tag = 0xa7) then
    self ← callingAeQualifier self buffer len bufPos;
    Some (self, bufPos + len, authMechanism, authValue, userInfoValid)
  else if decide (tag = 0x8b) then
    name ← rds (Z.to_nat len) buffer bufPos;
    Some (self, bufPos + len, Some name, authValue, userInfoValid)
  else if decide (tag = 0xac) then
    '(bufPos, len) ← BerDecoder.decodeLength buffer len (bufPos + 1) maxBufPos;
    if decide (bufPos < 0) then Some (self, -1, authMechanism, authValue, userInfoValid)
    else
      value ← rds (Z.to_nat len) buffer bufPos;
      Some (self, bufPos + len, authMechanism, value, userInfoValid)
  else if decide (tag = 0xbe) then
    '(self, bufPos, userInfoValid) ← userInformationItem self buffer len bufPos maxBufPos userInfoValid;
    Some (self, bufPos, authMechanism, authValue, userInfoValid)
  else if decide (tag = 0x00) then Some (self, bufPos, authMechanism, authValue, userInfoValid)
  else Some (self, bufPos + len, authMechanism, authValue, userInfoValid).

Fixpoint parseAarqPdu_loop (fuel : nat) (self : AcseConnection) (buffer : list Z)
    (bufPos maxBufPos : Z) (authMechanism : option (list Z)) (authValue : list Z) (userInfoValid : bool)
    : option (AcseConnection * AcseIndication) :=
  match fuel with
  | O => None
  | S fuel =>
      if decide (bufPos < maxBufPos) then
        tag ← buffer.[bufPos];
        '(bufPos, len) ← BerDecoder.decodeLength buffer 0 (bufPos + 1) maxBufPos;
        if decide (bufPos < 0) then Some (self, ACSE_ASSOCIATE_FAILED)
        else if decide (len = 0) then
          parseAarqPdu_loop fuel self buffer bufPos maxBufPos authMechanism authValue userInfoValid
        else if decide (bufPos + len > maxBufPos) then Some (self, ACSE_ASSOCIATE_FAILED)
        else
          '(self, bufPos, authMechanism, authValue, userInfoValid) ←
            aarqItem self buffer tag len bufPos maxBufPos authMechanism authValue userInfoValid;
          if decide (bufPos < 0) then Some (self, ACSE_ASSOCIATE_FAILED)
          else parseAarqPdu_loop fuel self buffer bufPos maxBufPos authMechanism authValue userInfoValid
      else
        let '(self, ok) := checkAuthentication self authMechanism authValue in
        Some (self, if negb ok then ACSE_ASSOCIATE_FAILED
                    else if (userInfoValid : bool) then ACSE_ASSOCIATE else ACSE_ASSOCIATE_FAILED)
  end.

Definition parseAarqPdu (self : AcseConnection) (buffer : list Z) (bufPos maxBufPos : Z)
    : option (AcseConnection * AcseIndication) :=
  parseAarqPdu_loop (S (Z.to_nat (maxBufPos - bufPos))) self buffer bufPos maxBufPos None [] false.

Definition parseMessage (self : AcseConnection) (message : option ByteBuffer)
    : option (AcseConnection * AcseIndication) :=
  match message with
  | None => Some (self, ACSE_ERROR)
  | Some message =>
      let buffer := ByteBuf.buffer message in
      let messageSize := size message in
      if decide (messageSize < 1) then Some (self, ACSE_ERROR)
      else
        messageType ← buffer.[0];
        '(bufPos, len) ← BerDecoder.decodeLength buffer 0 1 messageSize;
        if decide (bufPos < 0) then Some (self, ACSE_ERROR)
        else if decide (messageType = 0x60) then parseAarqPdu self buffer bufPos (bufPos + len)
        else if decide (messageType = 0x61) then parseAarePdu self buffer bufPos (bufPos + len)
        else if decide (messageType = 0x62) then Some (self, ACSE_RELEASE_REQUEST)
        else if decide (messageType = 0x63) then Some (self, ACSE_RELEASE_RESPONSE)
        else if decide (messageType = 0x64) then Some (self, ACSE_ABORT)
        else Some (self, ACSE_ERROR)
  end.

(** ** Creating messages *)

(** The lengths of the association data and of the user information. *)
Definition userInformationLengths (refLength payloadLength : Z) : Z * Z :=
  let assocDataLength :=
    payloadLength + 1 + BerEncoder.determineLengthSize payloadLength + refLength + 2 in
  (assocDataLength, assocDataLength + BerEncoder.determineLengthSize assocDataLength + 1).

(** The user information up to the payload; [reference] writes the content of the
    indirect reference. *)
Definition encodeUserInformation (refLength payloadLength : Z)
    (reference : list Z -> Z -> option (list Z * Z)) (buffer : list Z) (bufPos : Z)
    : option (list Z * Z) :=
  let '(assocDataLength, userInfoLength) := userInformationLengths refLength payloadLength in
  '(buffer, bufPos) ← BerEncoder.encodeTL 0xbe userInfoLength buffer bufPos;
  '(buffer, bufPos) ← BerEncoder.encodeTL 0x28 assocDataLength buffer bufPos;
  '(buffer, bufPos) ← BerEncoder.encodeTL 0x02 refLength buffer bufPos;
  '(buffer, bufPos) ← reference buffer bufPos;
  BerEncoder.encodeTL 0xa0 payloadLength buffer bufPos.

Definition encodeApplicationContext (buffer : list Z) (bufPos : Z) : option (list Z * Z) :=
  '(buffer, bufPos) ← BerEncoder.encodeTL 0xa1 7 buffer bufPos;
  '(buffer, bufPos) ← BerEncoder.encodeTL 0x06 5 buffer bufPos;
  copy_bytes 5 appContextNameMms 0 buffer bufPos.

Definition createAssociateResponseMessage (self : AcseConnection) (acseResult : Z)
    (partMaxLength : Z) (buffer : list Z) (payload : BufferChain) : option BufferChain :=
  payloadLength ← chain_length payload;
  nextRefLength ← BerEncoder.UInt32determineEncodedSize (u32 (nextReference self));
  let '(_, userInfoLength) := userInformationLengths nextRefLength payloadLength in
  let contentLength :=
    9 + 5 + 5 + (userInfoLength + BerEncoder.determineLengthSize userInfoLength + 1 + 2) in
  '(buffer, bufPos) ← BerEncoder.encodeTL 0x61 contentLength buffer 0;
  '(buffer, bufPos) ← encodeApplicationContext buffer bufPos;
  '(buffer, bufPos) ← BerEncoder.encodeTL 0xa2 3 buffer bufPos;
  '(buffer, bufPos) ← BerEncoder.encodeTL 0x02 1 buffer bufPos;
  '(buffer, bufPos) ← put buffer bufPos acseResult;
  '(buffer, bufPos) ← BerEncoder.encodeTL 0xa3 5 buffer bufPos;
  '(buffer, bufPos) ← BerEncoder.encodeTL 0xa1 3 buffer bufPos;
  '(buffer, bufPos) ← BerEncoder.encodeTL 0x02 1 buffer bufPos;
  '(buffer, bufPos) ← put buffer bufPos 0;
  '(buffer, bufPos) ←
    encodeUserInformation nextRefLength payloadLength
      (BerEncoder.encodeUInt32 (u32 (nextReference self))) buffer bufPos;
  Some (finishPart partMaxLength buffer bufPos payloadLength payload).

(** The payload is [NULL]: its length is read through it. *)
Definition createAssociateFailedMessage (self : AcseConnection) (partMaxLength : Z) (buffer : list Z)
    : option BufferChain :=
  createAssociateResponseMessage self 1 partMaxLength buffer ChainNull.

(** [apTitle], [apTitleLen] and [AEQualifier] of the connection parameters, for the local
    and for the remote application. *)
Record ApplicationName := { title : list Z; titleLen : Z; qualifier : Z }.

(** The length of an application name and the size of its qualifier. *)
Definition nameLengths (name : ApplicationName) : option (Z * Z) :=
  if decide (titleLen name > 0) then
    n ← BerEncoder.UInt32determineEncodedSize (u32 (qualifier name));
    Some (4 + titleLen name + (4 + n), n)
  else Some (0, 0).

Definition encodeName (titleTag qualifierTag : Z) (name : ApplicationName) (qualifierLength : Z)
    (buffer : list Z) (bufPos : Z) : option (list Z * Z) :=
  if decide (titleLen name > 0) then
    '(buffer, bufPos) ← BerEncoder.encodeTL titleTag (titleLen name + 2) buffer bufPos;
    '(buffer, bufPos) ← BerEncoder.encodeTL 0x06 (titleLen name) buffer bufPos;
    '(buffer, bufPos) ← copy_bytes (Z.to_nat (titleLen name)) (title name) 0 buffer bufPos;
    '(buffer, bufPos) ← BerEncoder.encodeTL qualifierTag (qualifierLength + 2) buffer bufPos;
    '(buffer, bufPos) ← BerEncoder.encodeTL 0x02 qualifierLength buffer bufPos;
    BerEncoder.encodeUInt32 (u32 (qualifier name)) buffer bufPos
  else Some (buffer, bufPos).

(** What the authentication adds to the length of the content. *)
Definition authenticationLength (authParameter : option AcseAuthenticationParameter) : Z :=
  match authParameter with
  | None => 0
  | Some auth =>
      if decide (mechanism auth = ACSE_AUTH_PASSWORD) then
        let passwordLength := zlen (octetString auth) in
        let authValueStringLength := BerEncoder.determineLengthSize passwordLength in
        4 + 5 + 2 + (passwordLength + authValueStringLength) +
        BerEncoder.determineLengthSize (passwordLength + authValueStringLength + 1)
      else 4 + 5 + 2
  end.

Definition encodeAuthentication (authParameter : option AcseAuthenticationParameter)
    (buffer : list Z) (bufPos : Z) : option (list Z * Z) :=
  match authParameter with
  | None => Some (buffer, bufPos)
  | Some auth =>
      '(buffer, bufPos) ← BerEncoder.encodeTL 0x8a 2 buffer bufPos;
      '(buffer, bufPos) ← put buffer bufPos 0x04;
      if decide (mechanism auth = ACSE_AUTH_PASSWORD) then
        let passwordLength := zlen (octetString auth) in
        let authValueStringLength := BerEncoder.determineLengthSize passwordLength in
        '(buffer, bufPos) ← copy_bytes 1 requirements_authentication 0 buffer bufPos;
        '(buffer, bufPos) ← BerEncoder.encodeTL 0x8b 3 buffer bufPos;
        '(buffer, bufPos) ← copy_bytes 3 auth_mech_password_oid 0 buffer bufPos;
        '(buffer, bufPos) ← BerEncoder.encodeTL 0xac (authValueStringLength + passwordLength + 1) buffer bufPos;
        '(buffer, bufPos) ← BerEncoder.encodeTL 0x80 passwordLength buffer bufPos;
        copy_bytes (length (octetString auth)) (octetString auth) 0 buffer bufPos
      else put buffer bufPos 0
  end.

Definition createAssociateRequestMessage (remote local : ApplicationName) (partMaxLength : Z)
    (buffer : list Z) (payload : BufferChain) (authParameter : option AcseAuthenticationParameter)
    : option BufferChain :=
  payloadLength ← chain_length payload;
  '(remoteLength, calledAEQualifierLength) ← nameLengths remote;
  '(localLength, callingAEQualifierLength) ← nameLengths local;
  let '(_, userInfoLen) := userInformationLengths 1 payloadLength in
  let contentLength :=
    9 + remoteLength + localLength + authenticationLength authParameter +
    (userInfoLen + BerEncoder.determineLengthSize userInfoLen + 1) in
  '(buffer, bufPos) ← BerEncoder.encodeTL 0x60 contentLength buffer 0;
  '(buffer, bufPos) ← encodeApplicationContext buffer bufPos;
  '(buffer, bufPos) ← encodeName 0xa2 0xa3 remote calledAEQualifierLength buffer bufPos;
  '(buffer, bufPos) ← encodeName 0xa6 0xa7 local callingAEQualifierLength buffer bufPos;
  '(buffer, bufPos) ← encodeAuthentication authParameter buffer bufPos;
  '(buffer, bufPos) ←
    encodeUserInformation 1 payloadLength (fun buffer bufPos => put buffer bufPos 3) buffer bufPos;
  Some (finishPart partMaxLength buffer bufPos payloadLength payload).

(** The messages without a payload. *)
Definition createFixedMessage (partMaxLength : Z) (octets buffer : list Z) : option BufferChain :=
  '(buffer, _) ← puts buffer 0 octets;
  Some (Chain (zlen octets) (zlen octets) partMaxLength buffer ChainNull).

Definition createAbortMessage (partMaxLength : Z) (buffer : list Z) (isProvider : bool)
    : option BufferChain :=
  createFixedMessage partMaxLength [0x64; 3; 0x80; 1; if isProvider then 1 else 0] buffer.
Definition createReleaseRequestMessage (partMaxLength : Z) (buffer : list Z) : option BufferChain :=
  createFixedMessage partMaxLength [0x62; 3; 0x80; 1; 0] buffer.
Definition createReleaseResponseMessage (partMaxLength : Z) (buffer : list Z) : option BufferChain :=
  createFixedMessage partMaxLength [0x63; 0] buffer.

(** ** The layout of the messages *)

Import BerEncoder.

Definition application_context : list Z := enc_tlv 0xa1 (enc_tlv 0x06 appContextNameMms).

Definition user_information (reference user : list Z) : list Z :=
  enc_tlv 0xbe (enc_tlv 0x28 (enc_tlv 0x02 reference ++ enc_tlv 0xa0 user)).

Definition response_content (result : Z) (reference user : list Z) : list Z :=
  application_context ++ enc_tlv 0xa2 (enc_tlv 0x02 [result]) ++
  enc_tlv 0xa3 (enc_tlv 0xa1 (enc_tlv 0x02 [0])) ++ user_information reference user.

Definition title_octets (name : ApplicationName) : list Z :=
  take (Z.to_nat (titleLen name)) (title name).

Definition name_items (titleTag qualifierTag : Z) (name : ApplicationName) : list Z :=
  if decide (titleLen name > 0) then
    enc_tlv titleTag (enc_tlv 0x06 (title_octets name)) ++
    enc_tlv qualifierTag (enc_tlv 0x02 (enc_uint32 (u32 (qualifier name))))
  else [].

Definition authentication_items (authParameter : option AcseAuthenticationParameter) : list Z :=
  match authParameter with
  | None => []
  | Some auth =>
      if decide (mechanism auth = ACSE_AUTH_PASSWORD) then
        enc_tlv 0x8a [4; 0x80] ++ enc_tlv 0x8b auth_mech_password_oid ++
        enc_tlv 0xac (enc_tlv 0x80 (octetString auth))
      else [0x8a; 2; 4; 0]
  end.

(** The content of the association request in front of its user information. *)
Definition request_items (remote local : ApplicationName)
    (auth : option AcseAuthenticationParameter) : list Z :=
  application_context ++ name_items 0xa2 0xa3 remote ++ name_items 0xa6 0xa7 local ++
  authentication_items auth.

Definition name_wf (name : ApplicationName) : Prop :=
  wf_buf (title name) 10 /\ 0 <= titleLen name <= 10.

Definition auth_wf (auth : option AcseAuthenticationParameter) : Prop :=
  match auth with Some a => is_bytes (octetString a) /\ zlen (octetString a) <= 1000 | None => True end.

Lemma short_tlv tag xs : zlen xs < 128 -> enc_tlv tag xs = [tag; zlen xs] ++ xs.
Proof. intros H. unfold enc_tlv, enc_length. by rewrite decide_True. Qed.

Lemma short_tlv_length tag xs : zlen xs < 128 -> zlen (enc_tlv tag xs) = 2 + zlen xs.
Proof. intros H. rewrite short_tlv by done. rewrite length_app. cbn [length]. lia. Qed.

Lemma length_size_bounds n : 1 <= determineLengthSize n <= 4.
Proof. unfold determineLengthSize. repeat case_decide; lia. Qed.

Lemma user_information_length reference user : zlen reference <= 5 -> zlen user < 65000 ->
  let '(n, m) := userInformationLengths (zlen reference) (zlen user) in
  n = zlen (enc_tlv 0x02 reference ++ enc_tlv 0xa0 user) /\
  m = zlen (enc_tlv 0x28 (enc_tlv 0x02 reference ++ enc_tlv 0xa0 user)) /\
  zlen (user_information reference user) = m + determineLengthSize m + 1 /\
  zlen user < n <= m /\ m <= zlen user + 20.
Proof.
  intros Hr Hu. unfold userInformationLengths. pose proof (length_size_bounds (zlen user)) as H1.
  set (n := zlen user + 1 + _ + _ + 2). pose proof (length_size_bounds n) as H2.
  assert (En : n = zlen (enc_tlv 0x02 reference ++ enc_tlv 0xa0 user)).
  { rewrite length_app, Nat2Z.inj_add, short_tlv_length, enc_tlv_length by lia. unfold n. lia. }
  assert (Hn : zlen user < n <= zlen user + 12) by (unfold n; lia). clearbody n.
  assert (Em : n + determineLengthSize n + 1 = zlen (enc_tlv 0x28 (enc_tlv 0x02 reference ++ enc_tlv 0xa0 user))).
  { rewrite enc_tlv_length by lia. rewrite <- En. lia. }
  split_and!; try lia; try done. unfold user_information. rewrite enc_tlv_length by lia. rewrite <- Em. lia.
Qed.

Lemma encodeUserInformation_front write reference user :
  zlen reference <= 5 -> zlen user < 65000 -> writes write reference ->
  writes_front (encodeUserInformation (zlen reference) (zlen user) write)
    (user_information reference user) user.
Proof.
  intros Hr Hu Hw. pose proof (user_information_length reference user Hr Hu) as HL.
  unfold encodeUserInformation, user_information.
  destruct (userInformationLengths (zlen reference) (zlen user)) as [n m]. destruct HL as (En & Em & _ & H1 & H2).
  apply front_tlv; [done|unfold_int; lia|]. apply front_tlv; [done|unfold_int; lia|].
  unfold enc_tlv at 1. rewrite app_comm_cons, <- app_assoc.
  apply front_bind; [apply encodeTL_writes; unfold_int; lia|]. apply front_bind; [done|].
  apply front_user; [done|unfold_int; lia].
Qed.

Lemma encodeApplicationContext_writes : writes encodeApplicationContext application_context.
Proof.
  eapply writes_eq; [|reflexivity]. unfold encodeApplicationContext.
  apply (writes_tlv 0xa1 7 _ (enc_tlv 0x06 appContextNameMms)); [done|done|].
  apply writes_tlv; [done|done|]. apply writes_copy; [apply bytes_at_0|done].
Qed.

Lemma title_octets_length name : name_wf name -> zlen (title_octets name) = titleLen name.
Proof. intros [[_ Hl] Hn]. unfold title_octets. rewrite length_take. lia. Qed.

Lemma nameLengths_spec name tt qt : name_wf name -> exists n,
  nameLengths name = Some (zlen (name_items tt qt name), n) /\ 0 <= zlen (name_items tt qt name) <= 30 /\
  (titleLen name > 0 -> n = zlen (enc_uint32 (u32 (qualifier name)))).
Proof.
  intros W. pose proof (title_octets_length name W) as El. destruct W as [W Hn].
  unfold nameLengths, name_items. pose proof (enc_uint32_size (u32 (qualifier name))) as Hs.
  case_decide; [|eexists; split; [done|]; cbn [length]; split; [lia|intros; lia]].
  rewrite UInt32determineEncodedSize_spec. cbn [mbind option_bind].
  rewrite length_app, Nat2Z.inj_add, !short_tlv_length by (rewrite ?short_tlv_length; lia). rewrite El.
  eexists. split; [do 2 f_equal; lia|]. split; [lia|done].
Qed.

Lemma encodeName_writes tt qt name n : name_wf name ->
  (titleLen name > 0 -> n = zlen (enc_uint32 (u32 (qualifier name)))) ->
  writes (encodeName tt qt name n) (name_items tt qt name).
Proof.
  intros W Hn. pose proof (title_octets_length name W) as El. destruct W as [[Wb Wl] Hl].
  unfold encodeName, name_items. destruct (decide (titleLen name > 0)) as [Ht|Ht]; [|apply writes_ret].
  rewrite (Hn Ht). pose proof (enc_uint32_size (u32 (qualifier name))) as Hs.
  eapply writes_eq.
  - apply writes_bind; [apply encodeTL_writes; unfold_int; lia|].
    apply writes_bind; [apply encodeTL_writes; unfold_int; lia|].
    apply writes_bind; [apply (writes_copy _ _ _ (title_octets name)); [apply bytes_at_take, bytes_at_0|lia]|].
    apply writes_bind; [apply encodeTL_writes; unfold_int; lia|].
    apply writes_tlv; [done|unfold_int; lia|]. intros b p. apply encodeUInt32_puts.
  - assert (E : forall tag xs, enc_tlv tag xs = (tag :: enc_length (zlen xs)) ++ xs) by done.
    replace (titleLen name + 2) with (zlen (enc_tlv 0x06 (title_octets name))) by (rewrite short_tlv_length; lia).
    rewrite (Z.add_comm _ 2), <- (short_tlv_length 0x02) by lia.
    rewrite (E tt), (E qt), <- !app_assoc. f_equal. by rewrite (E 0x06), El, <- !app_assoc.
Qed.

Lemma encodeAuthentication_writes auth : auth_wf auth ->
  writes (encodeAuthentication auth) (authentication_items auth) /\
  ((forall a, auth = Some a -> mechanism a = ACSE_AUTH_PASSWORD) ->
   authenticationLength auth = zlen (authentication_items auth)) /\
  0 <= zlen (authentication_items auth) <= 1100.
Proof.
  unfold encodeAuthentication.
  destruct auth as [a|]; cbn [auth_wf authentication_items authenticationLength];
    [|intros _; split; [apply writes_ret|split; [done|cbn; lia]]].
  intros [Hb Hl]. set (pw := octetString a) in *. cbv zeta.
  destruct (decide (mechanism a = ACSE_AUTH_PASSWORD)) as [Hm|Hm].
  - pose proof (length_size_bounds (zlen pw)) as H1. pose proof (enc_tlv_length 0x80 pw ltac:(lia)) as E1.
    pose proof (length_size_bounds (zlen (enc_tlv 0x80 pw))) as H2.
    pose proof (enc_tlv_length 0xac (enc_tlv 0x80 pw) ltac:(lia)) as E2.
    assert (E : zlen (enc_tlv 0x8a [4; 0x80] ++ enc_tlv 0x8b auth_mech_password_oid ++
      enc_tlv 0xac (enc_tlv 0x80 pw)) = 9 + zlen (enc_tlv 0xac (enc_tlv 0x80 pw))).
    { rewrite !length_app, !Nat2Z.inj_add. change (zlen (enc_tlv 0x8a [4; 0x80])) with 4.
      change (zlen (enc_tlv 0x8b auth_mech_password_oid)) with 5. lia. }
    split_and!; try lia.
    + eapply writes_eq; [|reflexivity].
      apply (writes_bind _ _ (0x8a :: enc_length 2)); [by apply encodeTL_writes|].
      apply (writes_bind (fun b p => put b p 4) _ [4]); [apply writes_put|].
      apply (writes_bind _ _ [0x80]); [apply writes_copy; [apply bytes_at_0|done]|].
      apply (writes_bind _ _ (0x8b :: enc_length 3)); [by apply encodeTL_writes|].
      apply (writes_bind _ _ auth_mech_password_oid); [apply writes_copy; [apply bytes_at_0|done]|].
      apply (writes_tlv 0xac _ _ (enc_tlv 0x80 pw)); [lia|unfold_int; lia|].
      apply writes_tlv; [done|unfold_int; lia|]. apply writes_copy; [apply bytes_at_0|done].
    + intros _. rewrite E, E2, E1.
      replace (zlen pw + determineLengthSize (zlen pw) + 1) with (1 + determineLengthSize (zlen pw) + zlen pw) by lia.
      lia.
  - split_and!; [|by intros H; destruct Hm; apply H|cbn; lia|cbn; lia].
    eapply writes_eq; [|reflexivity]. apply (writes_bind _ _ (0x8a :: enc_length 2)); [by apply encodeTL_writes|].
    apply (writes_bind (fun b p => put b p 4) _ [4]); [apply writes_put|apply writes_put].
Qed.

(** *** The messages *)

Ltac same_steps :=
  repeat (cbn [mbind option_bind];
          match goal with
          | |- context [encodeTL ?a ?b ?c ?d] => destruct (encodeTL a b c d) as [[? ?]|]
          | |- context [put ?a ?b ?c] => destruct (put a b c) as [[? ?]|]
          | |- context [encodeApplicationContext ?a ?b] => destruct (encodeApplicationContext a b) as [[? ?]|]
          | |- context [encodeName ?a ?b ?c ?d ?e ?f] => destruct (encodeName a b c d e f) as [[? ?]|]
          | |- context [encodeAuthentication ?a ?b ?c] => destruct (encodeAuthentication a b c) as [[? ?]|]
          | |- context [encodeUserInformation ?a ?b ?c ?d ?e] => destruct (encodeUserInformation a b c d e) as [[? ?]|]
          end); try reflexivity.

Lemma name_items_bytes tt qt name : is_u8 tt -> is_u8 qt -> name_wf name -> is_bytes (name_items tt qt name).
Proof.
  intros Ht Hq [[W _] _]. unfold name_items. case_decide; [|constructor].
  apply Forall_app_2; (apply enc_tlv_bytes; [done|]); (apply enc_tlv_bytes; [done|]);
    [by apply Forall_take|apply enc_uint32_bytes].
Qed.

Lemma user_information_bytes reference user : is_bytes reference -> is_bytes user ->
  is_bytes (user_information reference user).
Proof.
  intros Hr Hu. do 2 (apply enc_tlv_bytes; [done|]). apply Forall_app_2; by apply enc_tlv_bytes.
Qed.

Lemma authentication_items_bytes auth : auth_wf auth -> is_bytes (authentication_items auth).
Proof.
  destruct auth as [a|]; [|constructor]. intros [Hb _]. cbn [authentication_items].
  case_decide; [|const_bytes].
  apply Forall_app_2; [const_bytes|]. apply Forall_app_2; [const_bytes|]. do 2 (apply enc_tlv_bytes; [done|]). done.
Qed.

(** The messages whose length is right: those without authentication or with a password. *)
Definition auth_plain (auth : option AcseAuthenticationParameter) : Prop :=
  forall a, auth = Some a -> mechanism a = ACSE_AUTH_PASSWORD.

Definition aarq (remote local : ApplicationName) (auth : option AcseAuthenticationParameter)
    (user : list Z) : list Z :=
  enc_tlv 0x60 (request_items remote local auth ++ user_information [3] user).

Definition aare (result : Z) (reference user : list Z) : list Z :=
  enc_tlv 0x61 (response_content result reference user).

Lemma request_items_length remote local auth : name_wf remote -> name_wf local -> auth_wf auth ->
  zlen (request_items remote local auth) = 9 + zlen (name_items 0xa2 0xa3 remote) +
    zlen (name_items 0xa6 0xa7 local) + zlen (authentication_items auth) /\
  9 <= zlen (request_items remote local auth) <= 1200.
Proof.
  intros Hr Hl Ha. unfold request_items. rewrite !length_app.
  change (length application_context) with 9%nat.
  destruct (nameLengths_spec remote 0xa2 0xa3 Hr) as (_ & _ & H1 & _).
  destruct (nameLengths_spec local 0xa6 0xa7 Hl) as (_ & _ & H2 & _).
  destruct (encodeAuthentication_writes auth Ha) as (_ & _ & H3). lia.
Qed.

(** What the announced length of the request exceeds its content by. *)
Definition excess (auth : option AcseAuthenticationParameter) : Z :=
  authenticationLength auth - zlen (authentication_items auth).

Lemma excess_plain auth : auth_wf auth -> auth_plain auth -> excess auth = 0.
Proof. intros Ha Hp. unfold excess. destruct (encodeAuthentication_writes auth Ha) as (_ & -> & _); [lia|done]. Qed.

Lemma excess_other a : mechanism a <> ACSE_AUTH_PASSWORD -> excess (Some a) = 7.
Proof. destruct a as [[] pw]; done. Qed.

Lemma createAssociateRequest_layout remote local pm buf payload auth :
  name_wf remote -> name_wf local -> auth_wf auth -> 0 <= excess auth <= 7 ->
  let body := request_items remote local auth ++ user_information [3] (chain_bytes payload) in
  let xs := (0x60 :: enc_length (zlen body + excess auth)) ++ body in
  sendable (zlen xs - zlen (chain_bytes payload)) buf payload -> zlen (chain_bytes payload) < 60000 ->
  exists c, createAssociateRequestMessage remote local pm buf payload auth = Some c /\ part_ok buf c /\
    chain_bytes c = xs.
Proof.
  intros Hr Hl Ha Hx body xs [S1 S2 _ S4 S5] Hn. set (user := chain_bytes payload) in *.
  pose proof (chain_bytes_bytes payload S1) as Hu. fold user in Hu.
  destruct (request_items_length remote local auth Hr Hl Ha) as [L1 L2].
  destruct (nameLengths_spec remote 0xa2 0xa3 Hr) as (nr & Er & _ & Nr).
  destruct (nameLengths_spec local 0xa6 0xa7 Hl) as (nl & El & _ & Nl).
  destruct (encodeAuthentication_writes auth Ha) as (Wa & _ & _).
  pose proof (user_information_length [3] user ltac:(cbn; lia) ltac:(lia)) as HL. cbn [length] in HL.
  destruct (userInformationLengths 1 (zlen user)) as [n m] eqn:EU. change (Z.of_nat 1) with 1 in HL.
  rewrite EU in HL. destruct HL as (_ & _ & Lu & Hlt & Hm).
  pose proof (length_size_bounds m).
  set (cl := 9 + zlen (name_items 0xa2 0xa3 remote) + zlen (name_items 0xa6 0xa7 local) +
    authenticationLength auth + (m + determineLengthSize m + 1)).
  assert (Ecl : zlen body + excess auth = cl) by (unfold body, excess, cl; rewrite length_app; lia).
  assert (Hcl : zlen user < zlen body <= cl /\ cl < 65000) by (unfold cl, body, excess in *; rewrite length_app; lia).
  destruct (finishPart_spec
    (fun b p => '(b, p) ← encodeTL 0x60 cl b p; '(b, p) ← encodeApplicationContext b p;
       '(b, p) ← encodeName 0xa2 0xa3 remote nr b p; '(b, p) ← encodeName 0xa6 0xa7 local nl b p;
       '(b, p) ← encodeAuthentication auth b p;
       encodeUserInformation 1 (zlen user) (fun b p => put b p 3) b p)
    pm buf payload xs S1 S2 S4) as (Ec & b & p & E & Eb & Hw); [| |exact S5| |].
  - apply Forall_app_2; [constructor; [done|apply enc_length_bytes; lia]|].
    apply Forall_app_2; [|by apply user_information_bytes; [const_bytes|]].
    repeat apply Forall_app_2; [const_bytes|by apply name_items_bytes..|by apply authentication_items_bytes].
  - unfold xs. rewrite Ecl. apply front_bind; [apply encodeTL_writes; unfold_int; lia|].
    unfold body, request_items. rewrite <- !app_assoc.
    apply front_bind; [apply encodeApplicationContext_writes|].
    do 2 (apply front_bind; [by apply encodeName_writes|]). apply front_bind; [exact Wa|].
    apply (encodeUserInformation_front _ [3] user); [cbn; lia|lia|apply writes_put].
  - unfold xs. rewrite length_app. fold user. lia.
  - eexists. split; [|split; [exact Hw|exact Eb]].
    unfold createAssociateRequestMessage. rewrite Ec. cbn [mbind option_bind]. fold user.
    rewrite Er. cbn [mbind option_bind]. rewrite El. cbn [mbind option_bind]. rewrite EU. cbv zeta.
    fold cl. revert E. same_steps; intros [= -> ->]; reflexivity.
Qed.

Lemma createAssociateRequest_spec remote local pm buf payload auth :
  name_wf remote -> name_wf local -> auth_wf auth -> auth_plain auth ->
  let hdr := zlen (aarq remote local auth (chain_bytes payload)) - zlen (chain_bytes payload) in
  sendable hdr buf payload -> zlen (chain_bytes payload) < 60000 ->
  exists c, createAssociateRequestMessage remote local pm buf payload auth = Some c /\ part_ok buf c /\
    chain_bytes c = aarq remote local auth (chain_bytes payload).
Proof.
  intros Hr Hl Ha Hp hdr Hs Hn. pose proof (excess_plain auth Ha Hp) as E.
  pose proof (createAssociateRequest_layout remote local pm buf payload auth Hr Hl Ha ltac:(lia)) as L.
  cbv zeta in L. rewrite E, Z.add_0_r in L. by apply L.
Qed.

Lemma createAssociateResponse_spec self result pm buf payload :
  is_u8 result ->
  let reference := enc_uint32 (u32 (nextReference self)) in
  let hdr := zlen (aare result reference (chain_bytes payload)) - zlen (chain_bytes payload) in
  sendable hdr buf payload -> zlen (chain_bytes payload) < 65000 ->
  exists c, createAssociateResponseMessage self result pm buf payload = Some c /\ part_ok buf c /\
    chain_bytes c = aare result reference (chain_bytes payload).
Proof.
  intros Hr reference hdr [S1 S2 _ S4 S5] Hn. set (user := chain_bytes payload) in *.
  pose proof (chain_bytes_bytes payload S1) as Hu. fold user in Hu.
  pose proof (enc_uint32_size (u32 (nextReference self))) as Hs. fold reference in Hs.
  pose proof (user_information_length reference user ltac:(lia) Hn) as HL.
  destruct (userInformationLengths (zlen reference) (zlen user)) as [n m] eqn:EU.
  destruct HL as (_ & _ & Lu & Hlt & Hm). pose proof (length_size_bounds m).
  set (cl := 9 + 5 + 5 + (m + determineLengthSize m + 1 + 2)).
  assert (Lc : zlen (response_content result reference user) = cl).
  { unfold response_content. rewrite !length_app, !Nat2Z.inj_add, Lu.
    change (zlen application_context) with 9. change (zlen (enc_tlv 0xa2 _)) with 5.
    change (zlen (enc_tlv 0xa3 _)) with 7. unfold cl. lia. }
  destruct (finishPart_spec
    (fun b p => '(b, p) ← encodeTL 0x61 cl b p; '(b, p) ← encodeApplicationContext b p;
       '(b, p) ← encodeTL 0xa2 3 b p; '(b, p) ← encodeTL 0x02 1 b p; '(b, p) ← put b p result;
       '(b, p) ← encodeTL 0xa3 5 b p; '(b, p) ← encodeTL 0xa1 3 b p; '(b, p) ← encodeTL 0x02 1 b p;
       '(b, p) ← put b p 0;
       encodeUserInformation (zlen reference) (zlen user) (encodeUInt32 (u32 (nextReference self))) b p)
    pm buf payload (aare result reference user) S1 S2 S4) as (Ec & b & p & E & Eb & Hw); [| |exact S5| |].
  - apply enc_tlv_bytes; [done|]. apply Forall_app_2; [const_bytes|].
    apply Forall_app_2; [do 2 (apply enc_tlv_bytes; [done|]); by constructor|]. apply Forall_app_2; [const_bytes|].
    apply user_information_bytes; [apply enc_uint32_bytes|done].
  - unfold aare. apply front_tlv; [lia|unfold_int; lia|]. unfold response_content.
    apply front_bind; [apply encodeApplicationContext_writes|].
    change (enc_tlv 0xa2 (enc_tlv 0x02 [result])) with ((0xa2 :: enc_length 3) ++ (0x02 :: enc_length 1) ++ [result]).
    change (enc_tlv 0xa3 (enc_tlv 0xa1 (enc_tlv 0x02 [0]))) with
      ((0xa3 :: enc_length 5) ++ (0xa1 :: enc_length 3) ++ (0x02 :: enc_length 1) ++ [0]).
    rewrite <- !app_assoc. do 2 (apply front_bind; [by apply encodeTL_writes|]). apply front_bind; [apply writes_put|].
    do 3 (apply front_bind; [by apply encodeTL_writes|]). apply front_bind; [apply writes_put|].
    apply encodeUserInformation_front; [lia|done|]. intros b p. apply encodeUInt32_puts.
  - pose proof (enc_tlv_ge 0x61 (response_content result reference user)) as G. unfold aare. fold user. unfold cl in Lc. lia.
  - eexists. split; [|split; [exact Hw|exact Eb]].
    unfold createAssociateResponseMessage. rewrite Ec. cbn [mbind option_bind]. fold user.
    rewrite UInt32determineEncodedSize_spec. cbn [mbind option_bind]. fold reference. rewrite EU. cbv zeta.
    fold cl. revert E. same_steps; intros [= -> ->]; reflexivity.
Qed.

Lemma aare_length result reference user : zlen reference <= 5 -> zlen user < 65000 ->
  zlen user < zlen (aare result reference user) <= zlen user + 60.
Proof.
  intros Hr Hu. pose proof (user_information_length reference user Hr Hu) as HL.
  destruct (userInformationLengths (zlen reference) (zlen user)) as [n m].
  destruct HL as (_ & _ & Lu & Hlt & Hm). pose proof (length_size_bounds m). unfold aare, response_content.
  rewrite enc_tlv_length; rewrite !length_app, !Nat2Z.inj_add, Lu;
    change (zlen application_context) with 9; change (zlen (enc_tlv 0xa2 _)) with 5;
    change (zlen (enc_tlv 0xa3 _)) with 7; [|lia].
  pose proof (length_size_bounds (9 + (5 + (7 + (m + determineLengthSize m + 1))))). lia.
Qed.

(** ** Parsing what was created *)

Import BerDecoder(element_at, opened, element_open).

(** [self'] is [self] after user information. *)
Definition got_information (self self' : AcseConnection) (reference : Z) (user : list Z) : Prop :=
  exists d, bytes_at d 0 user /\ is_bytes d /\ zlen user <= zlen d /\
    self' = set_userData d (zlen user) (set_nextReference reference self).

Lemma parseUserInformation_spec self b p reference r user :
  let xs := enc_tlv 0x02 reference ++ enc_tlv 0xa0 user in
  is_bytes b -> 0 <= p -> bytes_at b p xs -> 0 < zlen reference <= 5 -> 0 < zlen user < 65000 ->
  (forall q, bytes_at b q reference -> BerDecoder.decodeUint32 b (zlen reference) q = Some r) ->
  exists self', parseUserInformation self b p (p + zlen xs) = Some (self', p + zlen xs, true) /\
    got_information self self' r user.
Proof.
  intros xs Hb Hp Hat Hr Hu Hdec. unfold parseUserInformation.
  assert (Hf : exists k, S (Z.to_nat (p + zlen xs - p)) = S (S (S k))).
  { pose proof (enc_tlv_ge 0x02 reference). exists (Z.to_nat (zlen xs - 2)). unfold xs. rewrite length_app. lia. }
  destruct Hf as [k ->].
  assert (E0 : element_at b p (p + zlen xs) 0x02 reference (enc_tlv 0xa0 user)) by (split_and!; (done || lia)).
  destruct (element_open _ _ _ _ _ _ E0) as (q & [Ht Hd Hx Hq Hrest Hend]).
  cbn [parseUserInformation_loop]. rewrite decide_True by lia. rewrite Ht. cbn [mbind option_bind]. rewrite Hd.
  cbn [mbind option_bind]. rewrite !decide_False by lia. rewrite decide_True by done. rewrite (Hdec q Hx).
  cbn [mbind option_bind].
  assert (E1 : element_at b (q + zlen reference) (p + zlen xs) 0xa0 user []).
  { split_and!; [by rewrite app_nil_r|lia|lia|rewrite app_nil_r; lia]. }
  destruct (element_open _ _ _ _ _ _ E1) as (q2 & [Ht2 Hd2 Hx2 Hq2 _ Hend2]). cbn [length] in Hend2.
  rewrite decide_True by lia. rewrite Ht2. cbn [mbind option_bind]. rewrite Hd2.
  cbn [mbind option_bind]. rewrite !decide_False by lia. rewrite decide_True by done.
  rewrite decide_False by lia. eexists. split; [do 2 f_equal; f_equal; lia|].
  exists (from b q2). split; [apply bytes_at_from; [lia|done]|]. split; [by apply from_bytes|]. split; [|done].
  destruct (bytes_at_bound b q2 user Hx2) as [_ ?]; [intros ->; cbn [length] in *; lia|]. rewrite from_length; lia.
Qed.

Lemma userInformationItem_spec self b q max reference r user valid :
  let info := enc_tlv 0x02 reference ++ enc_tlv 0xa0 user in
  let xs := enc_tlv 0x28 info in
  is_bytes b -> 0 <= q -> bytes_at b q xs -> q + zlen xs <= max -> 0 < zlen reference <= 5 -> 0 < zlen user < 65000 ->
  (forall q, bytes_at b q reference -> BerDecoder.decodeUint32 b (zlen reference) q = Some r) ->
  exists self', userInformationItem self b (zlen xs) q max valid = Some (self', q + zlen xs, true) /\
    got_information self self' r user.
Proof.
  intros info xs Hb Hq Hat Hm Hr Hu Hdec. pose proof (user_information_length reference user ltac:(lia) ltac:(lia)) as HL.
  destruct (userInformationLengths _ _) as [n m]. destruct HL as (En & _ & _ & H1 & H2). fold info in En.
  destruct (BerDecoder.tlv_head b q 0x28 info max (zlen xs) Hat) as (q1 & Ht & Hd & Hx & Hq1 & He); [lia|exact Hm|].
  fold xs in He. unfold userInformationItem. rewrite Ht. cbn [mbind option_bind]. rewrite decide_False by lia.
  rewrite Hd. cbn [mbind option_bind]. rewrite decide_False by lia. rewrite <- He.
  apply (parseUserInformation_spec self b q1 reference r user); (done || lia).
Qed.

(** *** The association request *)

(** The local variables of [parseAarqPdu]. *)
Abbreviation aarq_state := (AcseConnection * option (list Z) * list Z * bool)%type.

Definition aarq_loop (fuel : nat) (st : aarq_state) (b : list Z) (p max : Z) :=
  let '(self, m, v, valid) := st in parseAarqPdu_loop fuel self b p max m v valid.

(** The loop goes over [xs] at [p] and gets from [st] to [st'] with it. *)
Definition consumes (b : list Z) (max p : Z) (xs : list Z) (st st' : aarq_state) : Prop :=
  exists k, (k <= length xs)%nat /\
    forall fuel, aarq_loop (k + fuel) st b p max = aarq_loop fuel st' b (p + zlen xs) max.

Lemma consumes_nil b max p st : consumes b max p [] st st.
Proof. exists 0%nat. split; [done|]. intros fuel. cbn [length]. by rewrite Z.add_0_r. Qed.

Lemma consumes_app b max p xs ys st st1 st2 :
  consumes b max p xs st st1 -> consumes b max (p + zlen xs) ys st1 st2 ->
  consumes b max p (xs ++ ys) st st2.
Proof.
  intros (k1 & H1 & E1) (k2 & H2 & E2). exists (k1 + k2)%nat. split; [rewrite length_app; lia|].
  intros fuel. rewrite <- Nat.add_assoc, E1, E2. f_equal. rewrite length_app. lia.
Qed.

Lemma consumes_item b max p tag xs self m v valid self' m' v' valid' :
  bytes_at b p (enc_tlv tag xs) -> 0 < zlen xs < 65535 -> 0 <= p -> p + zlen (enc_tlv tag xs) <= max ->
  (forall q, q + zlen xs = p + zlen (enc_tlv tag xs) -> p < q -> bytes_at b q xs ->
   aarqItem self b tag (zlen xs) q max m v valid = Some (self', q + zlen xs, m', v', valid')) ->
  consumes b max p (enc_tlv tag xs) (self, m, v, valid) (self', m', v', valid').
Proof.
  intros Hat Hl Hp Hm Hitem. exists 1%nat. pose proof (enc_tlv_ge tag xs). split; [lia|]. intros fuel.
  destruct (BerDecoder.tlv_head b p tag xs max 0 Hat) as (q & Ht & Hd & Hx & Hq & He); [lia..|].
  cbn [aarq_loop Nat.add parseAarqPdu_loop]. rewrite decide_True by lia. rewrite Ht. cbn [mbind option_bind].
  rewrite Hd. cbn [mbind option_bind]. rewrite !decide_False by lia. rewrite Hitem by (done || lia).
  cbn [mbind option_bind]. rewrite decide_False by lia. by rewrite He.
Qed.

(** Elements the server does not look at. *)
Lemma consumes_skip b max p tag xs self m v valid :
  bytes_at b p (enc_tlv tag xs) -> 0 < zlen xs < 65535 -> 0 <= p -> p + zlen (enc_tlv tag xs) <= max ->
  ~ In tag [0xa6; 0xa7; 0x8b; 0xac; 0xbe; 0x00] ->
  consumes b max p (enc_tlv tag xs) (self, m, v, valid) (self, m, v, valid).
Proof.
  intros Hat Hl Hp Hm Ht. apply consumes_item; try done. intros q _ _ _. unfold aarqItem. cbn [In] in Ht.
  by rewrite !decide_False by lia.
Qed.

(** The application reference the server takes from the names of the client. *)
Definition named (name : ApplicationName) (reference : IsoApplicationReference) : IsoApplicationReference :=
  if decide (titleLen name > 0) then
    {| apTitle := default (apTitle reference) (BerDecoder.decodeOID (title_octets name) 0 (titleLen name));
       aeQualifier := if decide (u32 (qualifier name) < 2147483648) then u32 (qualifier name) else 0 |}
  else reference.

Lemma innerForm_spec b tag xs q : bytes_at b q (enc_tlv tag xs) -> zlen xs < 128 ->
  innerForm b tag (zlen (enc_tlv tag xs)) q = Some (Some (zlen xs)) /\ bytes_at b (q + 2) xs.
Proof.
  intros Hat Hl. rewrite short_tlv in * by done. cbn [app length] in *. destruct Hat as (Ht & Hn & Hx).
  rewrite <- Z.add_assoc in Hx. split; [|done].
  unfold innerForm. rewrite decide_True by lia. rewrite Ht. cbn [mbind option_bind].
  rewrite decide_True by done. rewrite Hn. cbn [mbind option_bind]. by rewrite decide_True by lia.
Qed.

Lemma consumes_name b max p name self m v valid :
  bytes_at b p (name_items 0xa6 0xa7 name) -> 0 <= p -> p + zlen (name_items 0xa6 0xa7 name) <= max ->
  name_wf name ->
  consumes b max p (name_items 0xa6 0xa7 name) (self, m, v, valid)
    (set_application (named name (applicationReference self)) (securityToken self) self, m, v, valid).
Proof.
  intros Hat Hp Hm W. pose proof (title_octets_length name W) as El. destruct W as [W Hn].
  unfold name_items, named in *. pose proof (enc_uint32_size (u32 (qualifier name))) as Hs.
  destruct (decide (titleLen name > 0)) as [Ht|Ht];
    [|destruct self as [? ? ? ? [? ?] ?]; apply consumes_nil].
  apply bytes_at_app in Hat as [Hat1 Hat2]. rewrite length_app in Hm.
  assert (L1 : zlen (enc_tlv 0x06 (title_octets name)) = 2 + titleLen name) by (rewrite short_tlv_length; lia).
  assert (L2 : zlen (enc_tlv 0x02 (enc_uint32 (u32 (qualifier name)))) = 2 + zlen (enc_uint32 (u32 (qualifier name))))
    by (rewrite short_tlv_length; lia).
  destruct (BerDecoder.decodeOID_total (title_octets name) 0 (titleLen name)) as [t Et];
    [apply Forall_take, W|lia|lia|].
  eapply consumes_app.
  - apply (consumes_item b max p 0xa6 _ self m v valid
      (set_application {| apTitle := t; aeQualifier := aeQualifier (applicationReference self) |}
         (securityToken self) self) m v valid); try done; try lia.
    intros q _ _ Hx. destruct (innerForm_spec b 0x06 (title_octets name) q Hx) as [Ei Hin]; [lia|].
    unfold aarqItem. rewrite decide_True by done. unfold callingApTitle. rewrite Ei. cbn [mbind option_bind].
    rewrite BerDecoder.decodeOID_at by done. by rewrite El, Et.
  - apply consumes_item; try done; try lia.
    intros q _ _ Hx. destruct (innerForm_spec b 0x02 (enc_uint32 (u32 (qualifier name))) q Hx) as [Ei Hin]; [lia|].
    unfold aarqItem. rewrite decide_False, decide_True by done. unfold callingAeQualifier. rewrite Ei.
    cbn [mbind option_bind]. rewrite BerDecoder.decodeInt32_enc_uint32 by (done || apply u32_range).
    cbn [mbind option_bind]. rewrite Et. done.
Qed.

Lemma consumes_skipped_name b max p name self m v valid :
  bytes_at b p (name_items 0xa2 0xa3 name) -> 0 <= p -> p + zlen (name_items 0xa2 0xa3 name) <= max ->
  name_wf name ->
  consumes b max p (name_items 0xa2 0xa3 name) (self, m, v, valid) (self, m, v, valid).
Proof.
  intros Hat Hp Hm W. pose proof (title_octets_length name W) as El. destruct W as [W Hn].
  unfold name_items in *. pose proof (enc_uint32_size (u32 (qualifier name))) as Hs.
  case_decide; [|apply consumes_nil]. apply bytes_at_app in Hat as [Hat1 Hat2]. rewrite length_app in Hm.
  assert (L1 : zlen (enc_tlv 0x06 (title_octets name)) = 2 + titleLen name) by (rewrite short_tlv_length; lia).
  assert (L2 : zlen (enc_tlv 0x02 (enc_uint32 (u32 (qualifier name)))) = 2 + zlen (enc_uint32 (u32 (qualifier name))))
    by (rewrite short_tlv_length; lia).
  eapply consumes_app; apply consumes_skip; try done; try lia; cbn [In]; lia.
Qed.

Definition auth_name (auth : option AcseAuthenticationParameter) : option (list Z) :=
  match auth with Some _ => Some auth_mech_password_oid | None => None end.

Definition auth_value (auth : option AcseAuthenticationParameter) : list Z :=
  match auth with Some a => octetString a | None => [] end.

Lemma consumes_authentication b max p auth self valid :
  bytes_at b p (authentication_items auth) -> 0 <= p -> p + zlen (authentication_items auth) <= max ->
  auth_wf auth -> auth_plain auth ->
  consumes b max p (authentication_items auth) (self, None, [], valid) (self, auth_name auth, auth_value auth, valid).
Proof.
  destruct auth as [a|]; [|intros; apply consumes_nil]. intros Hat Hp Hm [Hb Hl] Hplain.
  cbn [authentication_items auth_name auth_value] in *. rewrite decide_True in * by (by apply Hplain).
  set (pw := octetString a) in *. apply bytes_at_app in Hat as [Hat1 Hat].
  apply bytes_at_app in Hat as [Hat2 Hat3]. rewrite !length_app in Hm.
  change (zlen (enc_tlv 0x8a [4; 0x80])) with 4 in *.
  change (zlen (enc_tlv 0x8b auth_mech_password_oid)) with 5 in *.
  change (length (enc_tlv 0x8a [4; 0x80])) with 4%nat in Hm.
  change (length (enc_tlv 0x8b auth_mech_password_oid)) with 5%nat in Hm.
  pose proof (enc_tlv_ge 0x80 pw). pose proof (enc_tlv_length 0x80 pw ltac:(lia)).
  pose proof (length_size_bounds (zlen pw)).
  eapply consumes_app.
  { apply consumes_skip; [done|done|done|change (zlen (enc_tlv 0x8a [4; 0x80])) with 4; lia|cbn [In]; lia]. }
  eapply consumes_app.
  - apply (consumes_item _ _ _ _ _ _ _ _ _ self (Some auth_mech_password_oid) [] valid); [done|done|change (zlen (enc_tlv 0x8a [4; 0x80])) with 4; lia| |].
    { change (zlen (enc_tlv 0x8a [4; 0x80])) with 4. change (zlen (enc_tlv 0x8b auth_mech_password_oid)) with 5. lia. }
    intros q _ _ Hx. unfold aarqItem. do 2 rewrite decide_False by done. rewrite decide_True by done.
    rewrite Nat2Z.id, (rds_at _ _ _ Hx). done.
  - change (zlen (enc_tlv 0x8a [4; 0x80])) with 4. change (zlen (enc_tlv 0x8b auth_mech_password_oid)) with 5.
    apply consumes_item; try done; try lia.
    intros q Hq Hqm Hx. unfold aarqItem. do 3 rewrite decide_False by done. rewrite decide_True by done.
    destruct (BerDecoder.tlv_head b q 0x80 pw max (zlen (enc_tlv 0x80 pw)) Hx) as (r & _ & Hd & Hr & Hqr & He); [lia..|].
    rewrite Hd. cbn [mbind option_bind]. rewrite decide_False by lia. rewrite Nat2Z.id, (rds_at _ _ _ Hr).
    cbn [mbind option_bind]. by rewrite <- He.
Qed.

(** What the server knows after the request: the reference 3 and the user data. *)
Lemma consumes_request b max p remote local auth user self :
  let xs := request_items remote local auth ++ user_information [3] user in
  is_bytes b -> bytes_at b p xs -> 0 <= p -> p + zlen xs = max ->
  name_wf remote -> name_wf local -> auth_wf auth -> auth_plain auth -> 0 < zlen user < 60000 ->
  exists self', consumes b max p xs (self, None, [], false) (self', auth_name auth, auth_value auth, true) /\
    got_information (set_application (named local (applicationReference self)) (securityToken self) self) self' 3 user.
Proof.
  intros xs Hb Hat Hp Hm Hr Hl Ha Hplain Hu.
  pose proof (user_information_length [3] user ltac:(cbn; lia) ltac:(lia)) as HL.
  destruct (userInformationLengths _ _) as [n m]. destruct HL as (_ & Em & _ & Hn & Hm').
  set (self1 := set_application _ _ self). unfold xs, request_items in *. rewrite <- !app_assoc in *.
  apply bytes_at_app in Hat as [Hat1 Hat]. apply bytes_at_app in Hat as [Hat2 Hat].
  apply bytes_at_app in Hat as [Hat3 Hat]. apply bytes_at_app in Hat as [Hat4 Hat5].
  rewrite !length_app in Hm. change (length application_context) with 9%nat in Hm.
  change (zlen application_context) with 9 in *.
  set (info := enc_tlv 0x02 [3] ++ enc_tlv 0xa0 user) in *.
  change (user_information [3] user) with (enc_tlv 0xbe (enc_tlv 0x28 info)) in *.
  assert (Hitem : exists self', got_information self1 self' 3 user /\
    forall mm v, consumes b max (p + 9 + zlen (name_items 0xa2 0xa3 remote) + zlen (name_items 0xa6 0xa7 local) +
      zlen (authentication_items auth)) (enc_tlv 0xbe (enc_tlv 0x28 info)) (self1, mm, v, false) (self', mm, v, true)).
  { destruct (BerDecoder.tlv_head _ _ 0xbe (enc_tlv 0x28 info) max 0 Hat5) as (q & _ & _ & Hx & Hq & He); [lia..|].
    destruct (userInformationItem_spec self1 b q max [3] 3 user false Hb) as (self' & Ei & Hg); try done; try lia.
    { fold info. lia. }
    { intros k Hk. apply BerDecoder.decodeUint32_octet; [done|apply Hk]. }
    exists self'. split; [done|]. intros mm v. apply consumes_item; try done; try lia.
    intros q' Hq' _ _. assert (q' = q) as -> by lia. unfold aarqItem. do 4 rewrite decide_False by done.
    rewrite decide_True by done. fold info in Ei. by rewrite Ei. }
  destruct Hitem as (self' & Hg & Hc). exists self'. split; [|done].
  eapply consumes_app.
  { apply (consumes_skip b max p 0xa1 (enc_tlv 0x06 appContextNameMms));
      [done|done|done|change (zlen (enc_tlv _ _)) with 9; lia|cbn [In]; lia]. }
  change (zlen application_context) with 9.
  eapply consumes_app; [apply consumes_skipped_name; (done || lia)|].
  eapply consumes_app; [apply consumes_name; (done || lia)|].
  eapply consumes_app; [apply consumes_authentication; (done || lia)|]. apply Hc.
Qed.

(** The user data the layer above gets. *)
Definition got_user (self : AcseConnection) (user : list Z) : Prop :=
  userDataBufferSize self = zlen user /\
  exists d, userDataBuffer self = Some d /\ bytes_at d 0 user /\ is_bytes d /\ zlen user <= zlen d.

Lemma information_user self self' reference user : got_information self self' reference user ->
  got_user self' user /\ nextReference self' = reference /\ authenticator self' = authenticator self /\
  applicationReference self' = applicationReference self /\ securityToken self' = securityToken self.
Proof. intros (d & H1 & H2 & H3 & ->). split_and!; try done. split; [done|]. by exists d. Qed.

(** What the authenticator of the server answers to a client with that name and password. *)
Definition authentication (server : AcseConnection) (local : ApplicationName)
    (auth : option AcseAuthenticationParameter) : bool * option Z * IsoApplicationReference :=
  let reference := named local (applicationReference server) in
  match authenticator server with
  | Some authenticate =>
      authenticate {| mechanism := match auth with Some _ => ACSE_AUTH_PASSWORD | None => ACSE_AUTH_NONE end;
                      octetString := auth_value auth |} reference
  | None => (true, None, reference)
  end.

Lemma parse_message_content self m tag content :
  readable m -> holds m (enc_tlv tag content) -> zlen content < 65535 ->
  exists p, bytes_at (buffer m) p content /\ 0 < p /\ p + zlen content = size m /\
    rd (buffer m) 0 = Some tag /\
    BerDecoder.decodeLength (buffer m) 0 1 (size m) = Some (p, zlen content) /\
    (tag = 0x60 -> parseMessage self (Some m) = parseAarqPdu self (buffer m) p (size m)) /\
    (tag = 0x61 -> parseMessage self (Some m) = parseAarePdu self (buffer m) p (size m)).
Proof.
  intros [Hb Hm] [El Hat] Hl. pose proof (enc_tlv_ge tag content).
  destruct (BerDecoder.tlv_head (buffer m) 0 tag content (size m) 0 Hat Hl) as (p & Ht & Hd & Hx & Hp & He); [lia|].
  exists p. split_and!; try done; try lia; intros ->; unfold parseMessage; rewrite decide_False by lia;
    rewrite Ht; cbn [mbind option_bind]; change (0 + 1) with 1 in Hd; rewrite Hd; cbn [mbind option_bind];
    rewrite decide_False by lia; [rewrite decide_True by done|rewrite decide_False, decide_True by done];
    do 2 f_equal; lia.
Qed.

Lemma aarq_content_length remote local auth user :
  name_wf remote -> name_wf local -> auth_wf auth -> zlen user < 60000 ->
  zlen (request_items remote local auth ++ user_information [3] user) < 65535.
Proof.
  intros Hr Hl Ha Hu. destruct (request_items_length remote local auth Hr Hl Ha) as [_ L].
  pose proof (user_information_length [3] user ltac:(cbn; lia) ltac:(lia)) as HL.
  destruct (userInformationLengths _ _) as [n m]. destruct HL as (_ & _ & Lu & _ & Hm).
  pose proof (length_size_bounds m). rewrite length_app. lia.
Qed.


(** *** The response *)

Lemma aare_item fuel self b p max tag xs valid result self' valid' result' :
  bytes_at b p (enc_tlv tag xs) -> 0 < zlen xs < 65535 -> 0 <= p -> p + zlen (enc_tlv tag xs) <= max ->
  (forall q, q + zlen xs = p + zlen (enc_tlv tag xs) -> p < q -> bytes_at b q xs ->
   aareItem self b tag (zlen xs) q max valid result = Some (self', q + zlen xs, valid', result')) ->
  parseAarePdu_loop (S fuel) self b p max valid result =
  parseAarePdu_loop fuel self' b (p + zlen (enc_tlv tag xs)) max valid' result'.
Proof.
  intros Hat Hl Hp Hm Hitem. pose proof (enc_tlv_ge tag xs).
  destruct (BerDecoder.tlv_head b p tag xs max 0 Hat) as (q & Ht & Hd & Hx & Hq & He); [lia..|].
  cbn [parseAarePdu_loop]. rewrite decide_True by lia. rewrite Ht. cbn [mbind option_bind].
  rewrite Hd. cbn [mbind option_bind]. rewrite !decide_False by lia. rewrite Hitem by (done || lia).
  cbn [mbind option_bind]. rewrite decide_False by lia. by rewrite He.
Qed.

Lemma aare_skip fuel self b p max tag xs valid result :
  bytes_at b p (enc_tlv tag xs) -> 0 < zlen xs < 65535 -> 0 <= p -> p + zlen (enc_tlv tag xs) <= max ->
  ~ In tag [0xa2; 0xbe; 0x00] ->
  parseAarePdu_loop (S fuel) self b p max valid result =
  parseAarePdu_loop fuel self b (p + zlen (enc_tlv tag xs)) max valid result.
Proof.
  intros Hat Hl Hp Hm Ht. apply aare_item; try done. intros q _ _ _. unfold aareItem. cbn [In] in Ht.
  by rewrite !decide_False by lia.
Qed.

(** The client reads the response of a server as its result, [ACSE_ASSOCIATE] for 0 and
    [ACSE_ASSOCIATE_FAILED] otherwise, with exactly the user data of the server and its
    reference, of which the decoder keeps the first four octets. *)
Theorem associate_response_accepted server client result pm buf payload m :
  is_u8 result ->
  let user := chain_bytes payload in
  let reference := u32 (nextReference server) in
  sendable (zlen (aare result (enc_uint32 reference) user) - zlen user) buf payload -> zlen user < 65000 ->
  exists c, createAssociateResponseMessage server result pm buf payload = Some c /\
  (readable m -> holds m (chain_bytes c) ->
   exists client', parseMessage client (Some m) =
       Some (client', if decide (result = 0) then ACSE_ASSOCIATE else ACSE_ASSOCIATE_FAILED) /\
     got_user client' user /\
     nextReference client' = if decide (reference < 2147483648) then reference else reference / 256).
Proof.
  intros Hr user reference Hs Hu. pose proof (sendable_length _ _ _ Hs) as Hn. fold user in Hn.
  destruct (createAssociateResponse_spec server result pm buf payload Hr Hs Hu) as (c & E & _ & Eb).
  exists c. split; [done|]. intros Hm Hh. rewrite Eb in Hh. fold user reference in Hh.
  pose proof (enc_uint32_size reference) as Hsz. set (ref := enc_uint32 reference) in *.
  pose proof (user_information_length ref user ltac:(lia) Hu) as HL.
  destruct (userInformationLengths _ _) as [n k]. destruct HL as (_ & Em & Lu & Hlt & Hm').
  pose proof (length_size_bounds k).
  assert (Lc : zlen (response_content result ref user) = 21 + zlen (user_information ref user)).
  { unfold response_content. rewrite !length_app, !Nat2Z.inj_add.
    change (zlen application_context) with 9. change (zlen (enc_tlv 0xa2 _)) with 5.
    change (zlen (enc_tlv 0xa3 _)) with 7. lia. }
  destruct (parse_message_content client m 0x61 _ Hm Hh) as (p & Hat & Hpos & He & _ & _ & _ & Hparse); [lia|].
  rewrite Hparse by done. rewrite Lc in He. unfold response_content in Hat.
  apply bytes_at_app in Hat as [Hat1 Hat]. apply bytes_at_app in Hat as [Hat2 Hat].
  apply bytes_at_app in Hat as [Hat3 Hat4].
  change (zlen application_context) with 9 in *. change (zlen (enc_tlv 0xa2 (enc_tlv 0x02 [result]))) with 5 in *.
  change (zlen (enc_tlv 0xa3 (enc_tlv 0xa1 (enc_tlv 0x02 [0])))) with 7 in *.
  unfold parseAarePdu. assert (Ek : exists f, S (Z.to_nat (size m - p)) = S (S (S (S (S f))))).
  { exists (Z.to_nat (size m - p) - 4)%nat. lia. }
  destruct Ek as [f ->].
  rewrite (aare_skip (S (S (S (S f)))) client (buffer m) p (size m) 0xa1 (enc_tlv 0x06 appContextNameMms) false 99);
    [|done|done|lia|change (zlen (enc_tlv 0xa1 _)) with 9; lia|cbn [In]; lia].
  change (zlen (enc_tlv 0xa1 (enc_tlv 0x06 appContextNameMms))) with 9.
  rewrite (aare_item (S (S (S f))) client (buffer m) (p + 9) (size m) 0xa2 (enc_tlv 0x02 [result]) false 99
    client false result);
    [|done|done|lia|change (zlen (enc_tlv 0xa2 _)) with 5; lia|].
  2: { intros q Hq Hpq Hx. unfold aareItem. rewrite decide_True by done.
    destruct (BerDecoder.tlv_head (buffer m) q 0x02 [result] (size m) (zlen (enc_tlv 0x02 [result])) Hx)
      as (r & _ & Hd & [Hx' _] & Hqr & Her); [done| |].
    { change (zlen (enc_tlv 0xa2 _)) with 5 in Hq. lia. }
    rewrite Hd. cbn [mbind option_bind]. rewrite decide_False by lia.
    rewrite (BerDecoder.decodeUint32_octet _ _ result) by done. cbn [mbind option_bind]. by rewrite <- Her. }
  change (zlen (enc_tlv 0xa2 (enc_tlv 0x02 [result]))) with 5.
  rewrite (aare_skip (S (S f)) client (buffer m) (p + 9 + 5) (size m) 0xa3 (enc_tlv 0xa1 (enc_tlv 0x02 [0])) false result);
    [|done|done|lia|change (zlen (enc_tlv 0xa3 _)) with 7; lia|cbn [In]; lia].
  change (zlen (enc_tlv 0xa3 (enc_tlv 0xa1 (enc_tlv 0x02 [0])))) with 7.
  set (info := enc_tlv 0x02 ref ++ enc_tlv 0xa0 user) in *.
  change (user_information ref user) with (enc_tlv 0xbe (enc_tlv 0x28 info)) in *.
  destruct (BerDecoder.tlv_head _ _ 0xbe (enc_tlv 0x28 info) (size m) 0 Hat4) as (q & _ & _ & Hx & Hq & Heq); [lia..|].
  destruct (userInformationItem_spec client (buffer m) q (size m) ref
    (if decide (reference < 2147483648) then reference else reference / 256) user false) as (client' & Ei & Hg);
    try done; try lia; [apply Hm|fold info; lia|intros; by apply BerDecoder.decodeUint32_enc; [apply u32_range|]|].
  fold info in Ei.
  rewrite (aare_item (S f) client (buffer m) (p + 9 + 5 + 7) (size m) 0xbe (enc_tlv 0x28 info) false result
    client' true result);
    [|done|lia|lia|lia|].
  2: { intros q' Hq' _ _. assert (q' = q) as -> by lia. unfold aareItem. rewrite decide_False, decide_True by done.
    by rewrite Ei. }
  cbn [parseAarePdu_loop]. rewrite decide_False by lia. cbn [negb].
  destruct (information_user _ _ _ _ Hg) as (Hg1 & Hg2 & _). exists client'. split; [|done].
  repeat case_decide; (done || lia).
Qed.

(** ** Any message *)

(** The user data lie in the memory they are read from. *)
Definition data_safe (self : AcseConnection) : Prop :=
  match userDataBuffer self with
  | Some d => is_bytes d /\ 0 <= userDataBufferSize self <= zlen d
  | None => userDataBufferSize self = 0
  end.

Lemma data_safe_reference r self : data_safe self -> data_safe (set_nextReference r self).
Proof. done. Qed.

Lemma data_safe_application r t self : data_safe self -> data_safe (set_application r t self).
Proof. done. Qed.

Lemma data_safe_user b p n self : is_bytes b -> 0 <= p -> 0 <= n -> p + n <= zlen b ->
  data_safe (set_userData (from b p) n self).
Proof. intros Hb Hp Hn Hl. split; [by apply from_bytes|]. cbn. rewrite from_length; lia. Qed.

(** The part of the state an authenticator decides on. *)
Definition same_authenticator (self self' : AcseConnection) : Prop := authenticator self' = authenticator self.

(** A parser of part of a message: it goes on behind [p] and not behind [max], or fails. *)
Definition parsed {A} (self : AcseConnection) (p max : Z) (res : option (AcseConnection * Z * A)) : Prop :=
  exists self' r a, res = Some (self', r, a) /\ data_safe self' /\ same_authenticator self self' /\
    (r = -1 \/ p <= r <= max).

Ltac length_total b p max l :=
  let q := fresh "q" in let n := fresh "n" in let H := fresh "Hq" in
  destruct (BerDecoder.decodeLength_total b p max l) as (q & n & -> & H); [done|lia|lia|];
  cbn [mbind option_bind].

Lemma parseUserInformation_safe b p max self : is_bytes b -> 0 <= p <= max -> max <= zlen b -> data_safe self ->
  parsed self p max (parseUserInformation self b p max).
Proof.
  intros Hb Hp Hm Hs. unfold parseUserInformation.
  assert (Hf : (Z.to_nat (max - p) < S (Z.to_nat (max - p)))%nat) by lia. revert Hf.
  generalize (S (Z.to_nat (max - p))). intros fuel Hf.
  assert (G : forall s, data_safe s -> same_authenticator self s -> forall h v,
    parsed self p max (parseUserInformation_loop fuel s b p max h v)); [|by apply G].
  clear Hs. revert p Hp Hf. induction fuel as [|fuel IH]; intros p Hp Hf s Hs Ha h v; [lia|].
  cbn [parseUserInformation_loop]. case_decide; [|exists s, p, (h && v); split_and!; (done || lia)].
  destruct (rd_ok b p Hb) as (tag & -> & _); [lia|]. cbn [mbind option_bind]. length_total b (p + 1) max 0.
  case_decide; [exists s, (-1), false; split_and!; (done || lia)|]. destruct Hq as [->|Hq]; [lia|].
  assert (Hw : forall p', p <= p' -> forall s h v, parsed self p' max (parseUserInformation_loop fuel s b p' max h v) ->
    parsed self p max (parseUserInformation_loop fuel s b p' max h v)).
  { intros p' Hp' s' h' v' (s2 & r & a & E & H1 & H2 & H3). exists s2, r, a. split_and!; (done || lia). }
  case_decide; [apply Hw; [lia|apply IH; (done || lia)]|].
  case_decide.
  { destruct (BerDecoder.decodeUint32_total b n q Hb) as (r & ->); [lia..|]. cbn [mbind option_bind].
    apply Hw; [lia|apply IH; (done || lia)]. }
  case_decide; (apply Hw; [lia|apply IH; try done; try lia]). apply data_safe_user; (done || lia).
Qed.

Lemma userInformationItem_safe b n q max self valid : is_bytes b -> 0 <= q -> 0 < n -> q + n <= max -> max <= zlen b ->
  data_safe self -> parsed self q max (userInformationItem self b n q max valid).
Proof.
  intros Hb Hq Hn Hl Hm Hs. unfold userInformationItem.
  destruct (rd_ok b q Hb) as (x & -> & _); [lia|]. cbn [mbind option_bind].
  case_decide; [exists self, (q + n), valid; split_and!; (done || lia)|]. length_total b (q + 1) max n.
  case_decide; [exists self, (-1), valid; split_and!; (done || lia)|]. destruct Hq0 as [->|Hq0]; [lia|].
  destruct (parseUserInformation_safe b q0 (q0 + n0) self Hb) as (s & r & a & E & H1 & H2 & H3); [lia..|done|].
  exists s, r, a. split_and!; (done || lia).
Qed.

Lemma aareItem_safe b tag n q max self valid result :
  is_bytes b -> 0 <= q -> 0 < n -> q + n <= max -> max <= zlen b -> data_safe self ->
  exists self' r valid' result', aareItem self b tag n q max valid result = Some (self', r, valid', result') /\
    data_safe self' /\ (r = -1 \/ q <= r <= max).
Proof.
  intros Hb Hq Hn Hl Hm Hs. unfold aareItem.
  destruct (userInformationItem_safe b n q max self valid Hb Hq Hn Hl Hm Hs) as (s & r & a & -> & H1 & _ & H2).
  cbn [mbind option_bind]. case_decide.
  - length_total b (q + 1) max n. case_decide; [eexists _, _, _, _; split; [done|]; split; [done|lia]|].
    destruct Hq0 as [->|Hq0]; [lia|].
    destruct (BerDecoder.decodeUint32_total b n0 q0 Hb) as (v & ->); [lia..|]. cbn [mbind option_bind].
    eexists _, _, _, _. split; [done|]. split; [done|lia].
  - repeat case_decide; (eexists _, _, _, _; split; [done|]; split; [done|lia]).
Qed.

Lemma innerForm_total b tag n q : is_bytes b -> 0 <= q -> q + n <= zlen b ->
  exists r, innerForm b tag n q = Some r /\ match r with Some k => 0 <= k /\ q + 2 + k = q + n | None => True end.
Proof.
  intros Hb Hq Hl. unfold innerForm. case_decide; [|by exists None].
  destruct (rd_ok b q Hb) as (x & -> & _); [lia|]. cbn [mbind option_bind]. case_decide; [|by exists None].
  destruct (rd_ok b (q + 1) Hb) as (y & -> & _); [lia|]. cbn [mbind option_bind].
  eexists. split; [done|]. case_decide; [lia|done].
Qed.

Lemma aarqItem_safe b tag n q max self m v valid :
  is_bytes b -> 0 <= q -> 0 < n -> q + n <= max -> max <= zlen b -> data_safe self ->
  exists self' r m' v' valid', aarqItem self b tag n q max m v valid = Some (self', r, m', v', valid') /\
    data_safe self' /\ same_authenticator self self' /\ (r = -1 \/ q <= r <= max).
Proof.
  intros Hb Hq Hn Hl Hm Hs. unfold aarqItem, callingApTitle, callingAeQualifier.
  destruct (innerForm_total b 0x06 n q Hb Hq) as (i & -> & Hi); [lia|].
  destruct (innerForm_total b 0x02 n q Hb Hq) as (j & -> & Hj); [lia|]. cbn [mbind option_bind].
  destruct (userInformationItem_safe b n q max self valid Hb Hq Hn Hl Hm Hs) as (s & r & a & -> & H1 & H2 & H3).
  cbn [mbind option_bind].
  case_decide.
  { destruct i as [k|]; [|eexists _, _, _, _, _; split; [done|]; split_and!; (done || lia)].
    destruct (BerDecoder.decodeOID_total b (q + 2) k Hb) as (t & ->); [lia..|]. cbn [mbind option_bind].
    eexists _, _, _, _, _. split; [done|]. split_and!; (done || lia). }
  case_decide.
  { destruct j as [k|]; [|eexists _, _, _, _, _; split; [done|]; split_and!; (done || lia)].
    destruct (BerDecoder.decodeInt32_total b k (q + 2) Hb) as (t & ->); [lia..|]. cbn [mbind option_bind].
    eexists _, _, _, _, _. split; [done|]. split_and!; (done || lia). }
  case_decide.
  { destruct (rds_Some (Z.to_nat n) b q) as (xs & -> & _); [lia..|]. cbn [mbind option_bind].
    eexists _, _, _, _, _. split; [done|]. split_and!; (done || lia). }
  case_decide.
  { length_total b (q + 1) max n. case_decide; [eexists _, _, _, _, _; split; [done|]; split_and!; (done || lia)|].
    destruct Hq0 as [->|Hq0]; [lia|]. destruct (rds_Some (Z.to_nat n0) b q0) as (xs & -> & _); [lia..|].
    cbn [mbind option_bind]. eexists _, _, _, _, _. split; [done|]. split_and!; (done || lia). }
  repeat case_decide; (eexists _, _, _, _, _; split; [done|]; split_and!; (done || lia)).
Qed.

(** Some answer of the authenticator accepted a client. *)
Definition agreed (a : option AcseAuthenticator) : Prop :=
  match a with
  | Some authenticate => exists parameter reference token reference',
      authenticate parameter reference = (true, token, reference')
  | None => True
  end.

Lemma parseAarePdu_safe b p max self : is_bytes b -> 0 <= p -> max <= zlen b -> data_safe self ->
  exists self' ind, parseAarePdu self b p max = Some (self', ind) /\ data_safe self'.
Proof.
  intros Hb Hp Hm Hs. unfold parseAarePdu. generalize false, 99.
  assert (Hf : (Z.to_nat (max - p) < S (Z.to_nat (max - p)))%nat) by lia. revert Hf.
  generalize (S (Z.to_nat (max - p))). intros fuel. revert p Hp self Hs.
  induction fuel as [|fuel IH]; intros p Hp self Hs Hf valid result; [lia|].
  cbn [parseAarePdu_loop]. case_decide; [|by eexists _, _].
  destruct (rd_ok b p Hb) as (tag & -> & _); [lia|]. cbn [mbind option_bind]. length_total b (p + 1) max 0.
  case_decide; [by eexists _, _|]. destruct Hq as [->|Hq]; [lia|].
  case_decide; [apply IH; (done || lia)|]. case_decide; [by eexists _, _|].
  destruct (aareItem_safe b tag n q max self valid result Hb) as (s & r & v & z & -> & H3 & H4); try done; try lia.
  cbn [mbind option_bind]. case_decide; [by eexists _, _|]. apply IH; (done || lia).
Qed.

Lemma parseAarqPdu_safe b p max self : is_bytes b -> 0 <= p -> max <= zlen b -> data_safe self ->
  exists self' ind, parseAarqPdu self b p max = Some (self', ind) /\ data_safe self' /\
    (ind = ACSE_ASSOCIATE -> agreed (authenticator self)).
Proof.
  intros Hb Hp Hm Hs. unfold parseAarqPdu. generalize (None : option (list Z)), ([] : list Z), false.
  assert (Hf : (Z.to_nat (max - p) < S (Z.to_nat (max - p)))%nat) by lia. revert Hf.
  generalize (S (Z.to_nat (max - p))). intros fuel.
  assert (G : forall s, data_safe s -> same_authenticator self s -> (Z.to_nat (max - p) < fuel)%nat -> forall m v valid,
    exists self' ind, parseAarqPdu_loop fuel s b p max m v valid = Some (self', ind) /\ data_safe self' /\
      (ind = ACSE_ASSOCIATE -> agreed (authenticator self))); [|by apply G].
  clear Hs. revert p Hp. induction fuel as [|fuel IH]; intros p Hp s Hs Ha Hf m v valid; [lia|].
  assert (Hret : exists self' ind, Some (s, ACSE_ASSOCIATE_FAILED) = Some (self', ind) /\ data_safe self' /\
    (ind = ACSE_ASSOCIATE -> agreed (authenticator self))) by (by eexists _, _).
  cbn [parseAarqPdu_loop]. case_decide.
  - destruct (rd_ok b p Hb) as (tag & -> & _); [lia|]. cbn [mbind option_bind]. length_total b (p + 1) max 0.
    case_decide; [done|]. destruct Hq as [->|Hq]; [lia|].
    case_decide; [apply IH; (done || lia)|]. case_decide; [done|].
    destruct (aarqItem_safe b tag n q max s m v valid Hb) as (s' & r & m' & v' & b' & -> & H3 & H4 & H5); try done; try lia.
    cbn [mbind option_bind]. case_decide; [by eexists _, _|]. apply IH; try done; try lia.
    unfold same_authenticator in *. congruence.
  - unfold checkAuthentication, authenticateClient. cbn [authenticator set_application applicationReference]. rewrite Ha.
    destruct (authenticator self) as [a|] eqn:Ea; [|destruct valid; by eexists _, _].
    destruct (a _ _) as [[ok token] reference] eqn:E. eexists _, _. split; [done|]. split; [done|].
    destruct ok; [|done]. intros _. by eexists _, _, _, _.
Qed.

Lemma acse_parseMessage_total self m : data_safe self -> readable m ->
  exists self' ind, parseMessage self (Some m) = Some (self', ind) /\ data_safe self' /\
    (rd (buffer m) 0 <> Some 0x61 -> ind = ACSE_ASSOCIATE -> agreed (authenticator self)).
Proof.
  intros Hs [Hb Hm]. unfold parseMessage. case_decide; [by eexists _, _|].
  destruct (rd_ok (buffer m) 0 Hb) as (t & -> & _); [lia|]. cbn [mbind option_bind].
  length_total (buffer m) 1 (size m) 0. case_decide; [by eexists _, _|]. destruct Hq as [->|Hq]; [lia|].
  case_decide.
  { destruct (parseAarqPdu_safe (buffer m) q (q + n) self Hb) as (s & i & -> & H3 & H4); [lia..|done|].
    exists s, i. split_and!; [done..|]. by intros _. }
  case_decide.
  { destruct (parseAarePdu_safe (buffer m) q (q + n) self Hb) as (s & i & -> & H3); [lia..|done|].
    exists s, i. split_and!; [done..|]. subst t. by intros []. }
  repeat case_decide; by eexists _, _.
Qed.


(** An AARE PDU associates whatever the authenticator says. *)
Example association_without_authentication authenticate token :
  let m := ByteBuffer_wrap (aare 0 [3] [1; 2]) (zlen (aare 0 [3] [1; 2])) (zlen (aare 0 [3] [1; 2])) in
  snd <$> parseMessage (init (Some authenticate) token) (Some m) = Some ACSE_ASSOCIATE.
Proof. reflexivity. Qed.


(** A client with a mechanism other than the password cannot associate: the length of
    its request is 7 octets too large and the server refuses it without asking its
    authenticator. *)
Theorem other_mechanism_refused server remote local a pm buf payload m :
  name_wf remote -> name_wf local -> auth_wf (Some a) -> mechanism a <> ACSE_AUTH_PASSWORD ->
  sendable 110 buf payload -> zlen (chain_bytes payload) < 60000 ->
  exists c, createAssociateRequestMessage remote local pm buf payload (Some a) = Some c /\
  (readable m -> holds m (chain_bytes c) -> parseMessage server (Some m) = Some (server, ACSE_ERROR)).
Proof.
  intros Hr Hl Ha Hmech Hs Hn. pose proof (excess_other a Hmech) as Ex. pose proof (sendable_length _ _ _ Hs) as Hpos.
  set (body := request_items remote local (Some a) ++ user_information [3] (chain_bytes payload)).
  destruct (request_items_length remote local (Some a) Hr Hl Ha) as [L1 L2].
  destruct (nameLengths_spec remote 0xa2 0xa3 Hr) as (_ & _ & N1 & _).
  destruct (nameLengths_spec local 0xa6 0xa7 Hl) as (_ & _ & N2 & _).
  pose proof (user_information_length [3] (chain_bytes payload) ltac:(cbn; lia) ltac:(lia)) as HL.
  destruct (userInformationLengths _ _) as [n k]. destruct HL as (_ & _ & Lu & Hlt & Hm).
  pose proof (length_size_bounds k).
  assert (La : zlen (authentication_items (Some a)) = 4) by (cbn [authentication_items]; by rewrite decide_False).
  assert (Hb : zlen body <= zlen (chain_bytes payload) + 98 /\ 0 < zlen body) by (unfold body; rewrite length_app; lia).
  assert (Hlen : 1 <= zlen (enc_length (zlen body + 7)) <= 4).
  { unfold enc_length. repeat case_decide; cbn [length]; lia. }
  destruct (createAssociateRequest_layout remote local pm buf payload (Some a) Hr Hl Ha ltac:(lia)) as (c & E & _ & Eb).
  { fold body. rewrite Ex. destruct Hs as [S1 S2 S3 S4 S5]. constructor; try done.
    rewrite length_app, length_cons. lia. }
  { done. }
  exists c. split; [done|]. intros [Hbytes Hsz] [El Hat]. rewrite Eb in El, Hat. fold body in El, Hat. rewrite Ex in El, Hat.
  rewrite length_app, length_cons in El. apply bytes_at_app in Hat as [[Ht Hat] _].
  unfold parseMessage. rewrite decide_False by lia. rewrite Ht. cbn [mbind option_bind].
  destruct (BerDecoder.decodeLength_too_long (buffer m) 0 (zlen body + 7) 1 (size m)) as [j ->]; [lia|exact Hat|lia|lia|].
  cbn [mbind option_bind]. by rewrite decide_True by lia.
Qed.

(** The messages without user data are what their receiver takes them for. *)
Lemma createFixedMessage_spec pm octets buf : is_bytes octets -> is_bytes buf -> 0 < zlen octets <= zlen buf ->
  exists c, createFixedMessage pm octets buf = Some c /\ part_ok buf c /\ chain_bytes c = octets.
Proof.
  intros Ho Hb Hl. unfold createFixedMessage. destruct (puts_Some buf 0 octets) as [b E]; [lia|lia|].
  rewrite E. cbn [mbind option_bind]. eexists. split; [done|].
  destruct (puts_inv _ _ _ _ _ E) as (_ & El & Hat & _). apply take_bytes_at in Hat.
  rewrite length_fmap, u8_bytes in Hat by done.
  assert (Eb : chain_bytes (Chain (zlen octets) (zlen octets) pm b ChainNull) = octets).
  { cbn [chain_bytes]. by rewrite Nat2Z.id, Hat, app_nil_r. }
  split; [|done]. split; [|done|cbn; lia]. cbn [chain_wf]. rewrite Eb. split_and!; try done; [lia|lia|by eapply puts_bytes].
Qed.

(** A release request, a release response and an abort are made and recognised. *)
Theorem closing_messages self pm buf provider : is_bytes buf -> 5 <= zlen buf ->
  Forall (fun '(create, indication) => exists c, create = Some c /\ chain_wf c /\
      (forall m, readable m -> holds m (chain_bytes c) -> parseMessage self (Some m) = Some (self, indication)))
    [(createReleaseRequestMessage pm buf, ACSE_RELEASE_REQUEST);
     (createReleaseResponseMessage pm buf, ACSE_RELEASE_RESPONSE);
     (createAbortMessage pm buf provider, ACSE_ABORT)].
Proof.
  intros Hb Hl.
  assert (G : forall tag content ind, is_u8 tag -> is_bytes content -> zlen content <= 3 ->
    (if decide (tag = 0x62) then Some (self, ACSE_RELEASE_REQUEST)
     else if decide (tag = 0x63) then Some (self, ACSE_RELEASE_RESPONSE)
     else if decide (tag = 0x64) then Some (self, ACSE_ABORT) else Some (self, ACSE_ERROR)) = Some (self, ind) ->
    tag <> 0x60 -> tag <> 0x61 ->
    exists c, createFixedMessage pm (enc_tlv tag content) buf = Some c /\ chain_wf c /\
      (forall m, readable m -> holds m (chain_bytes c) -> parseMessage self (Some m) = Some (self, ind))).
  { intros tag content ind Ht Hc Hcl Hind H1 H2. pose proof (short_tlv_length tag content ltac:(lia)).
    destruct (createFixedMessage_spec pm (enc_tlv tag content) buf) as (c & E & W & Eb);
      [by apply enc_tlv_bytes|done|lia|]. exists c. split_and!; [done|apply W|].
    intros m Hm Hh. rewrite Eb in Hh. destruct Hh as [El Hat].
    destruct (BerDecoder.tlv_head (buffer m) 0 tag content (size m) 0 Hat) as (q & Hx & Hd & _ & Hq & He); [lia|lia|].
    change (0 + 1) with 1 in Hd. unfold parseMessage. rewrite decide_False by lia. rewrite Hx. cbn [mbind option_bind].
    rewrite Hd. cbn [mbind option_bind]. rewrite decide_False by lia. rewrite (decide_False (P := tag = 0x60)), (decide_False (P := tag = 0x61)) by done.
    exact Hind. }
  repeat constructor.
  - apply (G 0x62 [0x80; 1; 0]); (done || const_bytes).
  - apply (G 0x63 []); (done || const_bytes).
  - apply (G 0x64 [0x80; 1; if provider then 1 else 0]); try done. destruct provider; const_bytes.
Qed.

(** ** Samples *)

Definition sample_name : ApplicationName := {| title := [42; 3; 4; 0; 0; 0; 0; 0; 0; 0]; titleLen := 3; qualifier := 12 |}.
Definition sample_auth : AcseAuthenticationParameter := {| mechanism := ACSE_AUTH_PASSWORD; octetString := [1; 2; 3] |}.

(** A server that knows one password. *)
Definition sample_authenticator : AcseAuthenticator := fun parameter reference =>
  (bool_decide (mechanism parameter = ACSE_AUTH_PASSWORD /\ octetString parameter = [1; 2; 3]), Some 7, reference).

Definition sample_server : AcseConnection := init (Some sample_authenticator) None.
Definition sample_message (xs : list Z) : ByteBuffer := ByteBuffer_wrap xs (zlen xs) (zlen xs).

Lemma sample_name_wf : name_wf sample_name.
Proof. split; [split; [const_bytes|done]|by vm_compute]. Qed.

Lemma sample_auth_wf : auth_wf (Some sample_auth).
Proof. split; [const_bytes|by vm_compute]. Qed.


Lemma associate_response_accepted_witness :
  exists c, createAssociateResponseMessage (set_nextReference 3 sample_server) 0 200 sample_memory
      (sample_chain [4; 5]) = Some c /\
  (readable (sample_message (aare 0 [3] [4; 5])) -> holds (sample_message (aare 0 [3] [4; 5])) (chain_bytes c) ->
   exists client', parseMessage sample_server (Some (sample_message (aare 0 [3] [4; 5]))) =
       Some (client', ACSE_ASSOCIATE) /\ got_user client' [4; 5] /\ nextReference client' = 3).
Proof.
  refine (associate_response_accepted (set_nextReference 3 sample_server) sample_server 0 200 sample_memory
    (sample_chain [4; 5]) (sample_message _) _ _ _); [done| |by vm_compute].
  apply sample_sendable; [const_bytes|by vm_compute|by vm_compute].
Defined.


Lemma other_mechanism_refused_witness :
  let a := {| mechanism := ACSE_AUTH_NONE; octetString := [] |} in
  let xs := (0x60 :: enc_length 77) ++ request_items sample_name sample_name (Some a) ++ user_information [3] [4; 5] in
  exists c, createAssociateRequestMessage sample_name sample_name 200 sample_memory (sample_chain [4; 5]) (Some a) = Some c /\
  (readable (sample_message xs) -> holds (sample_message xs) (chain_bytes c) ->
   parseMessage sample_server (Some (sample_message xs)) = Some (sample_server, ACSE_ERROR)).
Proof.
  intros a xs. refine (other_mechanism_refused sample_server sample_name sample_name a 200 sample_memory
    (sample_chain [4; 5]) (sample_message xs) sample_name_wf sample_name_wf _ _ _ _).
  - split; [constructor|by vm_compute].
  - done.
  - apply sample_sendable; [const_bytes|by vm_compute|by vm_compute].
  - by vm_compute.
Defined.

End Acse.
