(* ===== verification/CotpLink.v ===== *)
(** * A COTP connection under any traffic

    The reader and the sender of [src/mms/iso_cotp/cotp.c] on a stream that need not
    consist of packets: the invariant of a connection that has its buffers, and that
    every operation of the layers above keeps it. *)

From S2P Require Import Prelude ByteBuf Cotp.

Module CotpLink.
Import ByteBuf Cotp.

(** The buffers a connection is made with, whatever the peer sends. *)
Record link_ok (self : CotpConnection) : Prop := {
  l_conn : conn_wf self;
  l_tpdu : 7 <= tpduSize self;
  l_ref : is_u16 (localRef self);
  l_ext : ext_wf self;
  l_ext_some : is_Some (socketExtensionBuffer self);
  l_ext_size : 26 <= socketExtensionBufferSize self;
  l_write : exists wb, writeBuffer self = Some wb /\ wf wb /\ 8196 <= maxSize wb;
  l_read : 261 <= zlen (buffer (readBuffer self)) /\
    zlen (buffer (readBuffer self)) = maxSize (readBuffer self);
  l_in : is_bytes (incoming (socket self));
}.

(** Between two packets or inside one. *)
Definition between (self : CotpConnection) : Prop :=
  0 <= size (readBuffer self) < 4 \/
  4 <= size (readBuffer self) < packetSize self /\ packetSize self <= maxSize (readBuffer self).

(** [self'] is [self] up to what input and output change. *)
Definition same_parameters (self self' : CotpConnection) : Prop :=
  payload self' = payload self /\ tSelSrc self' = tSelSrc self /\ tSelDst self' = tSelDst self /\
  tpduSize self' = tpduSize self /\ localRef self' = localRef self /\
  maxSize (readBuffer self') = maxSize (readBuffer self).

Lemma io_only_parameters self self' : io_only self self' ->
  same_parameters self self' /\ readBuffer self' = readBuffer self /\ packetSize self' = packetSize self /\
  remoteRef self' = remoteRef self /\ protocolClass self' = protocolClass self.
Proof. intros [E _]. rewrite E. destruct self. by split_and!. Qed.

(** Operations that only write keep the invariant. *)
Lemma link_ok_write self self' wb : link_ok self -> io_only self self' -> ext_wf self' ->
  writeBuffer self' = Some wb -> wf wb -> 8196 <= maxSize wb -> is_bytes (incoming (socket self')) ->
  link_ok self'.
Proof.
  intros [H1 H2 H3 H4 H5 H6 H7 H8 H9] Hio He Hw Hwf Hm Hin.
  destruct (io_only_fields _ _ Hio) as (_ & Es & Eo).
  destruct (io_only_parameters _ _ Hio) as ((Ep & E1 & E2 & Et & Er & _) & Erb & _).
  constructor; try congruence.
  - unfold conn_wf. by rewrite Ep, Erb, E1, E2, Et.
  - by rewrite Eo.
  - by exists wb.
Qed.

Lemma socket_write_incoming s buf n s' k : socket_write s buf n = Some (s', k) -> incoming s' = incoming s.
Proof. unfold socket_write. destruct (rds _ _ _); [|done]. by intros [= <- _]. Qed.

Lemma flushBuffer_incoming self self' ok : flushBuffer self = Some (self', ok) ->
  incoming (socket self') = incoming (socket self).
Proof.
  unfold flushBuffer. case_decide; [|by intros [= <- <-]].
  destruct (socketExtensionBuffer self) as [ext|]; [|done]. cbn [mbind option_bind]. unfold writeToSocket.
  destruct (socket_write _ _ _) as [[s n]|] eqn:E; [|done]. apply socket_write_incoming in E.
  cbn [mbind option_bind]. case_decide; [case_decide|]; [|by intros [= <- <-]..].
  destruct (move_bytes _ _ _ _); [|done]. by intros [= <- <-].
Qed.

Lemma keepUnsent_incoming self wb n self' ok : keepUnsent self wb n = Some (self', ok) ->
  incoming (socket self') = incoming (socket self).
Proof.
  unfold keepUnsent. case_decide; [|by intros [= <- <-]].
  destruct (socketExtensionBuffer self) as [ext|]; [|by intros [= <- <-]].
  destruct (copy_bytes _ _ _ _ _) as [[b p]|]; [|done]. by intros [= <- <-].
Qed.

Lemma sendBuffer_incoming self self' ok : sendBuffer self = Some (self', ok) ->
  incoming (socket self') = incoming (socket self).
Proof.
  unfold sendBuffer. destruct (writeBuffer self) as [wb|]; [|done]. cbn [mbind option_bind].
  destruct (flushBuffer self) as [[s f]|] eqn:E; [|done]. apply flushBuffer_incoming in E.
  cbn [mbind option_bind]. destruct f; cbn [negb]; [|by intros [= <- <-]]. unfold writeToSocket.
  case_decide.
  - destruct (socket_write _ _ _) as [[s1 n]|] eqn:E1; [|done]. apply socket_write_incoming in E1.
    cbn [mbind option_bind]. case_decide; [intros [= <- <-]; cbn; congruence|].
    intros H1%keepUnsent_incoming. cbn in H1. congruence.
  - cbn [mbind option_bind]. case_decide; [by intros [= <- <-]|]. intros H1%keepUnsent_incoming. congruence.
Qed.

Lemma sendFragments_incoming n fps len : forall self c i p self' r,
  sendFragments_loop n self fps len c i p = Some (self', r) ->
  incoming (socket self') = incoming (socket self).
Proof.
  induction n as [|n IH]; intros self c i p self' r; cbn [sendFragments_loop]; [by intros [= <- _]|].
  unfold writeRfc1006Header, writeDataTpduHeader.
  destruct (writeBuffer self) as [wb|]; [|done]. cbn [mbind option_bind].
  destruct (puts (buffer wb) 0 _) as [[b1 p1]|]; [|done]. cbn [mbind option_bind set_writeBuffer writeBuffer].
  destruct (puts _ 4 _) as [[b2 p2]|]; [|done]. cbn [mbind option_bind set_writeBuffer writeBuffer].
  destruct (fillFragment_loop _ _ _ _ _) as [[b|[[[c' i'] b] q]]|]; [by intros [= <- _]| |done].
  cbn [mbind option_bind]. destruct (sendBuffer _) as [[s ok]|] eqn:E; [|done]. apply sendBuffer_incoming in E.
  cbn in E. cbn [mbind option_bind]. destruct ok; [|intros [= <- _]; done]. intros H%IH. congruence.
Qed.

(** ** Sending *)

Lemma send_data_link self c : link_ok self -> c <> ChainNull -> chain_wf c ->
  exists self' r, sendDataMessage self c = Some (self', r) /\ link_ok self' /\ io_only self self' /\
    handed_over self self' (message_frames self (chain_bytes c)) (bool_decide (r = COTP_OK)) /\
    (r = COTP_OK \/ r = COTP_ERROR) /\
    (writes_ok self ->
     socketExtensionBufferFill self + zlen (message_frames self (chain_bytes c)) <=
       socketExtensionBufferSize self -> r = COTP_OK).
Proof.
  intros Hl Hn Hc. destruct (l_write _ Hl) as (wb & Hwb & Hw & Hm). pose proof (l_conn _ Hl) as (_ & _ & _ & _ & Ht).
  pose proof (l_tpdu _ Hl) as Ht7. pose proof (getTpduSize_bounds self ltac:(lia)) as Hsz.
  destruct (sendDataMessage_spec self wb c) as (s & r & E & Hr & (wb' & Hwb' & Hw' & Hm') & Hh & Hok);
    try done; [lia|apply Hl|unfold TPKT_RFC1006_HEADER_SIZE; lia|].
  exists s, r. split; [done|]. destruct (Hh) as (Hio & He & _). split_and!; try done.
  - apply (link_ok_write self s wb'); try done; [lia|].
    assert (Hin : incoming (socket s) = incoming (socket self)); [|rewrite Hin; apply Hl].
    destruct c as [|l pl pm b nx]; [done|]. unfold sendDataMessage in E. case_decide; [done|].
    destruct (flushBuffer self) as [[s1 f]|] eqn:Ef; [|done]. apply flushBuffer_incoming in Ef.
    cbn [mbind option_bind] in E. destruct f; cbn [negb] in E; [|by injection E as <- _].
    case_decide; [by injection E as <- _|]. apply sendFragments_incoming in E. congruence.
  - intros H1 H2. apply Hok; [done|apply Hl|done].
Qed.

Lemma send_response_link self : link_ok self -> socketExtensionBufferFill self = 0 ->
  is_u16 (remoteRef self) -> is_u8 (protocolClass self) ->
  exists self' r, sendConnectionResponseMessage true true self = Some (self', r) /\ link_ok self' /\
    io_only self self'.
Proof.
  intros Hl Hf Hr Hp. destruct (l_write _ Hl) as (wb & Hwb & Hw & Hm).
  pose proof (l_conn _ Hl) as (_ & _ & H1 & H2 & Ht). pose proof (l_tpdu _ Hl) as Ht7.
  destruct (sendConnectionResponse_spec true true self wb) as (s & ok & E & (wb' & Hwb' & Hw' & Hm') & Hh);
    try done; try lia; try apply Hl; [rewrite Hf; intros; apply Hl|].
  destruct Hh as (Hio & He & _). eexists _, _. split; [exact E|]. split; [|done].
  apply (link_ok_write self s wb'); try done; [lia|].
  assert (Hin : incoming (socket s) = incoming (socket self)); [|rewrite Hin; apply Hl].
  revert E. unfold sendConnectionResponseMessage, allocateWriteBuffer. rewrite Hwb, Hwb. cbn [mbind option_bind].
  case_decide; [by intros [= <- _]|]. unfold writeRfc1006Header, writeStaticConnectResponseHeader, writeOptions.
  rewrite Hwb. cbn [mbind option_bind]. destruct (puts (buffer wb) 0 _) as [[b1 p1]|]; [|done].
  cbn [mbind option_bind set_writeBuffer writeBuffer]. destruct (puts _ 4 _) as [[b2 p2]|]; [|done].
  cbn [mbind option_bind set_writeBuffer writeBuffer].
  match goal with |- context [(if decide ?P then ?x else ?y) ≫= _] =>
    destruct (if decide P then x else y) as [[b3 p3]|]; [|done] end.
  cbn [mbind option_bind]. destruct (writeTSelector _ _ _ _) as [[b4 p4]|]; [|done].
  cbn [mbind option_bind]. destruct (writeTSelector _ _ b4 p4) as [[b5 p5]|]; [|done].
  cbn [mbind option_bind set_writeBuffer writeBuffer]. destruct (sendBuffer _) as [[s' ok']|] eqn:Es; [|done].
  apply sendBuffer_incoming in Es. cbn in Es. intros [= <- _]. done.
Qed.

(** ** Parsing *)

(** What parsing a packet leaves alone. *)
Definition parse_keeps (self self' : CotpConnection) : Prop :=
  localRef self' = localRef self /\ writeBuffer self' = writeBuffer self /\
  socketExtensionBuffer self' = socketExtensionBuffer self /\
  socketExtensionBufferSize self' = socketExtensionBufferSize self /\
  socketExtensionBufferFill self' = socketExtensionBufferFill self /\ socket self' = socket self /\
  readBuffer self' = readBuffer self /\ (7 <= tpduSize self -> 7 <= tpduSize self').

Lemma parse_keeps_trans self1 self2 self3 :
  parse_keeps self1 self2 -> parse_keeps self2 self3 -> parse_keeps self1 self3.
Proof. intros (?&?&?&?&?&?&?&?) (?&?&?&?&?&?&?&?). split_and!; try congruence; auto. Qed.

Lemma parseOptions_keeps fuel : forall self buf base p len self' ok,
  parseOptions_loop fuel self buf base p len = Some (self', ok) ->
  parse_keeps self self' /\ remoteRef self' = remoteRef self /\ protocolClass self' = protocolClass self.
Proof.
  induction fuel as [|fuel IH]; intros self buf base p len self' ok; [done|]. cbn [parseOptions_loop].
  assert (Hret : forall b, Some (self, b) = Some (self', ok) ->
    parse_keeps self self' /\ remoteRef self' = remoteRef self /\ protocolClass self' = protocolClass self)
    by (intros b [= <- _]; done).
  case_decide; [|apply Hret]. case_decide; [apply Hret|].
  destruct (rd buf (base + p)) as [ty|]; [|done]. destruct (rd buf (base + (p + 1))) as [n|]; [|done].
  cbn [mbind option_bind]. case_decide; [apply Hret|].
  case_decide.
  { case_decide; [|apply Hret]. destruct (rd buf (base + (p + 2))) as [raw|]; [|done]. cbn [mbind option_bind].
    case_decide; [apply Hret|]. rewrite setTpduSize_is. cbn [mbind option_bind].
    intros (Hk & Er & Ec)%IH. split; [|done]. eapply parse_keeps_trans; [|exact Hk].
    split_and!; try done. intros _. cbn [set_tpduSize tpduSize].
    assert (Hraw : 7 <= raw <= 13) by lia. apply Z.log2_le_pow2.
    - unfold COTP_MAX_TPDU_SIZE. pose proof (Z.pow_pos_nonneg 2 raw). rewrite Z.shiftl_mul_pow2; lia.
    - rewrite Z.shiftl_mul_pow2 by lia. rewrite Z.mul_1_l. unfold COTP_MAX_TPDU_SIZE.
      change (2 ^ 7) with 128. assert (128 <= 2 ^ raw); [change 128 with (2 ^ 7); apply Z.pow_le_mono_r; lia|lia]. }
  case_decide.
  { case_decide; [|apply Hret]. destruct (copy_bytes _ _ _ _ _) as [[v q]|]; [|done]. cbn [mbind option_bind].
    intros (Hk & Er & Ec)%IH. split; [|done]. by eapply parse_keeps_trans; [|exact Hk]. }
  case_decide.
  { case_decide; [|apply Hret]. destruct (copy_bytes _ _ _ _ _) as [[v q]|]; [|done]. cbn [mbind option_bind].
    intros (Hk & Er & Ec)%IH. split; [|done]. by eapply parse_keeps_trans; [|exact Hk]. }
  case_decide; [case_decide; [apply IH|apply Hret]|apply IH].
Qed.

Lemma getUint16_range buf p v : getUint16 buf p = Some v -> is_u16 v.
Proof.
  unfold getUint16. destruct (rd buf p); [|done]. cbn [mbind option_bind]. destruct (rd buf (p + 1)); [|done].
  intros [= <-]. unfold_int. zlia.
Qed.

Lemma parseCotp_keeps self self' ind : parseCotpMessage self = Some (self', ind) ->
  is_bytes (buffer (readBuffer self)) ->
  parse_keeps self self' /\ (ind = COTP_CONNECT_INDICATION -> is_u16 (remoteRef self') /\ is_u8 (protocolClass self')).
Proof.
  intros E Hb. revert E. unfold parseCotpMessage. destruct (rd _ 4) as [len|]; [|done]. cbn [mbind option_bind].
  assert (Hret : forall i, i <> COTP_CONNECT_INDICATION -> Some (self, i) = Some (self', ind) ->
    parse_keeps self self' /\ (ind = COTP_CONNECT_INDICATION -> is_u16 (remoteRef self') /\ is_u8 (protocolClass self')))
    by (intros i Hi [= <- <-]; by split).
  case_decide; [by apply Hret|]. destruct (rd _ 5) as [ty|]; [|done]. cbn [mbind option_bind].
  assert (Hopt : forall ref cl n, is_u16 ref -> is_u8 cl -> forall r : option (CotpConnection * bool),
    r = parseOptions (set_protocolClass cl (set_remoteRef ref self)) (buffer (readBuffer self)) (6 + 5) n ->
    ('(self, ok) ← r; Some (self, if (ok : bool) then COTP_CONNECT_INDICATION else COTP_ERROR)) = Some (self', ind) ->
    parse_keeps self self' /\ (ind = COTP_CONNECT_INDICATION -> is_u16 (remoteRef self') /\ is_u8 (protocolClass self'))).
  { intros ref cl n Hr Hc r ->. unfold parseOptions. destruct (parseOptions_loop _ _ _ _ _ _) as [[s ok]|] eqn:E; [|done].
    apply parseOptions_keeps in E as (Hk & H1 & H2). intros [= <- _]. split.
    - eapply parse_keeps_trans; [|exact Hk]. done.
    - intros _. rewrite H1, H2. done. }
  assert (Hcl : forall cl, getUint8 (buffer (readBuffer self)) (6 + 4) = Some cl -> is_u8 cl).
  { intros cl E. by eapply rd_byte. }
  case_decide.
  { unfold parseConnectRequestTpdu. case_decide; [by intros [= <- <-]|].
    destruct (getUint16 _ _) as [ref|] eqn:E1; [|done]. cbn [mbind option_bind].
    destruct (getUint8 _ _) as [cl|] eqn:E2; [|done]. cbn [mbind option_bind].
    apply (Hopt ref cl (len - 6)); [exact (getUint16_range _ _ _ E1)|exact (Hcl _ eq_refl)|done]. }
  case_decide.
  { unfold parseConnectConfirmTpdu. case_decide; [by intros [= <- <-]|].
    destruct (getUint16 _ _) as [ref|] eqn:E1; [|done]. cbn [mbind option_bind].
    destruct (getUint8 _ _) as [cl|] eqn:E2; [|done]. cbn [mbind option_bind].
    apply (Hopt ref cl (len - 6)); [exact (getUint16_range _ _ _ E1)|exact (Hcl _ eq_refl)|done]. }
  case_decide; [|by apply Hret].
  clear Hcl. unfold parseDataTpdu. case_decide; [by intros [= <- <-]|]. destruct (getUint8 _ _); cbn [mbind option_bind]; [|done].
  unfold addPayloadToBuffer. case_decide; [by intros [= <- <-]|]. case_decide; [by intros [= <- <-]|].
  destruct (copy_bytes _ _ _ _ _) as [[v q]|]; [|done]. cbn [mbind option_bind].
  intros [= <- <-]. split; [done|]. by destruct (bool_decide (Z.land _ 128 <> 0)).
Qed.

(** A packet is parsed and the reader starts again. *)
Lemma parse_link self : link_ok self -> packet_ready self ->
  exists self' ind, parseIncomingMessage self = Some (self', ind) /\ link_ok self' /\ between self' /\
    socketExtensionBufferFill self' = socketExtensionBufferFill self /\
    maxSize (payload self') = maxSize (payload self) /\
    (ind = COTP_CONNECT_INDICATION -> is_u16 (remoteRef self') /\ is_u8 (protocolClass self')).
Proof.
  intros Hl Hp. pose proof (l_conn _ Hl) as Hc. unfold parseIncomingMessage.
  destruct (parseCotpMessage_spec self Hc Hp) as (s & ind & E & Hs & _ & Hm). rewrite E. cbn [mbind option_bind].
  apply parseCotp_keeps in E as [(K1 & K2 & K3 & K4 & K5 & K6 & K7 & K8) Hr]; [|apply Hc].
  eexists _, ind. split; [done|]. destruct Hl as [H1 H2 H3 H4 H5 H6 H7 H8 H9].
  split_and!; try done.
  - constructor; try (cbn; congruence).
    + exact Hs.
    + by apply K8.
    + unfold ext_wf in *. cbn. by rewrite K3, K4, K5.
    + cbn. by rewrite K2.
  - left. done.
  - change (maxSize (payload s) = maxSize (payload self)). destruct ind; try done; [exact (f_equal maxSize Hm)..|by destruct Hm as (_ & ? & _)|by destruct Hm as (_ & ? & _)].
Qed.

(** ** Reading *)

(** A read puts what it gets behind the octets up to [p]. *)
Lemma readFromSocket_link self p n : link_ok self -> 0 <= p -> 1 <= n -> p + n <= maxSize (readBuffer self) ->
  exists self' k, readFromSocket self p n = Some (self', k) /\ link_ok self' /\ -1 <= k <= n /\
    socketExtensionBufferFill self' = socketExtensionBufferFill self /\ payload self' = payload self /\
    packetSize self' = packetSize self /\ maxSize (readBuffer self') = maxSize (readBuffer self) /\
    size (readBuffer self') = size (readBuffer self).
Proof.
  intros Hl Hp Hn Hfit. pose proof (l_read _ Hl) as [Hr1 Hr2]. destruct (l_conn _ Hl) as (C1 & C2 & C3 & C4 & C5).
  destruct (readFromSocket_spec self p n) as (s & k & E & Hro & Hps & Hsz & Hk & Hin & _);
    [done|apply Hl|done|done|lia|].
  exists s, k. destruct (Hro) as (Es & Em & El & Eb). destruct (read_only_fields _ _ Hro) as (F1 & F2 & F3 & F4 & F5).
  split; [done|]. split; [|split_and!; (done || lia)]. destruct Hl as [H1 H2 H3 H4 H5 H6 H7 H8 H9].
  assert (Ew : writeBuffer s = writeBuffer self /\ socketExtensionBuffer s = socketExtensionBuffer self /\
    socketExtensionBufferSize s = socketExtensionBufferSize self /\ localRef s = localRef self)
    by (rewrite Es; by destruct self).
  destruct Ew as (W1 & W2 & W3 & W4). constructor; try congruence.
  - unfold conn_wf. rewrite F2, F3, F4, F5. exact (conj C1 (conj Eb (conj C3 (conj C4 C5)))).
  - unfold ext_wf in *. by rewrite W2, W3, F1.
  - by rewrite W1.
  - rewrite Hin. by apply Forall_drop.
Qed.

Lemma link_ok_readSize n self : link_ok self -> link_ok (set_readSize n self).
Proof. intros [H1 H2 H3 H4 H5 H6 H7 H8 H9]. by constructor. Qed.

(** What reading leaves: inside a packet, at its end, or at the start of the next. *)
Definition read_result (self self' : CotpConnection) (st : TpktState) : Prop :=
  link_ok self' /\ maxSize (payload self') = maxSize (payload self) /\
  match st with
  | TPKT_PACKET_COMPLETE => packet_ready self' /\ socketExtensionBufferFill self' = 0
  | _ => between self'
  end.

Lemma read_result_payload self s s' st : payload s = payload self -> read_result s s' st -> read_result self s' st.
Proof. intros E (H1 & H2 & H3). split_and!; [done|congruence|done]. Qed.

Lemma read_result_error self : link_ok self -> read_result self (set_readSize 0 self) TPKT_ERROR.
Proof. intros H. split; [by apply link_ok_readSize|]. split; [done|]. left. done. Qed.

Lemma readPacketBody_link self p : link_ok self -> socketExtensionBufferFill self = 0 -> 4 <= p ->
  packetSize self <= maxSize (readBuffer self) ->
  exists self' st, readPacketBody self p = Some (self', st) /\ read_result self self' st.
Proof.
  intros Hl Hf Hp Hs. unfold readPacketBody.
  case_decide; [eexists _, _; split; [reflexivity|by apply read_result_error]|].
  destruct (readFromSocket_link self p (packetSize self - p)) as (s & k & -> & Hls & Hk & E1 & E2 & E3 & E4 & E5);
    [done|lia..|]. cbn [mbind option_bind].
  case_decide; [eexists _, _; split; [reflexivity|by eapply read_result_payload; [exact E2|apply read_result_error]]|].
  pose proof (l_read _ Hls) as [R1 R2]. case_decide.
  - eexists _, _. split; [reflexivity|]. split; [by apply link_ok_readSize|]. split; [cbn; congruence|].
    right. cbn. lia.
  - eexists _, _. split; [reflexivity|]. split; [by apply link_ok_readSize|]. split; [cbn; congruence|].
    split; [|cbn; congruence]. split; cbn; lia.
Qed.

Lemma read_link self : link_ok self -> between self ->
  exists self' st, readToTpktBuffer self = Some (self', st) /\ read_result self self' st.
Proof.
  intros Hl Hb. unfold readToTpktBuffer.
  assert (Hflush : exists s f, (if decide (socketExtensionBufferFill self > 0) then flushBuffer self
      else Some (self, true)) = Some (s, f) /\ link_ok s /\ payload s = payload self /\
      readBuffer s = readBuffer self /\ packetSize s = packetSize self).
  { case_decide; [|by eexists _, _].
    destruct (flushBuffer_spec self (l_ext _ Hl)) as (s & f & E & Hio & He & Hw & _). exists s, f.
    destruct (io_only_parameters _ _ Hio) as ((Ep & _) & Er & Eps & _).
    destruct (l_write _ Hl) as (wb & Hwb & Hwf & Hm). split; [done|]. split; [|done].
    apply (link_ok_write self s wb); try done; [congruence|].
    rewrite (flushBuffer_incoming _ _ _ E). apply Hl. }
  destruct Hflush as (s & f & -> & Hls & Ep & Er & Eps). cbn [mbind option_bind].
  destruct f; cbn [negb];
    [|eexists _, _; split; [reflexivity|by eapply read_result_payload; [exact Ep|apply read_result_error]]].
  assert (Hbs : between s) by (unfold between; by rewrite Er, Eps). rewrite <- Er.
  case_decide as Hfill.
  { eexists _, _. split; [reflexivity|]. split; [by apply link_ok_readSize|]. split; [cbn; congruence|]. exact Hbs. }
  assert (Hf0 : socketExtensionBufferFill s = 0).
  { pose proof (l_ext _ Hls) as He. unfold ext_wf in He. destruct (socketExtensionBuffer s); lia. }
  pose proof (l_read _ Hls) as [R1 R2].
  case_decide.
  - assert (Hsz : 0 <= size (readBuffer s)) by (destruct Hbs; lia).
    destruct (readFromSocket_link s (size (readBuffer s)) (4 - size (readBuffer s)))
      as (s2 & k & -> & Hl2 & Hk & E1 & E2 & E3 & E4 & E5); [done|lia..|]. cbn [mbind option_bind].
    case_decide; [eexists _, _; split; [reflexivity|]; eapply read_result_payload; [|by apply read_result_error]; congruence|].
    pose proof (l_conn _ Hl2) as (_ & Hb2 & _). pose proof (l_read _ Hl2) as [R3 R4].
    case_decide.
    + destruct (rd_ok (buffer (readBuffer s2)) 0 Hb2) as (b0 & -> & _); [lia|].
      destruct (rd_ok (buffer (readBuffer s2)) 1 Hb2) as (b1 & -> & _); [lia|].
      destruct (rd_ok (buffer (readBuffer s2)) 2 Hb2) as (b2 & -> & _); [lia|].
      destruct (rd_ok (buffer (readBuffer s2)) 3 Hb2) as (b3 & -> & _); [lia|]. cbn [mbind option_bind].
      assert (Hv : exists v, (if decide (b0 = 3) then Some (bool_decide (b1 = 0)) else Some false) = Some v)
        by (case_decide; eauto). destruct Hv as [v ->]. cbn [mbind option_bind].
      assert (Hl3 : forall n, link_ok (set_packetSize n s2)).
      { intros n. destruct Hl2 as [G1 G2 G3 G4 G5 G6 G7 G8 G9]. by constructor. }
      destruct v; [|eexists _, _; split; [reflexivity|]; eapply read_result_payload; [|by apply read_result_error]; congruence].
      case_decide as Hbig.
      { eexists _, _. split; [reflexivity|]. eapply read_result_payload; [|by apply read_result_error]. cbn. congruence. }
      destruct (readPacketBody_link (set_packetSize (u16 (b2 * 256 + b3)) s2) (size (readBuffer s) + k))
        as (s4 & st & -> & H4); [done|cbn; congruence|lia|cbn in *; congruence || lia|].
      eexists _, _. split; [done|]. eapply read_result_payload; [|exact H4]. cbn. congruence.
    + eexists _, _. split; [reflexivity|]. split; [by apply link_ok_readSize|]. split; [cbn; congruence|].
      left. cbn. lia.
  - destruct (readPacketBody_link s (size (readBuffer s))) as (s4 & st & -> & H4);
      [done|done|lia|destruct Hbs; lia|].
    eexists _, _. split; [done|]. eapply read_result_payload; [|exact H4]. congruence.
Qed.

End CotpLink.
