(* ===== verification/IsoConnection.v ===== *)
(** * The server side of a connection

    [src/mms/iso_server/iso_connection.c]: what the server does with the packets of one
    client.  It composes the layers: TPKT and COTP (file Cotp), session, presentation,
    ACSE, and the handler of the MMS server, which is a parameter.  All parts of an
    answer lie in the send buffer, each one behind the parts it is put in front of. *)

From S2P Require Import Prelude BerEncoder ByteBuf Cotp Session Presentation Acse CotpLink.

Module IsoConnection.
Import ByteBuf.
Import BerEncoder(enc_tlv).
Import (hints) Acse Cotp.

Definition CONFIG_MMS_MAXIMUM_PDU_SIZE : Z := 65000.
Definition RECEIVE_BUF_SIZE : Z := CONFIG_MMS_MAXIMUM_PDU_SIZE + 100.
Definition SEND_BUF_SIZE : Z := CONFIG_MMS_MAXIMUM_PDU_SIZE + 100.

Inductive IsoConState := ISO_CON_STATE_STOPPED | ISO_CON_STATE_RUNNING | ISO_CON_STATE_TERMINATED.

#[export] Instance IsoConState_eq_dec : EqDecision IsoConState.
Proof. solve_decision. Defined.

(** The handlers of the MMS server work on its state [App], the [handlerParameter]: the
    one for messages gets a request and the buffer of the response. *)
Section connection.
Context {App : Type}.

Definition MessageReceivedHandler := App -> ByteBuffer -> ByteBuffer -> option (App * ByteBuffer).
Definition UserLayerTickHandler := App -> App.

(** The receive buffer is the payload buffer of the COTP connection. *)
Record IsoConnection := mkIso {
  state : IsoConState;
  session : Session.IsoSession;
  presentation : Presentation.IsoPresentation;
  acseConnection : Acse.AcseConnection;
  cotpConnection : Cotp.CotpConnection;
  sendBuffer : list Z;
  msgRcvdHandler : option MessageReceivedHandler;
  tickHandler : option UserLayerTickHandler;
  handlerParameter : App
}.

Definition set_state (x : IsoConState) (self : IsoConnection) : IsoConnection :=
  mkIso x (session self) (presentation self) (acseConnection self) (cotpConnection self)
    (sendBuffer self) (msgRcvdHandler self) (tickHandler self) (handlerParameter self).
Definition set_session (x : Session.IsoSession) (self : IsoConnection) : IsoConnection :=
  mkIso (state self) x (presentation self) (acseConnection self) (cotpConnection self)
    (sendBuffer self) (msgRcvdHandler self) (tickHandler self) (handlerParameter self).
Definition set_presentation (x : Presentation.IsoPresentation) (self : IsoConnection) : IsoConnection :=
  mkIso (state self) (session self) x (acseConnection self) (cotpConnection self)
    (sendBuffer self) (msgRcvdHandler self) (tickHandler self) (handlerParameter self).
Definition set_acse (x : Acse.AcseConnection) (self : IsoConnection) : IsoConnection :=
  mkIso (state self) (session self) (presentation self) x (cotpConnection self)
    (sendBuffer self) (msgRcvdHandler self) (tickHandler self) (handlerParameter self).
Definition set_cotp (x : Cotp.CotpConnection) (self : IsoConnection) : IsoConnection :=
  mkIso (state self) (session self) (presentation self) (acseConnection self) x
    (sendBuffer self) (msgRcvdHandler self) (tickHandler self) (handlerParameter self).
Definition set_sendBuffer (x : list Z) (self : IsoConnection) : IsoConnection :=
  mkIso (state self) (session self) (presentation self) (acseConnection self) (cotpConnection self)
    x (msgRcvdHandler self) (tickHandler self) (handlerParameter self).
Definition set_app (x : App) (self : IsoConnection) : IsoConnection :=
  mkIso (state self) (session self) (presentation self) (acseConnection self) (cotpConnection self)
    (sendBuffer self) (msgRcvdHandler self) (tickHandler self) x.

Definition IsoConnection_installListener (rcvdHandler : option MessageReceivedHandler)
    (tick : option UserLayerTickHandler) (parameter : App) (self : IsoConnection) : IsoConnection :=
  mkIso (state self) (session self) (presentation self) (acseConnection self) (cotpConnection self)
    (sendBuffer self) rcvdHandler tick parameter.

Definition IsoConnection_getState (self : IsoConnection) : IsoConState := state self.
Definition IsoConnection_isRunning (self : IsoConnection) : bool :=
  bool_decide (state self = ISO_CON_STATE_RUNNING).
Definition IsoConnection_getSecurityToken (self : IsoConnection) : option Z :=
  Acse.securityToken (acseConnection self).

(** All allocations succeed: only that of the connection itself is checked. *)
Definition IsoConnection_create (socket : Cotp.Socket) (authenticator : option Acse.AcseAuthenticator)
    (parameter : App) : option IsoConnection :=
  let receiveBuffer := replicate (Z.to_nat RECEIVE_BUF_SIZE) 0 in
  let sendBuffer := replicate (Z.to_nat SEND_BUF_SIZE) 0 in
  let cotpSize := Cotp.COTP_MAX_TPDU_SIZE + Cotp.TPKT_RFC1006_HEADER_SIZE in
  let cotpBuf := replicate (Z.to_nat cotpSize) 0 in
  let extensionSize := CONFIG_MMS_MAXIMUM_PDU_SIZE + 1000 in
  cotp ← Cotp.init socket (ByteBuffer_wrap receiveBuffer 0 RECEIVE_BUF_SIZE)
           (ByteBuffer_wrap cotpBuf 0 cotpSize) (Some (ByteBuffer_wrap cotpBuf 0 cotpSize))
           (Some (replicate (Z.to_nat extensionSize) 0)) extensionSize;
  let noSelector := {| Presentation.size := 0; Presentation.value := replicate 16 0 |} in
  Some (mkIso ISO_CON_STATE_RUNNING Session.init
          (Presentation.mkPresentation noSelector noSelector 0 0 0 (ByteBuffer_wrap [] 0 0))
          (Acse.init authenticator None) cotp sendBuffer None None parameter).

(** ** Answers *)

(** The handler writes the response to the start of the send buffer. *)
Definition callHandler (self : IsoConnection) (request : ByteBuffer)
    : option (IsoConnection * ByteBuffer) :=
  let response := ByteBuffer_wrap (sendBuffer self) 0 SEND_BUF_SIZE in
  match msgRcvdHandler self with
  | Some handle =>
      '(app, response) ← handle (handlerParameter self) request response;
      Some (set_sendBuffer (buffer response) (set_app app self), response)
  | None => Some (self, response)
  end.

(** [mmsBufferPart] *)
Definition mmsPart (self : IsoConnection) (response : ByteBuffer) : BufferChain :=
  BufferChain_init (size response) (size response) ChainNull (sendBuffer self).

(** The part [create] makes lies at [sendBuffer + offset]. *)
Definition addPart (offset : Z) (create : Z -> list Z -> BufferChain -> option BufferChain)
    (self : IsoConnection) (payload : BufferChain) : option (IsoConnection * BufferChain) :=
  part ← create (SEND_BUF_SIZE - offset) (from (sendBuffer self) offset) payload;
  Some (set_sendBuffer (take (Z.to_nat offset) (sendBuffer self) ++ part_memory part) self, part).

Definition sendPart (self : IsoConnection) (part : BufferChain)
    : option (IsoConnection * Cotp.CotpIndication) :=
  '(cotp, indication) ← Cotp.sendDataMessage (cotpConnection self) part;
  Some (set_cotp cotp self, indication).

(** The answer to an association request that was accepted. *)
Definition answerAssociate (self : IsoConnection) : option IsoConnection :=
  let acse := acseConnection self in
  let mmsRequest := ByteBuffer_wrap (default [] (Acse.userDataBuffer acse))
    (Acse.userDataBufferSize acse) (Acse.userDataBufferSize acse) in
  '(self, mmsResponseBuffer) ← callHandler self mmsRequest;
  let mmsBufferPart := mmsPart self mmsResponseBuffer in
  if decide (size mmsResponseBuffer > 0) then
    offset ← chain_length mmsBufferPart;
    '(self, acsePart) ←
      addPart offset (Acse.createAssociateResponseMessage (acseConnection self) 0) self mmsBufferPart;
    offset ← chain_length acsePart;
    '(self, presentationPart) ←
      addPart offset (Presentation.createCpaMessage (presentation self)) self acsePart;
    offset ← chain_length presentationPart;
    '(self, sessionPart) ← addPart offset (Session.createAcceptSpdu (session self)) self presentationPart;
    fst <$> sendPart self sessionPart
  else Some self.

(** The answer to an MMS message; the lengths of the session part are those of
    [createDataSpdu]. *)
Definition answerData (self : IsoConnection) : option IsoConnection :=
  '(self, mmsResponseBuffer) ← callHandler self (Presentation.nextPayload (presentation self));
  if decide (size mmsResponseBuffer > 0) then
    let mmsBufferPart := mmsPart self mmsResponseBuffer in
    offset ← chain_length mmsBufferPart;
    '(self, presentationPart) ←
      addPart offset (Presentation.createUserData (presentation self)) self mmsBufferPart;
    offset ← chain_length presentationPart;
    sessionPart ← Session.createDataSpdu (SEND_BUF_SIZE - offset) presentationPart;
    fst <$> sendPart self sessionPart
  else Some self.

(** The answer to a release request. *)
Definition answerFinish (self : IsoConnection) : option IsoConnection :=
  '(self, acsePart) ←
    addPart 0 (fun partMaxLength buffer _ => Acse.createReleaseResponseMessage partMaxLength buffer)
      self ChainNull;
  offset ← chain_length acsePart;
  '(self, presentationPart) ←
    addPart offset (Presentation.createUserDataACSE (presentation self)) self acsePart;
  offset ← chain_length presentationPart;
  '(self, sessionPart) ← addPart offset Session.createDisconnectSpdu self presentationPart;
  fst <$> sendPart self sessionPart.

(** ** The session indications *)

Definition processConnect (self : IsoConnection) : option IsoConnection :=
  '(p, ok) ← Presentation.parseConnect (presentation self) (Session.userData (session self));
  let self := set_presentation p self in
  if decide (ok <> 0) then
    '(acse, aIndication) ← Acse.parseMessage (acseConnection self) (Some (Presentation.nextPayload p));
    let self := set_acse acse self in
    if decide (aIndication = Acse.ACSE_ASSOCIATE) then answerAssociate self
    else Some (set_state ISO_CON_STATE_STOPPED self)
  else Some (set_state ISO_CON_STATE_STOPPED self).

Definition processData (self : IsoConnection) : option IsoConnection :=
  '(p, ok) ← Presentation.parseUserData (presentation self) (Session.userData (session self));
  let self := set_presentation p self in
  if decide (ok = 0) then Some (set_state ISO_CON_STATE_STOPPED self)
  else if decide (Presentation.nextContextId p = Presentation.mmsContextId p) then answerData self
  else Some self.

Definition processFinish (self : IsoConnection) : option IsoConnection :=
  '(p, ok) ← Presentation.parseUserData (presentation self) (Session.userData (session self));
  let self := set_presentation p self in
  self ← (if decide (ok <> 0) then answerFinish self else Some self);
  Some (set_state ISO_CON_STATE_STOPPED self).

(** The case of [COTP_DATA_INDICATION]. *)
Definition processMessage (self : IsoConnection) : option IsoConnection :=
  '(s, sIndication) ← Session.parseMessage (session self) (Cotp.payload (cotpConnection self));
  let self := set_session s self in
  self ←
    match sIndication with
    | Session.SESSION_CONNECT => processConnect self
    | Session.SESSION_DATA => processData self
    | Session.SESSION_FINISH => processFinish self
    | _ => Some (set_state ISO_CON_STATE_STOPPED self)
    end;
  Some (set_cotp (Cotp.resetPayload (cotpConnection self)) self).

(** ** The connection handler *)

Definition IsoConnection_callTickHandler (self : IsoConnection) : option IsoConnection :=
  cotp ← Cotp.CotpConnection_flushBuffer (cotpConnection self);
  let self := set_cotp cotp self in
  Some (match tickHandler self with
        | Some tick => set_app (tick (handlerParameter self)) self
        | None => self
        end).

(** The transport layer: the indication of the packet that is complete, if one is. *)
Definition receivePacket (self : IsoConnection) : option (IsoConnection * option Cotp.CotpIndication) :=
  '(cotp, tpktState) ← Cotp.readToTpktBuffer (cotpConnection self);
  let self := set_cotp cotp self in
  match tpktState with
  | Cotp.TPKT_ERROR => Some (set_state ISO_CON_STATE_STOPPED self, None)
  | Cotp.TPKT_WAITING => Some (self, None)
  | Cotp.TPKT_PACKET_COMPLETE =>
      '(cotp, cotpIndication) ← Cotp.parseIncomingMessage cotp;
      Some (set_cotp cotp self, Some cotpIndication)
  end.

Definition processIndication (self : IsoConnection) (cotpIndication : option Cotp.CotpIndication)
    : option IsoConnection :=
  match cotpIndication with
  | None | Some Cotp.COTP_MORE_FRAGMENTS_FOLLOW => Some self
  | Some Cotp.COTP_CONNECT_INDICATION =>
      '(cotp, _) ← Cotp.sendConnectionResponseMessage true true (cotpConnection self);
      Some (set_cotp cotp self)
  | Some Cotp.COTP_DATA_INDICATION => processMessage self
  | Some _ => Some (set_state ISO_CON_STATE_STOPPED self)
  end.

Definition receive (self : IsoConnection) : option IsoConnection :=
  '(self, cotpIndication) ← receivePacket self;
  processIndication self cotpIndication.

(** [ready] is the result of waiting for the socket. *)
Definition IsoConnection_handleTcpConnection (ready : Z) (isSingleThread : bool) (self : IsoConnection)
    : option IsoConnection :=
  if isSingleThread then receive self
  else
    self ← IsoConnection_callTickHandler self;
    if decide (ready < 1) then Some self else receive self.

(** The loop of the connection thread, for the results of waiting [readies]. *)
Fixpoint handleTcpConnection (readies : list Z) (self : IsoConnection) : option IsoConnection :=
  match readies with
  | [] => Some self
  | ready :: readies =>
      if decide (state self = ISO_CON_STATE_RUNNING) then
        self ← IsoConnection_handleTcpConnection ready false self;
        handleTcpConnection readies self
      else Some (set_state ISO_CON_STATE_TERMINATED self)
  end.

(** An unsolicited message; the memory of its session part is that of the data SPDU. *)
Definition IsoConnection_sendMessage (message : ByteBuffer) (self : IsoConnection)
    : option (IsoConnection * bool) :=
  if decide (state self = ISO_CON_STATE_STOPPED) then Some (self, false)
  else
    let payload := Chain (size message) (size message) (size message) (buffer message) ChainNull in
    '(self, presentationPart) ←
      addPart 0 (Presentation.createUserData (presentation self)) self payload;
    sessionPart ← Session.createDataSpdu 0 presentationPart;
    '(self, indication) ← sendPart self sessionPart;
    Some (self, bool_decide (indication = Cotp.COTP_OK)).

(** The thread of the connection, or the caller when there is none, frees the connection
    once it is stopped. *)
Definition IsoConnection_close (self : IsoConnection) : IsoConnection :=
  if decide (state self = ISO_CON_STATE_TERMINATED) then self
  else set_state ISO_CON_STATE_TERMINATED (set_state ISO_CON_STATE_STOPPED self).

End connection.

(** ** The interface to the MMS server *)

(** The longest response that leaves room in the send buffer for all layers. *)
Definition MAX_RESPONSE : Z := 64800.

(** What the connection relies on: in a good state the handlers end in one, and a response
    stays in its buffer. *)
Class HandlerOk {App : Type} (good : App -> Prop) (handle : App -> ByteBuffer -> ByteBuffer -> option (App * ByteBuffer)) : Prop :=
  handler_ok app request response : good app -> readable request -> wf response ->
    exists app' response', handle app request response = Some (app', response') /\ good app' /\
      wf response' /\ maxSize response' = maxSize response /\ size response' <= MAX_RESPONSE.

Class TickOk {App : Type} (good : App -> Prop) (tick : App -> App) : Prop :=
  tick_ok app : good app -> good (tick app).

(** ** The invariant *)

Section invariant.
Context {App : Type} (good : App -> Prop).

Record server_ok (self : IsoConnection (App := App)) : Prop := {
  s_link : CotpLink.link_ok (cotpConnection self);
  s_between : CotpLink.between (cotpConnection self);
  s_payload : maxSize (Cotp.payload (cotpConnection self)) = RECEIVE_BUF_SIZE;
  s_session : Session.session_wf (session self);
  s_presentation : Presentation.safe_state (presentation self);
  s_acse : Acse.data_safe (acseConnection self);
  s_memory : wf_buf (sendBuffer self) SEND_BUF_SIZE;
  s_handler : match msgRcvdHandler self with Some handle => HandlerOk good handle | None => True end;
  s_tick : match tickHandler self with Some tick => TickOk good tick | None => True end;
  s_app : good (handlerParameter self);
}.

(** An operation that ends in a connection that satisfies the invariant. *)
Definition ends (res : option (IsoConnection (App := App))) : Prop :=
  exists self', res = Some self' /\ server_ok self'.

Lemma ends_ret self : server_ok self -> ends (Some self).
Proof. intros H. by exists self. Qed.

Lemma set_state_ok x self : server_ok self -> server_ok (set_state x self).
Proof. intros []. by constructor. Qed.

Lemma set_sendBuffer_ok b self : server_ok self -> wf_buf b SEND_BUF_SIZE -> server_ok (set_sendBuffer b self).
Proof. intros [] H. by constructor. Qed.

Lemma set_session_ok s self : server_ok self -> Session.session_wf s -> server_ok (set_session s self).
Proof. intros [] H. by constructor. Qed.

Lemma set_presentation_ok p self : server_ok self -> Presentation.safe_state p -> server_ok (set_presentation p self).
Proof. intros [] H. by constructor. Qed.

Lemma set_acse_ok a self : server_ok self -> Acse.data_safe a -> server_ok (set_acse a self).
Proof. intros [] H. by constructor. Qed.

Lemma set_cotp_ok c self : server_ok self -> CotpLink.link_ok c -> CotpLink.between c ->
  maxSize (Cotp.payload c) = RECEIVE_BUF_SIZE -> server_ok (set_cotp c self).
Proof. intros [] H1 H2 H3. by constructor. Qed.

(** A write-only operation of the transport layer. *)
Lemma set_cotp_io_ok c self : server_ok self -> CotpLink.link_ok c ->
  Cotp.io_only (cotpConnection self) c -> server_ok (set_cotp c self).
Proof.
  intros Hs Hl ((Ep & _) & Er & Eps & _)%CotpLink.io_only_parameters. apply set_cotp_ok; [done|done| |].
  - unfold CotpLink.between. rewrite Er, Eps. apply Hs.
  - rewrite Ep. apply Hs.
Qed.

(** ** Sending *)

Lemma sendPart_ok self part : server_ok self -> chain_wf part -> part <> ChainNull ->
  exists self' indication, sendPart self part = Some (self', indication) /\ server_ok self' /\
    (indication = Cotp.COTP_OK \/ indication = Cotp.COTP_ERROR).
Proof.
  intros Hs Hc Hn. destruct (CotpLink.send_data_link (cotpConnection self) part (s_link _ Hs) Hn Hc)
    as (c & r & E & Hl & Hio & _ & Hr & _).
  unfold sendPart. rewrite E. cbn [mbind option_bind]. eexists _, _. split; [done|].
  split; [by apply set_cotp_io_ok|done].
Qed.

(** The memory of a part is the rest of the send buffer. *)
Lemma addPart_ok offset create self payload part : server_ok self -> 0 <= offset <= SEND_BUF_SIZE ->
  create (SEND_BUF_SIZE - offset) (from (sendBuffer self) offset) payload = Some part ->
  part_ok (from (sendBuffer self) offset) part ->
  exists b, addPart offset create self payload = Some (set_sendBuffer b self, part) /\
    server_ok (set_sendBuffer b self).
Proof.
  intros Hs Ho E [Hw Hn Hl].
  assert (Hb : is_bytes (part_memory part)) by (destruct part; [done|apply Hw]). unfold addPart. rewrite E. cbn [mbind option_bind]. eexists. split; [reflexivity|].
  apply set_sendBuffer_ok; [done|]. destruct (s_memory _ Hs) as [Hm Hml]. split.
  - apply Forall_app_2; [by apply Forall_take|done].
  - rewrite length_app, length_take. rewrite from_length in Hl by lia. lia.
Qed.

(** The payload behind which a part is made. *)
Lemma sendable_rest self payload room offset : server_ok self -> chain_wf payload -> payload <> ChainNull ->
  zlen (chain_bytes payload) < 65000 -> 0 <= offset -> offset + room <= SEND_BUF_SIZE -> 0 <= room ->
  sendable room (from (sendBuffer self) offset) payload.
Proof.
  intros Hs Hc Hn Hl Ho Hr Hr0. destruct (s_memory _ Hs) as [Hm Hml]. constructor; try done.
  - by apply from_bytes.
  - rewrite from_length; lia.
Qed.

(** *** Calling the handler *)

Lemma callHandler_ok self request : server_ok self -> readable request ->
  exists self' response, callHandler self request = Some (self', response) /\ server_ok self' /\
    0 <= size response <= MAX_RESPONSE /\
    (0 < size response -> chain_wf (mmsPart self' response) /\
       chain_length (mmsPart self' response) = Some (zlen (chain_bytes (mmsPart self' response))) /\
       zlen (chain_bytes (mmsPart self' response)) = size response).
Proof.
  intros Hs Hr. unfold callHandler. pose proof (s_memory _ Hs) as [Hm Hml].
  pose proof (s_handler _ Hs) as Hh. destruct (msgRcvdHandler self) as [handle|].
  2: { eexists _, _. split; [done|]. split; [done|]. cbn. split; [done|lia]. }
  destruct (Hh (handlerParameter self) request (ByteBuffer_wrap (sendBuffer self) 0 SEND_BUF_SIZE))
    as (app & response & -> & Ha & (Hb & Hsz & Hl) & Hmax & Hle); [apply Hs|done|done|].
  cbn [mbind option_bind]. eexists _, _. split; [done|]. cbn in Hmax. split.
  - apply set_sendBuffer_ok; [|split; [done|lia]]. destruct Hs. by constructor.
  - split; [lia|]. intros Hpos. cbn. rewrite app_nil_r, length_take.
    split_and!; try done; try lia. f_equal. lia.
Qed.

(** *** The answers *)

Lemma layer_ok offset create self payload xs : server_ok self -> 0 <= offset <= SEND_BUF_SIZE ->
  (exists part, create (SEND_BUF_SIZE - offset) (from (sendBuffer self) offset) payload = Some part /\
    part_ok (from (sendBuffer self) offset) part /\ chain_bytes part = xs) ->
  exists b part, addPart offset create self payload = Some (set_sendBuffer b self, part) /\
    server_ok (set_sendBuffer b self) /\ chain_wf part /\ part <> ChainNull /\
    chain_bytes part = xs /\ chain_length part = Some (zlen xs).
Proof.
  intros Hs Ho (part & E & Hp & Eb). destruct (addPart_ok offset create self payload part Hs Ho E Hp) as (b & Ea & Hs').
  destruct Hp as [Hw Hn _]. destruct (chain_length_Some part Hw Hn) as [El _]. rewrite Eb in El.
  exists b, part. by split_and!.
Qed.

Lemma accept_layer_ok offset self payload : server_ok self -> chain_wf payload -> payload <> ChainNull ->
  0 <= offset -> offset + 34 <= SEND_BUF_SIZE ->
  exists b part, addPart offset (Session.createAcceptSpdu (session self)) self payload = Some (set_sendBuffer b self, part) /\
    server_ok (set_sendBuffer b self) /\ chain_wf part /\ part <> ChainNull.
Proof.
  intros Hs Hw Hn Ho Hroom. pose proof (s_session _ Hs) as Hss. pose proof (s_memory _ Hs) as [Hb Hl].
  destruct (Session.createAcceptSpdu_spec (session self) (SEND_BUF_SIZE - offset) (from (sendBuffer self) offset) payload
    Hss Hw Hn) as (c & Ec & Hp & Eb).
  { rewrite Session.accept_parameters_length by apply Hss. destruct Hss as (_ & (_ & _ & ?) & _).
    rewrite from_length; lia. }
  destruct (layer_ok offset (Session.createAcceptSpdu (session self)) self payload (chain_bytes c))
    as (b & part & E & H & W & N & _ & _); [done|lia| |by exists b, part].
  exists c. split; [done|]. split; [|done]. by apply Hp, from_bytes.
Qed.

(** A payload with room for the header of the presentation layer behind it. *)
Lemma data_layer_ok create ctx offset self payload :
  (forall pm buf c, create pm buf c = Presentation.createPart pm buf c (Presentation.userDataPdu ctx)) ->
  server_ok self -> is_u8 ctx -> chain_wf payload -> payload <> ChainNull ->
  zlen (chain_bytes payload) < 65000 -> 0 <= offset -> offset + 130 <= SEND_BUF_SIZE ->
  exists b part, addPart offset create self payload = Some (set_sendBuffer b self, part) /\
    server_ok (set_sendBuffer b self) /\ chain_wf part /\ part <> ChainNull /\
    chain_length part = Some (zlen (chain_bytes part)) /\
    chain_bytes part = Presentation.user_data ctx (chain_bytes payload) /\
    0 <= zlen (chain_bytes part) <= zlen (chain_bytes payload) + 18.
Proof.
  intros Hcr Hs Hc Hw Hn Hl Ho Hroom.
  destruct (Presentation.user_data_length ctx (chain_bytes payload) Hl) as (_ & _ & E1 & E2).
  edestruct (layer_ok offset create self payload) as (b & part & E & H & W & N & Eb & El); [done|lia| |].
  { rewrite Hcr. apply Presentation.createData_spec; [done|]. apply sendable_rest; (done || lia). }
  exists b, part. rewrite Eb. split_and!; (done || lia).
Qed.

Ltac buffer_room := unfold MAX_RESPONSE, SEND_BUF_SIZE, CONFIG_MMS_MAXIMUM_PDU_SIZE in *; lia.

Lemma answerAssociate_ok self : server_ok self -> ends (answerAssociate self).
Proof.
  intros Hs. unfold answerAssociate. pose proof (s_acse _ Hs) as Ha.
  set (request := ByteBuffer_wrap _ _ _).
  assert (Hr : readable request).
  { unfold Acse.data_safe in Ha. unfold request, readable. cbn. destruct (Acse.userDataBuffer _); cbn; [done|].
    rewrite Ha. split; [constructor|done]. }
  destruct (callHandler_ok self request Hs Hr) as (s1 & response & -> & H1 & Hsz & Hm). cbn [mbind option_bind].
  case_decide as Hpos; [|by apply ends_ret]. destruct (Hm ltac:(lia)) as (Hw & -> & En).
  cbn [mbind option_bind].
  set (n := zlen (chain_bytes (mmsPart s1 response))) in *.
  set (reference := BerEncoder.enc_uint32 (u32 (Acse.nextReference (acseConnection s1)))).
  pose proof (BerEncoder.enc_uint32_size (u32 (Acse.nextReference (acseConnection s1)))) as Hrs. fold reference in Hrs.
  pose proof (Acse.aare_length 0 reference (chain_bytes (mmsPart s1 response)) ltac:(lia) ltac:(buffer_room)) as L1.
  destruct (layer_ok n (Acse.createAssociateResponseMessage (acseConnection s1) 0) s1 (mmsPart s1 response)
    (Acse.aare 0 reference (chain_bytes (mmsPart s1 response)))) as (b1 & p1 & -> & H2 & W1 & N1 & E1 & Ln1);
    [done|buffer_room| |].
  { apply Acse.createAssociateResponse_spec; [done| |buffer_room]. fold reference.
    apply sendable_rest; try done; buffer_room. }
  cbn [mbind option_bind]. rewrite Ln1. cbn [mbind option_bind]. set (aare := Acse.aare _ _ _) in *.
  pose proof (Presentation.accept_lengths (presentation s1) aare ltac:(buffer_room)) as L2.
  destruct (Presentation.cpaLengths _) as [? ?]. destruct L2 as (_ & _ & L2).
  set (s2 := set_sendBuffer b1 s1) in *. change (presentation s2) with (presentation s1).
  pose proof (Presentation.accept_length_ge (presentation s1) aare) as G2.
  set (cpa := Presentation.cp_pdu _) in *.
  destruct (layer_ok (zlen aare) (Presentation.createCpaMessage (presentation s1)) s2 p1 cpa)
    as (b2 & p2 & -> & H3 & W2 & N2 & E2 & Ln2); [done|buffer_room| |].
  { unfold cpa. rewrite <- E1. apply Presentation.createCpaMessage_spec; [apply (s_presentation _ H1)|].
    apply sendable_rest; try done; rewrite ?E1; buffer_room. }
  cbn [mbind option_bind]. rewrite Ln2. cbn [mbind option_bind]. set (s3 := set_sendBuffer b2 s2) in *. change (session s3) with (session s1).
  destruct (accept_layer_ok (zlen cpa) s3 p2) as (b3 & p3 & E3 & H4 & W3 & N3); [done|done|done|lia|buffer_room|].
  change (session s3) with (session s1) in E3. rewrite E3.
  cbn [mbind option_bind]. destruct (sendPart_ok (set_sendBuffer b3 s3) p3 H4 W3 N3) as (s4 & ind & -> & H5 & _).
  by apply ends_ret.
Qed.

Lemma answerData_ok self : server_ok self -> ends (answerData self).
Proof.
  intros Hs. unfold answerData.
  destruct (callHandler_ok self (Presentation.nextPayload (presentation self)) Hs) as (s1 & response & -> & H1 & Hsz & Hm);
    [apply (s_presentation _ Hs)|]. cbn [mbind option_bind].
  case_decide as Hpos; [|by apply ends_ret]. destruct (Hm ltac:(lia)) as (Hw & -> & En). cbn [mbind option_bind].
  destruct (data_layer_ok (Presentation.createUserData (presentation s1)) (Presentation.mmsContextId (presentation s1)) (zlen (chain_bytes (mmsPart s1 response)))
    s1 (mmsPart s1 response)) as (b & part & E & H2 & W & N & El & _); try done; [apply (s_presentation _ H1)|buffer_room..|].
  rewrite E. cbn [mbind option_bind]. rewrite El. cbn [mbind option_bind].
  destruct (Session.createDataSpdu_spec (SEND_BUF_SIZE - zlen (chain_bytes part)) part W N) as (c & -> & Wc & Nc & _).
  cbn [mbind option_bind]. destruct (sendPart_ok (set_sendBuffer b s1) c H2 Wc Nc) as (s3 & ind & -> & H3 & _).
  by apply ends_ret.
Qed.

Lemma answerFinish_ok self : server_ok self -> ends (answerFinish self).
Proof.
  intros Hs. unfold answerFinish. pose proof (s_memory _ Hs) as [Hb Hl].
  destruct (Acse.createFixedMessage_spec (SEND_BUF_SIZE - 0) (enc_tlv 0x63 []) (from (sendBuffer self) 0))
    as (c & Ec & Hp & Eb); [const_bytes|by apply from_bytes|rewrite from_length; [change (zlen (enc_tlv 0x63 [])) with 2|]; buffer_room|].
  destruct (layer_ok 0 (fun pm buf _ => Acse.createReleaseResponseMessage pm buf) self ChainNull (enc_tlv 0x63 []))
    as (b1 & p1 & -> & H1 & W1 & N1 & E1 & L1); [done|buffer_room|by exists c|].
  cbn [mbind option_bind]. rewrite L1. cbn [mbind option_bind].
  set (s1 := set_sendBuffer b1 self) in *.
  destruct (data_layer_ok (Presentation.createUserDataACSE (presentation s1)) (Presentation.acseContextId (presentation s1)) (zlen (enc_tlv 0x63 []))
    s1 p1) as (b2 & p2 & E & H2 & W2 & N2 & L2 & _ & Hle); try done;
    [apply (s_presentation _ H1)|rewrite ?E1; change (zlen (enc_tlv 0x63 [])) with 2; buffer_room..|].
  rewrite E. cbn [mbind option_bind]. rewrite L2. cbn [mbind option_bind].
  rewrite E1 in Hle. change (zlen (enc_tlv 0x63 [])) with 2 in Hle.
  set (s2 := set_sendBuffer b2 _) in *. pose proof (s_memory _ H2) as [Hb2 Hl2].
  destruct (Session.createDisconnectSpdu_spec (SEND_BUF_SIZE - zlen (chain_bytes p2))
    (from (sendBuffer s2) (zlen (chain_bytes p2))) p2 W2 N2) as (d & Ed & Hd & Ebd);
    [by apply from_bytes|rewrite from_length; buffer_room|].
  destruct (layer_ok (zlen (chain_bytes p2)) Session.createDisconnectSpdu s2 p2 (chain_bytes d))
    as (b3 & p3 & -> & H3 & W3 & N3 & _); [done|buffer_room|by exists d|].
  cbn [mbind option_bind]. destruct (sendPart_ok _ p3 H3 W3 N3) as (s4 & ind & -> & H4 & _). by apply ends_ret.
Qed.

(** ** Receiving *)

Lemma ends_bind self f : ends self -> (forall s, server_ok s -> ends (f s)) -> ends (self ≫= f).
Proof. intros (s & -> & Hs) Hf. by apply Hf. Qed.

Lemma ends_stop self : server_ok self -> ends (Some (set_state ISO_CON_STATE_STOPPED self)).
Proof. intros H. by apply ends_ret, set_state_ok. Qed.

Lemma processConnect_ok self : server_ok self -> readable (Session.userData (session self)) ->
  ends (processConnect self).
Proof.
  intros Hs Hr. unfold processConnect, Presentation.parseConnect.
  destruct (Presentation.parseCp_safe true (presentation self) _ (s_presentation _ Hs) Hr) as (p & ok & -> & Hp & _).
  cbn [mbind option_bind]. pose proof (set_presentation_ok p self Hs Hp) as H1.
  case_decide; [|by apply ends_stop].
  destruct (Acse.acse_parseMessage_total (acseConnection self) (Presentation.nextPayload p)) as (a & ind & E & Ha & _);
    [apply Hs|apply Hp|].
  change (acseConnection (set_presentation p self)) with (acseConnection self). rewrite E. cbn [mbind option_bind].
  pose proof (set_acse_ok a _ H1 Ha). case_decide; [by apply answerAssociate_ok|by apply ends_stop].
Qed.

Lemma processData_ok self : server_ok self -> readable (Session.userData (session self)) ->
  size (Session.userData (session self)) < zlen (buffer (Session.userData (session self))) -> ends (processData self).
Proof.
  intros Hs Hr Hx. unfold processData.
  destruct (Presentation.parseUserData_safe (presentation self) _ (s_presentation _ Hs) Hr Hx) as (p & ok & -> & Hp & _).
  cbn [mbind option_bind]. pose proof (set_presentation_ok p self Hs Hp) as H1.
  case_decide; [by apply ends_stop|]. case_decide; [by apply answerData_ok|by apply ends_ret].
Qed.

Lemma processFinish_ok self : server_ok self -> readable (Session.userData (session self)) ->
  size (Session.userData (session self)) < zlen (buffer (Session.userData (session self))) -> ends (processFinish self).
Proof.
  intros Hs Hr Hx. unfold processFinish.
  destruct (Presentation.parseUserData_safe (presentation self) _ (s_presentation _ Hs) Hr Hx) as (p & ok & -> & Hp & _).
  cbn [mbind option_bind]. pose proof (set_presentation_ok p self Hs Hp) as H1.
  apply ends_bind; [|by apply ends_stop]. case_decide; [by apply answerFinish_ok|by apply ends_ret].
Qed.

(** A message that fills the receive buffer. *)
Definition payload_full (self : IsoConnection (App := App)) : Prop :=
  size (Cotp.payload (cotpConnection self)) = maxSize (Cotp.payload (cotpConnection self)).

Lemma resetPayload_ok self : server_ok self -> server_ok (set_cotp (Cotp.resetPayload (cotpConnection self)) self).
Proof.
  intros Hs. apply set_cotp_ok; [done| |apply Hs|apply Hs].
  destruct (s_link _ Hs) as [(C1 & C2 & C3 & C4 & C5) H2 H3 H4 H5 H6 H7 H8 H9]. constructor; try done.
  split; [|done]. destruct C1 as (Hb & Hsz & Hl). split; [done|]. split; [cbn; lia|done].
Qed.

Lemma processMessage_ok self : server_ok self -> ~ payload_full self -> ends (processMessage self).
Proof.
  intros Hs Hf. unfold processMessage. destruct (s_link _ Hs) as [(Hw & _) _ _ _ _ _ _ _ _].
  destruct (Session.parseMessage_total (session self) _ (s_session _ Hs) Hw) as (s & ind & -> & Hss & Hu & _).
  cbn [mbind option_bind]. pose proof (set_session_ok s self Hs Hss) as H1.
  assert (Hud : Session.has_user_data ind -> readable (Session.userData s) /\
    size (Session.userData s) < zlen (buffer (Session.userData s))).
  { intros (off & Ho & Hwu & Hm & Hc)%Hu. split; [by apply wf_readable|]. apply (f_equal (fun xs => zlen xs)) in Hc.
    rewrite content_length, length_drop in Hc by done. pose proof (content_length _ Hw).
    destruct Hwu as (_ & _ & Hl). destruct Hw as (_ & Hsz & _). unfold payload_full in Hf. lia. }
  apply ends_bind; [|intros s' Hs'; by apply ends_ret, resetPayload_ok]. unfold Session.has_user_data in Hud.
  destruct ind; try (by apply ends_stop).
  - apply processConnect_ok; [done|apply Hud; tauto].
  - apply processData_ok; [done|apply Hud; tauto..].
  - apply processFinish_ok; [done|apply Hud; tauto..].
Qed.

(** A packet that completes no message goes unnoticed; one that completes a message leaves
    it in the payload buffer. *)
Lemma receivePacket_ok self : server_ok self ->
  exists self' ind, receivePacket self = Some (self', ind) /\ server_ok self' /\
    (ind = Some Cotp.COTP_CONNECT_INDICATION ->
     Cotp.socketExtensionBufferFill (cotpConnection self') = 0 /\
     is_u16 (Cotp.remoteRef (cotpConnection self')) /\ is_u8 (Cotp.protocolClass (cotpConnection self'))).
Proof.
  intros Hs. unfold receivePacket. pose proof (s_payload _ Hs) as Hp.
  destruct (CotpLink.read_link _ (s_link _ Hs) (s_between _ Hs)) as (c & st & -> & Hl & Em & Hr). cbn [mbind option_bind].
  destruct st.
  - destruct Hr as [Hr Hf0].
    destruct (CotpLink.parse_link c Hl Hr) as (c2 & ind & -> & Hl2 & Hb2 & Hf & Em2 & Hi). cbn [mbind option_bind].
    eexists _, _. split; [done|]. split; [apply (set_cotp_ok c2 self); (done || congruence)|].
    intros [= ->]. destruct (Hi eq_refl). cbn. split_and!; (done || congruence).
  - eexists _, _. split; [done|]. split; [|done]. apply set_cotp_ok; (done || congruence).
  - eexists _, _. split; [done|]. split; [|done]. apply set_state_ok, set_cotp_ok; (done || congruence).
Qed.

Lemma processIndication_ok self ind : server_ok self ->
  (ind = Some Cotp.COTP_CONNECT_INDICATION ->
     Cotp.socketExtensionBufferFill (cotpConnection self) = 0 /\
     is_u16 (Cotp.remoteRef (cotpConnection self)) /\ is_u8 (Cotp.protocolClass (cotpConnection self))) ->
  (ind = Some Cotp.COTP_DATA_INDICATION -> ~ payload_full self) -> ends (processIndication self ind).
Proof.
  intros Hs Hc Hd. destruct ind as [[]|]; cbn [processIndication]; try (by apply ends_stop); try (by apply ends_ret).
  - destruct (Hc eq_refl) as (H1 & H2 & H3).
    destruct (CotpLink.send_response_link (cotpConnection self) (s_link _ Hs) H1 H2 H3) as (c & r & -> & Hl & Hio).
    cbn [mbind option_bind]. by apply ends_ret, set_cotp_io_ok.
  - apply processMessage_ok; [done|by apply Hd].
Qed.

Lemma callTickHandler_ok self : server_ok self -> ends (IsoConnection_callTickHandler self).
Proof.
  intros Hs. unfold IsoConnection_callTickHandler.
  assert (H : exists c, Cotp.CotpConnection_flushBuffer (cotpConnection self) = Some c /\ server_ok (set_cotp c self)).
  { unfold Cotp.CotpConnection_flushBuffer. case_decide; [|exists (cotpConnection self); split; [done|by destruct Hs]].
    destruct (Cotp.flushBuffer_spec _ (CotpLink.l_ext _ (s_link _ Hs))) as (c & ok & E & Hio & He & Hw & _). rewrite E.
    exists c. split; [done|]. destruct (CotpLink.l_write _ (s_link _ Hs)) as (wb & Hwb & Hwf & Hm).
    apply set_cotp_io_ok; [done| |done].
    apply (CotpLink.link_ok_write (cotpConnection self) c wb); try done; [apply Hs|congruence|].
    rewrite (CotpLink.flushBuffer_incoming _ _ _ E). apply (s_link _ Hs). }
  destruct H as (c & -> & H). cbn [mbind option_bind]. apply ends_ret. pose proof (s_tick _ H) as Ht.
  cbn [tickHandler set_cotp] in *. destruct (tickHandler self) as [tick|]; [|done].
  destruct H. constructor; try done. by apply Ht.
Qed.

Lemma handle_ok ready single self : server_ok self ->
  (exists s, IsoConnection_handleTcpConnection ready single self = Some s /\ server_ok s) \/
  exists s1 s2, (if single then Some self else IsoConnection_callTickHandler self) = Some s1 /\
    receivePacket s1 = Some (s2, Some Cotp.COTP_DATA_INDICATION) /\ payload_full s2.
Proof.
  intros Hs. unfold IsoConnection_handleTcpConnection.
  assert (Hrec : forall s, server_ok s -> ends (receive s) \/
    exists s2, receivePacket s = Some (s2, Some Cotp.COTP_DATA_INDICATION) /\ payload_full s2).
  { intros s H. unfold receive. destruct (receivePacket_ok s H) as (s2 & ind & -> & H2 & Hc). cbn [mbind option_bind].
    destruct (decide (ind = Some Cotp.COTP_DATA_INDICATION /\ payload_full s2)) as [[-> Hf]|Hn].
    - right. by exists s2.
    - left. apply processIndication_ok; [done|done|]. intros -> Hf. by apply Hn. }
  destruct single.
  - destruct (Hrec self Hs) as [H|(s2 & H)]; [by left|right]. by exists self, s2.
  - destruct (callTickHandler_ok self Hs) as (s & -> & H). cbn [mbind option_bind].
    case_decide; [left; by exists s|]. destruct (Hrec s H) as [H'|(s2 & H')]; [by left|right]. by exists s, s2.
Qed.

Lemma sendMessage_ok message self : server_ok self -> readable message -> 0 < size message <= MAX_RESPONSE ->
  exists self' success, IsoConnection_sendMessage message self = Some (self', success) /\ server_ok self'.
Proof.
  intros Hs [Hb Hr] Hn. unfold IsoConnection_sendMessage. case_decide; [by eexists _, _|].
  set (payload := Chain _ _ _ _ ChainNull).
  assert (Hl : zlen (chain_bytes payload) = size message) by (cbn; rewrite app_nil_r, length_take; lia).
  assert (Hw : chain_wf payload).
  { split; [lia|]. split; [done|]. split; [symmetry; exact Hl|done]. }
  destruct (data_layer_ok (Presentation.createUserData (presentation self)) (Presentation.mmsContextId (presentation self)) 0
    self payload) as (b & part & E & H1 & W & N & L & _); try done; [apply (s_presentation _ Hs)|buffer_room..|].
  rewrite E. cbn [mbind option_bind].
  destruct (Session.createDataSpdu_spec 0 part W N) as (c & -> & Wc & Nc & _). cbn [mbind option_bind].
  destruct (sendPart_ok (set_sendBuffer b self) c H1 Wc Nc) as (s3 & ind & -> & H3 & _). by eexists _, _.
Qed.

Lemma connection_create_ok socket authenticator parameter : is_bytes (Cotp.incoming socket) -> good parameter ->
  ends (IsoConnection_create socket authenticator parameter).
Proof.
  intros Hi Hg. unfold IsoConnection_create, Cotp.init. rewrite Cotp.setTpduSize_is. cbn [mbind option_bind].
  assert (Hrep : forall n, 0 <= n -> wf_buf (replicate (Z.to_nat n) 0) n).
  { intros n Hn. split; [by apply Forall_replicate|]. rewrite length_replicate. lia. }
  pose proof (Hrep RECEIVE_BUF_SIZE ltac:(done)) as W1. pose proof (Hrep SEND_BUF_SIZE ltac:(done)) as W2.
  pose proof (Hrep (Cotp.COTP_MAX_TPDU_SIZE + Cotp.TPKT_RFC1006_HEADER_SIZE) ltac:(done)) as W3.
  pose proof (Hrep (CONFIG_MMS_MAXIMUM_PDU_SIZE + 1000) ltac:(done)) as W4. clear Hrep.
  revert W1 W2 W3 W4. generalize (replicate (Z.to_nat RECEIVE_BUF_SIZE) 0), (replicate (Z.to_nat SEND_BUF_SIZE) 0),
    (replicate (Z.to_nat (Cotp.COTP_MAX_TPDU_SIZE + Cotp.TPKT_RFC1006_HEADER_SIZE)) 0),
    (replicate (Z.to_nat (CONFIG_MMS_MAXIMUM_PDU_SIZE + 1000)) 0).
  intros receiveBuffer sendBuffer cotpBuf extension [W1 L1] W2 [W3 L3] [W4 L4]. cbv zeta. apply ends_ret.
  assert (Hwrap : forall b n, is_bytes b -> zlen b = n -> 0 <= n -> wf (ByteBuffer_wrap b 0 n))
    by (intros b n Hb Hl Hn; split_and!; [done|cbn; lia..]).
  constructor; try done.
  - constructor; try done.
    + split; [by apply Hwrap|]. split; [done|]. split_and!; try done; (split; [const_bytes|done]).
    + eexists. split; [reflexivity|]. split; [by apply Hwrap|done].
    + cbn. rewrite L3. done.
  - left. done.
  - apply Session.init_wf.
  - assert (H : Presentation.sel_wf {| Presentation.size := 0; Presentation.value := replicate 16 0 |}).
    { split; [split; [by apply Forall_replicate|done]|done]. }
    split_and!; try done; split; by try constructor.
Qed.

(** ** Every connection *)

(** What happens to a connection: the application installs its listener, sends a message or
    closes the connection; the network delivers octets and decides what the next calls of
    the socket transfer; the thread of the connection, or that of the server, handles it. *)
Inductive event :=
  | Install (handle : option (App -> ByteBuffer -> ByteBuffer -> option (App * ByteBuffer)))
      (tick : option (App -> App)) (parameter : App)
  | Network (octets : list Z) (reads writes : list Z)
  | Handle (ready : Z) (isSingleThread : bool)
  | Send (message : ByteBuffer)
  | Close.

Definition react (e : event) (self : IsoConnection (App := App)) : option (IsoConnection (App := App)) :=
  match e with
  | Install handle tick parameter => Some (IsoConnection_installListener handle tick parameter self)
  | Network octets reads writes =>
      let c := cotpConnection self in
      Some (set_cotp (Cotp.set_socket
        {| Cotp.sent := Cotp.sent (Cotp.socket c); Cotp.writeResults := writes;
           Cotp.incoming := Cotp.incoming (Cotp.socket c) ++ octets; Cotp.readResults := reads |} c) self)
  | Handle ready isSingleThread => IsoConnection_handleTcpConnection ready isSingleThread self
  | Send message => fst <$> IsoConnection_sendMessage message self
  | Close => Some (IsoConnection_close self)
  end.

(** A connection is handled while it runs, and used until it is freed. *)
Definition possible (e : event) (self : IsoConnection (App := App)) : Prop :=
  match e with
  | Install handle tick parameter =>
      match handle with Some handle => HandlerOk good handle | None => True end /\
      match tick with Some tick => TickOk good tick | None => True end /\ good parameter
  | Network octets _ _ => is_bytes octets
  | Handle _ _ => state self = ISO_CON_STATE_RUNNING
  | Send message => state self <> ISO_CON_STATE_TERMINATED /\ readable message /\ 0 < size message <= MAX_RESPONSE
  | Close => True
  end.

(** The transport layer has put a message into the receive buffer that fills it. *)
Definition overfull (e : event) (self : IsoConnection (App := App)) : Prop :=
  match e with
  | Handle _ isSingleThread =>
      exists s1 s2, (if isSingleThread then Some self else IsoConnection_callTickHandler self) = Some s1 /\
        receivePacket s1 = Some (s2, Some Cotp.COTP_DATA_INDICATION) /\ payload_full s2
  | _ => False
  end.

Inductive reachable : IsoConnection (App := App) -> Prop :=
  | reach_create socket authenticator parameter self :
      is_bytes (Cotp.incoming socket) -> good parameter ->
      IsoConnection_create socket authenticator parameter = Some self -> reachable self
  | reach_react e self self' : reachable self -> possible e self -> ~ overfull e self ->
      react e self = Some self' -> reachable self'.

Lemma react_ok e self : server_ok self -> possible e self -> ends (react e self) \/ overfull e self.
Proof.
  intros Hs Hp. destruct e as [handle tick parameter|octets reads writes|ready single|message|]; cbn [react].
  - left. apply ends_ret. destruct Hp as (H1 & H2 & H3), Hs. by constructor.
  - left. apply ends_ret, set_cotp_ok; [done| |apply Hs|apply Hs].
    destruct (s_link _ Hs) as [H1 H2 H3 H4 H5 H6 H7 H8 H9]. constructor; try done. by apply Forall_app_2.
  - by apply handle_ok.
  - left. destruct Hp as (_ & Hr & Hn). destruct (sendMessage_ok message self Hs Hr Hn) as (s & ok & -> & H). by apply ends_ret.
  - left. apply ends_ret. unfold IsoConnection_close. case_decide; [done|by do 2 apply set_state_ok].
Qed.

Lemma reachable_ok self : reachable self -> server_ok self.
Proof.
  intros Hr. induction Hr as [socket auth parameter self Hi Hg E|e self self' Hr IH Hp Hno E].
  - destruct (connection_create_ok socket auth parameter Hi Hg) as (s & E' & H). congruence.
  - destruct (react_ok e self IH Hp) as [(s & E' & H)|H]; [congruence|done].
Qed.


End invariant.

(** ** Samples *)

(** An application that keeps the requests and answers three octets of its buffer. *)
Definition sample_handler (requests : list (list Z)) (request response : ByteBuffer)
    : option (list (list Z) * ByteBuffer) :=
  Some (content request :: requests,
        {| buffer := buffer response; maxSize := maxSize response; size := Z.min 3 (maxSize response) |}).

#[export] Instance sample_handler_ok : HandlerOk (fun _ => True) sample_handler.
Proof.
  intros app request response _ _ (Hb & Hs & Hl). eexists _, _. split; [done|].
  unfold MAX_RESPONSE. split_and!; [done|split|..]; cbn [size maxSize buffer]; (done || lia).
Qed.

Definition sample_socket : Cotp.Socket :=
  {| Cotp.sent := []; Cotp.writeResults := []; Cotp.incoming := []; Cotp.readResults := [] |}.

(** The events of the list, one after the other. *)
Definition run {App} (events : list event) (self : IsoConnection (App := App)) : option (IsoConnection (App := App)) :=
  foldl (fun self e => self ≫= react e) (Some self) events.

Definition sample_connection : option (IsoConnection (App := list (list Z))) :=
  IsoConnection_create sample_socket None [].

(** A TPKT packet with a connection request or with a data TPDU. *)
Definition connection_request : list Z := [3; 0; 0; 11; 6; 0xe0; 0; 0; 0; 1; 0].
Definition data_packet (xs : list Z) : list Z := [3; 0; 0; 7 + zlen xs; 2; 0xf0; 0x80] ++ xs.


(** A data message is passed to the MMS server although no association was made: the
    context identifier of the MMS context is 0 until then. *)
Example data_without_association :
  let message := Presentation.user_data 0 [1; 2; 3] in
  let packet := data_packet (Session.dataSpdu ++ message) in
  let answer := data_packet (Session.dataSpdu ++ Presentation.user_data 0 [0; 0; 0]) in
  (fun s => (handlerParameter s, Cotp.sent (Cotp.socket (cotpConnection s)))) <$>
    (sample_connection ≫= run [Install (Some sample_handler) None []; Network packet [4; zlen packet - 4] []; Handle 1 true]) =
  Some ([[1; 2; 3]], answer).
Proof. vm_compute. reflexivity. Qed.

End IsoConnection.
