(* ===== verification/IecCommon.v ===== *)
(** * Common types of IEC 61850

    [src/iec61850/common/iec61850_common.c]: quality, double positions, functional
    constraints, time stamps, and the mapping between object references and MMS names.
    A [Timestamp] is its eight octets; a string is its memory with the terminating zero. *)

From S2P Require Import Prelude Alloc BerEncoder BerInteger MmsValue.

Module IecCommon.
Import Alloc MmsValue.
#[local] Open Scope alloc_scope.

(** ** Quality and double positions *)

Definition Quality_getValidity (self : Z) : Z := Z.land self 0x3.
Definition Quality_setValidity (self validity : Z) : Z := u16 (Z.lor (Z.land self 0xfffc) validity).
Definition Quality_isFlagSet (self flag : Z) : bool := bool_decide (Z.land self flag > 0).
Definition Quality_setFlag (self flag : Z) : Z := u16 (Z.lor self flag).
Definition Quality_unsetFlag (self flag : Z) : Z := u16 (Z.land self (Z.lnot flag)).

(** The functions that expect a bit string do not look at the type. *)
Definition Quality_fromMmsValue (mmsValue : MmsValue) : option Z :=
  match mmsValue with
  | MmsBitString size buf => u16 <$> getBitStringAsInteger size buf
  | _ => None
  end.

Definition Quality_toMmsValue (self : Z) (mmsValue : option MmsValue) : alloc (option MmsValue) :=
  mmsValue <~ match mmsValue with None => newBitString 13 | Some v => m_ret (Some v) end;
  match mmsValue with
  | None => m_ret None
  | Some (MmsBitString size buf) =>
      buf <~ m_lift (setBitStringFromInteger size buf self); m_ret (Some (MmsBitString size buf))
  | Some _ => m_lift None
  end.

Definition Dbpos_fromMmsValue (mmsValue : MmsValue) : option Z :=
  match mmsValue with
  | MmsBitString size buf => getBitStringAsIntegerBigEndian size buf
  | _ => None
  end.

(** The result of the allocation is not checked. *)
Definition Dbpos_toMmsValue (mmsValue : option MmsValue) (dbpos : Z) : alloc (option MmsValue) :=
  let store (v : option MmsValue) :=
    match v with
    | Some (MmsBitString size buf) =>
        buf <~ m_lift (setBitStringFromIntegerBigEndian size buf dbpos);
        m_ret (Some (MmsBitString size buf))
    | _ => m_lift None
    end in
  match mmsValue with
  | None => v <~ newBitString 2; store v
  | Some (MmsBitString size buf) =>
      if decide (size <> 2) then m_ret None else store (Some (MmsBitString size buf))
  | Some _ => m_ret None
  end.

(** ** Functional constraints *)

Inductive FunctionalConstraint :=
  | FC_ST | FC_MX | FC_SP | FC_SV | FC_CF | FC_DC | FC_SG | FC_SE | FC_SR | FC_OR | FC_BL | FC_EX
  | FC_CO | FC_US | FC_MS | FC_RP | FC_BR | FC_LG | FC_GO | FC_ALL | FC_NONE.

#[export] Instance FunctionalConstraint_eq_dec : EqDecision FunctionalConstraint.
Proof. solve_decision. Defined.

(** The two characters of the string. *)
Definition FunctionalConstraint_toString (fc : FunctionalConstraint) : option (list Z) :=
  match fc with
  | FC_ST => Some [83; 84] | FC_MX => Some [77; 88] | FC_SP => Some [83; 80] | FC_SV => Some [83; 86]
  | FC_CF => Some [67; 70] | FC_DC => Some [68; 67] | FC_SG => Some [83; 71] | FC_SE => Some [83; 69]
  | FC_SR => Some [83; 82] | FC_OR => Some [79; 82] | FC_BL => Some [66; 76] | FC_EX => Some [69; 88]
  | FC_CO => Some [67; 79] | FC_US => Some [85; 83] | FC_MS => Some [77; 83] | FC_RP => Some [82; 80]
  | FC_BR => Some [66; 82] | FC_LG => Some [76; 71] | FC_GO => Some [71; 79]
  | FC_ALL | FC_NONE => None
  end.

(** The constraint for a second character. *)
Fixpoint second (c : Z) (table : list (Z * FunctionalConstraint)) : FunctionalConstraint :=
  match table with
  | [] => FC_NONE
  | (c', fc) :: table => if decide (c = c') then fc else second c table
  end.

Definition FunctionalConstraint_fromString (fcString : list Z) (p : Z) : option FunctionalConstraint :=
  a ← fcString.[p];
  let next (table : list (Z * FunctionalConstraint)) := b ← fcString.[p + 1]; Some (second b table) in
  if decide (a = 83) then next [(84, FC_ST); (80, FC_SP); (86, FC_SV); (71, FC_SG); (69, FC_SE); (82, FC_SR)]
  else if decide (a = 77) then next [(88, FC_MX); (83, FC_MS)]
  else if decide (a = 67) then next [(70, FC_CF); (79, FC_CO)]
  else if decide (a = 68) then next [(67, FC_DC)]
  else if decide (a = 79) then next [(82, FC_OR)]
  else if decide (a = 66) then next [(76, FC_BL); (82, FC_BR)]
  else if decide (a = 69) then next [(88, FC_EX)]
  else if decide (a = 85) then next [(83, FC_US)]
  else if decide (a = 82) then next [(80, FC_RP)]
  else if decide (a = 76) then next [(71, FC_LG)]
  else if decide (a = 71) then next [(79, FC_GO)]
  else Some FC_NONE.

(** ** Time stamps *)

Definition Timestamp_create (ok : bool) : option (list Z) := if ok then Some (replicate 8 0) else None.

Definition Timestamp_clearFlags (val : list Z) : option (list Z) := val.[7]:= 0.

(** A flag of the time quality. *)
Definition flag_set (mask : Z) (val : list Z) : option bool :=
  x ← val.[7]; Some (bool_decide (Z.land x mask <> 0)).
Definition set_flag (mask : Z) (value : bool) (val : list Z) : option (list Z) :=
  x ← val.[7]; val.[7]:= (if value then Z.lor x mask else Z.land x (255 - mask)).

Definition Timestamp_isLeapSecondKnown : list Z -> option bool := flag_set 0x80.
Definition Timestamp_setLeapSecondKnown : bool -> list Z -> option (list Z) := set_flag 0x80.
Definition Timestamp_hasClockFailure : list Z -> option bool := flag_set 0x40.
Definition Timestamp_setClockFailure : bool -> list Z -> option (list Z) := set_flag 0x40.
Definition Timestamp_isClockNotSynchronized : list Z -> option bool := flag_set 0x20.
Definition Timestamp_setClockNotSynchronized : bool -> list Z -> option (list Z) := set_flag 0x20.

Definition Timestamp_getSubsecondPrecision (val : list Z) : option Z := x ← val.[7]; Some (Z.land x 0x1f).

Definition Timestamp_setSubsecondPrecision (subsecondPrecision : Z) (val : list Z) : option (list Z) :=
  x ← val.[7];
  val.[7]:= (Z.land x 0xe0 + u8 (Z.land subsecondPrecision 0x1f)).

(** The first four octets, and the three of the fraction. *)
Definition set_seconds (timeval32 : Z) (val : list Z) : option (list Z) :=
  fst <$> puts val 0 [Z.land (timeval32 / 0x1000000) 0xff; Z.land (timeval32 / 0x10000) 0xff;
                      Z.land (timeval32 / 0x100) 0xff; Z.land timeval32 0xff].
Definition Timestamp_setFractionOfSecondPart (fractionOfSecond : Z) (val : list Z) : option (list Z) :=
  fst <$> puts val 4 [Z.land (Z.shiftr fractionOfSecond 16) 0xff; Z.land (Z.shiftr fractionOfSecond 8) 0xff;
                      Z.land fractionOfSecond 0xff].

Definition Timestamp_setTimeInSeconds (secondsSinceEpoch : Z) (val : list Z) : option (list Z) :=
  val ← set_seconds secondsSinceEpoch val;
  fst <$> puts val 4 [0; 0; 0].

Definition Timestamp_setTimeInMilliseconds (millisSinceEpoch : Z) (val : list Z) : option (list Z) :=
  val ← set_seconds (u32 (millisSinceEpoch / 1000)) val;
  let remainder := u32 (millisSinceEpoch mod 1000) in
  Timestamp_setFractionOfSecondPart (u32 (remainder * 16777 + remainder * 216 / 1000)) val.

Definition Timestamp_setTimeInNanoseconds (nsTime : Z) (val : list Z) : option (list Z) :=
  val ← set_seconds (u32 (nsTime / 1000000000)) val;
  let remainder := u64 (Z.shiftl (nsTime mod 1000000000) 24) in
  Timestamp_setFractionOfSecondPart (u32 (remainder / 1000000000)) val.

Definition Timestamp_getFractionOfSecondPart (val : list Z) : option Z :=
  a ← val.[4]; b ← val.[5]; c ← val.[6];
  Some (u32 (Z.shiftl a 16 + Z.shiftl b 8 + c)).

Definition Timestamp_getTimeInSeconds (val : list Z) : option Z :=
  d ← val.[3]; c ← val.[2]; b ← val.[1]; a ← val.[0];
  Some (u32 (d + c * 0x100 + b * 0x10000 + a * 0x1000000)).

Definition Timestamp_getTimeInMs (val : list Z) : option Z :=
  timeval32 ← Timestamp_getTimeInSeconds val;
  fractionOfSecond ← Timestamp_getFractionOfSecondPart val;
  Some (u64 (timeval32 * 1000 + fractionOfSecond / 16777)).

Definition Timestamp_getTimeInNs (val : list Z) : option Z :=
  timeval32 ← Timestamp_getTimeInSeconds val;
  fractionOfSecond ← Timestamp_getFractionOfSecondPart val;
  let nsVal := Z.shiftr (u64 (fractionOfSecond * 1000000000)) 24 in
  Some (u64 (timeval32 * 1000000000 + nsVal)).

Definition Timestamp_setByMmsUtcTime (mmsValue : MmsValue) (val : list Z) : option (list Z) :=
  match mmsValue with
  | MmsUtcTime utcTime => fst <$> copy_bytes 8 utcTime 0 val 0
  | _ => Some val
  end.

Definition Timestamp_toMmsValue (val : list Z) (mmsValue : option MmsValue) : alloc (option MmsValue) :=
  convertedValue <~ match mmsValue with None => newUtcTime 0 | Some v => m_ret (Some v) end;
  match convertedValue with
  | None => m_ret None
  | Some (MmsUtcTime utcTime) =>
      t <~ m_lift (copy_bytes 8 val 0 utcTime 0); m_ret (Some (MmsUtcTime (fst t)))
  | Some _ => m_lift None
  end.

Definition Timestamp_fromMmsValue (self : option (list Z)) (mmsValue : MmsValue) : alloc (option (list Z)) :=
  match mmsValue with
  | MmsUtcTime utcTime =>
      self <~ match self with
              | Some val => m_ret (Some val)
              | None => new_value (replicate 8 0)
              end;
      match self with
      | Some val => r <~ m_lift (copy_bytes 8 utcTime 0 val 0); m_ret (Some (fst r))
      | None => m_ret None
      end
  | _ => m_ret None
  end.

(** ** Laws of the time stamps *)

(** The octets of a time stamp. *)
Definition stamp (s f q : Z) : list Z := be_bytes 4 s ++ be_bytes 3 f ++ [q].

Lemma stamp_length s f q : zlen (stamp s f q) = 8.
Proof. unfold stamp. rewrite !length_app, !be_bytes_length. done. Qed.

Lemma stamp_bytes s f q : is_u8 q -> is_bytes (stamp s f q).
Proof.
  intros Hq. unfold stamp. apply Forall_app_2; [apply be_bytes_bytes|]. apply Forall_app_2; [apply be_bytes_bytes|].
  by constructor.
Qed.

Lemma be_bytes_4 s : be_bytes 4 s = [s / 256 / 256 / 256 mod 256; s / 256 / 256 mod 256; s / 256 mod 256; s mod 256].
Proof. done. Qed.
Lemma be_bytes_3 f : be_bytes 3 f = [f / 256 / 256 mod 256; f / 256 mod 256; f mod 256].
Proof. done. Qed.

(** Every time stamp is of this form. *)
Lemma stamp_all val : wf_buf val 8 -> exists s f q, val = stamp s f q /\ is_u32 s /\ 0 <= f < 16777216 /\ is_u8 q.
Proof.
  intros [Hb Hl]. do 8 (destruct val as [|? val]; [simpl in Hl; lia|]). destruct val; [|simpl in Hl; lia].
  unfold is_bytes in Hb. rewrite !Forall_cons in Hb. destruct Hb as (H0 & H1 & H2 & H3 & H4 & H5 & H6 & H7 & _).
  eexists (be_val [z; z0; z1; z2]), (be_val [z3; z4; z5]), z6. unfold is_u8 in *.
  assert (E1 : be_val [z; z0; z1; z2] = ((z * 256 + z0) * 256 + z1) * 256 + z2) by (cbn; lia).
  assert (E2 : be_val [z3; z4; z5] = (z3 * 256 + z4) * 256 + z5) by (cbn; lia).
  rewrite E1, E2. split; [|unfold_int; lia]. unfold stamp. rewrite be_bytes_4, be_bytes_3. cbn [app].
  repeat f_equal; zlia.
Qed.

Ltac octets := repeat (apply Forall_cons; split; [unfold_int; zlia|]); by apply Forall_nil.

Lemma land_255 z : Z.land z 0xff = z mod 256.
Proof. by apply (Z.land_ones z 8). Qed.

Lemma set_seconds_stamp t s f q : 0 <= t -> set_seconds t (stamp s f q) = Some (stamp t f q).
Proof.
  intros Ht. unfold set_seconds. rewrite !land_255, puts_splice; [|octets|lia|rewrite stamp_length; done]. unfold stamp.
  cbn [fmap option_fmap option_map fst]. f_equal. rewrite !be_bytes_4, be_bytes_3.
  change (Z.to_nat 0) with 0%nat. cbn [length take drop app Nat.add].
  rewrite !Z.div_div by lia. reflexivity.
Qed.

Lemma set_fraction_stamp t s f q : 0 <= t ->
  Timestamp_setFractionOfSecondPart t (stamp s f q) = Some (stamp s t q).
Proof.
  intros Ht. unfold Timestamp_setFractionOfSecondPart.
  rewrite !land_255, puts_splice; [|octets|lia|rewrite stamp_length; done]. unfold stamp.
  cbn [fmap option_fmap option_map fst]. f_equal. rewrite !Z.shiftr_div_pow2, !be_bytes_3, be_bytes_4 by lia.
  change (Z.to_nat 4) with 4%nat. cbn [length take drop app Nat.add].
  rewrite !Z.div_div by lia. reflexivity.
Qed.

Lemma seconds_stamp s f q : is_u32 s -> Timestamp_getTimeInSeconds (stamp s f q) = Some s.
Proof.
  intros Hs. change (Some (u32 (s mod 256 + s / 256 mod 256 * 0x100 + s / 256 / 256 mod 256 * 0x10000 +
    s / 256 / 256 / 256 mod 256 * 0x1000000)) = Some s). f_equal. rewrite u32_id; unfold_int; zlia.
Qed.

Lemma fraction_stamp s f q : 0 <= f < 16777216 -> Timestamp_getFractionOfSecondPart (stamp s f q) = Some f.
Proof.
  intros Hf. change (Some (u32 (Z.shiftl (f / 256 / 256 mod 256) 16 + Z.shiftl (f / 256 mod 256) 8 + f mod 256)) = Some f).
  rewrite !Z.shiftl_mul_pow2 by lia. f_equal. rewrite u32_id; unfold_int; zlia.
Qed.

Lemma quality_stamp s f q x : (stamp s f q).[7]:= x = Some (stamp s f (u8 x)) /\ (stamp s f q).[7] = Some q.
Proof. unfold stamp. rewrite be_bytes_4, be_bytes_3. done. Qed.

Lemma precision_stamp s f q p :
  Timestamp_setSubsecondPrecision p (stamp s f q) = Some (stamp s f (u8 (Z.land q 0xe0 + u8 (Z.land p 0x1f)))).
Proof.
  unfold Timestamp_setSubsecondPrecision. destruct (quality_stamp s f q (Z.land q 0xe0 + u8 (Z.land p 0x1f))) as [E ->].
  exact E.
Qed.

Lemma milliseconds_stamp ms s f q : 0 <= ms -> ms / 1000 < 4294967296 ->
  Timestamp_setTimeInMilliseconds ms (stamp s f q) =
    Some (stamp (ms / 1000) (ms mod 1000 * 16777 + ms mod 1000 * 216 / 1000) q).
Proof.
  intros H0 H1. unfold Timestamp_setTimeInMilliseconds. rewrite u32_id by (unfold_int; zlia).
  rewrite set_seconds_stamp by zlia. cbn [mbind option_bind]. rewrite (u32_id (ms mod 1000)) by (unfold_int; zlia).
  rewrite u32_id by (unfold_int; zlia). apply set_fraction_stamp. zlia.
Qed.

Lemma nanoseconds_stamp ns s f q : 0 <= ns -> ns / 1000000000 < 4294967296 ->
  Timestamp_setTimeInNanoseconds ns (stamp s f q) =
    Some (stamp (ns / 1000000000) (ns mod 1000000000 * 16777216 / 1000000000) q).
Proof.
  intros H0 H1. unfold Timestamp_setTimeInNanoseconds. rewrite (u32_id (ns / 1000000000)) by (unfold_int; zlia).
  rewrite set_seconds_stamp by zlia. cbn [mbind option_bind]. rewrite Z.shiftl_mul_pow2 by lia. change (2 ^ 24) with 16777216.
  assert (Hr : 0 <= ns mod 1000000000 < 1000000000) by zlia. set (r := ns mod 1000000000) in *. clearbody r.
  replace (u64 (r * 16777216)) with (r * 16777216) by (unfold u64; rewrite Z.mod_small; lia).
  rewrite u32_id by (unfold_int; zlia). apply set_fraction_stamp. zlia.
Qed.

Lemma nanoseconds_read s f q : is_u32 s -> 0 <= f < 16777216 ->
  Timestamp_getTimeInNs (stamp s f q) = Some (s * 1000000000 + f * 1000000000 / 16777216).
Proof.
  intros Hs Hf. unfold Timestamp_getTimeInNs. rewrite seconds_stamp, fraction_stamp by done. cbn [mbind option_bind].
  rewrite Z.shiftr_div_pow2 by lia. change (2 ^ 24) with 16777216.
  replace (u64 (f * 1000000000)) with (f * 1000000000) by (unfold u64; rewrite Z.mod_small; lia).
  f_equal. unfold u64, is_u32 in *. rewrite Z.mod_small; [done|]. zlia.
Qed.



(** ** Laws of quality and functional constraints *)

Lemma fromString_toString fc s p b : FunctionalConstraint_toString fc = Some s ->
  bytes_at b p s -> FunctionalConstraint_fromString b p = Some fc.
Proof.
  intros E H. destruct fc; try discriminate E; injection E as <-; destruct H as (H1 & H2 & _); unfold FunctionalConstraint_fromString;
    rewrite H1; cbn [mbind option_bind]; repeat case_decide; try done; rewrite H2; done.
Qed.

(** A bit string of a quality has 13 bits: the flag for derived data, 0x2000, gets lost. *)
Example quality_derived_lost :
  (r ← Quality_toMmsValue (Z.lor 0x2000 0x41) None []; v ← fst r; Quality_fromMmsValue v) = Some 0x41.
Proof. vm_compute. reflexivity. Qed.

End IecCommon.
