(* ===== verification/StringUtils.v ===== *)
(** * String utilities

    [src/common/string_utilities.c].  A string is its memory with the terminating zero; a
    pointer into one is a position.  [char] is signed, so characters above 127 are
    negative where their order matters. *)

From Stdlib Require Import Sorting.Sorted.
From S2P Require Import Prelude Alloc MmsValue.

Module StringUtils.
Import Alloc MmsValue.
#[local] Open Scope alloc_scope.

(** ** Copies *)

(** [size] octets of [buf] from [p] on, and the terminator. *)
Definition fill_string (newStr buf : list Z) (p size : Z) : option (list Z) :=
  '(newStr, _) ← copy_bytes (Z.to_nat size) buf p newStr 0;
  newStr.[size]:= 0.

Definition createStringFromBuffer (buf : list Z) (p size : Z) : alloc (option (list Z)) :=
  ok <~ malloc_size (size + 1);
  if (ok : bool) then newStr <~ m_lift (fill_string (fresh (size + 1)) buf p size); m_ret (Some newStr)
  else m_ret None.

Definition copySubString (str : list Z) (startPos endPos : Z) : alloc (option (list Z)) :=
  createStringFromBuffer str startPos (endPos - startPos).

Definition copyString (str : option (list Z)) : alloc (option (list Z)) :=
  match str with
  | None => m_ret None
  | Some str =>
      n <~ m_lift (strlen str);
      let newStringLength := n + 1 in
      ok <~ malloc;
      if (ok : bool) then
        r <~ m_lift (copy_bytes (Z.to_nat newStringLength) str 0 (fresh newStringLength) 0); m_ret (Some (fst r))
      else m_ret None
  end.

Definition copyStringToBuffer (string buffer : list Z) : option (list Z) :=
  n ← strlen string;
  fst <$> copy_bytes (Z.to_nat (n + 1)) string 0 buffer 0.

Fixpoint copyStringToBufferAndReplace_loop (fuel : nat) (str buffer : list Z) (oldChar newChar i : Z)
    : option (list Z) :=
  match fuel with
  | O => None
  | S fuel =>
      x ← str.[i];
      buffer ← buffer.[i]:= (if decide (x = oldChar) then newChar else x);
      if decide (x = 0) then Some buffer
      else copyStringToBufferAndReplace_loop fuel str buffer oldChar newChar (i + 1)
  end.

Definition copyStringToBufferAndReplace (str buffer : list Z) (oldChar newChar : Z) : option (list Z) :=
  copyStringToBufferAndReplace_loop (S (length str)) str buffer oldChar newChar 0.

Definition createStringFromBufferInBuffer (newString buf : list Z) (size : Z) : option (list Z) :=
  fill_string newString buf 0 (Z.max size 0).

Definition createStringFromBufferInBufferMax (newString buf : list Z) (size maxBufSize : Z)
    : option (list Z) :=
  let size := Z.max size 0 in
  let size := if decide (size >= maxBufSize) then maxBufSize - 1 else size in
  if decide (size < 0) then None else fill_string newString buf 0 size.

(** ** Concatenation *)

Fixpoint find_end (fuel : nat) (dest : list Z) (maxBufferSize i : Z) : option Z :=
  match fuel with
  | O => None
  | S fuel =>
      if decide (i < maxBufferSize) then
        x ← dest.[i]; if decide (x = 0) then Some i else find_end fuel dest maxBufferSize (i + 1)
      else Some i
  end.

Fixpoint append_loop (fuel : nat) (dest str : list Z) (maxBufferSize i srcPos : Z) : option (list Z * Z) :=
  match fuel with
  | O => None
  | S fuel =>
      if decide (i < maxBufferSize) then
        x ← str.[srcPos];
        if decide (x = 0) then Some (dest, i)
        else dest ← dest.[i]:= x; append_loop fuel dest str maxBufferSize (i + 1) (srcPos + 1)
      else Some (dest, i)
  end.

(** The terminator behind a string that was cut off. *)
Definition terminate (dest : list Z) (maxBufferSize : Z) : option (list Z) :=
  if decide (maxBufferSize > 0) then dest.[maxBufferSize - 1]:= 0 else Some dest.

Definition appendString (dest : list Z) (maxBufferSize : Z) (str : list Z) : option (list Z) :=
  i ← find_end (S (Z.to_nat maxBufferSize)) dest maxBufferSize 0;
  if decide (i = maxBufferSize) then terminate dest maxBufferSize
  else
    '(dest, i) ← append_loop (S (Z.to_nat maxBufferSize)) dest str maxBufferSize i 0;
    if decide (i = maxBufferSize) then terminate dest maxBufferSize else dest.[i]:= 0.

Fixpoint append_all (dest : list Z) (bufSize : Z) (strs : list (list Z)) : option (list Z) :=
  match strs with
  | [] => Some dest
  | str :: strs => dest ← appendString dest bufSize str; append_all dest bufSize strs
  end.

Definition createStringInBuffer (newStr : list Z) (bufSize : Z) (strs : list (list Z)) : option (list Z) :=
  if decide (bufSize > 0) then newStr ← newStr.[0]:= 0; append_all newStr bufSize strs
  else Some newStr.

Fixpoint total_length (strs : list (list Z)) : option Z :=
  match strs with
  | [] => Some 0
  | str :: strs => n ← strlen str; m ← total_length strs; Some (n + m)
  end.

(** [strcpy] of one string behind the other. *)
Fixpoint copy_all (newStr : list Z) (currentPos : Z) (strs : list (list Z)) : option (list Z) :=
  match strs with
  | [] => Some newStr
  | str :: strs =>
      n ← strlen str;
      '(newStr, _) ← copy_bytes (Z.to_nat (n + 1)) str 0 newStr currentPos;
      copy_all newStr (currentPos + n) strs
  end.

Definition createString (strs : list (list Z)) : alloc (option (list Z)) :=
  n <~ m_lift (total_length strs);
  ok <~ malloc;
  if (ok : bool) then newStr <~ m_lift (copy_all (fresh (n + 1)) 0 strs); m_ret (Some newStr)
  else m_ret None.

(** One of the two loops: the position behind the copy, or the result when there is no
    more room. *)
Fixpoint concat_loop (fuel : nat) (res str : list Z) (maxStringSize destPos i : Z)
    : option (list Z * option Z) :=
  match fuel with
  | O => None
  | S fuel =>
      x ← str.[i];
      if decide (x <> 0) then
        if decide (destPos < maxStringSize) then
          res ← res.[destPos]:= x; concat_loop fuel res str maxStringSize (destPos + 1) (i + 1)
        else res ← res.[destPos]:= 0; Some (res, None)
      else Some (res, Some destPos)
  end.

Definition concat_into (res : list Z) (maxBufferSize : Z) (str1 str2 : list Z) : option (list Z) :=
  '(res, p) ← concat_loop (S (length str1)) res str1 (maxBufferSize - 1) 0 0;
  match p with
  | None => Some res
  | Some destPos =>
      '(res, p) ← concat_loop (S (length str2)) res str2 (maxBufferSize - 1) destPos 0;
      match p with None => Some res | Some destPos => res.[destPos]:= 0 end
  end.

Definition concatString (dest : option (list Z)) (maxBufferSize : Z) (str1 str2 : list Z)
    : alloc (option (list Z)) :=
  res <~ match dest with
         | Some dest => m_ret (Some dest)
         | None => ok <~ malloc_size maxBufferSize; m_ret (if (ok : bool) then Some (fresh maxBufferSize) else None)
         end;
  match res with
  | Some res => r <~ m_lift (concat_into res maxBufferSize str1 str2); m_ret (Some r)
  | None => m_ret None
  end.

(** ** Characters and digits *)

Definition replace (string : list Z) (oldChar newChar : Z) : option (list Z) :=
  len ← strlen string;
  Some (((fun x => if decide (x = oldChar) then newChar else x) <$> take (Z.to_nat len) string) ++
        drop (Z.to_nat len) string).

Definition isDigit (character : Z) : bool := bool_decide (character > 47 /\ character < 58).
Definition digitToInt (digit : Z) : Z := if isDigit digit then digit - 48 else -1.

(** The product of a long number overflows. *)
Fixpoint digitsToInt_loop (n : nat) (digits : list Z) (p value : Z) : option Z :=
  match n with
  | O => Some value
  | S n =>
      let value := value * 10 in
      x ← digits.[p];
      let digitValue := digitToInt x in
      if decide (~ is_s32 value) then None
      else if decide (digitValue = -1) then Some (-1)
      else if decide (is_s32 (value + digitValue)) then digitsToInt_loop n digits (p + 1) (value + digitValue)
      else None
  end.

Definition digitsToInt (digits : list Z) (p count : Z) : option Z := digitsToInt_loop (Z.to_nat count) digits p 0.

Definition toInt (c : Z) : Z :=
  if decide (48 <= c <= 57) then c - 48
  else if decide (65 <= c <= 70) then 10 + c - 65
  else if decide (97 <= c <= 102) then 10 + c - 97
  else -1.

Fixpoint createBufferFromHexString_loop (n : nat) (hexString buffer : list Z) (i : Z) : option (list Z * Z) :=
  match n with
  | O => Some (buffer, i)
  | S n =>
      h ← hexString.[i * 2];
      let high := toInt h in
      if decide (high = -1) then Some (buffer, -1)
      else
        l ← hexString.[i * 2 + 1];
        let low := toInt l in
        if decide (low = -1) then Some (buffer, -1)
        else buffer ← buffer.[i]:= (high * 16 + low); createBufferFromHexString_loop n hexString buffer (i + 1)
  end.

Definition createBufferFromHexString (hexString buffer : list Z) : option (list Z * Z) :=
  hexStringLen ← strlen hexString;
  if decide (hexStringLen mod 2 <> 0) then Some (buffer, -1)
  else createBufferFromHexString_loop (Z.to_nat (hexStringLen / 2)) hexString buffer 0.

(** ** Comparison *)

Fixpoint startsWith_loop (fuel : nat) (string prefix : list Z) (index : Z) : option bool :=
  match fuel with
  | O => None
  | S fuel =>
      s ← string.[index];
      p ← (if decide (s <> 0) then prefix.[index] else Some 0);
      if decide (s <> 0 /\ p <> 0) then
        if decide (s <> p) then Some false else startsWith_loop fuel string prefix (index + 1)
      else p ← prefix.[index]; Some (bool_decide (p = 0))
  end.

Definition startsWith (string prefix : list Z) : option bool :=
  startsWith_loop (S (length string)) string prefix 0.

Definition endsWith (str suffix : list Z) : option bool :=
  stringLength ← strlen str;
  suffixLength ← strlen suffix;
  if decide (stringLength >= suffixLength) then strcmp (from str (stringLength - suffixLength)) suffix
  else Some false.

Definition LT_MAX_CHARS : Z := 128.

(** ["AaBbCcDd...YyZz$_0123456789"] *)
Definition charOrder : list Z :=
  concat ((fun i => [65 + i; 97 + i]) <$> seqZ 0 26) ++ [36; 95] ++ seqZ 48 10.

(** The characters in the order of their weights, from 1 on: first those that are not in
    [charOrder], then those that are. *)
Definition weights : list Z :=
  filter (fun c => c ∉ charOrder) (seqZ 1 (LT_MAX_CHARS - 1)) ++ charOrder.

Fixpoint weight_in (order : list Z) (weight c : Z) : Z :=
  match order with
  | [] => 0
  | x :: order => if decide (x = c) then weight else weight_in order (weight + 1) c
  end.

Definition getCharWeight (c : Z) : Z :=
  if decide (c < 1 \/ c > LT_MAX_CHARS) then c else weight_in weights 1 c.

Definition compareChars (a b : Z) : Z := getCharWeight (s8 a) - getCharWeight (s8 b).

(** A string and the address of its memory. *)
Abbreviation string_at := (Z * list Z)%type.

(** For strings that are equal the result is the distance of their ends in memory. *)
Fixpoint compareStrings_loop (fuel : nat) (a b : string_at) (i : Z) : option Z :=
  match fuel with
  | O => None
  | S fuel =>
      x ← (snd a).[i]; y ← (snd b).[i];
      let diff := compareChars x y in
      if decide (diff <> 0) then Some diff
      else if decide (x = 0 \/ y = 0) then Some (s32 ((fst b + i) - (fst a + i)))
      else compareStrings_loop fuel a b (i + 1)
  end.

Definition compareStrings (a b : string_at) : option Z := compareStrings_loop (S (length (snd a))) a b 0.

(** ** Sorting *)

(** The inner loop: the selected element goes in front of the first that is larger. *)
Fixpoint sort_insert (x : string_at) (sortedList : list string_at) : option (list string_at) :=
  match sortedList with
  | [] => Some [x]
  | y :: ys =>
      diff ← compareStrings x y;
      if decide (diff < 0) then Some (x :: y :: ys) else ys ← sort_insert x ys; Some (y :: ys)
  end.

Fixpoint sort_loop (elements sortedList : list string_at) : option (list string_at) :=
  match elements with
  | [] => Some sortedList
  | x :: elements => sortedList ← sort_insert x sortedList; sort_loop elements sortedList
  end.

Definition sortList (elements : list string_at) : option (list string_at) :=
  match elements with
  | [] => Some []
  | x :: elements => sort_loop elements [x]
  end.

(** ** IPv6 addresses *)

Fixpoint convertHexStr_loop (n : nat) (hexStr : list Z) (i val : Z) : option (option Z) :=
  match n with
  | O => Some (Some (u16 val))
  | S n =>
      c ← hexStr.[i];
      let nibble := toInt c in
      if decide (nibble = -1) then Some None
      else convertHexStr_loop n hexStr (i + 1) (Z.shiftl val 4 + nibble)
  end.

Definition convertHexStrToUint16 (hexStr : list Z) : option (option Z) :=
  strSize ← strlen hexStr;
  if decide (strSize > 4) then Some None else convertHexStr_loop (Z.to_nat strSize) hexStr 0 0.

(** The position of the next [c] from [p] on, or of none. *)
Fixpoint strchr_loop (fuel : nat) (str : list Z) (p c : Z) : option (option Z) :=
  match fuel with
  | O => None
  | S fuel =>
      x ← str.[p];
      if decide (x = c) then Some (Some p)
      else if decide (x = 0) then Some None
      else strchr_loop fuel str (p + 1) c
  end.

Definition strchr (str : list Z) (p c : Z) : option (option Z) := strchr_loop (S (length str)) str p c.

(** One token: nothing when the address is refused. *)
Record blocks := { addrBlocks : list Z; blockCount : Z; hasEmptyBlock : bool; emptyBlockIndex : Z }.

Definition parseBlock (addressString : list Z) (savePtr sepPos : Z) (b : blocks) : option (option blocks) :=
  tokenBuf ← fill_string (fresh 100) addressString savePtr (sepPos - savePtr);
  len ← strlen tokenBuf;
  if decide (len = 0) then
    Some (if hasEmptyBlock b then None
          else Some {| addrBlocks := addrBlocks b; blockCount := blockCount b; hasEmptyBlock := true;
                       emptyBlockIndex := blockCount b |})
  else
    blockVal ← convertHexStrToUint16 tokenBuf;
    match blockVal with
    | None => Some None
    | Some blockVal =>
        if decide (0 <= blockCount b < 8) then
          Some (Some {| addrBlocks := <[Z.to_nat (blockCount b) := blockVal]> (addrBlocks b);
                        blockCount := blockCount b + 1; hasEmptyBlock := hasEmptyBlock b;
                        emptyBlockIndex := emptyBlockIndex b |})
        else None
    end.

Fixpoint parseBlocks_loop (fuel : nat) (addressString : list Z) (savePtr : Z) (sepPos : option Z)
    (isEnd : bool) (b : blocks) : option (option blocks) :=
  match fuel with
  | O => None
  | S fuel =>
      match sepPos with
      | None => Some (Some b)
      | Some sepPos =>
          r ← parseBlock addressString savePtr sepPos b;
          match r with
          | None => Some None
          | Some b =>
              let savePtr := sepPos + 1 in
              if decide (blockCount b = 8) then Some (Some b)
              else if isEnd then Some (Some b)
              else
                next ← strchr addressString savePtr 58;
                match next with
                | Some sepPos => parseBlocks_loop fuel addressString savePtr (Some sepPos) false b
                | None =>
                    x ← addressString.[savePtr];
                    sepPos ← (if decide (x <> 0) then strchr addressString savePtr 0 else Some None);
                    parseBlocks_loop fuel addressString savePtr sepPos true b
                end
          end
      end
  end.

(** The blocks behind the empty one are moved to the end, the first one first. *)
Fixpoint shiftBlocks_loop (n : nat) (s emptyBlockIndex shift : Z) (a : list Z) : option (list Z) :=
  match n with
  | O => Some a
  | S n =>
      x ← a.[s + emptyBlockIndex];
      if decide (0 <= s + emptyBlockIndex + shift < 8) then
        let a := <[Z.to_nat (s + emptyBlockIndex + shift) := x]> a in
        shiftBlocks_loop n (s + 1) emptyBlockIndex shift (<[Z.to_nat (s + emptyBlockIndex) := 0]> a)
      else None
  end.

Definition shiftBlocks (b : blocks) : option blocks :=
  if hasEmptyBlock b then
    let n := blockCount b in
    a ← shiftBlocks_loop (Z.to_nat (n - emptyBlockIndex b)) 0 (emptyBlockIndex b) (8 - n)
          (take (Z.to_nat n) (addrBlocks b) ++ replicate (Z.to_nat (8 - n)) 0);
    Some {| addrBlocks := a; blockCount := 8; hasEmptyBlock := true; emptyBlockIndex := emptyBlockIndex b |}
  else Some b.

Fixpoint blocks_octets (a : list Z) : list Z :=
  match a with
  | [] => []
  | x :: a => x / 0x100 :: Z.land x 0xff :: blocks_octets a
  end.

Definition convertIPv6AdddressStringToByteArray (addressString ipV6Addr : list Z) : option (list Z * bool) :=
  sepPos ← strchr addressString 0 58;
  r ← parseBlocks_loop (S (S (length addressString))) addressString 0 sepPos false
        {| addrBlocks := replicate 8 0; blockCount := 0; hasEmptyBlock := false; emptyBlockIndex := 0 |};
  match r with
  | None => Some (ipV6Addr, false)
  | Some b =>
      b ← shiftBlocks b;
      if decide (blockCount b <> 8) then Some (ipV6Addr, false)
      else '(ipV6Addr, _) ← puts ipV6Addr 0 (blocks_octets (addrBlocks b)); Some (ipV6Addr, true)
  end.

(** ** Laws of searches and copies *)

(** A write behind the octets written so far. *)
Lemma puts_mid out junk xs : is_bytes xs -> zlen xs <= zlen junk ->
  puts (out ++ junk) (zlen out) xs = Some (out ++ xs ++ drop (length xs) junk, zlen out + zlen xs).
Proof.
  intros Hx Hl. rewrite puts_splice by (done || lia || (rewrite length_app; lia)).
  rewrite Nat2Z.id, take_app_length, drop_app_add'. 2: lia. done.
Qed.

Lemma strchr_loop_hit c rest s : forall pre fuel, Forall (fun x => x <> c /\ x <> 0) s -> (length s < fuel)%nat ->
  strchr_loop fuel (pre ++ s ++ c :: rest) (zlen pre) c = Some (Some (zlen pre + zlen s)).
Proof.
  induction s as [|x s IH]; intros pre [|fuel] Hs Hf; simpl in Hf; try lia; cbn [strchr_loop app]; rewrite rd_mid;
    cbn [mbind option_bind].
  { rewrite decide_True by done. do 2 f_equal. simpl. lia. }
  inversion Hs as [|? ? [H1 H2] Hs']; subst. rewrite !decide_False by done. rewrite cons_middle, app_assoc.
  replace (zlen pre + 1) with (zlen (pre ++ [x])) by (rewrite length_app; simpl; lia).
  rewrite IH by (done || lia). do 2 f_equal. rewrite length_app. simpl. lia.
Qed.

Lemma strchr_loop_miss c rest s : forall pre fuel, c <> 0 -> Forall (fun x => x <> c /\ x <> 0) s ->
  (length s < fuel)%nat -> strchr_loop fuel (pre ++ s ++ 0 :: rest) (zlen pre) c = Some None.
Proof.
  induction s as [|x s IH]; intros pre [|fuel] Hc Hs Hf; simpl in Hf; try lia; cbn [strchr_loop app]; rewrite rd_mid;
    cbn [mbind option_bind].
  { rewrite decide_False by (by intros <-). by rewrite decide_True. }
  inversion Hs as [|? ? [H1 H2] Hs']; subst. rewrite !decide_False by done. rewrite cons_middle, app_assoc.
  replace (zlen pre + 1) with (zlen (pre ++ [x])) by (rewrite length_app; simpl; lia). apply IH; [done..|lia].
Qed.

(** The first [c] behind [pre]. *)
Lemma strchr_hit b pre s c rest : b = pre ++ s ++ c :: rest -> Forall (fun x => x <> c /\ x <> 0) s ->
  strchr b (zlen pre) c = Some (Some (zlen pre + zlen s)).
Proof. intros -> Hs. apply strchr_loop_hit; [done|]. rewrite !length_app. simpl. lia. Qed.

Lemma strchr_miss b pre s c rest : b = pre ++ s ++ 0 :: rest -> c <> 0 -> Forall (fun x => x <> c /\ x <> 0) s ->
  strchr b (zlen pre) c = Some None.
Proof. intros -> Hc Hs. apply strchr_loop_miss; [done..|]. rewrite !length_app. simpl. lia. Qed.

Lemma bytes_at_mid pre xs post : bytes_at (pre ++ xs ++ post) (zlen pre) xs.
Proof.
  apply bytes_at_of_rd. intros i Hi. rewrite rd_app_r, rd_app_l by lia. f_equal. lia.
Qed.

(** A copy of the octets behind [pre]. *)
Lemma fill_string_spec n b pre s post : b = pre ++ s ++ post -> is_bytes s -> zlen s < n ->
  fill_string (fresh n) b (zlen pre) (zlen s) = Some (s ++ 0 :: fresh (n - zlen s - 1)).
Proof.
  intros -> Hs Hn. unfold fill_string. rewrite (copy_at_Z _ _ s) by (apply bytes_at_mid || done).
  pose proof (fresh_length n ltac:(lia)). change (fresh n) with ([] ++ fresh n). change 0 with (zlen (@nil Z)) at 1.
  rewrite puts_mid by (done || lia). cbn [mbind option_bind app].
  replace (drop (length s) (fresh n)) with (0 :: fresh (n - zlen s - 1)).
  - rewrite wr_Some by (rewrite length_app; simpl; lia). rewrite Nat2Z.id. by rewrite -> (insert_app_r_alt _ _ _ _ (le_n _)), Nat.sub_diag.
  - unfold fresh. rewrite drop_replicate. replace (Z.to_nat n - length s)%nat with (S (Z.to_nat (n - zlen s - 1))) by lia. done.
Qed.

Lemma createStringFromBuffer_spec b pre s post : b = pre ++ s ++ post -> is_bytes s ->
  createStringFromBuffer b (zlen pre) (zlen s) [] = Some (Some (s ++ [0]), []).
Proof.
  intros E Hs. unfold createStringFromBuffer, malloc_size, malloc, m_bind, m_lift, m_ret. cbn [mbind option_bind].
  rewrite bool_decide_true by lia. cbn [andb]. rewrite (fill_string_spec _ b pre s post) by (done || lia).
  cbn [mbind option_bind]. by replace (zlen s + 1 - zlen s - 1) with 0 by lia.
Qed.

Lemma replace_spec s old new : Forall (fun x => x <> 0) s ->
  replace (s ++ [0]) old new = Some (((fun x => if decide (x = old) then new else x) <$> s) ++ [0]).
Proof.
  intros Hs. unfold replace. rewrite (strlen_spec _ s) by (split; [by exists []|done]). cbn [mbind option_bind].
  rewrite Nat2Z.id, take_app_length, drop_app_length. done.
Qed.

(** Digits that are a number [v] read as that number. *)
Lemma digitsToInt_loop_spec ds : forall b pre post v,
  b = pre ++ ds ++ post -> Forall (fun d => 48 <= d <= 57) ds -> 0 <= v ->
  foldl (fun a d => a * 10 + (d - 48)) v ds < 2147483648 ->
  digitsToInt_loop (length ds) b (zlen pre) v = Some (foldl (fun a d => a * 10 + (d - 48)) v ds).
Proof.
  assert (Hm : forall (ds : list Z) v, Forall (fun d => 48 <= d <= 57) ds -> 0 <= v -> v <= foldl (fun a d => a * 10 + (d - 48)) v ds).
  { intros l. induction l as [|d l IH]; intros v Hd Hv; simpl; [lia|]. inversion Hd; subst.
    specialize (IH (v * 10 + (d - 48)) ltac:(done) ltac:(lia)). lia. }
  induction ds as [|d ds IH]; intros b pre post v -> Hd Hv Hb; [done|]. inversion Hd as [|? ? H1 H2]; subst.
  cbn [length digitsToInt_loop app]. rewrite rd_mid. cbn [mbind option_bind].
  simpl in Hb. specialize (Hm ds (v * 10 + (d - 48)) H2 ltac:(lia)).
  unfold digitToInt, isDigit. rewrite bool_decide_true by lia. unfold is_s32.
  rewrite decide_False by lia. rewrite decide_False by lia. rewrite decide_True by lia.
  replace (zlen pre + 1) with (zlen (pre ++ [d])) by (rewrite length_app; simpl; lia).
  apply (IH _ _ post); [by rewrite <- app_assoc|done|lia|done].
Qed.

(** ** The order of strings *)

Definition weight (x : Z) : Z := getCharWeight (s8 x).

(** The weights tell all octets apart. *)
Lemma weight_inj x y : is_u8 x -> is_u8 y -> weight x = weight y -> x = y.
Proof.
  intros Hx Hy E. unfold is_u8 in *.
  assert (H : NoDup (weight <$> seqZ 0 256)) by (refine (bool_decide_eq_true_1 _ _); vm_compute; reflexivity).
  assert (L : forall z, 0 <= z < 256 -> (weight <$> seqZ 0 256) !! Z.to_nat z = Some (weight z)).
  { intros z Hz. rewrite list_lookup_fmap, lookup_seqZ_lt by lia. cbn. do 2 f_equal. lia. }
  pose proof (L x Hx) as Lx. rewrite E in Lx.
  pose proof (NoDup_lookup _ _ _ _ H Lx (L y Hy)). lia.
Qed.

Lemma weight_0 : weight 0 = 0.
Proof. done. Qed.

(** The lexicographic order of strings that end with a zero. *)
Fixpoint lex_lt (s t : list Z) : Prop :=
  match s, t with
  | x :: s, y :: t => weight x < weight y \/ weight x = weight y /\ lex_lt s t
  | _, _ => False
  end.

Definition str_lt (s t : list Z) : Prop := lex_lt (s ++ [0]) (t ++ [0]).
Definition str_le (s t : list Z) : Prop := ~ str_lt t s.

Lemma lex_irrefl s : ~ lex_lt s s.
Proof. induction s as [|x s IH]; cbn; [tauto|]. intros [?|[_ ?]]; [lia|by apply IH]. Qed.

Lemma lex_trans s : forall t u, lex_lt s t -> lex_lt t u -> lex_lt s u.
Proof.
  induction s as [|x s IH]; intros [|y t] [|z u]; cbn; try done.
  intros [H1|[E1 H1]] [H2|[E2 H2]]; [left; lia..|]. right. split; [lia|by eapply IH].
Qed.

Lemma str_total s : forall t, is_bytes s -> is_bytes t -> Forall (fun x => x <> 0) s -> Forall (fun x => x <> 0) t ->
  s = t \/ str_lt s t \/ str_lt t s.
Proof.
  unfold str_lt. induction s as [|x s IH]; intros [|y t] Hs Ht Zs Zt; cbn [app lex_lt]; [by left|..];
    rewrite ?Forall_cons in *; unfold is_bytes in *; rewrite ?Forall_cons in *.
  - destruct Ht as [Hy Ht], Zt as [Zy Zt]. assert (weight 0 <> weight y) by (intros E; by apply weight_inj in E; [subst|..]).
    right. lia.
  - destruct Hs as [Hx Hs], Zs as [Zx Zs]. assert (weight 0 <> weight x) by (intros E; by apply weight_inj in E; [subst|..]).
    right. lia.
  - destruct Hs as [Hx Hs], Zs as [Zx Zs], Ht as [Hy Ht], Zt as [Zy Zt].
    destruct (decide (weight x = weight y)) as [E|N]; [|right; lia].
    apply weight_inj in E as ->; [|done..]. destruct (IH t) as [->|[H|H]]; try done; [by left|right; left; right; by split|right; right; right; by split].
Qed.

(** A string in memory: octets, none of them 0. *)
Definition string_in (b s : list Z) : Prop := cstr b s /\ is_bytes s.

Lemma compareStrings_spec pa a s pb b t : string_in a s -> string_in b t ->
  exists d, compareStrings (pa, a) (pb, b) = Some d /\
    (s <> t -> d <> 0 /\ (d < 0 <-> str_lt s t)).
Proof.
  intros [[[ra ->] Zs] Bs] [[[rb ->] Zt] Bt]. unfold compareStrings. cbn [snd].
  assert (G : forall s t pre fuel, is_bytes s -> is_bytes t -> Forall (fun x => x <> 0) s -> Forall (fun x => x <> 0) t ->
    (length s < fuel)%nat ->
    exists d, compareStrings_loop fuel (pa, pre ++ s ++ 0 :: ra) (pb, pre ++ t ++ 0 :: rb) (zlen pre) = Some d /\
      (s <> t -> d <> 0 /\ (d < 0 <-> str_lt s t))).
  { clear. intros s. induction s as [|x s IH]; intros t pre fuel Bs Bt Zs Zt Hf.
    - destruct fuel as [|fuel]; [simpl in Hf; lia|]. destruct t as [|y t]; cbn [compareStrings_loop snd fst app].
      + rewrite !rd_mid. cbn [mbind option_bind]. rewrite decide_False by (unfold compareChars; lia).
        rewrite decide_True by lia. eexists. split; [done|]. done.
      + rewrite !rd_mid. cbn [mbind option_bind]. unfold is_bytes in Bt. rewrite Forall_cons in Bt, Zt. destruct Bt as [By Bt], Zt as [Zy Zt].
        assert (N : weight 0 <> weight y) by (intros E; by apply weight_inj in E; [subst|..]).
        unfold compareChars. fold (weight 0) (weight y). rewrite decide_True by lia. eexists. split; [done|].
        intros _. unfold str_lt. cbn [app lex_lt]. destruct t; cbn [app lex_lt]; lia.
    - destruct fuel as [|fuel]; [simpl in Hf; lia|]. unfold is_bytes in Bs. rewrite Forall_cons in Bs, Zs. destruct Bs as [Bx Bs], Zs as [Zx Zs].
      destruct t as [|y t]; cbn [compareStrings_loop snd fst app].
      + rewrite !rd_mid. cbn [mbind option_bind].
        assert (N : weight x <> weight 0) by (intros E; by apply weight_inj in E; [subst|..]).
        unfold compareChars. fold (weight 0) (weight x). rewrite decide_True by lia. eexists. split; [done|].
        intros _. unfold str_lt. cbn [app lex_lt]. destruct s; cbn [app lex_lt]; lia.
      + rewrite !rd_mid. cbn [mbind option_bind]. unfold is_bytes in Bt. rewrite Forall_cons in Bt, Zt. destruct Bt as [By Bt], Zt as [Zy Zt].
        unfold compareChars. fold (weight x) (weight y). unfold str_lt. cbn [app lex_lt]. fold (str_lt s t).
        case_decide as D; [eexists; split; [done|]; intros _; lia|].
        assert (E : x = y) by (apply weight_inj; [done..|lia]). subst y. rewrite decide_False by lia.
        destruct (IH t (pre ++ [x]) fuel) as (d & E & Hd); try done; [simpl in Hf; lia|].
        rewrite length_app in E. cbn [length] in E. rewrite Nat2Z.inj_add, <- !app_assoc in E. cbn [app] in E.
        exists d. split; [exact E|]. intros N. destruct Hd as [H1 H2]; [by intros ->|]. split; [done|].
        rewrite H2. unfold str_lt. split; [by right; split|intros [?|[_ ?]]; [lia|done]]. }
  apply (G s t [] _ Bs Bt Zs Zt). rewrite length_app. lia.
Qed.

(** ** Sorting *)

Section sorting.
(** The string of an element. *)
Context (str : string_at -> list Z).
Definition holds_string (x : string_at) : Prop := string_in (snd x) (str x).
Definition before (x y : string_at) : Prop := str_le (str x) (str y).

Lemma before_trans x y z : holds_string x -> holds_string y -> holds_string z -> before x y -> before y z -> before x z.
Proof.
  intros [[_ Zx] Bx] [[_ Zy] By] [[_ Zz] Bz] H1 H2 H. unfold before, str_le in *.
  destruct (str_total (str y) (str x)) as [E|[L|L]]; try done; [congruence|].
  apply H2. by eapply lex_trans.
Qed.

Lemma sort_insert_spec x l : holds_string x -> Forall holds_string l -> StronglySorted before l ->
  exists l', sort_insert x l = Some l' /\ l' ≡ₚ x :: l /\ StronglySorted before l'.
Proof.
  intros Hx. induction l as [|y l IH]; intros Hl Hs; cbn [sort_insert].
  - exists [x]. split; [done|]. split; [done|]. by repeat constructor.
  - apply Forall_cons in Hl as [Hy Hl]. apply StronglySorted_inv in Hs as [Hs Hf].
    destruct x as [px bx], y as [py by'].
    destruct (compareStrings_spec px bx (str (px, bx)) py by' (str (py, by')) Hx Hy) as (d & E & Hd).
    rewrite E. cbn [mbind option_bind]. clear E.
    assert (Hxy : d < 0 -> before (px, bx) (py, by') \/ str (px, bx) = str (py, by')).
    { intros H. destruct (decide (str (px, bx) = str (py, by'))) as [|N]; [by right|]. left. destruct (Hd N) as [_ [L _]].
      intros L'. apply (lex_irrefl (str (px, bx) ++ [0])). eapply lex_trans; [by apply L|exact L']. }
    assert (Hle : d < 0 -> before (px, bx) (py, by')).
    { intros [?|Ee]%Hxy; [done|]. unfold before, str_le. rewrite Ee. apply lex_irrefl. }
    case_decide as D.
    + eexists. split; [done|]. split; [done|]. constructor; [by constructor|]. constructor; [by apply Hle|].
      apply list.Forall_forall. intros z Hz. rewrite list.Forall_forall in Hf, Hl.
      apply (before_trans _ (py, by')); auto.
    + destruct IH as (l' & -> & Hp & Hs'); [done|done|]. cbn [mbind option_bind]. eexists. split; [done|].
      split; [rewrite Hp; apply Permutation_swap|]. constructor; [done|]. rewrite Hp. constructor; [|done].
      destruct (decide (str (px, bx) = str (py, by'))) as [Ee|N].
      * unfold before, str_le. rewrite Ee. apply lex_irrefl.
      * destruct (Hd N) as [_ [_ L]]. intros H%L. lia.
Qed.

(** [StringUtils_sortList] permutes the list into the order of the strings, for any
    strings that end inside their memory. *)
Theorem sorted_strings l : Forall holds_string l ->
  exists l', sortList l = Some l' /\ l' ≡ₚ l /\ StronglySorted before l'.
Proof.
  intros Hl.
  assert (G : forall l sorted, Forall holds_string l -> Forall holds_string sorted -> StronglySorted before sorted ->
    exists l', sort_loop l sorted = Some l' /\ l' ≡ₚ l ++ sorted /\ StronglySorted before l').
  { clear l Hl. induction l as [|x l IH]; intros sorted Hl Hsl Hs; cbn [sort_loop]; [by exists sorted|].
    apply Forall_cons in Hl as [Hx Hl]. destruct (sort_insert_spec x sorted Hx Hsl Hs) as (s' & -> & Hp & Hs').
    cbn [mbind option_bind]. destruct (IH s' Hl) as (l' & -> & Hp' & Hs''); [rewrite Hp; by constructor|done|].
    eexists. split; [done|]. split; [|done]. rewrite Hp', Hp. symmetry. apply Permutation_middle. }
  destruct l as [|x l]; [exists []; by repeat constructor|]. apply Forall_cons in Hl as [Hx Hl].
  destruct (G l [x]) as (l' & E & Hp & Hs); [done|by constructor|by repeat constructor|].
  exists l'. split; [done|]. split; [|done]. rewrite Hp. symmetry. apply Permutation_cons_append.
Qed.
End sorting.

Definition sample_str (x : string_at) : list Z := take (pred (length (snd x))) (snd x).

(** ["b"], ["B"], ["a"] become ["a"], ["B"], ["b"]. *)
Lemma sorted_strings_witness :
  exists l', sortList [(1, [98; 0]); (2, [66; 0]); (3, [97; 0])] = Some l' /\
    l' ≡ₚ [(1, [98; 0]); (2, [66; 0]); (3, [97; 0])] /\ StronglySorted (before sample_str) l'.
Proof.
  apply (sorted_strings sample_str). repeat constructor; cbn; try (by exists []); solve_bytes || lia.
Defined.

(** ** IPv6 addresses *)

Definition text (s : list Z) : list Z := s ++ [0].

(** ["fe80::1"] is read; ["::1"] is refused, since both colons end an empty token. *)
Example ipv6_link_local :
  convertIPv6AdddressStringToByteArray (text [102; 101; 56; 48; 58; 58; 49]) (replicate 16 0) =
    Some ([0xfe; 0x80] ++ replicate 13 0 ++ [1], true).
Proof. vm_compute. reflexivity. Qed.

Example ipv6_leading_gap_refused :
  convertIPv6AdddressStringToByteArray (text [58; 58; 49]) (replicate 16 0) =
    Some (replicate 16 0, false).
Proof. vm_compute. reflexivity. Qed.

(** ["1::2:3:4:5:6"]: the blocks behind the gap are moved from the front, over those not
    moved yet, so the octets are not those of 1:0:0:2:3:4:5:6. *)
Example ipv6_gap_in_front :
  convertIPv6AdddressStringToByteArray (text [49; 58; 58; 50; 58; 51; 58; 52; 58; 53; 58; 54]) (replicate 16 0) =
    Some ([0; 1; 0; 0; 0; 0; 0; 0; 0; 0; 0; 0; 0; 3; 0; 2], true).
Proof. vm_compute. reflexivity. Qed.

(** A token of 100 characters does not fit its buffer. *)
Example ipv6_long_token :
  convertIPv6AdddressStringToByteArray (text (replicate 100 48 ++ [58])) (replicate 16 0) = None.
Proof. vm_compute. reflexivity. Qed.

End StringUtils.
