(* ===== verification/ObjectReference.v ===== *)
(** * Object references and MMS names

    The end of [src/iec61850/common/iec61850_common.c]: an object reference such as
    [LD/LN.DO.DA[ST]] names the variable [LN$ST$DO$DA] of the domain [LD]; with an index,
    [LD/LN.DO(3).DA[ST]], it names a component of an element of an array.  Strings are
    their memory with the terminating zero, as in file StringUtils. *)

From S2P Require Import Prelude Alloc BerEncoder BerInteger MmsValue StringUtils IecCommon.

Module ObjectReference.
Import Alloc MmsValue StringUtils IecCommon.
#[local] Open Scope alloc_scope.

(** The position of the [/], or the length of the string. *)
Fixpoint find_slash (n : nat) (objectReference : list Z) (i : Z) : option Z :=
  match n with
  | O => Some i
  | S n => x ← objectReference.[i]; if decide (x = 47) then Some i else find_slash n objectReference (i + 1)
  end.

(** The target of a string: the buffer of the caller, or new memory, whose allocation is not
    checked. *)
Definition target (buffer : option (list Z)) (n : Z) : alloc (list Z) :=
  match buffer with
  | Some buffer => m_ret buffer
  | None => ok <~ malloc; if (ok : bool) then m_ret (fresh n) else m_lift None
  end.

Definition MmsMapping_getMmsDomainFromObjectReference (objectReference : list Z) (buffer : option (list Z))
    : alloc (option (list Z)) :=
  objRefLength <~ m_lift (strlen objectReference);
  if decide (objRefLength > 129) then m_ret None
  else
    i <~ m_lift (find_slash (Z.to_nat objRefLength) objectReference 0);
    if decide (i > 64) then m_ret None
    else if decide (i = objRefLength) then m_ret None
    else
      domainName <~ target buffer (i + 1);
      domainName <~ m_lift (fill_string domainName objectReference 0 i);
      m_ret (Some domainName).

(** The loop over the name: the first dot becomes [$FC$]. *)
Fixpoint convert_loop (n : nat) (objectReference fcString mmsVariableName : list Z)
    (sourceIndex destIndex : Z) (fcAdded : bool) : option (list Z * Z * bool) :=
  match n with
  | O => Some (mmsVariableName, destIndex, fcAdded)
  | S n =>
      x ← objectReference.[sourceIndex];
      '(mmsVariableName, destIndex) ←
        puts mmsVariableName destIndex
          (if decide (x <> 46) then [x] else if fcAdded then [36] else [36] ++ fcString ++ [36]);
      convert_loop n objectReference fcString mmsVariableName (sourceIndex + 1) destIndex
        (fcAdded || bool_decide (x = 46))
  end.

Definition MmsMapping_createMmsVariableNameFromObjectReference (objectReference : list Z)
    (fc : FunctionalConstraint) (buffer : option (list Z)) : alloc (option (list Z)) :=
  objRefLength <~ m_lift (strlen objectReference);
  if decide (objRefLength > 129) then m_ret None
  else
    i <~ m_lift (find_slash (Z.to_nat objRefLength) objectReference 0);
    if decide (i > 64) then m_ret None
    else
      let i := if decide (i = objRefLength) then 0 else i + 1 in
      if decide (fc = FC_NONE) then
        mmsVariableName <~ target buffer 65;
        mmsVariableName <~ m_lift (copyStringMax mmsVariableName 65 (from objectReference i));
        m_ret (Some mmsVariableName)
      else
        match FunctionalConstraint_toString fc with
        | None => m_ret None
        | Some fcString =>
            let namePartLength := objRefLength - i - 1 in
            if decide (namePartLength > 61) then m_ret None
            else
              mmsVariableName <~ target buffer (namePartLength + 5);
              r <~ m_lift (
                '(mmsVariableName, destIndex, fcAdded) ←
                  convert_loop (Z.to_nat (objRefLength - i)) objectReference fcString mmsVariableName i 0 false;
                '(mmsVariableName, destIndex) ←
                  puts mmsVariableName destIndex (if (fcAdded : bool) then [] else [36] ++ fcString);
                mmsVariableName.[destIndex]:= 0);
              m_ret (Some r)
        end.

Record MmsVariableAccessSpecification := {
  domainId : option (list Z);
  itemId : option (list Z);
  arrayIndex : Z;
  componentName : option (list Z)
}.

(** The index and the component behind the opening bracket at [indexBrace]. *)
Definition parseIndex (objectReference : list Z) (indexBrace objRefLen : Z) : alloc (Z * option (list Z)) :=
  let indexStart := indexBrace + 1 in
  indexEnd <~ m_lift (e ← strchr objectReference indexStart 41; e);
  index <~ m_lift (digitsToInt objectReference indexStart (indexEnd - indexStart));
  let componentNameLen := objRefLen - (indexEnd + 2) - 4 in
  if decide (componentNameLen > 0) then
    name <~ createStringFromBuffer objectReference (indexEnd + 2) componentNameLen;
    match name with
    | Some name => name <~ m_lift (replace name 46 36); m_ret (index, Some name)
    | None => m_lift None
    end
  else m_ret (index, None).

(** The copy of the item goes to an array of 129 characters. *)
Definition parseItem (objectReference : list Z) (domainIdEnd : Z) (fc : FunctionalConstraint)
    (itemIdEnd : Z) : alloc (option (list Z)) :=
  itemIdStr <~ m_lift (fill_string (fresh 129) objectReference (domainIdEnd + 1) (itemIdEnd - domainIdEnd - 1));
  MmsMapping_createMmsVariableNameFromObjectReference itemIdStr fc None.

Definition MmsMapping_ObjectReferenceToVariableAccessSpec (objectReference : list Z)
    : alloc (option MmsVariableAccessSpecification) :=
  slash <~ m_lift (strchr objectReference 0 47);
  match slash with
  | None => m_ret None
  | Some domainIdEnd =>
      if decide (domainIdEnd > 64) then m_ret None
      else
        start <~ m_lift (strchr objectReference 0 91);
        match start with
        | None => m_ret None
        | Some fcStart =>
            e <~ m_lift (strchr objectReference fcStart 93);
            match e with
            | None => m_ret None
            | Some fcEnd =>
                if decide (fcEnd - fcStart <> 3) then m_ret None
                else
                  fc <~ m_lift (FunctionalConstraint_fromString objectReference (fcStart + 1));
                  ok <~ malloc;
                  if (ok : bool) then
                    domainId <~ createStringFromBuffer objectReference 0 domainIdEnd;
                    indexBrace <~ m_lift (strchr objectReference domainIdEnd 40);
                    itemIdEnd <~ m_lift (match indexBrace with
                                         | Some p => Some (Some p)
                                         | None => strchr objectReference domainIdEnd 91
                                         end);
                    objRefLen <~ m_lift (strlen objectReference);
                    match itemIdEnd with
                    | None => m_ret (Some {| domainId := domainId; itemId := None; arrayIndex := -1; componentName := None |})
                    | Some itemIdEnd =>
                        itemId <~ parseItem objectReference domainIdEnd fc itemIdEnd;
                        r <~ match indexBrace with
                             | Some p => parseIndex objectReference p objRefLen
                             | None => m_ret (-1, None)
                             end;
                        m_ret (Some {| domainId := domainId; itemId := itemId; arrayIndex := fst r;
                                       componentName := snd r |})
                    end
                  else m_lift None
            end
        end
  end.

(** ** From names to references *)

Fixpoint getNumberOfDigits_loop (fuel : nat) (value numberOfDigits : Z) : option Z :=
  match fuel with
  | O => None
  | S fuel =>
      if decide (value > 9) then getNumberOfDigits_loop fuel (value / 10) (numberOfDigits + 1)
      else Some numberOfDigits
  end.

Definition getNumberOfDigits (value : Z) : option Z := getNumberOfDigits_loop 11 value 1.

(** The decimal digits that [sprintf] prints for a number that is not negative. *)
Fixpoint digits_loop (fuel : nat) (value : Z) (acc : list Z) : list Z :=
  match fuel with
  | O => acc
  | S fuel =>
      let acc := 48 + value mod 10 :: acc in
      if decide (value > 9) then digits_loop fuel (value / 10) acc else acc
  end.

Definition decimal (value : Z) : list Z := digits_loop 11 value [].

(** The characters with [.] for [$]. *)
Definition dots (xs : list Z) : list Z := (fun x => if decide (x = 36) then 46 else x) <$> xs.

(** The check of the format [<name>$<FC><FC>$...]. *)
Definition valid_separator (itemId : list Z) (itemIdLen : Z) (separator : option Z) : option (option Z) :=
  match separator with
  | None => Some None
  | Some separator =>
      if decide (separator >= itemIdLen \/ separator + 3 >= itemIdLen) then Some None
      else
        a ← itemId.[separator + 1]; b ← itemId.[separator + 2]; c ← itemId.[separator + 3];
        if decide (a = 0 \/ b = 0 \/ c <> 36) then Some None else Some (Some separator)
  end.

(** The string as the loops write it, piece by piece; the first octets of [xs] come from
    [rds]. *)
Definition referenceOctets (spec : MmsVariableAccessSpecification) (domain item : list Z)
    (domainIdLen itemIdLen separator : Z) : option (list Z) :=
  d ← rds (Z.to_nat domainIdLen) domain 0;
  name ← rds (Z.to_nat separator) item 0;
  rest ← rds (Z.to_nat (itemIdLen - (separator + 4))) item (separator + 4);
  component ← match componentName spec with
              | None => Some []
              | Some c => n ← strlen c; xs ← rds (Z.to_nat n) c 0; Some (46 :: dots xs)
              end;
  a ← item.[separator + 1]; b ← item.[separator + 2];
  Some (d ++ [47] ++ name ++ [46] ++ dots rest ++
        (if decide (arrayIndex spec > -1) then [40] ++ decimal (arrayIndex spec) ++ [41] else []) ++
        component ++ [91; a; b; 93; 0]).

Definition MmsMapping_varAccessSpecToObjectReference (spec : MmsVariableAccessSpecification)
    : alloc (option (list Z)) :=
  domain <~ m_lift (domainId spec);
  domainIdLen <~ m_lift (strlen domain);
  item <~ m_lift (itemId spec);
  itemIdLen <~ m_lift (strlen item);
  sep <~ m_lift (strchr item 0 36);
  separator <~ m_lift (valid_separator item itemIdLen sep);
  match separator with
  | None => m_ret None
  | Some separator =>
      componentPartLen <~ m_lift (match componentName spec with None => Some 0 | Some c => strlen c end);
      arrayIndexLen <~ m_lift (if decide (arrayIndex spec > -1) then n ← getNumberOfDigits (arrayIndex spec); Some (2 + n)
                               else Some 0);
      let newStringLen := (domainIdLen + 1) + (itemIdLen - 2) + arrayIndexLen + 4 + componentPartLen + 1 in
      ok <~ malloc;
      if (ok : bool) then
        octets <~ m_lift (referenceOctets spec domain item domainIdLen itemIdLen separator);
        r <~ m_lift (puts (fresh newStringLen) 0 octets);
        m_ret (Some (fst r))
      else m_lift None
  end.

(** ** From a reference to the variable and back *)

(** A character of a name that has no meaning in a reference or an MMS name. *)
Definition name_char (x : Z) : Prop := is_u8 x /\ x ∉ [0; 36; 40; 41; 46; 47; 91; 93].
(** Names with dots between them. *)
Definition path_char (x : Z) : Prop := x = 46 \/ name_char x.

(** The parts of a reference: [LD/LN.DO.DA[FC]], or [LD/LN.DO(index).component[FC]]. *)
Record reference := {
  ldName : list Z;
  lnName : list Z;
  path : list Z;
  element : option (Z * list Z);
  constraint : FunctionalConstraint
}.

(** The text of an index and the component behind it. *)
Definition element_text (e : option (Z * list Z)) : list Z :=
  match e with
  | None => []
  | Some (n, c) => [40] ++ decimal n ++ [41] ++ (if decide (c = []) then [] else [46] ++ c)
  end.

Definition reference_text (r : reference) (fc : list Z) : list Z :=
  ldName r ++ [47] ++ lnName r ++ [46] ++ path r ++ element_text (element r) ++ [91] ++ fc ++ [93].

(** The characters with [$] for [.]. *)
Definition dollars (xs : list Z) : list Z := (fun x => if decide (x = 46) then 36 else x) <$> xs.

(** The name of the variable. *)
Definition mms_name (r : reference) (fc : list Z) : list Z :=
  lnName r ++ [36] ++ fc ++ [36] ++ dollars (path r).

Definition wf_reference (r : reference) (fc : list Z) : Prop :=
  FunctionalConstraint_toString (constraint r) = Some fc /\
  Forall name_char (ldName r) /\ zlen (ldName r) <= 64 /\
  Forall name_char (lnName r) /\ Forall path_char (path r) /\
  zlen (lnName r) + 1 + zlen (path r) <= 62 /\
  match element r with
  | None => True
  | Some (n, c) => 0 <= n < 2147483648 /\ Forall path_char c
  end.

Lemma fc_chars fc s : FunctionalConstraint_toString fc = Some s -> exists a b, s = [a; b] /\ name_char a /\ name_char b.
Proof.
  intros E. destruct fc; try discriminate E; injection E as <-; do 2 eexists; (split; [done|]); unfold name_char, is_u8;
    split; (split; [lia|]); rewrite !not_elem_of_cons; (split_and!; [lia..|apply not_elem_of_nil]).
Qed.

Lemma name_path x : name_char x -> path_char x.
Proof. by right. Qed.

Lemma path_not x c : path_char x -> c ∈ [0; 36; 40; 41; 47; 91; 93] -> x <> c.
Proof.
  intros [-> | [_ H]] Hc; [intros <-|intros ->].
  - rewrite !elem_of_cons, elem_of_nil in Hc. lia.
  - apply H. revert Hc. clear. rewrite !elem_of_cons. tauto.
Qed.

Lemma path_bytes s : Forall path_char s -> is_bytes s.
Proof. intros H. eapply Forall_impl; [exact H|]. intros x [-> | [Hx _]]; [unfold_int; lia|done]. Qed.

Lemma name_paths s : Forall name_char s -> Forall path_char s.
Proof. intros H. eapply Forall_impl; [exact H|apply name_path]. Qed.

Lemma dots_dollars s : Forall path_char s -> dots (dollars s) = s.
Proof.
  induction 1 as [|x s Hx _ IH]; [done|]. unfold dots, dollars in *. rewrite !fmap_cons, IH. f_equal. cbv beta.
  destruct (decide (x = 46)) as [->|]; [done|]. apply decide_False. apply path_not; [done|set_solver].
Qed.

Lemma dollars_length s : length (dollars s) = length s.
Proof. apply length_fmap. Qed.

Lemma dollars_ok s : Forall path_char s -> is_bytes (dollars s) /\ Forall (fun x => x <> 0) (dollars s).
Proof.
  intros H. split; apply Forall_fmap; (eapply Forall_impl; [exact H|]); intros x Hx; cbv beta; unfold compose;
    case_decide; try (unfold_int; lia).
  - destruct Hx as [|[? _]]; done.
  - apply path_not; [done|set_solver].
Qed.

Lemma path_forall (P : Z -> Prop) s : Forall path_char s -> (forall x, path_char x -> P x) -> Forall P s.
Proof. intros H HP. eapply Forall_impl; [exact H|done]. Qed.

(** *** Decimal numbers *)

Lemma digits_loop_spec fuel : forall v acc, 0 <= v < 10 ^ Z.of_nat fuel -> (0 < fuel)%nat ->
  exists ds, digits_loop fuel v acc = ds ++ acc /\ Forall (fun d => 48 <= d <= 57) ds /\
    foldl (fun a d => a * 10 + (d - 48)) 0 ds = v /\
    (forall k n, (fuel <= k)%nat -> getNumberOfDigits_loop k v n = Some (n + zlen ds - 1)) /\ ds <> [].
Proof.
  induction fuel as [|fuel IH]; intros v acc Hv Hf; [lia|]. cbn [digits_loop].
  pose proof (Z.mod_pos_bound v 10 ltac:(lia)) as Hm.
  assert (Hd : Forall (fun d => 48 <= d <= 57) [48 + v mod 10]) by (apply Forall_singleton; lia).
  case_decide as Hc.
  - rewrite Nat2Z.inj_succ, Z.pow_succ_r in Hv by lia.
    assert (Hv' : 0 <= v / 10 < 10 ^ Z.of_nat fuel) by (split; [apply Z.div_pos; lia|apply Z.div_lt_upper_bound; lia]).
    assert (Hf' : (0 < fuel)%nat).
    { destruct fuel; [|lia]. change (10 ^ Z.of_nat 0) with 1 in Hv. lia. }
    destruct (IH (v / 10) (48 + v mod 10 :: acc) Hv' Hf') as (ds & E & Hds & Hval & Hn & Hne).
    exists (ds ++ [48 + v mod 10]). rewrite E. split; [by rewrite <- app_assoc|]. split; [by apply Forall_app|].
    split. { rewrite foldl_app, Hval. cbn [foldl]. pose proof (Z.div_mod v 10 ltac:(lia)). lia. }
    split; [|by destruct ds]. intros [|k] n Hk; [lia|]. cbn [getNumberOfDigits_loop]. rewrite decide_True by lia.
    rewrite Hn by lia. f_equal. rewrite length_app. simpl. lia.
  - exists [48 + v mod 10]. split; [done|]. split; [done|]. rewrite Z.mod_small in * by lia. split; [simpl; lia|].
    split; [|done]. intros [|k] n Hk; [lia|]. cbn [getNumberOfDigits_loop]. rewrite decide_False by lia.
    f_equal. simpl. lia.
Qed.

(** Digits that the code prints are read back, and counted. *)
Lemma decimal_spec v : 0 <= v < 2147483648 ->
  Forall (fun d => 48 <= d <= 57) (decimal v) /\ foldl (fun a d => a * 10 + (d - 48)) 0 (decimal v) = v /\
  getNumberOfDigits v = Some (zlen (decimal v)).
Proof.
  intros Hv. destruct (digits_loop_spec 11 v []) as (ds & E & Hd & Hf & Hn & _); [simpl; lia|lia|].
  unfold decimal, getNumberOfDigits. rewrite E, app_nil_r, Hn by lia. split_and!; [done..|]. f_equal. lia.
Qed.

Lemma digitsToInt_decimal b pre v post : b = pre ++ decimal v ++ post -> 0 <= v < 2147483648 ->
  digitsToInt b (zlen pre) (zlen (decimal v)) = Some v.
Proof.
  intros E Hv. destruct (decimal_spec v Hv) as (Hd & Hf & _). unfold digitsToInt. rewrite Nat2Z.id.
  rewrite (digitsToInt_loop_spec _ b pre post 0) by (done || lia || (rewrite Hf; lia)). by rewrite Hf.
Qed.

(** *** The loops *)

(** What the conversion loop makes of a name. *)
Fixpoint converted (fc : list Z) (fcAdded : bool) (s : list Z) : list Z :=
  match s with
  | [] => []
  | x :: s => (if decide (x <> 46) then [x] else if fcAdded then [36] else [36] ++ fc ++ [36]) ++
              converted fc (fcAdded || bool_decide (x = 46)) s
  end.

Lemma converted_path fc s : converted fc true s = dollars s.
Proof.
  induction s as [|x s IH]; [done|]. cbn [converted orb]. rewrite IH. unfold dollars. rewrite fmap_cons.
  destruct (decide (x = 46)) as [->|]; [done|]. by rewrite decide_True.
Qed.

Lemma converted_name fc ln s : Forall name_char ln ->
  converted fc false (ln ++ 46 :: s) = ln ++ [36] ++ fc ++ [36] ++ dollars s.
Proof.
  induction 1 as [|x ln Hx _ IH]; cbn [converted app orb].
  { rewrite decide_False by (intros E; by apply E). rewrite bool_decide_true by done. rewrite converted_path.
    cbn [app]. rewrite <- app_assoc. done. }
  assert (x <> 46) by (intros ->; destruct Hx as [_ Hx]; apply Hx; set_solver).
  rewrite decide_True by done. rewrite bool_decide_false by done. rewrite IH. done.
Qed.

Lemma convert_loop_spec fc s : forall b out junk pre post added, b = pre ++ s ++ post -> is_bytes s -> is_bytes fc ->
  zlen (converted fc added s) <= zlen junk ->
  convert_loop (length s) b fc (out ++ junk) (zlen pre) (zlen out) added =
    Some (out ++ converted fc added s ++ drop (length (converted fc added s)) junk,
          zlen out + zlen (converted fc added s), added || bool_decide (46 ∈ s)).
Proof.
  induction s as [|x s IH]; intros b out junk pre post added -> Hs Hfc Hj.
  { cbn. rewrite bool_decide_false by apply not_elem_of_nil. rewrite orb_false_r. do 3 f_equal. lia. }
  inversion Hs as [|? ? Hx Hs']; subst. cbn [length convert_loop app]. rewrite rd_mid. cbn [mbind option_bind].
  cbn [converted app] in *. set (piece := if decide (x <> 46) then [x] else if added then [36] else 36 :: fc ++ [36]) in *.
  assert (Hp : is_bytes piece).
  { unfold piece. destruct (decide (x <> 46)); [by constructor|]. destruct added; [by repeat constructor|].
    constructor; [done|]. apply Forall_app; split; [done|by repeat constructor]. }
  rewrite length_app in Hj. rewrite puts_mid by (done || lia). cbn [mbind option_bind].
  replace (zlen pre + 1) with (zlen (pre ++ [x])) by (rewrite length_app; simpl; lia).
  replace (zlen out + zlen piece) with (zlen (out ++ piece)) by (rewrite length_app; lia).
  rewrite app_assoc. rewrite (IH _ (out ++ piece) _ (pre ++ [x]) post)
    by (done || (rewrite length_drop; lia) || (by rewrite <- app_assoc)).
  rewrite !length_app, drop_drop, <- !app_assoc. do 2 f_equal; [f_equal; lia|].
  rewrite <- orb_assoc. f_equal. rewrite <- bool_decide_or. apply bool_decide_ext. rewrite elem_of_cons.
  split; intros [?|?]; auto.
Qed.

(** A name without a logical device becomes the name of the variable. *)
Lemma variable_name b rest ln p fc fcs : FunctionalConstraint_toString fc = Some fcs ->
  b = (ln ++ 46 :: p) ++ 0 :: rest -> Forall name_char ln -> Forall path_char p -> zlen ln + 1 + zlen p <= 62 ->
  MmsMapping_createMmsVariableNameFromObjectReference b fc None [] =
    Some (Some (ln ++ [36] ++ fcs ++ [36] ++ dollars p ++ [0]), []).
Proof.
  intros Hfc -> Hln Hp Hl. set (s := ln ++ 46 :: p).
  assert (Hs : Forall path_char s) by (apply Forall_app; split; [by apply name_paths|apply Forall_cons; split; [by left|done]]).
  assert (Hz : zlen s <= 62) by (unfold s; rewrite length_app; simpl; lia).
  assert (Hc : Forall (fun x => x <> 47 /\ x <> 0) s).
  { apply (path_forall _ _ Hs). intros x Hx. split; (apply path_not; [done|set_solver]). }
  unfold MmsMapping_createMmsVariableNameFromObjectReference, target, malloc, m_bind, m_lift, m_ret.
  rewrite (strlen_spec _ s) by (split; [by eexists|by eapply Forall_impl; [exact Hc|]; intros ? [? ?]]).
  cbn [mbind option_bind]. rewrite decide_False by lia.
  assert (Hslash : forall t pre, Forall (fun x => x <> 47 /\ x <> 0) t -> find_slash (length t) (pre ++ t ++ 0 :: rest) (zlen pre) = Some (zlen pre + zlen t)).
  { clear. induction t as [|x t IH]; intros pre Ht; cbn [find_slash length app]; [f_equal; simpl; lia|].
    inversion Ht as [|? ? [H1 H2] Ht']; subst. rewrite rd_mid. cbn [mbind option_bind]. rewrite decide_False by done.
    rewrite cons_middle, app_assoc. replace (zlen pre + 1) with (zlen (pre ++ [x])) by (rewrite length_app; simpl; lia).
    rewrite IH by done. f_equal. rewrite length_app. simpl. lia. }
  rewrite Nat2Z.id. pose proof (Hslash s [] Hc) as E. cbn [app] in E. change (zlen [] + zlen s) with (zlen s) in E.
  change (zlen []) with 0 in E. rewrite E; clear E. cbn [mbind option_bind]. rewrite decide_False by lia.
  rewrite decide_False by (intros ->; discriminate Hfc). rewrite Hfc. rewrite !(decide_True (P := zlen s = zlen s)) by done.
  rewrite decide_False by lia.
  cbn [mbind option_bind]. rewrite Z.sub_0_r, Nat2Z.id.
  destruct (fc_chars _ _ Hfc) as (c1 & c2 & -> & Hc1 & Hc2).
  assert (Hconv : converted [c1; c2] false s = ln ++ [36] ++ [c1; c2] ++ [36] ++ dollars p) by (by apply converted_name).
  assert (Hlen : zlen (converted [c1; c2] false s) = zlen s + 3).
  { rewrite Hconv. unfold s. rewrite !length_app. simpl. rewrite dollars_length. lia. }
  pose proof (fresh_length (zlen s - 1 + 5) ltac:(lia)) as Hf.
  pose proof (convert_loop_spec [c1; c2] s (s ++ 0 :: rest) [] (fresh (zlen s - 1 + 5)) [] (0 :: rest) false) as E.
  change (zlen []) with 0 in E. cbn [app] in E. rewrite E; clear E; [|done|by apply path_bytes| |lia].
  2: { constructor; [apply Hc1|]. constructor; [apply Hc2|constructor]. }
  cbn [mbind option_bind orb]. rewrite bool_decide_true by (unfold s; set_solver). cbn [puts mbind option_bind].
  rewrite wr_Some by (rewrite length_app, length_drop; lia). cbn [mbind option_bind Z.add].
  rewrite insert_app_r_alt by lia. replace (Z.to_nat _ - _)%nat with 0%nat by lia.
  unfold fresh. rewrite drop_replicate. replace (_ - _)%nat with 1%nat by lia. rewrite Hconv. cbn [replicate].
  do 3 f_equal. change (<[0%nat:=u8 0]> [0]) with [0]. rewrite <- !app_assoc. done.
Qed.

(** *** The two functions *)

Definition access_spec (r : reference) (fc : list Z) : MmsVariableAccessSpecification :=
  {| domainId := Some (ldName r ++ [0]);
     itemId := Some (mms_name r fc ++ [0]);
     arrayIndex := match element r with Some (n, _) => n | None => -1 end;
     componentName := match element r with
                      | Some (_, c) => if decide (c = []) then None else Some (dollars c ++ [0])
                      | None => None
                      end |}.

(** The characters of the text before the constraint. *)
Lemma element_chars n c : 0 <= n < 2147483648 -> Forall path_char c ->
  Forall (fun x => x <> 91 /\ x <> 93 /\ x <> 47 /\ x <> 0) (element_text (Some (n, c))).
Proof.
  intros Hn Hc. destruct (decimal_spec n Hn) as (Hd & _). cbn [element_text].
  repeat (apply Forall_app; split); try (repeat constructor; done).
  - eapply Forall_impl; [exact Hd|]. intros x Hx; cbv beta in *; lia.
  - case_decide; [constructor|]. apply Forall_app; split; [repeat constructor; done|].
    apply (path_forall _ _ Hc). intros x Hx. split_and!; (apply path_not; [done|set_solver]).
Qed.

Lemma parseIndex_spec b pre n c fc rest len : b = pre ++ [40] ++ decimal n ++ [41] ++ (if decide (c = []) then [] else [46] ++ c) ++
    [91] ++ fc ++ [93] ++ 0 :: rest ->
  0 <= n < 2147483648 -> Forall path_char c -> zlen fc = 2 ->
  len = zlen pre + zlen (element_text (Some (n, c))) + 4 ->
  parseIndex b (zlen pre) len [] =
    Some ((n, if decide (c = []) then None else Some (dollars c ++ [0])), []).
Proof.
  intros E Hn Hc Hfc Hlen. destruct (decimal_spec n Hn) as (Hd & _). unfold parseIndex, m_bind, m_lift, m_ret.
  replace (zlen pre + 1) with (zlen (pre ++ [40])) by (rewrite length_app; simpl; lia).
  rewrite (strchr_hit b (pre ++ [40]) (decimal n) 41 ((if decide (c = []) then [] else [46] ++ c) ++ [91] ++ fc ++ [93] ++ 0 :: rest));
    [|rewrite E, <- !app_assoc; done|eapply Forall_impl; [exact Hd|]; intros x Hx; cbv beta in *; lia].
  cbn [mbind option_bind]. replace (_ + zlen (decimal n) - _) with (zlen (decimal n)) by lia.
  rewrite (digitsToInt_decimal b (pre ++ [40]) n ([41] ++ (if decide (c = []) then [] else [46] ++ c) ++ [91] ++ fc ++ [93] ++ 0 :: rest))
    by (done || (rewrite E, <- !app_assoc; done)).
  cbn [mbind option_bind]. subst len. cbn [element_text]. rewrite !length_app. cbn [length].
  destruct (decide (c = [])) as [->|Hne]; [by rewrite decide_False by (simpl; lia)|].
  assert (0 < zlen c) by (destruct c; [done|simpl; lia]).
  rewrite decide_True by (rewrite length_app; simpl; lia).
  pose proof (createStringFromBuffer_spec b (pre ++ [40] ++ decimal n ++ [41; 46]) c ([91] ++ fc ++ [93] ++ 0 :: rest)) as Ec.
  rewrite !length_app in Ec. cbn [length] in Ec. rewrite length_app.
  match goal with |- context [createStringFromBuffer b ?p ?k] =>
    replace k with (zlen c) by (simpl; lia);
    replace p with (Z.of_nat (length pre + (1 + (length (decimal n) + 2)))) by lia end.
  rewrite Ec; [|rewrite E, <- !app_assoc; done|by apply path_bytes]. cbn [mbind option_bind].
  rewrite replace_spec by (apply (path_forall _ _ Hc); intros x Hx; apply path_not; [done|set_solver]). done.
Qed.

Lemma path_chars s : Forall path_char s -> Forall (fun x => x <> 91 /\ x <> 93 /\ x <> 47 /\ x <> 0) s.
Proof. intros Hs. apply (path_forall _ _ Hs). intros x Hx. split_and!; (apply path_not; [done|set_solver]). Qed.

Lemma path_no_brace s : Forall path_char s -> Forall (fun x => x <> 40 /\ x <> 0) s.
Proof. intros Hs. apply (path_forall _ _ Hs). intros x Hx. split; (apply path_not; [done|set_solver]). Qed.

(** What the searches of the parser find in the text [b] of a reference. *)
Section Parsing.
Context (r : reference) (rest : list Z) (c1 c2 : Z) (Hwf : wf_reference r [c1; c2]).
Let b := reference_text r [c1; c2] ++ 0 :: rest.
Let item := lnName r ++ 46 :: path r.
Let pre := ldName r ++ [47] ++ item ++ element_text (element r).

Lemma constraint_chars : Forall path_char [c1; c2].
Proof.
  destruct Hwf as (Hfc & _). destruct (fc_chars _ _ Hfc) as (a & d & [= <- <-] & Ha & Hb).
  repeat (apply Forall_cons; split); [by apply name_path..|constructor].
Qed.

Lemma item_chars : Forall path_char item.
Proof.
  destruct Hwf as (_ & _ & _ & Hln & Hp & _). apply Forall_app; split; [by apply name_paths|].
  apply Forall_cons; split; [by left|done].
Qed.

Lemma element_ok : Forall (fun x => x <> 91 /\ x <> 93 /\ x <> 47 /\ x <> 0) (element_text (element r)).
Proof.
  destruct Hwf as (_ & _ & _ & _ & _ & _ & He).
  destruct (element r) as [[n c]|]; [destruct He; by apply element_chars|constructor].
Qed.

Lemma domain_chars : Forall path_char (ldName r).
Proof. apply name_paths, Hwf. Qed.

Lemma text_eq : b = ldName r ++ [47] ++ item ++ element_text (element r) ++ [91] ++ [c1; c2] ++ [93] ++ 0 :: rest.
Proof. unfold b, reference_text, item. rewrite <- !app_assoc. done. Qed.

Lemma text_pre : b = pre ++ [91] ++ [c1; c2] ++ [93] ++ 0 :: rest.
Proof. rewrite text_eq. unfold pre. by rewrite <- !app_assoc. Qed.

Lemma pre_chars : Forall (fun x => x <> 91 /\ x <> 0) pre.
Proof.
  unfold pre. repeat (apply Forall_app; split); try (repeat constructor; done).
  - eapply Forall_impl; [apply path_chars, domain_chars|]. by intros ? (? & _ & _ & ?).
  - eapply Forall_impl; [apply path_chars, name_paths, Hwf|]. by intros ? (? & _ & _ & ?).
  - apply Forall_cons; split; [done|]. eapply Forall_impl; [apply path_chars, Hwf|]. by intros ? (? & _ & _ & ?).
  - eapply Forall_impl; [apply element_ok|]. by intros ? (? & _ & _ & ?).
Qed.

Lemma text_length : strlen b = Some (zlen (reference_text r [c1; c2])).
Proof.
  apply strlen_spec. split; [by eexists|].
  assert (E : reference_text r [c1; c2] = pre ++ [91] ++ [c1; c2] ++ [93]).
  { unfold reference_text, pre, item. by rewrite <- !app_assoc. }
  rewrite E. apply Forall_app; split; [eapply Forall_impl; [apply pre_chars|]; by intros ? [_ ?]|].
  apply Forall_cons; split; [done|]. apply Forall_app; split; [|by repeat constructor].
  eapply Forall_impl; [apply path_no_brace, constraint_chars|]. by intros ? [_ ?].
Qed.

Lemma slash_found : strchr b 0 47 = Some (Some (zlen (ldName r))).
Proof.
  refine (strchr_hit b [] (ldName r) 47 _ text_eq _).
  eapply Forall_impl; [apply path_chars, domain_chars|]. by intros ? (_ & _ & ? & ?).
Qed.

Lemma bracket_found : strchr b 0 91 = Some (Some (zlen pre)) /\ strchr b (zlen pre) 93 = Some (Some (zlen pre + 3)).
Proof.
  split; [by refine (strchr_hit b [] pre 91 _ text_pre pre_chars)|].
  refine (strchr_hit b pre [91; c1; c2] 93 _ text_pre _). apply Forall_cons; split; [done|].
  eapply Forall_impl; [apply path_chars, constraint_chars|]. by intros ? (_ & ? & _ & ?).
Qed.

Lemma constraint_found : FunctionalConstraint_fromString b (zlen pre + 1) = Some (constraint r).
Proof.
  apply (fromString_toString _ [c1; c2]); [apply Hwf|].
  replace (zlen pre + 1) with (zlen (pre ++ [91])) by (rewrite length_app; simpl; lia).
  rewrite text_pre. rewrite app_assoc. apply bytes_at_mid.
Qed.

Lemma item_end : zlen (ldName r ++ [47] ++ item) = zlen (ldName r) + zlen ([47] ++ item).
Proof. rewrite !length_app. simpl. lia. Qed.

Lemma brace_found e : element r = Some e ->
  strchr b (zlen (ldName r)) 40 = Some (Some (zlen (ldName r ++ [47] ++ item))).
Proof.
  destruct e as [n c]. intros Ee. rewrite item_end.
  apply (strchr_hit b (ldName r) ([47] ++ item) 40 (decimal n ++ [41] ++ (if decide (c = []) then [] else [46] ++ c) ++
    [91] ++ [c1; c2] ++ [93] ++ 0 :: rest)).
  - rewrite text_eq, Ee. cbn [element_text]. by rewrite <- !app_assoc.
  - apply Forall_cons; split; [done|]. apply path_no_brace, item_chars.
Qed.

Lemma no_brace : element r = None ->
  strchr b (zlen (ldName r)) 40 = Some None /\
  strchr b (zlen (ldName r)) 91 = Some (Some (zlen (ldName r ++ [47] ++ item))).
Proof.
  intros Ee. pose proof text_eq as Eb. rewrite Ee in Eb. cbn [element_text app] in Eb. split.
  - apply (strchr_miss b (ldName r) (47 :: item ++ [91; c1; c2; 93]) 40 rest); [|done|].
    + rewrite Eb. cbn [app]. by rewrite <- app_assoc.
    + apply Forall_cons; split; [done|]. apply Forall_app; split; [apply path_no_brace, item_chars|].
      apply Forall_cons; split; [done|]. change [c1; c2; 93] with ([c1; c2] ++ [93]).
      apply Forall_app; split; [apply path_no_brace, constraint_chars|repeat constructor; done].
  - rewrite item_end. apply (strchr_hit b (ldName r) ([47] ++ item) 91 (c1 :: c2 :: 93 :: 0 :: rest) Eb).
    apply Forall_cons; split; [done|]. eapply Forall_impl; [apply path_chars, item_chars|]. by intros ? (? & _ & _ & ?).
Qed.

Lemma item_parsed : parseItem b (zlen (ldName r)) (constraint r) (zlen (ldName r ++ [47] ++ item)) [] =
  Some (Some (mms_name r [c1; c2] ++ [0]), []).
Proof.
  pose proof Hwf as (Hfc & _ & _ & Hln & Hp & Hl62 & _).
  assert (Hi : zlen item <= 62) by (unfold item; rewrite length_app; simpl; lia).
  unfold parseItem, m_bind, m_lift. rewrite item_end, length_app. cbn [length].
  replace (zlen (ldName r) + Z.of_nat (1 + length item) - zlen (ldName r) - 1) with (zlen item) by lia.
  replace (zlen (ldName r) + 1) with (zlen (ldName r ++ [47])) by (rewrite length_app; simpl; lia).
  rewrite (fill_string_spec 129 b (ldName r ++ [47]) item (element_text (element r) ++ [91] ++ [c1; c2] ++ [93] ++ 0 :: rest));
    [|by rewrite text_eq, <- !app_assoc|apply path_bytes, item_chars|lia].
  cbn [mbind option_bind]. rewrite (variable_name _ (fresh (129 - zlen item - 1)) (lnName r) (path r) _ [c1; c2]) by done.
  unfold mms_name. rewrite <- !app_assoc. done.
Qed.

Lemma reference_parsed :
  MmsMapping_ObjectReferenceToVariableAccessSpec b [] = Some (Some (access_spec r [c1; c2]), []).
Proof.
  pose proof Hwf as (_ & _ & Hl64 & _ & _ & _ & He). destruct bracket_found as [B1 B2].
  assert (B3 : createStringFromBuffer b 0 (zlen (ldName r)) [] = Some (Some (ldName r ++ [0]), [])).
  { refine (createStringFromBuffer_spec b [] (ldName r) _ text_eq _). apply path_bytes, domain_chars. }
  pose proof text_length as B4. pose proof item_parsed as B5. pose proof brace_found as B6. pose proof no_brace as B7.
  pose proof text_eq as B8. pose proof constraint_found as B9.
  unfold MmsMapping_ObjectReferenceToVariableAccessSpec, malloc, m_bind, m_lift, m_ret.
  rewrite slash_found. cbn [mbind option_bind]. rewrite decide_False by lia. rewrite B1. cbn [mbind option_bind].
  rewrite B2. cbn [mbind option_bind]. rewrite decide_False by lia. rewrite B9. cbn [mbind option_bind].
  rewrite B3.
  cbn [mbind option_bind]. destruct (element r) as [[n c]|] eqn:Ee.
  - rewrite (B6 _ eq_refl). cbn [mbind option_bind]. rewrite B4. cbn [mbind option_bind].
    rewrite B5. cbn [mbind option_bind]. destruct He as [Hn Hc].
    rewrite (parseIndex_spec b (ldName r ++ [47] ++ item) n c [c1; c2] rest);
      [|rewrite B8; cbn [element_text]; by rewrite <- !app_assoc|done..|].
    + cbn [mbind option_bind fst snd]. unfold access_spec. rewrite Ee. done.
    + unfold reference_text, item. rewrite ?Ee, !length_app. cbn [length]. rewrite ?length_app. cbn [length]. lia.
  - destruct (B7 eq_refl) as [-> ->]. cbn [mbind option_bind]. rewrite B4. cbn [mbind option_bind].
    rewrite B5. cbn [mbind option_bind fst snd]. unfold access_spec. rewrite Ee. done.
Qed.
End Parsing.

(** The other direction: the name of the variable and the parts of the reference. *)
Lemma rds_mid b pre s post : b = pre ++ s ++ post -> rds (length s) b (zlen pre) = Some s.
Proof. intros ->. apply rds_at, bytes_at_mid. Qed.

(** The component behind the index, as the text has it. *)
Definition component_text (e : option (Z * list Z)) : list Z :=
  match e with Some (_, c) => if decide (c = []) then [] else [46] ++ c | None => [] end.

Definition index_text (e : option (Z * list Z)) : list Z :=
  match e with Some (n, _) => [40] ++ decimal n ++ [41] | None => [] end.

Lemma element_text_parts e : element_text e = index_text e ++ component_text e.
Proof. destruct e as [[n c]|]; [|done]. cbn [element_text index_text component_text]. by rewrite <- !app_assoc. Qed.

Lemma reference_octets r c1 c2 : wf_reference r [c1; c2] ->
  referenceOctets (access_spec r [c1; c2]) (ldName r ++ [0]) (mms_name r [c1; c2] ++ [0]) (zlen (ldName r))
    (zlen (mms_name r [c1; c2])) (zlen (lnName r)) = Some (reference_text r [c1; c2] ++ [0]).
Proof.
  intros (_ & Hld & _ & Hln & Hp & _ & He). unfold referenceOctets. rewrite !Nat2Z.id.
  pose proof (rds_mid _ [] (ldName r) [0] eq_refl) as E. cbn [app] in E. change (zlen []) with 0 in E. rewrite E; clear E.
  cbn [mbind option_bind].
  pose proof (rds_mid (mms_name r [c1; c2] ++ [0]) [] (lnName r) ([36; c1; c2; 36] ++ dollars (path r) ++ [0])) as E.
  change (zlen []) with 0 in E. rewrite E by (unfold mms_name; cbn [app]; rewrite <- !app_assoc; done); clear E. cbn [mbind option_bind].
  replace (Z.to_nat (zlen (mms_name r [c1; c2]) - (zlen (lnName r) + 4))) with (length (dollars (path r)))
    by (unfold mms_name; rewrite !length_app; simpl; lia).
  replace (zlen (lnName r) + 4) with (zlen (lnName r ++ [36; c1; c2; 36])) by (rewrite length_app; simpl; lia).
  rewrite (rds_mid _ _ _ [0]) by (unfold mms_name; rewrite <- !app_assoc; done). cbn [mbind option_bind].
  rewrite dots_dollars by done.
  assert (Hc : (match componentName (access_spec r [c1; c2]) with
                | None => Some []
                | Some c => n ← strlen c; xs ← rds (Z.to_nat n) c 0; Some (46 :: dots xs)
                end) = Some (component_text (element r))).
  { cbn [access_spec componentName]. destruct (element r) as [[n c]|]; [|done]. cbn [component_text].
    destruct (decide (c = [])) as [|Hne]; [done|]. destruct He as [_ Hc]. destruct (dollars_ok c Hc) as [_ Hz].
    rewrite (strlen_spec _ (dollars c)) by (split; [by exists []|done]). cbn [mbind option_bind]. rewrite Nat2Z.id.
    pose proof (rds_mid _ [] (dollars c) [0] eq_refl) as E. cbn [app] in E. change (zlen []) with 0 in E. rewrite E.
    cbn [mbind option_bind]. by rewrite dots_dollars. }
  rewrite Hc. cbn [mbind option_bind].
  assert (Hi : (if decide (arrayIndex (access_spec r [c1; c2]) > -1)
                then [40] ++ decimal (arrayIndex (access_spec r [c1; c2])) ++ [41] else []) = index_text (element r)).
  { cbn [access_spec arrayIndex]. destruct (element r) as [[n c]|]; [|done]. destruct He as [Hn _]. by rewrite decide_True by lia. }
  rewrite Hi.
  assert (Hm : mms_name r [c1; c2] ++ [0] = (lnName r ++ [36]) ++ [c1; c2] ++ ([36] ++ dollars (path r) ++ [0])).
  { unfold mms_name. by rewrite <- !app_assoc. }
  pose proof (bytes_at_mid (lnName r ++ [36]) [c1; c2] ([36] ++ dollars (path r) ++ [0])) as Hat. rewrite <- Hm in Hat.
  replace (zlen (lnName r ++ [36])) with (zlen (lnName r) + 1) in Hat by (rewrite length_app; simpl; lia).
  cbn [bytes_at] in Hat. destruct Hat as (-> & H2 & _). cbn [mbind option_bind].
  replace (zlen (lnName r) + 2) with (zlen (lnName r) + 1 + 1) by lia. rewrite H2. cbn [mbind option_bind].
  unfold reference_text. rewrite element_text_parts, <- !app_assoc. done.
Qed.

Lemma separator_valid r c1 c2 : name_char c1 -> name_char c2 ->
  valid_separator (mms_name r [c1; c2] ++ [0]) (zlen (mms_name r [c1; c2])) (Some (zlen (lnName r))) =
    Some (Some (zlen (lnName r))).
Proof.
  intros Hc1 Hc2.
  assert (Hl : zlen (mms_name r [c1; c2]) = zlen (lnName r) + 4 + zlen (path r)).
  { unfold mms_name. rewrite !length_app, dollars_length. simpl. lia. }
  unfold valid_separator. rewrite decide_False by lia.
  pose proof (bytes_at_mid (lnName r ++ [36]) [c1; c2; 36] (dollars (path r) ++ [0])) as H.
  replace ((lnName r ++ [36]) ++ [c1; c2; 36] ++ dollars (path r) ++ [0]) with (mms_name r [c1; c2] ++ [0]) in H
    by (unfold mms_name; by rewrite <- !app_assoc).
  replace (zlen (lnName r ++ [36])) with (zlen (lnName r) + 1) in H by (rewrite length_app; simpl; lia).
  cbn [bytes_at] in H. destruct H as (-> & H2 & H3 & _). replace (zlen (lnName r) + 2) with (zlen (lnName r) + 1 + 1) by lia.
  replace (zlen (lnName r) + 3) with (zlen (lnName r) + 1 + 1 + 1) by lia. rewrite H2, H3. cbn [mbind option_bind].
  rewrite decide_False; [done|]. pose proof (path_not c1 0 (name_path _ Hc1)). pose proof (path_not c2 0 (name_path _ Hc2)).
  intros [->|[->|?]]; [apply H; [set_solver|done]|apply H0; [set_solver|done]|done].
Qed.

Lemma no_zero s : Forall path_char s -> Forall (fun x => x <> 0) s.
Proof. intros Hs. eapply Forall_impl; [by apply path_no_brace|]. by intros ? [_ ?]. Qed.

Lemma mms_name_chars r c1 c2 : wf_reference r [c1; c2] ->
  Forall (fun x => x <> 0) (mms_name r [c1; c2]) /\
  strchr (mms_name r [c1; c2] ++ [0]) 0 36 = Some (Some (zlen (lnName r))).
Proof.
  intros Hwf. pose proof Hwf as (_ & _ & _ & Hln & Hp & _). split.
  - unfold mms_name. repeat (apply Forall_app; split); try (repeat constructor; done).
    + by apply no_zero, name_paths.
    + by eapply no_zero, constraint_chars.
    + by apply dollars_ok.
  - refine (strchr_hit _ [] (lnName r) 36 ([c1; c2; 36] ++ dollars (path r) ++ [0]) _ _).
    + unfold mms_name. by rewrite <- !app_assoc.
    + apply (path_forall _ _ (name_paths _ Hln)). intros x Hx. split; (apply path_not; [done|set_solver]).
Qed.

Lemma component_length r fc : wf_reference r fc ->
  exists k, match componentName (access_spec r fc) with None => Some 0 | Some c => strlen c end = Some k /\
    zlen (component_text (element r)) <= k + 1 /\ 0 <= k.
Proof.
  intros (_ & _ & _ & _ & _ & _ & He). cbn [access_spec componentName].
  destruct (element r) as [[n c]|]; [|by exists 0]. cbn [component_text]. destruct (decide (c = [])); [by exists 0|].
  exists (zlen c). destruct He as [_ Hc]. destruct (dollars_ok c Hc) as [_ Hz].
  rewrite (strlen_spec _ (dollars c)) by (split; [by exists []|done]). rewrite dollars_length. split; [done|simpl; lia].
Qed.

Lemma index_length r fc : wf_reference r fc ->
  (if decide (arrayIndex (access_spec r fc) > -1) then n ← getNumberOfDigits (arrayIndex (access_spec r fc)); Some (2 + n)
   else Some 0) = Some (zlen (index_text (element r))).
Proof.
  intros (_ & _ & _ & _ & _ & _ & He). cbn [access_spec arrayIndex].
  destruct (element r) as [[n c]|]; [|done]. destruct He as [Hn _]. rewrite decide_True by lia.
  destruct (decimal_spec n Hn) as (_ & _ & ->). cbn [mbind option_bind index_text]. rewrite !length_app. f_equal. simpl. lia.
Qed.

Lemma text_bytes r c1 c2 : wf_reference r [c1; c2] -> is_bytes (reference_text r [c1; c2] ++ [0]).
Proof.
  intros Hwf. pose proof Hwf as (_ & Hld & _ & Hln & Hp & _ & He). unfold reference_text.
  repeat (apply Forall_app; split); try (by repeat constructor).
  - by apply path_bytes, name_paths.
  - by apply path_bytes, name_paths.
  - by apply path_bytes.
  - rewrite element_text_parts. destruct (element r) as [[n c]|]; [|constructor]. destruct He as [Hn Hc].
    destruct (decimal_spec n Hn) as (Hd & _). cbn [index_text component_text]. repeat (apply Forall_app; split); try (by repeat constructor).
    + eapply Forall_impl; [exact Hd|]. intros x Hx; cbv beta in *; unfold_int; lia.
    + case_decide; [constructor|]. apply Forall_cons; split; [done|by apply path_bytes].
  - by eapply path_bytes, constraint_chars.
Qed.

(** The memory that the function asks for holds the text; without a component one octet is
    left over. *)
Lemma reference_printed r c1 c2 : wf_reference r [c1; c2] ->
  exists rest, MmsMapping_varAccessSpecToObjectReference (access_spec r [c1; c2]) [] =
    Some (Some (reference_text r [c1; c2] ++ 0 :: rest), []).
Proof.
  intros Hwf. pose proof (reference_octets r c1 c2 Hwf) as Ho. pose proof Hwf as (Hfc & Hld & _).
  destruct (fc_chars _ _ Hfc) as (? & ? & [= <- <-] & Hc1 & Hc2). destruct (mms_name_chars r c1 c2 Hwf) as [Hn0 Hs].
  destruct (component_length _ _ Hwf) as (k & Hcl & Hk & Hk0). pose proof (index_length _ _ Hwf) as Hil.
  unfold MmsMapping_varAccessSpecToObjectReference, malloc, m_bind, m_lift, m_ret.
  change (domainId (access_spec r [c1; c2])) with (Some (ldName r ++ [0])).
  change (itemId (access_spec r [c1; c2])) with (Some (mms_name r [c1; c2] ++ [0])). cbn [mbind option_bind].
  rewrite (strlen_spec (ldName r ++ [0]) (ldName r)) by (split; [by exists []|by apply no_zero, name_paths]).
  cbn [mbind option_bind]. rewrite (strlen_spec _ (mms_name r [c1; c2])) by (split; [by exists []|done]). cbn [mbind option_bind].
  rewrite Hs. cbn [mbind option_bind]. rewrite separator_valid by done. cbn [mbind option_bind].
  rewrite Hcl. cbn [mbind option_bind]. rewrite Hil. cbn [mbind option_bind]. rewrite Ho. cbn [mbind option_bind].
  set (text := reference_text r [c1; c2]).
  assert (Htext : zlen text <= zlen (ldName r) + zlen (mms_name r [c1; c2]) + zlen (index_text (element r)) + k + 3).
  { unfold text, reference_text, mms_name. rewrite element_text_parts, !length_app. cbn [length].
    rewrite ?length_app, dollars_length. cbn [length]. lia. }
  match goal with |- context [fresh ?n] => set (size := n) end.
  pose proof (fresh_length size ltac:(unfold size; lia)) as Hf.
  pose proof (puts_mid [] (fresh size) (text ++ [0]) (text_bytes _ _ _ Hwf)) as Hw. cbn [app] in Hw. change (zlen []) with 0 in Hw.
  rewrite Hw by (rewrite length_app; cbn [length]; unfold size in *; lia). cbn [mbind option_bind fst].
  exists (drop (length (text ++ [0])) (fresh size)). by rewrite <- app_assoc.
Qed.


(** [LD/LN.A.B(12).c.d[ST]] *)
Definition sample_reference : reference :=
  {| ldName := [76; 68]; lnName := [76; 78]; path := [65; 46; 66]; element := Some (12, [99; 46; 100]); constraint := FC_ST |}.


(** An item of more than 128 characters is copied beyond the array for it. *)
Example long_item_overflows :
  MmsMapping_ObjectReferenceToVariableAccessSpec ([76; 47] ++ replicate 129 65 ++ [91; 83; 84; 93; 0]) [] = None.
Proof. vm_compute. reflexivity. Qed.

(** The search for the closing bracket of an index is not checked. *)
Example index_without_end :
  MmsMapping_ObjectReferenceToVariableAccessSpec [76; 47; 65; 46; 66; 40; 49; 91; 83; 84; 93; 0] [] = None.
Proof. vm_compute. reflexivity. Qed.

(** The check for the limit of 64 characters lets a name of 65 pass. *)
Example name_of_65 :
  (r ← MmsMapping_createMmsVariableNameFromObjectReference ([65; 46] ++ replicate 60 66 ++ [0]) FC_ST None [];
   n ← fst r; strlen n) = Some 65.
Proof. vm_compute. reflexivity. Qed.

End ObjectReference.
