(* ===== verification/SvPublisher.v ===== *)
(** * The sampled values publisher

    [src/sampled_values/sv_publisher.c]: a publisher lays out the frame once; afterwards the
    application writes counters, times and samples through pointers into the frame.  A
    pointer is a position in the frame.  Strings are the lists of their characters. *)

From S2P Require Import Prelude Alloc BerEncoder BerDecoder MmsValue MmsData IecCommon StringUtils GoosePublisher.

Module SvPublisher.
Import Alloc MmsValue IecCommon StringUtils.
#[local] Open Scope alloc_scope.

Definition SV_MAX_MESSAGE_SIZE : Z := 1518.

Record SVPublisher_ASDU := {
  svID : list Z;
  datset : option (list Z);
  dataSize : Z;
  hasRefrTm : bool;
  hasSmpRate : bool;
  hasSmpMod : bool;
  hasGmIdentity : bool;
  dataBuffer_ : option Z;
  smpSynch : Z;
  smpCnt : Z;
  smpCntLimit : Z;
  confRev : Z;
  gmIdentity : list Z;
  refrTm : option Z;
  smpMod : Z;
  smpRate : Z;
  smpCntBuf : option Z;
  smpSynchBuf : option Z
}.

Record SVPublisher := {
  buffer : list Z;
  ethernetSocket : bool;
  lengthField : Z;
  payloadStart : Z;
  payloadLength : Z;
  asduList : list SVPublisher_ASDU
}.

Definition set_frame (self : SVPublisher) (b : list Z) (len : Z) (l : list SVPublisher_ASDU) : SVPublisher :=
  {| buffer := b; ethernetSocket := ethernetSocket self; lengthField := lengthField self;
     payloadStart := payloadStart self; payloadLength := len; asduList := l |}.

(** The pointers into the frame. *)
Definition set_pointers (a : SVPublisher_ASDU) (data tm cnt synch : option Z) : SVPublisher_ASDU :=
  {| svID := svID a; datset := datset a; dataSize := dataSize a; hasRefrTm := hasRefrTm a; hasSmpRate := hasSmpRate a;
     hasSmpMod := hasSmpMod a; hasGmIdentity := hasGmIdentity a; dataBuffer_ := data; smpSynch := smpSynch a;
     smpCnt := smpCnt a; smpCntLimit := smpCntLimit a; confRev := confRev a; gmIdentity := gmIdentity a; refrTm := tm;
     smpMod := smpMod a; smpRate := smpRate a; smpCntBuf := cnt; smpSynchBuf := synch |}.

Definition set_counter (a : SVPublisher_ASDU) (cnt limit synch : Z) : SVPublisher_ASDU :=
  {| svID := svID a; datset := datset a; dataSize := dataSize a; hasRefrTm := hasRefrTm a; hasSmpRate := hasSmpRate a;
     hasSmpMod := hasSmpMod a; hasGmIdentity := hasGmIdentity a; dataBuffer_ := dataBuffer_ a; smpSynch := synch;
     smpCnt := cnt; smpCntLimit := limit; confRev := confRev a; gmIdentity := gmIdentity a; refrTm := refrTm a;
     smpMod := smpMod a; smpRate := smpRate a; smpCntBuf := smpCntBuf a; smpSynchBuf := smpSynchBuf a |}.

Definition set_dataSize (a : SVPublisher_ASDU) (n : Z) : SVPublisher_ASDU :=
  {| svID := svID a; datset := datset a; dataSize := n; hasRefrTm := hasRefrTm a; hasSmpRate := hasSmpRate a;
     hasSmpMod := hasSmpMod a; hasGmIdentity := hasGmIdentity a; dataBuffer_ := dataBuffer_ a; smpSynch := smpSynch a;
     smpCnt := smpCnt a; smpCntLimit := smpCntLimit a; confRev := confRev a; gmIdentity := gmIdentity a;
     refrTm := refrTm a; smpMod := smpMod a; smpRate := smpRate a; smpCntBuf := smpCntBuf a;
     smpSynchBuf := smpSynchBuf a |}.

(** The optional fields and what they hold. *)
Definition set_optional (a : SVPublisher_ASDU) (tm rate md gm : bool) (r m : Z) (g : list Z) : SVPublisher_ASDU :=
  {| svID := svID a; datset := datset a; dataSize := dataSize a; hasRefrTm := tm; hasSmpRate := rate;
     hasSmpMod := md; hasGmIdentity := gm; dataBuffer_ := dataBuffer_ a; smpSynch := smpSynch a;
     smpCnt := smpCnt a; smpCntLimit := smpCntLimit a; confRev := confRev a; gmIdentity := g; refrTm := refrTm a;
     smpMod := m; smpRate := r; smpCntBuf := smpCntBuf a; smpSynchBuf := smpSynchBuf a |}.

(** ** Creation *)

Definition default_parameters : GoosePublisher.CommParameters :=
  {| GoosePublisher.vlanPriority := 4; GoosePublisher.vlanId := 0; GoosePublisher.appId := 0x4000;
     GoosePublisher.dstAddress := [0x01; 0x0c; 0xcd; 0x01; 0x00; 0x01] |}.

(** [memory]: what the memory from [GLOBAL_MALLOC] holds. *)
Definition preparePacketBuffer (memory srcAddr : list Z) (socket : bool)
    (parameters : option GoosePublisher.CommParameters) (useVlanTags : bool) : alloc (option (list Z * Z * Z)) :=
  let p := default default_parameters parameters in
  if socket then
    ok <~ malloc;
    if (ok : bool) then
      m_lift (
        '(buffer, _) ← copy_bytes 6 (GoosePublisher.dstAddress p) 0 memory 0;
        '(buffer, _) ← copy_bytes 6 srcAddr 0 buffer 6;
        '(buffer, bufPos) ←
          (if useVlanTags then
             let tci1 := u8 (u8 (Z.shiftl (GoosePublisher.vlanPriority p) 5) + GoosePublisher.vlanId p / 256) in
             let tci2 := GoosePublisher.vlanId p mod 256 in
             puts buffer 12 [0x81; 0x00; tci1; tci2]
           else Some (buffer, 12));
        '(buffer, bufPos) ← puts buffer bufPos [0x88; 0xBa; GoosePublisher.appId p / 256; GoosePublisher.appId p mod 256];
        let lengthField := bufPos in
        '(buffer, bufPos) ← puts buffer bufPos [0x00; 0x08; 0x00; 0x00; 0x00; 0x00];
        Some (Some (buffer, lengthField, bufPos)))
    else m_ret None
  else m_ret None.

Definition createEx (memory srcAddr : list Z) (socket : bool) (parameters : option GoosePublisher.CommParameters)
    (useVlanTag : bool) : alloc (option SVPublisher) :=
  ok <~ malloc;
  if (ok : bool) then
    r <~ preparePacketBuffer memory srcAddr socket parameters useVlanTag;
    m_ret (match r with
           | Some (b, field, start) =>
               Some {| buffer := b; ethernetSocket := true; lengthField := field; payloadStart := start;
                       payloadLength := 0; asduList := [] |}
           | None => None
           end)
  else m_ret None.

Definition create (memory srcAddr : list Z) (socket : bool) (parameters : option GoosePublisher.CommParameters)
    : alloc (option SVPublisher) := createEx memory srcAddr socket parameters true.

Definition addASDU (self : SVPublisher) (id : list Z) (ds : option (list Z)) (rev : Z) : alloc SVPublisher :=
  ok <~ malloc;
  m_ret (if (ok : bool) then
           set_frame self (buffer self) (payloadLength self) (asduList self ++
             [{| svID := id; datset := ds; dataSize := 0; hasRefrTm := false; hasSmpRate := false; hasSmpMod := false;
                 hasGmIdentity := false; dataBuffer_ := None; smpSynch := 0; smpCnt := 0; smpCntLimit := 65535;
                 confRev := rev; gmIdentity := replicate 8 0; refrTm := None; smpMod := 0; smpRate := 0;
                 smpCntBuf := None; smpSynchBuf := None |}])
         else self).

(** ** Encoding *)

Definition encodeUInt16FixedSize (value : Z) (buffer : list Z) (bufPos : Z) : option (list Z * Z) :=
  puts buffer bufPos [Z.shiftr value 8; value].
Definition encodeUInt32FixedSize (value : Z) (buffer : list Z) (bufPos : Z) : option (list Z * Z) :=
  puts buffer bufPos [Z.shiftr value 24; Z.shiftr value 16; Z.shiftr value 8; value].
Definition encodeInt32FixedSize (value : Z) (buffer : list Z) (bufPos : Z) : option (list Z * Z) :=
  puts buffer bufPos [Z.shiftr value 24; Z.shiftr value 16; Z.shiftr value 8; value].
Definition encodeInt64FixedSize (value : Z) (buffer : list Z) (bufPos : Z) : option (list Z * Z) :=
  puts buffer bufPos [Z.shiftr value 56; Z.shiftr value 48; Z.shiftr value 40; Z.shiftr value 32;
                      Z.shiftr value 24; Z.shiftr value 16; Z.shiftr value 8; value].

Definition getEncodedSize (a : SVPublisher_ASDU) : Z :=
  let str (s : list Z) := 1 + BerEncoder.determineLengthSize (zlen s) + zlen s in
  str (svID a) + (match datset a with Some s => str s | None => 0 end) + 4 + 6 +
  (if hasRefrTm a then 10 else 0) + 3 + (if hasSmpRate a then 4 else 0) +
  (1 + BerEncoder.determineLengthSize (dataSize a)) + dataSize a +
  (if hasSmpMod a then 4 else 0) + (if hasGmIdentity a then 10 else 0).

Definition encodeToBuffer (a : SVPublisher_ASDU) (buffer : list Z) (bufPos : Z)
    : option (SVPublisher_ASDU * list Z * Z) :=
  '(buffer, bufPos) ← BerEncoder.encodeTL 0x30 (getEncodedSize a) buffer bufPos;
  '(buffer, bufPos) ← BerEncoder.encodeStringWithTag 0x80 (Some (svID a)) buffer bufPos;
  '(buffer, bufPos) ← (match datset a with
                       | Some s => BerEncoder.encodeStringWithTag 0x81 (Some s) buffer bufPos
                       | None => Some (buffer, bufPos)
                       end);
  '(buffer, bufPos) ← BerEncoder.encodeTL 0x82 2 buffer bufPos;
  let cnt := bufPos in
  '(buffer, bufPos) ← encodeUInt16FixedSize (smpCnt a) buffer bufPos;
  '(buffer, bufPos) ← BerEncoder.encodeTL 0x83 4 buffer bufPos;
  '(buffer, bufPos) ← encodeUInt32FixedSize (confRev a) buffer bufPos;
  '(buffer, bufPos, tm) ← (if hasRefrTm a then
                             '(buffer, bufPos) ← BerEncoder.encodeTL 0x84 8 buffer bufPos;
                             Some (buffer, bufPos + 8, Some bufPos)
                           else Some (buffer, bufPos, refrTm a));
  '(buffer, bufPos) ← BerEncoder.encodeTL 0x85 1 buffer bufPos;
  let synch := bufPos in
  '(buffer, bufPos) ← put buffer bufPos (smpSynch a);
  '(buffer, bufPos) ← (if hasSmpRate a then
                         '(buffer, bufPos) ← BerEncoder.encodeTL 0x86 2 buffer bufPos;
                         encodeUInt16FixedSize (smpRate a) buffer bufPos
                       else Some (buffer, bufPos));
  '(buffer, bufPos) ← BerEncoder.encodeTL 0x87 (dataSize a) buffer bufPos;
  let data := bufPos in
  let bufPos := bufPos + dataSize a in
  '(buffer, bufPos) ← (if hasSmpMod a then
                         '(buffer, bufPos) ← BerEncoder.encodeTL 0x88 2 buffer bufPos;
                         encodeUInt16FixedSize (smpMod a) buffer bufPos
                       else Some (buffer, bufPos));
  '(buffer, bufPos) ← (if hasGmIdentity a then BerEncoder.encodeOctetString 0x89 (gmIdentity a) 8 buffer bufPos
                       else Some (buffer, bufPos));
  Some (set_pointers a (Some data) tm (Some cnt) (Some synch), buffer, bufPos).

(** The first loop of [SVPublisher_setupComplete]. *)
Fixpoint totalASDULength (l : list SVPublisher_ASDU) : Z :=
  match l with
  | [] => 0
  | a :: l => getEncodedSize a + BerEncoder.determineLengthSize (getEncodedSize a) + 1 + totalASDULength l
  end.

Fixpoint encodeASDUs (l : list SVPublisher_ASDU) (buffer : list Z) (bufPos : Z)
    : option (list SVPublisher_ASDU * list Z * Z) :=
  match l with
  | [] => Some ([], buffer, bufPos)
  | a :: l =>
      '(a, buffer, bufPos) ← encodeToBuffer a buffer bufPos;
      '(l, buffer, bufPos) ← encodeASDUs l buffer bufPos;
      Some (a :: l, buffer, bufPos)
  end.

Definition setupComplete (self : SVPublisher) : option SVPublisher :=
  let numberOfAsdu := zlen (asduList self) in
  let total := totalASDULength (asduList self) in
  let sequenceSize := 1 + BerEncoder.determineLengthSize total + total in
  n ← BerEncoder.UInt32determineEncodedSize numberOfAsdu;
  let innerSize := 2 + n + sequenceSize in
  '(b, bufPos) ← BerEncoder.encodeTL 0x60 innerSize (buffer self) (payloadStart self);
  '(b, bufPos) ← BerEncoder.encodeUInt32WithTL 0x80 numberOfAsdu b bufPos;
  '(b, bufPos) ← BerEncoder.encodeTL 0xa2 total b bufPos;
  '(l, b, bufPos) ← encodeASDUs (asduList self) b bufPos;
  let payloadLength := bufPos - payloadStart self in
  let msgLength := payloadLength + 8 in
  b ← (if decide (lengthField self <> 0) then
         b ← b.[lengthField self]:= (msgLength / 256); b.[lengthField self + 1]:= (Z.land msgLength 0xff)
       else Some b);
  Some (set_frame self b payloadLength l).

(** The frame handed to [Ethernet_sendPacket], if any. *)
Definition publish (self : SVPublisher) : option (option (list Z)) :=
  if ethernetSocket self then
    frame ← rds (Z.to_nat (payloadStart self + payloadLength self)) (buffer self) 0; Some (Some frame)
  else Some None.

(** ** Operations on an ASDU

    They may change the ASDU and the frame. *)

Definition asdu_op : Type := SVPublisher_ASDU -> list Z -> option (SVPublisher_ASDU * list Z).

Definition on_asdu (self : SVPublisher) (i : nat) (f : asdu_op) : option SVPublisher :=
  a ← asduList self !! i;
  '(a, b) ← f a (buffer self);
  Some (set_frame self b (payloadLength self) (<[i := a]> (asduList self))).

Definition resetBuffer : asdu_op := fun a b => Some (set_dataSize a 0, b).

(** The index of the new entry is the old size. *)
Definition add_size (n : Z) : asdu_op := fun a b => Some (set_dataSize a (dataSize a + n), b).
Definition addINT8 := add_size 1.
Definition addINT32 := add_size 4.
Definition addINT64 := add_size 8.
Definition addFLOAT := add_size 4.
Definition addFLOAT64 := add_size 8.
Definition addTimestamp := add_size 8.
Definition addQuality := add_size 4.

(** Octets written behind the pointer to the data; the index is not checked. *)
Definition write_data (index : Z) (xs : list Z) : asdu_op := fun a b =>
  p ← dataBuffer_ a; '(b, _) ← puts b (p + index) xs; Some (a, b).

Definition setINT8 (index value : Z) : asdu_op := write_data index [value].
Definition setINT32 (index value : Z) : asdu_op := fun a b =>
  p ← dataBuffer_ a; '(b, _) ← encodeInt32FixedSize value b (p + index); Some (a, b).
Definition setINT64 (index value : Z) : asdu_op := fun a b =>
  p ← dataBuffer_ a; '(b, _) ← encodeInt64FixedSize value b (p + index); Some (a, b).
(** [value]: the octets of the number in the order of the machine. *)
Definition setFLOAT (index : Z) (value : list Z) : asdu_op := fun a b =>
  buf ← BerEncoder.revertByteOrder value 0 4; write_data index (take 4 buf) a b.
Definition setFLOAT64 (index : Z) (value : list Z) : asdu_op := fun a b =>
  buf ← BerEncoder.revertByteOrder value 0 8; write_data index (take 8 buf) a b.
Definition setTimestamp (index : Z) (val : list Z) : asdu_op := write_data index (take 8 val).
Definition setQuality (index value : Z) : asdu_op := write_data index [0; 0; value / 0x100; value mod 0x100].

Definition getSmpCnt (a : SVPublisher_ASDU) : Z := smpCnt a.

Definition setSmpCnt (value : Z) : asdu_op := fun a b =>
  let a := set_counter a value (smpCntLimit a) (smpSynch a) in
  match smpCntBuf a with
  | Some p => '(b, _) ← encodeUInt16FixedSize (smpCnt a) b p; Some (a, b)
  | None => Some (a, b)
  end.
Definition setSmpCntWrap (value : Z) : asdu_op := fun a b => Some (set_counter a (smpCnt a) value (smpSynch a), b).

(** The remainder by zero is undefined. *)
Definition increaseSmpCnt : asdu_op := fun a b =>
  if decide (smpCntLimit a = 0) then None else setSmpCnt (u16 (Z.rem (smpCnt a + 1) (smpCntLimit a))) a b.

Definition enable_refrTm (a : SVPublisher_ASDU) : SVPublisher_ASDU :=
  set_optional a true (hasSmpRate a) (hasSmpMod a) (hasGmIdentity a) (smpRate a) (smpMod a) (gmIdentity a).
Definition enableRefrTm : asdu_op := fun a b => Some (enable_refrTm a, b).

(** A change of the time stamp in the frame. *)
Definition write_refrTm (f : list Z -> option (list Z)) : asdu_op := fun a b =>
  let a := enable_refrTm a in
  match refrTm a with
  | Some p => val ← rds 8 b p; val ← f val; '(b, _) ← puts b p val; Some (a, b)
  | None => Some (a, b)
  end.

Definition setRefrTmNs (refrTmNs : Z) : asdu_op :=
  write_refrTm (fun val => val ← Timestamp_setTimeInNanoseconds refrTmNs val; Timestamp_setSubsecondPrecision 20 val).
Definition setRefrTm (refrTm : Z) : asdu_op :=
  write_refrTm (fun val => val ← Timestamp_setTimeInMilliseconds refrTm val; Timestamp_setSubsecondPrecision 10 val).
Definition setRefrTmByTimestamp (refrTm : list Z) : asdu_op := write_refrTm (fun _ => rds 8 refrTm 0).

Definition setSmpMod (value : Z) : asdu_op := fun a b =>
  Some (set_optional a (hasRefrTm a) (hasSmpRate a) true (hasGmIdentity a) (smpRate a) value (gmIdentity a), b).
Definition setSmpRate (value : Z) : asdu_op := fun a b =>
  Some (set_optional a (hasRefrTm a) true (hasSmpMod a) (hasGmIdentity a) value (smpMod a) (gmIdentity a), b).

(** The argument has 16 bits, the field 8; the pointer is not checked. *)
Definition setSmpSynch (value : Z) : asdu_op := fun a b =>
  let a := set_counter a (smpCnt a) (smpCntLimit a) (u8 value) in
  p ← smpSynchBuf a; b ← b.[p]:= (smpSynch a); Some (a, b).

Definition setGmIdentity (identity : list Z) : asdu_op := fun a b =>
  '(g, _) ← copy_bytes 8 identity 0 (gmIdentity a) 0;
  Some (set_optional a (hasRefrTm a) (hasSmpRate a) (hasSmpMod a) true (smpRate a) (smpMod a) g, b).

(** ** What is to be sent *)

(** The contents of an ASDU in the frame; [s_limit] is where its counter wraps. *)
Record sample := {
  s_svID : list Z;
  s_datset : option (list Z);
  s_smpCnt : Z;
  s_limit : Z;
  s_confRev : Z;
  s_refrTm : option (list Z);
  s_smpSynch : Z;
  s_smpRate : option Z;
  s_data : list Z;
  s_smpMod : option Z;
  s_gmIdentity : option (list Z)
}.

Definition opt_tlv (tag : Z) (o : option (list Z)) : list Z :=
  match o with Some xs => BerEncoder.enc_tlv tag xs | None => [] end.

(** The octets in front of the counter, the time stamp, the synchronisation and the data. *)
Definition before_cnt (s : sample) : list Z :=
  BerEncoder.enc_tlv 0x80 (s_svID s) ++ opt_tlv 0x81 (s_datset s) ++ [0x82; 2].
Definition before_tm (s : sample) : list Z :=
  before_cnt s ++ be_bytes 2 (s_smpCnt s) ++ BerEncoder.enc_tlv 0x83 (be_bytes 4 (s_confRev s)).
Definition before_synch (s : sample) : list Z := before_tm s ++ opt_tlv 0x84 (s_refrTm s) ++ [0x85; 1].
Definition before_data (s : sample) : list Z :=
  before_synch s ++ [s_smpSynch s] ++ opt_tlv 0x86 (be_bytes 2 <$> s_smpRate s) ++
  0x87 :: BerEncoder.enc_length (zlen (s_data s)).
Definition after_data (s : sample) : list Z :=
  opt_tlv 0x88 (be_bytes 2 <$> s_smpMod s) ++ opt_tlv 0x89 (s_gmIdentity s).

Definition asdu_octets (s : sample) : list Z := before_data s ++ s_data s ++ after_data s.

Definition asdus (ss : list sample) : list Z := concat ((fun s => BerEncoder.enc_tlv 0x30 (asdu_octets s)) <$> ss).

Definition sv_content (ss : list sample) : list Z :=
  GoosePublisher.enc_uint32_tlv 0x80 (zlen ss) ++ BerEncoder.enc_tlv 0xa2 (asdus ss).
Definition sv_pdu (ss : list sample) : list Z := BerEncoder.enc_tlv 0x60 (sv_content ss).

(** [header]: the frame up to its length field. *)
Definition sv_frame (header : list Z) (ss : list sample) : list Z :=
  header ++ be_bytes 2 (zlen (sv_pdu ss) + 8) ++ [0; 0; 0; 0] ++ sv_pdu ss.

(** ** The layout *)

(** A write behind others, and octets left as they are. *)
Lemma grow b p acc bk q ys : puts b p acc = Some (bk, q) -> 0 <= p -> q + zlen ys <= zlen b ->
  exists bk', puts bk q ys = Some (bk', q + zlen ys) /\ puts b p (acc ++ ys) = Some (bk', q + zlen ys).
Proof.
  intros E Hp Hl. rewrite puts_app, E. cbn [mbind option_bind].
  apply puts_inv in E as (-> & Hb & _). destruct (puts_Some bk (p + zlen acc) ys) as [bk' E]; [lia|lia|].
  by exists bk'.
Qed.

Lemma leave b p acc bk q n : is_bytes b -> puts b p acc = Some (bk, q) -> 0 <= p -> 0 <= n -> q + n <= zlen b ->
  exists xs, zlen xs = n /\ is_bytes xs /\ puts b p (acc ++ xs) = Some (bk, q + n).
Proof.
  intros Hb E Hp Hn Hl. pose proof (puts_bytes _ _ _ _ _ Hb E) as Hbk.
  pose proof E as (Hq & Hbl & _)%puts_inv. subst q. set (q := p + zlen acc) in *.
  exists (take (Z.to_nat n) (drop (Z.to_nat q) bk)).
  assert (Hx : zlen (take (Z.to_nat n) (drop (Z.to_nat q) bk)) = n).
  { rewrite length_take, length_drop. unfold q in *. lia. }
  split; [done|]. assert (Hxb : is_bytes (take (Z.to_nat n) (drop (Z.to_nat q) bk))) by (by apply Forall_take, Forall_drop).
  split; [done|]. rewrite puts_app, E. cbn [mbind option_bind]. rewrite puts_splice by (done || lia). rewrite Hx. do 2 f_equal.
  replace (Z.to_nat q + length (take (Z.to_nat n) (drop (Z.to_nat q) bk)))%nat with (Z.to_nat q + Z.to_nat n)%nat by lia.
  rewrite <- drop_drop, take_drop. apply take_drop.
Qed.

Record asdu_wf (a : SVPublisher_ASDU) : Prop := {
  aw_id : is_bytes (svID a);
  aw_ds : is_bytes (default [] (datset a));
  aw_size : 0 <= dataSize a;
  aw_rev : is_u32 (confRev a);
  aw_gm : wf_buf (gmIdentity a) 8;
  aw_cnt : is_u16 (smpCnt a);
  aw_synch : is_u8 (smpSynch a);
  aw_rate : is_u16 (smpRate a);
  aw_mod : is_u16 (smpMod a);
}.

(** What the frame holds for an ASDU, with the time stamp and the data that were found in
    the memory. *)
Definition sample_of (a : SVPublisher_ASDU) (tm data : list Z) : sample :=
  {| s_svID := svID a; s_datset := datset a; s_smpCnt := smpCnt a; s_limit := smpCntLimit a; s_confRev := confRev a;
     s_refrTm := if hasRefrTm a then Some tm else None; s_smpSynch := smpSynch a;
     s_smpRate := if hasSmpRate a then Some (smpRate a) else None; s_data := data;
     s_smpMod := if hasSmpMod a then Some (smpMod a) else None;
     s_gmIdentity := if hasGmIdentity a then Some (gmIdentity a) else None |}.

Lemma opt_tlv_length tag o : zlen (default [] o) < 65535 ->
  zlen (opt_tlv tag o) = match o with Some xs => 1 + BerEncoder.determineLengthSize (zlen xs) + zlen xs | None => 0 end.
Proof. destruct o as [xs|]; [|done]. intros H. cbn [opt_tlv]. by apply BerEncoder.enc_tlv_length. Qed.

Lemma enc_tlv_gt tag xs : zlen xs < zlen (BerEncoder.enc_tlv tag xs).
Proof. unfold BerEncoder.enc_tlv. rewrite length_cons, length_app. lia. Qed.

Lemma asdu_octets_length a tm data : zlen tm = 8 -> zlen data = dataSize a -> zlen (gmIdentity a) = 8 ->
  zlen (svID a) < 65535 -> zlen (default [] (datset a)) < 65535 -> zlen data < 65535 ->
  zlen (asdu_octets (sample_of a tm data)) = getEncodedSize a.
Proof.
  intros Htm Hd Hg H1 H2 H3. unfold asdu_octets, before_data, before_synch, before_tm, before_cnt, after_data, getEncodedSize.
  cbn [sample_of s_svID s_datset s_smpCnt s_confRev s_refrTm s_smpSynch s_smpRate s_data s_smpMod s_gmIdentity].
  rewrite !length_app. cbn [length]. pose proof (BerEncoder.enc_tlv_length 0x80 (svID a) H1) as E1.
  pose proof (opt_tlv_length 0x81 (datset a) H2) as E2.
  pose proof (BerEncoder.enc_length_size (zlen data) ltac:(unfold_int; lia)) as E3. rewrite decide_False in E3 by lia.
  assert (E4 : zlen (BerEncoder.enc_tlv 0x83 (be_bytes 4 (confRev a))) = 6) by done.
  assert (E5 : zlen (opt_tlv 0x84 (if hasRefrTm a then Some tm else None)) = if hasRefrTm a then 10 else 0).
  { destruct (hasRefrTm a); [|done]. cbn [opt_tlv]. by rewrite BerEncoder.enc_tlv_length, Htm by lia. }
  assert (E6 : zlen (opt_tlv 0x86 (be_bytes 2 <$> (if hasSmpRate a then Some (smpRate a) else None))) = if hasSmpRate a then 4 else 0).
  { by destruct (hasSmpRate a). }
  assert (E7 : zlen (opt_tlv 0x88 (be_bytes 2 <$> (if hasSmpMod a then Some (smpMod a) else None))) = if hasSmpMod a then 4 else 0).
  { by destruct (hasSmpMod a). }
  assert (E8 : zlen (opt_tlv 0x89 (if hasGmIdentity a then Some (gmIdentity a) else None)) = if hasGmIdentity a then 10 else 0).
  { destruct (hasGmIdentity a); [|done]. cbn [opt_tlv]. by rewrite BerEncoder.enc_tlv_length, Hg by lia. }
  change (length (be_bytes 2 (smpCnt a))) with 2%nat. rewrite <- Hd. destruct (datset a); lia.
Qed.

(** The integers of fixed size are their octets. *)
Lemma puts_u8 b p xs : puts b p xs = puts b p (u8 <$> xs).
Proof.
  revert b p. induction xs as [|x xs IH]; intros b p; [done|]. rewrite fmap_cons. cbn [puts].
  assert (E : put b p x = put b p (u8 x)).
  { unfold put, wr. case_decide; [|done]. by rewrite (u8_id (u8 x)) by apply u8_range. }
  rewrite <- E. destruct (put b p x) as [[b' p']|]; [|done]. apply IH.
Qed.

Lemma uint16_puts v b p : encodeUInt16FixedSize v b p = puts b p (be_bytes 2 v).
Proof. unfold encodeUInt16FixedSize. rewrite puts_u8. f_equal. cbn. rewrite Z.shiftr_div_pow2 by lia. done. Qed.

Lemma uint32_puts v b p : encodeUInt32FixedSize v b p = puts b p (be_bytes 4 v).
Proof.
  unfold encodeUInt32FixedSize. rewrite puts_u8, be_bytes_4. f_equal. cbn. rewrite !Z.shiftr_div_pow2 by lia.
  unfold u8. by rewrite !Z.div_div by lia.
Qed.

Lemma int64_puts v b p : encodeInt64FixedSize v b p = puts b p (be_bytes 8 v).
Proof.
  unfold encodeInt64FixedSize. rewrite puts_u8. f_equal.
  change (be_bytes 8 v) with [v / 256 / 256 / 256 / 256 / 256 / 256 / 256 mod 256; v / 256 / 256 / 256 / 256 / 256 / 256 mod 256;
    v / 256 / 256 / 256 / 256 / 256 mod 256; v / 256 / 256 / 256 / 256 mod 256; v / 256 / 256 / 256 mod 256;
    v / 256 / 256 mod 256; v / 256 mod 256; v mod 256].
  cbn. rewrite !Z.shiftr_div_pow2 by lia. unfold u8. by rewrite !Z.div_div by lia.
Qed.

Definition asdu_head (a : SVPublisher_ASDU) : list Z := 0x30 :: BerEncoder.enc_length (getEncodedSize a).

(** The octets up to the counter. *)
Lemma encode_front {A} a b p (k : list Z -> Z -> option A) :
  is_u32 (getEncodedSize a) -> zlen (svID a) < 2147483648 -> zlen (default [] (datset a)) < 2147483648 ->
  ('(b, p) ← BerEncoder.encodeTL 0x30 (getEncodedSize a) b p;
   '(b, p) ← BerEncoder.encodeStringWithTag 0x80 (Some (svID a)) b p;
   '(b, p) ← (match datset a with
              | Some s => BerEncoder.encodeStringWithTag 0x81 (Some s) b p
              | None => Some (b, p)
              end);
   '(b, p) ← BerEncoder.encodeTL 0x82 2 b p; k b p) =
  '(b, p) ← puts b p (asdu_head a ++ before_cnt (sample_of a [] [])); k b p.
Proof.
  intros Hs H1 H2. rewrite BerEncoder.encodeTL_puts by done.
  rewrite (GoosePublisher.puts_chain _ _ _ _ _ _ (fun b p => BerEncoder.encodeStringWithTag_puts 0x80 (Some (svID a)) b p H1)).
  erewrite (GoosePublisher.puts_chain _ _ _ (opt_tlv 0x81 (datset a))
    (fun b p => match datset a with Some s => BerEncoder.encodeStringWithTag 0x81 (Some s) b p | None => Some (b, p) end)).
  2: { intros b1 p1. destruct (datset a); [by apply BerEncoder.encodeStringWithTag_puts|done]. }
  rewrite (GoosePublisher.puts_chain _ _ _ _ _ _ (fun b p => BerEncoder.encodeTL_puts 0x82 2 b p ltac:(unfold_int; lia))).
  unfold before_cnt, asdu_head. cbn [sample_of s_svID s_datset default]. rewrite <- !app_assoc. done.
Qed.

(** The counter and the revision. *)
Lemma encode_counter {A} a b p (k : list Z -> Z -> option A) :
  ('(b, p) ← encodeUInt16FixedSize (smpCnt a) b p;
   '(b, p) ← BerEncoder.encodeTL 0x83 4 b p;
   '(b, p) ← encodeUInt32FixedSize (confRev a) b p; k b p) =
  '(b, p) ← puts b p (be_bytes 2 (smpCnt a) ++ BerEncoder.enc_tlv 0x83 (be_bytes 4 (confRev a))); k b p.
Proof.
  rewrite uint16_puts.
  rewrite (GoosePublisher.puts_chain _ _ _ _ _ _ (fun b p => BerEncoder.encodeTL_puts 0x83 4 b p ltac:(unfold_int; lia))).
  rewrite (GoosePublisher.puts_chain _ _ _ _ _ _ (uint32_puts (confRev a))).
  rewrite <- !app_assoc. done.
Qed.

(** The synchronisation, the rate and the head of the data. *)
Lemma encode_rate {A} a b p (k : list Z -> Z -> option A) : is_u32 (dataSize a) ->
  ('(b, p) ← put b p (smpSynch a);
   '(b, p) ← (if hasSmpRate a then
                '(b, p) ← BerEncoder.encodeTL 0x86 2 b p; encodeUInt16FixedSize (smpRate a) b p
              else Some (b, p));
   '(b, p) ← BerEncoder.encodeTL 0x87 (dataSize a) b p; k b p) =
  '(b, p) ← puts b p ([smpSynch a] ++ opt_tlv 0x86 (be_bytes 2 <$> (if hasSmpRate a then Some (smpRate a) else None)) ++
     0x87 :: BerEncoder.enc_length (dataSize a)); k b p.
Proof.
  intros Hd. rewrite puts_one.
  erewrite (GoosePublisher.puts_chain _ _ _ (opt_tlv 0x86 (be_bytes 2 <$> (if hasSmpRate a then Some (smpRate a) else None)))
    (fun b p => if hasSmpRate a then '(b, p) ← BerEncoder.encodeTL 0x86 2 b p; encodeUInt16FixedSize (smpRate a) b p else Some (b, p))).
  2: { intros b1 p1. destruct (hasSmpRate a); [|done]. rewrite BerEncoder.encodeTL_puts by (unfold_int; lia).
       cbn [fmap option_fmap option_map opt_tlv]. change (BerEncoder.enc_tlv 0x86 (be_bytes 2 (smpRate a)))
         with ((0x86 :: BerEncoder.enc_length 2) ++ be_bytes 2 (smpRate a)). rewrite puts_app.
       destruct (puts b1 p1 (0x86 :: BerEncoder.enc_length 2)) as [[? ?]|]; [|done]. cbn [mbind option_bind]. apply uint16_puts. }
  rewrite (GoosePublisher.puts_chain _ _ _ _ _ _ (fun b p => BerEncoder.encodeTL_puts 0x87 (dataSize a) b p Hd)).
  rewrite <- !app_assoc. done.
Qed.

(** The fields behind the data. *)
Lemma encode_back {A} a b p (k : list Z -> Z -> option A) : zlen (gmIdentity a) = 8 ->
  ('(b, p) ← (if hasSmpMod a then
                '(b, p) ← BerEncoder.encodeTL 0x88 2 b p; encodeUInt16FixedSize (smpMod a) b p
              else Some (b, p));
   '(b, p) ← (if hasGmIdentity a then BerEncoder.encodeOctetString 0x89 (gmIdentity a) 8 b p else Some (b, p)); k b p) =
  '(b, p) ← puts b p (after_data (sample_of a [] [])); k b p.
Proof.
  intros Hg. change (after_data (sample_of a [] [])) with
    ([] ++ opt_tlv 0x88 (be_bytes 2 <$> (if hasSmpMod a then Some (smpMod a) else None)) ++
     opt_tlv 0x89 (if hasGmIdentity a then Some (gmIdentity a) else None)).
  change (Some (b, p)) with (puts b p []) at 1.
  rewrite app_assoc.
  erewrite <- (GoosePublisher.puts_chain _ _ _ (opt_tlv 0x89 (if hasGmIdentity a then Some (gmIdentity a) else None))
    (fun b p => if hasGmIdentity a then BerEncoder.encodeOctetString 0x89 (gmIdentity a) 8 b p else Some (b, p))).
  2: { intros b1 p1. destruct (hasGmIdentity a); [|done]. rewrite <- Hg. apply BerEncoder.encodeOctetString_puts. lia. }
  cbn [app]. destruct (hasSmpMod a); [|done]. rewrite BerEncoder.encodeTL_puts by (unfold_int; lia).
  cbn [fmap option_fmap option_map opt_tlv]. change (BerEncoder.enc_tlv 0x88 (be_bytes 2 (smpMod a)))
    with ((0x88 :: BerEncoder.enc_length 2) ++ be_bytes 2 (smpMod a)).
  erewrite <- (GoosePublisher.puts_chain _ _ _ _ _ _ (uint16_puts (smpMod a))).
  by destruct (puts b p (0x88 :: BerEncoder.enc_length 2)) as [[? ?]|].
Qed.

(** The time stamp is left as it is in memory. *)
Lemma encode_refrTm (flag : bool) old b p acc bk q :
  is_bytes b -> puts b p acc = Some (bk, q) -> 0 <= p -> q + (if flag then 10 else 0) <= zlen b ->
  exists tm bk', wf_buf tm 8 /\
    (if flag then '(b, p) ← BerEncoder.encodeTL 0x84 8 bk q; Some (b, p + 8, Some p) else Some (bk, q, old)) =
      Some (bk', q + (if flag then 10 else 0), if flag then Some (q + 2) else old) /\
    puts b p (acc ++ opt_tlv 0x84 (if flag then Some tm else None)) = Some (bk', q + (if flag then 10 else 0)).
Proof.
  intros Hb E Hp Hl. destruct flag.
  - destruct (grow b p acc bk q [0x84; 8] E Hp) as (b1 & E1 & E2); [simpl; lia|].
    destruct (leave b p _ b1 _ 8 Hb E2 Hp) as (tm & Htl & Htb & E3); [lia|simpl; lia|].
    exists tm, b1. split; [by split|]. rewrite BerEncoder.encodeTL_puts by (unfold_int; lia).
    change (0x84 :: BerEncoder.enc_length 8) with [0x84; 8]. rewrite E1. cbn [mbind option_bind].
    assert (Ht : opt_tlv 0x84 (Some tm) = [0x84; 8] ++ tm).
    { cbn [opt_tlv]. unfold BerEncoder.enc_tlv. by rewrite Htl. }
    rewrite Ht, app_assoc, E3. change (zlen [0x84; 8]) with 2. split; [do 3 f_equal; lia|do 2 f_equal; lia].
  - exists (replicate 8 0), bk. split; [by apply (wf_buf_replicate 8 0)|]. cbn [opt_tlv]. rewrite app_nil_r, Z.add_0_r. done.
Qed.

Lemma encodeToBuffer_spec a b p : asdu_wf a -> is_bytes b -> 0 <= p -> getEncodedSize a < 65535 ->
  p + zlen (asdu_head a) + getEncodedSize a <= zlen b ->
  exists tm data b', wf_buf tm 8 /\ zlen data = dataSize a /\ is_bytes data /\
    let s := sample_of a tm data in let base := p + zlen (asdu_head a) in
    encodeToBuffer a b p = Some (set_pointers a (Some (base + zlen (before_data s)))
      (if hasRefrTm a then Some (base + zlen (before_tm s) + 2) else refrTm a)
      (Some (base + zlen (before_cnt s))) (Some (base + zlen (before_synch s))), b', base + getEncodedSize a) /\
    puts b p (BerEncoder.enc_tlv 0x30 (asdu_octets s)) = Some (b', base + getEncodedSize a).
Proof.
  intros Ha Hb Hp Hs Hl. pose proof (aw_size _ Ha) as Hd0. destruct (aw_gm _ Ha) as [_ Hg].
  assert (Hsmall : zlen (svID a) < 65535 /\ zlen (default [] (datset a)) < 65535 /\ dataSize a < 65535 /\ 0 <= getEncodedSize a).
  { unfold getEncodedSize in *. pose proof (MmsData.determineLengthSize_pos (zlen (svID a))). pose proof (MmsData.determineLengthSize_pos (dataSize a)).
    destruct (datset a) as [ds|]; [pose proof (MmsData.determineLengthSize_pos (zlen ds))|];
      destruct (hasRefrTm a), (hasSmpRate a), (hasSmpMod a), (hasGmIdentity a); cbn [default]; simpl length; lia. }
  destruct Hsmall as (H1 & H2 & H3 & H4).
  assert (Hlen : forall tm data, zlen tm = 8 -> zlen data = dataSize a ->
    zlen (asdu_octets (sample_of a tm data)) = getEncodedSize a) by (intros; apply asdu_octets_length; lia || done).
  unfold encodeToBuffer. rewrite encode_front by (unfold_int; lia). set (s0 := sample_of a [] []).
  set (bc := before_cnt s0).
  pose proof (Hlen (replicate 8 0) (replicate (Z.to_nat (dataSize a)) 0) eq_refl ltac:(rewrite length_replicate; lia)) as HL.
  unfold asdu_octets, before_data, before_synch, before_tm in HL.
  change (before_cnt (sample_of a (replicate 8 0) (replicate (Z.to_nat (dataSize a)) 0))) with bc in HL.
  change (after_data (sample_of a (replicate 8 0) (replicate (Z.to_nat (dataSize a)) 0))) with (after_data s0) in HL.
  cbn [sample_of s_smpCnt s_confRev s_refrTm s_smpSynch s_smpRate s_data] in HL.
  set (rt := opt_tlv 0x86 _) in HL. set (rv := BerEncoder.enc_tlv 0x83 _) in HL.
  assert (Htm : zlen (opt_tlv 0x84 (if hasRefrTm a then Some (replicate 8 0) else None)) = if hasRefrTm a then 10 else 0)
    by (by destruct (hasRefrTm a)).
  rewrite !length_app, length_cons, length_replicate in HL. cbn [length] in HL.
  replace (Z.of_nat (Z.to_nat (dataSize a))) with (dataSize a) in HL by lia.
  change (length (be_bytes 2 (smpCnt a))) with 2%nat in HL.
  destruct (puts_Some b p (asdu_head a ++ bc)) as [b1 E1]; [lia|rewrite length_app; lia|].
  rewrite E1. cbn [mbind option_bind]. rewrite encode_counter. fold rv.
  destruct (grow b p _ b1 _ (be_bytes 2 (smpCnt a) ++ rv) E1 Hp) as (b2 & -> & E2); [rewrite !length_app, be_bytes_length; lia|].
  cbn [mbind option_bind].
  destruct (encode_refrTm (hasRefrTm a) (refrTm a) b p _ b2 _ Hb E2 Hp) as (tm & b3 & Wtm & -> & E3);
    [rewrite !length_app, be_bytes_length; lia|].
  cbn [mbind option_bind]. rewrite BerEncoder.encodeTL_puts by (unfold_int; lia). change (0x85 :: BerEncoder.enc_length 1) with [0x85; 1].
  destruct (grow b p _ b3 _ [0x85; 1] E3 Hp) as (b4 & -> & E4); [rewrite !length_app, be_bytes_length; cbn [length]; lia|].
  cbn [mbind option_bind]. rewrite encode_rate by (unfold_int; lia). fold rt.
  destruct (grow b p _ b4 _ ([smpSynch a] ++ rt ++ 0x87 :: BerEncoder.enc_length (dataSize a)) E4 Hp) as (b5 & -> & E5);
    [rewrite !length_app, be_bytes_length, !length_cons; cbn [length]; lia|].
  cbn [mbind option_bind].
  destruct (leave b p _ b5 _ (dataSize a) Hb E5 Hp Hd0) as (data & Hdl & Hdb & E6);
    [rewrite !length_app, be_bytes_length, !length_cons; cbn [length]; lia|].
  rewrite encode_back by done. fold s0.
  destruct (grow b p _ b5 _ (after_data s0) E6 Hp) as (b6 & -> & E7);
    [rewrite !length_app, be_bytes_length, !length_cons; cbn [length]; lia|].
  cbn [mbind option_bind]. exists tm, data, b6. split; [done|]. split; [done|]. split; [done|]. cbv zeta.
  set (s := sample_of a tm data). specialize (Hlen tm data (proj2 Wtm) Hdl). fold s in Hlen.
  assert (Hbc : before_cnt s = bc) by done.
  assert (Hbt : before_tm s = bc ++ be_bytes 2 (smpCnt a) ++ rv) by done.
  assert (Hbs : before_synch s = before_tm s ++ opt_tlv 0x84 (if hasRefrTm a then Some tm else None) ++ [0x85; 1]) by done.
  assert (Hbd : before_data s = before_synch s ++ [smpSynch a] ++ rt ++ 0x87 :: BerEncoder.enc_length (dataSize a)).
  { unfold before_data. change (s_data s) with data. rewrite Hdl. done. }
  assert (Htl : zlen (opt_tlv 0x84 (if hasRefrTm a then Some tm else None)) = if hasRefrTm a then 10 else 0).
  { destruct (hasRefrTm a); [|done]. cbn [opt_tlv]. by rewrite BerEncoder.enc_tlv_length, (proj2 Wtm) by (destruct Wtm; lia). }
  assert (HX : BerEncoder.enc_tlv 0x30 (asdu_octets s) = asdu_head a ++ asdu_octets s).
  { unfold BerEncoder.enc_tlv. by rewrite Hlen. }
  assert (Ho : asdu_octets s = before_data s ++ data ++ after_data s0) by done.
  assert (Hend : p + zlen (asdu_head a) + getEncodedSize a =
    p + zlen (asdu_head a ++ bc) + zlen (be_bytes 2 (smpCnt a) ++ rv) + (if hasRefrTm a then 10 else 0) + zlen [0x85; 1] +
    zlen ([smpSynch a] ++ rt ++ 0x87 :: BerEncoder.enc_length (dataSize a)) + dataSize a + zlen (after_data s0)).
  { rewrite <- Hlen, Ho, Hbd, Hbs, Hbt, !length_app. cbn [length]. lia. }
  rewrite Hend, HX, Ho, Hbd, Hbs, Hbt, Hbc. split.
  - do 3 f_equal. f_equal; [f_equal|destruct (hasRefrTm a); [f_equal|]|f_equal|f_equal];
      rewrite ?length_app; cbn [length]; rewrite ?length_app; cbn [length]; lia || done.
  - rewrite <- E7. f_equal. rewrite <- !app_assoc. done.
Qed.

(** ** The pointers into the frame *)

Definition tlv_head (s : sample) : list Z := 0x30 :: BerEncoder.enc_length (zlen (asdu_octets s)).

(** The ASDU [a] points to the fields of [s], whose contents begin at [base]. *)
Record ptr_ok (base : Z) (a : SVPublisher_ASDU) (s : sample) : Prop := {
  pt_cnt : smpCntBuf a = Some (base + zlen (before_cnt s));
  pt_synch : smpSynchBuf a = Some (base + zlen (before_synch s));
  pt_data : dataBuffer_ a = Some (base + zlen (before_data s));
  pt_tm : refrTm a = match s_refrTm s with Some _ => Some (base + zlen (before_tm s) + 2) | None => None end;
  pt_value : smpCnt a = s_smpCnt s;
  pt_limit : smpCntLimit a = s_limit s;
  pt_gm : zlen (gmIdentity a) = 8;
}.

Fixpoint pointers (p : Z) (l : list SVPublisher_ASDU) (ss : list sample) : Prop :=
  match l, ss with
  | [], [] => True
  | a :: l, s :: ss =>
      ptr_ok (p + zlen (tlv_head s)) a s /\ pointers (p + zlen (tlv_head s) + zlen (asdu_octets s)) l ss
  | _, _ => False
  end.

Lemma asdus_cons s ss : asdus (s :: ss) = tlv_head s ++ asdu_octets s ++ asdus ss.
Proof. unfold asdus. rewrite fmap_cons. cbn [concat]. unfold BerEncoder.enc_tlv, tlv_head. cbn [app]. by rewrite <- app_assoc. Qed.

Lemma asdus_app s1 s2 : asdus (s1 ++ s2) = asdus s1 ++ asdus s2.
Proof. unfold asdus. by rewrite fmap_app, concat_app. Qed.

Lemma pointers_length l : forall p ss, pointers p l ss -> length l = length ss.
Proof.
  induction l as [|a l IH]; intros p [|s ss]; try done. intros [_ H]. simpl. f_equal. by eapply IH.
Qed.

(** The ASDU with number [i]. *)
Lemma pointers_lookup l : forall p ss i s, pointers p l ss -> ss !! i = Some s ->
  exists a, l !! i = Some a /\ ptr_ok (p + zlen (asdus (take i ss)) + zlen (tlv_head s)) a s.
Proof.
  induction l as [|a l IH]; intros p [|s0 ss] i s Hp Hi; try done. destruct Hp as [Ha Hp].
  destruct i as [|i]; [injection Hi as <-; exists a; split; [done|]; cbn [take]; by rewrite Z.add_0_r|].
  destruct (IH _ _ i s Hp Hi) as (a' & Ea & Hok). exists a'. split; [done|]. cbn [take]. rewrite asdus_cons, !length_app.
  replace (p + _ + _) with (p + zlen (tlv_head s0) + zlen (asdu_octets s0) + zlen (asdus (take i ss)) + zlen (tlv_head s)) by lia.
  exact Hok.
Qed.

Lemma tlv_head_length s s' : zlen (asdu_octets s') = zlen (asdu_octets s) -> tlv_head s' = tlv_head s.
Proof. intros E. unfold tlv_head. by rewrite E. Qed.

Lemma pointers_update l : forall p ss i s s' a', pointers p l ss -> ss !! i = Some s ->
  zlen (asdu_octets s') = zlen (asdu_octets s) ->
  ptr_ok (p + zlen (asdus (take i ss)) + zlen (tlv_head s)) a' s' ->
  pointers p (<[i := a']> l) (<[i := s']> ss).
Proof.
  induction l as [|a l IH]; intros p [|s0 ss] i s s' a' Hp Hi Hl Hok; try done. destruct Hp as [Ha Hp].
  destruct i as [|i]; cbn [insert list_insert].
  - injection Hi as ->. cbn [take] in Hok. change (zlen (asdus [])) with 0 in Hok. rewrite Z.add_0_r in Hok.
    cbn [pointers]. rewrite (tlv_head_length s s' Hl), Hl. by split.
  - split; [done|]. eapply IH; [done|done|done|]. cbn [take] in Hok. rewrite asdus_cons, !length_app in Hok.
    replace (p + zlen (tlv_head s0) + zlen (asdu_octets s0) + zlen (asdus (take i ss)) + zlen (tlv_head s))
      with (p + Z.of_nat (length (tlv_head s0) + (length (asdu_octets s0) + length (asdus (take i ss)))) + zlen (tlv_head s)) by lia.
    exact Hok.
Qed.

Lemma asdus_split ss i s : ss !! i = Some s ->
  asdus ss = asdus (take i ss) ++ tlv_head s ++ asdu_octets s ++ asdus (drop (S i) ss).
Proof. intros Hi. rewrite <- (take_drop_middle ss i s Hi) at 1. by rewrite asdus_app, asdus_cons. Qed.

Lemma asdus_update ss i s s' : ss !! i = Some s ->
  asdus (<[i := s']> ss) = asdus (take i ss) ++ tlv_head s' ++ asdu_octets s' ++ asdus (drop (S i) ss).
Proof.
  intros Hi. rewrite (asdus_split _ i s') by (apply list_lookup_insert_eq; by eapply lookup_lt_Some).
  by rewrite take_insert_ge, drop_insert_lt by lia.
Qed.

(** The octets of a frame in front of its ASDUs. *)
Definition frame_head (header : list Z) (n total : Z) : list Z :=
  let pdu_head := GoosePublisher.enc_uint32_tlv 0x80 n ++ 0xa2 :: BerEncoder.enc_length total in
  let inner := 0x60 :: BerEncoder.enc_length (zlen pdu_head + total) in
  header ++ be_bytes 2 (zlen inner + zlen pdu_head + total + 8) ++ [0; 0; 0; 0] ++ inner ++ pdu_head.

Lemma sv_frame_split header ss :
  sv_frame header ss = frame_head header (zlen ss) (zlen (asdus ss)) ++ asdus ss.
Proof.
  unfold sv_frame, frame_head, sv_pdu, sv_content. unfold BerEncoder.enc_tlv.
  set (h := GoosePublisher.enc_uint32_tlv 0x80 (zlen ss)). set (e := BerEncoder.enc_length (zlen (asdus ss))).
  replace (zlen (h ++ 162 :: e ++ asdus ss)) with (zlen (h ++ 162 :: e) + zlen (asdus ss))
    by (rewrite !length_app, !length_cons, !length_app; lia).
  rewrite <- !app_assoc. cbn [app]. do 2 f_equal.
  f_equal. rewrite !length_cons, !length_app, !length_cons, !length_app. lia.
Qed.

(** The frame of the publisher is that of [ss], and its ASDUs point into it. *)
Record holds (header : list Z) (self : SVPublisher) (ss : list sample) : Prop := {
  ho_frame : exists tail, buffer self = sv_frame header ss ++ tail;
  ho_size : zlen (buffer self) = SV_MAX_MESSAGE_SIZE;
  ho_start : payloadStart self = zlen header + 6;
  ho_length : payloadLength self = zlen (sv_pdu ss);
  ho_pointers : pointers (zlen (frame_head header (zlen ss) (zlen (asdus ss)))) (asduList self) ss;
  ho_socket : ethernetSocket self = true;
}.

Lemma sv_frame_length header ss : zlen (sv_frame header ss) = zlen header + 6 + zlen (sv_pdu ss).
Proof. unfold sv_frame. rewrite !length_app, be_bytes_length. simpl. lia. Qed.

Lemma holds_publish header self ss : holds header self ss -> publish self = Some (Some (sv_frame header ss)).
Proof.
  intros [[tail Hf] _ Hs Hl _ Hso]. unfold publish. rewrite Hso, Hs, Hl, Hf.
  replace (Z.to_nat (zlen header + 6 + zlen (sv_pdu ss))) with (length (sv_frame header ss))
    by (pose proof (sv_frame_length header ss); lia).
  rewrite (rds_at (sv_frame header ss ++ tail) 0 (sv_frame header ss)); [done|]. apply (bytes_at_mid []).
Qed.

(** Octets of an ASDU replaced by as many others. *)
Lemma holds_write header self ss i s s' pre old new post :
  holds header self ss -> ss !! i = Some s -> asdu_octets s = pre ++ old ++ post -> asdu_octets s' = pre ++ new ++ post ->
  length old = length new -> is_bytes new ->
  let base := zlen (frame_head header (zlen ss) (zlen (asdus ss))) + zlen (asdus (take i ss)) + zlen (tlv_head s) in
  exists b', puts (buffer self) (base + zlen pre) new = Some (b', base + zlen pre + zlen new) /\
    forall a', ptr_ok base a' s' -> holds header (set_frame self b' (payloadLength self) (<[i := a']> (asduList self))) (<[i := s']> ss).
Proof.
  intros [[tail Hf] Hsz Hst Hl Hp Hso] Hi Ho Hn Hlen Hb base.
  assert (Hls : zlen (asdu_octets s') = zlen (asdu_octets s)) by (rewrite Ho, Hn, !length_app; lia).
  assert (Hla : zlen (asdus (<[i := s']> ss)) = zlen (asdus ss)).
  { rewrite (asdus_update ss i s s' Hi), (asdus_split ss i s Hi), !length_app, (tlv_head_length s s' Hls). lia. }
  assert (Hbuf : buffer self = (frame_head header (zlen ss) (zlen (asdus ss)) ++ asdus (take i ss) ++ tlv_head s ++ pre) ++
    old ++ (post ++ asdus (drop (S i) ss) ++ tail)).
  { rewrite Hf, sv_frame_split. rewrite (asdus_split ss i s Hi) at 2. rewrite Ho, <- !app_assoc. done. }
  set (front := frame_head _ _ _ ++ _) in Hbuf.
  assert (Hbase : base + zlen pre = zlen front) by (unfold front, base; rewrite !length_app; lia).
  exists (front ++ new ++ (post ++ asdus (drop (S i) ss) ++ tail)). split.
  - rewrite Hbuf, Hbase, puts_mid by (done || rewrite !length_app; lia).
    rewrite <- Hlen, drop_app_length. done.
  - intros a' Ha'. constructor; try done; cbn [set_frame buffer payloadStart payloadLength asduList].
    + exists tail. rewrite sv_frame_split, length_insert, Hla, (asdus_update ss i s s' Hi), Hn, (tlv_head_length s s' Hls).
      unfold front. rewrite <- !app_assoc. done.
    + rewrite Hbuf in Hsz. rewrite !length_app in *. lia.
    + rewrite Hl. unfold sv_pdu, sv_content. unfold BerEncoder.enc_tlv.
      rewrite length_insert, !length_cons, !length_app, !length_cons, !length_app, Hla.
      replace (length (asdus (<[i:=s']> ss))) with (length (asdus ss)) by lia. done.
    + rewrite length_insert, Hla. by apply (pointers_update _ _ _ i s).
Qed.

(** ** The contract of the operations *)

Inductive command :=
  | SetINT8 (index value : Z) | SetINT32 (index value : Z) | SetINT64 (index value : Z)
  | SetFLOAT (index : Z) (value : list Z) | SetFLOAT64 (index : Z) (value : list Z)
  | SetTimestamp (index : Z) (val : list Z) | SetQuality (index value : Z)
  | SetSmpCnt (value : Z) | IncreaseSmpCnt | SetSmpCntWrap (value : Z) | SetSmpSynch (value : Z)
  | SetRefrTmNs (ns : Z) | SetRefrTm (ms : Z) | SetRefrTmByTimestamp (val : list Z)
  | SetSmpRate (value : Z) | SetSmpMod (value : Z) | SetGmIdentity (identity : list Z) | EnableRefrTm
  | AddSize (n : Z) | ResetBuffer.

Definition run (c : command) : asdu_op :=
  match c with
  | SetINT8 i v => setINT8 i v | SetINT32 i v => setINT32 i v | SetINT64 i v => setINT64 i v
  | SetFLOAT i v => setFLOAT i v | SetFLOAT64 i v => setFLOAT64 i v
  | SetTimestamp i v => setTimestamp i v | SetQuality i v => setQuality i v
  | SetSmpCnt v => setSmpCnt v | IncreaseSmpCnt => increaseSmpCnt | SetSmpCntWrap v => setSmpCntWrap v
  | SetSmpSynch v => setSmpSynch v
  | SetRefrTmNs ns => setRefrTmNs ns | SetRefrTm ms => setRefrTm ms | SetRefrTmByTimestamp v => setRefrTmByTimestamp v
  | SetSmpRate v => setSmpRate v | SetSmpMod v => setSmpMod v | SetGmIdentity g => setGmIdentity g
  | EnableRefrTm => enableRefrTm
  | AddSize n => add_size n | ResetBuffer => resetBuffer
  end.

Definition update (s : sample) (cnt limit : Z) (tm : option (list Z)) (synch : Z) (data : list Z) : sample :=
  {| s_svID := s_svID s; s_datset := s_datset s; s_smpCnt := cnt; s_limit := limit; s_confRev := s_confRev s;
     s_refrTm := tm; s_smpSynch := synch; s_smpRate := s_smpRate s; s_data := data; s_smpMod := s_smpMod s;
     s_gmIdentity := s_gmIdentity s |}.

Definition with_data (s : sample) (xs : list Z) : sample :=
  update s (s_smpCnt s) (s_limit s) (s_refrTm s) (s_smpSynch s) xs.
Definition with_count (s : sample) (cnt limit : Z) : sample :=
  update s cnt limit (s_refrTm s) (s_smpSynch s) (s_data s).
Definition with_synch (s : sample) (v : Z) : sample := update s (s_smpCnt s) (s_limit s) (s_refrTm s) v (s_data s).
Definition with_time (s : sample) (t : list Z) : sample :=
  update s (s_smpCnt s) (s_limit s) ((fun _ => t) <$> s_refrTm s) (s_smpSynch s) (s_data s).

(** [xs] in place of the octets from [index] on, inside the data. *)
Definition store (index : Z) (xs : list Z) (s : sample) : option sample :=
  if decide (0 <= index /\ index + zlen xs <= zlen (s_data s)) then
    Some (with_data s (take (Z.to_nat index) (s_data s) ++ xs ++ drop (Z.to_nat index + length xs) (s_data s)))
  else None.

(** The time [s] seconds and [f] 2^-24 parts of one, with the precision [n]. *)
Definition time_stamp (sec f n : Z) (old : list Z) : list Z :=
  stamp sec f (u8 (Z.land (default 0 (old !! 7%nat)) 0xe0 + n)).

(** What a command does to the contents of the frame; [None]: it must not be called like
    this. *)
Definition effect (c : command) (s : sample) : option sample :=
  match c with
  | SetINT8 i v => store i [u8 v] s
  | SetINT32 i v => store i (be_bytes 4 v) s
  | SetINT64 i v => store i (be_bytes 8 v) s
  | SetFLOAT i v => if decide (wf_buf v 4) then store i (reverse v) s else None
  | SetFLOAT64 i v => if decide (wf_buf v 8) then store i (reverse v) s else None
  | SetTimestamp i v => if decide (wf_buf v 8) then store i v s else None
  | SetQuality i v => store i [0; 0; u8 (v / 256); v mod 256] s
  | SetSmpCnt v => Some (with_count s v (s_limit s))
  | IncreaseSmpCnt =>
      if decide (s_limit s = 0) then None
      else Some (with_count s (u16 (Z.rem (s_smpCnt s + 1) (s_limit s))) (s_limit s))
  | SetSmpCntWrap v => Some (with_count s (s_smpCnt s) v)
  | SetSmpSynch v => Some (with_synch s (u8 v))
  | SetRefrTmNs ns =>
      if decide (0 <= ns /\ ns / 1000000000 < 4294967296) then
        Some (with_time s (time_stamp (ns / 1000000000) (ns mod 1000000000 * 16777216 / 1000000000) 20
                             (default [] (s_refrTm s))))
      else None
  | SetRefrTm ms =>
      if decide (0 <= ms /\ ms / 1000 < 4294967296) then
        Some (with_time s (time_stamp (ms / 1000) (ms mod 1000 * 16777 + ms mod 1000 * 216 / 1000) 10
                             (default [] (s_refrTm s))))
      else None
  | SetRefrTmByTimestamp v => if decide (wf_buf v 8) then Some (with_time s v) else None
  | SetGmIdentity g => if decide (wf_buf g 8) then Some s else None
  | SetSmpRate _ | SetSmpMod _ | EnableRefrTm | AddSize _ | ResetBuffer => Some s
  end.

(** *** Each command does what the contract says *)

(** The time stamp of a sample has eight octets. *)
Definition sample_wf (s : sample) : Prop := forall t, s_refrTm s = Some t -> wf_buf t 8.

Definition implements (f : asdu_op) (s s' : sample) : Prop :=
  forall header self ss i, holds header self ss -> ss !! i = Some s ->
  exists self', on_asdu self i f = Some self' /\ holds header self' (<[i := s']> ss).

(** Commands that leave the frame alone. *)
Lemma implements_keep f s s' : asdu_octets s' = asdu_octets s ->
  (forall base a b, ptr_ok base a s -> exists a', f a b = Some (a', b) /\ ptr_ok base a' s') -> implements f s s'.
Proof.
  intros Ho Hf header self ss i Hh Hi. pose proof Hh as [Hfr Hsz Hst Hl Hp Hso].
  destruct (pointers_lookup _ _ _ _ _ Hp Hi) as (a & Ea & Hok). destruct (Hf _ _ (buffer self) Hok) as (a' & E & Hok').
  unfold on_asdu. rewrite Ea. cbn [mbind option_bind]. rewrite E. cbn [mbind option_bind].
  eexists. split; [done|].
  assert (Has : asdus (<[i:=s']> ss) = asdus ss).
  { rewrite (asdus_update ss i s s' Hi), (asdus_split ss i s Hi), Ho. by rewrite (tlv_head_length s s') by (by rewrite Ho). }
  assert (Hfs : sv_pdu (<[i:=s']> ss) = sv_pdu ss).
  { unfold sv_pdu, sv_content. by rewrite Has, length_insert. }
  constructor; try done; cbn [set_frame buffer payloadLength asduList].
  - destruct Hfr as [tail ->]. exists tail. unfold sv_frame. by rewrite Hfs.
  - by rewrite Hfs.
  - rewrite Has, length_insert. apply (pointers_update _ _ _ i s); [done|done|by rewrite Ho|done].
Qed.

(** Commands that write into the frame. *)
Lemma implements_write f s s' pre old new post :
  asdu_octets s = pre ++ old ++ post -> asdu_octets s' = pre ++ new ++ post -> length old = length new -> is_bytes new ->
  (forall base a b, ptr_ok base a s -> bytes_at b (base + zlen pre) old ->
    exists a', f a b = ('(b, _) ← puts b (base + zlen pre) new; Some (a', b)) /\ ptr_ok base a' s') ->
  implements f s s'.
Proof.
  intros Ho Hn Hlen Hb Hf header self ss i Hh Hi. pose proof Hh as [[tail Hfr] _ _ _ Hp _].
  destruct (pointers_lookup _ _ _ _ _ Hp Hi) as (a & Ea & Hok).
  destruct (holds_write header self ss i s s' pre old new post Hh Hi Ho Hn Hlen Hb) as (b' & E & Hh').
  set (base := zlen (frame_head _ _ _) + _ + _) in *.
  destruct (Hf base a (buffer self) Hok) as (a' & Ef & Hok').
  { rewrite Hfr, sv_frame_split. rewrite (asdus_split ss i s Hi) at 2. rewrite Ho.
    replace ((frame_head header (zlen ss) (zlen (asdus ss)) ++ asdus (take i ss) ++ tlv_head s ++ (pre ++ old ++ post) ++ asdus (drop (S i) ss)) ++ tail)
      with ((frame_head header (zlen ss) (zlen (asdus ss)) ++ asdus (take i ss) ++ tlv_head s ++ pre) ++ old ++ (post ++ asdus (drop (S i) ss) ++ tail))
      by (rewrite <- !app_assoc; done).
    match goal with |- bytes_at (?p ++ _) ?q _ => replace q with (zlen p) by (unfold base; rewrite !length_app; lia) end.
    apply bytes_at_mid. }
  unfold on_asdu. rewrite Ea. cbn [mbind option_bind]. rewrite Ef, E. cbn [mbind option_bind].
  eexists. split; [done|]. by apply Hh'.
Qed.

(** *** The fields of an ASDU *)

Lemma update_self s : update s (s_smpCnt s) (s_limit s) (s_refrTm s) (s_smpSynch s) (s_data s) = s.
Proof. by destruct s. Qed.

(** New contents of the same lengths leave all pointers valid. *)
Lemma ptr_update base a a' s cnt limit tm synch data :
  ptr_ok base a s -> zlen data = zlen (s_data s) ->
  (match s_refrTm s, tm with Some t, Some t' => zlen t' = zlen t | None, None => True | _, _ => False end) ->
  smpCntBuf a' = smpCntBuf a -> smpSynchBuf a' = smpSynchBuf a -> dataBuffer_ a' = dataBuffer_ a -> refrTm a' = refrTm a ->
  smpCnt a' = cnt -> smpCntLimit a' = limit -> gmIdentity a' = gmIdentity a ->
  ptr_ok base a' (update s cnt limit tm synch data).
Proof.
  intros [H1 H2 H3 H4 _ _ H7] Hd Ht E1 E2 E3 E4 E5 E6 E7.
  assert (Hc : before_cnt (update s cnt limit tm synch data) = before_cnt s) by done.
  assert (Hbt : zlen (before_tm (update s cnt limit tm synch data)) = zlen (before_tm s)).
  { unfold before_tm. rewrite Hc, !length_app, !be_bytes_length. done. }
  assert (Hot : zlen (opt_tlv 0x84 tm) = zlen (opt_tlv 0x84 (s_refrTm s))).
  { destruct (s_refrTm s), tm; try done. cbn [opt_tlv]. unfold BerEncoder.enc_tlv. rewrite Ht, !length_cons, !length_app. lia. }
  assert (Hbs : zlen (before_synch (update s cnt limit tm synch data)) = zlen (before_synch s)).
  { unfold before_synch. cbn [s_refrTm update]. rewrite !length_app. lia. }
  assert (Hbd : zlen (before_data (update s cnt limit tm synch data)) = zlen (before_data s)).
  { unfold before_data. cbn [s_smpSynch s_smpRate s_data update]. rewrite Hd, !length_app. cbn [length]. lia. }
  constructor; rewrite ?E1, ?E2, ?E3, ?E4, ?E7, ?Hc, ?Hbs, ?Hbd, ?Hbt; try done.
  cbn [s_refrTm update]. rewrite H4. by destruct (s_refrTm s), tm.
Qed.

Lemma same_tm s : match s_refrTm s, s_refrTm s with Some t, Some t' => zlen t' = zlen t | None, None => True | _, _ => False end.
Proof. by destruct (s_refrTm s). Qed.

Lemma count_octets s : exists post, forall c l, asdu_octets (with_count s c l) = before_cnt s ++ be_bytes 2 c ++ post.
Proof.
  eexists. intros c l. unfold asdu_octets, before_data, before_synch, before_tm. rewrite <- !app_assoc.
  cbn [with_count update s_smpCnt s_confRev s_refrTm s_smpSynch s_smpRate s_data].
  change (after_data (with_count s c l)) with (after_data s). change (before_cnt (with_count s c l)) with (before_cnt s). reflexivity.
Qed.

Lemma synch_octets s : exists post, forall v, asdu_octets (with_synch s v) = before_synch s ++ [v] ++ post.
Proof.
  eexists. intros v. unfold asdu_octets, before_data. rewrite <- !app_assoc.
  cbn [with_synch update s_smpSynch s_smpRate s_data].
  change (after_data (with_synch s v)) with (after_data s). change (before_synch (with_synch s v)) with (before_synch s). reflexivity.
Qed.

Lemma time_octets s t0 : s_refrTm s = Some t0 ->
  exists post, forall t, zlen t = 8 -> asdu_octets (with_time s t) = (before_tm s ++ [0x84; 8]) ++ t ++ post.
Proof.
  intros E. eexists. intros t Ht. unfold asdu_octets, before_data, before_synch. rewrite <- !app_assoc.
  cbn [with_time update s_smpCnt s_confRev s_refrTm s_smpSynch s_smpRate s_data s_smpMod s_gmIdentity]. rewrite E.
  cbn [fmap option_fmap option_map opt_tlv]. unfold BerEncoder.enc_tlv. rewrite Ht. cbn [app]. rewrite <- !app_assoc.
  change (before_tm (with_time s t)) with (before_tm s). change (after_data (with_time s t)) with (after_data s). reflexivity.
Qed.

Lemma data_octets s xs : zlen xs = zlen (s_data s) ->
  asdu_octets (with_data s xs) = before_data s ++ xs ++ after_data s.
Proof. intros H. unfold asdu_octets, before_data. cbn [with_data update s_data s_smpSynch s_smpRate]. by rewrite H. Qed.

(** *** The commands *)

Lemma store_implements f index xs s s' : store index xs s = Some s' -> is_bytes xs ->
  (forall a b p, dataBuffer_ a = Some p -> f a b = '(b, _) ← puts b (p + index) xs; Some (a, b)) -> implements f s s'.
Proof.
  unfold store. case_decide as Hi; [|done]. intros [= <-] Hb Hf. destruct Hi as [Hi0 Hil].
  set (d := s_data s) in *. set (i := Z.to_nat index). set (n := length xs).
  assert (Hl : zlen (take i d ++ xs ++ drop (i + n) d) = zlen d).
  { rewrite !length_app, length_take, length_drop. unfold i, n. lia. }
  apply (implements_write f s _ (before_data s ++ take i d) (take n (drop i d)) xs (drop (i + n) d ++ after_data s)).
  - unfold asdu_octets. fold d. rewrite <- (take_drop i d) at 1. rewrite <- (take_drop n (drop i d)) at 1.
    rewrite drop_drop, <- !app_assoc. done.
  - rewrite data_octets by done. by rewrite <- !app_assoc.
  - rewrite length_take, length_drop. unfold i, n. lia.
  - done.
  - intros base a b Hok _. exists a. split.
    + rewrite (Hf a b _ (pt_data _ _ _ Hok)). do 2 f_equal. rewrite length_app, length_take. unfold i. lia.
    + eapply ptr_update; try done; [apply same_tm|apply (pt_value _ _ _ Hok)|apply (pt_limit _ _ _ Hok)].
Qed.

Lemma write_data_runs index xs ys a b p : dataBuffer_ a = Some p -> (forall b q, puts b q ys = puts b q xs) ->
  write_data index ys a b = '(b, _) ← puts b (p + index) xs; Some (a, b).
Proof. intros E H. unfold write_data. rewrite E. cbn [mbind option_bind]. by rewrite H. Qed.

Lemma setFloat_runs n v : wf_buf v n -> BerEncoder.revertByteOrder v 0 n = Some (reverse v).
Proof.
  intros [Hb <-]. pose proof (BerEncoder.revertByteOrder_spec [] v []) as E. cbn [app] in E.
  rewrite !app_nil_r in E. by apply E.
Qed.

Lemma count_implements v limit s : implements (fun a b => setSmpCnt v (set_counter a (smpCnt a) limit (smpSynch a)) b) s (with_count s v limit).
Proof.
  destruct (count_octets s) as [post Hp].
  apply (implements_write _ s _ (before_cnt s) (be_bytes 2 (s_smpCnt s)) (be_bytes 2 v) post).
  - rewrite <- (Hp (s_smpCnt s) (s_limit s)). unfold with_count. by rewrite update_self.
  - apply Hp.
  - by rewrite !be_bytes_length.
  - apply be_bytes_bytes.
  - intros base a b Hok _. eexists. split.
    + unfold setSmpCnt. cbn [smpCntBuf set_counter smpCnt smpCntLimit smpSynch]. rewrite (pt_cnt _ _ _ Hok).
      rewrite uint16_puts. reflexivity.
    + eapply ptr_update; try done; [apply same_tm].
Qed.

Lemma synch_implements v s : implements (setSmpSynch v) s (with_synch s (u8 v)).
Proof.
  destruct (synch_octets s) as [post Hp].
  apply (implements_write _ s _ (before_synch s) [s_smpSynch s] [u8 v] post).
  - rewrite <- (Hp (s_smpSynch s)). unfold with_synch. by rewrite update_self.
  - apply Hp.
  - done.
  - constructor; [apply u8_range|constructor].
  - intros base a b Hok _. eexists. split.
    + unfold setSmpSynch. cbn [smpSynchBuf set_counter smpSynch]. rewrite (pt_synch _ _ _ Hok). cbn [mbind option_bind puts].
      unfold put. destruct (wr b _ (u8 v)) as [b'|]; reflexivity.
    + eapply ptr_update; try done; [apply same_tm|apply (pt_value _ _ _ Hok)|apply (pt_limit _ _ _ Hok)].
Qed.

Lemma time_implements f s t : sample_wf s -> wf_buf t 8 -> (forall t0, s_refrTm s = Some t0 -> f t0 = Some t) ->
  implements (write_refrTm f) s (with_time s t).
Proof.
  intros Hs [Htb Htl] Hf. destruct (s_refrTm s) as [t0|] eqn:E.
  - destruct (time_octets s t0 E) as [post Hp]. destruct (Hs t0 E) as [Hb0 Hl0].
    assert (Hself : with_time s t0 = s) by (unfold with_time; rewrite E; cbn; rewrite <- E; apply update_self).
    apply (implements_write _ s _ (before_tm s ++ [0x84; 8]) t0 t post).
    + rewrite <- Hp by done. by rewrite Hself.
    + by apply Hp.
    + lia.
    + done.
    + intros base a b Hok Hat. eexists. split.
      * unfold write_refrTm. cbn [refrTm enable_refrTm set_optional]. rewrite (pt_tm _ _ _ Hok), E.
        replace (base + zlen (before_tm s) + 2) with (base + zlen (before_tm s ++ [132; 8])) by (rewrite length_app; simpl; lia).
        pose proof (rds_at _ _ _ Hat) as Hr. replace (length t0) with 8%nat in Hr by lia. rewrite Hr. cbn [mbind option_bind].
        rewrite (Hf t0 eq_refl). cbn [mbind option_bind]. reflexivity.
      * eapply ptr_update; try done; [rewrite E; cbn; lia|apply (pt_value _ _ _ Hok)|apply (pt_limit _ _ _ Hok)].
  - assert (Hself : with_time s t = s) by (unfold with_time; rewrite E; cbn; rewrite <- E; apply update_self).
    rewrite Hself. apply implements_keep; [done|]. intros base a b Hok. eexists. split.
    + unfold write_refrTm. cbn [refrTm enable_refrTm set_optional]. rewrite (pt_tm _ _ _ Hok), E. reflexivity.
    + destruct Hok. by constructor.
Qed.

Lemma keep_implements g s : (forall base a, ptr_ok base a s -> ptr_ok base (g a) s) ->
  implements (fun a b => Some (g a, b)) s s.
Proof. intros Hg. apply implements_keep; [done|]. intros base a b Hok. eexists. split; [done|by apply Hg]. Qed.

Lemma puts_octets ys xs : u8 <$> ys = xs -> forall b q, puts b q ys = puts b q xs.
Proof. intros <- b q. apply puts_u8. Qed.

Lemma float_implements n index v s s' (f : Z -> list Z -> asdu_op) :
  (forall a b, f index v a b = buf ← BerEncoder.revertByteOrder v 0 n; write_data index (take (Z.to_nat n) buf) a b) ->
  (if decide (wf_buf v n) then store index (reverse v) s else None) = Some s' -> implements (f index v) s s'.
Proof.
  intros Hf. case_decide as Hv; [|done]. intros E. apply (store_implements _ _ _ _ _ E); [apply Forall_reverse, Hv|].
  intros a b p Ep. rewrite Hf, (setFloat_runs n v Hv). cbn [mbind option_bind].
  rewrite take_ge by (rewrite length_reverse; destruct Hv; lia). by apply write_data_runs.
Qed.

Lemma stamped_wf sec f n old : 0 <= n -> wf_buf (time_stamp sec f n old) 8.
Proof. intros Hn. split; [apply stamp_bytes, u8_range|apply stamp_length]. Qed.

(** The subsecond precision of a time stamp that has been set. *)
Lemma time_stamp_spec t0 sec f n (set : list Z -> option (list Z)) : wf_buf t0 8 -> u8 (Z.land n 0x1f) = n ->
  (forall s f' q, set (stamp s f' q) = Some (stamp sec f q)) ->
  (val ← set t0; Timestamp_setSubsecondPrecision n val) = Some (time_stamp sec f n t0).
Proof.
  intros Hw Hn Hset. destruct (stamp_all t0 Hw) as (s & f' & q & -> & _). rewrite Hset. cbn [mbind option_bind].
  rewrite precision_stamp, Hn. unfold time_stamp. do 4 f_equal.
Qed.

(** A command that sets the counter to [v]. *)
Lemma count_command f v s :
  (forall base a b, ptr_ok base a s -> f a b = setSmpCnt v (set_counter a (smpCnt a) (s_limit s) (smpSynch a)) b) ->
  implements f s (with_count s v (s_limit s)).
Proof.
  intros Hf header self ss i Hh Hi.
  destruct (count_implements v (s_limit s) s header self ss i Hh Hi) as (self' & E & Hh').
  exists self'. split; [|done]. rewrite <- E. destruct Hh as [_ _ _ _ Hp _].
  destruct (pointers_lookup _ _ _ _ _ Hp Hi) as (a & Ea & Hok). unfold on_asdu. rewrite Ea. cbn [mbind option_bind].
  by rewrite (Hf _ _ _ Hok).
Qed.

Lemma command_implements c s s' : sample_wf s -> effect c s = Some s' -> implements (run c) s s' /\ sample_wf s'.
Proof.
  intros Hs. assert (Hst : forall i xs, store i xs s = Some s' -> sample_wf s').
  { intros i xs. unfold store. case_decide; [|done]. intros [= <-]. exact Hs. }
  assert (Hkeep : forall g, (forall base a, ptr_ok base a s -> ptr_ok base (g a) s) -> Some s = Some s' ->
    implements (fun a b => Some (g a, b)) s s' /\ sample_wf s').
  { intros g Hg [= <-]. split; [by apply keep_implements|done]. }
  assert (Htime : forall f t, wf_buf t 8 -> (forall t0, s_refrTm s = Some t0 -> f t0 = Some t) ->
    implements (write_refrTm f) s (with_time s t) /\ sample_wf (with_time s t)).
  { intros f t Ht Hf. split; [by apply time_implements|]. intros t1. cbn. destruct (s_refrTm s); [|done]. by intros [= <-]. }
  destruct c; cbn [run effect]; intros E; try (by apply Hkeep; [intros base a []; by constructor|]).
  - split; [|by eapply Hst]. apply (store_implements _ _ _ _ _ E); [repeat constructor; apply u8_range|].
    intros a b p Ep. apply write_data_runs; [done|by apply puts_octets].
  - split; [|by eapply Hst]. apply (store_implements _ _ _ _ _ E); [apply be_bytes_bytes|].
    intros a b p Ep. unfold setINT32. rewrite Ep. cbn [mbind option_bind]. change encodeInt32FixedSize with encodeUInt32FixedSize.
    by rewrite uint32_puts.
  - split; [|by eapply Hst]. apply (store_implements _ _ _ _ _ E); [apply be_bytes_bytes|].
    intros a b p Ep. unfold setINT64. rewrite Ep. cbn [mbind option_bind]. by rewrite int64_puts.
  - split; [by apply (float_implements 4 _ _ _ _ _ (fun a b => eq_refl))|]. case_decide; [by eapply Hst|done].
  - split; [by apply (float_implements 8 _ _ _ _ _ (fun a b => eq_refl))|]. case_decide; [by eapply Hst|done].
  - case_decide as Hv; [|done]. split; [|by eapply Hst]. apply (store_implements _ _ _ _ _ E); [apply Hv|].
    intros a b p Ep. unfold setTimestamp. rewrite take_ge by (destruct Hv; lia). by apply write_data_runs.
  - split; [|by eapply Hst].
    assert (Hq : u8 <$> [0; 0; value / 0x100; value mod 0x100] = [0; 0; u8 (value / 256); value mod 256]).
    { cbn. unfold u8. by rewrite Zmod_mod. }
    apply (store_implements _ _ _ _ _ E); [|intros a b p Ep; apply write_data_runs; [done|by apply puts_octets]].
    rewrite <- Hq. apply Forall_fmap, Forall_true. intros. apply u8_range.
  - injection E as <-. split; [|exact Hs]. apply (count_command _ value). intros base a b Hok.
    rewrite <- (pt_limit _ _ _ Hok). by destruct a.
  - case_decide as Hz; [done|]. injection E as <-. split; [|exact Hs]. apply count_command. intros base a b Hok.
    unfold increaseSmpCnt. rewrite <- (pt_limit _ _ _ Hok), <- (pt_value _ _ _ Hok) in *. rewrite decide_False by done. by destruct a.
  - injection E as <-. split; [|exact Hs]. apply implements_keep.
    + destruct (count_octets s) as [post Hp]. rewrite Hp, <- (Hp (s_smpCnt s) (s_limit s)). unfold with_count. by rewrite update_self.
    + intros base a b Hok. eexists. split; [done|].
      eapply ptr_update; try done; [apply same_tm|apply (pt_value _ _ _ Hok)].
  - injection E as <-. split; [apply synch_implements|exact Hs].
  - case_decide as Hn; [|done]. injection E as <-. apply Htime; [by apply stamped_wf|].
    intros t0 Et. rewrite Et. apply time_stamp_spec; [by apply Hs|done|]. intros. apply nanoseconds_stamp; apply Hn.
  - case_decide as Hn; [|done]. injection E as <-. apply Htime; [by apply stamped_wf|].
    intros t0 Et. rewrite Et. apply time_stamp_spec; [by apply Hs|done|]. intros. apply milliseconds_stamp; apply Hn.
  - case_decide as Hv; [|done]. injection E as <-. apply Htime; [done|]. intros t0 _.
    destruct Hv as [Hb Hl]. rewrite (rds_take 8) by lia. f_equal. apply take_ge. lia.
  - case_decide as Hv; [|done]. injection E as <-. split; [|exact Hs]. apply implements_keep; [done|].
    intros base a b Hok. unfold setGmIdentity. destruct Hv as [Hvb Hvl].
    replace 8%nat with (length identity) by lia. rewrite (copy_bytes_at _ _ identity) by apply bytes_at_0.
    destruct (puts_Some (gmIdentity a) 0 identity) as [g Eg]; [lia|rewrite (pt_gm _ _ _ Hok); lia|]. rewrite Eg.
    cbn [mbind option_bind]. eexists. split; [done|]. pose proof (pt_gm _ _ _ Hok) as Hgl. apply puts_inv in Eg as (_ & Hgl' & _).
    destruct Hok. constructor; try done. cbn. lia.
Qed.

(** ** The frame after [SVPublisher_setupComplete] *)

(** An ASDU as the application may configure it. *)
Record asdu_ready (a : SVPublisher_ASDU) : Prop := {
  ar_wf : asdu_wf a;
  ar_tm : hasRefrTm a = false -> refrTm a = None;
  ar_size : getEncodedSize a < 65535;
}.

(** The frame has the fields of [a]; what was in the memory is [tm] and [data]. *)
Definition laid_out (a : SVPublisher_ASDU) (s : sample) : Prop :=
  exists tm data, s = sample_of a tm data /\ wf_buf tm 8 /\ zlen data = dataSize a /\ is_bytes data.

Lemma laid_out_size a s : asdu_ready a -> laid_out a s -> zlen (asdu_octets s) = getEncodedSize a.
Proof.
  intros [Ha _ Hs] (tm & data & -> & Ht & Hd & _). destruct (aw_gm _ Ha) as [_ Hg]. pose proof (aw_size _ Ha).
  apply asdu_octets_length; try done; [apply Ht|..]; unfold getEncodedSize in Hs;
    pose proof (MmsData.determineLengthSize_pos (zlen (svID a))); pose proof (MmsData.determineLengthSize_pos (dataSize a));
    (destruct (datset a) as [ds|]; [pose proof (MmsData.determineLengthSize_pos (zlen ds))|]);
    destruct (hasRefrTm a), (hasSmpRate a), (hasSmpMod a), (hasGmIdentity a); cbn [default]; simpl length; lia.
Qed.

Lemma asdu_head_length a : 0 <= getEncodedSize a < 65535 ->
  zlen (asdu_head a) = 1 + BerEncoder.determineLengthSize (getEncodedSize a).
Proof.
  intros H. unfold asdu_head. rewrite length_cons.
  pose proof (BerEncoder.enc_length_size (getEncodedSize a) ltac:(unfold_int; lia)) as E.
  rewrite decide_False in E by lia. lia.
Qed.

Lemma getEncodedSize_pos a : 0 <= dataSize a -> 0 <= getEncodedSize a.
Proof.
  intros H. unfold getEncodedSize. pose proof (MmsData.determineLengthSize_pos (zlen (svID a))).
  pose proof (MmsData.determineLengthSize_pos (dataSize a)).
  destruct (datset a) as [ds|]; [pose proof (MmsData.determineLengthSize_pos (zlen ds))|];
    destruct (hasRefrTm a), (hasSmpRate a), (hasSmpMod a), (hasGmIdentity a); lia.
Qed.

Lemma totalASDULength_pos l : Forall asdu_ready l -> 0 <= totalASDULength l.
Proof.
  induction 1 as [|a l Ha _ IH]; cbn [totalASDULength]; [lia|].
  pose proof (getEncodedSize_pos a (aw_size _ (ar_wf _ Ha))). pose proof (MmsData.determineLengthSize_pos (getEncodedSize a)). lia.
Qed.

Lemma encodeASDUs_spec l : forall b p, Forall asdu_ready l -> is_bytes b -> 0 <= p -> p + totalASDULength l <= zlen b ->
  exists l' b' ss, Forall2 laid_out l ss /\ pointers p l' ss /\ zlen (asdus ss) = totalASDULength l /\
    encodeASDUs l b p = Some (l', b', p + zlen (asdus ss)) /\ puts b p (asdus ss) = Some (b', p + zlen (asdus ss)).
Proof.
  induction l as [|a l IH]; intros b p Hl Hb Hp Hroom.
  { exists [], b, []. split; [constructor|]. cbn. rewrite Z.add_0_r. done. }
  inversion Hl as [|? ? Ha Hl']; subst. cbn [totalASDULength] in Hroom.
  pose proof (getEncodedSize_pos a (aw_size _ (ar_wf _ Ha))) as H0. pose proof (ar_size _ Ha) as Hs.
  pose proof (asdu_head_length a ltac:(lia)) as Hh. pose proof (totalASDULength_pos l Hl') as Ht0.
  destruct (encodeToBuffer_spec a b p (ar_wf _ Ha) Hb Hp Hs) as (tm & data & b1 & Htm & Hd & Hdb & E1 & P1); [lia|].
  cbv zeta in E1, P1. set (s := sample_of a tm data) in *.
  assert (Hlo : laid_out a s) by (by exists tm, data). pose proof (laid_out_size a s Ha Hlo) as Hsz.
  pose proof (puts_bytes _ _ _ _ _ Hb P1) as Hb1.
  assert (Hl1 : zlen b1 = zlen b) by (apply puts_inv in P1; tauto).
  assert (Hth : zlen (tlv_head s) = zlen (asdu_head a)) by (unfold tlv_head, asdu_head; by rewrite Hsz).
  destruct (IH b1 (p + zlen (asdu_head a) + getEncodedSize a) Hl' Hb1) as (l' & b' & ss & Hf & Hpt & Htot & E2 & P2); [lia|lia|].
  match type of E1 with _ = Some (?a', _, _) => exists (a' :: l'), b', (s :: ss) end.
  split; [by constructor|]. split; [|split; [|split]].
  - cbn [pointers]. rewrite Hth, Hsz. split; [|exact Hpt].
    constructor; try reflexivity; [|apply (aw_gm _ (ar_wf _ Ha))]. cbn [refrTm set_pointers]. destruct (hasRefrTm a) eqn:Er; cbn [s sample_of s_refrTm]; rewrite Er; [done|].
    by apply (ar_tm _ Ha).
  - rewrite asdus_cons, !length_app. cbn [totalASDULength]. lia.
  - cbn [encodeASDUs]. rewrite E1. cbn [mbind option_bind]. rewrite E2. cbn [mbind option_bind].
    rewrite asdus_cons, !length_app. do 2 f_equal. lia.
  - rewrite asdus_cons, app_assoc. change (tlv_head s ++ asdu_octets s) with (BerEncoder.enc_tlv 0x30 (asdu_octets s)).
    rewrite puts_app, P1. cbn [mbind option_bind]. rewrite P2. do 2 f_equal. rewrite length_app.
    unfold BerEncoder.enc_tlv. rewrite length_cons, length_app. unfold tlv_head in Hth. rewrite length_cons in Hth. lia.
Qed.

(** A publisher whose frame has its Ethernet header and whose ASDUs are configured. *)
Record prepared (header : list Z) (self : SVPublisher) : Prop := {
  pr_frame : exists x y rest, buffer self = header ++ [x; y; 0; 0; 0; 0] ++ rest;
  pr_bytes : wf_buf (buffer self) SV_MAX_MESSAGE_SIZE;
  pr_field : lengthField self = zlen header /\ 0 < zlen header;
  pr_start : payloadStart self = zlen header + 6;
  pr_socket : ethernetSocket self = true;
  pr_asdus : Forall asdu_ready (asduList self);
}.

(** The size of the frame. *)
Definition frame_size (header : list Z) (l : list SVPublisher_ASDU) : Z :=
  zlen (frame_head header (zlen l) (totalASDULength l)) + totalASDULength l.

Lemma setup_writes self ss b1 b' p1 l' :
  lengthField self <> 0 ->
  let pdu_head := GoosePublisher.enc_uint32_tlv 0x80 (zlen (asduList self)) ++ 0xa2 :: BerEncoder.enc_length (totalASDULength (asduList self)) in
  let inner := 0x60 :: BerEncoder.enc_length (zlen pdu_head + totalASDULength (asduList self)) in
  0 <= totalASDULength (asduList self) < 65535 -> zlen pdu_head + totalASDULength (asduList self) < 65535 ->
  puts (buffer self) (payloadStart self) (inner ++ pdu_head) = Some (b1, p1) ->
  encodeASDUs (asduList self) b1 p1 = Some (l', b', p1 + zlen (asdus ss)) ->
  setupComplete self = (let len := p1 + zlen (asdus ss) - payloadStart self in
    b ← b'.[lengthField self]:= ((len + 8) / 256); b ← b.[lengthField self + 1]:= (Z.land (len + 8) 0xff);
    Some (set_frame self b len l')).
Proof.
  intros Hf pdu_head inner Ht Hi E1 E2. unfold setupComplete. rewrite BerEncoder.UInt32determineEncodedSize_spec. cbn [mbind option_bind].
  assert (Hin : 2 + zlen (BerEncoder.enc_uint32 (zlen (asduList self))) +
    (1 + BerEncoder.determineLengthSize (totalASDULength (asduList self)) + totalASDULength (asduList self)) =
    zlen pdu_head + totalASDULength (asduList self)).
  { unfold pdu_head. rewrite length_app, Nat2Z.inj_add, GoosePublisher.enc_uint32_tlv_length, length_cons.
    pose proof (BerEncoder.enc_length_size (totalASDULength (asduList self)) ltac:(unfold_int; lia)) as E.
    rewrite decide_False in E by lia. lia. }
  rewrite Hin, BerEncoder.encodeTL_puts by (unfold_int; lia). fold inner.
  rewrite (GoosePublisher.puts_chain _ _ _ _ _ _ (GoosePublisher.encodeUInt32WithTL_chain 0x80 (zlen (asduList self)))).
  rewrite (GoosePublisher.puts_chain _ _ _ _ _ _ (fun b p => BerEncoder.encodeTL_puts 0xa2 (totalASDULength (asduList self)) b p ltac:(unfold_int; lia))).
  rewrite <- app_assoc. fold pdu_head. rewrite E1. cbn [mbind option_bind]. rewrite E2. cbn [mbind option_bind].
  rewrite decide_True by done. cbv zeta. by destruct (b'.[lengthField self]:= _).
Qed.

Lemma opt_tlv_bytes tag o : is_u8 tag -> is_bytes (default [] o) -> is_bytes (opt_tlv tag o).
Proof. intros Ht H. destruct o as [xs|]; [|constructor]. by apply BerEncoder.enc_tlv_bytes. Qed.

Lemma asdu_octets_bytes a s : asdu_ready a -> laid_out a s -> is_bytes (asdu_octets s).
Proof.
  intros [[Hid Hds Hsz Hrev [Hg _] Hcnt Hsy Hrt Hmd] _ _] (tm & data & -> & [Htm _] & Hd & Hdb).
  unfold asdu_octets, before_data, before_synch, before_tm, before_cnt, after_data. cbn [sample_of s_svID s_datset s_smpCnt s_confRev s_refrTm s_smpSynch s_smpRate s_data s_smpMod s_gmIdentity].
  repeat (apply Forall_app; split); try (by repeat constructor); try apply be_bytes_bytes; try done;
    try (apply opt_tlv_bytes; [done|]); try (apply BerEncoder.enc_tlv_bytes; [done|]); try done.
  - apply be_bytes_bytes.
  - by destruct (hasRefrTm a); [|constructor].
  - by constructor.
  - destruct (hasSmpRate a); [apply be_bytes_bytes|constructor].
  - apply Forall_cons; split; [done|]. apply BerEncoder.enc_length_bytes. lia.
  - destruct (hasSmpMod a); [apply be_bytes_bytes|constructor].
  - by destruct (hasGmIdentity a); [|constructor].
Qed.

Lemma sv_pdu_bytes l ss : Forall asdu_ready l -> Forall2 laid_out l ss -> is_bytes (sv_pdu ss).
Proof.
  intros Hl Hf. apply BerEncoder.enc_tlv_bytes; [done|]. apply Forall_app; split; [by apply GoosePublisher.enc_uint32_tlv_bytes|].
  apply BerEncoder.enc_tlv_bytes; [done|]. induction Hf as [|a s l ss Has Hf IH]; [constructor|].
  inversion Hl; subst. rewrite asdus_cons. apply Forall_app; split.
  - apply Forall_cons; split; [done|]. apply BerEncoder.enc_length_bytes. lia.
  - apply Forall_app; split; [by eapply asdu_octets_bytes|by apply IH].
Qed.

Lemma setup_spec header self : prepared header self -> frame_size header (asduList self) <= SV_MAX_MESSAGE_SIZE ->
  exists self' ss, setupComplete self = Some self' /\ Forall2 laid_out (asduList self) ss /\ holds header self' ss.
Proof.
  intros [(x & y & rest & Hbuf) [Hb Hsz] [Hf Hh0] Hst Hso Hl] Hfit. unfold frame_size, frame_head in Hfit.
  set (pdu_head := _ ++ 162 :: _) in Hfit. set (inner := 96 :: _) in Hfit.
  pose proof (totalASDULength_pos _ Hl) as Ht0. set (total := totalASDULength (asduList self)) in *.
  rewrite !length_app, be_bytes_length in Hfit. cbn [length] in Hfit. unfold SV_MAX_MESSAGE_SIZE in *.
  assert (Hroom : zlen header + 6 + zlen inner + zlen pdu_head + total <= zlen (buffer self)) by lia.
  destruct (puts_Some (buffer self) (payloadStart self) (inner ++ pdu_head)) as [b1 E1]; [lia|rewrite length_app; lia|].
  pose proof (puts_bytes _ _ _ _ _ Hb E1) as Hb1. assert (Hl1 : zlen b1 = zlen (buffer self)) by (apply puts_inv in E1; tauto).
  destruct (encodeASDUs_spec (asduList self) b1 (payloadStart self + zlen (inner ++ pdu_head)) Hl Hb1)
    as (l' & b' & ss & Hlo & Hpt & Htot & E2 & P2); [lia|rewrite length_app; fold total; lia|]. fold total in Htot.
  pose proof (setup_writes self ss b1 b' (payloadStart self + zlen (inner ++ pdu_head)) l' ltac:(lia) ltac:(fold total; lia)) as Es. cbv zeta in Es. fold total in Es.
  specialize (Es ltac:(fold pdu_head; lia) E1 E2).
  assert (Hn : zlen (asduList self) = zlen ss) by (by rewrite (Forall2_length _ _ _ Hlo)).
  assert (Hpdu : sv_pdu ss = inner ++ pdu_head ++ asdus ss).
  { unfold sv_pdu, sv_content, BerEncoder.enc_tlv, inner, pdu_head. rewrite Htot, <- Hn.
    replace (zlen (GoosePublisher.enc_uint32_tlv 128 (zlen (asduList self)) ++ 162 :: BerEncoder.enc_length total ++ asdus ss))
      with (zlen (GoosePublisher.enc_uint32_tlv 128 (zlen (asduList self)) ++ 162 :: BerEncoder.enc_length total) + total)
      by (rewrite !length_app, !length_cons, !length_app; lia).
    cbn [app]. rewrite <- !app_assoc. done. }
  assert (Pb : is_bytes (sv_pdu ss)) by (eapply sv_pdu_bytes; done).
  set (front := header ++ [x; y; 0; 0; 0; 0]).
  assert (Hfront : buffer self = front ++ rest) by (unfold front; by rewrite <- app_assoc).
  assert (Hfl : zlen front = payloadStart self) by (unfold front; rewrite length_app; simpl; lia).
  assert (Pl : zlen (sv_pdu ss) = zlen inner + zlen pdu_head + total) by (rewrite Hpdu, !length_app; lia).
  assert (Hb' : b' = front ++ sv_pdu ss ++ drop (length (sv_pdu ss)) rest).
  { pose proof (puts_mid front rest (sv_pdu ss) Pb) as E. rewrite <- Hfront, Hfl in E.
    specialize (E ltac:(rewrite Hfront in Hroom; rewrite length_app in Hroom; lia)).
    rewrite Hpdu, app_assoc, puts_app in E at 1. rewrite E1 in E. cbn [mbind option_bind] in E. rewrite P2 in E. by injection E. }
  assert (Hlen : payloadStart self + zlen (inner ++ pdu_head) + zlen (asdus ss) - payloadStart self = zlen (sv_pdu ss)).
  { rewrite length_app. lia. }
  rewrite Hlen in Es. set (tail := drop (length (sv_pdu ss)) rest) in *.
  unfold front in Hb'. rewrite <- app_assoc in Hb'. cbn [app] in Hb'.
  rewrite Hb', Hf, GoosePublisher.wr_app in Es. cbn [mbind option_bind] in Es.
  replace (zlen header + 1) with (zlen (header ++ [u8 ((zlen (sv_pdu ss) + 8) / 256)])) in Es by (rewrite length_app; simpl; lia).
  rewrite cons_middle, app_assoc, GoosePublisher.wr_app in Es. cbn [mbind option_bind] in Es.
  eexists _, ss. split; [exact Es|]. split; [done|].
  constructor; cbn [set_frame buffer payloadStart payloadLength asduList ethernetSocket]; try done.
  - exists tail. unfold sv_frame. rewrite <- !app_assoc. f_equal. cbn [app].
    change (be_bytes 2 (zlen (sv_pdu ss) + 8)) with [(zlen (sv_pdu ss) + 8) / 256 mod 256; (zlen (sv_pdu ss) + 8) mod 256].
    cbn [app]. unfold u8. rewrite (Z.land_ones _ 8) by lia. change (2 ^ 8) with 256. by rewrite Zmod_mod.
  - apply (f_equal (fun l => zlen l)) in Hfront. rewrite !length_app in *. cbn [length] in *. rewrite !length_app.
    unfold tail. rewrite length_drop. unfold front in *. rewrite length_app in *. cbn [length] in *. unfold SV_MAX_MESSAGE_SIZE. lia.
  - rewrite <- Hn, Htot. unfold frame_head. fold pdu_head inner. rewrite !length_app, be_bytes_length. cbn [length].
    replace (Z.of_nat (length header + (2 + (4 + (length inner + length pdu_head)))))
      with (payloadStart self + zlen (inner ++ pdu_head)) by (rewrite length_app; lia). exact Hpt.
Qed.

(** ** The life of a publisher *)

Definition sv_header (srcAddr : list Z) (p : GoosePublisher.CommParameters) (useVlanTags : bool) : list Z :=
  GoosePublisher.dstAddress p ++ srcAddr ++
  (if useVlanTags then
     [0x81; 0x00; u8 (GoosePublisher.vlanPriority p * 32 + GoosePublisher.vlanId p / 256); GoosePublisher.vlanId p mod 256]
   else []) ++
  [0x88; 0xBa] ++ be_bytes 2 (GoosePublisher.appId p).

(** What a publisher keeps until the layout is complete. *)
Record configuring (header : list Z) (self : SVPublisher) : Prop := {
  cf_frame : exists x y rest, buffer self = header ++ [x; y; 0; 0; 0; 0] ++ rest;
  cf_bytes : wf_buf (buffer self) SV_MAX_MESSAGE_SIZE;
  cf_field : lengthField self = zlen header /\ 0 < zlen header;
  cf_start : payloadStart self = zlen header + 6;
  cf_socket : ethernetSocket self = true;
  cf_asdus : Forall (fun a => asdu_wf a /\ refrTm a = None /\ smpCntBuf a = None /\ smpSynchBuf a = None /\ dataBuffer_ a = None) (asduList self);
}.

Lemma totalASDULength_ge l a : Forall (fun a => 0 <= dataSize a) l -> a ∈ l -> getEncodedSize a <= totalASDULength l.
Proof.
  induction 1 as [|x l Hx Hl IH]; intros Ha; [by apply elem_of_nil in Ha|]. cbn [totalASDULength].
  pose proof (MmsData.determineLengthSize_pos (getEncodedSize x)). pose proof (getEncodedSize_pos x Hx).
  assert (0 <= totalASDULength l).
  { clear IH Ha. induction Hl as [|y l Hy _ IH]; cbn [totalASDULength]; [lia|].
    pose proof (MmsData.determineLengthSize_pos (getEncodedSize y)). pose proof (getEncodedSize_pos y Hy). lia. }
  apply elem_of_cons in Ha as [->|Ha]; [lia|]. specialize (IH Ha). lia.
Qed.

Lemma configuring_prepared header self : configuring header self -> frame_size header (asduList self) <= SV_MAX_MESSAGE_SIZE ->
  prepared header self.
Proof.
  intros [H1 H2 H3 H4 H5 H6] Hfit. constructor; try done.
  rewrite Forall_forall in H6. apply Forall_forall. intros a Ha. destruct (H6 a Ha) as (W & T & _).
  constructor; [done|done|]. unfold frame_size, SV_MAX_MESSAGE_SIZE in Hfit.
  assert (Hd : Forall (fun a => 0 <= dataSize a) (asduList self)).
  { apply Forall_forall. intros b Hb. apply (aw_size b), (H6 b Hb). }
  pose proof (totalASDULength_ge _ a Hd Ha). lia.
Qed.

(** A list of octets written out. *)
Ltac octets := repeat (apply Forall_cons_2; [first [apply u8_range | unfold_int; zlia]|]); apply Forall_nil_2.

Lemma create_configuring memory srcAddr p (vlan : bool) mem self mem' :
  wf_buf memory SV_MAX_MESSAGE_SIZE -> wf_buf srcAddr 6 -> GoosePublisher.parameters_ok p ->
  createEx memory srcAddr true (Some p) vlan mem = Some (Some self, mem') ->
  configuring (sv_header srcAddr p vlan) self.
Proof.
  intros [Hmb Hml] [Hsb Hsl] (Hprio & Hvid & Happ & [Hdb Hdl]). unfold createEx, preparePacketBuffer, m_bind, m_ret, m_lift.
  cbn [default id]. destruct (malloc mem) as [[[] mem1]|]; cbn [mbind option_bind]; [|done|done].
  destruct (malloc mem1) as [[[] mem2]|]; cbn [mbind option_bind]; [|done|done].
  unfold SV_MAX_MESSAGE_SIZE in *. set (dst := GoosePublisher.dstAddress p) in *.
  assert (E1 : copy_bytes 6 dst 0 memory 0 = Some (dst ++ drop 6 memory, 6)).
  { replace 6%nat with (length dst) at 1 by lia. rewrite (copy_bytes_at _ _ dst) by apply bytes_at_0.
    pose proof (puts_mid [] memory dst Hdb) as E. cbn [app] in E. change (zlen []) with 0 in E.
    rewrite E by lia. rewrite Hdl. do 4 f_equal. lia. }
  assert (E2 : copy_bytes 6 srcAddr 0 (dst ++ drop 6 memory) 6 = Some ((dst ++ srcAddr) ++ drop 12 memory, 12)).
  { replace 6%nat with (length srcAddr) at 1 by lia. rewrite (copy_bytes_at _ _ srcAddr) by apply bytes_at_0.
    replace 6 with (zlen dst) by lia. rewrite puts_mid by (done || rewrite length_drop; lia).
    rewrite drop_drop, app_assoc. replace (6 + length srcAddr)%nat with 12%nat by lia. do 2 f_equal. lia. }
  rewrite E1. cbn [mbind option_bind]. rewrite E2. cbn [mbind option_bind]. cbv zeta.
  set (tag := if vlan then [0x81; 0x00; u8 (GoosePublisher.vlanPriority p * 32 + GoosePublisher.vlanId p / 256); GoosePublisher.vlanId p mod 256] else []).
  assert (E3 : (if vlan then puts ((dst ++ srcAddr) ++ drop 12 memory) 12
        [129; 0; u8 (u8 (Z.shiftl (GoosePublisher.vlanPriority p) 5) + GoosePublisher.vlanId p / 256); GoosePublisher.vlanId p mod 256]
      else Some ((dst ++ srcAddr) ++ drop 12 memory, 12)) =
      Some (((dst ++ srcAddr) ++ tag) ++ drop (12 + length tag) memory, 12 + zlen tag)).
  { unfold tag. destruct vlan; [|by rewrite app_nil_r].
    replace (u8 (u8 (Z.shiftl (GoosePublisher.vlanPriority p) 5) + GoosePublisher.vlanId p / 256))
      with (u8 (GoosePublisher.vlanPriority p * 32 + GoosePublisher.vlanId p / 256))
      by (rewrite Z.shiftl_mul_pow2 by lia; unfold u8; by rewrite Z.add_mod_idemp_l).
    replace 12 with (zlen (dst ++ srcAddr)) at 1 by (rewrite length_app; lia).
    rewrite puts_mid; [|octets|rewrite length_drop; cbn [length]; lia].
    rewrite drop_drop, app_assoc. do 2 f_equal. rewrite length_app. cbn [length]. lia. }
  rewrite E3. cbn [mbind option_bind].
  set (h1 := (dst ++ srcAddr) ++ tag). assert (Hh1 : zlen h1 = 12 + zlen tag) by (unfold h1; rewrite !length_app; lia).
  assert (Htl : zlen tag <= 4) by (unfold tag; destruct vlan; simpl; lia).
  rewrite <- Hh1, puts_u8. change (u8 <$> _) with [136; 186; u8 (GoosePublisher.appId p / 256); u8 (GoosePublisher.appId p mod 256)].
  rewrite puts_mid; [|octets|rewrite length_drop; cbn [length]; lia]. cbn [mbind option_bind].
  set (et := [136; 186; _; _]). rewrite app_assoc. replace (zlen h1 + zlen et) with (zlen (h1 ++ et)) by (rewrite length_app; lia).
  rewrite puts_mid; [|octets|rewrite drop_drop, length_drop; unfold et; cbn [length]; lia].
  cbn [mbind option_bind]. intros [= <- _].
  assert (Het : h1 ++ et = sv_header srcAddr p vlan).
  { unfold sv_header, h1, et. fold tag dst. rewrite <- !app_assoc. do 4 f_equal.
    change (be_bytes 2 (GoosePublisher.appId p)) with [GoosePublisher.appId p / 256 mod 256; GoosePublisher.appId p mod 256].
    unfold u8. by rewrite Zmod_mod. }
  rewrite Het. assert (Hhl : zlen (sv_header srcAddr p vlan) = 16 + zlen tag) by (rewrite <- Het, length_app; unfold et; cbn [length]; lia).
  assert (Hhb : is_bytes (sv_header srcAddr p vlan)).
  { rewrite <- Het. unfold h1. repeat (apply Forall_app; split); try done.
    - unfold tag. destruct vlan; [octets|constructor].
    - octets. }
  constructor; cbn [buffer lengthField payloadStart ethernetSocket asduList]; try done; try lia.
  - exists 0, 8. eexists. reflexivity.
  - split.
    + apply Forall_app; split; [done|]. do 6 (apply Forall_cons_2; [unfold_int; lia|]). by repeat apply Forall_drop.
    + rewrite !length_app. cbn [length]. rewrite !length_drop. unfold et. cbn [length]. unfold SV_MAX_MESSAGE_SIZE. lia.
Qed.

(** The commands that lay out an ASDU: the others write through pointers that
    [SVPublisher_setupComplete] has still to set. *)
Definition configures (c : command) : Prop :=
  match c with
  | SetSmpCnt v | SetSmpRate v | SetSmpMod v => is_u16 v
  | SetGmIdentity g => wf_buf g 8
  | AddSize n => 0 <= n
  | IncreaseSmpCnt | SetSmpCntWrap _ | SetRefrTmNs _ | SetRefrTm _ | SetRefrTmByTimestamp _ | EnableRefrTm | ResetBuffer => True
  | _ => False
  end.

(** The publishers an application can configure for the given interface. *)
Inductive configured : list Z -> SVPublisher -> Prop :=
  | configured_create memory srcAddr p (vlan : bool) mem self mem' :
      wf_buf memory SV_MAX_MESSAGE_SIZE -> wf_buf srcAddr 6 -> GoosePublisher.parameters_ok p ->
      createEx memory srcAddr true (Some p) vlan mem = Some (Some self, mem') ->
      configured (sv_header srcAddr p vlan) self
  | configured_asdu header self id ds rev mem self' mem' :
      configured header self -> is_bytes id -> is_bytes (default [] ds) -> is_u32 rev ->
      addASDU self id ds rev mem = Some (self', mem') -> configured header self'
  | configured_command header self i c self' :
      configured header self -> configures c -> on_asdu self i (run c) = Some self' -> configured header self'.

Definition unset (a : SVPublisher_ASDU) : Prop :=
  asdu_wf a /\ refrTm a = None /\ smpCntBuf a = None /\ smpSynchBuf a = None /\ dataBuffer_ a = None.

Lemma configures_asdu c a b a' b' : unset a -> configures c -> run c a b = Some (a', b') -> unset a' /\ b' = b.
Proof.
  intros ([] & Htm & Hcnt & Hsy & Hd) Hc. unfold unset.
  destruct c; try done; cbn [run configures] in *;
    try (by unfold setSmpCnt; cbn; rewrite Hcnt; intros [= <- <-]; split; [split; [by constructor|done]|done]);
    try (by unfold setRefrTmNs, setRefrTm, setRefrTmByTimestamp, write_refrTm; cbn; rewrite Htm; intros [= <- <-];
         split; [split; [by constructor|done]|done]);
    try (by intros [= <- <-]; split; [split; [by constructor|done]|done]).
  - unfold increaseSmpCnt, setSmpCnt. case_decide; [done|]. cbn. rewrite Hcnt. intros [= <- <-].
    split; [split; [constructor; try done; apply Z.mod_pos_bound; lia|done]|done].
  - unfold setGmIdentity. destruct Hc as [Hb Hl].
    destruct (copy_bytes 8 identity 0 (gmIdentity a) 0) as [[g q]|] eqn:Eg; [|done]. intros [= <- <-].
    split; [|done]. split; [|done]. constructor; try done. cbn. replace 8%nat with (length identity) in Eg by lia.
    rewrite (copy_bytes_at _ _ identity) in Eg by apply bytes_at_0. destruct aw_gm0 as [Hgb Hgl].
    pose proof (puts_bytes _ _ _ _ _ Hgb Eg). apply puts_inv in Eg as (_ & Hl' & _). split; [done|]. lia.
  - intros [= <- <-]. split; [|done]. split; [|done]. constructor; try done. cbn. lia.
Qed.

Lemma configured_configuring header self : configured header self -> configuring header self.
Proof.
  induction 1 as [memory srcAddr p vlan mem self mem' Hm Hs Hp E|header self id ds rev mem self' mem' _ [] Hid Hds Hrev E
                 |header self i c self' _ [] Hc E].
  - by eapply create_configuring.
  - unfold addASDU, m_bind in E. destruct (malloc mem) as [[[] mem1]|]; [| |done]; injection E as <- _; constructor; try done.
    apply Forall_app. split; [done|]. apply Forall_cons. split; [|constructor]. split; [|done].
    constructor; try done; cbn; try (unfold_int; lia). split; [by repeat constructor|done].
  - unfold on_asdu in E. destruct (asduList self !! i) as [a|] eqn:Ea; [|done]. cbn [mbind option_bind] in E.
    destruct (run c a (buffer self)) as [[a' b']|] eqn:Er; [|done]. injection E as <-.
    rewrite Forall_forall in cf_asdus0. assert (Ha : unset a) by (apply cf_asdus0; by eapply list_elem_of_lookup_2).
    destruct (configures_asdu _ _ _ _ _ Ha Hc Er) as [Ha' ->]. constructor; try done. cbn.
    apply Forall_insert; [by apply Forall_forall|exact Ha'].
Qed.

(** A sequence of commands, each on the ASDU with the given number. *)
Fixpoint commands (ops : list (nat * command)) (self : SVPublisher) : option SVPublisher :=
  match ops with
  | [] => Some self
  | (i, c) :: ops => self ← on_asdu self i (run c); commands ops self
  end.

Fixpoint effects (ops : list (nat * command)) (ss : list sample) : option (list sample) :=
  match ops with
  | [] => Some ss
  | (i, c) :: ops => s ← ss !! i; s' ← effect c s; effects ops (<[i := s']> ss)
  end.

Lemma commands_hold header ops : forall self ss ss', holds header self ss -> Forall sample_wf ss ->
  effects ops ss = Some ss' -> exists self', commands ops self = Some self' /\ holds header self' ss'.
Proof.
  induction ops as [|[i c] ops IH]; intros self ss ss' Hh Hw E; [injection E as <-; by exists self|].
  cbn [effects commands] in *. destruct (ss !! i) as [s|] eqn:Es; [|done]. cbn [mbind option_bind] in E.
  destruct (effect c s) as [s'|] eqn:Ec; [|done]. cbn [mbind option_bind] in E.
  assert (Hs : sample_wf s) by (rewrite Forall_forall in Hw; apply Hw; by eapply list_elem_of_lookup_2).
  destruct (command_implements c s s' Hs Ec) as [Hi Hs']. destruct (Hi _ _ _ _ Hh Es) as (self1 & -> & Hh1).
  cbn [mbind option_bind]. eapply IH; [done| |done]. by apply Forall_insert.
Qed.

(** C12: refinement.  For every publisher that an application configured - any ASDUs, any
    optional fields, any data sizes whose frame fits the 1518 octets of the buffer - the layout
    succeeds, and after any sequence of commands on its ASDUs that the contract [effect] allows
    the frame sent is the encoding of the samples that the contract gives: the writes through
    the pointers into the frame change the field they mean and no other octet. *)
Theorem sv_frames header self : configured header self -> frame_size header (asduList self) <= SV_MAX_MESSAGE_SIZE ->
  exists self1 ss, setupComplete self = Some self1 /\ Forall2 laid_out (asduList self) ss /\
    forall ops ss', effects ops ss = Some ss' ->
    exists self2, commands ops self1 = Some self2 /\ publish self2 = Some (Some (sv_frame header ss')).
Proof.
  intros Hc Hfit. apply configured_configuring in Hc. pose proof (configuring_prepared _ _ Hc Hfit) as Hp.
  destruct (setup_spec _ _ Hp Hfit) as (self1 & ss & E & Hlo & Hh). exists self1, ss. split; [done|]. split; [done|].
  intros ops ss' Eo. destruct (commands_hold header ops self1 ss ss' Hh) as (self2 & E2 & H2); [|done|].
  { clear -Hlo. induction Hlo as [|a s l ss (tm & data & -> & Htm & _) _ IH]; constructor; [|done].
    intros t. cbn. destruct (hasRefrTm a); [|done]. by intros [= <-]. }
  exists self2. split; [done|]. by apply holds_publish.
Qed.

Definition w_params : GoosePublisher.CommParameters := default_parameters.
Definition w_created : option SVPublisher :=
  r ← createEx (replicate 1518 0) [1; 2; 3; 4; 5; 6] true (Some w_params) true [true; true]; fst r.
Definition w_self : option SVPublisher :=
  self ← w_created; r ← addASDU self [115; 118; 49] None 1 [true];
  commands [(0%nat, EnableRefrTm); (0%nat, AddSize 8); (0%nat, SetSmpCntWrap 4000)] (fst r).

Lemma w_self_configured : exists self, w_self = Some self /\
  configured (sv_header [1; 2; 3; 4; 5; 6] w_params true) self /\
  frame_size (sv_header [1; 2; 3; 4; 5; 6] w_params true) (asduList self) <= SV_MAX_MESSAGE_SIZE.
Proof.
  destruct w_self as [self|] eqn:E; [|by vm_compute in E]. exists self. split; [done|]. split.
  - unfold w_self in E. destruct w_created as [self0|] eqn:E0; [|done]. cbn [mbind option_bind] in E.
    unfold w_created in E0. destruct (createEx _ _ _ _ _ _) as [[o mem']|] eqn:Ec; [|done]. cbn [mbind option_bind fst] in E0. subst o.
    destruct (addASDU self0 _ _ _ _) as [[self1 mem1]|] eqn:Ea; [|done]. cbn [mbind option_bind fst commands] in E.
    destruct (on_asdu self1 0 (run EnableRefrTm)) as [self2|] eqn:E2; [|done]. cbn [mbind option_bind] in E.
    destruct (on_asdu self2 0 (run (AddSize 8))) as [self3|] eqn:E3; [|done]. cbn [mbind option_bind] in E.
    destruct (on_asdu self3 0 (run (SetSmpCntWrap 4000))) as [self4|] eqn:E4; [|done]. injection E as ->.
    refine (configured_command _ self3 _ _ _ _ _ E4); [|done].
    refine (configured_command _ self2 _ _ _ _ _ E3); [|cbn; lia].
    refine (configured_command _ self1 _ _ _ _ _ E2); [|done].
    refine (configured_asdu _ self0 _ _ _ _ _ _ _ _ _ _ Ea); [|by repeat constructor|constructor|unfold_int; lia].
    refine (configured_create _ _ _ _ _ _ _ _ _ _ Ec).
    + split; [|by vm_compute]. apply Forall_replicate. unfold_int; lia.
    + split; [by repeat constructor|done].
    + unfold GoosePublisher.parameters_ok. cbn. split_and!; try (unfold_int; lia). split; [by repeat constructor|done].
  - vm_compute in E. injection E as <-. by vm_compute.
Qed.

Lemma sv_frames_witness :
  exists header self, w_self = Some self /\ exists self1 ss, setupComplete self = Some self1 /\ Forall2 laid_out (asduList self) ss /\
    forall ops ss', effects ops ss = Some ss' ->
    exists self2, commands ops self1 = Some self2 /\ publish self2 = Some (Some (sv_frame header ss')).
Proof.
  destruct w_self_configured as (self & E & Hc & Hf).
  exists (sv_header [1; 2; 3; 4; 5; 6] w_params true), self. split; [exact E|]. by apply (sv_frames _ self).
Defined.

(** *** What the contract leaves out *)

(** Before the layout is complete the synchronisation is written through a null pointer. *)
Example synch_before_setup :
  (self ← w_self; on_asdu self 0 (setSmpSynch 2)) = None.
Proof. by vm_compute. Qed.

(** A wrap value of zero is a division by zero at the next sample. *)
Example wrap_zero : (self ← w_self; self ← on_asdu self 0 (setSmpCntWrap 0); on_asdu self 0 increaseSmpCnt) = None.
Proof. by vm_compute. Qed.

(** The data may be too large for the buffer of 1518 octets: the layout succeeds, and the
    frame that is sent is read beyond the buffer; with a field behind the data the layout writes
    there. *)
Example frame_overflow :
  (self ← w_self; self ← on_asdu self 0 (add_size 1480); self ← setupComplete self; publish self) = None.
Proof. by vm_compute. Qed.

Example layout_overflow :
  (self ← w_self; self ← on_asdu self 0 (add_size 1480); self ← on_asdu self 0 (setSmpMod 1); setupComplete self) = None.
Proof. by vm_compute. Qed.

(** An index behind the data changes the next field: here the counter of the second ASDU. *)
Example index_behind_data :
  (self ← w_self; r ← addASDU self [115] None 1 [true]; self ← setupComplete (fst r);
   a ← asduList self !! 1%nat; c ← smpCntBuf a; d ← (a ← asduList self !! 0%nat; dataBuffer_ a);
   self ← on_asdu self 0 (setINT8 (c - d) 7); buffer self !! Z.to_nat c) = Some 7.
Proof. by vm_compute. Qed.

End SvPublisher.
