(* ===== verification/SvSubscriber.v ===== *)
(** * The sampled values subscriber

    [src/sampled_values/sv_subscriber.c]: from the Ethernet frame to the calls of the
    listener, and the functions with which a listener reads an ASDU.  Pointers to subscribers
    are keys of a store, as in file GooseReceiver; the calls are part of the result. *)

From S2P Require Import Prelude Alloc BerEncoder BerDecoder MmsValue IecCommon GooseSubscriber GooseReceiver.

Module SvSubscriber.
Import Alloc MmsValue IecCommon.
#[local] Open Scope alloc_scope.

Definition ETH_BUFFER_LENGTH : Z := 1518.
Definition ETH_P_SV : Z := 0x88ba.

(** The parameter of the listener, if there is one. *)
Record SVSubscriber := { ethAddr : list Z; appId : Z; listener : option Z }.

Abbreviation subscribers := (gmap Z SVSubscriber).

(** The pointers are positions in [asdu], the octets of the message from the beginning of
    the ASDU on; [None] is [NULL]. *)
Record SVSubscriber_ASDU := {
  asdu : list Z;
  svIdBuf : list Z;
  datSetBuf : list Z;
  svId : option Z;
  datSet : option Z;
  svIdSize : Z;
  datSetSize : Z;
  smpCnt : option Z;
  confRev : option Z;
  refrTm : option Z;
  smpSynch : option Z;
  smpMod : option Z;
  smpRate : option Z;
  dataBufferLength : Z;
  dataBuffer : option Z;
}.

Definition empty_asdu (buffer : list Z) : SVSubscriber_ASDU :=
  {| asdu := buffer; svIdBuf := fresh 130; datSetBuf := fresh 130; svId := None; datSet := None; svIdSize := 0;
     datSetSize := 0; smpCnt := None; confRev := None; refrTm := None; smpSynch := None; smpMod := None;
     smpRate := None; dataBufferLength := 0; dataBuffer := None |}.

Definition set_names (a : SVSubscriber_ASDU) (id ds : option Z) (idSize dsSize : Z) : SVSubscriber_ASDU :=
  {| asdu := asdu a; svIdBuf := svIdBuf a; datSetBuf := datSetBuf a; svId := id; datSet := ds; svIdSize := idSize;
     datSetSize := dsSize; smpCnt := smpCnt a; confRev := confRev a; refrTm := refrTm a; smpSynch := smpSynch a;
     smpMod := smpMod a; smpRate := smpRate a; dataBufferLength := dataBufferLength a; dataBuffer := dataBuffer a |}.

Definition set_fields (a : SVSubscriber_ASDU) (cnt rev tm synch md rate : option Z) : SVSubscriber_ASDU :=
  {| asdu := asdu a; svIdBuf := svIdBuf a; datSetBuf := datSetBuf a; svId := svId a; datSet := datSet a;
     svIdSize := svIdSize a; datSetSize := datSetSize a; smpCnt := cnt; confRev := rev; refrTm := tm;
     smpSynch := synch; smpMod := md; smpRate := rate; dataBufferLength := dataBufferLength a;
     dataBuffer := dataBuffer a |}.

Definition set_data (a : SVSubscriber_ASDU) (len : Z) (data : option Z) : SVSubscriber_ASDU :=
  {| asdu := asdu a; svIdBuf := svIdBuf a; datSetBuf := datSetBuf a; svId := svId a; datSet := datSet a;
     svIdSize := svIdSize a; datSetSize := datSetSize a; smpCnt := smpCnt a; confRev := confRev a;
     refrTm := refrTm a; smpSynch := smpSynch a; smpMod := smpMod a; smpRate := smpRate a;
     dataBufferLength := len; dataBuffer := data |}.

Definition set_buffers (a : SVSubscriber_ASDU) (id ds : list Z) : SVSubscriber_ASDU :=
  {| asdu := asdu a; svIdBuf := id; datSetBuf := ds; svId := svId a; datSet := datSet a; svIdSize := svIdSize a;
     datSetSize := datSetSize a; smpCnt := smpCnt a; confRev := confRev a; refrTm := refrTm a;
     smpSynch := smpSynch a; smpMod := smpMod a; smpRate := smpRate a; dataBufferLength := dataBufferLength a;
     dataBuffer := dataBuffer a |}.

(** ** Parsing *)

(** The cases of the switch; [None]: the whole ASDU is dropped. *)
Definition asduField (tag bufPos elementLength : Z) (a : SVSubscriber_ASDU) : option SVSubscriber_ASDU :=
  let p := Some bufPos in
  if decide (tag = 0x80) then
    if decide (elementLength > 129) then None
    else Some (set_names a p (datSet a) elementLength (datSetSize a))
  else if decide (tag = 0x81) then
    if decide (elementLength > 129) then None
    else Some (set_names a (svId a) p (svIdSize a) elementLength)
  else if decide (tag = 0x82) then
    if decide (elementLength <> 2) then None
    else Some (set_fields a p (confRev a) (refrTm a) (smpSynch a) (smpMod a) (smpRate a))
  else if decide (tag = 0x83) then
    if decide (elementLength <> 4) then None
    else Some (set_fields a (smpCnt a) p (refrTm a) (smpSynch a) (smpMod a) (smpRate a))
  else if decide (tag = 0x84) then
    if decide (elementLength <> 8) then None
    else Some (set_fields a (smpCnt a) (confRev a) p (smpSynch a) (smpMod a) (smpRate a))
  else if decide (tag = 0x85) then
    if decide (elementLength <> 1) then None
    else Some (set_fields a (smpCnt a) (confRev a) (refrTm a) p (smpMod a) (smpRate a))
  else if decide (tag = 0x86) then
    if decide (elementLength <> 2) then None
    else Some (set_fields a (smpCnt a) (confRev a) (refrTm a) (smpSynch a) (smpMod a) p)
  else if decide (tag = 0x87) then Some (set_data a elementLength p)
  else if decide (tag = 0x88) then
    if decide (elementLength <> 1) then None
    else Some (set_fields a (smpCnt a) (confRev a) (refrTm a) (smpSynch a) p (smpRate a))
  else Some a.

Fixpoint parseASDU_loop (fuel : nat) (buffer : list Z) (length bufPos : Z) (a : SVSubscriber_ASDU)
    : option (option SVSubscriber_ASDU) :=
  match fuel with
  | O => None
  | S fuel =>
      if decide (bufPos < length) then
        tag ← buffer.[bufPos];
        '(bufPos, elementLength) ← BerDecoder.decodeLength buffer 0 (bufPos + 1) length;
        if decide (bufPos < 0) then Some None
        else if decide (bufPos + elementLength > length) then Some None
        else
          match asduField tag bufPos elementLength a with
          | None => Some None
          | Some a => parseASDU_loop fuel buffer length (bufPos + elementLength) a
          end
      else Some (Some a)
  end.

(** The ASDU that the listener is called with, if any. *)
Definition parseASDU (subscriber : SVSubscriber) (buffer : list Z) (length : Z)
    : option (list (Z * SVSubscriber_ASDU)) :=
  a ← parseASDU_loop (S (Z.to_nat length)) buffer length 0 (empty_asdu buffer);
  Some (match a, listener subscriber with Some a, Some parameter => [(parameter, a)] | _, _ => [] end).

Fixpoint parseSequenceOfASDU_loop (fuel : nat) (subscriber : SVSubscriber) (buffer : list Z) (length bufPos : Z)
    : option (list (Z * SVSubscriber_ASDU)) :=
  match fuel with
  | O => None
  | S fuel =>
      if decide (bufPos < length) then
        tag ← buffer.[bufPos];
        '(bufPos, elementLength) ← BerDecoder.decodeLength buffer 0 (bufPos + 1) length;
        if decide (bufPos < 0) then Some []
        else if decide (bufPos + elementLength > length) then Some []
        else
          calls ← (if decide (tag = 0x30) then parseASDU subscriber (from buffer bufPos) elementLength else Some []);
          more ← parseSequenceOfASDU_loop fuel subscriber buffer length (bufPos + elementLength);
          Some (calls ++ more)
      else Some []
  end.

Definition parseSequenceOfASDU (subscriber : SVSubscriber) (buffer : list Z) (length : Z)
    : option (list (Z * SVSubscriber_ASDU)) :=
  parseSequenceOfASDU_loop (S (Z.to_nat length)) subscriber buffer length 0.

Fixpoint parseSVPayload_loop (fuel : nat) (subscriber : SVSubscriber) (buffer : list Z) (svEnd bufPos : Z)
    : option (list (Z * SVSubscriber_ASDU)) :=
  match fuel with
  | O => None
  | S fuel =>
      if decide (bufPos < svEnd) then
        tag ← buffer.[bufPos];
        '(bufPos, elementLength) ← BerDecoder.decodeLength buffer 0 (bufPos + 1) svEnd;
        if decide (bufPos < 0) then Some []
        else
          calls ← (if decide (tag = 0xa2) then parseSequenceOfASDU subscriber (from buffer bufPos) elementLength
                   else Some []);
          more ← parseSVPayload_loop fuel subscriber buffer svEnd (bufPos + elementLength);
          Some (calls ++ more)
      else Some []
  end.

Definition parseSVPayload (subscriber : SVSubscriber) (buffer : list Z) (apduLength : Z)
    : option (list (Z * SVSubscriber_ASDU)) :=
  if decide (apduLength < 1) then Some []
  else
    tag ← buffer.[0];
    if decide (tag = 0x60) then
      '(bufPos, elementLength) ← BerDecoder.decodeLength buffer 0 1 apduLength;
      if decide (bufPos < 0) then Some []
      else
        let svEnd := bufPos + elementLength in
        if decide (svEnd > apduLength) then Some []
        else parseSVPayload_loop (S (Z.to_nat (svEnd - bufPos))) subscriber buffer svEnd bufPos
    else Some [].

(** ** The receiver *)

(** The pointer to the socket: [Ethernet_destroySocket] leaves it as it is. *)
Inductive socket := NoSocket | OpenSocket | DestroyedSocket.

#[export] Instance socket_eq_dec : EqDecision socket.
Proof. solve_decision. Defined.

Record SVReceiver := {
  running : bool;
  stopped : bool;
  checkDestAddr : bool;
  interfaceId : option (list Z);
  buffer : option (list Z);
  ethSocket : socket;
  subscriberList : option (list Z)
}.

(** The first subscriber for the application identifier and, if asked for, the address. *)
Fixpoint findSubscriber (self : SVReceiver) (list : list Z) (subs : subscribers) (app : Z)
    (dstAddr : Datatypes.list Z) : option (option SVSubscriber) :=
  match list with
  | [] => Some None
  | id :: rest =>
      s ← subs !! id;
      if decide (appId s = app) then
        if checkDestAddr self then
          if decide (ethSocket self <> NoSocket) then
            same ← memcmp 6 dstAddr (ethAddr s);
            if (same : bool) then Some (Some s) else findSubscriber self rest subs app dstAddr
          else findSubscriber self rest subs app dstAddr
        else Some (Some s)
      else findSubscriber self rest subs app dstAddr
  end.

Definition handleSVApdu (self : SVReceiver) (subs : subscribers) (app : Z) (apdu : list Z) (apduLength : Z)
    (dstAddr : list Z) : option (list (Z * SVSubscriber_ASDU)) :=
  l ← subscriberList self;
  s ← findSubscriber self l subs app dstAddr;
  match s with
  | Some s => parseSVPayload s apdu apduLength
  | None => Some []
  end.

Definition parseSVMessage (self : SVReceiver) (subs : subscribers) (buffer : list Z) (numbytes : Z)
    : option (list (Z * SVSubscriber_ASDU)) :=
  if decide (numbytes < 22) then Some []
  else
    a ← buffer.[12]; b ← buffer.[13];
    let vlan := bool_decide (a = 0x81 /\ b = 0x00) in
    let bufPos := if vlan then 16 else 12 in
    let headerLength := if vlan then 18 else 14 in
    if decide (vlan = true /\ numbytes < 26) then Some []
    else
      e1 ← buffer.[bufPos];
      if decide (e1 <> 0x88) then Some []
      else
        e2 ← buffer.[bufPos + 1];
        if decide (e2 <> 0xba) then Some []
        else
          a1 ← buffer.[bufPos + 2]; a2 ← buffer.[bufPos + 3];
          let app := u16 (u16 (a1 * 0x100) + a2) in
          l1 ← buffer.[bufPos + 4]; l2 ← buffer.[bufPos + 5];
          let length := u16 (u16 (l1 * 0x100) + l2) in
          if decide (length < 8) then Some []
          else if decide (numbytes < length + headerLength) then Some []
          else handleSVApdu self subs app (from buffer (bufPos + 10)) (length - 8) buffer.

Definition set_running (self : SVReceiver) (run : bool) (s : socket) : SVReceiver :=
  {| running := run; stopped := stopped self; checkDestAddr := checkDestAddr self; interfaceId := interfaceId self;
     buffer := buffer self; ethSocket := s; subscriberList := subscriberList self |}.
Definition set_list (self : SVReceiver) (l : option (list Z)) : SVReceiver :=
  {| running := running self; stopped := stopped self; checkDestAddr := checkDestAddr self;
     interfaceId := interfaceId self; buffer := buffer self; ethSocket := ethSocket self; subscriberList := l |}.
Definition set_options (self : SVReceiver) (check : bool) (id : option (list Z)) : SVReceiver :=
  {| running := running self; stopped := stopped self; checkDestAddr := check; interfaceId := id;
     buffer := buffer self; ethSocket := ethSocket self; subscriberList := subscriberList self |}.
Definition set_buffer (self : SVReceiver) (b : option (list Z)) : SVReceiver :=
  {| running := running self; stopped := stopped self; checkDestAddr := checkDestAddr self;
     interfaceId := interfaceId self; buffer := b; ethSocket := ethSocket self; subscriberList := subscriberList self |}.

(** Neither the list nor the buffer are checked. *)
Definition create : alloc (option SVReceiver) :=
  ok <~ malloc;
  if (ok : bool) then
    list <~ malloc;
    buf <~ malloc;
    m_ret (Some {| running := false; stopped := false; checkDestAddr := false; interfaceId := None;
                   buffer := if (buf : bool) then Some (fresh ETH_BUFFER_LENGTH) else None;
                   ethSocket := NoSocket; subscriberList := if (list : bool) then Some [] else None |})
  else m_ret None.

Definition setInterfaceId (self : SVReceiver) (id : list Z) : alloc SVReceiver :=
  ok <~ malloc; m_ret (set_options self (checkDestAddr self) (if (ok : bool) then Some id else None)).
Definition disableDestAddrCheck (self : SVReceiver) : SVReceiver := set_options self false (interfaceId self).
Definition enableDestAddrCheck (self : SVReceiver) : SVReceiver := set_options self true (interfaceId self).

Definition addSubscriber (self : SVReceiver) (subscriber : Z) : alloc SVReceiver :=
  ok <~ malloc;
  if (ok : bool) then l <~ m_lift (subscriberList self); m_ret (set_list self (Some (l ++ [subscriber])))
  else m_ret self.

Definition removeSubscriber (self : SVReceiver) (subscriber : Z) : option SVReceiver :=
  l ← subscriberList self; Some (set_list self (Some (GooseReceiver.remove_first l subscriber))).

Definition isRunning (self : SVReceiver) : bool := running self.

(** [s]: whether [Ethernet_createSocket] gives a socket.  The protocol filter is
    [ETH_P_SV]. *)
Definition startThreadless (self : SVReceiver) (s : bool) : SVReceiver * bool :=
  if s then (set_running self true OpenSocket, true) else (set_running self (running self) NoSocket, false).

(** A socket must not be destroyed twice. *)
Definition stopThreadless (self : SVReceiver) : option SVReceiver :=
  match ethSocket self with
  | NoSocket => Some (set_running self false NoSocket)
  | OpenSocket => Some (set_running self false DestroyedSocket)
  | DestroyedSocket => None
  end.

Definition stop (self : SVReceiver) : option SVReceiver :=
  if running self then stopThreadless (set_running self false (ethSocket self)) else Some self.

(** [packet]: what [Ethernet_receivePacket] stores in the buffer. *)
Definition tick (self : SVReceiver) (subs : subscribers) (packet : list Z)
    : option (SVReceiver * bool * list (Z * SVSubscriber_ASDU)) :=
  match ethSocket self with
  | NoSocket => Some (self, false, [])
  | DestroyedSocket => None
  | OpenSocket =>
      if decide (zlen packet > 0) then
        b ← buffer self;
        '(b, _) ← copy_bytes (length packet) packet 0 b 0;
        calls ← parseSVMessage self subs b (zlen packet);
        Some (set_buffer self (Some b), true, calls)
      else Some (self, false, [])
  end.

Definition handleL2Message (self : SVReceiver) (subs : subscribers) (buffer : list Z) (size : Z)
    : option (list (Z * SVSubscriber_ASDU)) := parseSVMessage self subs buffer size.

Definition subscriber_create (addr : option (list Z)) (appID : Z) : alloc (option SVSubscriber) :=
  ok <~ malloc;
  if (ok : bool) then
    addr <~ m_lift (match addr with
                    | Some addr => r ← copy_bytes 6 addr 0 (fresh 6) 0; Some (fst r)
                    | None => Some (fresh 6)
                    end);
    m_ret (Some {| ethAddr := addr; appId := appID; listener := None |})
  else m_ret None.

Definition setListener (self : SVSubscriber) (l : option Z) : SVSubscriber :=
  {| ethAddr := ethAddr self; appId := appId self; listener := l |}.

(** ** Reading an ASDU *)

(** The octet at [i] behind a pointer. *)
Definition at_ (a : SVSubscriber_ASDU) (p i : Z) : option Z := (asdu a).[p + i].

Definition getSmpSynch (a : SVSubscriber_ASDU) : option Z :=
  match smpSynch a with None => Some 0 | Some p => at_ a p 0 end.

(** [memcpy_reverse] of [size] octets into an integer of the machine. *)
Fixpoint memcpy_reverse (size : nat) (a : SVSubscriber_ASDU) (p retVal : Z) : option Z :=
  match size with
  | O => Some retVal
  | S size => x ← at_ a p 0; memcpy_reverse size a (p + 1) (retVal * 256 + x)
  end.

Definition getSmpCnt (a : SVSubscriber_ASDU) : option Z :=
  match smpCnt a with
  | None => Some 0
  | Some p => x1 ← at_ a p 1; x0 ← at_ a p 0; Some (x1 + x0 * 256)
  end.

Definition decodeUtcTimeToNsTime (buffer : list Z) : option (Z * Z) :=
  b3 ← buffer.[3]; b2 ← buffer.[2]; b1 ← buffer.[1]; b0 ← buffer.[0];
  let timeval32 := u32 (u32 (u32 (b3 + b2 * 0x100) + b1 * 0x10000) + b0 * 0x1000000) in
  b6 ← buffer.[6]; b5 ← buffer.[5]; b4 ← buffer.[4];
  let fractionOfSecond := u32 (u32 (b6 + b5 * 0x100) + b4 * 0x10000) in
  let nsVal := Z.shiftr (u64 (fractionOfSecond * 1000000000)) 24 in
  timeQuality ← buffer.[7];
  Some (u64 (u64 (timeval32 * 1000000000) + nsVal), timeQuality).

Definition getRefrTmAsNs (a : SVSubscriber_ASDU) : option Z :=
  match refrTm a with None => Some 0 | Some p => fst <$> decodeUtcTimeToNsTime (from (asdu a) p) end.
Definition getRefrTmAsMs (a : SVSubscriber_ASDU) : option Z := ns ← getRefrTmAsNs a; Some (ns / 1000000).

Definition hasRefrTm (a : SVSubscriber_ASDU) : bool := bool_decide (is_Some (refrTm a)).
Definition hasDatSet (a : SVSubscriber_ASDU) : bool := bool_decide (is_Some (datSet a)).
Definition hasSmpRate (a : SVSubscriber_ASDU) : bool := bool_decide (is_Some (smpRate a)).
Definition hasSmpMod (a : SVSubscriber_ASDU) : bool := bool_decide (is_Some (smpMod a)).

(** The string is the buffer, whose new content is kept in the ASDU. *)
Definition getSvId (a : SVSubscriber_ASDU) : option (SVSubscriber_ASDU * option (list Z)) :=
  match svId a with
  | None => Some (a, None)
  | Some p =>
      '(b, _) ← copy_bytes (Z.to_nat (svIdSize a)) (asdu a) p (svIdBuf a) 0;
      b ← b.[svIdSize a]:= 0;
      Some (set_buffers a b (datSetBuf a), Some b)
  end.

Definition getDatSet (a : SVSubscriber_ASDU) : option (SVSubscriber_ASDU * option (list Z)) :=
  match datSet a with
  | None => Some (a, None)
  | Some p =>
      '(b, _) ← copy_bytes (Z.to_nat (datSetSize a)) (asdu a) p (datSetBuf a) 0;
      b ← b.[datSetSize a]:= 0;
      Some (set_buffers a (svIdBuf a) b, Some b)
  end.

Definition getConfRev (a : SVSubscriber_ASDU) : option Z :=
  match confRev a with None => Some 0 | Some p => memcpy_reverse 4 a p 0 end.
Definition getSmpMod (a : SVSubscriber_ASDU) : option Z :=
  match smpMod a with None => Some 0 | Some p => at_ a p 0 end.
Definition getSmpRate (a : SVSubscriber_ASDU) : option Z :=
  match smpRate a with None => Some 0 | Some p => memcpy_reverse 2 a p 0 end.

(** [size] octets of the data from [index] on, as an unsigned number; 0 when they are not
    all there. *)
Definition data_at (size : Z) (a : SVSubscriber_ASDU) (index : Z) : option Z :=
  if decide (index < 0 \/ dataBufferLength a - index < size) then Some 0
  else p ← dataBuffer a; memcpy_reverse (Z.to_nat size) a (p + index) 0.

Definition getINT8 (a : SVSubscriber_ASDU) (index : Z) : option Z := s8 <$> data_at 1 a index.
Definition getINT16 (a : SVSubscriber_ASDU) (index : Z) : option Z := s16 <$> data_at 2 a index.
Definition getINT32 (a : SVSubscriber_ASDU) (index : Z) : option Z := s32 <$> data_at 4 a index.
Definition getINT64 (a : SVSubscriber_ASDU) (index : Z) : option Z := s64 <$> data_at 8 a index.
Definition getINT8U : SVSubscriber_ASDU -> Z -> option Z := data_at 1.
Definition getINT16U : SVSubscriber_ASDU -> Z -> option Z := data_at 2.
Definition getINT32U : SVSubscriber_ASDU -> Z -> option Z := data_at 4.
Definition getINT64U : SVSubscriber_ASDU -> Z -> option Z := data_at 8.
(** The bits of the number. *)
Definition getFLOAT32 : SVSubscriber_ASDU -> Z -> option Z := data_at 4.
Definition getFLOAT64 : SVSubscriber_ASDU -> Z -> option Z := data_at 8.

Definition getTimestamp (a : SVSubscriber_ASDU) (index : Z) : option (list Z) :=
  if decide (index < 0 \/ dataBufferLength a - index < 8) then Some (replicate 8 0)
  else p ← dataBuffer a; rds 8 (asdu a) (p + index).

Definition getQuality (a : SVSubscriber_ASDU) (index : Z) : option Z :=
  if decide (index < 0 \/ dataBufferLength a - index < 4) then Some 0
  else p ← dataBuffer a; x3 ← at_ a (p + index) 3; x2 ← at_ a (p + index) 2; Some (u16 (x3 + x2 * 0x100)).

Definition getDataSize (a : SVSubscriber_ASDU) : Z := dataBufferLength a.

(** ** Safety *)

(** A pointer to [n] octets of the ASDU. *)
Definition points (a : SVSubscriber_ASDU) (n : Z) (p : option Z) : Prop :=
  forall q, p = Some q -> 0 <= q /\ q + n <= zlen (asdu a).

Record asdu_ok (a : SVSubscriber_ASDU) : Prop := {
  asdu_bytes : is_bytes (asdu a);
  asdu_idBuf : wf_buf (svIdBuf a) 130;
  asdu_dsBuf : wf_buf (datSetBuf a) 130;
  asdu_id : points a (svIdSize a) (svId a) /\ 0 <= svIdSize a <= 129;
  asdu_ds : points a (datSetSize a) (datSet a) /\ 0 <= datSetSize a <= 129;
  asdu_cnt : points a 2 (smpCnt a);
  asdu_rev : points a 4 (confRev a);
  asdu_tm : points a 8 (refrTm a);
  asdu_synch : points a 1 (smpSynch a);
  asdu_mod : points a 1 (smpMod a);
  asdu_rate : points a 2 (smpRate a);
  asdu_data : points a (dataBufferLength a) (dataBuffer a) /\ 0 <= dataBufferLength a /\
    (dataBuffer a = None -> dataBufferLength a = 0);
}.

Lemma points_none a n : points a n None.
Proof. done. Qed.

Lemma empty_asdu_ok b : is_bytes b -> asdu_ok (empty_asdu b).
Proof.
  intros Hb. pose proof (wf_buf_fresh 130 ltac:(lia)).
  constructor; try done; (split; [done|cbn; lia]).
Qed.

(** Every field of an element that lies in the ASDU keeps it well-formed. *)
Lemma asduField_ok tag p n a a' : asdu_ok a -> 0 <= p -> 0 <= n -> p + n <= zlen (asdu a) ->
  asduField tag p n a = Some a' -> asdu_ok a' /\ asdu a' = asdu a.
Proof.
  intros Ha Hp Hn Hl. unfold asduField.
  assert (Hpt : forall k, k = n -> points a k (Some p)) by (intros k -> q [= <-]; lia).
  repeat (case_decide; [|]); try done; intros [= <-]; (split; [|done]); destruct Ha; constructor; try done;
    cbn;
    try (by apply Hpt); try (split; [by apply Hpt|lia]).
  split; [by apply Hpt|done].
Qed.

(** An element of a loop: the next position is inside, or the message is malformed. *)
Lemma element_total b p len : is_bytes b -> 0 <= p < len -> len <= zlen b ->
  exists tag q n, b.[p] = Some tag /\ BerDecoder.decodeLength b 0 (p + 1) len = Some (q, n) /\
    (q = -1 \/ p < q /\ 0 <= n /\ q + n <= len).
Proof.
  intros Hb Hp Hl. destruct (rd_ok b p Hb) as (tag & E & _); [lia|].
  destruct (BerDecoder.decodeLength_total b (p + 1) len 0 Hb) as (q & n & E' & Hq); [lia|lia|].
  exists tag, q, n. split_and!; [done..|]. lia.
Qed.

Lemma parseASDU_loop_safe fuel b len : is_bytes b -> len <= zlen b -> forall p a,
  asdu_ok a -> asdu a = b -> 0 <= p -> len - p < Z.of_nat fuel -> 0 < Z.of_nat fuel ->
  exists r, parseASDU_loop fuel b len p a = Some r /\ (forall a', r = Some a' -> asdu_ok a').
Proof.
  intros Hb Hl. induction fuel as [|fuel IH]; intros p a Ha Hab Hp Hf H0; [lia|]. cbn [parseASDU_loop].
  case_decide as Hd; [|eexists; split; [done|by intros a' [= <-]]].
  destruct (element_total b p len Hb) as (tag & q & n & -> & E & Hq); [lia..|]. cbn [mbind option_bind].
  rewrite E. cbn [mbind option_bind]. case_decide; [by eexists|]. case_decide; [by eexists|].
  destruct Hq as [->|(Hq & Hn & Hqn)]; [lia|].
  destruct (asduField tag q n a) as [a'|] eqn:Ef; [|by eexists].
  apply asduField_ok in Ef as [Ha' Hab']; [|done|lia|lia|rewrite Hab; lia]. apply IH; try done; try lia; congruence.
Qed.

Definition calls_ok (calls : list (Z * SVSubscriber_ASDU)) : Prop := Forall (fun c => asdu_ok (snd c)) calls.

Lemma parseASDU_safe s b len : is_bytes b -> 0 <= len <= zlen b ->
  exists calls, parseASDU s b len = Some calls /\ calls_ok calls.
Proof.
  intros Hb Hl. unfold parseASDU.
  destruct (parseASDU_loop_safe (S (Z.to_nat len)) b len Hb ltac:(lia) 0 (empty_asdu b) (empty_asdu_ok b Hb))
    as (r & -> & Hr); [done|lia..|]. cbn [mbind option_bind]. eexists. split; [done|].
  destruct r as [a|]; [|constructor]. destruct (listener s); [|constructor].
  constructor; [by apply Hr|constructor].
Qed.

Lemma parseSequenceOfASDU_safe s b len : is_bytes b -> 0 <= len <= zlen b ->
  exists calls, parseSequenceOfASDU s b len = Some calls /\ calls_ok calls.
Proof.
  intros Hb Hl. unfold parseSequenceOfASDU.
  assert (G : forall fuel p, 0 <= p -> len - p < Z.of_nat fuel -> 0 < Z.of_nat fuel ->
    exists calls, parseSequenceOfASDU_loop fuel s b len p = Some calls /\ calls_ok calls); [|apply G; lia].
  induction fuel as [|fuel IH]; intros p Hp Hf H0; [lia|]. cbn [parseSequenceOfASDU_loop].
  case_decide as Hd; [|eexists; split; [done|constructor]].
  destruct (element_total b p len Hb) as (tag & q & n & -> & E & Hq); [lia..|]. cbn [mbind option_bind].
  rewrite E. cbn [mbind option_bind]. case_decide; [eexists; split; [done|constructor]|].
  case_decide; [eexists; split; [done|constructor]|]. destruct Hq as [->|(Hq & Hn & Hqn)]; [lia|].
  assert (exists c, (if decide (tag = 0x30) then parseASDU s (from b q) n else Some []) = Some c /\ calls_ok c)
    as (c & -> & Hc).
  { case_decide; [|eexists; split; [done|constructor]].
    apply parseASDU_safe; [by apply from_bytes|rewrite from_length; lia]. }
  cbn [mbind option_bind]. destruct (IH (q + n)) as (m & -> & Hm); [lia..|]. cbn [mbind option_bind].
  eexists. split; [done|]. by apply Forall_app.
Qed.

Lemma parseSVPayload_safe s b len : is_bytes b -> len <= zlen b ->
  exists calls, parseSVPayload s b len = Some calls /\ calls_ok calls.
Proof.
  intros Hb Hl. unfold parseSVPayload.
  assert (Hnil : calls_ok []) by constructor.
  case_decide; [by eexists|]. destruct (rd_ok b 0 Hb) as (x & -> & _); [lia|]. cbn [mbind option_bind].
  case_decide; [|by eexists]. destruct (BerDecoder.decodeLength_total b 1 len 0 Hb) as (q & n & -> & Hq); [lia|lia|].
  cbn [mbind option_bind]. case_decide; [by eexists|]. case_decide; [by eexists|].
  destruct Hq as [->|(Hq & Hn & Hqn)]; [lia|].
  assert (G : forall fuel p, 0 <= p -> q + n - p < Z.of_nat fuel -> 0 < Z.of_nat fuel ->
    exists calls, parseSVPayload_loop fuel s b (q + n) p = Some calls /\ calls_ok calls); [|apply G; lia].
  induction fuel as [|fuel IH]; intros p Hp Hf Hf0; [lia|]. cbn [parseSVPayload_loop].
  case_decide as Hd; [|by eexists].
  destruct (element_total b p (q + n) Hb) as (tag & q' & n' & -> & E & Hq'); [lia..|]. cbn [mbind option_bind].
  rewrite E. cbn [mbind option_bind]. case_decide; [by eexists|].
  destruct Hq' as [->|(Hq' & Hn' & Hqn')]; [lia|].
  assert (exists c, (if decide (tag = 0xa2) then parseSequenceOfASDU s (from b q') n' else Some []) = Some c /\ calls_ok c)
    as (c & -> & Hc).
  { case_decide; [|by eexists]. apply parseSequenceOfASDU_safe; [by apply from_bytes|rewrite from_length; lia]. }
  cbn [mbind option_bind]. destruct (IH (q' + n')) as (m & -> & Hm); [lia..|]. cbn [mbind option_bind].
  eexists. split; [done|]. by apply Forall_app.
Qed.

(** The store holds the subscribers of the list, with addresses of six octets. *)
Definition store_ok (list : list Z) (subs : subscribers) : Prop :=
  Forall (fun id => exists s, subs !! id = Some s /\ zlen (ethAddr s) = 6) list.

Lemma findSubscriber_total self list subs app b : store_ok list subs -> 6 <= zlen b ->
  exists r, findSubscriber self list subs app b = Some r.
Proof.
  intros Hs Hb. induction Hs as [|id rest (s & Es & Hl) _ IH]; cbn [findSubscriber]; [by eexists|].
  rewrite Es. cbn [mbind option_bind]. case_decide; [|done]. destruct (checkDestAddr self); [|by eexists].
  case_decide; [|done]. destruct (memcmp_total 6 b (ethAddr s)) as [r ->]; [lia..|]. cbn [mbind option_bind].
  destruct r; [by eexists|done].
Qed.

Lemma parseSVMessage_safe self subs b numbytes l :
  subscriberList self = Some l -> store_ok l subs -> is_bytes b -> numbytes <= zlen b ->
  exists calls, parseSVMessage self subs b numbytes = Some calls /\ calls_ok calls.
Proof.
  intros El Hs Hb Hl. assert (Hnil : calls_ok []) by constructor. unfold parseSVMessage. case_decide; [by eexists|].
  destruct (rd_ok b 12 Hb) as (x & -> & _); [lia|]. destruct (rd_ok b 13 Hb) as (y & -> & _); [lia|]. cbn [mbind option_bind].
  set (vlan := bool_decide _). set (pos := if vlan then 16 else 12). set (hl := if vlan then 18 else 14).
  assert (Hpos : hl = pos + 2 /\ 12 <= pos) by (unfold pos, hl; destruct vlan; lia).
  case_decide as Hv; [by eexists|].
  assert (Hroom : pos + 10 <= numbytes).
  { unfold pos. destruct vlan; [|lia]. destruct (decide (numbytes < 26)); [tauto|lia]. }
  destruct (rd_ok b pos Hb) as (e1 & -> & _); [lia|]. cbn [mbind option_bind]. case_decide; [by eexists|].
  destruct (rd_ok b (pos + 1) Hb) as (e2 & -> & _); [lia|]. cbn [mbind option_bind]. case_decide; [by eexists|].
  destruct (rd_ok b (pos + 2) Hb) as (a1 & -> & _); [lia|]. destruct (rd_ok b (pos + 3) Hb) as (a2 & -> & _); [lia|].
  destruct (rd_ok b (pos + 4) Hb) as (l1 & -> & _); [lia|]. destruct (rd_ok b (pos + 5) Hb) as (l2 & -> & _); [lia|].
  cbn [mbind option_bind]. case_decide; [by eexists|]. case_decide; [by eexists|].
  unfold handleSVApdu. rewrite El. cbn [mbind option_bind].
  destruct (findSubscriber_total self l subs (u16 (u16 (a1 * 256) + a2)) b Hs) as [r ->]; [lia|]. cbn [mbind option_bind].
  destruct r as [s|]; [|by eexists]. apply parseSVPayload_safe; [by apply from_bytes|rewrite from_length; lia].
Qed.

(** ** The readers *)

Lemma memcpy_reverse_at a xs : forall p r, bytes_at (asdu a) p xs ->
  memcpy_reverse (length xs) a p r = Some (be_acc r xs).
Proof.
  induction xs as [|x xs IH]; intros p r Hat; [done|]. destruct Hat as [Hx Hat]. cbn [length memcpy_reverse].
  unfold at_. rewrite Z.add_0_r, Hx. cbn [mbind option_bind]. rewrite IH by done. done.
Qed.

Lemma memcpy_reverse_total a p n : is_bytes (asdu a) -> 0 <= p -> p + Z.of_nat n <= zlen (asdu a) ->
  exists xs, length xs = n /\ is_bytes xs /\ bytes_at (asdu a) p xs /\ memcpy_reverse n a p 0 = Some (be_val xs).
Proof.
  intros Hb Hp Hl. destruct (rds_Some n (asdu a) p Hp Hl) as (xs & _ & Hx & Hat). exists xs.
  split; [done|]. split; [by eapply bytes_at_is_bytes|]. split; [done|]. rewrite <- Hx at 1. by apply memcpy_reverse_at.
Qed.

(** What a reader gives: a value of [n] octets. *)
Definition reads (n : Z) (o : option Z) : Prop := exists v, o = Some v /\ 0 <= v < 256 ^ n.

Lemma data_at_reads a n index : asdu_ok a -> 0 < n -> reads n (data_at n a index).
Proof.
  intros Ha Hn. unfold data_at. case_decide as Hd; [exists 0; split; [done|split; [lia|by apply Z.pow_pos_nonneg; lia]]|].
  destruct (asdu_data _ Ha) as (Hp & Hl & Hnone). destruct (dataBuffer a) as [p|] eqn:Ed; [|rewrite Hnone in Hd by done; lia].
  destruct (Hp p eq_refl) as [Hp0 Hpl]. cbn [mbind option_bind].
  destruct (memcpy_reverse_total a (p + index) (Z.to_nat n) (asdu_bytes _ Ha)) as (xs & Hx & Hb & _ & ->); [lia|lia|].
  exists (be_val xs). split; [done|]. replace n with (zlen xs) by lia. by apply be_val_bound.
Qed.

Lemma pointer_reads a n p : asdu_ok a -> points a (Z.of_nat n) (Some p) -> reads (Z.of_nat n) (memcpy_reverse n a p 0).
Proof.
  intros Ha Hp. destruct (Hp p eq_refl) as [Hp0 Hpl].
  destruct (memcpy_reverse_total a p n (asdu_bytes _ Ha)) as (xs & Hx & Hb & _ & ->); [lia|lia|].
  exists (be_val xs). split; [done|]. rewrite <- Hx. by apply be_val_bound.
Qed.

Lemma zero_reads n : 0 <= n -> reads n (Some 0).
Proof. intros Hn. exists 0. split; [done|]. split; [lia|by apply Z.pow_pos_nonneg; lia]. Qed.

(** The decoder of the subscriber is that of [iec61850_common.c]. *)
Lemma decodeUtcTime_getTimeInNs b : is_bytes b -> 8 <= zlen b ->
  decodeUtcTimeToNsTime b = (ns ← Timestamp_getTimeInNs b; q ← b.[7]; Some (ns, q)).
Proof.
  intros Hb Hl.
  destruct (rd_ok b 0 Hb) as (b0 & E0 & H0); [lia|]. destruct (rd_ok b 1 Hb) as (b1 & E1 & H1); [lia|].
  destruct (rd_ok b 2 Hb) as (b2 & E2 & H2); [lia|]. destruct (rd_ok b 3 Hb) as (b3 & E3 & H3); [lia|].
  destruct (rd_ok b 4 Hb) as (b4 & E4 & H4); [lia|]. destruct (rd_ok b 5 Hb) as (b5 & E5 & H5); [lia|].
  destruct (rd_ok b 6 Hb) as (b6 & E6 & H6); [lia|]. destruct (rd_ok b 7 Hb) as (b7 & E7 & H7); [lia|].
  unfold decodeUtcTimeToNsTime, Timestamp_getTimeInNs, Timestamp_getTimeInSeconds, Timestamp_getFractionOfSecondPart.
  rewrite E0, E1, E2, E3, E4, E5, E6, E7. cbn [mbind option_bind]. do 2 f_equal.
  rewrite !Z.shiftl_mul_pow2 by lia. change (2 ^ 16) with 65536. change (2 ^ 8) with 256.
  rewrite !(u32_id (b6 + _)) by (unfold_int; lia). rewrite !(u32_id (b3 + b2 * 256)) by (unfold_int; lia).
  rewrite !(u32_id (b3 + b2 * 256 + b1 * 65536)) by (unfold_int; lia). rewrite !(u32_id (b6 + b5 * 256 + b4 * 65536)) by (unfold_int; lia).
  rewrite !(u32_id (b4 * 65536 + b5 * 256 + b6)) by (unfold_int; lia).
  replace (b4 * 65536 + b5 * 256 + b6) with (b6 + b5 * 256 + b4 * 65536) by lia.
  rewrite (u32_id (b3 + b2 * 256 + b1 * 65536 + b0 * 16777216)) by (unfold_int; lia).
  unfold u64. rewrite Z.add_mod_idemp_l by lia. done.
Qed.

Definition names_defined (a : SVSubscriber_ASDU) (o : option (SVSubscriber_ASDU * option (list Z))) : Prop :=
  exists a' r, o = Some (a', r) /\ asdu_ok a'.

(** Every function a listener may call is defined, whatever the index. *)
Record readable (a : SVSubscriber_ASDU) : Prop := {
  can_cnt : reads 2 (getSmpCnt a);
  can_rev : reads 4 (getConfRev a);
  can_synch : reads 1 (getSmpSynch a);
  can_mod : reads 1 (getSmpMod a);
  can_rate : reads 2 (getSmpRate a);
  can_ns : is_Some (getRefrTmAsNs a);
  can_ms : is_Some (getRefrTmAsMs a);
  can_id : names_defined a (getSvId a);
  can_ds : names_defined a (getDatSet a);
  can_8 : forall i, reads 1 (getINT8U a i) /\ is_Some (getINT8 a i);
  can_16 : forall i, reads 2 (getINT16U a i) /\ is_Some (getINT16 a i);
  can_32 : forall i, reads 4 (getINT32U a i) /\ is_Some (getINT32 a i) /\ reads 4 (getFLOAT32 a i);
  can_64 : forall i, reads 8 (getINT64U a i) /\ is_Some (getINT64 a i) /\ reads 8 (getFLOAT64 a i);
  can_time : forall i, exists t, getTimestamp a i = Some t /\ wf_buf t 8;
  can_quality : forall i, reads 2 (getQuality a i);
}.

Lemma getSmpCnt_eq a p : smpCnt a = Some p -> asdu_ok a -> getSmpCnt a = memcpy_reverse 2 a p 0.
Proof.
  intros E Ha. unfold getSmpCnt. rewrite E. destruct (asdu_cnt _ Ha p E) as [Hp Hl].
  destruct (rd_ok (asdu a) p (asdu_bytes _ Ha)) as (x & Ex & _); [lia|].
  destruct (rd_ok (asdu a) (p + 1) (asdu_bytes _ Ha)) as (y & Ey & _); [lia|].
  cbn [memcpy_reverse]. unfold at_. rewrite !Z.add_0_r, Ex, Ey. cbn [mbind option_bind]. f_equal. lia.
Qed.

Lemma one_octet a p : at_ a p 0 = memcpy_reverse 1 a p 0.
Proof. cbn [memcpy_reverse]. destruct (at_ a p 0); [|done]. cbn. done. Qed.

Lemma reads_Some n o : reads n o -> forall f : Z -> Z, is_Some (f <$> o).
Proof. intros (v & -> & _) f. by eexists. Qed.

Lemma getQuality_reads a i : asdu_ok a -> reads 2 (getQuality a i).
Proof.
  intros Ha. unfold getQuality. case_decide as Hd; [by apply zero_reads|].
  destruct (asdu_data _ Ha) as (Hp & Hl & Hnone). destruct (dataBuffer a) as [p|] eqn:Ed; [|rewrite Hnone in Hd by done; lia].
  destruct (Hp p eq_refl) as [Hp0 Hpl]. unfold at_.
  destruct (rd_ok (asdu a) (p + i + 3) (asdu_bytes _ Ha)) as (x & Ex & Hx); [lia|].
  destruct (rd_ok (asdu a) (p + i + 2) (asdu_bytes _ Ha)) as (y & Ey & Hy); [lia|].
  cbn [mbind option_bind]. rewrite Ex, Ey. cbn [mbind option_bind]. eexists. split; [done|].
  change (256 ^ 2) with 65536. apply Z.mod_pos_bound. lia.
Qed.

Lemma getTimestamp_total a i : asdu_ok a -> exists t, getTimestamp a i = Some t /\ wf_buf t 8.
Proof.
  intros Ha. unfold getTimestamp. case_decide as Hd; [eexists; split; [done|by apply (wf_buf_replicate 8 0)]|].
  destruct (asdu_data _ Ha) as (Hp & Hl & Hnone). destruct (dataBuffer a) as [p|] eqn:Ed; [|rewrite Hnone in Hd by done; lia].
  destruct (Hp p eq_refl) as [Hp0 Hpl]. cbn [mbind option_bind].
  apply (GooseReceiver.rds_bytes _ _ 8 (asdu_bytes _ Ha)); lia.
Qed.

Lemma name_total a p n buf : asdu_ok a -> points a n (Some p) -> 0 <= n <= 129 -> wf_buf buf 130 ->
  exists b, ('(b, _) ← copy_bytes (Z.to_nat n) (asdu a) p buf 0; b.[n]:= 0) = Some b /\ wf_buf b 130.
Proof.
  intros Ha Hp Hn [Hb Hl]. destruct (Hp p eq_refl) as [Hp0 Hpl].
  destruct (copy_total (asdu a) p n buf 130 (asdu_bytes _ Ha)) as (b & q & E & W); try lia; [done|]. rewrite E.
  cbn [mbind option_bind]. destruct W as [Wb Wl]. rewrite wr_Some by lia. eexists. split; [done|].
  split; [|by rewrite length_insert]. by apply Forall_insert.
Qed.

Lemma ns_total a : asdu_ok a -> is_Some (getRefrTmAsNs a).
Proof.
  intros Ha. unfold getRefrTmAsNs. destruct (refrTm a) as [p|] eqn:E; [|by eexists].
  destruct (asdu_tm _ Ha p E) as [Hp Hl].
  rewrite decodeUtcTime_getTimeInNs by (apply from_bytes, Ha || (rewrite from_length; lia)).
  unfold Timestamp_getTimeInNs, Timestamp_getTimeInSeconds, Timestamp_getFractionOfSecondPart.
  assert (Hb : is_bytes (from (asdu a) p)) by apply from_bytes, Ha. pose proof (from_length (asdu a) p ltac:(lia)) as Hf.
  do 8 match goal with |- context [rd (from (asdu a) p) ?i] =>
    let x := fresh "x" in destruct (rd_ok (from (asdu a) p) i Hb) as (x & -> & _); [lia|] end.
  by eexists.
Qed.

Lemma asdu_readable a : asdu_ok a -> readable a.
Proof.
  intros Ha. constructor.
  - destruct (smpCnt a) as [p|] eqn:E; [|unfold getSmpCnt; rewrite E; by apply zero_reads].
    rewrite (getSmpCnt_eq a p E Ha). apply (pointer_reads a 2 p Ha). rewrite <- E. apply (asdu_cnt _ Ha).
  - unfold getConfRev. destruct (confRev a) as [p|] eqn:E; [|by apply zero_reads].
    apply (pointer_reads a 4 p Ha). rewrite <- E. apply (asdu_rev _ Ha).
  - unfold getSmpSynch. destruct (smpSynch a) as [p|] eqn:E; [|by apply zero_reads].
    rewrite one_octet. apply (pointer_reads a 1 p Ha). rewrite <- E. apply (asdu_synch _ Ha).
  - unfold getSmpMod. destruct (smpMod a) as [p|] eqn:E; [|by apply zero_reads].
    rewrite one_octet. apply (pointer_reads a 1 p Ha). rewrite <- E. apply (asdu_mod _ Ha).
  - unfold getSmpRate. destruct (smpRate a) as [p|] eqn:E; [|by apply zero_reads].
    apply (pointer_reads a 2 p Ha). rewrite <- E. apply (asdu_rate _ Ha).
  - by destruct (ns_total a Ha) as [ns ->].
  - unfold getRefrTmAsMs. by destruct (ns_total a Ha) as [ns ->].
  - unfold getSvId, names_defined. destruct (svId a) as [p|] eqn:E; [|by eexists _, _].
    destruct (asdu_id _ Ha) as [Hp Hn]. rewrite E in Hp. destruct (name_total a p _ _ Ha Hp Hn (asdu_idBuf _ Ha)) as (b & Eb & W).
    destruct (copy_bytes _ _ _ _ _) as [[b1 p1]|]; [|done]. cbn [mbind option_bind] in *. rewrite Eb.
    eexists _, _. split; [done|]. destruct Ha. constructor; try done; by rewrite E.
  - unfold getDatSet, names_defined. destruct (datSet a) as [p|] eqn:E; [|by eexists _, _].
    destruct (asdu_ds _ Ha) as [Hp Hn]. rewrite E in Hp. destruct (name_total a p _ _ Ha Hp Hn (asdu_dsBuf _ Ha)) as (b & Eb & W).
    destruct (copy_bytes _ _ _ _ _) as [[b1 p1]|]; [|done]. cbn [mbind option_bind] in *. rewrite Eb.
    eexists _, _. split; [done|]. destruct Ha. constructor; try done; by rewrite E.
  - intros i. split; [by apply data_at_reads|]. eapply reads_Some. by apply data_at_reads.
  - intros i. split; [by apply data_at_reads|]. eapply reads_Some. by apply data_at_reads.
  - intros i. split; [by apply data_at_reads|]. split; [eapply reads_Some|]; by apply data_at_reads.
  - intros i. split; [by apply data_at_reads|]. split; [eapply reads_Some|]; by apply data_at_reads.
  - intros i. by apply getTimestamp_total.
  - intros i. by apply getQuality_reads.
Qed.

(** C36: whatever frame the Ethernet layer hands over, a receiver with an open socket
    handles it without a read outside its buffer, and every ASDU a listener is called with
    can be read with every function and every index: the pointers it holds are
    inside the frame. *)
Theorem sv_receiver_safe self subs packet l b :
  ethSocket self = OpenSocket -> subscriberList self = Some l -> store_ok l subs ->
  buffer self = Some b -> wf_buf b ETH_BUFFER_LENGTH -> is_bytes packet -> zlen packet <= ETH_BUFFER_LENGTH ->
  exists b' r calls,
    tick self subs packet = Some (set_buffer self (Some b'), r, calls) /\ wf_buf b' ETH_BUFFER_LENGTH /\
    Forall (fun c => asdu_ok (snd c) /\ readable (snd c)) calls.
Proof.
  intros Eo El Hs Eb Wb Hp Hl. unfold tick. rewrite Eo. case_decide as Hz.
  - rewrite Eb. cbn [mbind option_bind].
    destruct (copy_total packet 0 (zlen packet) b ETH_BUFFER_LENGTH Hp) as (b' & q & E & W); try lia; [done|].
    rewrite Nat2Z.id in E. rewrite E. cbn [mbind option_bind]. destruct W as [Wb1 Wl1].
    destruct (parseSVMessage_safe self subs b' (zlen packet) l El Hs Wb1) as (calls & -> & Hc); [lia|].
    cbn [mbind option_bind]. eexists _, _, _. split; [done|]. split; [done|].
    eapply Forall_impl; [exact Hc|]. intros c Hok. split; [done|by apply asdu_readable].
  - exists b, false, []. split; [|by split]. do 3 f_equal. destruct self. cbn in *. by subst.
Qed.

Lemma from_front b p t : 0 <= p -> bytes_at b p t -> from b p = t ++ drop (length t) (from b p).
Proof.
  intros Hp Hat. rewrite <- (take_drop (length t) (from b p)) at 1. f_equal.
  apply rds_0_take, rds_at. by apply bytes_at_from.
Qed.

Lemma time_front t rest : zlen t = 8 -> Timestamp_getTimeInNs (t ++ rest) = Timestamp_getTimeInNs t.
Proof.
  intros Hl. unfold Timestamp_getTimeInNs, Timestamp_getTimeInSeconds, Timestamp_getFractionOfSecondPart.
  by rewrite !rd_app_l by lia.
Qed.

Lemma decodeUtcTime_at b p t : is_bytes b -> 0 <= p -> bytes_at b p t -> zlen t = 8 ->
  exists ns q, Timestamp_getTimeInNs t = Some ns /\ t.[7] = Some q /\ decodeUtcTimeToNsTime (from b p) = Some (ns, q).
Proof.
  intros Hb Hp Hat Hl. destruct (bytes_at_bound b p t Hat) as [_ Hpl]; [by destruct t|].
  rewrite decodeUtcTime_getTimeInNs by (first [by apply from_bytes | rewrite from_length; lia]).
  rewrite (from_front b p t Hp Hat), time_front, rd_app_l by lia.
  destruct t as [|? [|? [|? [|? [|? [|? [|? [|? []]]]]]]]]; try (cbn in Hl; lia). by eexists _, _.
Qed.

(** C38: the time stamp of an ASDU is read like a [Timestamp]: the decoder of the
    subscriber is equivalent to [Timestamp_getTimeInNs] with the octet of the quality. *)
Theorem refrTm_equals_timestamp a p : asdu_ok a -> refrTm a = Some p ->
  exists t ns, rds 8 (asdu a) p = Some t /\ Timestamp_getTimeInNs t = Some ns /\
    getRefrTmAsNs a = Some ns /\ getRefrTmAsMs a = Some (ns / 1000000) /\
    decodeUtcTimeToNsTime (from (asdu a) p) = (q ← t.[7]; Some (ns, q)).
Proof.
  intros Ha E. destruct (asdu_tm _ Ha p E) as [Hp Hl].
  destruct (rds_Some 8 (asdu a) p Hp ltac:(lia)) as (t & Et & Htl & Hat).
  destruct (decodeUtcTime_at (asdu a) p t (asdu_bytes _ Ha) Hp Hat ltac:(lia)) as (ns & q & En & Eq & D).
  exists t, ns. unfold getRefrTmAsMs, getRefrTmAsNs. by rewrite E, D, Eq.
Qed.

(** A frame with two ASDUs, the second of them too short for its announced length. *)
Definition sample_frame : list Z :=
  [1; 12; 205; 4; 0; 1; 2; 2; 2; 2; 2; 2; 0x88; 0xba; 0x40; 0; 0; 47; 0; 0; 0; 0;
   0x60; 37; 0x80; 1; 2; 0xa2; 32;
   0x30; 26; 0x80; 2; 65; 66; 0x82; 2; 1; 0; 0x83; 4; 0; 0; 0; 1; 0x85; 1; 2; 0x87; 7; 0; 0; 0; 42; 1; 1; 1;
   0x30; 2; 0x82; 9].

Definition sample_receiver : SVReceiver :=
  {| running := true; stopped := false; checkDestAddr := true; interfaceId := None; buffer := Some (replicate 1518 0);
     ethSocket := OpenSocket; subscriberList := Some [7] |}.
Definition sample_subscribers : subscribers :=
  {[ 7 := {| ethAddr := [1; 12; 205; 4; 0; 1]; appId := 0x4000; listener := Some 99 |} ]}.

Lemma sv_receiver_safe_witness :
  (exists b' r calls, tick sample_receiver sample_subscribers sample_frame = Some (set_buffer sample_receiver (Some b'), r, calls) /\
    wf_buf b' ETH_BUFFER_LENGTH /\ Forall (fun c => asdu_ok (snd c) /\ readable (snd c)) calls) /\
  ('(_, _, calls) ← tick sample_receiver sample_subscribers sample_frame;
   Some (map (fun c => (fst c, getSmpCnt (snd c), getINT32 (snd c) 0, getINT32 (snd c) 4)) calls)) =
    Some [(99, Some 256, Some 42, Some 0)].
Proof.
  split; [|vm_compute; reflexivity].
  apply (sv_receiver_safe sample_receiver sample_subscribers sample_frame [7] (replicate 1518 0)); try done.
  - constructor; [|constructor]. eexists. by split.
  - by apply (wf_buf_replicate 1518 0).
  - const_bytes.
Defined.

Definition sample_asdu : SVSubscriber_ASDU :=
  set_fields (empty_asdu [1; 2; 0x60; 0; 0; 0; 0x80; 0; 0; 0x2a]) None None (Some 2) None None None.

Lemma refrTm_equals_timestamp_witness :
  exists t ns, rds 8 (asdu sample_asdu) 2 = Some t /\ Timestamp_getTimeInNs t = Some ns /\
    getRefrTmAsNs sample_asdu = Some ns /\ getRefrTmAsMs sample_asdu = Some (ns / 1000000) /\
    decodeUtcTimeToNsTime (from (asdu sample_asdu) 2) = (q ← t.[7]; Some (ns, q)).
Proof.
  apply refrTm_equals_timestamp; [|done].
  assert (H : asdu_ok (empty_asdu [1; 2; 0x60; 0; 0; 0; 0x80; 0; 0; 0x2a])) by (apply empty_asdu_ok; solve_bytes).
  destruct H. constructor; try done. intros q [= <-]. cbn. lia.
Defined.

End SvSubscriber.
