(* ===== verification/SvExchange.v ===== *)
(** * From the sampled values publisher to the subscriber

    The composition of [sv_publisher.c] and [sv_subscriber.c]: what the listener of a
    subscriber reads from the frames of a publisher. *)

From S2P Require Import Prelude Alloc BerEncoder BerDecoder MmsValue IecCommon StringUtils GoosePublisher GooseSubscriber GooseReceiver GooseExchange SvPublisher SvSubscriber.

Module SvExchange.
Import Alloc MmsValue BerEncoder GooseExchange.
Import SvPublisher(sample, s_svID, s_datset, s_smpCnt, s_confRev, s_refrTm, s_smpSynch, s_smpRate, s_data, s_smpMod,
  s_gmIdentity, asdu_octets, asdus, sv_pdu, sv_frame, sv_header).
Import SvSubscriber(SVSubscriber, SVSubscriber_ASDU, SVReceiver, subscribers, asdu, svId, datSet, svIdSize, datSetSize,
  smpCnt, confRev, refrTm, smpSynch, smpMod, smpRate, dataBuffer, dataBufferLength, svIdBuf, datSetBuf,
  asduField, parseASDU_loop, parseASDU, empty_asdu, listener).

(** ** An ASDU is a sequence of elements *)

Definition elements : Type := list (Z * list Z).

Definition tlvs (l : elements) : list Z := concat ((fun e => enc_tlv (fst e) (snd e)) <$> l).

Definition opt_element (tag : Z) (o : option (list Z)) : elements :=
  match o with Some xs => [(tag, xs)] | None => [] end.

Definition fields (s : sample) : elements :=
  (0x80, s_svID s) :: opt_element 0x81 (s_datset s) ++ (0x82, be_bytes 2 (s_smpCnt s)) :: (0x83, be_bytes 4 (s_confRev s)) ::
  opt_element 0x84 (s_refrTm s) ++ (0x85, [s_smpSynch s]) :: opt_element 0x86 (be_bytes 2 <$> s_smpRate s) ++
  (0x87, s_data s) :: opt_element 0x88 (be_bytes 2 <$> s_smpMod s) ++ opt_element 0x89 (s_gmIdentity s).

Lemma tlvs_cons tag xs l : tlvs ((tag, xs) :: l) = enc_tlv tag xs ++ tlvs l.
Proof. done. Qed.

Lemma tlvs_app l1 l2 : tlvs (l1 ++ l2) = tlvs l1 ++ tlvs l2.
Proof. unfold tlvs. by rewrite fmap_app, concat_app. Qed.

Lemma tlvs_opt tag o : tlvs (opt_element tag o) = SvPublisher.opt_tlv tag o.
Proof. destruct o; [|done]. unfold tlvs. cbn. by rewrite app_nil_r. Qed.

Lemma asdu_fields s : asdu_octets s = tlvs (fields s).
Proof.
  unfold fields. repeat (rewrite tlvs_cons || rewrite tlvs_app). rewrite !tlvs_opt.
  unfold asdu_octets, SvPublisher.before_data, SvPublisher.before_synch, SvPublisher.before_tm, SvPublisher.before_cnt, SvPublisher.after_data.
  change (enc_tlv 0x82 (be_bytes 2 (s_smpCnt s))) with ([0x82; 2] ++ be_bytes 2 (s_smpCnt s)).
  change (enc_tlv 0x85 [s_smpSynch s]) with ([0x85; 1] ++ [s_smpSynch s]).
  change (enc_tlv 0x87 (s_data s)) with ((0x87 :: enc_length (zlen (s_data s))) ++ s_data s).
  by rewrite <- !app_assoc.
Qed.

(** ** The loop over the elements *)

(** The fields of an ASDU: a pointer and a length. *)
Definition field (tag : Z) (a : SVSubscriber_ASDU) : option (Z * Z) :=
  let fixed n p := (fun q => (q, n)) <$> p in
  if decide (tag = 0x80) then fixed (svIdSize a) (svId a)
  else if decide (tag = 0x81) then fixed (datSetSize a) (datSet a)
  else if decide (tag = 0x82) then fixed 2 (smpCnt a)
  else if decide (tag = 0x83) then fixed 4 (confRev a)
  else if decide (tag = 0x84) then fixed 8 (refrTm a)
  else if decide (tag = 0x85) then fixed 1 (smpSynch a)
  else if decide (tag = 0x86) then fixed 2 (smpRate a)
  else if decide (tag = 0x87) then fixed (dataBufferLength a) (dataBuffer a)
  else if decide (tag = 0x88) then fixed 1 (smpMod a)
  else None.

(** The lengths that [asduField] accepts. *)
Definition fits (tag n : Z) : Prop :=
  (tag = 0x80 -> n <= 129) /\ (tag = 0x81 -> n <= 129) /\ (tag = 0x82 -> n = 2) /\ (tag = 0x83 -> n = 4) /\
  (tag = 0x84 -> n = 8) /\ (tag = 0x85 -> n = 1) /\ (tag = 0x86 -> n = 2) /\ (tag = 0x88 -> n = 1).

Definition kept (a a' : SVSubscriber_ASDU) : Prop :=
  asdu a' = asdu a /\ svIdBuf a' = svIdBuf a /\ datSetBuf a' = datSetBuf a.

Lemma asduField_spec tag q n a :
  (fits tag n -> exists a', asduField tag q n a = Some a') /\
  (forall a', asduField tag q n a = Some a' ->
    fits tag n /\ kept a a' /\ (0x80 <= tag <= 0x88 -> field tag a' = Some (q, n)) /\
    forall tag', tag' <> tag -> field tag' a' = field tag' a).
Proof.
  unfold asduField, fits, kept.
  repeat (let H := fresh in case_decide as H; [subst tag|]);
    (split; [intros Hf; first [case_decide; [lia|by eexists] | by eexists]|]);
    intros a'; repeat case_decide; try done; intros [= <-];
    (split; [lia|]); (split; [done|]); (split; [intros Hr; first [lia | unfold field; repeat (case_decide; [try lia|try lia]); cbn; do 2 f_equal; lia]|]); intros tag' Hne;
    unfold field; repeat (case_decide; [try done; lia|]); done.
Qed.

Fixpoint fold_fields (p : Z) (l : elements) (a : SVSubscriber_ASDU) : option SVSubscriber_ASDU :=
  match l with
  | [] => Some a
  | (tag, xs) :: l =>
      a ← asduField tag (p + 1 + zlen (enc_length (zlen xs))) (zlen xs) a; fold_fields (p + zlen (enc_tlv tag xs)) l a
  end.

Lemma enc_tlv_parts tag xs : zlen (enc_tlv tag xs) = 1 + zlen (enc_length (zlen xs)) + zlen xs.
Proof. unfold enc_tlv. rewrite length_cons, length_app. lia. Qed.

Lemma parse_fold fuel b len l : forall p a, bytes_at b p (tlvs l) -> 0 <= p -> p + zlen (tlvs l) = len -> len - p < 65535 ->
  len - p < Z.of_nat fuel -> parseASDU_loop fuel b len p a = Some (fold_fields p l a).
Proof.
  revert fuel. induction l as [|[tag xs] l IH]; intros fuel p a Hat Hp He Hs Hf; (destruct fuel as [|fuel]; [lia|]).
  - cbn [parseASDU_loop fold_fields]. rewrite decide_False; [done|]. cbn in He. lia.
  - rewrite tlvs_cons in *. pose proof (enc_tlv_parts tag xs) as Hl. rewrite length_app in He.
    assert (E : BerDecoder.element_at b p len tag xs (tlvs l)) by (split_and!; [done|lia|done|rewrite length_app; lia]).
    destruct (BerDecoder.element_open _ _ _ _ _ _ E) as (q & [Ht Hd Hx Hq Hr He2]). cbn [parseASDU_loop].
    rewrite decide_True by lia. rewrite Ht. cbn [mbind option_bind]. rewrite Hd. cbn [mbind option_bind].
    rewrite !decide_False by lia. cbn [fold_fields].
    replace (p + 1 + zlen (enc_length (zlen xs))) with q by lia.
    replace (p + zlen (enc_tlv tag xs)) with (q + zlen xs) by lia.
    destruct (asduField tag q (zlen xs) a) as [a'|]; [|done]. cbn [mbind option_bind].
    apply IH; try done; lia.
Qed.

(** Without an element of a wrong length each field points to its octets. *)
Lemma fold_fields_spec b l : forall p a, NoDup (fst <$> l) -> bytes_at b p (tlvs l) ->
  match fold_fields p l a with
  | Some a' =>
      Forall (fun e => fits (fst e) (zlen (snd e))) l /\ kept a a' /\
      (forall tag xs, (tag, xs) ∈ l -> 0x80 <= tag <= 0x88 -> exists q, field tag a' = Some (q, zlen xs) /\ bytes_at b q xs) /\
      (forall tag, tag ∉ (fst <$> l) -> field tag a' = field tag a)
  | None => ~ Forall (fun e => fits (fst e) (zlen (snd e))) l
  end.
Proof.
  induction l as [|[tag xs] l IH]; intros p a Hnd Hat; cbn [fold_fields].
  { split; [constructor|]. split; [done|]. split; [|done]. intros ? ? []%elem_of_nil. }
  apply NoDup_cons in Hnd as [Hni Hnd]. rewrite tlvs_cons in Hat. apply bytes_at_app in Hat as [Hx Hat].
  set (q := p + 1 + zlen (enc_length (zlen xs))). destruct (asduField_spec tag q (zlen xs) a) as [Hyes Hall].
  destruct (asduField tag q (zlen xs) a) as [a1|]; cbn [mbind option_bind].
  2: { intros Hf. apply Forall_cons in Hf as [Hf _]. by destruct (Hyes Hf). }
  destruct (Hall a1 eq_refl) as (Hf & (K1 & K2 & K3) & Hp & Ho). specialize (IH (p + zlen (enc_tlv tag xs)) a1 Hnd Hat).
  destruct (fold_fields _ l a1) as [a'|].
  2: { intros Hc. apply IH. by apply Forall_cons in Hc as [_ Hc]. }
  destruct IH as (Hfs & (K1' & K2' & K3') & Hin & Hout). split; [by constructor|].
  split; [unfold kept; split_and!; congruence|]. split.
  - intros t ys [[= -> ->]|Hl]%elem_of_cons Hr; [|by apply Hin]. exists q. split.
    + rewrite Hout by done. by apply Hp.
    + unfold enc_tlv in Hx. cbn [bytes_at] in Hx. destruct Hx as [_ Hx]. apply bytes_at_app in Hx as [_ Hx]. exact Hx.
  - intros t [Hne Hl]%not_elem_of_cons. rewrite Hout by done. by apply Ho.
Qed.

(** ** What the listener reads *)

(** The samples of an application: every field has the width of its type. *)
Record sample_valid (s : sample) : Prop := {
  v_id : is_bytes (s_svID s);
  v_ds : is_bytes (default [] (s_datset s));
  v_rev : is_u32 (s_confRev s);
  v_tm : SvPublisher.sample_wf s;
  v_synch : is_u8 (s_smpSynch s);
  v_rate : is_u16 (default 0 (s_smpRate s));
  v_data : is_bytes (s_data s);
  v_gm : is_bytes (default [] (s_gmIdentity s));
}.

(** Names that are not too long, and no sample mode: the publisher writes it with two octets,
    and the subscriber drops an ASDU whose sample mode has not one octet. *)
Definition accepted (s : sample) : Prop :=
  zlen (s_svID s) <= 129 /\ zlen (default [] (s_datset s)) <= 129 /\ s_smpMod s = None.

#[export] Instance accepted_dec s : Decision (accepted s).
Proof. apply _. Defined.

Definition name_read (o : option (SVSubscriber_ASDU * option (list Z))) (name : list Z) : Prop :=
  exists a buf, o = Some (a, Some buf) /\ bytes_at buf 0 (name ++ [0]).

Record heard (a : SVSubscriber_ASDU) (s : sample) : Prop := {
  h_cnt : SvSubscriber.getSmpCnt a = Some (u16 (s_smpCnt s));
  h_rev : SvSubscriber.getConfRev a = Some (s_confRev s);
  h_synch : SvSubscriber.getSmpSynch a = Some (s_smpSynch s);
  h_id : name_read (SvSubscriber.getSvId a) (s_svID s);
  h_ds : match s_datset s with
         | Some d => SvSubscriber.hasDatSet a = true /\ name_read (SvSubscriber.getDatSet a) d
         | None => SvSubscriber.hasDatSet a = false
         end;
  h_tm : match s_refrTm s with
         | Some t => SvSubscriber.hasRefrTm a = true /\ SvSubscriber.getRefrTmAsNs a = IecCommon.Timestamp_getTimeInNs t
         | None => SvSubscriber.hasRefrTm a = false
         end;
  h_rate : match s_smpRate s with
           | Some r => SvSubscriber.hasSmpRate a = true /\ SvSubscriber.getSmpRate a = Some r
           | None => SvSubscriber.hasSmpRate a = false
           end;
  h_size : SvSubscriber.getDataSize a = zlen (s_data s);
  h_data : exists p, dataBuffer a = Some p /\ bytes_at (asdu a) p (s_data s);
}.

Lemma fields_distinct s : NoDup (fst <$> fields s).
Proof.
  unfold fields. destruct (s_datset s), (s_refrTm s), (s_smpRate s), (s_smpMod s), (s_gmIdentity s);
    apply (bool_decide_unpack _); by vm_compute.
Qed.

Lemma opt_Forall (P : Z * list Z -> Prop) tag o : Forall P (opt_element tag o) <-> forall xs, o = Some xs -> P (tag, xs).
Proof.
  destruct o as [xs|]; cbn [opt_element].
  - rewrite Forall_singleton. split; [by intros H ? [= <-]|intros H; by apply H].
  - split; [done|constructor].
Qed.

Lemma accepted_fits s : SvPublisher.sample_wf s ->
  accepted s <-> Forall (fun e => fits (fst e) (zlen (snd e))) (fields s).
Proof.
  intros Hw. unfold accepted, fields. repeat (rewrite Forall_cons || rewrite Forall_app || rewrite opt_Forall). cbn [fst snd].
  assert (F80 : fits 0x80 (zlen (s_svID s)) <-> zlen (s_svID s) <= 129) by (unfold fits; lia).
  assert (F88 : forall v, ~ fits 0x88 (zlen (be_bytes 2 v))) by (intros v; unfold fits; rewrite be_bytes_length; lia).
  rewrite F80. split.
  - intros (H1 & H2 & H3). rewrite H3. split_and!; try done; try (unfold fits; rewrite ?be_bytes_length; cbn [length]; lia).
    + intros xs E. rewrite E in H2. unfold fits. cbn in H2. lia.
    + intros xs E. pose proof (proj2 (Hw xs E)). unfold fits. lia.
    + intros xs. destruct (s_smpRate s); [|done]. intros [= <-]. unfold fits. rewrite be_bytes_length. lia.
  - intros (H1 & H2 & _ & _ & _ & _ & _ & _ & H8 & _). split; [done|]. split.
    + destruct (s_datset s) as [d|]; [|cbn; lia]. destruct (H2 d eq_refl) as (_ & Hd & _). by apply Hd.
    + destruct (s_smpMod s) as [v|]; [|done]. by destruct (F88 v), (H8 _ eq_refl).
Qed.

Lemma pointer_value a p xs : bytes_at (asdu a) p xs -> SvSubscriber.memcpy_reverse (length xs) a p 0 = Some (be_val xs).
Proof. intros H. by apply SvSubscriber.memcpy_reverse_at. Qed.

(** A field that was found, and its pointer. *)
Lemma field_pointer a tag q n : field tag a = Some (q, n) ->
  (tag = 0x80 -> svId a = Some q /\ svIdSize a = n) /\ (tag = 0x81 -> datSet a = Some q /\ datSetSize a = n) /\
  (tag = 0x82 -> smpCnt a = Some q) /\ (tag = 0x83 -> confRev a = Some q) /\ (tag = 0x84 -> refrTm a = Some q) /\
  (tag = 0x85 -> smpSynch a = Some q) /\ (tag = 0x86 -> smpRate a = Some q) /\
  (tag = 0x87 -> dataBuffer a = Some q /\ dataBufferLength a = n).
Proof.
  unfold field. intros H. split_and!; intros ->; revert H; repeat (case_decide; [try lia|try lia]); cbn;
    match goal with |- context [match ?x with Some _ => _ | None => _ end] => destruct x | |- context [?f <$> ?x] => destruct x end; by intros [= <- <-].
Qed.

Lemma field_absent a tag : field tag a = None ->
  (tag = 0x81 -> datSet a = None) /\ (tag = 0x84 -> refrTm a = None) /\ (tag = 0x86 -> smpRate a = None).
Proof.
  unfold field. intros H. split_and!; intros ->; revert H; repeat (case_decide; [try lia|try lia]); cbn;
    match goal with |- context [match ?x with Some _ => _ | None => _ end] => destruct x | |- context [?f <$> ?x] => destruct x end; done.
Qed.

(** A name is copied to the buffer of the ASDU and terminated. *)
Lemma copy_name b p name buf : bytes_at b p name -> is_bytes name -> zlen name <= 129 -> zlen buf = 130 ->
  exists buf', ('(b', _) ← copy_bytes (length name) b p buf 0; b'.[zlen name]:= 0) = Some buf' /\ bytes_at buf' 0 (name ++ [0]).
Proof.
  intros Hat Hb Hl Hbuf. rewrite (copy_bytes_at _ _ name) by done.
  pose proof (StringUtils.puts_mid [] buf name Hb ltac:(lia)) as E. cbn [app length] in E. change (Z.of_nat 0) with 0 in E. rewrite E.
  cbn [mbind option_bind]. destruct (drop (length name) buf) as [|x rest] eqn:Ed.
  { apply (f_equal length) in Ed. rewrite length_drop in Ed. cbn in Ed. lia. }
  rewrite GoosePublisher.wr_app. eexists. split; [done|]. rewrite cons_middle, app_assoc. apply (StringUtils.bytes_at_mid [] (name ++ [0]) rest).
Qed.

Lemma heard_of b a s : sample_valid s -> accepted s -> is_bytes b -> fold_fields 0 (fields s) (empty_asdu b) = Some a ->
  bytes_at b 0 (asdu_octets s) -> heard a s.
Proof.
  intros [Vid Vds Vrev Vtm Vsy Vrate Vdata Vgm] (A1 & A2 & A3) Hb E Hat. rewrite asdu_fields in Hat.
  pose proof (fold_fields_spec b (fields s) 0 (empty_asdu b) (fields_distinct s) Hat) as H. rewrite E in H.
  destruct H as (_ & (K1 & K2 & K3) & Hin & Hout). cbn in K1, K2, K3.
  assert (Hget : forall tag xs, (tag, xs) ∈ fields s -> 0x80 <= tag <= 0x88 -> exists q, field tag a = Some (q, zlen xs) /\ bytes_at (asdu a) q xs)
    by (by rewrite K1).
  clear Hin. unfold fields in Hget.
  destruct (Hget 0x82 (be_bytes 2 (s_smpCnt s))) as (qc & Fc & Bc); [set_solver|lia|].
  destruct (Hget 0x83 (be_bytes 4 (s_confRev s))) as (qr & Fr & Br); [set_solver|lia|].
  destruct (Hget 0x85 [s_smpSynch s]) as (qs & Fs & Bs); [set_solver|lia|].
  destruct (Hget 0x80 (s_svID s)) as (qi & Fi & Bi); [set_solver|lia|].
  destruct (Hget 0x87 (s_data s)) as (qd & Fd & Bd); [set_solver|lia|].
  apply field_pointer in Fc as (_ & _ & Fc & _), Fr as (_ & _ & _ & Fr & _), Fs as (_ & _ & _ & _ & _ & Fs & _),
    Fi as (Fi & _), Fd as (_ & _ & _ & _ & _ & _ & _ & Fd).
  destruct (Fi eq_refl) as [Pi Ni]. destruct (Fd eq_refl) as [Pd Nd].
  specialize (Fc eq_refl). specialize (Fr eq_refl). specialize (Fs eq_refl). clear Fi Fd.
  constructor.
  - unfold SvSubscriber.getSmpCnt, SvSubscriber.at_. rewrite Fc, Z.add_0_r. rewrite be_bytes_2 in Bc. destruct Bc as (-> & -> & _).
    cbn [mbind option_bind]. f_equal. unfold u16. zlia.
  - unfold SvSubscriber.getConfRev. rewrite Fr. change 4%nat with (length (be_bytes 4 (s_confRev s))).
    rewrite pointer_value, be_val_be_bytes by done. f_equal. apply Z.mod_small. exact Vrev.
  - unfold SvSubscriber.getSmpSynch, SvSubscriber.at_. rewrite Fs, Z.add_0_r. apply Bs.
  - unfold name_read, SvSubscriber.getSvId. rewrite Pi, Ni, Nat2Z.id.
    destruct (copy_name _ _ _ (svIdBuf a) Bi Vid A1 ltac:(by rewrite K2)) as (buf & Eb & Hbuf).
    destruct (copy_bytes _ _ _ _ _) as [[b1 p1]|]; [|done]. cbn [mbind option_bind] in *. rewrite Eb. by eexists _, _.
  - destruct (s_datset s) as [d|] eqn:Ed.
    + destruct (Hget 0x81 d) as (q & F & B); [set_solver|lia|]. apply field_pointer in F as (_ & F & _). destruct (F eq_refl) as [P N].
      unfold SvSubscriber.hasDatSet, name_read, SvSubscriber.getDatSet. rewrite P. split; [done|]. rewrite N, Nat2Z.id.
      destruct (copy_name _ _ _ (datSetBuf a) B Vds A2 ltac:(by rewrite K3)) as (buf & Eb & Hbuf).
      destruct (copy_bytes _ _ _ _ _) as [[b1 p1]|]; [|done]. cbn [mbind option_bind] in *. rewrite Eb. by eexists _, _.
    + assert (F : field 0x81 a = None).
      { rewrite Hout; [done|]. unfold fields. rewrite Ed.
        destruct (s_refrTm s), (s_smpRate s), (s_smpMod s), (s_gmIdentity s); apply (bool_decide_unpack _); by vm_compute. }
      apply field_absent in F as (F & _). unfold SvSubscriber.hasDatSet. by rewrite F.
  - destruct (s_refrTm s) as [t|] eqn:Et.
    + destruct (Hget 0x84 t) as (q & F & B); [set_solver|lia|]. apply field_pointer in F as (_ & _ & _ & _ & F & _).
      specialize (F eq_refl). unfold SvSubscriber.hasRefrTm, SvSubscriber.getRefrTmAsNs. rewrite F. split; [done|].
      destruct (Vtm t Et) as [_ Vl]. destruct (bytes_at_bound _ _ _ B) as [Hq _]; [by destruct t|].
      destruct (SvSubscriber.decodeUtcTime_at (asdu a) q t ltac:(by rewrite K1) Hq B Vl) as (ns & x & -> & _ & ->). done.
    + assert (F : field 0x84 a = None).
      { rewrite Hout; [done|]. unfold fields. rewrite Et.
        destruct (s_datset s), (s_smpRate s), (s_smpMod s), (s_gmIdentity s); apply (bool_decide_unpack _); by vm_compute. }
      apply field_absent in F as (_ & F & _). unfold SvSubscriber.hasRefrTm. by rewrite F.
  - destruct (s_smpRate s) as [r|] eqn:Er.
    + destruct (Hget 0x86 (be_bytes 2 r)) as (q & F & B); [set_solver|lia|]. apply field_pointer in F as (_ & _ & _ & _ & _ & _ & F & _).
      specialize (F eq_refl). unfold SvSubscriber.hasSmpRate, SvSubscriber.getSmpRate. rewrite F. split; [done|].
      change 2%nat with (length (be_bytes 2 r)). rewrite pointer_value, be_val_be_bytes by done. f_equal. apply Z.mod_small. exact Vrate.
    + assert (F : field 0x86 a = None).
      { rewrite Hout; [done|]. unfold fields. rewrite Er.
        destruct (s_datset s), (s_refrTm s), (s_smpMod s), (s_gmIdentity s); apply (bool_decide_unpack _); by vm_compute. }
      apply field_absent in F as (_ & _ & F). unfold SvSubscriber.hasSmpRate. by rewrite F.
  - done.
  - by exists qd.
Qed.

(** ** The frame *)

Lemma fields_bytes s : sample_valid s -> is_bytes (asdu_octets s).
Proof.
  intros [Vid Vds Vrev Vtm Vsy Vrate Vdata Vgm]. rewrite asdu_fields.
  assert (H : Forall (fun e => is_u8 (fst e) /\ is_bytes (snd e)) (fields s)).
  { unfold fields. repeat (rewrite Forall_cons || rewrite Forall_app || rewrite opt_Forall). cbn [fst snd].
    split_and!; try done; try apply be_bytes_bytes; try (intros xs E; split; [done|]).
    - by rewrite E in Vds.
    - apply (Vtm xs E).
    - by apply Forall_singleton.
    - destruct (s_smpRate s); [|done]. injection E as <-. apply be_bytes_bytes.
    - destruct (s_smpMod s); [|done]. injection E as <-. apply be_bytes_bytes.
    - by rewrite E in Vgm. }
  revert H. generalize (fields s). induction 1 as [|[tag xs] l [Ht Hx] _ IH]; [constructor|].
  rewrite tlvs_cons. apply Forall_app. split; [by apply enc_tlv_bytes|done].
Qed.

Lemma pdu_bytes ss : Forall sample_valid ss -> is_bytes (sv_pdu ss).
Proof.
  intros H. apply enc_tlv_bytes; [done|]. apply Forall_app; split; [by apply GoosePublisher.enc_uint32_tlv_bytes|].
  apply enc_tlv_bytes; [done|]. unfold asdus. induction H as [|s ss Hs _ IH]; [constructor|]. rewrite fmap_cons. cbn [concat].
  apply Forall_app. split; [|done]. apply enc_tlv_bytes; [done|]. by apply fields_bytes.
Qed.

(** The calls for an ASDU. *)
Definition received (parameter : Z) (s : sample) (calls : list (Z * SVSubscriber_ASDU)) : Prop :=
  if decide (accepted s) then exists a, calls = [(parameter, a)] /\ heard a s else calls = [].

Lemma parseASDU_received sub parameter b s : listener sub = Some parameter -> sample_valid s -> is_bytes b ->
  bytes_at b 0 (asdu_octets s) -> zlen (asdu_octets s) < 65535 ->
  exists calls, parseASDU sub b (zlen (asdu_octets s)) = Some calls /\ received parameter s calls.
Proof.
  intros El Hv Hb Hat Hl. unfold parseASDU. pose proof Hat as Hat'. rewrite asdu_fields in Hat' |- *. rewrite asdu_fields in Hl.
  rewrite (parse_fold _ b _ (fields s)) by (done || lia). cbn [mbind option_bind]. rewrite El. unfold received.
  pose proof (fold_fields_spec b (fields s) 0 (empty_asdu b) (fields_distinct s) Hat') as H.
  pose proof (accepted_fits s (v_tm _ Hv)) as Ha.
  destruct (fold_fields 0 (fields s) (empty_asdu b)) as [a|] eqn:E; eexists; (split; [done|]).
  - rewrite decide_True by tauto. exists a. split; [done|]. apply (heard_of b); tauto.
  - by rewrite decide_False by tauto.
Qed.

Lemma sequence_received sub parameter b len : listener sub = Some parameter -> is_bytes b ->
  forall ss fuel p, Forall sample_valid ss -> bytes_at b p (asdus ss) -> 0 <= p -> p + zlen (asdus ss) = len -> len - p < 65535 ->
  len - p < Z.of_nat fuel ->
  exists callss, SvSubscriber.parseSequenceOfASDU_loop fuel sub b len p = Some (concat callss) /\ Forall2 (received parameter) ss callss.
Proof.
  intros El Hb. induction ss as [|s ss IH]; intros fuel p Hv Hat Hp He Hs Hf; (destruct fuel as [|fuel]; [lia|]).
  - cbn in He. cbn [SvSubscriber.parseSequenceOfASDU_loop]. rewrite decide_False by lia. exists []. by split.
  - apply Forall_cons in Hv as [Hv Hvs]. assert (Ea : asdus (s :: ss) = enc_tlv 0x30 (asdu_octets s) ++ asdus ss) by done.
    rewrite Ea in *. pose proof (enc_tlv_parts 0x30 (asdu_octets s)) as Hl. rewrite length_app in He.
    assert (E : BerDecoder.element_at b p len 0x30 (asdu_octets s) (asdus ss))
      by (split_and!; [done|lia|done|rewrite length_app; lia]).
    destruct (BerDecoder.element_open _ _ _ _ _ _ E) as (q & [Ht Hd Hx Hq Hr He2]).
    cbn [SvSubscriber.parseSequenceOfASDU_loop]. rewrite decide_True by lia. rewrite Ht. cbn [mbind option_bind].
    rewrite Hd. cbn [mbind option_bind]. rewrite !decide_False by lia. rewrite decide_True by done.
    destruct (parseASDU_received sub parameter (from b q) s El Hv) as (calls & -> & Hc);
      [by apply from_bytes|by apply bytes_at_from; [lia|]|lia|].
    cbn [mbind option_bind]. destruct (IH fuel (q + zlen (asdu_octets s)) Hvs Hr) as (callss & -> & Hcs); [lia..|].
    cbn [mbind option_bind]. exists (calls :: callss). split; [done|by constructor].
Qed.

Lemma sv_payload_received sub parameter b ss : listener sub = Some parameter -> is_bytes b -> Forall sample_valid ss ->
  bytes_at b 0 (sv_pdu ss) -> zlen (sv_pdu ss) < 65535 ->
  exists callss, SvSubscriber.parseSVPayload sub b (zlen (sv_pdu ss)) = Some (concat callss) /\ Forall2 (received parameter) ss callss.
Proof.
  intros El Hb Hv Hat Hl. pose proof (enc_tlv_parts 0x60 (SvPublisher.sv_content ss)) as Hp. fold (sv_pdu ss) in Hp.
  pose proof (enc_tlv_parts 0x80 (enc_uint32 (zlen ss))) as H80. pose proof (enc_tlv_parts 0xa2 (asdus ss)) as Ha2.
  assert (Hc : SvPublisher.sv_content ss = enc_tlv 0x80 (enc_uint32 (zlen ss)) ++ enc_tlv 0xa2 (asdus ss) ++ []).
  { unfold SvPublisher.sv_content. by rewrite enc_uint32_tlv_eq, app_nil_r. }
  assert (Hcl := f_equal (fun l => zlen l) Hc). cbv beta in Hcl. rewrite !length_app in Hcl. cbn [length] in Hcl.
  assert (E0 : BerDecoder.element_at b 0 (zlen (sv_pdu ss)) 0x60 (SvPublisher.sv_content ss) []).
  { split_and!; [by rewrite app_nil_r|lia|done|rewrite app_nil_r; done]. }
  destruct (BerDecoder.element_open _ _ _ _ _ _ E0) as (q & [Ht Hd Hx Hq _ He]). cbn [length] in He.
  unfold SvSubscriber.parseSVPayload. rewrite decide_False by lia. rewrite Ht. cbn [mbind option_bind].
  rewrite decide_True by done. rewrite Hd. cbn [mbind option_bind]. rewrite !decide_False by lia.
  set (stop := q + zlen (SvPublisher.sv_content ss)). replace (stop - q) with (zlen (SvPublisher.sv_content ss)) by lia.
  assert (Hfu : exists f, S (Z.to_nat (zlen (SvPublisher.sv_content ss))) = S (S (S f)))
    by (exists (Z.to_nat (zlen (SvPublisher.sv_content ss)) - 2)%nat; lia).
  destruct Hfu as [f ->].
  rewrite Hc in Hx.
  assert (E1 : BerDecoder.element_at b q stop 0x80 (enc_uint32 (zlen ss)) (enc_tlv 0xa2 (asdus ss) ++ []))
    by (split_and!; [done|lia|lia|rewrite !length_app; cbn [length]; lia]).
  destruct (BerDecoder.element_open _ _ _ _ _ _ E1) as (q1 & [Ht1 Hd1 _ Hq1 Hr1 He1]). rewrite length_app in He1. cbn [length] in He1.
  cbn [SvSubscriber.parseSVPayload_loop]. rewrite decide_True by lia. rewrite Ht1. cbn [mbind option_bind]. rewrite Hd1.
  cbn [mbind option_bind]. rewrite !decide_False by lia. cbn [mbind option_bind].
  assert (E2 : BerDecoder.element_at b (q1 + zlen (enc_uint32 (zlen ss))) stop 0xa2 (asdus ss) [])
    by (split_and!; [done|lia|lia|rewrite length_app; cbn [length]; lia]).
  destruct (BerDecoder.element_open _ _ _ _ _ _ E2) as (q2 & [Ht2 Hd2 Hx2 Hq2 _ He2]). cbn [length] in He2.
  rewrite decide_True by lia. rewrite Ht2. cbn [mbind option_bind]. rewrite Hd2.
  cbn [mbind option_bind]. rewrite (decide_False (P := q2 < 0)) by lia. rewrite (decide_True (P := 0xa2 = 0xa2)) by done. unfold SvSubscriber.parseSequenceOfASDU.
  destruct (sequence_received sub parameter (from b q2) (zlen (asdus ss)) El ltac:(by apply from_bytes) ss
    (S (Z.to_nat (zlen (asdus ss)))) 0 Hv) as (callss & -> & Hcs); [by apply bytes_at_from; [lia|]|lia..|].
  cbn [mbind option_bind]. rewrite decide_False by lia. cbn [mbind option_bind]. rewrite !app_nil_r. by exists callss.
Qed.

Definition eth_frame (srcAddr : list Z) (p : GoosePublisher.CommParameters) (vlan : bool) (pdu rest : list Z) : list Z :=
  sv_header srcAddr p vlan ++ be_bytes 2 (zlen pdu + 8) ++ [0; 0; 0; 0] ++ pdu ++ rest.

(** The receiver finds the payload of a frame with the header of the publisher. *)
Lemma parseSVMessage_frame self subs srcAddr p (vlan : bool) pdu rest :
  GoosePublisher.parameters_ok p -> wf_buf srcAddr 6 -> zlen pdu + 8 < 65536 ->
  SvSubscriber.parseSVMessage self subs (eth_frame srcAddr p vlan pdu rest) (zlen (sv_header srcAddr p vlan) + 6 + zlen pdu) =
  SvSubscriber.handleSVApdu self subs (GoosePublisher.appId p) (pdu ++ rest) (zlen pdu) (eth_frame srcAddr p vlan pdu rest).
Proof.
  intros (Hpr & Hv & Ha & Hd & Hdl) [Hs Hsl] Hpdu.
  pose proof (u16_two_bytes (GoosePublisher.appId p) Ha) as Ea.
  pose proof (u16_two_bytes (zlen pdu + 8) ltac:(unfold_int; lia)) as El. unfold SvSubscriber.parseSVMessage.
  destruct p as [prio vid aid dst]. unfold eth_frame, sv_header in *.
  cbn [GoosePublisher.dstAddress GoosePublisher.appId GoosePublisher.vlanPriority GoosePublisher.vlanId] in *.
  rewrite !be_bytes_2. set (a1 := aid / 256 mod 256) in *. set (a2 := aid mod 256) in *.
  set (l1 := (zlen pdu + 8) / 256 mod 256) in *. set (l2 := (zlen pdu + 8) mod 256) in *.
  do 6 (destruct dst as [|? dst]; [simpl in Hdl; lia|]). destruct dst; [|simpl in Hdl; lia].
  do 6 (destruct srcAddr as [|? srcAddr]; [simpl in Hsl; lia|]). destruct srcAddr; [|simpl in Hsl; lia].
  rewrite decide_False by (rewrite !length_app; destruct vlan; cbn [length]; lia).
  destruct vlan; cbn [app]; read_known.
  - rewrite bool_decide_eq_true_2 by done. rewrite decide_False by (cbn [length]; lia). read_known.
    rewrite decide_False by tauto. read_known. rewrite decide_False by tauto. read_known. rewrite El, Ea.
    rewrite !decide_False by (cbn [length]; lia). replace (zlen pdu + 8 - 8) with (zlen pdu) by lia. done.
  - rewrite bool_decide_eq_false_2 by lia. rewrite decide_False by (intros [? _]; done). read_known.
    rewrite decide_False by tauto. read_known. rewrite decide_False by tauto. read_known. rewrite El, Ea.
    rewrite !decide_False by (cbn [length]; lia). replace (zlen pdu + 8 - 8) with (zlen pdu) by lia. done.
Qed.

(** The subscriber in the receiver's list that the frames of a publisher are for. *)
Definition subscribed (self : SVReceiver) (subs : subscribers) (p : GoosePublisher.CommParameters) (parameter : Z) : Prop :=
  exists pre id post sub, SvSubscriber.subscriberList self = Some (pre ++ id :: post) /\ subs !! id = Some sub /\
    SvSubscriber.appId sub = GoosePublisher.appId p /\ SvSubscriber.ethAddr sub = GoosePublisher.dstAddress p /\
    listener sub = Some parameter /\
    Forall (fun j => exists s, subs !! j = Some s /\ SvSubscriber.appId s <> GoosePublisher.appId p) pre.

Lemma findSubscriber_found self subs p pre id post sub rest :
  SvSubscriber.ethSocket self = SvSubscriber.OpenSocket -> subs !! id = Some sub -> SvSubscriber.appId sub = GoosePublisher.appId p ->
  SvSubscriber.ethAddr sub = GoosePublisher.dstAddress p -> zlen (GoosePublisher.dstAddress p) = 6 ->
  Forall (fun j => exists s, subs !! j = Some s /\ SvSubscriber.appId s <> GoosePublisher.appId p) pre ->
  SvSubscriber.findSubscriber self (pre ++ id :: post) subs (GoosePublisher.appId p) (GoosePublisher.dstAddress p ++ rest) = Some (Some sub).
Proof.
  intros Ho Es Ea Ed Hl. induction 1 as [|j pre (sj & Ej & Hne) _ IH]; cbn [app SvSubscriber.findSubscriber].
  - rewrite Es. cbn [mbind option_bind]. rewrite decide_True by done. destruct (SvSubscriber.checkDestAddr self); [|done].
    rewrite Ho, decide_True by done. rewrite Ed, memcmp_same; [done|rewrite length_app; lia|lia|].
    rewrite take_app_le by lia. done.
  - rewrite Ej. cbn [mbind option_bind]. by rewrite decide_False by done.
Qed.

Lemma frame_received self subs srcAddr p (vlan : bool) parameter b ss :
  SvSubscriber.ethSocket self = SvSubscriber.OpenSocket -> SvSubscriber.buffer self = Some b ->
  wf_buf b SvSubscriber.ETH_BUFFER_LENGTH -> subscribed self subs p parameter ->
  GoosePublisher.parameters_ok p -> wf_buf srcAddr 6 -> Forall sample_valid ss ->
  zlen (sv_frame (sv_header srcAddr p vlan) ss) <= SvSubscriber.ETH_BUFFER_LENGTH ->
  exists b' callss, SvSubscriber.tick self subs (sv_frame (sv_header srcAddr p vlan) ss) =
      Some (SvSubscriber.set_buffer self (Some b'), true, concat callss) /\ Forall2 (received parameter) ss callss.
Proof.
  intros Ho Eb [Hbb Hbl] (pre & id & post & sub & El & Es & Ea & Ed & Elis & Hpre) Hp Hs Hv Hl.
  pose proof Hp as (Hpr & Hvid & Happ & [Hdb Hdl]). destruct Hs as [Hsb Hsl].
  pose proof (pdu_bytes ss Hv) as Hpb. pose proof (SvPublisher.sv_frame_length (sv_header srcAddr p vlan) ss) as Hfl.
  unfold SvSubscriber.ETH_BUFFER_LENGTH in *. set (frame := sv_frame (sv_header srcAddr p vlan) ss) in *.
  assert (Hhb : is_bytes (sv_header srcAddr p vlan)).
  { unfold sv_header. repeat (apply Forall_app; split); try done; try apply be_bytes_bytes; [|SvPublisher.octets].
    destruct vlan; [SvPublisher.octets|constructor]. }
  assert (Hfb : is_bytes frame).
  { unfold frame, sv_frame. apply Forall_app. split; [done|]. apply Forall_app. split; [apply be_bytes_bytes|].
    apply Forall_app. split; [SvPublisher.octets|done]. }
  unfold SvSubscriber.tick. rewrite Ho, decide_True by (rewrite Hfl; lia). rewrite Eb. cbn [mbind option_bind].
  rewrite (copy_bytes_at _ _ frame) by apply bytes_at_0.
  pose proof (StringUtils.puts_mid [] b frame Hfb ltac:(lia)) as E. cbn [app length] in E. change (Z.of_nat 0) with 0 in E. rewrite E.
  cbn [mbind option_bind]. set (rest := drop (length frame) b).
  assert (Hf : frame ++ rest = eth_frame srcAddr p vlan (sv_pdu ss) rest) by (unfold frame, sv_frame, eth_frame; by rewrite <- !app_assoc).
  rewrite Hf, Hfl, parseSVMessage_frame by (done || lia). unfold SvSubscriber.handleSVApdu. rewrite El. cbn [mbind option_bind].
  assert (Hd : exists r, eth_frame srcAddr p vlan (sv_pdu ss) rest = GoosePublisher.dstAddress p ++ r)
    by (unfold eth_frame, sv_header; rewrite <- !app_assoc; by eexists).
  destruct Hd as [r Hd]. rewrite Hd, (findSubscriber_found self subs p pre id post sub r) by done. cbn [mbind option_bind].
  destruct (sv_payload_received sub parameter (sv_pdu ss ++ rest) ss Elis) as (callss & -> & Hc).
  - apply Forall_app. split; [done|]. by apply Forall_drop.
  - done.
  - apply (StringUtils.bytes_at_mid []).
  - lia.
  - cbn [mbind option_bind]. rewrite <- Hd, <- Hf. by exists (frame ++ rest), callss.
Qed.

(** ** Samples stay valid *)

Lemma store_valid i xs s s' : SvPublisher.store i xs s = Some s' -> is_bytes xs -> sample_valid s -> sample_valid s'.
Proof.
  unfold SvPublisher.store. case_decide; [|done]. intros [= <-] Hx []. constructor; try done. cbn.
  apply Forall_app. split; [by apply Forall_take|]. apply Forall_app. split; [done|]. by apply Forall_drop.
Qed.

Lemma effect_valid c s s' : SvPublisher.effect c s = Some s' -> sample_valid s -> sample_valid s'.
Proof.
  intros E Hs. pose proof (SvPublisher.command_implements c s s' (v_tm _ Hs) E) as [_ Hw].
  destruct c; cbn [SvPublisher.effect] in E; repeat case_decide; try done;
    try (eapply store_valid; [exact E| |done]; try apply be_bytes_bytes; try (by SvPublisher.octets)).
  all: try (by injection E as <-; destruct Hs; constructor).
  - destruct H. by apply Forall_reverse.
  - destruct H. by apply Forall_reverse.
  - by destruct H.
  - injection E as <-. destruct Hs. constructor; try done. cbn. apply u8_range.
Qed.

Lemma effects_valid ops : forall ss ss', SvPublisher.effects ops ss = Some ss' -> Forall sample_valid ss -> Forall sample_valid ss'.
Proof.
  induction ops as [|[i c] ops IH]; intros ss ss' E Hv; [by injection E as <-|]. cbn [SvPublisher.effects] in E.
  destruct (ss !! i) as [s|] eqn:Es; [|done]. cbn [mbind option_bind] in E.
  destruct (SvPublisher.effect c s) as [s'|] eqn:Ec; [|done]. cbn [mbind option_bind] in E.
  eapply IH; [exact E|]. apply Forall_insert; [done|]. eapply effect_valid; [exact Ec|].
  rewrite Forall_forall in Hv. apply Hv. by eapply list_elem_of_lookup_2.
Qed.

Lemma laid_out_valid a s : SvPublisher.asdu_wf a -> SvPublisher.laid_out a s -> sample_valid s.
Proof.
  intros [Wid Wds Wsz Wrev [Wg _] Wcnt Wsy Wrt Wmd] (tm & data & -> & Ht & Hd & Hb). constructor; try done; cbn.
  - intros t. cbn. destruct (SvPublisher.hasRefrTm a); [|done]. by intros [= <-].
  - destruct (SvPublisher.hasSmpRate a); [done|]. cbn. unfold_int. lia.
  - by destruct (SvPublisher.hasGmIdentity a); [|constructor].
Qed.

(** ** End to end *)

Lemma stored_read i xs s s' a : SvPublisher.store i xs s = Some s' -> heard a s' -> xs <> [] ->
  SvSubscriber.data_at (zlen xs) a i = Some (be_val xs) /\
  exists p, dataBuffer a = Some p /\ bytes_at (asdu a) (p + i) xs /\ 0 <= i /\ zlen xs <= dataBufferLength a - i.
Proof.
  unfold SvPublisher.store. case_decide as Hi; [|done]. intros [= <-] Hh Hne. destruct (h_data _ _ Hh) as (p & Ep & Hat).
  pose proof (h_size _ _ Hh) as Hsz. unfold SvSubscriber.getDataSize in Hsz. cbn in Hat, Hsz.
  apply bytes_at_app in Hat as [_ Hat]. apply bytes_at_app in Hat as [Hat _].
  rewrite !length_app, length_take, length_drop in Hsz. rewrite length_take in Hat.
  replace (p + Z.of_nat (Z.to_nat i `min` length (s_data s))) with (p + i) in Hat by lia.
  unfold SvSubscriber.data_at. rewrite decide_False by lia. rewrite Ep. cbn [mbind option_bind]. rewrite Nat2Z.id. split.
  - by apply pointer_value.
  - exists p. split_and!; [done|done|lia|lia].
Qed.

(** What the readers give after a command. *)
Definition read_back (c : SvPublisher.command) (s : sample) (a : SVSubscriber_ASDU) : Prop :=
  match c with
  | SvPublisher.SetINT8 i v => SvSubscriber.getINT8 a i = Some (s8 v)
  | SvPublisher.SetINT32 i v => SvSubscriber.getINT32 a i = Some (s32 v)
  | SvPublisher.SetINT64 i v => SvSubscriber.getINT64 a i = Some (s64 v)
  | SvPublisher.SetFLOAT i v => SvSubscriber.getFLOAT32 a i = Some (be_val (reverse v))
  | SvPublisher.SetFLOAT64 i v => SvSubscriber.getFLOAT64 a i = Some (be_val (reverse v))
  | SvPublisher.SetTimestamp i v => SvSubscriber.getTimestamp a i = Some v
  | SvPublisher.SetQuality i v => SvSubscriber.getQuality a i = Some (u16 v)
  | SvPublisher.SetSmpCnt v => SvSubscriber.getSmpCnt a = Some (u16 v)
  | SvPublisher.IncreaseSmpCnt => SvSubscriber.getSmpCnt a = Some (u16 (Z.rem (s_smpCnt s + 1) (SvPublisher.s_limit s)))
  | SvPublisher.SetSmpSynch v => SvSubscriber.getSmpSynch a = Some (u8 v)
  | SvPublisher.SetRefrTmByTimestamp v =>
      s_refrTm s <> None -> SvSubscriber.getRefrTmAsNs a = IecCommon.Timestamp_getTimeInNs v
  | _ => True
  end.


(** C3: refinement.  A frame that a publisher sends is heard by the subscriber it is for:
    for every configuration whose frame fits the buffer, after every sequence of commands that the
    contract allows, the receiver calls the listener once for every ASDU with the sample
    that the contract gives, in order; an ASDU with a sample mode or with a name of more than
    129 octets is dropped. *)
Theorem sampled_values_received srcAddr p (vlan : bool) self rcv subs parameter b :
  GoosePublisher.parameters_ok p -> wf_buf srcAddr 6 ->
  SvPublisher.configured (sv_header srcAddr p vlan) self ->
  SvPublisher.frame_size (sv_header srcAddr p vlan) (SvPublisher.asduList self) <= SvPublisher.SV_MAX_MESSAGE_SIZE ->
  SvSubscriber.ethSocket rcv = SvSubscriber.OpenSocket -> SvSubscriber.buffer rcv = Some b ->
  wf_buf b SvSubscriber.ETH_BUFFER_LENGTH -> subscribed rcv subs p parameter ->
  exists self1 ss, SvPublisher.setupComplete self = Some self1 /\ Forall2 SvPublisher.laid_out (SvPublisher.asduList self) ss /\
    forall ops ss', SvPublisher.effects ops ss = Some ss' ->
    exists self2 frame b' callss, SvPublisher.commands ops self1 = Some self2 /\
      SvPublisher.publish self2 = Some (Some frame) /\
      SvSubscriber.tick rcv subs frame = Some (SvSubscriber.set_buffer rcv (Some b'), true, concat callss) /\
      Forall2 (received parameter) ss' callss.
Proof.
  intros Hp Hs Hc Hfit Ho Eb Wb Hsub. apply SvPublisher.configured_configuring in Hc.
  destruct (SvPublisher.setup_spec _ _ (SvPublisher.configuring_prepared _ _ Hc Hfit) Hfit) as (self1 & ss & E & Hlo & Hh).
  exists self1, ss. split; [done|]. split; [done|]. intros ops ss' Eo.
  assert (Hv : Forall sample_valid ss).
  { pose proof (SvPublisher.cf_asdus _ _ Hc) as Hall. clear -Hlo Hall. induction Hlo as [|a s l ss Has _ IH]; [constructor|].
    apply Forall_cons in Hall as [[Ha _] Hl]. constructor; [by eapply laid_out_valid|by apply IH]. }
  pose proof (effects_valid _ _ _ Eo Hv) as Hv'.
  destruct (SvPublisher.commands_hold _ ops self1 ss ss' Hh) as (self2 & E2 & H2); [|done|].
  { eapply Forall_impl; [exact Hv|]. by intros s []. }
  assert (Hsize : zlen (sv_frame (sv_header srcAddr p vlan) ss') <= SvSubscriber.ETH_BUFFER_LENGTH).
  { destruct (SvPublisher.ho_frame _ _ _ H2) as [tail Hf]. pose proof (SvPublisher.ho_size _ _ _ H2) as Hz. rewrite Hf, length_app in Hz.
    unfold SvSubscriber.ETH_BUFFER_LENGTH, SvPublisher.SV_MAX_MESSAGE_SIZE in *. lia. }
  destruct (frame_received rcv subs srcAddr p vlan parameter b ss') as (b' & callss & Et & Hr); try done.
  exists self2, (sv_frame (sv_header srcAddr p vlan) ss'), b', callss. split_and!; try done. by apply SvPublisher.holds_publish.
Qed.

Definition w_receiver : SVReceiver :=
  {| SvSubscriber.running := true; SvSubscriber.stopped := false; SvSubscriber.checkDestAddr := true;
     SvSubscriber.interfaceId := None; SvSubscriber.buffer := Some (replicate 1518 0);
     SvSubscriber.ethSocket := SvSubscriber.OpenSocket; SvSubscriber.subscriberList := Some [7] |}.
Definition w_subscribers : subscribers :=
  {[ 7 := {| SvSubscriber.ethAddr := [0x01; 0x0c; 0xcd; 0x01; 0x00; 0x01]; SvSubscriber.appId := 0x4000;
             SvSubscriber.listener := Some 99 |} ]}.

Lemma sampled_values_received_witness :
  exists self, SvPublisher.w_self = Some self /\
  exists self1 ss, SvPublisher.setupComplete self = Some self1 /\ Forall2 SvPublisher.laid_out (SvPublisher.asduList self) ss /\
    forall ops ss', SvPublisher.effects ops ss = Some ss' ->
    exists self2 frame b' callss, SvPublisher.commands ops self1 = Some self2 /\
      SvPublisher.publish self2 = Some (Some frame) /\
      SvSubscriber.tick w_receiver w_subscribers frame = Some (SvSubscriber.set_buffer w_receiver (Some b'), true, concat callss) /\
      Forall2 (received 99) ss' callss.
Proof.
  destruct SvPublisher.w_self_configured as (self & E & Hc & Hf). exists self. split; [exact E|].
  apply (sampled_values_received [1; 2; 3; 4; 5; 6] SvPublisher.w_params true self w_receiver w_subscribers 99 (replicate 1518 0));
    try done.
  - unfold GoosePublisher.parameters_ok. cbn. split_and!; try (unfold_int; lia). split; [by repeat constructor|done].
  - split; [by repeat constructor|done].
  - by apply (wf_buf_replicate 1518 0).
  - exists [], 7, [], {| SvSubscriber.ethAddr := [0x01; 0x0c; 0xcd; 0x01; 0x00; 0x01]; SvSubscriber.appId := 0x4000;
                         SvSubscriber.listener := Some 99 |}.
    by split_and!.
Defined.

(** Seen on the frame: the second of two ASDUs has a sample mode and is dropped. *)
Example smp_mod_dropped :
  (self ← SvPublisher.w_created;
   r ← SvPublisher.addASDU self [65] None 1 [true]; r ← SvPublisher.addASDU (fst r) [66] None 1 [true];
   self ← SvPublisher.on_asdu (fst r) 1 (SvPublisher.setSmpMod 1);
   self ← SvPublisher.on_asdu self 0 (SvPublisher.add_size 4); self ← SvPublisher.setupComplete self;
   self ← SvPublisher.on_asdu self 0 (SvPublisher.setINT32 0 (-5));
   frame ← SvPublisher.publish self;
   '(_, _, calls) ← SvSubscriber.tick w_receiver w_subscribers (default [] frame);
   Some (map (fun c => (fst c, SvSubscriber.getINT32 (snd c) 0)) calls)) = Some [(99, Some (-5))].
Proof. by vm_compute. Qed.

Definition w_sample : sample :=
  {| s_svID := [65]; s_datset := None; s_smpCnt := 7; SvPublisher.s_limit := 4000; s_confRev := 1; s_refrTm := None;
     s_smpSynch := 2; s_smpRate := None; s_data := [0; 0; 0; 0]; s_smpMod := None; s_gmIdentity := None |}.
Definition w_after : sample := SvPublisher.with_data w_sample [255; 255; 255; 251].
Definition w_asdu : SVSubscriber_ASDU :=
  default (empty_asdu []) (fold_fields 0 (fields w_after) (empty_asdu (asdu_octets w_after))).


End SvExchange.
