(* ===== verification/ServerCommon.v ===== *)
(** * What the services of the server share

    The errors of data accesses ([src/mms/inc/mms_common.h]), the types and errors of services
    ([src/iec61850/inc_private/mms_mapping_internal.h], [src/iec61850/inc/iec61850_common.h]) and
    their relation ([src/iec61850/server/impl/ied_server.c]), access to the parts of values and of
    the names of variables. *)

From S2P Require Import Prelude MmsValue StringUtils.

Module ServerCommon.
Import MmsValue.
Import StringUtils (strchr).

Definition DATA_ACCESS_ERROR_NO_RESPONSE : Z := -2.
Definition DATA_ACCESS_ERROR_SUCCESS : Z := -1.
Definition DATA_ACCESS_ERROR_TEMPORARILY_UNAVAILABLE : Z := 2.
Definition DATA_ACCESS_ERROR_OBJECT_ACCESS_DENIED : Z := 3.
Definition DATA_ACCESS_ERROR_TYPE_INCONSISTENT : Z := 7.
Definition DATA_ACCESS_ERROR_OBJECT_ATTRIBUTE_INCONSISTENT : Z := 8.
Definition DATA_ACCESS_ERROR_OBJECT_NONE_EXISTENT : Z := 10.
Definition DATA_ACCESS_ERROR_OBJECT_VALUE_INVALID : Z := 11.
Definition DATA_ACCESS_ERROR_UNKNOWN : Z := 12.

Definition IEC61850_SERVICE_TYPE_UNKOWN : Z := 0.
Definition IEC61850_SERVICE_TYPE_SET_BRCB_VALUES : Z := 24.
Definition IEC61850_SERVICE_TYPE_SET_URCB_VALUES : Z := 26.
Definition IEC61850_SERVICE_TYPE_SELECT : Z := 43.
Definition IEC61850_SERVICE_TYPE_SELECT_WITH_VALUES : Z := 44.
Definition IEC61850_SERVICE_TYPE_CANCEL : Z := 45.
Definition IEC61850_SERVICE_TYPE_OPERATE : Z := 46.
Definition IEC61850_SERVICE_TYPE_COMMAND_TERMINATION : Z := 47.
Definition IEC61850_SERVICE_TYPE_TIME_ACTIVATED_OPERATE : Z := 48.
Definition IEC61850_SERVICE_TYPE_INTERNAL_CHANGE : Z := 54.

Definition IEC61850_SERVICE_ERROR_NO_ERROR : Z := 0.
Definition IEC61850_SERVICE_ERROR_INSTANCE_NOT_AVAILABLE : Z := 1.
Definition IEC61850_SERVICE_ERROR_INSTANCE_IN_USE : Z := 2.
Definition IEC61850_SERVICE_ERROR_ACCESS_VIOLATION : Z := 3.
Definition IEC61850_SERVICE_ERROR_ACCESS_NOT_ALLOWED_IN_CURRENT_STATE : Z := 4.
Definition IEC61850_SERVICE_ERROR_PARAMETER_VALUE_INAPPROPRIATE : Z := 5.
Definition IEC61850_SERVICE_ERROR_PARAMETER_VALUE_INCONSISTENT : Z := 6.
Definition IEC61850_SERVICE_ERROR_INSTANCE_LOCKED_BY_OTHER_CLIENT : Z := 8.
Definition IEC61850_SERVICE_ERROR_CONTROL_MUST_BE_SELECTED : Z := 9.
Definition IEC61850_SERVICE_ERROR_FAILED_DUE_TO_SERVER_CONSTRAINT : Z := 12.

Definition private_IedServer_convertMmsDataAccessErrorToServiceError (mmsError : Z) : Z :=
  if decide (mmsError = DATA_ACCESS_ERROR_SUCCESS) then IEC61850_SERVICE_ERROR_NO_ERROR
  else if decide (mmsError = DATA_ACCESS_ERROR_TEMPORARILY_UNAVAILABLE)
    then IEC61850_SERVICE_ERROR_INSTANCE_LOCKED_BY_OTHER_CLIENT
  else if decide (mmsError = DATA_ACCESS_ERROR_OBJECT_ACCESS_DENIED) then IEC61850_SERVICE_ERROR_ACCESS_VIOLATION
  else if decide (mmsError = DATA_ACCESS_ERROR_OBJECT_VALUE_INVALID) then IEC61850_SERVICE_ERROR_PARAMETER_VALUE_INAPPROPRIATE
  else if decide (mmsError = DATA_ACCESS_ERROR_TYPE_INCONSISTENT \/ mmsError = DATA_ACCESS_ERROR_OBJECT_ATTRIBUTE_INCONSISTENT)
    then IEC61850_SERVICE_ERROR_PARAMETER_VALUE_INCONSISTENT
  else if decide (mmsError = DATA_ACCESS_ERROR_OBJECT_NONE_EXISTENT) then IEC61850_SERVICE_ERROR_INSTANCE_NOT_AVAILABLE
  else IEC61850_SERVICE_ERROR_FAILED_DUE_TO_SERVER_CONSTRAINT.

(** The accessors read the union of the value without a look at its type. *)
Definition bitOf (v : option MmsValue) (i : Z) : option bool :=
  match v with Some (MmsBitString size buf) => getBitStringBit size buf i | _ => None end.
Definition booleanOf (v : option MmsValue) : option bool :=
  match v with Some (MmsBoolean b) => Some b | _ => None end.
Definition utcTimeOf (v : option MmsValue) : option Z :=
  match v with Some (MmsUtcTime t) => getUtcTimeInMs t | _ => None end.

(** ** Names of variables *)

Definition MmsMapping_getNextNameElement (buf : list Z) (name : Z) : option (option Z) :=
  separator ← strchr buf name 36;
  match separator with
  | None => Some None
  | Some separator =>
      x ← buf.[separator + 1];
      Some (if decide (x = 0) then None else Some (separator + 1))
  end.

End ServerCommon.
