(* ===== verification/ReportBuffer.v ===== *)
(** * The report buffer

    [src/iec61850/server/mms_mapping/reporting.c] and [reporting.h]: the reports of a report
    control block wait in one block of memory.  The entries are linked in the order of the
    reports; new ones are placed behind the last one or, at the end of the block, at its
    beginning, where they displace the oldest ones.  The block is a list of octets, and the
    headers of the entries are octets in it; a pointer is an address, and [NULL] is 0. *)

From stdpp Require Import list.
From S2P Require Import Prelude Alloc.

Module ReportBuffer.
Import Alloc.
#[local] Open Scope alloc_scope.

Record ReportBuffer := {
  memoryBlock : Z;
  memory : list Z;
  memoryBlockSize : Z;
  reportsCount : Z;
  oldestReport : Z;
  lastEnqueuedReport : Z;
  nextToTransmit : Z;
  isOverflow : bool
}.

Definition set_memory (self : ReportBuffer) (m : list Z) : ReportBuffer :=
  {| memoryBlock := memoryBlock self; memory := m; memoryBlockSize := memoryBlockSize self;
     reportsCount := reportsCount self; oldestReport := oldestReport self;
     lastEnqueuedReport := lastEnqueuedReport self; nextToTransmit := nextToTransmit self;
     isOverflow := isOverflow self |}.

Definition set_queue (self : ReportBuffer) (count oldest last next : Z) (overflow : bool) : ReportBuffer :=
  {| memoryBlock := memoryBlock self; memory := memory self; memoryBlockSize := memoryBlockSize self;
     reportsCount := count; oldestReport := oldest; lastEnqueuedReport := last; nextToTransmit := next;
     isOverflow := overflow |}.

Definition set_next (self : ReportBuffer) (next : Z) : ReportBuffer :=
  set_queue self (reportsCount self) (oldestReport self) (lastEnqueuedReport self) next (isOverflow self).
Definition set_oldest (self : ReportBuffer) (oldest : Z) : ReportBuffer :=
  set_queue self (reportsCount self) oldest (lastEnqueuedReport self) (nextToTransmit self) (isOverflow self).
Definition set_last (self : ReportBuffer) (last : Z) : ReportBuffer :=
  set_queue self (reportsCount self) (oldestReport self) last (nextToTransmit self) (isOverflow self).
Definition set_count (self : ReportBuffer) (n : Z) : ReportBuffer :=
  set_queue self n (oldestReport self) (lastEnqueuedReport self) (nextToTransmit self) (isOverflow self).

(** [mem]: what the memory from [GLOBAL_MALLOC] holds, [base]: its address. *)
Definition create (bufferSize base : Z) (mem : list Z) : alloc (option ReportBuffer) :=
  ok <~ malloc;
  if (ok : bool) then
    block <~ malloc;
    m_ret (if (block : bool) then
             Some {| memoryBlock := base; memory := mem; memoryBlockSize := bufferSize; reportsCount := 0;
                     oldestReport := 0; lastEnqueuedReport := 0; nextToTransmit := 0; isOverflow := true |}
           else None)
  else m_ret None.

(** ** Entries in the block

    [struct sReportBufferEntry] as the compiler lays it out: the octets of [entryId],
    [timeOfEntry] at 8, the bit fields [entryLength] (the lower 30 bits) and [flags] at 16,
    and [next] at 24. *)

Definition sizeof_entry : Z := 32.

Definition le_val (xs : list Z) : Z := be_val (reverse xs).

(** [n] octets at the pointer [p] *)
Definition load (n : nat) (self : ReportBuffer) (p : Z) : option (list Z) := rds n (memory self) (p - memoryBlock self).
Definition store (self : ReportBuffer) (p : Z) (xs : list Z) : option ReportBuffer :=
  '(m, _) ← puts (memory self) (p - memoryBlock self) xs; Some (set_memory self m).

Definition entryId (self : ReportBuffer) (p : Z) : option (list Z) := load 8 self p.
Definition timeOfEntry (self : ReportBuffer) (p : Z) : option Z := le_val <$> load 8 self (p + 8).
Definition next (self : ReportBuffer) (p : Z) : option Z := le_val <$> load 8 self (p + 24).
Definition bitfields (self : ReportBuffer) (p : Z) : option Z := le_val <$> load 4 self (p + 16).
Definition flags (self : ReportBuffer) (p : Z) : option Z := w ← bitfields self p; Some (w / 1073741824).
Definition entryLength (self : ReportBuffer) (p : Z) : option Z :=
  w ← bitfields self p; Some ((w + 536870912) mod 1073741824 - 536870912).

Definition link (self : ReportBuffer) (p q : Z) : option ReportBuffer := store self (p + 24) (le_bytes 8 q).
Definition set_flags (self : ReportBuffer) (p f : Z) : option ReportBuffer :=
  w ← bitfields self p; store self (p + 16) (le_bytes 4 (w mod 1073741824 + f * 1073741824)).
Definition set_entryLength (self : ReportBuffer) (p n : Z) : option ReportBuffer :=
  w ← bitfields self p; store self (p + 16) (le_bytes 4 (w / 1073741824 * 1073741824 + n mod 1073741824)).

(** [MemoryAllocator_getAlignedSize] *)
Definition getAlignedSize (size : Z) : Z := if decide (size mod 8 > 0) then 8 * ((size + 8 - 1) / 8) else size.

(** ** Operations *)

Definition purge (self : ReportBuffer) : ReportBuffer := set_queue self 0 0 0 0 (isOverflow self).

Definition isGI (f : Z) : bool := bool_decide (Z.land f 2 <> 0).

Fixpoint removeAllGIReports_loop (fuel : nat) (self : ReportBuffer) (currentReport lastReport : Z) : option ReportBuffer :=
  match fuel with
  | O => None
  | S fuel =>
      if decide (currentReport <> 0) then
        f ← flags self currentReport;
        '(self, lastReport) ←
          (if isGI f then
             n ← next self currentReport;
             '(self, lastReport) ←
               (if decide (currentReport = oldestReport self) then Some (set_oldest self n, lastReport)
                else if decide (lastReport <> 0) then self ← link self lastReport n; Some (self, lastReport)
                else Some (self, currentReport));
             let self := set_count self (reportsCount self - 1) in
             self ← (if decide (nextToTransmit self = currentReport) then n ← next self currentReport; Some (set_next self n)
                     else Some self);
             let self :=
               if decide (lastEnqueuedReport self = currentReport) then
                 if decide (lastReport <> 0) then set_last self lastReport else set_last self (oldestReport self)
               else self in
             Some (self, lastReport)
           else Some (self, currentReport));
        n ← next self currentReport;
        removeAllGIReports_loop fuel self n lastReport
      else Some self
  end.

Definition removeAllGIReports (self : ReportBuffer) : option ReportBuffer :=
  self ← removeAllGIReports_loop (S (S (Z.to_nat (memoryBlockSize self)))) self (oldestReport self) 0;
  Some (if decide (oldestReport self = 0) then set_last self 0 else self).

(** The oldest report is dropped; the result says whether it had still to be sent. *)
Definition remove_oldest (self : ReportBuffer) : option (ReportBuffer * bool) :=
  n ← next self (oldestReport self);
  let unsent := bool_decide (nextToTransmit self = oldestReport self) in
  Some (set_queue self (reportsCount self - 1) n (lastEnqueuedReport self)
          (if unsent then n else nextToTransmit self) (if unsent then true else isOverflow self), unsent).

(** The loops that drop reports while there are some with [cond]. *)
Fixpoint remove_while (fuel : nat) (cond : Z -> bool) (self : ReportBuffer) (overflow : bool) : option (ReportBuffer * bool) :=
  match fuel with
  | O => None
  | S fuel =>
      if cond (oldestReport self) then
        if decide (oldestReport self = 0) then Some (self, overflow)
        else '(self, o) ← remove_oldest self; remove_while fuel cond self (overflow || o)
      else Some (self, overflow)
  end.

(** The first of them ends with the new entry as the oldest one. *)
Fixpoint remove_for (fuel : nat) (entryBufPos entryEnd : Z) (self : ReportBuffer) (overflow : bool) : option (ReportBuffer * bool) :=
  match fuel with
  | O => None
  | S fuel =>
      if decide (entryEnd > oldestReport self) then
        '(self, o) ← remove_oldest self;
        if decide (oldestReport self = 0) then
          let self := set_oldest self entryBufPos in self ← link self entryBufPos 0; Some (self, overflow || o)
        else remove_for fuel entryBufPos entryEnd self (overflow || o)
      else Some (self, overflow)
  end.

(** The part of [enqueueReport] that makes room for an entry of [size] octets: the place of
    the entry and whether unsent reports were dropped with the overflow flag. *)
Definition reserve (self : ReportBuffer) (size : Z) : option (ReportBuffer * Z * bool) :=
  let fuel := S (S (Z.to_nat (memoryBlockSize self))) in
  if decide (lastEnqueuedReport self = 0) then
    Some (set_queue self (reportsCount self) (memoryBlock self) (lastEnqueuedReport self) (memoryBlock self) (isOverflow self),
          memoryBlock self, false)
  else
    len ← entryLength self (lastEnqueuedReport self);
    let entryBufPos := lastEnqueuedReport self + len in
    let fits := bool_decide (entryBufPos + size <= memoryBlock self + memoryBlockSize self) in
    if decide (lastEnqueuedReport self = oldestReport self) then
      if fits then
        let self := if decide (nextToTransmit self = oldestReport self) then set_next self (lastEnqueuedReport self) else self in
        let self := set_oldest self (lastEnqueuedReport self) in
        self ← link self (oldestReport self) entryBufPos;
        Some (self, entryBufPos, false)
      else
        let entryBufPos := memoryBlock self in
        let self := set_oldest (set_count self 0) entryBufPos in
        self ← link self (oldestReport self) 0;
        Some (set_next self 0, entryBufPos, false)
    else if decide (lastEnqueuedReport self > oldestReport self) then
      '(self, entryBufPos, overflow) ←
        (if fits then Some (self, entryBufPos, false)
         else
           let entryBufPos := memoryBlock self in
           '(self, overflow) ← remove_for fuel entryBufPos (entryBufPos + size) self false;
           Some (self, entryBufPos, overflow));
      self ← link self (lastEnqueuedReport self) entryBufPos;
      Some (self, entryBufPos, overflow)
    else
      '(self, entryBufPos, overflow) ←
        (if fits then
           '(self, overflow) ← remove_while fuel (fun oldest =>
              bool_decide (entryBufPos + size > oldest) && bool_decide (oldest <> memoryBlock self)) self false;
           Some (self, entryBufPos, overflow)
         else
           let entryBufPos := memoryBlock self in
           '(self, overflow) ← remove_while fuel (fun oldest => bool_decide (oldest > memoryBlock self)) self false;
           '(self, overflow) ← remove_while fuel (fun oldest => bool_decide (entryBufPos + size > oldest)) self overflow;
           Some (self, entryBufPos, overflow));
      self ← link self (lastEnqueuedReport self) entryBufPos;
      Some (self, entryBufPos, overflow).

(** The new entry becomes the last one. *)
Definition start_entry (self : ReportBuffer) (p : Z) : option ReportBuffer :=
  let self := set_last self p in
  self ← link self p 0;
  Some (set_count self (reportsCount self + 1)).

(** The end of [enqueueReport]. *)
Definition finish_entry (self : ReportBuffer) : ReportBuffer :=
  let self := if decide (nextToTransmit self = 0) then set_next self (lastEnqueuedReport self) else self in
  if decide (oldestReport self = 0) then set_oldest self (lastEnqueuedReport self) else self.

(** A report is sent. *)
Definition transmitted (self : ReportBuffer) : option ReportBuffer :=
  n ← next self (nextToTransmit self);
  Some (set_queue self (reportsCount self) (oldestReport self) (lastEnqueuedReport self) n false).

(** [checkReportBufferForEntryID]: sending goes on behind the entry with the identifier. *)
Fixpoint findEntryID_loop (fuel : nat) (self : ReportBuffer) (entry : Z) (id : list Z) : option (ReportBuffer * bool) :=
  match fuel with
  | O => None
  | S fuel =>
      if decide (entry <> 0) then
        e ← entryId self entry;
        n ← next self entry;
        if decide (e = id) then Some (set_next self n, true)
        else findEntryID_loop fuel self n id
      else Some (self, false)
  end.
Definition findEntryID (self : ReportBuffer) (id : list Z) : option (ReportBuffer * bool) :=
  findEntryID_loop (S (S (Z.to_nat (memoryBlockSize self)))) self (oldestReport self) id.

(** ** The queue in the block *)

Record entry := { pos : Z; id : list Z; time : Z; fl : Z; len : Z; body : list Z }.

Definition word (e : entry) : Z := len e + fl e * 1073741824.

Record entry_ok (e : entry) : Prop := {
  eo_id : wf_buf (id e) 8;
  eo_time : 0 <= time e < 18446744073709551616;
  eo_fl : 0 <= fl e < 4;
  eo_len : sizeof_entry + zlen (body e) <= len e < 536870912;
}.

(** The octets of the entry [e], whose successor is at [nxt]. *)
Definition entry_at (self : ReportBuffer) (e : entry) (nxt : Z) : Prop :=
  let p := pos e - memoryBlock self in
  bytes_at (memory self) p (id e ++ le_bytes 8 (time e) ++ le_bytes 4 (word e)) /\
  bytes_at (memory self) (p + 24) (le_bytes 8 nxt) /\
  bytes_at (memory self) (p + sizeof_entry) (body e).

Definition head_ptr (es : list entry) (final : Z) : Z := match es with [] => final | e :: _ => pos e end.
Definition last_ptr (es : list entry) : Z := match last es with Some e => pos e | None => 0 end.

(** The entries are linked in their order; the last one has the successor [final]. *)
Fixpoint chain (self : ReportBuffer) (es : list entry) (final : Z) : Prop :=
  match es with
  | [] => True
  | e :: es => entry_at self e (head_ptr es final) /\ chain self es final
  end.

(** Entries at increasing addresses from [lo] on, and the end of the last one. *)
Fixpoint ascending (lo : Z) (es : list entry) : Prop :=
  match es with [] => True | e :: es => lo <= pos e /\ ascending (pos e + len e) es end.
Fixpoint end_of (lo : Z) (es : list entry) : Z :=
  match es with [] => lo | e :: es => end_of (pos e + len e) es end.

(** The older reports in the upper part of the block, the newer ones in the lower part. *)
Definition layout (lo hi : Z) (es : list entry) : Prop :=
  exists upper lower, es = upper ++ lower /\ ascending lo lower /\ ascending (end_of lo lower) upper /\
    end_of (end_of lo lower) upper <= hi.

Definition positive (es : list entry) : Prop := Forall (fun e => 0 < len e) es.

Lemma end_of_ge lo es : positive es -> ascending lo es -> lo <= end_of lo es.
Proof.
  revert lo. induction es as [|e es IH]; intros lo Hp Ha; cbn in *; [lia|]. destruct Ha as [Hlo Ha].
  apply Forall_cons in Hp as [He Hp]. specialize (IH _ Hp Ha). lia.
Qed.

Lemma ascending_mono lo lo' es : lo' <= lo -> ascending lo es -> ascending lo' es.
Proof. destruct es as [|e es]; [done|]. cbn. intros H [H1 H2]. split; [lia|done]. Qed.

Lemma end_of_mono lo lo' es : lo' <= lo -> end_of lo' es <= end_of lo es.
Proof. destruct es; cbn; lia. Qed.

(** Dropping entries anywhere keeps the order. *)
Lemma ascending_sublist es' es : sublist es' es -> forall lo, positive es -> ascending lo es ->
  ascending lo es' /\ end_of lo es' <= end_of lo es.
Proof.
  induction 1 as [|e es' es _ IH|e es' es _ IH]; intros lo Hp Ha; [done| |];
    apply Forall_cons in Hp as [He Hp]; destruct Ha as [Hlo Ha].
  - destruct (IH _ Hp Ha) as [H1 H2]. cbn. split; [by split|done].
  - destruct (IH _ Hp Ha) as [H1 H2]. split; [apply (ascending_mono (pos e + len e)); [lia|done]|].
    cbn. pose proof (end_of_mono (pos e + len e) lo es' ltac:(lia)). lia.
Qed.

Lemma positive_sublist es' es : sublist es' es -> positive es -> positive es'.
Proof. unfold positive. rewrite !Forall_forall. intros Hs H x Hx. apply H. by apply (sublist_subseteq _ _ Hs). Qed.

Lemma layout_sublist lo hi es' es : sublist es' es -> positive es -> layout lo hi es -> layout lo hi es'.
Proof.
  intros Hs Hp (U & L & -> & HL & HU & He). apply Forall_app in Hp as [HpU HpL].
  apply sublist_app_r in Hs as (U' & L' & -> & HsU & HsL). exists U', L'. split; [done|].
  destruct (ascending_sublist _ _ HsL lo HpL HL) as [HL' HeL]. split; [done|].
  destruct (ascending_sublist _ _ HsU _ HpU HU) as [HU' HeU]. split; [by eapply ascending_mono|].
  pose proof (end_of_mono _ _ U' HeL). lia.
Qed.

(** Entries do not overlap. *)
Definition apart (e e' : entry) : Prop := pos e + len e <= pos e' \/ pos e' + len e' <= pos e.

Lemma ascending_Forall lo es : positive es -> ascending lo es -> Forall (fun e => lo <= pos e /\ pos e + len e <= end_of lo es) es.
Proof.
  revert lo. induction es as [|e es IH]; intros lo Hp Ha; [constructor|]. apply Forall_cons in Hp as [He Hp]. destruct Ha as [Hlo Ha].
  cbn [end_of]. pose proof (end_of_ge _ _ Hp Ha). constructor; [lia|]. eapply Forall_impl; [by apply IH|]. cbn. intros x. lia.
Qed.

Lemma ascending_apart lo es : positive es -> ascending lo es -> ForallOrdPairs apart es.
Proof.
  revert lo. induction es as [|e es IH]; intros lo Hp Ha; [constructor|]. apply Forall_cons in Hp as [He Hp]. destruct Ha as [Hlo Ha].
  constructor; [|by eapply IH]. eapply Forall_impl; [by apply ascending_Forall|]. unfold apart. cbn. intros x. lia.
Qed.

Lemma OrdPairs_app {A} (R : A -> A -> Prop) l1 l2 : ForallOrdPairs R l1 -> ForallOrdPairs R l2 ->
  Forall (fun x => Forall (R x) l2) l1 -> ForallOrdPairs R (l1 ++ l2).
Proof.
  induction 1 as [|x l1 Hx _ IH]; intros H2 Hf; [done|]. apply Forall_cons in Hf as [Hx2 Hf]. cbn. constructor; [|by apply IH].
  apply Forall_app. by split.
Qed.

Lemma layout_facts lo hi es : positive es -> layout lo hi es ->
  Forall (fun e => lo <= pos e /\ pos e + len e <= hi) es /\ ForallOrdPairs apart es.
Proof.
  intros Hp (U & L & -> & HL & HU & He). apply Forall_app in Hp as [HpU HpL].
  pose proof (ascending_Forall _ _ HpL HL) as FL. pose proof (ascending_Forall _ _ HpU HU) as FU.
  pose proof (end_of_ge _ _ HpL HL) as GL. pose proof (end_of_ge _ _ HpU HU) as GU. split.
  - apply Forall_app; split; (eapply Forall_impl; [done|]); cbn; intros; lia.
  - apply OrdPairs_app; [by eapply ascending_apart|by eapply ascending_apart|].
    eapply Forall_impl; [exact FU|]. cbn. intros x Hx. eapply Forall_impl; [exact FL|]. cbn. intros y Hy. unfold apart. lia.
Qed.

(** What the fields of the buffer say: [es] are the reports in it, oldest first, of which the
    last [unsent] have still to be sent. *)
Record core (self : ReportBuffer) (es : list entry) (unsent : nat) : Prop := {
  q_base : 0 < memoryBlock self /\ memoryBlock self + memoryBlockSize self < 18446744073709551616;
  q_mem : wf_buf (memory self) (memoryBlockSize self);
  q_ok : Forall entry_ok es;
  q_chain : chain self es 0;
  q_layout : layout (memoryBlock self) (memoryBlock self + memoryBlockSize self) es;
  q_oldest : oldestReport self = head_ptr es 0;
  q_count : reportsCount self = zlen es;
  q_unsent : (unsent <= length es)%nat;
  q_next : nextToTransmit self = head_ptr (drop (length es - unsent) es) 0;
}.

Definition queue (self : ReportBuffer) (es : list entry) (unsent : nat) : Prop :=
  core self es unsent /\ lastEnqueuedReport self = last_ptr es.

Lemma le_val_le_bytes n z : le_val (le_bytes n z) = z mod 256 ^ Z.of_nat n.
Proof. unfold le_val. apply be_val_be_bytes. Qed.

Lemma ok_positive es : Forall entry_ok es -> positive es.
Proof. intros H. eapply Forall_impl; [exact H|]. intros e []. unfold sizeof_entry in *. lia. Qed.

(** *** Reading an entry *)

Lemma load_at n self p xs : bytes_at (memory self) (p - memoryBlock self) xs -> length xs = n -> load n self p = Some xs.
Proof. intros H <-. by apply rds_at. Qed.

Lemma word_range e : entry_ok e -> 0 <= word e < 4294967296.
Proof. intros []. unfold word, sizeof_entry in *. lia. Qed.

Section Reading.
Context (self : ReportBuffer) (e : entry) (nxt : Z) (He : entry_at self e nxt) (Hok : entry_ok e).

Lemma entry_parts : bytes_at (memory self) (pos e - memoryBlock self) (id e) /\
  bytes_at (memory self) (pos e + 8 - memoryBlock self) (le_bytes 8 (time e)) /\
  bytes_at (memory self) (pos e + 16 - memoryBlock self) (le_bytes 4 (word e)) /\
  bytes_at (memory self) (pos e + 24 - memoryBlock self) (le_bytes 8 nxt).
Proof.
  destruct He as (H1 & H2 & _). destruct (eo_id _ Hok) as [_ Hl].
  apply bytes_at_app in H1 as [Hi H1]. apply bytes_at_app in H1 as [Ht Hw]. rewrite le_bytes_length in Hw.
  split_and!; [exact Hi| | |].
  - replace (pos e + 8 - memoryBlock self) with (pos e - memoryBlock self + zlen (id e)) by lia. exact Ht.
  - replace (pos e + 16 - memoryBlock self) with (pos e - memoryBlock self + zlen (id e) + Z.of_nat 8) by lia. exact Hw.
  - replace (pos e + 24 - memoryBlock self) with (pos e - memoryBlock self + 24) by lia. exact H2.
Qed.

Lemma read_id : entryId self (pos e) = Some (id e).
Proof. apply load_at; [apply entry_parts|]. destruct (eo_id _ Hok). lia. Qed.

Lemma read_time : timeOfEntry self (pos e) = Some (time e).
Proof.
  unfold timeOfEntry. rewrite (load_at 8 _ _ (le_bytes 8 (time e))) by (apply entry_parts || done). cbn [fmap option_fmap option_map].
  f_equal. rewrite le_val_le_bytes. apply Z.mod_small. apply (eo_time _ Hok).
Qed.

Lemma read_bitfields : bitfields self (pos e) = Some (word e).
Proof.
  unfold bitfields. rewrite (load_at 4 _ _ (le_bytes 4 (word e))) by (apply entry_parts || done). cbn [fmap option_fmap option_map].
  f_equal. rewrite le_val_le_bytes. apply Z.mod_small. by apply word_range.
Qed.

Lemma read_flags : flags self (pos e) = Some (fl e).
Proof.
  unfold flags. rewrite read_bitfields. cbn [mbind option_bind]. f_equal. destruct Hok. unfold word, sizeof_entry in *. zlia.
Qed.

Lemma read_length : entryLength self (pos e) = Some (len e).
Proof.
  unfold entryLength. rewrite read_bitfields. cbn [mbind option_bind]. f_equal. destruct Hok. unfold word, sizeof_entry in *. zlia.
Qed.

Lemma read_next : 0 <= nxt < 18446744073709551616 -> next self (pos e) = Some nxt.
Proof.
  intros Hn. unfold next. rewrite (load_at 8 _ _ (le_bytes 8 nxt)) by (apply entry_parts || done). cbn [fmap option_fmap option_map].
  f_equal. rewrite le_val_le_bytes. by apply Z.mod_small.
Qed.
End Reading.

(** *** Writing *)

Lemma store_ok self p xs : wf_buf (memory self) (memoryBlockSize self) -> is_bytes xs ->
  memoryBlock self <= p -> p + zlen xs <= memoryBlock self + memoryBlockSize self ->
  exists m, store self p xs = Some (set_memory self m) /\ wf_buf m (memoryBlockSize self) /\
    bytes_at m (p - memoryBlock self) xs /\
    forall j, j < p - memoryBlock self \/ p - memoryBlock self + zlen xs <= j -> rd m j = rd (memory self) j.
Proof.
  intros [Hb Hl] Hx Hp He. unfold store. destruct (puts_Some (memory self) (p - memoryBlock self) xs) as [m E]; [lia|lia|].
  rewrite E. cbn [mbind option_bind]. exists m. pose proof (puts_bytes _ _ _ _ _ Hb E).
  apply puts_inv in E as (_ & Hm & Hat & _ & Hf). rewrite u8_bytes in Hat by done. split; [done|]. split; [split; [done|lia]|].
  split; [done|]. exact Hf.
Qed.

(** The octets of an entry are as they were. *)
Definition untouched (self : ReportBuffer) (m : list Z) (e : entry) : Prop :=
  forall j, pos e - memoryBlock self <= j < pos e - memoryBlock self + len e -> rd m j = rd (memory self) j.

Lemma entry_frame self m e nxt : entry_ok e -> untouched self m e -> entry_at self e nxt -> entry_at (set_memory self m) e nxt.
Proof.
  intros [[_ Hid] _ _ Hlen] Hu (H1 & H2 & H3). unfold sizeof_entry in *. unfold entry_at. cbn [set_memory memory memoryBlock].
  pose proof (le_bytes_length 8 (time e)). pose proof (le_bytes_length 4 (word e)).
  split_and!; (eapply bytes_at_frame; [done|]); intros j Hj; apply Hu; rewrite ?length_app, ?le_bytes_length in Hj;
    unfold sizeof_entry in *; lia.
Qed.

Lemma chain_frame self m es f : Forall entry_ok es -> Forall (untouched self m) es -> chain self es f -> chain (set_memory self m) es f.
Proof.
  induction es as [|e es IH]; intros Hok Hu Hc; [done|]. apply Forall_cons in Hok as [Ho Hok]. apply Forall_cons in Hu as [Hu Hus].
  destruct Hc as [He Hc]. split; [by apply entry_frame|by apply IH].
Qed.

Lemma chain_app self a b f : chain self (a ++ b) f <-> chain self a (head_ptr b f) /\ chain self b f.
Proof.
  induction a as [|e a IH]; cbn [app chain]; [tauto|]. rewrite IH.
  assert (E : head_ptr (a ++ b) f = head_ptr a (head_ptr b f)) by (by destruct a). rewrite E. tauto.
Qed.

(** The chain lies in the memory; the other fields do not matter. *)
Lemma chain_ext self self' es f : memory self' = memory self -> memoryBlock self' = memoryBlock self ->
  chain self es f -> chain self' es f.
Proof.
  intros Em Eb. induction es as [|e es IH]; [done|]. intros [He Hc]. split; [|by apply IH].
  unfold entry_at in *. by rewrite Em, Eb.
Qed.

(** A new successor for the entry [e]. *)
Lemma link_ok self e nxt q : wf_buf (memory self) (memoryBlockSize self) -> entry_ok e -> entry_at self e nxt ->
  memoryBlock self <= pos e -> pos e + len e <= memoryBlock self + memoryBlockSize self ->
  exists m, link self (pos e) q = Some (set_memory self m) /\ wf_buf m (memoryBlockSize self) /\
    entry_at (set_memory self m) e q /\ forall e', apart e e' -> untouched self m e'.
Proof.
  intros Hm Hok He Hp Hl. pose proof Hok as [[_ Hid] _ _ Hlen]. unfold sizeof_entry in *. unfold link.
  destruct (store_ok self (pos e + 24) (le_bytes 8 q) Hm (le_bytes_bytes 8 q)) as (m & E & Hw & Hat & Hf);
    [lia|rewrite le_bytes_length; lia|]. rewrite le_bytes_length in Hf.
  exists m. split; [done|]. split; [done|]. split.
  - destruct He as (H1 & H2 & H3). unfold entry_at. cbn [set_memory memory memoryBlock]. split_and!.
    + eapply bytes_at_frame; [done|]. intros j Hj. apply Hf. rewrite !length_app, !le_bytes_length in Hj. lia.
    + replace (pos e - memoryBlock self + 24) with (pos e + 24 - memoryBlock self) by lia. exact Hat.
    + eapply bytes_at_frame; [done|]. intros j Hj. apply Hf. unfold sizeof_entry in *. lia.
  - intros e' Ha j Hj. apply Hf. unfold apart in Ha. lia.
Qed.

(** *** Dropping reports *)

Lemma end_of_length lo es : positive es -> ascending lo es -> lo + zlen es <= end_of lo es.
Proof.
  revert lo. induction es as [|e es IH]; intros lo Hp Ha; cbn in *; [lia|]. destruct Ha as [Hlo Ha].
  apply Forall_cons in Hp as [He Hp]. specialize (IH _ Hp Ha). lia.
Qed.

Lemma layout_length lo hi es : positive es -> layout lo hi es -> zlen es <= hi - lo.
Proof.
  intros Hp (U & L & -> & HL & HU & He). apply Forall_app in Hp as [HpU HpL].
  pose proof (end_of_length _ _ HpL HL). pose proof (end_of_length _ _ HpU HU). rewrite length_app. lia.
Qed.

Section Core.
Context (self : ReportBuffer) (es : list entry) (u : nat) (Hc : core self es u).

Lemma core_inside e : e ∈ es -> memoryBlock self <= pos e /\ pos e + len e <= memoryBlock self + memoryBlockSize self.
Proof.
  intros He. destruct (layout_facts _ _ _ (ok_positive _ (q_ok _ _ _ Hc)) (q_layout _ _ _ Hc)) as [Hf _].
  rewrite Forall_forall in Hf. by apply Hf.
Qed.

Lemma core_ok e : e ∈ es -> entry_ok e.
Proof. intros He. pose proof (q_ok _ _ _ Hc) as Hf. rewrite Forall_forall in Hf. by apply Hf. Qed.

Lemma core_head_range k : 0 <= head_ptr (drop k es) 0 < 18446744073709551616.
Proof.
  destruct (drop k es) as [|e r] eqn:E; [cbn; lia|]. cbn.
  assert (He : e ∈ es) by (apply (sublist_subseteq _ _ (sublist_drop es k)); rewrite E; left).
  destruct (core_inside e He). destruct (core_ok e He) as [_ _ _ Hl]. unfold sizeof_entry in *. destruct (q_base _ _ _ Hc). lia.
Qed.

(** The entry with number [k]. *)
Lemma core_entry k e : es !! k = Some e -> entry_at self e (head_ptr (drop (S k) es) 0).
Proof.
  intros Hk. pose proof (q_chain _ _ _ Hc) as H. rewrite <- (take_drop_middle es k e Hk) in H.
  apply chain_app in H as [_ H]. apply H.
Qed.

Lemma core_next k e : es !! k = Some e -> next self (pos e) = Some (head_ptr (drop (S k) es) 0).
Proof.
  intros Hk. apply (read_next self e).
  - by apply core_entry.
  - apply core_ok. by eapply list_elem_of_lookup_2.
  - apply core_head_range.
Qed.

Lemma core_apart k : ForallOrdPairs apart (drop k es).
Proof.
  destruct (layout_facts _ _ _ (ok_positive _ (q_ok _ _ _ Hc)) (q_layout _ _ _ Hc)) as [_ Hf]. clear Hc.
  revert k. induction Hf as [|e l He _ IH]; intros [|k]; cbn [drop]; try constructor; [|exact (IH 0%nat)|apply IH].
  done.
Qed.

(** Only the head of the list is at its address. *)
Lemma core_head_ne k e r : drop k es = e :: r -> forall j, head_ptr (drop j r) 0 <> pos e.
Proof.
  intros Hk j. pose proof (core_apart k) as Ha. rewrite Hk in Ha. inversion Ha as [|? ? Hf]; subst.
  assert (He : e ∈ es) by (apply (sublist_subseteq _ _ (sublist_drop es k)); rewrite Hk; left).
  destruct (core_inside e He) as [Hp _]. destruct (core_ok e He) as [_ _ _ Hle]. destruct (q_base _ _ _ Hc).
  destruct (drop j r) as [|x y] eqn:E; cbn; [lia|].
  assert (Hx : x ∈ r) by (apply (sublist_subseteq _ _ (sublist_drop r j)); rewrite E; left).
  assert (Hxe : x ∈ es) by (apply (sublist_subseteq _ _ (sublist_drop es k)); rewrite Hk; by right).
  destruct (core_ok x Hxe) as [_ _ _ Hlx].
  rewrite Forall_forall in Hf. specialize (Hf x Hx). unfold apart, sizeof_entry in *. lia.
Qed.
End Core.

Lemma remove_oldest_spec self e es u : core self (e :: es) u ->
  let unsent := bool_decide (u = S (length es)) in
  remove_oldest self = Some (set_queue self (zlen es) (head_ptr es 0) (lastEnqueuedReport self)
    (head_ptr (drop (length es - u `min` length es) es) 0) (if unsent then true else isOverflow self), unsent).
Proof.
  intros Hc. pose proof Hc as [Hb Hm Hok Hch Hlay Hold Hcount Hu Hnt]. cbn [head_ptr length] in *. unfold remove_oldest.
  pose proof (core_next _ _ _ Hc 0 e eq_refl) as En. cbn [drop] in En. rewrite Hold, En. cbn [mbind option_bind]. rewrite drop_0.
  rewrite Hcount, Hnt. replace (Z.of_nat (S (length es)) - 1) with (zlen es) by lia.
  destruct (decide (u = S (length es))) as [->|Hne].
  - replace (S (length es) - S (length es))%nat with 0%nat by lia. cbn [drop head_ptr]. rewrite !bool_decide_eq_true_2 by done.
    replace (length es - S (length es) `min` length es)%nat with 0%nat by lia. by rewrite drop_0.
  - replace (S (length es) - u)%nat with (S (length es - u)) by lia. cbn [drop].
    rewrite !bool_decide_eq_false_2; [by replace (u `min` length es)%nat with u by lia|done|].
    apply (core_head_ne _ _ _ Hc 0 e es eq_refl).
Qed.

Lemma core_drop self e es u : core self (e :: es) u -> forall last ovf,
  core (set_queue self (zlen es) (head_ptr es 0) last (head_ptr (drop (length es - u `min` length es) es) 0) ovf) es (u `min` length es).
Proof.
  intros [Hb Hm Hok Hch Hlay Hold Hcount Hu Hnt] last ovf. apply Forall_cons in Hok as [He Hok].
  constructor; cbn [set_queue memoryBlock memory memoryBlockSize oldestReport reportsCount nextToTransmit]; try done; try lia.
  - destruct Hch as [_ Hch]. by eapply chain_ext; [..|exact Hch].
  - eapply layout_sublist; [|by apply ok_positive; constructor|exact Hlay]. by apply sublist_cons.
Qed.

(** What a loop has dropped: the first [k] reports, and among them unsent ones. *)
Definition dropped (self self' : ReportBuffer) (es : list entry) (u k : nat) : Prop :=
  (k <= length es)%nat /\
  memory self' = memory self /\ memoryBlock self' = memoryBlock self /\ memoryBlockSize self' = memoryBlockSize self /\
  lastEnqueuedReport self' = lastEnqueuedReport self /\
  core self' (drop k es) (u `min` (length es - k)) /\
  isOverflow self' = isOverflow self || bool_decide (length es - k < u)%nat.

Lemma dropped_none self es u : core self es u -> dropped self self es u 0.
Proof.
  intros Hc. unfold dropped. rewrite drop_0, Nat.sub_0_r. pose proof (q_unsent _ _ _ Hc).
  replace (u `min` length es)%nat with u by lia. rewrite bool_decide_eq_false_2, orb_false_r by lia. split_and!; try done. lia.
Qed.

(** One more report dropped in front. *)
Lemma dropped_cons self self' e es u k last' o : core self (e :: es) u ->
  let u' := (u `min` length es)%nat in
  let self1 := set_queue self (zlen es) (head_ptr es 0) (lastEnqueuedReport self) (head_ptr (drop (length es - u') es) 0)
    (if bool_decide (u = S (length es)) then true else isOverflow self) in
  last' = lastEnqueuedReport self1 -> o = bool_decide (u = S (length es)) ->
  dropped self1 self' es u' k ->
  dropped self self' (e :: es) u (S k) /\
  o || bool_decide (length es - k < u')%nat = bool_decide (length (e :: es) - S k < u)%nat.
Proof.
  intros Hc u' self1 -> -> (Hk & Hm & Hb & Hs & Hl & Hc' & Ho). pose proof (q_unsent _ _ _ Hc) as Hu. cbn [length] in *.
  assert (Eb : bool_decide (u = S (length es)) || bool_decide (length es - k < u')%nat = bool_decide (S (length es) - S k < u)%nat).
  { destruct (decide (u = S (length es))) as [->|Hne].
    - rewrite (bool_decide_eq_true_2 (S (length es) = _)) by done. symmetry. apply bool_decide_eq_true_2. lia.
    - rewrite (bool_decide_eq_false_2 (u = _)) by done. unfold u'. replace (u `min` length es)%nat with u by lia. cbn [orb].
      apply bool_decide_ext. lia. }
  split; [|exact Eb]. unfold dropped. cbn [length drop]. split_and!; try done; [lia| |].
  - replace (u `min` (S (length es) - S k))%nat with (u' `min` (length es - k))%nat by (unfold u'; lia). exact Hc'.
  - rewrite Ho, <- Eb. unfold self1. cbn [set_queue isOverflow].
    destruct (bool_decide (u = S (length es))), (isOverflow self), (bool_decide (length es - k < u')%nat); done.
Qed.

Lemma remove_while_spec fuel cond : forall self es u ovf, core self es u -> (length es < fuel)%nat ->
  exists self' k, remove_while fuel cond self ovf = Some (self', ovf || bool_decide (length es - k < u)%nat) /\
    dropped self self' es u k /\ (forall j e, (j < k)%nat -> es !! j = Some e -> cond (pos e) = true) /\
    (forall e, es !! k = Some e -> cond (pos e) = false).
Proof.
  induction fuel as [|fuel IH]; intros self es u ovf Hc Hf; [lia|]. cbn [remove_while].
  assert (Hnone : forall b, b = false -> ovf || b = ovf) by (intros b ->; apply orb_false_r).
  assert (Hn0 : bool_decide (length es - 0 < u)%nat = false) by (apply bool_decide_eq_false_2; pose proof (q_unsent _ _ _ Hc); lia).
  destruct (cond (oldestReport self)) eqn:Econd.
  2: { exists self, 0%nat. rewrite Hn0, orb_false_r. split; [done|]. split; [by apply dropped_none|]. split; [lia|].
       intros e He. rewrite (q_oldest _ _ _ Hc) in Econd. destruct es; [done|]. by injection He as ->. }
  destruct es as [|e es].
  { rewrite decide_True by apply (q_oldest _ _ _ Hc). exists self, 0%nat. rewrite Hn0, orb_false_r. split; [done|].
    split; [by apply dropped_none|]. split; [lia|done]. }
  assert (He0 : oldestReport self = pos e) by apply (q_oldest _ _ _ Hc).
  assert (Hpe : pos e <> 0).
  { destruct (core_inside _ _ _ Hc e ltac:(left)). pose proof (q_base _ _ _ Hc). lia. }
  rewrite decide_False by congruence. rewrite (remove_oldest_spec _ _ _ _ Hc). cbn [mbind option_bind].
  pose proof (core_drop _ _ _ _ Hc (lastEnqueuedReport self) (if bool_decide (u = S (length es)) then true else isOverflow self)) as Hc1.
  destruct (IH _ _ _ (ovf || bool_decide (u = S (length es))) Hc1 ltac:(cbn in Hf; lia)) as (self' & k & -> & Hd & Hcond & Hstop).
  destruct (dropped_cons self self' e es u k _ _ Hc eq_refl eq_refl Hd) as [Hd' Eb].
  exists self', (S k). rewrite <- orb_assoc, Eb. split; [done|]. split; [done|]. split.
  - intros [|j] e' Hj Ej; [injection Ej as <-; by rewrite <- He0|]. apply (Hcond j); [lia|done].
  - intros e' Ek. by apply Hstop.
Qed.

(** *** Room for an entry *)

(** Room for [size] octets at [p] among the entries. *)
Definition gap (lo hi p size : Z) (es : list entry) : Prop :=
  exists upper lower, es = upper ++ lower /\ ascending lo lower /\ lo <= p /\ end_of lo lower <= p /\
    ascending (p + size) upper /\ end_of (p + size) upper <= hi /\ p + size <= hi.

(** The state before the new entry is written at [p]; the last of the entries has the
    successor [f]. *)
Record room (self : ReportBuffer) (es : list entry) (u : nat) (p size f : Z) : Prop := {
  r_base : 0 < memoryBlock self /\ memoryBlock self + memoryBlockSize self < 18446744073709551616;
  r_mem : wf_buf (memory self) (memoryBlockSize self);
  r_ok : Forall entry_ok es;
  r_chain : chain self es f;
  r_gap : gap (memoryBlock self) (memoryBlock self + memoryBlockSize self) p size es;
  r_oldest : match es with [] => oldestReport self = p \/ oldestReport self = 0 | e :: _ => oldestReport self = pos e end;
  r_count : reportsCount self = zlen es;
  r_unsent : (u <= length es)%nat;
  r_next : nextToTransmit self = head_ptr (drop (length es - u) es) 0 \/ es = [] /\ nextToTransmit self = p;
}.

Lemma gap_apart lo hi p size es : positive es -> 0 < size -> gap lo hi p size es ->
  Forall (fun e => (pos e + len e <= p \/ p + size <= pos e) /\ lo <= pos e /\ pos e + len e <= hi) es.
Proof.
  intros Hp Hs (U & L & -> & HL & Hlo & HLe & HU & HUe & Hh). apply Forall_app in Hp as [HpU HpL].
  pose proof (ascending_Forall _ _ HpL HL) as FL. pose proof (ascending_Forall _ _ HpU HU) as FU.
  apply Forall_app; split; (eapply Forall_impl; [done|]); cbn; intros; lia.
Qed.

Lemma core_room self es u p size : core self es u ->
  gap (memoryBlock self) (memoryBlock self + memoryBlockSize self) p size es -> room self es u p size 0.
Proof.
  intros [] Hg. constructor; try done; [|by left]. destruct es; [by right|done].
Qed.

(** The address of the last entry. *)
Lemma last_ptr_snoc es e : last_ptr (es ++ [e]) = pos e.
Proof. unfold last_ptr. by rewrite last_snoc. Qed.

(** The last entry - even when it has been dropped - gets the new one as its successor. *)
Lemma room_link self es0 e k u p size : room self (drop k (es0 ++ [e])) u p size 0 -> sizeof_entry <= size ->
  entry_ok e -> Forall (fun e' => apart e' e) es0 ->
  memoryBlock self <= pos e -> pos e + len e <= memoryBlock self + memoryBlockSize self ->
  exists m, link self (pos e) p = Some (set_memory self m) /\ room (set_memory self m) (drop k (es0 ++ [e])) u p size p.
Proof.
  intros [Hb Hm Hok Hch Hg Ho Hc Hu Hn] Hsz He Ha Hlo Hhi. destruct (decide (k <= length es0)%nat) as [Hk|Hk].
  - assert (E : drop k (es0 ++ [e]) = drop k es0 ++ [e]) by (by apply drop_app_le). rewrite E in *. set (es1 := drop k es0) in *. apply Forall_app in Hok as [Hok1 _].
    apply chain_app in Hch as [Hch1 [Hche _]].
    destruct (link_ok self e _ p Hm He Hche Hlo Hhi) as (m & -> & Hw & Hat & Hf). exists m. split; [done|].
    constructor; try done; try exact Ho; try exact Hn.
    + apply Forall_app. by split; [|apply Forall_singleton].
    + apply chain_app. split; [|by split]. apply chain_frame; [done| |done].
      assert (Ha1 : Forall (fun e' => apart e' e) es1) by (by apply Forall_drop).
      eapply Forall_impl; [exact Ha1|]. intros e' Hae. apply Hf. unfold apart in *. lia.
  - assert (E : drop k (es0 ++ [e]) = []) by (apply drop_ge; rewrite length_app; cbn; lia). rewrite E in *. unfold link, sizeof_entry in *.
    destruct He as [_ _ _ Hlen]. unfold sizeof_entry in *.
    destruct (store_ok self (pos e + 24) (le_bytes 8 p) Hm (le_bytes_bytes 8 p)) as (m & -> & Hw & _ & _);
      [lia|rewrite le_bytes_length; lia|]. exists m. split; [done|]. constructor; try done; exact Hn.
Qed.

Lemma remove_for_spec fuel p stop size : forall self es u ovf, core self es u -> es <> [] -> (length es < fuel)%nat ->
  memoryBlock self <= p -> p + sizeof_entry <= memoryBlock self + memoryBlockSize self ->
  (forall k, (forall e, es !! k = Some e -> stop <= pos e) ->
     gap (memoryBlock self) (memoryBlock self + memoryBlockSize self) p size (drop k es)) ->
  exists self' k, remove_for fuel p stop self ovf = Some (self', ovf || bool_decide (length es - k < u)%nat) /\
    (k <= length es)%nat /\ room self' (drop k es) (u `min` (length es - k)) p size 0 /\
    memoryBlock self' = memoryBlock self /\ memoryBlockSize self' = memoryBlockSize self /\
    lastEnqueuedReport self' = lastEnqueuedReport self /\
    isOverflow self' = isOverflow self || bool_decide (length es - k < u)%nat.
Proof.
  induction fuel as [|fuel IH]; intros self es u ovf Hc Hne Hf Hp Hpe Hg; [lia|]. cbn [remove_for].
  destruct es as [|e es]; [done|]. assert (He0 : oldestReport self = pos e) by apply (q_oldest _ _ _ Hc).
  pose proof (q_unsent _ _ _ Hc) as Hu. rewrite He0. case_decide as Hd.
  2: { exists self, 0%nat. rewrite bool_decide_eq_false_2, !orb_false_r by lia. rewrite drop_0, Nat.sub_0_r.
       split; [done|]. split; [lia|]. split; [|done]. replace (u `min` length (e :: es))%nat with u by lia.
       apply core_room; [done|]. apply (Hg 0%nat). intros e' [= ->]. lia. }
  rewrite (remove_oldest_spec _ _ _ _ Hc). cbn [mbind option_bind set_queue oldestReport].
  set (o := bool_decide (u = S (length es))). set (ov := if o then true else isOverflow self).
  pose proof (core_drop _ _ _ _ Hc (lastEnqueuedReport self) ov) as Hc1.
  set (self1 := set_queue self _ _ _ _ _) in *.
  destruct es as [|e2 es].
  - cbn [head_ptr]. rewrite decide_True by done. cbn [length] in *.
    destruct (store_ok (set_oldest self1 p) (p + 24) (le_bytes 8 0) (q_mem _ _ _ Hc1) (le_bytes_bytes 8 0)) as (m & Em & Hw & _ & _).
    { cbn. lia. } { cbn. unfold sizeof_entry in *. lia. }
    unfold link. rewrite Em. cbn [mbind option_bind]. eexists _, 1%nat.
    assert (Eo : o = bool_decide (1 - 1 < u)%nat) by (apply bool_decide_ext; lia). rewrite <- Eo. split; [done|]. split; [lia|].
    split; [|split_and!; try done; unfold ov, self1; cbn; by destruct o, (isOverflow self)].
    replace (u `min` (1 - 1))%nat with 0%nat by lia. cbn [drop]. destruct (q_base _ _ _ Hc).
    constructor; cbn; try done; try lia; [by apply (Hg 1%nat)|left; by rewrite drop_nil].
  - assert (Hpe2 : pos e2 <> 0).
    { destruct (core_inside _ _ _ Hc1 e2 ltac:(left)). pose proof (q_base _ _ _ Hc1). lia. }
    cbn [head_ptr]. rewrite decide_False by done. cbn [head_ptr] in Hc1.
    destruct (IH self1 (e2 :: es) _ (ovf || o) Hc1 ltac:(done) ltac:(cbn in *; lia) Hp Hpe) as (self' & k & -> & Hk & Hr & Hb & Hs & Hl & Ho).
    { intros k Hk. apply (Hg (S k)). exact Hk. }
    exists self', (S k). rewrite <- orb_assoc.
    assert (Eb : o || bool_decide (length (e2 :: es) - k < u `min` length (e2 :: es))%nat = bool_decide (length (e :: e2 :: es) - S k < u)%nat).
    { unfold o. cbn [length] in *. destruct (decide (u = S (S (length es)))) as [Hu1|Hu1].
      - rewrite (bool_decide_eq_true_2 (u = _)) by done. symmetry. apply bool_decide_eq_true_2. lia.
      - rewrite (bool_decide_eq_false_2 (u = _)) by done. cbn [orb]. apply bool_decide_ext. lia. }
    rewrite <- Eb. split; [done|]. split; [cbn [length] in *; lia|]. split.
    + cbn [drop]. replace (u `min` (length (e :: e2 :: es) - S k))%nat with ((u `min` length (e2 :: es)) `min` (length (e2 :: es) - k))%nat
        by (cbn [length]; lia). exact Hr.
    + split_and!; try done. rewrite Ho. unfold self1, ov. cbn [set_queue isOverflow].
      destruct o, (isOverflow self), (bool_decide (length (e2 :: es) - k < u `min` length (e2 :: es))%nat); done.
Qed.

(** Either the reports ascend in the block, or the newer ones have been wrapped around. *)
Lemma layout_cases lo hi es : positive es -> layout lo hi es ->
  (ascending lo es /\ end_of lo es <= hi) \/
  (exists u U l L, es = (u :: U) ++ (l :: L) /\ ascending lo (l :: L) /\ ascending (end_of lo (l :: L)) (u :: U) /\
     end_of (end_of lo (l :: L)) (u :: U) <= hi).
Proof.
  intros Hp (U & L & -> & HL & HU & He). destruct L as [|l L].
  - left. rewrite app_nil_r. by split.
  - destruct U as [|u U]; [by left|]. right. by exists u, U, l, L.
Qed.

Lemma ascending_last lo es e : positive (es ++ [e]) -> ascending lo (es ++ [e]) ->
  end_of lo (es ++ [e]) = pos e + len e /\ ascending lo es /\ end_of lo es <= pos e /\ Forall (fun e' => pos e' < pos e) es.
Proof.
  revert lo. induction es as [|x es IH]; intros lo Hp Ha; cbn [app] in *.
  - destruct Ha as [Ha _]. cbn. split_and!; try done.
  - apply Forall_cons in Hp as [Hx Hp]. destruct Ha as [Hlo Ha]. destruct (IH _ Hp Ha) as (H1 & H2 & H3 & H4).
    cbn [end_of ascending]. split_and!; try done. apply Forall_cons. split; [|done].
    apply Forall_app in Hp as [Hp _]. pose proof (end_of_ge _ _ Hp H2). lia.
Qed.

Lemma end_of_nonempty lo lo' es : es <> [] -> end_of lo es = end_of lo' es.
Proof. by destruct es. Qed.

Lemma OrdPairs_snoc {A} (R : A -> A -> Prop) l x : ForallOrdPairs R (l ++ [x]) -> Forall (fun y => R y x) l.
Proof.
  induction l as [|y l IH]; intros Hf; [constructor|]. cbn in Hf. inversion Hf as [|? ? Hx Hf']; subst. constructor; [|by apply IH].
  apply Forall_app in Hx as [_ Hx]. by inversion Hx.
Qed.

Section Reserve.
Context (self : ReportBuffer) (es0 : list entry) (e : entry) (u : nat) (size : Z).
#[local] Abbreviation es := (es0 ++ [e]).
#[local] Abbreviation lo := (memoryBlock self).
#[local] Abbreviation hi := (memoryBlock self + memoryBlockSize self).
Context (Hc : core self es u) (Hsz : sizeof_entry <= size <= memoryBlockSize self).

Lemma reserve_pos : positive es.
Proof. apply ok_positive, (q_ok _ _ _ Hc). Qed.

(** The last step of all cases. *)
Lemma reserve_link self' k p ovf : (k <= length es)%nat ->
  room self' (drop k es) (u `min` (length es - k)) p size 0 -> memoryBlock self' = lo -> memoryBlockSize self' = memoryBlockSize self ->
  isOverflow self' = isOverflow self || ovf ->
  exists m, link self' (pos e) p = Some (set_memory self' m) /\
    room (set_memory self' m) (drop k es) (u `min` (length es - k)) p size p /\
    isOverflow (set_memory self' m) = isOverflow self || ovf.
Proof.
  intros Hk Hr Hb Hs Ho. assert (He : e ∈ es) by (apply elem_of_app; right; by left).
  destruct (core_inside _ _ _ Hc e He). pose proof (core_ok _ _ _ Hc e He).
  destruct (room_link self' es0 e k _ p size Hr) as (m & E & R); try done; try lia.
  { apply OrdPairs_snoc, (layout_facts _ _ _ reserve_pos (q_layout _ _ _ Hc)). }
  by exists m.
Qed.

(** Everything up to the last entry stays, and there is room behind it. *)
Lemma gap_behind : ascending lo es -> pos e + len e + size <= hi -> gap lo hi (pos e + len e) size es.
Proof.
  intros Ha Hfit. destruct (ascending_last _ _ _ reserve_pos Ha) as (Hend & _ & _ & _).
  pose proof (end_of_ge _ _ reserve_pos Ha). exists [], es. split_and!; try done; cbn; lia.
Qed.

(** Ascending reports of which the first lies behind [lo + size] leave room at the beginning. *)
Lemma gap_front M j : ascending lo M -> positive M -> end_of lo M <= hi ->
  (forall x, M !! j = Some x -> lo + size <= pos x) -> gap lo hi lo size (drop j M).
Proof.
  intros Ha Hp He Hh. exists (drop j M), []. rewrite app_nil_r.
  destruct (ascending_sublist _ _ (sublist_drop M j) lo Hp Ha) as [Ha' He']. pose proof (lookup_drop M j 0) as Hl.
  rewrite Nat.add_0_r in Hl. destruct (drop j M) as [|x r] eqn:E; cbn [ascending end_of app] in *.
  - split_and!; try done; lia.
  - specialize (Hh x). rewrite <- Hl in Hh. specialize (Hh eq_refl). destruct Ha' as [_ Ha']. split_and!; try done; lia.
Qed.

Definition reserved (k : nat) (r : option (ReportBuffer * Z * bool)) (ovf : bool) : Prop :=
  exists self' p, r = Some (self', p, ovf) /\ (k <= length es)%nat /\
    room self' (drop k es) (u `min` (length es - k)) p size p /\ memoryBlock self' = lo /\
    memoryBlockSize self' = memoryBlockSize self /\ isOverflow self' = isOverflow self || ovf.

Lemma reserve_finish self1 k p ovf : (k <= length es)%nat -> lastEnqueuedReport self1 = pos e ->
  room self1 (drop k es) (u `min` (length es - k)) p size 0 -> memoryBlock self1 = lo -> memoryBlockSize self1 = memoryBlockSize self ->
  isOverflow self1 = isOverflow self || ovf ->
  reserved k (self1 ← link self1 (lastEnqueuedReport self1) p; Some (self1, p, ovf)) ovf.
Proof.
  intros Hk Hl Hr Hb Hs Ho. destruct (reserve_link self1 k p ovf Hk Hr Hb Hs Ho) as (m & E & R & O).
  rewrite Hl, E. cbn [mbind option_bind]. by exists (set_memory self1 m), p.
Qed.
End Reserve.

Lemma dropped_room self self' es u k p size : dropped self self' es u k ->
  gap (memoryBlock self) (memoryBlock self + memoryBlockSize self) p size (drop k es) ->
  room self' (drop k es) (u `min` (length es - k)) p size 0.
Proof. intros (_ & _ & Hb & Hs & _ & Hc & _) Hg. apply core_room; [done|]. by rewrite Hb, Hs. Qed.

(** What [reserve] finds out before it drops anything. *)
Lemma reserve_start self es0 e u : core self (es0 ++ [e]) u -> es0 <> [] ->
  exists h, head es0 = Some h /\ oldestReport self = pos h /\ entryLength self (pos e) = Some (len e) /\ pos e <> 0 /\
    pos e <> pos h.
Proof.
  intros Hc Hne. destruct es0 as [|h r]; [done|]. exists h. pose proof (q_base _ _ _ Hc).
  assert (Hee : e ∈ (h :: r) ++ [e]) by (apply elem_of_app; right; by left).
  destruct (core_inside _ _ _ Hc e Hee) as [Hpe1 Hpe2]. pose proof (core_ok _ _ _ Hc e Hee) as Hoke.
  split; [done|]. split; [apply (q_oldest _ _ _ Hc)|]. split_and!; [|lia|].
  - apply (read_length self e _ (core_entry _ _ _ Hc (length (h :: r)) e ltac:(by rewrite lookup_app_r, Nat.sub_diag by lia)) Hoke).
  - pose proof (core_head_ne _ _ _ Hc 0 h (r ++ [e]) eq_refl (length r)) as Hn. by rewrite drop_app_length in Hn.
Qed.

(** The reports are in ascending order: the new one goes behind them, or to the beginning. *)
Lemma reserve_ascending self es0 e u size : core self (es0 ++ [e]) u -> es0 <> [] ->
  sizeof_entry <= size <= memoryBlockSize self -> lastEnqueuedReport self = pos e ->
  ascending (memoryBlock self) (es0 ++ [e]) -> end_of (memoryBlock self) (es0 ++ [e]) <= memoryBlock self + memoryBlockSize self ->
  exists k, reserved self es0 e u size k (reserve self size) (bool_decide (length (es0 ++ [e]) - k < u)%nat) /\
    (end_of (memoryBlock self) (es0 ++ [e]) + size <= memoryBlock self + memoryBlockSize self -> k = 0%nat).
Proof.
  intros Hc Hne Hsz Hl Ha He. set (es := es0 ++ [e]) in *.
  pose proof (ok_positive _ (q_ok _ _ _ Hc)) as Hp. pose proof (q_base _ _ _ Hc) as Hb.
  destruct (ascending_last _ _ _ Hp Ha) as (Hend & Ha0 & Hle & Hlt). fold es in Hend.
  destruct (reserve_start self es0 e u Hc Hne) as (h & Eh & Hold & Hlen & He0 & Hneh).
  assert (Hh : pos h < pos e) by (destruct es0; [done|]; injection Eh as ->; by apply Forall_cons in Hlt as [? _]).
  unfold reserve. rewrite Hl. rewrite decide_False by done. rewrite Hlen. cbn [mbind option_bind]. rewrite Hold.
  rewrite decide_False by done. rewrite decide_True by lia.
  assert (Hu0 : bool_decide (length es - 0 < u)%nat = false) by (apply bool_decide_eq_false_2; pose proof (q_unsent _ _ _ Hc); lia).
  destruct (decide (pos e + len e + size <= memoryBlock self + memoryBlockSize self)) as [Hfit|Hfit].
  - rewrite bool_decide_eq_true_2 by done. cbn [mbind option_bind]. exists 0%nat. split; [|done]. rewrite Hu0.
    eapply reserve_finish; try done; [lia| |by rewrite orb_false_r].
    fold es. rewrite drop_0, Nat.sub_0_r. pose proof (q_unsent _ _ _ Hc). replace (u `min` length es)%nat with u by lia.
    apply core_room; [done|]. by eapply gap_behind.
  - rewrite bool_decide_eq_false_2 by done. assert (Hnn : es <> []) by (unfold es; by destruct es0).
    destruct (remove_for_spec (S (S (Z.to_nat (memoryBlockSize self)))) (memoryBlock self) (memoryBlock self + size) size self es u
      false Hc Hnn) as (self1 & k & E & Hk & Hr & Hb1 & Hs1 & Hl1 & Ho1).
    + pose proof (layout_length _ _ _ Hp (q_layout _ _ _ Hc)). lia.
    + lia.
    + lia.
    + intros k Hk. eapply gap_front; try done.
    + rewrite E. cbn [mbind option_bind orb] in *. exists k. split; [|lia].
      eapply reserve_finish; try done. congruence.
Qed.

Lemma drop_app_split {A} (l1 l2 : list A) k : (length l1 <= k)%nat -> drop k (l1 ++ l2) = drop (k - length l1) l2.
Proof. apply drop_app_ge. Qed.

(** The reports have been wrapped around: the new one goes behind the lower ones, and
    displaces upper ones, or to the beginning, and displaces the upper ones and some of the lower
    ones. *)
Lemma reserve_wrapped self U L0 e u size : let es0 := U ++ L0 in let L := L0 ++ [e] in
  core self (es0 ++ [e]) u -> U <> [] -> sizeof_entry <= size <= memoryBlockSize self -> lastEnqueuedReport self = pos e ->
  ascending (memoryBlock self) L -> ascending (end_of (memoryBlock self) L) U ->
  end_of (end_of (memoryBlock self) L) U <= memoryBlock self + memoryBlockSize self ->
  exists k, reserved self es0 e u size k (reserve self size) (bool_decide (length (es0 ++ [e]) - k < u)%nat).
Proof.
  intros es0 L Hc HU Hsz Hl HaL HaU He. set (es := es0 ++ [e]) in *. set (lo := memoryBlock self) in *.
  assert (Ees : es = U ++ L) by (unfold es, es0, L; by rewrite <- app_assoc).
  pose proof (ok_positive _ (q_ok _ _ _ Hc)) as Hp. pose proof (q_base _ _ _ Hc) as Hb. fold lo in Hb.
  assert (HpUL : positive U /\ positive L) by (rewrite Ees in Hp; by apply Forall_app in Hp).
  destruct HpUL as [HpU HpL].
  destruct (ascending_last _ _ _ HpL HaL) as (Hend & _ & _ & _). fold L in Hend.
  pose proof (end_of_ge _ _ HpU HaU) as HgU.
  destruct (reserve_start self es0 e u Hc ltac:(unfold es0; by destruct U)) as (h & Eh & Hold & Hlen & He0 & Hneh).
  assert (Hh : end_of lo L <= pos h) by (unfold es0 in Eh; destruct U; [done|]; injection Eh as ->; apply HaU).
  assert (Hpos : 0 < len e) by (unfold L in HpL; apply Forall_app in HpL as [_ Hx]; by inversion Hx).
  assert (HloL : lo < end_of lo L).
  { pose proof (end_of_length _ _ HpL HaL) as Hx. unfold L in Hx at 1. rewrite length_app in Hx. cbn [length] in Hx. lia. }
  assert (HposU : Forall (fun x => end_of lo L <= pos x) U).
  { eapply Forall_impl; [by apply ascending_Forall|]. cbn. lia. }
  pose proof (layout_length _ _ _ Hp (q_layout _ _ _ Hc)) as Hlen_es. fold lo in Hlen_es.
  unfold reserve. rewrite Hl. rewrite decide_False by done. rewrite Hlen. cbn [mbind option_bind]. rewrite Hold.
  rewrite decide_False by done. rewrite decide_False by lia. fold lo.
  set (p := pos e + len e) in *.
  destruct (decide (p + size <= lo + memoryBlockSize self)) as [Hfit|Hfit].
  - rewrite bool_decide_eq_true_2 by done.
    destruct (remove_while_spec (S (S (Z.to_nat (memoryBlockSize self)))) (fun oldest => bool_decide (p + size > oldest) && bool_decide (oldest <> lo))
      self es u false Hc ltac:(lia)) as (self1 & k & -> & Hd & _ & Hstop).
    cbn [mbind option_bind orb]. exists k. pose proof Hd as (Hk & _ & Hb1 & Hs1 & Hl1 & _ & Ho1).
    eapply reserve_finish; try done; [congruence|]. eapply dropped_room; [exact Hd|]. fold es. fold lo.
    destruct (decide (k < length U)%nat) as [HkU|HkU].
    + rewrite Ees, drop_app_le by lia. destruct (lookup_lt_is_Some_2 U k HkU) as [x Ex].
      assert (Hx : p + size <= pos x).
      { specialize (Hstop x). rewrite Ees, lookup_app_l in Hstop by done. specialize (Hstop Ex).
        rewrite Forall_lookup in HposU. specialize (HposU _ _ Ex). apply andb_false_iff in Hstop as [H|H]; apply bool_decide_eq_false in H; lia. }
      exists (drop k U), L. destruct (ascending_sublist _ _ (sublist_drop U k) _ HpU HaU) as [Ha' He'].
      rewrite (drop_S U x k Ex) in *. cbn [ascending end_of] in *. destruct Ha' as [_ Ha'].
      split_and!; try done; lia.
    + rewrite Ees, drop_app_split by lia. set (j := (k - length U)%nat).
      destruct (ascending_sublist _ _ (sublist_drop L j) _ HpL HaL) as [Ha' He'].
      exists [], (drop j L). split_and!; try done; cbn; lia.
  - rewrite bool_decide_eq_false_2 by done.
    destruct (remove_while_spec (S (S (Z.to_nat (memoryBlockSize self)))) (fun oldest => bool_decide (oldest > lo))
      self es u false Hc ltac:(lia)) as (self1 & k1 & -> & Hd1 & Hcond1 & Hstop1).
    cbn [mbind option_bind orb]. pose proof Hd1 as (Hk1 & _ & Hb1 & Hs1 & Hl1 & Hc1 & Ho1).
    assert (HkU : (length U <= k1)%nat).
    { destruct (decide (length U <= k1)%nat) as [?|Hn]; [done|]. destruct (lookup_lt_is_Some_2 U k1 ltac:(lia)) as [x Ex].
      specialize (Hstop1 x). rewrite Ees, lookup_app_l in Hstop1 by lia. specialize (Hstop1 Ex). apply bool_decide_eq_false in Hstop1.
      rewrite Forall_lookup in HposU. specialize (HposU _ _ Ex). lia. }
    destruct (remove_while_spec (S (S (Z.to_nat (memoryBlockSize self)))) (fun oldest => bool_decide (lo + size > oldest))
      self1 (drop k1 es) (u `min` (length es - k1)) (bool_decide (length es - k1 < u)%nat) Hc1 ltac:(rewrite length_drop; lia))
      as (self2 & k2 & -> & Hd2 & _ & Hstop2).
    cbn [mbind option_bind]. pose proof Hd2 as (Hk2 & _ & Hb2 & Hs2 & Hl2 & _ & Ho2). rewrite length_drop in *.
    set (k := (k1 + k2)%nat) in *.
    assert (Eb : bool_decide (length es - k1 < u)%nat || bool_decide (length es - k1 - k2 < u `min` (length es - k1))%nat =
      bool_decide (length es - k < u)%nat).
    { destruct (decide (length es - k1 < u)%nat) as [H1|H1].
      - rewrite (bool_decide_eq_true_2 (length es - k1 < u)%nat) by done. symmetry. apply bool_decide_eq_true_2. unfold k. lia.
      - rewrite (bool_decide_eq_false_2 (length es - k1 < u)%nat) by done. cbn [orb]. apply bool_decide_ext. unfold k. lia. }
    exists k. rewrite Eb in *. assert (Ho : isOverflow self2 = isOverflow self || bool_decide (length es - k < u)%nat).
    { rewrite Ho2, Ho1, <- Eb. by rewrite orb_assoc. }
    eapply reserve_finish; try done; [fold es; unfold k; lia|congruence| |congruence|congruence].
    pose proof (dropped_room _ _ _ _ _ lo size Hd2) as Hr. rewrite drop_drop, length_drop in Hr. fold k in Hr.
    replace ((u `min` (length es - k1)) `min` (length es - k1 - k2))%nat with (u `min` (length es - k))%nat in Hr by (unfold k; lia).
    fold es. apply Hr. rewrite Hb1, Hs1. fold lo. rewrite Ees, drop_app_split by (unfold k; lia).
    apply (gap_front self size Hsz L (k - length U)); try done; [fold lo; lia|].
    intros x Ex. specialize (Hstop2 x). rewrite Ees, lookup_drop, lookup_app_r in Hstop2 by lia.
    rewrite <- Ex in Hstop2. specialize (Hstop2 ltac:(f_equal; unfold k; lia)). apply bool_decide_eq_false in Hstop2. fold lo. lia.
Qed.

(** A single report: it stays, or it is dropped without setting the overflow flag. *)
Lemma reserve_single self e u size : core self [e] u -> sizeof_entry <= size <= memoryBlockSize self ->
  lastEnqueuedReport self = pos e ->
  exists k, reserved self [] e u size k (reserve self size) false /\
    (end_of (memoryBlock self) [e] + size <= memoryBlock self + memoryBlockSize self -> k = 0%nat).
Proof.
  intros Hc Hsz Hl. pose proof (q_base _ _ _ Hc) as Hb. pose proof (ok_positive _ (q_ok _ _ _ Hc)) as Hp.
  destruct (core_inside _ _ _ Hc e ltac:(left)) as [Hpe1 Hpe2]. pose proof (core_ok _ _ _ Hc e ltac:(left)) as Hoke.
  pose proof (q_oldest _ _ _ Hc) as Hold. cbn [head_ptr] in Hold. pose proof (q_unsent _ _ _ Hc) as Hu. cbn [length] in Hu.
  assert (Hlen : entryLength self (pos e) = Some (len e)) by (apply (read_length self e _ (core_entry _ _ _ Hc 0 e eq_refl) Hoke)).
  unfold reserve. rewrite Hl. rewrite decide_False by lia. rewrite Hlen. cbn [mbind option_bind]. rewrite Hold.
  rewrite decide_True by done. case_bool_decide as Hfit; cbn [end_of].
  - exists 0%nat. split; [|done].
    assert (E1 : (if decide (nextToTransmit self = pos e) then set_next self (pos e) else self) = self).
    { case_decide as Hn; [|done]. unfold set_next, set_queue. rewrite <- Hn. by destruct self. }
    rewrite E1, Hl. assert (E2 : set_oldest self (pos e) = self) by (unfold set_oldest, set_queue; rewrite <- Hold; by destruct self).
    rewrite E2, Hold.
    destruct (reserve_link self [] e u size Hc Hsz self 0 (pos e + len e) false) as (m & E & R & O); try done; [lia| |by rewrite orb_false_r|].
    + cbn [app drop length]. replace (u `min` (1 - 0))%nat with u by lia. apply core_room; [done|].
      apply (gap_behind self [] e u size Hc); [|done]. cbn. by split.
    + rewrite E. cbn [mbind option_bind]. exists (set_memory self m), (pos e + len e). split_and!; try done. cbn. lia.
  - exists 1%nat. split; [|lia]. set (self1 := set_oldest _ (memoryBlock self)).
    destruct (q_mem _ _ _ Hc) as [Hmb Hml]. unfold sizeof_entry in *.
    destruct (store_ok self1 (memoryBlock self + 24) (le_bytes 8 0) (q_mem _ _ _ Hc) (le_bytes_bytes 8 0)) as (m & Em & Hw & _ & _).
    { cbn. lia. } { rewrite le_bytes_length. cbn. lia. }
    unfold link. change (oldestReport self1) with (memoryBlock self). rewrite Em. cbn [mbind option_bind].
    eexists _, (memoryBlock self). split; [done|]. cbn [app drop length]. split; [lia|].
    replace (u `min` (1 - 1))%nat with 0%nat by lia. split_and!; try done; [|by cbn; rewrite orb_false_r].
    constructor; cbn; try done; try lia.
    exists [], []. split_and!; try done; cbn; lia.
Qed.

(** Room for a report of [size] octets in any buffer. *)
Lemma reserve_spec self es u size : queue self es u -> sizeof_entry <= size <= memoryBlockSize self ->
  exists self' p k ovf, reserve self size = Some (self', p, ovf) /\ (k <= length es)%nat /\
    room self' (drop k es) (u `min` (length es - k)) p size p /\
    memoryBlock self' = memoryBlock self /\ memoryBlockSize self' = memoryBlockSize self /\
    isOverflow self' = isOverflow self || ovf /\
    ovf = bool_decide (length es <> 1 /\ length es - k < u)%nat /\
    (ascending (memoryBlock self) es -> end_of (memoryBlock self) es + size <= memoryBlock self + memoryBlockSize self -> k = 0%nat).
Proof.
  intros [Hc Hl] Hsz. pose proof (ok_positive _ (q_ok _ _ _ Hc)) as Hp. pose proof (q_unsent _ _ _ Hc) as Hu.
  assert (Hfin : forall es0 e k ovf, es = es0 ++ [e] -> reserved self es0 e u size k (reserve self size) ovf ->
    ovf = bool_decide (length es <> 1 /\ length es - k < u)%nat ->
    (ascending (memoryBlock self) es -> end_of (memoryBlock self) es + size <= memoryBlock self + memoryBlockSize self -> k = 0%nat) ->
    exists self' p k ovf, reserve self size = Some (self', p, ovf) /\ (k <= length es)%nat /\
      room self' (drop k es) (u `min` (length es - k)) p size p /\
      memoryBlock self' = memoryBlock self /\ memoryBlockSize self' = memoryBlockSize self /\
      isOverflow self' = isOverflow self || ovf /\
      ovf = bool_decide (length es <> 1 /\ length es - k < u)%nat /\
      (ascending (memoryBlock self) es -> end_of (memoryBlock self) es + size <= memoryBlock self + memoryBlockSize self -> k = 0%nat)).
  { intros es0 e k ovf -> (self' & p & E & Hk & Hr & Hb & Hs & Ho) Hovf Hz. exists self', p, k, ovf. by split_and!. }
  destruct es as [|e es _] using rev_ind.
  - exists (set_queue self (reportsCount self) (memoryBlock self) (lastEnqueuedReport self) (memoryBlock self) (isOverflow self)),
      (memoryBlock self), 0%nat, false. unfold reserve. rewrite Hl. rewrite decide_True by done. destruct Hc.
    cbn [length drop] in *. split; [done|]. split; [lia|]. split; [|split_and!; try done; [by rewrite orb_false_r|]].
    + constructor; try done; [|by left|cbn; lia|by right]. exists [], []. split_and!; try done; cbn; lia.
    + symmetry. apply bool_decide_eq_false_2. lia.
  - rewrite last_ptr_snoc in Hl. assert (Hne1 : es <> [] -> (length (es ++ [e]) <> 1)%nat).
    { intros Hne. destruct es; [done|]. rewrite length_app. cbn. lia. }
    destruct (decide (es = [])) as [->|Hne].
    + destruct (reserve_single self e u size Hc Hsz Hl) as (k & Hr & Hz). apply (Hfin [] e k false); [done|exact Hr| |done].
      symmetry. apply bool_decide_eq_false_2. cbn. lia.
    + destruct (layout_cases _ _ _ Hp (q_layout _ _ _ Hc)) as [[Ha He]|(x & U & l & L & E & HaL & HaU & He)].
      * destruct (reserve_ascending self es e u size Hc Hne Hsz Hl Ha He) as (k & Hr & Hz).
        apply (Hfin es e k _ eq_refl Hr); [|by intros _]. apply bool_decide_ext. specialize (Hne1 Hne). lia.
      * destruct (exists_last (l := l :: L) ltac:(done)) as (L0 & e' & EL). rewrite EL in *.
        rewrite app_assoc in E. apply app_inj_tail in E as [-> <-].
        destruct (reserve_wrapped self (x :: U) L0 e u size) as (k & Hr); try done.
        apply (Hfin _ e k _ eq_refl Hr); [apply bool_decide_ext; specialize (Hne1 Hne); lia|].
        intros Ha _. exfalso. destruct (ascending_last _ _ _ Hp Ha) as (_ & _ & _ & Hlt). apply Forall_cons in Hlt as [Hlt _].
        assert (HpL : positive (L0 ++ [e])).
        { apply Forall_app in Hp as [Hp1 Hp2]. apply Forall_app in Hp1 as [_ Hp1]. by apply Forall_app. }
        destruct (ascending_last _ _ _ HpL HaL) as (Hend & _). destruct HaU as [HaU _].
        apply Forall_app in Hp as [_ Hp]. apply Forall_cons in Hp as [Hpe _]. lia.
Qed.

(** *** Removing the reports of general interrogations *)

Definition keep (e : entry) : Prop := isGI (fl e) = false.
#[export] Instance keep_dec e : Decision (keep e).
Proof. unfold keep. apply _. Defined.

Lemma positions_distinct es : positive es -> ForallOrdPairs apart es -> NoDup (pos <$> es).
Proof.
  intros Hp Ha. induction Ha as [|e es Hf _ IH]; [constructor|]. apply Forall_cons in Hp as [He Hp]. rewrite fmap_cons.
  constructor; [|by apply IH]. intros (x & Ex & Hx)%list_elem_of_fmap.
  rewrite Forall_forall in Hf. specialize (Hf x Hx). unfold positive in Hp. rewrite Forall_forall in Hp. specialize (Hp x Hx).
  unfold apart in Hf. lia.
Qed.

Lemma core_distinct self es u : core self es u -> NoDup (pos <$> es).
Proof.
  intros Hc. pose proof (ok_positive _ (q_ok _ _ _ Hc)) as Hp. apply positions_distinct; [done|].
  apply (layout_facts _ _ _ Hp (q_layout _ _ _ Hc)).
Qed.

Lemma last_ptr_app es e r : last_ptr (es ++ e :: r) = last_ptr (e :: r).
Proof. unfold last_ptr. by rewrite last_app_cons. Qed.

(** The unsent reports that are left when the one behind [P] is removed. *)
Definition fewer (u r : nat) : nat := if decide (r < u)%nat then (u - 1)%nat else u.

Lemma drop_removed {A} (P R : list A) c u : (u <= length (P ++ c :: R))%nat ->
  drop (length (P ++ R) - fewer u (length R)) (P ++ R) =
    if decide (u = S (length R)) then R else
    if decide (length R < u)%nat then drop (length (P ++ c :: R) - u) P ++ R
    else drop (length R - u) R.
Proof.
  unfold fewer. rewrite !length_app. cbn [length]. intros Hu. destruct (decide (u = S (length R))) as [H1|H1].
  - rewrite decide_True by lia. subst u. replace (length P + length R - (S (length R) - 1))%nat with (length P) by lia.
    apply drop_app_length.
  - case_decide as H2.
    + replace (length P + length R - (u - 1))%nat with (length P + S (length R) - u)%nat by lia. apply drop_app_le. lia.
    + rewrite drop_app_ge by lia. f_equal. lia.
Qed.

Lemma drop_original {A} (P R : list A) c u : (u <= length (P ++ c :: R))%nat ->
  drop (length (P ++ c :: R) - u) (P ++ c :: R) =
    if decide (u = S (length R)) then c :: R else
    if decide (length R < u)%nat then drop (length (P ++ c :: R) - u) P ++ c :: R
    else drop (length R - u) R.
Proof.
  rewrite !length_app. cbn [length]. intros Hu. case_decide as H1; [|case_decide as H2].
  - subst u. replace (length P + S (length R) - S (length R))%nat with (length P) by lia. apply drop_app_length.
  - apply drop_app_le. lia.
  - rewrite drop_app_ge by lia. replace (length P + S (length R) - u - length P)%nat with (S (length R - u)) by lia. done.
Qed.

(** The pointers after the removal of [c]. *)
Lemma unlinked self P c R u m : queue self (P ++ c :: R) u -> wf_buf m (memoryBlockSize self) ->
  chain (set_memory self m) (P ++ R) 0 ->
  queue (set_memory (set_queue self (reportsCount self - 1)
      (if decide (pos c = oldestReport self) then head_ptr R 0 else oldestReport self)
      (if decide (lastEnqueuedReport self = pos c) then last_ptr P else lastEnqueuedReport self)
      (if decide (nextToTransmit self = pos c) then head_ptr R 0 else nextToTransmit self) (isOverflow self)) m)
    (P ++ R) (fewer u (length R)).
Proof.
  intros [Hc Hl] Hm Hch. pose proof (core_distinct _ _ _ Hc) as Hnd. destruct Hc as [Hb _ Hok _ Hlay Hold Hcount Hu Hn].
  rewrite fmap_app, fmap_cons in Hnd. apply NoDup_app in Hnd as (_ & HndP & HndR). apply NoDup_cons in HndR as [HndR _].
  assert (HneP : forall x, x ∈ P -> pos x <> pos c).
  { intros x Hx E. apply (HndP (pos x)); [by apply list_elem_of_fmap_2|]. rewrite E. by left. }
  assert (HneR : forall x, x ∈ R -> pos x <> pos c).
  { intros x Hx E. apply HndR. rewrite <- E. by apply list_elem_of_fmap_2. }
  assert (Hc0 : pos c <> 0).
  { pose proof (layout_facts _ _ _ (ok_positive _ Hok) Hlay) as [Hf _]. apply Forall_app in Hf as [_ Hf].
    apply Forall_cons in Hf as [Hf _]. lia. }
  assert (Hheads : forall l r, (forall x, x ∈ l -> pos x <> pos c) -> l <> [] \/ r = [] -> head_ptr (l ++ r) 0 <> pos c).
  { intros [|x l] r Hl' Hlr; cbn; [destruct Hlr as [?| ->]; [done|cbn; lia]|]. apply Hl'. by left. }
  split.
  - constructor; cbn [set_memory set_queue memoryBlock memory memoryBlockSize oldestReport reportsCount nextToTransmit]; try done.
    + apply Forall_app in Hok as [H1 H2]. apply Forall_cons in H2 as [_ H2]. by apply Forall_app.
    + by eapply chain_ext; [..|exact Hch].
    + eapply layout_sublist; [|by apply ok_positive|exact Hlay]. apply sublist_app; [done|by apply sublist_cons].
    + rewrite Hold. destruct P as [|x P]; cbn [app head_ptr].
      * by rewrite decide_True.
      * rewrite decide_False; [done|]. intros E. apply (HneP x); [by left|done].
    + rewrite Hcount, !length_app. cbn [length]. lia.
    + unfold fewer. rewrite !length_app in *. cbn [length] in *. case_decide; lia.
    + rewrite Hn, (drop_original P R c u Hu), (drop_removed P R c u Hu).
      destruct (decide (u = S (length R))) as [H1|H1]; [cbn [head_ptr]; by rewrite decide_True|].
      destruct (decide (length R < u)%nat) as [H2|H2].
      * assert (Hd : drop (length (P ++ c :: R) - u) P <> []).
        { intros E. apply (f_equal length) in E. rewrite length_drop, length_app in *. cbn [length] in *. lia. }
        destruct (drop (length (P ++ c :: R) - u) P) as [|x l] eqn:E; [done|]. cbn [app head_ptr]. rewrite decide_False; [done|].
        apply HneP. apply (sublist_subseteq _ _ (sublist_drop P (length (P ++ c :: R) - u))). rewrite E. by left.
      * rewrite decide_False; [done|]. pose proof (Hheads (drop (length R - u) R) []) as Hh. rewrite app_nil_r in Hh. apply Hh; [|by right].
        intros x Hx. apply HneR. by apply (sublist_subseteq _ _ (sublist_drop R (length R - u))).
  - cbn [set_memory set_queue lastEnqueuedReport]. rewrite Hl, last_ptr_app. destruct R as [|r R].
    + rewrite app_nil_r. cbn [last_ptr last]. unfold last_ptr at 1. cbn. by rewrite decide_True.
    + destruct (exists_last (l := r :: R) ltac:(done)) as (R0 & y & ER). rewrite ER. rewrite app_comm_cons, app_assoc, !last_ptr_snoc.
      rewrite decide_False; [done|]. apply HneR. rewrite ER. apply elem_of_app. right. by left.
Qed.

Lemma entry_at_ext self self' e nxt : memory self' = memory self -> memoryBlock self' = memoryBlock self ->
  entry_at self e nxt -> entry_at self' e nxt.
Proof. unfold entry_at. by intros -> ->. Qed.

(** The predecessor of [c] is linked to its successor. *)
Lemma unlink_memory self P c R u : queue self (P ++ c :: R) u -> exists m, wf_buf m (memoryBlockSize self) /\
  chain (set_memory self m) (P ++ R) 0 /\ entry_at (set_memory self m) c (head_ptr R 0) /\
  (if decide (pos c = oldestReport self) then Some (set_oldest self (head_ptr R 0), last_ptr P)
   else if decide (last_ptr P <> 0) then self1 ← link self (last_ptr P) (head_ptr R 0); Some (self1, last_ptr P)
   else Some (self, pos c)) =
    Some (set_memory (if decide (pos c = oldestReport self) then set_oldest self (head_ptr R 0) else self) m, last_ptr P).
Proof.
  intros [Hc Hl]. pose proof (q_base _ _ _ Hc) as Hb. pose proof (q_chain _ _ _ Hc) as Hch. pose proof (q_oldest _ _ _ Hc) as Hold.
  apply chain_app in Hch as [HchP [HchC HchR]]. cbn [head_ptr] in HchP.
  destruct (decide (P = [])) as [->|HP].
  - exists (memory self). split; [apply (q_mem _ _ _ Hc)|]. rewrite decide_True by done. split_and!.
    + by eapply chain_ext; [..|exact HchR].
    + by eapply entry_at_ext; [..|exact HchC].
    + symmetry in Hold. cbn [app head_ptr] in Hold. rewrite decide_True by done. by destruct self.
  - destruct (exists_last HP) as (P0 & l & ->). rewrite last_ptr_snoc. assert (Hno : pos c <> oldestReport self).
    { rewrite Hold. intros E. pose proof (core_distinct _ _ _ Hc) as Hnd. rewrite fmap_app in Hnd.
         apply NoDup_app in Hnd as (_ & Hd & _). apply (Hd (pos c)); [|by left]. rewrite E.
         destruct P0 as [|x P0]; cbn; by left. } rewrite decide_False by done.
    assert (Hll : l ∈ (P0 ++ [l]) ++ c :: R) by (apply elem_of_app; left; apply elem_of_app; right; by left).
    destruct (core_inside _ _ _ Hc l Hll) as [Hi1 Hi2]. pose proof (core_ok _ _ _ Hc l Hll) as Hokl.
    rewrite decide_True by lia. apply chain_app in HchP as [HchP0 [HchL _]].
    destruct (link_ok self l _ (head_ptr R 0) (q_mem _ _ _ Hc) Hokl HchL Hi1 Hi2) as (m & -> & Hw & Hat & Hun).
    cbn [mbind option_bind]. exists m. split; [done|].
    pose proof (q_ok _ _ _ Hc) as Hok. apply Forall_app in Hok as [HokP HokR]. apply Forall_app in HokP as [HokP0 _].
    apply Forall_cons in HokR as [Hokc HokR].
    destruct (layout_facts _ _ _ (ok_positive _ (q_ok _ _ _ Hc)) (q_layout _ _ _ Hc)) as [_ Hap].
    assert (HaP0 : Forall (fun e => apart l e) P0).
    { rewrite <- app_assoc in Hap. clear -Hap. induction P0 as [|x P0 IH]; [constructor|]. cbn in Hap. inversion Hap as [|? ? Hx Hap']; subst.
      constructor; [|by apply IH]. apply Forall_app in Hx as [_ Hx]. apply Forall_cons in Hx as [Hx _]. unfold apart in *. lia. }
    assert (HaR : Forall (fun e => apart l e) (c :: R)).
    { rewrite <- app_assoc in Hap. clear -Hap. induction P0 as [|x P0 IH]; cbn in Hap; inversion Hap as [|? ? Hx Hap']; subst; [done|by apply IH]. }
    assert (Hu : forall es, Forall (fun e => apart l e) es -> Forall (untouched self m) es).
    { intros es He. eapply Forall_impl; [exact He|]. exact Hun. }
    apply Forall_cons in HaR as [Hac HaR]. split_and!; [|apply entry_frame; [done|by apply Hun|done]|]; [|by rewrite decide_False].
    rewrite <- app_assoc. apply chain_app. split; [apply chain_frame; [done|by apply Hu|exact HchP0]|].
    split; [done|]. apply chain_frame; [done|by apply Hu|done].
Qed.

(** One step of the loop that removes [c]. *)
Lemma remove_step self P c R u : queue self (P ++ c :: R) u -> Forall keep P -> exists self1,
  ('(self, lastReport) ←
     (if decide (pos c = oldestReport self) then Some (set_oldest self (head_ptr R 0), last_ptr P)
      else if decide (last_ptr P <> 0) then self1 ← link self (last_ptr P) (head_ptr R 0); Some (self1, last_ptr P)
      else Some (self, pos c));
   let self := set_count self (reportsCount self - 1) in
   self ← (if decide (nextToTransmit self = pos c) then n ← next self (pos c); Some (set_next self n) else Some self);
   let self := if decide (lastEnqueuedReport self = pos c) then
       if decide (lastReport <> 0) then set_last self lastReport else set_last self (oldestReport self)
     else self in
   Some (self, lastReport)) = Some (self1, last_ptr P) /\
  queue self1 (P ++ R) (fewer u (length R)) /\ next self1 (pos c) = Some (head_ptr R 0) /\
  memoryBlock self1 = memoryBlock self /\ memoryBlockSize self1 = memoryBlockSize self /\ isOverflow self1 = isOverflow self.
Proof.
  intros Hq HP. destruct (unlink_memory self P c R u Hq) as (m & Hw & Hch & Hatm & ->). cbn [mbind option_bind].
  pose proof (unlinked self P c R u m Hq Hw Hch) as Hq1. set (self1 := set_memory (set_queue self _ _ _ _ _) m) in Hq1.
  pose proof Hq as [Hc Hl]. assert (Hce : c ∈ P ++ c :: R) by (apply elem_of_app; right; by left).
  pose proof (core_ok _ _ _ Hc c Hce) as Hokc. pose proof (core_head_range _ _ _ (proj1 Hq1) (length P)) as Hr.
  rewrite drop_app_length in Hr.
  assert (Hn1 : forall s, memory s = m -> memoryBlock s = memoryBlock self -> next s (pos c) = Some (head_ptr R 0)).
  { intros s Em Eb. apply (read_next s c); [|done|done]. by eapply entry_at_ext; [..|exact Hatm]. }
  exists self1. split; [|split_and!; try done; by apply Hn1].
  assert (Hlast : lastEnqueuedReport self = pos c -> last_ptr P = 0 -> R = [] /\ P = []).
  { intros E0 E1. pose proof (core_distinct _ _ _ Hc) as Hnd. split.
    - destruct R as [|r R]; [done|]. exfalso. rewrite Hl, last_ptr_app in E0.
      destruct (exists_last (l := r :: R) ltac:(done)) as (R0 & y & ER). rewrite ER, app_comm_cons, last_ptr_snoc in E0.
      rewrite fmap_app, ER in Hnd. apply NoDup_app in Hnd as (_ & _ & Hnd). rewrite fmap_cons in Hnd.
      apply NoDup_cons in Hnd as [Hnd _]. apply Hnd. rewrite <- E0. apply list_elem_of_fmap_2. apply elem_of_app. right. by left.
    - destruct P as [|x P] using rev_ind; [done|]. exfalso. rewrite last_ptr_snoc in E1.
      destruct (core_inside _ _ _ Hc x) as [Hx _]; [apply elem_of_app; left; apply elem_of_app; right; by left|].
      pose proof (q_base _ _ _ Hc). lia. }
  set (s0 := set_memory _ m). assert (Es : reportsCount s0 = reportsCount self /\ nextToTransmit s0 = nextToTransmit self /\
    lastEnqueuedReport s0 = lastEnqueuedReport self) by (unfold s0; by case_decide). destruct Es as (E1 & E2 & E3).
  assert (E4 : oldestReport s0 = if decide (pos c = oldestReport self) then head_ptr R 0 else oldestReport self) by (unfold s0; by case_decide).
  assert (E5 : set_count s0 (reportsCount s0 - 1) = set_memory (set_queue self (reportsCount self - 1) (oldestReport s0)
    (lastEnqueuedReport self) (nextToTransmit self) (isOverflow self)) m) by (unfold s0; by case_decide).
  rewrite E5. cbn [set_memory set_queue nextToTransmit]. clear E1 E2 E3 E5.
  match goal with |- context [set_memory ?s m] => idtac end.
  destruct (decide (nextToTransmit self = pos c)) as [Ht|Ht].
  all: rewrite ?Hn1 by done; rewrite E4; cbn; unfold self1; do 2 f_equal.
  all: destruct (decide (lastEnqueuedReport self = pos c)) as [Hlc|Hlc]; [|done].
  all: destruct (decide (last_ptr P <> 0)) as [Hp0|Hp0]; [done|].
  all: destruct (Hlast Hlc ltac:(by destruct (decide (last_ptr P = 0)))) as [-> ->]; cbn; pose proof (q_oldest _ _ _ Hc) as Hold.
  all: cbn in Hold; by rewrite decide_True.
Qed.

(** The reports left over by the removal of [c]. *)
Lemma unsent_filtered P c R u : ~ keep c -> (u <= length (P ++ c :: R))%nat ->
  filter keep (drop (length (P ++ R) - fewer u (length R)) (P ++ R)) = filter keep (drop (length (P ++ c :: R) - u) (P ++ c :: R)).
Proof.
  intros Hk Hu. rewrite (drop_removed P R c u Hu), (drop_original P R c u Hu).
  case_decide; [by rewrite filter_cons_False|]. case_decide; [|done]. by rewrite !filter_app, filter_cons_False.
Qed.

Lemma filter_keep es : Forall keep es -> filter keep es = es.
Proof. induction 1 as [|e es He _ IH]; [done|]. by rewrite filter_cons_True, IH. Qed.

Lemma removeAllGI_loop_spec fuel : forall R P self u, queue self (P ++ R) u -> Forall keep P -> (length R < fuel)%nat ->
  exists self', removeAllGIReports_loop fuel self (head_ptr R 0) (last_ptr P) = Some self' /\
    queue self' (P ++ filter keep R) (length (filter keep (drop (length (P ++ R) - u) (P ++ R)))) /\
    memoryBlock self' = memoryBlock self /\ memoryBlockSize self' = memoryBlockSize self /\ isOverflow self' = isOverflow self.
Proof.
  induction fuel as [|fuel IH]; intros R P self u Hq HP Hf; [lia|]. cbn [removeAllGIReports_loop].
  destruct R as [|c R].
  - cbn [head_ptr]. rewrite decide_False by lia. exists self. split; [done|]. split; [|done].
    rewrite filter_nil, app_nil_r in *. pose proof (q_unsent _ _ _ (proj1 Hq)) as Hu.
    replace (length (filter keep (drop (length P - u) P))) with u; [done|].
    rewrite filter_keep by (by apply Forall_drop). rewrite length_drop. lia.
  - pose proof Hq as [Hc Hl]. assert (Hce : c ∈ P ++ c :: R) by (apply elem_of_app; right; by left).
    destruct (core_inside _ _ _ Hc c Hce) as [Hi1 Hi2]. pose proof (core_ok _ _ _ Hc c Hce) as Hokc. pose proof (q_base _ _ _ Hc) as Hb.
    assert (Hk : (P ++ c :: R) !! length P = Some c) by (by rewrite lookup_app_r, Nat.sub_diag by lia).
    pose proof (core_entry _ _ _ Hc _ _ Hk) as Hat. pose proof (core_next _ _ _ Hc _ _ Hk) as Hn.
    assert (Hd : drop (S (length P)) (P ++ c :: R) = R).
    { rewrite drop_app_ge by lia. replace (S (length P) - length P)%nat with 1%nat by lia. done. }
    rewrite Hd in *. cbn [head_ptr]. rewrite decide_True by lia. rewrite (read_flags _ _ _ Hat Hokc). cbn [mbind option_bind].
    destruct (decide (keep c)) as [Hkc|Hkc].
    + rewrite Hkc. cbn [mbind option_bind]. rewrite Hn. cbn [mbind option_bind].
      destruct (IH R (P ++ [c]) self u) as (self' & E & Hq' & Hs); [by rewrite <- app_assoc|by apply Forall_app; split; [|apply Forall_singleton]|cbn in Hf; lia|].
      rewrite last_ptr_snoc in E. exists self'. split; [exact E|]. split; [|done]. rewrite <- !app_assoc in Hq'. cbn [app] in Hq'.
      rewrite filter_cons_True by done. exact Hq'.
    + assert (HGI : isGI (fl c) = true) by (unfold keep in Hkc; by destruct (isGI (fl c))). rewrite HGI, Hn. cbn [mbind option_bind].
      destruct (remove_step self P c R u Hq HP) as (self1 & E1 & Hq1 & Hn1 & Hb1 & Hs1 & Ho1). cbn [mbind option_bind] in E1. rewrite E1.
      cbn [mbind option_bind]. rewrite Hn1. cbn [mbind option_bind].
      destruct (IH R P self1 _ Hq1 HP ltac:(cbn in Hf; lia)) as (self' & E & Hq' & Hb' & Hs' & Ho'). exists self'. split; [exact E|].
      rewrite (unsent_filtered P c R u) in Hq' by (done || apply (q_unsent _ _ _ Hc)). rewrite filter_cons_False by done.
      split; [exact Hq'|]. split_and!; congruence.
Qed.

(** ** The operations on the queue *)

(** A new buffer and a purged one are empty. *)
Lemma create_queue size base mem o self o' : create size base mem o = Some (Some self, o') ->
  0 < base -> base + size < 18446744073709551616 -> wf_buf mem size -> 0 <= size ->
  queue self [] 0 /\ isOverflow self = true /\ memoryBlock self = base /\ memoryBlockSize self = size.
Proof.
  unfold create. intros E Hb Hs Hm H0. destruct o as [|[] [|[] o]]; cbn in E; inversion E; subst; cbn.
  all: split; [|done]; split; [|done]; constructor; cbn; try done; try lia.
  all: exists [], []; split_and!; try done; cbn; lia.
Qed.

Lemma purge_queue self es u : queue self es u -> queue (purge self) [] 0.
Proof.
  intros [[Hb Hm _ _ _ _ _ _ _] _]. split; [|done]. constructor; cbn; try done; try lia.
  destruct Hm as [_ Hl]. exists [], []. split_and!; try done; cbn; lia.
Qed.

Lemma removeAllGIReports_queue self es u : queue self es u ->
  exists self', removeAllGIReports self = Some self' /\
    queue self' (filter keep es) (length (filter keep (drop (length es - u) es))) /\
    memoryBlock self' = memoryBlock self /\ memoryBlockSize self' = memoryBlockSize self /\ isOverflow self' = isOverflow self.
Proof.
  intros Hq. pose proof Hq as [Hc _]. unfold removeAllGIReports. rewrite (q_oldest _ _ _ Hc).
  pose proof (layout_length _ _ _ (ok_positive _ (q_ok _ _ _ Hc)) (q_layout _ _ _ Hc)).
  destruct (removeAllGI_loop_spec (S (S (Z.to_nat (memoryBlockSize self)))) es [] self u Hq) as (self' & E & Hq' & Hs); [done|lia|].
  cbn [app] in *. change (last_ptr []) with 0 in E. rewrite E. cbn [mbind option_bind]. exists self'. destruct Hs as (Hb & Hs & Ho).
  case_decide as H0; [|done]. replace (set_last self' 0) with self'; [done|]. unfold set_last, set_queue.
  destruct Hq' as [Hc' Hl']. rewrite (q_oldest _ _ _ Hc') in H0. destruct (filter keep es) as [|x l]; [|].
  - change (last_ptr []) with 0 in Hl'. rewrite <- Hl'. by destruct self'.
  - exfalso. destruct (core_inside _ _ _ Hc' x ltac:(left)). pose proof (q_base _ _ _ Hc'). cbn in H0. lia.
Qed.

(** Sending a report; nothing is left of the overflow. *)
Lemma transmitted_queue self es u e : queue self es (S u) -> es !! (length es - S u)%nat = Some e ->
  nextToTransmit self = pos e /\
  exists self', transmitted self = Some self' /\ queue self' es u /\ isOverflow self' = false /\ memoryBlockSize self' = memoryBlockSize self.
Proof.
  intros [Hc Hl] He. pose proof Hc as [Hb Hm Hok Hch Hlay Hold Hcount Hu Hn]. unfold transmitted.
  rewrite (drop_S _ _ _ He) in Hn. cbn [head_ptr] in Hn. split; [done|].
  rewrite Hn, (core_next _ _ _ Hc _ _ He). cbn [mbind option_bind].
  eexists. split; [done|]. split; [|done]. split; [|done]. constructor; cbn; try done; try lia.
  - by eapply chain_ext; [..|exact Hch].
  - f_equal. f_equal. lia.
Qed.

(** Where the entry with an identifier is. *)
Definition position (id : list Z) (es : list entry) : option nat := fst <$> list_find (fun e => ReportBuffer.id e = id) es.

Lemma findEntryID_loop_spec fuel self es u i : core self es u ->
  forall n, (length es - n < fuel)%nat -> (n <= length es)%nat ->
  findEntryID_loop fuel self (head_ptr (drop n es) 0) i =
    Some (match position i (drop n es) with
          | Some k => (set_next self (head_ptr (drop (S (n + k)) es) 0), true)
          | None => (self, false)
          end).
Proof.
  intros Hc. induction fuel as [|fuel IH]; intros n Hf Hn; [lia|]. cbn [findEntryID_loop].
  destruct (decide (n = length es)) as [->|Hne]; [by rewrite drop_all|].
  destruct (lookup_lt_is_Some_2 es n ltac:(lia)) as [e He]. rewrite (drop_S _ _ _ He). cbn [head_ptr].
  assert (Hin : e ∈ es) by (by eapply list_elem_of_lookup_2).
  destruct (core_inside _ _ _ Hc e Hin). pose proof (q_base _ _ _ Hc). rewrite decide_True by lia.
  rewrite (read_id self e _ (core_entry _ _ _ Hc _ _ He) (core_ok _ _ _ Hc e Hin)), (core_next _ _ _ Hc _ _ He).
  cbn [mbind option_bind]. unfold position. cbn [list_find]. case_decide as Hi.
  - cbn. by rewrite Nat.add_0_r.
  - rewrite (IH (S n)) by lia. unfold position. destruct (list_find _ _) as [[k x]|]; cbn; [|done]. by rewrite Nat.add_succ_r.
Qed.

Lemma findEntryID_queue self es u i : queue self es u ->
  exists self' b, findEntryID self i = Some (self', b) /\
    match position i es with
    | Some k => b = true /\ queue self' es (length es - S k) /\ memoryBlockSize self' = memoryBlockSize self
    | None => b = false /\ self' = self
    end.
Proof.
  intros [Hc Hl]. pose proof (layout_length _ _ _ (ok_positive _ (q_ok _ _ _ Hc)) (q_layout _ _ _ Hc)).
  unfold findEntryID. rewrite (q_oldest _ _ _ Hc). change (head_ptr es 0) with (head_ptr (drop 0 es) 0).
  rewrite (findEntryID_loop_spec _ _ _ _ _ Hc) by lia. unfold position. rewrite drop_0. cbn [Nat.add].
  destruct (list_find _ es) as [[k x]|] eqn:E; cbn [fmap option_fmap option_map fst]; [|by exists self, false].
  apply list_find_Some in E as (E & _ & _). apply lookup_lt_Some in E.
  eexists _, true. split; [done|]. split; [done|]. destruct Hc as [Hb Hm Hok Hch Hlay Hold Hcount Hu Hn]. split; [split; [|done]|done].
  constructor; cbn; try done; try lia.
  - by eapply chain_ext; [..|exact Hch].
  - f_equal. f_equal. lia.
Qed.

(** *** Filling a new entry

    The state while the entry at [p] with its [size] octets is written. *)
Record filling (self : ReportBuffer) (es : list entry) (u : nat) (p size : Z) : Prop := {
  f_base : 0 < memoryBlock self /\ memoryBlock self + memoryBlockSize self < 18446744073709551616;
  f_mem : wf_buf (memory self) (memoryBlockSize self);
  f_ok : Forall entry_ok es;
  f_chain : chain self es p;
  f_gap : gap (memoryBlock self) (memoryBlock self + memoryBlockSize self) p size es;
  f_oldest : match es with [] => oldestReport self = p \/ oldestReport self = 0 | e :: _ => oldestReport self = pos e end;
  f_last : lastEnqueuedReport self = p;
  f_link : bytes_at (memory self) (p + 24 - memoryBlock self) (le_bytes 8 0);
  f_count : reportsCount self = zlen es + 1;
  f_unsent : (u <= length es)%nat;
  f_next : nextToTransmit self = head_ptr (drop (length es - u) es) 0 \/ es = [] /\ nextToTransmit self = p;
}.

Lemma ascending_snoc lo l e : positive l -> ascending lo l -> lo <= pos e -> end_of lo l <= pos e ->
  ascending lo (l ++ [e]) /\ end_of lo (l ++ [e]) = pos e + len e.
Proof.
  revert lo. induction l as [|x l IH]; intros lo Hp Ha Hlo He; cbn in *; [done|].
  apply Forall_cons in Hp as [Hx Hp]. destruct Ha as [Hxlo Ha]. pose proof (end_of_ge _ _ Hp Ha).
  destruct (IH (pos x + len x) Hp Ha ltac:(lia) He) as [H1 H2]. by split.
Qed.

Section Filling.
Context (self : ReportBuffer) (es : list entry) (u : nat) (p size : Z) (Hsize : sizeof_entry <= size).

Lemma gap_inside : Forall entry_ok es -> gap (memoryBlock self) (memoryBlock self + memoryBlockSize self) p size es ->
  memoryBlock self <= p /\ p + size <= memoryBlock self + memoryBlockSize self /\
  forall m, (forall j, j < p - memoryBlock self \/ p - memoryBlock self + size <= j -> rd m j = rd (memory self) j) ->
    Forall (untouched self m) es.
Proof.
  intros Hok Hg. pose proof Hsize as H0. unfold sizeof_entry in H0. pose proof (gap_apart _ _ p size es (ok_positive _ Hok) ltac:(lia) Hg) as Ha.
  destruct Hg as (U & L & _ & _ & ? & _ & _ & _ & ?). split; [lia|]. split; [lia|]. intros m Hm.
  eapply Forall_impl; [exact Ha|]. cbn. intros e He j Hj. apply Hm. lia.
Qed.

Lemma start_filling : room self es u p size p -> exists self', start_entry self p = Some self' /\ filling self' es u p size /\
  memoryBlock self' = memoryBlock self /\ memoryBlockSize self' = memoryBlockSize self /\ isOverflow self' = isOverflow self.
Proof.
  intros [Hb Hm Hok Hch Hg Ho Hc Hu Hn]. destruct (gap_inside Hok Hg) as (Hlo & Hhi & Hunt). unfold start_entry, link.
  unfold sizeof_entry in *.
  destruct (store_ok (set_last self p) (p + 24) (le_bytes 8 0) Hm (le_bytes_bytes 8 0)) as (m & -> & Hw & Hat & Hf);
    [cbn; lia|cbn; lia|]. cbn [mbind option_bind]. rewrite le_bytes_length in Hf. cbn [set_last set_queue memoryBlock memory] in *.
  eexists. split; [done|]. split; [|done]. constructor; cbn; try done; [|lia].
  eapply (chain_ext (set_memory self m)); [done|done|]. apply chain_frame; [done| |done]. apply Hunt. intros j Hj. apply Hf. lia.
Qed.

(** Writing octets in the new entry, but not on its link. *)
Lemma filling_store q xs : filling self es u p size -> is_bytes xs -> p <= q -> q + zlen xs <= p + size ->
  q + zlen xs <= p + 24 \/ p + 32 <= q ->
  exists m, store self q xs = Some (set_memory self m) /\ filling (set_memory self m) es u p size /\
    bytes_at m (q - memoryBlock self) xs /\
    forall j, j < q - memoryBlock self \/ q - memoryBlock self + zlen xs <= j -> rd m j = rd (memory self) j.
Proof.
  intros [Hb Hm Hok Hch Hg Ho Hl Hk Hc Hu Hn] Hx Hq1 Hq2 Hq3. destruct (gap_inside Hok Hg) as (Hlo & Hhi & Hunt).
  destruct (store_ok self q xs Hm Hx) as (m & E & Hw & Hat & Hf); [lia|lia|]. exists m. split; [done|]. split; [|done].
  constructor; try done.
  - apply chain_frame; [done| |done]. apply Hunt. intros j Hj. apply Hf. lia.
  - eapply bytes_at_frame; [exact Hk|]. intros j Hj. rewrite le_bytes_length in Hj. apply Hf. cbn in Hj. lia.
Qed.

End Filling.

(** The new entry is the last one of the queue, and the last one to be sent. *)
Lemma finish_queue self es u e : filling self es u (pos e) (len e) -> entry_ok e ->
  bytes_at (memory self) (pos e - memoryBlock self) (id e ++ le_bytes 8 (time e) ++ le_bytes 4 (word e)) ->
  bytes_at (memory self) (pos e + sizeof_entry - memoryBlock self) (body e) ->
  queue (finish_entry self) (es ++ [e]) (S u).
Proof.
  intros [Hb Hm Hok Hch Hg Ho Hl Hk Hc Hu Hn] He Hhead Hbody.
  assert (Hsize : sizeof_entry <= len e) by (destruct He; lia).
  destruct (gap_inside self es (pos e) (len e) Hsize Hok Hg) as (Hlo & Hhi & _). unfold sizeof_entry in *.
  assert (Hne : forall x, x ∈ es -> pos x <> 0).
  { intros x Hx. pose proof (gap_apart _ _ (pos e) (len e) es (ok_positive _ Hok) ltac:(lia) Hg) as Ha. rewrite Forall_forall in Ha.
    destruct (Ha x Hx). lia. }
  set (nt := if decide (nextToTransmit self = 0) then pos e else nextToTransmit self).
  set (od := if decide (oldestReport self = 0) then pos e else oldestReport self).
  assert (Ef : finish_entry self = set_queue self (reportsCount self) od (lastEnqueuedReport self) nt (isOverflow self)).
  { unfold finish_entry, nt, od. rewrite <- Hl. clear. destruct self; unfold set_next, set_oldest, set_queue; cbn.
    by repeat (case_decide; cbn; try done). }
  rewrite Ef. split; [|by rewrite last_ptr_snoc]. constructor; try done.
  - apply Forall_app. by split; [|apply Forall_singleton].
  - eapply (chain_ext self); [done|done|]. apply chain_app. split; [exact Hch|]. cbn. split; [|done]. split_and!.
    + done.
    + by replace (pos e - memoryBlock self + 24) with (pos e + 24 - memoryBlock self) by lia.
    + unfold sizeof_entry. by replace (pos e - memoryBlock self + 32) with (pos e + 32 - memoryBlock self) by lia.
  - destruct Hg as (U & L & -> & HL & H1 & H2 & H3 & H4 & H5). exists U, (L ++ [e]). rewrite app_assoc. split; [done|].
    cbn [set_queue memoryBlock memoryBlockSize].
    destruct (ascending_snoc (memoryBlock self) L e) as [H6 H7]; [|done|done|done|].
    { apply ok_positive. by apply Forall_app in Hok as [_ ?]. }
    split; [done|]. rewrite H7. by split.
  - cbn. unfold od. destruct es as [|x l]; cbn.
    + destruct Ho as [->| ->]; case_decide; done || lia.
    + rewrite Ho, decide_False; [done|]. apply Hne. by left.
  - cbn. rewrite length_app. cbn. lia.
  - rewrite length_app. cbn. lia.
  - cbn. unfold nt. rewrite length_app. cbn [length]. replace (length es + 1 - S u)%nat with (length es - u)%nat by lia.
    rewrite drop_app_le by lia. destruct Hn as [Hn|[-> Hn]]; [|rewrite Hn, drop_nil; cbn; by case_decide].
    rewrite Hn. destruct (drop (length es - u) es) as [|x l] eqn:E; [done|]. cbn. rewrite decide_False; [done|].
    apply Hne, (sublist_subseteq _ _ (sublist_drop es (length es - u))). rewrite E. by left.
Qed.

End ReportBuffer.
