(* ===== verification/Reporting.v ===== *)
(** * Reports

    [src/iec61850/server/mms_mapping/reporting.c]: how a report control block collects the
    changes of its data set and puts reports about them into the report buffer.

    The values of the data model are a function from addresses ([values]); the entries of the
    data set and the value references of the report control block are addresses.  The shadow
    values [bufferedDataSetValues] are owned by the report control block.  The times that
    [Hal_getTimeInMs] and [Hal_getMonotonicTimeInMs] return are arguments. *)

From Stdlib Require Import Sorted.
From stdpp Require Import list.
From S2P Require Import Prelude Alloc BerDecoder BerEncoder BerInteger MmsValue MmsData ServerCommon ReportBuffer.

Module Reporting.
Import Alloc MmsValue MmsData ServerCommon.
Import ReportBuffer (ReportBuffer, sizeof_entry).
#[local] Open Scope alloc_scope.

Definition TRG_OPT_INTEGRITY : Z := 8.
Definition TRG_OPT_GI : Z := 16.

Definition REPORT_CONTROL_NONE : Z := 0.
Definition REPORT_CONTROL_NOT_UPDATED : Z := 8.

(** A data set is known by its address; one of a client or of the whole device has no logical
    device. *)
Record DataSet := {
  address : nat;
  logicalDeviceName : option (list Z);
  dataSetName : list Z;
  elementCount : Z;
  fcdas : list (option nat)
}.

Record Server := { syncIntegrityReportTimes : bool; rcbEventHandler : bool }.

Inductive Event := RCB_EVENT_OVERFLOW | RCB_EVENT_REPORT_CREATED.

(** [rcbEntryID] is the element [EntryID] of [rcbValues]: size, maximum size and octets of the
    octet string. *)
Record ReportControl := {
  inclusionField : option (Z * list Z);
  dataSet : option DataSet;
  enabled : bool;
  buffered : bool;
  isBuffering : bool;
  bufferedDataSetValues : list (option MmsValue);
  valueReferences : list (option nat);
  gi : bool;
  intgPd : Z;
  bufTm : Z;
  nextIntgReportTime : Z;
  lastEntryId : Z;
  triggerOps : Z;
  inclusionFlags : list Z;
  triggered : bool;
  reportTime : Z;
  isResync : bool;
  reportBuffer : ReportBuffer;
  timeOfEntry : Z * list Z;
  rcbEntryID : Z * Z * list Z;
  server : option Server
}.

Definition set_reportBuffer (rc : ReportControl) (x : ReportBuffer) : ReportControl :=
  {| inclusionField := inclusionField rc; dataSet := dataSet rc; enabled := enabled rc; buffered := buffered rc;
     isBuffering := isBuffering rc; bufferedDataSetValues := bufferedDataSetValues rc; valueReferences := valueReferences rc;
     gi := gi rc; intgPd := intgPd rc; bufTm := bufTm rc; nextIntgReportTime := nextIntgReportTime rc;
     lastEntryId := lastEntryId rc; triggerOps := triggerOps rc; inclusionFlags := inclusionFlags rc; triggered := triggered rc;
     reportTime := reportTime rc; isResync := isResync rc; reportBuffer := x; timeOfEntry := timeOfEntry rc;
     rcbEntryID := rcbEntryID rc; server := server rc |}.
Definition set_ids (rc : ReportControl) (last : Z) (entry : Z * Z * list Z) : ReportControl :=
  {| inclusionField := inclusionField rc; dataSet := dataSet rc; enabled := enabled rc; buffered := buffered rc;
     isBuffering := isBuffering rc; bufferedDataSetValues := bufferedDataSetValues rc; valueReferences := valueReferences rc;
     gi := gi rc; intgPd := intgPd rc; bufTm := bufTm rc; nextIntgReportTime := nextIntgReportTime rc;
     lastEntryId := last; triggerOps := triggerOps rc; inclusionFlags := inclusionFlags rc; triggered := triggered rc;
     reportTime := reportTime rc; isResync := isResync rc; reportBuffer := reportBuffer rc; timeOfEntry := timeOfEntry rc;
     rcbEntryID := entry; server := server rc |}.
Definition set_timeOfEntry (rc : ReportControl) (x : list Z) : ReportControl :=
  {| inclusionField := inclusionField rc; dataSet := dataSet rc; enabled := enabled rc; buffered := buffered rc;
     isBuffering := isBuffering rc; bufferedDataSetValues := bufferedDataSetValues rc; valueReferences := valueReferences rc;
     gi := gi rc; intgPd := intgPd rc; bufTm := bufTm rc; nextIntgReportTime := nextIntgReportTime rc;
     lastEntryId := lastEntryId rc; triggerOps := triggerOps rc; inclusionFlags := inclusionFlags rc; triggered := triggered rc;
     reportTime := reportTime rc; isResync := isResync rc; reportBuffer := reportBuffer rc;
     timeOfEntry := (fst (timeOfEntry rc), x); rcbEntryID := rcbEntryID rc; server := server rc |}.
(** What the trigger conditions change. *)
Definition set_trigger (rc : ReportControl) (triggered' gi' : bool) (next time : Z) : ReportControl :=
  {| inclusionField := inclusionField rc; dataSet := dataSet rc; enabled := enabled rc; buffered := buffered rc;
     isBuffering := isBuffering rc; bufferedDataSetValues := bufferedDataSetValues rc; valueReferences := valueReferences rc;
     gi := gi'; intgPd := intgPd rc; bufTm := bufTm rc; nextIntgReportTime := next;
     lastEntryId := lastEntryId rc; triggerOps := triggerOps rc; inclusionFlags := inclusionFlags rc; triggered := triggered';
     reportTime := time; isResync := isResync rc; reportBuffer := reportBuffer rc; timeOfEntry := timeOfEntry rc;
     rcbEntryID := rcbEntryID rc; server := server rc |}.
(** The pending changes: their flags and values. *)
Definition set_changes (rc : ReportControl) (flags : list Z) (vals : list (option MmsValue)) : ReportControl :=
  {| inclusionField := inclusionField rc; dataSet := dataSet rc; enabled := enabled rc; buffered := buffered rc;
     isBuffering := isBuffering rc; bufferedDataSetValues := vals; valueReferences := valueReferences rc;
     gi := gi rc; intgPd := intgPd rc; bufTm := bufTm rc; nextIntgReportTime := nextIntgReportTime rc;
     lastEntryId := lastEntryId rc; triggerOps := triggerOps rc; inclusionFlags := flags; triggered := triggered rc;
     reportTime := reportTime rc; isResync := isResync rc; reportBuffer := reportBuffer rc; timeOfEntry := timeOfEntry rc;
     rcbEntryID := rcbEntryID rc; server := server rc |}.
Definition set_resync (rc : ReportControl) (b : bool) : ReportControl :=
  {| inclusionField := inclusionField rc; dataSet := dataSet rc; enabled := enabled rc; buffered := buffered rc;
     isBuffering := isBuffering rc; bufferedDataSetValues := bufferedDataSetValues rc; valueReferences := valueReferences rc;
     gi := gi rc; intgPd := intgPd rc; bufTm := bufTm rc; nextIntgReportTime := nextIntgReportTime rc;
     lastEntryId := lastEntryId rc; triggerOps := triggerOps rc; inclusionFlags := inclusionFlags rc; triggered := triggered rc;
     reportTime := reportTime rc; isResync := b; reportBuffer := reportBuffer rc; timeOfEntry := timeOfEntry rc;
     rcbEntryID := rcbEntryID rc; server := server rc |}.
Definition set_triggered (rc : ReportControl) (b : bool) : ReportControl :=
  set_trigger rc b (gi rc) (nextIntgReportTime rc) (reportTime rc).
Definition set_gi (rc : ReportControl) (b : bool) : ReportControl :=
  set_trigger rc (triggered rc) b (nextIntgReportTime rc) (reportTime rc).
Definition set_nextIntgReportTime (rc : ReportControl) (t : Z) : ReportControl :=
  set_trigger rc (triggered rc) (gi rc) t (reportTime rc).
Definition set_reportTime (rc : ReportControl) (t : Z) : ReportControl :=
  set_trigger rc (triggered rc) (gi rc) (nextIntgReportTime rc) t.

Definition purgeBuf (rc : ReportControl) : ReportControl :=
  set_reportBuffer (set_triggered rc false) (ReportBuffer.purge (reportBuffer rc)).

Definition updateTimeOfEntry (self : ReportControl) (currentTime : Z) : option ReportControl :=
  let '(size, buf) := timeOfEntry self in
  buf ← setBinaryTime size buf currentTime; Some (set_timeOfEntry self buf).

(** Sums of sizes are [int]s. *)
Definition int_add (a b : Z) : option Z := if decide (a + b < 2147483648) then Some (a + b) else None.

(** ** Making reports *)

Section Model.
Context (values : nat -> option MmsValue).

(** The value of an entry of the data set, or the error in its place. *)
Definition entry_value (value : option nat) : option MmsValue :=
  match value with Some a => values a | None => Some (MmsDataAccessError DATA_ACCESS_ERROR_OBJECT_VALUE_INVALID) end.

Definition encoded_size (v : MmsValue) : option Z := '(_, n) ← encodeMmsData v [] 0 false; Some n.

(** The first loop of an integrity or general interrogation report. *)
Fixpoint snapshot_size (n : nat) (dataSetEntry : list (option nat)) (dataBlockSize : Z) : option Z :=
  match n with
  | O => Some dataBlockSize
  | S n =>
      match dataSetEntry with
      | value :: sibling =>
          v ← entry_value value; encodedSize ← encoded_size v;
          dataBlockSize ← int_add dataBlockSize encodedSize;
          snapshot_size n sibling dataBlockSize
      | [] => None
      end
  end.

(** [bufferedDataSetValues[i]]; it must not be [NULL]. *)
Definition buffered_value (rc : ReportControl) (i : Z) : option MmsValue :=
  v ← bufferedDataSetValues rc !! Z.to_nat i; v.

(** The first loop of a report about changes. *)
Fixpoint events_size (n : nat) (rc : ReportControl) (i dataBlockSize reasonForInclusionSize : Z) : option (Z * Z) :=
  match n with
  | O => Some (dataBlockSize, reasonForInclusionSize)
  | S n =>
      flag ← (inclusionFlags rc).[i];
      if decide (flag <> REPORT_CONTROL_NONE) then
        v ← buffered_value rc i; encodedSize ← encoded_size v;
        dataBlockSize ← int_add dataBlockSize encodedSize;
        events_size n rc (i + 1) dataBlockSize (reasonForInclusionSize + 1)
      else events_size n rc (i + 1) dataBlockSize reasonForInclusionSize
  end.

(** [MmsValue_encodeMmsData] at a pointer into the block: what it returns. *)
Definition encode_at (rb : ReportBuffer) (p : Z) (v : MmsValue) : option (ReportBuffer * Z) :=
  let q := p - ReportBuffer.memoryBlock rb in
  '(m, q') ← encodeMmsData v (ReportBuffer.memory rb) q true; Some (ReportBuffer.set_memory rb m, q' - q).

Fixpoint snapshot_data (n : nat) (dataSetEntry : list (option nat)) (rb : ReportBuffer) (p : Z) : option (ReportBuffer * Z) :=
  match n with
  | O => Some (rb, p)
  | S n =>
      match dataSetEntry with
      | value :: sibling =>
          v ← entry_value value; '(rb, k) ← encode_at rb p v; snapshot_data n sibling rb (p + k)
      | [] => None
      end
  end.

(** A bit of the inclusion bit string, whose octets are at [p]. *)
Definition set_inclusion_bit (rb : ReportBuffer) (p size i : Z) : option ReportBuffer :=
  bits ← ReportBuffer.load (Z.to_nat (getBitStringByteSize size)) rb p;
  bits ← setBitStringBit size bits i true; ReportBuffer.store rb p bits.

Fixpoint event_data (n : nat) (rc : ReportControl) (size i : Z) (rb : ReportBuffer) (inclusion p : Z) : option (ReportBuffer * Z) :=
  match n with
  | O => Some (rb, p)
  | S n =>
      flag ← (inclusionFlags rc).[i];
      if decide (flag <> REPORT_CONTROL_NONE) then
        rb ← set_inclusion_bit rb inclusion size i;
        v ← buffered_value rc i; '(rb, k) ← encode_at rb p v; event_data n rc size (i + 1) rb inclusion (p + k)
      else event_data n rc size (i + 1) rb inclusion p
  end.

Fixpoint event_reasons (n : nat) (rc : ReportControl) (i : Z) (rb : ReportBuffer) (p : Z) : option (ReportBuffer * Z) :=
  match n with
  | O => Some (rb, p)
  | S n =>
      flag ← (inclusionFlags rc).[i];
      if decide (flag <> REPORT_CONTROL_NONE) then
        rb ← ReportBuffer.store rb p [u8 flag]; event_reasons n rc (i + 1) rb (p + 1)
      else event_reasons n rc (i + 1) rb p
  end.

Fixpoint clear_loop (n : nat) (i : Z) (flags : list Z) : option (list Z) :=
  match n with O => Some flags | S n => flags ← flags.[i]:= REPORT_CONTROL_NONE; clear_loop n (i + 1) flags end.
Definition clearInclusionFlags (rc : ReportControl) : option ReportControl :=
  ds ← dataSet rc; flags ← clear_loop (Z.to_nat (elementCount ds)) 0 (inclusionFlags rc);
  Some (set_changes rc flags (bufferedDataSetValues rc)).

(** The identifier of an entry: its time, or the successor of the last identifier. *)
Definition next_entry_id (rc : ReportControl) (timeOfEntry : Z) : Z :=
  if decide (timeOfEntry <= lastEntryId rc) then u64 (lastEntryId rc + 1) else timeOfEntry.

Definition identify (rc : ReportControl) (rb : ReportBuffer) (entry timeOfEntry : Z) : option (ReportControl * ReportBuffer) :=
  if buffered rc then
    let id := next_entry_id rc timeOfEntry in
    rb ← ReportBuffer.store rb entry (be_bytes 8 id);
    rcbEntryID ←
      (if enabled rc then Some (rcbEntryID rc)
       else
         let '(size, maxSize, buf) := rcbEntryID rc in
         stored ← ReportBuffer.entryId rb entry;
         '(size, buf) ← setOctetString size maxSize buf stored 0 8; Some (size, maxSize, buf));
    Some (set_ids rc id rcbEntryID, rb)
  else Some (rc, rb).

Definition notify (rc : ReportControl) (overflow : bool) : list Event :=
  match server rc with
  | Some s => if rcbEventHandler s then (if overflow then [RCB_EVENT_OVERFLOW] else []) ++ [RCB_EVENT_REPORT_CREATED] else []
  | None => []
  end.

(** The octets of the new entry behind its header. *)
Definition fill_entry (rc : ReportControl) (rb : ReportBuffer) (p size dataBlockSize : Z) (snapshot : bool) : option ReportBuffer :=
  let n := Z.to_nat size in
  if snapshot then
    ds ← dataSet rc;
    rb ← ReportBuffer.store rb p (le_bytes 4 dataBlockSize);
    '(rb, _) ← snapshot_data n (fcdas ds) rb (p + 4); Some rb
  else
    let inclusionFieldSize := ReportBuffer.getAlignedSize (getBitStringByteSize size) in
    rb ← ReportBuffer.store rb p (replicate (Z.to_nat inclusionFieldSize) 0);
    let q := p + inclusionFieldSize in
    rb ← ReportBuffer.store rb q (le_bytes 4 dataBlockSize);
    '(rb, q) ← event_data n rc size 0 rb p (q + 4);
    '(rb, _) ← event_reasons n rc 0 rb q; Some rb.

(** The sizes of the encoded data and of the entry. *)
Definition entry_size (rc : ReportControl) (size : Z) (snapshot : bool) : option (Z * Z) :=
  let n := Z.to_nat size in
  if snapshot then
    ds ← dataSet rc;
    dataBlockSize ← snapshot_size n (fcdas ds) 0;
    k ← int_add 4 dataBlockSize;
    bufferEntrySize ← int_add sizeof_entry (ReportBuffer.getAlignedSize k);
    Some (dataBlockSize, bufferEntrySize)
  else
    let inclusionFieldSize := ReportBuffer.getAlignedSize (getBitStringByteSize size) in
    '(dataBlockSize, reasonForInclusionSize) ← events_size n rc 0 0 0;
    k ← int_add 4 dataBlockSize; k ← int_add k reasonForInclusionSize;
    bufferEntrySize ← int_add (sizeof_entry + inclusionFieldSize) (ReportBuffer.getAlignedSize k);
    Some (dataBlockSize, bufferEntrySize).

Definition enqueueReport (rc : ReportControl) (isIntegrity isGI : bool) (timeOfEntry now : Z) : option (ReportControl * list Event) :=
  rc ← updateTimeOfEntry rc now;
  '(inclusionBitStringSize, _) ← inclusionField rc;
  let snapshot := isIntegrity || isGI in
  '(dataBlockSize, bufferEntrySize) ← entry_size rc inclusionBitStringSize snapshot;
  if decide (bufferEntrySize > ReportBuffer.memoryBlockSize (reportBuffer rc)) then Some (rc, notify rc false)
  else
    rb ← (if buffered rc && isGI then ReportBuffer.removeAllGIReports (reportBuffer rc) else Some (reportBuffer rc));
    '(rb, entry, overflow) ← ReportBuffer.reserve rb bufferEntrySize;
    rb ← ReportBuffer.start_entry rb entry;
    rb ← ReportBuffer.store rb (entry + 8) (le_bytes 8 timeOfEntry);
    '(rc, rb) ← identify rc rb entry timeOfEntry;
    rb ← ReportBuffer.set_flags rb entry (if isIntegrity then 1 else if isGI then 2 else 0);
    rb ← ReportBuffer.set_entryLength rb entry bufferEntrySize;
    rb ← fill_entry rc rb (entry + sizeof_entry) inclusionBitStringSize dataBlockSize snapshot;
    rc ← clearInclusionFlags rc;
    let rc := set_reportBuffer rc (ReportBuffer.finish_entry rb) in
    Some (rc, notify rc overflow).

(** ** Triggers *)

Definition getNextRoundedStartTime (currentTime intgPd : Z) : option Z :=
  if decide (intgPd = 0) then None
  else
    let modTime := currentTime mod intgPd in
    let delta := if decide (modTime <> 0) then intgPd - modTime else intgPd in
    Some (u64 (currentTime + delta)).

(** The start of the next integrity period. *)
Definition next_start (rc : ReportControl) (rounded otherwise : Z) : option ReportControl :=
  s ← server rc;
  t ← (if syncIntegrityReportTimes s then getNextRoundedStartTime rounded (intgPd rc) else Some otherwise);
  Some (set_nextIntgReportTime rc t).

(** After a change of the system time. *)
Definition check_start (rc : ReportControl) (t : Z) : option ReportControl :=
  if decide (nextIntgReportTime rc < t \/ nextIntgReportTime rc > u64 (t + intgPd rc)) then next_start rc t (u64 (t + intgPd rc))
  else Some rc.

Definition trigger_gi (rc : ReportControl) (t : Z) (now : nat -> Z) : option (ReportControl * list Event) :=
  if decide (Z.land (triggerOps rc) TRG_OPT_GI <> 0) then
    if gi rc then
      '(rc, e1) ← (if triggered rc then enqueueReport (set_triggered rc false) false false t (now 0%nat) else Some (rc, []));
      '(rc, e2) ← enqueueReport rc false true t (now 1%nat);
      Some (set_triggered (set_gi rc false) false, e1 ++ e2)
    else Some (rc, [])
  else Some (rc, []).

Definition trigger_integrity (rc : ReportControl) (t : Z) (now : nat -> Z) : option (ReportControl * list Event) :=
  if decide (Z.land (triggerOps rc) TRG_OPT_INTEGRITY <> 0) then
    if decide (intgPd rc > 0) then
      if decide (t >= nextIntgReportTime rc) then
        '(rc, e1) ← (if triggered rc then
                       '(rc, e) ← enqueueReport rc false false t (now 2%nat); Some (set_triggered rc false, e)
                     else Some (rc, []));
        rc ← next_start rc t (u64 (nextIntgReportTime rc + intgPd rc));
        rc ← check_start rc t;
        '(rc, e2) ← enqueueReport rc true false t (now 3%nat);
        Some (set_triggered rc false, e1 ++ e2)
      else rc ← check_start rc t; Some (rc, [])
    else Some (rc, [])
  else Some (rc, []).

Definition trigger_change (rc : ReportControl) (t : Z) (now : nat -> Z) (monotonic : Z) : option (ReportControl * list Event) :=
  if triggered rc then
    if decide (monotonic >= reportTime rc) then
      '(rc, e) ← enqueueReport rc false false t (now 4%nat); Some (set_triggered rc false, e)
    else Some (rc, [])
  else Some (rc, []).

(** [now]: what the calls of [Hal_getTimeInMs] in the reports return. *)
Definition processEventsForReport (rc : ReportControl) (t : Z) (now : nat -> Z) (monotonic : Z) : option (ReportControl * list Event) :=
  if enabled rc || isBuffering rc then
    '(rc, e1) ← trigger_gi rc t now;
    '(rc, e2) ← trigger_integrity rc t now;
    '(rc, e3) ← trigger_change rc t now monotonic;
    Some (rc, e1 ++ e2 ++ e3)
  else Some (rc, []).

(** ** Changes of values *)

Definition set_value (rc : ReportControl) (i : Z) (v : option MmsValue) : ReportControl :=
  set_changes rc (inclusionFlags rc) (<[Z.to_nat i := v]> (bufferedDataSetValues rc)).

Definition copySingleValueToReportBuffer (rc : ReportControl) (i : Z) : alloc ReportControl :=
  a <~ m_lift (valueReferences rc !! Z.to_nat i);
  v <~ m_lift (match a with Some a => v ← values a; Some (Some v) | None => Some None end);
  b <~ m_lift (bufferedDataSetValues rc !! Z.to_nat i);
  match b with
  | None => c <~ MmsValue_clone v; m_ret (set_value rc i c)
  | Some _ => r <~ MmsValue_update b v; m_ret (set_value rc i (fst r))
  end.

Fixpoint copyValues_loop (n : nat) (i : Z) (rc : ReportControl) : alloc ReportControl :=
  match n with
  | O => m_ret rc
  | S n =>
      flag <~ m_lift (inclusionFlags rc).[i];
      if decide (Z.land flag REPORT_CONTROL_NOT_UPDATED <> 0) then
        rc <~ copySingleValueToReportBuffer rc i;
        flags <~ m_lift (inclusionFlags rc).[i]:= Z.land flag (Z.lnot REPORT_CONTROL_NOT_UPDATED);
        copyValues_loop n (i + 1) (set_changes rc flags (bufferedDataSetValues rc))
      else copyValues_loop n (i + 1) rc
  end.
Definition copyValuesToReportBuffer (rc : ReportControl) : alloc ReportControl :=
  ds <~ m_lift (dataSet rc); copyValues_loop (Z.to_nat (elementCount ds)) 0 rc.

(** The readings of the clocks during one call. *)
Record Clock := { pending : Z; current : Z; inside : nat -> Z; monotonic : Z; entryTime : Z; startTime : Z }.

Definition ReportControl_valueUpdated (rc : ReportControl) (dataSetEntryIndex flag : Z) (modelLocked : bool) (t : Clock) : alloc (ReportControl * list Event) :=
  f <~ m_lift (inclusionFlags rc).[dataSetEntryIndex];
  r <~ (if decide (Z.land f flag <> 0) then
          let rc := set_reportTime rc (pending t) in
          rc <~ (if modelLocked then copyValuesToReportBuffer rc else m_ret rc);
          m_lift (processEventsForReport rc (current t) (inside t) (monotonic t))
        else m_ret (rc, []));
  let '(rc, events) := (r : ReportControl * list Event) in
  rc <~ (if modelLocked then
           f <~ m_lift (inclusionFlags rc).[dataSetEntryIndex];
           flags <~ m_lift (inclusionFlags rc).[dataSetEntryIndex]:= Z.lor (Z.lor f flag) REPORT_CONTROL_NOT_UPDATED;
           m_ret (set_changes rc flags (bufferedDataSetValues rc))
         else
           flags <~ m_lift (inclusionFlags rc).[dataSetEntryIndex]:= flag;
           copySingleValueToReportBuffer (set_changes rc flags (bufferedDataSetValues rc)) dataSetEntryIndex);
  rc <~ (if triggered rc then m_ret rc
         else
           rc <~ m_lift (updateTimeOfEntry rc (entryTime t));
           m_ret (set_reportTime rc (u64 (startTime t + bufTm rc))));
  m_ret (set_triggered rc true, events).

(** [Reporting_processReportEventsAfterUnlock], for one report control block. *)
Definition process_after_unlock (rc : ReportControl) (t : Clock) : alloc (ReportControl * list Event) :=
  if enabled rc || isBuffering rc then
    if triggered rc then
      rc <~ copyValuesToReportBuffer rc; m_lift (processEventsForReport rc (current t) (inside t) (monotonic t))
    else m_ret (rc, [])
  else m_ret (rc, []).

End Model.

(** ** Resynchronisation *)

Fixpoint checkForZero_loop (n : nat) (i : Z) (buf : list Z) : option bool :=
  match n with O => Some true | S n => x ← buf.[i]; if decide (x <> 0) then Some false else checkForZero_loop n (i + 1) buf end.
Definition checkForZeroEntryID (buf : list Z) : option bool := checkForZero_loop 8 0 buf.

(** The value is an octet string with the octets [buf]. *)
Definition checkReportBufferForEntryID (rc : ReportControl) (buf : list Z) : option (ReportControl * bool) :=
  id ← rds 8 buf 0;
  '(rb, found) ← ReportBuffer.findEntryID (reportBuffer rc) id;
  let rc := set_reportBuffer rc rb in Some (if found : bool then set_resync rc true else rc, found).

(** ** The contents of reports *)

(** A report has the values of all members of the data set, or the changed ones with the
    reasons. *)
Inductive content := Snapshot (vs : list MmsValue) | Changes (cs : list (option (Z * MmsValue))).

Fixpoint changes (flags : list Z) (vals : list (option MmsValue)) : option (list (option (Z * MmsValue))) :=
  match flags, vals with
  | f :: flags, v :: vals =>
      c ← (if decide (f <> REPORT_CONTROL_NONE) then v ← v; Some (Some (f, v)) else Some None);
      cs ← changes flags vals; Some (c :: cs)
  | _, _ => Some []
  end.

Definition snapshot_values (values : nat -> option MmsValue) (rc : ReportControl) : option (list MmsValue) :=
  ds ← dataSet rc; mapM (entry_value values) (fcdas ds).

(** What a report made now has. *)
Definition content_of (values : nat -> option MmsValue) (rc : ReportControl) (snapshot : bool) : option content :=
  if snapshot then Snapshot <$> snapshot_values values rc else Changes <$> changes (inclusionFlags rc) (bufferedDataSetValues rc).

Definition changed (cs : list (option (Z * MmsValue))) : list MmsValue := omap (fmap snd) cs.
Definition causes (cs : list (option (Z * MmsValue))) : list Z := omap (fmap fst) cs.
Definition reported (c : content) : list MmsValue :=
  match c with Snapshot vs => vs | Changes cs => changed cs end.
Definition reasons (c : content) : list Z :=
  match c with Snapshot _ => [] | Changes cs => causes cs end.

Definition encodings (vs : list MmsValue) : list Z := concat (map enc_data vs).

Definition sound (v : MmsValue) : Prop := wf v /\ regular v.

(** The octets of a report of [n] members: the inclusion bit string with a bit for each change,
    the length of the data, the data and the reasons. *)
Definition described (n : nat) (c : content) (body : list Z) : Prop :=
  let data := encodings (reported c) in
  let rest := le_bytes 4 (zlen data) ++ data ++ reasons c in
  match c with
  | Snapshot vs => body = rest
  | Changes cs => exists bits,
      wf_buf bits (getBitStringByteSize (Z.of_nat n)) /\
      (forall i c, cs !! i = Some c -> getBitStringBit (Z.of_nat n) bits (Z.of_nat i) = Some (bool_decide (is_Some c))) /\
      body = bits ++ replicate (Z.to_nat (ReportBuffer.getAlignedSize (getBitStringByteSize (Z.of_nat n)) - getBitStringByteSize (Z.of_nat n))) 0 ++ rest
  end.

Definition inclusion_size (n : nat) (c : content) : Z :=
  match c with Snapshot _ => 0 | Changes _ => ReportBuffer.getAlignedSize (getBitStringByteSize (Z.of_nat n)) end.
Definition content_size (n : nat) (c : content) : Z := inclusion_size n c + 4 + zlen (encodings (reported c)) + zlen (reasons c).
Definition report_size (n : nat) (c : content) : Z :=
  sizeof_entry + inclusion_size n c + ReportBuffer.getAlignedSize (4 + zlen (encodings (reported c)) + zlen (reasons c)).

(** *** Sizes *)

Lemma aligned_ge z : 0 <= z -> z <= ReportBuffer.getAlignedSize z < z + 8.
Proof. unfold ReportBuffer.getAlignedSize. intros. case_decide; zlia. Qed.

Lemma encodings_cons v vs : encodings (v :: vs) = enc_data v ++ encodings vs.
Proof. done. Qed.

Lemma encoded_size_spec v : sound v -> encoded_size v = Some (zlen (enc_data v)).
Proof. intros [Hw Hr]. unfold encoded_size. destruct (encode_spec v Hw Hr [] 0) as [E _]. by rewrite E. Qed.

Lemma int_add_ok a b : a + b < 2147483648 -> int_add a b = Some (a + b).
Proof. intros. unfold int_add. by rewrite decide_True. Qed.

Section Sizes.
Context (values : nat -> option MmsValue).

Lemma snapshot_size_spec ds vs : mapM (entry_value values) ds = Some vs -> Forall sound vs ->
  forall acc, acc + zlen (encodings vs) < 2147483648 ->
  snapshot_size values (length vs) ds acc = Some (acc + zlen (encodings vs)).
Proof.
  revert ds. induction vs as [|v vs IH]; intros ds Hm Hs acc Ha.
  - cbn. f_equal. change (encodings []) with (@nil Z). cbn. lia.
  - apply mapM_Some_1 in Hm as Hm'. destruct ds as [|d ds]; [by inversion Hm'|]. apply Forall2_cons in Hm' as [Hd Hds].
    apply mapM_Some_2 in Hds. apply Forall_cons in Hs as [Hv Hs]. rewrite encodings_cons, length_app in *.
    pose proof (zlen_nonneg (encodings vs)). cbn [length snapshot_size]. rewrite Hd. cbn [mbind option_bind].
    rewrite encoded_size_spec by done. cbn [mbind option_bind]. rewrite int_add_ok by lia. cbn [mbind option_bind].
    rewrite (IH ds Hds Hs) by lia. f_equal. lia.
Qed.

Lemma changes_step rc i n : (i < length (inclusionFlags rc))%nat -> length (bufferedDataSetValues rc) = length (inclusionFlags rc) ->
  changes (drop i (inclusionFlags rc)) (drop i (bufferedDataSetValues rc)) = Some n ->
  exists f c cs, n = c :: cs /\ (inclusionFlags rc).[Z.of_nat i] = Some f /\
    changes (drop (S i) (inclusionFlags rc)) (drop (S i) (bufferedDataSetValues rc)) = Some cs /\
    if decide (f <> REPORT_CONTROL_NONE) then exists v, c = Some (f, v) /\ buffered_value rc (Z.of_nat i) = Some v else c = None.
Proof.
  intros Hi Hl Hc. destruct (lookup_lt_is_Some_2 _ _ Hi) as [f Hf]. destruct (lookup_lt_is_Some_2 (bufferedDataSetValues rc) i ltac:(lia)) as [v Hv].
  rewrite (drop_S _ _ _ Hf), (drop_S _ _ _ Hv) in Hc. cbn [changes] in Hc.
  assert (Hfz : (inclusionFlags rc).[Z.of_nat i] = Some f) by (unfold rd; rewrite decide_True by lia; by rewrite Nat2Z.id).
  unfold buffered_value. rewrite Nat2Z.id, Hv. cbn [mbind option_bind].
  case_decide as Hfn; [destruct v as [v|]; [|done]|]; cbn [mbind option_bind] in Hc;
    destruct (changes (drop (S i) _) _) as [cs|] eqn:E; try done; injection Hc as <-; eexists f, _, cs; rewrite ?E; split_and!; try done.
  all: case_decide; by eauto.
Qed.

Lemma events_size_spec rc cs : length (bufferedDataSetValues rc) = length (inclusionFlags rc) -> Forall sound (changed cs) ->
  forall i acc r, (i + length cs = length (inclusionFlags rc))%nat ->
  changes (drop i (inclusionFlags rc)) (drop i (bufferedDataSetValues rc)) = Some cs -> acc + zlen (encodings (changed cs)) < 2147483648 ->
  events_size (length cs) rc (Z.of_nat i) acc r =
    Some (acc + zlen (encodings (changed cs)), r + zlen (causes cs)).
Proof.
  intros Hl. induction cs as [|c cs IH]; intros Hs i acc r Hi Hc Ha.
  - cbn. do 2 f_equal; [change (encodings []) with (@nil Z); cbn|]; lia.
  - cbn [length] in Hi. destruct (changes_step rc i (c :: cs) ltac:(lia) Hl Hc) as (f & c' & cs' & [= <- <-] & Hf & Hcs & Hcase).
    cbn [length events_size]. rewrite Hf. cbn [mbind option_bind]. replace (Z.of_nat i + 1) with (Z.of_nat (S i)) by lia.
    case_decide as Hfn.
    + destruct Hcase as (v & -> & Hv). rewrite Hv. cbn [mbind option_bind]. unfold changed, causes in *. cbn [omap list_omap fmap option_fmap option_map snd fst] in *.
      apply Forall_cons in Hs as [Hv' Hs]. rewrite encodings_cons, length_app in *. rewrite encoded_size_spec by done. cbn [mbind option_bind].
      pose proof (zlen_nonneg (encodings (omap (fmap snd) cs))).
      rewrite int_add_ok by (unfold fmap in *; lia). cbn [mbind option_bind]. rewrite (IH Hs (S i)) by (done || unfold fmap in *; lia).
      do 2 f_equal; cbn [length]; unfold fmap in *; lia.
    + rewrite Hcase in *. unfold changed, causes in *. cbn [omap list_omap fmap option_fmap option_map] in *. apply (IH Hs (S i)); [lia|done|done].
Qed.
End Sizes.

(** *** Writing *)

Section Writing.
Import ReportBuffer (filling, load, store, set_memory, memory, memoryBlock, memoryBlockSize).
Context (es : list ReportBuffer.entry) (u : nat) (p size : Z) (Hsize : sizeof_entry <= size).

(** [m] has the octets [xs] at [q], and differs from the block in nothing else. *)
Definition wrote (rb : ReportBuffer) (m : list Z) (q : Z) (xs : list Z) : Prop :=
  filling (set_memory rb m) es u p size /\ bytes_at m (q - memoryBlock rb) xs /\
  forall j, j < q - memoryBlock rb \/ q - memoryBlock rb + zlen xs <= j -> rd m j = rd (memory rb) j.

(** Octets that have been written before stay. *)
Lemma wrote_keeps rb m q xs q' ys : wrote rb m q xs -> q' + zlen ys <= q \/ q + zlen xs <= q' ->
  bytes_at (memory rb) (q' - memoryBlock rb) ys -> bytes_at m (q' - memoryBlock rb) ys.
Proof. intros (_ & _ & Hf) Hq Hy. eapply bytes_at_frame; [exact Hy|]. intros j Hj. apply Hf. lia. Qed.

(** Two writes, one behind the other. *)
Lemma wrote_app rb m m' q xs ys : wrote rb m q xs -> wrote (set_memory rb m) m' (q + zlen xs) ys -> wrote rb m' q (xs ++ ys).
Proof.
  intros Hx Hy. pose proof (wrote_keeps _ _ _ _ q xs Hy ltac:(lia)) as Hk. destruct Hx as (_ & Hx & Hfx). destruct Hy as (Hf & Hy & Hfy).
  cbn [set_memory memoryBlock memory] in *. split; [done|]. split.
  - apply bytes_at_app. split; [by apply Hk|]. by replace (q - memoryBlock rb + zlen xs) with (q + zlen xs - memoryBlock rb) by lia.
  - intros j Hj. rewrite length_app in Hj. rewrite Hfy, Hfx by lia. done.
Qed.

Lemma wrote_nil rb q : filling rb es u p size -> wrote rb (memory rb) q [].
Proof. intros Hf. split; [by destruct rb|]. split; [done|]. done. Qed.

(** Behind the header, or in the header but not on its link. *)
Lemma store_wrote rb q xs : filling rb es u p size -> is_bytes xs -> p <= q -> q + zlen xs <= p + size ->
  q + zlen xs <= p + 24 \/ p + 32 <= q -> exists m, store rb q xs = Some (set_memory rb m) /\ wrote rb m q xs.
Proof.
  intros Hf Hx H1 H2 H3. destruct (ReportBuffer.filling_store rb es u p size Hsize q xs Hf Hx H1 H2 H3) as (m & E & Hf' & Hat & Hfr).
  by exists m.
Qed.

Lemma encode_wrote rb q v : filling rb es u p size -> sound v -> p + sizeof_entry <= q -> q + zlen (enc_data v) <= p + size ->
  exists m, encode_at rb q v = Some (set_memory rb m, zlen (enc_data v)) /\ wrote rb m q (enc_data v).
Proof.
  unfold sizeof_entry. intros Hf [Hw Hr] H1 H2. pose proof (enc_data_bytes v Hw Hr) as Hb.
  destruct (store_wrote rb q (enc_data v) Hf Hb ltac:(lia) ltac:(lia) ltac:(lia)) as (m & E & Hwr). exists m. split; [|done].
  unfold encode_at. destruct (encode_spec v Hw Hr (memory rb) (q - memoryBlock rb)) as [_ Ee].
  destruct (ReportBuffer.gap_inside rb es p size Hsize (ReportBuffer.f_ok _ _ _ _ _ Hf) (ReportBuffer.f_gap _ _ _ _ _ Hf)) as (Hlo & Hhi & _).
  destruct (ReportBuffer.f_mem _ _ _ _ _ Hf) as [Hmb Hml]. rewrite Ee by (done || lia).
  unfold store in E. destruct (puts (memory rb) (q - memoryBlock rb) (enc_data v)) as [[m' q']|] eqn:Ep; [|done].
  cbn [mbind option_bind] in *. injection E as E. apply puts_inv in Ep as (-> & _). assert (m' = m) as -> by (by inversion E).
  do 2 f_equal. lia.
Qed.

Lemma snapshot_data_wrote values vs : Forall sound vs -> forall ds rb q, mapM (entry_value values) ds = Some vs ->
  filling rb es u p size -> p + sizeof_entry <= q -> q + zlen (encodings vs) <= p + size ->
  exists m, snapshot_data values (length vs) ds rb q = Some (set_memory rb m, q + zlen (encodings vs)) /\ wrote rb m q (encodings vs).
Proof.
  induction 1 as [|v vs Hv _ IH]; intros ds rb q Hm Hf H1 H2.
  - exists (memory rb). split; [|by apply wrote_nil]. cbn. do 2 f_equal; [by destruct rb|]. lia.
  - apply mapM_Some_1 in Hm. destruct ds as [|d ds]; [by inversion Hm|]. apply Forall2_cons in Hm as [Hd Hds]. apply mapM_Some_2 in Hds.
    rewrite encodings_cons, length_app in *. cbn [length snapshot_data]. rewrite Hd. cbn [mbind option_bind].
    destruct (encode_wrote rb q v Hf Hv H1 ltac:(lia)) as (m & -> & Hw). cbn [mbind option_bind].
    destruct (IH ds (set_memory rb m) (q + zlen (enc_data v)) Hds (proj1 Hw) ltac:(lia) ltac:(lia)) as (m' & -> & Hw').
    exists m'. split; [|by eapply wrote_app]. do 2 f_equal. lia.
Qed.

Lemma causes_cons c cs : causes (c :: cs) = (match c with Some (f, _) => [f] | None => [] end) ++ causes cs.
Proof. by destruct c as [[f v]|]. Qed.
Lemma changed_cons c cs : changed (c :: cs) = (match c with Some (_, v) => [v] | None => [] end) ++ changed cs.
Proof. by destruct c as [[f v]|]. Qed.

Lemma event_reasons_wrote rc cs : length (bufferedDataSetValues rc) = length (inclusionFlags rc) -> is_bytes (inclusionFlags rc) ->
  forall i rb q, (i + length cs = length (inclusionFlags rc))%nat ->
  changes (drop i (inclusionFlags rc)) (drop i (bufferedDataSetValues rc)) = Some cs ->
  filling rb es u p size -> p + sizeof_entry <= q -> q + zlen (causes cs) <= p + size ->
  exists m, event_reasons (length cs) rc (Z.of_nat i) rb q = Some (set_memory rb m, q + zlen (causes cs)) /\ wrote rb m q (causes cs).
Proof.
  intros Hl Hb. induction cs as [|c cs IH]; intros i rb q Hi Hc Hf H1 H2.
  - exists (memory rb). split; [|by apply wrote_nil]. cbn. do 2 f_equal; [by destruct rb|]. lia.
  - cbn [length] in Hi. destruct (changes_step rc i (c :: cs) ltac:(lia) Hl Hc) as (f & c' & cs' & [= <- <-] & Hfl & Hcs & Hcase).
    cbn [length event_reasons]. rewrite Hfl. cbn [mbind option_bind]. replace (Z.of_nat i + 1) with (Z.of_nat (S i)) by lia.
    pose proof (rd_byte _ _ _ Hb Hfl) as Hfb. rewrite causes_cons in *. case_decide as Hfn.
    + destruct Hcase as (v & -> & Hv). cbn [app length] in *. unfold sizeof_entry in *. rewrite u8_id by done.
      destruct (store_wrote rb q [f] Hf ltac:(by apply Forall_singleton) ltac:(lia) ltac:(cbn; lia) ltac:(lia)) as (m & -> & Hw). cbn [mbind option_bind].
      destruct (IH (S i) (set_memory rb m) (q + 1) ltac:(lia) Hcs (proj1 Hw) ltac:(lia) ltac:(lia)) as (m' & -> & Hw').
      exists m'. split; [do 2 f_equal; lia|]. apply (wrote_app rb m m' q [f] _ Hw). exact Hw'.
    + rewrite Hcase in *. cbn [app] in *. apply (IH (S i)); try done. lia.
Qed.
(** The bits of the changes [cs], which are those of the members from [i] on. *)
Definition marked (n : Z) (cs : list (option (Z * MmsValue))) (i : nat) (bits bits' : list Z) : Prop :=
  forall k, Z.of_nat k < n -> getBitStringBit n bits' (Z.of_nat k) =
    match (if decide (i <= k)%nat then cs !! (k - i)%nat else None) with
    | Some (Some _) => Some true
    | _ => getBitStringBit n bits (Z.of_nat k)
    end.

Lemma set_inclusion_bit_wrote rb q n i bits : filling rb es u p size -> p + sizeof_entry <= q ->
  q + getBitStringByteSize n <= p + size -> wf_buf bits (getBitStringByteSize n) -> bytes_at (memory rb) (q - memoryBlock rb) bits ->
  0 <= i < n -> exists m bits', set_inclusion_bit rb q n i = Some (set_memory rb m) /\ wrote rb m q bits' /\
    wf_buf bits' (getBitStringByteSize n) /\
    forall j, 0 <= j < n -> getBitStringBit n bits' j = if decide (j = i) then Some true else getBitStringBit n bits j.
Proof.
  unfold sizeof_entry. intros Hf H1 H2 Hb Hat Hi. pose proof Hb as [_ Hbl].
  destruct (set_get_bit n bits i true Hi) as (bits' & E & Hb' & Hg).
  { replace (bitStringByteSize n) with (getBitStringByteSize n); [done|]. unfold getBitStringByteSize, bitStringByteSize. do 2 case_decide; zlia. }
  assert (Hn : bitStringByteSize n = getBitStringByteSize n).
  { unfold getBitStringByteSize, bitStringByteSize. do 2 case_decide; zlia. }
  rewrite Hn in Hb'. pose proof Hb' as [Hbb' Hbl'].
  destruct (store_wrote rb q bits' Hf Hbb' ltac:(lia) ltac:(lia) ltac:(lia)) as (m & Es & Hw). exists m, bits'.
  split; [|done]. unfold set_inclusion_bit, load.
  replace (Z.to_nat (getBitStringByteSize n)) with (length bits) by lia. rewrite (rds_at _ _ _ Hat). cbn [mbind option_bind].
  rewrite E. cbn [mbind option_bind]. done.
Qed.
(** What is written in two places. *)
Definition wrote2 (rb : ReportBuffer) (m : list Z) (q1 : Z) (xs1 : list Z) (q2 : Z) (xs2 : list Z) : Prop :=
  filling (set_memory rb m) es u p size /\ bytes_at m (q1 - memoryBlock rb) xs1 /\ bytes_at m (q2 - memoryBlock rb) xs2 /\
  forall j, (j < q1 - memoryBlock rb \/ q1 - memoryBlock rb + zlen xs1 <= j) ->
    (j < q2 - memoryBlock rb \/ q2 - memoryBlock rb + zlen xs2 <= j) -> rd m j = rd (memory rb) j.

Lemma event_data_wrote rc cs n : length (bufferedDataSetValues rc) = length (inclusionFlags rc) -> n = length (inclusionFlags rc) ->
  let nb := getBitStringByteSize (Z.of_nat n) in
  Forall sound (changed cs) -> forall i rb inclusion q bits, (i + length cs = n)%nat ->
  changes (drop i (inclusionFlags rc)) (drop i (bufferedDataSetValues rc)) = Some cs ->
  filling rb es u p size -> p + sizeof_entry <= inclusion -> inclusion + nb <= q -> q + zlen (encodings (changed cs)) <= p + size ->
  wf_buf bits nb -> bytes_at (memory rb) (inclusion - memoryBlock rb) bits ->
  exists m bits', event_data (length cs) rc (Z.of_nat n) (Z.of_nat i) rb inclusion q =
      Some (set_memory rb m, q + zlen (encodings (changed cs))) /\
    wrote2 rb m inclusion bits' q (encodings (changed cs)) /\ wf_buf bits' nb /\ marked (Z.of_nat n) cs i bits bits'.
Proof.
  intros Hl -> nb. induction cs as [|c cs IH]; intros Hs i rb q0 q bits Hi Hc Hf H1 H2 H3 Hb Hat.
  - exists (memory rb), bits. split; [cbn; do 2 f_equal; [by destruct rb|lia]|]. split; [|split; [done|]].
    + split_and!; [by destruct rb|done|done|]. intros. done.
    + intros k _. case_decide; [|done]. by rewrite lookup_nil.
  - cbn [length] in Hi. destruct (changes_step rc i (c :: cs) ltac:(lia) Hl Hc) as (f & c' & cs' & [= <- <-] & Hfl & Hcs & Hcase).
    cbn [length event_data]. rewrite Hfl. cbn [mbind option_bind]. replace (Z.of_nat i + 1) with (Z.of_nat (S i)) by lia.
    rewrite changed_cons in *. unfold sizeof_entry in *. case_decide as Hfn.
    + destruct Hcase as (v & -> & Hv). cbn [app] in *. rewrite encodings_cons, length_app in *.
      apply Forall_cons in Hs as [Hv' Hs]. pose proof (zlen_nonneg (encodings (changed cs))).
      destruct (set_inclusion_bit_wrote rb q0 (Z.of_nat (length (inclusionFlags rc))) (Z.of_nat i) bits Hf ltac:(unfold sizeof_entry; lia) ltac:(fold nb; lia) Hb Hat ltac:(lia))
        as (m1 & bits1 & -> & Hw1 & Hb1 & Hg1). fold nb in Hb1. pose proof Hb1 as [_ Hbl1]. cbn [mbind option_bind]. rewrite Hv. cbn [mbind option_bind].
      destruct (encode_wrote (set_memory rb m1) q v (proj1 Hw1) Hv' ltac:(unfold sizeof_entry; lia) ltac:(lia)) as (m2 & -> & Hw2). cbn [mbind option_bind].
      change (set_memory (set_memory rb m1) m2) with (set_memory rb m2).
      pose proof (wrote_keeps _ _ _ _ q0 bits1 Hw2 ltac:(lia) (proj1 (proj2 Hw1))) as Hk1.
      destruct (IH Hs (S i) (set_memory rb m2) q0 (q + zlen (enc_data v)) bits1 ltac:(lia) Hcs (proj1 Hw2) ltac:(lia) ltac:(lia) ltac:(lia) Hb1 Hk1)
        as (m3 & bits3 & -> & (Hf3 & Hat3 & Hd3 & Hfr3) & Hb3 & Hm3).
      exists m3, bits3. split; [do 2 f_equal; lia|]. pose proof Hb3 as [_ Hbl3]. split; [|split; [done|]].
      * destruct Hw1 as (_ & Ha1 & Hfr1). destruct Hw2 as (_ & Ha2 & Hfr2). cbn [set_memory memoryBlock memory] in *.
        split; [done|]. split; [done|]. split.
        -- apply bytes_at_app. split; [eapply bytes_at_frame; [exact Ha2|]; intros j Hj; apply Hfr3; lia|].
           by replace (q - memoryBlock rb + zlen (enc_data v)) with (q + zlen (enc_data v) - memoryBlock rb) by lia.
        -- intros j Hj1 Hj2. rewrite length_app in Hj2. rewrite Hfr3, Hfr2, Hfr1 by lia. done.
      * intros k Hk. rewrite (Hm3 k Hk). rewrite (Hg1 (Z.of_nat k)) by lia. destruct (decide (S i <= k)%nat) as [Hik|Hik].
        -- rewrite (decide_True (P := (i <= k)%nat)) by lia. replace (k - i)%nat with (S (k - S i)) by lia. cbn [lookup list_lookup].
           destruct (cs !! (k - S i)%nat) as [[?|]|]; try done; by rewrite decide_False by lia.
        -- destruct (decide (k = i)) as [->|Hki].
           ++ rewrite (decide_True (P := Z.of_nat i = Z.of_nat i)) by done. rewrite (decide_True (P := (i <= i)%nat)) by lia. by rewrite Nat.sub_diag.
           ++ rewrite (decide_False (P := Z.of_nat k = Z.of_nat i)) by lia. by rewrite (decide_False (P := (i <= k)%nat)) by lia.
    + rewrite Hcase in *. cbn [app] in *.
      destruct (IH Hs (S i) rb q0 q bits ltac:(lia) Hcs Hf H1 H2 H3 Hb Hat) as (m & bits' & -> & Hw & Hb' & Hm).
      exists m, bits'. split; [done|]. split; [done|]. split; [done|]. intros k Hk. rewrite (Hm k Hk).
      destruct (decide (S i <= k)%nat) as [Hik|Hik].
      * rewrite (decide_True (P := (i <= k)%nat)) by lia. replace (k - i)%nat with (S (k - S i)) by lia. done.
      * destruct (decide (i <= k)%nat); [|done]. replace (k - i)%nat with 0%nat by lia. done.
Qed.
End Writing.

(** What the report control block must be like: [n] members in the data set. *)
Record consistent (rc : ReportControl) (n : nat) : Prop := {
  c_inclusion : exists bits, inclusionField rc = Some (Z.of_nat n, bits);
  c_dataSet : exists ds, dataSet rc = Some ds /\ elementCount ds = Z.of_nat n /\ length (fcdas ds) = n;
  c_flags : length (inclusionFlags rc) = n /\ is_bytes (inclusionFlags rc);
  c_values : length (bufferedDataSetValues rc) = n;
  c_lastId : 0 <= lastEntryId rc < 18446744073709551616;
  c_time : (fst (timeOfEntry rc) = 4 \/ fst (timeOfEntry rc) = 6) /\ wf_buf (snd (timeOfEntry rc)) 6;
  c_rcbId : let '(size, maxSize, buf) := rcbEntryID rc in wf (MmsOctetString size maxSize buf) /\ 8 <= Z.abs maxSize;
}.

Lemma byte_size_pos n : 0 <= n -> 0 <= getBitStringByteSize n.
Proof. unfold getBitStringByteSize. intros. case_decide; zlia. Qed.

Lemma content_fits n c : let k := content_size n c in 0 <= k /\ sizeof_entry + k <= report_size n c < sizeof_entry + k + 8.
Proof.
  unfold content_size, report_size, inclusion_size. pose proof (zlen_nonneg (encodings (reported c))). pose proof (zlen_nonneg (reasons c)).
  pose proof (aligned_ge (4 + zlen (encodings (reported c)) + zlen (reasons c)) ltac:(lia)).
  pose proof (byte_size_pos (Z.of_nat n) ltac:(lia)). pose proof (aligned_ge (getBitStringByteSize (Z.of_nat n)) ltac:(lia)).
  destruct c; lia.
Qed.

Lemma changes_length flags vals cs : changes flags vals = Some cs -> length vals = length flags -> length cs = length flags.
Proof.
  revert vals cs. induction flags as [|f flags IH]; intros [|v vals] cs Hc Hl; cbn in *; try done; [by injection Hc as <-|].
  destruct (if decide _ then _ else _); [|done]. cbn [mbind option_bind] in Hc.
  destruct (changes flags vals) as [cs'|] eqn:E; [|done]. cbn [mbind option_bind] in Hc. injection Hc as <-. cbn. f_equal. apply (IH vals); [done|lia].
Qed.

Lemma content_members values rc n snapshot c : consistent rc n -> content_of values rc snapshot = Some c ->
  match c with
  | Snapshot vs => snapshot = true /\ length vs = n /\ snapshot_values values rc = Some vs
  | Changes cs => snapshot = false /\ length cs = n /\ changes (inclusionFlags rc) (bufferedDataSetValues rc) = Some cs
  end.
Proof.
  intros [_ (ds & Hds & _ & Hlen) [Hfl _] Hv _ _ _] Hc. unfold content_of in Hc. destruct snapshot.
  - destruct (snapshot_values values rc) as [vs|] eqn:E; [|done]. injection Hc as <-. split; [done|]. split; [|done].
    unfold snapshot_values in E. rewrite Hds in E. cbn [mbind option_bind] in E. apply mapM_Some_1, Forall2_length in E. lia.
  - destruct (changes _ _) as [cs|] eqn:E; [|done]. injection Hc as <-. split; [done|]. split; [|done]. apply changes_length in E; lia.
Qed.

(** The sizes that [enqueueReport] computes. *)
Lemma entry_size_spec values rc n snapshot c : consistent rc n -> content_of values rc snapshot = Some c ->
  Forall sound (reported c) -> report_size n c < 2147483648 ->
  entry_size values rc (Z.of_nat n) snapshot = Some (zlen (encodings (reported c)), report_size n c).
Proof.
  intros Hcon Hc Hs Hsz. pose proof (content_members _ _ _ _ _ Hcon Hc) as Hm. destruct (content_fits n c) as [H0 Hfit].
  destruct Hcon as [_ (ds & Hds & _ & Hlen) [Hfl _] Hv _ _ _]. unfold entry_size, content_size, report_size, inclusion_size, sizeof_entry in *.
  rewrite Nat2Z.id. destruct c as [vs|cs]; destruct Hm as (-> & Hn & Hm); cbn [reported reasons] in *.
  - rewrite Hds. cbn [mbind option_bind]. unfold snapshot_values in Hm. rewrite Hds in Hm. cbn [mbind option_bind length] in *.
    rewrite <- Hn, (snapshot_size_spec _ _ _ Hm Hs) by lia. cbn [mbind option_bind]. rewrite int_add_ok by lia. cbn [mbind option_bind].
    rewrite Z.add_0_l in *. replace (4 + zlen (encodings vs) + Z.of_nat 0) with (4 + zlen (encodings vs)) in Hsz |- * by lia.
    rewrite int_add_ok by lia. cbn [mbind option_bind]. done.
  - pose proof (zlen_nonneg (causes cs)). pose proof (byte_size_pos (Z.of_nat n) ltac:(lia)).
    pose proof (aligned_ge (getBitStringByteSize (Z.of_nat n)) ltac:(lia)).
    rewrite <- Hn at 1. rewrite (events_size_spec rc cs ltac:(lia) Hs 0) by (rewrite ?drop_0; lia || done). cbn [mbind option_bind].
    rewrite Z.add_0_l. rewrite int_add_ok by lia. cbn [mbind option_bind]. rewrite Z.add_0_l, int_add_ok by lia. cbn [mbind option_bind].
    rewrite int_add_ok by lia. done.
Qed.

Section Filling.
Import ReportBuffer (filling, load, store, set_memory, memory, memoryBlock, memoryBlockSize).
Context (values : nat -> option MmsValue) (rc : ReportControl) (n : nat) (Hcon : consistent rc n).
Context (es : list ReportBuffer.entry) (u : nat) (p : Z).

Lemma fill_snapshot_wrote rb vs size : snapshot_values values rc = Some vs -> length vs = n -> Forall sound vs ->
  let c := Snapshot vs in sizeof_entry + content_size n c <= size -> filling rb es u p size -> exists m body,
  fill_entry values rc rb (p + sizeof_entry) (Z.of_nat n) (zlen (encodings vs)) true = Some (set_memory rb m) /\
  wrote es u p size rb m (p + sizeof_entry) body /\ described n c body /\ zlen body = content_size n c.
Proof.
  intros Hm Hn Hs c Hsz Hf. destruct Hcon as [_ (ds & Hds & _ & _) _ _ _ _ _]. unfold content_size, inclusion_size, c, sizeof_entry in *.
  cbn [reported reasons length] in *. pose proof (zlen_nonneg (encodings vs)).
  unfold fill_entry. rewrite Hds. cbn [mbind option_bind]. unfold snapshot_values in Hm. rewrite Hds in Hm. cbn [mbind option_bind] in Hm.
  destruct (store_wrote es u p size ltac:(unfold sizeof_entry; lia) rb (p + 32) (le_bytes 4 (zlen (encodings vs))) Hf (le_bytes_bytes 4 _) ltac:(lia)
    ltac:(rewrite le_bytes_length; lia) ltac:(lia)) as (m & -> & Hw). cbn [mbind option_bind].
  rewrite Nat2Z.id, <- Hn.
  destruct (snapshot_data_wrote es u p size ltac:(unfold sizeof_entry; lia) values vs Hs _ (set_memory rb m) (p + 32 + 4) Hm (proj1 Hw)
    ltac:(unfold sizeof_entry; lia) ltac:(lia)) as (m' & -> & Hw').
  cbn [mbind option_bind]. exists m', (le_bytes 4 (zlen (encodings vs)) ++ encodings vs). split; [done|]. split; [|split].
  - eapply wrote_app; [exact Hw|]. rewrite le_bytes_length. exact Hw'.
  - cbn. by rewrite app_nil_r.
  - rewrite length_app, le_bytes_length. lia.
Qed.

Lemma fill_changes_wrote rb cs size : changes (inclusionFlags rc) (bufferedDataSetValues rc) = Some cs -> length cs = n -> Forall sound (changed cs) ->
  let c := Changes cs in sizeof_entry + content_size n c <= size -> filling rb es u p size -> exists m body,
  fill_entry values rc rb (p + sizeof_entry) (Z.of_nat n) (zlen (encodings (changed cs))) false = Some (set_memory rb m) /\
  wrote es u p size rb m (p + sizeof_entry) body /\ described n c body /\ zlen body = content_size n c.
Proof.
  intros Hm Hn Hs c Hsz Hf. destruct Hcon as [_ _ [Hfl Hfb] Hv _ _ _]. unfold content_size, inclusion_size, c, sizeof_entry in *.
  cbn [reported reasons] in *. set (data := encodings (changed cs)) in *. set (nb := getBitStringByteSize (Z.of_nat n)) in *.
  pose proof (byte_size_pos (Z.of_nat n) ltac:(lia)) as Hnb. fold nb in Hnb. pose proof (aligned_ge nb Hnb) as Hal. set (al := ReportBuffer.getAlignedSize nb) in *.
  pose proof (zlen_nonneg data). pose proof (zlen_nonneg (causes cs)). assert (Hs32 : sizeof_entry <= size) by (unfold sizeof_entry; lia).
  unfold fill_entry. fold nb. fold al.
  destruct (wf_buf_replicate al 0 ltac:(lia) ltac:(done)) as [Hzb Hzl].
  destruct (store_wrote es u p size Hs32 rb (p + 32) _ Hf Hzb ltac:(lia) ltac:(lia) ltac:(lia)) as (m1 & -> & Hw1). cbn [mbind option_bind].
  destruct (store_wrote es u p size Hs32 (set_memory rb m1) (p + 32 + al) (le_bytes 4 (zlen data)) (proj1 Hw1) (le_bytes_bytes 4 _) ltac:(lia)
    ltac:(rewrite le_bytes_length; lia) ltac:(lia)) as (m2 & -> & Hw2). cbn [mbind option_bind]. change (set_memory (set_memory rb m1) m2) with (set_memory rb m2) in *.
  assert (Hbits0 : wf_buf (replicate (Z.to_nat nb) 0) nb) by (by apply wf_buf_replicate).
  assert (Esplit : replicate (Z.to_nat al) 0 = replicate (Z.to_nat nb) 0 ++ replicate (Z.to_nat (al - nb)) 0).
  { rewrite <- replicate_add. f_equal. lia. }
  pose proof (wrote_keeps es u p size _ _ _ _ (p + 32) (replicate (Z.to_nat al) 0) Hw2 ltac:(lia) (proj1 (proj2 Hw1))) as Hz.
  cbn [set_memory memoryBlock] in Hz. rewrite Esplit in Hz. apply bytes_at_app in Hz as [Hz1 Hz2]. rewrite length_replicate in Hz2.
  rewrite Nat2Z.id.
  destruct (event_data_wrote es u p size Hs32 rc cs n ltac:(lia) ltac:(lia) Hs 0 (set_memory rb m2) (p + 32) (p + 32 + al + 4) _ ltac:(lia)
    ltac:(by rewrite !drop_0) (proj1 Hw2) ltac:(unfold sizeof_entry; lia) ltac:(fold nb; lia) ltac:(fold data; lia) Hbits0 Hz1)
    as (m3 & bits & E3 & (Hf3 & Hb3 & Hd3 & Hfr3) & Hbits & Hmark).
  rewrite Hn in E3. change (Z.of_nat 0) with 0 in E3. fold data in E3, Hd3, Hfr3. fold nb in Hbits.
  change (ReportBuffer.set_memory (ReportBuffer.set_memory rb m1) m2) with (set_memory rb m2). rewrite E3. cbn [mbind option_bind]. clear E3.
  change (set_memory (set_memory rb m2) m3) with (set_memory rb m3) in *. cbn [set_memory memoryBlock memory] in *.
  destruct (event_reasons_wrote es u p size Hs32 rc cs ltac:(lia) Hfb 0 (set_memory rb m3) (p + 32 + al + 4 + zlen data) ltac:(lia)
    ltac:(by rewrite !drop_0) Hf3 ltac:(unfold sizeof_entry; lia) ltac:(lia)) as (m4 & E4 & Hw4).
  rewrite Hn in E4. change (Z.of_nat 0) with 0 in E4. rewrite E4. cbn [mbind option_bind]. clear E4.
  exists m4, (bits ++ replicate (Z.to_nat (al - nb)) 0 ++ le_bytes 4 (zlen data) ++ data ++ causes cs). split; [done|].
  destruct Hbits as [Hbb Hbl]. destruct Hw1 as (_ & Ha1 & Hfr1). destruct Hw2 as (_ & Ha2 & Hfr2). destruct Hw4 as (Hf4 & Ha4 & Hfr4).
  cbn [set_memory memoryBlock memory] in *. rewrite le_bytes_length in Hfr2.
  split; [|split].
  - split; [done|]. split.
    + repeat rewrite bytes_at_app. rewrite length_replicate, le_bytes_length. split_and!.
      * eapply bytes_at_frame; [exact Hb3|]. intros j Hj. apply Hfr4. lia.
      * replace (p + 32 - memoryBlock rb + zlen bits) with (p + 32 - memoryBlock rb + Z.of_nat (Z.to_nat nb)) by lia.
        eapply bytes_at_frame; [exact Hz2|]. intros j Hj. rewrite length_replicate in Hj. rewrite Hfr4, Hfr3 by lia. done.
      * match goal with |- bytes_at _ ?x _ => replace x with (p + 32 + al - memoryBlock rb) by lia end.
        eapply bytes_at_frame; [exact Ha2|]. intros j Hj. rewrite le_bytes_length in Hj. rewrite Hfr4, Hfr3 by lia. done.
      * match goal with |- bytes_at _ ?x _ => replace x with (p + 32 + al + 4 - memoryBlock rb) by lia end.
        eapply bytes_at_frame; [exact Hd3|]. intros j Hj. apply Hfr4. lia.
      * match goal with |- bytes_at _ ?x _ => replace x with (p + 32 + al + 4 + zlen data - memoryBlock rb) by lia end. exact Ha4.
    + intros j Hj. rewrite !length_app, length_replicate, le_bytes_length in Hj. rewrite Hfr4, Hfr3, Hfr2, Hfr1 by lia. done.
  - exists bits. split; [done|]. split; [|done]. intros i c0 Hi. apply lookup_lt_Some in Hi as Hlt.
    rewrite (Hmark i ltac:(lia)), decide_True, Nat.sub_0_r, Hi by lia. destruct c0 as [[? ?]|]; [by rewrite bool_decide_eq_true_2 by eauto|].
    rewrite bool_decide_eq_false_2 by (by intros [? ?]). unfold getBitStringBit. rewrite decide_True by lia.
    destruct (rd_Some (replicate (Z.to_nat nb) 0) (Z.quot (Z.of_nat i) 8)) as [x Hx].
    { rewrite length_replicate. unfold nb, getBitStringByteSize. split; [zlia|]. rewrite Z2Nat.id by (case_decide; zlia). case_decide; zlia. }
    rewrite Hx. cbn [mbind option_bind]. assert (x = 0) as ->.
    { unfold rd in Hx. case_decide; [|done]. by apply lookup_replicate in Hx as [-> _]. }
    rewrite Z.land_0_l. done.
  - rewrite !length_app, length_replicate, le_bytes_length. lia.
Qed.
End Filling.

(** *** The header of an entry *)

Section Header.
Import ReportBuffer (filling, load, store, set_memory, memory, memoryBlock, memoryBlockSize).
Context (es : list ReportBuffer.entry) (u : nat) (p size : Z) (Hsize : sizeof_entry <= size < 536870912).

Lemma load_filling rb n q : filling rb es u p size -> p <= q -> q + Z.of_nat n <= p + size ->
  exists xs, load n rb q = Some xs /\ length xs = n /\ is_bytes xs /\ bytes_at (memory rb) (q - memoryBlock rb) xs.
Proof.
  intros Hf H1 H2. destruct (ReportBuffer.f_mem _ _ _ _ _ Hf) as [Hb Hl].
  destruct (ReportBuffer.gap_inside rb es p size ltac:(lia) (ReportBuffer.f_ok _ _ _ _ _ Hf) (ReportBuffer.f_gap _ _ _ _ _ Hf)) as (Hlo & Hhi & _).
  unfold load. destruct (rds_Some n (memory rb) (q - memoryBlock rb)) as (xs & E & Hn & Hat); [lia|lia|]. exists xs.
  split_and!; try done. by eapply bytes_at_is_bytes.
Qed.

Lemma store_load rb m q xs : store rb q xs = Some (set_memory rb m) -> wrote es u p size rb m q xs -> load (length xs) (set_memory rb m) q = Some xs.
Proof. intros _ (_ & Hat & _). unfold load. by apply rds_at. Qed.

Lemma header_wrote rb f : filling rb es u p size -> 0 <= f < 4 -> exists m,
  (rb' ← ReportBuffer.set_flags rb p f; ReportBuffer.set_entryLength rb' p size) = Some (set_memory rb m) /\
  wrote es u p size rb m (p + 16) (le_bytes 4 (size + f * 1073741824)).
Proof.
  unfold sizeof_entry in *. intros Hf Hfl. assert (Hs : sizeof_entry <= size) by (unfold sizeof_entry; lia).
  destruct (load_filling rb 4 (p + 16) Hf ltac:(lia) ltac:(lia)) as (xs & El & Hn & Hb & _).
  unfold ReportBuffer.set_flags, ReportBuffer.bitfields. rewrite El. cbn [fmap option_fmap option_map mbind option_bind].
  set (w := ReportBuffer.le_val xs). set (x := w mod 1073741824 + f * 1073741824).
  destruct (store_wrote es u p size Hs rb (p + 16) (le_bytes 4 x) Hf (le_bytes_bytes 4 _) ltac:(lia)
    ltac:(rewrite le_bytes_length; lia) ltac:(rewrite le_bytes_length; lia)) as (m1 & E1 & Hw1).
  rewrite E1. cbn [mbind option_bind]. unfold ReportBuffer.set_entryLength, ReportBuffer.bitfields.
  pose proof (store_load _ _ _ _ E1 Hw1) as E2. rewrite le_bytes_length in E2. rewrite E2. cbn [fmap option_fmap option_map mbind option_bind].
  rewrite ReportBuffer.le_val_le_bytes.
  destruct (store_wrote es u p size Hs (set_memory rb m1) (p + 16) (le_bytes 4 (x mod 256 ^ Z.of_nat 4 / 1073741824 * 1073741824 + size mod 1073741824)) (proj1 Hw1)
    (le_bytes_bytes 4 _) ltac:(lia) ltac:(rewrite le_bytes_length; lia) ltac:(rewrite le_bytes_length; lia)) as (m2 & E3 & Hw2).
  rewrite E3. exists m2. split; [done|]. destruct Hw1 as (_ & _ & Hf1). destruct Hw2 as (Hff & Ha2 & Hf2). cbn [set_memory memoryBlock memory] in *.
  split; [done|]. split.
  - replace (size + f * 1073741824) with (x mod 256 ^ Z.of_nat 4 / 1073741824 * 1073741824 + size mod 1073741824); [done|].
    unfold x. change (256 ^ Z.of_nat 4) with 4294967296. zlia.
  - intros j Hj. rewrite le_bytes_length in *. rewrite Hf2, Hf1 by lia. done.
Qed.

Lemma next_id_range rc t : 0 <= lastEntryId rc -> 0 <= t < 18446744073709551616 -> 0 <= next_entry_id rc t < 18446744073709551616.
Proof. intros. unfold next_entry_id, u64. case_decide; zlia. Qed.

Lemma identify_wrote rc n rb t : consistent rc n -> 0 <= t < 18446744073709551616 -> filling rb es u p size -> exists m id,
  identify rc rb p t = Some (if buffered rc then set_ids rc (next_entry_id rc t)
      (if enabled rc then rcbEntryID rc else (8, snd (fst (rcbEntryID rc)), take 8 id ++ drop 8 (snd (rcbEntryID rc)))) else rc, set_memory rb m) /\
  wrote es u p size rb m p id /\ wf_buf id 8 /\ (buffered rc = true -> id = be_bytes 8 (next_entry_id rc t)).
Proof.
  intros Hcon Ht Hf. assert (Hs : sizeof_entry <= size) by lia. unfold sizeof_entry in Hsize. unfold identify. destruct (buffered rc).
  - set (id := be_bytes 8 (next_entry_id rc t)).
    destruct (store_wrote es u p size Hs rb p id Hf (be_bytes_bytes 8 _) ltac:(lia) ltac:(unfold id; rewrite be_bytes_length; lia)
      ltac:(unfold id; rewrite be_bytes_length; lia)) as (m & E & Hw). rewrite E. cbn [mbind option_bind]. exists m, id.
    assert (Hid : wf_buf id 8) by (split; [apply be_bytes_bytes|unfold id; by rewrite be_bytes_length]).
    split; [|done]. destruct (enabled rc); [done|]. pose proof (c_rcbId _ _ Hcon) as Hr. destruct (rcbEntryID rc) as [[sz mx] buf].
    destruct Hr as ((Hbuf & Hsz & _) & Hmx). unfold ReportBuffer.entryId. pose proof (store_load _ _ _ _ E Hw) as El.
    destruct Hid as [Hib Hil]. replace (length id) with 8%nat in El by lia. rewrite El. cbn [mbind option_bind].
    unfold setOctetString. rewrite decide_True by lia. destruct (wf_buf_memcpy 8 id buf 8 (Z.abs mx)) as (Ec & _ & _); [lia|lia|done|done|].
    change (Z.to_nat 8) with 8%nat in *. rewrite Ec. done.
  - destruct (load_filling rb 8 p Hf ltac:(lia) ltac:(lia)) as (id & _ & Hn & Hb & Hat). exists (memory rb), id.
    split; [by destruct rb|]. split; [|split; [split; [done|lia]|done]]. split; [by destruct rb|]. split; [done|]. done.
Qed.
End Header.

Lemma puts_wf b p xs n : wf_buf b n -> 0 <= p -> p + zlen xs <= n -> exists b' q, puts b p xs = Some (b', q) /\ wf_buf b' n.
Proof.
  intros [Hb Hl] H1 H2. destruct (puts_Some b p xs) as [b' E]; [lia|lia|]. exists b', (p + zlen xs). split; [done|].
  pose proof (puts_bytes _ _ _ _ _ Hb E). apply puts_inv in E as (_ & L & _). split; [done|lia].
Qed.

Lemma setBinaryTime_total size buf t : wf_buf buf 6 -> exists b, setBinaryTime size buf t = Some b /\ wf_buf b 6.
Proof.
  intros Hb. unfold setBinaryTime. set (ms := if decide _ then _ else _).
  assert (E : exists b q, (if decide (size = 6) then puts buf 4 (be_bytes 2 (u16 (ms / 86400000))) else Some (buf, 4)) = Some (b, q) /\ wf_buf b 6).
  { case_decide; [|by exists buf, 4]. apply puts_wf; [done|lia|rewrite be_bytes_length; lia]. }
  destruct E as (b & q & -> & Hb'). cbn [mbind option_bind].
  destruct (puts_wf b 0 (be_bytes 4 (u32 (ms mod 86400000))) 6 Hb' ltac:(lia) ltac:(rewrite be_bytes_length; lia)) as (b' & q' & -> & Hb'').
  cbn [mbind option_bind]. by exists b'.
Qed.

Lemma updateTimeOfEntry_spec rc n t : consistent rc n -> exists buf, updateTimeOfEntry rc t = Some (set_timeOfEntry rc buf) /\
  consistent (set_timeOfEntry rc buf) n.
Proof.
  intros Hcon. pose proof (c_time _ _ Hcon) as Ht. unfold updateTimeOfEntry. destruct (timeOfEntry rc) as [size buf] eqn:E. cbn [fst snd] in *.
  destruct Ht as [Hsz Hb]. destruct (setBinaryTime_total size buf t Hb) as (b & -> & Hb'). cbn [mbind option_bind]. exists b. split; [done|].
  destruct Hcon. constructor; try done. cbn. by rewrite E.
Qed.

Lemma clear_loop_spec k : forall i flags, (i + k <= length flags)%nat ->
  clear_loop k (Z.of_nat i) flags = Some (take i flags ++ replicate k 0 ++ drop (i + k) flags).
Proof.
  induction k as [|k IH]; intros i flags Hi.
  - cbn. by rewrite Nat.add_0_r, take_drop.
  - cbn [clear_loop]. rewrite wr_Some by lia. cbn [mbind option_bind]. rewrite Nat2Z.id. replace (Z.of_nat i + 1) with (Z.of_nat (S i)) by lia.
    rewrite IH by (rewrite length_insert; lia). f_equal. change (u8 REPORT_CONTROL_NONE) with 0.
    rewrite (take_S_r _ _ 0) by (apply list_lookup_insert_eq; lia). rewrite take_insert_ge by lia. rewrite drop_insert_lt by lia.
    rewrite <- app_assoc. cbn. do 4 f_equal. lia.
Qed.

Lemma clear_spec rc n : consistent rc n ->
  clearInclusionFlags rc = Some (set_changes rc (replicate n 0) (bufferedDataSetValues rc)).
Proof.
  intros [_ (ds & Hds & Hec & _) [Hfl _] _ _ _ _]. unfold clearInclusionFlags. rewrite Hds. cbn [mbind option_bind]. rewrite Hec, Nat2Z.id.
  change 0 with (Z.of_nat 0) at 1. rewrite clear_loop_spec by lia. cbn [mbind option_bind]. rewrite take_0. cbn [app Nat.add].
  rewrite drop_ge by lia. by rewrite app_nil_r.
Qed.

(** What a report does not change. *)
Record same_setup (rc rc' : ReportControl) : Prop := {
  s_inclusion : inclusionField rc' = inclusionField rc;
  s_dataSet : dataSet rc' = dataSet rc;
  s_enabled : enabled rc' = enabled rc;
  s_buffered : buffered rc' = buffered rc;
  s_buffering : isBuffering rc' = isBuffering rc;
  s_values : bufferedDataSetValues rc' = bufferedDataSetValues rc;
  s_references : valueReferences rc' = valueReferences rc;
  s_gi : gi rc' = gi rc;
  s_intgPd : intgPd rc' = intgPd rc;
  s_bufTm : bufTm rc' = bufTm rc;
  s_next : nextIntgReportTime rc' = nextIntgReportTime rc;
  s_ops : triggerOps rc' = triggerOps rc;
  s_triggered : triggered rc' = triggered rc;
  s_reportTime : reportTime rc' = reportTime rc;
  s_server : server rc' = server rc;
}.

(** The entry of a report in the buffer. *)
Definition report_flags (isIntegrity isGI : bool) : Z := if isIntegrity then 1 else if isGI then 2 else 0.
Record report_entry (rc : ReportControl) (n : nat) (f t : Z) (c : content) (e : ReportBuffer.entry) : Prop := {
  re_time : ReportBuffer.time e = t;
  re_flags : ReportBuffer.fl e = f;
  re_length : ReportBuffer.len e = report_size n c;
  re_body : described n c (ReportBuffer.body e);
  re_id : buffered rc = true -> ReportBuffer.id e = be_bytes 8 (next_entry_id rc t);
}.

(** The reports that are left after a report with [size] octets has got its place. *)
Record displaced (rb rb' : ReportBuffer) (es : list ReportBuffer.entry) (u : nat) (size : Z) (k : nat) (overflow : bool) : Prop := {
  d_count : (k <= length es)%nat;
  d_overflow : overflow = bool_decide (length es <> 1 /\ length es - k < u)%nat;
  d_flag : ReportBuffer.isOverflow rb' = ReportBuffer.isOverflow rb || overflow;
  d_room : ReportBuffer.ascending (ReportBuffer.memoryBlock rb) es ->
    ReportBuffer.end_of (ReportBuffer.memoryBlock rb) es + size <= ReportBuffer.memoryBlock rb + ReportBuffer.memoryBlockSize rb -> k = 0%nat;
  d_block : ReportBuffer.memoryBlock rb' = ReportBuffer.memoryBlock rb /\ ReportBuffer.memoryBlockSize rb' = ReportBuffer.memoryBlockSize rb;
}.

(** The reports that are there when the new one gets its place: those of general interrogations
    are removed before another one. *)
Definition before (rc : ReportControl) (isGI : bool) (es : list ReportBuffer.entry) : list ReportBuffer.entry :=
  if buffered rc && isGI then filter ReportBuffer.keep es else es.
Definition before_unsent (rc : ReportControl) (isGI : bool) (es : list ReportBuffer.entry) (u : nat) : nat :=
  if buffered rc && isGI then length (filter ReportBuffer.keep (drop (length es - u) es)) else u.

Section Enqueue.
Import ReportBuffer (filling, load, store, set_memory, memory, memoryBlock, memoryBlockSize, queue).
Context (values : nat -> option MmsValue).

Lemma before_queue rc isGI es u : queue (reportBuffer rc) es u -> exists rb,
  (if buffered rc && isGI then ReportBuffer.removeAllGIReports (reportBuffer rc) else Some (reportBuffer rc)) = Some rb /\
  queue rb (before rc isGI es) (before_unsent rc isGI es u) /\ memoryBlock rb = memoryBlock (reportBuffer rc) /\
  memoryBlockSize rb = memoryBlockSize (reportBuffer rc) /\ ReportBuffer.isOverflow rb = ReportBuffer.isOverflow (reportBuffer rc).
Proof.
  intros Hq. unfold before, before_unsent. destruct (buffered rc && isGI); [|by exists (reportBuffer rc)].
  by apply ReportBuffer.removeAllGIReports_queue.
Qed.

(** Writing the entry into its place. *)
Lemma write_entry_spec rc n c rb es u p f t snapshot : consistent rc n -> content_of values rc snapshot = Some c -> Forall sound (reported c) ->
  filling rb es u p (report_size n c) -> report_size n c < 536870912 -> 0 <= f < 4 -> 0 <= t < 18446744073709551616 -> exists m e rcb,
  (rb ← store rb (p + 8) (le_bytes 8 t);
   '(rc, rb) ← identify rc rb p t;
   rb ← ReportBuffer.set_flags rb p f;
   rb ← ReportBuffer.set_entryLength rb p (report_size n c);
   rb ← fill_entry values rc rb (p + sizeof_entry) (Z.of_nat n) (zlen (encodings (reported c))) snapshot;
   Some (rc, rb)) =
    Some (if buffered rc then set_ids rc (next_entry_id rc t) rcb else rc, set_memory rb m) /\
  queue (ReportBuffer.finish_entry (set_memory rb m)) (es ++ [e]) (S u) /\ report_entry rc n f t c e /\
  (let '(size, maxSize, buf) := rcb in wf (MmsOctetString size maxSize buf) /\ 8 <= Z.abs maxSize).
Proof.
  intros Hcon Hc Hs Hf Hsz Hfl Ht. destruct (content_fits n c) as [Hk0 Hfit]. set (size := report_size n c) in *.
  assert (Hs32 : sizeof_entry <= size < 536870912) by (unfold sizeof_entry in *; lia). pose proof Hs32 as Hs32'. unfold sizeof_entry in Hs32'.
  destruct (store_wrote es u p size ltac:(lia) rb (p + 8) (le_bytes 8 t) Hf (le_bytes_bytes 8 t) ltac:(lia) ltac:(rewrite le_bytes_length; lia)
    ltac:(rewrite le_bytes_length; lia)) as (m1 & -> & Hw1). cbn [mbind option_bind].
  destruct (identify_wrote es u p size Hs32 rc n (set_memory rb m1) t Hcon Ht (proj1 Hw1)) as (m2 & id & E2 & Hw2 & Hid & Hidv).
  change (set_memory (set_memory rb m1) m2) with (set_memory rb m2) in *.
  match type of E2 with _ = Some (?r, _) => set (rc2 := r) in * end. rewrite E2. cbn [mbind option_bind]. clear E2.
  destruct (header_wrote es u p size Hs32 (set_memory rb m2) f (proj1 Hw2) Hfl) as (m3 & E3 & Hw3).
  change (set_memory (set_memory rb m2) m3) with (set_memory rb m3) in *.
  destruct (ReportBuffer.set_flags (set_memory rb m2) p f) as [rb'|]; [|done]. cbn [mbind option_bind] in *. rewrite E3. cbn [mbind option_bind]. clear E3.
  assert (Hcon2 : consistent rc2 n).
  { pose proof (next_id_range rc t (proj1 (c_lastId _ _ Hcon)) Ht). unfold rc2. destruct (buffered rc); [|done].
    destruct Hcon as [? ? ? ? ? ? Hr]. constructor; try done. cbn. destruct (enabled rc); [done|].
    destruct (rcbEntryID rc) as [[sz mx] buf]. cbn. destruct Hr as ((Hbuf & Hsz' & H16) & Hmx). split; [|done].
    destruct (wf_buf_memcpy 8 id buf 8 (Z.abs mx)) as (_ & Hb' & _); [lia|lia|done|done|]. split; [exact Hb'|lia]. }
  assert (Hc2 : content_of values rc2 snapshot = Some c) by (unfold rc2; by destruct (buffered rc)).
  assert (E4 : exists m4 body, fill_entry values rc2 (set_memory rb m3) (p + sizeof_entry) (Z.of_nat n) (zlen (encodings (reported c))) snapshot =
      Some (set_memory rb m4) /\ wrote es u p size (set_memory rb m3) m4 (p + sizeof_entry) body /\ described n c body /\ zlen body = content_size n c).
  { pose proof (content_members _ _ _ _ _ Hcon2 Hc2) as Hm. destruct c as [vs|cs]; destruct Hm as (-> & Hn & Hm).
    - apply (fill_snapshot_wrote values rc2 n Hcon2 es u p (set_memory rb m3) vs size Hm Hn Hs ltac:(lia) (proj1 Hw3)).
    - apply (fill_changes_wrote values rc2 n Hcon2 es u p (set_memory rb m3) cs size Hm Hn Hs ltac:(lia) (proj1 Hw3)). }
  destruct E4 as (m4 & body & -> & Hw4 & Hdesc & Hlen). cbn [mbind option_bind].
  set (e := {| ReportBuffer.pos := p; ReportBuffer.id := id; ReportBuffer.time := t; ReportBuffer.fl := f; ReportBuffer.len := size; ReportBuffer.body := body |}).
  exists m4, e, (rcbEntryID rc2). split; [|split; [|split]].
  - do 2 f_equal. unfold rc2. by destruct (buffered rc).
  - destruct Hid as [Hidb Hidl]. destruct Hw1 as (_ & Ha1 & Hfr1). destruct Hw2 as (_ & Ha2 & Hfr2). destruct Hw3 as (_ & Ha3 & Hfr3). destruct Hw4 as (Hf4 & Ha4 & Hfr4).
    cbn [set_memory memoryBlock memory] in *. rewrite le_bytes_length in *. unfold sizeof_entry in *. apply ReportBuffer.finish_queue.
    + exact Hf4.
    + constructor; cbn; try done; unfold sizeof_entry; lia.
    + cbn [ReportBuffer.pos ReportBuffer.id ReportBuffer.time e]. cbn [set_memory memory memoryBlock].
      repeat rewrite bytes_at_app. rewrite le_bytes_length. split_and!.
      * eapply bytes_at_frame; [exact Ha2|]. intros j Hj. rewrite Hfr4, Hfr3 by lia. done.
      * match goal with |- bytes_at _ ?x _ => replace x with (p + 8 - memoryBlock rb) by lia end.
        eapply bytes_at_frame; [exact Ha1|]. intros j Hj. rewrite le_bytes_length in Hj. rewrite Hfr4, Hfr3, Hfr2 by lia. done.
      * match goal with |- bytes_at _ ?x _ => replace x with (p + 16 - memoryBlock rb) by lia end.
        eapply bytes_at_frame; [exact Ha3|]. intros j Hj. rewrite le_bytes_length in Hj. rewrite Hfr4 by lia. done.
    + cbn [ReportBuffer.pos ReportBuffer.body e]. exact Ha4.
  - constructor; done.
  - exact (c_rcbId _ _ Hcon2).
Qed.

(** What a report changes: nothing but the time when the entry is larger than the buffer;
    otherwise the oldest reports may go, and the new one is the last. *)
Definition enqueued (rc rc' : ReportControl) (n : nat) (isIntegrity isGI : bool) (t : Z) (c : content)
    (es : list ReportBuffer.entry) (u : nat) (events : list Event) : Prop :=
  if decide (report_size n c > memoryBlockSize (reportBuffer rc)) then
    reportBuffer rc' = reportBuffer rc /\ inclusionFlags rc' = inclusionFlags rc /\ lastEntryId rc' = lastEntryId rc /\ events = notify rc false
  else
    let es1 := before rc isGI es in
    let u1 := before_unsent rc isGI es u in
    exists k overflow e,
      queue (reportBuffer rc') (drop k es1 ++ [e]) (S (u1 `min` (length es1 - k))) /\
      report_entry rc n (report_flags isIntegrity isGI) t c e /\
      displaced (reportBuffer rc) (reportBuffer rc') es1 u1 (report_size n c) k overflow /\
      inclusionFlags rc' = replicate n 0 /\ lastEntryId rc' = (if buffered rc then next_entry_id rc t else lastEntryId rc) /\
      events = notify rc overflow.

Lemma finish_fields rb : memoryBlock (ReportBuffer.finish_entry rb) = memoryBlock rb /\
  memoryBlockSize (ReportBuffer.finish_entry rb) = memoryBlockSize rb /\
  ReportBuffer.isOverflow (ReportBuffer.finish_entry rb) = ReportBuffer.isOverflow rb.
Proof. unfold ReportBuffer.finish_entry. by repeat case_decide. Qed.

Lemma enqueueReport_spec rc n es u isIntegrity isGI t now c :
  consistent rc n -> queue (reportBuffer rc) es u -> memoryBlockSize (reportBuffer rc) < 536870912 ->
  content_of values rc (isIntegrity || isGI) = Some c -> Forall sound (reported c) -> report_size n c < 2147483648 ->
  0 <= t < 18446744073709551616 ->
  exists rc' events, enqueueReport values rc isIntegrity isGI t now = Some (rc', events) /\ consistent rc' n /\ same_setup rc rc' /\
    enqueued rc rc' n isIntegrity isGI t c es u events.
Proof.
  intros Hcon Hq Hblk Hc Hs Hsz Ht. unfold enqueueReport.
  destruct (updateTimeOfEntry_spec rc n now Hcon) as (buf & -> & Hcon0). cbn [mbind option_bind]. set (rc0 := set_timeOfEntry rc buf) in *.
  assert (Hc0 : content_of values rc0 (isIntegrity || isGI) = Some c) by exact Hc.
  destruct (c_inclusion _ _ Hcon0) as (bits & Hi). rewrite Hi. cbn [mbind option_bind].
  rewrite (entry_size_spec values rc0 n _ c Hcon0 Hc0 Hs Hsz). cbn [mbind option_bind]. unfold enqueued.
  change (reportBuffer rc0) with (reportBuffer rc). change (buffered rc0) with (buffered rc).
  destruct (decide (report_size n c > memoryBlockSize (reportBuffer rc))) as [Hbig|Hfits].
  { exists rc0, (notify rc0 false). split; [done|]. split; [done|]. split; [by constructor|]. done. }
  destruct (before_queue rc isGI es u Hq) as (rb & -> & Hqb & Hb1 & Hb2 & Hb3). cbn [mbind option_bind].
  set (es1 := before rc isGI es) in *. set (u1 := before_unsent rc isGI es u) in *.
  destruct (content_fits n c) as [Hk0 Hfit].
  destruct (ReportBuffer.reserve_spec rb es1 u1 (report_size n c) Hqb ltac:(lia)) as (rb1 & p & k & ovf & -> & Hk & Hroom & Hm1 & Hm2 & Ho & Hovf & Hz).
  cbn [mbind option_bind].
  destruct (ReportBuffer.start_filling rb1 _ _ p (report_size n c) ltac:(lia) Hroom) as (rb2 & -> & Hf & Hm3 & Hm4 & Ho2). cbn [mbind option_bind].
  destruct (write_entry_spec rc0 n c rb2 _ _ p (report_flags isIntegrity isGI) t (isIntegrity || isGI) Hcon0 Hc0 Hs Hf ltac:(lia)
    ltac:(unfold report_flags; destruct isIntegrity, isGI; lia) Ht) as (m & e & rcb & E & Hq' & He & Hrcb).
  change (if isIntegrity then 1 else if isGI then 2 else 0) with (report_flags isIntegrity isGI).
  destruct (store rb2 (p + 8) (le_bytes 8 t)) as [rb3|]; [|done]. cbn [mbind option_bind] in *.
  destruct (identify rc0 rb3 p t) as [[rc1 rb4]|]; [|done]. cbn [mbind option_bind] in *.
  destruct (ReportBuffer.set_flags rb4 p (report_flags isIntegrity isGI)) as [rb5|]; [|done]. cbn [mbind option_bind] in *.
  destruct (ReportBuffer.set_entryLength rb5 p (report_size n c)) as [rb6|]; [|done]. cbn [mbind option_bind] in *.
  destruct (fill_entry values rc1 rb6 _ _ _ _) as [rb7|]; [|done]. cbn [mbind option_bind] in *. injection E as -> ->.
  set (rc2 := if buffered rc then set_ids rc0 (next_entry_id rc0 t) rcb else rc0).
  assert (Hcon2 : consistent rc2 n).
  { pose proof (next_id_range rc t (proj1 (c_lastId _ _ Hcon)) Ht). unfold rc2. destruct (buffered rc); [|done].
    destruct Hcon0. by constructor. }
  rewrite (clear_spec rc2 n Hcon2). cbn [mbind option_bind].
  eexists _, _. split; [done|]. split; [|split].
  - destruct Hcon2 as [? ? ? ? ? ? ?]. constructor; try done. cbn. split; [by rewrite length_replicate|]. by apply Forall_replicate.
  - unfold rc2. by destruct (buffered rc).
  - exists k, ovf, e. split; [exact Hq'|]. split; [destruct He; by constructor|]. split; [|split; [done|split]].
    + destruct (finish_fields (set_memory rb2 m)) as (F1 & F2 & F3). cbn [set_memory memoryBlock memoryBlockSize ReportBuffer.isOverflow] in F1, F2, F3.
      constructor; [done|done| | |]; cbn [set_reportBuffer reportBuffer].
      * congruence.
      * rewrite <- Hb1, <- Hb2. exact Hz.
      * split; congruence.
    + unfold rc2. by destruct (buffered rc).
    + unfold rc2, notify. by destruct (buffered rc).
Qed.
End Enqueue.

(** ** What the triggers make *)

Definition GI_REPORT : bool * bool := (false, true).
Definition INTEGRITY_REPORT : bool * bool := (true, false).
Definition EVENT_REPORT : bool * bool := (false, false).

Section Triggers.
Import ReportBuffer (memoryBlock, memoryBlockSize, queue).
Context (values : nat -> option MmsValue) (n : nat).

(** A report control block that can make reports. *)
Definition live (rc : ReportControl) : Prop :=
  consistent rc n /\ (exists es u, queue (reportBuffer rc) es u) /\ memoryBlockSize (reportBuffer rc) < 536870912.

(** The reports made one after the other, with the events reported to the application; the
    triggers may change between them. *)
Inductive makes (t : Z) : ReportControl -> list (bool * bool * content) -> list Event -> ReportControl -> Prop :=
  | makes_none rc : makes t rc [] [] rc
  | makes_report rc rc1 rc2 isIntegrity isGI c es u e1 l e2 :
      queue (reportBuffer rc) es u -> content_of values rc (isIntegrity || isGI) = Some c ->
      enqueued rc rc1 n isIntegrity isGI t c es u e1 -> same_setup rc rc1 -> makes t rc1 l e2 rc2 ->
      makes t rc ((isIntegrity, isGI, c) :: l) (e1 ++ e2) rc2
  | makes_trigger rc tr g next time l e rc' :
      makes t (set_trigger rc tr g next time) l e rc' -> makes t rc l e rc'.

Lemma makes_app t rc l1 e1 rc1 l2 e2 rc2 : makes t rc l1 e1 rc1 -> makes t rc1 l2 e2 rc2 -> makes t rc (l1 ++ l2) (e1 ++ e2) rc2.
Proof.
  induction 1 as [rc|rc rc1 rc3 i g c es u ev l ev2 Hq Hc He Hs _ IH|rc tr g nx tm l e rc' _ IH]; intros H2; [done| |].
  - cbn [app]. rewrite <- app_assoc. by eapply makes_report, IH.
  - by eapply makes_trigger, IH.
Qed.

(** What there is to report. *)
Record reportable (rc : ReportControl) (vs : list MmsValue) : Prop := {
  p_snapshot : snapshot_values values rc = Some vs;
  p_sound : Forall sound vs;
  p_size : report_size n (Snapshot vs) < 2147483648;
}.
Record changed_since (rc : ReportControl) (cs : list (option (Z * MmsValue))) : Prop := {
  p_changes : changes (inclusionFlags rc) (bufferedDataSetValues rc) = Some cs;
  p_changed : Forall sound (changed cs);
  p_csize : report_size n (Changes cs) < 2147483648;
}.

Lemma live_trigger rc tr g next time : live rc -> live (set_trigger rc tr g next time).
Proof. intros ([] & Hq & Hb). split; [by constructor|]. done. Qed.

Lemma enqueue_makes rc isIntegrity isGI t now c : live rc -> content_of values rc (isIntegrity || isGI) = Some c ->
  Forall sound (reported c) -> report_size n c < 2147483648 -> 0 <= t < 18446744073709551616 ->
  exists rc' events, enqueueReport values rc isIntegrity isGI t now = Some (rc', events) /\ live rc' /\ same_setup rc rc' /\
    makes t rc [(isIntegrity, isGI, c)] events rc'.
Proof.
  intros (Hcon & (es & u & Hq) & Hb) Hc Hs Hsz Ht.
  destruct (enqueueReport_spec values rc n es u isIntegrity isGI t now c Hcon Hq Hb Hc Hs Hsz Ht) as (rc' & ev & E & Hcon' & Hss & Hen).
  exists rc', ev. split; [done|]. split; [|split; [done|]].
  - split; [done|]. unfold enqueued in Hen. case_decide.
    + destruct Hen as (-> & _). split; [by exists es, u|done].
    + destruct Hen as (k & ovf & e & Hq' & _ & [_ _ _ _ [_ Hsz']] & _). split; [by eexists _, _|lia].
  - rewrite <- (app_nil_r ev). eapply makes_report; [exact Hq|exact Hc|exact Hen|done|constructor].
Qed.

Lemma enqueue_snapshot rc isIntegrity isGI t now vs : live rc -> reportable rc vs -> isIntegrity || isGI = true -> 0 <= t < 18446744073709551616 ->
  exists rc' events, enqueueReport values rc isIntegrity isGI t now = Some (rc', events) /\ live rc' /\ same_setup rc rc' /\
    makes t rc [(isIntegrity, isGI, Snapshot vs)] events rc' /\ reportable rc' vs.
Proof.
  intros Hl [Hv Hs Hsz] Hsnap Ht.
  destruct (enqueue_makes rc isIntegrity isGI t now (Snapshot vs) Hl) as (rc' & ev & E & Hl' & Hss & Hm); try done.
  { rewrite Hsnap. cbn. by rewrite Hv. }
  exists rc', ev. split_and!; try done. constructor; try done. unfold snapshot_values in *. by rewrite (s_dataSet _ _ Hss).
Qed.

Lemma enqueue_changes rc t now vs cs : live rc -> reportable rc vs -> changed_since rc cs -> 0 <= t < 18446744073709551616 ->
  exists rc' events, enqueueReport values rc false false t now = Some (rc', events) /\ live rc' /\ same_setup rc rc' /\
    makes t rc [(EVENT_REPORT, Changes cs)] events rc' /\ reportable rc' vs.
Proof.
  intros Hl [Hv Hs Hsz] [Hc Hcs Hcsz] Ht.
  destruct (enqueue_makes rc false false t now (Changes cs) Hl) as (rc' & ev & E & Hl' & Hss & Hm); try done.
  { cbn. by rewrite Hc. }
  exists rc', ev. split_and!; try done. constructor; try done. unfold snapshot_values in *. by rewrite (s_dataSet _ _ Hss).
Qed.

(** The conditions of the three kinds of reports. *)
Definition gi_due (rc : ReportControl) : bool := bool_decide (Z.land (triggerOps rc) TRG_OPT_GI <> 0) && gi rc.
Definition integrity_due (rc : ReportControl) (t : Z) : bool :=
  bool_decide (Z.land (triggerOps rc) TRG_OPT_INTEGRITY <> 0) && bool_decide (intgPd rc > 0) && bool_decide (t >= nextIntgReportTime rc).

(** The pending changes, when they are reported before another report. *)
Definition first_changes (rc : ReportControl) (cs : list (option (Z * MmsValue))) : list (bool * bool * content) :=
  if triggered rc then [(EVENT_REPORT, Changes cs)] else [].

Lemma makes_first rc now vs cs t : live rc -> reportable rc vs -> (triggered rc = true -> changed_since rc cs) -> 0 <= t < 18446744073709551616 ->
  exists rc' e, (if triggered rc then enqueueReport values (set_triggered rc false) false false t now else Some (rc, [])) = Some (rc', e) /\
    live rc' /\ reportable rc' vs /\ makes t rc (first_changes rc cs) e rc' /\ same_setup (set_triggered rc false) rc'.
Proof.
  intros Hl Hv Hc Ht. unfold first_changes. destruct (triggered rc) eqn:E.
  - destruct (enqueue_changes (set_triggered rc false) t now vs cs) as (rc' & ev & -> & Hl' & Hss & Hm & Hv'); try done.
    { by apply live_trigger. } { by destruct Hv. } { specialize (Hc eq_refl). by destruct Hc. }
    exists rc', ev. split; [done|]. split; [done|]. split; [done|]. split; [by eapply makes_trigger|done].
  - exists rc, []. split; [done|]. split; [done|]. split; [done|]. split; [constructor|]. by constructor.
Qed.

(** The general interrogation. *)
Lemma trigger_gi_makes rc now vs cs t : live rc -> reportable rc vs -> (triggered rc = true -> changed_since rc cs) -> 0 <= t < 18446744073709551616 ->
  exists rc' e, trigger_gi values rc t now = Some (rc', e) /\ live rc' /\ reportable rc' vs /\
    makes t rc (if gi_due rc then first_changes rc cs ++ [(GI_REPORT, Snapshot vs)] else []) e rc' /\
    (if gi_due rc then same_setup (set_triggered (set_gi rc false) false) rc' else rc' = rc).
Proof.
  intros Hl Hv Hc Ht. unfold trigger_gi, gi_due. case_decide as Ho; case_bool_decide; try done; cbn [andb];
    [|exists rc, []; split_and!; try done; constructor]. destruct (gi rc) eqn:Eg; [|exists rc, []; split_and!; try done; constructor].
  destruct (makes_first rc (now 0%nat) vs cs t Hl Hv Hc Ht) as (rc1 & e1 & -> & Hl1 & Hv1 & Hm1 & Hs1). cbn [mbind option_bind].
  destruct (enqueue_snapshot rc1 false true t (now 1%nat) vs Hl1 Hv1 eq_refl Ht) as (rc2 & e2 & -> & Hl2 & Hs2 & Hm2 & Hv2). cbn [mbind option_bind].
  eexists _, _. split; [reflexivity|]. split; [by apply live_trigger, live_trigger|]. split; [by destruct Hv2|]. split.
  - rewrite <- (app_nil_r (first_changes rc cs ++ _)), <- (app_nil_r (e1 ++ e2)). eapply makes_app; [by eapply makes_app|].
    unfold set_triggered, set_gi. do 2 eapply makes_trigger. constructor.
  - destruct Hs1, Hs2. constructor; cbn in *; congruence.
Qed.

(** *** The integrity period *)

(** [t] in the range of the clock, the period not over at the end of it. *)
Definition period_ok (rc : ReportControl) (t : Z) : Prop :=
  0 <= t /\ 0 < intgPd rc /\ t + intgPd rc < 18446744073709551616 /\ is_Some (server rc) /\ 0 <= nextIntgReportTime rc.

Lemma rounded_start t pd : 0 <= t -> 0 < pd -> t + pd < 18446744073709551616 -> exists s,
  getNextRoundedStartTime t pd = Some s /\ t < s <= t + pd /\ s mod pd = 0.
Proof.
  intros Ht Hp Ho. unfold getNextRoundedStartTime. rewrite decide_False by lia. pose proof (Z.mod_pos_bound t pd Hp) as Hm.
  eexists. split; [done|]. unfold u64. pose proof (Z.div_mod t pd ltac:(lia)) as Hd. case_decide as H0.
  - rewrite Z.mod_small by lia. split; [lia|]. replace (t + (pd - t mod pd)) with ((t / pd + 1) * pd) by nia. apply Z.mod_mul. lia.
  - assert (E : t mod pd = 0) by lia. rewrite Z.mod_small by lia. split; [lia|]. replace (t + pd) with ((t / pd + 1) * pd) by nia. apply Z.mod_mul. lia.
Qed.

Lemma next_start_spec rc t other : period_ok rc t -> exists s, next_start rc t other = Some (set_nextIntgReportTime rc s) /\
  (s = other \/ t < s <= t + intgPd rc).
Proof.
  intros (Ht & Hp & Ho & [sv Hsv] & _). unfold next_start. rewrite Hsv. cbn [mbind option_bind]. destruct (syncIntegrityReportTimes sv).
  - destruct (rounded_start t (intgPd rc) Ht Hp Ho) as (s & -> & Hs & _). exists s. split; [done|]. by right.
  - exists other. split; [done|]. by left.
Qed.

Lemma check_start_spec rc t : period_ok rc t -> exists s, check_start rc t = Some (set_nextIntgReportTime rc s) /\ t <= s <= t + intgPd rc.
Proof.
  intros Hok. pose proof Hok as (Ht & Hp & Ho & _ & Hn). unfold check_start.
  assert (Eu : u64 (t + intgPd rc) = t + intgPd rc) by (apply Z.mod_small; lia). rewrite Eu. case_decide as Hd.
  - destruct (next_start_spec rc t (t + intgPd rc) Hok) as (s & -> & Hs). exists s. split; [done|]. lia.
  - exists (nextIntgReportTime rc). split; [by destruct rc|]. lia.
Qed.

Lemma live_same rc tr g nx tm : live (set_trigger rc tr g nx tm) <-> live rc.
Proof. split; intros H; [|by apply live_trigger]. destruct H as ([] & Hq & Hb). split; [by constructor|]. done. Qed.

Lemma makes_end t rc l e rc1 tr g nx tm : makes t rc l e rc1 -> makes t rc l e (set_trigger rc1 tr g nx tm).
Proof.
  intros H. rewrite <- (app_nil_r l), <- (app_nil_r e). eapply makes_app; [exact H|]. eapply makes_trigger. constructor.
Qed.

(** The state after the integrity report. *)
Definition integrity_on (rc : ReportControl) : bool := bool_decide (Z.land (triggerOps rc) TRG_OPT_INTEGRITY <> 0) && bool_decide (intgPd rc > 0).

Lemma trigger_integrity_makes rc now vs cs t : live rc -> reportable rc vs -> (triggered rc = true -> changed_since rc cs) ->
  0 <= t < 18446744073709551616 -> (integrity_on rc = true -> period_ok rc t) ->
  exists rc' e s, trigger_integrity values rc t now = Some (rc', e) /\ live rc' /\ reportable rc' vs /\
    makes t rc (if integrity_due rc t then first_changes rc cs ++ [(INTEGRITY_REPORT, Snapshot vs)] else []) e rc' /\
    (if integrity_on rc then t <= s <= t + intgPd rc else s = nextIntgReportTime rc) /\
    if integrity_due rc t then same_setup (set_trigger rc false (gi rc) s (reportTime rc)) rc' else rc' = set_nextIntgReportTime rc s.
Proof.
  intros Hl Hv Hc Ht Hp. unfold trigger_integrity, integrity_due, integrity_on in *.
  assert (Hsame : rc = set_nextIntgReportTime rc (nextIntgReportTime rc)) by (by destruct rc).
  assert (Hnone : exists rc' e s, Some (rc, []) = Some (rc', e) /\ live rc' /\ reportable rc' vs /\ makes t rc [] e rc' /\
    s = nextIntgReportTime rc /\ rc' = set_nextIntgReportTime rc s).
  { exists rc, [], (nextIntgReportTime rc). split_and!; try done. constructor. }
  destruct (decide (Z.land (triggerOps rc) TRG_OPT_INTEGRITY <> 0)) as [Ho|Ho];
    [rewrite (bool_decide_eq_true_2 _ Ho) in *|rewrite (bool_decide_eq_false_2 _ Ho); exact Hnone].
  destruct (decide (intgPd rc > 0)) as [Hi|Hi]; [rewrite (bool_decide_eq_true_2 _ Hi) in *|rewrite (bool_decide_eq_false_2 _ Hi); exact Hnone].
  cbn [andb] in *. clear Hnone. specialize (Hp eq_refl).
  destruct (decide (t >= nextIntgReportTime rc)) as [Hd|Hd]; [rewrite (bool_decide_eq_true_2 _ Hd)|rewrite (bool_decide_eq_false_2 _ Hd)].
  - assert (E1 : exists rc1 e1, (if triggered rc then '(rc, e) ← enqueueReport values rc false false t (now 2%nat); Some (set_triggered rc false, e) else Some (rc, [])) =
      Some (rc1, e1) /\ live rc1 /\ reportable rc1 vs /\ makes t rc (first_changes rc cs) e1 rc1 /\ same_setup (set_triggered rc false) rc1).
    { unfold first_changes. destruct (triggered rc) eqn:E.
      - destruct (enqueue_changes rc t (now 2%nat) vs cs) as (rc' & ev & -> & Hl' & Hss & Hm & Hv'); try done; [by apply Hc|].
        exists (set_triggered rc' false), ev. split; [done|]. split; [by apply live_trigger|]. split; [by destruct Hv'|].
        split; [by apply makes_end|]. destruct Hss. by constructor.
      - exists rc, []. split; [done|]. split; [done|]. split; [done|]. split; [constructor|]. by constructor. }
    destruct E1 as (rc1 & e1 & -> & Hl1 & Hv1 & Hm1 & Hs1). cbn [mbind option_bind].
    assert (Hpd : intgPd rc1 = intgPd rc) by apply (s_intgPd _ _ Hs1).
    assert (Hp1 : forall s, 0 <= s -> period_ok (set_nextIntgReportTime rc1 s) t).
    { intros s Hs. destruct Hp as (? & ? & ? & [sv Hsv] & ?). unfold period_ok. cbn. rewrite Hpd. split_and!; try done.
      exists sv. rewrite <- Hsv. apply (s_server _ _ Hs1). }
    assert (Hp1' : period_ok rc1 t).
    { specialize (Hp1 (nextIntgReportTime rc1)). rewrite (s_next _ _ Hs1) in Hp1. cbn in Hp1.
      destruct (Hp1 ltac:(apply Hp)) as (? & ? & ? & ? & ?). unfold period_ok. rewrite (s_next _ _ Hs1). cbn. by split_and!. }
    destruct (next_start_spec rc1 t (u64 (nextIntgReportTime rc1 + intgPd rc1)) Hp1') as (s1 & -> & Hs1'). cbn [mbind option_bind].
    assert (Hs10 : 0 <= s1) by (destruct Hs1' as [->|?]; [apply Z.mod_pos_bound; lia|lia]).
    destruct (check_start_spec _ t (Hp1 s1 Hs10)) as (s2 & -> & Hs2). cbn [mbind option_bind]. cbn in Hs2. rewrite Hpd in Hs2.
    destruct (enqueue_snapshot (set_nextIntgReportTime (set_nextIntgReportTime rc1 s1) s2) true false t (now 3%nat) vs) as (rc2 & e2 & -> & Hl2 & Hss2 & Hm2 & Hv2); try done.
    { by do 2 apply live_trigger. } { by destruct Hv1. }
    cbn [mbind option_bind]. eexists _, _, s2. split; [reflexivity|]. split; [by apply live_trigger|]. split; [by destruct Hv2|]. split; [|split; [done|]].
    + apply makes_end. eapply makes_app; [exact Hm1|]. do 2 eapply makes_trigger. exact Hm2.
    + destruct Hs1, Hss2. constructor; cbn in *; congruence.
  - destruct (check_start_spec rc t Hp) as (s & -> & Hs). cbn [mbind option_bind]. eexists _, _, s. split; [reflexivity|].
    split; [by apply live_trigger|]. split; [by destruct Hv|]. split; [apply makes_end; constructor|]. done.
Qed.

Lemma trigger_change_makes rc now vs cs t monotonic : live rc -> reportable rc vs -> (triggered rc = true -> changed_since rc cs) ->
  0 <= t < 18446744073709551616 ->
  let due := triggered rc && bool_decide (monotonic >= reportTime rc) in
  exists rc' e, trigger_change values rc t now monotonic = Some (rc', e) /\ live rc' /\ reportable rc' vs /\
    makes t rc (if due then [(EVENT_REPORT, Changes cs)] else []) e rc' /\
    if due then same_setup (set_triggered rc false) rc' else rc' = rc.
Proof.
  intros Hl Hv Hc Ht. unfold trigger_change. cbn zeta. destruct (triggered rc) eqn:E; cbn [andb]; [|exists rc, []; split_and!; try done; constructor].
  case_decide; case_bool_decide; try done; [|exists rc, []; split_and!; try done; constructor].
  destruct (enqueue_changes rc t (now 4%nat) vs cs) as (rc' & ev & -> & Hl' & Hss & Hm & Hv'); try done; [by apply Hc|]. cbn [mbind option_bind].
  exists (set_triggered rc' false), ev. split; [done|]. split; [by apply live_trigger|]. split; [by destruct Hv'|].
  split; [by apply makes_end|]. destruct Hss. by constructor.
Qed.

(** The reports that are due: pending changes go before a general interrogation or integrity
    report. *)
Definition due (rc : ReportControl) (t monotonic : Z) (vs : list MmsValue) (cs : list (option (Z * MmsValue))) : list (bool * bool * content) :=
  if enabled rc || isBuffering rc then
    let gi := gi_due rc in let integrity := integrity_due rc t in
    (if gi || integrity || bool_decide (monotonic >= reportTime rc) then first_changes rc cs else []) ++
    (if gi then [(GI_REPORT, Snapshot vs)] else []) ++ (if integrity then [(INTEGRITY_REPORT, Snapshot vs)] else [])
  else [].

Lemma processEvents_spec rc t now monotonic vs cs : live rc -> reportable rc vs -> (triggered rc = true -> changed_since rc cs) ->
  0 <= t < 18446744073709551616 -> (integrity_on rc = true -> period_ok rc t) ->
  exists rc' events, processEventsForReport values rc t now monotonic = Some (rc', events) /\ live rc' /\
    makes t rc (due rc t monotonic vs cs) events rc' /\
    (enabled rc || isBuffering rc = true ->
       (integrity_on rc = true -> t <= nextIntgReportTime rc' <= t + intgPd rc) /\
       gi rc' = (if gi_due rc then false else gi rc) /\
       triggered rc' = triggered rc && negb (gi_due rc || integrity_due rc t || bool_decide (monotonic >= reportTime rc))).
Proof.
  intros Hl Hv Hc Ht Hp. unfold processEventsForReport, due. destruct (enabled rc || isBuffering rc);
    [|exists rc, []; split_and!; try done; constructor].
  destruct (trigger_gi_makes rc now vs cs t Hl Hv Hc Ht) as (rc1 & e1 & -> & Hl1 & Hv1 & Hm1 & Hs1). cbn [mbind option_bind].
  assert (Hset : integrity_on rc1 = integrity_on rc /\ integrity_due rc1 t = integrity_due rc t /\ reportTime rc1 = reportTime rc /\
    intgPd rc1 = intgPd rc /\ (period_ok rc t -> period_ok rc1 t) /\ (triggered rc1 = true -> changed_since rc1 cs)).
  { destruct (gi_due rc); [|by subst].
    unfold integrity_on, integrity_due, period_ok. rewrite (s_ops _ _ Hs1), (s_intgPd _ _ Hs1), (s_next _ _ Hs1), (s_reportTime _ _ Hs1), (s_server _ _ Hs1), (s_triggered _ _ Hs1).
    by split_and!. }
  destruct Hset as (Eon & Edue & Ert & Epd & Hp1 & Hc1).
  destruct (trigger_integrity_makes rc1 now vs cs t Hl1 Hv1 Hc1 Ht) as (rc2 & e2 & s & -> & Hl2 & Hv2 & Hm2 & Hb2 & Hs2).
  { rewrite Eon. auto. }
  cbn [mbind option_bind]. rewrite Edue, Eon, Epd in *.
  assert (Hset2 : reportTime rc2 = reportTime rc /\ nextIntgReportTime rc2 = s /\ gi rc2 = gi rc1 /\
    triggered rc2 = (if integrity_due rc t then false else triggered rc1) /\ (triggered rc2 = true -> changed_since rc2 cs)).
  { destruct (integrity_due rc t).
    - rewrite (s_reportTime _ _ Hs2), (s_next _ _ Hs2), (s_gi _ _ Hs2), (s_triggered _ _ Hs2). cbn. by rewrite Ert.
    - subst rc2. cbn. split_and!; try done. intros Ht1. destruct (Hc1 Ht1). by constructor. }
  destruct Hset2 as (Ert2 & Enext2 & Egi2 & Etr2 & Hc2).
  destruct (trigger_change_makes rc2 now vs cs t monotonic Hl2 Hv2 Hc2 Ht) as (rc3 & e3 & -> & Hl3 & Hv3 & Hm3 & Hs3). cbn [mbind option_bind].
  rewrite Ert2 in *. eexists _, _. split; [reflexivity|]. split; [done|].
  assert (Etr1 : triggered rc1 = if gi_due rc then false else triggered rc).
  { destruct (gi_due rc); [apply (s_triggered _ _ Hs1)|by subst]. }
  assert (Egi1 : gi rc1 = if gi_due rc then false else gi rc).
  { destruct (gi_due rc); [apply (s_gi _ _ Hs1)|by subst]. }
  assert (Hfin : nextIntgReportTime rc3 = s /\ gi rc3 = gi rc1 /\ triggered rc3 = (if triggered rc2 && bool_decide (monotonic >= reportTime rc) then false else triggered rc2)).
  { destruct (triggered rc2 && _) eqn:Ed; [|by subst]. rewrite (s_next _ _ Hs3), (s_gi _ _ Hs3), (s_triggered _ _ Hs3). cbn. by split_and!. }
  destruct Hfin as (Enext & Egi & Etr). split.
  - pose proof (makes_app _ _ _ _ _ _ _ _ Hm1 (makes_app _ _ _ _ _ _ _ _ Hm2 Hm3)) as Hm. clear -Hm Etr2 Etr1.
    rewrite Etr2, Etr1 in Hm. unfold first_changes in *. rewrite Etr1 in Hm.
    destruct (gi_due rc), (integrity_due rc t), (triggered rc), (bool_decide (monotonic >= reportTime rc)); exact Hm.
  - intros _. rewrite Enext, Egi, Egi1, Etr, Etr2, Etr1. split; [intros Hon; rewrite Hon in Hb2; exact Hb2|]. split; [done|].
    destruct (gi_due rc), (integrity_due rc t), (triggered rc), (bool_decide (monotonic >= reportTime rc)); done.
Qed.
End Triggers.

(** ** The reports made so far *)

Record report := { r_flags : Z; r_time : Z; r_content : content; r_id : list Z }.

(** The entry of a report; only buffered reports have an identifier. *)
Record is_report (n : nat) (b : bool) (e : ReportBuffer.entry) (r : report) : Prop := {
  ir_flags : ReportBuffer.fl e = r_flags r;
  ir_time : ReportBuffer.time e = r_time r;
  ir_body : described n (r_content r) (ReportBuffer.body e);
  ir_id : b = true -> ReportBuffer.id e = r_id r;
}.

Section History.
Import ReportBuffer (memoryBlock, memoryBlockSize, queue).
Context (n : nat).

(** Everything that happens to a report control block: reports are made, sent and dropped, the
    client wants to continue behind an entry, and the rest of the server changes the values,
    the pending changes and the triggers. *)
Inductive history : ReportControl -> list report -> Prop :=
  | h_created rc : consistent rc n -> queue (reportBuffer rc) [] 0 -> memoryBlockSize (reportBuffer rc) < 536870912 -> history rc []
  | h_report values rc h isIntegrity isGI t now c rc' events :
      history rc h -> content_of values rc (isIntegrity || isGI) = Some c -> Forall sound (reported c) ->
      report_size n c < 2147483648 -> 0 <= t < 18446744073709551616 -> lastEntryId rc < 18446744073709551615 ->
      enqueueReport values rc isIntegrity isGI t now = Some (rc', events) ->
      history rc' (h ++ if decide (report_size n c > memoryBlockSize (reportBuffer rc)) then []
        else [{| r_flags := report_flags isIntegrity isGI; r_time := t; r_content := c; r_id := be_bytes 8 (next_entry_id rc t) |}])
  | h_sent rc h rb : history rc h -> ReportBuffer.nextToTransmit (reportBuffer rc) <> 0 ->
      ReportBuffer.transmitted (reportBuffer rc) = Some rb -> history (set_reportBuffer rc rb) h
  | h_purged rc h : history rc h -> history (purgeBuf rc) h
  | h_resync rc h buf rc' found : history rc h -> checkReportBufferForEntryID rc buf = Some (rc', found) -> history rc' h
  | h_other rc h rc' : history rc h -> consistent rc' n -> reportBuffer rc' = reportBuffer rc -> buffered rc' = buffered rc ->
      lastEntryId rc' = lastEntryId rc -> history rc' h.

Definition id_value (r : report) : Z := be_val (r_id r).

(** The reports in the buffer are reports that have been made, in their order. *)
Record faithful (rc : ReportControl) (h : list report) (es : list ReportBuffer.entry) (u : nat) (rs : list report) : Prop := {
  fa_consistent : consistent rc n;
  fa_queue : queue (reportBuffer rc) es u;
  fa_size : memoryBlockSize (reportBuffer rc) < 536870912;
  fa_reports : Forall2 (is_report n (buffered rc)) es rs;
  fa_order : sublist rs h;
  fa_ids : buffered rc = true -> StronglySorted Z.lt (id_value <$> h) /\ Forall (fun r => id_value r <= lastEntryId rc) h;
}.

Lemma Forall2_sublist {A B} (P : A -> B -> Prop) l' l : sublist l' l -> forall k, Forall2 P l k -> exists k', Forall2 P l' k' /\ sublist k' k.
Proof.
  induction 1 as [|x l' l _ IH|x l' l _ IH]; intros k Hk.
  - inversion Hk; subst. by exists [].
  - apply Forall2_cons_inv_l in Hk as (y & k0 & Hy & Hk & ->). destruct (IH _ Hk) as (k' & Hk' & Hs). exists (y :: k').
    split; [by constructor|by constructor].
  - apply Forall2_cons_inv_l in Hk as (y & k0 & Hy & Hk & ->). destruct (IH _ Hk) as (k' & Hk' & Hs). exists k'. split; [done|by constructor].
Qed.

Lemma sublist_filter {A} (P : A -> Prop) `{!forall x, Decision (P x)} l : sublist (filter P l) l.
Proof. induction l as [|x l IH]; [constructor|]. rewrite filter_cons. case_decide; by constructor. Qed.

Lemma before_sublist rc isGI es : sublist (before rc isGI es) es.
Proof. unfold before. destruct (_ && _); [apply sublist_filter|done]. Qed.

Lemma StronglySorted_snoc l x : StronglySorted Z.lt l -> Forall (fun y => y < x) l -> StronglySorted Z.lt (l ++ [x]).
Proof.
  induction 1 as [|y l Hl IH Hy]; intros Hf; cbn; [by repeat constructor|]. apply Forall_cons in Hf as [Hyx Hf]. constructor; [by apply IH|].
  apply Forall_app. split; [done|]. by constructor.
Qed.

(** The identifier of a new report is larger than the last one. *)
Lemma next_id_grows rc t : 0 <= lastEntryId rc < 18446744073709551615 -> 0 <= t < 18446744073709551616 ->
  lastEntryId rc < next_entry_id rc t < 18446744073709551616.
Proof. intros. unfold next_entry_id, u64. case_decide; [rewrite Z.mod_small by lia|]; lia. Qed.

Lemma faithful_enqueue values rc h es u rs isIntegrity isGI t now c rc' events : faithful rc h es u rs ->
  content_of values rc (isIntegrity || isGI) = Some c -> Forall sound (reported c) ->
  report_size n c < 2147483648 -> 0 <= t < 18446744073709551616 -> lastEntryId rc < 18446744073709551615 ->
  enqueueReport values rc isIntegrity isGI t now = Some (rc', events) -> exists es' u' rs',
  faithful rc' (h ++ if decide (report_size n c > memoryBlockSize (reportBuffer rc)) then []
    else [{| r_flags := report_flags isIntegrity isGI; r_time := t; r_content := c; r_id := be_bytes 8 (next_entry_id rc t) |}]) es' u' rs'.
Proof.
  intros [Hcon Hq Hb Hr Ho Hi] Hc Hs Hsz Ht Hid E.
  destruct (enqueueReport_spec values rc n es u isIntegrity isGI t now c Hcon Hq Hb Hc Hs Hsz Ht) as (rc1 & ev & E1 & Hcon' & Hss & Hen).
  rewrite E in E1. injection E1 as <- <-. unfold enqueued in Hen. case_decide as Hfit.
  - destruct Hen as (Hrb & _ & Hlast & _). exists es, u, rs. rewrite app_nil_r. constructor; rewrite ?Hrb, ?Hlast, ?(s_buffered _ _ Hss); done.
  - destruct Hen as (k & ovf & e & Hq' & [He1 He2 _ He4 He5] & [_ _ _ _ [_ Hsz']] & _ & Hlast & _).
    destruct (Forall2_sublist _ (drop k (before rc isGI es)) es ltac:(etransitivity; [apply sublist_drop|apply before_sublist]) rs Hr) as (rs' & Hr' & Hs').
    set (r := {| r_flags := _ |}). exists (drop k (before rc isGI es) ++ [e]), (S (before_unsent rc isGI es u `min` (length (before rc isGI es) - k))), (rs' ++ [r]).
    constructor; try done.
    + lia.
    + rewrite (s_buffered _ _ Hss). apply Forall2_app; [done|]. constructor; [|constructor]. by constructor.
    + apply sublist_app; [by etransitivity|done].
    + rewrite (s_buffered _ _ Hss), Hlast. intros Hbuf. rewrite Hbuf. destruct (Hi Hbuf) as [Hsort Hle].
      pose proof (proj1 (c_lastId _ _ Hcon)) as H0. pose proof (next_id_grows rc t (conj H0 Hid) Ht) as Hg.
      assert (Hv : id_value r = next_entry_id rc t).
      { unfold id_value, r. cbn [r_id]. rewrite be_val_be_bytes. apply Z.mod_small. change (256 ^ Z.of_nat 8) with 18446744073709551616. lia. }
      rewrite fmap_app. cbn [fmap list_fmap]. rewrite Hv. split.
      * apply StronglySorted_snoc; [done|]. apply Forall_fmap. eapply Forall_impl; [exact Hle|]. cbn. lia.
      * apply Forall_app. split; [eapply Forall_impl; [exact Hle|]; cbn; lia|]. constructor; [lia|done].
Qed.

Lemma check_entry_spec rc es u buf : queue (reportBuffer rc) es u -> 8 <= zlen buf -> exists rc' found,
  checkReportBufferForEntryID rc buf = Some (rc', found) /\
  match ReportBuffer.position (take 8 buf) es with
  | Some k => found = true /\ rc' = set_resync (set_reportBuffer rc (reportBuffer rc')) true /\ queue (reportBuffer rc') es (length es - S k) /\
      memoryBlockSize (reportBuffer rc') = memoryBlockSize (reportBuffer rc)
  | None => found = false /\ rc' = rc
  end.
Proof.
  intros Hq Hl. unfold checkReportBufferForEntryID. change 8%nat with (Z.to_nat 8). rewrite rds_take by lia. cbn [mbind option_bind].
  change (Z.to_nat 8) with 8%nat. destruct (ReportBuffer.findEntryID_queue _ es u (take 8 buf) Hq) as (rb & b & E & Hp).
  rewrite E. cbn [mbind option_bind]. destruct (ReportBuffer.position (take 8 buf) es) as [k|].
  - destruct Hp as (-> & Hq' & Hsz). eexists _, _. split; [reflexivity|]. cbn. by split_and!.
  - destruct Hp as [-> ->]. eexists _, _. split; [reflexivity|]. split; [done|]. by destruct rc.
Qed.

Lemma history_faithful rc h : history rc h -> exists es u rs, faithful rc h es u rs.
Proof.
  induction 1 as [rc Hcon Hq Hb|values rc h i g t now c rc' ev _ (es & u & rs & Hf) Hc Hs Hsz Ht Hid E|rc h rb _ (es & u & rs & Hf) Hn E|rc h _ (es & u & rs & Hf)|
    rc h buf rc' found _ (es & u & rs & Hf) E|rc h rc' _ (es & u & rs & Hf) Hcon Hrb Hbuf Hid].
  - exists [], 0%nat, []. constructor; try done. intros _. split; constructor.
  - by eapply faithful_enqueue.
  - destruct Hf as [Hcon Hq Hb Hr Ho Hi]. pose proof Hq as [Hcore _].
    assert (Hu : u <> 0%nat).
    { intros ->. apply Hn. rewrite (ReportBuffer.q_next _ _ _ Hcore), Nat.sub_0_r, drop_all. done. }
    pose proof (ReportBuffer.q_unsent _ _ _ Hcore). destruct u as [|u]; [done|].
    destruct (lookup_lt_is_Some_2 es (length es - S u) ltac:(lia)) as [e He].
    destruct (ReportBuffer.transmitted_queue _ es u e Hq He) as (_ & rb' & E' & Hq' & _ & Hsz). rewrite E in E'. injection E' as <-.
    exists es, u, rs. constructor; try done; [destruct Hcon; by constructor|]. cbn. lia.
  - destruct Hf as [Hcon Hq Hb Hr Ho Hi]. exists [], 0%nat, []. constructor; try done.
    + destruct Hcon. by constructor.
    + cbn. by eapply ReportBuffer.purge_queue.
    + apply sublist_nil_l.
  - destruct Hf as [Hcon Hq Hb Hr Ho Hi]. assert (Hlen : 8 <= zlen buf).
    { unfold checkReportBufferForEntryID in E. destruct (rds 8 buf 0) as [xs|] eqn:Er; [|done]. apply rds_inv in Er as [Hx Hat].
      pose proof (bytes_at_bound _ _ _ Hat ltac:(by destruct xs)). lia. }
    destruct (check_entry_spec rc es u buf Hq Hlen) as (rc1 & b & E1 & Hp). rewrite E in E1. injection E1 as <- <-.
    destruct (ReportBuffer.position _ es) as [k|].
    + destruct Hp as (_ & Hrc & Hq' & Hsz). exists es, (length es - S k)%nat, rs. rewrite Hrc. constructor; try done; [destruct Hcon; by constructor|].
      cbn. lia.
    + destruct Hp as (_ & ->). exists es, u, rs. by constructor.
  - destruct Hf as [_ Hq Hb Hr Ho Hi]. exists es, u, rs. constructor; rewrite ?Hrb, ?Hbuf, ?Hid; done.
Qed.
End History.

(** ** Changes of values *)

Section Changes.
Context (values : nat -> option MmsValue) (n : nat).

(** The shadow value of a member takes the new one: there is none yet, or it has the type of the
    new one. *)
Definition accepts (b : option MmsValue) (v : MmsValue) : Prop :=
  match b with
  | None => True
  | Some b => wf b /\ bits_agree b v = true /\ exists w mem, update b v [] = Some ((w, true), mem)
  end.

(** With memory for the copy, the shadow value is equal to the value of the model. *)
Lemma copySingle_spec rc i a v b : valueReferences rc !! Z.to_nat i = Some (Some a) -> values a = Some v -> wf v ->
  bufferedDataSetValues rc !! Z.to_nat i = Some b -> accepts b v ->
  exists w, copySingleValueToReportBuffer values rc i [] = Some (set_value rc i (Some w), []) /\ wf w /\ same_value v w.
Proof.
  intros Ha Hv Hw Hb Hacc. unfold copySingleValueToReportBuffer, m_bind, m_lift. rewrite Ha. cbn [mbind option_bind]. rewrite Hv, Hb.
  cbn [mbind option_bind]. destruct b as [b|].
  - destruct Hacc as (Hwb & Hbits & w0 & mem & E). destruct (update_runs b v Hwb Hw []) as ([w r] & mem' & used & E' & Hnil & H).
    rewrite E in E'. injection E' as <- <- <-. symmetry in Hnil. apply app_nil in Hnil as [-> ->]. destruct (H eq_refl) as [Hww Hs].
    exists w0. unfold MmsValue_update, m_bind. rewrite E. cbn [fst snd]. split; [done|]. split; [done|]. by apply Hs.
  - destruct (clone_runs v Hw []) as (r & mem' & used & E' & Hnil & H). symmetry in Hnil. apply app_nil in Hnil as [-> ->].
    destruct r as [w|]; [|done]. exists w. unfold MmsValue_clone. rewrite E'. split; [done|]. destruct H. done.
Qed.

Lemma makes_setup t rc l ev rc' : makes values n t rc l ev rc' -> bufferedDataSetValues rc' = bufferedDataSetValues rc /\
  valueReferences rc' = valueReferences rc /\ bufTm rc' = bufTm rc /\ enabled rc' = enabled rc /\ isBuffering rc' = isBuffering rc /\
  buffered rc' = buffered rc /\ dataSet rc' = dataSet rc.
Proof.
  induction 1 as [rc|rc rc1 rc2 i g c es u e1 l e2 _ _ _ Hs _ (IH1 & IH2 & IH3 & IH4 & IH5 & IH6 & IH7)|rc tr g nx tm l e rc' _ IH]; [done| |exact IH].
  destruct Hs. split_and!; congruence.
Qed.

Lemma changes_zero vals k : length vals = k -> changes (replicate k 0) vals = Some (replicate k None).
Proof.
  revert vals. induction k as [|k IH]; intros [|v vals] H; cbn in *; try done.
  rewrite IH by lia. done.
Qed.

Lemma changes_insert flags vals cs i flag w : changes flags vals = Some cs -> length vals = length flags -> (i < length flags)%nat -> flag <> REPORT_CONTROL_NONE ->
  changes (<[i := flag]> flags) (<[i := Some w]> vals) = Some (<[i := Some (flag, w)]> cs).
Proof.
  revert vals cs i. induction flags as [|f flags IH]; intros [|v vals] cs [|i] Hc Hl Hi Hf; cbn in *; try done; try lia.
  all: destruct (if decide (f <> REPORT_CONTROL_NONE) then _ else _) as [c|]; [|done]; cbn [mbind option_bind] in *.
  all: destruct (changes flags vals) as [cs'|] eqn:E; [|done]; cbn [mbind option_bind] in *; injection Hc as <-.
  - rewrite decide_True by done. done.
  - pose proof (IH vals cs' i E ltac:(lia) ltac:(lia) Hf) as Hi'. unfold insert in *. rewrite Hi'. done.
Qed.

(** Reports leave shadow values for the changes that stay pending. *)
Lemma makes_changes t rc l ev rc' : makes values n t rc l ev rc' -> length (bufferedDataSetValues rc) = n ->
  is_Some (changes (inclusionFlags rc) (bufferedDataSetValues rc)) -> is_Some (changes (inclusionFlags rc') (bufferedDataSetValues rc')).
Proof.
  induction 1 as [rc|rc rc1 rc2 i g c es u e1 l e2 _ _ He Hs _ IH|rc tr g nx tm l e rc' _ IH]; intros Hl Hc; [done| |by apply IH].
  apply IH; rewrite (s_values _ _ Hs); [done|].
  assert (Hf : inclusionFlags rc1 = inclusionFlags rc \/ inclusionFlags rc1 = replicate n 0).
  { unfold enqueued in He. case_decide; [left; apply He|]. destruct He as (k & o & e & _ & _ & _ & Hf & _). by right. }
  destruct Hf as [->| ->]; [done|]. by rewrite changes_zero.
Qed.

(** The change [flag] of member [i] while the model is not locked: when a change of the same
    kind is pending, the reports that are due now are made first; then the change is pending,
    with the new value. *)
Lemma valueUpdated_spec rc i a v b f flag t vs cs : live n rc -> reportable values n rc vs ->
  (triggered rc = true -> changed_since n rc cs) -> 0 <= current t < 18446744073709551616 ->
  (integrity_on rc = true -> period_ok rc (current t)) ->
  0 <= i < Z.of_nat n -> is_u8 flag -> (inclusionFlags rc).[i] = Some f ->
  valueReferences rc !! Z.to_nat i = Some (Some a) -> values a = Some v -> wf v ->
  bufferedDataSetValues rc !! Z.to_nat i = Some b -> accepts b v ->
  let pend := set_reportTime rc (pending t) in
  let reports := if decide (Z.land f flag <> 0) then due pend (current t) (monotonic t) vs cs else [] in
  exists rc1 rc' events w, makes values n (current t) rc reports events rc1 /\
    ReportControl_valueUpdated values rc i flag false t [] = Some ((rc', events), []) /\
    inclusionFlags rc' = <[Z.to_nat i := flag]> (inclusionFlags rc1) /\
    bufferedDataSetValues rc' = <[Z.to_nat i := Some w]> (bufferedDataSetValues rc) /\ wf w /\ same_value v w /\
    triggered rc' = true /\ (triggered rc1 = true -> reportTime rc' = reportTime rc1) /\
    (triggered rc1 = false -> reportTime rc' = u64 (startTime t + bufTm rc)) /\ reportBuffer rc' = reportBuffer rc1 /\ live n rc'.
Proof.
  intros Hl Hv Hc Ht Hp Hi Hflag Hf Ha Hva Hwv Hb Hacc pend reports.
  assert (E1 : exists rc1 events,
    (if decide (Z.land f flag <> 0) then processEventsForReport values pend (current t) (inside t) (monotonic t) else Some (rc, [])) = Some (rc1, events) /\
    live n rc1 /\ makes values n (current t) rc reports events rc1).
  { unfold reports. case_decide as Hpf.
    - destruct (processEvents_spec values n pend (current t) (inside t) (monotonic t) vs cs) as (rc1 & ev & E & Hl1 & Hm & _); try done.
      { by apply live_trigger. } { by destruct Hv. } { intros H. destruct (Hc H). by constructor. }
      exists rc1, ev. split; [done|]. split; [done|]. by eapply makes_trigger.
    - exists rc, []. split; [done|]. split; [done|]. constructor. }
  destruct E1 as (rc1 & events & E1 & Hl1 & Hm). destruct (makes_setup _ _ _ _ _ Hm) as (S1 & S2 & S3 & _).
  pose proof (c_flags _ _ (proj1 Hl1)) as [Hfl Hfb].
  unfold ReportControl_valueUpdated. erewrite bind_nil; [|unfold m_lift; rewrite Hf; reflexivity].
  erewrite bind_nil.
  2: { instantiate (1 := (rc1, events)). unfold pend in E1. case_decide; [|by injection E1 as <- <-].
       unfold m_bind, m_ret, m_lift. cbn [mbind option_bind]. by rewrite E1. }
  cbn beta iota zeta. set (rc2 := set_changes rc1 (<[Z.to_nat i := flag]> (inclusionFlags rc1)) (bufferedDataSetValues rc1)).
  destruct (copySingle_spec rc2 i a v b) as (w & Ew & Hww & Hs); try done; [by cbn; rewrite S2|by cbn; rewrite S1|].
  set (rc3 := set_value rc2 i (Some w)) in *. rewrite (bind_nil _ _ rc3).
  2: { rewrite (lift_nil _ _ (<[Z.to_nat i := flag]> (inclusionFlags rc1))); [exact Ew|]. rewrite wr_Some by lia. by rewrite u8_id. }
  assert (Hl3 : live n rc3).
  { destruct Hl1 as ([] & Hq & Hsz). split; [|done]. constructor; try done.
    - cbn. rewrite length_insert. split; [done|]. apply Forall_insert; done.
    - cbn. by rewrite length_insert. }
  change (triggered rc3) with (triggered rc1). destruct (triggered rc1) eqn:Et.
  - exists rc1, (set_triggered rc3 true), events, w. split; [done|]. split; [done|].
    split; [done|]. split; [cbn; by rewrite S1|]. do 4 (split; [done|]). split; [congruence|]. split; [done|]. by apply live_trigger.
  - destruct (updateTimeOfEntry_spec rc3 n (entryTime t) (proj1 Hl3)) as (tb & E4 & Hcon4). erewrite bind_nil; [|rewrite (lift_nil _ _ _ E4); reflexivity].
    eexists rc1, _, events, w. split; [done|]. split; [reflexivity|]. split; [done|]. split; [cbn; by rewrite S1|]. do 3 (split; [done|]).
    split; [congruence|]. split; [intros _; cbn; by rewrite S3|]. split; [done|]. apply live_trigger, live_trigger. destruct Hl3 as (_ & Hq & Hsz). by split.
Qed.
End Changes.

(** ** Properties *)

Lemma sorted_sublist {A} (f : A -> Z) l' l : sublist l' l -> StronglySorted Z.lt (f <$> l) -> StronglySorted Z.lt (f <$> l').
Proof.
  induction 1 as [|x l' l Hs IH|x l' l Hs IH]; intros H; [done| |].
  - rewrite fmap_cons in *. inversion H as [|? ? H1 H2]; subst. constructor; [by apply IH|].
    apply Forall_fmap. rewrite Forall_fmap in H2. rewrite Forall_forall in *. intros y Hy. apply H2. by apply (sublist_subseteq _ _ Hs).
  - rewrite fmap_cons in H. inversion H as [|? ? H1 H2]; subst. by apply IH.
Qed.

Lemma sorted_lookup {A} (f : A -> Z) l i j x y : StronglySorted Z.lt (f <$> l) -> (i < j)%nat -> l !! i = Some x -> l !! j = Some y -> f x < f y.
Proof.
  intros Hs. revert i j. induction l as [|z l IH]; intros i j Hij Hx Hy; [done|]. rewrite fmap_cons in Hs. inversion Hs as [|? ? H1 H2]; subst.
  destruct i as [|i], j as [|j]; try lia; cbn in *.
  - injection Hx as ->. rewrite Forall_fmap in H2. rewrite Forall_lookup in H2. apply (H2 _ _ Hy).
  - apply (IH H1 i j); [lia|done|done].
Qed.

(** C8: in every state that a report control block can come to - reports are made, sent and
    displaced, the buffer is purged, clients continue behind an entry - the octets of the
    buffer are a chain of reports that have been made, complete and unchanged, in the order in
    which they were made; in a buffered report control block their identifiers grow. *)
Theorem report_buffer_fifo n rc h : history n rc h -> exists es u rs,
  ReportBuffer.queue (reportBuffer rc) es u /\ Forall2 (is_report n (buffered rc)) es rs /\ sublist rs h /\
  (buffered rc = true -> StronglySorted Z.lt (id_value <$> rs)).
Proof.
  intros Hh. destruct (history_faithful n rc h Hh) as (es & u & rs & [_ Hq _ Hr Ho Hi]). exists es, u, rs. split_and!; try done.
  intros Hb. eapply sorted_sublist; [exact Ho|]. by apply Hi.
Qed.

Lemma unique_ids n b es rs k e : Forall2 (is_report n b) es rs -> b = true -> StronglySorted Z.lt (id_value <$> rs) -> es !! k = Some e ->
  ReportBuffer.position (ReportBuffer.id e) es = Some k.
Proof.
  intros Hr -> Hs Hk. unfold ReportBuffer.position.
  assert (E : list_find (fun x => ReportBuffer.id x = ReportBuffer.id e) es = Some (k, e)).
  { apply list_find_Some. split; [done|]. split; [done|]. intros j y Hj Hjk Hid.
    destruct (Forall2_lookup_l _ _ _ _ _ Hr Hk) as (r & Hrk & [_ _ _ Hr1]). destruct (Forall2_lookup_l _ _ _ _ _ Hr Hj) as (r' & Hrj & [_ _ _ Hr2]).
    pose proof (sorted_lookup _ _ _ _ _ _ Hs Hjk Hrj Hrk) as Hlt. unfold id_value in Hlt. rewrite <- Hr1, <- Hr2, Hid in Hlt by done. lia. }
  by rewrite E.
Qed.

(** C34: when a client names an entry that is in the buffer, exactly the reports made after this
    entry are to be sent next, whatever has been sent before. *)
Theorem resync_after_entry n rc h : history n rc h -> buffered rc = true -> exists es u,
  ReportBuffer.queue (reportBuffer rc) es u /\
  forall k e rest, es !! k = Some e -> exists rc', checkReportBufferForEntryID rc (ReportBuffer.id e ++ rest) = Some (rc', true) /\
    isResync rc' = true /\ ReportBuffer.queue (reportBuffer rc') es (length es - S k).
Proof.
  intros Hh Hb. destruct (history_faithful n rc h Hh) as (es & u & rs & [_ Hq _ Hr Ho Hi]). exists es, u. split; [done|]. intros k e rest Hk.
  pose proof (ReportBuffer.q_ok _ _ _ (proj1 Hq)) as Hok. rewrite Forall_lookup in Hok. destruct (ReportBuffer.eo_id _ (Hok _ _ Hk)) as [_ Hl].
  destruct (check_entry_spec rc es u (ReportBuffer.id e ++ rest) Hq ltac:(rewrite length_app; lia)) as (rc' & found & E & Hp).
  assert (Et : take 8 (ReportBuffer.id e ++ rest) = ReportBuffer.id e) by (apply take_app_length'; lia). rewrite Et in Hp.
  rewrite (unique_ids n (buffered rc) es rs k e Hr Hb) in Hp; [|eapply sorted_sublist; [exact Ho|by apply Hi]|done].
  destruct Hp as (-> & Hrc & Hq' & _). exists rc'. split; [done|]. split; [by rewrite Hrc|done].
Qed.

(** *** A small report control block *)

Definition sample_values (a : nat) : option MmsValue :=
  match a with O => Some (MmsBoolean true) | S O => Some (MmsBoolean false) | _ => None end.

Definition sample_buffer (size : nat) : ReportBuffer :=
  {| ReportBuffer.memoryBlock := 4096; ReportBuffer.memory := replicate size 0; ReportBuffer.memoryBlockSize := Z.of_nat size; ReportBuffer.reportsCount := 0;
     ReportBuffer.oldestReport := 0; ReportBuffer.lastEnqueuedReport := 0; ReportBuffer.nextToTransmit := 0; ReportBuffer.isOverflow := true |}.

(** It reports two members of a data set. *)
Definition sample_control (size : nat) : ReportControl :=
  {| inclusionField := Some (2, [0]); dataSet := Some {| address := 1; logicalDeviceName := None; dataSetName := [100; 115; 0]; elementCount := 2; fcdas := [Some 0%nat; Some 1%nat] |}; enabled := false; buffered := true;
     isBuffering := true; bufferedDataSetValues := [None; None]; valueReferences := [Some 0%nat; Some 1%nat]; gi := true; intgPd := 1000; bufTm := 100;
     nextIntgReportTime := 5000; lastEntryId := 0; triggerOps := 25; inclusionFlags := [0; 0]; triggered := false; reportTime := 0; isResync := false;
     reportBuffer := sample_buffer size; timeOfEntry := (6, replicate 6 0); rcbEntryID := (8, 8, replicate 8 0);
     server := Some {| syncIntegrityReportTimes := true; rcbEventHandler := true |} |}.

Definition sample_clock (now : Z) : Clock :=
  {| pending := now; current := now; inside := fun _ => now; monotonic := now; entryTime := now; startTime := now |}.

(** The state after a call. *)
Definition after {A} (rc : ReportControl) (r : option (ReportControl * A)) : ReportControl := match r with Some (rc, _) => rc | None => rc end.

(** A general interrogation and an integrity report. *)
Definition sample_run : ReportControl := after (sample_control 128) (processEventsForReport sample_values (sample_control 128) 7300 (fun _ => 7300) 0).

Example sample_run_times : nextIntgReportTime sample_run = 8000 /\ lastEntryId sample_run = 7301 /\ gi sample_run = false /\
  ReportBuffer.reportsCount (reportBuffer sample_run) = 2.
Proof. vm_compute. done. Qed.

Lemma sample_consistent size : consistent (sample_control size) 2.
Proof.
  constructor; cbn; try done; try lia.
  - by exists [0].
  - eexists. split; [done|]. done.
  - split; [done|]. by repeat constructor.
  - split; [by right|]. split; [solve_bytes|done].
  - split; [|lia]. split; [|lia]. split; [solve_bytes|done].
Qed.

Lemma sample_queue size : (size < 1000)%nat -> ReportBuffer.queue (reportBuffer (sample_control size)) [] 0.
Proof.
  intros. split; [|done]. constructor; cbn; try done; try lia.
  - split; [by apply Forall_replicate|by rewrite length_replicate].
  - exists [], []. split_and!; try done; cbn; lia.
Qed.



(** C10: [processEventsForReport] never fails and makes the reports that are due in this order:
    the pending changes, the general interrogation, the integrity report.  No report comes
    before pending changes have been reported; the requests it has served are withdrawn; and the
    next integrity report is at most one period away, even after the clock has been changed. *)
Theorem processEvents_reports values n rc t now monotonic vs cs : live n rc -> reportable values n rc vs ->
  (triggered rc = true -> changed_since n rc cs) -> 0 <= t < 18446744073709551616 -> (integrity_on rc = true -> period_ok rc t) ->
  exists rc' events, processEventsForReport values rc t now monotonic = Some (rc', events) /\ live n rc' /\
    makes values n t rc (due rc t monotonic vs cs) events rc' /\
    (enabled rc || isBuffering rc = true ->
       (integrity_on rc = true -> t <= nextIntgReportTime rc' <= t + intgPd rc) /\
       gi rc' = (if gi_due rc then false else gi rc) /\
       triggered rc' = triggered rc && negb (gi_due rc || integrity_due rc t || bool_decide (monotonic >= reportTime rc))).
Proof. apply processEvents_spec. Qed.

Lemma sample_live size : (size < 1000)%nat -> live 2 (sample_control size).
Proof. intros. split; [apply sample_consistent|]. split; [exists [], 0%nat; by apply sample_queue|cbn; lia]. Qed.

Lemma sample_reportable size : reportable sample_values 2 (sample_control size) [MmsBoolean true; MmsBoolean false].
Proof. constructor; [done| |done]. by repeat constructor. Qed.

Lemma processEvents_reports_witness : exists rc' events,
  processEventsForReport sample_values (sample_control 128) 7300 (fun _ => 7300) 0 = Some (rc', events) /\ live 2 rc' /\
    makes sample_values 2 7300 (sample_control 128)
      [(GI_REPORT, Snapshot [MmsBoolean true; MmsBoolean false]); (INTEGRITY_REPORT, Snapshot [MmsBoolean true; MmsBoolean false])] events rc' /\
    (true = true -> (true = true -> 7300 <= nextIntgReportTime rc' <= 7300 + 1000) /\ gi rc' = false /\ triggered rc' = false).
Proof.
  apply (processEvents_reports sample_values 2 (sample_control 128) 7300 (fun _ => 7300) 0 [MmsBoolean true; MmsBoolean false] []).
  - apply sample_live. lia.
  - apply sample_reportable.
  - done.
  - lia.
  - intros _. split_and!; cbn; try lia. by eexists.
Defined.



Definition sample_made : ReportControl := after (sample_control 128) (enqueueReport sample_values (sample_control 128) false true 7 9).

Lemma sample_history : history 2 sample_made
  [{| r_flags := 2; r_time := 7; r_content := Snapshot [MmsBoolean true; MmsBoolean false]; r_id := be_bytes 8 7 |}].
Proof.
  unfold sample_made. destruct (enqueueReport sample_values (sample_control 128) false true 7 9) as [[rc' ev]|] eqn:E; [|by vm_compute in E].
  cbn [after]. change [{| r_flags := 2; r_time := 7; r_content := Snapshot [MmsBoolean true; MmsBoolean false]; r_id := be_bytes 8 7 |}] with
    ([] ++ if decide (report_size 2 (Snapshot [MmsBoolean true; MmsBoolean false]) > ReportBuffer.memoryBlockSize (reportBuffer (sample_control 128))) then []
        else [{| r_flags := report_flags false true; r_time := 7; r_content := Snapshot [MmsBoolean true; MmsBoolean false]; r_id := be_bytes 8 (next_entry_id (sample_control 128) 7) |}]).
  refine (h_report 2 sample_values (sample_control 128) [] false true 7 9 (Snapshot [MmsBoolean true; MmsBoolean false]) rc' ev _ eq_refl _ eq_refl _ eq_refl E);
    [|by repeat constructor|lia].
  apply h_created; [apply sample_consistent|apply sample_queue; lia|done].
Qed.

Lemma report_buffer_fifo_witness : exists es u rs,
  ReportBuffer.queue (reportBuffer sample_made) es u /\
  Forall2 (is_report 2 (buffered sample_made)) es rs /\
  sublist rs [{| r_flags := 2; r_time := 7; r_content := Snapshot [MmsBoolean true; MmsBoolean false]; r_id := be_bytes 8 7 |}] /\
  (buffered sample_made = true -> StronglySorted Z.lt (id_value <$> rs)).
Proof. apply (report_buffer_fifo 2 _ _ sample_history). Defined.

Lemma resync_after_entry_witness :
  exists es u, ReportBuffer.queue (reportBuffer sample_made) es u /\
  forall k e rest, es !! k = Some e -> exists rc', checkReportBufferForEntryID sample_made (ReportBuffer.id e ++ rest) = Some (rc', true) /\
    isResync rc' = true /\ ReportBuffer.queue (reportBuffer rc') es (length es - S k).
Proof. apply (resync_after_entry 2 _ _ sample_history). vm_compute. reflexivity. Defined.

(** *** What is lost

    A report of an interrogation takes 48 octets here.  Of two reports that have not been sent
    the older one is lost when they do not both fit, and nothing shows it. *)
Definition enqueue_one (rc : ReportControl) (t : Z) : ReportControl := after rc (enqueueReport sample_values rc true false t t).
Definition send_one (rc : ReportControl) : ReportControl :=
  match ReportBuffer.transmitted (reportBuffer rc) with Some rb => set_reportBuffer rc rb | None => rc end.

Example unsent_report_lost :
  let rc := enqueue_one (send_one (enqueue_one (sample_control 64) 1)) 2 in
  (exists e, ReportBuffer.timeOfEntry (reportBuffer rc) (ReportBuffer.nextToTransmit (reportBuffer rc)) = Some e /\ e = 2) /\
  match enqueueReport sample_values rc true false 3 3 with
  | Some (rc', events) => ReportBuffer.isOverflow (reportBuffer rc') = false /\ events = [RCB_EVENT_REPORT_CREATED] /\
      ReportBuffer.timeOfEntry (reportBuffer rc') (ReportBuffer.nextToTransmit (reportBuffer rc')) = Some 3 /\ ReportBuffer.reportsCount (reportBuffer rc') = 1
  | None => False
  end.
Proof. vm_compute. split; [by eexists|done]. Qed.

(** Of two changes of different kinds of one member only the reason of the second is reported; when
    the model is locked both are. *)
Definition two_changes (locked : bool) : option (list Z) :=
  match ReportControl_valueUpdated sample_values (sample_control 128) 0 2 locked (sample_clock 7300) [] with
  | Some ((rc, _), _) =>
      match ReportControl_valueUpdated sample_values rc 0 4 locked (sample_clock 7301) [] with
      | Some ((rc, _), _) => Some (inclusionFlags rc)
      | None => None
      end
  | None => None
  end.
Example reason_replaced : two_changes false = Some [4; 0] /\ two_changes true = Some [14; 0].
Proof. vm_compute. done. Qed.

End Reporting.
