(* ===== verification/StateMonad.v ===== *)
(** * State and undefined behaviour

    The monad of the components that change a state with many parts: a program takes a state and has
    a result and a new state, or [None] when it runs into undefined behaviour.  The laws about it are
    stated with relations between the states before and after a program. *)

From stdpp Require Import list.
From S2P Require Import Prelude.

Module StateMonad.

Definition M (S A : Type) : Type := S -> option (A * S).

#[export] Instance M_ret {S} : MRet (M S) := fun _ x w => Some (x, w).
#[export] Instance M_bind {S} : MBind (M S) := fun _ _ k m w => '(x, w) ← m w; k x w.

Definition gets {S A} (f : S -> A) : M S A := fun w => Some (f w, w).
Definition modifies {S} (f : S -> S) : M S unit := fun w => Some (tt, f w).
Definition lift {S A} (o : option A) : M S A := fun w => x ← o; Some (x, w).
Definition when {S} (b : bool) (m : M S unit) : M S unit := if b then m else mret tt.

(** ** Running programs *)

Lemma bind_inv {S A B} (m : M S A) (k : A -> M S B) w y w2 : (m ≫= k) w = Some (y, w2) ->
  exists x w1, m w = Some (x, w1) /\ k x w1 = Some (y, w2).
Proof. unfold mbind at 1, M_bind. destruct (m w) as [[x w1]|]; [|done]. intros H. by exists x, w1. Qed.
Lemma bind_run {S A B} (m : M S A) (k : A -> M S B) w x w1 : m w = Some (x, w1) -> (m ≫= k) w = k x w1.
Proof. intros E. unfold mbind at 1, M_bind. by rewrite E. Qed.
Lemma lift_inv {S A} (o : option A) (w : S) x w' : lift o w = Some (x, w') -> o = Some x /\ w' = w.
Proof. unfold lift. destruct o; [|done]. by intros [= -> ->]. Qed.

(** ** Reasoning about programs

    [within R m]: the relation [R] holds between the states before and after [m], whenever [m] has
    a result. *)

Section Within.
Context {S : Type}.

Definition within {A} (R : relation S) (m : M S A) : Prop := forall w x w', m w = Some (x, w') -> R w w'.

(** The same from one state, with the result. *)
Definition post {A} (m : M S A) (w : S) (Q : A -> S -> Prop) : Prop := forall x w', m w = Some (x, w') -> Q x w'.

Section Preorder.
Context {R : relation S} `{!PreOrder R}.

Lemma within_ret {A} (x : A) : within R (mret x).
Proof. by intros w ? ? [= <- <-]. Qed.
Lemma within_bind {A B} (m : M S A) (k : A -> M S B) : within R m -> (forall x, within R (k x)) -> within R (m ≫= k).
Proof.
  intros Hm Hk w y w2 H. unfold mbind, M_bind in H. destruct (m w) as [[x w1]|] eqn:E; [|done].
  etrans; [exact (Hm _ _ _ E)|exact (Hk _ _ _ _ H)].
Qed.
Lemma within_gets {A} (f : S -> A) : within R (gets f).
Proof. by intros w ? ? [= <- <-]. Qed.
Lemma within_lift {A} (o : option A) : within R (lift o).
Proof. intros w x w'. unfold lift. destruct o; [|done]. by intros [= <- <-]. Qed.
Lemma within_lift_bind {A B} (o : option A) (k : A -> M S B) : (forall x, o = Some x -> within R (k x)) -> within R (lift o ≫= k).
Proof. intros H w y w' (x & w1 & [Eo ->]%lift_inv & E)%bind_inv. exact (H x Eo _ _ _ E). Qed.
Lemma within_when b m : within R m -> within R (when b m).
Proof. destruct b; [done|]. intros _. apply within_ret. Qed.
End Preorder.

Lemma within_modifies (R : relation S) f : (forall w, R w (f w)) -> within R (modifies f).
Proof. by intros H w ? ? [= <- <-]. Qed.
Lemma within_mono {A} (R R' : relation S) (m : M S A) : (forall w w', R w w' -> R' w w') -> within R m -> within R' m.
Proof. intros H Hm w x w' E. eauto. Qed.
Lemma within_post {A} (R : relation S) (m : M S A) w (Q : A -> S -> Prop) :
  within R m -> (forall x w', R w w' -> Q x w') -> post m w Q.
Proof. intros Hm HQ x w' E. eauto. Qed.

Lemma post_ret {A} (x : A) w (Q : A -> S -> Prop) : Q x w -> post (mret x) w Q.
Proof. by intros H ? ? [= <- <-]. Qed.
Lemma post_bind {A B} (m : M S A) (k : A -> M S B) w (Q : B -> S -> Prop) :
  post m w (fun x w1 => post (k x) w1 Q) -> post (m ≫= k) w Q.
Proof.
  intros H y w2 E. unfold mbind, M_bind in E. destruct (m w) as [[x w1]|] eqn:Em; [|done]. exact (H _ _ Em _ _ E).
Qed.
Lemma post_gets {A} (f : S -> A) w (Q : A -> S -> Prop) : Q (f w) w -> post (gets f) w Q.
Proof. by intros H ? ? [= <- <-]. Qed.
Lemma post_modifies f w (Q : unit -> S -> Prop) : Q tt (f w) -> post (modifies f) w Q.
Proof. by intros H ? ? [= <- <-]. Qed.
Lemma post_lift {A} (o : option A) w (Q : A -> S -> Prop) : (forall x, o = Some x -> Q x w) -> post (lift o) w Q.
Proof. intros H x w'. unfold lift. destruct o; [|done]. intros [= <- <-]. by apply H. Qed.
Lemma post_mono {A} (m : M S A) w (P Q : A -> S -> Prop) : post m w P -> (forall x w', P x w' -> Q x w') -> post m w Q.
Proof. intros H HPQ x w' E. eauto. Qed.
End Within.

End StateMonad.
