(* ===== verification/TypeSpec.v ===== *)
(** * Types of variables

    [src/mms/iso_mms/common/mms_type_spec.c], and the functions of [mms_value.c] that make values of a
    type: the type of a variable is a tree of specifications with names; the server refuses a write
    whose value is not of the type of the variable, and clients name the components of a variable
    by paths.

    A name or path is the buffer that holds it; a pointer into a path is the rest of the buffer. *)

From stdpp Require Import list.
From S2P Require Import Prelude Alloc BerInteger MmsValue StringUtils.

Module TypeSpec.
Import Alloc MmsValue.
Import StringUtils (strchr, strchr_hit, strchr_miss, text).
#[local] Open Scope alloc_scope.

(** [typeSpec] of a variable without components. *)
Inductive SimpleType :=
  | Boolean
  | Integer (integer : Z)
  | Unsigned (unsignedInteger : Z)
  | Float (exponentWidth formatWidth : Z)
  | BitString (bitString : Z)
  | OctetString (octetString : Z)
  | VisibleString (visibleString : Z)
  | Text (mmsString : Z)
  | UtcTime
  | BinaryTime (binaryTime : Z).

Inductive MmsVariableSpecification :=
  | Array (name : list Z) (elementCount : Z) (elementTypeSpec : MmsVariableSpecification)
  | Structure (name : list Z) (elements : list MmsVariableSpecification)
  | Simple (name : list Z) (typeSpec : SimpleType).

Definition getName (self : MmsVariableSpecification) : list Z :=
  match self with Array n _ _ | Structure n _ | Simple n _ => n end.

Definition getType (self : MmsVariableSpecification) : MmsType :=
  match self with
  | Array _ _ _ => MMS_ARRAY
  | Structure _ _ => MMS_STRUCTURE
  | Simple _ t =>
      match t with
      | Boolean => MMS_BOOLEAN | Integer _ => MMS_INTEGER | Unsigned _ => MMS_UNSIGNED | Float _ _ => MMS_FLOAT
      | BitString _ => MMS_BIT_STRING | OctetString _ => MMS_OCTET_STRING | VisibleString _ => MMS_VISIBLE_STRING
      | Text _ => MMS_STRING | UtcTime => MMS_UTC_TIME | BinaryTime _ => MMS_BINARY_TIME
      end
  end.

Section Induction.
Context (P : MmsVariableSpecification -> Prop)
  (Harray : forall n k e, P e -> P (Array n k e))
  (Hstructure : forall n es, Forall P es -> P (Structure n es))
  (Hsimple : forall n t, P (Simple n t)).

Lemma specification_ind : forall s, P s.
Proof using Harray Hstructure Hsimple.
  fix IH 1. intros [n k e|n es|n t]; [apply Harray, IH| |apply Hsimple].
  apply Hstructure. induction es as [|e es IHes]; constructor; auto.
Qed.
End Induction.

(** ** The type of a value *)

(** A component that is missing is read through [NULL]. *)
Definition components_typed (f : MmsVariableSpecification -> MmsValue -> option bool) :
    list MmsVariableSpecification -> MmsValue -> Z -> option bool :=
  fix components_typed es value i :=
    match es with
    | [] => Some true
    | e :: es =>
        v ← getElement value i; b ← f e v;
        if (b : bool) then components_typed es value (i + 1) else Some false
    end.

Fixpoint elements_typed (f : MmsValue -> option bool) (n : nat) (value : MmsValue) (i : Z) : option bool :=
  match n with
  | O => Some true
  | S n =>
      v ← getElement value i; b ← f v;
      if (b : bool) then elements_typed f n value (i + 1) else Some false
  end.

Fixpoint isValueOfType (self : MmsVariableSpecification) (value : MmsValue) {struct self} : option bool :=
  if decide (getType self = MmsValue.getType value) then
    match self with
    | Structure _ elements =>
        n ← getArraySize value;
        if decide (zlen elements <> n) then Some false else components_typed isValueOfType elements value 0
    | Array _ elementCount elementTypeSpec =>
        n ← getArraySize value;
        if decide (elementCount <> n) then Some false
        else elements_typed (isValueOfType elementTypeSpec) (Z.to_nat elementCount) value 0
    | Simple _ t =>
        Some (match t, value with
              | BitString n, MmsBitString size _ => bool_decide (n = size) || bool_decide (n < 0)
              | Float ew fw, MmsFloat ew' fw' _ => bool_decide (ew = ew') && bool_decide (fw = fw')
              | BinaryTime n, MmsBinaryTime size _ => bool_decide (n = size)
              | BitString _, _ | Float _ _, _ | BinaryTime _, _ => false
              | _, _ => true
              end)
    end
  else Some false.

(** ** Components by name *)

(** [strncmp(a, b, n) == 0] *)
Fixpoint strncmp_loop (n : nat) (a b : list Z) (i : Z) : option bool :=
  match n with
  | O => Some true
  | S n =>
      x ← a.[i]; y ← b.[i];
      if decide (x <> y) then Some false
      else if decide (x = 0) then Some true
      else strncmp_loop n a b (i + 1)
  end.
Definition strncmp (a b : list Z) (n : Z) : option bool := strncmp_loop (Z.to_nat n) a b 0.

Fixpoint directChildStrLen_loop (n : nat) (childId : list Z) (i : Z) : option Z :=
  match n with
  | O => Some i
  | S n =>
      x ← childId.[i];
      if decide (x = 36) then Some i
      else if decide (x = 46) then Some i
      else directChildStrLen_loop n childId (i + 1)
  end.
Definition directChildStrLen (childId : list Z) : option Z :=
  childIdLen ← strlen childId; directChildStrLen_loop (Z.to_nat childIdLen) childId 0.

(** The name of [e] is the first part, of length [len], of [id]. *)
Definition is_named (e : MmsVariableSpecification) (id : list Z) (len : Z) : option bool :=
  n ← strlen (getName e); if decide (n = len) then strncmp (getName e) id len else Some false.

(** The pointer [s + n]. *)
Definition skip (s : list Z) (n : Z) : list Z := drop (Z.to_nat n) s.

(** The outer [None] is undefined behaviour, the inner one is [NULL]. *)
Definition child_value (f : MmsVariableSpecification -> option MmsValue -> list Z -> option (option MmsValue))
    (childId : list Z) (childLen : Z) :
    list MmsVariableSpecification -> list (option MmsValue) -> option (option MmsValue) :=
  fix child_value es cs :=
    match es, cs with
    | e :: es, c :: cs =>
        b ← is_named e childId childLen;
        if (b : bool) then
          n ← strlen childId;
          if decide (childLen = n) then Some c else f e c (skip childId (childLen + 1))
        else child_value es cs
    | _, _ => Some None
    end.

Fixpoint getChildValue (typeSpec : MmsVariableSpecification) (value : option MmsValue) (childId : list Z) {struct typeSpec}
    : option (option MmsValue) :=
  match typeSpec with
  | Structure _ elements =>
      v ← value;
      match v with
      | MmsStructure components =>
          childLen ← directChildStrLen childId;
          if decide (zlen elements <> zlen components) then Some None
          else child_value getChildValue childId childLen elements components
      | _ => Some None
      end
  | _ => Some None
  end.

Definition MmsValue_getSubElement (self : option MmsValue) (varSpec : MmsVariableSpecification) (mmsPath : list Z)
    : option (option MmsValue) :=
  getChildValue varSpec self mmsPath.

(** The first element with a property. *)
Fixpoint find_element (p : MmsVariableSpecification -> option bool) (es : list MmsVariableSpecification)
    : option (option MmsVariableSpecification) :=
  match es with
  | [] => Some None
  | e :: es => b ← p e; if (b : bool) then Some (Some e) else find_element p es
  end.

Definition named_child (f : MmsVariableSpecification -> option (option MmsVariableSpecification))
    (p : MmsVariableSpecification -> option bool) :
    list MmsVariableSpecification -> option (option MmsVariableSpecification) :=
  fix named_child es :=
    match es with
    | [] => Some None
    | e :: es => b ← p e; if (b : bool) then f e else named_child es
    end.

Fixpoint getNamedVariableRecursive (variable : MmsVariableSpecification) (nameId : list Z) {struct variable}
    : option (option MmsVariableSpecification) :=
  match variable with
  | Array _ _ elementTypeSpec => getNamedVariableRecursive elementTypeSpec nameId
  | _ =>
      separator ← strchr nameId 0 36;
      match separator with
      | None =>
          match variable with
          | Structure _ elements => find_element (fun e => strcmp (getName e) nameId) elements
          | _ => Some None
          end
      | Some separator =>
          match variable with
          | Structure _ elements =>
              named_child (fun e => match e with
                                    | Structure _ _ => getNamedVariableRecursive e (skip nameId (separator + 1))
                                    | Array _ _ t => getNamedVariableRecursive t (skip nameId (separator + 1))
                                    | Simple _ _ => Some None
                                    end)
                (fun e => is_named e nameId separator) elements
          | _ => Some None
          end
      end
  end.

(** ** Access to the parts *)

Definition getSize (self : MmsVariableSpecification) : Z :=
  match self with
  | Structure _ elements => zlen elements
  | Array _ n _ => n
  | Simple _ t =>
      match t with
      | Integer n | Unsigned n | Float _ n | BitString n | BinaryTime n | OctetString n | VisibleString n | Text n => n
      | Boolean | UtcTime => -1
      end
  end.

Definition getChildSpecificationByIndex (self : MmsVariableSpecification) (index : Z) : option MmsVariableSpecification :=
  match self with
  | Structure _ elements =>
      if decide (index >= zlen elements) then None else if decide (index < 0) then None else elements !! Z.to_nat index
  | _ => None
  end.

(** The element and its index. *)
Fixpoint find_by_name (es : list MmsVariableSpecification) (name : list Z) (i : Z)
    : option (option (MmsVariableSpecification * Z)) :=
  match es with
  | [] => Some None
  | e :: es => b ← strcmp (getName e) name; if (b : bool) then Some (Some (e, i)) else find_by_name es name (i + 1)
  end.
Definition getChildSpecificationByName (self : MmsVariableSpecification) (name : list Z)
    : option (option (MmsVariableSpecification * Z)) :=
  match self with Structure _ elements => find_by_name elements name 0 | _ => Some None end.

Definition getArrayElementSpecification (self : MmsVariableSpecification) : option MmsVariableSpecification :=
  match self with Array _ _ e => Some e | _ => None end.

Definition getExponentWidth (self : MmsVariableSpecification) : Z :=
  match self with Simple _ (Float n _) => n | _ => -1 end.

(** ** Default values *)

Definition newComponents (f : MmsVariableSpecification -> alloc (option MmsValue)) :
    list MmsVariableSpecification -> alloc (option (list (option MmsValue))) :=
  fix newComponents es :=
    match es with
    | [] => m_ret (Some [])
    | e :: es =>
        v <~ f e;
        match v with
        | Some v => cs <~ newComponents es; m_ret (cons (Some v) <$> cs)
        | None => m_ret None
        end
    end.

Fixpoint newElements (f : alloc (option MmsValue)) (n : nat) : alloc (option (list (option MmsValue))) :=
  match n with
  | O => m_ret (Some [])
  | S n =>
      v <~ f;
      match v with
      | Some v => cs <~ newElements f n; m_ret (cons (Some v) <$> cs)
      | None => m_ret None
      end
  end.

(** A bit string whose buffer could not be allocated has none. *)
Definition newSimple (t : SimpleType) : alloc (option MmsValue) :=
  match t with
  | Integer n => newInteger n
  | Unsigned n => newUnsigned n
  | Float ew fw => new_value (MmsFloat ew fw (fresh 8))
  | BitString n =>
      ok <~ malloc;
      if (ok : bool) then
        b <~ malloc; m_ret (Some (MmsBitString (Z.abs n) (if (b : bool) then fresh (bitStringByteSize (Z.abs n)) else [])))
      else m_ret None
  | OctetString n =>
      ok <~ malloc;
      if (ok : bool) then
        new_value (MmsOctetString (u16 (if decide (n < 0) then 0 else n)) (Z.abs n) (fresh (Z.abs n)))
      else m_ret None
  | VisibleString n => newVisibleStringWithSize (Z.abs n)
  | Boolean => newBoolean false
  | UtcTime => new_value (MmsUtcTime (fresh 8))
  | Text n => newMmsStringWithSize (Z.abs n)
  | BinaryTime n => newBinaryTime (bool_decide (n = 4))
  end.

Fixpoint newDefaultValue (typeSpec : MmsVariableSpecification) : alloc (option MmsValue) :=
  match typeSpec with
  | Array _ elementCount elementTypeSpec =>
      ok <~ malloc;
      if (ok : bool) then
        ok <~ malloc_size elementCount;
        if (ok : bool) then cs <~ newElements (newDefaultValue elementTypeSpec) (Z.to_nat elementCount); m_ret (MmsArray <$> cs)
        else m_ret None
      else m_ret None
  | Structure _ elements =>
      ok <~ malloc;
      if (ok : bool) then
        ok <~ malloc;
        if (ok : bool) then cs <~ newComponents newDefaultValue elements; m_ret (MmsStructure <$> cs) else m_ret None
      else m_ret None
  | Simple _ t => newSimple t
  end.

Definition newStructure (name : list Z) (elements : list MmsVariableSpecification) : alloc (option MmsValue) :=
  newDefaultValue (Structure name elements).
Definition createArray (elementType : MmsVariableSpecification) (size : Z) : alloc (option MmsValue) :=
  newDefaultValue (Array [0] size elementType).

(** ** What the types mean *)

Definition simple_type (t : SimpleType) (v : MmsValue) : Prop :=
  match t, v with
  | Boolean, MmsBoolean _ | Integer _, MmsInteger _ | Unsigned _, MmsUnsigned _ | OctetString _, MmsOctetString _ _ _
  | VisibleString _, MmsVisibleString _ _ | Text _, MmsString _ _ | UtcTime, MmsUtcTime _ => True
  | Float ew fw, MmsFloat ew' fw' _ => ew = ew' /\ fw = fw'
  | BitString n, MmsBitString size _ => n < 0 \/ n = size
  | BinaryTime n, MmsBinaryTime size _ => n = size
  | _, _ => False
  end.

Inductive has_type : MmsVariableSpecification -> MmsValue -> Prop :=
  | structure_type n es cs :
      Forall2 (fun e c => exists v, c = Some v /\ has_type e v) es cs -> has_type (Structure n es) (MmsStructure cs)
  | array_type n k e cs :
      zlen cs = k -> Forall (fun c => exists v, c = Some v /\ has_type e v) cs -> has_type (Array n k e) (MmsArray cs)
  | simple_has_type n t v : simple_type t v -> has_type (Simple n t) v.

(** A specification of something that can exist. *)
Definition valid_simple (t : SimpleType) : Prop :=
  match t with
  | Float _ fw => fw = 32 \/ fw = 64
  | OctetString n => Z.abs n < 65536
  | VisibleString n | Text n => Z.abs n <= 32767
  | BinaryTime n => n = 4 \/ n = 6
  | _ => True
  end.
Inductive valid : MmsVariableSpecification -> Prop :=
  | valid_array n k e : 0 <= k -> valid e -> valid (Array n k e)
  | valid_structure n es : Forall valid es -> valid (Structure n es)
  | valid_leaf n t : valid_simple t -> valid (Simple n t).

Lemma all_wf_at cs i : all_wf wf cs -> 0 <= i < zlen cs -> exists v, cs !! Z.to_nat i = Some (Some v) /\ wf v.
Proof.
  intros Hw Hi. destruct (lookup_lt_is_Some_2 cs (Z.to_nat i)) as [c Hc]; [lia|]. rewrite Hc.
  clear Hi. revert cs Hw Hc. induction (Z.to_nat i) as [|j IH]; intros [|d cs] Hw Hc; try done; destruct Hw as [Hd Hw].
  - injection Hc as ->. destruct c as [v|]; [|done]. by exists v.
  - by apply (IH cs).
Qed.

(** A component of a structure or array. *)
Lemma getElement_at v cs i : v = MmsStructure cs \/ v = MmsArray cs -> wf v -> 0 <= i < zlen cs ->
  exists w, getElement v i = Some w /\ cs !! Z.to_nat i = Some (Some w) /\ wf w.
Proof.
  intros Hv Hw Hi. assert (Hc : all_wf wf cs) by (by destruct Hv; subst). destruct (all_wf_at cs i Hc Hi) as (w & E & Hww).
  exists w. split; [|done]. destruct Hv; subst; cbn [getElement]; rewrite decide_False by lia; by rewrite E.
Qed.

Lemma components_typed_spec es v cs : v = MmsStructure cs -> wf v ->
  Forall (fun e => forall v, wf v -> exists b, isValueOfType e v = Some b /\ (b = true <-> has_type e v)) es ->
  forall i, 0 <= i -> i + zlen es = zlen cs ->
  exists b, components_typed isValueOfType es v i = Some b /\
    (b = true <-> Forall2 (fun e c => exists v, c = Some v /\ has_type e v) es (drop (Z.to_nat i) cs)).
Proof.
  intros Ev Hv. induction 1 as [|e es He _ IH]; intros i Hi Hl; cbn [components_typed]; cbn [length] in Hl.
  { exists true. split; [done|]. rewrite drop_ge by lia. split; [constructor|done]. }
  destruct (getElement_at v cs i) as (w & -> & Hw & Ww); [by left|done|lia|]. cbn [mbind option_bind].
  destruct (He w Ww) as (b & -> & Hb). cbn [mbind option_bind].
  rewrite (drop_S cs (Some w)) by done. replace (S (Z.to_nat i)) with (Z.to_nat (i + 1)) by lia.
  destruct b.
  - destruct (IH (i + 1)) as (b & -> & Hb'); [lia..|]. exists b. split; [done|]. rewrite Hb'. rewrite Forall2_cons. split.
    + intros H. split; [|done]. exists w. split; [done|]. by apply Hb.
    + by intros [_ H].
  - exists false. split; [done|]. split; [done|]. rewrite Forall2_cons. intros [(w' & [= <-] & H) _]. by apply Hb.
Qed.

Lemma elements_typed_spec e v cs : v = MmsArray cs -> wf v ->
  (forall v, wf v -> exists b, isValueOfType e v = Some b /\ (b = true <-> has_type e v)) ->
  forall n i, 0 <= i -> i + Z.of_nat n = zlen cs ->
  exists b, elements_typed (isValueOfType e) n v i = Some b /\
    (b = true <-> Forall (fun c => exists v, c = Some v /\ has_type e v) (drop (Z.to_nat i) cs)).
Proof.
  intros Ev Hv He. induction n as [|n IH]; intros i Hi Hl; cbn [elements_typed].
  { exists true. split; [done|]. rewrite drop_ge by lia. split; [constructor|done]. }
  destruct (getElement_at v cs i) as (w & -> & Hw & Ww); [by right|done|lia|]. cbn [mbind option_bind].
  destruct (He w Ww) as (b & -> & Hb). cbn [mbind option_bind].
  rewrite (drop_S cs (Some w)) by done. replace (S (Z.to_nat i)) with (Z.to_nat (i + 1)) by lia.
  destruct b.
  - destruct (IH (i + 1)) as (b & -> & Hb'); [lia..|]. exists b. split; [done|]. rewrite Hb', Forall_cons. split.
    + intros H. split; [|done]. exists w. split; [done|]. by apply Hb.
    + by intros [_ H].
  - exists false. split; [done|]. split; [done|]. rewrite Forall_cons. intros [(w' & [= <-] & H) _]. by apply Hb.
Qed.

Lemma simple_typed n t v : exists b, isValueOfType (Simple n t) v = Some b /\ (b = true <-> simple_type t v).
Proof.
  cbn [isValueOfType]. case_decide as H.
  - eexists. split; [done|]. destruct t; destruct v; try discriminate; cbn [simple_type]; try tauto.
    + rewrite andb_true_iff, !bool_decide_eq_true. tauto.
    + rewrite orb_true_iff, !bool_decide_eq_true. lia.
    + by rewrite bool_decide_eq_true.
  - exists false. split; [done|]. split; [done|]. destruct t; destruct v; done.
Qed.

Lemma isValueOfType_spec s : forall v, wf v -> exists b, isValueOfType s v = Some b /\ (b = true <-> has_type s v).
Proof.
  induction s as [n k e IH|n es IH|n t] using specification_ind; intros v Hv.
  - cbn [isValueOfType]. case_decide as H.
    2: { exists false. split; [done|]. split; [done|]. intros Ht. by inversion Ht; subst. }
    destruct v as [cs| | | | | | | | | | | |]; try done. cbn [getArraySize mbind option_bind]. case_decide as Hl.
    { exists false. split; [done|]. split; [done|]. intros Ht. inversion Ht; subst. done. }
    destruct (elements_typed_spec e (MmsArray cs) cs eq_refl Hv IH (Z.to_nat k) 0) as (b & -> & Hb); [lia..|].
    exists b. split; [done|]. rewrite Hb, drop_0. split.
    + intros Hf. by constructor.
    + intros Ht. by inversion Ht; subst.
  - cbn [isValueOfType]. case_decide as H.
    2: { exists false. split; [done|]. split; [done|]. intros Ht. by inversion Ht; subst. }
    destruct v as [|cs| | | | | | | | | | |]; try done. cbn [getArraySize mbind option_bind]. case_decide as Hl.
    { exists false. split; [done|]. split; [done|]. intros Ht. inversion Ht as [? ? ? Hf| |]; subst.
      apply Forall2_length in Hf. lia. }
    destruct (components_typed_spec es (MmsStructure cs) cs eq_refl Hv IH 0) as (b & -> & Hb); [lia..|].
    exists b. split; [done|]. rewrite Hb, drop_0. split.
    + intros Hf. by constructor.
    + intros Ht. by inversion Ht; subst.
  - destruct (simple_typed n t v) as (b & -> & Hb). exists b. split; [done|]. rewrite Hb. split.
    + by constructor.
    + intros Ht. by inversion Ht; subst.
Qed.

(** ** Default values have their types *)

(** A new value of type [s]: it is well-formed when every allocation succeeded. *)
Definition made (P : MmsValue -> Prop) (ok : bool) (r : option MmsValue) : Prop :=
  match r with Some v => P v /\ (ok = true -> wf v) | None => ok = false end.

Lemma new_value_made P (v : MmsValue) : P v -> wf v -> runs (new_value v) (made P).
Proof. intros HP Hv. apply Alloc.runs_bind, Alloc.runs_malloc. intros []; by apply Alloc.runs_ret. Qed.

Lemma new_integer_made P mk sz : 1 <= sz <= 255 -> (forall i, P (mk i)) -> (forall i, wf (mk i) = BerInteger.wf i) ->
  runs (newWithInteger mk (fun m1 m2 => Some (BerInteger.Asn1PrimitiveValue_create m1 m2 sz))) (made P).
Proof.
  intros Hs HP Hw. apply Alloc.runs_bind, Alloc.runs_malloc. intros []; [|by apply Alloc.runs_ret].
  apply Alloc.runs_bind, Alloc.runs_malloc. intros [].
  - apply Alloc.runs_bind, Alloc.runs_malloc. intros b. apply Alloc.runs_bind. eapply Alloc.runs_lift; [reflexivity|].
    apply Alloc.runs_ret. destruct b; [|done]. cbn [andb]. split; [apply HP|]. intros _. rewrite Hw. by eapply BerInteger.create_wf.
  - apply Alloc.runs_bind, Alloc.runs_ret, Alloc.runs_bind. eapply Alloc.runs_lift; [reflexivity|]. by apply Alloc.runs_ret.
Qed.

Lemma new_string_made P mk n : 0 <= n <= 32767 -> (forall b m, P (mk b m)) -> (forall b m, wf (mk b m) = wf_string b m) ->
  runs (newStringWithSize mk n) (made P).
Proof.
  intros Hn HP Hw. apply Alloc.runs_bind, Alloc.runs_malloc. intros []; [|by apply Alloc.runs_ret].
  apply Alloc.runs_bind, Alloc.runs_malloc_size; [lia|]. intros []; [|by apply Alloc.runs_ret].
  apply Alloc.runs_bind. assert (Hb : (fresh (n + 1)).[0]:= 0 = Some (fresh (n + 1))).
  { unfold wr. rewrite decide_True by (rewrite fresh_length by lia; lia). f_equal. unfold fresh.
    replace (Z.to_nat (n + 1)) with (S (Z.to_nat n)) by lia. done. }
  eapply Alloc.runs_lift; [exact Hb|]. apply Alloc.runs_ret. split; [done|]. intros _. rewrite Hw.
  assert (s16 n = n) as -> by zlia. exists (fresh (n + 1)), []. split_and!; try lia; [done| |apply is_bytes_fresh|].
  - split; [|constructor]. exists (fresh n). unfold fresh. by replace (Z.to_nat (n + 1)) with (S (Z.to_nat n)) by lia.
  - rewrite fresh_length; lia.
Qed.

Lemma newSimple_made t : valid_simple t -> runs (newSimple t) (made (simple_type t)).
Proof.
  intros Ht. destruct t as [|n|n|ew fw|n|n|n|n| |n]; cbn [newSimple valid_simple] in *.
  - by apply new_value_made.
  - unfold newInteger. case_decide; apply (new_integer_made _ MmsInteger); done || lia.
  - unfold newUnsigned. case_decide; apply (new_integer_made _ MmsUnsigned); done || lia.
  - apply new_value_made; [done|]. split; [done|]. by apply wf_buf_fresh.
  - apply Alloc.runs_bind, Alloc.runs_malloc. intros []; [|by apply Alloc.runs_ret].
    apply Alloc.runs_bind, Alloc.runs_malloc. intros b. apply Alloc.runs_ret.
    split; [cbn; lia|]. destruct b; [|done]. intros _. split; [lia|]. apply wf_buf_fresh.
    unfold bitStringByteSize. case_decide; zlia.
  - apply Alloc.runs_bind, Alloc.runs_malloc. intros []; [|by apply Alloc.runs_ret].
    apply new_value_made; [done|]. assert (u16 (if decide (n < 0) then 0 else n) = Z.max 0 n) as -> by (case_decide; zlia).
    cbn [wf]. replace (Z.abs (Z.abs n)) with (Z.abs n) by lia. split; [apply wf_buf_fresh; lia|lia].
  - by apply (new_string_made _ MmsVisibleString); [lia|..].
  - by apply (new_string_made _ MmsString); [lia|..].
  - apply new_value_made; [done|]. by apply wf_buf_fresh.
  - apply new_value_made.
    + cbn. destruct Ht as [-> | ->]; done.
    + split; [destruct Ht as [-> | ->]; auto|]. by apply (wf_buf_fresh 6).
Qed.

(** The elements of an array are typed as those of a structure of as many equal specifications. *)
Lemma elements_typed_replicate e cs : Forall (fun c => exists v, c = Some v /\ has_type e v) cs <->
  Forall2 (fun e c => exists v, c = Some v /\ has_type e v) (replicate (length cs) e) cs.
Proof.
  split; intros H.
  - induction H; constructor; auto.
  - induction cs as [|c cs IH]; [done|]. inversion H; subst. constructor; auto.
Qed.

Definition all_made (s : list MmsVariableSpecification) (ok : bool) (r : option (list (option MmsValue))) : Prop :=
  match r with
  | Some cs => Forall2 (fun e c => exists v, c = Some v /\ has_type e v) s cs /\ (ok = true -> all_wf wf cs)
  | None => ok = false
  end.

Lemma cons_made (m1 : alloc (option MmsValue)) (m2 : alloc (option (list (option MmsValue)))) e es :
  runs m1 (made (has_type e)) -> runs m2 (all_made es) ->
  runs (v <~ m1; match v with Some v => cs <~ m2; m_ret (cons (Some v) <$> cs) | None => m_ret None end) (all_made (e :: es)).
Proof.
  intros H1 H2. apply Alloc.runs_bind. eapply Alloc.runs_mono; [exact H1|]. intros ok [v|] Hv.
  - destruct Hv as [Ht Hw]. apply Alloc.runs_bind. eapply Alloc.runs_mono; [exact H2|]. intros ok' [cs|] Hc; apply Alloc.runs_ret.
    + destruct Hc as [Hts Hws]. cbn. rewrite andb_true_r. split; [constructor; eauto|].
      intros [??]%andb_prop. auto.
    + cbn. rewrite andb_true_r. by rewrite Hc, andb_false_r.
  - apply Alloc.runs_ret. by rewrite Hv.
Qed.

Lemma newComponents_made es :
  Forall (fun e => valid e -> runs (newDefaultValue e) (made (has_type e))) es -> Forall valid es ->
  runs (newComponents newDefaultValue es) (all_made es).
Proof.
  induction 1 as [|e es He _ IH]; intros Hv; cbn [newComponents]; [by apply Alloc.runs_ret|].
  apply Forall_cons in Hv as [??]. apply cons_made; auto.
Qed.

Lemma newElements_made e m n : runs m (made (has_type e)) -> runs (newElements m n) (all_made (replicate n e)).
Proof.
  intros H. induction n as [|n IH]; cbn [newElements replicate]; [by apply Alloc.runs_ret|]. by apply cons_made.
Qed.

Lemma newDefaultValue_made s : valid s -> runs (newDefaultValue s) (made (has_type s)).
Proof.
  induction s as [n k e IH|n es IH|n t] using specification_ind; intros Hv; inversion Hv; subst; cbn [newDefaultValue].
  - apply Alloc.runs_bind, Alloc.runs_malloc. intros []; [|by apply Alloc.runs_ret].
    apply Alloc.runs_bind, Alloc.runs_malloc_size; [done|]. intros []; [|by apply Alloc.runs_ret].
    apply Alloc.runs_bind. eapply Alloc.runs_mono; [by apply newElements_made, IH|]. intros ok [cs|] Hc; apply Alloc.runs_ret.
    + destruct Hc as [Hf Hw]. cbn. rewrite !andb_true_r. split; [|done]. apply Forall2_length in Hf as Hl.
      rewrite length_replicate in Hl. constructor; [lia|].
      apply elements_typed_replicate. by rewrite <- Hl.
    + cbn. by rewrite Hc.
  - apply Alloc.runs_bind, Alloc.runs_malloc. intros []; [|by apply Alloc.runs_ret].
    apply Alloc.runs_bind, Alloc.runs_malloc. intros []; [|by apply Alloc.runs_ret].
    apply Alloc.runs_bind. eapply Alloc.runs_mono; [by apply newComponents_made|]. intros ok [cs|] Hc; apply Alloc.runs_ret.
    + destruct Hc as [Hf Hw]. cbn. rewrite !andb_true_r. split; [by constructor|done].
    + cbn. by rewrite Hc.
  - eapply Alloc.runs_mono; [by apply newSimple_made|]. intros ok [v|] H'; [|done]. destruct H'. split; [by constructor|done].
Qed.

(** ** Updates keep the type *)

Lemma alloc_bind_inv {A B} (m : alloc A) (k : A -> alloc B) mem x : m_bind m k mem = Some x ->
  exists y mem1, m mem = Some (y, mem1) /\ k y mem1 = Some x.
Proof. unfold m_bind. destruct (m mem) as [[y mem1]|] eqn:E; [|done]. intros H. by exists y, mem1. Qed.
Lemma alloc_lift_inv {A} (o : option A) mem x mem' : m_lift o mem = Some (x, mem') -> o = Some x /\ mem' = mem.
Proof. unfold m_lift. destruct o as [y|]; [|done]. by intros [= -> ->]. Qed.

Ltac alloc_inv :=
  repeat match goal with
  | H : m_bind _ _ _ = Some _ |- _ => let E := fresh "E" in apply alloc_bind_inv in H as ([? ?] & ? & E & H) || apply alloc_bind_inv in H as (? & ? & E & H)
  | H : m_lift _ _ = Some _ |- _ => apply alloc_lift_inv in H as [? ->]
  | H : m_ret _ _ = Some _ |- _ => injection H; clear H; intros; subst
  end.

Lemma update_components_typed es : Forall (fun e => forall v u mem w r mem', update v u mem = Some ((w, r), mem') ->
    has_type e v -> has_type e u -> has_type e w) es ->
  forall cs us mem ws r mem', components_update
      (fun c u => match c, u with Some c, Some u => r <~ update c u; m_ret (Some (fst r), snd r) | _, _ => m_ret (c, false) end)
      cs us mem = Some ((ws, r), mem') ->
  Forall2 (fun e c => exists v, c = Some v /\ has_type e v) es cs ->
  Forall2 (fun e c => exists v, c = Some v /\ has_type e v) es us ->
  Forall2 (fun e c => exists v, c = Some v /\ has_type e v) es ws.
Proof.
  induction 1 as [|e es He _ IH]; intros cs us mem ws r mem' H Hc Hu.
  - inversion Hc; inversion Hu; subst. cbn in H. injection H as <- <- <-. constructor.
  - inversion Hc as [|? ? ? cs' (v & -> & Hv) Hcs]; inversion Hu as [|? ? ? us' (u & -> & Hu') Hus]; subst.
    cbn [components_update] in H. apply alloc_bind_inv in H as ([c' b] & mem1 & E & H).
    apply alloc_bind_inv in E as ([w b'] & mem2 & Ew & E). cbn [fst snd] in *. injection E as <- <- <-.
    assert (Hw : has_type e w) by (by eapply He). destruct b'; cbn [fst snd] in H.
    + apply alloc_bind_inv in H as ([ds b'] & mem3 & Ed & H). cbn [fst snd] in H. injection H as <- <- <-.
      constructor; [by exists w|]. by eapply IH.
    + injection H as <- <- <-. constructor; [by exists w|done].
Qed.

Lemma update_keeps_type s : forall v u mem w r mem', update v u mem = Some ((w, r), mem') ->
  has_type s v -> has_type s u -> has_type s w.
Proof.
  induction s as [n k e IH|n es IH|n t] using specification_ind; intros v u mem w r mem' H Hv Hu.
  - inversion Hv as [|? ? ? cs <- Hc|]; subst. inversion Hu as [|? ? ? us Hl Hus|]; subst. cbn [update] in H.
    rewrite decide_False in H by lia. apply alloc_bind_inv in H as ([ws b] & mem1 & E & H). injection H as <- <- <-. cbn [fst].
    apply elements_typed_replicate in Hc, Hus. replace (length us) with (length cs) in Hus by lia.
    apply (update_components_typed (replicate (length cs) e)) in E; [|by apply Forall_replicate|done|done].
    pose proof (Forall2_length _ _ _ E) as Hlw. rewrite length_replicate in Hlw. constructor; [lia|].
    apply elements_typed_replicate. by rewrite <- Hlw.
  - inversion Hv as [? ? cs Hc| |]; subst. inversion Hu as [? ? us Hus| |]; subst. cbn [update] in H.
    pose proof (Forall2_length _ _ _ Hc). pose proof (Forall2_length _ _ _ Hus).
    rewrite decide_False in H by lia. apply alloc_bind_inv in H as ([ws b] & mem1 & E & H). injection H as <- <- <-. cbn [fst].
    constructor. by eapply update_components_typed.
  - inversion Hv as [| |? ? ? Hvt]; inversion Hu as [| |? ? ? Hut]; subst. constructor.
    destruct t; destruct v; try done; destruct u; try done; cbn [update simple_type] in *;
      unfold updateOctetString, setVisibleString, setMmsString in H;
      repeat case_decide; alloc_inv; repeat match goal with x : bool |- _ => destruct x end; alloc_inv; repeat case_decide; alloc_inv;
      cbn [fst snd simple_type] in *; intuition (subst; auto).
Qed.

(** ** What names mean *)

(** The string in a buffer. *)
Fixpoint content (b : list Z) : list Z :=
  match b with [] => [] | x :: b => if decide (x = 0) then [] else x :: content b end.

Lemma cstr_content b s : cstr b s -> content b = s.
Proof.
  intros [[rest ->] Hs]. induction Hs as [|x s Hx _ IH]; cbn; [done|]. rewrite decide_False by done. by rewrite IH.
Qed.

Inductive well_named : MmsVariableSpecification -> Prop :=
  | named_array n k e : cstr n (content n) -> well_named e -> well_named (Array n k e)
  | named_structure n es : cstr n (content n) -> Forall well_named es -> well_named (Structure n es)
  | named_simple n t : cstr n (content n) -> well_named (Simple n t).

Lemma well_named_name s : well_named s -> cstr (getName s) (content (getName s)).
Proof. by destruct 1. Qed.

(** A name that can be part of a path. *)
Definition good_name (n : list Z) : Prop := Forall (fun x => x <> 0 /\ x <> 36 /\ x <> 46) n.

Fixpoint join (path : list (list Z)) : list Z :=
  match path with
  | [] => []
  | n :: path => match path with [] => n | _ => n ++ 36 :: join path end
  end.

(** The component at a path; [through]: components of arrays are those of their elements. *)
Section Follow.
Context (through : bool).
Definition follow_elements (f : MmsVariableSpecification -> option MmsVariableSpecification) (n : list Z) :
    list MmsVariableSpecification -> option MmsVariableSpecification :=
  fix follow_elements es :=
    match es with [] => None | e :: es => if decide (content (getName e) = n) then f e else follow_elements es end.
Fixpoint follow (s : MmsVariableSpecification) (path : list (list Z)) {struct s} : option MmsVariableSpecification :=
  match path with
  | [] => Some s
  | n :: path' =>
      match s with
      | Structure _ es => follow_elements (fun e => follow e path') n es
      | Array _ _ e => if through then follow e path else None
      | Simple _ _ => None
      end
  end.
End Follow.

Lemma follow_nil b s : follow b s [] = Some s.
Proof. by destruct s. Qed.

Lemma strncmp_loop_spec m : forall n pre pre' r r', length m = length n -> length pre = length pre' ->
  Forall (fun x => x <> 0) m ->
  strncmp_loop (length m) (pre ++ m ++ r) (pre' ++ n ++ r') (zlen pre) = Some (bool_decide (m = n)).
Proof.
  induction m as [|x m IH]; intros [|y n] pre pre' r r' Hl Hp Hm; try done.
  apply Forall_cons in Hm as [Hx Hm]. cbn [length strncmp_loop app]. rewrite rd_mid, Hp, rd_mid. cbn [mbind option_bind].
  case_decide as Hxy.
  { rewrite bool_decide_eq_false_2; [done|]. by intros [= ? ?]. }
  rewrite decide_False by done. subst y. specialize (IH n (pre ++ [x]) (pre' ++ [x]) r r').
  rewrite <- !app_assoc in IH. cbn [app] in IH. rewrite !length_app in IH. cbn [length] in IH.
  replace (zlen pre' + 1) with (Z.of_nat (length pre + 1)) by lia. rewrite IH by (done || lia || (injection Hl; lia)).
  f_equal. apply bool_decide_ext. split; congruence.
Qed.

Lemma is_named_buffer b m n rest : cstr b m ->
  (k ← strlen b; if decide (k = zlen n) then strncmp b (n ++ rest) (zlen n) else Some false) = Some (bool_decide (m = n)).
Proof.
  intros Hc. rewrite (strlen_spec _ _ Hc). cbn [mbind option_bind]. destruct Hc as [[r ->] Hm]. case_decide as Hl.
  - unfold strncmp. replace (Z.to_nat (zlen n)) with (length m) by lia.
    apply (strncmp_loop_spec m n [] []); [apply Nat2Z.inj, Hl|done..].
  - rewrite bool_decide_eq_false_2; [done|]. by intros ->.
Qed.

Lemma is_named_spec e n rest : cstr (getName e) (content (getName e)) ->
  is_named e (n ++ rest) (zlen n) = Some (bool_decide (content (getName e) = n)).
Proof. apply is_named_buffer. Qed.

Lemma strcmp_loop_spec m : forall n pre pre' r r' fuel, length pre = length pre' ->
  Forall (fun x => x <> 0) m -> Forall (fun x => x <> 0) n -> (length m < fuel)%nat ->
  strcmp_loop fuel (pre ++ m ++ 0 :: r) (pre' ++ n ++ 0 :: r') (zlen pre) = Some (bool_decide (m = n)).
Proof.
  induction m as [|x m IH]; intros n pre pre' r r' [|fuel] Hp Hm Hn Hf; try (simpl in Hf; lia); cbn [strcmp_loop].
  - cbn [app]. rewrite rd_mid, Hp. destruct n as [|y n]; cbn [app]; rewrite rd_mid; cbn [mbind option_bind].
    + done.
    + apply Forall_cons in Hn as [Hy _]. by rewrite decide_True by congruence.
  - apply Forall_cons in Hm as [Hx Hm]. cbn [app]. rewrite rd_mid, Hp. destruct n as [|y n]; cbn [app]; rewrite rd_mid; cbn [mbind option_bind].
    + by rewrite decide_True by done.
    + apply Forall_cons in Hn as [Hy Hn]. case_decide as Hxy.
      { rewrite bool_decide_eq_false_2; [done|]. by intros [= ? ?]. }
      rewrite decide_False by done. subst y. specialize (IH n (pre ++ [x]) (pre' ++ [x]) r r' fuel).
      rewrite <- !app_assoc in IH. cbn [app] in IH. rewrite !length_app in IH. cbn [length] in IH.
      replace (zlen pre' + 1) with (Z.of_nat (length pre + 1)) by lia. rewrite IH by (done || lia || (simpl in Hf; lia)).
      f_equal. apply bool_decide_ext. split; congruence.
Qed.

Lemma strcmp_spec a b m n : cstr a m -> cstr b n -> strcmp a b = Some (bool_decide (m = n)).
Proof.
  intros [[r ->] Hm] [[r' ->] Hn]. unfold strcmp. apply (strcmp_loop_spec m n [] []); [done..|].
  rewrite !length_app. simpl. lia.
Qed.

Lemma good_nonzero n : good_name n -> Forall (fun x => x <> 0) n.
Proof. intros H. apply (Forall_impl _ _ _ H). tauto. Qed.
Lemma good_no_dollar n : good_name n -> Forall (fun x => x <> 36 /\ x <> 0) n.
Proof. intros H. apply (Forall_impl _ _ _ H). tauto. Qed.

Lemma join_nonzero path : Forall good_name path -> Forall (fun x => x <> 0) (join path).
Proof.
  induction 1 as [|n path Hn _ IH]; [constructor|]. cbn [join]. destruct path; [by apply good_nonzero|].
  apply Forall_app. split; [by apply good_nonzero|]. constructor; [lia|done].
Qed.

(** A path is a name and, behind a separator, the rest. *)
Lemma path_split n m path id : Forall good_name (n :: m :: path) -> cstr id (join (n :: m :: path)) ->
  exists rest, id = n ++ 36 :: rest /\ strchr id 0 36 = Some (Some (zlen n)) /\ cstr rest (join (m :: path)) /\ skip id (zlen n + 1) = rest.
Proof.
  intros Hg [[r ->] _]. apply Forall_cons in Hg as [Hn Hg]. exists (join (m :: path) ++ 0 :: r). split_and!.
  - cbn [join]. by rewrite <- app_assoc.
  - change (join (n :: m :: path)) with (n ++ 36 :: join (m :: path)).
    apply (strchr_hit _ [] n 36 (join (m :: path) ++ 0 :: r)); [by rewrite <- app_assoc|by apply good_no_dollar].
  - split; [by exists r|]. by apply join_nonzero.
  - change (join (n :: m :: path)) with (n ++ 36 :: join (m :: path)). unfold skip. rewrite <- app_assoc. cbn [app].
    replace (Z.to_nat (zlen n + 1)) with (length n + 1)%nat by lia. rewrite drop_app_add'; done.
Qed.

Lemma find_element_spec n id es : Forall well_named es -> cstr id n ->
  find_element (fun e => strcmp (getName e) id) es = Some (follow_elements (fun e => follow true e []) n es).
Proof.
  intros Hes Hid. induction Hes as [|e es He _ IH]; cbn [find_element follow_elements]; [done|].
  rewrite (strcmp_spec _ id _ n (well_named_name e He) Hid). cbn [mbind option_bind].
  case_decide as Hn; [rewrite bool_decide_eq_true_2 by done; by rewrite follow_nil|by rewrite bool_decide_eq_false_2].
Qed.

Lemma getNamedVariable_spec s : well_named s -> forall path id, path <> [] -> Forall good_name path -> cstr id (join path) ->
  getNamedVariableRecursive s id = Some (follow true s path).
Proof.
  induction s as [n k e IH|n es IH|n t] using specification_ind; intros Hw path id Hp Hg Hid; inversion Hw; subst.
  - cbn [getNamedVariableRecursive]. rewrite (IH ltac:(done) path) by done. by destruct path.
  - cbn [getNamedVariableRecursive]. destruct path as [|m [|m' path]]; [done| |].
    + cbn [join] in Hid. destruct Hid as [[r ->] Hm]. apply Forall_cons in Hg as [Hg _].
      rewrite (strchr_miss _ [] m 36 r) by (done || by apply good_no_dollar). cbn [mbind option_bind].
      apply find_element_spec; [done|]. split; [by exists r|done].
    + destruct (path_split m m' path id Hg Hid) as (rest & E & -> & Hr & Hs). cbn [mbind option_bind follow].
      clear Hw. induction IH as [|e es He _ IHes]; cbn [named_child follow_elements]; [done|].
      match goal with H : Forall well_named (_ :: _) |- _ => apply Forall_cons in H as [Hwe Hwes] end.
      rewrite E at 1. rewrite is_named_spec by (by apply well_named_name). cbn [mbind option_bind].
      case_decide as Hn.
      * rewrite bool_decide_eq_true_2 by done. rewrite Hs. apply Forall_cons in Hg as [_ Hg].
        assert (He' := He Hwe (m' :: path) rest ltac:(done) Hg Hr). by destruct e.
      * rewrite bool_decide_eq_false_2 by done. by apply IHes.
  - cbn [getNamedVariableRecursive]. destruct path as [|m [|m' path]]; [done| |].
    + cbn [join] in Hid. destruct Hid as [[r ->] Hm]. apply Forall_cons in Hg as [Hg _].
      by rewrite (strchr_miss _ [] m 36 r) by (done || by apply good_no_dollar).
    + by destruct (path_split m m' path id Hg Hid) as (rest & E & -> & Hr & Hs).
Qed.

Lemma directChild_loop n : forall k pre tl, good_name n ->
  (k = length n \/ (length n < k)%nat /\ exists tl', tl = 36 :: tl') ->
  directChildStrLen_loop k (pre ++ n ++ tl) (zlen pre) = Some (zlen pre + zlen n).
Proof.
  induction n as [|x n IH]; intros k pre tl Hn Hk.
  - cbn [app length] in *. rewrite Z.add_0_r. destruct k as [|k]; [done|]. cbn [directChildStrLen_loop].
    destruct Hk as [?|(_ & tl' & ->)]; [done|]. by rewrite rd_mid.
  - apply Forall_cons in Hn as [Hx Hn]. destruct k as [|k]; [cbn in Hk; destruct Hk as [?|[? _]]; [done|lia]|].
    cbn [directChildStrLen_loop app]. rewrite rd_mid. cbn [mbind option_bind]. rewrite !decide_False by tauto.
    specialize (IH k (pre ++ [x]) tl Hn). rewrite <- app_assoc, length_app in IH. cbn [app length] in IH.
    replace (zlen pre + 1) with (Z.of_nat (length pre + 1)) by lia. rewrite IH.
    + f_equal. cbn [length]. lia.
    + cbn [length] in Hk. destruct Hk as [?|[? ?]]; [left; lia|right; split; [lia|done]].
Qed.

Lemma directChildStrLen_spec n path id : Forall good_name (n :: path) -> cstr id (join (n :: path)) ->
  directChildStrLen id = Some (zlen n).
Proof.
  intros Hg Hid. unfold directChildStrLen. rewrite (strlen_spec _ _ Hid). cbn [mbind option_bind]. destruct Hid as [[r ->] _].
  apply Forall_cons in Hg as [Hn _]. rewrite Nat2Z.id. destruct path as [|m path].
  - cbn [join]. apply (directChild_loop n _ [] (0 :: r)); auto.
  - change (join (n :: m :: path)) with (n ++ 36 :: join (m :: path)). rewrite <- app_assoc.
    apply (directChild_loop n _ [] (36 :: join (m :: path) ++ 0 :: r)); [done|]. right. rewrite length_app. cbn [length].
    split; [lia|eauto].
Qed.

(** What is found for the component [e]. *)
Definition found (e : option MmsVariableSpecification) (r : option MmsValue) : Prop :=
  match e with Some e => exists w, r = Some w /\ has_type e w | None => r = None end.

Lemma child_value_spec n path id es cs : Forall good_name (n :: path) -> cstr id (join (n :: path)) -> Forall well_named es ->
  Forall2 (fun e c => exists v, c = Some v /\ has_type e v) es cs ->
  Forall (fun e => well_named e -> forall v path id, has_type e v -> path <> [] -> Forall good_name path -> cstr id (join path) ->
    exists r, getChildValue e (Some v) id = Some r /\ found (follow false e path) r) es ->
  exists r, child_value getChildValue id (zlen n) es cs = Some r /\
    found (follow_elements (fun e => follow false e path) n es) r.
Proof.
  intros Hg Hid Hn Hf HIH. revert Hn HIH. induction Hf as [|e c es cs (v & -> & Hv) _ IH]; intros Hn HIH; cbn [child_value follow_elements].
  { by exists None. }
  apply Forall_cons in Hn as [Hne Hn]. apply Forall_cons in HIH as [He HIH].
  assert (Hnamed : is_named e id (zlen n) = Some (bool_decide (content (getName e) = n))).
  { destruct Hid as [[r ->] _]. destruct path as [|m path]; cbn [join].
    - apply is_named_spec. by apply well_named_name.
    - rewrite <- app_assoc. apply is_named_spec. by apply well_named_name. }
  rewrite Hnamed. cbn [mbind option_bind]. case_decide as E.
  - rewrite bool_decide_eq_true_2 by done. rewrite (strlen_spec _ _ Hid). cbn [mbind option_bind].
    destruct path as [|m path].
    + rewrite decide_True by done. rewrite follow_nil. exists (Some v). split; [done|]. by exists v.
    + destruct (path_split n m path id Hg Hid) as (rest & _ & _ & Hr & Hs). rewrite decide_False.
      2: { change (join (n :: m :: path)) with (n ++ 36 :: join (m :: path)). rewrite length_app. cbn [length]. lia. }
      rewrite Hs. apply Forall_cons in Hg as [_ Hg]. by apply He.
  - rewrite bool_decide_eq_false_2 by done. by apply IH.
Qed.

Lemma getChildValue_spec s : well_named s -> forall v path id, has_type s v -> path <> [] -> Forall good_name path ->
  cstr id (join path) -> exists r, getChildValue s (Some v) id = Some r /\ found (follow false s path) r.
Proof.
  induction s as [n k e IH|n es IH|n t] using specification_ind; intros Hw v path id Hv Hp Hg Hid.
  - destruct path as [|m path]; [done|]. by exists None.
  - inversion Hv as [? ? cs Hcs| |]; subst. cbn [getChildValue mbind option_bind]. destruct path as [|m path]; [done|].
    rewrite (directChildStrLen_spec m path) by done. cbn [mbind option_bind].
    pose proof (Forall2_length _ _ _ Hcs). rewrite decide_False by lia. apply child_value_spec; try done. by inversion Hw.
  - destruct path as [|m path]; [done|]. by exists None.
Qed.

Lemma follow_through s : forall path e, follow false s path = Some e -> follow true s path = Some e.
Proof.
  induction s as [n k e IH|n es IH|n t] using specification_ind; intros [|m path] e' H; try done.
  cbn [follow] in *. induction IH as [|e es He _ IHes]; cbn [follow_elements] in *; [done|].
  case_decide; [by apply He|by apply IHes].
Qed.

(** ** Properties *)

(** The values a client writes to a variable, one after the other: the server checks the type and
    updates the value of the variable when it is right. *)
Fixpoint written (s : MmsVariableSpecification) (v : MmsValue) (us : list MmsValue) : option MmsValue :=
  match us with
  | [] => Some v
  | u :: us =>
      b ← isValueOfType s u;
      if (b : bool) then '((w, _), _) ← update v u []; written s w us else written s v us
  end.

Lemma written_typed s us : forall v, has_type s v -> wf v -> Forall wf us -> exists w, written s v us = Some w /\ has_type s w /\ wf w.
Proof.
  induction us as [|u us IH]; intros v Ht Hv Hus; cbn [written]; [by exists v|]. apply Forall_cons in Hus as [Hu Hus].
  destruct (isValueOfType_spec s u Hu) as (b & -> & Hb). cbn [mbind option_bind]. destruct b; [|by apply IH].
  destruct (update_runs v u Hv Hu []) as ([w r] & mem' & used & E & Hnil & H). symmetry in Hnil.
  apply app_nil in Hnil as [-> ->]. destruct (H eq_refl) as [Hw _]. rewrite E. cbn [mbind option_bind].
  apply IH; [|done|done]. eapply update_keeps_type; [exact E|done|]. by apply Hb.
Qed.

(** C25: The value of a variable has the type of the variable: it has it from the beginning, as the
    default value, and whatever well-formed values clients write to it, of whatever types, those that
    pass the check of the server leave a well-formed value that passes the check again. *)
Theorem variable_keeps_type s us : valid s -> Forall wf us ->
  exists v w, newDefaultValue s [] = Some (Some v, []) /\ written s v us = Some w /\ wf w /\ isValueOfType s w = Some true.
Proof.
  intros Hs Hus. destruct (newDefaultValue_made s Hs []) as (r & mem' & used & E & Hnil & H). symmetry in Hnil.
  apply app_nil in Hnil as [-> ->]. destruct r as [v|]; [|done]. destruct H as [Ht Hv].
  destruct (written_typed s us v Ht (Hv eq_refl) Hus) as (w & Ew & Htw & Hw). exists v, w. split_and!; try done.
  destruct (isValueOfType_spec s w Hw) as (b & -> & Hb). destruct b; [done|]. by apply Hb in Htw.
Qed.

(** C26: A name finds the same component in the type and in the value: for a variable with a value of
    its type, a path of names finds the specification at this path, also through arrays, and exactly
    when it leads through structures only, it finds a value, which has the type of the specification
    that was found. *)
Theorem component_access s v path id :
  well_named s -> has_type s v -> path <> [] -> Forall good_name path -> cstr id (join path) ->
  getNamedVariableRecursive s id = Some (follow true s path) /\
  exists r, MmsValue_getSubElement (Some v) s id = Some r /\
    match follow false s path with
    | Some e => getNamedVariableRecursive s id = Some (Some e) /\ exists w, r = Some w /\ has_type e w
    | None => r = None
    end.
Proof.
  intros Hs Hv Hp Hg Hid. rewrite (getNamedVariable_spec s Hs path id Hp Hg Hid). split; [done|].
  destruct (getChildValue_spec s Hs v path id Hv Hp Hg Hid) as (r & E0 & Hr). exists r. split; [exact E0|]. clear E0.
  destruct (follow false s path) as [e|] eqn:E; [|done]. by rewrite (follow_through _ _ _ E).
Qed.

(** The type of a command: the parameters of a control with a boolean value. *)
Definition n_ctlVal : list Z := [99; 116; 108; 86; 97; 108].
Definition n_origin : list Z := [111; 114; 105; 103; 105; 110].
Definition n_orCat : list Z := [111; 114; 67; 97; 116].
Definition n_orIdent : list Z := [111; 114; 73; 100; 101; 110; 116].
Definition n_ctlNum : list Z := [99; 116; 108; 78; 117; 109].
Definition n_Test : list Z := [84; 101; 115; 116].
Definition n_Check : list Z := [67; 104; 101; 99; 107].
Definition sample_origin : MmsVariableSpecification :=
  Structure (text n_origin) [Simple (text n_orCat) (Integer 8); Simple (text n_orIdent) (OctetString (-64))].
Definition sample_specification : MmsVariableSpecification :=
  Structure (text [79; 112; 101; 114])
    [Simple (text n_ctlVal) Boolean; sample_origin; Simple (text n_ctlNum) (Unsigned 8); Simple (text [84]) UtcTime;
     Simple (text n_Test) Boolean; Simple (text n_Check) (BitString (-2))].

Example sample_default :
  ('(v, _) ← newDefaultValue sample_specification []; v ≫= isValueOfType sample_specification) = Some true.
Proof. vm_compute. reflexivity. Qed.

Definition sample_written : list MmsValue :=
  [MmsBoolean true;
   MmsStructure [Some (MmsBoolean true);
     Some (MmsStructure [Some (MmsInteger (BerInteger.Build_Asn1PrimitiveValue 1 5 [2; 0; 0; 0; 0])); Some (MmsOctetString 1 (-64) (7 :: fresh 63))]);
     Some (MmsUnsigned (BerInteger.Build_Asn1PrimitiveValue 1 5 [1; 0; 0; 0; 0])); Some (MmsUtcTime (fresh 8)); Some (MmsBoolean false);
     Some (MmsBitString 2 [0])]].

Lemma variable_keeps_type_witness :
  exists v w, newDefaultValue sample_specification [] = Some (Some v, []) /\
    written sample_specification v sample_written = Some w /\ wf w /\ isValueOfType sample_specification w = Some true.
Proof.
  apply (variable_keeps_type sample_specification sample_written).
  - unfold sample_specification, sample_origin. repeat constructor.
  - unfold sample_written. repeat constructor; vm_compute; intuition congruence.
Defined.

Lemma cstr_text s : Forall (fun x => x <> 0) s -> cstr (text s) s.
Proof. intros Hs. split; [by exists []|done]. Qed.
Lemma cstr_text_content s : Forall (fun x => x <> 0) s -> cstr (text s) (content (text s)).
Proof. intros Hs. rewrite (cstr_content _ _ (cstr_text s Hs)). by apply cstr_text. Qed.

Ltac name_solve := apply cstr_text_content; repeat constructor; lia.

Lemma sample_well_named : well_named sample_specification.
Proof.
  unfold sample_specification, sample_origin.
  repeat match goal with
  | |- cstr _ _ => name_solve
  | |- well_named _ => constructor
  | |- Forall _ _ => constructor
  end.
Qed.

Definition sample_value : MmsValue := default (MmsBoolean false) (sample_written !! 1%nat).
Lemma sample_typed : has_type sample_specification sample_value.
Proof.
  unfold sample_value, sample_written, sample_specification, sample_origin. constructor.
  repeat match goal with
  | |- Forall2 _ _ _ => constructor
  | |- exists _, Some _ = Some _ /\ _ => eexists; split; [reflexivity|]
  | |- has_type (Structure _ _) _ => constructor
  | |- has_type (Simple _ _) _ => constructor; cbn; auto with lia
  end.
Qed.

Lemma component_access_witness :
  let id := text (join [n_origin; n_orCat]) in
  getNamedVariableRecursive sample_specification id = Some (follow true sample_specification [n_origin; n_orCat]) /\
  exists r, MmsValue_getSubElement (Some sample_value) sample_specification id = Some r /\
    match follow false sample_specification [n_origin; n_orCat] with
    | Some e => getNamedVariableRecursive sample_specification id = Some (Some e) /\ exists w, r = Some w /\ has_type e w
    | None => r = None
    end.
Proof.
  apply (component_access sample_specification sample_value [n_origin; n_orCat]).
  - exact sample_well_named.
  - exact sample_typed.
  - discriminate.
  - repeat constructor; discriminate.
  - apply cstr_text. repeat constructor; discriminate.
Defined.

(** The category of the originator. *)
Example sample_component :
  MmsValue_getSubElement (Some sample_value) sample_specification (text (join [n_origin; n_orCat])) =
  Some (Some (MmsInteger (BerInteger.Build_Asn1PrimitiveValue 1 5 [2; 0; 0; 0; 0]))).
Proof. vm_compute. reflexivity. Qed.

End TypeSpec.
