(* ===== verification/Control.v ===== *)
(** * Controls

    [src/iec61850/server/mms_mapping/control.c]: the state machine of a controllable data object.
    Clients select, operate and cancel it by reading and writing its elements [SBO], [SBOw], [Oper]
    and [Cancel]; the server thread runs what they started.

    The functions run in a state monad over the control object and the parts of the mapping they
    touch.  What comes from outside - the clocks, the answers of the application's handlers - is an
    [Environment] that is asked by the number of the call; what leaves the component - messages,
    calls of the handlers, updates of attributes and of the service tracking - is the list [sent].
    [None] is undefined behaviour, as everywhere. *)

From stdpp Require Import list gmap.
From S2P Require Import Prelude StateMonad ServerCommon Alloc BerInteger MmsValue StringUtils IecCommon.
From coqutil Require Import Datatypes.RecordSettersUsingExistingGetters.

Module Control.
Export StateMonad ServerCommon.
Import Alloc MmsValue.
Import StringUtils (createStringInBuffer, strchr, text).
#[global] Arguments const {E} newValue _ /.

(** ** The control object *)

Inductive ControlState :=
  | STATE_UNSELECTED
  | STATE_READY
  | STATE_WAIT_FOR_ACTIVATION_TIME
  | STATE_PERFORM_TEST
  | STATE_WAIT_FOR_EXECUTION
  | STATE_OPERATE
  | STATE_WAIT_FOR_SELECT.

#[export] Instance ControlState_eq_dec : EqDecision ControlState.
Proof. solve_decision. Defined.

Definition PENDING_EVENT_SELECTED : Z := 1.
Definition PENDING_EVENT_UNSELECTED : Z := 2.
Definition PENDING_EVENT_OP_RCVD_TRUE : Z := 4.
Definition PENDING_EVENT_OP_RCVD_FALSE : Z := 8.
Definition PENDING_EVENT_OP_OK_TRUE : Z := 16.
Definition PENDING_EVENT_OP_OK_FALSE : Z := 32.

Definition CONTROL_ACCEPTED : Z := -1.
Definition CONTROL_WAITING_FOR_SELECT : Z := 0.
Definition CONTROL_HARDWARE_FAULT : Z := 1.
Definition CONTROL_TEMPORARILY_UNAVAILABLE : Z := 2.
Definition CONTROL_OBJECT_ACCESS_DENIED : Z := 3.
Definition CONTROL_OBJECT_UNDEFINED : Z := 4.
Definition CONTROL_VALUE_INVALID : Z := 11.

Definition CONTROL_RESULT_FAILED : Z := 0.
Definition CONTROL_RESULT_OK : Z := 1.
Definition CONTROL_RESULT_WAITING : Z := 2.

Definition CONTROL_ERROR_NO_ERROR : Z := 0.

Definition ADD_CAUSE_UNKNOWN : Z := 0.
Definition ADD_CAUSE_SELECT_FAILED : Z := 3.
Definition ADD_CAUSE_BLOCKED_BY_INTERLOCKING : Z := 10.
Definition ADD_CAUSE_BLOCKED_BY_SYNCHROCHECK : Z := 11.
Definition ADD_CAUSE_COMMAND_ALREADY_IN_EXECUTION : Z := 12.
Definition ADD_CAUSE_OBJECT_NOT_SELECTED : Z := 18.
Definition ADD_CAUSE_OBJECT_ALREADY_SELECTED : Z := 19.
Definition ADD_CAUSE_INCONSISTENT_PARAMETERS : Z := 26.
Definition ADD_CAUSE_LOCKED_BY_OTHER_CLIENT : Z := 27.

Definition CONFIG_CONTROL_DEFAULT_SBO_TIMEOUT : Z := 15000.

Inductive SelectStateChangedReason :=
  | SELECT_STATE_REASON_SELECTED | SELECT_STATE_REASON_CANCELED | SELECT_STATE_REASON_TIMEOUT
  | SELECT_STATE_REASON_OPERATED | SELECT_STATE_REASON_OPERATE_FAILED
  | SELECT_STATE_REASON_DISCONNECTED.

(** The common data class, for the service tracking. *)
Inductive ControlServiceCDC :=
  | CST_NONE | CST_SPCTRK | CST_DPCTRK | CST_INCTRK | CST_ENCTRK1 | CST_APCFTRK | CST_APCINTTRK | CST_BSCTRK
  | CST_ISCTRK | CST_BACTRK.

(** A domain is known by its address. *)
Record MmsDomain := { domain : nat; domainName : list Z }.

(** A pointer to a value is the value or [NULL]; a connection is its address.  Of the data
    attributes [stSeld], [opRcvd], [opOk] only the presence matters here, of [tOpOk] also the time
    stamp. *)
Record ControlObject := {
  mmsDomain : MmsDomain;
  lnName : list Z;
  name : list Z;
  state : ControlState;
  ctlModel : Z;
  pendingEvents : Z;
  testMode : bool;
  interlockCheck : bool;
  synchroCheck : bool;
  timeActivatedOperate : bool;
  isSelect : bool;
  addCauseValue : Z;
  errorValue : Z;
  mmsValue : option MmsValue;
  oper : option MmsValue;
  sbo : option MmsValue;
  sbow : option MmsValue;
  cancel : option MmsValue;
  ctlVal : option MmsValue;
  ctlNum : option MmsValue;
  origin : option MmsValue;
  T : list Z;
  ctlNumSt : option MmsValue;
  originSt : option MmsValue;
  stSeld : bool;
  opRcvd : bool;
  opOk : bool;
  tOpOk : option (list Z);
  error : option MmsValue;
  addCause : option MmsValue;
  selectTime : Z;
  selectTimeout : Z;
  sboClass : option MmsValue;
  sboTimeout : option MmsValue;
  operateTime : Z;
  mmsConnection : option nat;
  operateInvokeId : Z;
  cdc : ControlServiceCDC
}.

(** ** What the component exchanges with its surroundings *)

Inductive Attribute := STSELD | OPRCVD | OPOK.

Inductive Event :=
  | SelectStateChanged (isSelected : bool) (reason : SelectStateChangedReason)
  | PerformCheck (ctlVal : option MmsValue) (test interlockCheck : bool)
  | WaitForExecution (ctlVal : option MmsValue) (test synchroCheck : bool)
  | Operate (connection : option nat) (ctlVal : option MmsValue) (test : bool)
  | LastApplError (connection : option nat) (lastApplError : MmsValue) (handlerMode : bool)
  | InformationReport (connection : option nat) (variables : list (option (list Z) * list Z)) (values : list (option MmsValue))
  | ReadResponse (connection : option nat) (invokeId : Z) (values : list (option MmsValue))
  | WriteResponse (connection : option nat) (invokeId indication : Z) (handlerMode : bool)
  | UpdateAttribute (attribute : Attribute) (value : bool)
  | UpdateControlModel (value : Z)
  | Track (serviceType serviceError : Z).

(** What a handler returns, and the last values it gave to [ControlAction_setError] and
    [ControlAction_setAddCause]. *)
Record Answer := { result : Z; setError : option Z; setAddCause : option Z }.

(** The installed handlers may answer differently at every call.  [subElement] is the value of the
    control object's data at a path below [Oper], [SBOw] or [Cancel]. *)
Record Environment := {
  timeInMs : nat -> Z;
  monotonicTimeInMs : nat -> Z;
  checkHandler : option (nat -> option MmsValue -> bool -> bool -> Answer);
  waitForExecutionHandler : option (nat -> option MmsValue -> bool -> bool -> Answer);
  operateHandler : option (nat -> option MmsValue -> bool -> Answer);
  selectStateChangedHandler : bool;
  timeQuality : Z;
  subElement : list Z -> option MmsValue
}.

(** The mapping: [clientConnections] has the number of tasks of every connection the server knows,
    [calls] counts the questions to the environment, [memory] is the oracle of the allocations. *)
Record Mapping := {
  nextControlTimeout : Z;
  nextRealTimeControlTimeout : Z;
  clientConnections : gmap nat Z;
  calls : nat;
  memory : list bool;
  sent : list Event
}.

(** ** The monad *)

Abbreviation World := (ControlObject * Mapping)%type.
Abbreviation M := (StateMonad.M World).

Definition get {A} (f : ControlObject -> A) : M A := fun w => Some (f (fst w), w).
Definition modify (f : ControlObject -> ControlObject) : M unit := fun w => Some (tt, (f (fst w), snd w)).
Definition mapping_get {A} (f : Mapping -> A) : M A := fun w => Some (f (snd w), w).
Definition mapping_modify (f : Mapping -> Mapping) : M unit := fun w => Some (tt, (fst w, f (snd w))).

(** [self->f = v] *)
Notation "f <:= v" := (modify (set f (const v))) (at level 70).
Notation "f <[:= v" := (mapping_modify (set f (const v))) (at level 70).

Definition emit (e : Event) : M unit := mapping_modify (fun m => m <| sent := sent m ++ [e] |>).

(** The number of the next question to the environment. *)
Definition question : M nat := n ← mapping_get calls; calls <[:= S n;; mret n.

(** A function that allocates. *)
Definition allocating {A} (f : alloc A) : M A :=
  mem ← mapping_get memory; '(x, mem) ← lift (f mem); memory <[:= mem;; mret x.

Section Model.
Context (env : Environment).

Definition Hal_getTimeInMs : M Z := n ← question; mret (timeInMs env n).
Definition Hal_getMonotonicTimeInMs : M Z := n ← question; mret (monotonicTimeInMs env n).

(** ** The parameters of the services *)

Definition structure_element (p : MmsValue) (n i m j : Z) : option MmsValue :=
  match p with
  | MmsStructure cs =>
      if decide (zlen cs = n) then getElement p i else if decide (zlen cs = m) then getElement p j else None
  | _ => None
  end.

Definition getOperParameterCtlNum (p : MmsValue) : option MmsValue := structure_element p 7 3 6 2.
Definition getCancelParameterCtlNum (p : MmsValue) : option MmsValue := structure_element p 6 3 5 2.
Definition getCancelParameterOrigin (p : MmsValue) : option MmsValue := structure_element p 6 2 5 1.
Definition getOperParameterTest (p : MmsValue) : option MmsValue := structure_element p 7 5 6 4.
Definition getOperParameterCheck (p : MmsValue) : option MmsValue := structure_element p 7 6 6 5.
Definition getOperParameterOrigin (p : MmsValue) : option MmsValue := structure_element p 7 2 6 1.

Definition time_value (v : option MmsValue) : option MmsValue :=
  match v with Some (MmsUtcTime _) | Some (MmsBinaryTime _ _) => v | _ => None end.
Definition getOperParameterTime (p : MmsValue) : option MmsValue := time_value (structure_element p 7 4 6 3).

Definition getOperParameterOperTime (p : MmsValue) : option MmsValue :=
  match p with MmsStructure cs => if decide (zlen cs = 7) then getElement p 1 else None | _ => None end.

Definition getCtlVal (p : MmsValue) : option MmsValue :=
  match p with MmsStructure cs => if decide (zlen cs > 5) then getElement p 0 else None | _ => None end.

Definition checkValidityOfOriginParameter (origin : option MmsValue) : option bool :=
  origin ← origin;
  match origin with
  | MmsStructure cs =>
      if decide (zlen cs <> 2) then Some false
      else
        orIdent ← getElement origin 1;
        match orIdent with
        | MmsOctetString size _ _ =>
            if decide (size > 64) then Some false
            else
              orCat ← getElement origin 0;
              match orCat with
              | MmsInteger _ =>
                  orCatIntValue ← toInt32 orCat;
                  Some (negb (bool_decide (orCatIntValue < 0 \/ orCatIntValue > 8)))
              | _ => Some false
              end
        | _ => Some false
        end
  | _ => Some false
  end.

(** ** Service tracking *)

Definition convertCheckHandlerResultToServiceError (controlHandlerResult : Z) : Z :=
  if decide (controlHandlerResult = CONTROL_HARDWARE_FAULT) then IEC61850_SERVICE_ERROR_FAILED_DUE_TO_SERVER_CONSTRAINT
  else if decide (controlHandlerResult = CONTROL_TEMPORARILY_UNAVAILABLE) then IEC61850_SERVICE_ERROR_INSTANCE_IN_USE
  else if decide (controlHandlerResult = CONTROL_OBJECT_ACCESS_DENIED) then IEC61850_SERVICE_ERROR_ACCESS_VIOLATION
  else if decide (controlHandlerResult = CONTROL_OBJECT_UNDEFINED) then IEC61850_SERVICE_ERROR_INSTANCE_NOT_AVAILABLE
  else if decide (controlHandlerResult = CONTROL_VALUE_INVALID) then IEC61850_SERVICE_ERROR_PARAMETER_VALUE_INCONSISTENT
  else if decide (controlHandlerResult = CONTROL_WAITING_FOR_SELECT \/ controlHandlerResult = CONTROL_ACCEPTED)
    then IEC61850_SERVICE_ERROR_NO_ERROR
  else DATA_ACCESS_ERROR_UNKNOWN.

(** ** Time-outs, states and pending events *)

Definition updateNextControlTimeout (timeout : Z) : M unit :=
  t ← mapping_get nextControlTimeout; when (bool_decide (timeout < t)) (nextControlTimeout <[:= timeout).
Definition updateNextRealTimeControlTimeout (timeout : Z) : M unit :=
  t ← mapping_get nextRealTimeControlTimeout; when (bool_decide (timeout < t)) (nextRealTimeControlTimeout <[:= timeout).

Definition setState (newState : ControlState) : M unit := state <:= newState.
Definition getState : M ControlState := get state.

Definition set_pending (event : Z) : M unit := modify (fun o => o <| pendingEvents := Z.lor (pendingEvents o) event |>).

Definition setStSeld (value : bool) : M unit :=
  b ← get stSeld; when b (set_pending (if value then PENDING_EVENT_SELECTED else PENDING_EVENT_UNSELECTED)).
Definition setOpRcvd (value : bool) : M unit :=
  b ← get opRcvd; when b (set_pending (if value then PENDING_EVENT_OP_RCVD_TRUE else PENDING_EVENT_OP_RCVD_FALSE)).
Definition setOpOk (value : bool) (currentTimeInMs : Z) : M unit :=
  b ← get opOk;
  when b
    (if value then
       t ← get tOpOk;
       match t with
       | Some timestamp => t ← lift (setUtcTimeMsEx timestamp currentTimeInMs (timeQuality env)); tOpOk <:= Some t
       | None => mret tt
       end;;
       set_pending PENDING_EVENT_OP_OK_TRUE
     else set_pending PENDING_EVENT_OP_OK_FALSE).

Definition handle_pending (event : Z) (attribute : Attribute) (value : bool) (present : ControlObject -> bool) : M unit :=
  e ← get pendingEvents;
  when (bool_decide (Z.land e event <> 0))
    (b ← get present; when b (emit (UpdateAttribute attribute value));; pendingEvents <:= Z.land e (Z.lnot event)).

Definition ControlObject_handlePendingEvents : M unit :=
  e ← get pendingEvents;
  when (bool_decide (e > 0))
    (handle_pending PENDING_EVENT_SELECTED STSELD true stSeld;;
     handle_pending PENDING_EVENT_UNSELECTED STSELD false stSeld;;
     handle_pending PENDING_EVENT_OP_RCVD_TRUE OPRCVD true opRcvd;;
     handle_pending PENDING_EVENT_OP_RCVD_FALSE OPRCVD false opRcvd;;
     handle_pending PENDING_EVENT_OP_OK_TRUE OPOK true opOk;;
     handle_pending PENDING_EVENT_OP_OK_FALSE OPOK false opOk).

(** ** Selecting *)

Definition sbo_model (m : Z) : bool := bool_decide (m = 2 \/ m = 4).

Definition updateSboTimeoutValue : M unit :=
  t ← get sboTimeout;
  match t with
  | Some v => v ← lift (toInt32 v); selectTimeout <:= u32 v
  | None => selectTimeout <:= CONFIG_CONTROL_DEFAULT_SBO_TIMEOUT
  end.

Definition selectStateChanged (isSelected : bool) (reason : SelectStateChangedReason) : M unit :=
  when (selectStateChangedHandler env) (emit (SelectStateChanged isSelected reason)).

Definition selectObject (time : Z) (connection : option nat) : M unit :=
  updateSboTimeoutValue;;
  selectTime <:= time;;
  mmsConnection <:= connection;;
  setStSeld true;;
  setState STATE_READY;;
  updateNextControlTimeout time;;
  selectStateChanged true SELECT_STATE_REASON_SELECTED.

Definition unselectObject (reason : SelectStateChangedReason) : M unit :=
  s ← getState;
  when (bool_decide (s <> STATE_UNSELECTED))
    (setState STATE_UNSELECTED;;
     setStSeld false;;
     nextControlTimeout <[:= 0;;
     selectStateChanged false reason).

Definition checkSelectTimeout (currentMonotonicTimeInMs : Z) : M unit :=
  m ← get ctlModel; s ← getState; timeout ← get selectTimeout; time ← get selectTime;
  when (sbo_model m && bool_decide (s = STATE_READY) && bool_decide (timeout > 0))
    (if decide (currentMonotonicTimeInMs > u64 (time + timeout)) then unselectObject SELECT_STATE_REASON_TIMEOUT
     else updateNextControlTimeout (u64 (time + timeout))).

Definition isSboClassOperateOnce : M bool :=
  c ← get sboClass;
  match c with Some v => c ← lift (toInt32 v); mret (negb (bool_decide (c = 1))) | None => mret true end.

(** ** Tasks of a connection *)

(** [tasksCount] is an [int]. *)
Definition change_tasks (connection : option nat) (d : Z) : M bool :=
  cs ← mapping_get clientConnections;
  match (c ← connection; n ← cs !! c; Some (c, n)) with
  | Some (c, n) =>
      n ← lift (if decide (is_s32 (n + d)) then Some (n + d) else None);
      clientConnections <[:= <[c := n]> cs;; mret true
  | None => mret false
  end.

Definition initiateControlTask : M bool := c ← get mmsConnection; change_tasks c 1.
Definition exitControlTask : M unit := c ← get mmsConnection; _ ← change_tasks c (-1); mret tt.

Definition abortControlOperation (unconditional : bool) (reason : SelectStateChangedReason) : M unit :=
  m ← get ctlModel;
  (if sbo_model m then
     if unconditional then unselectObject reason
     else once ← isSboClassOperateOnce; if once : bool then unselectObject reason else setState STATE_READY
   else setState STATE_READY);;
  exitControlTask.

(** ** Messages to the client *)

Definition SLASH : list Z := text [47].
Definition DOLLAR : list Z := text [36].
Definition DCOD : list Z := text [36; 67; 79; 36].
Definition DOPER : list Z := text [36; 79; 112; 101; 114].
Definition OPER : list Z := text [79; 112; 101; 114].
Definition SBO : list Z := text [83; 66; 79].
Definition SBOW : list Z := text [83; 66; 79; 119].
Definition CANCEL : list Z := text [67; 97; 110; 99; 101; 108].
(** ["LastApplError"] *)
Definition LASTAPPLERROR : list Z := text [76; 97; 115; 116; 65; 112; 112; 108; 69; 114; 114; 111; 114].

(** [MmsValue_setInt32] of the value behind a pointer. *)
Definition set_int32 (v : option MmsValue) (i : Z) : option (option MmsValue) := v ← v; Some <$> setInt32 v i.

Definition resetAddCause : M unit :=
  addCauseValue <:= ADD_CAUSE_UNKNOWN;;
  v ← get addCause; v ← lift (set_int32 v ADD_CAUSE_UNKNOWN); addCause <:= v.

(** The structure in a message of the last application error; it stores the error and its cause. *)
Definition lastApplError (path : list (list Z)) (err cause : Z) (ctlNum origin : option MmsValue) : M MmsValue :=
  ctlObj ← lift (createStringInBuffer (fresh 130) 130 path);
  e ← get error; e ← lift (set_int32 e err); error <:= e;;
  a ← get addCause; a ← lift (set_int32 a cause); addCause <:= a;;
  mret (MmsStructure [Some (MmsVisibleString (Some ctlObj) 130); e; origin; ctlNum; a]).

Definition ControlObject_sendLastApplError (connection : option nat) (ctlVariable : list Z) (err cause : Z)
    (ctlNum origin : option MmsValue) (handlerMode : bool) : M unit :=
  d ← get mmsDomain; ln ← get lnName; n ← get name;
  v ← lastApplError [domainName d; SLASH; ln; DCOD; n; DOLLAR; ctlVariable] err cause ctlNum origin;
  emit (LastApplError connection v handlerMode);;
  addCauseValue <:= cause mod 64.

Definition ControlObject_sendCommandTerminationPositive : M unit :=
  d ← get mmsDomain; ln ← get lnName; n ← get name;
  itemId ← lift (createStringInBuffer (fresh 68) 68 [ln; DCOD; n; DOPER]);
  c ← get mmsConnection; v ← get oper;
  emit (InformationReport c [(Some (domainName d), itemId)] [v]).

Definition ControlObject_sendCommandTerminationNegative : M unit :=
  d ← get mmsDomain; ln ← get lnName; n ← get name;
  err ← get errorValue; cause ← get addCauseValue; o ← get origin; num ← get ctlNum;
  v ← lastApplError [domainName d; SLASH; ln; DCOD; n; DOPER] err cause num o;
  itemId ← lift (createStringInBuffer (fresh 130) 130 [ln; DCOD; n; DOPER]);
  c ← get mmsConnection; p ← get oper;
  emit (InformationReport c [(None, LASTAPPLERROR); (Some (domainName d), itemId)] [Some v; p]).

(** ** Handlers of the application *)

Definition ControlAction_setError (e : Z) : M unit := errorValue <:= e mod 4.
Definition ControlAction_setAddCause (c : Z) : M unit := addCauseValue <:= c mod 64.

Definition apply (a : Answer) : M Z :=
  match setError a with Some e => ControlAction_setError e | None => mret tt end;;
  match setAddCause a with Some c => ControlAction_setAddCause c | None => mret tt end;;
  mret (result a).

(** A call of [checkHandler], which must be installed. *)
Definition call_check (ctlVal : option MmsValue) (test interlock : bool) : M Z :=
  h ← lift (checkHandler env); n ← question;
  emit (PerformCheck ctlVal test interlock);; apply (h n ctlVal test interlock).

(** The operative tests, where the code looks whether the handler is installed; [before] is what it
    does then ahead of the call. *)
Definition perform_check (before : M unit) (ctlVal : option MmsValue) (test interlock : bool) : M Z :=
  match checkHandler env with
  | Some _ => before;; call_check ctlVal test interlock
  | None => mret CONTROL_ACCEPTED
  end.

(** The same for a selection. *)
Definition perform_select_check (before : M unit) (ctlVal : option MmsValue) (test interlock : bool) : M Z :=
  match checkHandler env with
  | Some _ => isSelect <:= true;; before;; r ← call_check ctlVal test interlock; isSelect <:= false;; mret r
  | None => mret CONTROL_ACCEPTED
  end.

Definition wait_for_execution : M Z :=
  v ← get ctlVal; test ← get testMode; synchro ← get synchroCheck;
  match waitForExecutionHandler env with
  | Some h => n ← question; emit (WaitForExecution v test synchro);; apply (h n v test synchro)
  | None => mret CONTROL_RESULT_OK
  end.

Definition operateControl (value : option MmsValue) (currentTime : Z) (testCondition : bool) : M Z :=
  selectTime <:= currentTime;;
  errorValue <:= CONTROL_ERROR_NO_ERROR;;
  addCauseValue <:= ADD_CAUSE_UNKNOWN;;
  match operateHandler env with
  | Some h =>
      n ← question; c ← get mmsConnection;
      emit (Operate c value testCondition);; apply (h n value testCondition)
  | None => mret CONTROL_RESULT_OK
  end.

(** ** Tasks *)

Definition emptyString : MmsValue := MmsVisibleString None 0.
Definition delayedResponse : MmsValue := MmsDataAccessError DATA_ACCESS_ERROR_NO_RESPONSE.

Definition track (serviceType serviceError : Z) : M unit := emit (Track serviceType serviceError).

Definition update_value (f : ControlObject -> option MmsValue) (g : option MmsValue -> M unit) (upd : option MmsValue) : M unit :=
  v ← get f; r ← allocating (MmsValue_update v upd); g (fst r).

(** [if (self->ctlNumSt) MmsValue_update(self->ctlNumSt, ...)], and [originSt]. *)
Definition update_status (num orig : option MmsValue) : M unit :=
  update_value ctlNumSt (fun v => ctlNumSt <:= v) num;;
  update_value originSt (fun v => originSt <:= v) orig.

(** The answer to a selection that the application has confirmed or refused later. *)
Definition select_answer (checkResult now : Z) : M unit :=
  c ← get mmsConnection; id ← get operateInvokeId;
  (if decide (checkResult = CONTROL_ACCEPTED) then
     selectObject now c;; track IEC61850_SERVICE_TYPE_SELECT IEC61850_SERVICE_ERROR_NO_ERROR
   else
     setState STATE_UNSELECTED;;
     track IEC61850_SERVICE_TYPE_SELECT (convertCheckHandlerResultToServiceError checkResult));;
  v ← get sbo;
  emit (ReadResponse c id [if decide (checkResult = CONTROL_ACCEPTED) then v else Some emptyString]).

Definition select_with_value_answer (checkResult now : Z) : M unit :=
  c ← get mmsConnection; id ← get operateInvokeId;
  if decide (checkResult = CONTROL_ACCEPTED) then
    selectObject now c;;
    num ← get ctlNum; orig ← get origin; update_status num orig;;
    emit (WriteResponse c id DATA_ACCESS_ERROR_SUCCESS false);;
    track IEC61850_SERVICE_TYPE_SELECT_WITH_VALUES IEC61850_SERVICE_ERROR_NO_ERROR
  else
    setState STATE_UNSELECTED;;
    err ← get errorValue; cause ← get addCauseValue; num ← get ctlNum; orig ← get origin;
    ControlObject_sendLastApplError c SBOW err cause num orig false;;
    emit (WriteResponse c id checkResult false);;
    track IEC61850_SERVICE_TYPE_SELECT_WITH_VALUES (convertCheckHandlerResultToServiceError checkResult);;
    resetAddCause.

Definition select_task (now : Z) : M unit :=
  isSelect <:= true;;
  errorValue <:= 0;;
  addCauseValue <:= ADD_CAUSE_SELECT_FAILED;;
  v ← get ctlVal; test ← get testMode; interlock ← get interlockCheck;
  checkHandlerResult ← call_check v test interlock;
  isSelect <:= false;;
  if decide (checkHandlerResult <> CONTROL_WAITING_FOR_SELECT) then
    m ← get ctlModel;
    if decide (m = 2) then select_answer checkHandlerResult now
    else if decide (m = 4) then select_with_value_answer checkHandlerResult now
    else setState STATE_WAIT_FOR_SELECT
  else updateNextControlTimeout (u64 (now + 100)).

(** The dynamic checks refuse the command. *)
Definition execution_refused (timeActivated : bool) : M unit :=
  err ← get errorValue; cause ← get addCauseValue; c ← get mmsConnection;
  when (bool_decide (err <> CONTROL_ERROR_NO_ERROR \/ cause <> ADD_CAUSE_UNKNOWN))
    (num ← get ctlNum; orig ← get origin; ControlObject_sendLastApplError c OPER err cause num orig false);;
  id ← get operateInvokeId;
  (if timeActivated then
     track IEC61850_SERVICE_TYPE_TIME_ACTIVATED_OPERATE IEC61850_SERVICE_ERROR_ACCESS_NOT_ALLOWED_IN_CURRENT_STATE
   else
     emit (WriteResponse c id DATA_ACCESS_ERROR_OBJECT_ACCESS_DENIED true);;
     track IEC61850_SERVICE_TYPE_OPERATE IEC61850_SERVICE_ERROR_ACCESS_NOT_ALLOWED_IN_CURRENT_STATE);;
  resetAddCause;;
  abortControlOperation false SELECT_STATE_REASON_OPERATE_FAILED;;
  exitControlTask.

(** [operTm] of [oper] back to zero. *)
Definition clear_operTm : M unit :=
  p ← get oper; p ← lift p;
  match p, getOperParameterOperTime p with
  | MmsStructure cs, Some (MmsUtcTime t) =>
      t ← lift (setUtcTime t 0); t ← lift (setUtcTimeQuality t (timeQuality env));
      oper <:= Some (MmsStructure (<[1%nat := Some (MmsUtcTime t)]> cs))
  | _, _ => lift None
  end.

Definition execution_starts (timeActivated : bool) : M unit :=
  c ← get mmsConnection; id ← get operateInvokeId;
  (if timeActivated then
     ControlObject_sendCommandTerminationPositive;;
     track IEC61850_SERVICE_TYPE_COMMAND_TERMINATION IEC61850_SERVICE_ERROR_NO_ERROR;;
     clear_operTm
   else
     emit (WriteResponse c id DATA_ACCESS_ERROR_SUCCESS true);;
     track IEC61850_SERVICE_TYPE_OPERATE IEC61850_SERVICE_ERROR_NO_ERROR);;
  setState STATE_OPERATE;;
  t ← Hal_getTimeInMs; setOpOk true t.

(** The result says whether the state machine is to run again. *)
Definition execution_task (timeActivated : bool) (now : Z) : M bool :=
  errorValue <:= CONTROL_ERROR_NO_ERROR;;
  addCauseValue <:= ADD_CAUSE_BLOCKED_BY_SYNCHROCHECK;;
  dynamicCheckResult ← wait_for_execution;
  if decide (dynamicCheckResult = CONTROL_RESULT_FAILED) then execution_refused timeActivated;; mret false
  else if decide (dynamicCheckResult = CONTROL_RESULT_OK) then execution_starts timeActivated;; mret true
  else updateNextControlTimeout (u64 (now + 10));; mret false.

Definition operate_task (now : Z) : M unit :=
  v ← get ctlVal; test ← get testMode;
  result ← operateControl v now test;
  if decide (result <> CONTROL_RESULT_WAITING) then
    m ← get ctlModel;
    (if decide (result = CONTROL_RESULT_OK) then
       when (bool_decide (m = 4 \/ m = 3))
         (ControlObject_sendCommandTerminationPositive;;
          track IEC61850_SERVICE_TYPE_COMMAND_TERMINATION IEC61850_SERVICE_ERROR_NO_ERROR);;
       abortControlOperation false SELECT_STATE_REASON_OPERATED
     else
       when (bool_decide (m = 4 \/ m = 3)) ControlObject_sendCommandTerminationNegative;;
       track IEC61850_SERVICE_TYPE_COMMAND_TERMINATION IEC61850_SERVICE_ERROR_FAILED_DUE_TO_SERVER_CONSTRAINT;;
       abortControlOperation false SELECT_STATE_REASON_OPERATE_FAILED);;
    exitControlTask;;
    t ← Hal_getTimeInMs; setOpOk false t;;
    resetAddCause
  else updateNextControlTimeout (u64 (now + 10)).

(** [goto executeStateMachine] is a round of the loop. *)
Fixpoint state_machine (fuel : nat) (now : Z) : M unit :=
  match fuel with
  | O => lift None
  | S fuel =>
      s ← getState;
      match s with
      | STATE_WAIT_FOR_SELECT => select_task now
      | STATE_WAIT_FOR_ACTIVATION_TIME => again ← execution_task true now; when again (state_machine fuel now)
      | STATE_WAIT_FOR_EXECUTION => again ← execution_task false now; when again (state_machine fuel now)
      | STATE_OPERATE => operate_task now
      | STATE_UNSELECTED | STATE_READY | STATE_PERFORM_TEST => mret tt
      end
  end.

(** Two rounds are enough: the first may end in [STATE_OPERATE], the second does not go back. *)
Definition executeControlTask (currentMonotonicTimeInMs : Z) : M unit := state_machine 2 currentMonotonicTimeInMs.

(** ** The cycle of the server thread *)

(** A time-activated command whose time has come. *)
Definition activate (now : Z) : M unit :=
  setOpRcvd true;;
  timeActivatedOperate <:= false;;
  v ← get ctlVal; test ← get testMode; interlock ← get interlockCheck;
  checkResult ← perform_check (errorValue <:= CONTROL_ERROR_NO_ERROR;; addCauseValue <:= ADD_CAUSE_BLOCKED_BY_INTERLOCKING)
    v test interlock;
  if decide (checkResult = CONTROL_ACCEPTED) then setOpRcvd false;; executeControlTask now
  else
    c ← get mmsConnection; err ← get errorValue; cause ← get addCauseValue; num ← get ctlNum; orig ← get origin;
    ControlObject_sendLastApplError c OPER err cause num orig false;;
    track IEC61850_SERVICE_TYPE_TIME_ACTIVATED_OPERATE (convertCheckHandlerResultToServiceError checkResult);;
    setOpRcvd false;;
    abortControlOperation false SELECT_STATE_REASON_OPERATE_FAILED;;
    resetAddCause.

Definition process_state (now : Z) : M unit :=
  s ← get state;
  match s with
  | STATE_UNSELECTED => mret tt
  | STATE_WAIT_FOR_ACTIVATION_TIME =>
      time ← get operateTime; t ← Hal_getTimeInMs;
      if decide (time <= t) then activate now else updateNextRealTimeControlTimeout time
  | STATE_READY => checkSelectTimeout now
  | _ => executeControlTask now
  end.

(** The round of the loop for one control object. *)
Definition process_object (now : Z) : M unit :=
  s ← get state; m ← get ctlModel;
  if bool_decide (s <> STATE_UNSELECTED) && bool_decide (m = 1 \/ m = 3) && bool_decide (s = STATE_READY) then mret tt
  else process_state now;; ControlObject_handlePendingEvents.

(** ** Closing and reconfiguring *)

Definition ControlObject_unselect (connection : nat) : M bool :=
  c ← get mmsConnection;
  if decide (c = Some connection) then abortControlOperation true SELECT_STATE_REASON_DISCONNECTED;; mret true
  else mret false.

(** [has_ctlModel]: the data object has an attribute [ctlModel]. *)
Definition ControlObject_updateControlModel (value : Z) (has_ctlModel : bool) : M unit :=
  ctlModel <:= u32 value mod 16;;
  m ← get ctlModel;
  (if sbo_model m then setState STATE_UNSELECTED else setState STATE_READY);;
  when has_ctlModel (emit (UpdateControlModel (s32 value))).

(** ** Select with value, operate, cancel

    Each returns the indication for the client and the service error for the tracking. *)

Definition read_T (t : option MmsValue) : M unit :=
  match t with
  | Some t =>
      old ← get T; new ← allocating (IecCommon.Timestamp_fromMmsValue (Some old) t);
      match new with Some new => T <:= new | None => mret tt end
  | None => mret tt
  end.

Definition updateControlParameters (val num orig : option MmsValue) (synchro interlock : bool) : M unit :=
  update_value ctlVal (fun v => ctlVal <:= v) val;;
  update_value ctlNum (fun v => ctlNum <:= v) num;;
  update_value origin (fun v => origin <:= v) orig;;
  synchroCheck <:= synchro;;
  interlockCheck <:= interlock;;
  update_status num orig.

(** The indication [indication] with a last application error. *)
Definition refuse (connection : nat) (ctlVariable : list Z) (cause : Z) (num orig : option MmsValue) (indication : Z) : M Z :=
  ControlObject_sendLastApplError (Some connection) ctlVariable CONTROL_ERROR_NO_ERROR cause num orig true;;
  mret indication.

(** The object was not selected: perform the tests and select it. *)
Definition select_with_value (connection : nat) (invokeId now : Z) (val num orig check test : option MmsValue) : M Z :=
  interlock ← lift (bitOf check 1); synchro ← lift (bitOf check 0); testCondition ← lift (booleanOf test);
  addCauseValue <:= ADD_CAUSE_SELECT_FAILED;;
  updateControlParameters val num orig synchro interlock;;
  testMode <:= testCondition;;
  checkResult ← perform_select_check (mmsConnection <:= Some connection) val testCondition interlock;
  if decide (checkResult = CONTROL_ACCEPTED) then
    selectObject now (Some connection);; mret DATA_ACCESS_ERROR_SUCCESS
  else if decide (checkResult = CONTROL_WAITING_FOR_SELECT) then
    mmsConnection <:= Some connection;;
    operateInvokeId <:= invokeId;;
    update_value ctlVal (fun v => ctlVal <:= v) val;;
    update_value ctlNum (fun v => ctlNum <:= v) num;;
    update_value origin (fun v => origin <:= v) orig;;
    setState STATE_WAIT_FOR_SELECT;;
    t ← Hal_getMonotonicTimeInMs; updateNextControlTimeout (u64 (t + 100));;
    mret DATA_ACCESS_ERROR_NO_RESPONSE
  else
    err ← get errorValue; cause ← get addCauseValue;
    ControlObject_sendLastApplError (Some connection) SBOW err cause num orig true;;
    mmsConnection <:= None;;
    mret checkResult.

Definition write_SBOw (value : MmsValue) (connection : nat) (invokeId : Z) : M Z :=
  m ← get ctlModel;
  if decide (m = 4) then
    update_value sbow (fun v => sbow <:= v) (Some value);;
    match getCtlVal value with
    | None => mret DATA_ACCESS_ERROR_OBJECT_ACCESS_DENIED
    | Some val =>
        let num := getOperParameterCtlNum value in
        let orig := getOperParameterOrigin value in
        valid ← lift (checkValidityOfOriginParameter orig);
        if valid : bool then
          read_T (getOperParameterTime value);;
          s ← getState;
          now ← Hal_getMonotonicTimeInMs;
          checkSelectTimeout now;;
          if decide (s = STATE_UNSELECTED) then
            select_with_value connection invokeId now (Some val) num orig (getOperParameterCheck value) (getOperParameterTest value)
          else if decide (s = STATE_OPERATE \/ s = STATE_WAIT_FOR_EXECUTION) then
            refuse connection SBOW ADD_CAUSE_COMMAND_ALREADY_IN_EXECUTION num orig DATA_ACCESS_ERROR_TEMPORARILY_UNAVAILABLE
          else refuse connection SBOW ADD_CAUSE_OBJECT_ALREADY_SELECTED num orig DATA_ACCESS_ERROR_TEMPORARILY_UNAVAILABLE
        else refuse connection SBOW ADD_CAUSE_SELECT_FAILED num orig DATA_ACCESS_ERROR_OBJECT_ACCESS_DENIED
    end
  else mret DATA_ACCESS_ERROR_OBJECT_ACCESS_DENIED.

(** The parameters are those of the selection. *)
Definition same_parameters (val num orig : MmsValue) (interlock synchro test : bool) : M bool :=
  v ← get ctlVal; o ← get origin; n ← get ctlNum;
  a ← lift (MmsValue_equals (Some val) v);
  if a : bool then
    b ← lift (MmsValue_equals (Some orig) o);
    if b : bool then
      c ← lift (MmsValue_equals (Some num) n);
      i ← get interlockCheck; s ← get synchroCheck; t ← get testMode;
      mret (c && bool_decide (i = interlock) && bool_decide (s = synchro) && bool_decide (t = test))
    else mret false
  else mret false.

(** The command is to be executed at a later time; the result is the new indication. *)
Definition operate_later (connection : nat) (val : MmsValue) (interlock synchro test : bool) : M Z :=
  timeActivatedOperate <:= true;;
  synchroCheck <:= synchro;;
  interlockCheck <:= interlock;;
  mmsConnection <:= Some connection;;
  checkResult ← perform_check (mret tt) (Some val) test interlock;
  if decide (checkResult = CONTROL_ACCEPTED) then
    _ ← initiateControlTask;
    setState STATE_WAIT_FOR_ACTIVATION_TIME;;
    t ← get operateTime; updateNextRealTimeControlTimeout t;;
    mret DATA_ACCESS_ERROR_SUCCESS
  else mret checkResult.

(** [operTm] of the command. *)
Definition operate_time (value : MmsValue) (connection : nat) (val : MmsValue) (interlock synchro test : bool) (indication : Z)
    : M Z :=
  match getOperParameterOperTime value with
  | Some operTm =>
      t ← lift (utcTimeOf (Some operTm));
      operateTime <:= t;;
      now ← Hal_getTimeInMs;
      if decide (t > now) then operate_later connection val interlock synchro test else mret indication
  | None => operateTime <:= 0;; mret indication
  end.

Definition operate_now (connection : nat) (invokeId : Z) (val : MmsValue) (num orig : option MmsValue) (interlock test : bool) : M Z :=
  setOpRcvd true;;
  errorValue <:= CONTROL_ERROR_NO_ERROR;;
  addCauseValue <:= ADD_CAUSE_UNKNOWN;;
  mmsConnection <:= Some connection;;
  checkResult ← perform_check (mret tt) (Some val) test interlock;
  if decide (checkResult = CONTROL_ACCEPTED) then
    mmsConnection <:= Some connection;;
    operateInvokeId <:= invokeId;;
    setState STATE_WAIT_FOR_EXECUTION;;
    setOpRcvd false;;
    _ ← initiateControlTask;
    t ← Hal_getMonotonicTimeInMs; updateNextControlTimeout t;;
    mret DATA_ACCESS_ERROR_NO_RESPONSE
  else
    setOpRcvd false;;
    abortControlOperation false SELECT_STATE_REASON_OPERATE_FAILED;;
    err ← get errorValue; cause ← get addCauseValue;
    ControlObject_sendLastApplError (Some connection) OPER err cause num orig true;;
    mret checkResult.

(** [Oper] in [STATE_READY], after the checks of the selection. *)
Definition operate (value : MmsValue) (connection : nat) (invokeId : Z) (val num orig : MmsValue) (interlock synchro test : bool) : M Z :=
  testMode <:= test;;
  updateControlParameters (Some val) (Some num) (Some orig) synchro interlock;;
  indication ← operate_time value connection val interlock synchro test DATA_ACCESS_ERROR_OBJECT_ACCESS_DENIED;
  update_value oper (fun v => oper <:= v) (Some value);;
  later ← get timeActivatedOperate;
  if later : bool then mret indication
  else operate_now connection invokeId val (Some num) (Some orig) interlock test.

Definition operate_ready (value : MmsValue) (connection : nat) (invokeId : Z) (val num orig check test : MmsValue) : M Z :=
  interlock ← lift (bitOf (Some check) 1); synchro ← lift (bitOf (Some check) 0); testCondition ← lift (booleanOf (Some test));
  m ← get ctlModel; c ← get mmsConnection;
  if sbo_model m && bool_decide (c <> Some connection) then
    refuse connection OPER ADD_CAUSE_LOCKED_BY_OTHER_CLIENT (Some num) (Some orig) DATA_ACCESS_ERROR_TEMPORARILY_UNAVAILABLE
  else
    same ← (if decide (m = 4) then same_parameters val num orig interlock synchro testCondition else mret true);
    if same : bool then operate value connection invokeId val num orig interlock synchro testCondition
    else
      r ← refuse connection OPER ADD_CAUSE_INCONSISTENT_PARAMETERS (Some num) (Some orig) DATA_ACCESS_ERROR_OBJECT_ACCESS_DENIED;
      unselectObject SELECT_STATE_REASON_OPERATE_FAILED;;
      mret r.

Definition write_Oper (value : MmsValue) (connection : nat) (invokeId : Z) : M (Z * Z) :=
  match getCtlVal value, getOperParameterTest value, getOperParameterCtlNum value, getOperParameterOrigin value,
    getOperParameterCheck value, getOperParameterTime value with
  | Some val, Some test, Some num, Some orig, Some check, Some time =>
      read_T (Some time);;
      valid ← lift (checkValidityOfOriginParameter (Some orig));
      if valid : bool then
        now ← Hal_getMonotonicTimeInMs;
        checkSelectTimeout now;;
        s ← getState;
        match s with
        | STATE_WAIT_FOR_ACTIVATION_TIME | STATE_OPERATE | STATE_WAIT_FOR_EXECUTION =>
            r ← refuse connection OPER ADD_CAUSE_COMMAND_ALREADY_IN_EXECUTION (Some num) (Some orig)
                  DATA_ACCESS_ERROR_TEMPORARILY_UNAVAILABLE;
            mret (r, IEC61850_SERVICE_ERROR_NO_ERROR)
        | STATE_READY =>
            r ← operate_ready value connection invokeId val num orig check test; mret (r, IEC61850_SERVICE_ERROR_NO_ERROR)
        | STATE_UNSELECTED =>
            r ← refuse connection OPER ADD_CAUSE_OBJECT_NOT_SELECTED (Some num) (Some orig) DATA_ACCESS_ERROR_OBJECT_ACCESS_DENIED;
            mret (r, IEC61850_SERVICE_ERROR_CONTROL_MUST_BE_SELECTED)
        | STATE_PERFORM_TEST | STATE_WAIT_FOR_SELECT =>
            mret (DATA_ACCESS_ERROR_OBJECT_ACCESS_DENIED, IEC61850_SERVICE_ERROR_NO_ERROR)
        end
      else
        r ← refuse connection OPER ADD_CAUSE_INCONSISTENT_PARAMETERS (Some num) (Some orig) DATA_ACCESS_ERROR_OBJECT_ACCESS_DENIED;
        m ← get ctlModel;
        when (sbo_model m) (unselectObject SELECT_STATE_REASON_OPERATE_FAILED);;
        mret (r, IEC61850_SERVICE_ERROR_NO_ERROR)
  | _, _, _, _, _, _ => mret (DATA_ACCESS_ERROR_OBJECT_ACCESS_DENIED, IEC61850_SERVICE_ERROR_NO_ERROR)
  end.

(** What is left of [Cancel] when the selection did not decide it. *)
Definition cancel_later (indication : Z) : M Z :=
  later ← get timeActivatedOperate;
  if later : bool then
    timeActivatedOperate <:= false;;
    abortControlOperation false SELECT_STATE_REASON_CANCELED;;
    mret DATA_ACCESS_ERROR_SUCCESS
  else mret indication.

Definition write_Cancel (value : MmsValue) (connection : nat) : M Z :=
  s ← getState;
  match getCancelParameterCtlNum value, getCancelParameterOrigin value with
  | Some num, Some orig =>
      if decide (s = STATE_OPERATE \/ s = STATE_WAIT_FOR_EXECUTION) then
        refuse connection CANCEL ADD_CAUSE_COMMAND_ALREADY_IN_EXECUTION (Some num) (Some orig) DATA_ACCESS_ERROR_TEMPORARILY_UNAVAILABLE
      else
        m ← get ctlModel;
        if sbo_model m then
          if decide (s = STATE_UNSELECTED) then cancel_later DATA_ACCESS_ERROR_SUCCESS
          else
            c ← get mmsConnection;
            if decide (c = Some connection) then
              unselectObject SELECT_STATE_REASON_CANCELED;; mret DATA_ACCESS_ERROR_SUCCESS
            else
              r ← refuse connection CANCEL ADD_CAUSE_LOCKED_BY_OTHER_CLIENT (Some num) (Some orig)
                    DATA_ACCESS_ERROR_TEMPORARILY_UNAVAILABLE;
              cancel_later r
        else cancel_later DATA_ACCESS_ERROR_OBJECT_ACCESS_DENIED
  | _, _ => mret DATA_ACCESS_ERROR_OBJECT_ACCESS_DENIED
  end.

(** The element of [varName] decides the service; the result has the indication, the service
    error and the service type. *)
Definition write_request (varName : list Z) (value : MmsValue) (connection : nat) (invokeId : Z) : M (Z * Z * Z) :=
  m ← get ctlModel;
  if decide (m = 0) then mret (DATA_ACCESS_ERROR_OBJECT_ACCESS_DENIED, IEC61850_SERVICE_ERROR_NO_ERROR, IEC61850_SERVICE_TYPE_UNKOWN)
  else
    b ← lift (strcmp varName SBOW);
    if b : bool then
      r ← write_SBOw value connection invokeId; mret (r, IEC61850_SERVICE_ERROR_NO_ERROR, IEC61850_SERVICE_TYPE_SELECT_WITH_VALUES)
    else
      b ← lift (strcmp varName OPER);
      if b : bool then r ← write_Oper value connection invokeId; mret (r, IEC61850_SERVICE_TYPE_OPERATE)
      else
        b ← lift (strcmp varName CANCEL);
        if b : bool then
          r ← write_Cancel value connection; mret (r, IEC61850_SERVICE_ERROR_NO_ERROR, IEC61850_SERVICE_TYPE_CANCEL)
        else mret (DATA_ACCESS_ERROR_OBJECT_ACCESS_DENIED, IEC61850_SERVICE_ERROR_NO_ERROR, IEC61850_SERVICE_TYPE_UNKOWN).

(** A write access to a control object that was found. *)
Definition write_object (varName : list Z) (value : MmsValue) (connection : nat) (invokeId : Z) : M Z :=
  '(indication, serviceError, serviceType) ← write_request varName value connection invokeId;
  (if decide (serviceError = IEC61850_SERVICE_ERROR_NO_ERROR) then
     when (bool_decide (indication <> DATA_ACCESS_ERROR_NO_RESPONSE))
       (track serviceType (private_IedServer_convertMmsDataAccessErrorToServiceError indication))
   else track serviceType serviceError);;
  resetAddCause;;
  mret indication.

(** ** Reading *)

(** A read access to [SBO] selects the object; the value is the answer. *)
Definition read_SBO (connection : nat) (invokeId : Z) (isDirectAccess : bool) : M (option MmsValue) :=
  m ← get ctlModel;
  if decide (m = 2) then
    now ← Hal_getMonotonicTimeInMs;
    if isDirectAccess then
      checkSelectTimeout now;;
      s ← getState;
      if decide (s = STATE_UNSELECTED) then
        addCauseValue <:= ADD_CAUSE_UNKNOWN;;
        mmsConnection <:= Some connection;;
        checkResult ← perform_select_check (mret tt) None false false;
        if decide (checkResult = CONTROL_ACCEPTED) then
          selectObject now (Some connection);;
          v ← get sbo;
          track IEC61850_SERVICE_TYPE_SELECT IEC61850_SERVICE_ERROR_NO_ERROR;;
          mret v
        else if decide (checkResult = CONTROL_WAITING_FOR_SELECT) then
          mmsConnection <:= Some connection;;
          operateInvokeId <:= invokeId;;
          setState STATE_WAIT_FOR_SELECT;;
          mret (Some delayedResponse)
        else
          track IEC61850_SERVICE_TYPE_SELECT (convertCheckHandlerResultToServiceError checkResult);;
          mret (Some emptyString)
      else mret (Some emptyString)
    else mret (Some emptyString)
  else mret (Some emptyString).

Definition read_object (varName : option (list Z)) (connection : nat) (invokeId : Z) (isDirectAccess : bool) : M (option MmsValue) :=
  match varName with
  | None => get mmsValue
  | Some varName =>
      b ← lift (strcmp varName OPER);
      if b : bool then get oper
      else
        b ← lift (strcmp varName SBOW);
        if b : bool then get sbow
        else
          b ← lift (strcmp varName SBO);
          if b : bool then read_SBO connection invokeId isDirectAccess
          else
            b ← lift (strcmp varName CANCEL);
            if b : bool then get cancel else mret (subElement env varName)
  end.

(** ** The control objects of a mapping *)

Fixpoint lookup_loop (objs : list ControlObject) (i : nat) (d : nat) (ln obj : list Z) : option (option nat) :=
  match objs with
  | [] => Some None
  | o :: objs =>
      if decide (domain (mmsDomain o) = d) then
        b ← strcmp (lnName o) ln;
        if b : bool then
          b ← strcmp (name o) obj;
          if b : bool then Some (Some i) else lookup_loop objs (S i) d ln obj
        else lookup_loop objs (S i) d ln obj
      else lookup_loop objs (S i) d ln obj
  end.

(** The position of the object in the list, or [NULL]. *)
Definition Control_lookupControlObject (objs : list ControlObject) (d : nat) (ln obj : list Z) : option (option nat) :=
  lookup_loop objs 0 d ln obj.

(** Run an operation on the control object at a position. *)
Definition on_object {A} (i : nat) (m : M A) (objs : list ControlObject) (self : Mapping) : option (A * (list ControlObject * Mapping)) :=
  o ← objs !! i; '(x, (o, self)) ← m (o, self); Some (x, (<[i := o]> objs, self)).

Fixpoint for_objects {A} (m : M A) (objs : list ControlObject) (self : Mapping) : option (list ControlObject * Mapping) :=
  match objs with
  | [] => Some ([], self)
  | o :: objs => '(_, (o, self)) ← m (o, self); '(objs, self) ← for_objects m objs self; Some (o :: objs, self)
  end.

Definition unselectControlsForConnection (connection : nat) (objs : list ControlObject) (self : Mapping)
    : option (list ControlObject * Mapping) :=
  for_objects (ControlObject_unselect connection) objs self.

Definition NO_TIMEOUT : Z := 0xFFFFFFFFFFFFFFFF.

Definition Control_processControlActions (currentMonotonicTimeInMs : Z) (objs : list ControlObject) (self : Mapping)
    : option (list ControlObject * Mapping) :=
  let currentRealTimeInMs := timeInMs env (calls self) in
  let self := self <| calls := S (calls self) |> in
  if decide (currentMonotonicTimeInMs >= nextControlTimeout self \/ currentRealTimeInMs >= nextRealTimeControlTimeout self) then
    let self := self <| nextControlTimeout := NO_TIMEOUT |> <| nextRealTimeControlTimeout := NO_TIMEOUT |> in
    for_objects (process_object currentMonotonicTimeInMs) objs self
  else Some (objs, self).

(** ** Names of variables *)

Fixpoint doesElementEquals_loop (fuel : nat) (buf : list Z) (element : Z) (name : list Z) (i : Z) : option bool :=
  match fuel with
  | O => None
  | S fuel =>
      n ← name.[i]; e ← buf.[element + i];
      if decide (n <> 0) then
        if decide (e = 0) then Some false
        else if decide (e <> n) then Some false
        else doesElementEquals_loop fuel buf element name (i + 1)
      else Some (negb (bool_decide (e <> 0 /\ e <> 36)))
  end.

Definition doesElementEquals (buf : list Z) (element : Z) (name : list Z) : option bool :=
  doesElementEquals_loop (S (length name)) buf element name 0.

Definition is_service (buf : list Z) (element : Z) : option bool :=
  a ← doesElementEquals buf element OPER;
  if a : bool then Some true else
  b ← doesElementEquals buf element SBO;
  if b : bool then Some true else
  c ← doesElementEquals buf element SBOW;
  if c : bool then Some true else doesElementEquals buf element CANCEL.

(** The element of the service; the separator in front of it becomes the end of the object's name. *)
Fixpoint find_service (fuel : nat) (buf : list Z) (varName : Z) : option (list Z * option Z) :=
  match fuel with
  | O => None
  | S fuel =>
      b ← is_service buf varName;
      if b : bool then buf ← buf.[varName - 1]:= 0; Some (buf, Some varName)
      else
        nextVarName ← MmsMapping_getNextNameElement buf varName;
        match nextVarName with Some next => find_service fuel buf next | None => Some (buf, None) end
  end.

(** The name of the logical node is at the start of the buffer, then come the positions of the
    name of the object and of the service; [None] inside: the name has too few elements. *)
Definition parse_variable (size : Z) (variableIdOrig : list Z) : option (option (list Z * Z * option Z)) :=
  variableId ← copyStringMax (fresh size) size variableIdOrig;
  separator ← strchr variableId 0 36;
  match separator with
  | None => Some None
  | Some separator =>
      variableId ← variableId.[separator]:= 0;
      objectName ← MmsMapping_getNextNameElement variableId (separator + 1);
      match objectName with
      | None => Some None
      | Some objectName =>
          varName ← MmsMapping_getNextNameElement variableId objectName;
          match varName with
          | None => Some (Some (variableId, objectName, None))
          | Some varName =>
              '(variableId, varName) ← find_service (S (length variableId)) variableId varName;
              Some (Some (variableId, objectName, varName))
          end
      end
  end.

Definition at_ (buf : list Z) (p : Z) : list Z := drop (Z.to_nat p) buf.

Definition Control_readAccessControlObject (d : nat) (variableIdOrig : list Z) (connection : nat) (invokeId : Z) (isDirectAccess : bool)
    (objs : list ControlObject) (self : Mapping) : option (option MmsValue * (list ControlObject * Mapping)) :=
  p ← parse_variable 129 variableIdOrig;
  match p with
  | None => Some (None, (objs, self))
  | Some (buf, objectName, varName) =>
      i ← Control_lookupControlObject objs d buf (at_ buf objectName);
      match i with
      | Some i => on_object i (read_object (at_ buf <$> varName) connection invokeId isDirectAccess) objs self
      | None => Some (None, (objs, self))
      end
  end.

Definition Control_writeAccessControlObject (d : nat) (variableIdOrig : list Z) (value : MmsValue) (connection : nat) (invokeId : Z)
    (objs : list ControlObject) (self : Mapping) : option (Z * (list ControlObject * Mapping)) :=
  let denied := Some (DATA_ACCESS_ERROR_OBJECT_ACCESS_DENIED, (objs, self)) in
  p ← parse_variable 65 variableIdOrig;
  match p with
  | Some (buf, objectName, Some varName) =>
      i ← Control_lookupControlObject objs d buf (at_ buf objectName);
      match i with
      | Some i => on_object i (write_object (at_ buf varName) value connection invokeId) objs self
      | None => denied
      end
  | _ => denied
  end.

(** ** What the handlers may ask *)

Definition ControlAction_getOrCat (self : ControlObject) : option Z :=
  match origin self with
  | Some o => match getElement o 0 with Some orCat => toInt32 orCat | None => Some 0 end
  | None => Some 0
  end.

(** The octets and their number. *)
Definition ControlAction_getOrIdent (self : ControlObject) : option (Z * list Z) :=
  o ← origin self; orIdent ← getElement o 1;
  match orIdent with MmsOctetString size _ buf => Some (size, buf) | _ => None end.

Definition ControlAction_getCtlNum (self : ControlObject) : option Z :=
  match ctlNum self with Some n => toInt32 n | None => Some (-1) end.
Definition ControlAction_getSynchroCheck (self : ControlObject) : bool := synchroCheck self.
Definition ControlAction_getInterlockCheck (self : ControlObject) : bool := interlockCheck self.
Definition ControlAction_isSelect (self : ControlObject) : bool := isSelect self.
Definition ControlAction_getControlTime (self : ControlObject) : Z := operateTime self.
Definition ControlAction_getT (self : ControlObject) : list Z := T self.

End Model.

(** ** Creation

    [ctlValDefault] and [originDefault] are the default values for the types of these elements;
    the values of other elements and the attributes of the data model are looked up by their names. *)
Section Creation.
Context (env : Environment).
Context (ctlValDefault originDefault : alloc (option MmsValue)).
Context (getValueFromCache : MmsDomain -> list Z -> option MmsValue).
Context (attributeType : list Z -> option Z) (timestampOf : list Z -> list Z).

Local Open Scope alloc_scope.

Definition ControlObject_create (d : MmsDomain) (ln : list Z) (objectName : list Z) : alloc (option ControlObject) :=
  ok <~ malloc;
  if (ok : bool) then
    stateLock <~ malloc; pendingEventsLock <~ malloc;
    if (stateLock : bool) && (pendingEventsLock : bool) then
      nm <~ StringUtils.copyString (Some objectName);
      match nm with
      | None => m_ret None
      | Some nm =>
          v <~ ctlValDefault; o <~ originDefault; n <~ newUnsigned 8;
          m_ret (Some {|
            mmsDomain := d; lnName := ln; name := nm; state := STATE_UNSELECTED; ctlModel := 0; pendingEvents := 0;
            testMode := false; interlockCheck := false; synchroCheck := false; timeActivatedOperate := false; isSelect := false;
            addCauseValue := 0; errorValue := 0; mmsValue := None; oper := None; sbo := None; sbow := None; cancel := None;
            ctlVal := v; ctlNum := n; origin := o; T := replicate 8 0; ctlNumSt := None; originSt := None;
            stSeld := false; opRcvd := false; opOk := false; tOpOk := None; error := None; addCause := None;
            selectTime := 0; selectTimeout := 0; sboClass := None; sboTimeout := None; operateTime := 0;
            mmsConnection := None; operateInvokeId := 0; cdc := CST_NONE |})
      end
    else m_ret None
  else m_ret None.

Local Close Scope alloc_scope.

Definition IEC61850_UNKNOWN_TYPE : Z := -1.
Definition IEC61850_BOOLEAN : Z := 0.
Definition IEC61850_INT8 : Z := 1.
Definition IEC61850_INT32 : Z := 3.
Definition IEC61850_FLOAT32 : Z := 10.
Definition IEC61850_FLOAT64 : Z := 11.
Definition IEC61850_ENUMERATED : Z := 12.
Definition IEC61850_TIMESTAMP : Z := 22.
Definition IEC61850_CODEDENUM : Z := 25.
Definition IEC61850_CONSTRUCTED : Z := 27.

Definition DOT : list Z := text [46].
Definition DCF : list Z := text [36; 67; 70; 36].
Definition DST : list Z := text [36; 83; 84; 36].
Definition DMX : list Z := text [36; 77; 88; 36].
Definition D_CTLMODEL : list Z := text [36; 99; 116; 108; 77; 111; 100; 101; 108].
Definition D_SBOCLASS : list Z := text [36; 115; 98; 111; 67; 108; 97; 115; 115].
Definition D_SBOTIMEOUT : list Z := text [36; 115; 98; 111; 84; 105; 109; 101; 111; 117; 116].
Definition D_CTLNUM : list Z := text [36; 99; 116; 108; 78; 117; 109].
Definition D_ORIGIN : list Z := text [36; 111; 114; 105; 103; 105; 110].
Definition P_OPER_CTLVAL : list Z := text [46; 79; 112; 101; 114; 46; 99; 116; 108; 86; 97; 108].
Definition P_STVAL : list Z := text [46; 115; 116; 86; 97; 108].
Definition P_MXVAL_F : list Z := text [46; 109; 120; 86; 97; 108; 46; 102].
Definition P_MXVAL_I : list Z := text [46; 109; 120; 86; 97; 108; 46; 105].
Definition P_VALWTR : list Z := text [46; 118; 97; 108; 87; 84; 114].
Definition P_STSELD : list Z := text [46; 115; 116; 83; 101; 108; 100].
Definition P_OPRCVD : list Z := text [46; 111; 112; 82; 99; 118; 100].
Definition P_OPOK : list Z := text [46; 111; 112; 79; 107].
Definition P_TOPOK : list Z := text [46; 116; 79; 112; 79; 107].

(** The value of [<lnName><fc><name><element>] in the cache of the MMS server. *)
Definition cached (fc element : list Z) : M (option MmsValue) :=
  d ← get mmsDomain; ln ← get lnName; n ← get name;
  item ← lift (createStringInBuffer (fresh 130) 130 [ln; fc; n; element]);
  mret (getValueFromCache d item).

(** The element of a status, or else of a measured value. *)
Definition cached_status (element : list Z) : M (option MmsValue) :=
  v ← cached DST element;
  match v with Some v => mret (Some v) | None => cached DMX element end.

(** The reference of an attribute of the object. *)
Definition reference (path : list Z) : M (list Z) :=
  d ← get mmsDomain; ln ← get lnName; n ← get name;
  lift (createStringInBuffer (fresh 130) 130 [domainName d; SLASH; ln; DOT; n; path]).
Definition attribute (path : list Z) : M (option Z) := r ← reference path; mret (attributeType r).

Definition classify (ctlValType stValType mxValType : Z) : ControlServiceCDC :=
  if decide (stValType = IEC61850_BOOLEAN /\ ctlValType = IEC61850_BOOLEAN) then CST_SPCTRK
  else if decide (stValType = IEC61850_CODEDENUM /\ ctlValType = IEC61850_BOOLEAN) then CST_DPCTRK
  else if decide (stValType = IEC61850_INT32 /\ ctlValType = IEC61850_INT32) then CST_INCTRK
  else if decide (stValType = IEC61850_ENUMERATED /\ ctlValType = IEC61850_ENUMERATED) then CST_ENCTRK1
  else if decide (stValType = IEC61850_CONSTRUCTED /\ ctlValType = IEC61850_CODEDENUM) then CST_BSCTRK
  else if decide (stValType = IEC61850_CONSTRUCTED /\ ctlValType = IEC61850_INT8) then CST_ISCTRK
  else if decide ((mxValType = IEC61850_FLOAT32 \/ mxValType = IEC61850_FLOAT64) /\ ctlValType = IEC61850_CONSTRUCTED) then CST_APCFTRK
  else if decide (mxValType = IEC61850_INT32 /\ ctlValType = IEC61850_CONSTRUCTED) then CST_APCINTTRK
  else if decide ((stValType = IEC61850_FLOAT32 \/ stValType = IEC61850_FLOAT64) /\ ctlValType = IEC61850_CODEDENUM) then CST_BACTRK
  else CST_NONE.

Definition determine_cdc : M unit :=
  c ← attribute P_OPER_CTLVAL; s ← attribute P_STVAL;
  f ← attribute P_MXVAL_F; i ← attribute P_MXVAL_I; t ← attribute P_VALWTR;
  let mx := match t with Some t => t | None => match i with Some i => i | None => default IEC61850_UNKNOWN_TYPE f end end in
  cdc <:= classify (default IEC61850_UNKNOWN_TYPE c) (default IEC61850_UNKNOWN_TYPE s) mx.

(** The attribute is there and boolean. *)
Definition boolean_attribute (path : list Z) : M bool := a ← attribute path; mret (bool_decide (a = Some IEC61850_BOOLEAN)).

Definition set_model (model : option MmsValue) : M unit :=
  match model with
  | Some v =>
      m ← lift (toInt32 v);
      let m := if decide (m < 0 \/ m > 4) then 1 else m in
      ctlModel <:= m;;
      if decide (m = 2 \/ m = 4) then setState STATE_UNSELECTED else setState STATE_READY
  | None => mret tt
  end.

Definition ControlObject_initialize : M unit :=
  model ← cached DCF D_CTLMODEL;
  v ← cached DCF D_SBOCLASS; sboClass <:= v;;
  v ← cached_status D_CTLNUM; ctlNumSt <:= v;;
  v ← cached_status D_ORIGIN; originSt <:= v;;
  v ← cached DCF D_SBOTIMEOUT; sboTimeout <:= v;;
  updateSboTimeoutValue;;
  s ← get sbo;
  match s with
  | Some s =>
      d ← get mmsDomain; ln ← get lnName; n ← get name;
      r ← lift (createStringInBuffer (fresh 130) 130 [domainName d; SLASH; ln; DCOD; n]);
      s ← allocating (setVisibleString s (Some r)); sbo <:= Some s
  | None => mret tt
  end;;
  determine_cdc;;
  b ← boolean_attribute P_STSELD; stSeld <:= b;;
  b ← boolean_attribute P_OPRCVD; opRcvd <:= b;;
  b ← boolean_attribute P_OPOK; opOk <:= b;;
  r ← reference P_TOPOK;
  tOpOk <:= (if decide (attributeType r = Some IEC61850_TIMESTAMP) then Some (timestampOf r) else None);;
  v ← allocating (newIntegerFromInt32 0); error <:= v;;
  v ← allocating (newIntegerFromInt32 0); addCause <:= v;;
  set_model model.

End Creation.

End Control.
