(* ===== verification/ControlSafety.v ===== *)
(** * Safety of controls

    Laws of the operations of [Control.v]: a command is executed only when a client that was allowed
    to has given it, and the states of a control object stay consistent.

    Every law relates the worlds before and after an operation; the relations are preorders, so they
    hold for a program when they hold for its steps, and [within_solve] takes a program apart. *)

From stdpp Require Import list gmap.
From S2P Require Import Prelude Alloc BerInteger MmsValue StringUtils Control.
From coqutil Require Import Datatypes.RecordSettersUsingExistingGetters.

Module ControlSafety.
Import Alloc MmsValue Control.
Import StringUtils (text).

(** ** Reasoning about the operations *)

Section Within.
Context {R : relation World} `{!PreOrder R}.
Lemma within_get {A} (f : ControlObject -> A) : within R (get f).
Proof. by intros w ? ? [= <- <-]. Qed.
Lemma within_mapping_get {A} (f : Mapping -> A) : within R (mapping_get f).
Proof. by intros w ? ? [= <- <-]. Qed.
End Within.

Lemma post_get {A} (f : ControlObject -> A) w (Q : A -> World -> Prop) : Q (f (fst w)) w -> post (get f) w Q.
Proof. by intros H ? ? [= <- <-]. Qed.
Lemma post_modify f w (Q : unit -> World -> Prop) : Q tt (f (fst w), snd w) -> post (modify f) w Q.
Proof. by intros H ? ? [= <- <-]. Qed.

(** What decides about the execution of commands. *)
Definition is_operation (e : Event) : bool := match e with Operate _ _ _ => true | _ => false end.
Definition operations (l : list Event) : list Event := filter (fun e => is_operation e = true) l.
Definition view (w : World) :=
  (state (fst w), ctlModel (fst w), mmsConnection (fst w), ctlVal (fst w), testMode (fst w), operations (sent (snd w))).

(** A command was accepted and is not finished. *)
Definition busy (w : World) : bool :=
  bool_decide (state (fst w) = STATE_WAIT_FOR_ACTIVATION_TIME \/ state (fst w) = STATE_WAIT_FOR_EXECUTION \/ state (fst w) = STATE_OPERATE).

(** The relations below, from the strongest on: nothing that matters changes; a command may be
    ended; an object without command stays so; a command may be executed. *)
Definition keeps (w w' : World) : Prop := view w' = view w.
Definition calm (w w' : World) : Prop :=
  operations (sent (snd w')) = operations (sent (snd w)) /\ (view w' = view w \/ busy w' = false).
Definition idles (w w' : World) : Prop :=
  busy w = false -> busy w' = false /\ operations (sent (snd w')) = operations (sent (snd w)).
Definition command (w : World) := (mmsConnection (fst w), ctlVal (fst w), testMode (fst w)).
Definition runs_command (w w' : World) : Prop :=
  (busy w' = true -> busy w = true /\ command w' = command w) /\
  exists n, operations (sent (snd w')) = operations (sent (snd w)) ++ replicate n (Operate (mmsConnection (fst w)) (ctlVal (fst w)) (testMode (fst w))) /\
    (n <> 0%nat -> busy w = true).

Lemma view_busy w w' : view w' = view w -> busy w' = busy w.
Proof. unfold view, busy. by intros [= -> _ _ _ _ _]. Qed.

#[export] Instance keeps_preorder : PreOrder keeps.
Proof. split; [done|]. unfold keeps. intros w1 w2 w3 H1 H2. congruence. Qed.
#[export] Instance calm_preorder : PreOrder calm.
Proof.
  split; [by intros w; split; [|left]|]. intros w1 w2 w3 [O1 H1] [O2 H2]. split; [congruence|].
  destruct H2 as [H2|H2]; [|by right]. destruct H1 as [H1|H1]; [left; congruence|right].
  by rewrite (view_busy _ _ H2).
Qed.
#[export] Instance idles_preorder : PreOrder idles.
Proof. split; [done|]. intros w1 w2 w3 H1 H2 Hb. destruct (H1 Hb) as [Hb2 O2]. destruct (H2 Hb2). split; [done|congruence]. Qed.
#[export] Instance runs_command_preorder : PreOrder runs_command.
Proof.
  split.
  - intros w. split; [done|]. exists 0%nat. simpl. by rewrite app_nil_r.
  - intros w1 w2 w3 (B1 & n1 & O1 & N1) (B2 & n2 & O2 & N2). split.
    + intros Hb. destruct (B2 Hb) as [Hb2 C2]. destruct (B1 Hb2). split; [done|congruence].
    + exists (n1 + n2)%nat. rewrite replicate_add, app_assoc, <- O1, O2. split.
      * destruct n2; [by rewrite !app_nil_r|]. destruct (B1 (N2 ltac:(done))) as [_ C1].
        unfold command in C1. injection C1 as -> -> ->. done.
      * intros Hn. destruct n1; [apply B1, N2; lia|by apply N1].
Qed.

Lemma keeps_calm w w' : keeps w w' -> calm w w'.
Proof. unfold keeps, calm. intros H. split; [|by left]. unfold view in H. congruence. Qed.
Lemma calm_idles w w' : calm w w' -> idles w w'.
Proof. intros [O [H|H]] Hb; split; try done. by rewrite (view_busy _ _ H). Qed.
Lemma calm_runs w w' : calm w w' -> runs_command w w'.
Proof.
  intros [O H]. split.
  - intros Hb. destruct H as [H|H]; [|congruence]. rewrite <- (view_busy _ _ H). split; [done|]. unfold view in H. unfold command. congruence.
  - exists 0%nat. simpl. by rewrite app_nil_r.
Qed.
Lemma idles_runs w w' : busy w = false -> idles w w' -> runs_command w w'.
Proof.
  intros Hb H. destruct (H Hb) as [Hb' O]. split; [congruence|]. exists 0%nat. simpl. by rewrite app_nil_r.
Qed.

(** ** Operations that do not matter for the execution of commands *)

Lemma keeps_modify f : (forall o m, view (f o, m) = view (o, m)) -> within keeps (modify f).
Proof. intros H [o m] x w' [= <- <-]. apply H. Qed.
Lemma keeps_mapping f : (forall m, operations (sent (f m)) = operations (sent m)) -> within keeps (mapping_modify f).
Proof. intros H [o m] x w' [= <- <-]. unfold keeps, view. simpl. by rewrite H. Qed.
Lemma keeps_emit e : is_operation e = false -> within keeps (emit e).
Proof.
  intros H. apply keeps_mapping. intros m. simpl. unfold operations. rewrite list.filter_app, filter_cons_False; [by rewrite app_nil_r|].
  by rewrite H.
Qed.

(** Steps through a program of the monad. *)
Create HintDb control.
Ltac within_step :=
  lazymatch goal with
  | |- within _ (mbind _ _) => apply within_bind; [|intros]
  | |- within _ (mret _) => apply within_ret
  | |- within _ (get _) => apply within_get
  | |- within _ (mapping_get _) => apply within_mapping_get
  | |- within _ (lift _) => apply within_lift
  | |- within _ (when _ _) => apply within_when
  | |- within _ (match ?x with _ => _ end) => destruct x
  | |- _ => solve [auto 2 with control nocore]
  end.
Ltac within_solve := repeat within_step.

Section Keeps.
Context (env : Environment).

Lemma keeps_question : within keeps question.
Proof. unfold question. within_solve. by apply keeps_mapping. Qed.
Lemma keeps_allocating {A} (f : alloc A) : within keeps (allocating f).
Proof. unfold allocating. within_solve. by apply keeps_mapping. Qed.

End Keeps.
#[export] Hint Resolve keeps_question keeps_allocating : control.
#[export] Hint Extern 1 (within keeps (emit _)) => apply keeps_emit; reflexivity : control.
#[export] Hint Extern 1 (within keeps (modify _)) => apply keeps_modify; reflexivity : control.
#[export] Hint Extern 1 (within keeps (mapping_modify _)) => apply keeps_mapping; reflexivity : control.

Section Keeps.
Context (env : Environment).

Lemma keeps_time : within keeps (Hal_getTimeInMs env).
Proof. unfold Hal_getTimeInMs. within_solve. Qed.
Lemma keeps_monotonic : within keeps (Hal_getMonotonicTimeInMs env).
Proof. unfold Hal_getMonotonicTimeInMs. within_solve. Qed.
Lemma keeps_updateNext t : within keeps (updateNextControlTimeout t).
Proof. unfold updateNextControlTimeout. within_solve. Qed.
Lemma keeps_updateNextRealTime t : within keeps (updateNextRealTimeControlTimeout t).
Proof. unfold updateNextRealTimeControlTimeout. within_solve. Qed.
Lemma keeps_setStSeld b : within keeps (setStSeld b).
Proof. unfold setStSeld, set_pending. within_solve. Qed.
Lemma keeps_setOpRcvd b : within keeps (setOpRcvd b).
Proof. unfold setOpRcvd, set_pending. within_solve. Qed.
Lemma keeps_setOpOk b t : within keeps (setOpOk env b t).
Proof. unfold setOpOk, set_pending. within_solve. Qed.
Lemma keeps_handlePendingEvents : within keeps ControlObject_handlePendingEvents.
Proof. unfold ControlObject_handlePendingEvents, handle_pending. within_solve. Qed.
Lemma keeps_updateSboTimeoutValue : within keeps updateSboTimeoutValue.
Proof. unfold updateSboTimeoutValue. within_solve. Qed.
Lemma keeps_selectStateChanged b r : within keeps (selectStateChanged env b r).
Proof. unfold selectStateChanged. within_solve. Qed.
Lemma keeps_isSboClassOperateOnce : within keeps isSboClassOperateOnce.
Proof. unfold isSboClassOperateOnce. within_solve. Qed.
Lemma keeps_change_tasks c d : within keeps (change_tasks c d).
Proof. unfold change_tasks. within_solve. Qed.
Lemma keeps_resetAddCause : within keeps resetAddCause.
Proof. unfold resetAddCause. within_solve. Qed.
Lemma keeps_lastApplError p e c n o : within keeps (lastApplError p e c n o).
Proof. unfold lastApplError. within_solve. Qed.
Lemma keeps_apply a : within keeps (apply a).
Proof. unfold apply, ControlAction_setError, ControlAction_setAddCause. within_solve. Qed.
Lemma keeps_track a b : within keeps (track a b).
Proof. unfold track. within_solve. Qed.
Lemma keeps_update_value f g u : (forall v, within keeps (g v)) -> within keeps (update_value f g u).
Proof. intros Hg. unfold update_value. within_solve. Qed.
Lemma keeps_read_T t : within keeps (read_T t).
Proof. unfold read_T. within_solve. Qed.

End Keeps.
#[export] Hint Resolve keeps_time keeps_monotonic keeps_updateNext keeps_updateNextRealTime keeps_setStSeld keeps_setOpRcvd
  keeps_setOpOk keeps_handlePendingEvents keeps_updateSboTimeoutValue keeps_selectStateChanged keeps_isSboClassOperateOnce
  keeps_change_tasks keeps_resetAddCause keeps_lastApplError keeps_apply keeps_track keeps_read_T : control.
#[export] Hint Extern 1 (within keeps (update_value _ _ _)) => apply keeps_update_value; intros; within_solve : control.

Lemma keeps_sendLastApplError c v e k n o h : within keeps (ControlObject_sendLastApplError c v e k n o h).
Proof. unfold ControlObject_sendLastApplError. within_solve. Qed.
Lemma keeps_terminationPositive : within keeps ControlObject_sendCommandTerminationPositive.
Proof. unfold ControlObject_sendCommandTerminationPositive. within_solve. Qed.
Lemma keeps_terminationNegative : within keeps ControlObject_sendCommandTerminationNegative.
Proof. unfold ControlObject_sendCommandTerminationNegative. within_solve. Qed.
Lemma keeps_exitControlTask : within keeps exitControlTask.
Proof. unfold exitControlTask. within_solve. Qed.
Lemma keeps_initiateControlTask : within keeps initiateControlTask.
Proof. unfold initiateControlTask. within_solve. Qed.
Lemma keeps_clear_operTm env : within keeps (clear_operTm env).
Proof. unfold clear_operTm. within_solve. Qed.
Lemma keeps_update_status n o : within keeps (update_status n o).
Proof. unfold update_status. within_solve. Qed.
#[export] Hint Resolve keeps_sendLastApplError keeps_terminationPositive keeps_terminationNegative keeps_exitControlTask
  keeps_initiateControlTask keeps_clear_operTm keeps_update_status : control.

Lemma keeps_call_check env v t i : within keeps (call_check env v t i).
Proof. unfold call_check. within_solve. Qed.
#[export] Hint Resolve keeps_call_check : control.
Lemma keeps_perform_check env m v t i : within keeps m -> within keeps (perform_check env m v t i).
Proof. intros H. unfold perform_check. within_solve. Qed.
#[export] Hint Extern 1 (within keeps (perform_check _ _ _ _ _)) => apply keeps_perform_check; within_solve : control.
Lemma keeps_wait_for_execution env : within keeps (wait_for_execution env).
Proof. unfold wait_for_execution. within_solve. Qed.
Lemma keeps_refuse c s k n o i : within keeps (refuse c s k n o i).
Proof. unfold refuse. within_solve. Qed.
#[export] Hint Resolve keeps_wait_for_execution keeps_refuse : control.

(** ** Operations that may end a command *)

Definition executing (s : ControlState) : bool :=
  match s with STATE_WAIT_FOR_ACTIVATION_TIME | STATE_WAIT_FOR_EXECUTION | STATE_OPERATE => true | _ => false end.

Lemma busy_executing w : busy w = executing (state (fst w)).
Proof. unfold busy, executing. destruct (state (fst w)); simpl; rewrite ?bool_decide_eq_true, ?bool_decide_eq_false; naive_solver. Qed.

Lemma calm_setState s : executing s = false -> within calm (setState s).
Proof. intros H [o m] x w' [= <- <-]. split; [done|right]. by rewrite busy_executing. Qed.
#[export] Hint Extern 1 (within calm (setState _)) => apply calm_setState; reflexivity : control.
#[export] Hint Extern 2 (within calm _) => apply (within_mono keeps calm _ keeps_calm); solve [auto 2 with control nocore] : control.

Section Calm.
Context (env : Environment).

Lemma calm_unselectObject r : within calm (unselectObject env r).
Proof. unfold unselectObject, getState. within_solve. Qed.
Hint Resolve calm_unselectObject : control.
Lemma calm_checkSelectTimeout t : within calm (checkSelectTimeout env t).
Proof. unfold checkSelectTimeout, getState. within_solve. Qed.
Lemma calm_abortControlOperation b r : within calm (abortControlOperation env b r).
Proof. unfold abortControlOperation. within_solve. Qed.
Hint Resolve calm_checkSelectTimeout calm_abortControlOperation : control.
Lemma calm_cancel_later i : within calm (cancel_later env i).
Proof. unfold cancel_later. within_solve. Qed.
Hint Resolve calm_cancel_later : control.
Lemma calm_write_Cancel v c : within calm (write_Cancel env v c).
Proof. unfold write_Cancel, getState. within_solve. Qed.
Lemma calm_unselect c : within calm (ControlObject_unselect env c).
Proof. unfold ControlObject_unselect. within_solve. Qed.
Lemma calm_execution_refused b : within calm (execution_refused env b).
Proof. unfold execution_refused. within_solve. Qed.

End Calm.
#[export] Hint Resolve calm_unselectObject calm_checkSelectTimeout calm_abortControlOperation calm_cancel_later calm_write_Cancel
  calm_unselect calm_execution_refused : control.

(** ** Operations on an object without command *)

Lemma idles_modify f : (forall o, state (f o) = state o) -> within idles (modify f).
Proof. intros H [o m] x w' [= <- <-] Hb. rewrite busy_executing in *. simpl in *. by rewrite H. Qed.
#[export] Hint Extern 1 (within idles (modify _)) => apply idles_modify; reflexivity : control.
#[export] Hint Extern 2 (within idles _) => apply (within_mono calm idles _ calm_idles); solve [auto 3 with control nocore] : control.

Lemma idles_update_value f g u : (forall v, within idles (g v)) -> within idles (update_value f g u).
Proof. intros Hg. unfold update_value. within_solve. Qed.
#[export] Hint Extern 1 (within idles (update_value _ _ _)) => apply idles_update_value; intros; within_solve : control.

Lemma idles_selectObject env t c : within idles (selectObject env t c).
Proof. unfold selectObject. within_solve. Qed.
#[export] Hint Resolve idles_selectObject : control.

Lemma idles_perform_select_check env m v t i : within idles m -> within idles (perform_select_check env m v t i).
Proof. intros H. unfold perform_select_check. within_solve. Qed.
#[export] Hint Extern 1 (within idles (perform_select_check _ _ _ _ _)) => apply idles_perform_select_check; within_solve : control.

Lemma idles_updateControlParameters v n o s i : within idles (updateControlParameters v n o s i).
Proof. unfold updateControlParameters. within_solve. Qed.
#[export] Hint Resolve idles_updateControlParameters : control.

Section Idles.
Context (env : Environment).

Lemma idles_select_with_value c id now v n o k t : within idles (select_with_value env c id now v n o k t).
Proof. unfold select_with_value. within_solve. Qed.
Lemma idles_select_answer r now : within idles (select_answer env r now).
Proof. unfold select_answer. within_solve. Qed.
Lemma idles_select_with_value_answer r now : within idles (select_with_value_answer env r now).
Proof. unfold select_with_value_answer. within_solve. Qed.
Hint Resolve idles_select_answer idles_select_with_value_answer : control.
Lemma idles_select_task now : within idles (select_task env now).
Proof. unfold select_task. within_solve. Qed.

End Idles.
#[export] Hint Resolve idles_select_with_value idles_select_task : control.

(** ** Executing a command *)

Definition advances (w w' : World) : Prop :=
  busy w = true -> busy w' = true /\ command w' = command w /\ operations (sent (snd w')) = operations (sent (snd w)).

#[export] Instance advances_preorder : PreOrder advances.
Proof.
  split; [done|]. intros w1 w2 w3 H1 H2 Hb. destruct (H1 Hb) as (Hb2 & C2 & O2). destruct (H2 Hb2) as (? & ? & ?).
  split_and!; congruence.
Qed.
Lemma keeps_advances w w' : keeps w w' -> advances w w'.
Proof.
  unfold keeps. intros H Hb. split; [by rewrite (view_busy _ _ H)|]. unfold view in H. unfold command. split; congruence.
Qed.
Lemma advances_runs w w' : busy w = true -> advances w w' -> runs_command w w'.
Proof.
  intros Hb H. destruct (H Hb) as (Hb' & C & O). split; [done|]. exists 0%nat. simpl. by rewrite app_nil_r.
Qed.
Lemma advances_setState s : executing s = true -> within advances (setState s).
Proof. intros H [o m] x w' [= <- <-] Hb. split; [by rewrite busy_executing|done]. Qed.
#[export] Hint Extern 1 (within advances (setState _)) => apply advances_setState; reflexivity : control.
#[export] Hint Extern 2 (within advances _) => apply (within_mono keeps advances _ keeps_advances); solve [auto 2 with control nocore] : control.
#[export] Hint Extern 2 (within runs_command _) => apply (within_mono calm runs_command _ calm_runs); solve [auto 3 with control nocore] : control.

Lemma post_keeps {A B} (m : M A) (k : A -> M B) w0 w (Q : B -> World -> Prop) :
  keeps w0 w -> within keeps m -> (forall x w1, keeps w0 w1 -> post (k x) w1 Q) -> post (m ≫= k) w Q.
Proof. intros H Hm Hk. apply post_bind. eapply within_post; [exact Hm|]. intros x w1 H1. apply Hk. by etrans. Qed.
(** The next operation does not matter; [w'] is the world after it, [H] relates it to [w]. *)
Ltac post_keeps w w' H :=
  eapply (post_keeps _ _ w);
    [first [eassumption|reflexivity]|within_solve|let x := fresh "x" in intros x w' H].

Section Execution.
Context (env : Environment).

Lemma advances_execution_starts b : within advances (execution_starts env b).
Proof. unfold execution_starts. within_solve. Qed.

Lemma execution_task_runs b now w :
  busy w = true -> post (execution_task env b now) w (fun _ w' => runs_command w w').
Proof.
  intros Hb. unfold execution_task. pose proof (advances_execution_starts b) as Hstart.
  post_keeps w w1 H1. post_keeps w w2 H2. post_keeps w w3 H3.
  assert (H : runs_command w w3) by by apply calm_runs, keeps_calm.
  case_decide as Hf; [|case_decide as Ho].
  - apply post_bind. eapply within_post; [apply calm_execution_refused|]. intros [] w4 H4. apply post_ret.
    etrans; [done|by apply calm_runs].
  - apply post_bind. eapply within_post; [done|]. intros [] w4 H4. apply post_ret.
    etrans; [done|]. apply advances_runs; [|done]. by rewrite (view_busy _ _ H3).
  - post_keeps w w4 H4. apply post_ret. by apply calm_runs, keeps_calm.
Qed.

Lemma operateControl_runs now w :
  busy w = true ->
  post (operateControl env (ctlVal (fst w)) now (testMode (fst w))) w (fun _ w' => runs_command w w').
Proof.
  intros Hb. unfold operateControl. post_keeps w w1 H1. post_keeps w w2 H2. post_keeps w w3 H3.
  destruct (operateHandler env) as [h|]; [|apply post_ret; by apply calm_runs, keeps_calm].
  post_keeps w w4 H4. apply post_bind, post_get, post_bind. intros [] w5 [= <-].
  eapply within_post; [apply keeps_apply|]. intros r w6 H6.
  assert (H5 : runs_command w (fst w4, (snd w4) <| sent := sent (snd w4) ++ [Operate (mmsConnection (fst w4)) (ctlVal (fst w)) (testMode (fst w))] |>)).
  { unfold keeps, view in H4. injection H4 as E1 E2 E3 E4 E5 E6. split.
    - intros _. split; [done|]. unfold command. simpl. congruence.
    - exists 1%nat. split; [|done]. simpl. rewrite <- E6, E3. unfold operations. by rewrite list.filter_app. }
  etrans; [exact H5|by apply calm_runs, keeps_calm].
Qed.

Lemma operate_task_runs now w :
  busy w = true -> post (operate_task env now) w (fun _ w' => runs_command w w').
Proof.
  intros Hb. unfold operate_task. apply post_bind, post_get, post_bind, post_get, post_bind.
  eapply post_mono; [by apply operateControl_runs|]. intros r w1 H1. simpl in H1.
  eapply (within_post runs_command); [within_solve|]. intros ? w2 H2. by etrans.
Qed.

Lemma state_machine_runs fuel now w : post (state_machine env fuel now) w (fun _ w' => runs_command w w').
Proof.
  revert w. induction fuel as [|fuel IH]; intros w; cbn [state_machine]; [by intros ? ?|].
  apply post_bind, post_get.
  assert (Hexec : forall b, busy w = true ->
    post (again ← execution_task env b now; when again (state_machine env fuel now)) w (fun _ w' => runs_command w w')).
  { intros b Hb. apply post_bind. eapply post_mono; [by apply execution_task_runs|]. intros again w1 H1.
    destruct again; [|by apply post_ret]. eapply post_mono; [apply IH|]. intros ? w2 H2. by etrans. }
  assert (Hb : busy w = executing (state (fst w))) by apply busy_executing.
  destruct (state (fst w)) eqn:Es; try (apply post_ret; reflexivity); simpl in Hb.
  - by apply Hexec.
  - by apply Hexec.
  - by apply operate_task_runs.
  - eapply within_post; [apply idles_select_task|]. intros ? w1. by apply idles_runs.
Qed.

Lemma activate_runs now : within runs_command (activate env now).
Proof.
  assert (Hm : within runs_command (executeControlTask env now)) by (intros w x w'; apply state_machine_runs).
  unfold activate. within_solve.
Qed.

Lemma process_object_runs now : within runs_command (process_object env now).
Proof.
  assert (Hm : within runs_command (executeControlTask env now)) by (intros w x w'; apply state_machine_runs).
  assert (Ha : within runs_command (activate env now)) by apply activate_runs.
  unfold process_object, process_state. within_solve.
Qed.

End Execution.

(** ** Accepting a command *)

(** What a command keeps while it is examined for the client [c]. *)
Definition belongs (c : nat) (w w' : World) : Prop :=
  (ctlVal (fst w'), testMode (fst w'), operations (sent (snd w'))) = (ctlVal (fst w), testMode (fst w), operations (sent (snd w))) /\
  (mmsConnection (fst w) = Some c -> mmsConnection (fst w') = Some c).
(** If there is a command, it is one of the client [c]. *)
Definition owned (c : nat) (w w' : World) : Prop :=
  (busy w = true -> mmsConnection (fst w) = Some c) -> busy w' = true -> mmsConnection (fst w') = Some c.

#[export] Instance belongs_preorder c : PreOrder (belongs c).
Proof. split; [done|]. intros w1 w2 w3 [E1 H1] [E2 H2]. split; [congruence|auto]. Qed.
#[export] Instance owned_preorder c : PreOrder (owned c).
Proof. split; [by intros w H|]. intros w1 w2 w3 H1 H2 H. auto. Qed.

Lemma keeps_belongs c w w' : keeps w w' -> belongs c w w'.
Proof. unfold keeps, view. intros [= E1 E2 E3 E4 E5 E6]. unfold belongs. by rewrite E3, E4, E5, E6. Qed.
Lemma keeps_owned c w w' : keeps w w' -> owned c w w'.
Proof. intros H. pose proof (view_busy _ _ H) as Hb. unfold keeps, view in H. injection H as E1 E2 E3 E4 E5 E6. unfold owned. by rewrite Hb, E3. Qed.
#[export] Hint Extern 2 (within (belongs _) _) => apply (within_mono keeps _ _ (keeps_belongs _)); solve [auto 2 with control nocore] : control.
#[export] Hint Extern 2 (within (owned _) _) => apply (within_mono keeps _ _ (keeps_owned _)); solve [auto 2 with control nocore] : control.

Lemma belongs_modify c f :
  (forall o, (ctlVal (f o), testMode (f o)) = (ctlVal o, testMode o)) -> (forall o, mmsConnection o = Some c -> mmsConnection (f o) = Some c) ->
  within (belongs c) (modify f).
Proof. intros H1 H2 [o m] x w' [= <- <-]. split; [|apply H2]. simpl. specialize (H1 o). congruence. Qed.
#[export] Hint Extern 1 (within (belongs _) (modify _)) => apply belongs_modify; [reflexivity|intros; first [reflexivity|assumption]] : control.
#[export] Hint Extern 1 (within (belongs _) (setState _)) => apply belongs_modify; [reflexivity|intros; assumption] : control.

Lemma owned_claim {A} c (m : M A) : within (belongs c) m -> within (owned c) (mmsConnection <:= Some c;; m).
Proof.
  intros Hm [o s] x w' E _ _. unfold mbind, M_bind in E. simpl in E. destruct (Hm _ _ _ E) as [_ H]. by apply H.
Qed.

Section Accept.
Context (env : Environment).

Lemma belongs_unselectObject c r : within (belongs c) (unselectObject env r).
Proof. unfold unselectObject, getState. within_solve. Qed.
Hint Resolve belongs_unselectObject : control.
Lemma belongs_abortControlOperation c b r : within (belongs c) (abortControlOperation env b r).
Proof. unfold abortControlOperation. within_solve. Qed.
Hint Resolve belongs_abortControlOperation : control.

Lemma belongs_operate_later c v i s t : within (belongs c) (operate_later env c v i s t).
Proof. unfold operate_later. within_solve. Qed.
Lemma owned_operate_later c v i s t : within (owned c) (operate_later env c v i s t).
Proof. unfold operate_later. do 3 (within_step; [by auto with control|]). apply owned_claim. within_solve. Qed.
Hint Resolve belongs_operate_later owned_operate_later : control.

Lemma belongs_operate_time p c v i s t r : within (belongs c) (operate_time env p c v i s t r).
Proof. unfold operate_time. within_solve. Qed.
Lemma owned_operate_time p c v i s t r : within (owned c) (operate_time env p c v i s t r).
Proof. unfold operate_time. within_solve. Qed.

Lemma belongs_operate_now c id v n o i t : within (belongs c) (operate_now env c id v n o i t).
Proof. unfold operate_now. within_solve. Qed.
Lemma owned_operate_now c id v n o i t : within (owned c) (operate_now env c id v n o i t).
Proof. unfold operate_now. do 3 (within_step; [by auto with control|]). apply owned_claim. within_solve. Qed.

End Accept.
#[export] Hint Resolve belongs_operate_time owned_operate_time belongs_operate_now owned_operate_now : control.

(** The value that [MmsValue_update] makes of a value. *)
Definition updated_to (v upd v' : option MmsValue) : Prop :=
  exists mem mem' ok, MmsValue_update v upd mem = Some ((v', ok), mem').

(** [Oper] of the client [c] with the parameters [value] is accepted in the world [w]: the object is
    ready; an object that must be selected is selected by [c], and not for too long; with enhanced
    security the parameters are those of the selection. *)
Record may_operate (env : Environment) (w : World) (value : MmsValue) (c : nat) (val : MmsValue) (test : bool) : Prop := {
  may_ctlVal : getCtlVal value = Some val;
  may_test : booleanOf (getOperParameterTest value) = Some test;
  may_ready : state (fst w) = STATE_READY;
  may_selected : sbo_model (ctlModel (fst w)) = true -> mmsConnection (fst w) = Some c;
  may_in_time : sbo_model (ctlModel (fst w)) = true -> selectTimeout (fst w) > 0 ->
    monotonicTimeInMs env (calls (snd w)) <= u64 (selectTime (fst w) + selectTimeout (fst w));
  may_same : ctlModel (fst w) = 4 ->
    MmsValue_equals (Some val) (ctlVal (fst w)) = Some true /\
    MmsValue_equals (getOperParameterOrigin value) (origin (fst w)) = Some true /\
    MmsValue_equals (getOperParameterCtlNum value) (ctlNum (fst w)) = Some true /\
    bitOf (getOperParameterCheck value) 1 = Some (interlockCheck (fst w)) /\
    bitOf (getOperParameterCheck value) 0 = Some (synchroCheck (fst w)) /\ testMode (fst w) = test
}.

Definition accepted (env : Environment) (value : MmsValue) (c : nat) (w w' : World) : Prop :=
  exists val test, may_operate env w value c val test /\
    mmsConnection (fst w') = Some c /\ updated_to (ctlVal (fst w)) (Some val) (ctlVal (fst w')) /\ testMode (fst w') = test /\
    operations (sent (snd w')) = operations (sent (snd w)).

Lemma post_keeps_run {A} (m : M A) w (Q : A -> World -> Prop) :
  within keeps m -> (forall x w', keeps w w' -> Q x w') -> post m w Q.
Proof. apply within_post. Qed.

Lemma post_allocating {A} (f : alloc A) w (Q : A -> World -> Prop) :
  (forall x mem, f (memory (snd w)) = Some (x, mem) -> Q x (fst w, (snd w) <| memory := mem |>)) -> post (allocating f) w Q.
Proof.
  intros H x w' E. unfold allocating, mapping_get, lift, mapping_modify, mbind, M_bind in E. simpl in E.
  destruct (f (memory (snd w))) as [[y mem]|] eqn:Ef; [|done]. injection E as <- <-. by apply H.
Qed.

Lemma update_ctlVal u w :
  post (update_value ctlVal (fun v => ctlVal <:= v) u) w (fun _ w' =>
    updated_to (ctlVal (fst w)) u (ctlVal (fst w')) /\
    exists v, view w' = view ((fst w) <| ctlVal := v |>, snd w)).
Proof.
  unfold update_value. apply post_bind, post_get, post_bind, post_allocating. intros [v ok] mem E.
  apply post_modify. split; [by exists (memory (snd w)), mem, ok|]. by exists v.
Qed.

Lemma updateControlParameters_post val num orig s i w :
  post (updateControlParameters val num orig s i) w (fun _ w' =>
    updated_to (ctlVal (fst w)) val (ctlVal (fst w')) /\
    exists v, view w' = view ((fst w) <| ctlVal := v |>, snd w)).
Proof.
  unfold updateControlParameters. apply post_bind. eapply post_mono; [apply update_ctlVal|].
  intros [] w1 (Hu & v & Hv). eapply post_keeps_run; [within_solve|]. intros _ w2 H2. unfold keeps in H2.
  assert (E : ctlVal (fst w2) = ctlVal (fst w1)) by (unfold view in H2; congruence).
  rewrite E. split; [done|]. exists v. congruence.
Qed.

Section Oper.
Context (env : Environment).

Lemma operate_post value c id val num orig i s test w :
  busy w = false ->
  post (operate env value c id val num orig i s test) w (fun _ w' =>
    operations (sent (snd w')) = operations (sent (snd w)) /\
    (busy w' = true -> mmsConnection (fst w') = Some c /\ updated_to (ctlVal (fst w)) (Some val) (ctlVal (fst w')) /\ testMode (fst w') = test)).
Proof.
  intros Hb. unfold operate. apply post_bind, post_modify, post_bind. eapply post_mono; [apply updateControlParameters_post|].
  intros [] w1 (Hu & v & Hv). simpl in Hu, Hv.
  assert (Hb1 : busy w1 = false) by (rewrite (view_busy _ _ Hv); exact Hb).
  match goal with |- post ?m _ _ => assert (Hw : within (belongs c) m /\ within (owned c) m) by (split; within_solve) end.
  intros r w2 E. destruct Hw as [Hw1 Hw2]. destruct (Hw1 _ _ _ E) as [Hbel _]. pose proof (Hw2 _ _ _ E) as Hown.
  unfold view in Hv. simpl in Hv. split; [congruence|]. intros Hb2.
  split; [apply Hown; [congruence|done]|]. split; congruence.
Qed.

Lemma same_parameters_post val num orig i s t w :
  post (same_parameters val num orig i s t) w (fun b w' => w' = w /\
    (b = true -> MmsValue_equals (Some val) (ctlVal (fst w)) = Some true /\ MmsValue_equals (Some orig) (origin (fst w)) = Some true /\
       MmsValue_equals (Some num) (ctlNum (fst w)) = Some true /\ interlockCheck (fst w) = i /\ synchroCheck (fst w) = s /\
       testMode (fst w) = t)).
Proof.
  unfold same_parameters. do 3 apply post_bind, post_get. apply post_bind, post_lift. intros a Ea.
  destruct a; [|by apply post_ret]. apply post_bind, post_lift. intros b Eb. destruct b; [|by apply post_ret].
  apply post_bind, post_lift. intros d Ed. do 3 apply post_bind, post_get. apply post_ret. split; [done|].
  rewrite !andb_true_iff, !bool_decide_eq_true. intros [[[-> ->] ->] ->]. done.
Qed.

Lemma operate_ready_post value c id val num orig check tst w :
  state (fst w) = STATE_READY ->
  post (operate_ready env value c id val num orig check tst) w (fun _ w' => calm w w' \/
    exists i s t, bitOf (Some check) 1 = Some i /\ bitOf (Some check) 0 = Some s /\ booleanOf (Some tst) = Some t /\
      (sbo_model (ctlModel (fst w)) = true -> mmsConnection (fst w) = Some c) /\
      (ctlModel (fst w) = 4 ->
         MmsValue_equals (Some val) (ctlVal (fst w)) = Some true /\ MmsValue_equals (Some orig) (origin (fst w)) = Some true /\
         MmsValue_equals (Some num) (ctlNum (fst w)) = Some true /\ interlockCheck (fst w) = i /\ synchroCheck (fst w) = s /\
         testMode (fst w) = t) /\
      operations (sent (snd w')) = operations (sent (snd w)) /\
      mmsConnection (fst w') = Some c /\ updated_to (ctlVal (fst w)) (Some val) (ctlVal (fst w')) /\ testMode (fst w') = t).
Proof.
  intros Hs. assert (Hb : busy w = false) by by rewrite busy_executing, Hs.
  unfold operate_ready. apply post_bind, post_lift. intros i Hi. apply post_bind, post_lift. intros s Hsy.
  apply post_bind, post_lift. intros t Ht. apply post_bind, post_get, post_bind, post_get.
  destruct (sbo_model (ctlModel (fst w)) && bool_decide (mmsConnection (fst w) <> Some c)) eqn:Ho.
  { eapply within_post; [apply keeps_refuse|]. intros _ w' H. left. by apply keeps_calm. }
  assert (Hsel : sbo_model (ctlModel (fst w)) = true -> mmsConnection (fst w) = Some c).
  { intros Hm. rewrite Hm in Ho. apply bool_decide_eq_false in Ho. by apply dec_stable. }
  apply post_bind. eapply (post_mono _ _ (fun b w' => w' = w /\ (b = true -> ctlModel (fst w) = 4 -> _))).
  { destruct (decide (ctlModel (fst w) = 4)) as [Hm|Hm].
    - eapply post_mono; [apply same_parameters_post|]. intros b w' [-> H]. split; [done|]. intros Hbt _. exact (H Hbt).
    - apply post_ret. split; [done|]. intros _ H4. by destruct Hm. }
  intros same w1 [-> Hsame]. destruct same.
  - eapply post_mono; [by apply operate_post|]. intros _ w' [Hop Hown]. destruct (busy w') eqn:Hb'.
    + right. destruct Hown as (? & ? & ?); [done|]. exists i, s, t. split_and!; try done. auto.
    + left. split; [done|by right].
  - eapply (within_post calm); [within_solve|]. intros _ w' H. by left.
Qed.

Lemma post_monotonic w (Q : Z -> World -> Prop) :
  Q (monotonicTimeInMs env (calls (snd w))) (fst w, (snd w) <| calls := S (calls (snd w)) |>) -> post (Hal_getMonotonicTimeInMs env) w Q.
Proof. by intros H ? ? [= <- <-]. Qed.

(** The object and the number of questions are what they were, but for the time of the command. *)
Definition same_object (w w' : World) : Prop :=
  fst w' = (fst w) <| T := T (fst w') |> /\ calls (snd w') = calls (snd w) /\ sent (snd w') = sent (snd w).

Lemma read_T_post t w : post (read_T t) w (fun _ w' => same_object w w').
Proof.
  assert (Hrefl : forall o, o = o <| T := T o |>) by by intros [].
  unfold read_T. destruct t as [t|]; [|by apply post_ret; split; [apply Hrefl|]].
  apply post_bind, post_get, post_bind, post_allocating. intros v mem _. destruct v; [|by apply post_ret; split; [apply Hrefl|]].
  by apply post_modify.
Qed.

Definition same_control (w w' : World) : Prop := fst w' = fst w /\ sent (snd w') = sent (snd w).
#[local] Instance same_control_preorder : PreOrder same_control.
Proof. split; [done|]. intros w1 w2 w3 [] []. split; congruence. Qed.

Lemma updateNext_same t : within same_control (updateNextControlTimeout t).
Proof. unfold updateNextControlTimeout. within_solve. by intros [o m] y w' [= <- <-]. Qed.

Lemma unselectObject_state r w : post (unselectObject env r) w (fun _ w' => state (fst w') = STATE_UNSELECTED).
Proof.
  unfold unselectObject. apply post_bind, post_get. case_bool_decide as Hs; simpl.
  - apply post_bind, post_modify. apply post_keeps_run; [within_solve|]. intros _ w' H. unfold keeps, view in H. simpl in H. congruence.
  - by apply post_ret.
Qed.

Lemma checkSelectTimeout_ready now w :
  post (checkSelectTimeout env now) w (fun _ w' => calm w w' /\ (state (fst w') = STATE_READY ->
    same_control w w' /\
    (sbo_model (ctlModel (fst w)) = true -> selectTimeout (fst w) > 0 -> now <= u64 (selectTime (fst w) + selectTimeout (fst w))))).
Proof.
  intros x w' E. split; [by eapply calm_checkSelectTimeout|]. revert x w' E. change (post (checkSelectTimeout env now) w (fun _ w' => state (fst w') = STATE_READY ->
    same_control w w' /\
    (sbo_model (ctlModel (fst w)) = true -> selectTimeout (fst w) > 0 -> now <= u64 (selectTime (fst w) + selectTimeout (fst w))))).
  unfold checkSelectTimeout. do 4 apply post_bind, post_get.
  destruct (sbo_model (ctlModel (fst w)) && bool_decide (state (fst w) = STATE_READY) && bool_decide (selectTimeout (fst w) > 0)) eqn:Hc; simpl.
  - destruct (decide (now > u64 (selectTime (fst w) + selectTimeout (fst w)))) as [Ht|Ht].
    + eapply post_mono; [apply unselectObject_state|]. intros _ w' ->. done.
    + eapply within_post; [apply updateNext_same|]. intros _ w' H _. split; [done|]. lia.
  - apply post_ret. intros Hr. split; [done|]. intros Hm Ht. rewrite Hm, !bool_decide_eq_true_2 in Hc; done.
Qed.

Lemma write_Oper_post value c id w :
  post (write_Oper env value c id) w (fun _ w' => calm w w' \/ accepted env value c w w').
Proof.
  unfold write_Oper.
  destruct (getCtlVal value) as [val|] eqn:Ev; [|by apply post_ret; left].
  destruct (getOperParameterTest value) as [test|] eqn:Et; [|by apply post_ret; left].
  destruct (getOperParameterCtlNum value) as [num|] eqn:En; [|by apply post_ret; left].
  destruct (getOperParameterOrigin value) as [orig|] eqn:Eo; [|by apply post_ret; left].
  destruct (getOperParameterCheck value) as [check|] eqn:Ek; [|by apply post_ret; left].
  destruct (getOperParameterTime value) as [time|] eqn:Ei; [|by apply post_ret; left].
  apply post_bind. intros [] w1 E1. pose proof (keeps_read_T _ _ _ _ E1) as K1. apply read_T_post in E1 as (Ho1 & Hc1 & Hs1).
  apply post_bind, post_lift. intros valid _. destruct valid.
  2:{ eapply (within_post calm); [within_solve|]. intros _ w2 H. left. etrans; [by apply keeps_calm|done]. }
  apply post_bind, post_monotonic, post_bind. eapply post_mono; [apply checkSelectTimeout_ready|]. intros [] w2 [C2 R2].
  assert (C : calm w w2) by (etrans; [by apply keeps_calm|exact C2]).
  apply post_bind, post_get. destruct (state (fst w2)) eqn:Es;
    try (eapply (within_post calm); [within_solve|]; intros _ w3 H; left; etrans; [exact C|exact H]).
  destruct (R2 eq_refl) as [[Ho2 Hs2] Ht]. simpl in Ho2, Hs2, Ht.
  apply post_bind. eapply post_mono; [by apply operate_ready_post|]. intros r w3 H3. apply post_ret.
  destruct H3 as [H3|(i & s & t & Hi & Hsy & Hte & Hsel & H4 & Hop & Hco & Hup & Htm)]; [left; by etrans|right].
  rewrite Ho2, Ho1 in Hsel, H4, Hup, Es. rewrite Ho1 in Ht. simpl in *.
  exists val, t. split_and!; try done; [|by rewrite Hop, Hs2, Hs1].
  split; [done|by rewrite Et|done|done| |].
  - rewrite <- Hc1. exact Ht.
  - intros Hm. destruct (H4 Hm) as (? & ? & ? & -> & -> & ->). rewrite Eo, En, Ek. done.
Qed.

End Oper.

(** ** Requests *)

Lemma post_within {A} (R : relation World) (m : M A) : (forall w, post m w (fun _ w' => R w w')) -> within R m.
Proof. intros H w x w' E. exact (H w x w' E). Qed.

Lemma idles_calm w w' : busy w = false -> idles w w' -> calm w w'.
Proof. intros Hb H. destruct (H Hb). split; [done|by right]. Qed.

Section Requests.
Context (env : Environment).

Lemma calm_write_SBOw value c id : within calm (write_SBOw env value c id).
Proof.
  unfold write_SBOw. within_step; [within_solve|]. case_decide as Hmodel; [|within_solve]. within_step; [within_solve|].
  within_step; [|within_solve]. within_step; [within_solve|]. within_step; [|within_solve].
  within_step; [within_solve|]. apply post_within. intros w. apply post_bind, post_get, post_bind, post_monotonic, post_bind.
  eapply within_post; [apply calm_checkSelectTimeout|]. intros _ w1 H1.
  assert (H : calm w w1) by (etrans; [|exact H1]; by apply keeps_calm).
  case_decide as Hs.
  - eapply within_post; [apply idles_select_with_value|]. intros _ w2 H2. etrans; [exact H|].
    apply idles_calm; [|done]. apply calm_idles in H. apply H. by rewrite busy_executing, Hs.
  - eapply (within_post calm); [within_solve|]. intros _ w2 H2. by etrans.
Qed.

Lemma calm_read_SBO c id b : within calm (read_SBO env c id b).
Proof.
  unfold read_SBO. within_step; [within_solve|]. case_decide as Hmodel; [|within_solve]. within_step; [within_solve|].
  within_step; [|within_solve]. within_step; [within_solve|].
  apply post_within. intros w. apply post_bind, post_get. case_decide as Hs; [|by apply post_ret].
  eapply (within_post idles); [within_solve|]. intros _ w2 H2. apply idles_calm; [|done]. by rewrite busy_executing, Hs.
Qed.

Lemma calm_read_object v c id b : within calm (read_object env v c id b).
Proof. pose proof (calm_read_SBO c id b). unfold read_object. within_solve. Qed.

Lemma calm_updateControlModel v b : within calm (ControlObject_updateControlModel v b).
Proof.
  apply post_within. intros w. unfold ControlObject_updateControlModel. apply post_bind, post_modify, post_bind, post_get, post_bind. simpl.
  match goal with |- post ?m ?w1 _ => assert (Hm : within calm m) by within_solve; intros ? w2 E; pose proof (Hm _ _ _ E) as H2 end.
  assert (Hb : busy w2 = false). { rewrite busy_executing. destruct (sbo_model _) in E; injection E as <- <-; done. }
  apply post_keeps_run; [within_solve|]. intros _ w3 H3. split; [|right; by rewrite (view_busy _ _ H3)].
  apply keeps_calm in H3 as [-> _]. by destruct H2 as [-> _].
Qed.

Lemma write_object_post varName value c id w :
  post (write_object env varName value c id) w (fun _ w' =>
    calm w w' \/ strcmp varName OPER = Some true /\ accepted env value c w w').
Proof.
  unfold write_object. apply post_bind.
  eapply (post_mono _ _ (fun _ w' => calm w w' \/ strcmp varName OPER = Some true /\ accepted env value c w w')).
  - unfold write_request. apply post_bind, post_get. case_decide as Hmodel; [by apply post_ret; left|].
    apply post_bind, post_lift. intros [] _.
    { pose proof (calm_write_SBOw value c id). eapply (within_post calm); [within_solve|]. by left. }
    apply post_bind, post_lift. intros [] Ho.
    { apply post_bind. eapply post_mono; [apply write_Oper_post|]. intros r w' H. apply post_ret. destruct H; auto. }
    apply post_bind, post_lift. intros [] _; [|by apply post_ret; left].
    eapply (within_post calm); [within_solve|]. by left.
  - intros [[indication serviceError] serviceType] w1 H1. apply post_keeps_run; [within_solve|]. intros _ w2 H2.
    destruct H1 as [H1|[Ho (val & test & Hm & Hc & Hu & Ht & Hop)]]; [left; etrans; [done|by apply keeps_calm]|right].
    split; [done|]. exists val, test. unfold keeps, view in H2. injection H2 as E1 E2 E3 E4 E5 E6.
    by rewrite E3, E4, E5, E6.
Qed.

(** ** Histories *)

Inductive Request :=
  | Write (varName : list Z) (value : MmsValue) (connection : nat) (invokeId : Z)
  | Read (varName : option (list Z)) (connection : nat) (invokeId : Z) (isDirectAccess : bool)
  | Cycle (currentMonotonicTimeInMs : Z)
  | Close (connection : nat)
  | Configure (value : Z) (has_ctlModel : bool).

(** What happens to a control object: clients write and read it, the server thread comes round, a
    connection is closed, the application sets another control model. *)
Definition serve (r : Request) : M unit :=
  match r with
  | Write varName value connection invokeId => _ ← write_object env varName value connection invokeId; mret tt
  | Read varName connection invokeId isDirectAccess => _ ← read_object env varName connection invokeId isDirectAccess; mret tt
  | Cycle now => process_object env now
  | Close connection => _ ← ControlObject_unselect env connection; mret tt
  | Configure value has_ctlModel => ControlObject_updateControlModel value has_ctlModel
  end.

(** Between two requests the other objects of the mapping change it. *)
Definition elsewhere (w w' : World) : Prop := fst w' = fst w /\ sent (snd w') = sent (snd w).

Inductive history (w0 : World) : list (World * Request * World) -> World -> Prop :=
  | history_start : history w0 [] w0
  | history_step h w w1 r w2 :
      history w0 h w -> elsewhere w w1 -> serve r w1 = Some (tt, w2) -> history w0 (h ++ [(w1, r, w2)]) w2.

Lemma serve_post r w : post (serve r) w (fun _ w' => runs_command w w' \/
  exists varName value c id, r = Write varName value c id /\ strcmp varName OPER = Some true /\ accepted env value c w w').
Proof.
  destruct r as [varName value c id|varName c id b|now|c|v b]; simpl.
  - apply post_bind. eapply post_mono; [apply write_object_post|]. intros i w' H. apply post_ret.
    destruct H as [H|[? H]]; [left; by apply calm_runs|right; eauto 10].
  - pose proof (calm_read_object varName c id b). eapply (within_post calm); [within_solve|]. intros _ w' H'. left. by apply calm_runs.
  - eapply within_post; [apply process_object_runs|]. by left.
  - eapply (within_post calm); [within_solve|]. intros _ w' H'. left. by apply calm_runs.
  - eapply within_post; [apply calm_updateControlModel|]. intros _ w' H'. left. by apply calm_runs.
Qed.

(** The history has the request that made the command: the parameters of the command are from
    there, and no later request has ended it. *)
Definition commanded (h : list (World * Request * World)) (cmd : option nat * option MmsValue * bool) : Prop :=
  exists h1 w1 varName value c id w2 h2,
    h = h1 ++ (w1, Write varName value c id, w2) :: h2 /\ strcmp varName OPER = Some true /\ accepted env value c w1 w2 /\
    cmd = (Some c, ctlVal (fst w2), testMode (fst w2)) /\ Forall (fun s => busy (snd s) = true) h2.

Lemma commanded_snoc h cmd s : busy (snd s) = true -> commanded h cmd -> commanded (h ++ [s]) cmd.
Proof.
  intros Hb (h1 & w1 & varName & value & c & id & w2 & h2 & -> & Hv & Ha & Hc & Hf).
  exists h1, w1, varName, value, c, id, w2, (h2 ++ [s]). rewrite <- app_assoc. simpl. split_and!; try done.
  apply Forall_app. split; [done|by constructor].
Qed.

Lemma history_inv w0 h w :
  busy w0 = false -> operations (sent (snd w0)) = [] -> history w0 h w ->
  (busy w = true -> commanded h (command w)) /\
  forall e, e ∈ operations (sent (snd w)) -> exists h1 s h2 c v t, h = h1 ++ s :: h2 /\ e = Operate c v t /\ commanded h1 (c, v, t).
Proof.
  intros Hb0 Ho0. induction 1 as [|h w w1 r w2 Hh [IHb IHo] [Eo Es] Hs].
  { split; [congruence|]. rewrite Ho0. by intros e He%elem_of_nil. }
  assert (E1 : busy w1 = busy w /\ command w1 = command w) by (unfold busy, command; by rewrite Eo). destruct E1 as [E1 E2].
  assert (Hkeep : forall e, e ∈ operations (sent (snd w)) -> exists h1 s h2 c v t, h ++ [(w1, r, w2)] = h1 ++ s :: h2 /\ e = Operate c v t /\ commanded h1 (c, v, t)).
  { intros e He. destruct (IHo e He) as (h1 & s & h2 & c & v & t & -> & -> & Hc).
    exists h1, s, (h2 ++ [(w1, r, w2)]), c, v, t. by rewrite <- app_assoc. }
  destruct (serve_post r w1 _ _ Hs) as [(Hb & n & Hop & Hn)|(varName & value & c & id & -> & Hv & Ha)].
  - split.
    + intros Hb2. destruct (Hb Hb2) as [Hb1 ->]. rewrite E2. apply commanded_snoc; [done|]. apply IHb. congruence.
    + intros e. rewrite Hop, Es, elem_of_app. intros [He|[-> Hn0]%elem_of_replicate]; [by apply Hkeep|].
      exists h, (w1, r, w2), [], (mmsConnection (fst w1)), (ctlVal (fst w1)), (testMode (fst w1)). split_and!; [done|done|].
      change (commanded h (command w1)). rewrite E2. apply IHb. rewrite <- E1. by apply Hn.
  - pose proof Ha as (val & test & Hm & Hc & Hu & Ht & Hop). split.
    + intros _. exists h, w1, varName, value, c, id, w2, []. split_and!; try done. unfold command. by rewrite Hc.
    + intros e. rewrite Hop, Es. apply Hkeep.
Qed.

End Requests.

(** ** The states of a control object

    The states of selection belong to the models with selection; a command that was accepted, and a
    selection that the application is asked for, have a client; nothing leads to
    [STATE_PERFORM_TEST]. *)
Definition consistent (o : ControlObject) : Prop :=
  match state o with
  | STATE_UNSELECTED => sbo_model (ctlModel o) = true
  | STATE_READY => True
  | STATE_WAIT_FOR_ACTIVATION_TIME | STATE_WAIT_FOR_EXECUTION | STATE_OPERATE => is_Some (mmsConnection o)
  | STATE_PERFORM_TEST => False
  | STATE_WAIT_FOR_SELECT => sbo_model (ctlModel o) = true /\ is_Some (mmsConnection o)
  end.

(** Operations that keep the states consistent: always; when the object has a client; when its model
    is one with selection; when both. *)
Definition sound (w w' : World) : Prop := ctlModel (fst w') = ctlModel (fst w) /\ (consistent (fst w) -> consistent (fst w')).
Definition linked (w w' : World) : Prop := is_Some (mmsConnection (fst w)) -> is_Some (mmsConnection (fst w')) /\ sound w w'.
Definition selectable (w w' : World) : Prop := sbo_model (ctlModel (fst w)) = true -> sound w w'.
Definition selecting (w w' : World) : Prop := sbo_model (ctlModel (fst w)) = true -> linked w w'.

#[export] Instance sound_preorder : PreOrder sound.
Proof. split; [done|]. intros w1 w2 w3 [] []. split; [congruence|auto]. Qed.
#[export] Instance linked_preorder : PreOrder linked.
Proof.
  split; [done|]. intros w1 w2 w3 H1 H2 Hc. destruct (H1 Hc) as [Hc2 S1]. destruct (H2 Hc2) as [Hc3 S2].
  split; [done|by etrans].
Qed.
#[export] Instance selectable_preorder : PreOrder selectable.
Proof.
  split; [done|]. intros w1 w2 w3 H1 H2 Hm. pose proof (H1 Hm) as S1. etrans; [exact S1|]. apply H2. by destruct S1 as [-> _].
Qed.
#[export] Instance selecting_preorder : PreOrder selecting.
Proof.
  split; [done|]. intros w1 w2 w3 H1 H2 Hm Hc. destruct (H1 Hm Hc) as [Hc2 S1].
  destruct (H2 ltac:(by destruct S1 as [-> _]) Hc2) as [Hc3 S2]. split; [done|by etrans].
Qed.

Lemma keeps_linked w w' : keeps w w' -> linked w w'.
Proof.
  unfold keeps, view. intros [= E1 E2 E3 E4 E5 E6] Hc. rewrite E3. split; [done|]. split; [done|]. unfold consistent. by rewrite E1, E2, E3.
Qed.
Lemma keeps_sound w w' : keeps w w' -> sound w w'.
Proof. unfold keeps, view. intros [= E1 E2 E3 E4 E5 E6]. split; [done|]. unfold consistent. by rewrite E1, E2, E3. Qed.
Lemma keeps_selectable w w' : keeps w w' -> selectable w w'.
Proof. intros H _. by apply keeps_sound. Qed.
Lemma linked_selecting w w' : linked w w' -> selecting w w'.
Proof. by intros H _. Qed.
#[export] Hint Extern 2 (within sound _) => apply (within_mono keeps _ _ keeps_sound); solve [auto 2 with control nocore] : control.
#[export] Hint Extern 2 (within selectable _) => apply (within_mono keeps _ _ keeps_selectable); solve [auto 2 with control nocore] : control.
#[export] Hint Extern 2 (within linked _) => apply (within_mono keeps _ _ keeps_linked); solve [auto 2 with control nocore] : control.
#[export] Hint Extern 3 (within selecting _) => apply (within_mono linked _ _ linked_selecting); solve [auto 4 with control nocore] : control.

(** Changes of other parts, of the client, of the state. *)
Lemma sound_modify f :
  (forall o, (state (f o), ctlModel (f o)) = (state o, ctlModel o) /\ (is_Some (mmsConnection o) -> is_Some (mmsConnection (f o)))) ->
  within sound (modify f).
Proof.
  intros H [o m] x w' [= <- <-]. destruct (H o) as [[= E1 E2] H3]. split; [done|]. simpl. unfold consistent. rewrite E1, E2.
  destruct (state o); naive_solver.
Qed.
Lemma linked_modify f :
  (forall o, (state (f o), ctlModel (f o)) = (state o, ctlModel o) /\ (is_Some (mmsConnection o) -> is_Some (mmsConnection (f o)))) ->
  within linked (modify f).
Proof.
  intros H w x w' E Hc. pose proof (sound_modify f H _ _ _ E). split; [|done]. destruct w as [o m]. injection E as <- <-. by apply H.
Qed.
Lemma sound_setState s : s = STATE_READY -> within sound (setState s).
Proof. by intros -> [o m] x w' [= <- <-]. Qed.
Lemma selectable_setState s : s = STATE_UNSELECTED -> within selectable (setState s).
Proof. by intros -> [o m] x w' [= <- <-]. Qed.
Lemma linked_setState s : executing s || bool_decide (s = STATE_READY) = true -> within linked (setState s).
Proof. intros H [o m] x w' [= <- <-] Hc. split; [done|]. split; [done|]. intros _. by destruct s. Qed.
Lemma selecting_setState s : s <> STATE_PERFORM_TEST -> within selecting (setState s).
Proof. intros H [o m] x w' [= <- <-] Hm Hc. split; [done|]. split; [done|]. intros _. by destruct s. Qed.
#[export] Hint Extern 1 (within sound (modify _)) => apply sound_modify; intros; split; [reflexivity|intros; first [done|assumption]] : control.
#[export] Hint Extern 1 (within linked (modify _)) => apply linked_modify; intros; split; [reflexivity|intros; first [done|assumption]] : control.
#[export] Hint Extern 1 (within sound (setState _)) => apply sound_setState; reflexivity : control.
#[export] Hint Extern 1 (within selectable (setState _)) => apply selectable_setState; reflexivity : control.
#[export] Hint Extern 1 (within linked (setState _)) => apply linked_setState; reflexivity : control.
#[export] Hint Extern 1 (within selecting (setState _)) => apply selecting_setState; discriminate : control.

Lemma post_model {A} (m : Z -> M A) w (Q : A -> World -> Prop) :
  post (m (ctlModel (fst w))) w Q -> post (x ← get ctlModel; m x) w Q.
Proof. intros H. by apply post_bind, post_get. Qed.

Section Sound.
Context (env : Environment).

Lemma selectable_unselectObject r : within selectable (unselectObject env r).
Proof. unfold unselectObject, getState. within_solve. Qed.
Hint Resolve selectable_unselectObject : control.

Lemma sound_checkSelectTimeout t : within sound (checkSelectTimeout env t).
Proof.
  apply post_within. intros w. unfold checkSelectTimeout. do 4 apply post_bind, post_get.
  destruct (sbo_model (ctlModel (fst w))) eqn:Hm; simpl; [|by apply post_ret].
  eapply (within_post selectable); [within_solve|]. intros _ w' H. by apply H.
Qed.

Lemma sound_abortControlOperation b r : within sound (abortControlOperation env b r).
Proof.
  apply post_within. intros w. unfold abortControlOperation. apply post_model, post_bind.
  eapply (post_mono _ _ (fun _ w' => sound w w')).
  - destruct (sbo_model (ctlModel (fst w))) eqn:Hm; [|eapply (within_post sound); [within_solve|]; done].
    assert (Hr : within selectable (setState STATE_READY)) by (by intros [o m] x w' [= <- <-]).
    eapply (within_post selectable); [within_solve|]. intros _ w' H. by apply H.
  - intros _ w1 H1. eapply (within_post sound); [within_solve|]. intros _ w2 H2. by etrans.
Qed.
Hint Resolve sound_checkSelectTimeout sound_abortControlOperation : control.

Lemma selecting_unselectObject r : within selecting (unselectObject env r).
Proof. unfold unselectObject, getState. within_solve. Qed.
Hint Resolve selecting_unselectObject : control.

Lemma linked_abortControlOperation b r : within linked (abortControlOperation env b r).
Proof.
  apply post_within. intros w. unfold abortControlOperation. apply post_model, post_bind.
  eapply (post_mono _ _ (fun _ w' => linked w w')).
  - destruct (sbo_model (ctlModel (fst w))) eqn:Hm; [|eapply (within_post linked); [within_solve|]; done].
    eapply (within_post selecting); [within_solve|]. intros _ w' H. by apply H.
  - intros _ w1 H1. eapply (within_post linked); [within_solve|]. intros _ w2 H2. by etrans.
Qed.
Hint Resolve linked_abortControlOperation : control.

(** *** Requests of clients *)

Lemma linked_claim {A} c (m : M A) : within linked m -> within sound (mmsConnection <:= Some c;; m).
Proof.
  intros Hm w x w' E. assert (S : sound w (set mmsConnection (const (Some c)) (fst w), snd w)).
  { assert (H : within sound (mmsConnection <:= Some c)) by auto with control. by apply (H w tt). }
  etrans; [exact S|]. unfold mbind, M_bind in E. simpl in E. by apply (Hm _ _ _ E).
Qed.
Lemma selecting_claim {A} c (m : M A) : within selecting m -> within selectable (mmsConnection <:= Some c;; m).
Proof.
  intros Hm w x w' E Hs. assert (S : sound w (set mmsConnection (const (Some c)) (fst w), snd w)).
  { assert (H : within sound (mmsConnection <:= Some c)) by auto with control. by apply (H w tt). }
  etrans; [exact S|]. unfold mbind, M_bind in E. simpl in E. by apply (Hm _ _ _ E).
Qed.

Lemma sound_operate_later c v i s t : within sound (operate_later env c v i s t).
Proof. unfold operate_later. do 3 (within_step; [by auto with control|]). apply linked_claim. within_solve. Qed.
Lemma sound_operate_now c id v n o i t : within sound (operate_now env c id v n o i t).
Proof. unfold operate_now. do 3 (within_step; [by auto with control|]). apply linked_claim. within_solve. Qed.
Hint Resolve sound_operate_later sound_operate_now : control.

Lemma sound_update_value f g u : (forall v, within sound (g v)) -> within sound (update_value f g u).
Proof. intros Hg. unfold update_value. within_solve. Qed.
Hint Extern 1 (within sound (update_value _ _ _)) => apply sound_update_value; intros; within_solve : control.

Lemma sound_operate p c id v n o i s t : within sound (operate env p c id v n o i s t).
Proof. unfold operate, operate_time, updateControlParameters. within_solve. Qed.
Hint Resolve sound_operate : control.

Lemma sound_operate_ready p c id v n o k t : within sound (operate_ready env p c id v n o k t).
Proof.
  unfold operate_ready. do 3 (within_step; [within_solve|]). apply post_within. intros w. apply post_model, post_bind, post_get.
  case_match eqn:Hlocked; [eapply within_post; [|done]; within_solve|]. apply post_bind.
  eapply (post_mono _ _ (fun b w' => w' = w /\ (b = false -> ctlModel (fst w) = 4))).
  { destruct (decide (ctlModel (fst w) = 4)) as [H4|H4]; [|by apply post_ret].
    eapply post_mono; [apply same_parameters_post|]. naive_solver. }
  intros [] w1 [-> Hm]; [eapply within_post; [|done]; within_solve|].
  eapply (within_post selectable); [within_solve|]. intros _ w2 H. apply H. by rewrite Hm.
Qed.
Hint Resolve sound_operate_ready : control.

Lemma sound_selectable w w' : sound w w' -> selectable w w'.
Proof. by intros H _. Qed.
Hint Extern 3 (within selectable _) => apply (within_mono sound _ _ sound_selectable); solve [auto 3 with control nocore] : control.

(** A part that runs for the models with selection only. *)
Lemma sound_if_sbo {A} (P : Z -> bool) (a : M A) (b : M A) :
  (forall m, P m = true -> sbo_model m = true) -> within selectable a -> within sound b ->
  within sound (m ← get ctlModel; if P m then a else b).
Proof.
  intros HP Ha Hb. apply post_within. intros w. apply post_model. destruct (P (ctlModel (fst w))) eqn:Hm.
  - eapply within_post; [exact Ha|]. intros _ w' H. apply H. auto.
  - by eapply within_post; [exact Hb|].
Qed.

Lemma sound_unselect_if {A} r (k : M A) :
  within sound k -> within sound (m ← get ctlModel; when (sbo_model m) (unselectObject env r);; k).
Proof.
  intros Hk. pose proof (sound_if_sbo sbo_model (unselectObject env r;; k) (mret tt;; k) ltac:(done)) as H.
  intros w x w' E. assert (Hs : within selectable (unselectObject env r;; k)).
  { within_step; [within_solve|]. by apply (within_mono sound _ _ sound_selectable). }
  specialize (H Hs ltac:(by within_solve) w x w').
  apply H. unfold mbind, M_bind in *. simpl in *. by destruct (sbo_model _).
Qed.

Lemma sound_write_Oper p c id : within sound (write_Oper env p c id).
Proof. unfold write_Oper, getState. repeat first [apply sound_unselect_if|within_step]. Qed.

Lemma sound_cancel_later i : within sound (cancel_later env i).
Proof. unfold cancel_later. within_solve. Qed.
Hint Resolve sound_cancel_later : control.

Lemma sound_write_Cancel p c : within sound (write_Cancel env p c).
Proof.
  unfold write_Cancel, getState. repeat first [apply sound_if_sbo; [done| |]|within_step].
Qed.

Lemma selecting_selectObject t c : is_Some c -> within selecting (selectObject env t c).
Proof.
  intros Hc. unfold selectObject. assert (H : within linked (mmsConnection <:= c)) by (apply linked_modify; done).
  pose proof (within_mono linked selecting _ linked_selecting H). within_solve.
Qed.

Lemma selecting_update_value f g u : (forall v, within linked (g v)) -> within selecting (update_value f g u).
Proof. intros Hg. apply (within_mono linked _ _ linked_selecting). unfold update_value. within_solve. Qed.
Hint Extern 1 (within selecting (update_value _ _ _)) => apply selecting_update_value; intros; within_solve : control.

(** The object is not in use: it has no client to lose. *)
Definition unused (w w' : World) : Prop :=
  (state (fst w'), ctlModel (fst w')) = (state (fst w), ctlModel (fst w)).
#[local] Instance unused_preorder : PreOrder unused.
Proof. split; [done|]. unfold unused. intros w1 w2 w3. congruence. Qed.
Lemma keeps_unused w w' : keeps w w' -> unused w w'.
Proof. unfold keeps, view, unused. congruence. Qed.
Lemma unused_modify f : (forall o, (state (f o), ctlModel (f o)) = (state o, ctlModel o)) -> within unused (modify f).
Proof. intros H [o m] x w' [= <- <-]. apply H. Qed.
Hint Extern 1 (within unused (modify _)) => apply unused_modify; reflexivity : control.
Hint Extern 2 (within unused _) => apply (within_mono keeps _ _ keeps_unused); solve [auto 2 with control nocore] : control.
Lemma unused_update_value f g u : (forall v, within unused (g v)) -> within unused (update_value f g u).
Proof. intros Hg. unfold update_value. within_solve. Qed.
Hint Extern 1 (within unused (update_value _ _ _)) => apply unused_update_value; intros; within_solve : control.

Lemma unused_sound w w' : state (fst w) = STATE_UNSELECTED -> unused w w' -> sound w w'.
Proof. intros Hs [= E1 E2]. split; [done|]. unfold consistent. by rewrite E1, E2, Hs. Qed.

Lemma selectable_selectObject t c : within selectable (selectObject env t (Some c)).
Proof. unfold selectObject. do 2 (within_step; [within_solve|]). apply selecting_claim. within_solve. Qed.
Hint Resolve selectable_selectObject : control.

Lemma unused_perform_select_check m v t i : within unused m -> within unused (perform_select_check env m v t i).
Proof. intros Hm. unfold perform_select_check. within_solve. Qed.
Hint Extern 1 (within unused (perform_select_check _ _ _ _ _)) => apply unused_perform_select_check; within_solve : control.

(** Not selected, and of a model with selection. *)
Definition unselected (w : World) : Prop := state (fst w) = STATE_UNSELECTED /\ sbo_model (ctlModel (fst w)) = true.

Lemma post_unused {A B} (m : M A) (k : A -> M B) w :
  unselected w -> within unused m -> (forall x w1, unselected w1 -> post (k x) w1 (fun _ w' => sound w1 w')) ->
  post (m ≫= k) w (fun _ w' => sound w w').
Proof.
  intros [Hs Hm] Hu Hk. apply post_bind. eapply within_post; [exact Hu|]. intros x w1 H1.
  assert (Hs1 : unselected w1) by (unfold unused in H1; injection H1 as E1 E2; split; congruence).
  eapply post_mono; [by apply Hk|]. intros y w2 H2. etrans; [by apply unused_sound|done].
Qed.

Lemma post_selectable {A} (m : M A) w : unselected w -> within selectable m -> post m w (fun _ w' => sound w w').
Proof. intros [_ Hs] Hm. eapply within_post; [exact Hm|]. intros _ w' H. by apply H. Qed.

Ltac unused_step := apply post_unused; [done|within_solve|let H := fresh "Hu" in intros ? ? H].

Lemma sound_select_with_value c id now v n o k t w :
  unselected w -> post (select_with_value env c id now v n o k t) w (fun _ w' => sound w w').
Proof.
  intros Hw. unfold select_with_value, updateControlParameters, update_status. do 7 unused_step.
  case_decide as Ha; [|case_decide as Hwait].
  - apply post_selectable; [done|]. within_solve.
  - apply post_selectable; [done|]. apply selecting_claim. within_solve.
  - do 4 unused_step. apply post_ret. reflexivity.
Qed.

Lemma checkSelectTimeout_other t w : state (fst w) <> STATE_READY -> post (checkSelectTimeout env t) w (fun _ w' => w' = w).
Proof.
  intros Hs. unfold checkSelectTimeout. do 4 apply post_bind, post_get.
  rewrite (bool_decide_eq_false_2 (state (fst w) = STATE_READY)), andb_false_r by done. by apply post_ret.
Qed.

Lemma sound_write_SBOw p c id : within sound (write_SBOw env p c id).
Proof.
  unfold write_SBOw. apply post_within. intros w. apply post_model. case_decide as Hm; [|by apply post_ret].
  post_keeps w w1 H1. destruct (getCtlVal p); [|by apply post_ret, keeps_sound].
  post_keeps w w2 H2. destruct x0; [|eapply (within_post sound); [within_solve|]; intros _ w3 H3; etrans; [by apply keeps_sound|done]].
  post_keeps w w3 H3. apply post_bind, post_get, post_bind, post_monotonic, post_bind.
  set (w4 := (fst w3, _)). assert (H4 : keeps w w4) by (etrans; [exact H3|done]). clearbody w4.
  assert (Es : state (fst w3) = state (fst w4) /\ ctlModel (fst w4) = 4) by (unfold keeps, view in H3, H4; split; congruence).
  destruct Es as [Es Em]. destruct (decide (state (fst w3) = STATE_UNSELECTED)) as [Hs|Hs].
  - eapply post_mono; [apply checkSelectTimeout_other; congruence|]. intros _ w5 ->.
    eapply post_mono; [apply sound_select_with_value|].
    { split; [congruence|by rewrite Em]. }
    intros ? w6 H6. etrans; [by apply keeps_sound|exact H6].
  - eapply (within_post sound); [within_solve|]. intros _ w5 H5.
    eapply (within_post sound); [within_solve|]. intros ? w6 H6. etrans; [by apply keeps_sound|]. by etrans.
Qed.

Lemma sound_read_SBO c id b : within sound (read_SBO env c id b).
Proof.
  unfold read_SBO. apply post_within. intros w. apply post_model. case_decide as Hm; [|by apply post_ret].
  apply post_bind, post_monotonic. destruct b; [|by apply post_ret].
  apply post_bind. eapply (within_post sound); [within_solve|]. intros _ w1 H1. apply post_bind, post_get.
  assert (S1 : sound w w1) by (etrans; [|exact H1]; by apply keeps_sound).
  case_decide as Hs; [|by apply post_ret].
  eapply (post_mono _ _ (fun _ w' => sound w1 w')); [|intros ? w2 H2; by etrans].
  assert (Hw : unselected w1) by (split; [done|]; destruct S1 as [-> _]; by rewrite Hm).
  do 3 unused_step. case_decide as Ha; [|case_decide as Hwait].
  - apply post_selectable; [done|]. within_solve.
  - apply post_selectable; [done|]. apply selecting_claim. within_solve.
  - apply post_selectable; [done|]. within_solve.
Qed.

(** *** The server thread *)

Lemma selecting_client {A} (k : option nat -> M A) :
  (forall c, within selecting (k (Some c))) -> within selecting (c ← get mmsConnection; k c).
Proof.
  intros Hk. apply post_within. intros w. apply post_bind, post_get. destruct (mmsConnection (fst w)) as [c|] eqn:Hc.
  - eapply within_post; [apply Hk|done].
  - intros x w' _ _ [y Hy]. congruence.
Qed.

Lemma selecting_selectObject' t c : within selecting (selectObject env t (Some c)).
Proof. by apply selecting_selectObject. Qed.
Hint Resolve selecting_selectObject' : control.

Lemma selecting_select_task now : within selecting (select_task env now).
Proof.
  unfold select_task, select_answer, select_with_value_answer. repeat first [apply selecting_client; intros|within_step].
Qed.

Lemma linked_execution_task b now : within linked (execution_task env b now).
Proof. unfold execution_task, execution_refused, execution_starts. within_solve. Qed.

Lemma linked_operate_task now : within linked (operate_task env now).
Proof.
  assert (He : forall e, within linked (emit e)) by by intros e [o m] x w' [= <- <-].
  unfold operate_task, operateControl. within_solve.
Qed.

Definition stays_consistent (w w' : World) : Prop := consistent (fst w) -> consistent (fst w').
#[local] Instance stays_consistent_preorder : PreOrder stays_consistent.
Proof. split; [by intros w H|]. intros w1 w2 w3 H1 H2 H. auto. Qed.
Lemma sound_stays w w' : sound w w' -> stays_consistent w w'.
Proof. by intros []. Qed.
Hint Extern 3 (within stays_consistent _) => apply (within_mono sound _ _ sound_stays); solve [auto 4 with control nocore] : control.

Lemma state_machine_consistent fuel now : within stays_consistent (state_machine env fuel now).
Proof.
  induction fuel as [|fuel IH]; cbn [state_machine]; [by intros w ? ?|]. apply post_within. intros w. apply post_bind, post_get.
  assert (Hexec : forall b, is_Some (mmsConnection (fst w)) ->
    post (again ← execution_task env b now; when again (state_machine env fuel now)) w (fun _ w' => stays_consistent w w')).
  { intros b Hc. apply post_bind. eapply within_post; [apply linked_execution_task|]. intros again w1 H1.
    eapply (within_post stays_consistent); [by within_solve|]. intros _ w2 H2. etrans; [by apply sound_stays, H1|done]. }
  assert (Hcons : consistent (fst w) -> post
    match state (fst w) with
    | STATE_WAIT_FOR_SELECT => select_task env now
    | STATE_WAIT_FOR_ACTIVATION_TIME => again ← execution_task env true now; when again (state_machine env fuel now)
    | STATE_WAIT_FOR_EXECUTION => again ← execution_task env false now; when again (state_machine env fuel now)
    | STATE_OPERATE => operate_task env now
    | STATE_UNSELECTED | STATE_READY | STATE_PERFORM_TEST => mret tt
    end w (fun _ w' => stays_consistent w w')).
  { unfold consistent. destruct (state (fst w)); intros Hc; try (by apply post_ret); try (by apply Hexec).
    - eapply within_post; [apply linked_operate_task|]. intros _ w' H. by apply sound_stays, H.
    - destruct Hc as [Hm Hc]. eapply within_post; [apply selecting_select_task|]. intros _ w' H. by apply sound_stays, H. }
  intros x w' E Hc. by apply (Hcons Hc _ _ E).
Qed.
Hint Resolve state_machine_consistent : control.

Lemma serve_consistent r : within stays_consistent (serve env r).
Proof.
  destruct r as [varName value c id|varName c id b|now|c|v b]; simpl.
  - pose proof (sound_write_SBOw value c id). pose proof (sound_write_Oper value c id). pose proof (sound_write_Cancel value c).
    unfold write_object, write_request. within_solve.
  - pose proof (sound_read_SBO c id b). unfold read_object. within_solve.
  - unfold process_object, process_state, activate, executeControlTask. within_solve.
  - unfold ControlObject_unselect. within_solve.
  - apply post_within. intros w. unfold ControlObject_updateControlModel.
    apply post_bind, post_modify, post_model, post_bind. simpl.
    eapply (post_mono _ _ (fun _ w' => consistent (fst w'))).
    { destruct (sbo_model _) eqn:Hm; apply post_modify; [exact Hm|done]. }
    intros _ w1 H1. eapply (within_post stays_consistent); [within_solve|]. intros _ w2 H2 _. by apply H2.
Qed.

End Sound.

(** ** Samples *)

(** The state after a list of requests, with the history. *)
Fixpoint play (env : Environment) (rs : list Request) (h : list (World * Request * World)) (w : World)
    : option (list (World * Request * World) * World) :=
  match rs with
  | [] => Some (h, w)
  | r :: rs => '(_, w') ← serve env r w; play env rs (h ++ [(w, r, w')]) w'
  end.

Lemma play_history env w0 rs : forall h w h' w', history env w0 h w -> play env rs h w = Some (h', w') -> history env w0 h' w'.
Proof.
  induction rs as [|r rs IH]; intros h w h' w' Hh; cbn [play]; [by intros [= <- <-]|].
  destruct (serve env r w) as [[[] w1]|] eqn:Es; [|done]. apply IH. by eapply history_step.
Qed.

Definition sample_origin : MmsValue :=
  MmsStructure [Some (MmsInteger (BerInteger.Build_Asn1PrimitiveValue 1 5 [2; 0; 0; 0; 0]));
    Some (MmsOctetString 2 64 (104 :: 105 :: replicate 62 0))].
Definition sample_number : MmsValue := MmsUnsigned (BerInteger.Build_Asn1PrimitiveValue 1 2 [7; 0]).
Definition sample_check : MmsValue := MmsBitString 2 [0].
Definition sample_integer : MmsValue := MmsInteger (BerInteger.Build_Asn1PrimitiveValue 1 5 (replicate 5 0)).
Definition no_time : MmsValue := MmsUtcTime (replicate 8 0).
(** 1000 s after the epoch. *)
Definition some_time : MmsValue := MmsUtcTime [0; 0; 3; 232; 0; 0; 0; 0].

(** A command to switch to [b], without and with a time of execution. *)
Definition command_of (b : bool) : MmsValue :=
  MmsStructure [Some (MmsBoolean b); Some sample_origin; Some sample_number; Some no_time; Some (MmsBoolean false); Some sample_check].
Definition timed_command_of (b : bool) (t : MmsValue) : MmsValue :=
  MmsStructure [Some (MmsBoolean b); Some t; Some sample_origin; Some sample_number; Some no_time; Some (MmsBoolean false); Some sample_check].
Definition cancel_command : MmsValue :=
  MmsStructure [Some (MmsBoolean true); Some sample_origin; Some sample_number; Some no_time; Some (MmsBoolean false)].

(** The control object [LD0/CSWI1.Pos]. *)
Definition sample_control (model : Z) (oper_value : MmsValue) : ControlObject := {|
  mmsDomain := {| domain := 1%nat; domainName := text [76; 68; 48] |};
  lnName := text [67; 83; 87; 73; 49]; name := text [80; 111; 115];
  state := if sbo_model model then STATE_UNSELECTED else STATE_READY;
  ctlModel := model; pendingEvents := 0; testMode := false; interlockCheck := false; synchroCheck := false;
  timeActivatedOperate := false; isSelect := false; addCauseValue := 0; errorValue := 0; mmsValue := None;
  oper := Some oper_value; sbo := Some (MmsVisibleString (Some (text [80; 111; 115])) 3); sbow := Some (command_of false); cancel := Some cancel_command;
  ctlVal := Some (MmsBoolean false); ctlNum := Some sample_number; origin := Some sample_origin; T := replicate 8 0;
  ctlNumSt := None; originSt := None; stSeld := true; opRcvd := false; opOk := true; tOpOk := None;
  error := Some sample_integer; addCause := Some sample_integer;
  selectTime := 0; selectTimeout := 0; sboClass := None; sboTimeout := None; operateTime := 0;
  mmsConnection := None; operateInvokeId := 0; cdc := CST_NONE |}.

(** Two clients are connected. *)
Definition sample_mapping : Mapping := {|
  nextControlTimeout := 0; nextRealTimeControlTimeout := 0; clientConnections := <[1%nat := 0]> (<[2%nat := 0]> ∅);
  calls := 0; memory := []; sent := [] |}.

Definition answer (r : Z) : Answer := {| result := r; setError := None; setAddCause := None |}.

(** Handlers that give the same answers always, at a fixed time. *)
Definition sample_environment (real mono check execute : Z) : Environment := {|
  timeInMs := fun _ => real; monotonicTimeInMs := fun _ => mono;
  checkHandler := Some (fun _ _ _ _ => answer check);
  waitForExecutionHandler := None;
  operateHandler := Some (fun _ _ _ => answer execute);
  selectStateChangedHandler := true; timeQuality := 0; subElement := fun _ => None |}.

(** Client 1 selects the object, with enhanced security, and operates it. *)
Definition sample_requests : list Request :=
  [Write SBOW (command_of true) 1 10; Write OPER (command_of true) 1 11; Cycle 5000].
Definition sample_env : Environment := sample_environment 100000 5000 CONTROL_ACCEPTED CONTROL_RESULT_OK.
Definition sample_world (model : Z) : World := (sample_control model (command_of false), sample_mapping).

Example sample_select_and_operate :
  (('(_, w) ← play sample_env sample_requests [] (sample_world 4);
    Some (state (fst w), filter (fun e => is_operation e = true) (sent (snd w)))) =
   Some (STATE_UNSELECTED, [Operate (Some 1%nat) (Some (MmsBoolean true)) false])).
Proof. vm_compute. reflexivity. Qed.

(** ** Properties *)



(** C19: The states of a control object are consistent: after every sequence of requests, it is
    unselected, or the application is asked to select it, only under a control model with selection;
    when a command is waiting or executed, or the application is asked about a selection, there is
    the client that the answer goes to; and the state "perform test" is never entered. *)
Theorem control_consistent env w0 h w : history env w0 h w -> consistent (fst w0) -> consistent (fst w).
Proof.
  induction 1 as [|h w w1 r w2 Hh IH [Eo _] Hs]; intros H0; [done|].
  apply (serve_consistent env r _ _ _ Hs). rewrite Eo. auto.
Qed.

Lemma control_consistent_witness :
  exists h w, play sample_env sample_requests [] (sample_world 4) = Some (h, w) /\ consistent (fst w).
Proof.
  destruct (play sample_env sample_requests [] (sample_world 4)) as [[h w]|] eqn:E; [|by vm_compute in E].
  exists h, w. split; [done|]. apply (control_consistent sample_env (sample_world 4) h).
  - eapply play_history; [apply history_start|exact E].
  - reflexivity.
Defined.

(** ** The time of a selection *)

Lemma handlePendingEvents_total w : exists w', ControlObject_handlePendingEvents w = Some (tt, w') /\ keeps w w' /\
  nextControlTimeout (snd w') = nextControlTimeout (snd w) /\ selectTime (fst w') = selectTime (fst w) /\
  exists l, sent (snd w') = sent (snd w) ++ l.
Proof.
  assert (Hs : forall e a v p w, exists w', handle_pending e a v p w = Some (tt, w') /\
    nextControlTimeout (snd w') = nextControlTimeout (snd w) /\ selectTime (fst w') = selectTime (fst w) /\ exists l, sent (snd w') = sent (snd w) ++ l).
  { intros e a v p w0. destruct w0 as [o m]. unfold handle_pending, when, emit, mapping_modify, modify, get, mbind, M_bind, mret, M_ret. simpl.
    case_bool_decide; [|eexists; split; [done|]; split_and!; [done|done|exists []; by rewrite app_nil_r]].
    change (p (o, m).1) with (p o). destruct (p o); (eexists; split; [reflexivity|]; simpl; split_and!; [done|done|]); [by eexists|exists []; by rewrite app_nil_r]. }
  assert (E : exists w', ControlObject_handlePendingEvents w = Some (tt, w') /\
    nextControlTimeout (snd w') = nextControlTimeout (snd w) /\ selectTime (fst w') = selectTime (fst w) /\ exists l, sent (snd w') = sent (snd w) ++ l).
  { unfold ControlObject_handlePendingEvents, when, get, mbind, M_bind, mret, M_ret. simpl.
    case_bool_decide; [|exists w; split_and!; [done|done|done|exists []; by rewrite app_nil_r]].
    cbn. do 6 (match goal with |- context [handle_pending ?e ?a ?v ?p ?w] =>
      destruct (Hs e a v p w) as (? & -> & ? & ? & ? & ?); cbn [mbind option_bind] end).
    eexists. split; [reflexivity|]. split; [congruence|]. split; [congruence|].
    repeat match goal with H : sent _ = _ ++ _ |- _ => rewrite H; clear H end. rewrite <- !app_assoc. by eexists. }
  destruct E as (w' & E & H). exists w'. split; [done|]. split; [|done]. by eapply keeps_handlePendingEvents.
Qed.

Lemma run_get {A B} (f : ControlObject -> A) (k : A -> M B) w : (get f ≫= k) w = k (f (fst w)) w.
Proof. done. Qed.
Lemma run_bind {A B} (m : M A) (k : A -> M B) w x w1 : m w = Some (x, w1) -> (m ≫= k) w = k x w1.
Proof. intros E. unfold mbind, M_bind. by rewrite E. Qed.

Lemma unselectObject_run env r o m : state o <> STATE_UNSELECTED ->
  exists o' m', unselectObject env r (o, m) = Some (tt, (o', m')) /\ state o' = STATE_UNSELECTED /\ nextControlTimeout m' = 0 /\
    (selectStateChangedHandler env = true -> SelectStateChanged false r ∈ sent m').
Proof.
  intros Hs. unfold unselectObject, getState. rewrite run_get. rewrite bool_decide_eq_true_2 by done. cbn [when].
  unfold setStSeld, selectStateChanged, when.
  destruct (stSeld o) eqn:Hst; destruct (selectStateChangedHandler env); eexists _, _;
    (split; [unfold setState, set_pending, emit, modify, mapping_modify, get, mbind, M_bind; cbn; rewrite Hst; reflexivity|]);
    cbn; (split; [done|]; split; [done|]); try done; intros _; apply elem_of_app; right; left.
Qed.

(** C22: A selection lasts as long as its time-out, and no longer: when the server thread comes to a
    selected object after the time-out, it unselects it and tells the application so, and comes back
    in its next cycle; before that the selection stays with its client, and the thread comes back for
    the time-out at the latest. *)
Theorem selection_expires env now o m :
  state o = STATE_READY -> sbo_model (ctlModel o) = true -> selectTimeout o > 0 ->
  let deadline := u64 (selectTime o + selectTimeout o) in
  exists o' m', process_object env now (o, m) = Some (tt, (o', m')) /\
    if decide (now > deadline) then
      state o' = STATE_UNSELECTED /\ nextControlTimeout m' = 0 /\
      (selectStateChangedHandler env = true -> SelectStateChanged false SELECT_STATE_REASON_TIMEOUT ∈ sent m')
    else
      state o' = STATE_READY /\ mmsConnection o' = mmsConnection o /\ selectTime o' = selectTime o /\
      nextControlTimeout m' = Z.min (nextControlTimeout m) deadline.
Proof.
  intros Hs Hm Ht deadline.
  assert (Hmodel : bool_decide (ctlModel o = 1 \/ ctlModel o = 3) = false).
  { unfold sbo_model in Hm. apply bool_decide_eq_true in Hm. apply bool_decide_eq_false. lia. }
  assert (Hcheck : exists o1 m1, checkSelectTimeout env now (o, m) = Some (tt, (o1, m1)) /\
    if decide (now > deadline) then
      state o1 = STATE_UNSELECTED /\ nextControlTimeout m1 = 0 /\
      (selectStateChangedHandler env = true -> SelectStateChanged false SELECT_STATE_REASON_TIMEOUT ∈ sent m1)
    else o1 = o /\ nextControlTimeout m1 = Z.min (nextControlTimeout m) deadline).
  { unfold checkSelectTimeout, getState. rewrite !run_get. cbn [fst].
    rewrite Hm, (bool_decide_eq_true_2 (state o = STATE_READY)), (bool_decide_eq_true_2 (selectTimeout o > 0)) by done. cbn [andb when].
    fold deadline. destruct (decide (now > deadline)) as [Hd|Hd].
    - destruct (unselectObject_run env SELECT_STATE_REASON_TIMEOUT o m) as (o1 & m1 & E & H); [by rewrite Hs|]. eauto.
    - unfold updateNextControlTimeout, mapping_get, when, mbind, M_bind. cbn.
      destruct (bool_decide (deadline < nextControlTimeout m)) eqn:Hb;
        [apply bool_decide_eq_true in Hb|apply bool_decide_eq_false in Hb];
        eexists _, _; (split; [reflexivity|]); (split; [done|]); cbn; lia. }
  destruct Hcheck as (o1 & m1 & E & H). destruct (handlePendingEvents_total (o1, m1)) as ([o2 m2] & E2 & Hk & Hn & Ht2 & l & Hl).
  exists o2, m2. split.
  - unfold process_object. rewrite !run_get. cbn [fst]. rewrite Hmodel, andb_false_r. cbn [andb].
    rewrite (run_bind _ _ _ tt (o1, m1)); [done|]. unfold process_state. rewrite run_get. cbn [fst]. by rewrite Hs.
  - cbn [fst snd] in *. unfold keeps, view in Hk. injection Hk as K1 K2 K3 K4 K5 K6. cbn [fst snd] in *.
    destruct (decide (now > deadline)) as [Hd|Hd].
    + destruct H as (? & ? & He). split_and!; [congruence|congruence|]. intros Hh. rewrite Hl. apply elem_of_app. left. auto.
    + destruct H as [-> Hnext]. split_and!; congruence.
Qed.

Lemma selection_expires_witness :
  let o := (sample_control 4 (command_of false)) <| state := STATE_READY |> <| selectTime := 4000 |> <| selectTimeout := 500 |> <| mmsConnection := Some 1%nat |> in
  let deadline := u64 (selectTime o + selectTimeout o) in
  exists o' m', process_object sample_env 5000 (o, sample_mapping) = Some (tt, (o', m')) /\
    if decide (5000 > deadline) then
      state o' = STATE_UNSELECTED /\ nextControlTimeout m' = 0 /\
      (selectStateChangedHandler sample_env = true -> SelectStateChanged false SELECT_STATE_REASON_TIMEOUT ∈ sent m')
    else
      state o' = STATE_READY /\ mmsConnection o' = mmsConnection o /\ selectTime o' = selectTime o /\
      nextControlTimeout m' = Z.min (nextControlTimeout sample_mapping) deadline.
Proof.
  intros o. apply (selection_expires sample_env 5000 o sample_mapping); reflexivity.
Defined.

(** ** Cases that go wrong *)

(** A command for later that the application refuses leaves its mark: the object is ready, but the
    next command is not executed. *)
Definition refusing (real : Z) : Environment := sample_environment real 5000 CONTROL_HARDWARE_FAULT CONTROL_RESULT_OK.
Definition accepting (real : Z) : Environment := sample_environment real 5000 CONTROL_ACCEPTED CONTROL_RESULT_OK.
Example refused_command_blocks :
  ('(i, w) ← write_object (refusing 5000) OPER (timed_command_of true some_time) 1 10 (sample_world 1);
   '(j, w') ← write_object (accepting 5000) OPER (timed_command_of true no_time) 1 11 w;
   Some (i, state (fst w), j, state (fst w'))) =
  Some (CONTROL_HARDWARE_FAULT, STATE_READY, DATA_ACCESS_ERROR_OBJECT_ACCESS_DENIED, STATE_READY).
Proof. vm_compute. reflexivity. Qed.

(** The same after a connection was closed while a command waited for its time. *)
Example closed_connection_blocks :
  ('(i, w) ← write_object (accepting 5000) OPER (timed_command_of true some_time) 1 10 (sample_world 1);
   '(_, w) ← ControlObject_unselect (accepting 5000) 1 w;
   '(j, w) ← write_object (accepting 5000) OPER (timed_command_of true no_time) 2 11 w;
   Some (i, j, state (fst w))) =
  Some (DATA_ACCESS_ERROR_SUCCESS, DATA_ACCESS_ERROR_OBJECT_ACCESS_DENIED, STATE_READY).
Proof. vm_compute. reflexivity. Qed.

(** Under a model with selection a cancelled command for later leaves the mark too: the next
    [Oper] of a selected object is denied. *)
Example cancelled_command_blocks :
  ('(_, w) ← write_object (accepting 5000) SBOW (command_of true) 1 10 (sample_world 4);
   '(i, w) ← write_object (accepting 5000) OPER (timed_command_of true some_time) 1 11 w;
   '(j, w) ← write_object (accepting 5000) CANCEL cancel_command 1 12 w;
   '(_, w) ← write_object (accepting 5000) SBOW (command_of true) 1 13 w;
   '(k, w) ← write_object (accepting 5000) OPER (command_of true) 1 14 w;
   Some (i, j, k, state (fst w))) =
  Some (DATA_ACCESS_ERROR_SUCCESS, DATA_ACCESS_ERROR_SUCCESS, DATA_ACCESS_ERROR_OBJECT_ACCESS_DENIED, STATE_READY).
Proof. vm_compute. reflexivity. Qed.

(** ... and where the class is "operate many" a second [Cancel] selects the object. *)
Definition operate_many : MmsValue := MmsInteger (BerInteger.Build_Asn1PrimitiveValue 1 5 [1; 0; 0; 0; 0]).
Example cancel_selects :
  ('(_, w) ← write_object (accepting 5000) SBOW (command_of true) 1 10 ((sample_control 4 (command_of false)) <| sboClass := Some operate_many |>, sample_mapping);
   '(_, w) ← write_object (accepting 5000) OPER (timed_command_of true some_time) 1 11 w;
   '(_, w) ← write_object (accepting 5000) CANCEL cancel_command 1 12 w;
   '(i, w') ← write_object (accepting 5000) CANCEL cancel_command 2 13 w;
   Some (state (fst w), i, state (fst w'), mmsConnection (fst w'))) =
  Some (STATE_UNSELECTED, DATA_ACCESS_ERROR_SUCCESS, STATE_READY, Some 1%nat).
Proof. vm_compute. reflexivity. Qed.

(** A client that did not select the object cancels the command for later of the one that did. *)
Example cancel_of_other_client :
  ('(_, w) ← write_object (accepting 5000) SBOW (command_of true) 1 10 (sample_world 4);
   '(_, w) ← write_object (accepting 5000) OPER (timed_command_of true some_time) 1 11 w;
   '(i, w') ← write_object (accepting 5000) CANCEL cancel_command 2 12 w;
   Some (state (fst w), i, state (fst w'))) =
  Some (STATE_WAIT_FOR_ACTIVATION_TIME, DATA_ACCESS_ERROR_SUCCESS, STATE_UNSELECTED).
Proof. vm_compute. reflexivity. Qed.

(** [SBOw] looks at the state before it looks at the time: the first selection after the time-out
    of another one is refused, although the object is not selected any more. *)
Definition later (mono : Z) : Environment := sample_environment 5000 mono CONTROL_ACCEPTED CONTROL_RESULT_OK.
Example select_after_timeout :
  ('(_, w) ← write_object (later 5000) SBOW (command_of true) 1 10 (sample_world 4);
   '(i, w) ← write_object (later 100000) SBOW (command_of true) 2 11 w;
   '(j, w') ← write_object (later 100000) SBOW (command_of true) 2 12 w;
   Some (i, state (fst w), j, state (fst w'))) =
  Some (DATA_ACCESS_ERROR_TEMPORARILY_UNAVAILABLE, STATE_UNSELECTED, DATA_ACCESS_ERROR_SUCCESS, STATE_READY).
Proof. vm_compute. reflexivity. Qed.

(** Every command ends its task twice. *)
Example tasks_of_a_connection :
  ('(_, w) ← write_object sample_env OPER (command_of true) 1 10 (sample_world 1);
   '(_, w') ← process_object sample_env 5000 w;
   Some (clientConnections (snd w) !! 1%nat, clientConnections (snd w') !! 1%nat)) = Some (Some 1, Some (-1)).
Proof. vm_compute. reflexivity. Qed.

(** With "operate many" an object is selected again after a command, but the server thread is not
    told to look for its time-out. *)
Example no_timeout_after_operate :
  ('(_, w) ← write_object sample_env SBOW (command_of true) 1 10 ((sample_control 4 (command_of false)) <| sboClass := Some operate_many |>, sample_mapping);
   '(_, (o, m)) ← write_object sample_env OPER (command_of true) 1 11 w;
   '(objs, m) ← Control_processControlActions sample_env 5000 [o] m;
   '(objs, m) ← Control_processControlActions (sample_environment 1000000 1000000 CONTROL_ACCEPTED CONTROL_RESULT_OK) 1000000 objs m;
   Some (map state objs, map selectTimeout objs, map selectTime objs)) = Some ([STATE_READY], [15000], [5000]).
Proof. vm_compute. reflexivity. Qed.

(** A client that cancels while the application is asked about its selection gets no answer to the
    selection: nothing is sent for it any more. *)
Definition asking : Environment := sample_environment 5000 5000 CONTROL_WAITING_FOR_SELECT CONTROL_RESULT_OK.
Definition is_answer (e : Event) : bool := match e with WriteResponse _ _ _ _ | ReadResponse _ _ _ => true | _ => false end.
Example cancelled_selection_unanswered :
  ('(i, w) ← write_object asking SBOW (command_of true) 1 10 (sample_world 4);
   '(_, w) ← write_object asking CANCEL cancel_command 1 11 w;
   '(_, w) ← process_object asking 6000 w;
   Some (i, state (fst w), filter (fun e => is_answer e = true) (sent (snd w)))) = Some (DATA_ACCESS_ERROR_NO_RESPONSE, STATE_UNSELECTED, []).
Proof. vm_compute. reflexivity. Qed.

End ControlSafety.
