(* ===== verification/ControlDefined.v ===== *)
(** * Writes to controls are defined

    The services of [Control.v] that clients reach by writing never run into undefined behaviour on
    a well-formed control object, as long as the parameters have passed the type check of the write
    service ([TypeSpec.isValueOfType]); the examples at the end are parameters that do not pass it,
    on which they do.

    [defined k m P]: from a world that is [fit], with room for [k] changes of the number of tasks of
    a connection, [m] has a result, which satisfies [P], in a world that is fit. *)

From stdpp Require Import list gmap.
From S2P Require Import Prelude Alloc BerInteger MmsValue StringUtils IecCommon TypeSpec Control ControlSafety.
From coqutil Require Import Datatypes.RecordSettersUsingExistingGetters.

Module ControlDefined.
Import Alloc MmsValue Control ControlSafety.
Import StringUtils.

(** ** Strings and values *)

Definition is_cstr (b : list Z) : Prop := exists s, cstr b s.

Lemma cstr_rd b : is_cstr b -> exists n, 0 <= n < zlen b /\ rd b n = Some 0 /\ forall i, 0 <= i <= n -> is_Some (rd b i).
Proof.
  intros (s & [rest ->] & Hs). exists (zlen s). rewrite length_app. simpl. split; [lia|]. split; [apply rd_mid|].
  intros i Hi. destruct (rd_Some (s ++ 0 :: rest) i) as [x ->]; [rewrite length_app; simpl; lia|done].
Qed.

Lemma append_loop_total max str n : rd str n = Some 0 -> (forall i, 0 <= i <= n -> is_Some (rd str i)) ->
  forall fuel dest i p, 0 <= i <= max -> 0 <= p <= n -> max - i < Z.of_nat fuel -> zlen dest = max ->
  exists dest' i', append_loop fuel dest str max i p = Some (dest', i') /\ zlen dest' = max /\ 0 <= i' <= max.
Proof.
  intros Hn0 Hrd. induction fuel as [|fuel IH]; intros dest i p Hi Hp Hf Hd; cbn [append_loop]; [lia|].
  case_decide as Hm; [|by exists dest, i]. destruct (Hrd p Hp) as [x Hx]. rewrite Hx. cbn [mbind option_bind].
  case_decide as H0; [exists dest, i; split_and!; lia || done|].
  rewrite wr_Some by lia. cbn [mbind option_bind]. apply IH; [lia| |lia|by rewrite length_insert].
  destruct (decide (p = n)); [congruence|lia].
Qed.

Lemma find_end_total dest max fuel i : 0 <= i <= max -> max - i < Z.of_nat fuel -> zlen dest = max ->
  exists i', find_end fuel dest max i = Some i' /\ 0 <= i' <= max.
Proof.
  revert i. induction fuel as [|fuel IH]; intros i Hi Hf Hd; cbn [find_end]; [lia|].
  case_decide as Hm; [|by exists i]. destruct (rd_Some dest i) as [x ->]; [lia|]. cbn [mbind option_bind].
  case_decide as H0; [by exists i|]. apply IH; lia.
Qed.

Lemma appendString_total dest max str : 0 < max -> zlen dest = max -> is_cstr str ->
  exists dest', appendString dest max str = Some dest' /\ zlen dest' = max.
Proof.
  intros Hm Hd Hs. destruct (cstr_rd str Hs) as (n & Hn & Hn0 & Hrd). unfold appendString, terminate.
  destruct (find_end_total dest max (S (Z.to_nat max)) 0) as (i & -> & Hi); [lia..|]. cbn [mbind option_bind].
  case_decide as Hend; [rewrite decide_True by lia; rewrite wr_Some by lia; eexists; by rewrite length_insert|].
  destruct (append_loop_total max str n Hn0 Hrd (S (Z.to_nat max)) dest i 0) as (d & j & -> & Hd' & Hj); [lia..|].
  cbn [mbind option_bind]. case_decide as Hj'; [rewrite decide_True by lia|]; rewrite wr_Some by lia; eexists; by rewrite length_insert.
Qed.

Lemma append_all_total max strs : 0 < max -> Forall is_cstr strs -> forall dest, zlen dest = max ->
  exists dest', append_all dest max strs = Some dest' /\ zlen dest' = max.
Proof.
  intros Hm. induction 1 as [|str strs Hs _ IH]; intros dest Hd; cbn [append_all]; [eauto|].
  destruct (appendString_total dest max str Hm Hd Hs) as (d & -> & Hd'). by apply IH.
Qed.

Lemma createStringInBuffer_total max strs : 0 < max -> Forall is_cstr strs ->
  exists s, createStringInBuffer (fresh max) max strs = Some s.
Proof.
  intros Hm Hs. unfold createStringInBuffer. rewrite decide_True by lia.
  assert (Hl : zlen (fresh max) = max) by (unfold fresh; rewrite length_replicate; lia).
  rewrite wr_Some by lia. cbn [mbind option_bind].
  edestruct (append_all_total max strs Hm Hs) as (d & -> & _); [|eauto]. by rewrite length_insert.
Qed.

Lemma text_cstr s : Forall (fun x => x <> 0) s -> is_cstr (text s).
Proof. intros H. exists s. split; [by exists []|done]. Qed.

Lemma strcmp_total a b : is_cstr a -> is_cstr b -> exists r, strcmp a b = Some r.
Proof.
  intros Ha Hb. destruct (cstr_rd a Ha) as (n & Hn & Hn0 & Hra). destruct (cstr_rd b Hb) as (m & Hm & Hm0 & Hrb).
  unfold strcmp.
  assert (H : forall fuel i, 0 <= i <= n -> i <= m -> n - i < Z.of_nat fuel -> exists r, strcmp_loop fuel a b i = Some r).
  { induction fuel as [|fuel IH]; intros i Hi Hi' Hf; cbn [strcmp_loop]; [lia|].
    destruct (Hra i Hi) as [x Hx], (Hrb i ltac:(lia)) as [y Hy]. rewrite Hx, Hy. cbn [mbind option_bind].
    case_decide as Hxy; [eauto|]. case_decide as H0; [eauto|].
    apply IH; [|destruct (decide (i = m)); [congruence|lia]|lia]. destruct (decide (i = n)); [congruence|lia]. }
  apply H; [lia..|]. lia.
Qed.

Lemma components_equal_total cs : all_components (fun v => forall u, wf v -> wf u -> exists b, equals v u = Some b) cs ->
  forall us, all_wf wf cs -> all_wf wf us -> zlen cs = zlen us ->
  exists b, components_equal (fun c o => match c, o with Some c, Some o => equals c o | _, _ => Some false end) cs us = Some b.
Proof.
  induction 1 as [|c cs Hc _ IH]; intros [|u us] Hw Hu Hl; simpl in Hl; try lia; cbn [components_equal]; [eauto|].
  destruct Hw as [Hc1 Hw], Hu as [Hu1 Hu]. destruct c as [c|], u as [u|]; try done.
  destruct (Hc u Hc1 Hu1) as [b ->]. cbn [mbind option_bind]. destruct b; [apply IH; done || lia|eauto].
Qed.

Lemma memcmp_wf_total n a b m k : 0 <= n <= m -> n <= k -> wf_buf a m -> wf_buf b k -> exists r, memcmp n a b = Some r.
Proof. intros ?? [_ ?] [_ ?]. rewrite memcmp_spec by lia. eauto. Qed.

Lemma equals_total v : forall u, wf v -> wf u -> exists b, equals v u = Some b.
Proof.
  induction v as [cs Hcs|cs Hcs|v Hleaf] using MmsValue_ind'; intros u Hv Hu.
  { destruct u; try (by eexists). cbn [equals]. case_decide; [by apply components_equal_total|eauto]. }
  { destruct u; try (by eexists). cbn [equals]. case_decide; [by apply components_equal_total|eauto]. }
  destruct v as [cs|cs|x|n b|i|i|ew fw b|n mx b|b n|b n|n b|t|e];
    try (exfalso; by edestruct (Hleaf cs)); destruct u; try (by eexists); cbn [wf] in Hv, Hu; cbn [equals].
  all: try case_decide; subst; try (by eexists).
  - destruct Hv as [Hs Hb], Hu as [_ Hu]. pose proof (bitStringByteSize_bound _ Hs). eapply memcmp_wf_total; [| |done..]; lia.
  - rewrite BerInteger.compare_spec by done. eauto.
  - rewrite BerInteger.compare_spec by done. eauto.
  - destruct Hv as [Hf Hb], Hu as [_ Hu]. eapply memcmp_wf_total; [| |done..]; destruct Hf as [-> | ->]; by vm_compute.
  - destruct Hv as (Hb & Hs & _), Hu as (Hu & Hs' & _). eapply memcmp_wf_total; [| |done..]; lia.
  - destruct Hv as (x & s & -> & Hx & _), Hu as (y & r & -> & Hy & _). apply strcmp_total; by eexists.
  - destruct Hv as (x & s & -> & Hx & _), Hu as (y & r & -> & Hy & _). apply strcmp_total; by eexists.
  - destruct Hv as [Hs Hb], Hu as [_ Hu]. eapply memcmp_wf_total; [| |done..]; lia.
  - eapply memcmp_wf_total; [| |done..]; lia.
Qed.

Lemma update_total v u : wf v -> wf u -> exists w r, update v u [] = Some ((w, r), []) /\ wf w.
Proof.
  intros Hv Hu. destruct (update_runs v u Hv Hu []) as ([w r] & mem & used & E & Eu & H).
  symmetry in Eu. apply app_eq_nil in Eu as [-> ->]. exists w, r. split; [done|]. by apply H.
Qed.

Definition opt_wf (v : option MmsValue) : Prop := match v with Some v => wf v | None => True end.

Lemma MmsValue_update_total v u : opt_wf v -> opt_wf u -> exists w r, MmsValue_update v u [] = Some ((w, r), []) /\ opt_wf w.
Proof.
  destruct v as [v|], u as [u|]; intros Hv Hu; try (by eexists _, false). simpl.
  destruct (update_total v u Hv Hu) as (w & r & E & Hw). unfold m_bind. rewrite E. by eexists _, _.
Qed.

Lemma setInt32_total i x : BerInteger.wf i -> is_s32 x ->
  exists j, setInt32 (MmsInteger i) x = Some (MmsInteger j) /\ BerInteger.wf j.
Proof.
  intros Hi Hx. simpl. unfold set_integer. case_decide as Hm; [|eauto].
  destruct (BerInteger.setInt32_spec i x) as (j & -> & Hj & _); [done|lia|done|]. by exists j.
Qed.

Lemma toInt32_total v : wf v -> exists x, toInt32 v = Some x.
Proof. destruct v; simpl; intros Hv; eauto; rewrite BerInteger.toInt32_spec by done; eauto. Qed.

(** ** Fit worlds *)

Definition wf_integer (v : option MmsValue) : Prop := exists i, v = Some (MmsInteger i) /\ BerInteger.wf i.

Record wf_control (o : ControlObject) : Prop := {
  wf_domainName : is_cstr (domainName (mmsDomain o));
  wf_lnName : is_cstr (lnName o);
  wf_name : is_cstr (name o);
  wf_oper : opt_wf (oper o);
  wf_sbow : opt_wf (sbow o);
  wf_ctlVal : opt_wf (ctlVal o);
  wf_ctlNum : opt_wf (ctlNum o);
  wf_origin : opt_wf (origin o);
  wf_T : wf_buf (T o) 8;
  wf_ctlNumSt : opt_wf (ctlNumSt o);
  wf_originSt : opt_wf (originSt o);
  wf_tOpOk : match tOpOk o with Some t => wf_buf t 8 | None => True end;
  wf_error : wf_integer (error o);
  wf_addCause : wf_integer (addCause o);
  wf_sboClass : opt_wf (sboClass o);
  wf_sboTimeout : opt_wf (sboTimeout o);
  wf_errorValue : 0 <= errorValue o < 4;
  wf_addCauseValue : 0 <= addCauseValue o < 64
}.

(** No allocation fails, and the numbers of tasks are not within [k] of the limits of [int]. *)
Definition fit (k : nat) (w : World) : Prop :=
  wf_control (fst w) /\ memory (snd w) = [] /\
  forall c n, clientConnections (snd w) !! c = Some n -> -2147483648 + Z.of_nat k <= n <= 2147483647 - Z.of_nat k.

Definition defined {A} (k : nat) (m : M A) (P : A -> Prop) : Prop :=
  forall j w, fit (k + j) w -> exists x w', m w = Some (x, w') /\ fit j w' /\ P x.

Lemma fit_le k j w : (j <= k)%nat -> fit k w -> fit j w.
Proof. intros H (Ho & Hm & Hc). split_and!; [done..|]. intros c n Hn. specialize (Hc c n Hn). lia. Qed.

Lemma defined_le {A} k j (m : M A) P : (j <= k)%nat -> defined j m P -> defined k m P.
Proof. intros H Hm i w Hw. apply Hm. eapply fit_le; [|done]. lia. Qed.
Lemma defined_mono {A} k (m : M A) (P Q : A -> Prop) : (forall x, P x -> Q x) -> defined k m P -> defined k m Q.
Proof. intros H Hm i w Hw. destruct (Hm i w Hw) as (x & w' & ? & ? & ?). eauto 10. Qed.
Lemma defined_bind {A B} k j (m : M A) (f : A -> M B) P Q :
  defined k m P -> (forall x, P x -> defined j (f x) Q) -> defined (k + j) (m ≫= f) Q.
Proof.
  intros Hm Hf i w Hw. rewrite <- Nat.add_assoc in Hw. destruct (Hm _ w Hw) as (x & w1 & E1 & Hw1 & Hx).
  destruct (Hf x Hx i w1 Hw1) as (y & w2 & E2 & Hw2 & Hy). exists y, w2. split; [|done].
  unfold mbind, M_bind. by rewrite E1.
Qed.
Lemma defined_bind0 {A B} k (m : M A) (f : A -> M B) P Q :
  defined 0 m P -> (forall x, P x -> defined k (f x) Q) -> defined k (m ≫= f) Q.
Proof. apply (defined_bind 0). Qed.
Lemma defined_bind1 {A B} k (m : M A) (f : A -> M B) P Q :
  defined 1 m P -> (forall x, P x -> defined k (f x) Q) -> defined (S k) (m ≫= f) Q.
Proof. apply (defined_bind 1). Qed.
Lemma defined_ret {A} k (x : A) (P : A -> Prop) : P x -> defined k (mret x) P.
Proof. intros H j w Hw. exists x, w. split_and!; [done| |done]. eapply fit_le; [|done]. lia. Qed.
Lemma defined_get {A} (f : ControlObject -> A) (P : A -> Prop) : (forall o, wf_control o -> P (f o)) -> defined 0 (get f) P.
Proof. intros H j w Hw. exists (f (fst w)), w. split_and!; [done|done|]. apply H, Hw. Qed.
Lemma defined_lift {A} (o : option A) (P : A -> Prop) : (exists x, o = Some x /\ P x) -> defined 0 (lift o) P.
Proof. intros (x & -> & H) j w Hw. by exists x, w. Qed.
Lemma defined_modify f : (forall o, wf_control o -> wf_control (f o)) -> defined 0 (modify f) (fun _ => True).
Proof. intros H j [o m] (Ho & Hm & Hc). eexists tt, _. split; [done|]. split; [|done]. split; [by apply H|done]. Qed.
Lemma defined_mapping f : (forall m, memory (f m) = memory m /\ clientConnections (f m) = clientConnections m) ->
  defined 0 (mapping_modify f) (fun _ => True).
Proof.
  intros H j [o m] (Ho & Hm & Hc). destruct (H m) as [E1 E2]. eexists tt, _. split; [done|]. split; [|done].
  split; [done|]. simpl in *. by rewrite E1, E2.
Qed.
Lemma defined_when b k m P : defined k m P -> P tt -> defined k (when b m) P.
Proof. intros H Ht. destruct b; [done|]. by apply defined_ret. Qed.

(** A value read from a well-formed object. *)
Definition of_control {A} (f : ControlObject -> A) (x : A) : Prop := exists o, wf_control o /\ x = f o.
Lemma defined_get' {A} (f : ControlObject -> A) : defined 0 (get f) (of_control f).
Proof. apply defined_get. intros o Ho. by exists o. Qed.
Lemma defined_mapping_get {A} (f : Mapping -> A) : defined 0 (mapping_get f) (fun _ => True).
Proof. intros j w Hw. by exists (f (snd w)), w. Qed.
Lemma defined_emit e : defined 0 (emit e) (fun _ => True).
Proof. by apply defined_mapping. Qed.

Abbreviation any := (fun _ => True).

Ltac wf_modify := apply defined_modify; let o := fresh "o" in let H := fresh "Ho" in
  intros o H; destruct H; constructor; simpl; first [assumption|done|lia|apply Z.mod_pos_bound; lia].

Create HintDb defined.
Ltac defined_step :=
  lazymatch goal with
  | |- forall _, _ => intros ?
  | |- defined 0 (mbind _ _) _ => eapply defined_bind0; [|let x := fresh "x" in let H := fresh "Hx" in intros x H]
  | |- defined _ (mret _) _ => apply defined_ret; first [done|auto]
  | |- defined _ (when _ _) _ => apply defined_when; [|done]
  | |- defined 0 (get _) _ => apply defined_get'
  | |- defined 0 (mapping_get _) _ => apply defined_mapping_get
  | |- defined 0 (emit _) _ => apply defined_emit
  | |- defined 0 (setState _) _ => wf_modify
  | |- defined 0 (modify _) _ => wf_modify
  | |- defined 0 (mapping_modify _) _ => by apply defined_mapping
  | |- defined _ (match ?x with _ => _ end) _ => destruct x eqn:?
  | |- _ => solve [eauto 3 with defined nocore]
  end.
Ltac defined_solve := repeat defined_step.

Section Operations.
Context (env : Environment).

Lemma defined_question : defined 0 question any.
Proof. unfold question. defined_solve. Qed.
Hint Resolve defined_question : defined.
Lemma defined_time : defined 0 (Hal_getTimeInMs env) any.
Proof. unfold Hal_getTimeInMs. defined_solve. Qed.
Lemma defined_monotonic : defined 0 (Hal_getMonotonicTimeInMs env) any.
Proof. unfold Hal_getMonotonicTimeInMs. defined_solve. Qed.
Lemma defined_updateNext t : defined 0 (updateNextControlTimeout t) any.
Proof. unfold updateNextControlTimeout. defined_solve. Qed.
Lemma defined_updateNextRealTime t : defined 0 (updateNextRealTimeControlTimeout t) any.
Proof. unfold updateNextRealTimeControlTimeout. defined_solve. Qed.
Lemma defined_setStSeld b : defined 0 (setStSeld b) any.
Proof. unfold setStSeld, set_pending. defined_solve. Qed.
Lemma defined_setOpRcvd b : defined 0 (setOpRcvd b) any.
Proof. unfold setOpRcvd, set_pending. defined_solve. Qed.
Lemma defined_selectStateChanged b r : defined 0 (selectStateChanged env b r) any.
Proof. unfold selectStateChanged. defined_solve. Qed.
Lemma defined_updateSboTimeoutValue : defined 0 updateSboTimeoutValue any.
Proof.
  unfold updateSboTimeoutValue. eapply defined_bind0; [apply defined_get'|]. intros t (o & Ho & ->).
  pose proof (wf_sboTimeout _ Ho) as Hw. destruct (sboTimeout o) as [v|]; [|defined_solve].
  eapply (defined_bind0 _ _ _ any); [|intros; wf_modify]. apply defined_lift. destruct (toInt32_total v Hw) as [x ->]. eauto.
Qed.
Hint Resolve defined_time defined_monotonic defined_updateNext defined_updateNextRealTime defined_setStSeld defined_setOpRcvd
  defined_selectStateChanged defined_updateSboTimeoutValue : defined.

Lemma defined_selectObject t c : defined 0 (selectObject env t c) any.
Proof. unfold selectObject. defined_solve. Qed.
Lemma defined_unselectObject r : defined 0 (unselectObject env r) any.
Proof. unfold unselectObject, getState. defined_solve. Qed.
Hint Resolve defined_selectObject defined_unselectObject : defined.
Lemma defined_checkSelectTimeout t : defined 0 (checkSelectTimeout env t) any.
Proof. unfold checkSelectTimeout, getState. defined_solve. Qed.
Hint Resolve defined_checkSelectTimeout : defined.
Lemma defined_isSboClassOperateOnce : defined 0 isSboClassOperateOnce any.
Proof.
  unfold isSboClassOperateOnce. eapply defined_bind0; [apply defined_get'|]. intros t (o & Ho & ->).
  pose proof (wf_sboClass _ Ho) as Hw. destruct (sboClass o) as [v|]; [|defined_solve].
  eapply (defined_bind0 _ _ _ any); [|intros; defined_solve]. apply defined_lift. destruct (toInt32_total v Hw) as [x ->]. eauto.
Qed.
Hint Resolve defined_isSboClassOperateOnce : defined.

End Operations.

#[export] Hint Resolve defined_question defined_time defined_monotonic defined_updateNext defined_updateNextRealTime defined_setStSeld
  defined_setOpRcvd defined_selectStateChanged defined_updateSboTimeoutValue defined_selectObject defined_unselectObject
  defined_checkSelectTimeout defined_isSboClassOperateOnce : defined.

(** ** Tasks, messages, handlers *)

Lemma defined_change_tasks c d : -1 <= d <= 1 -> defined 1 (change_tasks c d) any.
Proof.
  intros Hd j [o m] (Ho & Hm & Hc). unfold change_tasks, mapping_get, mbind at 1, M_bind at 1. simpl.
  destruct (c ≫= _) as [[c' n]|] eqn:E.
  - destruct c as [c|]; [|done]. simpl in E. destruct (clientConnections m !! c) as [n'|] eqn:En; [|done]. injection E as <- <-.
    simpl in Hc, Hm. pose proof (Hc c n' En) as Hn. unfold lift, mbind, M_bind. rewrite decide_True by (unfold is_s32; lia). simpl.
    eexists true, _. split; [done|]. split; [|done]. split; [done|]. split; [done|]. simpl.
    intros k x [[-> <-]|[Hk Hx]]%lookup_insert_Some; [lia|]. specialize (Hc k x Hx). lia.
  - exists false, (o, m). split; [done|]. split; [|done]. eapply (fit_le (1 + j)); [lia|done].
Qed.

Lemma defined_initiateControlTask : defined 1 initiateControlTask any.
Proof. unfold initiateControlTask. eapply defined_bind0; [apply defined_get'|]. intros. by apply defined_change_tasks. Qed.
Lemma defined_exitControlTask : defined 1 exitControlTask any.
Proof.
  unfold exitControlTask. eapply defined_bind0; [apply defined_get'|]. intros.
  eapply (defined_bind1 0 _ _ any); [by apply defined_change_tasks|]. intros. by apply defined_ret.
Qed.

Lemma defined_set_int32 v x : wf_integer v -> 0 <= x < 64 -> defined 0 (lift (set_int32 v x)) wf_integer.
Proof.
  intros (i & -> & Hi) Hx. apply defined_lift. destruct (setInt32_total i x Hi) as (j & E & Hj); [unfold is_s32; lia|].
  exists (Some (MmsInteger j)). split; [|by exists j]. unfold set_int32. cbn [mbind option_bind]. by rewrite E.
Qed.

Lemma defined_resetAddCause : defined 0 resetAddCause any.
Proof.
  unfold resetAddCause. eapply defined_bind0; [wf_modify|]. intros _ _. eapply defined_bind0; [apply defined_get'|].
  intros v (o & Ho & ->). eapply defined_bind0; [apply defined_set_int32; [by apply wf_addCause|done]|].
  intros w Hw. wf_modify.
Qed.

Lemma defined_lastApplError path e c n o : Forall is_cstr path -> 0 <= e < 4 -> 0 <= c < 64 ->
  defined 0 (lastApplError path e c n o) any.
Proof.
  intros Hp He Hc. unfold lastApplError.
  eapply (defined_bind0 _ _ _ any). { apply defined_lift. destruct (createStringInBuffer_total 130 path) as [s ->]; [lia|done|eauto]. }
  intros obj _. eapply defined_bind0; [apply defined_get'|]. intros v (o1 & Ho1 & ->).
  eapply defined_bind0; [apply defined_set_int32; [by apply wf_error|lia]|]. intros v Hv. eapply defined_bind0; [wf_modify|]. intros _ _.
  eapply defined_bind0; [apply defined_get'|]. intros w (o2 & Ho2 & ->).
  eapply defined_bind0; [apply defined_set_int32; [by apply wf_addCause|lia]|]. intros w Hw. eapply defined_bind0; [wf_modify|]. intros _ _.
  by apply defined_ret.
Qed.

Ltac solve_text := apply text_cstr; repeat constructor; discriminate.

Lemma defined_sendLastApplError c v e k n o h : is_cstr v -> 0 <= e < 4 -> 0 <= k < 64 ->
  defined 0 (ControlObject_sendLastApplError c v e k n o h) any.
Proof.
  intros Hv He Hk. unfold ControlObject_sendLastApplError. eapply defined_bind0; [apply defined_get'|]. intros d (o1 & Ho1 & ->).
  eapply defined_bind0; [apply defined_get'|]. intros ln (o2 & Ho2 & ->). eapply defined_bind0; [apply defined_get'|]. intros nm (o3 & Ho3 & ->).
  eapply defined_bind0.
  { apply defined_lastApplError; [|done|done].
    repeat constructor; [by apply wf_domainName|solve_text|by apply wf_lnName|solve_text|by apply wf_name|solve_text|done]. }
  intros w _. defined_solve.
Qed.

Definition service_cstr (v : list Z) : Prop := v = OPER \/ v = SBO \/ v = SBOW \/ v = CANCEL.
Lemma service_is_cstr v : service_cstr v -> is_cstr v.
Proof. intros [-> | [-> | [-> | ->]]]; solve_text. Qed.

Lemma defined_refuse c v k n o i : service_cstr v -> 0 <= k < 64 -> defined 0 (refuse c v k n o i) any.
Proof.
  intros Hv Hk. unfold refuse. eapply defined_bind0; [apply defined_sendLastApplError; [by apply service_is_cstr|done|done]|].
  intros _ _. by apply defined_ret.
Qed.

(** The current error and cause. *)
Lemma defined_send_current c v n o h : is_cstr v ->
  defined 0 (err ← get errorValue; cause ← get addCauseValue; ControlObject_sendLastApplError c v err cause n o h) any.
Proof.
  intros Hv. eapply defined_bind0; [apply defined_get'|]. intros e (o1 & Ho1 & ->). eapply defined_bind0; [apply defined_get'|].
  intros k (o2 & Ho2 & ->). apply defined_sendLastApplError; [done|apply Ho1|apply Ho2].
Qed.

Lemma defined_apply a : defined 0 (apply a) any.
Proof. unfold apply, ControlAction_setError, ControlAction_setAddCause. defined_solve. Qed.
Lemma defined_track a b : defined 0 (track a b) any.
Proof. unfold track. defined_solve. Qed.
#[export] Hint Resolve defined_initiateControlTask defined_exitControlTask defined_resetAddCause defined_apply defined_track : defined.

Section Handlers.
Context (env : Environment).

Lemma defined_perform_check m v t i : defined 0 m any -> defined 0 (perform_check env m v t i) any.
Proof.
  intros Hm. unfold perform_check, call_check. destruct (checkHandler env) as [h|]; [|defined_solve].
  eapply defined_bind0; [done|]. intros _ _. eapply (defined_bind0 _ _ _ any); [apply defined_lift; eauto|]. defined_solve.
Qed.

Lemma defined_perform_select_check m v t i : defined 0 m any -> defined 0 (perform_select_check env m v t i) any.
Proof.
  intros Hm. unfold perform_select_check, call_check. destruct (checkHandler env) as [h|]; [|defined_solve].
  defined_step; [defined_solve|]. eapply defined_bind0; [done|]. intros _ _. eapply defined_bind0.
  { eapply (defined_bind0 _ _ _ any); [apply defined_lift; eauto|]. defined_solve. }
  defined_solve.
Qed.

Lemma defined_abort b r : defined 1 (abortControlOperation env b r) any.
Proof.
  unfold abortControlOperation. eapply defined_bind0; [apply defined_get'|]. intros m _.
  eapply (defined_bind0 1 _ _ any); [|intros; apply defined_exitControlTask].
  defined_solve.
Qed.
End Handlers.

(** ** Values *)

Lemma defined_update_value f g u :
  (forall o, wf_control o -> opt_wf (f o)) -> opt_wf u -> (forall v, opt_wf v -> defined 0 (g v) any) ->
  defined 0 (update_value f g u) any.
Proof.
  intros Hf Hu Hg. unfold update_value. eapply defined_bind0; [apply defined_get'|]. intros v (o & Ho & ->).
  eapply (defined_bind0 _ _ _ (fun r => opt_wf (fst r))); [|intros r Hr; by apply Hg].
  intros j [o' m] (Ho' & Hm & Hc). destruct (MmsValue_update_total (f o) u) as (w & r & E & Hw); [by apply Hf|done|].
  exists (w, r), (o', m <| memory := [] |>). split; [|done]. unfold allocating, mapping_get, mbind, M_bind. simpl.
  simpl in Hm. unfold lift. rewrite Hm, E. done.
Qed.

Ltac wf_update := apply defined_update_value; [by intros ? []|done|intros; wf_modify].

Lemma defined_update_status n o : opt_wf n -> opt_wf o -> defined 0 (update_status n o) any.
Proof. intros Hn Ho. unfold update_status. eapply defined_bind0; [wf_update|]. intros _ _. wf_update. Qed.

Lemma defined_updateControlParameters v n o s i : opt_wf v -> opt_wf n -> opt_wf o -> defined 0 (updateControlParameters v n o s i) any.
Proof.
  intros Hv Hn Ho. unfold updateControlParameters. do 3 (eapply defined_bind0; [wf_update|]; intros _ _).
  do 2 (eapply defined_bind0; [wf_modify|]; intros _ _). by apply defined_update_status.
Qed.

Lemma defined_read_T t : opt_wf t -> defined 0 (read_T t) any.
Proof.
  intros Ht. unfold read_T. destruct t as [t|]; [|defined_solve]. eapply defined_bind0; [apply defined_get'|]. intros old (o & Ho & ->).
  eapply (defined_bind0 _ _ _ (fun v => match v with Some v => wf_buf v 8 | None => True end)).
  - intros j [o' m] (Ho' & Hm & Hc). simpl in Hm. unfold allocating, mapping_get, mbind, M_bind, lift. simpl. rewrite Hm.
    destruct t; try (by eexists _, _; split; [reflexivity|]).
    destruct (wf_buf_memcpy 8 utcTime (T o) 8 8) as (E & Hw & _); [lia|lia|done|by apply wf_T|].
    change (Z.to_nat 8) with 8%nat in *. unfold IecCommon.Timestamp_fromMmsValue, m_lift, m_bind, m_ret. cbn [mbind option_bind]. rewrite E.
    eexists _, _. split; [reflexivity|]. split; [|exact Hw]. split; [done|done].
  - intros [v|] Hv; [wf_modify|defined_solve].
Qed.

(** ** The services *)

(** The parameters have the types that the services read them with: a structure that is long enough
    to be a command is one of 6 or 7 elements, its check is a bit string, its test flag a boolean, and
    its time of execution, if any, a UTC time. *)
Definition typed_parameters (value : MmsValue) : Prop :=
  wf value /\
  forall cs, value = MmsStructure cs -> 5 < zlen cs ->
    zlen cs <= 7 /\ (exists n b, getOperParameterCheck value = Some (MmsBitString n b)) /\
    (exists b, getOperParameterTest value = Some (MmsBoolean b)) /\
    (zlen cs = 7 -> exists t, getOperParameterOperTime value = Some (MmsUtcTime t)).

Lemma all_wf_lookup cs : all_wf wf cs -> forall i c, cs !! i = Some c -> exists v, c = Some v /\ wf v.
Proof.
  induction cs as [|c cs IH]; intros Hw i d Hi; [done|]. destruct Hw as [Hc Hw]. destruct i as [|i]; [|by eapply IH].
  injection Hi as <-. destruct c as [v|]; [|done]. by exists v.
Qed.

Lemma wf_getElement v i : wf v -> opt_wf (getElement v i).
Proof.
  intros Hv. destruct v as [cs|cs| | | | | | | | | | |]; try done; simpl; case_decide; try done;
    (destruct (cs !! Z.to_nat i) as [c|] eqn:E; [|done]; destruct (all_wf_lookup cs Hv _ _ E) as (v & -> & Hw); done).
Qed.

Lemma getElement_Some cs i : all_wf wf cs -> 0 <= i < zlen cs -> exists v, getElement (MmsStructure cs) i = Some v /\ wf v.
Proof.
  intros Hw Hi. simpl. rewrite decide_False by lia. destruct (lookup_lt_is_Some_2 cs (Z.to_nat i)) as [c E]; [lia|].
  rewrite E. destruct (all_wf_lookup cs Hw _ _ E) as (v & -> & Hv). by exists v.
Qed.

Lemma wf_structure_element v n i m j : wf v -> opt_wf (structure_element v n i m j).
Proof. intros Hv. unfold structure_element. destruct v; try done. repeat case_decide; try done; by apply wf_getElement. Qed.

Lemma wf_time_value v : opt_wf v -> opt_wf (time_value v).
Proof. destruct v as [[]|]; done. Qed.

Lemma checkValidity_total origin : wf origin -> exists b, checkValidityOfOriginParameter (Some origin) = Some b.
Proof.
  intros Hw. destruct origin as [cs|cs| | | | | | | | | | |]; try (by eexists). unfold checkValidityOfOriginParameter. cbn [mbind option_bind].
  case_decide as Hl; [eauto|]. destruct (getElement_Some cs 1 Hw) as (x & -> & Hx); [lia|]. cbn [mbind option_bind].
  destruct x; try (by eexists). case_decide; [eauto|]. destruct (getElement_Some cs 0 Hw) as (y & -> & Hy); [lia|].
  cbn [mbind option_bind]. destruct y; try (by eexists). destruct (toInt32_total _ Hy) as [z ->]. cbn [mbind option_bind]. eauto.
Qed.

Lemma bitOf_total n b i : 0 <= i -> wf (MmsBitString n b) -> exists r, bitOf (Some (MmsBitString n b)) i = Some r.
Proof. intros Hi [_ Hb]. by apply getBitStringBit_total. Qed.

Lemma utcTimeOf_total t : wf_buf t 8 -> exists r, utcTimeOf (Some (MmsUtcTime t)) = Some r.
Proof.
  intros [Hb Hl]. destruct t as [|a [|b [|c [|d [|o1 [|o2 [|o3 [|q [|]]]]]]]]]; simpl in Hl; try lia.
  simpl. edestruct (utc_time_read a b c d o1 o2 o3 q) as [-> _]; [|eauto]. by apply (Forall_take _ 4) in Hb.
Qed.

Section Services.
Context (env : Environment).

Lemma defined_select_with_value c id now v n o k t :
  opt_wf v -> opt_wf n -> opt_wf o -> (exists x b, k = Some (MmsBitString x b) /\ wf (MmsBitString x b)) -> (exists b, t = Some (MmsBoolean b)) ->
  defined 0 (select_with_value env c id now v n o k t) any.
Proof.
  intros Hv Hn Ho (x & b & -> & Hk) (tb & ->). unfold select_with_value.
  eapply (defined_bind0 _ _ _ any). { apply defined_lift. destruct (bitOf_total x b 1) as [r ->]; [lia|done|eauto]. }
  intros i _. eapply (defined_bind0 _ _ _ any). { apply defined_lift. destruct (bitOf_total x b 0) as [r ->]; [lia|done|eauto]. }
  intros s _. eapply (defined_bind0 _ _ _ any); [apply defined_lift; eauto|]. intros te _.
  defined_step; [wf_modify|]. eapply defined_bind0; [by apply defined_updateControlParameters|]. intros _ _.
  defined_step; [wf_modify|]. eapply defined_bind0; [apply defined_perform_select_check; wf_modify|]. intros r _.
  case_decide as Ha; [|case_decide as Hw].
  - defined_solve.
  - do 2 (defined_step; [wf_modify|]).
    do 3 (eapply defined_bind0; [wf_update|]; intros _ _). defined_solve.
  - eapply defined_bind0; [apply defined_get'|]. intros e (o1 & Ho1 & ->). eapply defined_bind0; [apply defined_get'|].
    intros k' (o2 & Ho2 & ->). eapply defined_bind0; [apply defined_sendLastApplError; [solve_text|apply Ho1|apply Ho2]|]. defined_solve.
Qed.

Lemma command_elements cs : wf (MmsStructure cs) -> 5 < zlen cs -> zlen cs <= 7 ->
  exists o n t k ts, getOperParameterOrigin (MmsStructure cs) = Some o /\ getOperParameterCtlNum (MmsStructure cs) = Some n /\
    structure_element (MmsStructure cs) 7 4 6 3 = Some t /\ getOperParameterCheck (MmsStructure cs) = Some k /\
    getOperParameterTest (MmsStructure cs) = Some ts /\ wf o /\ wf n /\ wf t /\ wf k /\ wf ts.
Proof.
  intros Hw H5 H7. unfold getOperParameterOrigin, getOperParameterCtlNum, getOperParameterCheck, getOperParameterTest, structure_element.
  destruct (decide (zlen cs = 7)) as [E|E].
  - destruct (getElement_Some cs 2 Hw) as (a & -> & ?); [lia|]. destruct (getElement_Some cs 3 Hw) as (b & -> & ?); [lia|].
    destruct (getElement_Some cs 4 Hw) as (c & -> & ?); [lia|]. destruct (getElement_Some cs 6 Hw) as (d & -> & ?); [lia|].
    destruct (getElement_Some cs 5 Hw) as (e & -> & ?); [lia|]. by exists a, b, c, d, e.
  - rewrite !decide_True by lia.
    destruct (getElement_Some cs 1 Hw) as (a & -> & ?); [lia|]. destruct (getElement_Some cs 2 Hw) as (b & -> & ?); [lia|].
    destruct (getElement_Some cs 3 Hw) as (c & -> & ?); [lia|]. destruct (getElement_Some cs 5 Hw) as (d & -> & ?); [lia|].
    destruct (getElement_Some cs 4 Hw) as (e & -> & ?); [lia|]. by exists a, b, c, d, e.
Qed.

Lemma ctlVal_cases value : (exists cs val, value = MmsStructure cs /\ 5 < zlen cs /\ getCtlVal value = Some val) \/ getCtlVal value = None.
Proof.
  unfold getCtlVal. destruct value as [cs|cs| | | | | | | | | | |]; try by right. case_decide as H; [|by right].
  destruct (getElement (MmsStructure cs) 0) as [v|]; [left|by right]. exists cs, v. split_and!; [done|lia|done].
Qed.

Lemma defined_write_SBOw value c id : typed_parameters value -> defined 0 (write_SBOw env value c id) any.
Proof.
  intros [Hw Ht]. unfold write_SBOw. eapply defined_bind0; [apply defined_get'|]. intros m _. case_decide as Hm; [|defined_solve].
  eapply defined_bind0; [wf_update|]. intros _ _.
  destruct (ctlVal_cases value) as [(cs & val & -> & H5 & Hv)| ->]; [|defined_solve]. rewrite Hv.
  destruct (Ht cs eq_refl H5) as (H7 & (x & b & Hk) & (tb & Hte) & _).
  destruct (command_elements cs Hw H5 H7) as (o & n & t & k & ts & Eo & En & Et & Ek & Ets & Wo & Wn & Wt & Wk & Wts).
  assert (Wv : wf val). { pose proof (wf_getElement (MmsStructure cs) 0 Hw) as H. unfold getCtlVal in Hv. rewrite decide_True in Hv by lia. by rewrite Hv in H. }
  rewrite Eo, En.
  eapply (defined_bind0 _ _ _ any). { apply defined_lift. destruct (checkValidity_total o Wo) as [r ->]. eauto. }
  intros [] _; [|apply defined_refuse; [by right; right; left|done]].
  eapply defined_bind0. { apply defined_read_T. unfold getOperParameterTime. rewrite Et. by apply wf_time_value. }
  intros _ _. eapply defined_bind0; [apply defined_get'|]. intros s _. defined_step; [defined_solve|]. defined_step; [defined_solve|].
  case_decide as Hs.
  - apply defined_select_with_value; [done|done|done| |by eauto]. exists x, b. split; [done|]. rewrite Ek in Hk. by injection Hk as <-.
  - case_decide; apply defined_refuse; try done; by right; right; left.
Qed.
Lemma MmsValue_equals_total v w : wf v -> opt_wf w -> exists b, MmsValue_equals (Some v) w = Some b.
Proof. intros Hv Hw. destruct w as [w|]; [by apply equals_total|by eexists]. Qed.

Lemma defined_same_parameters val num orig i s t : wf val -> wf num -> wf orig -> defined 0 (same_parameters val num orig i s t) any.
Proof.
  intros Hv Hn Ho. unfold same_parameters.
  eapply defined_bind0; [apply defined_get'|]. intros v (o1 & Ho1 & ->). eapply defined_bind0; [apply defined_get'|]. intros o (o2 & Ho2 & ->).
  eapply defined_bind0; [apply defined_get'|]. intros n (o3 & Ho3 & ->).
  eapply (defined_bind0 _ _ _ any).
  { apply defined_lift. destruct (MmsValue_equals_total val (ctlVal o1)) as [r ->]; [done|by apply wf_ctlVal|eauto]. }
  intros [] _; [|defined_solve]. eapply (defined_bind0 _ _ _ any).
  { apply defined_lift. destruct (MmsValue_equals_total orig (origin o2)) as [r ->]; [done|by apply wf_origin|eauto]. }
  intros [] _; [|defined_solve]. eapply (defined_bind0 _ _ _ any).
  { apply defined_lift. destruct (MmsValue_equals_total num (ctlNum o3)) as [r ->]; [done|by apply wf_ctlNum|eauto]. }
  intros r _. defined_solve.
Qed.

Lemma defined_operate_later c v i s t : defined 1 (operate_later env c v i s t) any.
Proof.
  unfold operate_later. do 4 (eapply defined_bind0; [wf_modify|]; intros _ _).
  eapply defined_bind0; [apply defined_perform_check; by apply defined_ret|]. intros r _. case_decide; [|by apply defined_ret].
  eapply defined_bind1; [apply defined_initiateControlTask|]. intros _ _. defined_solve.
Qed.

Lemma defined_operate_time value c v i s t r : (forall tm, getOperParameterOperTime value = Some tm -> exists b, tm = MmsUtcTime b /\ wf_buf b 8) ->
  defined 1 (operate_time env value c v i s t r) any.
Proof.
  intros Ht. unfold operate_time. destruct (getOperParameterOperTime value) as [tm|].
  - destruct (Ht tm eq_refl) as (b & -> & Hb). eapply (defined_bind0 _ _ _ any).
    { apply defined_lift. destruct (utcTimeOf_total b Hb) as [x ->]. eauto. }
    intros x _. eapply defined_bind0; [wf_modify|]. intros _ _. eapply defined_bind0; [apply defined_time|]. intros now _.
    case_decide; [apply defined_operate_later|by apply defined_ret].
  - eapply defined_bind0; [wf_modify|]. intros _ _. by apply defined_ret.
Qed.

Lemma defined_operate_now c id v n o i t : defined 1 (operate_now env c id v n o i t) any.
Proof.
  unfold operate_now. eapply defined_bind0; [apply defined_setOpRcvd|]. intros _ _.
  do 3 (eapply defined_bind0; [wf_modify|]; intros _ _).
  eapply defined_bind0; [apply defined_perform_check; by apply defined_ret|]. intros r _. case_decide.
  - do 3 (eapply defined_bind0; [wf_modify|]; intros _ _). eapply defined_bind0; [apply defined_setOpRcvd|]. intros _ _.
    eapply defined_bind1; [apply defined_initiateControlTask|]. intros _ _. defined_solve.
  - eapply defined_bind0; [apply defined_setOpRcvd|]. intros _ _. eapply defined_bind1; [apply defined_abort|]. intros _ _.
    eapply defined_bind0; [apply defined_get'|]. intros e (o1 & Ho1 & ->). eapply defined_bind0; [apply defined_get'|].
    intros k (o2 & Ho2 & ->). eapply defined_bind0; [apply defined_sendLastApplError; [solve_text|apply Ho1|apply Ho2]|]. defined_solve.
Qed.

Lemma defined_operate value c id val num orig i s t :
  wf value -> wf val -> wf num -> wf orig ->
  (forall tm, getOperParameterOperTime value = Some tm -> exists b, tm = MmsUtcTime b /\ wf_buf b 8) ->
  defined 2 (operate env value c id val num orig i s t) any.
Proof.
  intros Hw Hv Hn Ho Ht. unfold operate. eapply defined_bind0; [wf_modify|]. intros _ _.
  eapply defined_bind0; [by apply defined_updateControlParameters|]. intros _ _.
  eapply defined_bind1; [by apply defined_operate_time|]. intros r _. eapply defined_bind0; [wf_update|]. intros _ _.
  eapply defined_bind0; [apply defined_get'|]. intros later _. destruct later; [by apply defined_ret|apply defined_operate_now].
Qed.

Lemma defined_operate_ready value c id val num orig x b tb :
  wf value -> wf val -> wf num -> wf orig -> wf (MmsBitString x b) ->
  (forall tm, getOperParameterOperTime value = Some tm -> exists b, tm = MmsUtcTime b /\ wf_buf b 8) ->
  defined 2 (operate_ready env value c id val num orig (MmsBitString x b) (MmsBoolean tb)) any.
Proof.
  intros Hw Hv Hn Ho Hk Ht. unfold operate_ready.
  eapply (defined_bind0 _ _ _ any). { apply defined_lift. destruct (bitOf_total x b 1) as [r ->]; [lia|done|eauto]. }
  intros i _. eapply (defined_bind0 _ _ _ any). { apply defined_lift. destruct (bitOf_total x b 0) as [r ->]; [lia|done|eauto]. }
  intros s _. eapply (defined_bind0 _ _ _ any); [apply defined_lift; eauto|]. intros te _.
  eapply defined_bind0; [apply defined_get'|]. intros m _. eapply defined_bind0; [apply defined_get'|]. intros cc _.
  case_match; [apply (defined_le 2 0); [lia|]; apply defined_refuse; [by left|done]|].
  eapply (defined_bind0 _ _ _ any). { destruct (decide (m = 4)); [by apply defined_same_parameters|by apply defined_ret]. }
  intros [] _; [by apply defined_operate|]. apply (defined_le 2 0); [lia|].
  eapply defined_bind0; [apply defined_refuse; [by left|done]|]. defined_solve.
Qed.

Lemma defined_write_Oper value c id : typed_parameters value -> defined 2 (write_Oper env value c id) any.
Proof.
  intros [Hw Ht]. unfold write_Oper.
  destruct (ctlVal_cases value) as [(cs & val & -> & H5 & Hv)| ->]; [|by apply defined_ret]. rewrite Hv.
  destruct (Ht cs eq_refl H5) as (H7 & (x & b & Hk) & (tb & Hte) & Htm).
  destruct (command_elements cs Hw H5 H7) as (o & n & t & k & ts & Eo & En & Et & Ek & Ets & Wo & Wn & Wt & Wk & Wts).
  assert (Wv : wf val). { pose proof (wf_getElement (MmsStructure cs) 0 Hw) as H. unfold getCtlVal in Hv. rewrite decide_True in Hv by lia. by rewrite Hv in H. }
  assert (Htime : forall tm, getOperParameterOperTime (MmsStructure cs) = Some tm -> exists b, tm = MmsUtcTime b /\ wf_buf b 8).
  { intros tm E. assert (H : zlen cs = 7) by (unfold getOperParameterOperTime in E; by case_decide).
    destruct (Htm H) as [u Hu]. rewrite Hu in E. injection E as <-. exists u. split; [done|].
    unfold getOperParameterOperTime in Hu. rewrite decide_True in Hu by done.
    pose proof (wf_getElement (MmsStructure cs) 1 Hw) as Hg. by rewrite Hu in Hg. }
  rewrite Eo, En, Hk, Hte. destruct (getOperParameterTime (MmsStructure cs)) as [time|] eqn:Ei; [|by apply defined_ret].
  assert (Wtime : wf time). { unfold getOperParameterTime in Ei. rewrite Et in Ei. pose proof (wf_time_value (Some t) Wt) as H. by rewrite Ei in H. }
  eapply defined_bind0; [by apply defined_read_T|]. intros _ _.
  eapply (defined_bind0 _ _ _ any). { apply defined_lift. destruct (checkValidity_total o Wo) as [r ->]. eauto. }
  assert (Wk' : wf (MmsBitString x b)) by congruence.
  intros [] _.
  - eapply defined_bind0; [apply defined_monotonic|]. intros now _. eapply defined_bind0; [apply defined_checkSelectTimeout|]. intros _ _.
    eapply defined_bind0; [apply defined_get'|]. intros s _. destruct s; try (by apply defined_ret).
    all: try (apply (defined_le 2 0); [lia|]; eapply defined_bind0; [apply defined_refuse; [by left|done]|]; intros r _; by apply defined_ret).
    eapply (defined_bind 2 0 _ _ any); [by apply defined_operate_ready|]. intros r _. by apply defined_ret.
  - apply (defined_le 2 0); [lia|]. eapply defined_bind0; [apply defined_refuse; [by left|done]|]. intros r _.
    eapply defined_bind0; [apply defined_get'|]. intros m _.
    eapply (defined_bind0 _ _ _ any); [apply defined_when; [apply defined_unselectObject|done]|]. intros _ _. by apply defined_ret.
Qed.

Lemma defined_cancel_later i : defined 1 (cancel_later env i) any.
Proof.
  unfold cancel_later. eapply defined_bind0; [apply defined_get'|]. intros later _. destruct later; [|by apply defined_ret].
  eapply defined_bind0; [wf_modify|]. intros _ _. eapply (defined_bind1 0 _ _ any); [apply defined_abort|]. intros _ _. by apply defined_ret.
Qed.

Lemma defined_write_Cancel value c : wf value -> defined 1 (write_Cancel env value c) any.
Proof.
  intros Hw. unfold write_Cancel. eapply defined_bind0; [apply defined_get'|]. intros s _.
  destruct (getCancelParameterCtlNum value) as [n|]; [|by apply defined_ret].
  destruct (getCancelParameterOrigin value) as [o|]; [|by apply defined_ret].
  assert (Hr : forall k i, 0 <= k < 64 -> defined 0 (refuse c CANCEL k (Some n) (Some o) i) any).
  { intros k i Hk. apply defined_refuse; [by right; right; right|done]. }
  case_decide; [apply (defined_le 1 0); [lia|by apply Hr]|].
  eapply defined_bind0; [apply defined_get'|]. intros m _. destruct (sbo_model m); [|apply defined_cancel_later].
  case_decide; [apply defined_cancel_later|]. eapply defined_bind0; [apply defined_get'|]. intros cc _.
  case_decide; [apply (defined_le 1 0); [lia|]; defined_solve|].
  eapply defined_bind0; [by apply Hr|]. intros r _. apply defined_cancel_later.
Qed.

(** A name is that of one service. *)
Lemma one_service varName s t : is_cstr varName -> is_cstr (text s) -> is_cstr (text t) ->
  TypeSpec.content (text s) <> TypeSpec.content (text t) ->
  strcmp varName (text s) = Some true -> strcmp varName (text t) <> Some true.
Proof.
  intros [x Hx] [a Ha] [b Hb] Hst Hs Ht. rewrite (TypeSpec.cstr_content _ _ Ha), (TypeSpec.cstr_content _ _ Hb) in Hst.
  rewrite (TypeSpec.strcmp_spec _ _ _ _ Hx Ha) in Hs. rewrite (TypeSpec.strcmp_spec _ _ _ _ Hx Hb) in Ht.
  injection Hs as Hs. injection Ht as Ht. apply bool_decide_eq_true in Hs, Ht. congruence.
Qed.

Lemma defined_write_object varName value c id : is_cstr varName -> wf value ->
  (strcmp varName CANCEL <> Some true -> typed_parameters value) -> defined 2 (write_object env varName value c id) any.
Proof.
  intros Hn Hw Hv. unfold write_object. eapply (defined_bind 2 0 _ _ any).
  - unfold write_request. eapply defined_bind0; [apply defined_get'|]. intros m _. case_decide; [by apply defined_ret|].
    eapply (defined_bind0 _ _ _ (fun r => strcmp varName SBOW = Some r)).
    { apply defined_lift. destruct (strcmp_total varName SBOW Hn) as [r ->]; [solve_text|eauto]. }
    intros [] Hs.
    { apply (defined_le 2 0); [lia|]. eapply defined_bind0; [|intros r _; by apply defined_ret]. apply defined_write_SBOw, Hv.
      revert Hs. apply one_service; [done|solve_text..|by vm_compute]. }
    eapply (defined_bind0 _ _ _ (fun r => strcmp varName OPER = Some r)).
    { apply defined_lift. destruct (strcmp_total varName OPER Hn) as [r ->]; [solve_text|eauto]. }
    intros [] Ho.
    { eapply (defined_bind 2 0 _ _ any); [|intros r _; by apply defined_ret]. apply defined_write_Oper, Hv.
      revert Ho. apply one_service; [done|solve_text..|by vm_compute]. }
    eapply (defined_bind0 _ _ _ any). { apply defined_lift. destruct (strcmp_total varName CANCEL Hn) as [r ->]; [solve_text|eauto]. }
    intros [] _; [|by apply defined_ret]. eapply (defined_le 2 1); [lia|].
    eapply (defined_bind 1 0 _ _ any); [by apply defined_write_Cancel|]. intros r _. by apply defined_ret.
  - intros [[indication serviceError] serviceType] _. eapply (defined_bind0 _ _ _ any); [defined_solve|]. defined_solve.
Qed.
End Services.

(** ** Names *)

(** There is a terminator at or behind the position. *)
Definition terminated (b : list Z) (p : Z) : Prop := exists z, 0 <= p <= z /\ rd b z = Some 0.

Lemma terminated_rd b p : terminated b p -> exists x, rd b p = Some x.
Proof. intros (z & Hz & E). apply rd_Some. apply rd_inv in E. lia. Qed.

(** One step further, unless the terminator is there. *)
Lemma terminated_next b p x : terminated b p -> rd b p = Some x -> x <> 0 -> terminated b (p + 1).
Proof. intros (z & Hz & E) Hx H0. exists z. split; [|done]. destruct (decide (p = z)); [congruence|lia]. Qed.

Lemma terminated_zero b p i : 0 <= i < zlen b -> terminated b p -> exists b', wr b i 0 = Some b' /\ zlen b' = zlen b /\
  (forall q, terminated b q -> terminated b' q).
Proof.
  intros Hi Hp. rewrite wr_Some by done. eexists. split; [done|]. rewrite length_insert. split; [done|].
  intros q (z & Hz & E). exists z. split; [done|]. pose proof (rd_inv _ _ _ E) as Hzl.
  assert (Hw : wr b i 0 = Some (<[Z.to_nat i:=u8 0]> b)) by by apply wr_Some.
  apply wr_inv in Hw as (_ & _ & H0 & Ho). destruct (decide (z = i)) as [->|Hn]; [done|by rewrite Ho].
Qed.

Lemma zero_is_cstr l : In 0 l -> is_cstr l.
Proof.
  induction l as [|x l IH]; intros H; [done|]. destruct (decide (x = 0)) as [->|Hx].
  - exists []. split; [by exists l|done].
  - destruct H as [H|H]; [congruence|]. destruct (IH H) as (s & [rest ->] & Hs). exists (x :: s). split; [by exists rest|by constructor].
Qed.

Lemma terminated_cstr b p : terminated b p -> is_cstr (at_ b p).
Proof.
  intros (z & Hz & E). apply zero_is_cstr, list_elem_of_In. unfold at_. apply list_elem_of_lookup.
  exists (Z.to_nat (z - p)). rewrite lookup_drop. unfold rd in E. rewrite decide_True in E by lia. rewrite <- E. f_equal. lia.
Qed.

Lemma strchr_total b c fuel p : terminated b p -> zlen b - p < Z.of_nat fuel -> c <> 0 ->
  exists r, strchr_loop fuel b p c = Some r /\ match r with Some q => p <= q /\ q < zlen b /\ terminated b (q + 1) | None => True end.
Proof.
  intros Hp Hf Hc. revert p Hp Hf. induction fuel as [|fuel IH]; intros p Hp Hf; cbn [strchr_loop].
  { destruct (terminated_rd b p Hp) as [x Hx]. apply rd_inv in Hx. lia. }
  destruct (terminated_rd b p Hp) as [x Hx]. rewrite Hx. cbn [mbind option_bind]. pose proof (rd_inv _ _ _ Hx).
  destruct (decide (x = c)) as [->|Hn]; [eexists; split; [done|]; split_and!; [lia|lia|]; by eapply terminated_next|].
  destruct (decide (x = 0)) as [->|H0]; [by eexists|].
  destruct (IH (p + 1)) as (r & -> & Hr); [by eapply terminated_next|lia|]. exists r. split; [done|].
  destruct r; [|done]. destruct Hr as (? & ? & ?). split_and!; [lia|done|done].
Qed.

Lemma next_total b p : terminated b p -> exists r, MmsMapping_getNextNameElement b p = Some r /\
  match r with Some q => p < q /\ q <= zlen b /\ terminated b q | None => True end.
Proof.
  intros Hp. unfold MmsMapping_getNextNameElement, strchr.
  assert (0 <= p) by (destruct Hp as (? & ? & _); lia).
  destruct (strchr_total b 36 (S (length b)) p Hp) as (r & -> & Hr); [lia|done|]. cbn [mbind option_bind].
  destruct r as [q|]; [|by eexists]. destruct Hr as (H1 & H2 & H3). destruct (terminated_rd _ _ H3) as [x ->]. cbn [mbind option_bind].
  case_decide; eexists; (split; [done|]); [done|]. split_and!; [lia|lia|done].
Qed.

Lemma doesElementEquals_total b e name : terminated b e -> is_cstr name -> exists r, doesElementEquals b e name = Some r.
Proof.
  intros He Hn. destruct (cstr_rd name Hn) as (n & Hn1 & Hn0 & Hrd). unfold doesElementEquals.
  assert (H : forall fuel i, 0 <= i <= n -> terminated b (e + i) -> n - i < Z.of_nat fuel -> exists r, doesElementEquals_loop fuel b e name i = Some r).
  { induction fuel as [|fuel IH]; intros i Hi Ht Hf; cbn [doesElementEquals_loop]; [lia|].
    destruct (Hrd i Hi) as [x Hx], (terminated_rd _ _ Ht) as [y Hy]. rewrite Hx, Hy. cbn [mbind option_bind].
    case_decide as Hx0; [|eauto]. case_decide as Hy0; [eauto|]. case_decide as Hxy; [eauto|].
    apply IH; [|rewrite Z.add_assoc; by eapply terminated_next|lia]. destruct (decide (i = n)); [congruence|lia]. }
  apply H; [lia|by rewrite Z.add_0_r|lia].
Qed.

Lemma is_service_total b e : terminated b e -> exists r, is_service b e = Some r.
Proof.
  intros He. unfold is_service.
  destruct (doesElementEquals_total b e OPER He) as [[] ->]; [solve_text|by eexists|]. cbn [mbind option_bind].
  destruct (doesElementEquals_total b e SBO He) as [[] ->]; [solve_text|by eexists|]. cbn [mbind option_bind].
  destruct (doesElementEquals_total b e SBOW He) as [[] ->]; [solve_text|by eexists|]. cbn [mbind option_bind].
  apply doesElementEquals_total; [done|solve_text].
Qed.

Lemma find_service_total fuel : forall b p, 0 < p -> terminated b p -> zlen b - p < Z.of_nat fuel ->
  exists b' v, find_service fuel b p = Some (b', v) /\ (forall q, terminated b q -> terminated b' q) /\
    match v with Some q => terminated b' q | None => True end.
Proof.
  induction fuel as [|fuel IH]; intros b p Hp0 Hp Hf; cbn [find_service].
  { destruct (terminated_rd b p Hp) as [x Hx]. apply rd_inv in Hx. lia. }
  destruct (is_service_total b p Hp) as [[] ->]; cbn [mbind option_bind].
  - destruct (terminated_rd b p Hp) as [x Hx]. apply rd_inv in Hx.
    destruct (terminated_zero b p (p - 1)) as (b' & -> & _ & Hb'); [lia|done|]. cbn [mbind option_bind]. exists b', (Some p). auto.
  - destruct (next_total b p Hp) as (r & -> & Hr). cbn [mbind option_bind].
    destruct r as [q|]; [|by eexists _, _; split; [reflexivity|]]. destruct Hr as (? & ? & ?). apply IH; [lia|done|lia].
Qed.

Lemma copyStringMax_total size src : 0 < size -> is_cstr src ->
  exists d, copyStringMax (fresh size) size src = Some d /\ terminated d 0.
Proof.
  intros Hs Hc. destruct (cstr_rd src Hc) as (n & Hn & Hn0 & Hrd). unfold copyStringMax. rewrite decide_False by lia.
  assert (H : forall fuel d i, 0 <= i <= n -> i <= size - 1 -> n - i < Z.of_nat fuel -> zlen d = size ->
    exists d', copyStringMax_loop fuel d src (size - 1) i i = Some d' /\ terminated d' 0).
  { induction fuel as [|fuel IH]; intros d i Hi Hm Hf Hd; cbn [copyStringMax_loop]; [lia|].
    assert (Hend : exists d', wr d i 0 = Some d' /\ terminated d' 0).
    { rewrite wr_Some by lia. eexists. split; [done|]. exists i. split; [lia|].
      assert (Hw : wr d i 0 = Some (<[Z.to_nat i:=u8 0]> d)) by (apply wr_Some; lia). by apply wr_inv in Hw as (_ & _ & H0 & _). }
    destruct (Hrd i Hi) as [x Hx]. rewrite Hx. cbn [mbind option_bind]. case_decide as Hx0; [|done]. case_decide as Hi'; [|done].
    rewrite wr_Some by lia. cbn [mbind option_bind]. apply IH; [|lia|lia|by rewrite length_insert].
    destruct (decide (i = n)); [congruence|lia]. }
  apply H; [lia|lia|lia|]. unfold fresh. rewrite length_replicate. lia.
Qed.

Lemma parse_variable_total size src : 0 < size -> is_cstr src -> exists r, parse_variable size src = Some r /\
  match r with
  | Some (b, p, v) => terminated b 0 /\ terminated b p /\ match v with Some q => terminated b q | None => True end
  | None => True
  end.
Proof.
  intros Hs Hc. unfold parse_variable. destruct (copyStringMax_total size src Hs Hc) as (d & -> & Hd). cbn [mbind option_bind].
  unfold strchr. destruct (strchr_total d 36 (S (length d)) 0 Hd) as (r & -> & Hr); [lia|done|]. cbn [mbind option_bind].
  destruct r as [sep|]; [|by eexists]. destruct Hr as (H1 & H2 & H3).
  destruct (terminated_zero d (sep + 1) sep) as (d' & -> & Hl & Hd'); [lia|done|]. cbn [mbind option_bind].
  destruct (next_total d' (sep + 1)) as (r & -> & Hr); [by apply Hd'|]. cbn [mbind option_bind]. destruct r as [p|]; [|by eexists].
  destruct Hr as (H4 & H5 & H6). destruct (next_total d' p H6) as (r & -> & Hr). cbn [mbind option_bind].
  destruct r as [q|]; [|eexists; split; [done|]; split_and!; [by apply Hd'|done|done]]. destruct Hr as (H7 & H8 & H9).
  destruct (find_service_total (S (length d')) d' q) as (b & v & -> & Hb & Hv); [lia|done|lia|]. cbn [mbind option_bind].
  eexists. split; [done|]. split_and!; [by apply Hb, Hd'|by apply Hb|done].
Qed.

Lemma lookup_total objs d ln obj : Forall wf_control objs -> is_cstr ln -> is_cstr obj ->
  exists r, Control_lookupControlObject objs d ln obj = Some r /\ match r with Some i => is_Some (objs !! i) | None => True end.
Proof.
  intros Ho Hln Hobj. unfold Control_lookupControlObject.
  assert (H : forall i, exists r, lookup_loop objs i d ln obj = Some r /\ match r with Some k => (i <= k)%nat /\ is_Some (objs !! (k - i)%nat) | None => True end).
  { induction Ho as [|o objs Hw _ IH]; intros i; cbn [lookup_loop]; [by eexists|].
    assert (Hnext : exists r, lookup_loop objs (S i) d ln obj = Some r /\ match r with Some k => (i <= k)%nat /\ is_Some ((o :: objs) !! (k - i)%nat) | None => True end).
    { destruct (IH (S i)) as (r & -> & Hr). exists r. split; [done|]. destruct r as [k|]; [|done]. destruct Hr as [Hk Hi]. split; [lia|].
      replace (k - i)%nat with (S (k - S i)) by lia. done. }
    case_decide; [|done]. destruct (strcmp_total (lnName o) ln) as [b ->]; [apply Hw|done|]. cbn [mbind option_bind].
    destruct b; [|done]. destruct (strcmp_total (name o) obj) as [b ->]; [apply Hw|done|]. cbn [mbind option_bind].
    destruct b; [|done]. exists (Some i). split; [done|]. cbn beta iota. rewrite Nat.sub_diag. split; [lia|done]. }
  destruct (H 0%nat) as (r & -> & Hr). exists r. split; [done|]. destruct r as [k|]; [|done]. rewrite Nat.sub_0_r in Hr. by destruct Hr.
Qed.

(** ** The types of commands

    Before a value comes to a control, the service that handles write requests
    ([src/mms/iso_mms/server/mms_write_service.c]) has checked with [isValueOfType] that it has the type
    of the variable. *)

(** The types of [SBOw] and [Oper], without and with a time of execution. *)
Definition is_command (s : TypeSpec.MmsVariableSpecification) : Prop :=
  match s with
  | TypeSpec.Structure _ [_; _; _; _; TypeSpec.Simple _ TypeSpec.Boolean; TypeSpec.Simple _ (TypeSpec.BitString _)] => True
  | TypeSpec.Structure _ [_; TypeSpec.Simple _ TypeSpec.UtcTime; _; _; _; TypeSpec.Simple _ TypeSpec.Boolean;
                          TypeSpec.Simple _ (TypeSpec.BitString _)] => True
  | _ => False
  end.

Lemma command_typed s value : is_command s -> wf value -> TypeSpec.isValueOfType s value = Some true -> typed_parameters value.
Proof.
  intros Hs Hw Hc. split; [done|]. intros cs -> _. destruct (TypeSpec.isValueOfType_spec s _ Hw) as (b & Eb & Hb).
  rewrite Hc in Eb. injection Eb as <-. assert (Ht : TypeSpec.has_type s (MmsStructure cs)) by by apply Hb.
  destruct s as [|n es|]; try done. inversion Ht as [? ? ? Hf| |]; subst. clear Ht Hb Hc Hw.
  repeat match goal with
  | H : is_command (TypeSpec.Structure _ ?l) |- _ => is_var l; destruct l; cbn [is_command] in H; try done
  | H : match ?x with _ => _ end |- _ => destruct x; try done
  end;
  repeat match goal with
  | H : Forall2 _ (_ :: _) _ |- _ => inversion H; clear H; subst
  | H : Forall2 _ [] _ |- _ => inversion H; clear H; subst
  | H : exists v, _ = Some v /\ _ |- _ => destruct H as (? & -> & ?)
  | H : TypeSpec.has_type (TypeSpec.Simple _ _) _ |- _ => inversion H; clear H; subst
  | H : TypeSpec.simple_type _ ?v |- _ => destruct v; cbn [TypeSpec.simple_type] in H; try done; clear H
  end; (split; [done|]); (split; [by eexists _, _|]); (split; [by eexists|]); intros H; by first [discriminate H|eexists].
Qed.

(** The value written to a variable has passed the check, where the service is not [Cancel]. *)
Definition checked_parameters (variableIdOrig : list Z) (value : MmsValue) : Prop :=
  wf value /\
  forall buf objectName varName, parse_variable 65 variableIdOrig = Some (Some (buf, objectName, Some varName)) ->
    strcmp (at_ buf varName) CANCEL <> Some true -> exists s, is_command s /\ TypeSpec.isValueOfType s value = Some true.

(** ** Properties *)

(** C14: A client that writes to a control cannot make the server fail: whatever variable name it
    writes, of whatever length, whatever element of whatever control object, in whatever state, a
    write access ends and has a result, and the control objects stay well-formed.  The value has
    passed the check of the write service for the type of a command, if the service is not [Cancel];
    no allocation fails; and the numbers of tasks of the connections are not at the limits of [int]. *)
Theorem control_write_defined env d variableIdOrig value c id objs self :
  is_cstr variableIdOrig -> checked_parameters variableIdOrig value -> Forall wf_control objs -> memory self = [] ->
  (forall c n, clientConnections self !! c = Some n -> -2147483646 <= n <= 2147483645) ->
  exists indication objs' self',
    Control_writeAccessControlObject env d variableIdOrig value c id objs self = Some (indication, (objs', self')) /\
    Forall wf_control objs' /\ memory self' = [].
Proof.
  intros Hn [Hwv Hv] Ho Hm Hc. unfold Control_writeAccessControlObject.
  destruct (parse_variable_total 65 variableIdOrig) as (r & Er & Hr); [lia|done|]. rewrite Er in *. cbn [mbind option_bind].
  destruct r as [[[b p] [v|]]|]; [|by eexists _, _, _; split_and!; [reflexivity|done|done]..].
  destruct Hr as (H0 & Hp & Hq). apply terminated_cstr in Hq, Hp.
  assert (Hb : is_cstr b) by (apply terminated_cstr in H0; unfold at_ in H0; by rewrite drop_0 in H0).
  destruct (lookup_total objs d b (at_ b p) Ho Hb Hp) as (r & -> & Hr). cbn [mbind option_bind].
  destruct r as [i|]; [|by eexists _, _, _; split_and!; [reflexivity|done|done]].
  destruct Hr as [o Hi]. unfold on_object. rewrite Hi. cbn [mbind option_bind].
  assert (Hw : wf_control o) by by eapply Forall_lookup_1.
  destruct (defined_write_object env (at_ b v) value c id Hq Hwv) with (j := 0%nat) (w := (o, self)) as (x & [o' self'] & E & (Ho' & Hm' & _) & _).
  { intros Hnc. destruct (Hv b p v eq_refl Hnc) as (s & Hs & Ht). by apply (command_typed s). }
  { split; [done|]. split; [done|]. intros k n Hk. specialize (Hc k n Hk). lia. }
  rewrite E. cbn [mbind option_bind]. eexists _, _, _. split; [reflexivity|]. split; [by apply Forall_insert|done].
Qed.

(** ["CSWI1$CO$Pos$SBOw"] *)
Definition sample_variable : list Z :=
  text [67; 83; 87; 73; 49; 36; 67; 79; 36; 80; 111; 115; 36; 83; 66; 79; 119].

Lemma sample_wf b : wf (command_of b).
Proof.
  cbn [wf all_wf command_of sample_origin sample_number no_time sample_check]. unfold wf_buf, BerInteger.wf.
  cbn [BerInteger.size BerInteger.maxSize BerInteger.octets].
  repeat match goal with |- _ /\ _ => split | |- is_bytes _ => solve_bytes | |- True => exact I | |- _ = _ => reflexivity | |- _ => by vm_compute end.
Qed.

Lemma sample_control_wf m : wf_control (sample_control m (command_of false)).
Proof.
  assert (Hi : wf_integer (Some sample_integer)).
  { eexists. split; [reflexivity|]. unfold BerInteger.wf. cbn. split_and!; try lia; solve_bytes. }
  constructor; cbn; try done; try (by apply (sample_wf false)).
  - exists [76; 68; 48]. split; [by exists []|repeat constructor; discriminate].
  - exists [67; 83; 87; 73; 49]. split; [by exists []|repeat constructor; discriminate].
  - exists [80; 111; 115]. split; [by exists []|repeat constructor; discriminate].
Qed.

Lemma control_write_defined_witness :
  exists indication objs' self',
    Control_writeAccessControlObject sample_env 1 sample_variable (command_of true) 1 10 [sample_control 4 (command_of false)] sample_mapping =
      Some (indication, (objs', self')) /\ Forall wf_control objs' /\ memory self' = [].
Proof.
  apply (control_write_defined sample_env 1 sample_variable (command_of true) 1 10 [sample_control 4 (command_of false)] sample_mapping).
  - exists [67; 83; 87; 73; 49; 36; 67; 79; 36; 80; 111; 115; 36; 83; 66; 79; 119]. split; [by exists []|repeat constructor; discriminate].
  - split; [apply sample_wf|]. intros b p v _ _. exists TypeSpec.sample_specification. split; [exact I|by vm_compute].
  - by apply Forall_singleton, sample_control_wf.
  - reflexivity.
  - intros c n. cbn. intros [[<- <-]|[_ H]]%lookup_insert_Some; [lia|].
    apply lookup_insert_Some in H as [[<- <-]|[_ H]]; [lia|done].
Defined.

(** The selection goes through. *)
Example sample_write :
  fst <$> Control_writeAccessControlObject sample_env 1 sample_variable (command_of true) 1 10 [sample_control 4 (command_of false)] sample_mapping =
    Some DATA_ACCESS_ERROR_SUCCESS.
Proof. vm_compute. reflexivity. Qed.

(** ** Parameters of other types

    The services rely on the check: they do not look at the types of all parameters themselves. *)

(** [SBOw] takes every structure of more than 5 elements for a command, but finds no check in one of
    8 elements. *)
Definition long_command : MmsValue :=
  MmsStructure (match command_of true with MmsStructure cs => cs ++ [Some (MmsBoolean true); Some (MmsBoolean true)] | _ => [] end).
Example select_with_long_command :
  Control_writeAccessControlObject sample_env 1 sample_variable long_command 1 10 [sample_control 4 (command_of false)] sample_mapping = None.
Proof. vm_compute. reflexivity. Qed.

(** A check that is not a bit string is read as one. *)
Definition mistyped_command : MmsValue :=
  MmsStructure [Some (MmsBoolean true); Some sample_origin; Some sample_number; Some no_time; Some (MmsBoolean false); Some (MmsBoolean true)].
Example operate_with_mistyped_check :
  write_object sample_env OPER mistyped_command 1 10 (sample_world 1) = None.
Proof. vm_compute. reflexivity. Qed.

(** A command with a time would be accepted by an object whose [Oper] has no time; when the time has come
    there is no [operTm] to clear. *)
Definition at_time (real : Z) : Environment := sample_environment real 5000 CONTROL_ACCEPTED CONTROL_RESULT_OK.
Example operate_later_without_operTm :
  ('(i, w) ← write_object (at_time 5000) OPER (timed_command_of true some_time) 1 10 (sample_world 1);
   Some (i, state (fst w), serve (at_time 1000000) (Cycle 6000) w)) =
  Some (DATA_ACCESS_ERROR_SUCCESS, STATE_WAIT_FOR_ACTIVATION_TIME, None).
Proof. vm_compute. reflexivity. Qed.

End ControlDefined.
