(* ===== verification/RcbAccess.v ===== *)
(** * Access of clients to report control blocks

    [src/iec61850/server/mms_mapping/reporting.c]: what happens to a report control block when
    clients read and write its elements and when their connections close: reservation, enabling of
    reports, the choice of the data set, and the settings.

    The functions run in a state monad over the report control block and its surroundings.  The
    part of the block that makes the reports is the [ReportControl] of [Reporting]; the objects that
    it shares with the structure of values that clients see, [EntryID] and [TimeofEntry] of a
    buffered block, exist once.  A pointer to an element of this structure is its index.  What the
    rest of the server and the application answer is an [Environment]; what leaves the component is
    the list [sent]. *)

From Stdlib Require Import String.
From stdpp Require Import list.
From S2P Require Import Prelude StateMonad ServerCommon Alloc BerInteger MmsValue StringUtils TypeSpec ReportBuffer Reporting.
From coqutil Require Import Datatypes.RecordSettersUsingExistingGetters.

Module RcbAccess.
Export StateMonad ServerCommon.
Import Alloc MmsValue.
Import TypeSpec (strncmp).
Import StringUtils (strchr, appendString, concatString, convertIPv6AdddressStringToByteArray, text).
Import Reporting (ReportControl, DataSet, dataSet, enabled, buffered, isBuffering, bufferedDataSetValues, valueReferences,
  gi, intgPd, bufTm, nextIntgReportTime, triggerOps, inclusionField, inclusionFlags, triggered, isResync, reportBuffer,
  timeOfEntry, rcbEntryID, server, elementCount, fcdas, address, logicalDeviceName, dataSetName, syncIntegrityReportTimes,
  TRG_OPT_INTEGRITY, TRG_OPT_GI).
#[global] Arguments const {E} newValue _ /.

Definition IEC_61850_EDITION_2 : Z := 1.
Definition IEC_61850_EDITION_2_1 : Z := 2.

Definition TRG_OPT_DATA_CHANGED : Z := 1.
Definition TRG_OPT_QUALITY_CHANGED : Z := 2.
Definition TRG_OPT_DATA_UPDATE : Z := 4.

Definition IEC61850_REPORTSETTINGS_RPT_ID : Z := 1.
Definition IEC61850_REPORTSETTINGS_BUF_TIME : Z := 2.
Definition IEC61850_REPORTSETTINGS_DATSET : Z := 4.
Definition IEC61850_REPORTSETTINGS_TRG_OPS : Z := 8.
Definition IEC61850_REPORTSETTINGS_OPT_FIELDS : Z := 16.
Definition IEC61850_REPORTSETTINGS_INTG_PD : Z := 32.

Definition RESV_TMS_IMPLICIT_VALUE : Z := 10.

(** ** The elements *)

Inductive Element :=
  | RptID | RptEna | Resv | DatSet | ConfRev | OptFlds | BufTm | SqNum | TrgOps | IntgPd | GI | PurgeBuf | EntryID
  | TimeofEntry | ResvTms | Owner | Unknown.

#[export] Instance Element_eq_dec : EqDecision Element.
Proof. solve_decision. Defined.

(** A string literal of the source. *)
Definition literal (s : string) : list Z :=
  text ((fun c => Z.of_N (Ascii.N_of_ascii c)) <$> list_ascii_of_string s).

Definition element_names : list (string * Element) :=
  [("RptID", RptID); ("RptEna", RptEna); ("Resv", Resv); ("DatSet", DatSet); ("ConfRev", ConfRev); ("OptFlds", OptFlds);
   ("BufTm", BufTm); ("SqNum", SqNum); ("TrgOps", TrgOps); ("IntgPd", IntgPd); ("GI", GI); ("PurgeBuf", PurgeBuf);
   ("EntryID", EntryID); ("TimeofEntry", TimeofEntry); ("ResvTms", ResvTms); ("Owner", Owner)]%string.

(** The comparisons of a name with those of the elements. *)
Fixpoint find_name (names : list (string * Element)) (elementName : list Z) : option Element :=
  match names with
  | [] => Some Unknown
  | (s, e) :: names => b ← strcmp elementName (literal s); if (b : bool) then Some e else find_name names elementName
  end.
Definition element_of (elementName : list Z) : option Element := find_name element_names elementName.

(** ** The state *)

(** [control] makes the reports; [rcbValues] are the components of the structure the clients see. *)
Record Rcb := {
  control : ReportControl;
  rcbValues : list (option MmsValue);
  isDynamicDataSet : bool;
  reserved : bool;
  sqNum : Z;
  reservationTimeout : Z;
  clientConnection : option nat;
  hasOwner : bool;
  resvTms : Z;
  clientReservation : list Z
}.

Inductive RcbEvent :=
  | RCB_EVENT_GET_PARAMETER | RCB_EVENT_SET_PARAMETER | RCB_EVENT_UNRESERVED | RCB_EVENT_RESERVED | RCB_EVENT_ENABLE
  | RCB_EVENT_DISABLE | RCB_EVENT_GI | RCB_EVENT_PURGEBUF.

(** Calls of the event handler, updates of the tracking objects, and data sets that are freed. *)
Inductive Event :=
  | HandleEvent (event : RcbEvent) (connection : option nat) (parameterName : option (list Z)) (serviceError : Z)
  | TrackValues
  | TrackValue (name : list Z) (newValue : MmsValue)
  | TrackService (serviceType errorCode : Z)
  | FreeDataSet (address : nat).

(** The parts of the configuration of the server that do not change. *)
Record Configuration := {
  edition : Z;
  enableBRCBResvTms : bool;
  rcbSettingsWritable : Z;
  rcbEventHandler : bool;
  modelName : list Z
}.

(** A variable is a domain and a name in it. *)
Abbreviation NamedVariable := (option (list Z) * list Z)%type.

(** Clocks and the answers of the access handler may differ at every call.  [getDeviceByInst] has
    the [ldName] of a device, [lookupDataSet] a data set of the model and, when the device has one
    for it, the list of its variables; the other functions look for lists that clients have
    defined, and make data sets of them. *)
Record Environment := {
  timeInMs : nat -> Z;
  monotonicTimeInMs : nat -> Z;
  controlBlockAccessHandler : option (nat -> nat -> list Z -> bool -> bool);
  clientAddress : nat -> list Z;
  getDeviceByInst : list Z -> option (option (list Z));
  lookupDataSet : list Z -> option (DataSet * option (list NamedVariable));
  getDomainSpecificDataSet : list Z -> option DataSet;
  connectionVariableList : nat -> list Z -> option (list NamedVariable);
  deviceVariableList : list Z -> option (list NamedVariable);
  createDataSetByNamedVariableList : list NamedVariable -> option DataSet;
  getValue : nat -> NamedVariable -> option MmsValue
}.

(** [calls] counts the questions to the environment, [memory] is the oracle of the allocations. *)
Record Surroundings := { calls : nat; memory : list bool; sent : list Event }.

Abbreviation World := (Rcb * Surroundings)%type.
Abbreviation M := (StateMonad.M World).

Definition get {A} (f : Rcb -> A) : M A := gets (fun w => f (fst w)).
Definition getc {A} (f : ReportControl -> A) : M A := gets (fun w => f (control (fst w))).
Definition modify (f : Rcb -> Rcb) : M unit := modifies (fun w => (f (fst w), snd w)).
Definition modifyc (f : ReportControl -> ReportControl) : M unit := modify (set control f).

(** [rc->f = v], for the parts of the block and of its [control] *)
Notation "f <:= v" := (modify (set f (const v))) (at level 70).
Notation "f <.:= v" := (modifyc (set f (const v))) (at level 70).

(** A function on the part that makes the reports. *)
Definition on_control {A} (f : ReportControl -> option (ReportControl * A)) : M A :=
  rc ← get control; '(rc, x) ← lift (f rc); modify (set control (const rc));; mret x.

Definition outside {A} (f : Surroundings -> A * Surroundings) : M A :=
  fun w => let '(x, s) := f (snd w) in Some (x, (fst w, s)).
Definition emit (e : Event) : M unit := outside (fun s => (tt, s <| sent := (sent s ++ [e])%list |>)).
Definition question : M nat := outside (fun s => (calls s, s <| calls := S (calls s) |>)).

(** A function that allocates. *)
Definition allocating {A} (f : alloc A) : M A :=
  mem ← gets (fun w => memory (snd w)); '(x, mem) ← lift (f mem); outside (fun s => (tt, s <| memory := mem |>));; mret x.

(** ** The values the clients see *)

Definition component (r : Rcb) (i : nat) : option MmsValue :=
  if decide (i < length (rcbValues r))%nat then
    if buffered (control r) && bool_decide (i = 11%nat) then
      let '(size, maxSize, buf) := rcbEntryID (control r) in Some (MmsOctetString size maxSize buf)
    else if buffered (control r) && bool_decide (i = 12%nat) then
      let '(size, buf) := timeOfEntry (control r) in Some (MmsBinaryTime size buf)
    else mjoin (rcbValues r !! i)
  else None.

Definition set_component (i : nat) (v : MmsValue) (r : Rcb) : option Rcb :=
  if buffered (control r) && bool_decide (i = 11%nat) then
    match v with
    | MmsOctetString size maxSize buf => Some (set control (set rcbEntryID (const (size, maxSize, buf))) r)
    | _ => None
    end
  else if buffered (control r) && bool_decide (i = 12%nat) then
    match v with
    | MmsBinaryTime size buf => Some (set control (set timeOfEntry (const (size, buf))) r)
    | _ => None
    end
  else Some (set rcbValues (fun vs => <[i := Some v]> vs) r).

Definition load (i : nat) : M MmsValue := r ← get id; lift (component r i).
Definition store (i : nat) (v : MmsValue) : M unit := r ← get id; r ← lift (set_component i v r); modify (const r).

Definition buffered_index (ed2 resv : bool) (elementName : Element) : option nat :=
  match elementName with
  | RptID => Some 0 | RptEna => Some 1 | DatSet => Some 2 | ConfRev => Some 3 | OptFlds => Some 4 | BufTm => Some 5
  | SqNum => Some 6 | TrgOps => Some 7 | IntgPd => Some 8 | GI => Some 9 | PurgeBuf => Some 10 | EntryID => Some 11
  | TimeofEntry => Some 12
  | ResvTms => if ed2 && resv then Some 13 else None
  | Owner => if ed2 then Some (if resv then 14 else 13) else None
  | Resv | Unknown => None
  end%nat.
Definition unbuffered_index (elementName : Element) : option nat :=
  match elementName with
  | RptID => Some 0 | RptEna => Some 1 | Resv => Some 2 | DatSet => Some 3 | ConfRev => Some 4 | OptFlds => Some 5
  | BufTm => Some 6 | SqNum => Some 7 | TrgOps => Some 8 | IntgPd => Some 9 | GI => Some 10 | Owner => Some 11
  | PurgeBuf | EntryID | TimeofEntry | ResvTms | Unknown => None
  end%nat.

Definition octetsOf (v : MmsValue) : option (Z * Z * list Z) :=
  match v with MmsOctetString size maxSize buf => Some (size, maxSize, buf) | _ => None end.

(** [p = f(p, ...)] for the value a pointer that is not [NULL] points to. *)
Definition set_value (p : option nat) (f : MmsValue -> option MmsValue) : M unit :=
  i ← lift p; v ← load i; v ← lift (f v); store i v.

(** [MmsValue_update(p, value)] *)
Definition update_value (p : option nat) (value : MmsValue) : M unit :=
  match p with
  | Some i => v ← load i; r ← allocating (update v value); store i (fst r)
  | None => mret tt
  end.

(** [MmsValue_equals(p, value)] *)
Definition equal_value (p : option nat) (value : MmsValue) : M bool :=
  match p with Some i => v ← load i; lift (equals v value) | None => mret false end.

(** ** Addresses of clients *)

#[export] Instance is_s32_dec z : Decision (is_s32 z).
Proof. unfold is_s32. apply _. Defined.

Definition is_space (c : Z) : bool := bool_decide (c = 32 \/ 9 <= c <= 13).

Fixpoint skip_spaces (fuel : nat) (s : list Z) (p : Z) : option Z :=
  match fuel with
  | O => None
  | S fuel => x ← s.[p]; if is_space x then skip_spaces fuel s (p + 1) else Some p
  end.

Fixpoint atoi_digits (fuel : nat) (s : list Z) (p sign value : Z) : option Z :=
  match fuel with
  | O => None
  | S fuel =>
      x ← s.[p];
      if StringUtils.isDigit x then
        let value := value * 10 + sign * (x - 48) in
        if decide (is_s32 value) then atoi_digits fuel s (p + 1) sign value else None
      else Some value
  end.

(** [atoi] has no defined result outside of the range of [int]. *)
Definition atoi (s : list Z) (p : Z) : option Z :=
  p ← skip_spaces (S (length s)) s p; x ← s.[p];
  if decide (x = 45) then atoi_digits (S (length s)) s (p + 1) (-1) 0
  else atoi_digits (S (length s)) s (if decide (x = 43) then p + 1 else p) 1 0.

Fixpoint convertIPv4_loop (n : nat) (s : list Z) (separator : option Z) (ipV4Addr : list Z) (addrElementCount : Z)
    : option (list Z * Z) :=
  match n, separator with
  | S n, Some separator =>
      intVal ← atoi s separator;
      ipV4Addr ← ipV4Addr.[addrElementCount]:= intVal;
      separator ← strchr s separator 46;
      convertIPv4_loop n s ((fun p => p + 1) <$> separator) ipV4Addr (addrElementCount + 1)
  | _, _ => Some (ipV4Addr, addrElementCount)
  end.

Definition convertIPv4AddressStringToByteArray (clientAddressString ipV4Addr : list Z) : option (list Z * bool) :=
  '(ipV4Addr, addrElementCount) ← convertIPv4_loop 4 clientAddressString (Some 0) ipV4Addr 0;
  Some (ipV4Addr, bool_decide (addrElementCount = 4)).

(** The octets of an address, how many they are, and whether the address could be converted. *)
Definition address_octets (addressString : list Z) : option (list Z * Z * bool) :=
  dot ← strchr addressString 0 46;
  match dot with
  | Some _ => '(a, valid) ← convertIPv4AddressStringToByteArray addressString (fresh 4); Some (a, 4, valid)
  | None => '(a, valid) ← convertIPv6AdddressStringToByteArray addressString (fresh 16); Some (a, 16, valid)
  end.

(** ** Operations *)

Definition int_mul (a b : Z) : option Z := if decide (is_s32 (a * b)) then Some (a * b) else None.

(** Sending starts again with the oldest report. *)
Definition restart (rb : ReportBuffer.ReportBuffer) : ReportBuffer.ReportBuffer := ReportBuffer.set_next rb (ReportBuffer.oldestReport rb).
Definition set_overflow (b : bool) (rb : ReportBuffer.ReportBuffer) : ReportBuffer.ReportBuffer :=
  ReportBuffer.set_queue rb (ReportBuffer.reportsCount rb) (ReportBuffer.oldestReport rb) (ReportBuffer.lastEnqueuedReport rb)
    (ReportBuffer.nextToTransmit rb) b.

(** The values of the first [n] members of a data set. *)
Definition entry_values (n : nat) (ds : DataSet) : option (list (option nat)) :=
  if decide (n <= length (fcdas ds))%nat then Some (take n (fcdas ds)) else None.

Section Model.
Context (conf : Configuration) (env : Environment).

Definition Hal_getTimeInMs : M Z := n ← question; mret (timeInMs env n).
Definition Hal_getMonotonicTimeInMs : M Z := n ← question; mret (monotonicTimeInMs env n).

Definition handle_event (event : RcbEvent) (connection : option nat) (parameterName : option (list Z)) (serviceError : Z) : M unit :=
  when (rcbEventHandler conf) (emit (HandleEvent event connection parameterName serviceError)).

Definition ReportControl_getRCBValue (elementName : Element) : M (option nat) :=
  r ← get id;
  mret (i ← (if buffered (control r) then
               buffered_index (bool_decide (edition conf >= IEC_61850_EDITION_2)) (enableBRCBResvTms conf) elementName
             else unbuffered_index elementName);
        _ ← component r i; Some i).

Definition copyRCBValuesToTrackingObject : M unit := emit TrackValues.
Definition updateSingleTrackingValue (name : list Z) (newValue : MmsValue) : M unit := emit (TrackValue name newValue).
Definition updateGenericTrackingObjectValues (serviceType errVal : Z) : M unit :=
  emit (TrackService serviceType (private_IedServer_convertMmsDataAccessErrorToServiceError errVal)).

Definition purgeBuf : M unit := modifyc Reporting.purgeBuf.

(** The buffer was purged for a client. *)
Definition purge_for (connection : nat) : M unit :=
  purgeBuf;; handle_event RCB_EVENT_PURGEBUF (Some connection) None DATA_ACCESS_ERROR_SUCCESS.

(** *** The data set *)

Definition deleteDataSetValuesShadowBuffer : M unit :=
  modifyc (fun rc => rc <| bufferedDataSetValues := [] |> <| valueReferences := [] |>).

Definition createDataSetValuesShadowBuffer (ds : DataSet) : M unit :=
  let n := Z.to_nat (elementCount ds) in
  ok ← allocating malloc;
  when ok
    (ok ← allocating malloc;
     when ok
       (refs ← lift (entry_values n ds);
        bufferedDataSetValues <.:= replicate n None;; valueReferences <.:= refs)).

Fixpoint all_readable (connection : nat) (variables : list NamedVariable) : bool :=
  match variables with
  | [] => true
  | v :: variables =>
      match getValue env connection v with
      | Some (MmsDataAccessError _) | None => false
      | Some _ => all_readable connection variables
      end
  end.
Definition checkIfClientHasAccessToDataSetEntries (connection : option nat) (variables : list NamedVariable) : bool :=
  match connection with Some c => all_readable c variables | None => true end.

Definition free_used_data_set (isUsedDataSetDynamic : bool) : M unit :=
  ds ← getc dataSet;
  match ds with Some ds => when isUsedDataSetDynamic (emit (FreeDataSet (address ds))) | None => mret tt end.

(** The empty name takes the data set away. *)
Definition release_data_set (isUsedDataSetDynamic : bool) : M unit :=
  ds ← getc dataSet;
  match ds with
  | Some _ =>
      b ← getc buffered;
      when (b : bool) (isBuffering <.:= false;; purgeBuf);;
      deleteDataSetValuesShadowBuffer;; free_used_data_set isUsedDataSetDynamic;; dataSet <.:= None
  | None => mret tt
  end.

Definition starts_with (s : list Z) (c : Z) : option bool := x ← s.[0]; Some (bool_decide (x = c)).

(** The name of the data set in use, as clients write it, is [newDataSetName]; nothing when its
    logical device is not known. *)
Definition same_data_set (ds : DataSet) (newDataSetName : list Z) : option (option bool) :=
  at_sign ← starts_with newDataSetName 64; slash ← starts_with newDataSetName 47;
  if (at_sign || slash : bool) then
    match logicalDeviceName ds with
    | None => b ← strcmp (dataSetName ds) (drop 1 newDataSetName); Some (Some b)
    | Some _ => Some (Some false)
    end
  else
    match logicalDeviceName ds with
    | None => Some (Some false)
    | Some ld =>
        match getDeviceByInst env ld with
        | None => Some None
        | Some ldName =>
            externalVisibleName ← (match ldName with
                                   | Some n => copyStringMax (fresh 256) 256 n
                                   | None => StringUtils.concat_into (fresh 256) 256 (modelName conf) ld
                                   end);
            externalVisibleName ← appendString externalVisibleName 256 (text [47]);
            externalVisibleName ← appendString externalVisibleName 256 (dataSetName ds);
            b ← strcmp externalVisibleName newDataSetName; Some (Some b)
        end
    end.

(** Whether the data set changes; nothing when this cannot be said. *)
Definition data_set_changes (newDataSetName : option (list Z)) : M (option bool) :=
  ds ← getc dataSet;
  match ds, newDataSetName with
  | Some ds, Some n =>
      same ← lift (same_data_set ds n);
      match same with
      | None => mret None
      | Some same => b ← getc buffered; when (b && negb same) purgeBuf;; mret (Some (negb same))
      end
  | _, _ => mret (Some true)
  end.

(** A data set made of a list a client has defined. *)
Definition of_variable_list (connection : option nat) (variables : option (list NamedVariable)) : option DataSet :=
  l ← variables; if checkIfClientHasAccessToDataSetEntries connection l then createDataSetByNamedVariableList env l else None.

Definition dynamic_data_set (b : bool) (connection : option nat) (name : list Z) : option (option DataSet) :=
  match getDomainSpecificDataSet env name with
  | Some ds => Some (Some ds)
  | None =>
      at_sign ← starts_with name 64; slash ← starts_with name 47;
      Some (if (at_sign : bool) then
              if (b : bool) then None
              else match connection with
                   | Some c => of_variable_list connection (connectionVariableList env c (drop 1 name))
                   | None => None
                   end
            else if (slash : bool) then of_variable_list connection (deviceVariableList env (drop 1 name))
            else None)
  end.

(** The data set with a name, for a client that may read all of it, and whether it is dynamic. *)
Definition find_data_set (b : bool) (connection : option nat) (name : list Z) : option (option (DataSet * bool)) :=
  match lookupDataSet env name with
  | Some (ds, l) =>
      Some (if match l with Some l => checkIfClientHasAccessToDataSetEntries connection l | None => true end
            then Some (ds, false) else None)
  | None => ds ← dynamic_data_set b connection name; Some (option_map (fun d => (d, true)) ds)
  end.

Definition use_data_set (isUsedDataSetDynamic : bool) (ds : DataSet) : M unit :=
  deleteDataSetValuesShadowBuffer;; free_used_data_set isUsedDataSetDynamic;;
  dataSet <.:= Some ds;;
  createDataSetValuesShadowBuffer ds;;
  f ← allocating (newBitString (elementCount ds));
  inclusionField <.:= match f with Some (MmsBitString size buf) => Some (size, buf) | _ => None end;;
  triggered <.:= false;;
  ok ← allocating malloc;
  inclusionFlags <.:= if (ok : bool) then replicate (Z.to_nat (elementCount ds)) 0 else [].

Definition take_data_set (isUsedDataSetDynamic dataSetChanged : bool) (connection : option nat) (name : list Z) : M bool :=
  b ← getc buffered;
  found ← lift (find_data_set b connection name);
  match found with
  | None => mret false
  | Some (ds, dynamic) =>
      isDynamicDataSet <:= dynamic;;
      old ← getc dataSet;
      when (dataSetChanged || match old with Some d => negb (bool_decide (address d = address ds)) | None => false end)
        (use_data_set isUsedDataSetDynamic ds);;
      when (b : bool) (isBuffering <.:= true);;
      mret true
  end.

(** A name, or [NULL] for none. *)
Definition name_of (v : MmsValue) : M (list Z) := lift (toString v).

Definition updateReportDataset (newDatSet : option MmsValue) (connection : option nat) : M bool :=
  isUsedDataSetDynamic ← get isDynamicDataSet;
  dataSetValue ← (match newDatSet with
                  | Some v =>
                      n ← name_of v; empty ← lift (strcmp n (literal ""));
                      if (empty : bool) then release_data_set isUsedDataSetDynamic;; mret None else mret (Some n)
                  | None =>
                      p ← ReportControl_getRCBValue DatSet;
                      match p with Some i => v ← load i; n ← name_of v; mret (Some n) | None => mret None end
                  end);
  dataSetChanged ← data_set_changes dataSetValue;
  match dataSetChanged, dataSetValue with
  | None, _ => mret false
  | Some _, None => mret true
  | Some changed, Some name => take_data_set isUsedDataSetDynamic changed connection name
  end.

Definition Reporting_activateBufferedReports : M unit :=
  b ← getc buffered;
  when (b : bool) (ok ← updateReportDataset None None; isBuffering <.:= ok).

(** *** The settings *)

(** The value of an element that must be there. *)
Definition value_of (elementName : Element) : M MmsValue :=
  p ← ReportControl_getRCBValue elementName; i ← lift p; load i.

Definition trigger_options (trgOps : MmsValue) : option Z :=
  dchg ← bitOf (Some trgOps) 1; qchg ← bitOf (Some trgOps) 2; dupd ← bitOf (Some trgOps) 3;
  integrity ← bitOf (Some trgOps) 4; gi ← bitOf (Some trgOps) 5;
  let option (b : bool) n := if (b : bool) then n else 0 in
  Some (option dchg TRG_OPT_DATA_CHANGED + option qchg TRG_OPT_QUALITY_CHANGED + option dupd TRG_OPT_DATA_UPDATE +
        option integrity TRG_OPT_INTEGRITY + option gi TRG_OPT_GI).

Definition refreshTriggerOptions : M unit :=
  v ← value_of TrgOps; ops ← lift (trigger_options v); triggerOps <.:= ops.

(** The time of the next integrity report, when the period is used. *)
Definition start_integrity (otherwise : M Z) : M unit :=
  ops ← getc triggerOps; pd ← getc intgPd;
  when (bool_decide (Z.land ops TRG_OPT_INTEGRITY <> 0) && bool_decide (pd > 0))
    (s ← getc server; s ← lift s;
     t ← (if syncIntegrityReportTimes s then now ← Hal_getTimeInMs; lift (Reporting.getNextRoundedStartTime now pd)
          else otherwise);
     nextIntgReportTime <.:= t).

Definition refreshIntegrityPeriod : M unit :=
  v ← value_of IntgPd; pd ← lift (toUint32 v); intgPd <.:= pd;;
  b ← getc buffered;
  when (negb b) (start_integrity (now ← Hal_getTimeInMs; mret (u64 (now + pd)))).

Definition refreshBufferTime : M unit := v ← value_of BufTm; t ← lift (toUint32 v); bufTm <.:= t.

Definition increaseConfRev : M unit :=
  v ← value_of ConfRev; confRev ← lift (toUint32 v);
  let confRev := u32 (confRev + 1) in
  p ← ReportControl_getRCBValue ConfRev; set_value p (fun v => setUint32 v (if decide (confRev = 0) then 1 else confRev)).

(** *** Reservation *)

Definition setOwner (owner : option nat) (octets : list Z) (p size : Z) : M unit :=
  set_value owner (fun v => '(n, maxSize, buf) ← octetsOf v; '(n, buf) ← setOctetString n maxSize buf octets p size;
                            Some (MmsOctetString n maxSize buf)).

(** The address of the client, or no address when it cannot be converted. *)
Definition set_client_owner (owner : option nat) (connection : nat) : M unit :=
  '(octets, size, valid) ← lift (address_octets (clientAddress env connection));
  setOwner owner octets 0 (if (valid : bool) then size else 0).

Definition set_configured_owner (owner : option nat) : M unit :=
  reservation ← get clientReservation; kind ← lift (reservation.[0]);
  if decide (kind = 4) then setOwner owner reservation 1 4
  else when (bool_decide (kind = 6)) (setOwner owner reservation 1 16).

Definition updateOwner (connection : option nat) : M unit :=
  clientConnection <:= connection;;
  h ← get hasOwner;
  when (bool_decide (edition conf >= IEC_61850_EDITION_2) && h)
    (p ← ReportControl_getRCBValue Owner;
     match p, connection with
     | None, _ => mret tt
     | Some _, Some c => set_client_owner p c
     | Some _, None => r ← get resvTms; if decide (r <> -1) then setOwner p [] 0 0 else set_configured_owner p
     end).

(** [ResvTms] of the block as the clients see it, if it has one. *)
Definition show_resvTms : M unit :=
  when (enableBRCBResvTms conf)
    (p ← ReportControl_getRCBValue ResvTms; r ← get resvTms;
     match p with Some _ => set_value p (fun v => setInt16 v (s16 r)) | None => mret tt end).

Definition checkReservationTimeout : M unit :=
  e ← getc enabled; c ← get clientConnection; t ← get reservationTimeout;
  when (negb e && bool_decide (c = None) && bool_decide (t > 0))
    (now ← Hal_getMonotonicTimeInMs;
     when (bool_decide (now > t))
       (r ← get resvTms; when (bool_decide (r <> -1)) (resvTms <:= 0);;
        show_resvTms;;
        reservationTimeout <:= 0;;
        updateOwner None;;
        reserved <:= false;;
        copyRCBValuesToTrackingObject;;
        updateGenericTrackingObjectValues IEC61850_SERVICE_TYPE_INTERNAL_CHANGE DATA_ACCESS_ERROR_SUCCESS;;
        handle_event RCB_EVENT_UNRESERVED None None DATA_ACCESS_ERROR_SUCCESS)).

(** The answer of [controlBlockAccessHandler]; without one everything is allowed. *)
Definition access_allowed (connection : nat) (elementName : list Z) (write : bool) : M bool :=
  match controlBlockAccessHandler env with
  | Some h => n ← question; mret (h n connection elementName write)
  | None => mret true
  end.

Definition ReportControl_readAccess (connection : nat) (elementName : list Z) : M bool :=
  b ← getc buffered; when (b : bool) checkReservationTimeout;;
  accessAllowed ← access_allowed connection elementName false;
  handle_event RCB_EVENT_GET_PARAMETER (Some connection) (Some elementName)
    (if (accessAllowed : bool) then DATA_ACCESS_ERROR_SUCCESS else DATA_ACCESS_ERROR_OBJECT_ACCESS_DENIED);;
  mret accessAllowed.

Definition isIpAddressMatchingWithOwner (ipAddress : list Z) : M bool :=
  p ← ReportControl_getRCBValue Owner;
  match p with
  | None => mret false
  | Some i =>
      v ← load i; '(size, _, buf) ← lift (octetsOf v);
      if decide (size = 0) then mret true
      else
        '(octets, n, valid) ← lift (address_octets ipAddress);
        if (valid : bool) then lift (memcmp n octets buf) else mret false
  end.

Definition reserveRcb (connection : nat) : M unit :=
  reserved <:= true;; clientConnection <:= Some connection;;
  b ← getc buffered;
  (if (b : bool) then show_resvTms
   else p ← ReportControl_getRCBValue Resv;
        match p with Some _ => set_value p (fun v => setBoolean v true) | None => mret tt end);;
  updateOwner (Some connection).

Definition reserved_event (connection : nat) : M unit :=
  handle_event RCB_EVENT_RESERVED (Some connection) None DATA_ACCESS_ERROR_SUCCESS.
Definition unreserved_event (connection : nat) : M unit :=
  handle_event RCB_EVENT_UNRESERVED (Some connection) None DATA_ACCESS_ERROR_SUCCESS.

(** [rc->reservationTimeout = Hal_getMonotonicTimeInMs() + (seconds * 1000)] *)
Definition prolong (seconds : Z) : M unit :=
  now ← Hal_getMonotonicTimeInMs; ms ← lift (int_mul seconds 1000); reservationTimeout <:= u64 (now + ms).

(** *** Writing *)

(** What the reservation time means for a client that writes to a buffered block. *)
Definition claim_buffered (connection : nat) : M unit :=
  checkReservationTimeout;;
  r ← get resvTms; res ← get reserved;
  if decide (r = -1) then
    when (negb res && bool_decide (edition conf < IEC_61850_EDITION_2_1))
      (reserved <:= true;; clientConnection <:= Some connection;; reserved_event connection)
  else when (bool_decide (r > 0))
    (if (res : bool) then c ← get clientConnection; when (bool_decide (c = Some connection)) (prolong r)
     else
       matches ← isIpAddressMatchingWithOwner (clientAddress env connection);
       when (matches : bool) (reserved <:= true;; clientConnection <:= Some connection;; prolong r;; reserved_event connection)).

(** Nothing for a client that may go on. *)
Definition locked_out (connection : nat) (elementName : Element) : M (option Z) :=
  res ← get reserved; c ← get clientConnection;
  mret (if bool_decide (edition conf = IEC_61850_EDITION_2_1) && negb res && negb (bool_decide (elementName = Resv \/ elementName = ResvTms))
        then Some DATA_ACCESS_ERROR_OBJECT_ACCESS_DENIED
        else if res && bool_decide (c <> Some connection) then Some DATA_ACCESS_ERROR_TEMPORARILY_UNAVAILABLE
        else None).

Definition enable (value : MmsValue) (connection : nat) : M unit :=
  res ← get reserved;
  when (negb res) (resvTms <:= RESV_TMS_IMPLICIT_VALUE;; reserveRcb connection;; reserved_event connection);;
  updateOwner (Some connection);;
  p ← ReportControl_getRCBValue RptEna; update_value p value;;
  b ← getc buffered; resync ← getc isResync;
  when b
    (when (negb resync) (modifyc (set reportBuffer (fun rb => set_overflow true (restart rb))));;
     isResync <.:= false);;
  enabled <.:= true;; gi <.:= false;;
  refreshBufferTime;; refreshTriggerOptions;; refreshIntegrityPeriod;;
  sqNum <:= 0;;
  p ← ReportControl_getRCBValue SqNum; set_value p (fun v => setUint32 v 0);;
  handle_event RCB_EVENT_ENABLE (Some connection) None DATA_ACCESS_ERROR_SUCCESS.

Definition disable (connection : nat) : M unit :=
  b ← getc buffered;
  (if (b : bool) then modifyc (set reportBuffer (set_overflow true));; isResync <.:= false
   else
     ds ← getc dataSet;
     match ds with Some _ => on_control (fun rc => rc ← Reporting.clearInclusionFlags rc; Some (rc, tt)) | None => mret tt end;;
     purge_for connection);;
  handle_event RCB_EVENT_DISABLE (Some connection) None DATA_ACCESS_ERROR_SUCCESS;;
  enabled <.:= false.

(** The end of a write access: its result, and whether it was one to [Resv] or [ResvTms]. *)
Inductive Outcome := Exit (retVal : Z) (resvTmsAccess : bool) | Continue (resvTmsAccess dontUpdate : bool).

Definition SUCCESS : Outcome := Exit DATA_ACCESS_ERROR_SUCCESS false.
Definition fails (retVal : Z) : Outcome := Exit retVal false.
Definition go_on : Outcome := Continue false false.

Definition write_RptEna (value : MmsValue) (connection : nat) : M Outcome :=
  b ← lift (booleanOf (Some value)); e ← getc enabled; c ← get clientConnection;
  if (b : bool) then
    if (e : bool) then mret (fails DATA_ACCESS_ERROR_TEMPORARILY_UNAVAILABLE)
    else
      ok ← updateReportDataset None (Some connection);
      if (ok : bool) then enable value connection;; mret SUCCESS
      else mret (fails DATA_ACCESS_ERROR_TEMPORARILY_UNAVAILABLE)
  else if (e : bool) then
    if decide (c <> Some connection) then mret (fails DATA_ACCESS_ERROR_TEMPORARILY_UNAVAILABLE)
    else disable connection;; mret go_on
  else mret SUCCESS.

Definition write_GI (value : MmsValue) (connection : nat) : M Outcome :=
  e ← getc enabled; c ← get clientConnection;
  if e && bool_decide (c = Some connection) then
    b ← lift (booleanOf (Some value)); ops ← getc triggerOps;
    when (b && bool_decide (Z.land ops TRG_OPT_GI <> 0)) (gi <.:= true);;
    handle_event RCB_EVENT_GI (Some connection) None DATA_ACCESS_ERROR_SUCCESS;;
    mret SUCCESS
  else mret (fails DATA_ACCESS_ERROR_TEMPORARILY_UNAVAILABLE).

Definition write_Resv (value : MmsValue) (connection : nat) : M Outcome :=
  b ← lift (booleanOf (Some value)); reserved <:= b;;
  if (b : bool) then
    reserved_event connection;; updateOwner (Some connection);; clientConnection <:= Some connection;; mret (Continue true false)
  else
    updateOwner None;; clientConnection <:= None;;
    r ← get resvTms; unreserved_event connection;; mret (Continue true (bool_decide (r = -1))).

Definition write_PurgeBuf (value : MmsValue) (connection : nat) : M Outcome :=
  match value with
  | MmsBoolean true => purge_for connection;; mret SUCCESS
  | _ => mret go_on
  end.

(** A setting that clients may write. *)
Definition if_writable (setting : Z) (m : M Outcome) : M Outcome :=
  if decide (Z.land (rcbSettingsWritable conf) setting = 0) then mret (fails DATA_ACCESS_ERROR_OBJECT_ACCESS_DENIED) else m.

Definition purge_if_buffered (connection : nat) : M unit := b ← getc buffered; when (b : bool) (purge_for connection).

Definition write_DatSet (value : MmsValue) (connection : nat) : M Outcome :=
  if_writable IEC61850_REPORTSETTINGS_DATSET
    (p ← ReportControl_getRCBValue DatSet; same ← equal_value p value;
     if (same : bool) then mret SUCCESS
     else
       ok ← updateReportDataset (Some value) (Some connection);
       if (ok : bool) then
         update_value p value;; increaseConfRev;; purge_if_buffered connection;; mret SUCCESS
       else mret (fails DATA_ACCESS_ERROR_OBJECT_VALUE_INVALID)).

(** A new value of a setting, and what follows from it. *)
Definition change_setting (elementName : Element) (value : MmsValue) (follows : M unit) : M Outcome :=
  p ← ReportControl_getRCBValue elementName; same ← equal_value p value;
  when (negb same) (update_value p value;; follows);; mret SUCCESS.

Definition write_IntgPd (value : MmsValue) (connection : nat) : M Outcome :=
  if_writable IEC61850_REPORTSETTINGS_INTG_PD
    (change_setting IntgPd value
       (refreshIntegrityPeriod;;
        b ← getc buffered; when (b : bool) (start_integrity (mret 0);; purge_for connection))).
Definition write_TrgOps (value : MmsValue) (connection : nat) : M Outcome :=
  if_writable IEC61850_REPORTSETTINGS_TRG_OPS
    (change_setting TrgOps value (purge_if_buffered connection;; refreshTriggerOptions)).
Definition write_BufTm (value : MmsValue) (connection : nat) : M Outcome :=
  if_writable IEC61850_REPORTSETTINGS_BUF_TIME
    (change_setting BufTm value (purge_if_buffered connection;; refreshBufferTime)).
Definition write_RptID (value : MmsValue) (connection : nat) : M Outcome :=
  if_writable IEC61850_REPORTSETTINGS_RPT_ID
    (if decide (getStringSize value > 129) then mret (fails DATA_ACCESS_ERROR_OBJECT_VALUE_INVALID)
     else change_setting RptID value (purge_if_buffered connection)).

Definition write_EntryID (value : MmsValue) (connection : nat) : M Outcome :=
  '(size, _, buf) ← lift (octetsOf value);
  if decide (size <> 8) then mret (fails DATA_ACCESS_ERROR_OBJECT_VALUE_INVALID)
  else
    zero ← lift (Reporting.checkForZeroEntryID buf);
    found ← (if (zero : bool) then
               modifyc (set reportBuffer (fun rb => set_overflow true (restart rb)));; isResync <.:= false;; mret true
             else
               found ← on_control (fun rc => Reporting.checkReportBufferForEntryID rc buf);
               modifyc (set reportBuffer (set_overflow (negb found)));; mret found);
    if (found : bool) then
      p ← ReportControl_getRCBValue EntryID; update_value p value;; mret SUCCESS
    else mret (fails DATA_ACCESS_ERROR_OBJECT_VALUE_INVALID).

Definition reserve_for (seconds : Z) (connection : nat) : M unit :=
  prolong seconds;; reserveRcb connection;; reserved_event connection.

Definition write_ResvTms (value : MmsValue) (connection : nat) : M Outcome :=
  r ← get resvTms;
  if decide (r <> -1) then
    seconds ← lift (toInt32 value);
    if decide (seconds >= 0) then
      resvTms <:= seconds;;
      (if decide (seconds = 0) then
         reservationTimeout <:= 0;; reserved <:= false;; updateOwner None;; unreserved_event connection
       else reserve_for seconds connection);;
      p ← ReportControl_getRCBValue ResvTms; update_value p value;;
      mret (Exit DATA_ACCESS_ERROR_SUCCESS true)
    else mret (Exit DATA_ACCESS_ERROR_OBJECT_VALUE_INVALID true)
  else if decide (edition conf < IEC_61850_EDITION_2_1) then mret (Exit DATA_ACCESS_ERROR_OBJECT_ACCESS_DENIED true)
  else reserve_for RESV_TMS_IMPLICIT_VALUE connection;; mret (Exit DATA_ACCESS_ERROR_SUCCESS true).

(** An element of a block that is not enabled. *)
Definition write_element (elementName : Element) (value : MmsValue) (connection : nat) : M Outcome :=
  match elementName with
  | Resv => write_Resv value connection
  | PurgeBuf => write_PurgeBuf value connection
  | DatSet => write_DatSet value connection
  | IntgPd => write_IntgPd value connection
  | TrgOps => write_TrgOps value connection
  | EntryID => write_EntryID value connection
  | BufTm => write_BufTm value connection
  | RptID => write_RptID value connection
  | ResvTms => b ← getc buffered; if (b : bool) then write_ResvTms value connection else mret go_on
  | ConfRev | SqNum | Owner | TimeofEntry => mret (fails DATA_ACCESS_ERROR_OBJECT_ACCESS_DENIED)
  | OptFlds => if_writable IEC61850_REPORTSETTINGS_OPT_FIELDS (mret go_on)
  | RptEna | GI | Unknown => mret go_on
  end.

(** The new value is stored, unless the element has done so. *)
Definition write_value (elementName : Element) (value : MmsValue) (o : Outcome) : M (Z * bool) :=
  match o with
  | Exit retVal resvTmsAccess => mret (retVal, resvTmsAccess)
  | Continue resvTmsAccess dontUpdate =>
      p ← ReportControl_getRCBValue elementName;
      match p with
      | Some _ => when (negb dontUpdate) (update_value p value);; mret (DATA_ACCESS_ERROR_SUCCESS, resvTmsAccess)
      | None => mret (DATA_ACCESS_ERROR_OBJECT_VALUE_INVALID, resvTmsAccess)
      end
  end.

Definition write_disabled (elementName : Element) (value : MmsValue) (connection : nat) : M (Z * bool) :=
  e ← getc enabled; res ← get reserved; c ← get clientConnection;
  if (e : bool) then mret (DATA_ACCESS_ERROR_TEMPORARILY_UNAVAILABLE, false)
  else if res && bool_decide (c <> Some connection) then mret (DATA_ACCESS_ERROR_TEMPORARILY_UNAVAILABLE, false)
  else o ← write_element elementName value connection; write_value elementName value o.

(** Between the locking of the block and [exit_function]. *)
Definition write_locked (elementName : Element) (value : MmsValue) (connection : nat) : M (Z * bool) :=
  l ← locked_out connection elementName;
  match l with
  | Some retVal => mret (retVal, false)
  | None =>
      o ← (match elementName with
           | RptEna => write_RptEna value connection
           | GI => write_GI value connection
           | _ => mret go_on
           end);
      match o with
      | Exit retVal resvTmsAccess => mret (retVal, resvTmsAccess)
      | Continue _ _ => write_disabled elementName value connection
      end
  end.

(** Every successful write reserves the block. *)
Definition reserve_implicitly (connection : nat) : M unit :=
  b ← getc buffered; res ← get reserved;
  if (b : bool) then
    prolong RESV_TMS_IMPLICIT_VALUE;;
    r ← get resvTms;
    when (bool_decide (r = 0) && negb res) (resvTms <:= RESV_TMS_IMPLICIT_VALUE);;
    when (bool_decide (r = 0 \/ r = -1) && negb res) (reserveRcb connection;; reserved_event connection)
  else when (negb res) (reserveRcb connection;; reserved_event connection).

Definition track_write (retVal : Z) (connection : nat) (elementName : list Z) : M Z :=
  b ← getc buffered;
  updateGenericTrackingObjectValues (if (b : bool) then IEC61850_SERVICE_TYPE_SET_BRCB_VALUES else IEC61850_SERVICE_TYPE_SET_URCB_VALUES) retVal;;
  handle_event RCB_EVENT_SET_PARAMETER (Some connection) (Some elementName) retVal;;
  mret retVal.

Definition Reporting_RCBWriteAccessHandler (elementName : list Z) (value : MmsValue) (connection : nat) : M Z :=
  allowed ← access_allowed connection elementName true;
  if (allowed : bool) then
    b ← getc buffered; when (b : bool) (claim_buffered connection);;
    e ← lift (element_of elementName);
    '(retVal, resvTmsAccess) ← write_locked e value connection;
    when (bool_decide (retVal = DATA_ACCESS_ERROR_SUCCESS) && negb resvTmsAccess) (reserve_implicitly connection);;
    copyRCBValuesToTrackingObject;; updateSingleTrackingValue elementName value;;
    track_write retVal connection elementName
  else track_write DATA_ACCESS_ERROR_OBJECT_ACCESS_DENIED connection elementName.

(** *** The end of a connection *)

(** What becomes of the reservation and the buffer. *)
Definition leave_reservation : M unit :=
  b ← getc buffered; r ← get resvTms;
  if (b : bool) then
    if decide (r = 0) then updateOwner None else when (bool_decide (r > 0)) (prolong r)
  else
    when (bool_decide (r <> -1))
      (p ← ReportControl_getRCBValue Resv; set_value p (fun v => setBoolean v false);; updateOwner None);;
    purgeBuf.

Definition Reporting_disableReportControlInstance : M unit :=
  e ← getc enabled; c ← get clientConnection;
  when (e : bool) (handle_event RCB_EVENT_DISABLE c None DATA_ACCESS_ERROR_SUCCESS);;
  enabled <.:= false;; clientConnection <:= None;;
  p ← ReportControl_getRCBValue RptEna; set_value p (fun v => setBoolean v false);;
  res ← get reserved;
  when (res : bool) (reserved <:= false;; handle_event RCB_EVENT_UNRESERVED None None DATA_ACCESS_ERROR_SUCCESS);;
  leave_reservation;;
  copyRCBValuesToTrackingObject;;
  updateGenericTrackingObjectValues IEC61850_SERVICE_TYPE_INTERNAL_CHANGE DATA_ACCESS_ERROR_SUCCESS.

(** What the loops over all blocks do to this one. *)
Definition Reporting_deactivateAllReports : M unit := Reporting_disableReportControlInstance.
Definition Reporting_deactivateReportsForConnection (connection : nat) : M unit :=
  c ← get clientConnection; when (bool_decide (c = Some connection)) Reporting_disableReportControlInstance.

End Model.

(** ** Names of the elements of blocks *)

(** What identifies a block of the server: the address of its domain, the name of the logical
    node and its own. *)
Record BlockName := { blockDomain : nat; lnName : list Z; blockName : list Z }.

Inductive Addressed := NotAReport | NoSuchBlock | ElementOf (block : nat) (elementName : list Z).

Definition isReportControlBlock (variableId : list Z) (separator : Z) : option bool :=
  let fc := drop (Z.to_nat (separator + 1)) variableId in
  rp ← strncmp fc (literal "RP") 2; if (rp : bool) then Some true else strncmp fc (literal "BR") 2.

Definition is_block (b : BlockName) (domain : nat) (variableId : list Z) (lnNameLength variableIdLen : Z) : option bool :=
  if decide (blockDomain b <> domain) then Some false
  else
    parentLNNameStrLen ← strlen (lnName b);
    if decide (parentLNNameStrLen <> lnNameLength) then Some false
    else
      same ← memcmp parentLNNameStrLen (lnName b) variableId;
      if (same : bool) then
        rcNameLen ← strlen (blockName b);
        if decide (rcNameLen = variableIdLen) then strncmp variableId (blockName b) variableIdLen else Some false
      else Some false.

(** The element name is what follows the name of the block and the octet behind it. *)
Fixpoint find_block (blocks : list BlockName) (i : nat) (domain : nat) (variableId : list Z) (lnNameLength variableIdLen : Z)
    : option Addressed :=
  match blocks with
  | [] => Some NoSuchBlock
  | b :: blocks =>
      found ← is_block b domain variableId lnNameLength variableIdLen;
      if (found : bool) then Some (ElementOf i (drop (Z.to_nat (variableIdLen + 1)) variableId))
      else find_block blocks (S i) domain variableId lnNameLength variableIdLen
  end.

Definition addressed_block (blocks : list BlockName) (domain : nat) (variableId : list Z) (separator : Z) : option Addressed :=
  report ← isReportControlBlock variableId separator;
  if (report : bool) then
    reportName ← MmsMapping_getNextNameElement variableId (separator + 1);
    match reportName with
    | None => Some NoSuchBlock
    | Some reportName =>
        sep ← strchr variableId reportName 36;
        variableIdLen ← (match sep with Some p => Some p | None => strlen variableId end);
        find_block blocks 0 domain variableId separator variableIdLen
    end
  else Some NotAReport.

End RcbAccess.
