(* ===== verification/RcbCreation.v ===== *)
(** * Creation of report control blocks

    [src/iec61850/server/mms_mapping/reporting.c]: the structure that clients see of a report control
    block of the model, its type and its first values.

    The creation does not look at the results of its allocations: one that fails is used as if it had
    not, which has no defined behaviour ([None]), except that a value can be missing. *)

From Stdlib Require Import String.
From stdpp Require Import list.
From S2P Require Import Prelude StateMonad ServerCommon Alloc BerInteger MmsValue StringUtils TypeSpec ReportBuffer Reporting RcbAccess.
From coqutil Require Import Datatypes.RecordSettersUsingExistingGetters.

Module RcbCreation.
Import Alloc MmsValue RcbAccess.
Import TypeSpec (MmsVariableSpecification, SimpleType, Simple, Structure).
Import Reporting (ReportControl, buffered, timeOfEntry, rcbEntryID).
#[local] Open Scope alloc_scope.

Definition RPT_OPT_SEQ_NUM : Z := 1.
Definition RPT_OPT_TIME_STAMP : Z := 2.
Definition RPT_OPT_REASON_FOR_INCLUSION : Z := 4.
Definition RPT_OPT_DATA_SET : Z := 8.
Definition RPT_OPT_DATA_REFERENCE : Z := 16.
Definition RPT_OPT_BUFFER_OVERFLOW : Z := 32.
Definition RPT_OPT_ENTRY_ID : Z := 64.
Definition RPT_OPT_CONF_REV : Z := 128.

(** The block of the data model; [parent] is the name of its logical node. *)
Record ReportControlBlock := {
  parent : list Z;
  name : list Z;
  rptId : option (list Z);
  cbDataSetName : option (list Z);
  confRef : Z;
  trgOps : Z;
  options : Z;
  bufferTime : Z;
  intPeriod : Z;
  cbClientReservation : list Z
}.

(** ** A block without elements *)

(** [ReportControl_create]: [block] is the buffer that could be allocated for its reports. *)
Definition new_control (b : bool) (block : ReportBuffer.ReportBuffer) (iedServer : Reporting.Server) : ReportControl :=
  {| Reporting.inclusionField := None; Reporting.dataSet := None; Reporting.enabled := false; buffered := b;
     Reporting.isBuffering := false; Reporting.bufferedDataSetValues := []; Reporting.valueReferences := []; Reporting.gi := false;
     Reporting.intgPd := 0; Reporting.bufTm := 0; Reporting.nextIntgReportTime := 0; Reporting.lastEntryId := 0;
     Reporting.triggerOps := 0; Reporting.inclusionFlags := []; Reporting.triggered := false; Reporting.reportTime := 0;
     Reporting.isResync := false; Reporting.reportBuffer := block; timeOfEntry := (6, []); rcbEntryID := (0, 0, []);
     Reporting.server := Some iedServer |}.

Definition ReportControl_create (b : bool) (block : ReportBuffer.ReportBuffer) (iedServer : Reporting.Server)
    (rcb : ReportControlBlock) (enableOwnerForRCB : bool) : Rcb :=
  {| control := new_control b block iedServer; rcbValues := []; isDynamicDataSet := false; reserved := false; sqNum := 0;
     reservationTimeout := 0; clientConnection := None; hasOwner := enableOwnerForRCB; resvTms := 0;
     clientReservation := cbClientReservation rcb |}.

(** ** First values *)

Definition set_bit (options : Z) (v : option MmsValue) (o : Z * Z) : option (option MmsValue) :=
  if decide (Z.land options (fst o) <> 0) then
    match v with
    | Some (MmsBitString size buf) => buf ← setBitStringBit size buf (snd o) true; Some (Some (MmsBitString size buf))
    | _ => None
    end
  else Some v.
Fixpoint set_bits (options : Z) (v : option MmsValue) (os : list (Z * Z)) : option (option MmsValue) :=
  match os with [] => Some v | o :: os => v ← set_bit options v o; set_bits options v os end.

Definition createOptFlds (rcb : ReportControlBlock) : alloc (option MmsValue) :=
  optFlds <~ newBitString (-10);
  m_lift (set_bits (options rcb) optFlds
    [(RPT_OPT_SEQ_NUM, 1); (RPT_OPT_TIME_STAMP, 2); (RPT_OPT_REASON_FOR_INCLUSION, 3); (RPT_OPT_DATA_SET, 4);
     (RPT_OPT_DATA_REFERENCE, 5); (RPT_OPT_BUFFER_OVERFLOW, 6); (RPT_OPT_ENTRY_ID, 7); (RPT_OPT_CONF_REV, 8)]).

Definition createTrgOps (rcb : ReportControlBlock) : alloc (option MmsValue) :=
  v <~ newBitString (-6);
  m_lift (set_bits (trgOps rcb) v
    [(TRG_OPT_DATA_CHANGED, 1); (TRG_OPT_QUALITY_CHANGED, 2); (TRG_OPT_DATA_UPDATE, 3); (Reporting.TRG_OPT_INTEGRITY, 4);
     (Reporting.TRG_OPT_GI, 5)]).

(** [while (s[i] != 0) dst[p++] = s[i++]] *)
Fixpoint copy_name (fuel : nat) (s dst : list Z) (i p : Z) : option (list Z * Z) :=
  match fuel with
  | O => None
  | S fuel => x ← s.[i]; if decide (x = 0) then Some (dst, p) else dst ← dst.[p]:= x; copy_name fuel s dst (i + 1) (p + 1)
  end.

Definition composeDefaultRptIdString (rptIdString domainName rcName : list Z) : option (list Z) :=
  '(s, p) ← copy_name (S (length domainName)) domainName rptIdString 0 0;
  s ← s.[p]:= 47;
  '(s, p) ← copy_name (S (length rcName)) rcName s 0 (p + 1);
  s.[p]:= 0.

Section Creation.
Context (conf : Configuration) (env : Environment) (domainName : list Z) (rcb : ReportControlBlock).

(** [rcName]: the name of the block in its domain *)
Definition createDefaultRptId (rcName : list Z) : alloc (option MmsValue) :=
  s <~ m_lift (composeDefaultRptIdString (fresh 130) domainName rcName); newVisibleString (Some s).

Definition create_rptId (rcName : list Z) : alloc (option MmsValue) :=
  match rptId rcb with
  | Some s => n <~ m_lift (strlen s); if decide (n > 0) then newVisibleString (Some s) else createDefaultRptId rcName
  | None => createDefaultRptId rcName
  end.

Definition create_datSet : alloc (option MmsValue) :=
  match cbDataSetName rcb with
  | Some n =>
      dataSetReference <~ StringUtils.createString [domainName; literal "/"; parent rcb; literal "$"; n];
      newVisibleString dataSetReference
  | None => newVisibleString (Some (literal ""))
  end.

(** ** Elements *)

(** An allocation that has to succeed. *)
Definition calloc : M unit := ok ← allocating malloc; lift (if (ok : bool) then Some tt else None).

Definition element : Type := (string * SimpleType * alloc (option MmsValue))%type.

Definition new_element (e : element) : M (MmsVariableSpecification * option MmsValue) :=
  let '(s, t, v) := e in
  calloc;; n ← allocating (StringUtils.copyString (Some (literal s))); n ← lift n;
  v ← allocating v; mret (Simple n t, v).

Fixpoint new_elements (es : list element) : M (list MmsVariableSpecification * list (option MmsValue)) :=
  match es with
  | [] => mret ([], [])
  | e :: es => '(s, v) ← new_element e; '(ss, vs) ← new_elements es; mret (s :: ss, v :: vs)
  end.

(** The structure of elements, and its values. *)
Definition new_structure (es : list element) : M (MmsVariableSpecification * list (option MmsValue)) :=
  calloc;; n ← allocating (StringUtils.copyString (Some (name rcb))); n ← lift n;
  calloc;; calloc;; calloc;;
  '(ss, vs) ← new_elements es; mret (Structure n ss, vs).

Definition has_owner (r : Rcb) : bool := bool_decide (edition conf >= IEC_61850_EDITION_2) && hasOwner r.
Definition has_resvTms : bool := bool_decide (edition conf >= IEC_61850_EDITION_2) && enableBRCBResvTms conf.

Definition owner_element : element := ("Owner"%string, TypeSpec.OctetString (-64), newOctetString 0 16).

(** A pre-configured owner. *)
Definition preassign (owner : nat) : M unit :=
  reservation ← get clientReservation; kind ← lift (reservation.[0]);
  if decide (kind = 4) then resvTms <:= -1;; setOwner (Some owner) reservation 1 4
  else when (bool_decide (kind = 6)) (resvTms <:= -1;; setOwner (Some owner) reservation 1 16).

Definition refresh_all : M unit := refreshBufferTime conf;; refreshIntegrityPeriod conf env;; refreshTriggerOptions conf.

Definition unbuffered_elements (rcName : list Z) : list element :=
  [("RptID", TypeSpec.VisibleString (-129), create_rptId rcName);
   ("RptEna", TypeSpec.Boolean, newBoolean false);
   ("Resv", TypeSpec.Boolean, newBoolean false);
   ("DatSet", TypeSpec.VisibleString (-129), create_datSet);
   ("ConfRev", TypeSpec.Unsigned 32, newUnsignedFromUint32 (confRef rcb));
   ("OptFlds", TypeSpec.BitString (-10), createOptFlds rcb);
   ("BufTm", TypeSpec.Unsigned 32, newUnsignedFromUint32 (bufferTime rcb));
   ("SqNum", TypeSpec.Unsigned 8, newUnsigned 8);
   ("TrgOps", TypeSpec.BitString (-6), createTrgOps rcb);
   ("IntgPd", TypeSpec.Unsigned 32, newUnsignedFromUint32 (intPeriod rcb));
   ("GI", TypeSpec.Boolean, newBoolean false)]%string.

Definition createUnbufferedReportControlBlock (rcName : list Z) : M MmsVariableSpecification :=
  r ← get id;
  '(spec, values) ← new_structure (unbuffered_elements rcName ++ if has_owner r then [owner_element] else []);
  rcbValues <:= values;;
  when (has_owner r) (preassign 11);;
  reservation ← get clientReservation; kind ← lift (reservation.[0]);
  when (bool_decide (kind > 0)) (set_value (Some 2%nat) (fun v => setBoolean v true));;
  t ← allocating (newBinaryTime false);
  t ← lift (match t with Some (MmsBinaryTime size buf) => Some (size, buf) | _ => None end);
  timeOfEntry <.:= t;;
  refresh_all;; mret spec.

Definition buffered_elements (rcName : list Z) : list element :=
  [("RptID", TypeSpec.VisibleString (-129), create_rptId rcName);
   ("RptEna", TypeSpec.Boolean, newBoolean false);
   ("DatSet", TypeSpec.VisibleString (-129), create_datSet);
   ("ConfRev", TypeSpec.Unsigned 32, newUnsignedFromUint32 (confRef rcb));
   ("OptFlds", TypeSpec.BitString (-10), createOptFlds rcb);
   ("BufTm", TypeSpec.Unsigned 32, newUnsignedFromUint32 (bufferTime rcb));
   ("SqNum", TypeSpec.Unsigned 16, newUnsigned 16);
   ("TrgOps", TypeSpec.BitString (-6), createTrgOps rcb);
   ("IntgPd", TypeSpec.Unsigned 32, newUnsignedFromUint32 (intPeriod rcb));
   ("GI", TypeSpec.Boolean, newBoolean false);
   ("PurgeBuf", TypeSpec.Boolean, newBoolean false);
   ("EntryID", TypeSpec.OctetString 8, newOctetString 8 8);
   ("TimeofEntry", TypeSpec.BinaryTime 6, newBinaryTime false)]%string.

(** [EntryID] and [TimeofEntry] are shared with the part that makes the reports. *)
Definition share (values : list (option MmsValue)) : option ((Z * Z * list Z) * (Z * list Z)) :=
  match values !! 11%nat, values !! 12%nat with
  | Some (Some (MmsOctetString n maxSize buf)), Some (Some (MmsBinaryTime size t)) => Some ((n, maxSize, buf), (size, t))
  | _, _ => None
  end.

Definition createBufferedReportControlBlock (rcName : list Z) : M MmsVariableSpecification :=
  r ← get id;
  '(spec, values) ← new_structure
    (buffered_elements rcName ++ (if has_resvTms then [("ResvTms"%string, TypeSpec.Integer 16, newInteger 16)] else [])
       ++ (if has_owner r then [owner_element] else []));
  '(entryID, t) ← lift (share values);
  rcbValues <:= values;; rcbEntryID <.:= entryID;; timeOfEntry <.:= t;;
  when (has_owner r) (preassign (if has_resvTms then 14 else 13));;
  r ← get resvTms;
  when has_resvTms (set_value (Some 13%nat) (fun v => setInt16 v (s16 r)));;
  refresh_all;; mret spec.

(** One round of the loops of [Reporting_createMmsBufferedRCBs] and
    [Reporting_createMmsUnbufferedRCBs]. *)
Definition Reporting_createMmsRCB : M MmsVariableSpecification :=
  b ← getc buffered;
  rcName ← allocating (StringUtils.createString [parent rcb; literal (if (b : bool) then "$BR$" else "$RP$"); name rcb]);
  rcName ← lift rcName;
  if (b : bool) then createBufferedReportControlBlock rcName else createUnbufferedReportControlBlock rcName.

End Creation.

(** ** Examples *)

Definition sample_rcb (reservation : list Z) : ReportControlBlock :=
  {| parent := literal "LLN0"; name := literal "Events01"; rptId := None; cbDataSetName := Some (literal "ds"); confRef := 1; trgOps := 25;
     options := 3; bufferTime := 50; intPeriod := 1000; cbClientReservation := reservation |}.
Definition sample_conf (ed : Z) : Configuration :=
  {| edition := ed; enableBRCBResvTms := true; rcbSettingsWritable := 63; rcbEventHandler := true; modelName := literal "IED" |}.
Definition sample_data_set : Reporting.DataSet :=
  {| Reporting.address := 1; Reporting.logicalDeviceName := Some (literal "LD0"); Reporting.dataSetName := literal "LLN0$ds";
     Reporting.elementCount := 2; Reporting.fcdas := [Some 0%nat; Some 1%nat] |}.

(** Clients 1 and 2; the data set of the model is known under its name. *)
Definition sample_env (now : Z) : Environment :=
  {| timeInMs := fun _ => now; monotonicTimeInMs := fun _ => now; controlBlockAccessHandler := None;
     clientAddress := fun c => if decide (c = 1%nat) then literal "10.0.0.1" else literal "10.0.0.2";
     getDeviceByInst := fun _ => Some None;
     lookupDataSet := fun n => if decide (n = literal "IEDLD0/LLN0$ds") then Some (sample_data_set, Some [(None, n)]) else None;
     getDomainSpecificDataSet := fun _ => None; connectionVariableList := fun _ _ => None; deviceVariableList := fun _ => None;
     createDataSetByNamedVariableList := fun _ => None; getValue := fun _ _ => Some (MmsBoolean true) |}.

Definition sample_world (ed : Z) (b : bool) (reservation : list Z) : World :=
  (ReportControl_create b (Reporting.sample_buffer 128) {| Reporting.syncIntegrityReportTimes := false; Reporting.rcbEventHandler := true |}
     (sample_rcb reservation) true, {| calls := 0; memory := []; sent := [] |}).
Definition sample_created (ed : Z) (b : bool) (reservation : list Z) : option (MmsVariableSpecification * World) :=
  Reporting_createMmsRCB (sample_conf ed) (sample_env 0) (literal "IEDLD0") (sample_rcb reservation) (sample_world ed b reservation).

End RcbCreation.
