(* ===== verification/RcbSafety.v ===== *)
(** * What operations on report control blocks change

    An operation is described by the parts of the block it can change ([changes]); what it makes of
    them is stated where it matters. *)

From stdpp Require Import list.
From S2P Require Import Prelude StateMonad ServerCommon Alloc BerInteger MmsValue StringUtils ReportBuffer Reporting RcbAccess.
From coqutil Require Import Datatypes.RecordSettersUsingExistingGetters.

Module RcbSafety.
Import Alloc MmsValue RcbAccess.
Import Reporting (ReportControl, DataSet, dataSet, enabled, buffered, isBuffering, gi, intgPd, bufTm, triggerOps, reportBuffer,
  timeOfEntry, rcbEntryID, server, isResync).

(** ** Parts of a block *)

Definition index (conf : Configuration) (b : bool) (e : Element) : option nat :=
  if b then buffered_index (bool_decide (edition conf >= IEC_61850_EDITION_2)) (enableBRCBResvTms conf) e else unbuffered_index e.

(** What a client reads. *)
Definition value (conf : Configuration) (r : Rcb) (e : Element) : option MmsValue :=
  i ← index conf (buffered (control r)) e; component r i.

Lemma index_inj conf b e e' i : index conf b e = Some i -> index conf b e' = Some i -> e = e'.
Proof.
  unfold index, buffered_index, unbuffered_index. generalize (bool_decide (edition conf >= IEC_61850_EDITION_2)).
  intros ed. destruct b, ed, (enableBRCBResvTms conf); cbn [andb];
    destruct e; try discriminate; intros [= <-]; destruct e'; try discriminate; done.
Qed.

Inductive Part :=
  | Enabled | Reserved | Client | Seconds | Timeout | DataSetInUse | Operations | Period | BufferTime | Buffering | Number
  | Seen (e : Element).

#[export] Instance Part_eq_dec : EqDecision Part.
Proof. solve_decision. Defined.

Section Frames.
Context (conf : Configuration) (b : bool).

Definition same (p : Part) (r r' : Rcb) : Prop :=
  match p with
  | Enabled => enabled (control r') = enabled (control r)
  | Reserved => reserved r' = reserved r
  | Client => clientConnection r' = clientConnection r
  | Seconds => resvTms r' = resvTms r
  | Timeout => reservationTimeout r' = reservationTimeout r
  | DataSetInUse => dataSet (control r') = dataSet (control r) /\ isDynamicDataSet r' = isDynamicDataSet r
  | Operations => triggerOps (control r') = triggerOps (control r)
  | Period => intgPd (control r') = intgPd (control r)
  | BufferTime => bufTm (control r') = bufTm (control r)
  | Buffering => isBuffering (control r') = isBuffering (control r)
  | Number => sqNum r' = sqNum r
  | Seen e => value conf r' e = value conf r e
  end.

(** What never changes. *)
Record fixed (r r' : Rcb) : Prop := {
  f_buffered : buffered (control r') = buffered (control r);
  f_server : server (control r') = server (control r);
  f_hasOwner : hasOwner r' = hasOwner r;
  f_reservation : clientReservation r' = clientReservation r;
  f_elements : length (rcbValues r') = length (rcbValues r);
}.

(** The kind [b] of the block says where its elements are. *)
Definition changes (ps : list Part) (w w' : World) : Prop :=
  buffered (control (fst w)) = b -> fixed (fst w) (fst w') /\ forall p, p ∉ ps -> same p (fst w) (fst w').

#[export] Instance changes_preorder ps : PreOrder (changes ps).
Proof.
  split.
  - intros w _. split; [by split|]. by intros [] _.
  - intros w1 w2 w3 H12 H23 Hb. destruct (H12 Hb) as [[] H1]. destruct H23 as [[] H2]; [congruence|]. split; [split; congruence|].
    intros p Hp. specialize (H1 p Hp). specialize (H2 p Hp). destruct p; cbn [same] in *; try congruence.
    destruct H1, H2. split; congruence.
Qed.

Lemma changes_mono ps ps' w w' : forallb (fun p => bool_decide (p ∈ ps')) ps = true -> changes ps w w' -> changes ps' w w'.
Proof.
  intros Hs Hc Hb. destruct (Hc Hb) as [Hf H]. split; [done|]. intros p Hp. apply H. intros Hin. apply Hp.
  rewrite forallb_forall in Hs. by apply list_elem_of_In, Hs, bool_decide_eq_true_1 in Hin.
Qed.

Lemma within_changes {A} ps ps' (m : M A) : within (changes ps) m -> forallb (fun p => bool_decide (p ∈ ps')) ps = true ->
  within (changes ps') m.
Proof. intros H Hs. eapply within_mono; [|exact H]. intros w w'. by apply changes_mono. Qed.

(** A change of the block that leaves the elements alone. *)
Lemma value_same r r' e : fixed r r' -> rcbValues r' = rcbValues r -> rcbEntryID (control r') = rcbEntryID (control r) ->
  timeOfEntry (control r') = timeOfEntry (control r) -> value conf r' e = value conf r e.
Proof.
  intros [Hb _ _ _ _] Hv Hi Ht. unfold value. rewrite Hb. destruct (index _ _ _) as [i|]; [|done].
  cbn [mbind option_bind]. unfold component. by rewrite Hb, Hv, Hi, Ht.
Qed.

Lemma changes_modify ps f : (forall r, fixed r (f r)) ->
  (forall r, rcbValues (f r) = rcbValues r /\ rcbEntryID (control (f r)) = rcbEntryID (control r) /\ timeOfEntry (control (f r)) = timeOfEntry (control r)) ->
  (forall r p, p ∉ ps -> match p with Seen _ => True | _ => same p r (f r) end) -> within (changes ps) (modify f).
Proof.
  intros Hf Hv Hs. apply within_modifies. intros [r s] _. split; [apply Hf|]. intros p Hp. specialize (Hs r p Hp). cbn [fst].
  destruct p; try exact Hs. destruct (Hv r) as (? & ? & ?). by apply value_same.
Qed.

Lemma changes_get {A} ps (f : Rcb -> A) : within (changes ps) (get f).
Proof. apply within_gets. Qed.
Lemma changes_getc {A} ps (f : ReportControl -> A) : within (changes ps) (getc f).
Proof. apply within_gets. Qed.
Lemma changes_outside {A} ps (f : Surroundings -> A * Surroundings) : within (changes ps) (outside f).
Proof. intros [r s] x w'. unfold outside. cbn [fst snd]. destruct (f s). intros [= <- <-] _. split; [by split|]. by intros [] _. Qed.
Lemma changes_allocating {A} ps (f : alloc A) : within (changes ps) (allocating f).
Proof.
  apply within_bind; [apply within_gets|]. intros mem. apply within_bind; [apply within_lift|]. intros [x mem'].
  apply within_bind; [apply changes_outside|]. intros _. apply within_ret.
Qed.

Lemma component_set i j v r r' : set_component i v r = Some r' -> (j = i -> component r i <> None) ->
  component r' j = (if decide (j = i) then Some v else component r j) /\ fixed r r'.
Proof.
  intros E Hi. unfold set_component in E.
  assert (Hl : j = i -> (i < length (rcbValues r))%nat) by (intros Hj; specialize (Hi Hj); unfold component in Hi; by destruct (decide _)). clear Hi.
  destruct (buffered (control r)) eqn:Hb; cbn [andb] in E;
    [destruct (bool_decide_reflect (i = 11%nat)) as [->|H11]; [|destruct (bool_decide_reflect (i = 12%nat)) as [->|H12]]|].
  1, 2: destruct v; try discriminate.
  all: injection E as <-; (split; [|split; cbn; try done; by rewrite length_insert]); unfold component; cbn; rewrite ?length_insert, Hb; cbn [andb].
  all: destruct (decide (j = _)) as [->|Hj]; rewrite ?(decide_True _ _ (Hl eq_refl)).
  all: rewrite ?bool_decide_true by done; rewrite ?bool_decide_false by done; try done.
  all: try (by rewrite list_lookup_insert_eq by (by apply Hl)).
  all: try (by rewrite list_lookup_insert_ne by done).
  all: destruct (decide _); [|done]; destruct (bool_decide_reflect (j = 11%nat)), (bool_decide_reflect (j = 12%nat)); subst; try done.
  all: by rewrite list_lookup_insert_ne by done.
Qed.

(** Storing into a component changes only what the set functions of records can see. *)
Lemma set_component_rest i v r r' : set_component i v r = Some r' ->
  (reserved r', clientConnection r', resvTms r', reservationTimeout r', isDynamicDataSet r', sqNum r') =
    (reserved r, clientConnection r, resvTms r, reservationTimeout r, isDynamicDataSet r, sqNum r) /\
  (enabled (control r'), dataSet (control r'), triggerOps (control r'), intgPd (control r'), bufTm (control r'), isBuffering (control r')) =
    (enabled (control r), dataSet (control r), triggerOps (control r), intgPd (control r), bufTm (control r), isBuffering (control r)).
Proof.
  unfold set_component. destruct (_ && _); [|destruct (_ && _)]; [destruct v; try discriminate..|]; by intros [= <-].
Qed.

Lemma changes_store e i v ps : index conf b e = Some i -> Seen e ∈ ps -> within (changes ps) (store i v).
Proof.
  intros He Hps [r s] x w' (r0 & w0 & [= <- <-] & (r' & w1 & [Es ->]%lift_inv & [= <- <-])%bind_inv)%bind_inv Hb. cbn [fst id] in *.
  destruct (set_component_rest _ _ _ _ Es) as [[= E1 E2 E3 E4 E5 E6] [= E7 E8 E9 E10 E11 E12]].
  assert (Hf : fixed r r').
  { eapply (component_set i (S i)); [exact Es|intros ?; lia]. }
  split; [done|]. intros p Hp. destruct p as [| | | | | | | | | | |e']; cbn [same]; try done.
  unfold value. rewrite (f_buffered _ _ Hf), Hb. destruct (index conf b e') as [j|] eqn:Ej; [|done]. cbn [mbind option_bind].
  assert (Hij : j <> i) by (intros ->; rewrite (index_inj _ _ _ _ _ Ej He) in Hp; done).
  destruct (component_set _ j _ _ _ Es) as [-> _]; [by intros ?|]. by rewrite decide_False.
Qed.

(** A pointer to an element points to its index. *)
Definition points (e : Element) (p : option nat) : Prop := forall i, p = Some i -> index conf b e = Some i.

Lemma changes_pointer {A} ps e (k : option nat -> M A) : (forall p, points e p -> within (changes ps) (k p)) ->
  within (changes ps) (p ← ReportControl_getRCBValue conf e; k p).
Proof.
  intros H w x w' (p & w0 & (r & w1 & [= <- <-] & [= <- <-])%bind_inv & E)%bind_inv Hb. refine (H _ _ _ _ _ E Hb).
  intros i Hi. cbn [id] in Hi. rewrite Hb in Hi. fold (index conf b e) in Hi.
  destruct (index conf b e) as [j|]; [|done]. cbn [mbind option_bind] in Hi. destruct (component (fst w) j); [|done]. by injection Hi as ->.
Qed.

Lemma changes_load ps i : within (changes ps) (load i).
Proof. apply within_bind; [apply within_gets|]. intros r. apply within_lift. Qed.

Lemma changes_set_value e p f ps : points e p -> Seen e ∈ ps -> within (changes ps) (set_value p f).
Proof.
  intros Hp Hps. apply within_lift_bind. intros i ->. specialize (Hp i eq_refl).
  repeat first [apply changes_load | apply within_lift | by apply (changes_store e) | apply within_bind; [|intros ?]].
Qed.

Lemma changes_update_value e p u ps : points e p -> Seen e ∈ ps -> within (changes ps) (update_value p u).
Proof.
  intros Hp Hps. destruct p as [i|]; [|apply within_ret]. unfold update_value.
  repeat first [apply changes_load | apply changes_allocating | apply (changes_store e); [by apply Hp|done] | apply within_bind; [|intros ?]].
Qed.

Lemma changes_equal_value p u ps : within (changes ps) (equal_value p u).
Proof. destruct p; [|apply within_ret]. apply within_bind; [apply changes_load|]. intros v. apply within_lift. Qed.

(** What functions of [Reporting] leave alone. *)
Definition calm {A} (f : ReportControl -> option (ReportControl * A)) : Prop := forall rc rc' x, f rc = Some (rc', x) ->
  (enabled rc', dataSet rc', triggerOps rc', intgPd rc', bufTm rc', isBuffering rc', buffered rc', server rc') =
    (enabled rc, dataSet rc, triggerOps rc, intgPd rc, bufTm rc, isBuffering rc, buffered rc, server rc) /\
  rcbEntryID rc' = rcbEntryID rc /\ timeOfEntry rc' = timeOfEntry rc.

Lemma changes_on_control {A} (f : ReportControl -> option (ReportControl * A)) ps : calm f -> within (changes ps) (on_control f).
Proof.
  intros Hf [r s] y w' (rc & w1 & [= <- <-] & ([rc' x] & w2 & [E ->]%lift_inv & E')%bind_inv)%bind_inv Hb. cbn [fst] in *.
  apply bind_inv in E' as ([] & w1 & [= <-] & [= <- <-]). destruct (Hf _ _ _ E) as ([= E1 E2 E3 E4 E5 E6 E7 E8] & Ei & Et).
  split; [by split|]. intros p _. destruct p; try done. by apply value_same.
Qed.

Definition pointer (r : Rcb) (e : Element) : option nat := i ← index conf (buffered (control r)) e; _ ← component r i; Some i.

Lemma run_pointer e w p w' : ReportControl_getRCBValue conf e w = Some (p, w') -> p = pointer (fst w) e /\ w' = w.
Proof. intros (r & ? & [= <- <-] & [= <- <-])%bind_inv. done. Qed.

End Frames.

Ltac not_in := refine (bool_decide_eq_false_1 (_ ∈ _) _); reflexivity.
(** One step of a run: what it returns is put in its place. *)
Tactic Notation "next" hyp(E) "as" ident(R) :=
  let x := fresh "x" in let w := fresh "w" in
  apply bind_inv in E as (x & w & R & E);
  try lazymatch type of R with
  | get _ _ = _ => injection R as <- <-
  | getc _ _ = _ => injection R as <- <-
  | mret _ _ = _ => injection R as <- <-
  | lift _ _ = _ => apply lift_inv in R as [R ->]
  | ReportControl_getRCBValue _ _ _ = _ => apply run_pointer in R as [-> ->]
  end.
(** Shows that a program changes only the given parts. *)
Create HintDb frames discriminated.

Ltac in_list := first [ apply list_elem_of_here | apply list_elem_of_further; in_list ].

Ltac frame_modify :=
  try unfold modifyc; apply changes_modify;
    [ by intros | by intros
    | let p := fresh in let Hp := fresh in intros ? p Hp; destruct p; cbn; try done; exfalso; apply Hp; in_list ].

Ltac frame :=
  lazymatch goal with
  | |- within (changes _ _ ?ps) ?m =>
      first
        [ apply changes_get | apply changes_getc | apply within_ret | apply changes_outside | apply changes_load | apply within_lift
        | apply changes_allocating | apply changes_equal_value
        | eapply within_changes; [solve [eauto 2 with frames nocore]|reflexivity]
        | eapply changes_set_value; [solve [eauto 1 with frames nocore]|in_list]
        | eapply changes_update_value; [solve [eauto 1 with frames nocore]|in_list]
        | frame_modify
        | apply changes_pointer; intros ? ?; frame
        | apply within_bind; [frame|intros ?; frame]
        | apply within_when; frame
        | match goal with |- within _ (match ?x with _ => _ end) => destruct x; frame end ]
  end.

Section Operations.
Context (conf : Configuration) (env : Environment) (b : bool).
Abbreviation frames ps m := (within (changes conf b ps) m) (only parsing).

Lemma frames_handle_event k c n e : frames [] (handle_event conf k c n e).
Proof. unfold handle_event, emit. frame. Qed.
#[local] Hint Resolve frames_handle_event : frames.
Lemma frames_tracking t e : frames [] (updateGenericTrackingObjectValues t e).
Proof. apply changes_outside. Qed.
Lemma frames_values : frames [] copyRCBValuesToTrackingObject.
Proof. apply changes_outside. Qed.
Lemma frames_value n v : frames [] (updateSingleTrackingValue n v).
Proof. apply changes_outside. Qed.
Lemma frames_purgeBuf : frames [] purgeBuf.
Proof. unfold purgeBuf. frame. Qed.
#[local] Hint Resolve frames_tracking frames_values frames_value frames_purgeBuf : frames.
Lemma frames_purge_for c : frames [] (purge_for conf c).
Proof. unfold purge_for. frame. Qed.
#[local] Hint Resolve frames_purge_for : frames.
Lemma frames_timeInMs : frames [] (Hal_getTimeInMs env).
Proof. unfold Hal_getTimeInMs, question. frame. Qed.
Lemma frames_monotonic : frames [] (Hal_getMonotonicTimeInMs env).
Proof. unfold Hal_getMonotonicTimeInMs, question. frame. Qed.
#[local] Hint Resolve frames_timeInMs frames_monotonic : frames.

(** *** The data set *)

Lemma frames_create ds : frames [] (createDataSetValuesShadowBuffer ds).
Proof. unfold createDataSetValuesShadowBuffer. frame. Qed.
Lemma frames_delete : frames [] deleteDataSetValuesShadowBuffer.
Proof. unfold deleteDataSetValuesShadowBuffer. frame. Qed.
Lemma frames_free d : frames [] (free_used_data_set d).
Proof. unfold free_used_data_set, emit. frame. Qed.
#[local] Hint Resolve frames_create frames_delete frames_free : frames.
Lemma frames_release d : frames [DataSetInUse; Buffering] (release_data_set d).
Proof. unfold release_data_set. frame. Qed.
Lemma frames_changes n : frames [] (data_set_changes conf env n).
Proof. unfold data_set_changes. frame. Qed.
Lemma frames_use d ds : frames [DataSetInUse] (use_data_set d ds).
Proof. unfold use_data_set. frame. Qed.
#[local] Hint Resolve frames_release frames_changes frames_use : frames.
Lemma frames_take d x c n : frames [DataSetInUse; Buffering] (take_data_set env d x c n).
Proof. unfold take_data_set. frame. Qed.
#[local] Hint Resolve frames_take : frames.
Lemma frames_updateReportDataset v c : frames [DataSetInUse; Buffering] (updateReportDataset conf env v c).
Proof. unfold updateReportDataset, name_of. frame. Qed.
#[local] Hint Resolve frames_updateReportDataset : frames.
Lemma frames_activate : frames [DataSetInUse; Buffering] (Reporting_activateBufferedReports conf env).
Proof. unfold Reporting_activateBufferedReports. frame. Qed.

#[local] Hint Resolve frames_activate : frames.

(** *** Settings and reservation *)

Lemma frames_value_of e : frames [] (value_of conf e).
Proof. unfold value_of. frame. Qed.
#[local] Hint Resolve frames_value_of : frames.
Lemma frames_refreshTriggerOptions : frames [Operations] (refreshTriggerOptions conf).
Proof. unfold refreshTriggerOptions. frame. Qed.
Lemma frames_start_integrity m : frames [] m -> frames [] (start_integrity env m).
Proof. intros Hm. unfold start_integrity. repeat first [exact Hm|frame|apply within_when|apply within_bind; [|intros ?]|case_match]. Qed.
#[local] Hint Resolve frames_refreshTriggerOptions : frames.
Lemma frames_refreshIntegrityPeriod : frames [Period] (refreshIntegrityPeriod conf env).
Proof.
  unfold refreshIntegrityPeriod. frame.
Qed.
Lemma frames_refreshBufferTime : frames [BufferTime] (refreshBufferTime conf).
Proof. unfold refreshBufferTime. frame. Qed.
Lemma frames_increaseConfRev : frames [Seen ConfRev] (increaseConfRev conf).
Proof. unfold increaseConfRev. frame. Qed.
#[local] Hint Resolve frames_refreshIntegrityPeriod frames_refreshBufferTime frames_increaseConfRev : frames.

Lemma frames_setOwner p o q n : points conf b Owner p -> frames [Seen Owner] (setOwner p o q n).
Proof. intros Hp. unfold setOwner. frame. Qed.
#[local] Hint Resolve frames_setOwner : frames.
Lemma frames_client_owner p c : points conf b Owner p -> frames [Seen Owner] (set_client_owner env p c).
Proof. intros Hp. unfold set_client_owner. frame. Qed.
Lemma frames_configured_owner p : points conf b Owner p -> frames [Seen Owner] (set_configured_owner p).
Proof. intros Hp. unfold set_configured_owner. frame. Qed.
#[local] Hint Resolve frames_client_owner frames_configured_owner : frames.
Lemma frames_updateOwner c : frames [Client; Seen Owner] (updateOwner conf env c).
Proof. unfold updateOwner. frame. Qed.
Lemma frames_show : frames [Seen ResvTms] (show_resvTms conf).
Proof. unfold show_resvTms. frame. Qed.
Lemma frames_prolong n : frames [Timeout] (prolong env n).
Proof. unfold prolong. frame. Qed.
#[local] Hint Resolve frames_updateOwner frames_show frames_prolong : frames.
Lemma frames_access c n x : frames [] (access_allowed env c n x).
Proof. unfold access_allowed, question. frame. Qed.
#[local] Hint Resolve frames_access : frames.
Lemma frames_matching a : frames [] (isIpAddressMatchingWithOwner conf a).
Proof. unfold isIpAddressMatchingWithOwner. frame. Qed.
Lemma frames_reserveRcb c : frames [Reserved; Client; Seen Resv; Seen ResvTms; Seen Owner] (reserveRcb conf env c).
Proof. unfold reserveRcb. frame. Qed.
Lemma frames_events c : frames [] (reserved_event conf c) /\ frames [] (unreserved_event conf c).
Proof. split; [unfold reserved_event|unfold unreserved_event]; frame. Qed.
#[local] Hint Resolve frames_matching frames_reserveRcb : frames.
Lemma frames_reserved_event c : frames [] (reserved_event conf c).
Proof. apply frames_events. Qed.
Lemma frames_unreserved_event c : frames [] (unreserved_event conf c).
Proof. apply frames_events. Qed.
#[local] Hint Resolve frames_reserved_event frames_unreserved_event : frames.

(** *** Writing *)

Lemma clear_calm : calm (fun rc => rc ← Reporting.clearInclusionFlags rc; Some (rc, tt)).
Proof.
  intros rc rc' x. unfold Reporting.clearInclusionFlags. destruct (dataSet rc) as [ds|] eqn:Eds; [|done]. cbn [mbind option_bind].
  destruct (Reporting.clear_loop _ _ _); [|done]. intros [= <- <-]. by rewrite <- Eds.
Qed.
Lemma check_calm buf : calm (fun rc => Reporting.checkReportBufferForEntryID rc buf).
Proof.
  intros rc rc' x. unfold Reporting.checkReportBufferForEntryID. destruct (rds _ _ _); [|done]. cbn [mbind option_bind].
  destruct (ReportBuffer.findEntryID _ _) as [[rb []]|]; [| |done]; by intros [= <- <-].
Qed.
Lemma frames_clear : frames [] (on_control (fun rc => rc ← Reporting.clearInclusionFlags rc; Some (rc, tt))).
Proof. apply changes_on_control, clear_calm. Qed.
Lemma frames_check buf : frames [] (on_control (fun rc => Reporting.checkReportBufferForEntryID rc buf)).
Proof. apply changes_on_control, check_calm. Qed.
#[local] Hint Resolve frames_clear frames_check : frames.

Lemma frames_disable c : frames [Enabled] (disable conf c).
Proof. unfold disable. frame. Qed.
#[local] Hint Resolve frames_disable : frames.

(** ** Running operations *)

Lemma value_pointer r e v : value conf r e = Some v ->
  exists i, pointer conf r e = Some i /\ index conf (buffered (control r)) e = Some i /\ component r i = Some v.
Proof.
  unfold value, pointer. destruct (index _ _ _) as [i|]; [|done]. cbn [mbind option_bind]. intros E. exists i. by rewrite E.
Qed.
Lemma pointed_value r e i : pointer conf r e = Some i -> exists v, component r i = Some v /\ value conf r e = Some v.
Proof.
  unfold value, pointer. destruct (index _ _ _) as [j|]; [|done]. cbn [mbind option_bind].
  destruct (component r j) as [v|] eqn:E; [|done]. intros [= ->]. by exists v.
Qed.

Lemma points_pointer r e : buffered (control r) = b -> points conf b e (pointer conf r e).
Proof.
  intros Hb i Hi. destruct (pointed_value _ _ _ Hi) as (v & _ & Hv). destruct (value_pointer _ _ _ Hv) as (j & Hj & Hx & _). congruence.
Qed.
#[local] Hint Extern 1 (points _ _ _ (pointer _ _ _)) => (apply points_pointer; assumption) : frames.

Lemma run_load i w v w' : load i w = Some (v, w') -> component (fst w) i = Some v /\ w' = w.
Proof. intros (r & ? & [= <- <-] & [E ->]%lift_inv)%bind_inv. done. Qed.

Lemma run_store e i v v' w x w' : index conf (buffered (control (fst w))) e = Some i -> component (fst w) i = Some v ->
  store i v' w = Some (x, w') -> value conf (fst w') e = Some v'.
Proof.
  intros He Hc (r & ? & [= <- <-] & (r' & ? & [Es ->]%lift_inv & [= _ <-])%bind_inv)%bind_inv. cbn [fst id] in *.
  destruct (component_set _ i _ _ _ Es) as [Hi Hf]; [congruence|]. unfold value. rewrite (f_buffered _ _ Hf), He.
  cbn [mbind option_bind const]. rewrite Hi. by rewrite decide_True.
Qed.

Lemma run_set_value e f w x w' : set_value (pointer conf (fst w) e) f w = Some (x, w') ->
  exists v v', value conf (fst w) e = Some v /\ f v = Some v' /\ value conf (fst w') e = Some v'.
Proof.
  intros (i & ? & [Ei ->]%lift_inv & (v & ? & [Ev ->]%run_load & (v' & ? & [Ef ->]%lift_inv & E)%bind_inv)%bind_inv)%bind_inv.
  destruct (pointed_value _ _ _ Ei) as (v0 & Ev0 & Hv). destruct (value_pointer _ _ _ Hv) as (j & Ej & Hj & _).
  assert (j = i) as -> by congruence. exists v, v'. split; [congruence|]. split; [done|]. by eapply run_store.
Qed.

Lemma run_allocating {A} (f : alloc A) w x w' : allocating f w = Some (x, w') ->
  fst w' = fst w /\ exists mem', f (memory (snd w)) = Some (x, mem').
Proof.
  intros (mem & ? & [= <- <-] & ([y mem'] & ? & [E ->]%lift_inv & ([] & ? & [= <-] & [= <- <-])%bind_inv)%bind_inv)%bind_inv.
  split; [done|]. by exists mem'.
Qed.

Lemma run_update_value e u v w x w' : update_value (pointer conf (fst w) e) u w = Some (x, w') -> value conf (fst w) e = Some v ->
  exists r mem', update v u (memory (snd w)) = Some (r, mem') /\ value conf (fst w') e = Some (fst r).
Proof.
  intros E Hv. destruct (value_pointer _ _ _ Hv) as (i & Ei & Hi & Hc). rewrite Ei in E.
  apply bind_inv in E as (v0 & ? & [Ev ->]%run_load & (r & ? & [Hw (mem' & Eu)]%run_allocating & E)%bind_inv).
  assert (v0 = v) as -> by congruence. exists r, mem'. split; [done|]. eapply run_store; [| |exact E]; rewrite Hw; done.
Qed.

Lemma run_value_of e w v w' : value_of conf e w = Some (v, w') -> w' = w /\ value conf (fst w) e = Some v.
Proof.
  intros (p & ? & [-> ->]%run_pointer & (i & ? & [Ei ->]%lift_inv & [Ev ->]%run_load)%bind_inv)%bind_inv. split; [done|].
  destruct (pointed_value _ _ _ Ei) as (v0 & E & Hv). congruence.
Qed.

(** The settings that are in force are those that clients read. *)
Record in_force (r : Rcb) : Prop := {
  if_operations : exists v, value conf r TrgOps = Some v /\ trigger_options v = Some (triggerOps (control r));
  if_period : exists v, value conf r IntgPd = Some v /\ toUint32 v = Some (intgPd (control r));
  if_bufferTime : exists v, value conf r BufTm = Some v /\ toUint32 v = Some (bufTm (control r));
}.

Record consistent (r : Rcb) : Prop := {
  c_reserved : enabled (control r) = true -> reserved r = true;
  c_client : reserved r = true <-> is_Some (clientConnection r);
  c_shows_enabled : value conf r RptEna = Some (MmsBoolean (enabled (control r)));
  c_shows_reserved : buffered (control r) = false -> value conf r Resv = Some (MmsBoolean (reserved r || bool_decide (resvTms r = -1)));
  c_in_force : enabled (control r) = true -> in_force r /\ is_Some (dataSet (control r));
  c_data_set : is_Some (value conf r DatSet);
}.

Lemma consistent_frame ps w w' : changes conf b ps w w' -> buffered (control (fst w)) = b ->
  forallb (fun p => negb (bool_decide (p ∈ ps)))
    [Enabled; Reserved; Client; Seconds; DataSetInUse; Operations; Period; BufferTime; Seen RptEna; Seen Resv; Seen TrgOps; Seen IntgPd;
     Seen BufTm; Seen DatSet] = true ->
  consistent (fst w) -> consistent (fst w').
Proof.
  intros Hc Hb Hd. destruct (Hc Hb) as [Hf Hs]. rewrite forallb_forall in Hd.
  assert (H : forall p, p ∈ [Enabled; Reserved; Client; Seconds; DataSetInUse; Operations; Period; BufferTime; Seen RptEna; Seen Resv;
    Seen TrgOps; Seen IntgPd; Seen BufTm; Seen DatSet] -> same conf p (fst w) (fst w')).
  { intros p Hp. apply Hs. apply list_elem_of_In in Hp. specialize (Hd p Hp). apply negb_true_iff, bool_decide_eq_false_1 in Hd. done. }
  assert (H1 := H Enabled ltac:(in_list)). assert (H2 := H Reserved ltac:(in_list)). assert (H3 := H Client ltac:(in_list)).
  assert (H4 := H Seconds ltac:(in_list)). assert (H5 := H DataSetInUse ltac:(in_list)). assert (H6 := H Operations ltac:(in_list)).
  assert (H7 := H Period ltac:(in_list)). assert (H8 := H BufferTime ltac:(in_list)). assert (H9 := H (Seen RptEna) ltac:(in_list)).
  assert (H10 := H (Seen Resv) ltac:(in_list)). assert (H11 := H (Seen TrgOps) ltac:(in_list)). assert (H12 := H (Seen IntgPd) ltac:(in_list)).
  assert (H13 := H (Seen BufTm) ltac:(in_list)). assert (H14 := H (Seen DatSet) ltac:(in_list)). cbn [same] in *. destruct H5 as [H5 _].
  intros [C1 C2 C3 C4 C5 C6]. split; rewrite ?H1, ?H2, ?H3, ?H4, ?H5, ?H9, ?H10, ?H14, ?(f_buffered _ _ Hf); auto.
  intros He. destruct (C5 He) as [[I1 I2 I3] Hds]. split; [|done]. split; rewrite ?H6, ?H7, ?H8, ?H11, ?H12, ?H13; done.
Qed.

Lemma notes {A} ps (m : M A) w x w' : m w = Some (x, w') -> within (changes conf b ps) m -> buffered (control (fst w)) = b ->
  buffered (control (fst w')) = b /\ forall p, p ∉ ps -> same conf p (fst w) (fst w').
Proof.
  intros E H Hb. destruct (H _ _ _ E Hb) as [Hf Hs]. split; [|done]. by rewrite (f_buffered _ _ Hf).
Qed.

Ltac keep_part Hs p := try (let H := fresh "Ek" in assert (H := Hs p ltac:(not_in)); cbn [same] in H).
(** From the run [E] of a program that changes only [ps]: what stays. *)
Ltac note E ps :=
  let Hb := fresh "Hb" in let Hs := fresh "Hs" in
  lazymatch type of E with ?m _ = _ =>
    let Hm := fresh in assert (Hm : within (changes conf b ps) m) by frame;
    destruct (notes ps _ _ _ _ E Hm ltac:(assumption)) as [Hb Hs]; clear Hm
  end;
  keep_part Hs Enabled; keep_part Hs Reserved; keep_part Hs Client; keep_part Hs Seconds; keep_part Hs Operations;
  keep_part Hs Period; keep_part Hs BufferTime; keep_part Hs (Seen RptEna); keep_part Hs (Seen Resv); keep_part Hs (Seen TrgOps);
  keep_part Hs (Seen IntgPd); keep_part Hs (Seen BufTm); keep_part Hs (Seen DatSet);
  try (let H := fresh "Ek" in destruct (Hs DataSetInUse ltac:(not_in)) as [H _]); clear Hs.
Lemma run_modify f w x w' : modify f w = Some (x, w') -> fst w' = f (fst w).
Proof. by intros [= _ <-]. Qed.

Lemma updateOwner_client c w x w' : updateOwner conf env c w = Some (x, w') -> buffered (control (fst w)) = b -> clientConnection (fst w') = c.
Proof.
  intros E Hb. unfold updateOwner in E. next E as R. note R [Client]. apply run_modify in R.
  destruct (notes [Seen Owner] _ _ _ _ E ltac:(frame) ltac:(assumption)) as [_ H].
  specialize (H Client ltac:(not_in)). cbn [same] in H. by rewrite H, R.
Qed.

Lemma reserveRcb_spec c w x w' : reserveRcb conf env c w = Some (x, w') -> buffered (control (fst w)) = b ->
  reserved (fst w') = true /\ clientConnection (fst w') = Some c /\
  (b = false -> forall v, value conf (fst w) Resv = Some (MmsBoolean v) -> value conf (fst w') Resv = Some (MmsBoolean true)).
Proof.
  intros E Hb. unfold reserveRcb in E. next E as R1. note R1 [Reserved]. apply run_modify in R1.
  next E as R2. note R2 [Client]. next E as R3. next E as R4.
  pose proof (updateOwner_client _ _ _ _ E). note R4 [Seen ResvTms; Seen Resv]. note E [Client; Seen Owner].
  split_and!; [|auto|].
  - assert (reserved (fst w0) = true) by (by rewrite R1). congruence.
  - intros Hf v Hv. rewrite Hb1, Hf in R4. next R4 as R5.
    assert (Hr : value conf (fst w1) Resv = Some (MmsBoolean v)) by congruence.
    destruct (value_pointer _ _ _ Hr) as (i & Ei & _). rewrite Ei in R4. rewrite <- Ei in R4.
    apply run_set_value in R4 as (v0 & v1 & E0 & E1 & E2). assert (v0 = MmsBoolean v) as -> by congruence. injection E1 as <-. congruence.
Qed.
(** ** Consistency *)

Definition sound (w w' : World) : Prop := buffered (control (fst w)) = b -> consistent (fst w) ->
  buffered (control (fst w')) = b /\ consistent (fst w').

#[export] Instance sound_preorder : PreOrder sound.
Proof. split; [by intros w|]. intros w1 w2 w3 H1 H2 Hb Hc. destruct (H1 Hb Hc). auto. Qed.

Lemma frames_sound {A} ps (m : M A) : within (changes conf b ps) m ->
  forallb (fun p => negb (bool_decide (p ∈ ps)))
    [Enabled; Reserved; Client; Seconds; DataSetInUse; Operations; Period; BufferTime; Seen RptEna; Seen Resv; Seen TrgOps; Seen IntgPd;
     Seen BufTm; Seen DatSet] = true -> within sound m.
Proof.
  intros H Hp w x w' E Hb Hc. destruct (notes ps _ _ _ _ E H Hb). split; [done|]. eapply consistent_frame; [by eapply H|done..].
Qed.

(** A block that is not enabled stays consistent as long as [RptEna] and the reservation do. *)
Lemma consistent_disabled r : enabled (control r) = false -> (reserved r = true <-> is_Some (clientConnection r)) ->
  value conf r RptEna = Some (MmsBoolean false) -> is_Some (value conf r DatSet) ->
  (buffered (control r) = false -> value conf r Resv = Some (MmsBoolean (reserved r || bool_decide (resvTms r = -1)))) -> consistent r.
Proof. intros He Hr Hv Hd Hs. split; rewrite ?He; done. Qed.

Lemma sound_checkReservationTimeout : b = true -> within sound (checkReservationTimeout conf env).
Proof.
  intros Ht w x w' E Hb Hc. unfold checkReservationTimeout in E. next E as R. next E as R. next E as R.
  destruct (enabled (control (fst w))) eqn:He; cbn [negb andb when] in E; [by injection E as _ <-|].
  destruct (bool_decide_reflect (clientConnection (fst w) = None)) as [Hn|]; cbn [negb andb when] in E; [|by injection E as _ <-].
  destruct (bool_decide (reservationTimeout (fst w) > 0)); cbn [negb andb when] in E; [|by injection E as _ <-].
  next E as R. note R ([] : list Part). destruct (bool_decide (x0 > reservationTimeout (fst w))); cbn [when] in E.
  - next E as R1. next E as R2. note R2 [Seconds]. next E as R3. note R3 [Seen ResvTms]. next E as R4. note R4 [Timeout].
    next E as R5. pose proof (updateOwner_client _ _ _ _ R5 ltac:(assumption)) as Hcl. note R5 [Client; Seen Owner].
    next E as R6. note R6 [Reserved]. apply run_modify in R6. note E ([] : list Part). split; [done|].
    assert (reserved (fst w5) = false) by (by rewrite R6). pose proof (c_shows_enabled _ Hc) as H1. rewrite He in H1. pose proof (c_data_set _ Hc) as H2.
    apply consistent_disabled; [congruence| |congruence| |congruence].
    + replace (reserved (fst w')) with false by congruence. replace (clientConnection (fst w')) with (@None nat) by congruence.
      split; [done|by intros []].
    + by replace (value conf (fst w') DatSet) with (value conf (fst w) DatSet) by congruence.
  - injection E as _ <-. split; [done|]. eapply (frames_sound []); [|reflexivity|exact R|done..]. frame.
Qed.

Lemma sound_buffered {A} (k : bool -> M A) : within sound (k b) -> within sound (x ← getc buffered; k x).
Proof. intros H w y w' E Hb. next E as R. rewrite Hb in E. by apply (H _ _ _ E). Qed.

(** What reserving a block leaves alone. *)
Definition kept (r r' : Rcb) : Prop := forall p,
  p ∈ [Enabled; Operations; Period; BufferTime; DataSetInUse; Seen RptEna; Seen TrgOps; Seen IntgPd; Seen BufTm; Seen DatSet] -> same conf p r r'.

Lemma kept_changes ps w w' : changes conf b ps w w' -> buffered (control (fst w)) = b ->
  forallb (fun p => bool_decide (p ∈ [Reserved; Client; Seconds; Timeout; Buffering; Number; Seen Resv; Seen ResvTms; Seen Owner])) ps = true -> kept (fst w) (fst w').
Proof.
  intros Hc Hb Hp p Hin. apply (Hc Hb). intros Hps. rewrite forallb_forall in Hp.
  apply list_elem_of_In, Hp, bool_decide_eq_true_1 in Hps. revert p Hin Hps. clear.
  assert (H : Forall (fun p => p ∉ [Reserved; Client; Seconds; Timeout; Buffering; Number; Seen Resv; Seen ResvTms; Seen Owner])
    [Enabled; Operations; Period; BufferTime; DataSetInUse; Seen RptEna; Seen TrgOps; Seen IntgPd; Seen BufTm; Seen DatSet]).
  { repeat constructor; not_in. }
  intros p Hin Hps. rewrite Forall_forall in H. by apply (H p Hin).
Qed.

Lemma consistent_kept r r' : kept r r' -> consistent r -> (enabled (control r) = true -> reserved r' = true) ->
  (reserved r' = true <-> is_Some (clientConnection r')) ->
  (buffered (control r') = false -> value conf r' Resv = Some (MmsBoolean (reserved r' || bool_decide (resvTms r' = -1)))) -> consistent r'.
Proof.
  intros H C Hr Hn Hs. pose proof (H Enabled ltac:(in_list)) as H1. destruct (H DataSetInUse ltac:(in_list)) as [H5 _].
  pose proof (H Operations ltac:(in_list)) as H6. pose proof (H Period ltac:(in_list)) as H7. pose proof (H BufferTime ltac:(in_list)) as H8.
  pose proof (H (Seen RptEna) ltac:(in_list)) as H9. pose proof (H (Seen TrgOps) ltac:(in_list)) as H11.
  pose proof (H (Seen IntgPd) ltac:(in_list)) as H12. pose proof (H (Seen BufTm) ltac:(in_list)) as H13. pose proof (H (Seen DatSet) ltac:(in_list)) as H14.
  cbn [same] in *. destruct C as [C1 C2 C3 C4 C5 C6]. split; rewrite ?H1, ?H5, ?H9, ?H14; try done.
  intros He. destruct (C5 He) as [[I1 I2 I3] Hds]. split; [|done]. split; rewrite ?H6, ?H7, ?H8, ?H11, ?H12, ?H13; done.
Qed.

Lemma consistent_reserved r r' c : kept r r' -> consistent r -> reserved r' = true -> clientConnection r' = Some c ->
  (buffered (control r') = false -> value conf r' Resv = Some (MmsBoolean true)) -> consistent r'.
Proof. intros H C Hr Hn Hs. apply (consistent_kept r); rewrite ?Hr, ?Hn; done. Qed.

Lemma sound_claim {A} c (m : M A) : b = true -> within sound m -> within sound (reserved <:= true;; clientConnection <:= Some c;; m).
Proof.
  intros Ht Hm w y w' E Hb Hc. next E as R1. note R1 [Reserved]. assert (H1 : kept (fst w) (fst w0)).
  { eapply (kept_changes [Reserved]); [|done..]. assert (Hw : within (changes conf b [Reserved]) (reserved <:= true)) by frame. by apply Hw in R1. }
  apply run_modify in R1. next E as R2. note R2 [Client]. assert (H2 : kept (fst w0) (fst w1)).
  { eapply (kept_changes [Client]); [|done..]. assert (Hw : within (changes conf b [Client]) (clientConnection <:= Some c)) by frame. by apply Hw in R2. }
  apply run_modify in R2. apply (Hm _ _ _ E); [done|]. apply (consistent_reserved (fst w) _ c); [|done| | |congruence].
  - intros p Hp. specialize (H1 p Hp). specialize (H2 p Hp). destruct p; cbn [same] in *; try congruence. destruct H1, H2. split; congruence.
  - rewrite R2. cbn. by rewrite R1.
  - by rewrite R2.
Qed.

Lemma sound_event k c n e : within sound (handle_event conf k c n e).
Proof. eapply (frames_sound []); [apply frames_handle_event|done]. Qed.

Lemma sound_prolong n : within sound (prolong env n).
Proof. eapply (frames_sound [Timeout]); [apply frames_prolong|done]. Qed.

Lemma sound_claim_buffered c : b = true -> within sound (claim_buffered conf env c).
Proof.
  intros Ht. unfold claim_buffered. apply within_bind; [by apply sound_checkReservationTimeout|intros _].
  apply within_bind; [apply within_gets|intros r]. apply within_bind; [apply within_gets|intros res]. case_decide.
  - apply within_when, sound_claim; [done|]. apply sound_event.
  - apply within_when. destruct res.
    + apply within_bind; [apply within_gets|intros c0]. apply within_when, sound_prolong.
    + apply within_bind; [eapply (frames_sound []); [apply frames_matching|done]|intros m]. apply within_when, sound_claim; [done|].
      apply within_bind; [apply sound_prolong|intros _]. apply sound_event.
Qed.

Lemma sound_reserveRcb c : within sound (reserveRcb conf env c).
Proof.
  intros w x w' E Hb Hc. destruct (reserveRcb_spec _ _ _ _ E Hb) as (Hr & Hn & Hs). pose proof (frames_reserveRcb c _ _ _ E) as Hf.
  destruct (Hf Hb) as [Hx _]. split; [by rewrite (f_buffered _ _ Hx)|].
  apply (consistent_reserved (fst w) _ c); [by eapply kept_changes|done..|]. intros Hu. rewrite (f_buffered _ _ Hx) in Hu.
  eapply Hs; [congruence|]. by apply (c_shows_reserved _ Hc).
Qed.

Lemma sound_seconds n : b = true -> within sound (resvTms <:= n).
Proof.
  intros Ht w x w' E Hb Hc. assert (Hk : kept (fst w) (fst w')).
  { eapply (kept_changes [Seconds]); [|done..]. assert (Hw : within (changes conf b [Seconds]) (resvTms <:= n)) by frame. by apply Hw in E. }
  note E [Seconds]. split; [done|]. apply (consistent_kept (fst w)); [done..| | |congruence].
  - intros He. replace (reserved (fst w')) with (reserved (fst w)) by congruence. by apply (c_reserved _ Hc).
  - replace (reserved (fst w')) with (reserved (fst w)) by congruence. replace (clientConnection (fst w')) with (clientConnection (fst w)) by congruence.
    apply (c_client _ Hc).
Qed.

Lemma sound_reserve_implicitly c : within sound (reserve_implicitly conf env c).
Proof.
  unfold reserve_implicitly. apply sound_buffered. apply within_bind; [apply within_gets|intros res]. destruct b eqn:Hb0.
  - apply within_bind; [apply sound_prolong|intros _]. apply within_bind; [apply within_gets|intros r].
    apply within_bind; [by apply within_when, sound_seconds|intros _]. apply within_when.
    apply within_bind; [apply sound_reserveRcb|intros _]. apply sound_event.
  - apply within_when. apply within_bind; [apply sound_reserveRcb|intros _]. apply sound_event.
Qed.

Lemma refreshTriggerOptions_spec w x w' : refreshTriggerOptions conf w = Some (x, w') ->
  exists v, value conf (fst w) TrgOps = Some v /\ trigger_options v = Some (triggerOps (control (fst w'))).
Proof.
  intros E. unfold refreshTriggerOptions in E. next E as R. apply run_value_of in R as [-> Hv]. next E as R2.
  apply run_modify in E. exists x0. split; [done|]. rewrite R2, E. done.
Qed.
Lemma refreshBufferTime_spec w x w' : refreshBufferTime conf w = Some (x, w') ->
  exists v, value conf (fst w) BufTm = Some v /\ toUint32 v = Some (bufTm (control (fst w'))).
Proof.
  intros E. unfold refreshBufferTime in E. next E as R. apply run_value_of in R as [-> Hv]. next E as R2.
  apply run_modify in E. exists x0. split; [done|]. rewrite R2, E. done.
Qed.
Lemma refreshIntegrityPeriod_spec w x w' : refreshIntegrityPeriod conf env w = Some (x, w') -> buffered (control (fst w)) = b ->
  exists v, value conf (fst w) IntgPd = Some v /\ toUint32 v = Some (intgPd (control (fst w'))).
Proof.
  intros E Hb. unfold refreshIntegrityPeriod in E. next E as R. apply run_value_of in R as [-> Hv]. next E as R2.
  next E as R3. note R3 [Period]. apply run_modify in R3. next E as R4. note E ([] : list Part).
  exists x0. split; [done|]. rewrite R2. f_equal. replace (intgPd (control (fst w'))) with (intgPd (control (fst w0))) by congruence. by rewrite R3.
Qed.

Lemma enable_sound c w x w' : enable conf env (MmsBoolean true) c w = Some (x, w') -> buffered (control (fst w)) = b ->
  consistent (fst w) -> enabled (control (fst w)) = false -> is_Some (dataSet (control (fst w))) ->
  enabled (control (fst w')) = true /\ clientConnection (fst w') = Some c /\ buffered (control (fst w')) = b /\ consistent (fst w').
Proof.
  intros E Hb Hc He Hd. unfold enable in E. next E as R. next E as R1.
  assert (H1 : reserved (fst w0) = true /\ (b = false -> value conf (fst w0) Resv = Some (MmsBoolean true))).
  { destruct (reserved (fst w)) eqn:Hr; cbn [negb when] in R1.
    - injection R1 as _ <-. split; [done|]. intros Hf. by rewrite (c_shows_reserved _ Hc), Hr by congruence.
    - next R1 as S1. note S1 [Seconds]. next R1 as S2. destruct (reserveRcb_spec _ _ _ _ S2 ltac:(assumption)) as (Hr2 & _ & Hs).
      note S2 [Reserved; Client; Seen Resv; Seen ResvTms; Seen Owner]. note R1 ([] : list Part). split; [congruence|]. intros Hf.
      replace (value conf (fst w0) Resv) with (value conf (fst w2) Resv) by congruence. eapply Hs; [done|].
      replace (value conf (fst w1) Resv) with (value conf (fst w) Resv) by congruence. apply (c_shows_reserved _ Hc). congruence. }
  destruct H1 as [H1 H1'].
  note R1 [Seconds; Reserved; Client; Seen Resv; Seen ResvTms; Seen Owner]. next E as R2.
  pose proof (updateOwner_client _ _ _ _ R2 ltac:(assumption)) as H2. note R2 [Client; Seen Owner].
  next E as R3. next E as R4. note R4 [Seen RptEna].
  assert (H4 : value conf (fst w2) RptEna = Some (MmsBoolean true)).
  { apply (run_update_value _ _ (MmsBoolean false)) in R4 as (r & mem & Eu & ->).
    - cbn [update] in Eu. unfold m_ret in Eu. by injection Eu as <- _.
    - replace (value conf (fst w1) RptEna) with (value conf (fst w) RptEna) by congruence. by rewrite (c_shows_enabled _ Hc), He. }
  next E as R5. next E as R6. next E as R7. note R7 ([] : list Part). next E as R8. note R8 [Enabled]. apply run_modify in R8.
  next E as R9. note R9 ([] : list Part). next E as R10. apply refreshBufferTime_spec in R10 as Hbt. note R10 [BufferTime].
  next E as R11. apply refreshTriggerOptions_spec in R11 as Hto. note R11 [Operations]. next E as R12.
  apply refreshIntegrityPeriod_spec in R12 as Hip; [|done]. note R12 [Period]. next E as R13. note R13 [Number].
  next E as R14. next E as R15. note R15 [Seen SqNum]. note E ([] : list Part).
  assert (He' : enabled (control (fst w')) = true).
  { replace (enabled (control (fst w'))) with (enabled (control (fst w4))) by congruence. by rewrite R8. }
  assert (Hr' : reserved (fst w') = true) by congruence. assert (Hn' : clientConnection (fst w') = Some c) by congruence.
  split_and!; try done. split; rewrite ?He', ?Hr', ?Hn'; try done.
  - congruence.
  - intros Hf. cbn [orb]. replace (value conf (fst w') Resv) with (value conf (fst w0) Resv) by congruence. apply H1'. congruence.
  - intros _. destruct Hbt as (v1 & ? & ?), Hto as (v2 & ? & ?), Hip as (v3 & ? & ?), Hd as [ds ?].
    split; [split|]; [exists v2|exists v3|exists v1|exists ds]; split || idtac; congruence.
  - replace (value conf (fst w') DatSet) with (value conf (fst w) DatSet) by congruence. apply (c_data_set _ Hc).
Qed.

(** *** The data set of an enabled block *)

Lemma use_data_set_spec d ds w x w' : use_data_set d ds w = Some (x, w') -> dataSet (control (fst w')) = Some ds.
Proof.
  intros E. unfold use_data_set in E. next E as R1. next E as R2. next E as R3. apply run_modify in R3.
  assert (H3 : dataSet (control (fst w2)) = Some ds) by (by rewrite R3).
  next E as R4. assert (H4 : dataSet (control (fst w3)) = Some ds).
  { clear E. unfold createDataSetValuesShadowBuffer in R4. next R4 as S1. apply run_allocating in S1 as [S1 _].
    destruct x4; cbn [when] in R4; [|injection R4 as _ <-; congruence]. next R4 as S2. apply run_allocating in S2 as [S2 _].
    destruct x4; cbn [when] in R4; [|injection R4 as _ <-; congruence]. next R4 as S3. next R4 as S4. apply run_modify in S4.
    apply run_modify in R4. rewrite R4. cbn. rewrite S4. cbn. congruence. }
  next E as R5. apply run_allocating in R5 as [R5 _]. next E as R6. apply run_modify in R6. next E as R7. apply run_modify in R7.
  next E as R8. apply run_allocating in R8 as [R8 _]. apply run_modify in E. rewrite E. cbn. rewrite R8, R7. cbn. rewrite R6. cbn. congruence.
Qed.

Lemma take_data_set_spec d ch c n w w' : take_data_set env d ch c n w = Some (true, w') ->
  (ch = false -> is_Some (dataSet (control (fst w)))) -> is_Some (dataSet (control (fst w'))).
Proof.
  intros E Hch. unfold take_data_set in E. next E as R1. next E as R2. destruct x as [[ds dyn]|]; [|done].
  next E as R3. apply run_modify in R3. next E as R4. next E as R5.
  assert (H5 : is_Some (dataSet (control (fst w1)))).
  { destruct ch; cbn [orb when] in R5; [eexists; by eapply use_data_set_spec|].
    destruct (dataSet (control (fst w0))) as [old|] eqn:Eo.
    - destruct (negb _); cbn [when] in R5; [eexists; by eapply use_data_set_spec|]. injection R5 as _ <-. by rewrite Eo.
    - rewrite R3 in Eo. cbn in Eo. rewrite Eo in Hch. by destruct Hch. }
  next E as R6. injection E as <-. destruct (buffered (control (fst w))); cbn [when] in R6.
  - apply run_modify in R6. by rewrite R6.
  - by injection R6 as _ <-.
Qed.

Lemma data_set_changes_spec n w ch w' : data_set_changes conf env n w = Some (Some ch, w') ->
  dataSet (control (fst w')) = dataSet (control (fst w)) /\ (ch = false -> is_Some (dataSet (control (fst w)))).
Proof.
  intros E. unfold data_set_changes in E. next E as R1. destruct (dataSet (control (fst w))) as [ds|] eqn:Eo.
  - split; [|by eexists]. destruct n as [n|]; [|by injection E as <- <-]. next E as R2. destruct x as [same|]; [|done].
    next E as R3. next E as R4. injection E as _ <-. destruct (_ && _); cbn [when] in R4.
    + apply run_modify in R4. by rewrite R4.
    + by injection R4 as _ <-.
  - destruct n; injection E as <- <-; done.
Qed.

Lemma updateReportDataset_spec c w w' : updateReportDataset conf env None c w = Some (true, w') -> is_Some (value conf (fst w) DatSet) ->
  is_Some (dataSet (control (fst w'))).
Proof.
  intros E [v Hv]. unfold updateReportDataset in E. next E as R1. next E as R2. next R2 as R3.
  destruct (value_pointer _ _ _ Hv) as (i & Hi & _). rewrite Hi in R2. next R2 as R4. apply run_load in R4 as [R4 ->]. next R2 as R5.
  injection R2 as <- <-. next E as R6. destruct x as [ch|]; [|done]. apply data_set_changes_spec in R6 as [R6 H6].
  apply (take_data_set_spec _ _ _ _ _ _ E). intros Hch. rewrite R6. auto.
Qed.

(** *** Writing to a block that is not enabled *)

Definition resting (w w' : World) : Prop := buffered (control (fst w)) = b -> enabled (control (fst w)) = false -> consistent (fst w) ->
  buffered (control (fst w')) = b /\ enabled (control (fst w')) = false /\ consistent (fst w').

#[export] Instance resting_preorder : PreOrder resting.
Proof. split; [by intros w|]. intros w1 w2 w3 H1 H2 Hb He Hc. destruct (H1 Hb He Hc) as (? & ? & ?). auto. Qed.

Lemma changes_resting ps w w' : changes conf b ps w w' ->
  forallb (fun p => negb (bool_decide (p ∈ ps))) [Enabled; Reserved; Client; Seconds; Seen RptEna; Seen Resv] = true ->
  (buffered (control (fst w)) = b -> is_Some (value conf (fst w) DatSet) -> is_Some (value conf (fst w') DatSet)) -> resting w w'.
Proof.
  intros Hch Hp Hd Hb He Hc. destruct (Hch Hb) as [Hf Hs]. rewrite forallb_forall in Hp.
  assert (H : forall p, p ∈ [Enabled; Reserved; Client; Seconds; Seen RptEna; Seen Resv] -> same conf p (fst w) (fst w')).
  { intros p Hin. apply Hs. apply list_elem_of_In in Hin. specialize (Hp p Hin). by apply negb_true_iff, bool_decide_eq_false_1 in Hp. }
  pose proof (H Enabled ltac:(in_list)) as H1. pose proof (H Reserved ltac:(in_list)) as H2. pose proof (H Client ltac:(in_list)) as H3.
  pose proof (H Seconds ltac:(in_list)) as H4. pose proof (H (Seen RptEna) ltac:(in_list)) as H5. pose proof (H (Seen Resv) ltac:(in_list)) as H6.
  cbn [same] in *. split_and!; [by rewrite (f_buffered _ _ Hf)|congruence|]. destruct Hc as [C1 C2 C3 C4 C5 C6].
  apply consistent_disabled; rewrite ?H2, ?H3, ?H4, ?H5, ?H6, ?(f_buffered _ _ Hf); auto; congruence.
Qed.

Lemma frames_resting {A} ps (m : M A) : within (changes conf b ps) m ->
  forallb (fun p => negb (bool_decide (p ∈ ps))) [Enabled; Reserved; Client; Seconds; Seen RptEna; Seen Resv; Seen DatSet] = true ->
  within resting m.
Proof.
  intros H Hp w x w' E. pose proof (H _ _ _ E) as Hch. rewrite forallb_forall in Hp. apply (changes_resting ps); [done| |].
  - apply forallb_forall. intros p Hin. apply Hp. cbn in *. tauto.
  - intros Hb. destruct (Hch Hb) as [_ Hs]. assert (Hd : same conf (Seen DatSet) (fst w) (fst w')).
    { apply Hs. specialize (Hp (Seen DatSet) ltac:(cbn; tauto)). by apply negb_true_iff, bool_decide_eq_false_1 in Hp. }
    by rewrite Hd.
Qed.

(** An update leaves an element that is there. *)
Lemma update_present p e u w x w' : points conf b e p -> update_value p u w = Some (x, w') -> buffered (control (fst w)) = b ->
  is_Some (value conf (fst w) e) -> is_Some (value conf (fst w') e).
Proof.
  intros Hp E Hb Hv. destruct p as [i|]; [|by injection E as _ <-]. specialize (Hp i eq_refl).
  next E as R1. apply run_load in R1 as [R1 ->]. next E as R2. apply run_allocating in R2 as [R2 _].
  eexists. eapply run_store; [| |exact E]; rewrite R2; [by rewrite Hb|done].
Qed.

Lemma resting_update_DatSet p u : points conf b DatSet p -> within resting (update_value p u).
Proof.
  intros Hp w x w' E. apply (changes_resting [Seen DatSet]); [|done|].
  - assert (Hw : within (changes conf b [Seen DatSet]) (update_value p u)) by (eapply changes_update_value; [done|in_list]). by apply Hw in E.
  - by eapply update_present.
Qed.

Lemma resting_pointer {A} e (k : option nat -> M A) : (forall p, points conf b e p -> within resting (k p)) ->
  within resting (p ← ReportControl_getRCBValue conf e; k p).
Proof. intros H w y w' E Hb. next E as R. refine (H _ _ _ _ _ E Hb). by apply points_pointer. Qed.

Lemma resting_buffered {A} (k : bool -> M A) : within resting (k b) -> within resting (x ← getc buffered; k x).
Proof. intros H w y w' E Hb. next E as R. rewrite Hb in E. by apply (H _ _ _ E). Qed.

Ltac rest := first
  [ apply within_gets | apply within_ret | apply within_lift
  | eapply frames_resting; [solve [eauto 2 with frames nocore]|reflexivity]
  | eapply (frames_resting []); [solve [frame]|reflexivity]
  | apply resting_pointer; intros ? ?; rest
  | by apply resting_update_DatSet
  | apply within_bind; [rest|intros ?; rest]
  | apply within_when; rest
  | match goal with |- within _ (match ?x with _ => _ end) => destruct x; rest end ].

Lemma resting_change_setting e u m : e ∈ [IntgPd; TrgOps; BufTm; RptID] -> within resting m -> within resting (change_setting conf e u m).
Proof.
  intros He Hm. unfold change_setting. apply resting_pointer. intros p Hp. apply within_bind; [apply (frames_resting []); [frame|done]|].
  intros sm. apply within_bind; [|intros []; apply within_ret]. apply within_when. apply within_bind; [|by intros []].
  eapply (frames_resting [Seen e]); [eapply changes_update_value; [done|in_list]|].
  revert He. clear. rewrite !elem_of_cons. intros [->|[->|[->|[->|Hx]]]]; try done. by apply elem_of_nil in Hx.
Qed.

Lemma resting_write_DatSet u c : within resting (write_DatSet conf env u c).
Proof. unfold write_DatSet, if_writable, purge_if_buffered. rest. Qed.
Lemma resting_write_IntgPd u c : within resting (write_IntgPd conf env u c).
Proof.
  unfold write_IntgPd, if_writable. case_decide; [apply within_ret|]. apply resting_change_setting; [in_list|].
  apply within_bind; [rest|intros _]. apply within_bind; [rest|intros bf]. apply within_when. apply within_bind; [|intros _; rest].
  eapply (frames_resting []); [apply frames_start_integrity, within_ret|done].
Qed.
Lemma resting_write_TrgOps u c : within resting (write_TrgOps conf u c).
Proof. unfold write_TrgOps, if_writable. case_decide; [apply within_ret|]. apply resting_change_setting; [in_list|]. unfold purge_if_buffered. rest. Qed.
Lemma resting_write_BufTm u c : within resting (write_BufTm conf u c).
Proof. unfold write_BufTm, if_writable. case_decide; [apply within_ret|]. apply resting_change_setting; [in_list|]. unfold purge_if_buffered. rest. Qed.
Lemma resting_write_RptID u c : within resting (write_RptID conf u c).
Proof.
  unfold write_RptID, if_writable. case_decide; [apply within_ret|]. case_decide; [apply within_ret|].
  apply resting_change_setting; [in_list|]. unfold purge_if_buffered. rest.
Qed.
Lemma resting_write_EntryID u c : within resting (write_EntryID conf u c).
Proof. eapply (frames_resting [Seen EntryID]); [unfold write_EntryID; frame|reflexivity]. Qed.

(** Taking a reservation away. *)
Lemma resting_release (w w' : World) : buffered (control (fst w')) = b -> enabled (control (fst w)) = false -> consistent (fst w) ->
  kept (fst w) (fst w') -> reserved (fst w') = false -> clientConnection (fst w') = None ->
  (b = false -> value conf (fst w') Resv = Some (MmsBoolean (bool_decide (resvTms (fst w') = -1)))) -> consistent (fst w').
Proof.
  intros Hb He Hc Hk Hr Hn Hs. apply (consistent_kept (fst w)); rewrite ?Hr, ?Hn; [done|done|congruence| |].
  - split; [done|by intros []].
  - intros Hu. apply Hs. congruence.
Qed.

Lemma run_kept {A} ps (m : M A) w x w' : m w = Some (x, w') -> within (changes conf b ps) m -> buffered (control (fst w)) = b ->
  forallb (fun p => bool_decide (p ∈ [Reserved; Client; Seconds; Timeout; Buffering; Number; Seen Resv; Seen ResvTms; Seen Owner])) ps = true ->
  kept (fst w) (fst w').
Proof. intros E H Hb Hp. eapply kept_changes; [by eapply H|done..]. Qed.

Lemma sound_resting {A} ps (m : M A) : within sound m -> within (changes conf b ps) m -> bool_decide (Enabled ∈ ps) = false -> within resting m.
Proof.
  intros Hm Hf Hp w x w' E Hb He Hc. destruct (Hm _ _ _ E Hb Hc). split_and!; [done| |done]. apply bool_decide_eq_false_1 in Hp.
  destruct (Hf _ _ _ E Hb) as [_ Hs]. pose proof (Hs Enabled Hp) as He'. cbn [same] in He'. congruence.
Qed.

Lemma sound_reserve_for n c : within sound (reserve_for conf env n c).
Proof.
  unfold reserve_for. apply within_bind; [apply sound_prolong|intros _]. apply within_bind; [apply sound_reserveRcb|intros _]. apply sound_event.
Qed.
Lemma frames_reserve_for n c : frames [Timeout; Reserved; Client; Seen Resv; Seen ResvTms; Seen Owner] (reserve_for conf env n c).
Proof. unfold reserve_for. frame. Qed.

Lemma resting_give_up c : b = true ->
  within resting (reservationTimeout <:= 0;; reserved <:= false;; updateOwner conf env None;; unreserved_event conf c).
Proof.
  intros Ht w x w' E Hb He Hc. assert (Hk : kept (fst w) (fst w')).
  { eapply (run_kept [Timeout; Reserved; Client; Seen Owner] _ _ _ _ E); [frame|done..]. }
  next E as R0. note R0 [Timeout]. next E as R1. note R1 [Reserved]. next E as R2. pose proof (updateOwner_client _ _ _ _ R2 ltac:(assumption)).
  note R2 [Client; Seen Owner]. note E ([] : list Part). apply run_modify in R1. assert (reserved (fst w1) = false) by (by rewrite R1).
  split_and!; [done|congruence|]. by apply (resting_release w); congruence || done.
Qed.

Lemma resting_write_ResvTms u c : b = true -> within resting (write_ResvTms conf env u c).
Proof.
  intros Ht. unfold write_ResvTms. apply within_bind; [apply within_gets|intros r]. case_decide.
  - apply within_bind; [apply within_lift|intros n]. case_decide; [|apply within_ret].
    apply within_bind; [apply (sound_resting [Seconds]); [by apply sound_seconds|frame|done]|intros _].
    apply within_bind; [|intros _; eapply (frames_resting [Seen ResvTms]); [frame|done]].
    case_decide; [by apply resting_give_up|eapply sound_resting; [apply sound_reserve_for|apply frames_reserve_for|done]].
  - case_decide; [apply within_ret|]. apply within_bind; [|intros _; apply within_ret].
    eapply sound_resting; [apply sound_reserve_for|apply frames_reserve_for|done].
Qed.

Lemma run_boolean u (w : World) x w' : lift (booleanOf (Some u)) w = Some (x, w') -> u = MmsBoolean x /\ w' = w.
Proof. intros [E ->]%lift_inv. destruct u; try discriminate. by injection E as ->. Qed.

(** Storing a truth value in an element that has one. *)
Lemma run_update_boolean e v u w x w' : update_value (pointer conf (fst w) e) (MmsBoolean u) w = Some (x, w') ->
  value conf (fst w) e = Some (MmsBoolean v) -> value conf (fst w') e = Some (MmsBoolean u).
Proof.
  intros E Hv. destruct (run_update_value _ _ _ _ _ _ E Hv) as (r & mem & Eu & ->). cbn [update] in Eu. unfold m_ret in Eu. by injection Eu as <- _.
Qed.

Lemma resting_write_Resv u c : within resting (o ← write_Resv conf env u c; write_value conf Resv u o).
Proof.
  intros w x w' E Hb He Hc.
  assert (Hk : kept (fst w) (fst w')).
  { eapply (run_kept [Reserved; Client; Seen Owner; Seen Resv] _ _ _ _ E); [unfold write_Resv, write_value; frame|done..]. }
  assert (He' : enabled (control (fst w')) = false) by (pose proof (Hk Enabled ltac:(in_list)) as H; cbn [same] in H; congruence).
  next E as R. unfold write_Resv in R. apply bind_inv in R as (v & w1 & [-> ->]%run_boolean & R). next R as R1. note R1 [Reserved].
  apply run_modify in R1. assert (Hr : reserved (fst w1) = v) by (by rewrite R1). destruct v.
  - next R as R2. note R2 ([] : list Part). next R as R3. note R3 [Client; Seen Owner]. next R as R4. note R4 [Client]. apply run_modify in R4.
    injection R as <- <-. assert (Hn : clientConnection (fst w4) = Some c) by (by rewrite R4). unfold write_value in E.
    next E as R5. destruct (pointer conf (fst w4) Resv) as [i|] eqn:Ep.
    + next E as R6. cbn [negb when] in R6. injection E as _ <-. rewrite <- Ep in R6. note R6 [Seen Resv].
      split_and!; [done..|]. apply (consistent_reserved (fst w) _ c); [done|done|congruence|congruence|].
      intros Hu. eapply run_update_boolean; [exact R6|].
      replace (value conf (fst w4) Resv) with (value conf (fst w) Resv) by congruence. apply (c_shows_reserved _ Hc). congruence.
    + injection E as _ <-. split_and!; [done..|]. apply (consistent_reserved (fst w) _ c); [done|done|congruence|done|].
      intros Hu. exfalso. assert (Hv : value conf (fst w4) Resv = value conf (fst w) Resv) by congruence.
      rewrite (c_shows_reserved _ Hc) in Hv by congruence. destruct (value_pointer _ _ _ Hv) as (i & Hi & _). congruence.
  - next R as R2. pose proof (updateOwner_client _ _ _ _ R2 ltac:(assumption)) as _. note R2 [Client; Seen Owner]. next R as R3.
    note R3 [Client]. apply run_modify in R3. next R as R4. next R as R5. note R5 ([] : list Part). injection R as <- <-.
    assert (Hn : clientConnection (fst w4) = None) by (replace (clientConnection (fst w4)) with (clientConnection (fst w3)) by congruence; by rewrite R3).
    unfold write_value in E. next E as R6.
    assert (Hs : b = false -> value conf (fst w4) Resv = Some (MmsBoolean (reserved (fst w) || bool_decide (resvTms (fst w3) = -1)))).
    { intros Hf. replace (value conf (fst w4) Resv) with (value conf (fst w) Resv) by congruence.
      replace (resvTms (fst w3)) with (resvTms (fst w)) by congruence. apply (c_shows_reserved _ Hc). congruence. }
    destruct (pointer conf (fst w4) Resv) as [i|] eqn:Ep.
    + next E as R7. injection E as _ ->. rewrite <- Ep in R7. note R7 [Seen Resv]. split_and!; [done..|].
      apply (resting_release w); [done..|congruence|congruence|]. intros Hf. specialize (Hs Hf).
      replace (resvTms (fst w')) with (resvTms (fst w3)) by congruence. destruct (bool_decide (resvTms (fst w3) = -1)) eqn:Hd; cbn [negb when] in R7.
      * injection R7 as _ <-. by rewrite orb_true_r in Hs.
      * by eapply run_update_boolean.
    + injection E as _ <-. split_and!; [done..|]. apply (resting_release w); [done..|congruence|done|].
      intros Hf. exfalso. destruct (value_pointer _ _ _ (Hs Hf)) as (i & Hi & _). congruence.
Qed.

Lemma resting_write_element e u c : e ∉ [RptEna; Resv] -> within resting (o ← write_element conf env e u c; write_value conf e u o).
Proof.
  intros He. assert (Hv : forall o, within resting (write_value conf e u o)).
  { intros [r a|a d]; [apply within_ret|]. cbn [write_value]. apply resting_pointer. intros [i|] Hp; [|apply within_ret].
    apply within_bind; [|intros _; apply within_ret]. apply within_when. destruct (decide (e = DatSet)) as [->|Hd]; [by apply resting_update_DatSet|].
    eapply (frames_resting [Seen e]); [eapply changes_update_value; [done|in_list]|]. destruct e; done || (exfalso; apply He; in_list). }
  destruct e; try (exfalso; apply He; in_list; fail); (apply within_bind; [|intros o; apply Hv]); cbn [write_element].
  all: try first [apply within_ret|apply resting_write_RptID|apply resting_write_DatSet|apply resting_write_BufTm|apply resting_write_TrgOps
    |apply resting_write_IntgPd|apply resting_write_EntryID|unfold write_PurgeBuf; rest; fail|unfold if_writable; rest; fail].
  apply resting_buffered. destruct (bool_dec b true) as [Ht|Ht]; [|apply not_true_is_false in Ht; rewrite Ht; apply within_ret].
  rewrite Ht. by apply resting_write_ResvTms.
Qed.

(** *** Enabling and disabling *)

Lemma write_disabled_sound e u c : e ∉ [RptEna; Resv] -> within sound (write_disabled conf env e u c).
Proof.
  intros He w x w' E Hb Hc. unfold write_disabled in E. next E as R1. next E as R2. next E as R3.
  destruct (enabled (control (fst w))) eqn:Hd; [by injection E as _ <-|]. destruct (_ && _); [by injection E as _ <-|].
  by destruct (resting_write_element e u c He _ _ _ E Hb Hd Hc) as (? & _ & ?).
Qed.
Lemma write_disabled_Resv u c : within sound (write_disabled conf env Resv u c).
Proof.
  intros w x w' E Hb Hc. unfold write_disabled in E. next E as R1. next E as R2. next E as R3.
  destruct (enabled (control (fst w))) eqn:Hd; [by injection E as _ <-|]. destruct (_ && _); [by injection E as _ <-|].
  by destruct (resting_write_Resv u c _ _ _ E Hb Hd Hc) as (? & _ & ?).
Qed.

Lemma disable_enabled c w x w' : disable conf c w = Some (x, w') -> enabled (control (fst w')) = false.
Proof. intros E. unfold disable in E. next E as R1. next E as R2. next E as R3. apply run_modify in E. by rewrite E. Qed.

Lemma sound_write_RptEna u c : within sound
  (o ← write_RptEna conf env u c; match o with Exit r a => mret (r, a) | Continue _ _ => write_disabled conf env RptEna u c end).
Proof.
  intros w x w' E Hb Hc. next E as R. unfold write_RptEna in R. apply bind_inv in R as (v & w1 & [-> ->]%run_boolean & R).
  next R as R1. next R as R2. destruct v, (enabled (control (fst w))) eqn:He.
  - injection R as <- <-. by injection E as _ <-.
  - next R as R3. pose proof (frames_resting [DataSetInUse; Buffering] _ (frames_updateReportDataset None (Some c)) eq_refl _ _ _ R3 Hb He Hc) as (Hb3 & He3 & Hc3).
    destruct x1.
    + next R as R4. injection R as <- ->. injection E as _ <-.
      destruct (enable_sound _ _ _ _ R4 Hb3 Hc3 He3) as (_ & _ & ? & ?); [|done]. apply (updateReportDataset_spec _ _ _ R3), (c_data_set _ Hc).
    + injection R as <- ->. by injection E as _ <-.
  - destruct (decide _) as [|Hn]; [injection R as <- <-; by injection E as _ <-|]. next R as R3. injection R as <- ->.
    pose proof (disable_enabled _ _ _ _ R3) as He3. note R3 [Enabled]. unfold write_disabled in E. next E as R4. next E as R5. next E as R6.
    rewrite He3 in E. replace (clientConnection (fst w0)) with (clientConnection (fst w)) in E by congruence.
    rewrite (bool_decide_eq_false_2 (clientConnection (fst w) <> Some c)) in E by done. rewrite andb_false_r in E. next E as R7. injection R7 as <- <-.
    unfold write_value in E. next E as R8. assert (Hv : value conf (fst w0) RptEna = Some (MmsBoolean true)).
    { replace (value conf (fst w0) RptEna) with (value conf (fst w) RptEna) by congruence. by rewrite (c_shows_enabled _ Hc), He. }
    destruct (value_pointer _ _ _ Hv) as (i & Hi & _). rewrite Hi in E. rewrite <- Hi in E. next E as R9. injection E as _ ->.
    cbn [negb when] in R9. pose proof (run_update_boolean _ _ _ _ _ _ R9 Hv). note R9 [Seen RptEna]. split; [done|].
    destruct Hc as [C1 C2 C3 C4 C5 C6]. apply consistent_disabled; [congruence| |done| |].
    + replace (reserved (fst w')) with (reserved (fst w)) by congruence. by replace (clientConnection (fst w')) with (clientConnection (fst w)) by congruence.
    + by replace (value conf (fst w') DatSet) with (value conf (fst w) DatSet) by congruence.
    + intros Hf. replace (value conf (fst w') Resv) with (value conf (fst w) Resv) by congruence.
      replace (reserved (fst w')) with (reserved (fst w)) by congruence. replace (resvTms (fst w')) with (resvTms (fst w)) by congruence. apply C4. congruence.
  - injection R as <- <-. by injection E as _ <-.
Qed.

Lemma sound_write_GI u c : within sound
  (o ← write_GI conf u c; match o with Exit r a => mret (r, a) | Continue _ _ => write_disabled conf env GI u c end).
Proof.
  apply within_bind; [eapply (frames_sound []); [unfold write_GI; frame|done]|].
  intros [r a|]; [apply within_ret|]. apply write_disabled_sound. not_in.
Qed.

Lemma sound_write_locked e u c : within sound (write_locked conf env e u c).
Proof.
  unfold write_locked. apply within_bind; [eapply (frames_sound []); [unfold locked_out; frame|done]|].
  intros [r|]; [apply within_ret|]. destruct (decide (e = RptEna)) as [->|H1]; [apply sound_write_RptEna|].
  destruct (decide (e = GI)) as [->|H2]; [apply sound_write_GI|]. destruct (decide (e = Resv)) as [->|H3].
  - apply within_bind; [apply within_ret|intros [r a|]]; [apply within_ret|apply write_disabled_Resv].
  - destruct e; try done; (apply within_bind; [apply within_ret|intros [r a|]]; [apply within_ret|apply write_disabled_sound; not_in]).
Qed.

Lemma sound_track r c n : within sound (track_write conf r c n).
Proof. eapply (frames_sound []); [unfold track_write; frame|done]. Qed.

Lemma sound_write n u c : within sound (Reporting_RCBWriteAccessHandler conf env n u c).
Proof.
  unfold Reporting_RCBWriteAccessHandler. apply within_bind; [eapply (frames_sound []); [apply frames_access|done]|].
  intros [|]; [|apply sound_track]. apply sound_buffered. apply within_bind.
  { destruct (bool_dec b true) as [Ht|Ht]; [by rewrite Ht; apply sound_claim_buffered|apply not_true_is_false in Ht; rewrite Ht; apply within_ret]. }
  intros _. apply within_bind; [apply within_lift|intros e]. apply within_bind; [apply sound_write_locked|]. intros [r a].
  apply within_bind; [apply within_when, sound_reserve_implicitly|intros _].
  apply within_bind; [eapply (frames_sound []); [apply frames_values|done]|intros _].
  apply within_bind; [eapply (frames_sound []); [apply frames_value|done]|intros _]. apply sound_track.
Qed.

Lemma sound_read c n : within sound (ReportControl_readAccess conf env c n).
Proof.
  unfold ReportControl_readAccess. apply sound_buffered. apply within_bind.
  { destruct (bool_dec b true) as [Ht|Ht]; [by rewrite Ht; apply sound_checkReservationTimeout|apply not_true_is_false in Ht; rewrite Ht; apply within_ret]. }
  intros _. eapply (frames_sound []); [frame|done].
Qed.

Lemma frames_leave : frames [Client; Seen Owner; Timeout; Seen Resv] (leave_reservation conf env).
Proof. unfold leave_reservation. frame. Qed.
#[local] Hint Resolve frames_leave : frames.

Lemma leave_reservation_spec w x w' v : leave_reservation conf env w = Some (x, w') -> buffered (control (fst w)) = b ->
  clientConnection (fst w) = None -> (b = false -> value conf (fst w) Resv = Some (MmsBoolean (v || bool_decide (resvTms (fst w) = -1)))) ->
  clientConnection (fst w') = None /\ (b = false -> value conf (fst w') Resv = Some (MmsBoolean (bool_decide (resvTms (fst w') = -1)))).
Proof.
  intros E Hb Hn Hv. unfold leave_reservation in E. next E as R1. next E as R2. rewrite Hb in E. destruct (bool_dec b true) as [Ht|Ht].
  - rewrite Ht in E. split; [|congruence]. case_decide; [by apply (updateOwner_client _ _ _ _ E)|]. note E [Timeout]. congruence.
  - apply not_true_is_false in Ht. rewrite Ht in E. next E as R3. note R3 [Client; Seen Owner; Seen Resv].
    note E ([] : list Part). specialize (Hv Ht).
    replace (clientConnection (fst w')) with (clientConnection (fst w0)) by congruence.
    replace (value conf (fst w') Resv) with (value conf (fst w0) Resv) by congruence. replace (resvTms (fst w')) with (resvTms (fst w0)) by congruence.
    destruct (bool_decide_reflect (resvTms (fst w) <> -1)) as [Hne|Heq]; cbn [when] in R3.
    + next R3 as S1. next R3 as S2. pose proof (updateOwner_client _ _ _ _ R3) as S3. pose proof S2 as S4.
      apply run_set_value in S4 as (u & u' & E1 & E2 & E3). rewrite Hv in E1. injection E1 as <-. injection E2 as <-.
      note S2 [Seen Resv]. note R3 [Client; Seen Owner]. split; [by apply S3|]. intros _. rewrite bool_decide_eq_false_2 by congruence. congruence.
    + injection R3 as _ <-. split; [done|]. intros _. rewrite Hv. apply dec_stable in Heq. by rewrite (bool_decide_eq_true_2 _ Heq), orb_true_r.
Qed.

Lemma disableInstance_spec w x w' : Reporting_disableReportControlInstance conf env w = Some (x, w') -> buffered (control (fst w)) = b ->
  consistent (fst w) ->
  buffered (control (fst w')) = b /\ consistent (fst w') /\ enabled (control (fst w')) = false /\ clientConnection (fst w') = None /\
  reserved (fst w') = false.
Proof.
  intros E Hb Hc. unfold Reporting_disableReportControlInstance in E. next E as R1. next E as R2. next E as R3. note R3 ([] : list Part).
  next E as R4. note R4 [Enabled]. apply run_modify in R4. assert (H4 : enabled (control (fst w1)) = false) by (by rewrite R4).
  next E as R5. note R5 [Client]. apply run_modify in R5. assert (H5 : clientConnection (fst w2) = None) by (by rewrite R5).
  next E as R6. next E as R7. assert (H7 : value conf (fst w3) RptEna = Some (MmsBoolean false)).
  { pose proof R7 as S. apply run_set_value in S as (v & v' & E1 & E2 & ->).
    replace (value conf (fst w2) RptEna) with (value conf (fst w) RptEna) in E1 by congruence.
    rewrite (c_shows_enabled _ Hc) in E1. injection E1 as <-. by injection E2 as <-. }
  note R7 [Seen RptEna]. next E as R8. next E as R9. assert (H9 : reserved (fst w4) = false).
  { destruct (reserved (fst w3)) eqn:Hr; cbn [when] in R9; [|injection R9 as _ <-; done]. next R9 as S. note S [Reserved].
    apply run_modify in S. note R9 ([] : list Part). replace (reserved (fst w4)) with (reserved (fst w5)) by congruence. by rewrite S. }
  note R9 [Reserved]. next E as R10. destruct (leave_reservation_spec _ _ _ (reserved (fst w)) R10 ltac:(done)) as [K1 K2]; [congruence| |].
  { intros Hf. replace (value conf (fst w4) Resv) with (value conf (fst w) Resv) by congruence.
    replace (resvTms (fst w4)) with (resvTms (fst w)) by congruence. apply (c_shows_reserved _ Hc). congruence. }
  note R10 [Client; Seen Owner; Timeout; Seen Resv]. note E ([] : list Part).
  assert (enabled (control (fst w')) = false) by congruence. assert (Hn : clientConnection (fst w') = None) by congruence.
  assert (Hr : reserved (fst w') = false) by congruence. split_and!; try done.
  apply consistent_disabled; rewrite ?Hr, ?Hn; [done|split; [done|by intros []]|congruence| |].
  - replace (value conf (fst w') DatSet) with (value conf (fst w) DatSet) by congruence. apply (c_data_set _ Hc).
  - intros Hf. cbn [orb]. replace (value conf (fst w') Resv) with (value conf (fst w5) Resv) by congruence.
    replace (resvTms (fst w')) with (resvTms (fst w5)) by congruence. apply K2. congruence.
Qed.

Ltac also E ps p :=
  let Hs := fresh "Hs" in
  lazymatch type of E with ?m _ = _ =>
    let Hm := fresh in assert (Hm : within (changes conf b ps) m) by frame;
    destruct (notes ps _ _ _ _ E Hm ltac:(assumption)) as [_ Hs]; clear Hm
  end;
  specialize (Hs p ltac:(not_in)); cbn [same] in Hs.

(** The reservation of a client that leaves a buffered block. *)
Lemma run_leave t w x w' : Reporting_disableReportControlInstance conf env w = Some (x, w') -> buffered (control (fst w)) = b ->
  b = true -> 0 < resvTms (fst w) -> (forall n, monotonicTimeInMs env n = t) ->
  resvTms (fst w') = resvTms (fst w) /\ value conf (fst w') Owner = value conf (fst w) Owner /\
  reservationTimeout (fst w') = u64 (t + resvTms (fst w) * 1000).
Proof.
  intros E Hb Ht Hr Hclock. unfold Reporting_disableReportControlInstance in E. next E as R1. next E as R2. next E as R3.
  also R3 ([] : list Part) (Seen Owner). note R3 ([] : list Part). next E as R4. also R4 [Enabled] (Seen Owner). note R4 [Enabled].
  next E as R5. also R5 [Client] (Seen Owner). note R5 [Client]. next E as R6. next E as R7. also R7 [Seen RptEna] (Seen Owner). note R7 [Seen RptEna].
  next E as R8. next E as R9. also R9 [Reserved] (Seen Owner). note R9 [Reserved]. next E as R10.
  assert (H10 : within (changes conf b []) (copyRCBValuesToTrackingObject;; updateGenericTrackingObjectValues IEC61850_SERVICE_TYPE_INTERNAL_CHANGE DATA_ACCESS_ERROR_SUCCESS)) by frame.
  unfold leave_reservation in R10. next R10 as S1. next R10 as S2. rewrite Hb4, Ht in R10.
  rewrite decide_False, bool_decide_eq_true_2 in R10 by lia. cbn [when] in R10.
  also R10 [Timeout] (Seen Owner). note R10 [Timeout]. also E ([] : list Part) (Seen Owner). also E ([] : list Part) Timeout. note E ([] : list Part).
  unfold prolong in R10. next R10 as S3. next R10 as S4. apply run_modify in R10.
  apply bind_inv in S3 as (m & w7 & S5 & S6). injection S6 as <- _. rewrite Hclock in R10.
  unfold int_mul in S4. case_decide; [|done]. injection S4 as <-.
  assert (Hsec : resvTms (fst w4) = resvTms (fst w)) by congruence.
  split_and!; [congruence|congruence|]. etrans; [eassumption|]. rewrite R10. cbn. by rewrite Hsec.
Qed.

(** What is left of a reservation when its time is over. *)
Lemma run_expired w x w' : checkReservationTimeout conf env w = Some (x, w') -> buffered (control (fst w)) = b ->
  enabled (control (fst w)) = false -> clientConnection (fst w) = None ->
  forall t, (forall n, monotonicTimeInMs env n = t) ->
  if decide (0 < reservationTimeout (fst w) < t) then
    reserved (fst w') = false /\ clientConnection (fst w') = None /\ reservationTimeout (fst w') = 0 /\
    resvTms (fst w') = (if decide (resvTms (fst w) = -1) then -1 else 0)
  else fst w' = fst w.
Proof.
  intros E Hb He Hn t Hclock. unfold checkReservationTimeout in E. next E as R. next E as R. next E as R. rewrite He, Hn in E. cbn [negb andb] in E.
  destruct (bool_decide_reflect (reservationTimeout (fst w) > 0)) as [Hp|Hp]; cbn [when andb] in E; [|rewrite decide_False by lia; by injection E as _ <-].
  rewrite bool_decide_eq_true_2 in E by done. cbn [andb when] in E. apply bind_inv in E as (now & w0 & R & E).
  apply bind_inv in R as (m & w1 & R & R1). injection R as _ <-. injection R1 as <- <-. rewrite Hclock in E. cbn [fst] in E.
  destruct (bool_decide_reflect (t > reservationTimeout (fst w))) as [Hd|Hd]; cbn [when] in E; [|rewrite decide_False by lia; by injection E as _ <-].
  rewrite decide_True by lia. next E as R1. next E as R2. cbn [fst] in *.
  assert (H2 : resvTms (fst w0) = if decide (resvTms (fst w) = -1) then -1 else 0).
  { destruct (bool_decide_reflect (resvTms (fst w) <> -1)) as [Hm|Hm]; cbn [when] in R2.
    - apply run_modify in R2. rewrite R2. by rewrite decide_False.
    - injection R2 as _ <-. apply dec_stable in Hm. cbn [fst]. by rewrite decide_True. }
  assert (Hb0 : buffered (control (fst w0)) = b).
  { destruct (bool_decide _); cbn [when] in R2; [|by injection R2 as _ <-]. apply run_modify in R2. by rewrite R2. }
  next E as R3. note R3 [Seen ResvTms]. next E as R4. note R4 [Timeout]. apply run_modify in R4.
  next E as R5. pose proof (updateOwner_client _ _ _ _ R5 ltac:(assumption)) as Hcl. also R5 [Client; Seen Owner] Timeout. note R5 [Client; Seen Owner].
  next E as R6. also R6 [Reserved] Timeout. note R6 [Reserved]. apply run_modify in R6. also E ([] : list Part) Timeout. note E ([] : list Part).
  assert (reserved (fst w4) = false) by (by rewrite R6). assert (reservationTimeout (fst w2) = 0) by (by rewrite R4).
  split_and!; congruence.
Qed.

Lemma sound_closed c : within sound (Reporting_deactivateReportsForConnection conf env c).
Proof.
  apply within_bind; [apply within_gets|intros n]. apply within_when. intros w x w' E Hb Hc.
  by destruct (disableInstance_spec _ _ _ E Hb Hc) as (? & ? & _).
Qed.
Lemma sound_stopped : within sound (Reporting_deactivateAllReports conf env).
Proof. intros w x w' E Hb Hc. by destruct (disableInstance_spec _ _ _ E Hb Hc) as (? & ? & _). Qed.
Lemma sound_started : within resting (Reporting_activateBufferedReports conf env).
Proof. eapply frames_resting; [apply frames_activate|done]. Qed.

(** *** A client that has enabled the block *)

Lemma own_claim c w x w' : claim_buffered conf env c w = Some (x, w') -> buffered (control (fst w)) = b -> clientConnection (fst w) = Some c ->
  reserved (fst w) = true -> changes conf b [Timeout] w w'.
Proof.
  intros E Hb Hc Hr. unfold claim_buffered in E. next E as R. assert (w0 = w) as ->.
  { unfold checkReservationTimeout in R. next R as S. next R as S. next R as S. rewrite Hc, andb_false_r in R. by injection R as _ <-. }
  next E as R1. next E as R2. rewrite Hr in E. cbn [negb andb when] in E. case_decide; [by injection E as _ <-|].
  assert (H1 : within (changes conf b [Timeout]) (when (bool_decide (resvTms (fst w) > 0)) (c0 ← get clientConnection; when (bool_decide (c0 = Some c)) (prolong env (resvTms (fst w)))))) by frame.
  by apply H1 in E.
Qed.

Lemma own_reserve c w x w' : reserve_implicitly conf env c w = Some (x, w') -> buffered (control (fst w)) = b -> reserved (fst w) = true ->
  changes conf b [Timeout] w w'.
Proof.
  intros E Hb Hr. unfold reserve_implicitly in E. next E as R1. next E as R2. rewrite Hr in E. cbn [negb] in E. destruct (buffered (control (fst w))).
  - next E as R3. assert (H3 : within (changes conf b [Timeout]) (prolong env RESV_TMS_IMPLICIT_VALUE)) by frame. apply H3 in R3.
    next E as R4. next E as R5. rewrite andb_false_r in R5, E. injection R5 as _ <-. by injection E as _ <-.
  - by injection E as _ <-.
Qed.

(** Turning the reports off. *)
Definition turns_off (elementName : list Z) (u : MmsValue) : Prop := element_of elementName = Some RptEna /\ u = MmsBoolean false.

Lemma own_write_locked e u c w x w' : write_locked conf env e u c w = Some (x, w') -> buffered (control (fst w)) = b ->
  clientConnection (fst w) = Some c -> reserved (fst w) = true -> enabled (control (fst w)) = true -> ~ (e = RptEna /\ u = MmsBoolean false) ->
  changes conf b [] w w'.
Proof.
  intros E Hb Hc Hr He Hn. unfold write_locked in E. next E as R1.
  assert (w0 = w) as -> by (unfold locked_out in R1; next R1 as S1; next R1 as S2; by injection R1 as _ <-). destruct x0 as [r|].
  { by injection E as _ <-. }
  next E as R2. assert (H2 : changes conf b [] w w0 /\ enabled (control (fst w0)) = true /\ (e = RptEna -> exists r a, x0 = Exit r a)).
  { destruct (decide (e = RptEna)) as [->|H1].
    - unfold write_RptEna in R2. apply bind_inv in R2 as (v & w1 & [-> ->]%run_boolean & R2). next R2 as S1. next R2 as S2. rewrite He in R2.
      destruct v; [|by destruct Hn]. injection R2 as <- <-. split_and!; [reflexivity|done|by eexists _, _].
    - assert (H2 : within (changes conf b []) (match e with RptEna => mret go_on | GI => write_GI conf u c | _ => mret go_on end))
        by (destruct e; unfold write_GI; frame).
      assert (R2' : (match e with RptEna => mret go_on | GI => write_GI conf u c | _ => mret go_on end) w = Some (x0, w0)) by (by destruct e).
      destruct (notes [] _ _ _ _ R2' H2 Hb) as [_ Hs]. apply H2 in R2'. split_and!; [done| |done].
      specialize (Hs Enabled ltac:(not_in)). cbn [same] in Hs. congruence. }
  destruct H2 as (H2 & H3 & H4). destruct x0 as [r a|a d]; [by injection E as _ <-|]. unfold write_disabled in E. next E as R3. next E as R4. next E as R5.
  rewrite H3 in E. by injection E as _ <-.
Qed.

Lemma changes_trans ps ps' w1 w2 w3 : changes conf b ps w1 w2 -> changes conf b ps' w2 w3 ->
  forallb (fun p => bool_decide (p ∈ ps')) ps = true -> changes conf b ps' w1 w3.
Proof. intros H1 H2 Hp. etrans; [by eapply changes_mono|exact H2]. Qed.

Lemma own_write n u c w r w' : Reporting_RCBWriteAccessHandler conf env n u c w = Some (r, w') -> buffered (control (fst w)) = b ->
  clientConnection (fst w) = Some c -> reserved (fst w) = true -> enabled (control (fst w)) = true -> ~ turns_off n u ->
  changes conf b [Timeout] w w'.
Proof.
  intros E Hb Hc Hr He Hn. unfold Reporting_RCBWriteAccessHandler in E. next E as R1. note R1 ([] : list Part).
  assert (H1 : within (changes conf b []) (access_allowed env c n true)) by frame. apply H1 in R1. clear H1. destruct x.
  - next E as R2. next E as R3. assert (H3 : changes conf b [Timeout] w0 w1).
    { destruct (buffered (control (fst w0))) eqn:Hbb; cbn [when] in R3; [apply (own_claim _ _ _ _ R3); congruence|by injection R3 as _ <-]. }
    destruct (H3 Hb0) as [Hf3 Hs3]. assert (Hb1 : buffered (control (fst w1)) = b) by (by rewrite (f_buffered _ _ Hf3)).
    pose proof (Hs3 Client ltac:(not_in)) as K1. pose proof (Hs3 Reserved ltac:(not_in)) as K2. pose proof (Hs3 Enabled ltac:(not_in)) as K3. cbn [same] in *.
    next E as R4. next E as R5. destruct x1 as [r' a].
    assert (H5 : changes conf b [] w1 w2) by (apply (own_write_locked _ _ _ _ _ _ R5); (congruence || intros [-> ->]; by apply Hn)).
    destruct (H5 Hb1) as [Hf5 Hs5]. assert (Hb2 : buffered (control (fst w2)) = b) by (by rewrite (f_buffered _ _ Hf5)).
    pose proof (Hs5 Reserved ltac:(not_in)) as K4. cbn [same] in *. next E as R6. assert (H6 : changes conf b [Timeout] w2 w3).
    { destruct (_ && _); cbn [when] in R6; [apply (own_reserve _ _ _ _ R6); congruence|by injection R6 as _ <-]. }
    assert (H7 : changes conf b [] w3 w').
    { refine ((_ : within (changes conf b []) _) _ _ _ E). unfold track_write. frame. }
    eapply changes_trans; [exact R1| |done]. etrans; [exact H3|]. eapply changes_trans; [exact H5| |done]. etrans; [exact H6|].
    eapply changes_mono; [|exact H7]. done.
  - eapply changes_trans; [exact R1| |done]. refine ((_ : within (changes conf b [Timeout]) _) _ _ _ E). unfold track_write. frame.
Qed.

Lemma own_read c n w x w' d : ReportControl_readAccess conf env c n w = Some (x, w') -> clientConnection (fst w) = Some d -> changes conf b [] w w'.
Proof.
  intros E Hc. unfold ReportControl_readAccess in E. next E as R1. next E as R2. assert (w0 = w) as ->.
  { destruct (buffered _); cbn [when] in R2; [|by injection R2 as _ <-]. unfold checkReservationTimeout in R2.
    next R2 as S. next R2 as S. next R2 as S. rewrite Hc, andb_false_r in R2. by injection R2 as _ <-. }
  refine ((_ : within (changes conf b []) _) _ _ _ E). frame.
Qed.

End Operations.

End RcbSafety.
