(* ===== verification/RcbHistories.v ===== *)
(** * What clients can do to report control blocks

    Sequences of accesses of clients, closing connections and reports: a block that a client has
    reserved or enabled is left alone by the others, its state stays consistent, and reservations end. *)

From Stdlib Require Import String.
From stdpp Require Import list.
From S2P Require Import Prelude StateMonad ServerCommon Alloc BerInteger MmsValue StringUtils ReportBuffer Reporting RcbAccess RcbCreation RcbSafety.
From coqutil Require Import Datatypes.RecordSettersUsingExistingGetters.

Module RcbHistories.
Import Alloc MmsValue RcbAccess RcbCreation RcbSafety.
Import Reporting (ReportControl, DataSet, dataSet, enabled, buffered, isBuffering, gi, intgPd, bufTm, triggerOps, reportBuffer,
  timeOfEntry, rcbEntryID, server, isResync).

(** ** Histories of a block *)

Inductive request :=
  | Write (elementName : list Z) (value : MmsValue) (connection : nat)
  | Read (connection : nat) (elementName : list Z)
  | Closed (connection : nat)
  | Stopped
  | Started.

(** Writes have an answer. *)
Definition serve (conf : Configuration) (env : Environment) (q : request) : M (option Z) :=
  match q with
  | Write n u c => r ← Reporting_RCBWriteAccessHandler conf env n u c; mret (Some r)
  | Read c n => ReportControl_readAccess conf env c n;; mret None
  | Closed c => Reporting_deactivateReportsForConnection conf env c;; mret None
  | Stopped => Reporting_deactivateAllReports conf env;; mret None
  | Started => Reporting_activateBufferedReports conf env;; mret None
  end.

(** What making and sending reports may change: the numbers of the reports. *)
Definition numbers : list Part := [Number; Seen SqNum; Seen EntryID; Seen TimeofEntry].

Inductive step := Request (q : request) (answer : option Z) | Reports.

(** The server starts before there are clients; the environment may be another one at every
    request. *)
Inductive history (conf : Configuration) (w0 : World) : list step -> World -> Prop :=
  | history_start : history conf w0 [] w0
  | history_request h w env q a w' : history conf w0 h w -> serve conf env q w = Some (a, w') ->
      (q = Started -> enabled (control (fst w)) = false) -> history conf w0 (h ++ [Request q a]) w'
  | history_reports h w w' : history conf w0 h w -> changes conf (buffered (control (fst w))) numbers w w' ->
      history conf w0 (h ++ [Reports]) w'.

Section Histories.
Context (conf : Configuration).

Lemma served_consistent env q w a w' : serve conf env q w = Some (a, w') -> (q = Started -> enabled (control (fst w)) = false) ->
  consistent conf (fst w) -> consistent conf (fst w').
Proof.
  intros E Hs Hc. set (b := buffered (control (fst w))). assert (Hb : buffered (control (fst w)) = b) by done.
  destruct q as [n u c|c n|c| |]; apply bind_inv in E as (x & w1 & E & [= _ <-]).
  - by destruct (sound_write conf env b n u c _ _ _ E Hb Hc).
  - by destruct (sound_read conf env b c n _ _ _ E Hb Hc).
  - by destruct (sound_closed conf env b c _ _ _ E Hb Hc).
  - by destruct (sound_stopped conf env b _ _ _ E Hb Hc).
  - destruct (sound_started conf env b _ _ _ E Hb) as (_ & _ & ?); auto.
Qed.

(** *** Blocks of other clients *)

Definition unchanged (w w' : World) : Prop := fst w' = fst w.
#[local] Instance unchanged_preorder : PreOrder unchanged.
Proof. unfold unchanged. split; [done|]. intros ???. congruence. Qed.
Lemma unchanged_outside {A} (f : Surroundings -> A * Surroundings) : within unchanged (outside f).
Proof. intros [r s] x w' E. unfold outside in E. destruct (f _). by injection E as _ <-. Qed.
Lemma unchanged_event k c n e : within unchanged (handle_event conf k c n e).
Proof. apply within_when, unchanged_outside. Qed.
Lemma unchanged_access env c n x : within unchanged (access_allowed env c n x).
Proof. unfold access_allowed. case_match; [|apply within_ret]. apply within_bind; [apply unchanged_outside|intros ?; apply within_ret]. Qed.
Lemma unchanged_track r c n : within unchanged (track_write conf r c n).
Proof.
  apply within_bind; [apply within_gets|intros bf]. apply within_bind; [apply unchanged_outside|intros _].
  apply within_bind; [apply unchanged_event|intros _]. apply within_ret.
Qed.

Lemma check_held env w c x w' : clientConnection (fst w) = Some c -> checkReservationTimeout conf env w = Some (x, w') -> w' = w.
Proof.
  intros Hc E. unfold checkReservationTimeout in E. next E as R. next E as R. next E as R. rewrite Hc, andb_false_r in E. by injection E as _ <-.
Qed.

Lemma claim_held env w c c' x w' : clientConnection (fst w) = Some c -> c' <> c -> reserved (fst w) = true ->
  claim_buffered conf env c' w = Some (x, w') -> w' = w.
Proof.
  intros Hc Hn Hr E. unfold claim_buffered in E. next E as R. apply (check_held _ _ _ _ _ Hc) in R as ->. next E as R. next E as R.
  rewrite Hr in E. cbn [negb andb when] in E. case_decide; [by injection E as _ <-|]. destruct (bool_decide _); cbn [when] in E; [|by injection E as _ <-].
  next E as R. rewrite Hc, bool_decide_eq_false_2 in E by congruence. by injection E as _ <-.
Qed.

Definition refused (r : Z) : Prop := r = DATA_ACCESS_ERROR_TEMPORARILY_UNAVAILABLE \/ r = DATA_ACCESS_ERROR_OBJECT_ACCESS_DENIED.

Lemma run_track r c n w x w' : track_write conf r c n w = Some (x, w') -> x = r.
Proof. intros E. unfold track_write in E. next E as R. next E as R1. next E as R2. by injection E as -> _. Qed.

Lemma foreign_write env n u c c' w r w' : clientConnection (fst w) = Some c -> c' <> c -> reserved (fst w) = true ->
  Reporting_RCBWriteAccessHandler conf env n u c' w = Some (r, w') -> fst w' = fst w /\ refused r.
Proof.
  intros Hc Hn Hr E. unfold Reporting_RCBWriteAccessHandler in E. next E as R1. apply unchanged_access in R1 as H1. red in H1. destruct x.
  - rewrite <- H1 in Hc, Hr. next E as R2. next E as R3. assert (w1 = w0) as ->.
    { destruct (buffered _); cbn [when] in R3; [by eapply claim_held|by injection R3 as _ <-]. }
    next E as R4. next E as R5. unfold write_locked in R5. next R5 as R6. unfold locked_out in R6. next R6 as R7. next R6 as R8.
    injection R6 as <- <-. rewrite Hr, Hc in R5. cbn [negb andb] in R5. rewrite andb_false_r in R5. cbn [andb] in R5.
    rewrite bool_decide_eq_true_2 in R5 by congruence. injection R5 as <- <-. next E as R9. injection R9 as _ <-. next E as R10. injection R10 as _ <-.
    next E as R11. injection R11 as _ <-. apply run_track in E as H2. apply unchanged_track in E. red in E. cbn [fst] in E. split; [congruence|left; congruence].
  - apply run_track in E as H2. apply unchanged_track in E. red in E. split; [congruence|right; congruence].
Qed.

(** What other clients than [c] do. *)
Definition foreign (c : nat) (s : step) : Prop :=
  match s with
  | Request (Write _ _ c') _ | Request (Read c' _) _ | Request (Closed c') _ => c' <> c
  | Request Stopped _ | Request Started _ => False
  | Reports => True
  end.
Definition answered (s : step) : Prop :=
  match s with Request (Write _ _ _) a => exists r, a = Some r /\ refused r | _ => True end.

Lemma foreign_serve env q w a w' c : serve conf env q w = Some (a, w') -> foreign c (Request q a) -> clientConnection (fst w) = Some c ->
  reserved (fst w) = true -> fst w' = fst w /\ answered (Request q a).
Proof.
  intros E Hf Hc Hr. destruct q as [n u c'|c' n|c'| |]; try done; cbn [foreign] in Hf.
  - next E as R. injection E as <- <-. destruct (foreign_write _ _ _ _ _ _ _ _ Hc Hf Hr R). split; [done|by eexists].
  - next E as R. injection E as <- <-. split; [|done]. unfold ReportControl_readAccess in R. next R as R1. next R as R2. assert (w1 = w) as ->.
    { destruct (buffered _); cbn [when] in R2; [by eapply check_held|by injection R2 as _ <-]. }
    next R as R3. apply unchanged_access in R3. next R as R4. apply unchanged_event in R4. injection R as _ ->. unfold unchanged in *. congruence.
  - next E as R. injection E as <- <-. split; [|done]. unfold Reporting_deactivateReportsForConnection in R. next R as R1.
    rewrite Hc, bool_decide_eq_false_2 in R by congruence. by injection R as _ <-.
Qed.

Lemma respected w0 c h w : history conf w0 h w -> consistent conf (fst w0) -> clientConnection (fst w0) = Some c -> Forall (foreign c) h ->
  changes conf (buffered (control (fst w0))) numbers w0 w /\ Forall answered h.
Proof.
  induction 1 as [|h w1 env q a w2 Hh IH E Hs|h w1 w2 Hh IH Hch]; intros H0 Hc Hf.
  - split; [reflexivity|done].
  - apply Forall_app in Hf as [Hf Hf2]. inversion_clear Hf2 as [|? ? Hf3 _]. destruct (IH H0 Hc Hf) as [H1 Ha].
    destruct (H1 eq_refl) as [Hx Hs1]. assert (Hc1 : clientConnection (fst w1) = Some c) by (rewrite <- Hc; apply (Hs1 Client); not_in).
    assert (Hr1 : reserved (fst w1) = true).
    { transitivity (reserved (fst w0)); [apply (Hs1 Reserved); not_in|]. apply (c_client _ _ H0). by eexists. }
    destruct (foreign_serve _ _ _ _ _ _ E Hf3 Hc1 Hr1) as [Hw Ha2]. split; [|apply Forall_app; split; [done|by repeat constructor]].
    intros Hb. destruct (H1 Hb). by rewrite Hw.
  - apply Forall_app in Hf as [Hf _]. destruct (IH H0 Hc Hf) as [H1 Ha]. split; [|apply Forall_app; split; [done|by repeat constructor]].
    etrans; [exact H1|]. destruct (H1 eq_refl) as [Hx _]. by rewrite (f_buffered _ _ Hx) in Hch.
Qed.

(** *** The block a client has enabled *)

(** No step of these ends the reports of [c]: it does not turn them off, its connection is not
    closed and the server is not stopped. *)
Definition leaves_on (c : nat) (s : step) : Prop :=
  match s with
  | Request (Write n u c') _ => ~ (c' = c /\ turns_off n u)
  | Request (Closed c') _ => c' <> c
  | Request Stopped _ | Request Started _ => False
  | Request (Read _ _) _ | Reports => True
  end.

Lemma enabled_serve env q w a w' c : serve conf env q w = Some (a, w') -> leaves_on c (Request q a) -> clientConnection (fst w) = Some c ->
  reserved (fst w) = true -> enabled (control (fst w)) = true -> changes conf (buffered (control (fst w))) [Timeout] w w'.
Proof.
  intros E Hl Hc Hr He. assert (H : foreign c (Request q a) -> changes conf (buffered (control (fst w))) [Timeout] w w').
  { intros Hf. destruct (foreign_serve _ _ _ _ _ _ E Hf Hc Hr) as [Hw _]. intros _. rewrite Hw. split; [by split|by intros []]. }
  destruct q as [n u c'|c' n|c'| |]; try done; cbn [foreign leaves_on] in *; [| |by apply H];
    (destruct (decide (c' = c)) as [->|Hn]; [|by apply H]); next E as R; injection E as <- <-.
  - eapply own_write; [exact R|done..|]. intros Ht. by apply Hl.
  - eapply changes_mono; [|eapply own_read; [exact R|exact Hc]]. done.
Qed.

Lemma stays_enabled w0 c h w : history conf w0 h w -> consistent conf (fst w0) -> enabled (control (fst w0)) = true ->
  clientConnection (fst w0) = Some c -> Forall (leaves_on c) h -> changes conf (buffered (control (fst w0))) (Timeout :: numbers) w0 w.
Proof.
  induction 1 as [|h w1 env q a w2 Hh IH E Hs|h w1 w2 Hh IH Hch]; intros H0 He Hc Hf; [reflexivity| |].
  - apply Forall_app in Hf as [Hf Hf2]. inversion_clear Hf2 as [|? ? Hf3 _]. pose proof (IH H0 He Hc Hf) as H1.
    destruct (H1 eq_refl) as [Hx Hs1]. assert (Hc1 : clientConnection (fst w1) = Some c) by (rewrite <- Hc; apply (Hs1 Client); not_in).
    assert (Hr1 : reserved (fst w1) = true).
    { transitivity (reserved (fst w0)); [apply (Hs1 Reserved); not_in|]. apply (c_client _ _ H0). by eexists. }
    assert (He1 : enabled (control (fst w1)) = true) by (rewrite <- He; apply (Hs1 Enabled); not_in).
    etrans; [exact H1|]. pose proof (enabled_serve _ _ _ _ _ _ E Hf3 Hc1 Hr1 He1) as H2. rewrite (f_buffered _ _ Hx) in H2.
    eapply changes_mono; [|exact H2]. done.
  - apply Forall_app in Hf as [Hf _]. pose proof (IH H0 He Hc Hf) as H1. etrans; [exact H1|]. destruct (H1 eq_refl) as [Hx _].
    rewrite (f_buffered _ _ Hx) in Hch. eapply changes_mono; [|exact Hch]. done.
Qed.

End Histories.

(** *** Playing requests *)

Fixpoint play (conf : Configuration) (qs : list (Environment * request)) (h : list step) (w : World) : option (list step * World) :=
  match qs with
  | [] => Some (h, w)
  | (env, q) :: qs => '(a, w) ← serve conf env q w; play conf qs (h ++ [Request q a]) w
  end.

Lemma played_history conf qs : forall w0 h w h' w', Forall (fun q => snd q <> Started) qs -> history conf w0 h w ->
  play conf qs h w = Some (h', w') -> history conf w0 h' w'.
Proof.
  induction qs as [|[env q] qs IH]; intros w0 h w h' w' Hq Hh E; [by injection E as <- <-|]. inversion_clear Hq as [|? ? Hq1 Hq2].
  cbn [play] in E. destruct (serve conf env q w) as [[a w1]|] eqn:Es; [|done]. cbn [mbind option_bind] in E.
  eapply (IH w0); [done| |exact E]. eapply history_request; [done|exact Es|]. intros ->. by destruct Hq1.
Qed.

(** *** Blocks that the server has created *)

Lemma new_elements_values es : forall w ss vs w', new_elements es w = Some (ss, vs, w') ->
  fst w' = fst w /\ forall i e, es !! i = Some e -> exists v mem mem', vs !! i = Some v /\ snd e mem = Some (v, mem').
Proof.
  induction es as [|e es IH]; intros w ss vs w' E; [injection E as _ <- <-; split; [done|by intros []]|].
  cbn [new_elements] in E. apply bind_inv in E as ([s v] & w1 & R & E). apply bind_inv in E as ([ss1 vs1] & w2 & R2 & E).
  injection E as _ <- <-. apply IH in R2 as [Hw IH2]. destruct e as [[n t] f]. unfold new_element in R.
  next R as S1. apply bind_inv in S1 as (ok & w3 & [S1 _]%run_allocating & S2). apply lift_inv in S2 as [_ ->].
  next R as S2. apply run_allocating in S2 as [S2 _]. next R as S3. next R as S4. apply run_allocating in S4 as [S4 (mem & Ef)].
  injection R as _ <- <-. split; [congruence|]. intros [|i] e He; [injection He as <-; by eexists _, _, _|]. by apply IH2.
Qed.

Lemma new_structure_values rcb es w s vs w' : new_structure rcb es w = Some (s, vs, w') ->
  fst w' = fst w /\ forall i e, es !! i = Some e -> exists v mem mem', vs !! i = Some v /\ snd e mem = Some (v, mem').
Proof.
  intros E. unfold new_structure in E.
  assert (Hc : forall w x w', calloc w = Some (x, w') -> fst w' = fst w).
  { intros w1 x w2 R. apply bind_inv in R as (ok & w3 & [S1 _]%run_allocating & S2). by apply lift_inv in S2 as [_ ->]. }
  next E as R1. apply Hc in R1. next E as R2. apply run_allocating in R2 as [R2 _]. next E as R3.
  next E as R4. apply Hc in R4. next E as R5. apply Hc in R5. next E as R6. apply Hc in R6. apply bind_inv in E as ([ss vs'] & w6 & R7 & E).
  injection E as _ <- <-. apply new_elements_values in R7 as [R7 H]. split; [congruence|done].
Qed.

(** A block that was never used: exactly the pre-assigned ones show that they are reserved. *)
Record fresh_block (r : Rcb) : Prop := {
  fr_enabled : enabled (control r) = false;
  fr_reserved : reserved r = false;
  fr_client : clientConnection r = None;
}.

Lemma fresh_consistent conf r : fresh_block r -> value conf r RptEna = Some (MmsBoolean false) -> is_Some (value conf r DatSet) ->
  (buffered (control r) = false -> value conf r Resv = Some (MmsBoolean (bool_decide (resvTms r = -1)))) -> consistent conf r.
Proof.
  intros [He Hr Hn] Hv Hd Hs. apply consistent_disabled; rewrite ?Hr, ?Hn; done.
Qed.

Section Created.
Context (conf : Configuration) (env : Environment) (domainName : list Z) (rcb : ReportControlBlock).

Lemma run_preassign b i w x w' : index conf b Owner = Some i -> preassign i w = Some (x, w') ->
  changes conf b [Seconds; Seen Owner] w w' /\
  exists kind, (clientReservation (fst w)).[0] = Some kind /\ resvTms (fst w') = if decide (kind = 4 \/ kind = 6) then -1 else resvTms (fst w).
Proof.
  intros Hi E. assert (Hp : points conf b Owner (Some i)) by (by intros j [= <-]).
  split.
  { refine ((_ : within (changes conf b [Seconds; Seen Owner]) (preassign i)) _ _ _ E). unfold preassign, setOwner. frame. }
  unfold preassign in E. next E as R1. next E as R2. exists x0. split; [done|].
  assert (Ho : forall p q w x w', setOwner (Some i) p q 16 w = Some (x, w') \/ setOwner (Some i) p q 4 w = Some (x, w') -> resvTms (fst w') = resvTms (fst w)).
  { intros p q w1 y w2 H. unfold setOwner, set_value in H.
    assert (exists v v', store v v' w1 = Some (y, w2)) as (v & v' & (r & ? & [= <- <-] & (r' & ? & [Es ->]%lift_inv & [= _ <-])%bind_inv)%bind_inv).
    { destruct H as [H|H]; next H as S1; next H as S2; apply run_load in S2 as [_ ->]; next H as S3; eauto. }
    by destruct (set_component_rest _ _ _ _ Es) as [[= _ _ ? _ _ _] _]. }
  destruct (decide (x0 = 4)) as [->|H4]; [|destruct (bool_decide_reflect (x0 = 6)) as [->|H6]]; cbn [when] in E.
  - next E as R3. apply run_modify in R3. erewrite Ho by (right; exact E). by rewrite R3.
  - next E as R3. apply run_modify in R3. erewrite Ho by (left; exact E). by rewrite R3.
  - injection E as _ <-. by rewrite decide_False by tauto.
Qed.

Lemma refresh_changes b : within (changes conf b [Operations; Period; BufferTime]) (refresh_all conf env).
Proof.
  apply within_bind; [eapply within_changes; [apply frames_refreshBufferTime|done]|intros _].
  apply within_bind; [eapply within_changes; [apply frames_refreshIntegrityPeriod|done]|intros _].
  eapply within_changes; [apply frames_refreshTriggerOptions|done].
Qed.

(** What the blocks of both kinds have in common when their elements are stored. *)
Definition elements_of (r : Rcb) (es : list element) : Prop :=
  forall i e, es !! i = Some e -> exists v mem mem', rcbValues r !! i = Some v /\ snd e mem = Some (v, mem').

Lemma element_value r es e i n t f : elements_of r es -> index conf (buffered (control r)) e = Some i -> is_Some (value conf r e) ->
  es !! i = Some (n, t, f) -> buffered (control r) && bool_decide (i = 11%nat \/ i = 12%nat) = false ->
  exists v mem mem', value conf r e = Some v /\ f mem = Some (Some v, mem').
Proof.
  intros H Hi [u Hu] He Hs. destruct (H _ _ He) as (v & mem & mem' & Hv & Hf). exists u, mem, mem'. split; [done|].
  unfold value in Hu. rewrite Hi in Hu. cbn [mbind option_bind] in Hu. unfold component in Hu. cbn [snd] in Hf.
  rewrite decide_True in Hu by (by eapply lookup_lt_Some). rewrite Hv in Hu. destruct (buffered _); cbn [andb] in *.
  - apply bool_decide_eq_false_1 in Hs. rewrite !bool_decide_eq_false_2 in Hu by tauto. destruct v; [by injection Hu as ->|done].
  - destruct v; [by injection Hu as ->|done].
Qed.

Lemma new_boolean v mem u mem' : newBoolean v mem = Some (Some u, mem') -> u = MmsBoolean v.
Proof.
  unfold newBoolean, new_value. destruct (malloc mem) as [[[] m]|] eqn:E; unfold m_bind; rewrite E; cbn; by intros [= <- _].
Qed.

Lemma element_boolean r es e i n t v : elements_of r es -> index conf (buffered (control r)) e = Some i -> is_Some (value conf r e) ->
  es !! i = Some (n, t, newBoolean v) -> buffered (control r) && bool_decide (i = 11%nat \/ i = 12%nat) = false ->
  value conf r e = Some (MmsBoolean v).
Proof.
  intros H Hi Hv He Hs. destruct (element_value _ _ _ _ _ _ _ H Hi Hv He Hs) as (u & mem & mem' & Hu & Hf). by apply new_boolean in Hf as ->.
Qed.

Definition preassigned (r : Rcb) : Prop := exists kind, (clientReservation r).[0] = Some kind /\
  (kind = 0 \/ (kind = 4 \/ kind = 6) /\ has_owner conf r = true).

Lemma created_buffered n w x w' : createBufferedReportControlBlock conf env domainName rcb n w = Some (x, w') ->
  buffered (control (fst w)) = true -> fresh_block (fst w) -> is_Some (value conf (fst w') RptEna) -> is_Some (value conf (fst w') DatSet) ->
  buffered (control (fst w')) = true /\ fresh_block (fst w') /\ consistent conf (fst w').
Proof.
  intros E Hb Hfr H1 H2. unfold createBufferedReportControlBlock in E. apply bind_inv in E as (r & w0 & R & E). injection R as <- <-.
  apply bind_inv in E as ([s vs] & w1 & R1 & E). apply new_structure_values in R1 as [Hw H]. apply bind_inv in E as ([i t] & w2 & R2 & E).
  apply lift_inv in R2 as [_ ->]. next E as R3. apply run_modify in R3. next E as R4. apply run_modify in R4. next E as R5. apply run_modify in R5.
  assert (Hrest : changes conf true [Seconds; Seen Owner; Seen ResvTms; Operations; Period; BufferTime] w3 w').
  { next E as R6. assert (H6 : changes conf true [Seconds; Seen Owner] w3 w4).
    { unfold has_owner in R6. cbn [id] in R6. destruct (bool_decide_reflect (edition conf >= IEC_61850_EDITION_2)) as [Hed|Hed]; [|by injection R6 as _ <-].
      destruct (hasOwner (fst w)); [|by injection R6 as _ <-]. cbn [andb when] in R6. eapply (run_preassign true); [|exact R6].
      unfold index, buffered_index, has_resvTms. rewrite !(bool_decide_eq_true_2 _ Hed). by destruct (enableBRCBResvTms conf). }
    next E as R7. next E as R8. assert (H8 : changes conf true [Seen ResvTms] w4 w5).
    { destruct (has_resvTms conf) eqn:Hrt; [|by injection R8 as _ <-]. refine ((_ : within (changes conf true [Seen ResvTms]) _) _ _ _ R8).
      apply within_when. apply (changes_set_value _ _ ResvTms); [|in_list]. intros ? [= <-]. unfold has_resvTms in Hrt. unfold index, buffered_index. by rewrite Hrt. }
    next E as R9. apply (refresh_changes true) in R9. injection E as _ <-.
    etrans; [eapply changes_mono; [|exact H6]; done|]. etrans; [eapply changes_mono; [|exact H8]; done|]. eapply changes_mono; [|exact R9]; done. }
  assert (Hb3 : buffered (control (fst w3)) = true) by (rewrite R5, R4, R3; cbn; by rewrite Hw).
  assert (Hel : elements_of (fst w3) (buffered_elements domainName rcb n)).
  { intros j e He. destruct (H j e) as (v & mem & mem' & Hv & Hf); [by apply lookup_app_l_Some|]. exists v, mem, mem'. split; [|done].
    by rewrite R5, R4, R3. }
  destruct (Hrest Hb3) as [Hx Hs]. split; [by rewrite (f_buffered _ _ Hx)|]. destruct Hfr as [F1 F2 F3].
  assert (Hv1 : value conf (fst w') RptEna = value conf (fst w3) RptEna) by (apply (Hs (Seen RptEna)); not_in).
  assert (Hv2 : value conf (fst w') DatSet = value conf (fst w3) DatSet) by (apply (Hs (Seen DatSet)); not_in).
  assert (Hfr : fresh_block (fst w')).
  { split.
    - rewrite (Hs Enabled ltac:(not_in)), R5, R4, R3. cbn. by rewrite Hw.
    - rewrite (Hs Reserved ltac:(not_in)), R5, R4, R3. cbn. by rewrite Hw.
    - rewrite (Hs Client ltac:(not_in)), R5, R4, R3. cbn. by rewrite Hw. }
  split; [done|]. apply fresh_consistent; [done| |done|].
  - rewrite Hv1. eapply element_boolean; [exact Hel|by rewrite Hb3|by rewrite <- Hv1|done|by rewrite Hb3].
  - rewrite (f_buffered _ _ Hx), Hb3. done.
Qed.

Lemma changes_time_of_entry t (w w' : World) : fst w' = (fst w) <| control ::= set timeOfEntry (const t) |> -> changes conf false [] w w'.
Proof.
  intros E Hb. rewrite E. split; [by split|]. intros p _. destruct p; try done. cbn [same]. unfold value, component.
  cbn. rewrite Hb. cbn. done.
Qed.

Lemma run_set_index e i f w x w' : index conf (buffered (control (fst w))) e = Some i -> set_value (Some i) f w = Some (x, w') ->
  exists v v', value conf (fst w) e = Some v /\ f v = Some v' /\ value conf (fst w') e = Some v'.
Proof.
  intros Hi E. apply (run_set_value conf e f w x w'). replace (pointer conf (fst w) e) with (Some i); [done|].
  next E as R1. next E as R2. apply run_load in R2 as [Hc _]. injection R1 as <-. unfold pointer. rewrite Hi. cbn [mbind option_bind]. by rewrite Hc.
Qed.

Lemma created_unbuffered n w x w' : createUnbufferedReportControlBlock conf env domainName rcb n w = Some (x, w') ->
  buffered (control (fst w)) = false -> fresh_block (fst w) -> resvTms (fst w) = 0 -> preassigned (fst w) ->
  is_Some (value conf (fst w') RptEna) -> is_Some (value conf (fst w') DatSet) -> is_Some (value conf (fst w') Resv) ->
  buffered (control (fst w')) = false /\ fresh_block (fst w') /\ consistent conf (fst w').
Proof.
  intros E Hb Hfr Hr0 (kind & Hkind & Hpre) H1 H2 H3. unfold createUnbufferedReportControlBlock in E. apply bind_inv in E as (r & w0 & R & E). injection R as <- <-.
  apply bind_inv in E as ([s vs] & w1 & R1 & E). apply new_structure_values in R1 as [Hw H]. next E as R3. apply run_modify in R3.
  assert (Hb0 : buffered (control (fst w0)) = false) by (rewrite R3; cbn; by rewrite Hw).
  assert (Hel : elements_of (fst w0) (unbuffered_elements domainName rcb n)).
  { intros j e He. destruct (H j e) as (v & mem & mem' & Hv & Hf); [by apply lookup_app_l_Some|]. exists v, mem, mem'. split; [|done].
    by rewrite R3. }
  next E as R4. cbn [id] in R4.
  assert (H4 : changes conf false [Seconds; Seen Owner] w0 w2 /\ resvTms (fst w2) = if decide (kind = 0) then 0 else -1).
  { assert (Hk0 : clientReservation (fst w0) = clientReservation (fst w)) by (rewrite R3; cbn; by rewrite Hw).
    assert (Ht0 : resvTms (fst w0) = 0) by (rewrite R3; cbn; by rewrite Hw). destruct (has_owner conf (fst w)) eqn:Ho; cbn [when] in R4.
    - destruct (run_preassign false 11 _ _ _ eq_refl R4) as [Hch (k & Hk & ->)]. split; [done|]. assert (k = kind) as -> by congruence.
      rewrite Ht0. destruct Hpre as [->|[? _]]; [done|]. by rewrite decide_True, decide_False by lia.
    - injection R4 as _ <-. split; [reflexivity|]. rewrite Ht0. by destruct Hpre as [->|[_ ?]]. }
  destruct H4 as [H4 Ht4]. destruct (H4 Hb0) as [Hx4 Hs4]. next E as R5. next E as R6.
  assert (x2 = kind) as -> by (rewrite (f_reservation _ _ Hx4), R3 in R6; cbn in R6; rewrite Hw in R6; congruence).
  next E as R7. assert (H7 : changes conf false [Seen Resv] w2 w3).
  { refine ((_ : within (changes conf false [Seen Resv]) _) _ _ _ R7). apply within_when.
    apply (changes_set_value _ _ Resv); [|in_list]. by intros ? [= <-]. }
  destruct (H7 ltac:(by rewrite (f_buffered _ _ Hx4))) as [Hx7 Hs7].
  next E as R8. apply run_allocating in R8 as [R8 _]. next E as R9. next E as R10. apply run_modify in R10. rewrite R8 in R10.
  apply changes_time_of_entry in R10. next E as R11. apply (refresh_changes false) in R11. injection E as _ <-.
  assert (Hrest : changes conf false [Operations; Period; BufferTime] w3 w6) by (etrans; [by eapply changes_mono; [|exact R10]|done]).
  destruct (Hrest ltac:(by rewrite (f_buffered _ _ Hx7), (f_buffered _ _ Hx4))) as [Hx Hs].
  assert (Hall : changes conf false [Seconds; Seen Owner; Seen Resv; Operations; Period; BufferTime] w0 w6).
  { etrans; [eapply changes_mono; [|exact H4]; done|]. etrans; [eapply changes_mono; [|exact H7]; done|].
    eapply changes_mono; [|exact Hrest]; done. }
  destruct (Hall Hb0) as [Hxa Hk].
  assert (Hfr' : fresh_block (fst w6)).
  { destruct Hfr as [F1 F2 F3].
    split; [rewrite (Hk Enabled ltac:(not_in))|rewrite (Hk Reserved ltac:(not_in))|rewrite (Hk Client ltac:(not_in))]; rewrite R3; cbn; by rewrite Hw. }
  pose proof (Hk (Seen RptEna) ltac:(not_in)) as Hv1. cbn [same] in Hv1.
  assert (Hb6 : buffered (control (fst w6)) = false) by (by rewrite (f_buffered _ _ Hx), (f_buffered _ _ Hx7), (f_buffered _ _ Hx4)).
  split_and!; [done|done|]. apply fresh_consistent; [done| |done|].
  - rewrite Hv1. eapply element_boolean; [exact Hel|by rewrite Hb0|by rewrite <- Hv1|done|by rewrite Hb0].
  - intros _. pose proof (Hs (Seen Resv) ltac:(not_in)) as Hv3. pose proof (Hs Seconds ltac:(not_in)) as Hv4.
    pose proof (Hs7 Seconds ltac:(not_in)) as Hv5. pose proof (Hs4 (Seen Resv) ltac:(not_in)) as Hv6. cbn [same] in *.
    rewrite Hv3, Hv4, Hv5, Ht4. destruct (decide (kind = 0)) as [->|Hne].
    + cbn [when] in R7. injection R7 as _ <-. rewrite Hv6. eapply element_boolean; [exact Hel|by rewrite Hb0| |done|by rewrite Hb0].
      by rewrite <- Hv6, <- Hv3.
    + rewrite bool_decide_eq_true_2 in R7 by lia. cbn [when] in R7.
      apply (run_set_index Resv) in R7 as (v & v' & _ & Hset & ->); [|by rewrite (f_buffered _ _ Hx4), Hb0].
      destruct v; try discriminate. by injection Hset as <-.
Qed.
End Created.

Lemma history_consistent conf w0 h w : history conf w0 h w -> consistent conf (fst w0) -> consistent conf (fst w).
Proof.
  induction 1 as [|h w1 env q a w2 Hh IH E Hs|h w1 w2 Hh IH Hch]; intros H0; [done| |].
  - eapply served_consistent; eauto.
  - eapply consistent_frame; eauto.
Qed.

(** ** Properties *)


(** C5: The state of a report control block is consistent after every sequence of accesses of clients,
    closing connections, and reports: a block that is enabled is reserved, exactly a reserved block
    has a client, clients read in [RptEna] whether it is enabled and in [Resv] whether it is reserved
    or pre-assigned, and an enabled block has a data set and works with the trigger options, the
    integrity period and the buffer time that clients read. *)
Theorem rcb_consistent conf w0 h w : history conf w0 h w -> consistent conf (fst w0) -> consistent conf (fst w).
Proof.
  apply history_consistent.
Qed.


(** C7: Once a client has enabled a report control block, its reports stay enabled, and the data
    set, the settings and everything clients read of it stay the same until this client turns the
    reports off or closes its connection, or the server stops: its own writes of other settings are refused. *)
Theorem reports_stay_enabled conf w0 c h w : history conf w0 h w -> consistent conf (fst w0) -> enabled (control (fst w0)) = true ->
  clientConnection (fst w0) = Some c -> Forall (leaves_on c) h ->
  enabled (control (fst w)) = true /\ clientConnection (fst w) = Some c /\
  changes conf (buffered (control (fst w0))) (Timeout :: numbers) w0 w.
Proof.
  intros Hh H0 He Hc Hf. pose proof (stays_enabled conf _ _ _ _ Hh H0 He Hc Hf) as H. destruct (H eq_refl) as [_ Hs].
  split_and!; [rewrite <- He; apply (Hs Enabled); not_in|rewrite <- Hc; apply (Hs Client); not_in|done].
Qed.


(** ** Examples *)

Definition sample_block (b : bool) (reservation : list Z) : World := from_option snd (sample_world 1 b reservation) (sample_created 1 b reservation).
Definition write_boolean (n : string) (v : bool) (c : nat) : request := Write (literal n) (MmsBoolean v) c.

Definition first_enables : list (Environment * request) := [(sample_env 10, write_boolean "RptEna" true 1)].
Definition others_try : list (Environment * request) :=
  [(sample_env 20, write_boolean "RptEna" true 2); (sample_env 30, write_boolean "Resv" true 2); (sample_env 40, Read 2 (literal "Resv"));
   (sample_env 50, write_boolean "RptEna" false 2); (sample_env 60, Closed 2)]%nat.
Definition first_goes_on : list (Environment * request) :=
  [(sample_env 70, write_boolean "GI" true 1); (sample_env 80, write_boolean "RptEna" true 1); (sample_env 90, write_boolean "Resv" false 1)].

(** The steps and the block after requests to a block in this state. *)
Definition played (qs : list (Environment * request)) (w : World) : list step * World := default ([], w) (play (sample_conf 1) qs [] w).
Definition sample_enabled (b : bool) : World := snd (played first_enables (sample_block b [0])).

(** Reserved for the client with the address 10.0.0.1. *)
Definition sample_address : list Z := [4; 10; 0; 0; 1; 0; 0; 0; 0; 0; 0; 0; 0; 0; 0; 0; 0].

Definition sample_server : Reporting.Server := {| Reporting.syncIntegrityReportTimes := false; Reporting.rcbEventHandler := true |}.
Definition sample_surroundings : Surroundings := {| calls := 0; memory := []; sent := [] |}.

Lemma sample_created_block : exists spec,
  Reporting_createMmsRCB (sample_conf 1) (sample_env 0) (literal "IEDLD0") (sample_rcb sample_address)
    (ReportControl_create false (Reporting.sample_buffer 128) sample_server (sample_rcb sample_address) true, sample_surroundings) =
  Some (spec, sample_block false sample_address).
Proof. eexists. vm_compute. reflexivity. Qed.

Lemma sample_created_values e : is_Some (index (sample_conf 1) false e) -> is_Some (value (sample_conf 1) (fst (sample_block false sample_address)) e).
Proof. intros [i Hi]. destruct e; first [discriminate Hi | eexists; vm_compute; reflexivity]. Qed.


Lemma sample_enabled_reached b : Forall (fun q => snd q <> Started) first_enables /\
  exists h, play (sample_conf 1) first_enables [] (sample_block b [0]) = Some (h, sample_enabled b).
Proof. split; [by repeat constructor|]. destruct b; eexists; vm_compute; reflexivity. Qed.

Lemma sample_block_consistent b : consistent (sample_conf 1) (fst (sample_block b [0])).
Proof.
  apply fresh_consistent; [split; destruct b; vm_compute; reflexivity|destruct b; vm_compute; reflexivity
    |destruct b; eexists; vm_compute; reflexivity|destruct b; [intros H; vm_compute in H; discriminate|intros _; vm_compute; reflexivity]].
Qed.

Lemma sample_enabled_client b : clientConnection (fst (sample_enabled b)) = Some 1%nat.
Proof. destruct b; vm_compute; reflexivity. Qed.
Lemma sample_enabled_reports b : enabled (control (fst (sample_enabled b))) = true.
Proof. destruct b; vm_compute; reflexivity. Qed.
Lemma sample_enabled_buffered b : buffered (control (fst (sample_enabled b))) = b.
Proof. destruct b; vm_compute; reflexivity. Qed.
Lemma sample_enabled_seconds b : 0 < resvTms (fst (sample_enabled b)).
Proof. destruct b; vm_compute; reflexivity. Qed.

Lemma sample_enabled_consistent b : consistent (sample_conf 1) (fst (sample_enabled b)).
Proof.
  destruct (sample_enabled_reached b) as (Hq & h & E). apply (played_history _ _ _ _ _ _ _ Hq (history_start _ _)) in E.
  exact (history_consistent _ _ _ _ E (sample_block_consistent b)).
Qed.

Lemma rcb_consistent_witness : exists h w, history (sample_conf 1) (sample_block true [0]) h w /\ length h = 6%nat /\
  enabled (control (fst w)) = true /\ consistent (sample_conf 1) (fst w).
Proof.
  assert (E : exists h w, play (sample_conf 1) (first_enables ++ others_try) [] (sample_block true [0]) = Some (h, w) /\ length h = 6%nat /\
    enabled (control (fst w)) = true) by (eexists _, _; split; [vm_compute; reflexivity|split; reflexivity]).
  destruct E as (h & w & E & Hl & He). exists h, w.
  assert (Hh : history (sample_conf 1) (sample_block true [0]) h w).
  { eapply played_history; [|apply history_start|exact E]. by repeat constructor. }
  split_and!; [exact Hh|exact Hl|exact He|]. apply (rcb_consistent _ _ _ _ Hh), sample_block_consistent.
Defined.


Lemma reports_stay_enabled_witness : exists h w, history (sample_conf 1) (sample_enabled false) h w /\ length h = 8%nat /\
  enabled (control (fst w)) = true /\ clientConnection (fst w) = Some 1%nat.
Proof.
  assert (E : exists h w, play (sample_conf 1) (others_try ++ first_goes_on) [] (sample_enabled false) = Some (h, w) /\ length h = 8%nat /\
    Forall (leaves_on 1) h).
  { eexists _, _. split; [vm_compute; reflexivity|split; [reflexivity|]].
    repeat (apply Forall_cons; split); try apply Forall_nil;
      first [exact I | discriminate | intros (Hc & _ & Hu); discriminate | intros (_ & He & _); vm_compute in He; discriminate]. }
  destruct E as (h & w & E & Hl & Hf). exists h, w.
  assert (Hh : history (sample_conf 1) (sample_enabled false) h w).
  { eapply played_history; [|apply history_start|exact E]. by repeat constructor. }
  split; [exact Hh|]. split; [exact Hl|].
  destruct (reports_stay_enabled _ _ _ _ _ Hh (sample_enabled_consistent false) (sample_enabled_reports false) (sample_enabled_client false) Hf) as (H1 & H2 & _).
  split; [exact H1|exact H2].
Defined.

Lemma sample_leaves : exists w1 w2,
  Reporting_deactivateReportsForConnection (sample_conf 1) (sample_env 100) 1 (sample_enabled true) = Some (tt, w1) /\
  ReportControl_readAccess (sample_conf 1) (sample_env 10101) 2 (literal "ResvTms") w1 = Some (true, w2) /\
  resvTms (fst (sample_enabled true)) = 10.
Proof. eexists _, _. split; [vm_compute; reflexivity|split; vm_compute; reflexivity]. Qed.


End RcbHistories.
